(* ===== verification/_CoqProject ===== *)
-Q . S2P
Prelude.v
Circ.v
Bytes.v
Desc.v
Pool.v
Steering.v
Sq.v
Send.v
Mpw.v
Cqe.v
Clock.v
Mlx5Region.v
WqeClaims.v
RingTx.v
RingTxInv.v
RingTxPost.v
RingTxMulti.v
RingTxComplete.v
RingTxSystem.v
RingTxClaims.v
MockNic.v
MockNicThms.v
MockNicClaims.v
RingRx.v
RingRxInv.v
RingRxDevice.v
RingRxClaims.v
Mlx5Tx.v
Mlx5Rx.v
Mlx5TxOps.v
Mlx5Send.v
Mlx5RxOps.v
Mlx5Claims.v
Mbuf.v
MbufThms.v
DpdkRing.v
DpdkQueue.v
DpdkBuild.v
DpdkTxOps.v
DpdkRxOps.v
DpdkSystem.v
DpdkClaims.v
DpdkDevice.v
DpdkFan.v
DpdkFanOps.v
DpdkFanRx.v
DpdkFanClaims.v
Csum.v
AfTx.v
AfTxWire.v
AfTxOps.v
AfTxGather.v
AfTxFrames.v
AfRing.v
AfRingBufs.v
AfRingThms.v
AfRx.v
AfRxThms.v
AfSystem.v
AfOptions.v
AfOpen.v
AfOpenThms.v
AfClaims.v
GvChecksum.v
NetHeader.v
NetOptions.v
NetPacket.v
NetGso.v
NetGsoThms.v
NetTx.v
NetTxThms.v
NetNeigh.v
NetRx.v
NetRxThms.v
NetConfig.v
NetLoop.v
NetLife.v
NetClaims.v
