(* ===== verification/Prelude.v ===== *)
(** * packetio: a verification of the packet path

    packetio is a Go library that moves packets between a program and a network
    card without the kernel's network stack.  A program opens a device, gets
    transmit and receive queues, and passes frames of one shared region back
    and forth.  Three backends are verified here: mlx5 (the driver talks to the
    card through rings in memory), DPDK (a poll-mode driver of the C library
    does) and AF_PACKET (the kernel does, through a mapped ring and system
    calls).  On top of any of them netstack puts gVisor's TCP/IP; what is
    verified of it is the adapter between the stack and the queues, with the
    parts of gVisor the adapter's correctness rests on.

    What every backend owes its user is the same.  A frame is in exactly one
    place at a time (the free list, the program's hands, the device); what goes
    out is what was handed in, in order and whole; what comes in is what
    arrived; and no index leaves its array, whatever the device or the kernel
    has written.  The adapter owes the stack that what one side hands over as a
    packet the other side's stack gets.  Those are the theorems.

    ** The parts and where they are modelled

    Shared foundations.
    - [Prelude]: machine words, list lemmas, tactics and hints.
    - [Circ], [Bytes]: cyclic buffers, byte order and the accesses the rings
      share.
    - [Desc]: desc.go, offload.go.  [Steering]: match.go.
    - [Pool]: internal/pool, both builds.  [FramePool] with [FramePoolLaws] is
      the interface the queues are proved against; both builds are instances.

    mlx5.
    - [Sq], [Send], [Mpw], [Cqe]: mlx5/internal/wqe and the header load of
      mlx5/internal/arch; [WqeClaims] has the properties.
    - [Clock]: mlx5/internal/clock.  [Mlx5Region]: mlx5/region.go.
    - [RingTx] (operations), [RingTxInv] (invariant), [RingTxPost],
      [RingTxMulti], [RingTxComplete], [RingTxSystem], [RingTxClaims]:
      mlx5/internal/ring/tx.go, with a device as a step relation.
    - [RingRx], [RingRxInv], [RingRxDevice], [RingRxClaims]:
      mlx5/internal/ring/rx.go, and the receive side of mlx5/internal/mocknic.
    - [MockNic], [MockNicThms], [MockNicClaims]: mlx5/internal/mocknic, the
      repository's own model of the card, run against the rings.
    - [Mlx5Tx], [Mlx5TxOps], [Mlx5Send]: mlx5/txqueue.go.  [Mlx5Rx],
      [Mlx5RxOps]: mlx5/rxqueue.go.  [Mlx5Claims]: a program over both.

    DPDK.
    - [Mbuf], [MbufThms]: dpdk/internal/mbuf.
    - [DpdkRing]: dpdk/internal/queue/ring.go.
    - [DpdkQueue] (operations), [DpdkBuild], [DpdkTxOps], [DpdkRxOps],
      [DpdkSystem], [DpdkClaims]: dpdk/internal/queue/queue.go.
    - [DpdkDevice]: the sizes in dpdk/device.go and dpdk/options.go.
    - [DpdkFan] (operations), [DpdkFanOps], [DpdkFanRx], [DpdkFanClaims]:
      dpdk/queues.go, a transmit queue over several hardware rings and a
      receive queue that keeps what a poll took; and a program over both.

    AF_PACKET.
    - [Csum]: afpacket/csum.go.
    - [AfTx] (operations), [AfTxWire], [AfTxOps], [AfTxGather], [AfTxFrames]:
      afpacket/txqueue.go and afpacket/region.go.
    - [AfRing], [AfRingBufs], [AfRingThms]: the mapped ring of
      afpacket/tpacket.go.  [AfRx], [AfRxThms]: afpacket/rxqueue.go.
    - [AfOptions], [AfOpen], [AfOpenThms]: afpacket/options.go and
      afpacket/afpacket.go.
    - [AfSystem], [AfClaims]: a program over both queues, and the properties.

    netstack.
    - [GvChecksum]: gVisor's checksum.  [NetHeader]: the IPv4, TCP and UDP
      header fields, and netstack/frame.go.  [NetOptions]: gVisor's TCP
      options, there and back.  [NetPacket]: its buffers and packets.
    - [NetGso], [NetGsoThms]: netstack/gso.go.  [NetTx], [NetTxThms]:
      netstack/tx.go.
    - [NetNeigh]: netstack/neigh.go.  [NetRx], [NetRxThms]: deliver and its
      helpers in netstack/rx.go, and AddHeader.  [NetLoop]: rxLoop.
    - [NetConfig]: netstack/config.go, newEndpoint and SetMTU.  [NetLife]: who is
      in a queue from Attach to Close, and New of netstack/stack.go.
    - [NetClaims]: the properties of the adapter.

    ** How code becomes definitions

    A struct is a record, an operation a function from the state to the state
    and its results.  Memory that one side writes and the other reads is part
    of the state of the writer; the reader takes it as an argument, a snapshot
    of what the other side had written by then.  [None] is a panic (an index
    out of range); a Go error is a value of [error].  Integers of a fixed width
    are [Z] with the wrap written out.  Code outside the repository is a class:
    [PMD] with [TxDriver] and [RxDriver] for a poll-mode driver, [Kernel] with
    [KernelLaws] for the transmit socket.  The interfaces of queue.go that
    netstack is written against are classes too: [TxQueue] with [TxQueueSpec]
    and [TxQueueTakes], [RxQueue] with [RxQueueSpec].  The classes state only
    what the documentation of that code promises, and each has an instance.
    The card and the kernel's receive side need no class: they write any bytes
    at all.  What Go leaves open is an argument: [place] is the address of a
    slice, [order] the order a map is walked in, and the clock a value at each
    look.

    ** What the theorems show

    Conservation.  [tx_system_safe], [rx_system_exact] for the rings;
    [mlx5_frames_conserved], [dpdk_device_conserved] and [af_frames_conserved]
    for whole programs: over every run of a program that keeps the contract
    ([may], [f_may], [af_may]: a frame is handed back once and by who holds it,
    and [Complete] is called only while the frames with the device are the
    queue's own), each frame is in exactly one place.  DPDK's queue deals its
    batches to several rings, each with a free list of its own; there the runs
    include those in which [Complete] meets a frame of another ring, and the
    theorem says which frames are lost then.  [pool_safe] and [Push_exact] are
    what they rest on.

    Exactness.  What an operation does on every branch: [Post_exact],
    [Fill_exact], [SendFunc_exact], [dpdk_SendFunc_exact], [dTransmit_batch],
    [af_transmit_exact], [af_gather_exact], [transmit_counts], [new_exact].

    Refinement.  [Post_then_Poll] (the card transmits what was posted, byte for
    byte), [af_receive_exact] (the ring reader implements a machine that
    delivers packets), [rx_loop_exact] (the receive loop hands on what
    delivering the packets one by one does), [Ring_fifo], [Rules_exact],
    [Parse_exact], [dpdk_poll_order].

    From stack to stack.  [stack_to_stack], [batch_frames_exact],
    [deliver_exact].

    Hostile peers.  [receive_conserves], [Complete_conserves],
    [mlx5_never_panics], [dpdk_device_never_panics], [deliver_exact],
    [neighbors_safe], [tcp_options_total]: on any bytes in a completion queue,
    an mbuf or a frame, nothing is lost and nothing indexed out of range.

    Progress.  [receive_delivers_all], [Alloc_then_Transmit], [sendAll_ends],
    [WritePackets_accounts], [close_quiesces].

    Set-up.  [validated_config], [options_order], [divide_exact],
    [config_exact], [endpoint_sizes], [open_close_exact] (whichever system call
    fails, everything taken is given back once).

    Encodings and arithmetic.  [Sender_Put_exact], [MPW_Put_exact],
    [Owned_exact], [Offload_roundtrip], [RxRead_narrow], [NS_exact],
    [completeL4_exact], [buffer_checksum_rfc1071], [tcp_options_roundtrip],
    [Rules_count], [dpdk_descOK_exact].

    What the code does not do is shown by a run, where that is worth knowing:
    [Parse_ignores_fragments], [transmit_later_leaks], [validate_wraps],
    [unpaired_port_widens], [NS_reorder_at_wrap], [double_push_detected],
    [pins_beyond_bound_lost] and the like.

    ** Bounds and fuel

    - mlx5 queues have at most 2^16 blocks, the device's own limit; the system
      theorems ask for at most 2^15, half of the range of a completion's
      16-bit counter, and for doorbell records that start at zero, as allocated.
    - A receive runs with one more unit of fuel than there are entries in the
      completion queue, and a poll with one per entry: the owner bit flips
      after a lap, so no more can be ready.
    - Frames are at most 2^31 bytes for mlx5 (a descriptor's length is 31
      bits), 2^16 for DPDK (an mbuf's is 16), and from 2^7 to 2^17 for AF_PACKET:
      the lower bound follows from its [validate], the upper one is a hypothesis.
    - A build callback keeps the length of the frame it is given: in Go it
      cannot do otherwise.
    - A DPDK returned ring holds at least as many frames as its queue is deep.
      [Open] does not ensure it; the finding on dpdk/device.go says when.  The
      rest of a packet in several mbufs counts as with the driver until it is
      freed to the returned ring.
    - Checksummed ranges have at most 2^17 bytes, so that the 64-bit sum cannot
      wrap.
    - The AF_PACKET ring has blocks of at least 64 bytes and less than 2^32 in
      total.  [sendAll] runs with sixteen units of fuel a message, which is the
      number of tries the code allows; [read_block] with the packets the block
      header counts, and [read_blocks] with the blocks of the ring.  The
      theorems show that the fuel does not run out.
    - The operating system of [AfOpen] is a table of descriptors, a table of
      mappings and an oracle for the success of each call.  The free lists of
      the queues, which take nothing from it, are left out there.
    - The option parsers run with one unit of fuel a byte, since every option
      takes one; [write_loop] with one per packet and look at the clock; the
      receive loop over a list of turns of any length.

    ** Not modelled, and why

    - The rest of netstack/gvisor is gVisor's network stack, vendored; of
      netstack, conn.go, clock.go and fork.go, and Listen and Dial, which only
      call it.
    - afxdp wraps a third-party AF_XDP library.
    - dpdk/internal/eal and mlx5/internal/dv are cgo bindings; what they return
      is an argument of the model.
    - mlx5/device.go and mlx5/options.go, and dpdk/steering.go.
    - internal/affinity reads sysfs; the queues take its answer as an argument.
    - internal/conform and the examples are tests and sample programs.
    - Mutexes, atomics and memory barriers: an operation of a queue is one
      atomic step, and the device or kernel acts between steps.  [NetLife] is the
      exception: there the locks and flags of an endpoint are the state.  *)

From stdpp Require Import prelude list numbers strings.
From Stdlib Require Import ZArith Lia Bool.

#[global] Open Scope Z_scope.

(** ** Notation and automation *)

Declare Scope go_scope.
Delimit Scope go_scope with go.

(** Go's bit-clear operator and the two masks written with it. *)
Notation "x '&^' y" := (Z.ldiff x y) (at level 40, left associativity) : go_scope.
#[global] Open Scope go_scope.

(** [word] rewrites machine-width arithmetic; [ring] resolves well-formedness
    facts of rings and regions; [frames] those of the free lists. *)
Create HintDb word.
Create Rewrite HintDb word.
Create HintDb ring.
Create HintDb frames.

(** Boolean tests of the code as propositions. *)
Ltac to_prop :=
  repeat match goal with
  | H : _ && _ = true |- _ => apply andb_true_iff in H; destruct H
  | H : _ || _ = false |- _ => apply orb_false_iff in H; destruct H
  | H : negb _ = true |- _ => apply negb_true_iff in H
  | H : negb _ = false |- _ => apply negb_false_iff in H
  | H : (_ <? _) = true |- _ => apply Z.ltb_lt in H
  | H : (_ <? _) = false |- _ => apply Z.ltb_ge in H
  | H : (_ <=? _) = true |- _ => apply Z.leb_le in H
  | H : (_ <=? _) = false |- _ => apply Z.leb_gt in H
  | H : (_ =? _) = true |- _ => apply Z.eqb_eq in H
  | H : (_ =? _) = false |- _ => apply Z.eqb_neq in H
  end.

(** [lia] with division and remainder by constants. *)
Ltac divlia := Z.div_mod_to_equations; lia.

(** Splits on the first conditional of the goal, keeping what it says. *)
Ltac case_if :=
  match goal with
  | |- context [if ?b then _ else _] => let E := fresh "E" in destruct b eqn:E; to_prop
  end.

Ltac case_if_in H :=
  match type of H with
  | context [if ?b then _ else _] => let E := fresh "E" in destruct b eqn:E; to_prop
  end.

(** ** Machine integers

    A Go unsigned integer of width [w] is a [Z] in [0, 2^w); every operation
    that can leave the range is followed by the conversion the language
    performs.  [int] values are bounded by memory sizes and stay in [Z]. *)

Definition u8 (x : Z) : Z := x mod 2 ^ 8.
Definition u16 (x : Z) : Z := x mod 2 ^ 16.
Definition u32 (x : Z) : Z := x mod 2 ^ 32.
Definition u64 (x : Z) : Z := x mod 2 ^ 64.

Lemma u16_range x : 0 <= u16 x < 2 ^ 16. Proof. apply Z.mod_pos_bound. lia. Qed.
Lemma u32_range x : 0 <= u32 x < 2 ^ 32. Proof. apply Z.mod_pos_bound. lia. Qed.
Lemma u64_range x : 0 <= u64 x < 2 ^ 64. Proof. apply Z.mod_pos_bound. lia. Qed.
Lemma u8_range x : 0 <= u8 x < 2 ^ 8. Proof. apply Z.mod_pos_bound. lia. Qed.
Lemma u8_small x : 0 <= x < 2 ^ 8 -> u8 x = x. Proof. apply Z.mod_small. Qed.
Lemma u16_small x : 0 <= x < 2 ^ 16 -> u16 x = x. Proof. apply Z.mod_small. Qed.
Lemma u32_small x : 0 <= x < 2 ^ 32 -> u32 x = x. Proof. apply Z.mod_small. Qed.
Lemma u64_small x : 0 <= x < 2 ^ 64 -> u64 x = x. Proof. apply Z.mod_small. Qed.

Lemma u32_add_l x y : u32 (u32 x + y) = u32 (x + y).
Proof. apply Zplus_mod_idemp_l. Qed.
Lemma u32_sub_l x y : u32 (u32 x - y) = u32 (x - y).
Proof. apply Zminus_mod_idemp_l. Qed.
Lemma u32_sub_r x y : u32 (x - u32 y) = u32 (x - y).
Proof. apply Zminus_mod_idemp_r. Qed.
Lemma u32_u32 x : u32 (u32 x) = u32 x.
Proof. apply Zmod_mod. Qed.

#[export] Hint Rewrite u32_add_l u32_sub_l u32_sub_r u32_u32 : word.
#[export] Hint Resolve u8_range u16_range u32_range u64_range : word.

(** The distance between two free-running 32-bit counters is the distance
    between the unbounded counters they stand for. *)
Lemma u32_dist h t : 0 <= t - h < 2 ^ 32 -> u32 (u32 t - u32 h) = t - h.
Proof. intros. autorewrite with word. by apply u32_small. Qed.

(** ** Masks *)

Lemma land_ones_mod x k : 0 <= k -> Z.land x (2 ^ k - 1) = x mod 2 ^ k.
Proof. intros. rewrite <- Z.land_ones by lia. f_equal. rewrite Z.ones_equiv. lia. Qed.

Lemma ldiff_ones_sub x k : 0 <= k -> x &^ (2 ^ k - 1) = x - x mod 2 ^ k.
Proof.
  intros. replace (2 ^ k - 1) with (Z.ones k) by (rewrite Z.ones_equiv; lia).
  rewrite Z.ldiff_ones_r, Z.shiftl_mul_pow2, Z.shiftr_div_pow2 by lia.
  pose proof (Z.div_mod x (2 ^ k) ltac:(lia)). lia.
Qed.

Lemma mod_mod_pow2 x j k : 0 <= j <= k -> (x mod 2 ^ k) mod 2 ^ j = x mod 2 ^ j.
Proof.
  intros. apply Z.mod_mod_divide.
  exists (2 ^ (k - j)). rewrite <- Z.pow_add_r by lia. f_equal; lia.
Qed.

Lemma u32_land_mask x j : 0 <= j <= 32 -> Z.land (u32 x) (2 ^ j - 1) = x mod 2 ^ j.
Proof. intros. rewrite land_ones_mod by lia. unfold u32. apply mod_mod_pow2; lia. Qed.

(** Putting a field above [k] low bits with [|] is an addition. *)
Lemma lor_shiftl_add a b k : 0 <= k -> 0 <= a < 2 ^ k -> Z.lor a (Z.shiftl b k) = a + b * 2 ^ k.
Proof.
  intros Hk Ha. rewrite <- Z.shiftl_mul_pow2 by lia.
  assert (Hz : Z.land a (Z.shiftl b k) = 0).
  { apply Z.bits_inj'. intros i Hi. rewrite Z.land_spec, Z.bits_0, Z.shiftl_spec by lia.
    destruct (decide (i < k)).
    - rewrite (Z.testbit_neg_r b) by lia. apply andb_false_r.
    - rewrite <- (Z.mod_small a (2 ^ k)), Z.mod_pow2_bits_high by lia. done. }
  rewrite <- Z.lxor_lor, Z.add_nocarry_lxor by done. done.
Qed.

(** Go's [n&(n-1) == 0] on a positive [n] says that [n] is a power of two. *)
Definition pow2 (n : Z) : Prop := exists k, 0 <= k /\ n = 2 ^ k.

Lemma land_pred_pow2 n : 0 < n -> Z.land n (n - 1) = 0 -> pow2 n.
Proof.
  intros Hn Hl. exists (Z.log2 n). split; [apply Z.log2_nonneg|].
  destruct (Z.log2_spec n Hn) as [Hlo Hhi].
  destruct (decide (n = 2 ^ Z.log2 n)) as [|Hne]; [done|].
  assert (Hlog : Z.log2 (n - 1) = Z.log2 n).
  { apply Z.log2_unique; [apply Z.log2_nonneg|]. rewrite Z.pow_succ_r in * by apply Z.log2_nonneg. lia. }
  assert (Hb : Z.testbit (Z.land n (n - 1)) (Z.log2 n) = true).
  { rewrite Z.land_spec, Z.bit_log2 by lia. rewrite <- Hlog. apply Z.bit_log2.
    pose proof (Z.pow_pos_nonneg 2 (Z.log2 n)). pose proof (Z.log2_nonneg n). lia. }
  rewrite Hl, Z.bits_0 in Hb. done.
Qed.

(** [bits.OnesCount]: the number of set bits. *)
Fixpoint pos_ones (p : positive) : Z :=
  match p with
  | xH => 1
  | xO p => pos_ones p
  | xI p => 1 + pos_ones p
  end.

Definition OnesCount (x : Z) : Z :=
  match x with Zpos p => pos_ones p | _ => 0 end.

Lemma pos_ones_pos p : 0 < pos_ones p.
Proof. induction p; simpl; lia. Qed.

Lemma OnesCount_pow2 x : OnesCount x = 1 -> pow2 x.
Proof.
  destruct x as [|p|p]; simpl; try done.
  induction p as [p IH|p IH|]; simpl; intros H.
  - pose proof (pos_ones_pos p). lia.
  - destruct (IH H) as (k & Hk & Hp). exists (k + 1). split; [lia|].
    rewrite Z.pow_add_r by lia. change (2 ^ 1) with 2. lia.
  - exists 0. split; [lia|done].
Qed.

(** [bits.TrailingZeros]. *)
Fixpoint pos_tz (p : positive) : Z :=
  match p with xO p => 1 + pos_tz p | _ => 0 end.

Definition TrailingZeros64 (x : Z) : Z :=
  match x with Zpos p => pos_tz p | _ => 64 end.

Lemma TrailingZeros64_pow2 k : 0 <= k -> TrailingZeros64 (2 ^ k) = k.
Proof.
  intros Hk. pattern k. apply natlike_ind; [done| |done].
  intros x Hx IH. rewrite Z.pow_succ_r by lia.
  pose proof (Z.pow_pos_nonneg 2 x). destruct (2 ^ x) as [|p|p] eqn:E; [lia| |lia].
  change (2 * Z.pos p) with (Z.pos (xO p)). cbn [TrailingZeros64 pos_tz] in *. lia.
Qed.

(** ** Slices

    A Go index or slice expression outside its bounds panics; a function that
    can panic returns an [option], with [None] for the panic. *)

Definition zlen {A} (l : list A) : Z := Z.of_nat (length l).

Definition get_at {A} (i : Z) (l : list A) : option A :=
  if 0 <=? i then l !! Z.to_nat i else None.

Definition set_at {A} (i : Z) (x : A) (l : list A) : option (list A) :=
  if (0 <=? i) && (i <? zlen l) then Some (<[Z.to_nat i := x]> l) else None.

(** [l[lo:hi]]. *)
Definition slice {A} (lo hi : Z) (l : list A) : option (list A) :=
  if (0 <=? lo) && (lo <=? hi) && (hi <=? zlen l)
  then Some (take (Z.to_nat (hi - lo)) (drop (Z.to_nat lo) l)) else None.

(** Overwrites the elements of [l] from [off] on with [src]; [copy] of a slice
    that fits. *)
Definition blit {A} (off : Z) (src l : list A) : list A :=
  take (Z.to_nat off) l ++ src ++ drop (Z.to_nat off + length src) l.

#[global] Arguments zlen {A} l : simpl never.
#[global] Arguments get_at {A} i l : simpl never.
#[global] Arguments set_at {A} i x l : simpl never.
#[global] Arguments slice {A} lo hi l : simpl never.
#[global] Arguments blit {A} off src l : simpl never.
#[global] Arguments u8 x : simpl never.
#[global] Arguments u16 x : simpl never.
#[global] Arguments u32 x : simpl never.
#[global] Arguments u64 x : simpl never.

Lemma zlen_nonneg {A} (l : list A) : 0 <= zlen l.
Proof. unfold zlen. lia. Qed.
Lemma zlen_app {A} (l k : list A) : zlen (l ++ k) = zlen l + zlen k.
Proof. unfold zlen. rewrite length_app. lia. Qed.
Lemma zlen_insert {A} (l : list A) i x : zlen (<[i := x]> l) = zlen l.
Proof. unfold zlen. by rewrite length_insert. Qed.
Lemma zlen_nil {A} : zlen (@nil A) = 0. Proof. done. Qed.
Lemma zlen_cons {A} (x : A) l : zlen (x :: l) = 1 + zlen l.
Proof. unfold zlen. simpl. lia. Qed.

Lemma zlen_replicate {A} (x : A) n : zlen (replicate n x) = Z.of_nat n.
Proof. unfold zlen. by rewrite length_replicate. Qed.
Lemma zlen_take {A} (l : list A) n : zlen (take n l) = Z.min (Z.of_nat n) (zlen l).
Proof. unfold zlen. rewrite length_take. lia. Qed.
Lemma zlen_drop {A} (l : list A) n : zlen (drop n l) = Z.max 0 (zlen l - Z.of_nat n).
Proof. unfold zlen. rewrite length_drop. lia. Qed.

#[export] Hint Rewrite @zlen_replicate @zlen_take @zlen_drop @zlen_app @zlen_insert @zlen_nil @zlen_cons : word.

Lemma get_at_lookup {A} i (l : list A) : 0 <= i -> get_at i l = l !! Z.to_nat i.
Proof. intros. unfold get_at. rewrite (proj2 (Z.leb_le 0 i)) by lia. done. Qed.

Lemma get_at_Some {A} i (l : list A) : 0 <= i < zlen l -> exists x, get_at i l = Some x.
Proof.
  intros. rewrite get_at_lookup by lia. apply lookup_lt_is_Some_2. unfold zlen in *. lia.
Qed.

Lemma set_at_Some {A} i x (l : list A) :
  0 <= i < zlen l -> set_at i x l = Some (<[Z.to_nat i := x]> l).
Proof.
  intros. unfold set_at. rewrite (proj2 (Z.leb_le 0 i)), (proj2 (Z.ltb_lt i _)) by lia. done.
Qed.

Lemma slice_Some {A} lo hi (l : list A) :
  0 <= lo <= hi -> hi <= zlen l ->
  slice lo hi l = Some (take (Z.to_nat (hi - lo)) (drop (Z.to_nat lo) l)).
Proof.
  intros. unfold slice.
  rewrite (proj2 (Z.leb_le 0 lo)), (proj2 (Z.leb_le lo hi)), (proj2 (Z.leb_le hi _)) by lia. done.
Qed.

Lemma slice_length {A} lo hi (l k : list A) : slice lo hi l = Some k -> zlen k = hi - lo.
Proof.
  unfold slice. case_match; intros; simplify_eq. to_prop.
  unfold zlen in *. rewrite length_take, length_drop. lia.
Qed.

Lemma elem_take {A} (x : A) n l : x ∈ take n l -> x ∈ l.
Proof. intros. rewrite <- (take_drop n l). apply elem_of_app. by left. Qed.
Lemma elem_drop {A} (x : A) n l : x ∈ drop n l -> x ∈ l.
Proof. intros. rewrite <- (take_drop n l). apply elem_of_app. by right. Qed.

Lemma NoDup_app_r {A} (a b : list A) : NoDup (a ++ b) -> NoDup b.
Proof. intros Hn. by apply list.NoDup_app in Hn as (_ & _ & ?). Qed.
Lemma NoDup_app_l {A} (a b : list A) : NoDup (a ++ b) -> NoDup a.
Proof. intros Hn. by apply list.NoDup_app in Hn as (? & _). Qed.
Lemma NoDup_without {A} (a b c : list A) : NoDup (a ++ b ++ c) -> NoDup (a ++ c).
Proof. intros Hn. rewrite (Permutation_app_comm b c), app_assoc in Hn. by eapply NoDup_app_l. Qed.

(** ** Results and errors

    Go's [(T, error)] as a sum.  [Errorf] carries the literal text of the
    format string; [Wrap s m] is [fmt.Errorf("%w: ...", s, ...)], an error for
    which [errors.Is] finds the sentinel [s]. *)

Inductive sentinel : Set := ErrClosed | ErrQueueFailed | ErrBadLength | ErrUnsupported.

Inductive error : Set :=
| Sentinel (s : sentinel)
| Wrap (s : sentinel) (msg : string)
| Errorf (msg : string).

Definition errors_is (s : sentinel) (e : error) : bool :=
  match e, s with
  | (Sentinel ErrClosed | Wrap ErrClosed _), ErrClosed => true
  | (Sentinel ErrQueueFailed | Wrap ErrQueueFailed _), ErrQueueFailed => true
  | (Sentinel ErrBadLength | Wrap ErrBadLength _), ErrBadLength => true
  | (Sentinel ErrUnsupported | Wrap ErrUnsupported _), ErrUnsupported => true
  | _, _ => false
  end.

Inductive res (A : Type) : Type :=
| Ok (a : A)
| Err (e : error).
Arguments Ok {A} a.
Arguments Err {A} e.

Notation "'let?' x ':=' e 'in' k" :=
  (match e with Ok x => k | Err err => Err err end)
  (at level 10, x pattern, e at level 200, k at level 200) : go_scope.

(** A fold that may panic. *)
Fixpoint foldM {A S} (f : S -> A -> option S) (l : list A) (s : S) : option S :=
  match l with
  | [] => Some s
  | x :: l => s' ← f s x; foldM f l s'
  end.

Lemma foldM_app {A S} (f : S -> A -> option S) l k s :
  foldM f (l ++ k) s = (foldM f l s ≫= foldM f k).
Proof. revert s. induction l as [|x l IH]; intros s; simpl; [done|]. destruct (f s x); simpl; auto. Qed.
