(* ===== verification/Circ.v ===== *)
(** Cyclic buffers.

    The rings of the program (the send queue's slot ring, the receive queue's
    posted buffers, DPDK's supply and returned rings) are arrays indexed by
    free-running counters that are reduced modulo the length of the array.
    [window buf h n] is what such an array holds between counter [h] and
    counter [h + n]; the lemmas say what a write at the producer end and a read
    at the consumer end do to it. *)

From stdpp Require Import prelude list numbers.
From S2P Require Import Prelude.

Section circ.
Context {A : Type} `{!Inhabited A}.
Implicit Types (buf : list A) (h i j : Z) (n m : nat).

Definition cell buf i : A := buf !!! Z.to_nat (i mod zlen buf).

Definition window buf h n : list A :=
  (fun k => cell buf (h + Z.of_nat k)) <$> seq 0 n.

Lemma length_window buf h n : length (window buf h n) = n.
Proof. unfold window. by rewrite length_fmap, length_seq. Qed.

Lemma zlen_window buf h n : zlen (window buf h n) = Z.of_nat n.
Proof. unfold zlen. by rewrite length_window. Qed.

Lemma window_front buf h n :
  window buf h (S n) = cell buf h :: window buf (h + 1) n.
Proof.
  unfold window. simpl. f_equal; [by rewrite Z.add_0_r|].
  rewrite <- seq_shift, <- list_fmap_compose. apply list_fmap_ext.
  intros _ x _. simpl. f_equal. lia.
Qed.

Lemma window_app buf h n m :
  window buf h (n + m) = window buf h n ++ window buf (h + Z.of_nat n) m.
Proof.
  revert h. induction n as [|n IH]; intros h.
  - by rewrite Z.add_0_r.
  - rewrite Nat.add_succ_l, !window_front, IH. simpl. do 3 f_equal. lia.
Qed.

Lemma window_back buf h n :
  window buf h (S n) = window buf h n ++ [cell buf (h + Z.of_nat n)].
Proof. rewrite <- Nat.add_1_r, window_app. by rewrite window_front. Qed.

Lemma window_ext buf buf' h n :
  (forall k, (k < n)%nat -> cell buf (h + Z.of_nat k) = cell buf' (h + Z.of_nat k)) ->
  window buf h n = window buf' h n.
Proof.
  intros He. unfold window. apply list_fmap_ext. intros k x Hx.
  apply lookup_seq in Hx as [-> ?]. apply He. lia.
Qed.

Lemma cell_index_lt buf i : 0 < zlen buf -> 0 <= i mod zlen buf < zlen buf.
Proof. intros. by apply Z.mod_pos_bound. Qed.

Lemma get_at_cell buf i :
  0 < zlen buf -> get_at (i mod zlen buf) buf = Some (cell buf i).
Proof.
  intros Hb. pose proof (cell_index_lt buf i Hb). rewrite get_at_lookup by lia.
  unfold cell. rewrite list_lookup_lookup_total_lt; [done|]. unfold zlen in *. lia.
Qed.

Lemma cell_insert_eq buf i x :
  0 < zlen buf -> cell (<[Z.to_nat (i mod zlen buf) := x]> buf) i = x.
Proof.
  intros Hb. unfold cell. rewrite zlen_insert. pose proof (cell_index_lt buf i Hb).
  rewrite list_lookup_total_insert_eq; [done|]. unfold zlen in *. lia.
Qed.

Lemma cell_insert_ne buf i j x :
  0 < zlen buf -> i mod zlen buf <> j mod zlen buf ->
  cell (<[Z.to_nat (i mod zlen buf) := x]> buf) j = cell buf j.
Proof.
  intros Hb Hne. unfold cell. rewrite zlen_insert.
  pose proof (cell_index_lt buf i Hb). pose proof (cell_index_lt buf j Hb).
  rewrite list_lookup_total_insert_ne; [done|]. lia.
Qed.

(** Two counters less than one lap apart name different cells. *)
Lemma mod_distinct i j len : 0 < len -> i < j < i + len -> i mod len <> j mod len.
Proof.
  intros Hl Hij He.
  assert (Hm : (j - i) mod len = 0) by (rewrite Zminus_mod, He, Z.sub_diag; done).
  rewrite Z.mod_small in Hm; lia.
Qed.

(** A write at the producer end extends the window when there is room. *)
Lemma window_push buf h n x :
  Z.of_nat n < zlen buf ->
  window (<[Z.to_nat ((h + Z.of_nat n) mod zlen buf) := x]> buf) h (S n) =
  window buf h n ++ [x].
Proof.
  intros Hn. rewrite window_back. f_equal; [|f_equal; apply cell_insert_eq; lia].
  apply window_ext. intros k Hk. apply cell_insert_ne; [lia|].
  apply not_eq_sym, mod_distinct; lia.
Qed.

(** A write outside a window leaves it alone. *)
Lemma window_insert_outside buf h n t x :
  h + Z.of_nat n <= t < h + zlen buf ->
  window (<[Z.to_nat (t mod zlen buf) := x]> buf) h n = window buf h n.
Proof.
  intros Ht. apply window_ext. intros k Hk. apply cell_insert_ne; [lia|].
  apply not_eq_sym, mod_distinct; lia.
Qed.

Lemma window_take buf h n m : (m <= n)%nat -> take m (window buf h n) = window buf h m.
Proof.
  intros. replace n with (m + (n - m))%nat by lia. rewrite window_app.
  rewrite take_app_le by (rewrite length_window; lia).
  rewrite take_ge; [done|]. rewrite length_window. lia.
Qed.

Lemma window_drop buf h n m :
  (m <= n)%nat -> drop m (window buf h n) = window buf (h + Z.of_nat m) (n - m).
Proof.
  intros. replace n with (m + (n - m))%nat at 1 by lia. rewrite window_app.
  by rewrite drop_app_length' by (by rewrite length_window).
Qed.

(** Writes [src] cyclically from [off] on. *)
Fixpoint cwrite (off : Z) (src buf : list A) : list A :=
  match src with
  | [] => buf
  | x :: src => cwrite (off + 1) src (<[Z.to_nat (off mod zlen buf) := x]> buf)
  end.

Lemma zlen_cwrite off src buf : zlen (cwrite off src buf) = zlen buf.
Proof.
  revert off buf. induction src as [|x src IH]; intros; simpl; [done|].
  by rewrite IH, zlen_insert.
Qed.

Lemma cwrite_app off a b buf :
  cwrite off (a ++ b) buf = cwrite (off + zlen a) b (cwrite off a buf).
Proof.
  revert off buf. induction a as [|x a IH]; intros off buf; simpl.
  - by rewrite Z.add_0_r.
  - rewrite IH, zlen_cons. f_equal. lia.
Qed.

(** Writes that follow each other are one write. *)
Lemma cwrite_seq x off a b buf :
  x = off + zlen a -> cwrite x b (cwrite off a buf) = cwrite off (a ++ b) buf.
Proof. intros ->. by rewrite cwrite_app. Qed.

Lemma cwrite_mod off src buf :
  cwrite (off mod zlen buf) src buf = cwrite off src buf.
Proof.
  assert (Hg : forall src buf o o', o mod zlen buf = o' mod zlen buf ->
            cwrite o src buf = cwrite o' src buf).
  { clear. induction src as [|x src IH]; intros buf o o' He; simpl; [done|].
    rewrite He. apply IH. rewrite zlen_insert.
    by rewrite Zplus_mod, He, <- Zplus_mod. }
  apply Hg. apply Zmod_mod.
Qed.

(** What a write leaves in the part of the buffer it covers ... *)
Lemma window_cwrite off src buf :
  zlen src <= zlen buf -> window (cwrite off src buf) off (length src) = src.
Proof.
  intros Hlen. revert off buf Hlen.
  induction src as [|x src IH] using rev_ind; intros off buf Hlen; [done|].
  rewrite zlen_app, zlen_cons, zlen_nil in Hlen.
  rewrite cwrite_app, length_app, Nat.add_1_r. simpl cwrite.
  unfold zlen at 1.
  rewrite window_push by (rewrite zlen_cwrite; unfold zlen in *; lia).
  by rewrite IH by lia.
Qed.

(** ... and in the rest of it. *)
Lemma cell_cwrite_outside off src buf j :
  off + zlen src <= j < off + zlen buf -> cell (cwrite off src buf) j = cell buf j.
Proof.
  revert off buf. induction src as [|x src IH]; intros off buf Hj; simpl; [done|].
  rewrite zlen_cons in Hj. pose proof (zlen_nonneg src).
  rewrite IH by (rewrite zlen_insert; lia).
  apply cell_insert_ne; [lia|]. apply mod_distinct; lia.
Qed.

Lemma window_cwrite_outside off src buf h n :
  off + zlen src <= h -> h + Z.of_nat n <= off + zlen buf ->
  window (cwrite off src buf) h n = window buf h n.
Proof. intros. apply window_ext. intros k Hk. apply cell_cwrite_outside. lia. Qed.

(** A copy that does not run past the end is a cyclic write. *)
Lemma blit_cwrite off src buf :
  0 <= off -> off + zlen src <= zlen buf -> blit off src buf = cwrite off src buf.
Proof.
  revert off buf. induction src as [|x src IH]; intros off buf Ho Hl; simpl.
  - unfold blit. simpl. rewrite Nat.add_0_r. apply take_drop.
  - rewrite zlen_cons in Hl. pose proof (zlen_nonneg src).
    rewrite <- IH by (rewrite ?zlen_insert; lia).
    rewrite Z.mod_small by lia. unfold blit.
    replace (Z.to_nat (off + 1)) with (S (Z.to_nat off)) by lia.
    assert (Hlt : (Z.to_nat off < length buf)%nat) by (unfold zlen in *; lia).
    rewrite (take_S_r _ _ x) by (by apply list_lookup_insert_eq).
    rewrite take_insert_ge by lia. rewrite <- app_assoc. simpl. f_equal. f_equal. f_equal.
    rewrite drop_insert_lt by lia. f_equal. lia.
Qed.

(** A slice that does not run past the end is a window. *)
Lemma slice_window buf off n :
  0 <= off -> off + Z.of_nat n <= zlen buf -> slice off (off + Z.of_nat n) buf = Some (window buf off n).
Proof.
  intros Ho Hl. rewrite slice_Some by lia. f_equal.
  replace (Z.to_nat (off + Z.of_nat n - off)) with n by lia.
  apply list_eq_same_length with n; [by rewrite length_window| |].
  { rewrite length_take, length_drop. unfold zlen in *. lia. }
  intros i x y Hi Hx Hy. unfold window in Hy. rewrite list_lookup_fmap, lookup_seq_lt in Hy by lia. simpl in Hy.
  injection Hy as <-. rewrite lookup_take_lt, lookup_drop in Hx by lia.
  unfold cell. rewrite Z.mod_small by (unfold zlen in *; lia).
  replace (Z.to_nat (off + Z.of_nat i)) with (Z.to_nat off + i)%nat by lia.
  symmetry. by apply list_lookup_total_correct.
Qed.

Lemma window_mod buf h n : window buf (h mod zlen buf) n = window buf h n.
Proof.
  unfold window. apply list_fmap_ext. intros i x _. unfold cell. by rewrite Zplus_mod_idemp_l.
Qed.

(** A write inside a window changes that place of it. *)
Lemma window_insert_inside buf h n k x :
  (k < n)%nat -> Z.of_nat n <= zlen buf ->
  window (<[Z.to_nat ((h + Z.of_nat k) mod zlen buf) := x]> buf) h n = <[k := x]> (window buf h n).
Proof.
  intros Hk Hn. apply list_eq_same_length with n; [by rewrite length_insert, length_window|by rewrite length_window|].
  intros i a b Hi Ha Hb. unfold window in Ha. rewrite list_lookup_fmap, lookup_seq_lt in Ha by lia. simpl in Ha.
  injection Ha as <-. destruct (decide (i = k)) as [->|Hne].
  - rewrite list_lookup_insert_eq in Hb by (rewrite length_window; lia). injection Hb as <-. apply cell_insert_eq. lia.
  - rewrite list_lookup_insert_ne in Hb by done. unfold window in Hb.
    rewrite list_lookup_fmap, lookup_seq_lt in Hb by lia. simpl in Hb. injection Hb as <-.
    apply cell_insert_ne; [lia|]. destruct (decide (i < k)%nat).
    + apply not_eq_sym, mod_distinct; lia.
    + apply mod_distinct; lia.
Qed.
End circ.

#[global] Arguments cwrite {A} off src buf : simpl never.
#[global] Arguments window {A _} buf h n : simpl never.
#[export] Hint Rewrite @length_window @zlen_window @zlen_cwrite : word.

(** A free-running 32-bit index and the unbounded one it stands for name the
    same window of a buffer of a power of two. *)
Lemma window_u32 {A} `{!Inhabited A} (buf : list A) k x n :
  0 <= k <= 32 -> zlen buf = 2 ^ k -> window buf (u32 x) n = window buf x n.
Proof. intros Hk Hl. rewrite <- window_mod, <- (window_mod buf x), Hl. unfold u32. by rewrite mod_mod_pow2 by lia. Qed.
