(* ===== verification/Bytes.v ===== *)
(** Byte order.

    [encoding/binary] over byte slices: the big-endian accessors of the mlx5
    descriptors and the host-order ones of the DPDK buffers (the two supported
    architectures, amd64 and arm64, are little-endian).  A byte is a [Z] in
    [0, 256); a word is put by splitting it into bytes and read by combining
    them. *)

From stdpp Require Import prelude list numbers.
From S2P Require Import Prelude Circ.

Definition byte_ok (b : Z) : Prop := 0 <= b < 256.
Definition bytes_ok (bs : list Z) : Prop := Forall byte_ok bs.

Fixpoint le_bytes (n : nat) (v : Z) : list Z :=
  match n with
  | O => []
  | S n => v mod 256 :: le_bytes n (v / 256)
  end.

Fixpoint le_val (bs : list Z) : Z :=
  match bs with
  | [] => 0
  | b :: bs => b + 256 * le_val bs
  end.

Definition be_bytes (n : nat) (v : Z) : list Z := rev (le_bytes n v).
Definition be_val (bs : list Z) : Z := le_val (rev bs).

Lemma length_le_bytes n v : length (le_bytes n v) = n.
Proof. revert v. induction n; intros; simpl; auto. Qed.
Lemma length_be_bytes n v : length (be_bytes n v) = n.
Proof. unfold be_bytes. by rewrite length_rev, length_le_bytes. Qed.
Lemma be4_eq v : be_bytes 4 v = [v / 16777216 mod 256; v / 65536 mod 256; v / 256 mod 256; v mod 256].
Proof. unfold be_bytes. cbn [le_bytes rev app]. rewrite !Z.div_div by lia. done. Qed.
Lemma zlen_be_bytes n v : zlen (be_bytes n v) = Z.of_nat n.
Proof. unfold zlen. by rewrite length_be_bytes. Qed.
Lemma zlen_le_bytes n v : zlen (le_bytes n v) = Z.of_nat n.
Proof. unfold zlen. by rewrite length_le_bytes. Qed.

#[export] Hint Rewrite length_le_bytes length_be_bytes zlen_be_bytes zlen_le_bytes : word.

Lemma le_bytes_ok n v : bytes_ok (le_bytes n v).
Proof.
  revert v. induction n as [|n IH]; intros v; constructor; [|apply IH].
  unfold byte_ok. apply Z.mod_pos_bound. lia.
Qed.

Lemma be_bytes_ok n v : bytes_ok (be_bytes n v).
Proof. unfold be_bytes, bytes_ok. apply List.Forall_rev, le_bytes_ok. Qed.

(** Splitting and combining are inverse on words of the width of the field. *)
Lemma le_val_bytes n v : le_val (le_bytes n v) = v mod 256 ^ Z.of_nat n.
Proof.
  revert v. induction n as [|n IH]; intros v; simpl le_bytes; simpl le_val.
  - by rewrite Z.mod_1_r.
  - rewrite IH, Nat2Z.inj_succ, Z.pow_succ_r by lia.
    rewrite Z.rem_mul_r by lia. done.
Qed.

Lemma be_val_bytes n v : be_val (be_bytes n v) = v mod 256 ^ Z.of_nat n.
Proof. unfold be_val, be_bytes. rewrite rev_involutive. apply le_val_bytes. Qed.

Lemma le_bytes_val bs : bytes_ok bs -> le_bytes (length bs) (le_val bs) = bs.
Proof.
  induction 1 as [|b bs Hb _ IH]; simpl; [done|]. unfold byte_ok in Hb.
  rewrite (Z.mul_comm 256), Z.mod_add, Z.div_add, Z.mod_small, Z.div_small by lia.
  by rewrite Z.add_0_l, IH.
Qed.

Lemma be_bytes_val bs : bytes_ok bs -> be_bytes (length bs) (be_val bs) = bs.
Proof.
  intros Hb. unfold be_bytes, be_val. rewrite <- length_rev.
  rewrite le_bytes_val by (by apply List.Forall_rev). apply rev_involutive.
Qed.

Lemma le_val_range bs : bytes_ok bs -> 0 <= le_val bs < 256 ^ zlen bs.
Proof.
  induction 1 as [|b bs Hb _ IH]; [done|]. unfold byte_ok in Hb.
  rewrite zlen_cons, Z.pow_add_r by (pose proof (zlen_nonneg bs); lia). simpl le_val. lia.
Qed.

Lemma be_val_range bs : bytes_ok bs -> 0 <= be_val bs < 256 ^ zlen bs.
Proof.
  intros Hb. unfold be_val. pose proof (le_val_range (rev bs)) as H.
  unfold zlen in *. rewrite length_rev in H. apply H. by apply List.Forall_rev.
Qed.

(** ** Words in a buffer *)

(** [binary.BigEndian.PutUintN(b[off:], v)] and [binary.NativeEndian...]. *)
Definition put_be (n : nat) (off v : Z) (b : list Z) : option (list Z) :=
  if (0 <=? off) && (off + Z.of_nat n <=? zlen b) then Some (blit off (be_bytes n v) b) else None.

Definition put_le (n : nat) (off v : Z) (b : list Z) : option (list Z) :=
  if (0 <=? off) && (off + Z.of_nat n <=? zlen b) then Some (blit off (le_bytes n v) b) else None.

(** [binary.BigEndian.UintN(b[off:])] and [binary.NativeEndian...]. *)
Definition get_be (n : nat) (off : Z) (b : list Z) : option Z :=
  bs ← slice off (off + Z.of_nat n) b; Some (be_val bs).

Definition get_le (n : nat) (off : Z) (b : list Z) : option Z :=
  bs ← slice off (off + Z.of_nat n) b; Some (le_val bs).

Lemma zlen_blit {A} off (src b : list A) :
  0 <= off -> off + zlen src <= zlen b -> zlen (blit off src b) = zlen b.
Proof.
  intros. unfold blit, zlen in *. rewrite !length_app, length_take, length_drop. lia.
Qed.

Lemma slice_blit_same {A} off (src b : list A) :
  0 <= off -> off + zlen src <= zlen b -> slice off (off + zlen src) (blit off src b) = Some src.
Proof.
  intros. rewrite slice_Some by (rewrite ?zlen_blit by lia; pose proof (zlen_nonneg src); lia).
  f_equal. unfold blit.
  rewrite drop_app_length' by (rewrite length_take; unfold zlen in *; lia).
  rewrite take_app_length' by (unfold zlen; lia). done.
Qed.

Lemma slice_blit_disjoint {A} lo hi off (src b : list A) :
  0 <= off -> off + zlen src <= zlen b -> hi <= off \/ off + zlen src <= lo ->
  slice lo hi (blit off src b) = slice lo hi b.
Proof.
  intros Ho Hl Hd. unfold slice. rewrite zlen_blit by done.
  destruct ((0 <=? lo) && (lo <=? hi) && (hi <=? zlen b)) eqn:E; [|done]. to_prop.
  f_equal. apply list_eq. intros i.
  destruct (decide (i < Z.to_nat (hi - lo))%nat).
  2:{ rewrite !lookup_take_ge by lia. done. }
  rewrite !lookup_take_lt, !lookup_drop by lia.
  unfold blit, zlen in *. destruct Hd.
  - rewrite lookup_app_l by (rewrite length_take; lia). rewrite lookup_take_lt by lia. done.
  - rewrite app_assoc, lookup_app_r by (rewrite length_app, length_take; lia).
    rewrite lookup_drop. f_equal. rewrite length_app, length_take. lia.
Qed.

Lemma put_le_Some n off v b :
  0 <= off -> off + Z.of_nat n <= zlen b -> put_le n off v b = Some (blit off (le_bytes n v) b).
Proof.
  intros. unfold put_le. rewrite (proj2 (Z.leb_le 0 _)), (proj2 (Z.leb_le _ (zlen b))) by lia. done.
Qed.

Lemma put_be_Some n off v b :
  0 <= off -> off + Z.of_nat n <= zlen b -> put_be n off v b = Some (blit off (be_bytes n v) b).
Proof.
  intros. unfold put_be. rewrite (proj2 (Z.leb_le 0 _)), (proj2 (Z.leb_le _ (zlen b))) by lia. done.
Qed.

Lemma put_le_zlen n off v b b' : put_le n off v b = Some b' -> zlen b' = zlen b.
Proof.
  unfold put_le. intros H. case_if_in H; simplify_eq. apply zlen_blit; autorewrite with word; lia.
Qed.

(** A field read back after it was written, and one that was not written. *)
Lemma get_le_put_same n off v b b' :
  put_le n off v b = Some b' -> get_le n off b' = Some (v mod 256 ^ Z.of_nat n).
Proof.
  unfold put_le, get_le. intros H. case_if_in H; simplify_eq.
  pose proof (slice_blit_same off (le_bytes n v) b) as Hs.
  rewrite zlen_le_bytes in Hs. rewrite Hs by lia. simpl. by rewrite le_val_bytes.
Qed.

Lemma get_le_put_disjoint n m off off' v b b' :
  put_le n off v b = Some b' ->
  off' + Z.of_nat m <= off \/ off + Z.of_nat n <= off' -> get_le m off' b' = get_le m off' b.
Proof.
  unfold put_le, get_le. intros H Hd. case_if_in H; simplify_eq.
  rewrite slice_blit_disjoint by (autorewrite with word; lia). done.
Qed.

Lemma slice_put_disjoint n lo hi off v b b' :
  put_le n off v b = Some b' ->
  hi <= off \/ off + Z.of_nat n <= lo -> slice lo hi b' = slice lo hi b.
Proof.
  unfold put_le. intros H Hd. case_if_in H; simplify_eq.
  apply slice_blit_disjoint; autorewrite with word; lia.
Qed.

(** Writes inside a part of a buffer that was just written. *)
Lemma blit_over {A} off (a b l : list A) i :
  0 <= off -> 0 <= i -> i + zlen b <= zlen a -> off + zlen a <= zlen l ->
  blit (off + i) b (blit off a l) = blit off (blit i b a) l.
Proof.
  intros Ho Hi Hb Hl. unfold blit. unfold zlen in *.
  assert (Hp : length (take (Z.to_nat off) l) = Z.to_nat off) by (rewrite length_take; lia).
  set (p := take (Z.to_nat off) l) in *.
  replace (Z.to_nat (off + i)) with (length p + Z.to_nat i)%nat by lia.
  rewrite take_app_add, (take_app_le a) by lia.
  rewrite <- (Nat.add_assoc (length p)), (drop_app_add p), (drop_app_le a) by lia.
  rewrite <- !app_assoc. do 5 f_equal. rewrite !length_app, length_take, length_drop. lia.
Qed.

Lemma set_blit {A} i (x : A) l : 0 <= i < zlen l -> set_at i x l = Some (blit i [x] l).
Proof.
  intros Hi. rewrite set_at_Some by lia. f_equal. unfold blit, zlen in *. rewrite insert_take_drop by lia.
  simpl. do 3 f_equal. lia.
Qed.

Lemma be_val_be n v : 0 <= v < 256 ^ Z.of_nat n -> be_val (be_bytes n v) = v.
Proof. intros Hv. rewrite be_val_bytes. by apply Z.mod_small. Qed.

(** Parts of a list that is cut in three. *)
Lemma slice_app_mid {A} (pre m post : list A) : slice (zlen pre) (zlen pre + zlen m) (pre ++ m ++ post) = Some m.
Proof.
  pose proof (zlen_nonneg pre). pose proof (zlen_nonneg m). pose proof (zlen_nonneg post). rewrite slice_Some by (autorewrite with word; lia). f_equal.
  rewrite drop_app_length' by (unfold zlen; lia). by rewrite take_app_length' by (unfold zlen; lia).
Qed.

Lemma blit_app_mid {A} (pre m m' post : list A) : length m' = length m -> blit (zlen pre) m' (pre ++ m ++ post) = pre ++ m' ++ post.
Proof.
  intros Hl. unfold blit. rewrite take_app_length' by (unfold zlen; lia). do 2 f_equal. unfold zlen. rewrite Nat2Z.id, drop_app_add, Hl. by rewrite drop_app_length.
Qed.

(** Overwriting piece by piece. *)
Lemma blit_app {A} off (a b l : list A) : 0 <= off -> off + zlen a + zlen b <= zlen l ->
  blit off (a ++ b) l = blit (off + zlen a) b (blit off a l).
Proof.
  intros Ho Hl. unfold blit, zlen in *. assert (Hp : length (take (Z.to_nat off) l) = Z.to_nat off) by (rewrite length_take; lia).
  rewrite <- app_assoc. replace (Z.to_nat (off + Z.of_nat (length a))) with (length (take (Z.to_nat off) l) + length a)%nat by lia.
  rewrite (take_app_add (take (Z.to_nat off) l)), take_app_length. rewrite <- app_assoc. do 3 f_equal.
  rewrite <- Nat.add_assoc, (drop_app_add (take (Z.to_nat off) l)), drop_app_add, drop_drop, length_app. f_equal. lia.
Qed.

Lemma blit_nil {A} off (l : list A) : 0 <= off -> blit off [] l = l.
Proof. intros Ho. unfold blit. rewrite Nat.add_0_r. cbn [app]. apply take_drop. Qed.

Lemma take_blit {A} off (a l : list A) (n : nat) : (n <= Z.to_nat off)%nat -> off <= zlen l -> take n (blit off a l) = take n l.
Proof. intros Hn Hl. unfold blit, zlen in *. rewrite take_app_le by (rewrite length_take; lia). rewrite take_take. f_equal. lia. Qed.

Lemma take_blit_all {A} off (a l : list A) : 0 <= off -> off + zlen a <= zlen l -> take (Z.to_nat (off + zlen a)) (blit off a l) = take (Z.to_nat off) l ++ a.
Proof.
  intros Ho Hl. unfold blit, zlen in *. rewrite app_assoc. rewrite take_app_length'; [done|]. rewrite length_app, length_take. lia.
Qed.

Lemma get_le_Some n off b : 0 <= off -> off + Z.of_nat n <= zlen b -> exists v, get_le n off b = Some v /\ (bytes_ok b -> 0 <= v < 256 ^ Z.of_nat n).
Proof.
  intros Ho Hl. unfold get_le. rewrite slice_Some by lia. cbn [mbind option_bind]. eexists. split; [done|]. intros Hb. set (bs := take _ _).
  assert (Hz : zlen bs = Z.of_nat n) by (unfold bs; rewrite zlen_take, zlen_drop; lia). rewrite <- Hz. apply le_val_range. by apply Forall_take, Forall_drop.
Qed.

(** What the two rings of mlx5/internal/ring share: how often counters are
    published, and how an index is stored in a doorbell record. *)

Definition publishEvery : Z := 256.

(** The word whose store in host order leaves the big-endian bytes of [v]. *)
Definition be32_native (v : Z) : Z := le_val (be_bytes 4 v).

Lemma be32_native_index v : 0 <= v < 2 ^ 32 -> be_val (le_bytes 4 (be32_native v)) = v.
Proof.
  intros Hv. unfold be32_native.
  pose proof (le_bytes_val (be_bytes 4 v) (be_bytes_ok 4 v)) as E. rewrite length_be_bytes in E. rewrite E.
  rewrite be_val_bytes. by apply Z.mod_small.
Qed.
