(* ===== verification/Desc.v ===== *)
(** Descriptors and offload metadata: desc.go and offload.go.

    [Desc] names one frame of a region; [Offload] is the virtio-net header that
    travels with it, with [Marshal] and [UnmarshalOffload], its wire form. *)

From stdpp Require Import prelude list numbers.
From S2P Require Import Prelude Circ Bytes.

(** ** desc.go *)

Record Desc : Set := mkDesc { Addr : Z; Len : Z; Options : Z }.

#[export] Instance Desc_inhabited : Inhabited Desc := populate (mkDesc 0 0 0).
#[export] Instance Desc_eq_dec : EqDecision Desc.
Proof. solve_decision. Defined.

(** The fields are a uint64 and two uint32. *)
Definition desc_ok (d : Desc) : Prop :=
  0 <= Addr d < 2 ^ 64 /\ 0 <= Len d < 2 ^ 32 /\ 0 <= Options d < 2 ^ 32.

Definition OptContinued : Z := Z.shiftl 1 0.
Definition OptChecksumOK : Z := Z.shiftl 1 1.
Definition OptL3ChecksumOK : Z := Z.shiftl 1 2.
Definition OptionsBackendShift : Z := 16.

(** ** offload.go *)

Record Offload : Set := mkOffload {
  Flags : Z; GSOType : Z; HdrLen : Z; GSOSize : Z; CsumStart : Z; CsumOff : Z
}.

#[export] Instance Offload_eq_dec : EqDecision Offload.
Proof. solve_decision. Defined.

Definition offload_ok (o : Offload) : Prop :=
  0 <= Flags o < 2 ^ 8 /\ 0 <= GSOType o < 2 ^ 8 /\ 0 <= HdrLen o < 2 ^ 16 /\
  0 <= GSOSize o < 2 ^ 16 /\ 0 <= CsumStart o < 2 ^ 16 /\ 0 <= CsumOff o < 2 ^ 16.

Definition OffloadNeedsCsum : Z := 1.
Definition OffloadGSONone : Z := 0.
Definition OffloadGSOTCPv4 : Z := 1.
Definition OffloadGSOUDP : Z := 3.
Definition OffloadGSOTCPv6 : Z := 4.
Definition OffloadGSOECN : Z := 0x80.
Definition OffloadHdrLen : Z := 10.

Definition Segmented (o : Offload) : bool :=
  negb ((GSOType o) &^ OffloadGSOECN =? OffloadGSONone).

(** The assignments of [Marshal], in order; each [byte(x)] truncates. *)
Definition Marshal (o : Offload) (dst : list Z) : option (list Z) :=
  _ ← get_at (OffloadHdrLen - 1) dst;
  foldM (fun b '(i, v) => set_at i v b)
    [(0, Flags o); (1, GSOType o);
     (2, u8 (HdrLen o)); (3, u8 (Z.shiftr (HdrLen o) 8));
     (4, u8 (GSOSize o)); (5, u8 (Z.shiftr (GSOSize o) 8));
     (6, u8 (CsumStart o)); (7, u8 (Z.shiftr (CsumStart o) 8));
     (8, u8 (CsumOff o)); (9, u8 (Z.shiftr (CsumOff o) 8))] dst.

Definition UnmarshalOffload (src : list Z) : option Offload :=
  _ ← get_at (OffloadHdrLen - 1) src;
  b0 ← get_at 0 src; b1 ← get_at 1 src; b2 ← get_at 2 src; b3 ← get_at 3 src;
  b4 ← get_at 4 src; b5 ← get_at 5 src; b6 ← get_at 6 src; b7 ← get_at 7 src;
  b8 ← get_at 8 src; b9 ← get_at 9 src;
  Some (mkOffload b0 b1
    (Z.lor b2 (u16 (Z.shiftl b3 8))) (Z.lor b4 (u16 (Z.shiftl b5 8)))
    (Z.lor b6 (u16 (Z.shiftl b7 8))) (Z.lor b8 (u16 (Z.shiftl b9 8)))).

(** ** Lemmas *)

Definition wire16 (v : Z) : list Z := [u8 v; u8 (Z.shiftr v 8)].

Definition marshalled (o : Offload) : list Z :=
  [Flags o; GSOType o] ++ wire16 (HdrLen o) ++ wire16 (GSOSize o) ++
  wire16 (CsumStart o) ++ wire16 (CsumOff o).

Lemma ten_bytes {A} (l : list A) :
  10 <= zlen l -> exists a b c d e f g h i j rest, l = a :: b :: c :: d :: e :: f :: g :: h :: i :: j :: rest.
Proof.
  intros H. unfold zlen in H.
  do 10 (destruct l as [|? l]; [simpl in H; lia|]). by do 11 eexists.
Qed.

Lemma Marshal_spec o dst : 10 <= zlen dst -> Marshal o dst = Some (marshalled o ++ drop 10 dst).
Proof.
  intros H. destruct (ten_bytes dst H) as (?&?&?&?&?&?&?&?&?&?&rest&->).
  unfold Marshal. simpl get_at. rewrite !zlen_cons in H.
  unfold foldM. rewrite !set_at_Some by (autorewrite with word; lia). simpl.
  rewrite !set_at_Some by (autorewrite with word; lia). simpl.
  repeat (rewrite set_at_Some by (autorewrite with word; lia); simpl). done.
Qed.

Lemma header_short {A} (l : list A) : zlen l < 10 -> get_at (OffloadHdrLen - 1) l = None.
Proof.
  intros H. rewrite get_at_lookup by (unfold OffloadHdrLen; lia).
  apply lookup_ge_None_2. unfold zlen, OffloadHdrLen in *. lia.
Qed.

Lemma UnmarshalOffload_short src : zlen src < 10 -> UnmarshalOffload src = None.
Proof.
  intros H. unfold UnmarshalOffload.
  destruct (get_at (OffloadHdrLen - 1) src) eqn:E; [|done].
  rewrite header_short in E by done. done.
Qed.

Lemma le16_join b0 b1 : byte_ok b0 -> byte_ok b1 -> Z.lor b0 (u16 (Z.shiftl b1 8)) = b0 + 256 * b1.
Proof.
  unfold byte_ok. intros. rewrite u16_small by (rewrite Z.shiftl_mul_pow2 by lia; lia).
  rewrite lor_shiftl_add by lia. lia.
Qed.

Lemma u8_shiftr8 v : u8 (Z.shiftr v 8) = (v / 256) mod 256.
Proof. unfold u8. by rewrite Z.shiftr_div_pow2 by lia. Qed.

Lemma le16_split_join v : 0 <= v < 2 ^ 16 -> Z.lor (u8 v) (u16 (Z.shiftl (u8 (Z.shiftr v 8)) 8)) = v.
Proof.
  intros. rewrite le16_join by (unfold byte_ok; apply u8_range).
  rewrite u8_shiftr8. unfold u8. change (2 ^ 8) with 256. divlia.
Qed.

(** ** Properties *)

(** [Marshal] followed by [UnmarshalOffload] gives every Offload back, and
    the bytes behind the ten-byte header are untouched. *)
Theorem Offload_roundtrip o dst :
  offload_ok o -> OffloadHdrLen <= zlen dst ->
  exists dst', Marshal o dst = Some dst' /\ UnmarshalOffload dst' = Some o /\
               zlen dst' = zlen dst /\ drop 10 dst' = drop 10 dst.
Proof.
  intros (Hf & Hg & Hh & Hs & Hc & Hcs) Hl. change OffloadHdrLen with 10 in Hl.
  exists (marshalled o ++ drop 10 dst). split; [by apply Marshal_spec|].
  destruct (ten_bytes dst Hl) as (?&?&?&?&?&?&?&?&?&?&rest&->).
  split; [|split; [|done]].
  - unfold UnmarshalOffload, get_at. simpl. rewrite !le16_split_join by done. by destruct o.
  - unfold zlen. rewrite length_app. simpl. by rewrite drop_0.
Qed.

Lemma Offload_roundtrip_witness :
  let o := mkOffload 1 1 54 1448 34 16 in
  let dst := replicate 12 0xAA in
  offload_ok o /\ OffloadHdrLen <= zlen dst /\
  exists dst', Marshal o dst = Some dst' /\ UnmarshalOffload dst' = Some o /\
               zlen dst' = zlen dst /\ drop 10 dst' = drop 10 dst.
Proof.
  cbv zeta. assert (H1 : offload_ok (mkOffload 1 1 54 1448 34 16)) by (unfold offload_ok; simpl; lia).
  assert (H2 : OffloadHdrLen <= zlen (replicate 12 0xAA)) by (vm_compute; discriminate).
  split; [exact H1|]. split; [exact H2|]. exact (Offload_roundtrip _ _ H1 H2).
Defined.

Lemma unmarshal_marshal src o :
  bytes_ok src -> UnmarshalOffload src = Some o ->
  offload_ok o /\ marshalled o = take 10 src.
Proof.
  intros Hb Hu. destruct (decide (10 <= zlen src)) as [Hl|Hl].
  2:{ by rewrite UnmarshalOffload_short in Hu by lia. }
  destruct (ten_bytes src Hl) as (a&b&c&d&e&f&g&h&i&j&rest&->).
  unfold UnmarshalOffload, get_at in Hu. simpl in Hu. simplify_eq.
  unfold bytes_ok in Hb. rewrite !Forall_cons_iff in Hb. destruct Hb as (?&?&?&?&?&?&?&?&?&?&_).
  rewrite !le16_join by done. unfold byte_ok, offload_ok, marshalled, wire16 in *. simpl.
  split; [lia|]. rewrite !u8_shiftr8. unfold u8. change (2 ^ 8) with 256.
  repeat f_equal; divlia.
Qed.

(** Whatever ten bytes a peer sends, [UnmarshalOffload] yields an Offload
    whose fields are in range and which [Marshal] writes back byte for byte; on
    fewer than ten bytes both panic. *)
Theorem UnmarshalOffload_wire src dst :
  bytes_ok src -> OffloadHdrLen <= zlen dst ->
  match UnmarshalOffload src with
  | Some o => OffloadHdrLen <= zlen src /\ offload_ok o /\ Marshal o dst = Some (take 10 src ++ drop 10 dst)
  | None => zlen src < OffloadHdrLen
  end.
Proof.
  intros Hb Hd. change OffloadHdrLen with 10 in *.
  destruct (decide (10 <= zlen src)) as [Hl|Hl].
  - destruct (UnmarshalOffload src) as [o|] eqn:Hu.
    + destruct (unmarshal_marshal _ _ Hb Hu) as [Ho Hm]. split; [done|]. split; [done|].
      rewrite Marshal_spec by done. by rewrite Hm.
    + destruct (ten_bytes src Hl) as (?&?&?&?&?&?&?&?&?&?&rest&->). done.
  - rewrite UnmarshalOffload_short by lia. lia.
Qed.

Lemma UnmarshalOffload_wire_witness :
  let src := [1; 4; 66; 0; 0xA8; 5; 34; 0; 16; 0] in
  let dst := replicate 10 0 in
  bytes_ok src /\ OffloadHdrLen <= zlen dst /\
  match UnmarshalOffload src with
  | Some o => OffloadHdrLen <= zlen src /\ offload_ok o /\ Marshal o dst = Some (take 10 src ++ drop 10 dst)
  | None => zlen src < OffloadHdrLen
  end.
Proof.
  cbv zeta. assert (H1 : bytes_ok [1; 4; 66; 0; 0xA8; 5; 34; 0; 16; 0]).
  { unfold bytes_ok, byte_ok. repeat constructor; lia. }
  assert (H2 : OffloadHdrLen <= zlen (replicate 10 0)) by (vm_compute; discriminate).
  split; [exact H1|]. split; [exact H2|]. exact (UnmarshalOffload_wire _ _ H1 H2).
Defined.
