(* ===== verification/Pool.v ===== *)
(** The free-frame list: internal/pool.

    [Frames] is the LIFO of frame offsets behind every queue.  The package has
    two builds; the [packetio_checked] tag adds one bit per frame that says
    whether the frame is on the list.  Both are modelled, the build tag being
    the [checked] argument.  [FramePool] is what the pool promises the queues
    built on it; both builds are instances. *)

From stdpp Require Import prelude list numbers.
From S2P Require Import Prelude Circ Bytes Desc.

Record Frames : Set := mkFrames {
  free : list Z;       (* the slice's contents *)
  free_cap : Z;        (* its capacity *)
  frameSize : Z;
  frameMask : Z;
  frameShift : Z;
  base : Z;
  end_ : Z;
  rejected : Z;
  in_ : list Z         (* one bit per frame, checked build only *)
}.

Definition with_free (f : list Z) (p : Frames) : Frames :=
  mkFrames f (free_cap p) (frameSize p) (frameMask p) (frameShift p) (base p) (end_ p) (rejected p) (in_ p).
Definition with_in (b : list Z) (p : Frames) : Frames :=
  mkFrames (free p) (free_cap p) (frameSize p) (frameMask p) (frameShift p) (base p) (end_ p) (rejected p) b.
Definition reject (p : Frames) : Frames :=
  mkFrames (free p) (free_cap p) (frameSize p) (frameMask p) (frameShift p) (base p) (end_ p)
    (u64 (rejected p + 1)) (in_ p).

(** ** check_on.go and check_off.go *)

Section build.
Context (checked : bool).

Definition Checked : bool := checked.

Definition initChecks (count : Z) : list Z :=
  if checked then
    let words := (count + 63) / 64 in
    let full := replicate (Z.to_nat words) (2 ^ 64 - 1) in
    let r := count mod 64 in
    if r =? 0 then full
    else <[pred (length full) := Z.shiftl 1 r - 1]> full
  else [].

Definition index (addr : Z) (p : Frames) : Z := Z.shiftr (u64 (addr - base p)) (frameShift p).

Definition markFree (addr : Z) (p : Frames) : option (bool * Frames) :=
  if checked then
    let i := index addr p in
    w ← get_at (Z.shiftr i 6) (in_ p);
    if negb (Z.land w (Z.shiftl 1 (Z.land i 63)) =? 0) then Some (false, p)
    else ws ← set_at (Z.shiftr i 6) (Z.lor w (Z.shiftl 1 (Z.land i 63))) (in_ p);
         Some (true, with_in ws p)
  else Some (true, p).

Definition markTaken (addrs : list Z) (p : Frames) : option Frames :=
  if checked then
    foldM (fun p addr =>
      let i := index addr p in
      w ← get_at (Z.shiftr i 6) (in_ p);
      ws ← set_at (Z.shiftr i 6) (w &^ Z.shiftl 1 (Z.land i 63)) (in_ p);
      Some (with_in ws p)) addrs p
  else Some p.

(** ** pool.go *)

(** [make] panics on a negative count. *)
Definition New (base count frameSize : Z) : option Frames :=
  if count <? 0 then None else
  let lo := u64 (u64 base * u64 frameSize) in
  Some (mkFrames
    ((fun i => u64 (u64 (base + count - 1 - Z.of_nat i) * u64 frameSize)) <$> seq 0 (Z.to_nat count))
    count frameSize (u64 (frameSize - 1)) (TrailingZeros64 (u64 frameSize)) lo
    (u64 (lo + u64 count * u64 frameSize)) 0 (initChecks count)).

Definition PoolLen (p : Frames) : Z := zlen (free p).
Definition FrameSize (p : Frames) : Z := frameSize p.
Definition Owns (p : Frames) (addr : Z) : bool := (base p <=? addr) && (addr <? end_ p).

Definition Pop (n : Z) (dst : list Z) (p : Frames) : option (list Z * Frames) :=
  let n := if n >? zlen (free p) then zlen (free p) else n in
  if n <=? 0 then Some (dst, p) else
  let start := Z.to_nat (zlen (free p) - n) in
  p' ← markTaken (drop start (free p)) p;
  Some (dst ++ drop start (free p), with_free (take start (free p)) p').

Definition Push (addr : Z) (p : Frames) : option Frames :=
  if (addr <? base p) || (addr >=? end_ p) || negb (Z.land addr (frameMask p) =? 0)
     || (zlen (free p) >=? free_cap p)
  then Some (reject p)
  else '(ok, p') ← markFree addr p;
       if negb ok then Some (reject p')
       else Some (with_free (free p' ++ [addr]) p').

Definition Rejected (p : Frames) : Z := rejected p.
Definition Base (p : Frames) (addr : Z) : Z := addr &^ frameMask p.
End build.

(** ** What the pool promises

    [geometry] is the slice of the region a pool covers: [g_count] frames of
    [2^g_log] bytes from frame [g_first] on. *)

Record geometry : Set := mkGeo { g_log : Z; g_first : Z; g_count : Z }.

Definition fsize (g : geometry) : Z := 2 ^ g_log g.
Definition frame (g : geometry) (i : Z) : Z := (g_first g + i) * fsize g.
Definition all_frames (g : geometry) : list Z :=
  (fun i => frame g (Z.of_nat i)) <$> seq 0 (Z.to_nat (g_count g)).

(** The region fits a 64-bit address space. *)
Definition geo_ok (g : geometry) : Prop :=
  0 <= g_log g < 64 /\ 0 <= g_first g /\ 0 <= g_count g /\ (g_first g + g_count g) * fsize g < 2 ^ 64.

Class FramePool (P : Type) := {
  fp_free : P -> list Z;
  fp_rejected : P -> Z;
  fp_Len : P -> Z;
  fp_Pop : Z -> list Z -> P -> option (list Z * P);
  fp_Push : Z -> P -> option P;
  fp_Base : P -> Z -> Z
}.

Class FramePoolLaws (P : Type) `{FramePool P} (g : geometry) (inv : P -> Prop) := {
  fp_geo : geo_ok g;
  fp_len_ok p : inv p -> fp_Len p = zlen (fp_free p);
  fp_sub p : inv p -> fp_free p ⊆ all_frames g;
  fp_bound p : inv p -> zlen (fp_free p) <= g_count g;
  (** Popping takes the tail of the list, at most [n] of it. *)
  fp_pop_ok p n dst : inv p ->
    let k := (length (fp_free p) - Z.to_nat (Z.max 0 n))%nat in
    exists p', fp_Pop n dst p = Some (dst ++ drop k (fp_free p), p') /\
               fp_free p' = take k (fp_free p) /\ fp_rejected p' = fp_rejected p /\ inv p';
  (** A frame of the pool that is not on the list goes back on it ... *)
  fp_push_ok p a : inv p -> a ∈ all_frames g -> a ∉ fp_free p -> zlen (fp_free p) < g_count g ->
    exists p', fp_Push a p = Some p' /\ fp_free p' = fp_free p ++ [a] /\
               fp_rejected p' = fp_rejected p /\ inv p';
  (** ... and an address that is not a frame of the pool is refused. *)
  fp_push_foreign p a : inv p -> a ∉ all_frames g ->
    exists p', fp_Push a p = Some p' /\ fp_free p' = fp_free p /\
               fp_rejected p' = u64 (fp_rejected p + 1) /\ inv p';
  fp_base_ok p a : inv p -> fp_Base p a = a - a mod fsize g
}.

(** ** Lemmas on the geometry *)

Lemma fsize_pos g : 0 <= g_log g < 64 -> 0 < fsize g < 2 ^ 64.
Proof. intros. unfold fsize. split; [apply Z.pow_pos_nonneg; lia|apply Z.pow_lt_mono_r; lia]. Qed.

Lemma elem_all_frames g a :
  geo_ok g ->
  a ∈ all_frames g <-> frame g 0 <= a < frame g (g_count g) /\ a mod fsize g = 0.
Proof.
  intros (Hl & Hf & Hc & Hm). pose proof (fsize_pos g Hl) as Hs. unfold all_frames, frame.
  rewrite list_elem_of_fmap. split.
  - intros (i & -> & Hi). apply elem_of_seq in Hi. rewrite Z.mod_mul by lia. nia.
  - intros [Hr Hz]. exists (Z.to_nat (a / fsize g - g_first g)).
    pose proof (Z.div_mod a (fsize g) ltac:(lia)). rewrite elem_of_seq.
    assert (g_first g <= a / fsize g < g_first g + g_count g) by nia.
    split; [|lia]. rewrite Z2Nat.id by lia. nia.
Qed.

Lemma frame_inj g i j : geo_ok g -> frame g i = frame g j -> i = j.
Proof. intros (Hl & _) H. pose proof (fsize_pos g Hl). unfold frame in H. nia. Qed.

Lemma NoDup_all_frames g : geo_ok g -> NoDup (all_frames g).
Proof.
  intros Hg. apply NoDup_fmap_2_strong; [|apply NoDup_seq].
  intros i j _ _ He. apply frame_inj in He; [lia|done].
Qed.

Lemma zlen_all_frames g : geo_ok g -> zlen (all_frames g) = g_count g.
Proof. intros (_&_&?&_). unfold zlen, all_frames. rewrite length_fmap, length_seq. lia. Qed.

Lemma frame_mem g i : geo_ok g -> 0 <= i < g_count g -> frame g i ∈ all_frames g.
Proof.
  intros Hg Hi. unfold all_frames. rewrite list_elem_of_fmap. exists (Z.to_nat i).
  split; [by rewrite Z2Nat.id by lia|]. rewrite elem_of_seq. lia.
Qed.

Lemma mem_frame g a : a ∈ all_frames g -> exists i, 0 <= i < g_count g /\ a = frame g i.
Proof.
  unfold all_frames. rewrite list_elem_of_fmap. intros (i & -> & Hi). rewrite elem_of_seq in Hi.
  exists (Z.of_nat i). lia.
Qed.

(** ** The occupancy bits *)

Definition bit (ws : list Z) (i : Z) : bool := Z.testbit (ws !!! Z.to_nat (i / 64)) (i mod 64).

Lemma shiftr6 i : Z.shiftr i 6 = i / 64. Proof. by rewrite Z.shiftr_div_pow2. Qed.
Lemma land63 i : Z.land i 63 = i mod 64. Proof. apply (land_ones_mod i 6). lia. Qed.

Lemma land_bit_zero w n : 0 <= n -> (Z.land w (Z.shiftl 1 n) =? 0) = negb (Z.testbit w n).
Proof.
  intros Hn. rewrite Z.shiftl_1_l. destruct (Z.testbit w n) eqn:E; simpl.
  - apply Z.eqb_neq. intros H0. apply (f_equal (fun z => Z.testbit z n)) in H0.
    rewrite Z.land_spec, E, Z.pow2_bits_true, Z.bits_0 in H0 by lia. done.
  - apply Z.eqb_eq. apply Z.bits_inj'. intros m Hm.
    rewrite Z.land_spec, Z.bits_0, Z.pow2_bits_eqb by lia.
    destruct (Z.eqb_spec n m) as [->|]; [by rewrite E|apply andb_false_r].
Qed.

Lemma testbit_or_bit w n m : 0 <= n -> 0 <= m ->
  Z.testbit (Z.lor w (Z.shiftl 1 n)) m = Z.testbit w m || (n =? m).
Proof. intros. by rewrite Z.lor_spec, Z.shiftl_1_l, Z.pow2_bits_eqb by lia. Qed.

Lemma testbit_clear_bit w n m : 0 <= n -> 0 <= m ->
  Z.testbit (w &^ Z.shiftl 1 n) m = Z.testbit w m && negb (n =? m).
Proof. intros. by rewrite Z.ldiff_spec, Z.shiftl_1_l, Z.pow2_bits_eqb by lia. Qed.

(** Rewriting one bit of a word list through [f]. *)
Lemma bit_update (ws : list Z) i j w' :
  0 <= i < 64 * zlen ws -> 0 <= j < 64 * zlen ws ->
  bit (<[Z.to_nat (i / 64) := w']> ws) j =
  if i / 64 =? j / 64 then Z.testbit w' (j mod 64) else bit ws j.
Proof.
  intros Hi Hj. unfold bit. destruct (Z.eqb_spec (i / 64) (j / 64)) as [He|Hne].
  - rewrite He, list_lookup_total_insert_eq; [done|]. unfold zlen in *. divlia.
  - rewrite list_lookup_total_insert_ne; [done|]. divlia.
Qed.

Lemma same_bit i j : i / 64 = j / 64 -> (i mod 64 =? j mod 64) = (i =? j).
Proof.
  intros H. destruct (Z.eqb_spec i j) as [->|Hne]; [apply Z.eqb_refl|].
  apply Z.eqb_neq. divlia.
Qed.

Lemma get_word (ws : list Z) i : 0 <= i < 64 * zlen ws ->
  get_at (Z.shiftr i 6) ws = Some (ws !!! Z.to_nat (i / 64)).
Proof.
  intros Hi. rewrite shiftr6, get_at_lookup by divlia.
  apply list_lookup_lookup_total_lt. unfold zlen in *. divlia.
Qed.

(** ** The invariant *)

Record pool_geo (checked : bool) (g : geometry) (p : Frames) : Prop := {
  pg_size : frameSize p = fsize g;
  pg_mask : frameMask p = fsize g - 1;
  pg_shift : frameShift p = g_log g;
  pg_base : base p = frame g 0;
  pg_end : end_ p = frame g (g_count g);
  pg_cap : free_cap p = g_count g;
  pg_words : checked = true -> zlen (in_ p) = (g_count g + 63) / 64
}.

Record pool_inv (checked : bool) (g : geometry) (p : Frames) : Prop := {
  pi_geo : pool_geo checked g p;
  pi_sub : free p ⊆ all_frames g;
  pi_bound : zlen (free p) <= g_count g;
  pi_nodup : checked = true -> NoDup (free p);
  pi_bits : checked = true -> forall i, 0 <= i < g_count g -> bit (in_ p) i = true <-> frame g i ∈ free p
}.

Section proofs.
Context (g : geometry) (Hg : geo_ok g).
Implicit Types (checked : bool).

Lemma geo_with_in checked ws p : pool_geo checked g p -> 
  (checked = true -> zlen ws = zlen (in_ p)) -> pool_geo checked g (with_in ws p).
Proof. intros [] Hw. constructor; simpl; auto. intros Hc. rewrite Hw; auto. Qed.

Lemma geo_with_free checked f p : pool_geo checked g p -> pool_geo checked g (with_free f p).
Proof. intros []. constructor; simpl; auto. Qed.

Lemma index_frame {checked} p i : pool_geo checked g p -> 0 <= i < g_count g -> index (frame g i) p = i.
Proof using Hg.
  intros Hp Hi. unfold index. rewrite (pg_base _ _ _ Hp), (pg_shift _ _ _ Hp).
  destruct Hg as (Hl & Hf & Hc & Hm). pose proof (fsize_pos g Hl).
  rewrite u64_small by (unfold frame; nia). unfold frame.
  rewrite Z.shiftr_div_pow2 by lia. fold (fsize g).
  replace ((g_first g + i) * fsize g - (g_first g + 0) * fsize g) with (i * fsize g) by lia.
  apply Z.div_mul. lia.
Qed.

Lemma index_in_words p i :
  pool_geo true g p -> 0 <= i < g_count g -> 0 <= i < 64 * zlen (in_ p).
Proof using Hg. intros Hp Hi. rewrite (pg_words _ _ _ Hp eq_refl). divlia. Qed.

(** What the two builds' [markFree] do on a frame of the pool. *)
Lemma markFree_frame checked p i :
  pool_geo checked g p -> 0 <= i < g_count g ->
  exists ws, markFree checked (frame g i) p =
    Some (if checked && bit (in_ p) i then (false, p) else (true, with_in ws p)) /\
    (checked = false -> ws = in_ p) /\
    (checked = true -> zlen ws = zlen (in_ p) /\
      forall j, 0 <= j < g_count g -> bit ws j = bit (in_ p) j || (i =? j)).
Proof using Hg.
  intros Hp Hi. unfold markFree. destruct checked eqn:Hc; simpl.
  2:{ exists (in_ p). split; [by destruct p|by split]. }
  rewrite (index_frame p i) by done. pose proof (index_in_words p i Hp Hi) as Hw.
  rewrite get_word by done. simpl. rewrite land63, land_bit_zero, negb_involutive by divlia.
  fold (bit (in_ p) i). destruct (bit (in_ p) i) eqn:Hb.
  - exists (in_ p). split; [done|]. split; [done|]. intros _. split; [done|].
    intros j Hj. destruct (Z.eqb_spec i j) as [->|]; [by rewrite Hb|by rewrite orb_false_r].
  - rewrite shiftr6, set_at_Some by divlia. simpl. eexists. split; [done|]. split; [done|].
    intros _. split; [apply zlen_insert|]. intros j Hj.
    pose proof (index_in_words p j Hp Hj).
    rewrite bit_update by done. destruct (Z.eqb_spec (i / 64) (j / 64)) as [He|Hne].
    + rewrite testbit_or_bit, same_bit by (done || divlia). unfold bit. by rewrite He.
    + destruct (Z.eqb_spec i j) as [->|]; [done|by rewrite orb_false_r].
Qed.

(** [markTaken] clears exactly the bits of the frames it is given. *)
Lemma markTaken_frames checked l p :
  pool_geo checked g p -> l ⊆ all_frames g ->
  exists ws, markTaken checked l p = Some (with_in ws p) /\
    (checked = false -> ws = in_ p) /\
    (checked = true -> zlen ws = zlen (in_ p) /\
      forall j, 0 <= j < g_count g ->
        bit ws j = bit (in_ p) j && bool_decide (frame g j ∉ l)).
Proof using Hg.
  unfold markTaken. destruct checked eqn:Hc; simpl.
  2:{ intros _ _. exists (in_ p). split; [by destruct p|by split]. }
  revert p. induction l as [|a l IH]; intros p Hp Hl; cbn [foldM].
  { exists (in_ p). split; [by destruct p|]. split; [done|]. intros _. split; [done|].
    intros j Hj. rewrite bool_decide_true by set_solver. by rewrite andb_true_r. }
  destruct (mem_frame g a) as (i & Hi & ->); [set_solver|].
  rewrite index_frame, get_word by (done || by apply index_in_words). simpl.
  rewrite shiftr6, set_at_Some, land63 by (pose proof (index_in_words p i Hp Hi); divlia).
  simpl. destruct (IH (with_in (<[Z.to_nat (i / 64) :=
    (in_ p !!! Z.to_nat (i / 64)) &^ Z.shiftl 1 (i mod 64)]> (in_ p)) p)) as (ws & -> & _ & Hws).
  { apply geo_with_in; [done|]. intros _. apply zlen_insert. }
  { set_solver. }
  exists ws. split; [done|]. split; [done|]. intros _. destruct (Hws eq_refl) as [Hwl Hwb].
  simpl in Hwl, Hwb. rewrite zlen_insert in Hwl. split; [done|]. intros j Hj.
  rewrite Hwb by done. pose proof (index_in_words p j Hp Hj).
  rewrite bit_update by (done || by apply index_in_words).
  destruct (decide (i = j)) as [->|Hne].
  - rewrite Z.eqb_refl, testbit_clear_bit, Z.eqb_refl by divlia.
    rewrite (bool_decide_false (_ ∉ _ :: _)) by set_solver. by rewrite !andb_false_r.
  - rewrite (bool_decide_ext (frame g j ∉ frame g i :: l) (frame g j ∉ l)).
    2:{ split; [set_solver|]. intros Hn. apply not_elem_of_cons. split; [|done].
        intros He. apply frame_inj in He; done. }
    f_equal. destruct (Z.eqb_spec (i / 64) (j / 64)) as [He|]; [|done].
    rewrite testbit_clear_bit, same_bit by (done || divlia).
    rewrite (proj2 (Z.eqb_neq i j)) by done. unfold bit. by rewrite He, andb_true_r.
Qed.

Lemma Pop_spec checked p n dst :
  pool_inv checked g p ->
  let k := (length (free p) - Z.to_nat (Z.max 0 n))%nat in
  exists p', Pop checked n dst p = Some (dst ++ drop k (free p), p') /\
             free p' = take k (free p) /\ rejected p' = rejected p /\ pool_inv checked g p'.
Proof using Hg.
  intros Hp k. unfold Pop.
  set (m := if n >? zlen (free p) then zlen (free p) else n).
  assert (Hm : k = (length (free p) - Z.to_nat m)%nat /\ m <= zlen (free p)).
  { unfold k, m, zlen. destruct (Z.gtb_spec n (Z.of_nat (length (free p)))); lia. }
  destruct Hm as [Hk Hm]. destruct (Z.leb_spec m 0) as [Hle|Hgt].
  { exists p. rewrite Hk. replace (length (free p) - Z.to_nat m)%nat with (length (free p)) by lia.
    rewrite drop_all, app_nil_r, take_ge by lia. done. }
  replace (Z.to_nat (zlen (free p) - m)) with k by (unfold zlen in *; lia).
  assert (Hsub : drop k (free p) ⊆ all_frames g).
  { intros a Ha. apply (pi_sub _ _ _ Hp). by eapply elem_drop. }
  destruct (markTaken_frames checked (drop k (free p)) p (pi_geo _ _ _ Hp) Hsub) as (ws & -> & _ & Hws).
  simpl. eexists. split; [done|]. split; [done|]. split; [done|].
  destruct Hp as [Hgeo Hfs Hfb Hnd Hbits]. constructor; simpl.
  - apply geo_with_free, geo_with_in; [done|]. intros Hc. by apply Hws.
  - intros a Ha. apply Hfs. by eapply elem_take.
  - unfold zlen in *. rewrite length_take. lia.
  - intros Hc. specialize (Hnd Hc). rewrite <- (take_drop k (free p)) in Hnd.
    by apply list.NoDup_app in Hnd as [? _].
  - intros Hc i Hi. destruct (Hws Hc) as [_ Hb]. rewrite Hb, andb_true_iff, bool_decide_eq_true by done.
    rewrite Hbits by done. specialize (Hnd Hc).
    rewrite <- (take_drop k (free p)) in Hnd at 1. apply list.NoDup_app in Hnd as (_ & Hx & _).
    rewrite <- (take_drop k (free p)) at 1. rewrite elem_of_app. naive_solver.
Qed.

Lemma Push_guard checked p a :
  pool_geo checked g p ->
  (a <? base p) || (a >=? end_ p) || negb (Z.land a (frameMask p) =? 0) = false <->
  a ∈ all_frames g.
Proof using Hg.
  intros Hp. rewrite elem_all_frames by done.
  rewrite (pg_base _ _ _ Hp), (pg_end _ _ _ Hp), (pg_mask _ _ _ Hp).
  destruct Hg as (Hl & _). unfold fsize at 1. rewrite land_ones_mod by lia. fold (fsize g).
  rewrite !orb_false_iff, negb_false_iff, Z.eqb_eq, Z.ltb_ge, Z.geb_leb, Z.leb_gt. naive_solver.
Qed.

(** Exactly what [Push] does: when it appends, and that it only counts
    otherwise. *)
Lemma Push_spec checked p a :
  pool_inv checked g p ->
  exists p', Push checked a p = Some p' /\ pool_inv checked g p' /\
    if bool_decide (a ∈ all_frames g /\ zlen (free p) < g_count g /\ (checked = true -> a ∉ free p))
    then free p' = free p ++ [a] /\ rejected p' = rejected p
    else free p' = free p /\ rejected p' = u64 (rejected p + 1).
Proof using Hg.
  intros Hp. pose proof (pi_geo _ _ _ Hp) as Hgeo.
  assert (Hrej : exists p', Some (reject p) = Some p' /\ pool_inv checked g p' /\
            free p' = free p /\ rejected p' = u64 (rejected p + 1)).
  { exists (reject p). split; [done|]. split; [|done].
    destruct Hp as [[] ? ? ? ?]. constructor; simpl; [constructor; auto|auto..]. }
  unfold Push. rewrite (pg_cap _ _ _ Hgeo).
  destruct (_ || negb _) eqn:Hgd; simpl.
  { rewrite bool_decide_false; [done|]. intros [Hm _].
    apply (Push_guard checked p) in Hm; [congruence|done..]. }
  apply (Push_guard checked p) in Hgd; [|done..]. rewrite Z.geb_leb.
  destruct (Z.leb_spec (g_count g) (zlen (free p))).
  { rewrite bool_decide_false by lia. done. }
  destruct (mem_frame g a Hgd) as (i & Hi & ->).
  destruct (markFree_frame checked p i Hgeo Hi) as (ws & -> & _ & Hws). simpl.
  destruct (checked && bit (in_ p) i) eqn:Hd; simpl.
  { to_prop. rewrite (pi_bits _ _ _ Hp) in * by done.
    rewrite bool_decide_false by naive_solver. done. }
  assert (Hfresh : checked = true -> frame g i ∉ free p).
  { intros ->. simpl in Hd. rewrite <- (pi_bits _ _ _ Hp) by done. by rewrite Hd. }
  rewrite bool_decide_true by done. eexists. split; [done|]. split; [|done].
  destruct Hp as [_ Hfs Hfb Hnd Hbits]. constructor; simpl.
  - apply geo_with_free, geo_with_in; [done|]. intros Hc. by apply Hws.
  - set_solver.
  - rewrite zlen_app. autorewrite with word. lia.
  - intros Hc. apply list.NoDup_app. split; [auto|]. split; [set_solver|]. apply NoDup_singleton.
  - intros Hc j Hj. destruct (Hws Hc) as [_ Hb]. rewrite Hb, orb_true_iff, Hbits, Z.eqb_eq by done.
    rewrite elem_of_app, list_elem_of_singleton. split; [naive_solver|].
    intros [?|He]; [auto|]. apply frame_inj in He; [auto|done].
Qed.

Lemma initChecks_words count : 0 <= count -> zlen (initChecks true count) = (count + 63) / 64.
Proof.
  intros. unfold initChecks. case_if; rewrite ?zlen_insert; unfold zlen;
    rewrite length_replicate; rewrite Z2Nat.id; divlia.
Qed.

(** Every frame starts free. *)
Lemma initChecks_bit count i : 0 <= i < count -> bit (initChecks true count) i = true.
Proof.
  intros Hi. unfold initChecks, bit.
  assert (Hlt : (Z.to_nat (i / 64) < Z.to_nat ((count + 63) / 64))%nat) by divlia.
  assert (Hfull : Z.testbit (replicate (Z.to_nat ((count + 63) / 64)) (2 ^ 64 - 1) !!! Z.to_nat (i / 64))
            (i mod 64) = true).
  { rewrite lookup_total_replicate_2 by done. change (2 ^ 64 - 1) with (Z.ones 64).
    apply Z.ones_spec_low. divlia. }
  case_if; [done|]. rewrite length_replicate.
  destruct (decide (Z.to_nat (i / 64) = pred (Z.to_nat ((count + 63) / 64)))) as [He|Hne].
  - rewrite He, list_lookup_total_insert_eq by (rewrite length_replicate; lia).
    rewrite Z.shiftl_1_l. replace (2 ^ (count mod 64) - 1) with (Z.ones (count mod 64)).
    2:{ rewrite Z.ones_equiv. lia. }
    apply Z.ones_spec_low. divlia.
  - by rewrite list_lookup_total_insert_ne by lia.
Qed.

(** [New] puts every frame of its range on the list, the lowest on top. *)
Lemma New_spec checked :
  exists p, New checked (g_first g) (g_count g) (fsize g) = Some p /\ pool_inv checked g p /\
            free p = reverse (all_frames g) /\ rejected p = 0.
Proof using Hg.
  pose proof Hg as (Hl & Hf & Hc & Hm). pose proof (fsize_pos g Hl) as Hs. unfold New.
  rewrite (proj2 (Z.ltb_ge (g_count g) 0)) by lia. eexists. split; [done|].
  assert (Hfree : (fun i => u64 (u64 (g_first g + g_count g - 1 - Z.of_nat i) * u64 (fsize g))) <$>
            seq 0 (Z.to_nat (g_count g)) = reverse (all_frames g)).
  { apply list_eq. intros i. destruct (decide (i < Z.to_nat (g_count g))%nat) as [Hlt|Hge].
    - rewrite list_lookup_fmap, lookup_seq_lt by done. simpl.
      rewrite reverse_lookup by (unfold all_frames; rewrite length_fmap, length_seq; lia).
      unfold all_frames. rewrite length_fmap, length_seq, list_lookup_fmap, lookup_seq_lt by lia.
      simpl. f_equal. unfold frame. rewrite (u64_small (fsize g)) by lia.
      rewrite (u64_small (_ - Z.of_nat i)) by nia. rewrite u64_small by nia. f_equal. lia.
    - rewrite !lookup_ge_None_2; [done|..]; rewrite ?length_reverse; unfold all_frames;
        rewrite length_fmap, length_seq; lia. }
  cbn [free rejected]. split; [|done]. constructor; simpl; rewrite ?Hfree.
  - constructor; simpl; try done.
    + apply u64_small. lia.
    + rewrite u64_small by lia. apply TrailingZeros64_pow2. lia.
    + rewrite (u64_small (fsize g)), (u64_small (g_first g)), u64_small by nia. unfold frame. lia.
    + rewrite (u64_small (fsize g)), (u64_small (g_first g)), (u64_small (g_count g)) by nia.
      rewrite (u64_small (g_first g * fsize g)), u64_small by nia. unfold frame. lia.
    + intros ->. apply initChecks_words. done.
  - intros a. by rewrite elem_of_reverse.
  - unfold zlen. rewrite length_reverse. fold (zlen (all_frames g)). rewrite zlen_all_frames by done. lia.
  - intros _. rewrite reverse_Permutation. by apply NoDup_all_frames.
  - intros -> i Hi. rewrite initChecks_bit by done. rewrite elem_of_reverse.
    split; [intros _; by apply frame_mem|done].
Qed.
End proofs.

(** ** Both builds implement the interface *)

Definition frames_pool (checked : bool) : FramePool Frames := {|
  fp_free := free;
  fp_rejected := Rejected;
  fp_Len := PoolLen;
  fp_Pop := Pop checked;
  fp_Push := Push checked;
  fp_Base := Base
|}.

Lemma frames_pool_laws checked g :
  geo_ok g -> @FramePoolLaws Frames (frames_pool checked) g (pool_inv checked g).
Proof.
  intros Hg. constructor; simpl.
  - done.
  - done.
  - intros p Hp. apply Hp.
  - intros p Hp. apply Hp.
  - intros p n dst Hp. by apply Pop_spec.
  - intros p a Hp Ha Hn Hb. destruct (Push_spec g Hg checked p a Hp) as (p' & He & Hi & Hf).
    rewrite bool_decide_true in Hf by done. exists p'. naive_solver.
  - intros p a Hp Ha. destruct (Push_spec g Hg checked p a Hp) as (p' & He & Hi & Hf).
    rewrite bool_decide_false in Hf by naive_solver. exists p'. naive_solver.
  - intros p a Hp. unfold Base. rewrite (pg_mask _ _ _ (pi_geo _ _ _ Hp)).
    apply ldiff_ones_sub. destruct Hg. lia.
Qed.

(** ** Any client

    Whatever sequence of calls a client makes, and the frames it holds: those a
    [Pop] handed out and it has not pushed back. *)

(** What the client may push: anything in the checked build; in the default
    build a frame it holds, or an address that is none of this pool's. *)
Definition may_push (checked : bool) (g : geometry) (held : list Z) (a : Z) : Prop := checked = true \/ a ∈ held \/ a ∉ all_frames g.

Inductive pool_reach (checked : bool) (g : geometry) : Frames -> list Z -> Prop :=
| reach_new p :
    New checked (g_first g) (g_count g) (fsize g) = Some p -> pool_reach checked g p []
| reach_pop n p held out p' :
    pool_reach checked g p held -> Pop checked n [] p = Some (out, p') -> pool_reach checked g p' (held ++ out)
| reach_push a p held p' :
    pool_reach checked g p held -> may_push checked g held a -> Push checked a p = Some p' ->
    pool_reach checked g p' (filter (fun x => x <> a) held).

(** The list and what is held are, together, every frame once. *)
Definition pool_split (checked : bool) (g : geometry) (p : Frames) (held : list Z) : Prop := pool_inv checked g p /\ free p ++ held ≡ₚ all_frames g.

Lemma filter_absent (a : Z) (l : list Z) : a ∉ l -> filter (fun x => x <> a) l = l.
Proof. induction l as [|x l IH]; intros H; [done|]. rewrite filter_cons_True by set_solver. f_equal. apply IH. set_solver. Qed.

Lemma filter_present (a : Z) (l : list Z) : NoDup l -> a ∈ l -> l ≡ₚ a :: filter (fun x => x <> a) l.
Proof.
  induction l as [|x l IH]; intros Hn Ha; [by apply elem_of_nil in Ha|]. apply list.NoDup_cons in Hn as [Hx Hn]. destruct (decide (x = a)) as [->|Hne].
  - rewrite filter_cons_False by (intros H; by apply H). by rewrite filter_absent.
  - rewrite filter_cons_True by done. rewrite (IH Hn) at 1 by set_solver. apply Permutation_swap.
Qed.

Lemma split_NoDup checked g p held : geo_ok g -> pool_split checked g p held -> NoDup (free p ++ held).
Proof. intros Hg [_ Hp]. rewrite Hp. by apply NoDup_all_frames. Qed.

Lemma split_pop checked g p held n : geo_ok g -> pool_split checked g p held ->
  exists out p', Pop checked n [] p = Some (out, p') /\ pool_split checked g p' (held ++ out) /\ free p = free p' ++ out /\ zlen out = Z.min (Z.max 0 n) (PoolLen p).
Proof.
  intros Hg [Hi Hp]. destruct (Pop_spec g Hg checked p n [] Hi) as (p' & E & Hf & _ & Hi'). set (k := (length (free p) - _)%nat) in *. exists (drop k (free p)), p'. split; [done|].
  assert (free p = free p' ++ drop k (free p)) as Hs by (by rewrite Hf, take_drop). split; [split; [done|]|].
  - rewrite (Permutation_app_comm held), app_assoc, <- Hs. exact Hp.
  - split; [done|]. unfold PoolLen, zlen. rewrite length_drop. unfold k. lia.
Qed.

(** A frame that is held goes back on the list, anything else is refused. *)
Lemma split_push checked g p held a : geo_ok g -> pool_split checked g p held -> may_push checked g held a ->
  exists p', Push checked a p = Some p' /\ pool_split checked g p' (filter (fun x => x <> a) held) /\
  if bool_decide (a ∈ held) then free p' = free p ++ [a] /\ Rejected p' = Rejected p else free p' = free p /\ Rejected p' = u64 (Rejected p + 1).
Proof.
  intros Hg Hs Hm. pose proof (split_NoDup _ _ _ _ Hg Hs) as Hn. destruct Hs as [Hi Hp]. destruct (Push_spec g Hg checked p a Hi) as (p' & E & Hi' & Hr). exists p'. split; [done|].
  apply list.NoDup_app in Hn as (_ & Hd & Hh). assert (Hin : a ∈ held -> a ∈ all_frames g /\ zlen (free p) < g_count g /\ (checked = true -> a ∉ free p)).
  { intros Ha. assert (zlen (free p ++ held) = g_count g) as Hl by (rewrite <- (zlen_all_frames g Hg); unfold zlen; by rewrite Hp). split; [rewrite <- Hp; set_solver|]. split; [|intros _ Hf; by apply (Hd a)]. assert (0 < length held)%nat by (destruct held; [by apply elem_of_nil in Ha|cbn; lia]). unfold zlen in *. rewrite length_app in Hl. lia. }
  destruct (decide (a ∈ held)) as [Ha|Ha].
  - rewrite (bool_decide_eq_true_2 (a ∈ held)) by done. rewrite bool_decide_eq_true_2 in Hr by auto. split; [|done]. split; [done|]. destruct Hr as [-> _]. rewrite <- app_assoc. cbn. by rewrite <- filter_present.
  - rewrite (bool_decide_eq_false_2 (a ∈ held)) by done. rewrite bool_decide_eq_false_2 in Hr.
    + split; [|done]. split; [done|]. destruct Hr as [-> _]. by rewrite filter_absent.
    + intros (H1 & _ & H3). destruct Hm as [Hc|[?|?]]; [|done|done]. rewrite <- Hp in H1. apply elem_of_app in H1 as [?|?]; [by apply H3|done].
Qed.

Lemma reach_split checked g p held : geo_ok g -> pool_reach checked g p held -> pool_split checked g p held.
Proof.
  intros Hg. induction 1 as [p Hn|n p held out p' _ IH E|a p held p' _ IH Hm E].
  - destruct (New_spec g Hg checked) as (q & Hq & Hi & Hf & _). simplify_eq. split; [done|]. rewrite app_nil_r, Hf. apply reverse_Permutation.
  - destruct (split_pop checked g p held n Hg IH) as (o & q & E' & H & _). by simplify_eq.
  - destruct (split_push checked g p held a Hg IH Hm) as (q & E' & H & _). by simplify_eq.
Qed.

Lemma pool_reach_inv checked g p held : geo_ok g -> pool_reach checked g p held -> pool_inv checked g p.
Proof. intros Hg Hr. by apply (reach_split _ _ _ _ Hg Hr). Qed.

(** ** Properties *)

Definition geo64 : geometry := mkGeo 11 3 70.
Lemma geo64_ok : geo_ok geo64. Proof. unfold geo_ok, fsize, geo64; simpl; lia. Qed.

(** C14: in every state a client can bring a pool to, the frames on the list and
    those the client holds are together every frame of the pool, each once, so
    no frame is ever handed to two owners.  The next [Pop] hands out as many
    frames as were asked for and are there, none of them held; a frame that is
    held goes back, and any other push is refused and counted.  In the checked
    build the client may push anything; in the default build, which does not
    look for a frame that is already free, it pushes a frame of the pool only
    if it holds it. *)
Theorem pool_safe checked g p held :
  geo_ok g -> pool_reach checked g p held ->
  free p ++ held ≡ₚ all_frames g /\ NoDup (free p ++ held) /\
  (forall n, exists out p', Pop checked n [] p = Some (out, p') /\ free p = free p' ++ out /\ zlen out = Z.min (Z.max 0 n) (PoolLen p) /\ NoDup (out ++ held)) /\
  (forall a, may_push checked g held a -> exists p', Push checked a p = Some p' /\
     if bool_decide (a ∈ held) then free p' = free p ++ [a] /\ Rejected p' = Rejected p else free p' = free p /\ Rejected p' = u64 (Rejected p + 1)).
Proof.
  intros Hg Hr. pose proof (reach_split _ _ _ _ Hg Hr) as Hs. pose proof (split_NoDup _ _ _ _ Hg Hs) as Hn. split; [apply Hs|]. split; [done|]. split.
  - intros n. destruct (split_pop checked g p held n Hg Hs) as (out & p' & E & _ & Hf & Hl). exists out, p'. split; [done|]. split; [done|]. split; [done|]. rewrite Hf, <- app_assoc in Hn. by apply list.NoDup_app in Hn as (_ & _ & ?).
  - intros a Hm. destruct (split_push checked g p held a Hg Hs Hm) as (p' & E & _ & H). by exists p'.
Qed.

Lemma pool_safe_witness :
  exists p out p', New true 3 70 2048 = Some p /\ Pop true 2 [] p = Some (out, p') /\ out = [8192; 6144] /\ pool_reach true geo64 p' out /\ NoDup (free p' ++ out) /\
    (exists p2, Push true 6144 p' = Some p2 /\ free p2 = free p' ++ [6144]) /\ (exists p2, Push true 7 p' = Some p2 /\ free p2 = free p').
Proof.
  destruct (New true 3 70 2048) as [p|] eqn:E; [|discriminate E].
  destruct (Pop true 2 [] p) as [[out p']|] eqn:E2; [|vm_compute in E; injection E as <-; discriminate E2].
  assert (Eo : out = [8192; 6144]) by (vm_compute in E; injection E as <-; vm_compute in E2; injection E2 as <- <-; reflexivity).
  assert (Hr : pool_reach true geo64 p' out) by (apply (reach_pop true geo64 2 p [] out p'); [apply reach_new; exact E|exact E2]).
  exists p, out, p'. split; [reflexivity|]. split; [exact E2|]. split; [exact Eo|]. split; [exact Hr|].
  destruct (pool_safe true geo64 p' out geo64_ok Hr) as (_ & Hn & _ & Hpush). split; [exact Hn|]. split.
  - destruct (Hpush 6144) as (p2 & E3 & H); [by left|]. rewrite Eo in H. exists p2. split; [exact E3|]. apply H.
  - destruct (Hpush 7) as (p2 & E3 & H); [by left|]. rewrite Eo in H. exists p2. split; [exact E3|]. apply H.
Defined.

(** A fresh pool of either build holds every frame of its range exactly
    once and nothing else, and popping all of them empties it. *)
Theorem New_complete checked g :
  geo_ok g ->
  exists p p', New checked (g_first g) (g_count g) (fsize g) = Some p /\
    free p ≡ₚ all_frames g /\ NoDup (free p) /\
    Pop checked (g_count g) [] p = Some (free p, p') /\ free p' = [] /\ PoolLen p' = 0.
Proof.
  intros Hg. destruct (New_spec g Hg checked) as (p & Hn & Hi & Hf & _).
  destruct (Pop_spec g Hg checked p (g_count g) [] Hi) as (p' & Hp & Hf' & _).
  exists p, p'. split; [done|].
  assert (Hperm : free p ≡ₚ all_frames g) by (rewrite Hf; apply reverse_Permutation).
  assert (Hk : (length (free p) - Z.to_nat (Z.max 0 (g_count g)))%nat = 0%nat).
  { pose proof (pi_bound _ _ _ Hi). unfold zlen in *. lia. }
  rewrite Hk in Hp, Hf'. rewrite drop_0 in Hp. split; [done|]. split.
  { rewrite Hperm. by apply NoDup_all_frames. }
  split; [done|]. unfold PoolLen. by rewrite Hf'.
Qed.

Lemma New_complete_witness :
  geo_ok geo64 /\
  exists p p', New true (g_first geo64) (g_count geo64) (fsize geo64) = Some p /\
    free p ≡ₚ all_frames geo64 /\ NoDup (free p) /\
    Pop true (g_count geo64) [] p = Some (free p, p') /\ free p' = [] /\ PoolLen p' = 0.
Proof. split; [exact geo64_ok|]. exact (New_complete true geo64 geo64_ok). Defined.

(** [Push] appends exactly when the address is the start of a frame of this
    pool, the pool is not full and, in the checked build, the frame is not
    already free; every other push leaves the list alone and is counted. *)
Theorem Push_exact checked g p a :
  geo_ok g -> pool_inv checked g p ->
  exists p', Push checked a p = Some p' /\ pool_inv checked g p' /\
    ((a ∈ all_frames g /\ PoolLen p < g_count g /\ (checked = true -> a ∉ free p)) /\
       free p' = free p ++ [a] /\ Rejected p' = Rejected p
     \/ ~ (a ∈ all_frames g /\ PoolLen p < g_count g /\ (checked = true -> a ∉ free p)) /\
       free p' = free p /\ Rejected p' = u64 (Rejected p + 1)).
Proof.
  intros Hg Hi. destruct (Push_spec g Hg checked p a Hi) as (p' & Hp & Hi' & Hf).
  exists p'. split; [done|]. split; [done|]. unfold PoolLen, Rejected. case_bool_decide; naive_solver.
Qed.

Lemma Push_exact_witness :
  exists p, geo_ok geo64 /\ pool_inv true geo64 p /\
  exists p', Push true 6144 p = Some p' /\ pool_inv true geo64 p' /\
    ((6144 ∈ all_frames geo64 /\ PoolLen p < g_count geo64 /\ (true = true -> 6144 ∉ free p)) /\
       free p' = free p ++ [6144] /\ Rejected p' = Rejected p
     \/ ~ (6144 ∈ all_frames geo64 /\ PoolLen p < g_count geo64 /\ (true = true -> 6144 ∉ free p)) /\
       free p' = free p /\ Rejected p' = u64 (Rejected p + 1)).
Proof.
  destruct (New_spec geo64 geo64_ok true) as (p & _ & Hi & _).
  exists p. split; [exact geo64_ok|]. split; [exact Hi|]. exact (Push_exact true geo64 p 6144 geo64_ok Hi).
Defined.

(** The bitmap is what protects the checked build and nothing else does:
    without it the pool accepts a frame that is already free, so two later
    [Pop]s hand one frame to two owners; with it the same calls leave every
    frame on the list once. *)
Theorem double_push_detected :
  (exists p0 p1 p2 p3, New false 0 4 2048 = Some p0 /\ Pop false 2 [] p0 = Some ([2048; 0], p1) /\ Push false 0 p1 = Some p2 /\ Push false 0 p2 = Some p3 /\ free p3 = [6144; 4096; 0; 0] /\ Rejected p3 = 0) /\
  (exists p0 p1 p2 p3, New true 0 4 2048 = Some p0 /\ Pop true 2 [] p0 = Some ([2048; 0], p1) /\ Push true 0 p1 = Some p2 /\ Push true 0 p2 = Some p3 /\ free p3 = [6144; 4096; 0] /\ Rejected p3 = 1).
Proof. split; do 4 eexists; repeat (split; [vm_compute; reflexivity|]); vm_compute; reflexivity. Qed.

(** Pools carved from disjoint frame ranges of one region never name a
    common frame, which is what lets the two directions of a queue run without
    a lock. *)
Theorem pools_disjoint c1 c2 g1 g2 p1 p2 held1 held2 a :
  geo_ok g1 -> geo_ok g2 -> g_log g1 = g_log g2 -> g_first g1 + g_count g1 <= g_first g2 ->
  pool_reach c1 g1 p1 held1 -> pool_reach c2 g2 p2 held2 ->
  ~ (Owns p1 a = true /\ Owns p2 a = true) /\ (a ∈ free p1 -> Owns p1 a = true /\ a ∉ free p2).
Proof.
  intros H1 H2 Hlog Hd Hr1 Hr2.
  pose proof (pool_reach_inv _ _ _ _ H1 Hr1) as [Hg1 Hs1 _ _ _].
  pose proof (pool_reach_inv _ _ _ _ H2 Hr2) as [Hg2 Hs2 _ _ _].
  assert (Hfs : fsize g1 = fsize g2) by (unfold fsize; congruence).
  pose proof (fsize_pos g1 (proj1 H1)).
  assert (Hdis : ~ (Owns p1 a = true /\ Owns p2 a = true)).
  { unfold Owns. rewrite (pg_base _ _ _ Hg1), (pg_end _ _ _ Hg1), (pg_base _ _ _ Hg2), (pg_end _ _ _ Hg2).
    intros [? ?]. to_prop. unfold frame in *. nia. }
  assert (Hmem : forall c g p, geo_ok g -> pool_geo c g p -> a ∈ all_frames g -> Owns p a = true).
  { intros c g p Hg Hp Hm. apply elem_all_frames in Hm as [Hr _]; [|done]. unfold Owns.
    rewrite (pg_base _ _ _ Hp), (pg_end _ _ _ Hp). apply andb_true_iff. lia. }
  split; [done|]. intros Ha. split; [by eapply Hmem, Hs1|]. intros Hb. apply Hdis.
  split; [by eapply Hmem, Hs1|by eapply Hmem, Hs2].
Qed.

Lemma pools_disjoint_witness :
  exists p1 p2, geo_ok (mkGeo 11 0 5) /\ geo_ok (mkGeo 11 5 3) /\
    pool_reach false (mkGeo 11 0 5) p1 [] /\ pool_reach true (mkGeo 11 5 3) p2 [] /\
    (~ (Owns p1 8192 = true /\ Owns p2 8192 = true) /\ (8192 ∈ free p1 -> Owns p1 8192 = true /\ 8192 ∉ free p2)).
Proof.
  assert (Hg1 : geo_ok (mkGeo 11 0 5)) by (unfold geo_ok, fsize; simpl; lia).
  assert (Hg2 : geo_ok (mkGeo 11 5 3)) by (unfold geo_ok, fsize; simpl; lia).
  destruct (New false 0 5 2048) as [p1|] eqn:E1; [|discriminate E1].
  destruct (New true 5 3 2048) as [p2|] eqn:E2; [|discriminate E2].
  assert (Hr1 : pool_reach false (mkGeo 11 0 5) p1 []) by (apply reach_new; exact E1).
  assert (Hr2 : pool_reach true (mkGeo 11 5 3) p2 []) by (apply reach_new; exact E2).
  exists p1, p2. split; [exact Hg1|]. split; [exact Hg2|]. split; [exact Hr1|]. split; [exact Hr2|].
  apply (pools_disjoint false true (mkGeo 11 0 5) (mkGeo 11 5 3) p1 p2 [] [] 8192 Hg1 Hg2); simpl; try lia; assumption.
Defined.

(** Frames going back to a free list: the lemmas the queues of every backend
    share.  A queue gives frames back one push at a time, by the address of a
    frame or by any address inside it. *)

(** The start of the frame a descriptor is in. *)
Definition frame_at (g : geometry) (d : Desc) : Z := Addr d - Addr d mod fsize g.

(** Descriptors of frames: the frame they are in. *)
Lemma frame_at_start g a k : 0 <= g_log g < 64 -> a mod fsize g = 0 -> 0 <= k < fsize g -> frame_at g (mkDesc (a + k) 0 0) = a.
Proof.
  intros Hl Ha Hk. pose proof (fsize_pos g Hl). unfold frame_at. simpl. rewrite <- Zplus_mod_idemp_l, Ha, Z.add_0_l, Z.mod_small by lia. lia.
Qed.

(** Queues over ranges of frames that do not overlap share no frame. *)
Lemma all_frames_disjoint g1 g2 : geo_ok g1 -> geo_ok g2 -> g_log g2 = g_log g1 ->
  g_first g1 + g_count g1 <= g_first g2 \/ g_first g2 + g_count g2 <= g_first g1 -> NoDup (all_frames g1 ++ all_frames g2).
Proof.
  intros H1 H2 Hl Hr. apply list.NoDup_app. split; [by apply NoDup_all_frames|]. split; [|by apply NoDup_all_frames].
  intros a Ha Hb. apply mem_frame in Ha as (i & Hi & ->). apply mem_frame in Hb as (k & Hk & E). unfold frame, fsize in E. rewrite Hl in E.
  pose proof (fsize_pos g1 (proj1 H1)). unfold fsize in *. assert (g_first g1 + i = g_first g2 + k) by nia. lia.
Qed.

Section push.
Context {P : Type} `{!FramePool P} (g : geometry) (inv : P -> Prop) `{!FramePoolLaws P g inv}.

Lemma NoDup_fits (l : list Z) : NoDup l -> l ⊆ all_frames g -> zlen l <= g_count g.
Proof using FramePoolLaws0.
  intros Hn Hs. rewrite <- zlen_all_frames by (by eapply fp_geo). unfold zlen. apply inj_le, submseteq_length, NoDup_submseteq; done.
Qed.

(** One frame that is the pool's and not on its list, others to come. *)
Lemma push_fresh a rest p : inv p -> a ∈ all_frames g -> NoDup (fp_free p ++ a :: rest) ->
  exists p', fp_Push a p = Some p' /\ fp_free p' = fp_free p ++ [a] /\ fp_rejected p' = fp_rejected p /\ inv p'.
Proof using FramePoolLaws0.
  intros Hi Hin Hn.
  assert (Hfresh : a ∉ fp_free p) by (apply list.NoDup_app in Hn as (_ & Hx & _); intros Hin2; apply (Hx _ Hin2); set_solver).
  apply fp_push_ok; try done.
  assert (Hz : zlen (fp_free p ++ [a]) <= g_count g).
  { apply NoDup_fits; [|pose proof (fp_sub p Hi); set_solver].
    rewrite (cons_middle a (fp_free p)), app_assoc in Hn. by apply list.NoDup_app in Hn as [? _]. }
  rewrite zlen_app in Hz. change (zlen [a]) with 1 in Hz. lia.
Qed.

Lemma push_addrs_ok (l : list Z) : forall p,
  inv p -> l ⊆ all_frames g -> NoDup (fp_free p ++ l) ->
  exists p', foldM (fun p a => fp_Push a p) l p = Some p' /\ fp_free p' = fp_free p ++ l /\ fp_rejected p' = fp_rejected p /\ inv p'.
Proof using FramePoolLaws0.
  induction l as [|a l IH]; intros p Hi Hs Hn; cbn [foldM].
  { exists p. by rewrite app_nil_r. }
  destruct (push_fresh a l p Hi ltac:(set_solver) Hn) as (p1 & -> & Hf1 & Hr1 & Hi1). cbn [mbind option_bind].
  destruct (IH p1) as (p' & E & Hf & Hr & Hi'); [done|set_solver|rewrite Hf1, <- app_assoc; done|].
  exists p'. rewrite Hf, Hf1, <- app_assoc. split_and!; [done|done|congruence|done].
Qed.

(** Of addresses that may be anyone's, the pool's own go on the list and the
    others are refused and counted. *)
Lemma push_addrs_any (l : list Z) : forall p,
  inv p -> 0 <= fp_rejected p < 2 ^ 64 -> NoDup (fp_free p ++ l) ->
  exists p', foldM (fun p a => fp_Push a p) l p = Some p' /\ fp_free p' = fp_free p ++ filter (fun a => a ∈ all_frames g) l /\
    fp_rejected p' = u64 (fp_rejected p + zlen (filter (fun a => a ∉ all_frames g) l)) /\ inv p'.
Proof using FramePoolLaws0.
  induction l as [|a l IH]; intros p Hi Hr Hn; cbn [foldM].
  { exists p. rewrite !filter_nil, app_nil_r. change (zlen (@nil Z)) with 0. by rewrite Z.add_0_r, u64_small. }
  destruct (decide (a ∈ all_frames g)) as [Ha|Ha].
  - destruct (push_fresh a l p Hi Ha Hn) as (p1 & -> & Hf1 & Hr1 & Hi1). cbn [mbind option_bind].
    destruct (IH p1) as (p' & E & Hf & Hr' & Hi'); [done|by rewrite Hr1|rewrite Hf1, <- app_assoc; done|].
    exists p'. rewrite filter_cons_True, filter_cons_False by (done || by intros ?). rewrite Hf, Hf1, <- app_assoc, Hr', Hr1. done.
  - destruct (fp_push_foreign p a Hi Ha) as (p1 & -> & Hf1 & Hr1 & Hi1). cbn [mbind option_bind].
    destruct (IH p1) as (p' & E & Hf & Hr' & Hi'); [done|rewrite Hr1; apply u64_range|rewrite Hf1; apply list.NoDup_app in Hn as (? & Hd & Hn)|].
    { apply list.NoDup_cons in Hn as [_ Hn]. apply list.NoDup_app. split_and!; try done. intros x Hx Hx'. apply (Hd x Hx). by right. }
    exists p'. rewrite filter_cons_False, filter_cons_True by done. rewrite Hf, Hf1, Hr', Hr1, zlen_cons. split_and!; try done. unfold u64. rewrite Zplus_mod_idemp_l. f_equal. lia.
Qed.

Lemma push_descs_ok (ds : list Desc) : forall p,
  inv p -> map (frame_at g) ds ⊆ all_frames g -> NoDup (fp_free p ++ map (frame_at g) ds) ->
  exists p', foldM (fun p d => fp_Push (fp_Base p (Addr d)) p) ds p = Some p' /\ fp_free p' = fp_free p ++ map (frame_at g) ds /\
    fp_rejected p' = fp_rejected p /\ inv p'.
Proof using FramePoolLaws0.
  induction ds as [|d ds IH]; intros p Hi Hs Hn; cbn [foldM map] in *.
  { exists p. by rewrite app_nil_r. }
  rewrite (fp_base_ok p (Addr d)) by done. fold (frame_at g d).
  destruct (push_fresh (frame_at g d) (map (frame_at g) ds) p Hi ltac:(set_solver) Hn) as (p1 & -> & Hf1 & Hr1 & Hi1). cbn [mbind option_bind].
  destruct (IH p1) as (p' & E & Hf & Hr & Hi'); [done|set_solver|rewrite Hf1, <- app_assoc; done|].
  exists p'. rewrite Hf, Hf1, <- app_assoc. split_and!; [done|done|congruence|done].
Qed.
End push.
