(* ===== verification/Sq.v ===== *)
(** The send queue buffer: mlx5/internal/wqe/consts.go, endian.go and sq.go.

    The buffer is shared by everything that writes entries, so it is passed to
    and returned by each operation; [SQ] holds what [NewSQ] computes about it.
    Every write masks its offset; the lemmas turn each of them into one cyclic
    write. *)

From stdpp Require Import prelude list numbers strings.
From S2P Require Import Prelude Circ Bytes.

(** ** consts.go *)

Definition WQEBB : Z := 64.
Definition Octoword : Z := 16.
Definition CtrlSegSize : Z := 16.
Definition EthSegHeaderSize : Z := 14.
Definition DataSegSize : Z := 16.
Definition CQESize : Z := 64.
Definition MaxDS : Z := 60.
Definition OpcodeSend : Z := 0x0a.
Definition OpcodeEnhancedMPSW : Z := 0x29.
Definition CtrlCQUpdate : Z := Z.shiftl 2 2.
Definition MPWEthSegSize : Z := 16.
Definition MPWInlineFlag : Z := Z.shiftl 1 31.

(** ** sq.go *)

Record SQ : Set := mkSQ { sq_mask : Z; sq_bbs : Z }.

Definition NewSQ (buf : list Z) : res SQ :=
  let n := zlen buf in
  if n =? 0 then Err (Errorf "wqe: empty send queue buffer")
  else if negb (n mod WQEBB =? 0) then Err (Errorf "wqe: send queue buffer is not a whole number of blocks")
  else if negb (Z.land n (n - 1) =? 0) then Err (Errorf "wqe: send queue buffer is not a power of two")
  else Ok (mkSQ (u32 (n - 1)) (u32 (n / WQEBB))).

Definition BBs (q : SQ) : Z := sq_bbs q.

Definition offset (q : SQ) (idx : Z) : Z := Z.land (u32 (idx * WQEBB)) (sq_mask q).

Definition putU16BE (q : SQ) (off v : Z) (buf : list Z) : option (list Z) :=
  put_be 2 (Z.land off (sq_mask q)) v buf.
Definition putU32BE (q : SQ) (off v : Z) (buf : list Z) : option (list Z) :=
  put_be 4 (Z.land off (sq_mask q)) v buf.
Definition putU64BE (q : SQ) (off v : Z) (buf : list Z) : option (list Z) :=
  put_be 8 (Z.land off (sq_mask q)) v buf.

(** [copy(dst[off:], src)]: panics past the end, otherwise copies what fits and
    says how much. *)
Definition copy_at (off : Z) (src buf : list Z) : option (Z * list Z) :=
  if (0 <=? off) && (off <=? zlen buf) then
    let n := Z.min (zlen src) (zlen buf - off) in
    Some (n, blit off (take (Z.to_nat n) src) buf)
  else None.

Definition putBytes (q : SQ) (off : Z) (src buf : list Z) : option (list Z) :=
  let off := Z.land off (sq_mask q) in
  '(n, buf) ← copy_at off src buf;
  if n <? zlen src then
    '(_, buf) ← copy_at 0 (drop (Z.to_nat n) src) buf; Some buf
  else Some buf.

Definition ethSegOctowords (inlineLen : Z) : Z :=
  u32 (EthSegHeaderSize + inlineLen + Octoword - 1) / Octoword.

(** [clear(buf[lo:hi])]. *)
Definition clear_range (lo hi : Z) (buf : list Z) : option (list Z) :=
  if (0 <=? lo) && (lo <=? hi) && (hi <=? zlen buf)
  then Some (blit lo (replicate (Z.to_nat (hi - lo)) 0) buf) else None.

Definition zero (q : SQ) (off length : Z) (buf : list Z) : option (list Z) :=
  let off := Z.land off (sq_mask q) in
  let n := u32 (u32 (zlen buf) - off) in
  let n := if n >? length then length else n in
  buf ← clear_range off (u32 (off + n)) buf;
  if n <? length then clear_range 0 (u32 (length - n)) buf else Some buf.

(** ** Well-formed queues *)

(** [2^k] bytes, the mask and the block count as [NewSQ] computes them.  The
    hardware's block counter has sixteen bits, and no queue is longer than it
    can count. *)
Definition sq_ok (k : Z) (q : SQ) (buf : list Z) : Prop :=
  6 <= k <= 22 /\ zlen buf = 2 ^ k /\ sq_mask q = 2 ^ k - 1 /\ sq_bbs q = 2 ^ (k - 6).

Lemma pow2_lt_u32 k : 0 <= k <= 22 -> 0 < 2 ^ k <= 2 ^ 22.
Proof. intros. split; [apply Z.pow_pos_nonneg; lia|apply Z.pow_le_mono_r; lia]. Qed.

Lemma pow2_split k : 6 <= k -> 2 ^ k = 64 * 2 ^ (k - 6).
Proof. intros. change 64 with (2 ^ 6). rewrite <- Z.pow_add_r by lia. f_equal. lia. Qed.

Lemma sq_ok_len k q buf buf' : sq_ok k q buf -> zlen buf' = zlen buf -> sq_ok k q buf'.
Proof. unfold sq_ok. intuition lia. Qed.

Lemma NewSQ_ok buf q :
  NewSQ buf = Ok q -> zlen buf <= 2 ^ 22 -> exists k, sq_ok k q buf.
Proof.
  unfold NewSQ. intros H Hl. repeat case_if_in H; try discriminate H. injection H as <-.
  pose proof (zlen_nonneg buf). destruct (land_pred_pow2 (zlen buf)) as (k & Hk & Hz); [lia|lia|].
  exists k. unfold sq_ok. simpl.
  assert (Hk6 : 6 <= k).
  { destruct (decide (6 <= k)); [done|]. assert (2 ^ k < 2 ^ 6) by (apply Z.pow_lt_mono_r; lia).
    unfold WQEBB in *. rewrite Z.mod_small in * by lia. lia. }
  assert (Hk22 : k <= 22).
  { destruct (decide (k <= 22)); [done|]. assert (2 ^ 22 < 2 ^ k) by (apply Z.pow_lt_mono_r; lia). lia. }
  rewrite Hz. rewrite u32_small by (pose proof (pow2_lt_u32 k); lia). split_and!; try lia.
  unfold WQEBB. rewrite (pow2_split k) by lia. rewrite Z.mul_comm, Z.div_mul by lia.
  apply u32_small. pose proof (pow2_lt_u32 k ltac:(lia)). pose proof (pow2_split k Hk6).
  pose proof (Z.pow_pos_nonneg 2 (k - 6)). lia.
Qed.

Lemma NewSQ_errors buf :
  (exists e, NewSQ buf = Err e) <-> ~ (0 < zlen buf /\ zlen buf mod 64 = 0 /\ Z.land (zlen buf) (zlen buf - 1) = 0).
Proof.
  unfold NewSQ, WQEBB. pose proof (zlen_nonneg buf).
  destruct (Z.eqb_spec (zlen buf) 0); [split; [lia|eauto]|].
  destruct (Z.eqb_spec (zlen buf mod 64) 0); simpl; [|split; [tauto|eauto]].
  destruct (Z.eqb_spec (Z.land (zlen buf) (zlen buf - 1)) 0); simpl; [|split; [tauto|eauto]].
  split; [intros [? ?]; discriminate|]. intros Hn. exfalso. apply Hn. lia.
Qed.

Lemma copy_at_Some off src buf :
  0 <= off <= zlen buf ->
  copy_at off src buf = Some (Z.min (zlen src) (zlen buf - off),
    blit off (take (Z.to_nat (Z.min (zlen src) (zlen buf - off))) src) buf).
Proof.
  intros. unfold copy_at. rewrite (proj2 (Z.leb_le 0 _)), (proj2 (Z.leb_le _ (zlen buf))) by lia. done.
Qed.

Lemma clear_range_Some lo hi buf :
  0 <= lo <= hi -> hi <= zlen buf ->
  clear_range lo hi buf = Some (blit lo (replicate (Z.to_nat (hi - lo)) 0) buf).
Proof.
  intros. unfold clear_range.
  rewrite (proj2 (Z.leb_le 0 lo)), (proj2 (Z.leb_le lo _)), (proj2 (Z.leb_le _ (zlen buf))) by lia. done.
Qed.

(** ** Every write is a cyclic write *)

Section writes.
Context (k : Z) (q : SQ) (buf : list Z) (Hq : sq_ok k q buf).

Lemma mask_mod x : Z.land (u32 x) (sq_mask q) = x mod zlen buf.
Proof using Hq. destruct Hq as (Hk & -> & -> & _). apply u32_land_mask. lia. Qed.

Lemma len_mod_64 : zlen buf mod 64 = 0 /\ 64 <= zlen buf.
Proof using Hq.
  destruct Hq as (Hk & -> & _). rewrite (pow2_split k) by lia.
  pose proof (Z.pow_pos_nonneg 2 (k - 6)). rewrite Z.mul_comm, Z.mod_mul by lia. lia.
Qed.

(** An aligned field never straddles the end of the buffer. *)
Lemma put_be_cwrite (n : nat) x v :
  (n = 2 \/ n = 4 \/ n = 8)%nat -> x mod Z.of_nat n = 0 ->
  put_be n (Z.land (u32 x) (sq_mask q)) v buf = Some (cwrite x (be_bytes n v) buf).
Proof using Hq.
  intros Hn Hx. rewrite mask_mod. destruct len_mod_64 as [Hm Hp].
  assert (Hr : 0 <= x mod zlen buf /\ x mod zlen buf + Z.of_nat n <= zlen buf).
  { pose proof (Z.mod_pos_bound x (zlen buf) ltac:(lia)).
    assert (Ha : (x mod zlen buf) mod Z.of_nat n = 0).
    { rewrite Z.mod_mod_divide; [done|]. exists (zlen buf / Z.of_nat n). destruct Hn as [->|[->| ->]]; divlia. }
    destruct Hn as [->|[->| ->]]; simpl in *; divlia. }
  rewrite put_be_Some by lia. rewrite blit_cwrite by (autorewrite with word; lia).
  by rewrite cwrite_mod.
Qed.

Lemma putU16BE_cwrite x v : x mod 2 = 0 -> putU16BE q (u32 x) v buf = Some (cwrite x (be_bytes 2 v) buf).
Proof using Hq. intros. apply put_be_cwrite; [lia|done]. Qed.
Lemma putU32BE_cwrite x v : x mod 4 = 0 -> putU32BE q (u32 x) v buf = Some (cwrite x (be_bytes 4 v) buf).
Proof using Hq. intros. apply put_be_cwrite; [lia|done]. Qed.
Lemma putU64BE_cwrite x v : x mod 8 = 0 -> putU64BE q (u32 x) v buf = Some (cwrite x (be_bytes 8 v) buf).
Proof using Hq. intros. apply put_be_cwrite; [lia|done]. Qed.

(** A copy that wraps is two copies. *)
Lemma wrap_cwrite o src n :
  0 <= o < zlen buf -> n = Z.min (zlen src) (zlen buf - o) -> zlen src <= zlen buf ->
  n < zlen src ->
  blit 0 (drop (Z.to_nat n) src) (blit o (take (Z.to_nat n) src) buf) = cwrite o src buf.
Proof.
  intros Ho Hn Hl Hlt. rewrite <- (take_drop (Z.to_nat n) src) at 3.
  assert (Ht : zlen (take (Z.to_nat n) src) = n) by (unfold zlen in *; rewrite length_take; lia).
  assert (Hd : zlen (drop (Z.to_nat n) src) = zlen src - n) by (unfold zlen in *; rewrite length_drop; lia).
  rewrite cwrite_app, Ht. rewrite (blit_cwrite o) by lia.
  rewrite blit_cwrite by (rewrite ?zlen_cwrite; lia).
  rewrite <- (cwrite_mod (o + n)), zlen_cwrite. replace (o + n) with (zlen buf) by lia.
  rewrite Z.mod_same by lia. done.
Qed.

Lemma putBytes_cwrite x src :
  zlen src <= zlen buf -> putBytes q (u32 x) src buf = Some (cwrite x src buf).
Proof using Hq.
  intros Hl. unfold putBytes. rewrite mask_mod. destruct len_mod_64 as [_ Hp].
  pose proof (Z.mod_pos_bound x (zlen buf) ltac:(lia)) as Ho.
  rewrite copy_at_Some by lia. simpl. pose proof (zlen_nonneg src).
  destruct (Z.ltb_spec (Z.min (zlen src) (zlen buf - x mod zlen buf)) (zlen src)) as [Hlt|Hge].
  - rewrite copy_at_Some by (rewrite zlen_blit; unfold zlen in *; rewrite ?length_take; lia). simpl.
    rewrite zlen_blit by (unfold zlen in *; rewrite ?length_take; lia).
    rewrite (take_ge (drop _ _)) by (rewrite length_drop; unfold zlen in *; rewrite length_drop; lia).
    rewrite wrap_cwrite by lia. by rewrite cwrite_mod.
  - rewrite take_ge by (unfold zlen in *; lia). rewrite blit_cwrite by lia. by rewrite cwrite_mod.
Qed.

Lemma zero_cwrite x n :
  0 <= n <= zlen buf -> zero q (u32 x) n buf = Some (cwrite x (replicate (Z.to_nat n) 0) buf).
Proof using Hq.
  intros Hl. unfold zero. rewrite mask_mod. destruct len_mod_64 as [_ Hp].
  pose proof (Z.mod_pos_bound x (zlen buf) ltac:(lia)) as Ho. set (o := x mod zlen buf) in *.
  assert (Hb : zlen buf <= 2 ^ 22) by (destruct Hq as (? & -> & _); pose proof (pow2_lt_u32 k); lia).
  rewrite (u32_small (zlen buf)), (u32_small (zlen buf - o)) by lia.
  set (m := if zlen buf - o >? n then n else zlen buf - o).
  assert (Hm : m = Z.min (zlen (replicate (Z.to_nat n) 0)) (zlen buf - o)).
  { unfold m, zlen at 3. rewrite length_replicate. destruct (Z.gtb_spec (zlen buf - o) n); lia. }
  assert (Hz : zlen (replicate (Z.to_nat n) 0) = n) by (unfold zlen; rewrite length_replicate; lia).
  rewrite Hz in Hm. rewrite (u32_small (o + m)) by lia.
  rewrite clear_range_Some by lia. simpl. replace (o + m - o) with m by lia.
  assert (Htk : replicate (Z.to_nat m) 0 = take (Z.to_nat m) (replicate (Z.to_nat n) 0)).
  { rewrite take_replicate. f_equal. lia. }
  destruct (Z.ltb_spec m n) as [Hlt|Hge].
  - rewrite u32_small by lia.
    rewrite clear_range_Some by (rewrite ?zlen_blit; unfold zlen in *; rewrite ?length_replicate; lia).
    rewrite Htk. replace (replicate (Z.to_nat (n - m - 0)) 0) with (drop (Z.to_nat m) (replicate (Z.to_nat n) 0)).
    2:{ rewrite drop_replicate. f_equal. lia. }
    rewrite wrap_cwrite by (rewrite ?Hz; lia). unfold o. by rewrite cwrite_mod.
  - replace m with n by lia. rewrite blit_cwrite by (rewrite ?Hz; lia). unfold o. by rewrite cwrite_mod.
Qed.
End writes.
