(* ===== verification/Send.v ===== *)
(** SEND entries: mlx5/internal/wqe/send.go.

    [Sender_Put] writes one entry into the send queue buffer; [send_entry] is
    the same entry as a byte string.  The two agree, wherever in the cyclic
    buffer the entry lies. *)

From stdpp Require Import prelude list numbers strings.
From S2P Require Import Prelude Circ Bytes Sq.

Definition ctrlOpmodIdxOpcode : Z := 0.
Definition ctrlQPNDS : Z := 4.
Definition ctrlSignature : Z := 8.
Definition ctrlFMCESE : Z := 11.
Definition ctrlImm : Z := 12.
Definition ethRsvd0 : Z := CtrlSegSize + 0.
Definition ethCSFlags : Z := CtrlSegSize + 4.
Definition ethRsvd2 : Z := CtrlSegSize + 8.
Definition ethInlineHdrSz : Z := CtrlSegSize + 12.
Definition ethInlineHdr : Z := CtrlSegSize + 14.
Definition dsegByteCount : Z := 0.
Definition dsegLKey : Z := 4.
Definition dsegAddr : Z := 8.

Record SenderConfig : Set := mkSenderConfig { sc_QPN : Z; sc_LKey : Z; sc_InlineLen : Z; sc_CSFlags : Z }.

Record Sender : Set := mkSender {
  s_sq : SQ; s_qpn : Z; s_lkey : Z; s_csFlags : Z; s_inlineLen : Z; s_maxDS : Z; s_maxBBs : Z
}.

Definition NewSender (sq : SQ) (cfg : SenderConfig) : res Sender :=
  if sc_InlineLen cfg <? 0 then Err (Errorf "wqe: negative inline length")
  else
    let inlineLen := u32 (sc_InlineLen cfg) in
    let maxDS := u32 (1 + ethSegOctowords inlineLen + 1) in
    if maxDS >? MaxDS then Err (Errorf "wqe: an inline header needs more octowords than an entry may have")
    else
      let maxBBs := u32 (maxDS * Octoword + WQEBB - 1) / WQEBB in
      if maxBBs >? sq_bbs sq then Err (Errorf "wqe: an entry does not fit a send queue")
      else Ok (mkSender sq (sc_QPN cfg) (sc_LKey cfg) (sc_CSFlags cfg) inlineLen maxDS maxBBs).

Definition MaxBBs (s : Sender) : Z := s_maxBBs s.
Definition InlineLen (s : Sender) : Z := s_inlineLen s.

Definition Sender_Put (s : Sender) (idx : Z) (frame : list Z) (addr : Z) (signaled : bool) (buf : list Z)
    : option (Z * list Z) :=
  let q := s_sq s in
  let inline := u32 (zlen frame) in
  let inline := if inline >? s_inlineLen s then s_inlineLen s else inline in
  let rest := u32 (u32 (zlen frame) - inline) in
  let ethOcts := ethSegOctowords inline in
  let ds := u32 (1 + ethOcts) in
  let ds := if rest >? 0 then u32 (ds + 1) else ds in
  let off := offset q idx in
  buf ← putU32BE q (u32 (off + ctrlOpmodIdxOpcode)) (Z.lor (u32 (Z.shiftl idx 8)) OpcodeSend) buf;
  buf ← putU32BE q (u32 (off + ctrlQPNDS)) (Z.lor (u32 (Z.shiftl (s_qpn s) 8)) ds) buf;
  let fmce := if signaled then CtrlCQUpdate else 0 in
  buf ← putU32BE q (u32 (off + ctrlSignature)) fmce buf;
  buf ← putU32BE q (u32 (off + ctrlImm)) 0 buf;
  buf ← putU32BE q (u32 (off + ethRsvd0)) 0 buf;
  buf ← putU32BE q (u32 (off + ethCSFlags)) (u32 (Z.shiftl (s_csFlags s) 24)) buf;
  buf ← putU32BE q (u32 (off + ethRsvd2)) 0 buf;
  buf ← putU16BE q (u32 (off + ethInlineHdrSz)) (u16 inline) buf;
  hdr ← slice 0 inline frame;
  buf ← putBytes q (u32 (off + ethInlineHdr)) hdr buf;
  let pad := u32 (CtrlSegSize + ethOcts * Octoword - (ethInlineHdr + inline)) in
  buf ← (if pad >? 0 then zero q (u32 (off + ethInlineHdr + inline)) pad buf else Some buf);
  buf ← (if rest >? 0 then
           let dseg := u32 (off + CtrlSegSize + ethOcts * Octoword) in
           buf ← putU32BE q (u32 (dseg + dsegByteCount)) rest buf;
           buf ← putU32BE q (u32 (dseg + dsegLKey)) (s_lkey s) buf;
           putU64BE q (u32 (dseg + dsegAddr)) (u64 (addr + inline)) buf
         else Some buf);
  Some (u32 (ds * Octoword + WQEBB - 1) / WQEBB, buf).

Definition Sender_FirstOctoword (s : Sender) (idx : Z) (buf : list Z) : option Z :=
  get_le 8 (offset (s_sq s) idx) buf.

(** ** The entry as bytes *)

(** What a sender made by [NewSender] looks like; queue pair numbers have 24
    bits. *)
Definition sender_ok (s : Sender) : Prop :=
  0 <= s_inlineLen s /\ s_maxDS s = 2 + (s_inlineLen s + 29) / 16 /\ s_maxDS s <= MaxDS /\
  s_maxBBs s = (s_maxDS s * 16 + 63) / 64 /\ s_maxBBs s <= sq_bbs (s_sq s) /\ 0 <= s_qpn s < 2 ^ 24.

Definition inlined (s : Sender) (frame : list Z) : Z := Z.min (zlen frame) (s_inlineLen s).
Definition eth_octs (s : Sender) (frame : list Z) : Z := (inlined s frame + 29) / 16.
Definition has_rest (s : Sender) (frame : list Z) : bool := s_inlineLen s <? zlen frame.
Definition send_ds (s : Sender) (frame : list Z) : Z :=
  1 + eth_octs s frame + (if has_rest s frame then 1 else 0).
Definition send_bbs (s : Sender) (frame : list Z) : Z := (send_ds s frame * 16 + 63) / 64.

Definition ctrl_seg (idx opcode qpn ds : Z) (signaled : bool) : list Z :=
  be_bytes 4 (Z.lor (u32 (Z.shiftl idx 8)) opcode) ++ be_bytes 4 (Z.lor (u32 (Z.shiftl qpn 8)) ds) ++
  be_bytes 4 (if signaled then CtrlCQUpdate else 0) ++ be_bytes 4 0.

Definition data_seg (count lkey addr : Z) : list Z :=
  be_bytes 4 count ++ be_bytes 4 lkey ++ be_bytes 8 addr.

Definition eth_pad (s : Sender) (frame : list Z) : Z := 16 + eth_octs s frame * 16 - (30 + inlined s frame).

Definition send_entry (s : Sender) (idx : Z) (frame : list Z) (addr : Z) (signaled : bool) : list Z :=
  ctrl_seg idx OpcodeSend (s_qpn s) (send_ds s frame) signaled ++
  be_bytes 4 0 ++ be_bytes 4 (u32 (Z.shiftl (s_csFlags s) 24)) ++ be_bytes 4 0 ++ be_bytes 2 (inlined s frame) ++
  take (Z.to_nat (inlined s frame)) frame ++ replicate (Z.to_nat (eth_pad s frame)) 0 ++
  (if has_rest s frame
   then data_seg (zlen frame - inlined s frame) (s_lkey s) (u64 (addr + inlined s frame)) else []).

(** ** Lemmas *)

Lemma sq_ok_cwrite k q off src buf : sq_ok k q buf -> sq_ok k q (cwrite off src buf).
Proof. intros H. eapply sq_ok_len; [exact H|]. by rewrite zlen_cwrite. Qed.

(** Continuing a write of [a] at [off] with the next field. *)
Section steps.
Context (k : Z) (q : SQ) (buf : list Z) (Hq : sq_ok k q buf).

Lemma put32_step x off a v :
  x = off + zlen a -> x mod 4 = 0 ->
  putU32BE q (u32 x) v (cwrite off a buf) = Some (cwrite off (a ++ be_bytes 4 v) buf).
Proof using Hq.
  intros Hx Ha. rewrite (putU32BE_cwrite k) by (done || by apply sq_ok_cwrite).
  by rewrite (cwrite_seq x off).
Qed.

Lemma put16_step x off a v :
  x = off + zlen a -> x mod 2 = 0 ->
  putU16BE q (u32 x) v (cwrite off a buf) = Some (cwrite off (a ++ be_bytes 2 v) buf).
Proof using Hq.
  intros Hx Ha. rewrite (putU16BE_cwrite k) by (done || by apply sq_ok_cwrite).
  by rewrite (cwrite_seq x off).
Qed.

Lemma put64_step x off a v :
  x = off + zlen a -> x mod 8 = 0 ->
  putU64BE q (u32 x) v (cwrite off a buf) = Some (cwrite off (a ++ be_bytes 8 v) buf).
Proof using Hq.
  intros Hx Ha. rewrite (putU64BE_cwrite k) by (done || by apply sq_ok_cwrite).
  by rewrite (cwrite_seq x off).
Qed.

Lemma bytes_step x off a src :
  x = off + zlen a -> zlen src <= zlen buf ->
  putBytes q (u32 x) src (cwrite off a buf) = Some (cwrite off (a ++ src) buf).
Proof using Hq.
  intros Hx Ha. rewrite (putBytes_cwrite k) by (rewrite ?zlen_cwrite; done || by apply sq_ok_cwrite).
  by rewrite (cwrite_seq x off).
Qed.

Lemma zero_step x off a n :
  x = off + zlen a -> 0 <= n <= zlen buf ->
  (if n >? 0 then zero q (u32 x) n (cwrite off a buf) else Some (cwrite off a buf)) =
  Some (cwrite off (a ++ replicate (Z.to_nat n) 0) buf).
Proof using Hq.
  intros Hx Ha. destruct (Z.gtb_spec n 0).
  - rewrite (zero_cwrite k) by (rewrite ?zlen_cwrite; done || by apply sq_ok_cwrite).
    by rewrite (cwrite_seq x off).
  - replace n with 0 by lia. simpl. by rewrite app_nil_r.
Qed.

(** The first block of an entry starts on a block boundary. *)
Lemma offset_block idx :
  exists j, offset q idx = 64 * j /\ 0 <= j /\ 64 * j < zlen buf /\
            forall src, cwrite (64 * j) src buf = cwrite (idx * 64) src buf.
Proof using Hq.
  unfold offset, WQEBB. rewrite (mask_mod k q buf Hq).
  destruct (len_mod_64 k q buf Hq) as [Hm Hp].
  pose proof (Z.mod_pos_bound (idx * 64) (zlen buf) ltac:(lia)) as Hb.
  assert (Ha : ((idx * 64) mod zlen buf) mod 64 = 0).
  { rewrite Z.mod_mod_divide; [by apply Z.mod_mul|]. exists (zlen buf / 64). divlia. }
  exists ((idx * 64) mod zlen buf / 64).
  assert (He : 64 * ((idx * 64) mod zlen buf / 64) = (idx * 64) mod zlen buf) by divlia.
  rewrite He. split_and!; [done|divlia|lia|]. intros. apply cwrite_mod.
Qed.
End steps.

(** The octoword count is byte 7 of an entry. *)
Lemma ctrl_ds idx op qpn ds sg rest : 0 <= ds < 256 -> (ctrl_seg idx op qpn ds sg ++ rest) !! 7%nat = Some ds.
Proof.
  intros Hds. unfold ctrl_seg. rewrite <- !app_assoc.
  assert (Hb : be_bytes 4 (Z.lor (u32 (Z.shiftl qpn 8)) ds) !! 3%nat = Some ds).
  { unfold be_bytes. cbn [le_bytes rev app lookup list_lookup]. f_equal.
    assert (Hq : u32 (Z.shiftl qpn 8) = Z.shiftl (qpn mod 2 ^ 24) 8).
    { rewrite !Z.shiftl_mul_pow2 by lia. unfold u32. change (2 ^ 32) with (2 ^ 24 * 2 ^ 8). rewrite Z.mul_mod_distr_r by lia. done. }
    rewrite Hq, Z.lor_comm, lor_shiftl_add by lia. change (2 ^ 8) with 256. rewrite Z.mod_add by lia. by apply Z.mod_small. }
  rewrite lookup_app_r by (rewrite length_be_bytes; lia). rewrite length_be_bytes.
  rewrite lookup_app_l by (rewrite length_be_bytes; lia). exact Hb.
Qed.

Lemma eth_octs_eq x : 0 <= x < 2 ^ 31 -> ethSegOctowords x = (x + 29) / 16.
Proof.
  intros. unfold ethSegOctowords, EthSegHeaderSize, Octoword. rewrite u32_small by lia. f_equal. lia.
Qed.

Lemma NewSender_ok k sq cfg s buf :
  sq_ok k sq buf -> NewSender sq cfg = Ok s -> sc_InlineLen cfg < 2 ^ 31 -> 0 <= sc_QPN cfg < 2 ^ 24 ->
  sender_ok s /\ s_sq s = sq /\ s_inlineLen s = sc_InlineLen cfg /\ s_qpn s = sc_QPN cfg /\ s_lkey s = sc_LKey cfg.
Proof.
  unfold NewSender. intros Hq H Hi Hn. case_if_in H; [done|].
  assert (Hd : 0 <= (sc_InlineLen cfg + 29) / 16 < 2 ^ 28) by divlia.
  rewrite (u32_small (sc_InlineLen cfg)), eth_octs_eq, (u32_small (1 + _ + 1)) in H by lia.
  case_if_in H; [done|]. rewrite Z.gtb_ltb in E0. unfold MaxDS, Octoword, WQEBB in *. to_prop.
  rewrite u32_small in H by lia. case_if_in H; [done|]. rewrite Z.gtb_ltb in E1. to_prop.
  injection H as <-. unfold sender_ok, MaxDS. simpl. split; [|done]. split_and!; try lia.
  f_equal. lia.
Qed.

Section put.
Context (k : Z) (s : Sender) (buf frame : list Z) (Hs : sender_ok s) (Hq : sq_ok k (s_sq s) buf)
        (Hf : zlen frame < 2 ^ 32).

Lemma send_sizes :
  0 <= inlined s frame <= 914 /\ 1 <= eth_octs s frame <= 58 /\ 0 <= eth_pad s frame < 16 /\
  2 <= send_ds s frame <= s_maxDS s /\ s_maxDS s <= 60 /\ 1 <= send_bbs s frame <= s_maxBBs s /\ send_ds s frame * 16 <= zlen buf /\
  inlined s frame + eth_pad s frame + 14 = eth_octs s frame * 16 /\ 1 + eth_octs s frame <= send_ds s frame.
Proof using Hs Hq.
  destruct Hs as (Hi & Hds & Hmax & Hbb & Hfit & _).
  destruct Hq as (Hk & Hlen & _ & Hbbs). rewrite Hlen, (pow2_split k), <- Hbbs by lia.
  unfold eth_pad, send_bbs, send_ds, eth_octs, inlined, has_rest, MaxDS in *.
  pose proof (zlen_nonneg frame). destruct (Z.ltb_spec (s_inlineLen s) (zlen frame)); divlia.
Qed.

Lemma zlen_send_entry idx addr sg : zlen (send_entry s idx frame addr sg) = send_ds s frame * 16.
Proof using Hs Hq.
  pose proof send_sizes. pose proof (zlen_nonneg frame).
  unfold send_entry, ctrl_seg, data_seg. rewrite !zlen_app.
  assert (Hr : zlen (if has_rest s frame then be_bytes 4 (zlen frame - inlined s frame) ++
      be_bytes 4 (s_lkey s) ++ be_bytes 8 (u64 (addr + inlined s frame)) else []) =
      if has_rest s frame then 16 else 0).
  { destruct (has_rest s frame); autorewrite with word; lia. }
  rewrite Hr. autorewrite with word. unfold send_ds, eth_pad, inlined in *. destruct (has_rest s frame); lia.
Qed.

(** The scalars of [Put] are those of the entry. *)
Lemma put_inline : (if u32 (zlen frame) >? s_inlineLen s then s_inlineLen s else u32 (zlen frame)) = inlined s frame.
Proof using Hs Hf.
  pose proof (zlen_nonneg frame). rewrite u32_small by lia. unfold inlined.
  destruct (Z.gtb_spec (zlen frame) (s_inlineLen s)); lia.
Qed.

Lemma put_rest : u32 (u32 (zlen frame) - inlined s frame) = zlen frame - inlined s frame.
Proof using Hs Hf.
  destruct Hs as (? & _). pose proof (zlen_nonneg frame). rewrite (u32_small (zlen frame)) by lia.
  apply u32_small. unfold inlined. lia.
Qed.

Lemma put_has_rest : (zlen frame - inlined s frame >? 0) = has_rest s frame.
Proof using Hs.
  destruct Hs as (? & _). unfold has_rest, inlined.
  destruct (Z.gtb_spec (zlen frame - zlen frame `min` s_inlineLen s) 0), (Z.ltb_spec (s_inlineLen s) (zlen frame)); lia.
Qed.

Lemma Put_entry idx addr sg :
  Sender_Put s idx frame addr sg buf =
  Some (send_bbs s frame, cwrite (idx * 64) (send_entry s idx frame addr sg) buf).
Proof using Hs Hq Hf.
  pose proof send_sizes as (Hi & Ho & Hp & Hd & Hm & Hb & Hfit & Hpad & Hoct).
  destruct (offset_block k (s_sq s) buf Hq idx) as (j & Hoff & Hj & Hjl & Hcw).
  assert (Hbuf : zlen buf <= 2 ^ 22) by (destruct Hq as (? & -> & _); pose proof (pow2_lt_u32 k); lia).
  unfold Sender_Put. rewrite Hoff, put_inline, put_rest, put_has_rest, eth_octs_eq by lia.
  fold (eth_octs s frame). rewrite (u32_small (1 + eth_octs s frame)) by lia.
  assert (Hds : (if has_rest s frame then u32 (1 + eth_octs s frame + 1) else 1 + eth_octs s frame) = send_ds s frame).
  { unfold send_ds. destruct (has_rest s frame); rewrite ?u32_small by lia; lia. }
  rewrite Hds. rewrite (u16_small (inlined s frame)) by lia.
  rewrite slice_Some by (unfold inlined in *; lia). rewrite Z.sub_0_r, drop_0. cbv zeta.
  unfold ctrlOpmodIdxOpcode, ctrlQPNDS, ctrlSignature, ctrlImm, ethRsvd0, ethCSFlags, ethRsvd2,
    ethInlineHdrSz, ethInlineHdr, dsegByteCount, dsegLKey, dsegAddr, CtrlSegSize, Octoword, WQEBB.
  replace buf with (cwrite (64 * j) [] buf) at 1 by done.
  do 7 (rewrite (put32_step k (s_sq s) buf Hq _ (64 * j)) by (autorewrite with word; divlia); cbn [mbind option_bind]).
  rewrite (put16_step k (s_sq s) buf Hq _ (64 * j)) by (autorewrite with word; divlia). cbn [mbind option_bind].
  rewrite (bytes_step k (s_sq s) buf Hq _ (64 * j)) by (autorewrite with word; unfold inlined in *; lia).
  cbn [mbind option_bind].
  replace (u32 (16 + eth_octs s frame * 16 - (16 + 14 + inlined s frame))) with (eth_pad s frame)
    by (unfold eth_pad in *; rewrite u32_small by lia; lia).
  rewrite (zero_step k (s_sq s) buf Hq _ (64 * j)) by (autorewrite with word; unfold inlined in *; lia).
  cbn [mbind option_bind].
  unfold send_bbs. rewrite (u32_small (send_ds s frame * 16 + 64 - 1)) by lia.
  replace (send_ds s frame * 16 + 64 - 1) with (send_ds s frame * 16 + 63) by lia.
  unfold send_entry, ctrl_seg, data_seg. rewrite <- Hcw.
  destruct (has_rest s frame) eqn:Hr.
  - rewrite !u32_add_l.
    do 2 (rewrite (put32_step k (s_sq s) buf Hq _ (64 * j))
            by (autorewrite with word; unfold eth_pad, inlined in *; divlia); cbn [mbind option_bind]).
    rewrite (put64_step k (s_sq s) buf Hq _ (64 * j)) by (autorewrite with word; unfold eth_pad, inlined in *; divlia).
    cbn [mbind option_bind]. rewrite <- !app_assoc. done.
  - cbn [mbind option_bind]. rewrite <- !app_assoc, app_nil_r. done.
Qed.
End put.
