(* ===== verification/Mpw.v ===== *)
(** Multi-packet SEND entries: mlx5/internal/wqe/mpw.go.

    [MPWSender_Put] copies several packets into one entry and
    [MPWSender_PutPointers] points at them.  [mpw_entry] and [ptr_entry] are the
    same entries as byte strings; [Fits] chooses frames that fit. *)

From stdpp Require Import prelude list numbers strings.
From S2P Require Import Prelude Circ Bytes Sq Send.

Record MPWSender : Set := mkMPWSender {
  m_sq : SQ; m_qpn : Z; m_lkey : Z; m_csFlags : Z; m_pointer : bool; m_maxPackets : Z; m_maxLen : Z
}.

Record MPWConfig : Set := mkMPWConfig {
  mc_QPN : Z; mc_CSFlags : Z; mc_MaxLen : Z; mc_Pointer : bool; mc_LKey : Z
}.

Definition mpwPacketOctowords (length : Z) : Z := u32 (4 + length + Octoword - 1) / Octoword.

(** [None] is the division by zero of a length that wraps to no octowords. *)
Definition NewMPWSender (sq : SQ) (cfg : MPWConfig) : option (res MPWSender) :=
  let s := mkMPWSender sq (mc_QPN cfg) (mc_LKey cfg) (mc_CSFlags cfg) (mc_Pointer cfg) in
  let max := sq_bbs sq * WQEBB / Octoword in
  if mc_Pointer cfg then
    let maxPackets := MaxDS - 2 in
    let maxPackets := if maxPackets >? max - 2 then max - 2 else maxPackets in
    if maxPackets <? 2 then Some (Err (Errorf "wqe: too few packets fit an entry of a send queue; there is no point"))
    else Some (Ok (s maxPackets (mc_MaxLen cfg)))
  else if mc_MaxLen cfg <=? 0 then Some (Err (Errorf "wqe: a longest multi-packet packet of no bytes"))
  else
    let perPacket := mpwPacketOctowords (u32 (mc_MaxLen cfg)) in
    if u32 (2 + perPacket) >? MaxDS then Some (Err (Errorf "wqe: a packet does not fit a multi-packet entry"))
    else if perPacket =? 0 then None
    else
      let maxPackets := (MaxDS - 2) / perPacket in
      if maxPackets <? 2 then Some (Err (Errorf "wqe: too few packets fit one entry; there is no point"))
      else if u32 (2 + perPacket) >? u32 max then Some (Err (Errorf "wqe: an entry does not fit a send queue"))
      else Some (Ok (s maxPackets (mc_MaxLen cfg))).

Definition MaxPackets (s : MPWSender) : Z := m_maxPackets s.
Definition MaxLen (s : MPWSender) : Z := m_maxLen s.
Definition Pointer (s : MPWSender) : bool := m_pointer s.

(** The first [n] frames up to the first empty one. *)
Fixpoint fits_pointers (n : nat) (frames : list (list Z)) (i : Z) : Z :=
  match n, frames with
  | S n, f :: frames => if zlen f =? 0 then i else fits_pointers n frames (i + 1)
  | _, _ => i
  end.

Fixpoint fits_copies (maxLen : Z) (frames : list (list Z)) (ds i : Z) : Z :=
  match frames with
  | [] => i
  | f :: frames =>
      if (zlen f =? 0) || (zlen f >? maxLen) then i
      else
        let need := mpwPacketOctowords (u32 (zlen f)) in
        if u32 (ds + need) >? MaxDS then i else fits_copies maxLen frames (u32 (ds + need)) (i + 1)
  end.

Definition Fits (s : MPWSender) (frames : list (list Z)) : Z :=
  if m_pointer s then
    let n := zlen frames in
    let n := if n >? m_maxPackets s then m_maxPackets s else n in
    fits_pointers (Z.to_nat n) frames 0
  else fits_copies (m_maxLen s) frames 2 0.

Definition copied_ds (frames : list (list Z)) : Z :=
  foldl (fun ds f => u32 (ds + mpwPacketOctowords (u32 (zlen f)))) 2 frames.

(** The control and the compact Ethernet segment, common to both forms. *)
Definition put_mpw_head (s : MPWSender) (idx ds : Z) (signaled : bool) (buf : list Z) : option (list Z) :=
  let q := m_sq s in
  let off := offset q idx in
  buf ← putU32BE q (u32 (off + ctrlOpmodIdxOpcode)) (Z.lor (u32 (Z.shiftl idx 8)) OpcodeEnhancedMPSW) buf;
  buf ← putU32BE q (u32 (off + ctrlQPNDS)) (Z.lor (u32 (Z.shiftl (m_qpn s) 8)) ds) buf;
  let fmce := if signaled then CtrlCQUpdate else 0 in
  buf ← putU32BE q (u32 (off + ctrlSignature)) fmce buf;
  buf ← putU32BE q (u32 (off + ctrlImm)) 0 buf;
  buf ← putU32BE q (u32 (off + ethRsvd0)) 0 buf;
  buf ← putU32BE q (u32 (off + ethCSFlags)) (u32 (Z.shiftl (m_csFlags s) 24)) buf;
  buf ← putU32BE q (u32 (off + ethRsvd2)) 0 buf;
  putU32BE q (u32 (off + ethInlineHdrSz)) 0 buf.

Fixpoint put_copies (q : SQ) (frames : list (list Z)) (at_ : Z) (buf : list Z) : option (list Z) :=
  match frames with
  | [] => Some buf
  | f :: frames =>
      let n := u32 (zlen f) in
      buf ← putU32BE q at_ (Z.lor n MPWInlineFlag) buf;
      buf ← putBytes q (u32 (at_ + 4)) f buf;
      let size := u32 (mpwPacketOctowords n * Octoword) in
      let pad := u32 (size - 4 - n) in
      buf ← (if pad >? 0 then zero q (u32 (at_ + 4 + n)) pad buf else Some buf);
      put_copies q frames (u32 (at_ + size)) buf
  end.

Definition MPWSender_Put (s : MPWSender) (idx : Z) (frames : list (list Z)) (signaled : bool) (buf : list Z)
    : option (Z * list Z) :=
  let ds := copied_ds frames in
  buf ← put_mpw_head s idx ds signaled buf;
  buf ← put_copies (m_sq s) frames (u32 (offset (m_sq s) idx + CtrlSegSize + MPWEthSegSize)) buf;
  Some (u32 (ds * Octoword + WQEBB - 1) / WQEBB, buf).

Fixpoint put_pointers (q : SQ) (lkey : Z) (frames : list (list Z)) (addrs : list Z) (i at_ : Z) (buf : list Z)
    : option (list Z) :=
  match frames with
  | [] => Some buf
  | f :: frames =>
      buf ← putU32BE q (u32 (at_ + dsegByteCount)) (u32 (zlen f)) buf;
      buf ← putU32BE q (u32 (at_ + dsegLKey)) lkey buf;
      a ← get_at i addrs;
      buf ← putU64BE q (u32 (at_ + dsegAddr)) a buf;
      put_pointers q lkey frames addrs (i + 1) (u32 (at_ + Octoword)) buf
  end.

Definition MPWSender_PutPointers (s : MPWSender) (idx : Z) (frames : list (list Z)) (addrs : list Z)
    (signaled : bool) (buf : list Z) : option (Z * list Z) :=
  let ds := u32 (2 + zlen frames) in
  buf ← put_mpw_head s idx ds signaled buf;
  buf ← put_pointers (m_sq s) (m_lkey s) frames addrs 0
          (u32 (offset (m_sq s) idx + CtrlSegSize + MPWEthSegSize)) buf;
  Some (u32 (ds * Octoword + WQEBB - 1) / WQEBB, buf).

Definition MPWSender_FirstOctoword (s : MPWSender) (idx : Z) (buf : list Z) : option Z :=
  get_le 8 (offset (m_sq s) idx) buf.

(** ** The entries as bytes *)

Definition octs (f : list Z) : Z := (zlen f + 19) / 16.
Fixpoint octs_all (fs : list (list Z)) : Z :=
  match fs with [] => 0 | f :: fs => octs f + octs_all fs end.

Definition mpw_head (s : MPWSender) (idx ds : Z) (signaled : bool) : list Z :=
  ctrl_seg idx OpcodeEnhancedMPSW (m_qpn s) ds signaled ++
  be_bytes 4 0 ++ be_bytes 4 (u32 (Z.shiftl (m_csFlags s) 24)) ++ be_bytes 4 0 ++ be_bytes 4 0.

Definition copied (f : list Z) : list Z :=
  be_bytes 4 (Z.lor (zlen f) MPWInlineFlag) ++ f ++ replicate (Z.to_nat (octs f * 16 - 4 - zlen f)) 0.

Definition mpw_entry (s : MPWSender) (idx : Z) (fs : list (list Z)) (signaled : bool) : list Z :=
  mpw_head s idx (2 + octs_all fs) signaled ++ concat (map copied fs).

Definition pointers (lkey : Z) (fs : list (list Z)) (addrs : list Z) : list Z :=
  concat (zip_with (fun f a => data_seg (zlen f) lkey a) fs addrs).

Definition ptr_entry (s : MPWSender) (idx : Z) (fs : list (list Z)) (addrs : list Z) (signaled : bool) : list Z :=
  mpw_head s idx (2 + zlen fs) signaled ++ pointers (m_lkey s) fs addrs.

(** ** Lemmas *)

Lemma octs_pos f : 1 <= octs f.
Proof. unfold octs. pose proof (zlen_nonneg f). divlia. Qed.

Lemma octs_all_nonneg fs : 0 <= octs_all fs.
Proof. induction fs as [|f fs IH]; simpl; [lia|]. pose proof (octs_pos f). lia. Qed.

Lemma octs_eq f : zlen f < 2 ^ 31 -> mpwPacketOctowords (u32 (zlen f)) = octs f.
Proof.
  intros. pose proof (zlen_nonneg f). unfold mpwPacketOctowords, octs, Octoword.
  rewrite (u32_small (zlen f)), u32_small by lia. f_equal. lia.
Qed.

Lemma octs_len f : zlen f < 16 * octs f.
Proof. unfold octs. pose proof (zlen_nonneg f). divlia. Qed.

Lemma octs_all_in f fs : f ∈ fs -> octs f <= octs_all fs.
Proof.
  induction 1 as [f fs|f g fs _ IH]; simpl; [pose proof (octs_all_nonneg fs); lia|].
  pose proof (octs_pos g). lia.
Qed.

Lemma octs_all_app fs gs : octs_all (fs ++ gs) = octs_all fs + octs_all gs.
Proof. induction fs as [|f fs IH]; simpl; lia. Qed.

Lemma zlen_copied f : zlen (copied f) = octs f * 16.
Proof.
  unfold copied. autorewrite with word. unfold octs. pose proof (zlen_nonneg f). divlia.
Qed.

Lemma zlen_copied_all fs : zlen (concat (map copied fs)) = octs_all fs * 16.
Proof.
  induction fs as [|f fs IH]; [done|]. cbn [map concat octs_all]. rewrite zlen_app, zlen_copied, IH. lia.
Qed.

Lemma zlen_mpw_head s idx ds sg : zlen (mpw_head s idx ds sg) = 32.
Proof. unfold mpw_head, ctrl_seg. by autorewrite with word. Qed.

Lemma zlen_pointers lkey fs addrs : zlen fs = zlen addrs -> zlen (pointers lkey fs addrs) = zlen fs * 16.
Proof.
  unfold pointers. revert addrs. induction fs as [|f fs IH]; intros [|a addrs] H; [done|discriminate|discriminate|].
  rewrite !zlen_cons in *. cbn [zip_with concat]. rewrite zlen_app, IH by lia.
  unfold data_seg. autorewrite with word. lia.
Qed.

Lemma copied_ds_eq fs : 2 + octs_all fs < 2 ^ 27 -> copied_ds fs = 2 + octs_all fs.
Proof.
  unfold copied_ds. intros H.
  assert (G : forall d, 0 <= d -> d + octs_all fs < 2 ^ 27 ->
    foldl (fun ds f => u32 (ds + mpwPacketOctowords (u32 (zlen f)))) d fs = d + octs_all fs).
  { clear H. induction fs as [|f fs IH]; intros d Hd H; simpl in *; [lia|].
    pose proof (octs_pos f). pose proof (octs_len f). pose proof (octs_all_nonneg fs).
    rewrite octs_eq, u32_small by lia. rewrite IH by lia. lia. }
  by apply G.
Qed.

Section put.
Context (k : Z) (s : MPWSender) (buf : list Z) (Hq : sq_ok k (m_sq s) buf).

Local Lemma buf_small : zlen buf <= 2 ^ 22.
Proof using Hq. destruct Hq as (? & -> & _). pose proof (pow2_lt_u32 k). lia. Qed.

Lemma put_mpw_head_eq idx ds sg j :
  offset (m_sq s) idx = 64 * j -> put_mpw_head s idx ds sg buf = Some (cwrite (64 * j) (mpw_head s idx ds sg) buf).
Proof using Hq.
  intros Hoff. unfold put_mpw_head. rewrite Hoff. cbv zeta.
  unfold ctrlOpmodIdxOpcode, ctrlQPNDS, ctrlSignature, ctrlImm, ethRsvd0, ethCSFlags, ethRsvd2, ethInlineHdrSz, CtrlSegSize.
  replace buf with (cwrite (64 * j) [] buf) at 1 by done.
  do 8 (rewrite (put32_step k (m_sq s) buf Hq _ (64 * j)) by (autorewrite with word; divlia); cbn [mbind option_bind]).
  unfold mpw_head, ctrl_seg. rewrite <- !app_assoc. done.
Qed.

Lemma put_copies_eq j : forall fs a x,
  x = 64 * j + zlen a -> x mod 16 = 0 -> zlen a + octs_all fs * 16 <= zlen buf -> 64 * j < zlen buf -> 0 <= j ->
  put_copies (m_sq s) fs (u32 x) (cwrite (64 * j) a buf) = Some (cwrite (64 * j) (a ++ concat (map copied fs)) buf).
Proof using Hq.
  pose proof buf_small as Hb.
  induction fs as [|f fs IH]; intros a x Hx Ha Hfit Hj Hj0; simpl in *; [by rewrite app_nil_r|].
  pose proof (octs_pos f). pose proof (octs_len f). pose proof (octs_all_nonneg fs).
  pose proof (zlen_nonneg a). pose proof (zlen_nonneg f).
  rewrite octs_eq, (u32_small (zlen f)) by lia.
  unfold Octoword. rewrite (u32_small (octs f * 16)) by lia.
  assert (Hpad : 0 <= octs f * 16 - 4 - zlen f < 16) by (unfold octs; divlia).
  rewrite (u32_small (octs f * 16 - 4 - zlen f)) by lia. rewrite !u32_add_l.
  rewrite <- (Z.add_assoc (u32 x)), u32_add_l.
  rewrite (put32_step k (m_sq s) buf Hq _ (64 * j)) by divlia. cbn [mbind option_bind].
  rewrite (bytes_step k (m_sq s) buf Hq _ (64 * j)) by (autorewrite with word; lia). cbn [mbind option_bind].
  rewrite (zero_step k (m_sq s) buf Hq _ (64 * j)) by (autorewrite with word; lia). cbn [mbind option_bind].
  rewrite IH; try lia.
  - unfold copied. rewrite <- !app_assoc. done.
  - autorewrite with word. lia.
  - divlia.
  - autorewrite with word. lia.
Qed.

Lemma MPWSender_Put_eq idx fs sg :
  2 + octs_all fs <= MaxDS -> (2 + octs_all fs) * 16 <= zlen buf ->
  MPWSender_Put s idx fs sg buf =
  Some (((2 + octs_all fs) * 16 + 63) / 64, cwrite (idx * 64) (mpw_entry s idx fs sg) buf).
Proof using Hq.
  intros Hds Hfit. pose proof (octs_all_nonneg fs). unfold MaxDS in *. pose proof buf_small as Hb.
  destruct (offset_block k (m_sq s) buf Hq idx) as (j & Hoff & Hj & Hjl & Hcw).
  unfold MPWSender_Put. rewrite copied_ds_eq by lia. rewrite (put_mpw_head_eq _ _ _ j) by done. cbn [mbind option_bind].
  rewrite Hoff. unfold CtrlSegSize, MPWEthSegSize, Octoword, WQEBB.
  rewrite (put_copies_eq j) by (rewrite ?zlen_mpw_head; divlia). cbn [mbind option_bind].
  rewrite u32_small by lia. rewrite Hcw. unfold mpw_entry. do 2 f_equal. f_equal. lia.
Qed.

Lemma put_pointers_eq j lkey : forall fs addrs pre a x,
  x = 64 * j + zlen a -> x mod 16 = 0 -> zlen fs = zlen addrs -> Forall (fun f => zlen f < 2 ^ 32) fs ->
  put_pointers (m_sq s) lkey fs (pre ++ addrs) (zlen pre) (u32 x) (cwrite (64 * j) a buf) =
  Some (cwrite (64 * j) (a ++ pointers lkey fs addrs) buf).
Proof using Hq.
  induction fs as [|f fs IH]; intros [|a0 addrs] pre a x Hx Ha Hl Hf; [by unfold pointers; cbn [zip_with concat put_pointers]; rewrite app_nil_r|discriminate|discriminate|].
  rewrite !zlen_cons in *. cbn [put_pointers]. apply Forall_cons in Hf as [Hf1 Hf]. pose proof (zlen_nonneg f).
  rewrite (u32_small (zlen f)) by lia. rewrite !u32_add_l. unfold dsegByteCount, dsegLKey, dsegAddr, Octoword.
  do 2 (rewrite (put32_step k (m_sq s) buf Hq _ (64 * j)) by (autorewrite with word; divlia); cbn [mbind option_bind]).
  rewrite (get_at_lookup (zlen pre) (pre ++ a0 :: addrs)) by (pose proof (zlen_nonneg pre); lia).
  replace (Z.to_nat (zlen pre)) with (length pre) by (unfold zlen; lia).
  rewrite list_lookup_middle by done. cbn [mbind option_bind].
  rewrite (put64_step k (m_sq s) buf Hq _ (64 * j)) by (autorewrite with word; divlia). cbn [mbind option_bind].
  replace (zlen pre + 1) with (zlen (pre ++ [a0])) by (rewrite zlen_app; done).
  change (a0 :: addrs) with ([a0] ++ addrs). rewrite app_assoc.
  rewrite IH; try done; try lia.
  - unfold pointers at 2. cbn [zip_with concat]. fold (pointers lkey fs addrs). unfold data_seg. rewrite <- !app_assoc. done.
  - autorewrite with word. lia.
  - divlia.
Qed.

Lemma PutPointers_eq idx fs addrs sg :
  zlen fs = zlen addrs -> Forall (fun f => zlen f < 2 ^ 32) fs -> 2 + zlen fs <= MaxDS ->
  MPWSender_PutPointers s idx fs addrs sg buf =
  Some (((2 + zlen fs) * 16 + 63) / 64, cwrite (idx * 64) (ptr_entry s idx fs addrs sg) buf).
Proof using Hq.
  intros Hl Hf Hds. pose proof (zlen_nonneg fs). unfold MaxDS in *.
  destruct (offset_block k (m_sq s) buf Hq idx) as (j & Hoff & Hj & Hjl & Hcw).
  unfold MPWSender_PutPointers. rewrite (u32_small (2 + zlen fs)) by lia. rewrite (put_mpw_head_eq _ _ _ j) by done.
  cbn [mbind option_bind]. rewrite Hoff. unfold CtrlSegSize, MPWEthSegSize, Octoword, WQEBB.
  pose proof (put_pointers_eq j (m_lkey s) fs addrs [] (mpw_head s idx (2 + zlen fs) sg) (64 * j + 16 + 16)) as Hp.
  rewrite zlen_mpw_head in Hp. simpl in Hp. change (zlen []) with 0 in Hp.
  rewrite Hp by (done || divlia). cbn [mbind option_bind].
  rewrite (u32_small ((2 + zlen fs) * 16 + 64 - 1)) by lia. rewrite Hcw. unfold ptr_entry. do 2 f_equal. f_equal. lia.
Qed.
End put.

(** ** Choosing the frames of an entry *)

(** What [NewMPWSender] establishes, over a queue of [2 ^ k] bytes. *)
Definition mpw_ok (s : MPWSender) : Prop :=
  if m_pointer s then 2 <= m_maxPackets s <= 58 /\ m_maxPackets s = Z.min 58 (sq_bbs (m_sq s) * 4 - 2)
  else 0 < m_maxLen s <= 460.

(** The first [n] of these frames can share an entry, and no longer prefix can. *)
Definition can_share (s : MPWSender) (fs : list (list Z)) : Prop :=
  if m_pointer s then zlen fs <= m_maxPackets s /\ Forall (fun f => 0 < zlen f) fs
  else 2 + octs_all fs <= MaxDS /\ Forall (fun f => 0 < zlen f <= m_maxLen s) fs.

Lemma NewMPWSender_ok k sq buf cfg s :
  sq_ok k sq buf -> NewMPWSender sq cfg = Some (Ok s) -> mc_MaxLen cfg < 2 ^ 31 ->
  mpw_ok s /\ m_sq s = sq /\ m_pointer s = mc_Pointer cfg /\ m_qpn s = mc_QPN cfg /\ m_lkey s = mc_LKey cfg.
Proof.
  intros (Hk & _ & _ & Hbbs) H Hlen. unfold NewMPWSender, WQEBB, Octoword, MaxDS, mpw_ok in *.
  destruct (mc_Pointer cfg) eqn:Hp.
  - case_if_in H; [done|]. to_prop. injection H as <-. simpl. split; [|done].
    pose proof (Z.pow_pos_nonneg 2 (k - 6) ltac:(lia) ltac:(lia)).
    destruct (Z.gtb_spec (60 - 2) (sq_bbs sq * 64 / 16 - 2)); divlia.
  - case_if_in H; [done|]. case_if_in H; [done|]. case_if_in H; [done|]. case_if_in H; [done|].
    case_if_in H; [done|]. injection H as <-. simpl. split; [|done]. rewrite Z.gtb_ltb in *. to_prop.
    unfold mpwPacketOctowords, Octoword in *. rewrite (u32_small (mc_MaxLen cfg)) in * by lia.
    rewrite (u32_small (4 + mc_MaxLen cfg + 16 - 1)) in * by lia. split; [lia|].
    assert ((60 - 2) / ((4 + mc_MaxLen cfg + 16 - 1) / 16) >= 2) as H2 by lia. clear - H2 E.
    set (p := (4 + mc_MaxLen cfg + 16 - 1) / 16) in *.
    assert (p <= 29) by (destruct (decide (p <= 29)); [done|]; assert ((60 - 2) / p < 2) by (apply Z.div_lt_upper_bound; lia); lia).
    unfold p in *. divlia.
Qed.

Lemma fits_pointers_spec : forall n fs i,
  exists m : nat, fits_pointers n fs i = i + Z.of_nat m /\ (m <= n)%nat /\ (m <= length fs)%nat /\
    Forall (fun f => 0 < zlen f) (take m fs) /\
    (forall f, (m < n)%nat -> fs !! m = Some f -> zlen f = 0).
Proof.
  induction n as [|n IH]; intros [|f fs] i; simpl;
    try (exists 0%nat; simpl; split_and!; [lia|lia|lia|constructor|intros; done || lia]).
  pose proof (zlen_nonneg f). destruct (Z.eqb_spec (zlen f) 0).
  - exists 0%nat. split_and!; [lia|lia|lia|constructor|]. intros g _ [= <-]. lia.
  - destruct (IH fs (i + 1)) as (m & -> & Hn & Hl & Hf & Hs). exists (S m). simpl.
    split_and!; [lia|lia|lia|constructor; [lia|done]|]. intros g Hg. apply Hs. lia.
Qed.

Lemma fits_copies_spec maxLen : maxLen <= 460 -> forall fs ds i,
  0 <= ds <= 60 ->
  exists m : nat, fits_copies maxLen fs ds i = i + Z.of_nat m /\ (m <= length fs)%nat /\
    ds + octs_all (take m fs) <= 60 /\ Forall (fun f => 0 < zlen f <= maxLen) (take m fs) /\
    (forall f, fs !! m = Some f -> zlen f = 0 \/ maxLen < zlen f \/ 60 < ds + octs_all (take m fs) + octs f).
Proof.
  intros HL. induction fs as [|f fs IH]; intros ds i Hds; simpl.
  - exists 0%nat. simpl. split_and!; [lia|lia|lia|constructor|done].
  - pose proof (zlen_nonneg f). destruct (Z.eqb_spec (zlen f) 0); simpl.
    { exists 0%nat. simpl. split_and!; [lia|lia|lia|constructor|intros ? [= <-]; lia]. }
    destruct (Z.gtb_spec (zlen f) maxLen); simpl.
    { exists 0%nat. simpl. split_and!; [lia|lia|lia|constructor|intros ? [= <-]; lia]. }
    assert (1 <= octs f <= 29) by (unfold octs; divlia).
    rewrite octs_eq by lia. rewrite u32_small by lia. unfold MaxDS.
    destruct (Z.gtb_spec (ds + octs f) 60).
    { exists 0%nat. simpl. split_and!; [lia|lia|lia|constructor|intros ? [= <-]; lia]. }
    destruct (IH (ds + octs f) (i + 1)) as (m & -> & Hl & Ho & Hf & Hs); [lia|].
    exists (S m). simpl. split_and!; [lia|lia|lia|constructor; [lia|done]|].
    intros g Hg. destruct (Hs g Hg) as [?|[?|?]]; lia.
Qed.

Lemma Fits_prefix s fs : mpw_ok s ->
  exists m : nat, Fits s fs = Z.of_nat m /\ (m <= length fs)%nat /\ can_share s (take m fs) /\
    (m < length fs -> ~ can_share s (take (S m) fs))%nat.
Proof.
  unfold mpw_ok, can_share, Fits, MaxDS. intros Hok. destruct (m_pointer s).
  - set (n := if zlen fs >? m_maxPackets s then m_maxPackets s else zlen fs).
    assert (Hn : n = Z.min (zlen fs) (m_maxPackets s)) by (unfold n; destruct (Z.gtb_spec (zlen fs) (m_maxPackets s)); lia).
    destruct (fits_pointers_spec (Z.to_nat n) fs 0) as (m & -> & Hm & Hl & Hf & Hs).
    exists m. unfold zlen in *. rewrite !length_take. split_and!; [lia|lia|lia|done|].
    intros Hlt [Hc Hall]. destruct (lookup_lt_is_Some_2 fs m Hlt) as [f Hg].
    specialize (Hs f ltac:(lia) Hg). rewrite (take_S_r _ _ _ Hg) in Hall.
    apply Forall_app in Hall as [_ Hall]. inversion_clear Hall. unfold zlen in *. lia.
  - destruct (fits_copies_spec (m_maxLen s) ltac:(lia) fs 2 0 ltac:(lia)) as (m & -> & Hl & Ho & Hf & Hs).
    exists m. split_and!; [lia|lia|lia|done|].
    intros Hlt [Hc Hall]. destruct (lookup_lt_is_Some_2 fs m Hlt) as [f Hg].
    rewrite (take_S_r _ _ _ Hg) in Hall, Hc. apply Forall_app in Hall as [_ Hall]. inversion_clear Hall.
    rewrite octs_all_app in Hc. simpl in Hc. destruct (Hs f Hg) as [?|[?|?]]; lia.
Qed.

Lemma can_share_take s fs n : can_share s fs -> can_share s (take n fs).
Proof.
  unfold can_share. destruct (m_pointer s); intros [Hc Hf]; (split; [|by apply Forall_take]).
  - unfold zlen in *. rewrite length_take. lia.
  - rewrite <- (take_drop n fs), octs_all_app in Hc. pose proof (octs_all_nonneg (drop n fs)). lia.
Qed.

(** Frames that can share an entry all go in it. *)
Lemma Fits_all s fs : mpw_ok s -> can_share s fs -> Fits s fs = zlen fs.
Proof.
  intros Hok Hc. destruct (Fits_prefix s fs Hok) as (n & -> & Hn & _ & Hmax). unfold zlen.
  destruct (decide (n = length fs)) as [->|Hne]; [done|].
  exfalso. apply Hmax; [lia|]. by apply can_share_take.
Qed.
