(* ===== verification/Cqe.v ===== *)
(** Completion queues: mlx5/internal/wqe/cqe.go, and the loads of the header
    word in mlx5/internal/arch/arch.go.

    A completion queue is a buffer of 64-byte entries that the device writes
    and the driver reads, so the operations take its present contents as an
    argument.  [cq_holds] says what a device that has written [P] completions
    has left in it, and [Owned_written] that the owner bit then tells the
    driver exactly which entries are ready. *)

From stdpp Require Import prelude list numbers strings pretty.
From S2P Require Import Prelude Circ Bytes Sq.

Definition CQEReq : Z := 0.
Definition CQERespSend : Z := 2.
Definition CQEReqErr : Z := 13.
Definition CQERespErr : Z := 14.
Definition CQEInvalid : Z := 15.
Definition CQEResizeCQ : Z := 5.
Definition CQENoPacket : Z := 6.
Definition CQESigErr : Z := 12.
Definition CQEFormatNoData : Z := 0.
Definition CQEL2OK : Z := Z.shiftl 1 0.
Definition CQEL3OK : Z := Z.shiftl 1 1.
Definition CQEL4OK : Z := Z.shiftl 1 2.

Definition SyndromeLocalLength : Z := 0x01.
Definition SyndromeLocalProt : Z := 0x04.
Definition SyndromeWRFlush : Z := 0x05.
Definition SyndromeLocalQPOp : Z := 0x02.
Definition SyndromeMWBind : Z := 0x06.
Definition SyndromeBadResp : Z := 0x10.
Definition SyndromeLocalAccess : Z := 0x11.
Definition SyndromeRemoteInvalReq : Z := 0x12.
Definition SyndromeRemoteAccess : Z := 0x13.
Definition SyndromeRemoteOp : Z := 0x14.
Definition SyndromeTransportRetry : Z := 0x15.
Definition SyndromeRNRRetry : Z := 0x16.
Definition SyndromeRemoteAborted : Z := 0x22.

Definition cqeRXHashResult : Z := 24.
Definition cqeHDSIPExt : Z := 28.
Definition cqeL4HdrTypeEtc : Z := 29.
Definition cqeVLANInfo : Z := 30.
Definition cqeByteCount : Z := 44.
Definition cqeTimestamp : Z := 48.
Definition cqeVendorSyndrom : Z := 54.
Definition cqeSyndrome : Z := 55.
Definition cqeSWQEOpcodeQPN : Z := 56.
Definition cqeHeader : Z := 60.

Record CQ : Set := mkCQ { cq_entries : Z; cq_mask : Z; cq_log2 : Z }.

Definition TrailingZeros32 (n : Z) : Z := if n =? 0 then 32 else TrailingZeros64 n.

Definition NewCQ (buf : list Z) (cqeSize : Z) : res CQ :=
  if negb (cqeSize =? CQESize) then Err (Errorf "wqe: completion queue entry size, want 64")
  else if negb (zlen buf mod CQESize =? 0) || (zlen buf =? 0) then
    Err (Errorf "wqe: completion queue buffer is not a whole number of entries")
  else
    let n := u32 (zlen buf / CQESize) in
    if negb (Z.land n (u32 (n - 1)) =? 0) then Err (Errorf "wqe: completion queue is not a power of two")
    else Ok (mkCQ n (u32 (n - 1)) (TrailingZeros32 n)).

Definition Entries (c : CQ) : Z := cq_entries c.

Definition Entry (c : CQ) (ci : Z) (buf : list Z) : option (list Z) :=
  let off := u32 (Z.land ci (cq_mask c) * CQESize) in
  slice off (u32 (off + CQESize)) buf.

Definition HeaderPtr (c : CQ) (ci : Z) : Z := u32 (u32 (Z.land ci (cq_mask c) * CQESize) + cqeHeader).

(** [LoadCQEHeader(c.HeaderPtr(ci))]: the word at the end of an entry, with the
    first byte in memory in its top half. *)
Definition LoadCQEHeader (c : CQ) (ci : Z) (buf : list Z) : option Z := get_be 4 (HeaderPtr c ci) buf.

Definition ExpectedOwner (c : CQ) (ci : Z) : Z := Z.land (Z.shiftr ci (cq_log2 c)) 1.
Definition Owner (header : Z) : Z := Z.land header 1.
Definition Format (header : Z) : Z := Z.land (u8 (Z.shiftr header 2)) 3.
Definition Opcode (header : Z) : Z := Z.land (u8 (Z.shiftr header 4)) 0xf.
Definition WQECounter (header : Z) : Z := u16 (Z.shiftr header 16).

Definition Owned (c : CQ) (ci header : Z) : bool :=
  (Owner header =? ExpectedOwner c ci) && negb (Opcode header =? CQEInvalid).

Definition ByteCount (entry : list Z) : option Z := get_be 4 cqeByteCount entry.
Definition ChecksumFlags (entry : list Z) : option Z := get_at cqeHDSIPExt entry.
Definition L3HeaderType (entry : list Z) : option Z :=
  b ← get_at cqeL4HdrTypeEtc entry; Some (Z.land (Z.shiftr b 2) 3).
Definition VLANInfo (entry : list Z) : option Z := get_be 2 cqeVLANInfo entry.
Definition RXHashResult (entry : list Z) : option Z := get_be 4 cqeRXHashResult entry.
Definition Timestamp (entry : list Z) : option Z := get_be 8 cqeTimestamp entry.

Record ErrorInfo : Set := mkErrorInfo {
  Syndrome : Z; VendorSyndrome : Z; e_QPN : Z; e_WQECounter : Z
}.

Definition Error (entry : list Z) : option ErrorInfo :=
  syn ← get_at cqeSyndrome entry;
  vend ← get_at cqeVendorSyndrom entry;
  qpn ← get_be 4 cqeSWQEOpcodeQPN entry;
  ctr ← get_be 2 cqeHeader entry;
  Some (mkErrorInfo syn vend (Z.land qpn 0xffffff) ctr).

(** ** Names for error messages *)

(** [%02x] of a byte. *)
Definition hex2 (s : Z) : string :=
  let digit x := default EmptyString (option_map (fun c => String c EmptyString)
                   (String.get (Z.to_nat x) "0123456789abcdef")) in
  digit (s / 16) +:+ digit (s mod 16).

Definition SyndromeString (s : Z) : string :=
  if s =? SyndromeLocalLength then "local length error"
  else if s =? SyndromeLocalQPOp then "local queue pair operation error"
  else if s =? SyndromeLocalProt then "local protection error"
  else if s =? SyndromeWRFlush then "flushed because the queue is in the error state"
  else if s =? SyndromeMWBind then "memory window bind error"
  else if s =? SyndromeBadResp then "bad response"
  else if s =? SyndromeLocalAccess then "local access error"
  else if s =? SyndromeRemoteInvalReq then "remote invalid request"
  else if s =? SyndromeRemoteAccess then "remote access error"
  else if s =? SyndromeRemoteOp then "remote operation error"
  else if s =? SyndromeTransportRetry then "transport retry counter exceeded"
  else if s =? SyndromeRNRRetry then "receiver-not-ready retry counter exceeded"
  else if s =? SyndromeRemoteAborted then "remote aborted"
  else "syndrome 0x" +:+ hex2 s.

Definition OpcodeString (op : Z) : string :=
  if op =? CQEReq then "send completed"
  else if op =? CQERespSend then "packet received"
  else if op =? CQEReqErr then "send failed"
  else if op =? CQERespErr then "receive failed"
  else if op =? CQEInvalid then "invalid"
  else if op =? CQENoPacket then "no packet"
  else if op =? CQEResizeCQ then "queue resized"
  else if op =? CQESigErr then "signature error"
  else "opcode " +:+ pretty op.

(** ** Queues as [NewCQ] makes them *)

Definition cq_ok (j : Z) (c : CQ) (buf : list Z) : Prop :=
  0 <= j <= 24 /\ zlen buf = 64 * 2 ^ j /\ c = mkCQ (2 ^ j) (2 ^ j - 1) j /\ bytes_ok buf.

Lemma NewCQ_ok buf sz c :
  NewCQ buf sz = Ok c -> zlen buf <= 64 * 2 ^ 24 -> bytes_ok buf -> exists j, cq_ok j c buf.
Proof.
  unfold NewCQ, CQESize. intros H Hl Hb. repeat case_if_in H; try discriminate H. injection H as <-.
  pose proof (zlen_nonneg buf).
  assert (Hn : 0 < zlen buf / 64 <= 2 ^ 24) by (to_prop; divlia).
  rewrite (u32_small (zlen buf / 64)) in * by lia. rewrite (u32_small (zlen buf / 64 - 1)) in * by lia.
  destruct (land_pred_pow2 (zlen buf / 64)) as (j & Hj & Hz); [lia|lia|].
  exists j. unfold cq_ok, TrailingZeros32. rewrite (proj2 (Z.eqb_neq _ 0)) by lia. rewrite Hz, TrailingZeros64_pow2 by lia.
  split_and!; try done.
  - destruct (decide (j <= 24)); [done|]. assert (2 ^ 24 < 2 ^ j) by (apply Z.pow_lt_mono_r; lia). lia.
  - rewrite <- Hz. to_prop. divlia.
Qed.

Lemma land_1_mod2 x : Z.land x 1 = x mod 2.
Proof. apply (land_ones_mod x 1). lia. Qed.

Lemma land_15_mod16 x : Z.land x 15 = x mod 16.
Proof. apply (land_ones_mod x 4). lia. Qed.

Lemma land_3_mod4 x : Z.land x 3 = x mod 4.
Proof. apply (land_ones_mod x 2). lia. Qed.

Section cq.
Context (j : Z) (c : CQ) (buf : list Z) (Hc : cq_ok j c buf).

Lemma cq_pow : 0 < 2 ^ j <= 2 ^ 24.
Proof using Hc. destruct Hc as [Hj _]. split; [lia|]. apply Z.pow_le_mono_r; lia. Qed.

Lemma cq_slot ci : u32 (Z.land (u32 ci) (cq_mask c) * CQESize) = ci mod 2 ^ j * 64.
Proof using Hc.
  pose proof cq_pow. destruct Hc as (Hj & _ & -> & _). simpl. rewrite u32_land_mask by lia.
  unfold CQESize. apply u32_small. pose proof (Z.mod_pos_bound ci (2 ^ j)). lia.
Qed.

Lemma Entry_eq ci : Entry c (u32 ci) buf = slice (ci mod 2 ^ j * 64) (ci mod 2 ^ j * 64 + 64) buf.
Proof using Hc.
  pose proof cq_pow. unfold Entry. rewrite cq_slot. unfold CQESize. f_equal. apply u32_small.
  pose proof (Z.mod_pos_bound ci (2 ^ j)). lia.
Qed.

Lemma Entry_Some ci : exists e, Entry c (u32 ci) buf = Some e /\ zlen e = 64.
Proof using Hc.
  pose proof cq_pow. pose proof (Z.mod_pos_bound ci (2 ^ j)). destruct Hc as (_ & Hl & _).
  rewrite Entry_eq, slice_Some by lia. eexists. split; [done|]. rewrite zlen_take, zlen_drop; lia.
Qed.

Lemma Entry_bytes ci e : Entry c (u32 ci) buf = Some e -> bytes_ok e.
Proof using Hc.
  rewrite Entry_eq. unfold slice. intros H. case_if_in H; [|done]. injection H as <-. destruct Hc as (_ & _ & _ & Hb).
  by apply Forall_take, Forall_drop.
Qed.

Lemma Load_eq ci : LoadCQEHeader c (u32 ci) buf = get_be 4 (ci mod 2 ^ j * 64 + 60) buf.
Proof using Hc.
  pose proof cq_pow. unfold LoadCQEHeader, HeaderPtr. rewrite cq_slot. unfold cqeHeader. f_equal. apply u32_small.
  pose proof (Z.mod_pos_bound ci (2 ^ j)). lia.
Qed.

Lemma Load_Some ci : exists h, LoadCQEHeader c (u32 ci) buf = Some h /\ 0 <= h < 2 ^ 32.
Proof using Hc.
  pose proof cq_pow. pose proof (Z.mod_pos_bound ci (2 ^ j)). destruct (Hc) as (_ & Hl & _ & Hb).
  rewrite Load_eq. unfold get_be. rewrite slice_Some by lia. simpl. eexists. split; [done|].
  match goal with |- _ <= be_val ?b < _ => assert (zlen b = 4) as Hz by (rewrite zlen_take, zlen_drop; lia);
    pose proof (be_val_range b) as Hr end.
  rewrite Hz in Hr. apply Hr. by apply Forall_take, Forall_drop.
Qed.

Lemma Load_lap ci : LoadCQEHeader c (u32 (ci - 2 ^ j)) buf = LoadCQEHeader c (u32 ci) buf.
Proof using Hc.
  pose proof cq_pow. rewrite !Load_eq. replace (ci - 2 ^ j) with (ci + (-1) * 2 ^ j) by lia.
  rewrite Z.mod_add by lia. done.
Qed.

Lemma ExpectedOwner_eq ci : ExpectedOwner c (u32 ci) = (ci / 2 ^ j) mod 2.
Proof using Hc.
  destruct Hc as (Hj & _ & -> & _). unfold ExpectedOwner. simpl. rewrite land_1_mod2, Z.shiftr_div_pow2 by lia.
  unfold u32.
  replace 32 with (j + (32 - j)) by lia. rewrite Z.pow_add_r by lia.
  assert (Hd : ((ci mod (2 ^ j * 2 ^ (32 - j))) / 2 ^ j) = (ci / 2 ^ j) mod 2 ^ (32 - j)).
  { rewrite Z.rem_mul_r by lia. rewrite (Z.add_comm (ci mod _)), Z.mul_comm, Z.div_add_l by lia.
    rewrite (Z.div_small (ci mod 2 ^ j)) by (apply Z.mod_pos_bound; lia). lia. }
  rewrite Hd. apply (mod_mod_pow2 _ 1 (32 - j)); lia.
Qed.

(** The parity of the next lap is the other one. *)
Lemma ExpectedOwner_lap ci : ExpectedOwner c (u32 ci) <> ExpectedOwner c (u32 (ci - 2 ^ j)).
Proof using Hc.
  pose proof cq_pow. rewrite !ExpectedOwner_eq.
  replace (ci - 2 ^ j) with (ci + (-1) * 2 ^ j) by lia. rewrite Z.div_add by lia. divlia.
Qed.
End cq.

(** ** What the device has written *)

(** The device has written [P] completions, completion [i] with the header
    word [hdr i]; an entry it has not reached yet reads as invalid. *)
Record cq_holds (c : CQ) (buf : list Z) (P : Z) (hdr : Z -> Z) : Prop := {
  ch_written i : 0 <= i -> P - cq_entries c <= i < P ->
    LoadCQEHeader c (u32 i) buf = Some (hdr i) /\ Owner (hdr i) = ExpectedOwner c (u32 i) /\
    Opcode (hdr i) <> CQEInvalid;
  ch_fresh i : i < 0 -> P - cq_entries c <= i < P ->
    exists h, LoadCQEHeader c (u32 i) buf = Some h /\ Opcode h = CQEInvalid
}.

Lemma Owned_written j c buf P hdr ci :
  cq_ok j c buf -> cq_holds c buf P hdr -> 0 <= ci <= P -> P <= ci + Entries c ->
  exists h, LoadCQEHeader c (u32 ci) buf = Some h /\ Owned c (u32 ci) h = (ci <? P) /\ (ci < P -> h = hdr ci).
Proof.
  intros Hc [Hw Hf] Hci HP. pose proof (cq_pow j c buf Hc) as Hpow.
  assert (He : cq_entries c = 2 ^ j) by (by destruct Hc as (_ & _ & -> & _)).
  unfold Entries in *. rewrite He in *. unfold Owned.
  destruct (Z.ltb_spec ci P).
  - destruct (Hw ci) as (Hl & Ho & Hi); [lia|lia|]. exists (hdr ci). split_and!; [done| |done].
    rewrite (proj2 (Z.eqb_eq _ _) Ho), (proj2 (Z.eqb_neq _ _) Hi). done.
  - destruct (decide (0 <= ci - 2 ^ j)) as [Hn|Hn].
    + destruct (Hw (ci - 2 ^ j)) as (Hl & Ho & _); [lia|lia|].
      rewrite (Load_lap j c buf Hc) in Hl. exists (hdr (ci - 2 ^ j)). split_and!; [done| |lia].
      rewrite Ho, (proj2 (Z.eqb_neq _ _)); [done|].
      intros E. symmetry in E. revert E. by apply (ExpectedOwner_lap j c buf).
    + destruct (Hf (ci - 2 ^ j)) as (h & Hl & Ho); [lia|lia|].
      rewrite (Load_lap j c buf Hc) in Hl. exists h. split_and!; [done| |lia].
      rewrite Ho. simpl. apply andb_false_r.
Qed.

(** ** Writing a completion *)

(** Completion [P] written over its slot. *)
Definition cq_write (c : CQ) (P : Z) (e cqbuf : list Z) : list Z := blit (P mod Entries c * 64) e cqbuf.

Lemma cq_write_ok j c P e q : cq_ok j c q -> zlen e = 64 -> bytes_ok e -> cq_ok j c (cq_write c P e q).
Proof.
  intros Hc Hl Hb. pose proof (cq_pow j c q Hc) as Hp. destruct Hc as (Hj & Hz & -> & Hq). unfold cq_write, Entries. simpl.
  pose proof (Z.mod_pos_bound P (2 ^ j) ltac:(lia)).
  split; [done|]. split; [by rewrite zlen_blit by lia|]. split; [done|].
  unfold blit. unfold bytes_ok in *. rewrite !Forall_app. split_and!; [by apply Forall_take|done|by apply Forall_drop].
Qed.

Lemma cq_write_load j c P e q i :
  cq_ok j c q -> zlen e = 64 -> bytes_ok e ->
  LoadCQEHeader c (u32 i) (cq_write c P e q) =
  if i mod 2 ^ j =? P mod 2 ^ j then get_be 4 cqeHeader e else LoadCQEHeader c (u32 i) q.
Proof.
  intros Hc Hl Hb. pose proof (cq_pow j c q Hc) as Hp.
  rewrite (Load_eq j) by (by apply cq_write_ok). rewrite (Load_eq j c q Hc).
  destruct (Hc) as (Hj & Hz & -> & Hq). unfold cq_write, Entries. simpl cq_entries.
  pose proof (Z.mod_pos_bound P (2 ^ j) ltac:(lia)). pose proof (Z.mod_pos_bound i (2 ^ j) ltac:(lia)).
  unfold get_be, cqeHeader. change (Z.of_nat 4) with 4. destruct (Z.eqb_spec (i mod 2 ^ j) (P mod 2 ^ j)) as [->|Hne].
  - rewrite !slice_Some by (rewrite ?zlen_blit by lia; lia). simpl. do 2 f_equal.
    unfold blit. set (o := P mod 2 ^ j * 64) in *.
    replace (Z.to_nat (o + 60)) with (length (take (Z.to_nat o) q) + 60)%nat by (rewrite length_take; unfold zlen in *; lia).
    rewrite <- drop_drop, drop_app_length. rewrite drop_app_le by (unfold zlen in *; lia).
    replace (Z.to_nat (o + 60 + 4 - (o + 60))) with 4%nat by lia. 
    rewrite take_app_le by (rewrite length_drop; unfold zlen in *; lia). done.
  - rewrite slice_blit_disjoint by lia. done.
Qed.

Lemma cq_write_entry j c P e q i :
  cq_ok j c q -> zlen e = 64 -> bytes_ok e ->
  Entry c (u32 i) (cq_write c P e q) = if i mod 2 ^ j =? P mod 2 ^ j then Some e else Entry c (u32 i) q.
Proof.
  intros Hc Hl Hb. pose proof (cq_pow j c q Hc) as Hp.
  rewrite (Entry_eq j) by (by apply cq_write_ok). rewrite (Entry_eq j c q Hc).
  destruct (Hc) as (Hj & Hz & -> & Hq). unfold cq_write, Entries. simpl cq_entries.
  pose proof (Z.mod_pos_bound P (2 ^ j) ltac:(lia)). pose proof (Z.mod_pos_bound i (2 ^ j) ltac:(lia)).
  destruct (Z.eqb_spec (i mod 2 ^ j) (P mod 2 ^ j)) as [->|Hne].
  - pose proof (slice_blit_same (P mod 2 ^ j * 64) e q ltac:(lia) ltac:(lia)) as Hs. by rewrite Hl in Hs.
  - apply slice_blit_disjoint; lia.
Qed.

Lemma cq_write_holds j c P e h q hdr :
  cq_ok j c q -> cq_holds c q P hdr -> 0 <= P -> zlen e = 64 -> bytes_ok e -> get_be 4 cqeHeader e = Some h ->
  Owner h = ExpectedOwner c (u32 P) -> Opcode h <> CQEInvalid ->
  cq_holds c (cq_write c P e q) (P + 1) (fun i => if i =? P then h else hdr i).
Proof.
  intros Hc [Hw Hf] HP Hl Hb Hh Ho Hop. pose proof (cq_pow j c q Hc) as Hp.
  assert (He : cq_entries c = 2 ^ j) by (by destruct Hc as (_ & _ & -> & _)). rewrite He in *.
  assert (Hother : forall i, P + 1 - 2 ^ j <= i < P -> i mod 2 ^ j =? P mod 2 ^ j = false).
  { intros i Hi. apply Z.eqb_neq, mod_distinct; lia. }
  split; rewrite He; intros i Hi0 Hi.
  - rewrite (cq_write_load j) by done. destruct (Z.eqb_spec i P) as [->|Hne].
    + rewrite Z.eqb_refl. by split_and!.
    + rewrite Hother by lia. apply Hw; lia.
  - rewrite (cq_write_load j) by done. rewrite Hother by lia. apply Hf; lia.
Qed.
