(* ===== verification/Clock.v ===== *)
(** Completion timestamps: mlx5/internal/clock/clock.go.

    [NS] turns the narrow tick counter of a completion into nanoseconds and
    counts its wraps.  [NS_run] converts the ticks of successive completions;
    it is compared with the exact conversion of an unbounded clock. *)

From stdpp Require Import prelude list numbers.
From S2P Require Import Prelude.

Record Info : Set := mkInfo { Mult : Z; Shift : Z; Mask : Z }.

Definition OK (i : Info) : bool := negb (Mult i =? 0) && negb (Mask i =? 0).

Record Counter : Set := mkCounter { info : Info; last : Z; wraps : Z; begun : bool }.

Definition NewCounter (i : Info) : Counter := mkCounter i 0 0 false.

(** [bits.Mul64]. *)
Definition Mul64 (x y : Z) : Z * Z := (x * y / 2 ^ 64, u64 (x * y)).

Definition NS (ticks : Z) (c : Counter) : Z * Counter :=
  let raw := Z.land ticks (Mask (info c)) in
  let wraps := if begun c && (raw <? last c) && (u64 (last c - raw) >? Mask (info c) / 2)
               then u64 (wraps c + 1) else wraps c in
  let c' := mkCounter (info c) raw wraps true in
  let '(hi, lo) := Mul64 (u64 (u64 (wraps * u64 (Mask (info c) + 1)) + raw)) (Mult (info c)) in
  if Shift (info c) =? 0 then (lo, c')
  else (Z.lor (u64 (Z.shiftl hi (u32 (64 - Shift (info c))))) (Z.shiftr lo (Shift (info c))), c').

Fixpoint NS_run (ticks : list Z) (c : Counter) : list Z * Counter :=
  match ticks with
  | [] => ([], c)
  | t :: ticks => let '(ns, c) := NS t c in let '(out, c) := NS_run ticks c in (ns :: out, c)
  end.

(** ** The exact conversion *)

(** The device's clock is an unbounded count of which a completion shows the
    low [w] bits. *)
Section clock.
Context (i : Info) (w : Z) (Hw : 1 <= w <= 63) (Hmask : Mask i = 2 ^ w - 1)
        (Hmult : 0 <= Mult i < 2 ^ 32) (Hshift : 0 <= Shift i < 64).

Definition period : Z := 2 ^ w.

(** Two successive completions: time moves on, by at most half a period or
    within one lap of the counter, or steps back by less than half a period
    within a lap. *)
Definition tick_ok (t t' : Z) : Prop :=
  (t <= t' <= t + period / 2) \/ (t <= t' /\ t / period = t' / period) \/ (t' < t /\ t - t' < period / 2 /\ t / period = t' / period).

(** What the hardware does: half a period on, less than half a period back. *)
Definition tick_near (t t' : Z) : Prop := t <= t' <= t + period / 2 \/ (t' < t /\ t - t' < period / 2).

Fixpoint ticks_near (t : Z) (ts : list Z) : Prop :=
  match ts with [] => True | t' :: ts => tick_near t t' /\ ticks_near t' ts end.

(** The clock as it is shown: each step back over the point where the counter
    starts again puts it ahead by a period, for good. *)
Fixpoint shown (t ahead : Z) (ts : list Z) : list Z :=
  match ts with
  | [] => []
  | t' :: ts => let ahead := if t' / period <? t / period then ahead + 1 else ahead in (t' + ahead * period) :: shown t' ahead ts
  end.

Fixpoint ticks_ok (t : Z) (ts : list Z) : Prop :=
  match ts with [] => True | t' :: ts => tick_ok t t' /\ ticks_ok t' ts end.

(** Nanoseconds since the start of the lap [lap0]. *)
Definition exact_ns (lap0 t : Z) : Z := (t - lap0 * period) * Mult i / 2 ^ Shift i.

(** The conversion fits a 64-bit word. *)
Definition in_range (lap0 t : Z) : Prop :=
  0 <= t - lap0 * period < 2 ^ 64 /\ (t - lap0 * period) * Mult i < 2 ^ (64 + Shift i).

Definition tracks (lap0 t : Z) (c : Counter) : Prop :=
  info c = i /\ begun c = true /\ last c = t mod period /\ wraps c = t / period - lap0 /\ lap0 <= t / period.

Lemma period_even : exists h, period = 2 * h /\ 0 < h /\ period < 2 ^ 64.
Proof using Hw.
  exists (2 ^ (w - 1)). unfold period. split_and!.
  - rewrite <- Z.pow_succ_r by lia. f_equal. lia.
  - lia.
  - apply Z.pow_lt_mono_r; lia.
Qed.

Lemma raw_eq t : Z.land (u64 t) (Mask i) = t mod period.
Proof using Hw Hmask.
  rewrite Hmask, land_ones_mod by lia. unfold u64, period. apply mod_mod_pow2. lia.
Qed.

Lemma scale_eq v : 0 <= v < 2 ^ 64 -> v * Mult i < 2 ^ (64 + Shift i) ->
  (let '(hi, lo) := Mul64 v (Mult i) in
   if Shift i =? 0 then lo
   else Z.lor (u64 (Z.shiftl hi (u32 (64 - Shift i)))) (Z.shiftr lo (Shift i))) = v * Mult i / 2 ^ Shift i.
Proof using Hw Hmult Hshift.
  intros Hv Hm. unfold Mul64. set (p := v * Mult i) in *. assert (0 <= p) by (unfold p; lia).
  destruct (Z.eqb_spec (Shift i) 0) as [Hs|Hs].
  - rewrite Hs in *. rewrite Z.div_1_r. unfold u64. apply Z.mod_small. lia.
  - rewrite (u32_small (64 - Shift i)), Z.shiftl_mul_pow2, Z.shiftr_div_pow2 by lia.
    assert (Hsplit : 2 ^ 64 = 2 ^ Shift i * 2 ^ (64 - Shift i)) by (rewrite <- Z.pow_add_r by lia; f_equal; lia).
    assert (Hhi : 0 <= p / 2 ^ 64 < 2 ^ Shift i).
    { rewrite Z.pow_add_r in Hm by lia. split; [apply Z.div_pos; lia|]. apply Z.div_lt_upper_bound; lia. }
    set (a := 2 ^ Shift i) in *. set (b := 2 ^ (64 - Shift i)) in *.
    assert (0 < a /\ 0 < b) as [Ha Hb] by (unfold a, b; lia).
    assert (Hlo : 0 <= u64 p / a < b).
    { unfold u64. pose proof (Z.mod_pos_bound p (2 ^ 64)). split; [apply Z.div_pos; lia|].
      apply Z.div_lt_upper_bound; lia. }
    unfold u64 at 1. rewrite Z.mod_small by (clearbody a b; nia).
    rewrite Z.lor_comm. unfold b at 1. rewrite <- (Z.shiftl_mul_pow2 (p / 2 ^ 64) (64 - Shift i)) by lia.
    rewrite lor_shiftl_add by (fold b; lia). fold b.
    rewrite (Z.div_mod p (2 ^ 64)) at 3 by lia.
    unfold u64. rewrite Hsplit at 3. rewrite <- Z.mul_assoc, (Z.mul_comm a), Z.div_add_l by lia.
    rewrite Z.add_comm, (Z.mul_comm b). done.
Qed.

(** One conversion, from any state whose lap and tick are known. *)
Lemma NS_value lap0 t c wr :
  info c = i ->
  (if begun c && (t mod period <? last c) && (u64 (last c - t mod period) >? Mask i / 2)
   then u64 (wraps c + 1) else wraps c) = wr ->
  wr = t / period - lap0 -> in_range lap0 t ->
  NS (u64 t) c = (exact_ns lap0 t, mkCounter i (t mod period) wr true).
Proof using Hw Hmask Hmult Hshift.
  intros Hi Hwr Hlap [Hr Hm]. destruct period_even as (h & Hh & Hh0 & Hh64).
  unfold NS. rewrite Hi, raw_eq, Hwr.
  assert (Hv : u64 (u64 (wr * u64 (Mask i + 1)) + t mod period) = t - lap0 * period).
  { pose proof (Z.div_mod t period ltac:(lia)). pose proof (Z.mod_pos_bound t period ltac:(lia)).
    replace (Mask i + 1) with period by (unfold period in *; lia).
    unfold u64 at 3. rewrite (Z.mod_small period) by lia.
    unfold u64. rewrite Zplus_mod_idemp_l. rewrite Z.mod_small; rewrite Hlap; lia. }
  rewrite Hv. pose proof (scale_eq (t - lap0 * period) Hr Hm) as Hs.
  destruct (Mul64 (t - lap0 * period) (Mult i)) as [hi lo]. unfold exact_ns.
  destruct (Shift i =? 0); by rewrite Hs.
Qed.

Lemma NS_first t : in_range (t / period) t ->
  exists c, NS (u64 t) (NewCounter i) = (exact_ns (t / period) t, c) /\ tracks (t / period) t c.
Proof using Hw Hmask Hmult Hshift.
  intros H. eexists. split; [apply (NS_value _ _ _ 0); simpl; try done; lia|].
  unfold tracks. simpl. split_and!; done || lia.
Qed.

Lemma NS_step lap0 t t' c :
  tracks lap0 t c -> tick_ok t t' -> in_range lap0 t' ->
  exists c', NS (u64 t') c = (exact_ns lap0 t', c') /\ tracks lap0 t' c'.
Proof using Hw Hmask Hmult Hshift.
  intros (Hi & Hb & Hl & Hwr & Hlap) Ht Hr. destruct period_even as (h & Hh & Hh0 & Hh64).
  pose proof (Z.div_mod t period ltac:(lia)) as Et. pose proof (Z.mod_pos_bound t period ltac:(lia)) as Bt.
  pose proof (Z.div_mod t' period ltac:(lia)) as Et'. pose proof (Z.mod_pos_bound t' period ltac:(lia)) as Bt'.
  assert (Hhalf : period / 2 = h) by (rewrite Hh; divlia).
  assert (Hm2 : Mask i / 2 = h - 1).
  { replace (Mask i) with (2 * (h - 1) + 1) by (unfold period in *; lia). divlia. }
  assert (Hq : t' / period = t / period \/ (t' / period = t / period + 1 /\ t < t')).
  { unfold tick_ok in Ht. destruct Ht as [Ht|[[? ?]|(? & ? & ?)]]; [|lia|lia].
    assert (t / period <= t' / period) by (apply Z.div_le_mono; lia).
    assert (t' / period < t / period + 2) by nia. destruct (decide (t' / period = t / period)); [lia|].
    right. split; [lia|]. nia. }
  eexists. split.
  - apply (NS_value _ _ _ (t' / period - lap0)); [done| |done|done].
    rewrite Hb, Hl, Hwr, Hm2. simpl.
    destruct (Z.ltb_spec (t' mod period) (t mod period)); simpl.
    + unfold u64 at 1. rewrite Z.mod_small by lia. unfold tick_ok in Ht. rewrite Hhalf in Ht.
      destruct Hr as [[Hr0 Hr1] _].
      destruct (Z.gtb_spec (t mod period - t' mod period) (h - 1)).
      * destruct Hq as [Hq|[Hq _]]; [nia|]. unfold u64. rewrite Z.mod_small by nia. lia.
      * destruct Hq as [Hq|[Hq _]]; [lia|nia].
    + destruct Hq as [Hq|[Hq ?]]; [lia|]. unfold tick_ok in Ht. nia.
  - unfold tracks. simpl. split_and!; try done; lia.
Qed.

Lemma NS_run_exact lap0 : forall ts t c,
  tracks lap0 t c -> ticks_ok t ts -> Forall (in_range lap0) ts ->
  fst (NS_run (map u64 ts) c) = map (exact_ns lap0) ts.
Proof using Hw Hmask Hmult Hshift.
  induction ts as [|t' ts IH]; intros t c Hc Hok Hr; [done|].
  simpl in Hok. destruct Hok as [Ht Hok]. apply Forall_cons_iff in Hr as [Hr1 Hr].
  destruct (NS_step lap0 t t' c Hc Ht Hr1) as (c' & E & Hc'). simpl. rewrite E.
  specialize (IH t' c' Hc' Hok Hr). destruct (NS_run (map u64 ts) c'). simpl in *. by rewrite IH.
Qed.

Lemma lap_shift t k : (t + k * period) / period = t / period + k.
Proof using Hw. clear i Hmask Hmult Hshift. destruct period_even as (h & Hh & Hh0 & _). rewrite Z.div_add by lia. lia. Qed.

Lemma near_ok t t' ahead : tick_near t t' ->
  tick_ok (t + ahead * period) (t' + (if t' / period <? t / period then ahead + 1 else ahead) * period).
Proof using Hw.
  clear i Hmask Hmult Hshift. intros Hn. destruct period_even as (h & Hh & Hh0 & Hh64). assert (Hhalf : period / 2 = h) by (rewrite Hh; divlia). unfold tick_ok, tick_near in *. rewrite !lap_shift, Hhalf in *. set (P := period) in *.
  destruct (Z.ltb_spec (t' / P) (t / P)) as [Hl|Hl]; destruct Hn as [Hn|[Hn1 Hn2]].
  - pose proof (Z.div_le_mono t t' P ltac:(lia)). lia.
  - right. left. assert (t / P <= (t' + P) / P) by (apply Z.div_le_mono; lia). replace (t' + P) with (t' + 1 * P) in * by lia. rewrite Z.div_add in * by lia. lia.
  - left. lia.
  - right. right. pose proof (Z.div_le_mono t' t P ltac:(lia)). lia.
Qed.

Lemma shown_ok ts : forall t ahead, ticks_near t ts -> ticks_ok (t + ahead * period) (shown t ahead ts).
Proof using Hw. induction ts as [|t' ts IH]; intros t ahead H; [done|]. cbn [ticks_near shown ticks_ok] in *. destruct H as [H1 H2]. split; [by apply near_ok|by apply IH]. Qed.

Lemma u64_shown ts : forall t ahead, map (fun x => Z.land (u64 x) (Mask i)) (shown t ahead ts) = map (fun x => Z.land (u64 x) (Mask i)) ts.
Proof using Hw Hmask.
  induction ts as [|t' ts IH]; intros t ahead; [done|]. cbn [shown map]. rewrite IH. f_equal. rewrite !raw_eq. apply Z_mod_plus_full.
Qed.

(** A conversion looks at the low bits only. *)
Lemma NS_run_raw : forall ts ts' c, info c = i -> map (fun x => Z.land x (Mask i)) ts = map (fun x => Z.land x (Mask i)) ts' -> NS_run ts c = NS_run ts' c.
Proof using.
  induction ts as [|t ts IH]; intros [|t' ts'] c Hi E; try done. cbn [map] in E. injection E as E1 E2. cbn [NS_run]. assert (NS t c = NS t' c) as -> by (unfold NS; by rewrite Hi, E1).
  destruct (NS t' c) as [ns c'] eqn:En. rewrite (IH ts' c'); [done| |done]. unfold NS in En. destruct (Mul64 _ _). destruct (_ =? 0); by injection En as _ <-.
Qed.

(** No step back crosses the start of a lap. *)
Fixpoint laps_forward (t : Z) (ts : list Z) : Prop :=
  match ts with [] => True | t' :: ts => t / period <= t' / period /\ laps_forward t' ts end.

Lemma shown_forward ts : forall t, laps_forward t ts -> shown t 0 ts = ts.
Proof using. induction ts as [|t' ts IH]; intros t H; [done|]. cbn [shown laps_forward] in *. destruct H as [H1 H2]. rewrite (proj2 (Z.ltb_ge _ _) H1). cbv zeta. rewrite IH by done. f_equal. lia. Qed.
End clock.

(** C36: over any run of completions whose clock moves on by at most half a
    period from one to the next, or steps back by less, the nanoseconds
    reported are the ticks since the first completion's lap began, scaled, plus
    one period for each step back over the start of a lap so far, which the
    code takes for part of the lap before; without such a step they are exact:
    no wrap is missed and none is invented.  The products fit 64 bits after the
    shift. *)
Theorem NS_exact i w t0 ts :
  1 <= w <= 63 -> Mask i = 2 ^ w - 1 -> 0 <= Mult i < 2 ^ 32 -> 0 <= Shift i < 64 ->
  ticks_near w t0 ts -> Forall (in_range i w (t0 / period w)) (t0 :: shown w t0 0 ts) ->
  fst (NS_run (map u64 (t0 :: ts)) (NewCounter i)) = map (exact_ns i w (t0 / period w)) (t0 :: shown w t0 0 ts) /\
  (laps_forward w t0 ts -> fst (NS_run (map u64 (t0 :: ts)) (NewCounter i)) = map (exact_ns i w (t0 / period w)) (t0 :: ts)).
Proof.
  intros Hw Hm Hmu Hs Hok Hr. assert (E : fst (NS_run (map u64 (t0 :: ts)) (NewCounter i)) = map (exact_ns i w (t0 / period w)) (t0 :: shown w t0 0 ts)); [|split; [done|]; intros Hl; by rewrite E, shown_forward].
  apply Forall_cons_iff in Hr as [Hr0 Hr]. destruct (NS_first i w Hw Hm Hmu Hs t0 Hr0) as (c & E & Hc). simpl. rewrite E.
  pose proof (shown_ok w Hw ts t0 0 Hok) as Hok'. rewrite Z.mul_0_l, Z.add_0_r in Hok'. pose proof (NS_run_exact i w Hw Hm Hmu Hs _ _ t0 c Hc Hok' Hr) as HR.
  rewrite (NS_run_raw i _ (map u64 (shown w t0 0 ts)) c (proj1 Hc)) by (rewrite !map_map; symmetry; by apply u64_shown).
  destruct (NS_run (map u64 (shown w t0 0 ts)) c). simpl in *. by rewrite HR.
Qed.

(** A ConnectX-6 Dx: 41 bits of counter. *)
Definition cx6 : Info := mkInfo 2097152 21 (2 ^ 41 - 1).

Lemma NS_exact_witness :
  let t0 := 2 ^ 41 - 10 in let ts := [2 ^ 41 - 12; 2 ^ 41 + 5; 2 ^ 41 + 3; 2 ^ 41 - 1; 2 ^ 41 + 900] in
  fst (NS_run (map u64 (t0 :: ts)) (NewCounter cx6)) = map (exact_ns cx6 41 0) (t0 :: [2 ^ 41 - 12; 2 ^ 41 + 5; 2 ^ 41 + 3; 2 ^ 42 - 1; 2 ^ 42 + 900]).
Proof.
  cbv zeta. apply (NS_exact cx6 41 (2 ^ 41 - 10) [2 ^ 41 - 12; 2 ^ 41 + 5; 2 ^ 41 + 3; 2 ^ 41 - 1; 2 ^ 41 + 900]); try done.
  - simpl. unfold tick_near. repeat (split; [first [left; vm_compute; split; congruence|right; vm_compute; repeat split; congruence]|]). done.
  - repeat constructor; vm_compute; congruence.
Defined.

(** A step back that crosses the point where the counter wrapped is
    counted as one more wrap.  Ten ticks of reordering around a wrap move the
    clock of a 41-bit counter ahead by a whole period for good: 18 ticks of
    elapsed time are reported as one period and 18 ticks. *)
Theorem NS_reorder_at_wrap :
  let P := 2 ^ 41 in
  fst (NS_run (map u64 [P - 10; P + 5; P - 3; P + 8]) (NewCounter (mkInfo 1 0 (P - 1)))) =
  [P - 10; P + 5; P + (P - 3); P + (P + 8)].
Proof. reflexivity. Qed.
