(* ===== verification/Mlx5Region.v ===== *)
(** Frame memory and placement: mlx5/region.go, and [autoPin], which the two
    queues of mlx5 share word for word.

    [Frame] and [Writable] are slices of the region; the model returns the
    bytes.  What the operating system does (mapping memory, moving a thread to
    a processor) is a parameter. *)

From stdpp Require Import prelude list numbers strings.
From S2P Require Import Prelude Circ Bytes Desc.

Record region : Set := mkRegion { rg_b : list Z; rg_frameSize : Z; rg_frameMask : Z; rg_frames : Z; rg_hugePages : bool }.

(** [mmap huge size] is what the kernel answers; memory it maps is zero. *)
Definition newRegion (mmap : bool -> Z -> res unit) (frames frameSize : Z) (hugePages : bool) : res region :=
  if (frames <=? 0) || (frameSize <=? 0) then Err (Errorf "mlx5: a region of no frames or no bytes")
  else
    let size := frames * frameSize in
    let make huge := mkRegion (replicate (Z.to_nat size) 0) frameSize (u64 (frameSize - 1)) frames huge in
    match (if hugePages then mmap true size else Err (Errorf "")) with
    | Ok _ => Ok (make true)
    | Err _ =>
        match mmap false size with
        | Ok _ => Ok (make false)
        | Err e => Err (Errorf "mlx5: mapping frame memory")
        end
    end.

Definition RegionFrame (r : region) (d : Desc) : option (option (list Z)) :=
  if (Addr d >=? zlen (rg_b r)) || (u64 (Addr d + Len d) >? zlen (rg_b r)) then Some None
  else b ← slice (Addr d) (u64 (Addr d + Len d)) (rg_b r); Some (Some b).

(** The end of the frame [d] is in, clipped to the region. *)
Definition frameEnd (r : region) (d : Desc) : Z :=
  let end_ := u64 ((Addr d) &^ (rg_frameMask r) + rg_frameMask r + 1) in
  if end_ >? zlen (rg_b r) then zlen (rg_b r) else end_.

Definition Writable (r : region) (d : Desc) : option (option (list Z)) :=
  if Addr d >=? zlen (rg_b r) then Some None
  else b ← slice (Addr d) (frameEnd r d) (rg_b r); Some (Some b).

(** What a caller leaves in the bytes [Writable] gave it. *)
Definition rg_store (addr : Z) (b : list Z) (r : region) : region :=
  mkRegion (blit addr b (rg_b r)) (rg_frameSize r) (rg_frameMask r) (rg_frames r) (rg_hugePages r).

Definition RegionFrameSize (r : region) : Z := rg_frameSize r.
Definition NumFrames (r : region) : Z := rg_frames r.

(** ** Placement *)

(** [pinCPU] is the processor plus one, zero for none; [pinErr] the first
    failure. *)
Record placement : Set := mkPlacement { pl_once : bool; pl_cpu : Z; pl_err : option error }.

Definition PinnedCPU (p : placement) : Z := if pl_cpu p =? 0 then -1 else pl_cpu p - 1.

(** [pin] is the outcome of the call, made at most once. *)
Definition autoPin (pin : res Z) (p : placement) : res Z * placement :=
  let p := if pl_once p then p else
             match pin with
             | Err e => mkPlacement true (pl_cpu p) (Some e)
             | Ok cpu => mkPlacement true (if cpu >=? 0 then cpu + 1 else pl_cpu p) (pl_err p)
             end in
  (match pl_err p with Some e => Err e | None => Ok (PinnedCPU p) end, p).

(** ** Lemmas *)

(** A region of whole frames of [2^kf] bytes. *)
Definition region_ok (kf : Z) (r : region) : Prop :=
  0 <= kf <= 32 /\ rg_frameMask r = 2 ^ kf - 1 /\ zlen (rg_b r) mod 2 ^ kf = 0 /\ zlen (rg_b r) < 2 ^ 63.

Lemma frame_bounds kf len a : 0 <= kf -> 0 <= a < len -> len mod 2 ^ kf = 0 -> a - a mod 2 ^ kf + 2 ^ kf <= len.
Proof.
  intros Hk Ha Hm. assert (0 < 2 ^ kf) by lia. pose proof (Z.div_mod a (2 ^ kf) ltac:(lia)) as E1.
  pose proof (Z.div_mod len (2 ^ kf) ltac:(lia)) as E2. rewrite Hm in E2. pose proof (Z.mod_pos_bound a (2 ^ kf) ltac:(lia)).
  assert (a / 2 ^ kf < len / 2 ^ kf) by nia. nia.
Qed.

Lemma frameEnd_eq kf r d : region_ok kf r -> 0 <= Addr d < zlen (rg_b r) ->
  frameEnd r d = Addr d - Addr d mod 2 ^ kf + 2 ^ kf /\ Addr d < frameEnd r d <= zlen (rg_b r).
Proof.
  intros (Hk & Hm & Hz & Hl) Ha. assert (Hp : 0 < 2 ^ kf <= 2 ^ 32) by (split; [lia|apply Z.pow_le_mono_r; lia]).
  pose proof (frame_bounds kf _ _ ltac:(lia) Ha Hz) as Hb. pose proof (Z.mod_pos_bound (Addr d) (2 ^ kf) ltac:(lia)).
  unfold frameEnd. rewrite Hm, ldiff_ones_sub by lia. rewrite u64_small by lia.
  replace (Addr d - Addr d mod 2 ^ kf + (2 ^ kf - 1) + 1) with (Addr d - Addr d mod 2 ^ kf + 2 ^ kf) by lia.
  rewrite Z.gtb_ltb, (proj2 (Z.ltb_ge _ _)) by lia. lia.
Qed.

(** [Writable] never panics: [nil] outside the region, the rest of the frame
    inside it. *)
Lemma Writable_eq kf r d : region_ok kf r -> 0 <= Addr d ->
  if Addr d <? zlen (rg_b r)
  then exists b, Writable r d = Some (Some b) /\ zlen b = 2 ^ kf - Addr d mod 2 ^ kf /\
         slice (Addr d) (Addr d + zlen b) (rg_b r) = Some b
  else Writable r d = Some None.
Proof.
  intros Hr Ha. unfold Writable. rewrite Z.geb_leb. destruct (Z.ltb_spec (Addr d) (zlen (rg_b r))) as [Hlt|Hge].
  - rewrite (proj2 (Z.leb_gt _ _)) by lia. destruct (frameEnd_eq kf r d Hr ltac:(lia)) as [He Hb].
    pose proof (slice_Some (Addr d) (frameEnd r d) (rg_b r) ltac:(lia) ltac:(lia)) as Es. rewrite Es. cbn [mbind option_bind].
    eexists. split; [done|]. apply slice_length in Es as El. rewrite El. split; [lia|].
    by replace (Addr d + (frameEnd r d - Addr d)) with (frameEnd r d) by lia.
  - by rewrite (proj2 (Z.leb_le _ _)) by lia.
Qed.
