(* ===== verification/WqeClaims.v ===== *)
(** What holds of the work queue entries: how the senders lay them out, which
    packets share one, and how a completion queue tells new from old. *)

From stdpp Require Import prelude list numbers strings.
From S2P Require Import Prelude Circ Bytes Sq Send Mpw Cqe.

(** ** Ordinary entries *)

(** A sender that [NewSender] made writes, for any frame, index and
    address, exactly the entry the device expects (control segment, Ethernet
    segment with the inlined bytes padded to an octoword, and a data segment
    for the rest if there is one) starting at its block and wrapping around
    the end of the queue, and returns the blocks that entry takes, never more
    than [MaxBBs].  Nothing panics. *)
Theorem Sender_Put_exact SQm sq cfg s frame idx addr sg :
  zlen SQm <= 2 ^ 22 -> NewSQ SQm = Ok sq -> sc_InlineLen cfg < 2 ^ 31 -> 0 <= sc_QPN cfg < 2 ^ 24 ->
  NewSender sq cfg = Ok s -> zlen frame < 2 ^ 32 ->
  Sender_Put s idx frame addr sg SQm =
    Some (send_bbs s frame, cwrite (idx * 64) (send_entry s idx frame addr sg) SQm) /\
  1 <= send_bbs s frame <= MaxBBs s /\ zlen (send_entry s idx frame addr sg) <= 64 * send_bbs s frame.
Proof.
  intros Hz Hq Hi Hn Hs Hf. apply NewSQ_ok in Hq as [k Hq]; [|done].
  apply (NewSender_ok k sq cfg s SQm Hq) in Hs as (Hok & <- & _); [|done|done].
  split; [by apply (Put_entry k)|]. pose proof (send_sizes k s SQm frame Hok Hq) as (_ & _ & _ & ? & _ & Hb & _).
  split; [exact Hb|]. rewrite (zlen_send_entry k s SQm frame Hok Hq). unfold send_bbs. divlia.
Qed.

Lemma Sender_Put_exact_witness :
  exists sq s, NewSQ (replicate 256 0) = Ok sq /\ NewSender sq (mkSenderConfig 7 9 18 0) = Ok s /\
    Sender_Put s 3 (replicate 60 1) 4096 true (replicate 256 0) =
    Some (send_bbs s (replicate 60 1), cwrite (3 * 64) (send_entry s 3 (replicate 60 1) 4096 true) (replicate 256 0)).
Proof.
  eexists _, _. split; [reflexivity|]. split; [reflexivity|].
  apply (Sender_Put_exact (replicate 256 0) (mkSQ 255 4) (mkSenderConfig 7 9 18 0) _ (replicate 60 1) 3 4096 true);
    first [reflexivity|vm_compute; congruence|vm_compute; split; congruence].
Defined.

(** ** Entries of several packets *)

(** [Fits] counts the longest run of leading frames one entry can hold: the
    frames it counts can share an entry, and with the next one they could
    not, in either mode. *)
Theorem Fits_maximal SQm sq cfg s fs :
  zlen SQm <= 2 ^ 22 -> NewSQ SQm = Ok sq -> mc_MaxLen cfg < 2 ^ 31 -> NewMPWSender sq cfg = Some (Ok s) ->
  exists m : nat, Fits s fs = Z.of_nat m /\ (m <= length fs)%nat /\ can_share s (take m fs) /\
    ((m < length fs)%nat -> ~ can_share s (take (S m) fs)).
Proof.
  intros Hz Hq Hml Hs. apply NewSQ_ok in Hq as [k Hq]; [|done].
  apply (NewMPWSender_ok k sq SQm cfg s Hq) in Hs as (Hok & _); [|done]. by apply Fits_prefix.
Qed.

Lemma Fits_maximal_witness :
  exists s, NewMPWSender (mkSQ 1023 16) (mkMPWConfig 7 0 60 false 9) = Some (Ok s) /\
  exists m : nat, Fits s (replicate 20 (replicate 60 1)) = Z.of_nat m /\ (m <= 20)%nat /\
    can_share s (take m (replicate 20 (replicate 60 1))) /\
    ((m < 20)%nat -> ~ can_share s (take (S m) (replicate 20 (replicate 60 1)))).
Proof.
  eexists. split; [reflexivity|].
  refine (Fits_maximal (replicate 1024 0) (mkSQ 1023 16) (mkMPWConfig 7 0 60 false 9) _ (replicate 20 (replicate 60 1)) _ eq_refl _ eq_refl).
  - by apply Z.leb_le.
  - by apply Z.ltb_lt.
Defined.

(** The frames [Fits] counts go into one entry, laid out as the device
    expects, copied in or pointed at, wrapping around the end of the queue;
    the result is the number of blocks that entry takes. *)
Theorem MPW_Put_exact SQm sq cfg s fs addrs idx sg :
  zlen SQm <= 2 ^ 22 -> NewSQ SQm = Ok sq -> mc_MaxLen cfg < 2 ^ 31 -> NewMPWSender sq cfg = Some (Ok s) ->
  can_share s fs -> Forall (fun f => zlen f < 2 ^ 32) fs -> zlen addrs = zlen fs ->
  if Pointer s
  then MPWSender_PutPointers s idx fs addrs sg SQm =
         Some (((2 + zlen fs) * 16 + 63) / 64, cwrite (idx * 64) (ptr_entry s idx fs addrs sg) SQm)
  else (2 + octs_all fs) * 16 <= zlen SQm ->
       MPWSender_Put s idx fs sg SQm =
         Some (((2 + octs_all fs) * 16 + 63) / 64, cwrite (idx * 64) (mpw_entry s idx fs sg) SQm).
Proof.
  intros Hz Hq Hml Hs Hsh Hf Ha. apply NewSQ_ok in Hq as [k Hq]; [|done].
  apply (NewMPWSender_ok k sq SQm cfg s Hq) in Hs as (Hok & <- & _); [|done].
  unfold Pointer, mpw_ok, can_share in *. destruct (m_pointer s).
  - apply (PutPointers_eq k); [done|lia|done|unfold MaxDS; lia].
  - intros Hfit. apply (MPWSender_Put_eq k); [done|tauto|done].
Qed.

Lemma MPW_Put_exact_witness :
  exists s, NewMPWSender (mkSQ 1023 16) (mkMPWConfig 7 0 0 true 9) = Some (Ok s) /\
  MPWSender_PutPointers s 15 [[1; 2]; [3]] [4096; 8192] true (replicate 1024 0) =
    Some (((2 + 2) * 16 + 63) / 64, cwrite (15 * 64) (ptr_entry s 15 [[1; 2]; [3]] [4096; 8192] true) (replicate 1024 0)).
Proof.
  eexists. split; [reflexivity|].
  refine (MPW_Put_exact (replicate 1024 0) (mkSQ 1023 16) (mkMPWConfig 7 0 0 true 9) _ [[1; 2]; [3]] [4096; 8192] 15 true
            _ eq_refl _ eq_refl _ _ eq_refl).
  - by apply Z.leb_le.
  - by apply Z.ltb_lt.
  - split; [by apply Z.leb_le|repeat constructor].
  - repeat constructor.
Defined.

(** ** Completion queues *)

(** The owner bit tells new completions from those of the lap before,
    over every wrap of the queue and of the 32-bit index: if the device has
    written [P] completions, none unread overwritten, then the entry at [ci]
    reads as owned exactly when [ci < P], and what is read is completion
    [ci]. *)
Theorem Owned_exact j c buf P hdr ci :
  cq_ok j c buf -> cq_holds c buf P hdr -> 0 <= ci <= P -> P <= ci + Entries c ->
  exists h, LoadCQEHeader c (u32 ci) buf = Some h /\ Owned c (u32 ci) h = (ci <? P) /\ (ci < P -> h = hdr ci).
Proof. apply Owned_written. Qed.

(** Two entries, three completions written. *)
Definition exOwnedCQ : list Z := (replicate 60 0 ++ [0; 2; 0; 1]) ++ (replicate 60 0 ++ [0; 1; 0; 0]).

Lemma Owned_exact_witness :
  exists h, LoadCQEHeader (mkCQ 2 1 1) (u32 3) exOwnedCQ = Some h /\ Owned (mkCQ 2 1 1) (u32 3) h = false.
Proof.
  destruct (Owned_exact 1 (mkCQ 2 1 1) exOwnedCQ 3 (fun i => if i =? 2 then 2 * 65536 + 1 else 65536) 3) as (h & H1 & H2 & _).
  - split; [split; by apply Z.leb_le|]. split; [reflexivity|]. split; [reflexivity|]. unfold bytes_ok. repeat constructor; vm_compute; congruence.
  - split; simpl; intros i Hi0 Hi; [|lia]. assert (E : i = 1 \/ i = 2) by lia. destruct E as [-> | ->]; vm_compute; split_and!; congruence.
  - split; by apply Z.leb_le.
  - by apply Z.leb_le.
  - exists h. split; [exact H1|exact H2].
Defined.
