(* ===== verification/RingTx.v ===== *)
(** The send ring: mlx5/internal/ring/tx.go, the operations.

    [Tx] is the state of one send queue.  The memory it shares with the device
    is part of it where the driver writes (the send queue, the doorbell
    records) and an argument of the operation where the driver only reads (the
    frames of the region, the completion queue).  [None] is a panic. *)

From stdpp Require Import prelude list numbers strings.
From S2P Require Import Prelude Bytes Desc Sq Send Mpw Cqe.

Record counters : Set := mkCounters {
  packets : Z; bytes : Z; completed : Z; batches : Z; completions : Z; ringFull : Z; errors : Z; badDesc : Z
}.

Definition zeroCounters : counters := mkCounters 0 0 0 0 0 0 0 0.

Record entryMeta : Set := mkMeta { m_slotTail : Z; m_bbs : Z }.

#[export] Instance entryMeta_inhabited : Inhabited entryMeta := populate (mkMeta 0 0).

(** What [NewTx] fixes for the life of the queue. *)
Record TxParams : Set := mkTxParams {
  sender : Sender; mpw : option MPWSender; cq : CQ;
  regionLen : Z; regionVA : Z; frameMask : Z;
  bbs : Z; bbMask : Z; maxBBs : Z; slotMask : Z; signalEvery : Z
}.

Record Tx : Set := mkTx {
  par : TxParams;
  sqBytes : list Z; sqDbrec : Z; cqDbrec : Z; uar : Z;
  pi : Z; head : Z; ci : Z;
  slots : list Desc; slotHead : Z; slotTail : Z; meta : list entryMeta; sinceSignal : Z;
  failed : option ErrorInfo; c : counters; sincePublish : Z; Stats : counters
}.

Record TxConfig : Set := mkTxConfig {
  cfg_SQ : list Z; cfg_CQ : list Z; cfg_haveDoorbells : bool; cfg_QPN : Z; cfg_LKey : Z;
  cfg_regionLen : Z; cfg_RegionVA : Z; cfg_FrameSize : Z; cfg_InlineLen : Z; cfg_CSFlags : Z;
  cfg_MultiPacket : bool; cfg_MultiPacketMaxLen : Z; cfg_MultiPacketPointer : bool; cfg_SignalEvery : Z
}.

(** Doubling [p] until it reaches [n]; 32 doublings reach every [uint32]
    below the top bit, beyond it the loop does not end. *)
Fixpoint nextPow2_loop (fuel : nat) (n p : Z) : option Z :=
  if p <? n then match fuel with O => None | S fuel => nextPow2_loop fuel n (u32 (Z.shiftl p 1)) end
  else Some p.

Definition nextPow2 (n : Z) : option Z := nextPow2_loop 32 n 1.

Definition entryBlocksFor (maxLen pkts : Z) : Z :=
  let perPacket := u32 (4 + maxLen + Octoword - 1) / Octoword in
  let ds := u32 (2 + pkts * perPacket) in
  let blocks := u32 (ds * Octoword + WQEBB - 1) / WQEBB in
  if blocks =? 0 then 1 else blocks.

(** The multi-packet sender of a configuration, and the slots it needs per
    block. *)
Definition newMPW (sq : SQ) (cfg : TxConfig) : option (res (option MPWSender * Z)) :=
  if cfg_MultiPacket cfg then
    if (cfg_MultiPacketMaxLen cfg <=? 0) && negb (cfg_MultiPacketPointer cfg) then
      Some (Err (Errorf "ring: multi-packet entries need a longest packet length"))
    else if negb (cfg_InlineLen cfg =? 0) then
      Some (Err (Errorf "ring: multi-packet entries cannot carry the inline header bytes this device requires"))
    else
      r ← NewMPWSender sq (mkMPWConfig (cfg_QPN cfg) (cfg_CSFlags cfg) (cfg_MultiPacketMaxLen cfg)
                             (cfg_MultiPacketPointer cfg) (cfg_LKey cfg));
      match r with
      | Err e => Some (Err e)
      | Ok s =>
          let perEntry := MaxDS - 2 in
          let entryBlocks := (2 + perEntry) * Octoword / WQEBB in
          let slotsPerBlock := (perEntry + entryBlocks - 1) / entryBlocks in
          Some (Ok (Some s, if slotsPerBlock =? 0 then 1 else slotsPerBlock))
      end
  else Some (Ok (None, 1)).

Definition NewTx (cfg : TxConfig) : option (res Tx) :=
  match NewSQ (cfg_SQ cfg) with
  | Err e => Some (Err e)
  | Ok sq =>
  match NewCQ (cfg_CQ cfg) CQESize with
  | Err e => Some (Err e)
  | Ok cq =>
  match NewSender sq (mkSenderConfig (cfg_QPN cfg) (cfg_LKey cfg) (cfg_InlineLen cfg) (cfg_CSFlags cfg)) with
  | Err e => Some (Err e)
  | Ok sender =>
  if negb (cfg_haveDoorbells cfg) then
    Some (Err (Errorf "ring: send queue is missing a doorbell record or user access region"))
  else if Entries cq <? BBs sq then
    Some (Err (Errorf "ring: a completion queue is smaller than what can be outstanding"))
  else
    r ← newMPW sq cfg;
    match r with
    | Err e => Some (Err e)
    | Ok (mpw, slotsPerBlock) =>
        nslots ← nextPow2 (u32 (BBs sq * slotsPerBlock));
        let t := mkTx (mkTxParams sender mpw cq (cfg_regionLen cfg) (cfg_RegionVA cfg) (u64 (cfg_FrameSize cfg - 1))
                         (BBs sq) (u32 (BBs sq - 1)) (MaxBBs sender) (u32 (nslots - 1)) (u32 (cfg_SignalEvery cfg)))
                   (cfg_SQ cfg) 0 0 0 0 0 0
                   (replicate (Z.to_nat nslots) (mkDesc 0 0 0)) 0 0 (replicate (Z.to_nat (BBs sq)) (mkMeta 0 0)) 0
                   None zeroCounters 0 zeroCounters in
        if negb (OnesCount (BBs sq) =? 1) then
          Some (Err (Errorf "ring: send queue blocks are not a power of two"))
        else if (cfg_FrameSize cfg <=? 0) || negb (OnesCount (u64 (cfg_FrameSize cfg)) =? 1) then
          Some (Err (Errorf "ring: frame size is not a power of two"))
        else if negb (cfg_regionLen cfg mod cfg_FrameSize cfg =? 0) then
          Some (Err (Errorf "ring: a region is not a whole number of frames"))
        else Some (Ok t)
    end
  end end end.

(** ** Counters *)

Definition with_counters (f : counters -> counters) (t : Tx) : Tx :=
  mkTx (par t) (sqBytes t) (sqDbrec t) (cqDbrec t) (uar t) (pi t) (head t) (ci t) (slots t) (slotHead t) (slotTail t)
    (meta t) (sinceSignal t) (failed t) (f (c t)) (sincePublish t) (Stats t).

Definition publish (t : Tx) : Tx :=
  mkTx (par t) (sqBytes t) (sqDbrec t) (cqDbrec t) (uar t) (pi t) (head t) (ci t) (slots t) (slotHead t) (slotTail t)
    (meta t) (sinceSignal t) (failed t) (c t) 0 (c t).

Definition tick (t : Tx) : Tx :=
  let n := u32 (sincePublish t + 1) in
  let t := mkTx (par t) (sqBytes t) (sqDbrec t) (cqDbrec t) (uar t) (pi t) (head t) (ci t) (slots t) (slotHead t)
             (slotTail t) (meta t) (sinceSignal t) (failed t) (c t) n (Stats t) in
  if n >=? publishEvery then publish t else t.

Definition Sync (t : Tx) : Tx := publish t.

Definition inc_ringFull (c : counters) : counters :=
  mkCounters (packets c) (bytes c) (completed c) (batches c) (completions c) (u64 (ringFull c + 1)) (errors c) (badDesc c).
Definition inc_errors (c : counters) : counters :=
  mkCounters (packets c) (bytes c) (completed c) (batches c) (completions c) (ringFull c) (u64 (errors c + 1)) (badDesc c).
Definition inc_badDesc (c : counters) : counters :=
  mkCounters (packets c) (bytes c) (completed c) (batches c) (completions c) (ringFull c) (errors c) (u64 (badDesc c + 1)).
Definition add_batch (n b : Z) (c : counters) : counters :=
  mkCounters (u64 (packets c + n)) (u64 (bytes c + b)) (completed c) (u64 (batches c + 1)) (completions c) (ringFull c)
    (errors c) (badDesc c).
Definition add_completed (n : Z) (c : counters) : counters :=
  mkCounters (packets c) (bytes c) (u64 (completed c + n)) (batches c) (completions c) (ringFull c) (errors c) (badDesc c).
Definition add_completions (n : Z) (c : counters) : counters :=
  mkCounters (packets c) (bytes c) (completed c) (batches c) (u64 (completions c + n)) (ringFull c) (errors c) (badDesc c).

(** ** Queries *)

Definition descOK (p : TxParams) (d : Desc) : bool :=
  (Addr d <? regionLen p) && (u64 (Len d - 1) <? u64 (frameMask p + 1 - Z.land (Addr d) (frameMask p))).

Definition FreeSlots (t : Tx) : Z :=
  if failed t then 0
  else
    let free := u32 (bbs (par t) - u32 (pi t - head t)) in
    match mpw (par t) with
    | Some m =>
        let byBlocks :=
          if Pointer m then
            let perEntry := MaxDS - 2 in
            let entryBBs := (2 + perEntry) * Octoword / WQEBB in
            let rem := free mod entryBBs * (WQEBB / Octoword) - 2 in
            free / entryBBs * perEntry + (if rem >? 0 then rem else 0)
          else
            let perPacket := u64 (4 + u64 (MaxLen m) + Octoword - 1) / Octoword in
            free * (WQEBB / Octoword) / perPacket in
        let bySlots := u32 (u32 (zlen (slots t)) - u32 (slotTail t - slotHead t)) in
        if byBlocks >? bySlots then bySlots else byBlocks
    | None => free / maxBBs (par t)
    end.

Definition Capacity (t : Tx) : Z := bbs (par t) / maxBBs (par t).
Definition InFlight (t : Tx) : Z := u32 (slotTail t - slotHead t).
Definition MultiPacket (t : Tx) : bool := match mpw (par t) with Some _ => true | None => false end.

(** ** Posting *)

(** Records an entry of [b] blocks at the producer index: its packets in the
    slot ring, what it did in [meta]. *)
Definition put_slot (t : Tx) (d : Desc) : option Tx :=
  sl ← set_at (Z.land (slotTail t) (slotMask (par t))) d (slots t);
  Some (mkTx (par t) (sqBytes t) (sqDbrec t) (cqDbrec t) (uar t) (pi t) (head t) (ci t) sl (slotHead t)
          (u32 (slotTail t + 1)) (meta t) (sinceSignal t) (failed t) (c t) (sincePublish t) (Stats t)).

Definition put_meta (b : Z) (t : Tx) : option Tx :=
  me ← set_at (Z.land (pi t) (bbMask (par t))) (mkMeta (slotTail t) (u16 b)) (meta t);
  Some (mkTx (par t) (sqBytes t) (sqDbrec t) (cqDbrec t) (uar t) (u32 (pi t + b)) (head t) (ci t) (slots t)
          (slotHead t) (slotTail t) me (sinceSignal t) (failed t) (c t) (sincePublish t) (Stats t)).

Definition with_sq (sq : list Z) (since : Z) (t : Tx) : Tx :=
  mkTx (par t) sq (sqDbrec t) (cqDbrec t) (uar t) (pi t) (head t) (ci t) (slots t) (slotHead t) (slotTail t)
    (meta t) since (failed t) (c t) (sincePublish t) (Stats t).

Definition frame_of (region : list Z) (d : Desc) : option (list Z) := slice (Addr d) (u64 (Addr d + Len d)) region.

(** One iteration of [Post]; [final] says that it is the batch's last. *)
Definition post_one (region : list Z) (final : bool) (d : Desc) (t : Tx) : option Tx :=
  let since := u32 (sinceSignal t + 1) in
  let signal := final || (negb (signalEvery (par t) =? 0) && (since >=? signalEvery (par t))) in
  let since := if signal then 0 else since in
  frame ← frame_of region d;
  '(b, sq) ← Sender_Put (sender (par t)) (u16 (pi t)) frame (u64 (regionVA (par t) + Addr d)) signal (sqBytes t);
  t ← put_slot (with_sq sq since t) d;
  put_meta b t.

Record batch : Set := mkBatch { b_posted : Z; b_bytes : Z; b_lastIdx : Z }.

Fixpoint post_loop (region : list Z) (descs : list Desc) (b : batch) (t : Tx) : option (batch * Tx) :=
  match descs with
  | [] => Some (b, t)
  | d :: ds =>
      if negb (descOK (par t) d) then Some (b, with_counters inc_badDesc t)
      else
        t' ← post_one region (match ds with [] => true | _ => false end) d t;
        post_loop region ds (mkBatch (b_posted b + 1) (u64 (b_bytes b + Len d)) (u16 (pi t))) t'
  end.

(** The doorbell record holds the big-endian producer index; the register gets
    the first eight bytes of the last entry. *)
Definition ring_doorbell (first8 : Z) (t : Tx) : Tx :=
  mkTx (par t) (sqBytes t) (be32_native (Z.land (pi t) 0xffff)) (cqDbrec t) first8 (pi t) (head t) (ci t) (slots t)
    (slotHead t) (slotTail t) (meta t) (sinceSignal t) (failed t) (c t) (sincePublish t) (Stats t).

Definition mpwBlocks (frames : list (list Z)) : Z :=
  let ds := foldl (fun ds f => u32 (ds + u32 (4 + u32 (zlen f) + Octoword - 1) / Octoword)) 2 frames in
  u32 (ds * Octoword + WQEBB - 1) / WQEBB.

Definition setSignaled (idx : Z) (t : Tx) : option Tx :=
  let off := Z.land (u32 (idx * WQEBB)) (u32 (u32 (zlen (sqBytes t)) - 1)) in
  b ← get_at (u32 (off + 11)) (sqBytes t);
  sq ← set_at (u32 (off + 11)) (Z.lor b CtrlCQUpdate) (sqBytes t);
  Some (with_sq sq (sinceSignal t) t).

Record gathered : Set := mkGathered { g_frames : list (list Z); g_paddrs : list Z; g_bad : bool; g_checked : Z }.

(** The gathering loop, over [descs[posted:limit]]. *)
Fixpoint gather (region : list Z) (pointer : bool) (descs : list Desc) (i : Z) (g : gathered) (t : Tx)
    : option (gathered * Tx) :=
  match descs with
  | [] => Some (g, t)
  | d :: ds =>
      if (i >=? g_checked g) && negb (descOK (par t) d) then
        Some (mkGathered (g_frames g) (g_paddrs g) true (g_checked g), with_counters inc_badDesc t)
      else
        f ← frame_of region d;
        gather region pointer ds (i + 1)
          (mkGathered (g_frames g ++ [f])
             (if pointer then g_paddrs g ++ [u64 (regionVA (par t) + Addr d)] else g_paddrs g)
             (g_bad g) (if i >=? g_checked g then i + 1 else g_checked g)) t
  end.

(** What one round writes: how many packets, their blocks, the send queue. *)
Definition put_round (region : list Z) (m : MPWSender) (descs : list Desc) (posted free : Z) (g : gathered) (t : Tx)
    : option (Z * Z * list Z) :=
  let idx := u16 (pi t) in
  let k := Fits m (g_frames g) in
  let fs := take (Z.to_nat k) (g_frames g) in
  if (k >=? 2) && Pointer m then
    let b := u32 (u32 (2 + k) * Octoword + WQEBB - 1) / WQEBB in
    if b >? free then Some (k, b, sqBytes t)
    else
      '(_, sq) ← MPWSender_PutPointers m idx fs (take (Z.to_nat k) (g_paddrs g)) false (sqBytes t);
      Some (k, b, sq)
  else if k >=? 2 then
    let b := mpwBlocks fs in
    if b >? free then Some (k, b, sqBytes t)
    else
      '(_, sq) ← MPWSender_Put m idx fs false (sqBytes t);
      Some (k, b, sq)
  else if posted <? zlen descs then
    d ← get_at posted descs;
    if maxBBs (par t) >? free then Some (1, 0, sqBytes t)
    else
      f ← frame_of region d;
      '(b, sq) ← Sender_Put (sender (par t)) idx f (u64 (regionVA (par t) + Addr d)) false (sqBytes t);
      Some (1, b, sq)
  else Some (k, 0, sqBytes t).

Record multi : Set := mkMulti { mu_posted : Z; mu_bytes : Z; mu_lastIdx : Z; mu_any : bool; mu_checked : Z }.

Definition multi_limit (descs : list Desc) (posted : Z) (t : Tx) : Z :=
  let limit := posted + MaxDS - 2 in
  let limit := if limit >? zlen descs then zlen descs else limit in
  let room := u32 (slotTail t - slotHead t) in
  if limit - posted >? zlen (slots t) - room then posted + zlen (slots t) - room else limit.

(** The loop of [postMulti]; every round that goes on posts a packet. *)
Fixpoint multi_loop (fuel : nat) (region : list Z) (m : MPWSender) (descs : list Desc) (mu : multi) (t : Tx)
    : option (multi * Tx) :=
  match fuel with
  | O => None
  | S fuel =>
      let posted := mu_posted mu in
      if negb (posted <? zlen descs) then Some (mu, t)
      else
        let free := u32 (bbs (par t) - u32 (pi t - head t)) in
        if (free =? 0) || (u32 (slotTail t - slotHead t) =? u32 (zlen (slots t))) then Some (mu, t)
        else
          let limit := multi_limit descs posted t in
          gd ← slice posted (Z.max posted limit) descs;
          '(g, t) ← gather region (Pointer m) gd posted (mkGathered [] [] false (mu_checked mu)) t;
          if zlen (g_frames g) =? 0 then Some (mu, t)
          else
            '(k, b, sq) ← put_round region m descs posted free g t;
            let t := with_sq sq (sinceSignal t) t in
            if (b =? 0) || (b >? free) then Some (mu, t)
            else
              ds ← slice posted (posted + k) descs;
              t' ← foldM put_slot ds t;
              t' ← put_meta b t';
              let mu := mkMulti (posted + k) (foldl (fun n d => u64 (n + Len d)) (mu_bytes mu) ds) (u16 (pi t)) true
                          (g_checked g) in
              if g_bad g then Some (mu, t') else multi_loop fuel region m descs mu t'
  end.

Definition postMulti (region : list Z) (m : MPWSender) (descs : list Desc) (t : Tx) : option (Z * Tx) :=
  '(mu, t) ← multi_loop (S (length descs)) region m descs (mkMulti 0 0 0 false 0) t;
  if negb (mu_any mu) then Some (0, publish (with_counters inc_ringFull t))
  else
    t ← setSignaled (mu_lastIdx mu) t;
    first8 ← MPWSender_FirstOctoword m (mu_lastIdx mu) (sqBytes t);
    Some (mu_posted mu, tick (with_counters (add_batch (mu_posted mu) (mu_bytes mu)) (ring_doorbell first8 t))).

Definition Post (region : list Z) (descs : list Desc) (t : Tx) : option (Z * Tx) :=
  if failed t then Some (0, t)
  else
    let free := FreeSlots t in
    if (zlen descs >? free) && (free =? 0) then Some (0, publish (with_counters inc_ringFull t))
    else
      let n := if zlen descs >? free then free else zlen descs in
      if n =? 0 then Some (0, t)
      else
        descs ← slice 0 n descs;
        match mpw (par t) with
        | Some m => postMulti region m descs t
        | None =>
            '(b, t) ← post_loop region descs (mkBatch 0 0 0) t;
            if b_posted b =? 0 then Some (0, publish t)
            else
              first8 ← Sender_FirstOctoword (sender (par t)) (b_lastIdx b) (sqBytes t);
              Some (b_posted b,
                    tick (with_counters (add_batch (b_posted b) (b_bytes b)) (ring_doorbell first8 t)))
        end.

(** ** Completing *)

Definition entryFor (t : Tx) (header : Z) : option (option (Z * Z)) :=
  let counter := WQECounter header in
  let delta := u16 (counter - u16 (head t)) in
  if delta >=? u32 (pi t - head t) then Some None
  else
    m ← get_at (Z.land (u32 (head t + delta)) (bbMask (par t))) (meta t);
    if m_bbs m =? 0 then Some None
    else
      let used := u32 (m_slotTail m - slotHead t) in
      if (used =? 0) || (used >? u32 (slotTail t - slotHead t)) then Some None
      else Some (Some (m_slotTail m, u32 (head t + delta + m_bbs m))).

(** The completion loop's variables: the consumer index, how far to release,
    how many completions were read, and the fields it writes on the way. *)
Record reading : Set := mkReading {
  r_ci : Z; r_release : option (Z * Z); r_completed : Z; r_failed : option ErrorInfo; r_errors : Z
}.

Definition is_some {A} (o : option A) : bool := match o with Some _ => true | None => false end.

Fixpoint complete_loop (n : nat) (max : Z) (cqbuf : list Z) (t : Tx) (r : reading) : option reading :=
  match n with
  | O => Some r
  | S n =>
      header ← LoadCQEHeader (cq (par t)) (r_ci r) cqbuf;
      if negb (Owned (cq (par t)) (r_ci r) header) then Some r
      else if negb (Format header =? CQEFormatNoData) then
        Some (mkReading (r_ci r) (r_release r) (r_completed r) (r_failed r) (r_errors r + 1))
      else
        let opcode := Opcode header in
        if negb (opcode =? CQEReq) && negb (opcode =? CQEReqErr) then
          complete_loop n max cqbuf t
            (mkReading (u32 (r_ci r + 1)) (r_release r) (r_completed r + 1) (r_failed r) (r_errors r + 1))
        else
          e ← entryFor t header;
          if match e with
             | Some (target, _) => is_some (r_release r) && (u32 (target - slotHead t) >? u32 max)
             | None => false
             end then Some r
          else
            let ci := u32 (r_ci r + 1) in
            '(fl, er) ← (if opcode =? CQEReqErr then
                           entry ← Entry (cq (par t)) (u32 (ci - 1)) cqbuf;
                           info ← Error entry;
                           Some (match r_failed r with Some f => Some f | None => Some info end, r_errors r + 1)
                         else Some (r_failed r, r_errors r));
            match e with
            | None => complete_loop n max cqbuf t (mkReading ci (r_release r) (r_completed r + 1) fl (er + 1))
            | Some (target, hd) =>
                let r := mkReading ci (Some (target, hd)) (r_completed r + 1) fl er in
                if u32 (target - slotHead t) >=? u32 max then Some r else complete_loop n max cqbuf t r
            end
  end.

(** [for ; t.slotHead != release; t.slotHead++]; the slots between the two are
    at most [fuel]. *)
Fixpoint release_slots (fuel : nat) (h release : Z) (sl : list Desc) (mask : Z) (out : list Desc) : option (list Desc) :=
  if h =? release then Some out
  else match fuel with
       | O => None
       | S fuel =>
           d ← get_at (Z.land h mask) sl;
           release_slots fuel (u32 (h + 1)) release sl mask (out ++ [d])
       end.

Definition Complete (max : Z) (cqbuf : list Z) (out : list Desc) (t : Tx) : option (list Desc * Tx) :=
  if max <=? 0 then Some (out, t)
  else
    r ← complete_loop (Z.to_nat (Entries (cq (par t)))) max cqbuf t (mkReading (ci t) None 0 (failed t) 0);
    let t := mkTx (par t) (sqBytes t) (sqDbrec t) (cqDbrec t) (uar t) (pi t) (head t) (r_ci r) (slots t) (slotHead t)
               (slotTail t) (meta t) (sinceSignal t) (r_failed r) (Nat.iter (Z.to_nat (r_errors r)) inc_errors (c t))
               (sincePublish t) (Stats t) in
    if r_completed r =? 0 then Some (out, t)
    else
      let t := with_counters (add_completions (r_completed r)) t in
      '(out, t) ← match r_release r with
                  | None => Some (out, t)
                  | Some (release, newHead) =>
                      let freed := u32 (release - slotHead t) in
                      out ← release_slots (Z.to_nat freed) (slotHead t) release (slots t) (slotMask (par t)) out;
                      let t := mkTx (par t) (sqBytes t) (sqDbrec t) (cqDbrec t) (uar t) (pi t) newHead (ci t) (slots t)
                                 release (slotTail t) (meta t) (sinceSignal t) (failed t)
                                 (add_completed freed (c t)) (sincePublish t) (Stats t) in
                      Some (out, if slotTail t =? slotHead t then publish t else t)
                  end;
      Some (out, mkTx (par t) (sqBytes t) (sqDbrec t) (be32_native (Z.land (ci t) 0xffffff)) (uar t) (pi t) (head t)
                   (ci t) (slots t) (slotHead t) (slotTail t) (meta t) (sinceSignal t) (failed t) (c t)
                   (sincePublish t) (Stats t)).

Fixpoint completable_loop (n : nat) (ci : Z) (cqbuf : list Z) (t : Tx) (release : option Z) : option (option Z) :=
  match n with
  | O => Some release
  | S n =>
      header ← LoadCQEHeader (cq (par t)) ci cqbuf;
      if negb (Owned (cq (par t)) ci header) || negb (Format header =? CQEFormatNoData) then Some release
      else
        release ← (if (Opcode header =? CQEReq) || (Opcode header =? CQEReqErr) then
                     e ← entryFor t header;
                     Some (match e with Some (target, _) => Some target | None => release end)
                   else Some release);
        completable_loop n (u32 (ci + 1)) cqbuf t release
  end.

Definition Completable (cqbuf : list Z) (t : Tx) : option Z :=
  r ← completable_loop (Z.to_nat (Entries (cq (par t)))) (ci t) cqbuf t None;
  Some (match r with Some release => u32 (release - slotHead t) | None => 0 end).
