(* ===== verification/RingTxInv.v ===== *)
(** The send ring's invariant.

    The ring's counters run free and wrap at 2^32, so the invariant [tx_inv]
    speaks of unbounded ones, of which the fields hold the low bits: [B] is the
    oldest unfinished block, [H] the oldest slot, and [es] the entries in
    flight, each with the descriptors it carries, the blocks it takes and the
    bytes that describe it to the device. *)

From stdpp Require Import prelude list numbers strings.
From S2P Require Import Prelude Circ Bytes Desc Sq Send Mpw Cqe RingTx.

Record entry : Set := mkEntry { e_descs : list Desc; e_blocks : Z; e_bytes : list Z }.

Fixpoint blocks (es : list entry) : Z := match es with [] => 0 | e :: es => e_blocks e + blocks es end.

(** The descriptors the device owns, oldest first. *)
Definition outstanding (es : list entry) : list Desc := concat (map e_descs es).

(** Packets per block at most: four octowords to a block, one packet to an
    ordinary entry. *)
Definition per_block (p : TxParams) : Z := match mpw p with Some _ => 4 | None => 1 end.

Record entry_ok (p : TxParams) (e : entry) : Prop := {
  eo_some : 0 < zlen (e_descs e);
  eo_blocks : 1 <= e_blocks e <= 15;
  eo_bytes : zlen (e_bytes e) <= 64 * e_blocks e;
  eo_descs : zlen (e_descs e) <= per_block p * e_blocks e;
  eo_ds : exists ds, e_bytes e !! 7%nat = Some ds /\ e_blocks e = (ds * 16 + 63) / 64
}.

(** The entries lie one after another from block [b] on, their packets from
    slot [h] on. *)
Fixpoint laid (me : list entryMeta) (sq : list Z) (b h : Z) (es : list entry) : Prop :=
  match es with
  | [] => True
  | e :: es =>
      cell me b = mkMeta (u32 (h + zlen (e_descs e))) (e_blocks e) /\
      window sq (b * 64) (length (e_bytes e)) = e_bytes e /\
      laid me sq (b + e_blocks e) (h + zlen (e_descs e)) es
  end.

(** What [NewTx] establishes: [2^kb] blocks, [2^ks] slots, frames of [2^kf]
    bytes. *)
Record par_ok (kb ks kf : Z) (p : TxParams) : Prop := {
  po_kb : 0 <= kb <= 16;
  po_ks : kb <= ks <= 24;
  po_slots : per_block p * 2 ^ kb <= 2 ^ ks;
  po_bbs : bbs p = 2 ^ kb;
  po_bbMask : bbMask p = 2 ^ kb - 1;
  po_slotMask : slotMask p = 2 ^ ks - 1;
  po_sender : sender_ok (sender p);
  po_sq_bbs : sq_bbs (s_sq (sender p)) = 2 ^ kb;
  po_sq_mask : sq_mask (s_sq (sender p)) = 2 ^ (kb + 6) - 1;
  po_maxBBs : maxBBs p = s_maxBBs (sender p);
  po_kf : 0 <= kf <= 32;
  po_frameMask : frameMask p = 2 ^ kf - 1;
  po_region : 0 <= regionLen p < 2 ^ 63 /\ regionLen p mod 2 ^ kf = 0;
  po_mpw m : mpw p = Some m -> mpw_ok m /\ m_sq m = s_sq (sender p) /\ s_inlineLen (sender p) = 0 /\
    m_qpn m = s_qpn (sender p) /\ m_lkey m = s_lkey (sender p)
}.

Record tx_inv (kb ks kf : Z) (B H : Z) (es : list entry) (t : Tx) : Prop := {
  ti_par : par_ok kb ks kf (par t);
  ti_sq : zlen (sqBytes t) = 64 * 2 ^ kb;
  ti_meta : zlen (meta t) = 2 ^ kb;
  ti_slotlen : zlen (slots t) = 2 ^ ks;
  ti_head : head t = u32 B;
  ti_pi : pi t = u32 (B + blocks es);
  ti_slotHead : slotHead t = u32 H;
  ti_slotTail : slotTail t = u32 (H + zlen (outstanding es));
  ti_room : blocks es <= 2 ^ kb;
  ti_entries : Forall (entry_ok (par t)) es;
  ti_slots : window (slots t) H (length (outstanding es)) = outstanding es;
  ti_laid : laid (meta t) (sqBytes t) B H es;
  ti_metas : Forall (fun m => 0 <= m_slotTail m < 2 ^ 32) (meta t)
}.

(** ** Entries *)

Lemma blocks_app es es' : blocks (es ++ es') = blocks es + blocks es'.
Proof. induction es as [|e es IH]; simpl; lia. Qed.

Lemma outstanding_app es es' : outstanding (es ++ es') = outstanding es ++ outstanding es'.
Proof. unfold outstanding. by rewrite map_app, concat_app. Qed.

Lemma outstanding_one e : outstanding [e] = e_descs e.
Proof. unfold outstanding. simpl. by rewrite app_nil_r. Qed.

Lemma entries_counts p es : Forall (entry_ok p) es ->
  zlen es <= blocks es /\ zlen es <= zlen (outstanding es) <= per_block p * blocks es.
Proof.
  induction 1 as [|e es [Hs Hb _ Hd _] _ IH]; [unfold zlen; simpl; lia|].
  unfold outstanding in *. cbn [map concat blocks]. rewrite zlen_cons, zlen_app. lia.
Qed.

Lemma laid_app me sq es' : forall es b h,
  laid me sq b h (es ++ es') <->
  laid me sq b h es /\ laid me sq (b + blocks es) (h + zlen (outstanding es)) es'.
Proof.
  induction es as [|e es IH]; intros b h.
  - simpl. rewrite !Z.add_0_r. tauto.
  - unfold outstanding in *. cbn [laid app blocks map concat]. rewrite IH, zlen_app.
    rewrite !Z.add_assoc. tauto.
Qed.

(** Writes outside the blocks of the entries leave them as they are. *)
Lemma laid_ext p me sq me' sq' es : Forall (entry_ok p) es -> forall b h,
  (forall i, b <= i < b + blocks es -> cell me' i = cell me i) ->
  (forall i, b * 64 <= i < (b + blocks es) * 64 -> cell sq' i = cell sq i) ->
  laid me sq b h es -> laid me' sq' b h es.
Proof.
  induction 1 as [|e es [_ Hb Hy _ _] Hes IH]; intros b h Hm Hq; [done|].
  pose proof (proj1 (entries_counts p es Hes)). pose proof (zlen_nonneg es).
  simpl in *. intros (Hc & Hw & Hl). split_and!.
  - rewrite Hm by lia. done.
  - rewrite <- Hw at 2. apply window_ext. intros k Hk. apply Hq. unfold zlen in *. lia.
  - apply IH; [| |done]; intros i Hi; [apply Hm|apply Hq]; lia.
Qed.

(** The cyclic buffers, written ahead of what is live in them. *)
Lemma cell_lap {A} `{!Inhabited A} (buf : list A) i : cell buf (i + zlen buf) = cell buf i.
Proof.
  unfold cell. destruct (decide (zlen buf = 0)) as [E|E]; [by rewrite E, Z.add_0_r|].
  pose proof (zlen_nonneg buf).
  replace (i + zlen buf) with (i + 1 * zlen buf) by lia. by rewrite Z.mod_add.
Qed.

Lemma cell_cwrite_live {A} `{!Inhabited A} off (src buf : list A) i :
  off + zlen src <= i + zlen buf -> i < off -> cell (cwrite off src buf) i = cell buf i.
Proof.
  intros H1 H2. rewrite <- (cell_lap (cwrite off src buf)), <- (cell_lap buf), zlen_cwrite.
  apply cell_cwrite_outside. lia.
Qed.

Lemma cell_insert_live {A} `{!Inhabited A} (buf : list A) j x i :
  i < j < i + zlen buf -> cell (<[Z.to_nat (j mod zlen buf) := x]> buf) i = cell buf i.
Proof. intros H. apply cell_insert_ne; [lia|]. apply not_eq_sym, mod_distinct; lia. Qed.

(** ** The invariant's arithmetic *)

Section inv.
Context (kb ks kf B H : Z) (es : list entry) (t : Tx) (Hinv : tx_inv kb ks kf B H es t).

Lemma inv_pows : 0 < 2 ^ kb <= 2 ^ 16 /\ 0 < 2 ^ ks <= 2 ^ 24 /\ 0 < 2 ^ kf <= 2 ^ 32.
Proof using Hinv.
  destruct (ti_par _ _ _ _ _ _ _ Hinv) as [Hkb Hks _ _ _ _ _ _ _ _ Hkf _ _ _].
  split_and!; try (apply Z.pow_pos_nonneg; lia); apply Z.pow_le_mono_r; lia.
Qed.

Lemma inv_sizes : zlen es <= blocks es /\ 0 <= blocks es <= 2 ^ kb /\ zlen es <= zlen (outstanding es) /\
  0 <= zlen (outstanding es) <= 2 ^ ks /\ zlen (outstanding es) <= per_block (par t) * blocks es.
Proof using Hinv.
  pose proof inv_pows. destruct Hinv as [Hp _ _ _ _ _ _ _ Hr He _ _ _].
  destruct (entries_counts _ _ He) as [Hb [Ho1 Ho2]]. pose proof (zlen_nonneg es).
  destruct Hp as [_ _ Hs _ _ _ _ _ _ _ _ _ _ _].
  assert (1 <= per_block (par t)) by (unfold per_block; destruct (mpw (par t)); lia). split_and!; try lia. nia.
Qed.

Lemma inv_sq_ok : sq_ok (kb + 6) (s_sq (sender (par t))) (sqBytes t).
Proof using Hinv.
  destruct Hinv as [[Hkb _ _ _ _ _ _ Hsb Hsm _ _ _ _ _] Hl _ _ _ _ _ _ _ _ _ _ _].
  unfold sq_ok. rewrite Hl, Hsb, Hsm. replace (kb + 6 - 6) with kb by lia.
  split_and!; [lia|lia| |done|done]. rewrite Z.pow_add_r by lia. lia.
Qed.

Lemma inv_free : u32 (bbs (par t) - u32 (pi t - head t)) = 2 ^ kb - blocks es.
Proof using Hinv.
  pose proof inv_sizes. pose proof inv_pows. destruct Hinv as [Hp _ _ _ Hh Hpi _ _ _ _ _ _ _].
  rewrite Hh, Hpi, u32_dist, (po_bbs _ _ _ _ Hp), u32_small by lia. lia.
Qed.

Lemma inv_inflight : u32 (slotTail t - slotHead t) = zlen (outstanding es).
Proof using Hinv.
  pose proof inv_sizes. pose proof inv_pows. destruct Hinv as [_ _ _ _ _ _ Hh Hpi _ _ _ _ _].
  rewrite Hh, Hpi, u32_dist by lia. lia.
Qed.

Lemma inv_slot_index : Z.land (slotTail t) (slotMask (par t)) = (H + zlen (outstanding es)) mod zlen (slots t).
Proof using Hinv.
  destruct Hinv as [Hp _ _ Hs _ _ _ Ht _ _ _ _ _].
  rewrite Ht, (po_slotMask _ _ _ _ Hp), Hs. apply u32_land_mask. destruct Hp. lia.
Qed.

Lemma inv_meta_index : Z.land (pi t) (bbMask (par t)) = (B + blocks es) mod zlen (meta t).
Proof using Hinv.
  destruct Hinv as [Hp _ Hm _ _ Hpi _ _ _ _ _ _ _].
  rewrite Hpi, (po_bbMask _ _ _ _ Hp), Hm. apply u32_land_mask. destruct Hp. lia.
Qed.

(** The 16-bit index the device sees names the same place in the queue. *)
Lemma inv_idx src : cwrite (u16 (pi t) * 64) src (sqBytes t) = cwrite ((B + blocks es) * 64) src (sqBytes t).
Proof using Hinv.
  pose proof inv_pows. destruct Hinv as [[Hkb _ _ _ _ _ _ _ _ _ _ _ _ _] Hl _ _ _ Hpi _ _ _ _ _ _ _].
  rewrite <- (cwrite_mod (u16 _ * 64)), <- (cwrite_mod ((B + blocks es) * 64)). f_equal.
  rewrite Hl, (Z.mul_comm 64), !Z.mul_mod_distr_r by lia. f_equal.
  rewrite Hpi. unfold u16, u32. rewrite !mod_mod_pow2 by lia. done.
Qed.

Lemma inv_bound : blocks es <= 2 ^ kb.
Proof using Hinv. exact (ti_room _ _ _ _ _ _ _ Hinv). Qed.
End inv.

(** ** Adding an entry *)

Definition with_slots (sl : list Desc) (st : Z) (t : Tx) : Tx :=
  mkTx (par t) (sqBytes t) (sqDbrec t) (cqDbrec t) (uar t) (pi t) (head t) (ci t) sl (slotHead t)
    st (meta t) (sinceSignal t) (failed t) (c t) (sincePublish t) (Stats t).

Definition with_meta (me : list entryMeta) (p : Z) (t : Tx) : Tx :=
  mkTx (par t) (sqBytes t) (sqDbrec t) (cqDbrec t) (uar t) p (head t) (ci t) (slots t) (slotHead t)
    (slotTail t) me (sinceSignal t) (failed t) (c t) (sincePublish t) (Stats t).

Lemma put_slots_spec ks h : forall ds n t,
  0 <= ks <= 32 -> slotMask (par t) = 2 ^ ks - 1 -> zlen (slots t) = 2 ^ ks -> slotTail t = u32 (h + Z.of_nat n) ->
  Z.of_nat n + zlen ds <= 2 ^ ks ->
  exists sl, foldM put_slot ds t = Some (with_slots sl (u32 (h + Z.of_nat n + zlen ds)) t) /\
    zlen sl = 2 ^ ks /\ window sl h (n + length ds) = window (slots t) h n ++ ds.
Proof.
  induction ds as [|d ds IH]; intros n t Hks Hm Hl Ht Hr.
  - exists (slots t). rewrite zlen_nil, Z.add_0_r, <- Ht. destruct t. simpl. rewrite Nat.add_0_r, app_nil_r. done.
  - rewrite zlen_cons in *. pose proof (zlen_nonneg ds). 
    assert (Hp : 0 < zlen (slots t)) by (rewrite Hl; apply Z.pow_pos_nonneg; lia).
    set (t1 := with_slots (<[Z.to_nat ((h + Z.of_nat n) mod zlen (slots t)) := d]> (slots t)) (u32 (slotTail t + 1)) t).
    assert (E : put_slot t d = Some t1).
    { unfold put_slot. rewrite Ht, Hm, u32_land_mask, <- Hl by lia.
      rewrite set_at_Some by (apply Z.mod_pos_bound; done). cbn [mbind option_bind]. by rewrite <- Ht. }
    cbn [foldM]. rewrite E. cbn [mbind option_bind].
    destruct (IH (S n) t1) as (sl & -> & Hzl & Hw); try done.
    + simpl. by rewrite zlen_insert.
    + simpl. rewrite Ht, u32_add_l. f_equal. lia.
    + lia.
    + exists sl. split; [|split; [done|]].
      * unfold with_slots. simpl. do 3 f_equal. lia.
      * simpl length. rewrite Nat.add_succ_r. change (S (n + length ds)) with (S n + length ds)%nat. rewrite Hw.
        simpl slots. rewrite window_push by lia. by rewrite <- app_assoc.
Qed.

Section push.
Context (kb ks kf B H : Z) (es : list entry) (t : Tx) (Hinv : tx_inv kb ks kf B H es t).

Lemma inv_push e since :
  entry_ok (par t) e -> blocks es + e_blocks e <= 2 ^ kb ->
  exists t1 t2,
    foldM put_slot (e_descs e) (with_sq (cwrite (u16 (pi t) * 64) (e_bytes e) (sqBytes t)) since t) = Some t1 /\
    put_meta (e_blocks e) t1 = Some t2 /\ tx_inv kb ks kf B H (es ++ [e]) t2 /\
    (par t2, ci t2, failed t2, cqDbrec t2, sqDbrec t2) = (par t, ci t, failed t, cqDbrec t, sqDbrec t) /\
    (uar t2, c t2, sincePublish t2, Stats t2, sinceSignal t2, head t2, slotHead t2) =
    (uar t, c t, sincePublish t, Stats t, since, head t, slotHead t) /\
    pi t2 = u32 (B + blocks es + e_blocks e).
Proof using Hinv.
  intros He Hroom. pose proof (inv_sizes _ _ _ _ _ _ _ Hinv) as Hsz. pose proof (inv_pows _ _ _ _ _ _ _ Hinv) as Hpw.
  pose proof (inv_meta_index _ _ _ _ _ _ _ Hinv) as Hmi. rewrite (inv_idx _ _ _ _ _ _ _ Hinv).
  destruct Hinv as [Hp Hsq Hme Hsl Hh Hpi Hsh Hst Hr Hes Hw Hl Hmt].
  destruct (He) as [He1 He2 He3 He4 He5].
  assert (Hall : Forall (entry_ok (par t)) (es ++ [e])) by (apply Forall_app; split; [done|by constructor]).
  destruct (entries_counts _ _ Hall) as [_ [_ Hcap]].
  rewrite blocks_app, outstanding_app, outstanding_one, zlen_app in Hcap. simpl in Hcap.
  set (t0 := with_sq _ since t).
  destruct (put_slots_spec ks H (e_descs e) (length (outstanding es)) t0) as (sl & E1 & Hsl' & Hw').
  { destruct Hp. lia. } { simpl. by destruct Hp. } { done. } { simpl. by rewrite Hst. }
  { destruct Hp as [_ _ Hps _ _ _ _ _ _ _ _ _ _ _].
    assert (1 <= per_block (par t)) by (unfold per_block; destruct (mpw (par t)); lia).
    change (Z.of_nat (length (outstanding es))) with (zlen (outstanding es)). nia. }
  rewrite E1. eexists _, _. split; [done|]. unfold put_meta. simpl pi. simpl bbMask. simpl meta. rewrite Hmi.
  rewrite set_at_Some by (apply Z.mod_pos_bound; lia). cbn [mbind option_bind].
  rewrite (u16_small (e_blocks e)) by lia. split; [done|]. split; [|split; [done|split; [done|]]].
  - split; simpl; try done.
    + by rewrite zlen_cwrite.
    + by rewrite zlen_insert.
    + rewrite Hpi, u32_add_l, blocks_app. simpl. f_equal. lia.
    + rewrite outstanding_app, outstanding_one, zlen_app. f_equal. unfold zlen. lia.
    + rewrite blocks_app. simpl. lia.
    + rewrite outstanding_app, outstanding_one, length_app, Hw'. simpl. by rewrite Hw.
    + apply laid_app. split.
      * apply (laid_ext (par t) (meta t) (sqBytes t)); [done| | |done]; intros i Hi.
        -- apply cell_insert_live. lia.
        -- apply cell_cwrite_live; lia.
      * simpl. split_and!; [|apply window_cwrite; lia|done].
        rewrite cell_insert_eq by lia. f_equal.
    + apply Forall_insert; [done|]. simpl. apply u32_range.
  - simpl. by rewrite Hpi, u32_add_l.
Qed.
End push.

(** ** What leaves the invariant alone *)

Lemma tx_inv_same kb ks kf B H es t t' :
  tx_inv kb ks kf B H es t ->
  (par t', sqBytes t', meta t', slots t') = (par t, sqBytes t, meta t, slots t) ->
  (head t', pi t', slotHead t', slotTail t') = (head t, pi t, slotHead t, slotTail t) ->
  tx_inv kb ks kf B H es t'.
Proof.
  intros [Hp Hsq Hme Hsl Hh Hpi Hsh Hst Hr Hes Hw Hl Hmt] [= E1 E2 E3 E4] [= E5 E6 E7 E8].
  split; rewrite ?E1, ?E2, ?E3, ?E4, ?E5, ?E6, ?E7, ?E8; done.
Qed.

(** The first eight bytes of an entry in flight, which a doorbell repeats. *)
Lemma first_octoword kb ks kf B H es e es' t :
  tx_inv kb ks kf B H (es ++ e :: es') t -> 8 <= zlen (e_bytes e) ->
  get_le 8 (offset (s_sq (sender (par t))) (u16 (B + blocks es))) (sqBytes t) = Some (le_val (take 8 (e_bytes e))).
Proof.
  intros Hinv H8. pose proof (inv_sq_ok _ _ _ _ _ _ _ Hinv) as Hq. pose proof (inv_pows _ _ _ _ _ _ _ Hinv).
  destruct Hinv as [[Hkb _ _ _ _ _ _ _ _ _ _ _ _ _] Hl _ _ _ _ _ _ _ _ _ Hlaid _].
  apply laid_app in Hlaid as [_ Hlaid]. simpl in Hlaid. destruct Hlaid as (_ & Hw & _).
  unfold offset, WQEBB. rewrite (mask_mod _ _ _ Hq).
  assert (Hm : (u16 (B + blocks es) * 64) mod zlen (sqBytes t) = ((B + blocks es) * 64) mod zlen (sqBytes t)).
  { rewrite Hl, (Z.mul_comm 64), !Z.mul_mod_distr_r by lia. f_equal. unfold u16. by rewrite mod_mod_pow2 by lia. }
  rewrite Hm. set (off := ((B + blocks es) * 64) mod zlen (sqBytes t)).
  assert (Hoff : 0 <= off /\ off + 8 <= zlen (sqBytes t)).
  { assert (off mod 64 = 0).
    { unfold off. rewrite Z.mod_mod_divide; [by apply Z.mod_mul|]. rewrite Hl. exists (2 ^ kb). lia. }
    pose proof (Z.mod_pos_bound ((B + blocks es) * 64) (zlen (sqBytes t)) ltac:(lia)). fold off in H1.
    destruct (len_mod_64 _ _ _ Hq). divlia. }
  unfold get_le. rewrite (slice_window (sqBytes t) off 8) by lia.
  cbn [mbind option_bind]. unfold off. rewrite window_mod. rewrite <- Hw.
  rewrite window_take by (unfold zlen in *; lia). done.
Qed.

(** Patching a byte of the newest entry. *)
Lemma inv_patch kb ks kf B H es e t x y since :
  tx_inv kb ks kf B H (es ++ [e]) t -> 12 <= zlen (e_bytes e) -> e_bytes e !! 11%nat = Some x ->
  get_at (((B + blocks es) * 64 + 11) mod zlen (sqBytes t)) (sqBytes t) = Some x /\
  tx_inv kb ks kf B H (es ++ [mkEntry (e_descs e) (e_blocks e) (<[11%nat := y]> (e_bytes e))])
    (with_sq (<[Z.to_nat (((B + blocks es) * 64 + 11) mod zlen (sqBytes t)) := y]> (sqBytes t)) since t).
Proof.
  intros Hinv H12 Hx. pose proof (inv_pows _ _ _ _ _ _ _ Hinv).
  destruct Hinv as [Hp Hsq Hme Hsl Hh Hpi Hsh Hst Hr Hes Hw Hl Hmt].
  rewrite blocks_app in Hr, Hpi. cbn [blocks] in Hr, Hpi. apply laid_app in Hl as [Hl1 Hl2].
  cbn [laid] in Hl2. destruct Hl2 as (Hm2 & Hw2 & _).
  apply Forall_app in Hes as [Hes1 Hes2]. apply Forall_cons_iff in Hes2 as [He _]. destruct (He) as [He1 He2 He3 He4 He5].
  pose proof (entries_counts _ _ Hes1) as [Hb _]. pose proof (zlen_nonneg es).
  assert (Ho : forall b, outstanding (es ++ [mkEntry (e_descs e) (e_blocks e) b]) = outstanding (es ++ [e])).
  { intros. by rewrite !outstanding_app, !outstanding_one. }
  split.
  - rewrite get_at_cell by lia. f_equal. apply (f_equal (fun l => l !! 11%nat)) in Hw2. rewrite Hx in Hw2.
    unfold window in Hw2. rewrite list_lookup_fmap, lookup_seq_lt in Hw2 by (unfold zlen in *; lia).
    simpl in Hw2. by injection Hw2.
  - split; simpl; rewrite ?Ho, ?blocks_app; cbn [blocks e_blocks]; try done.
    + by rewrite zlen_insert.
    + apply Forall_app. split; [done|]. constructor; [|done]. split; simpl; try done; [by rewrite zlen_insert|].
      destruct He5 as (ds & Hds & Eb). exists ds. by rewrite list_lookup_insert_ne.
    + apply laid_app. split.
      * eapply laid_ext; [exact Hes1|done| |exact Hl1]. intros i Hi. apply cell_insert_live. lia.
      * cbn [laid e_descs e_blocks e_bytes]. split_and!; [done| |done]. rewrite length_insert.
        change 11 with (Z.of_nat 11). rewrite window_insert_inside by (unfold zlen in *; lia). by rewrite Hw2.
Qed.
