(* ===== verification/RingTxPost.v ===== *)
(** [Post] on a queue without multi-packet entries: which descriptors it
    takes, what it writes for them and what it publishes. *)

From stdpp Require Import prelude list numbers strings.
From S2P Require Import Prelude Circ Bytes Desc Sq Send Mpw Cqe RingTx RingTxInv.

(** The descriptors before the first one [descOK] refuses. *)
Fixpoint accepted (p : TxParams) (descs : list Desc) : list Desc :=
  match descs with
  | [] => []
  | d :: ds => if descOK p d then d :: accepted p ds else []
  end.

(** At least one byte, inside one frame of [2^kf] bytes, inside the region. *)
Definition in_one_frame (kf regionLen : Z) (d : Desc) : Prop :=
  1 <= Len d /\ Addr d mod 2 ^ kf + Len d <= 2 ^ kf /\ Addr d + Len d <= regionLen.

Definition wants_signal (p : TxParams) (since : Z) (final : bool) : bool :=
  final || (negb (signalEvery p =? 0) && (u32 (since + 1) >=? signalEvery p)).

(** The entry an ordinary SEND makes of a packet, at block [b]. *)
Definition single (p : TxParams) (b : Z) (d : Desc) (f : list Z) (sg : bool) : entry :=
  mkEntry [d] (send_bbs (sender p) f) (send_entry (sender p) (u16 b) f (u64 (regionVA p + Addr d)) sg).

Definition is_nil {A} (l : list A) : bool := match l with [] => true | _ => false end.

(** The entries [Post] makes of a batch, from block [b] on. *)
Fixpoint batch_entries (p : TxParams) (region : list Z) (b since : Z) (descs : list Desc) : list entry :=
  match descs with
  | [] => []
  | d :: ds =>
      if descOK p d then
        let f := default [] (frame_of region d) in
        let sg := wants_signal p since (is_nil ds) in
        let e := single p b d f sg in
        e :: batch_entries p region (b + e_blocks e) (if sg then 0 else u32 (since + 1)) ds
      else []
  end.

Lemma descOK_spec kb ks kf p d :
  par_ok kb ks kf p -> desc_ok d -> descOK p d = true <-> in_one_frame kf (regionLen p) d.
Proof.
  intros [_ _ _ _ _ _ _ _ _ _ Hkf Hm [Hr Hmod] _] (Ha & Hl & _). unfold descOK, in_one_frame. rewrite Hm.
  assert (Hp : 0 < 2 ^ kf <= 2 ^ 32) by (split; [lia|apply Z.pow_le_mono_r; lia]).
  replace (2 ^ kf - 1 + 1) with (2 ^ kf) by lia. rewrite land_ones_mod by lia.
  pose proof (Z.mod_pos_bound (Addr d) (2 ^ kf) ltac:(lia)) as Hb.
  rewrite (u64_small (2 ^ kf - _)) by lia. rewrite andb_true_iff, !Z.ltb_lt.
  assert (Hin : Addr d < regionLen p -> Addr d - Addr d mod 2 ^ kf + 2 ^ kf <= regionLen p).
  { intros H. pose proof (Z.div_mod (Addr d) (2 ^ kf) ltac:(lia)) as E1.
    pose proof (Z.div_mod (regionLen p) (2 ^ kf) ltac:(lia)) as E2. rewrite Hmod in E2.
    assert (Addr d / 2 ^ kf < regionLen p / 2 ^ kf) by nia. nia. }
  destruct (decide (Len d = 0)) as [E|E].
  - rewrite E. change (u64 (0 - 1)) with (2 ^ 64 - 1). lia.
  - rewrite u64_small by lia. lia.
Qed.

Lemma accepted_prefix p descs : exists rest, descs = accepted p descs ++ rest /\
  Forall (fun d => descOK p d = true) (accepted p descs) /\
  match rest with [] => True | d :: _ => descOK p d = false end.
Proof.
  induction descs as [|d ds (rest & E & Hf & Hr)]; simpl; [by exists []|].
  destruct (descOK p d) eqn:Ed; [|exists (d :: ds); done].
  exists rest. split_and!; [simpl; congruence|by constructor|done].
Qed.

Lemma accepted_all p descs : Forall (fun d => descOK p d = true) descs -> accepted p descs = descs.
Proof. induction 1 as [|d ds Hd _ IH]; simpl; [done|]. by rewrite Hd, IH. Qed.

Lemma frame_of_ok kb ks kf p region d :
  par_ok kb ks kf p -> desc_ok d -> zlen region = regionLen p -> descOK p d = true ->
  exists f, frame_of region d = Some f /\ zlen f = Len d.
Proof.
  intros Hp Hd Hr Hok. apply (descOK_spec _ _ _ _ _ Hp Hd) in Hok as (H1 & _ & H3).
  destruct (Hd) as (Ha & _). destruct Hp as [_ _ _ _ _ _ _ _ _ _ _ _ [Hr1 _] _].
  unfold frame_of. rewrite u64_small by lia. rewrite slice_Some by lia. eexists. split; [done|].
  rewrite zlen_take, zlen_drop; lia.
Qed.

Lemma outstanding_batch p region : forall descs b since,
  outstanding (batch_entries p region b since descs) = accepted p descs.
Proof.
  induction descs as [|d ds IH]; intros b since; [done|]. simpl. destruct (descOK p d); [|done].
  unfold outstanding in *. cbn [map concat e_descs single app]. by rewrite IH.
Qed.

Lemma length_batch p region : forall descs b since,
  length (batch_entries p region b since descs) = length (accepted p descs).
Proof.
  induction descs as [|d ds IH]; intros b since; [done|]. simpl. destruct (descOK p d); [|done]. simpl. by rewrite IH.
Qed.

Definition total_len (ds : list Desc) (n : Z) : Z := foldl (fun n d => u64 (n + Len d)) n ds.

(** The block of the last entry of a list that starts at block [b]. *)
Definition last_block (b : Z) (new : list entry) : Z := b + blocks (removelast new).

Section post.
Context (kb ks kf B H : Z) (region : list Z).

Lemma single_ok es t d sg f :
  tx_inv kb ks kf B H es t -> zlen f = Len d -> desc_ok d ->
  entry_ok (par t) (single (par t) (B + blocks es) d f sg) /\
  e_blocks (single (par t) (B + blocks es) d f sg) <= maxBBs (par t).
Proof.
  intros Hinv Hf Hd. pose proof (inv_sq_ok _ _ _ _ _ _ _ Hinv) as Hq.
  destruct Hinv as [Hp _ _ _ _ _ _ _ _ _ _ _ _].
  destruct (send_sizes _ _ _ f (po_sender _ _ _ _ Hp) Hq) as (_ & _ & _ & Hds & Hm & Hb & _).
  rewrite (po_maxBBs _ _ _ _ Hp). simpl. split; [|lia].
  split; cbn [single e_descs e_blocks e_bytes]; [done| |rewrite (zlen_send_entry _ _ _ _ (po_sender _ _ _ _ Hp) Hq); unfold send_bbs; divlia| |].
  - unfold send_bbs in *. divlia.
  - unfold per_block, zlen. simpl. destruct (mpw (par t)); lia.
  - exists (send_ds (sender (par t)) f). unfold send_entry, send_bbs. rewrite ctrl_ds by lia. split; [done|f_equal; lia].
Qed.

Lemma post_one_spec es t d final :
  tx_inv kb ks kf B H es t -> zlen region = regionLen (par t) -> desc_ok d -> descOK (par t) d = true ->
  blocks es + maxBBs (par t) <= 2 ^ kb ->
  let sg := wants_signal (par t) (sinceSignal t) final in
  let e := single (par t) (B + blocks es) d (default [] (frame_of region d)) sg in
  exists t', post_one region final d t = Some t' /\ tx_inv kb ks kf B H (es ++ [e]) t' /\
    e_blocks e <= maxBBs (par t) /\
    (par t', ci t', failed t', cqDbrec t', sqDbrec t') = (par t, ci t, failed t, cqDbrec t, sqDbrec t) /\
    (uar t', c t', sincePublish t', Stats t', sinceSignal t', head t', slotHead t') =
    (uar t, c t, sincePublish t, Stats t, (if sg then 0 else u32 (sinceSignal t + 1)), head t, slotHead t).
Proof.
  intros Hinv Hr Hd Hok Hroom sg e. pose proof (inv_sq_ok _ _ _ _ _ _ _ Hinv) as Hq.
  pose proof (ti_par _ _ _ _ _ _ _ Hinv) as Hp.
  destruct (frame_of_ok _ _ _ _ _ _ Hp Hd Hr Hok) as (f & Hf & Hlen).
  destruct (single_ok es t d sg f Hinv Hlen Hd) as [He Hb].
  unfold post_one. rewrite Hf. cbn [mbind option_bind]. fold (wants_signal (par t) (sinceSignal t) final). fold sg.
  rewrite (Put_entry (kb + 6)) by first [done|exact (po_sender _ _ _ _ Hp)|destruct Hd as (_ & ? & _); lia]. cbn [mbind option_bind].
  assert (Ee : e = single (par t) (B + blocks es) d f sg) by (unfold e; by rewrite Hf).
  destruct (inv_push _ _ _ _ _ _ _ Hinv e (if sg then 0 else u32 (sinceSignal t + 1))) as (t1 & t2 & E1 & E2 & Hi & Hs1 & Hs2 & _).
  { by rewrite Ee. } { rewrite Ee. lia. }
  exists t2. split; [|rewrite Ee at 2; done]. rewrite Ee in E1, E2. unfold single in E1, E2. simpl in E1, E2.
  assert (Hu : u16 (B + blocks es) = u16 (pi t)).
  { rewrite (ti_pi _ _ _ _ _ _ _ Hinv). unfold u16, u32. rewrite mod_mod_pow2 by lia. done. }
  rewrite Hu in E1. unfold foldM in E1. match goal with |- context [put_slot ?X d] => match type of E1 with context [put_slot ?Y d] => constr_eq X Y end end.
  destruct (put_slot _ d) as [t1'|]; [|done]. simpl in *. by injection E1 as ->.
Qed.

Lemma last_block_cons b e new : new <> [] -> last_block b (e :: new) = last_block (b + e_blocks e) new.
Proof. intros Hn. unfold last_block. destruct new; [done|]. cbn [removelast blocks]. lia. Qed.

(** A refused descriptor is counted. *)
Definition count_bad (refused : bool) (c : counters) : counters := if refused then inc_badDesc c else c.

Definition refuses (p : TxParams) (descs : list Desc) : bool := (length (accepted p descs) <? length descs)%nat.

Lemma refuses_cons p d ds : descOK p d = true -> refuses p (d :: ds) = refuses p ds.
Proof. intros E. unfold refuses. simpl. rewrite E. done. Qed.

Lemma post_loop_spec : forall descs es t bt,
  tx_inv kb ks kf B H es t -> zlen region = regionLen (par t) -> Forall desc_ok descs ->
  blocks es + maxBBs (par t) * zlen descs <= 2 ^ kb -> 1 <= maxBBs (par t) ->
  let new := batch_entries (par t) region (B + blocks es) (sinceSignal t) descs in
  exists t',
    post_loop region descs bt t =
      Some (mkBatch (b_posted bt + zlen new) (total_len (accepted (par t) descs) (b_bytes bt))
              (if is_nil new then b_lastIdx bt else u16 (last_block (B + blocks es) new)), t') /\
    tx_inv kb ks kf B H (es ++ new) t' /\ c t' = count_bad (refuses (par t) descs) (c t) /\
    (par t', ci t', failed t', cqDbrec t', head t', slotHead t') = (par t, ci t, failed t, cqDbrec t, head t, slotHead t).
Proof.
  induction descs as [|d ds IH]; intros es t bt Hinv Hr Hds Hroom Hmax new.
  { exists t. unfold new. simpl. rewrite Z.add_0_r, app_nil_r. by destruct bt. }
  apply Forall_cons_iff in Hds as [Hd Hds]. rewrite zlen_cons in Hroom. pose proof (zlen_nonneg ds).
  cbn [post_loop]. unfold new. cbn [batch_entries]. destruct (descOK (par t) d) eqn:Hok; simpl negb.
  2: { exists (with_counters inc_badDesc t). unfold refuses. simpl. rewrite Hok, Z.add_0_r, app_nil_r. simpl.
       split; [by destruct bt|]. split; [by destruct Hinv; split|done]. }
  destruct (post_one_spec es t d (is_nil ds) Hinv Hr Hd Hok) as (t1 & E1 & Hi & Hb & Hs1 & Hs2); [nia|].
  change (match ds with [] => true | _ :: _ => false end) with (is_nil ds). rewrite E1. cbn [mbind option_bind].
  cbv zeta. set (sg := wants_signal _ _ _) in *. set (e := single _ _ _ _ sg) in *. clearbody e.
  injection Hs1 as Hp1 Hc1 Hf1 Hcd1 _. injection Hs2 as _ Hc _ _ Hss Hh Hsh.
  destruct (IH (es ++ [e]) t1 (mkBatch (b_posted bt + 1) (u64 (b_bytes bt + Len d)) (u16 (pi t)))) as (t' & E & Hi' & Hct & Hs');
    try done; try (rewrite ?Hp1; done).
  { rewrite Hp1, blocks_app. cbn [blocks]. nia. }
  rewrite blocks_app in *. cbn [blocks] in *. rewrite Hp1, Hss in *. rewrite Z.add_0_r, Z.add_assoc in *.
  exists t'. split; [|split; [|split]].
  - rewrite E. f_equal. f_equal. rewrite zlen_cons. f_equal.
    + simpl. lia.
    + simpl. by rewrite Hok.
    + set (rest := batch_entries _ _ _ _ ds). simpl is_nil. destruct (is_nil rest) eqn:En.
      * destruct rest; [|done]. simpl. unfold last_block. simpl. rewrite Z.add_0_r, (ti_pi _ _ _ _ _ _ _ Hinv).
        unfold u16, u32. rewrite mod_mod_pow2 by lia. done.
      * rewrite last_block_cons by (intros Hnil; by rewrite Hnil in En). done.
  - by rewrite <- app_assoc in Hi'.
  - rewrite Hct, Hc, refuses_cons by done. done.
  - rewrite Hs'. congruence.
Qed.
End post.

Lemma FreeSlots_single kb ks kf B H es t :
  tx_inv kb ks kf B H es t -> mpw (par t) = None -> failed t = None ->
  FreeSlots t = (2 ^ kb - blocks es) / maxBBs (par t).
Proof. intros Hinv Hm Hf. unfold FreeSlots. rewrite Hm, Hf, (inv_free _ _ _ _ _ _ _ Hinv). done. Qed.

Lemma maxBBs_pos kb ks kf p : par_ok kb ks kf p -> 1 <= maxBBs p <= 2 ^ kb.
Proof.
  intros [_ _ _ _ _ _ (Hi & Hds & Hm & Hb & Hbb & _) Hs _ -> _ _ _ _]. unfold MaxDS in *. rewrite <- Hs. split; [divlia|lia].
Qed.

Lemma removelast_snoc {A} (l : list A) : l <> [] -> exists x, l = removelast l ++ [x].
Proof. intros Hn. destruct (exists_last Hn) as (l' & x & ->). exists x. by rewrite removelast_last. Qed.

Lemma batch_bytes p region k buf : sender_ok (sender p) -> sq_ok k (s_sq (sender p)) buf -> forall descs b since,
  Forall (fun e => 32 <= zlen (e_bytes e)) (batch_entries p region b since descs).
Proof.
  intros Hs Hq. induction descs as [|d ds IH]; intros b since; simpl; [constructor|].
  destruct (descOK p d); [|constructor]. constructor; [|apply IH].
  set (f := default [] (frame_of region d)). simpl. rewrite (zlen_send_entry k _ buf) by done.
  destruct (send_sizes k _ buf f Hs Hq). lia.
Qed.

(** What a batch publishes: the producer index in the doorbell record, the
    first eight bytes of its last entry in the register; nothing if it is
    empty. *)
Definition published (t t' : Tx) (B : Z) (es new : list entry) : Prop :=
  match new with
  | [] => sqDbrec t' = sqDbrec t /\ uar t' = uar t
  | _ => exists e, new = removelast new ++ [e] /\
           sqDbrec t' = be32_native (u16 (B + blocks (es ++ new))) /\ uar t' = le_val (take 8 (e_bytes e))
  end.

Lemma pi_low16 x : Z.land (u32 x) 0xffff = u16 x.
Proof. change 0xffff with (2 ^ 16 - 1). rewrite u32_land_mask by lia. done. Qed.

Section theorem.
Context (kb ks kf B H : Z) (es : list entry) (t : Tx) (region : list Z).
Context (Hinv : tx_inv kb ks kf B H es t) (Hm : mpw (par t) = None) (Hf : failed t = None)
        (Hr : zlen region = regionLen (par t)).

Lemma Post_batch descs :
  Forall desc_ok descs -> 0 < zlen descs <= FreeSlots t ->
  let new := batch_entries (par t) region (B + blocks es) (sinceSignal t) descs in
  exists t', Post region descs t = Some (zlen new, t') /\ tx_inv kb ks kf B H (es ++ new) t' /\ published t t' B es new /\
    (par t', ci t', cqDbrec t', failed t') = (par t, ci t, cqDbrec t, None).
Proof using Hinv Hm Hf Hr.
  intros Hds Hn new. pose proof (ti_par _ _ _ _ _ _ _ Hinv) as Hp. pose proof (maxBBs_pos _ _ _ _ Hp) as Hmax.
  rewrite (FreeSlots_single _ _ _ _ _ _ _ Hinv Hm Hf) in Hn.
  assert (Hroom : blocks es + maxBBs (par t) * zlen descs <= 2 ^ kb).
  { pose proof (Z.mul_div_le (2 ^ kb - blocks es) (maxBBs (par t)) ltac:(lia)). nia. }
  unfold Post. rewrite Hf, (FreeSlots_single _ _ _ _ _ _ _ Hinv Hm Hf), Z.gtb_ltb.
  rewrite (proj2 (Z.ltb_ge _ (zlen descs))) by lia. cbn [andb]. rewrite (proj2 (Z.eqb_neq (zlen descs) 0)) by lia.
  rewrite slice_Some by lia. rewrite Z.sub_0_r, drop_0, firstn_all2 by (unfold zlen; lia). cbn [mbind option_bind]. rewrite Hm.
  destruct (post_loop_spec kb ks kf B H region descs es t (mkBatch 0 0 0)) as (t1 & E & Hi & Hc & Hs); try done; [lia|].
  fold new in E, Hi. rewrite E. cbn [mbind option_bind b_posted b_bytes b_lastIdx]. rewrite Z.add_0_l.
  assert (Hfields : forall t2, (par t2, ci t2, failed t2, cqDbrec t2) = (par t1, ci t1, failed t1, cqDbrec t1) ->
    (par t2, ci t2, cqDbrec t2, failed t2) = (par t, ci t, cqDbrec t, None)).
  { injection Hs as Q1 Q2 Q3 Q4 Q5 Q6. intros t2 [= -> -> -> ->]. congruence. }
  destruct (decide (new = [])) as [En|En].
  - rewrite En in *. simpl. eexists. split; [done|]. split; [by eapply tx_inv_same|]. split; [|by apply Hfields].
    (* An empty batch stopped at its first descriptor. *)
    destruct descs as [|d ds]; [simpl in Hn; unfold zlen in Hn; simpl in Hn; lia|].
    unfold new in En. simpl in En. cbn [post_loop] in E. destruct (descOK (par t) d); [done|]. simpl in E.
    injection E as _ <-. done.
  - destruct (removelast_snoc new En) as (e & Ee).
    assert (H0 : zlen new <> 0) by (destruct new; [done|]; rewrite zlen_cons; pose proof (zlen_nonneg new); lia).
    rewrite (proj2 (Z.eqb_neq (zlen new) 0)) by done.
    replace (is_nil new) with false by (by destruct new).
    unfold Sender_FirstOctoword, last_block. rewrite <- Z.add_assoc, <- blocks_app.
    assert (H8 : 32 <= zlen (e_bytes e)).
    { pose proof (batch_bytes (par t) region _ _ (po_sender _ _ _ _ Hp) (inv_sq_ok _ _ _ _ _ _ _ Hinv) descs
        (B + blocks es) (sinceSignal t)) as HF. fold new in HF. rewrite Ee in HF. apply Forall_app in HF as [_ HF].
      by apply Forall_cons_iff in HF as [? _]. }
    rewrite (first_octoword kb ks kf B H (es ++ removelast new) e [] t1)
      by (rewrite <- ?app_assoc, <- ?Ee; done || lia).
    cbn [mbind option_bind]. eexists. split; [done|].
    assert (Htick : forall t2, par (tick t2) = par t2 /\ ci (tick t2) = ci t2 /\ failed (tick t2) = failed t2 /\
      cqDbrec (tick t2) = cqDbrec t2 /\ sqDbrec (tick t2) = sqDbrec t2 /\ uar (tick t2) = uar t2 /\
      (par (tick t2), sqBytes (tick t2), meta (tick t2), slots (tick t2)) = (par t2, sqBytes t2, meta t2, slots t2) /\
      (head (tick t2), pi (tick t2), slotHead (tick t2), slotTail (tick t2)) = (head t2, pi t2, slotHead t2, slotTail t2)).
    { intros t2. unfold tick. by destruct (_ >=? _). }
    match goal with |- context [tick ?x] => set (t2 := x); destruct (Htick t2) as (T1 & T2 & T3 & T4 & T5 & T6 & T7 & T8) end.
    split; [by eapply tx_inv_same; [exact Hi|rewrite T7|rewrite T8]|]. split.
    + unfold published. destruct new as [|e0 new'] eqn:Enew; [done|]. exists e. rewrite <- Enew in *. split; [done|].
      rewrite T5, T6. simpl. rewrite (ti_pi _ _ _ _ _ _ _ Hi), pi_low16. done.
    + apply Hfields. by rewrite T1, T2, T3, T4.
Qed.
End theorem.
