(* ===== verification/RingTxMulti.v ===== *)
(** [postMulti]: batches on a queue whose entries carry several packets. *)

From stdpp Require Import prelude list numbers strings.
From S2P Require Import Prelude Circ Bytes Desc Sq Send Mpw Cqe RingTx RingTxInv RingTxPost.

Definition frames_of (region : list Z) (ds : list Desc) (fs : list (list Z)) : Prop :=
  Forall2 (fun d f => frame_of region d = Some f) ds fs.

Definition device_addr (p : TxParams) (d : Desc) : Z := u64 (regionVA p + Addr d).

(** The entries a round can make at block [b]: an ordinary one, one that
    points at its packets, one that has them copied in. *)
Inductive made (p : TxParams) (m : MPWSender) (region : list Z) (b : Z) (sg : bool) : entry -> Prop :=
| made_single d f :
    descOK p d = true -> frame_of region d = Some f -> made p m region b sg (single p b d f sg)
| made_pointers ds fs :
    Forall (fun d => descOK p d = true) ds -> Pointer m = true -> frames_of region ds fs -> can_share m fs -> 2 <= zlen fs ->
    made p m region b sg
      (mkEntry ds (((2 + zlen fs) * 16 + 63) / 64) (ptr_entry m (u16 b) fs (map (device_addr p) ds) sg))
| made_copies ds fs :
    Forall (fun d => descOK p d = true) ds -> Pointer m = false -> frames_of region ds fs -> can_share m fs -> 2 <= zlen fs ->
    made p m region b sg
      (mkEntry ds (((2 + octs_all fs) * 16 + 63) / 64) (mpw_entry m (u16 b) fs sg)).

(** Every entry of a batch was made at its own block. *)
Fixpoint all_made (p : TxParams) (m : MPWSender) (region : list Z) (b : Z) (es : list entry) : Prop :=
  match es with
  | [] => True
  | e :: es => made p m region b false e /\ all_made p m region (b + e_blocks e) es
  end.

Lemma all_made_app p m region es' : forall es b,
  all_made p m region b (es ++ es') <-> all_made p m region b es /\ all_made p m region (b + blocks es) es'.
Proof.
  induction es as [|e es IH]; intros b; simpl; [rewrite Z.add_0_r; tauto|]. rewrite IH, Z.add_assoc. tauto.
Qed.

Lemma frames_of_len region ds fs : frames_of region ds fs -> zlen fs = zlen ds.
Proof. intros H. unfold zlen. by rewrite (Forall2_length _ _ _ H). Qed.

Lemma frames_of_take region ds fs n : frames_of region ds fs -> frames_of region (take n ds) (take n fs).
Proof. apply Forall2_take. Qed.

(** ** Gathering *)

Lemma gather_spec region ptr : forall gd i g t kb ks kf,
  par_ok kb ks kf (par t) -> zlen region = regionLen (par t) -> Forall desc_ok gd -> i <= g_checked g ->
  (forall (n : nat) d, gd !! n = Some d -> i + Z.of_nat n < g_checked g -> descOK (par t) d = true) ->
  exists fs, frames_of region (accepted (par t) gd) fs /\
    gather region ptr gd i g t =
      Some (mkGathered (g_frames g ++ fs)
              (if ptr then g_paddrs g ++ map (device_addr (par t)) (accepted (par t) gd) else g_paddrs g)
              (g_bad g || refuses (par t) gd) (Z.max (g_checked g) (i + zlen (accepted (par t) gd))),
            with_counters (count_bad (refuses (par t) gd)) t).
Proof.
  induction gd as [|d gd IH]; intros i g t kb ks kf Hp Hr Hds Hi Hok.
  - exists []. split; [constructor|]. cbn [gather accepted map]. rewrite zlen_nil, Z.add_0_r, !app_nil_r.
    rewrite Z.max_l by lia. unfold refuses. simpl. rewrite orb_false_r. destruct ptr, g, t; done.
  - apply Forall_cons_iff in Hds as [Hd Hds]. cbn [gather accepted].
    destruct (descOK (par t) d) eqn:E.
    + rewrite andb_false_r. destruct (frame_of_ok _ _ _ _ _ _ Hp Hd Hr E) as (f & Hf & _). rewrite Hf. cbn [mbind option_bind].
      destruct (IH (i + 1) (mkGathered (g_frames g ++ [f])
        (if ptr then g_paddrs g ++ [u64 (regionVA (par t) + Addr d)] else g_paddrs g) (g_bad g)
        (if i >=? g_checked g then i + 1 else g_checked g)) t kb ks kf) as (fs & Hfs & ->); try done.
      { simpl. destruct (Z.geb_spec i (g_checked g)); lia. }
      { simpl. intros n d' Hn Hlt. apply (Hok (S n)); [done|]. destruct (Z.geb_spec i (g_checked g)); lia. }
      exists (f :: fs). split; [by constructor|]. rewrite (refuses_cons _ _ _ E).
      cbn [g_frames g_paddrs g_bad g_checked]. rewrite <- app_assoc, zlen_cons. do 3 f_equal.
      * destruct ptr; [|done]. by rewrite <- app_assoc.
      * pose proof (zlen_nonneg (accepted (par t) gd)). destruct (Z.geb_spec i (g_checked g)); lia.
    + exists []. split; [constructor|].
      assert (Hge : i >= g_checked g).
      { destruct (decide (i < g_checked g)); [|lia]. rewrite (Hok 0%nat d) in E; [done|done|lia]. }
      rewrite (proj2 (Z.geb_le i _)) by lia. simpl. unfold refuses. simpl. rewrite E. simpl. rewrite orb_true_r, !app_nil_r.
      rewrite zlen_nil, Z.add_0_r, Z.max_l by lia. destruct ptr; done.
Qed.

(** ** One round *)

Lemma mpwBlocks_eq fs : 2 + octs_all fs < 2 ^ 27 -> mpwBlocks fs = ((2 + octs_all fs) * 16 + 63) / 64.
Proof.
  intros H. unfold mpwBlocks.
  change (foldl _ 2 fs) with (copied_ds fs). rewrite copied_ds_eq by done. pose proof (octs_all_nonneg fs).
  unfold Octoword, WQEBB. rewrite u32_small by lia. f_equal. lia.
Qed.

Lemma octs_all_len fs : zlen fs <= octs_all fs.
Proof.
  induction fs as [|f fs IH]; [unfold zlen; simpl; lia|]. rewrite zlen_cons. simpl. pose proof (octs_pos f). lia.
Qed.


Lemma frame_len kb ks kf p region d f :
  par_ok kb ks kf p -> zlen region = regionLen p -> desc_ok d -> descOK p d = true -> frame_of region d = Some f ->
  zlen f = Len d /\ 0 < zlen f < 2 ^ 32.
Proof.
  intros Hp Hr Hd Hok Hf. destruct (frame_of_ok _ _ _ _ _ _ Hp Hd Hr Hok) as (f' & Hf' & Hl).
  rewrite Hf in Hf'. injection Hf' as <-. apply (descOK_spec _ _ _ _ _ Hp Hd) in Hok as (? & _).
  destruct Hd as (_ & ? & _). lia.
Qed.

Lemma frames_len kb ks kf p region ds fs :
  par_ok kb ks kf p -> zlen region = regionLen p -> Forall desc_ok ds -> Forall (fun d => descOK p d = true) ds ->
  frames_of region ds fs -> Forall (fun f => 0 < zlen f < 2 ^ 32) fs.
Proof.
  intros Hp Hr Hd Hok Hf. induction Hf as [|d f ds fs H1 _ IH]; [constructor|].
  apply Forall_cons_iff in Hd as [Hd1 Hd]. apply Forall_cons_iff in Hok as [Hok1 Hok].
  constructor; [by eapply frame_len|by apply IH].
Qed.

Section round.
Context (kb ks kf B H : Z) (region : list Z) (m : MPWSender).
Context (es : list entry) (t : Tx) (Hinv : tx_inv kb ks kf B H es t) (Hm : mpw (par t) = Some m)
        (Hr : zlen region = regionLen (par t)).

Lemma made_ok sg e :
  made (par t) m region (B + blocks es) sg e -> Forall desc_ok (e_descs e) -> entry_ok (par t) e /\ 32 <= zlen (e_bytes e).
Proof using Hinv Hm Hr.
  pose proof (inv_sq_ok _ _ _ _ _ _ _ Hinv) as Hq. pose proof (ti_par _ _ _ _ _ _ _ Hinv) as Hp.
  destruct (po_mpw _ _ _ _ Hp m Hm) as (Hok & _ & _). unfold mpw_ok, can_share, Pointer in *.
  intros [d f Hdok Hf|ds fs Hdok Hptr Hfs Hc H2|ds fs Hdok Hptr Hfs Hc H2] Hd; simpl in Hd.
  - apply Forall_cons_iff in Hd as [Hd _]. split.
    + apply (single_ok kb ks kf B H); [done|by eapply frame_len|done].
    + simpl. rewrite (zlen_send_entry _ _ _ _ (po_sender _ _ _ _ Hp) Hq).
      destruct (send_sizes _ _ _ f (po_sender _ _ _ _ Hp) Hq). lia.
  - unfold can_share, Pointer in *. rewrite Hptr in Hc, Hok. pose proof (frames_of_len _ _ _ Hfs) as Hl. destruct Hc as [Hc _].
    assert (Hzp : zlen (pointers (m_lkey m) fs (map (device_addr (par t)) ds)) = zlen fs * 16).
    { apply zlen_pointers. unfold zlen in *. rewrite length_map. lia. }
    unfold ptr_entry. split; [|cbn [e_bytes]; rewrite zlen_app, zlen_mpw_head; lia].
    split; cbn [e_descs e_blocks e_bytes]; rewrite ?zlen_app, ?zlen_mpw_head, ?Hzp; try lia; try divlia.
    + unfold per_block. rewrite Hm. divlia.
    + exists (2 + zlen fs). unfold mpw_head. rewrite <- app_assoc, ctrl_ds by lia. done.
  - unfold can_share, Pointer in *. rewrite Hptr in Hc, Hok. pose proof (frames_of_len _ _ _ Hfs) as Hl. destruct Hc as [Hc _].
    unfold MaxDS in Hc. pose proof (octs_all_len fs).
    unfold mpw_entry. split; [|cbn [e_bytes]; rewrite zlen_app, zlen_mpw_head, zlen_copied_all; lia].
    split; cbn [e_descs e_blocks e_bytes]; rewrite ?zlen_app, ?zlen_mpw_head, ?zlen_copied_all; try lia; try divlia.
    + unfold per_block. rewrite Hm. divlia.
    + exists (2 + octs_all fs). unfold mpw_head. rewrite <- app_assoc, ctrl_ds by lia. done.
Qed.

Lemma pi_idx : u16 (B + blocks es) = u16 (pi t).
Proof using Hinv. rewrite (ti_pi _ _ _ _ _ _ _ Hinv). unfold u16, u32. by rewrite mod_mod_pow2 by lia. Qed.

(** What a round does with [k] packets in [b] blocks: writes an entry made of
    the packets next in line, or finds that there is no room for it. *)
Definition round_result (acc : list Desc) (free k b : Z) (sq : list Z) : Prop :=
  ((b = 0 \/ free < b) /\ sq = sqBytes t) \/
  exists e, made (par t) m region (B + blocks es) false e /\ e_blocks e = b /\ e_descs e = take (Z.to_nat k) acc /\
    1 <= k <= zlen acc /\ b <= free /\ sq = cwrite (u16 (pi t) * 64) (e_bytes e) (sqBytes t).

Lemma put_pointers_round free acc fs n :
  Forall desc_ok acc -> Forall (fun d => descOK (par t) d = true) acc -> frames_of region acc fs ->
  Pointer m = true -> 2 <= Z.of_nat n -> (n <= length fs)%nat -> can_share m (take n fs) ->
  let b := ((2 + Z.of_nat n) * 16 + 63) / 64 in b <= free ->
  exists sq, MPWSender_PutPointers m (u16 (pi t)) (take n fs) (take n (map (device_addr (par t)) acc)) false (sqBytes t)
             = Some (b, sq) /\ round_result acc free (Z.of_nat n) b sq.
Proof using Hinv Hm Hr.
  intros Hd Hok Hfs Hptr H2 Hn Hshare b Hfree.
  pose proof (inv_sq_ok _ _ _ _ _ _ _ Hinv) as Hq. pose proof (ti_par _ _ _ _ _ _ _ Hinv) as Hp.
  destruct (po_mpw _ _ _ _ Hp m Hm) as (Hmok & Hmsq & _). rewrite <- Hmsq in Hq.
  pose proof (frames_of_len _ _ _ Hfs) as Hfl.
  assert (Hzt : zlen (take n fs) = Z.of_nat n) by (unfold zlen; rewrite length_take; lia).
  assert (Hza : zlen (take n acc) = Z.of_nat n) by (unfold zlen in *; rewrite length_take; lia).
  assert (Hn58 : Z.of_nat n <= 58).
  { unfold can_share, mpw_ok, Pointer in *. rewrite Hptr in Hshare, Hmok. lia. }
  rewrite firstn_map, (PutPointers_eq (kb + 6) m (sqBytes t) Hq).
  2: { unfold zlen in *. rewrite length_map. lia. }
  2: { apply Forall_take. eapply Forall_impl; [by eapply frames_len|]. simpl. lia. }
  2: { unfold MaxDS. lia. }
  rewrite Hzt. eexists. split; [done|]. right. eexists. split; [|split; [|split; [|split; [|split]]]].
  - apply (made_pointers _ _ _ _ _ (take n acc) (take n fs)); [by apply Forall_take|done|by apply frames_of_take|done|lia].
  - simpl. by rewrite Hzt.
  - simpl. by rewrite Nat2Z.id.
  - unfold zlen in *. lia.
  - done.
  - simpl. by rewrite pi_idx.
Qed.

Lemma put_copies_round free acc fs n :
  Forall (fun d => descOK (par t) d = true) acc -> frames_of region acc fs -> free <= 2 ^ kb ->
  Pointer m = false -> 2 <= Z.of_nat n -> (n <= length fs)%nat -> can_share m (take n fs) ->
  let b := ((2 + octs_all (take n fs)) * 16 + 63) / 64 in b <= free ->
  exists sq, MPWSender_Put m (u16 (pi t)) (take n fs) false (sqBytes t) = Some (b, sq) /\
    round_result acc free (Z.of_nat n) b sq.
Proof using Hinv Hm Hr.
  intros Hok Hfs Hkb Hptr H2 Hn Hshare b Hfree.
  pose proof (inv_sq_ok _ _ _ _ _ _ _ Hinv) as Hq. pose proof (ti_par _ _ _ _ _ _ _ Hinv) as Hp.
  destruct (po_mpw _ _ _ _ Hp m Hm) as (Hmok & Hmsq & _). rewrite <- Hmsq in Hq.
  pose proof (frames_of_len _ _ _ Hfs) as Hfl. pose proof (octs_all_nonneg (take n fs)).
  assert (Hzt : zlen (take n fs) = Z.of_nat n) by (unfold zlen; rewrite length_take; lia).
  rewrite (MPWSender_Put_eq (kb + 6) m (sqBytes t) Hq).
  2: { unfold can_share, Pointer in *. rewrite Hptr in Hshare. lia. }
  2: { rewrite (ti_sq _ _ _ _ _ _ _ Hinv). unfold b in *. divlia. }
  eexists. split; [done|]. right. eexists. split; [|split; [|split; [|split; [|split]]]].
  - apply (made_copies _ _ _ _ _ (take n acc) (take n fs)); [by apply Forall_take|done|by apply frames_of_take|done|lia].
  - done.
  - simpl. by rewrite Nat2Z.id.
  - unfold zlen in *. lia.
  - done.
  - simpl. by rewrite pi_idx.
Qed.

Lemma put_single_round free d ds :
  desc_ok d -> descOK (par t) d = true -> maxBBs (par t) <= free ->
  exists f b sq, frame_of region d = Some f /\
    Sender_Put (sender (par t)) (u16 (pi t)) f (u64 (regionVA (par t) + Addr d)) false (sqBytes t) = Some (b, sq) /\
    1 <= b <= maxBBs (par t) /\ round_result (d :: ds) free 1 b sq.
Proof using Hinv Hm Hr.
  intros Hd Hok Hfree. pose proof (inv_sq_ok _ _ _ _ _ _ _ Hinv) as Hq. pose proof (ti_par _ _ _ _ _ _ _ Hinv) as Hp.
  destruct (frame_of_ok _ _ _ _ _ _ Hp Hd Hr Hok) as (f & Hf & Hl).
  destruct (single_ok kb ks kf B H es t d false f Hinv Hl Hd) as [[_ Hb1 _ _ _] Hb2].
  exists f. rewrite (Put_entry (kb + 6)) by first [done|exact (po_sender _ _ _ _ Hp)|destruct Hd as (_ & ? & _); lia].
  eexists _, _. split; [done|]. split; [done|]. split; [simpl in *; lia|].
  right. exists (single (par t) (B + blocks es) d f false). split; [by constructor|]. split; [done|]. split; [done|].
  split; [rewrite zlen_cons; pose proof (zlen_nonneg ds); lia|]. split; [simpl in *; lia|]. simpl. by rewrite pi_idx.
Qed.

(** How many packets a round takes, and whether it finds room for them. *)
Definition round_size (fs : list (list Z)) (free k b : Z) : Prop :=
  (2 <= Fits m fs /\ k = Fits m fs /\
   b = ((2 + if Pointer m then k else octs_all (take (Z.to_nat k) fs)) * 16 + 63) / 64) \/
  (Fits m fs < 2 /\ k = 1 /\ (maxBBs (par t) <= free -> 1 <= b <= maxBBs (par t))).

Lemma put_round_spec descs posted free acc fs pa bad chk :
  Forall desc_ok descs -> 0 <= posted -> free <= 2 ^ kb ->
  acc <> [] -> acc `prefix_of` drop (Z.to_nat posted) descs -> Forall (fun d => descOK (par t) d = true) acc ->
  frames_of region acc fs -> (Pointer m = true -> pa = map (device_addr (par t)) acc) ->
  exists k b sq, put_round region m descs posted free (mkGathered fs pa bad chk) t = Some (k, b, sq) /\
    round_result acc free k b sq /\ round_size fs free k b.
Proof using Hinv Hm Hr.
  intros Hds Hpo Hfree Hne [rest Hpre] Hok Hfs Epa. pose proof (ti_par _ _ _ _ _ _ _ Hinv) as Hp.
  destruct (po_mpw _ _ _ _ Hp m Hm) as (Hmok & _ & _).
  destruct (Fits_prefix m fs Hmok) as (n & En & Hn & Hshare & _).
  assert (Hdacc : Forall desc_ok acc).
  { pose proof (Forall_drop _ (Z.to_nat posted) _ Hds) as HF. rewrite Hpre in HF. by apply Forall_app in HF as [? _]. }
  unfold put_round, round_size. cbn [g_frames g_paddrs]. rewrite En, Nat2Z.id.
  destruct (Z.geb_spec (Z.of_nat n) 2) as [H2|H2]; cbn [andb]; [destruct (Pointer m) eqn:Hptr|].
  - assert (Hn58 : Z.of_nat n <= 58).
    { unfold can_share, mpw_ok, Pointer in *. rewrite Hptr in Hshare, Hmok. unfold zlen in Hshare. rewrite length_take in Hshare. lia. }
    assert (Hb : u32 (u32 (2 + Z.of_nat n) * Octoword + WQEBB - 1) / WQEBB = ((2 + Z.of_nat n) * 16 + 63) / 64).
    { unfold Octoword, WQEBB. rewrite (u32_small (2 + Z.of_nat n)), u32_small by lia. f_equal. lia. }
    rewrite Hb, (Epa eq_refl). destruct (Z.gtb_spec (((2 + Z.of_nat n) * 16 + 63) / 64) free).
    + eexists _, _, _. split; [done|]. split; [left; split; [right; lia|done]|]. left. rewrite ?Nat2Z.id. split_and!; done.
    + destruct (put_pointers_round free acc fs n) as (sq & -> & Hres); try done.
      cbn [mbind option_bind]. eexists _, _, _. split; [done|]. split; [done|]. left. rewrite ?Nat2Z.id. split_and!; done.
  - assert (Hb : mpwBlocks (take n fs) = ((2 + octs_all (take n fs)) * 16 + 63) / 64).
    { apply mpwBlocks_eq. unfold can_share, Pointer, MaxDS in *. rewrite Hptr in Hshare. lia. }
    rewrite Hb. destruct (Z.gtb_spec (((2 + octs_all (take n fs)) * 16 + 63) / 64) free).
    + eexists _, _, _. split; [done|]. split; [left; split; [right; lia|done]|]. left. rewrite ?Nat2Z.id. split_and!; done.
    + destruct (put_copies_round free acc fs n) as (sq & -> & Hres); try done.
      cbn [mbind option_bind]. eexists _, _, _. split; [done|]. split; [done|]. left. rewrite ?Nat2Z.id. split_and!; done.
  - destruct acc as [|d acc']; [done|].
    assert (Hlk : descs !! Z.to_nat posted = Some d).
    { rewrite <- (Nat.add_0_r (Z.to_nat posted)), <- lookup_drop, Hpre. done. }
    assert (Hlt : posted < zlen descs) by (apply lookup_lt_Some in Hlk; unfold zlen; lia).
    rewrite (proj2 (Z.ltb_lt _ _) Hlt), get_at_lookup, Hlk by lia. cbn [mbind option_bind].
    apply Forall_cons_iff in Hdacc as [Hd1 _]. apply Forall_cons_iff in Hok as [Hok1 _].
    destruct (Z.gtb_spec (maxBBs (par t)) free).
    + eexists _, _, _. split; [done|]. split; [left; split; [by left|done]|]. right. split_and!; [done|done|lia].
    + destruct (put_single_round free d acc') as (f & b & sq & Hf & Hput & Hb1 & Hres); try done.
      rewrite Hf. cbn [mbind option_bind]. rewrite Hput. cbn [mbind option_bind].
      eexists _, _, _. split; [done|]. split; [done|]. right. split_and!; [done|done|lia].
Qed.
End round.

(** ** The loop *)

(** How many packets [free] blocks hold behind pointers: full entries of 58
    and what a partial one still takes. *)
Definition offer (free : Z) : Z := free / 15 * 58 + Z.max 0 (free mod 15 * 4 - 2).

Lemma offer_step r free :
  0 < r <= offer free -> 0 <= free ->
  let k := Z.min 58 r in
  1 <= free /\ k <= 4 * free - 2 /\
  forall b, (2 <= k /\ b = ((2 + k) * 16 + 63) / 64) \/ (k = 1 /\ b = 1) -> b <= free /\ r - k <= offer (free - b).
Proof.
  intros Hr Hf k. unfold offer in *. unfold k. split; [divlia|]. split; [divlia|]. intros b Hb.
  destruct (decide (58 <= r)).
  - rewrite Z.min_l in Hb by lia. destruct Hb as [[_ ->]|[? _]]; [|lia]. change (((2 + 58) * 16 + 63) / 64) with 15.
    rewrite Z.min_l by lia. divlia.
  - rewrite Z.min_r in * by lia. destruct Hb as [[? ->]|[? ->]]; divlia.
Qed.

Lemma offer_le free : 0 <= free -> offer free <= 4 * free.
Proof. intros. unfold offer. divlia. Qed.

Lemma multi_limit_eq descs posted t kb ks kf B H es :
  tx_inv kb ks kf B H es t -> posted < zlen descs -> zlen (outstanding es) < 2 ^ ks ->
  let limit := multi_limit descs posted t in
  limit = posted + Z.min (Z.min 58 (zlen descs - posted)) (2 ^ ks - zlen (outstanding es)) /\ posted < limit <= zlen descs.
Proof.
  intros Hinv Hp Ho. unfold multi_limit. rewrite (inv_inflight _ _ _ _ _ _ _ Hinv), (ti_slotlen _ _ _ _ _ _ _ Hinv).
  unfold MaxDS. destruct (Z.gtb_spec (posted + 60 - 2) (zlen descs)); cbv zeta.
  - destruct (Z.gtb_spec (zlen descs - posted) (2 ^ ks - zlen (outstanding es))); lia.
  - destruct (Z.gtb_spec (posted + 60 - 2 - posted) (2 ^ ks - zlen (outstanding es))); lia.
Qed.

Lemma accepted_nth p gd (n : nat) d : accepted p gd !! n = Some d -> gd !! n = Some d /\ descOK p d = true.
Proof.
  destruct (accepted_prefix p gd) as (rest & E & Hf & _). intros Hn. split.
  - rewrite E. by apply lookup_app_l_Some.
  - rewrite Forall_forall in Hf. apply Hf. by eapply list_elem_of_lookup_2.
Qed.

Section loop.
Context (kb ks kf B H : Z) (region : list Z) (m : MPWSender) (descs : list Desc) (Hds : Forall desc_ok descs).

(** What the loop's variables say: the first [checked] descriptors passed. *)
Definition progress_ok (p : TxParams) (posted checked : Z) : Prop :=
  0 <= posted <= zlen descs /\ posted <= checked /\
  forall (n : nat) d, descs !! n = Some d -> Z.of_nat n < checked -> descOK p d = true.

(** What one run of the loop leaves behind. *)
Definition loop_result (es : list entry) (t : Tx) (mu : multi) (t' : Tx) (mu' : multi) (new : list entry) : Prop :=
  tx_inv kb ks kf B H (es ++ new) t' /\ all_made (par t) m region (B + blocks es) new /\
  outstanding new = take (length (outstanding new)) (drop (Z.to_nat (mu_posted mu)) descs) /\
  mu_posted mu' = mu_posted mu + zlen (outstanding new) /\ mu_any mu' = mu_any mu || negb (is_nil new) /\
  (new <> [] -> mu_lastIdx mu' = u16 (last_block (B + blocks es) new)) /\
  Forall (fun e => 32 <= zlen (e_bytes e)) new /\
  (par t', ci t', failed t', cqDbrec t', sqDbrec t', uar t') = (par t, ci t, failed t, cqDbrec t, sqDbrec t, uar t) /\
  (Pointer m = true -> Forall (fun d => descOK (par t) d = true) descs ->
   zlen descs - mu_posted mu <= offer (2 ^ kb - blocks es) -> mu_posted mu' = zlen descs).

Lemma loop_stop es t t' mu :
  tx_inv kb ks kf B H es t -> progress_ok (par t) (mu_posted mu) (mu_checked mu) ->
  (par t', sqBytes t', meta t', slots t') = (par t, sqBytes t, meta t, slots t) ->
  (head t', pi t', slotHead t', slotTail t') = (head t, pi t, slotHead t, slotTail t) ->
  (par t', ci t', failed t', cqDbrec t', sqDbrec t', uar t') = (par t, ci t, failed t, cqDbrec t, sqDbrec t, uar t) ->
  (Pointer m = true -> Forall (fun d => descOK (par t) d = true) descs ->
   zlen descs - mu_posted mu <= offer (2 ^ kb - blocks es) -> mu_posted mu = zlen descs) ->
  loop_result es t mu t' mu [].
Proof using.
  intros Hinv Hpr E1 E2 E3 Hprog. unfold loop_result. rewrite app_nil_r. split_and!; try done.
  - by eapply tx_inv_same.
  - change (zlen (outstanding [])) with 0. lia.
  - by rewrite orb_false_r.
Qed.

Lemma loop_continue es e t mu t1 mu1 t' mu' new :
  tx_inv kb ks kf B H (es ++ [e]) t1 -> made (par t) m region (B + blocks es) false e -> 32 <= zlen (e_bytes e) ->
  e_descs e = take (length (e_descs e)) (drop (Z.to_nat (mu_posted mu)) descs) -> 0 <= mu_posted mu ->
  mu_posted mu1 = mu_posted mu + zlen (e_descs e) -> mu_any mu1 = true -> mu_lastIdx mu1 = u16 (B + blocks es) ->
  (par t1, ci t1, failed t1, cqDbrec t1, sqDbrec t1, uar t1) = (par t, ci t, failed t, cqDbrec t, sqDbrec t, uar t) ->
  (Pointer m = true -> Forall (fun d => descOK (par t) d = true) descs ->
   zlen descs - mu_posted mu <= offer (2 ^ kb - blocks es) -> zlen descs - mu_posted mu1 <= offer (2 ^ kb - blocks (es ++ [e]))) ->
  (new = [] -> mu_lastIdx mu' = mu_lastIdx mu1) ->
  loop_result (es ++ [e]) t1 mu1 t' mu' new -> loop_result es t mu t' mu' (e :: new).
Proof using.
  intros Hi1 Hmade H32 Hde Hpos E1 E2 E3 E4 Hstep Hlast (Hi & Ham & Hout & Hp & Ha & Hl & Hf & Hsame & Hprog).
  injection E4 as P1 P2 P3 P4 P5 P6. unfold loop_result. rewrite P1 in *. rewrite blocks_app in *. cbn [blocks] in *.
  rewrite Z.add_0_r in *. rewrite Z.add_assoc in Ham, Hl.
  assert (Ho : outstanding (e :: new) = e_descs e ++ outstanding new) by done. rewrite Ho.
  split_and!.
  - by rewrite <- app_assoc in Hi.
  - by split.
  - rewrite length_app. rewrite <- take_take_drop, drop_drop. rewrite <- Hde. f_equal. rewrite Hout at 1. do 2 f_equal.
    rewrite E1. unfold zlen. lia.
  - rewrite Hp, E1, zlen_app. lia.
  - rewrite Ha, E2. simpl. by rewrite orb_true_r.
  - intros _. destruct (decide (new = [])) as [->|Hn].
    + rewrite (Hlast eq_refl), E3. unfold last_block. simpl. by rewrite Z.add_0_r.
    + rewrite (Hl Hn), last_block_cons by done. done.
  - by constructor.
  - rewrite Hsame. congruence.
  - intros Hptr Hall Hoff. apply Hprog; [done|done|]. by apply Hstep.
Qed.

(** In pointer mode, with every descriptor good, a round takes what the offer
    says. *)
Lemma pointer_round es t posted acc fs free k b :
  tx_inv kb ks kf B H es t -> mpw (par t) = Some m -> zlen region = regionLen (par t) ->
  Pointer m = true -> frames_of region acc fs -> Forall desc_ok acc -> Forall (fun d => descOK (par t) d = true) acc ->
  free = 2 ^ kb - blocks es -> zlen acc = Z.min 58 (zlen descs - posted) ->
  0 < zlen descs - posted <= offer free -> round_size m t fs free k b ->
  k = zlen acc /\ 1 <= b <= free /\ zlen descs - (posted + k) <= offer (free - b).
Proof using.
  intros Hinv Hm Hr Hptr Hfs Hd Hok Hfree Hacc Hoff Hsize.
  pose proof (ti_par _ _ _ _ _ _ _ Hinv) as Hp. pose proof (inv_sizes _ _ _ _ _ _ _ Hinv) as Hsz.
  destruct (po_mpw _ _ _ _ Hp m Hm) as (Hmok & Hmsq & Hinl & _).
  pose proof (frames_len _ _ _ _ _ _ _ Hp Hr Hd Hok Hfs) as Hfl. pose proof (frames_of_len _ _ _ Hfs) as Hlen.
  destruct (offer_step (zlen descs - posted) free) as (Hf1 & Hk & Hstep); [lia|lia|]. rewrite <- Hacc in Hk, Hstep.
  assert (Hfits : Fits m fs = zlen acc).
  { rewrite <- Hlen. apply Fits_all; [done|]. unfold can_share, mpw_ok, Pointer in *. rewrite Hptr in *.
    rewrite Hmsq, (po_sq_bbs _ _ _ _ Hp) in Hmok. split; [lia|]. eapply Forall_impl; [exact Hfl|]. simpl. lia. }
  assert (Hmax : maxBBs (par t) = 1).
  { destruct Hp as [_ _ _ _ _ _ (_ & Hds' & _ & Hb' & _) _ _ -> _ _ _ _]. rewrite Hb', Hds', Hinl. done. }
  unfold round_size in Hsize. rewrite Hfits, Hptr in Hsize.
  destruct Hsize as [(H2 & -> & ->)|(H2 & -> & Hb)].
  - destruct (Hstep (((2 + zlen acc) * 16 + 63) / 64)) as [Hb Hs]; [by left|]. split; [done|]. split; [divlia|]. lia.
  - rewrite Hmax in Hb. specialize (Hb ltac:(lia)). replace b with 1 by lia.
    assert (zlen acc = 1) by lia. destruct (Hstep 1) as [? Hs]; [by right|]. lia.
Qed.

Lemma multi_loop_spec : forall fuel es t mu,
  tx_inv kb ks kf B H es t -> mpw (par t) = Some m -> zlen region = regionLen (par t) ->
  progress_ok (par t) (mu_posted mu) (mu_checked mu) -> zlen descs - mu_posted mu < Z.of_nat fuel ->
  exists mu' t' new, multi_loop fuel region m descs mu t = Some (mu', t') /\
    loop_result es t mu t' mu' new /\ (new = [] -> mu' = mu).
Proof using Hds.
  induction fuel as [|fuel IH]; intros es t mu Hinv Hm Hr Hpr Hfuel; [destruct Hpr; lia|].
  pose proof (inv_sizes _ _ _ _ _ _ _ Hinv) as Hsz. pose proof (ti_par _ _ _ _ _ _ _ Hinv) as Hp.
  pose proof (inv_pows _ _ _ _ _ _ _ Hinv) as Hpw.
  destruct (Hpr) as (Hpo & Hck & Hchk). cbn [multi_loop].
  destruct (Z.ltb_spec (mu_posted mu) (zlen descs)) as [Hlt|Hge]; simpl negb.
  2: { exists mu, t, []. split; [done|]. split; [|done]. apply loop_stop; try done. lia. }
  rewrite (inv_free _ _ _ _ _ _ _ Hinv), (inv_inflight _ _ _ _ _ _ _ Hinv), (ti_slotlen _ _ _ _ _ _ _ Hinv).
  rewrite (u32_small (2 ^ ks)) by lia. set (free := 2 ^ kb - blocks es).
  assert (Hslots : Pointer m = true -> zlen descs - mu_posted mu <= offer free -> zlen descs - mu_posted mu <= 2 ^ ks - zlen (outstanding es)).
  { intros _ Ho. pose proof (offer_le free ltac:(unfold free; lia)).
    pose proof (po_slots _ _ _ _ Hp) as Hps. unfold per_block in *. rewrite Hm in *. unfold free in *. lia. }
  destruct ((free =? 0) || (zlen (outstanding es) =? 2 ^ ks)) eqn:Efull.
  { exists mu, t, []. split; [done|]. split; [|done]. apply loop_stop; try done. intros Hptr _ Ho. exfalso.
    apply orb_true_iff in Efull as [E|E]; apply Z.eqb_eq in E.
    - change (2 ^ kb - blocks es) with free in Ho. rewrite E in Ho. change (offer 0) with 0 in Ho. lia.
    - specialize (Hslots Hptr Ho). lia. }
  apply orb_false_iff in Efull as [Ef1 Ef2]. apply Z.eqb_neq in Ef1, Ef2.
  destruct (multi_limit_eq descs (mu_posted mu) t _ _ _ _ _ _ Hinv Hlt ltac:(lia)) as [Elim Hlim].
  set (limit := multi_limit descs (mu_posted mu) t) in *. rewrite Z.max_r by lia.
  rewrite slice_Some by lia. cbn [mbind option_bind].
  set (gd := take (Z.to_nat (limit - mu_posted mu)) (drop (Z.to_nat (mu_posted mu)) descs)).
  assert (Hgdz : zlen gd = limit - mu_posted mu).
  { unfold gd. rewrite zlen_take, zlen_drop; lia. }
  assert (Hgd : forall (n : nat) d, gd !! n = Some d -> descs !! (Z.to_nat (mu_posted mu) + n)%nat = Some d).
  { intros n d Hn. unfold gd in Hn. apply lookup_take_Some in Hn as [Hn _]. by rewrite lookup_drop in Hn. }
  assert (Hgdok : Forall desc_ok gd) by (by apply Forall_take, Forall_drop).
  destruct (gather_spec region (Pointer m) gd (mu_posted mu) (mkGathered [] [] false (mu_checked mu)) t kb ks kf)
    as (fs & Hfs & ->); try done.
  { intros n d Hn Hc. apply (Hchk _ _ (Hgd n d Hn)). simpl in Hc. lia. }
  cbn [mbind option_bind g_frames g_paddrs g_bad g_checked app orb]. set (acc := accepted (par t) gd) in *.
  set (t0 := with_counters _ t).
  pose proof (frames_of_len _ _ _ Hfs) as Hlen.
  assert (Hall : Forall (fun d => descOK (par t) d = true) descs -> acc = gd).
  { intros Hf. apply accepted_all. by apply Forall_take, Forall_drop. }
  destruct (Z.eqb_spec (zlen fs) 0) as [E0|E0].
  { exists mu, t0, []. split; [done|]. split; [|done]. apply loop_stop; try done. intros _ Hf _. exfalso.
    rewrite (Hall Hf) in Hlen. lia. }
  assert (Hinv0 : tx_inv kb ks kf B H es t0) by (by eapply tx_inv_same).
  assert (Haccne : acc <> []) by (intros E; rewrite E in Hlen; done).
  assert (Hpre : exists tl, drop (Z.to_nat (mu_posted mu)) descs = acc ++ tl).
  { destruct (accepted_prefix (par t) gd) as (rest & E & _). fold acc in E.
    exists (rest ++ drop (Z.to_nat (limit - mu_posted mu)) (drop (Z.to_nat (mu_posted mu)) descs)).
    rewrite app_assoc, <- E. symmetry. apply take_drop. }
  assert (Hok : Forall (fun d => descOK (par t) d = true) acc).
  { by destruct (accepted_prefix (par t) gd) as (rest & _ & Hf & _). }
  assert (Haccd : Forall desc_ok acc).
  { pose proof (Forall_drop _ (Z.to_nat (mu_posted mu)) _ Hds) as HF. destruct Hpre as [tl E]. rewrite E in HF.
    by apply Forall_app in HF as [? _]. }
  destruct (put_round_spec kb ks kf B H region m es t0 Hinv0 Hm Hr descs (mu_posted mu) free acc fs
    (if Pointer m then map (device_addr (par t)) acc else []) (refuses (par t) gd)
    (Z.max (mu_checked mu) (mu_posted mu + zlen acc))) as (k & b & sq & E & Hres & Hsize);
    try done; [lia|unfold free; lia|by intros ->|].
  change (regionVA (par t)) with (regionVA (par t0)). rewrite E. cbn [mbind option_bind].
  assert (Hptr : Pointer m = true -> Forall (fun d => descOK (par t) d = true) descs ->
    zlen descs - mu_posted mu <= offer free ->
    k = zlen acc /\ 1 <= b <= free /\ zlen descs - (mu_posted mu + k) <= offer (free - b)).
  { intros H1 H2 H3. eapply (pointer_round es t0); try done; [|lia]. rewrite (Hall H2), Hgdz, Elim. specialize (Hslots H1 H3). lia. }
  destruct Hres as [[Hb ->]|(e & Hmade & Eb & Ed & Hk & Hbf & ->)].
  { assert (Est : (b =? 0) || (b >? free) = true).
    { apply orb_true_iff. destruct Hb; [left; by apply Z.eqb_eq|right; rewrite Z.gtb_ltb; by apply Z.ltb_lt]. }
    rewrite Est. eexists mu, _, []. split; [done|]. split; [|done]. apply loop_stop; try done.
    intros H1 H2 H3. destruct (Hptr H1 H2 H3) as (_ & ? & _). lia. }
  assert (Hed : Forall desc_ok (e_descs e)) by (rewrite Ed; by apply Forall_take).
  destruct (made_ok kb ks kf B H region m es t0 Hinv0 Hm Hr false e Hmade Hed) as [Heok H32].
  assert (Hb1 : 1 <= b) by (rewrite <- Eb; destruct Heok; lia).
  rewrite (proj2 (Z.eqb_neq b 0)), Z.gtb_ltb, (proj2 (Z.ltb_ge free b)) by lia. cbn [orb].
  assert (Haccz : zlen acc <= zlen descs - mu_posted mu).
  { destruct Hpre as [tl Etl]. assert (zlen (drop (Z.to_nat (mu_posted mu)) descs) = zlen descs - mu_posted mu) as Ez
      by (rewrite zlen_drop; lia). rewrite Etl, zlen_app in Ez. pose proof (zlen_nonneg tl). lia. }
  assert (Hez : zlen (e_descs e) = k) by (rewrite Ed, zlen_take; lia).
  assert (Hsl : take (Z.to_nat k) (drop (Z.to_nat (mu_posted mu)) descs) = e_descs e).
  { destruct Hpre as [tl ->]. rewrite take_app_le by (unfold zlen in *; lia). by rewrite Ed. }
  rewrite slice_Some by lia. replace (mu_posted mu + k - mu_posted mu) with k by lia. rewrite Hsl. cbn [mbind option_bind].
  destruct (inv_push _ _ _ _ _ _ _ Hinv0 e (sinceSignal t0) Heok) as (t1 & t2 & E1 & E2 & Hi2 & Hs1 & Hs2 & _);
    [unfold free in *; lia|].
  rewrite E1. cbn [mbind option_bind]. rewrite <- Eb, E2. cbn [mbind option_bind].
  set (mu1 := mkMulti _ _ _ true _). injection Hs1 as P1 P2 P3 P4 P5. injection Hs2 as P6 _ _ _ _ _ _.
  assert (Hcont : forall t' mu' new, (new = [] -> mu_lastIdx mu' = mu_lastIdx mu1) ->
    loop_result (es ++ [e]) t2 mu1 t' mu' new -> loop_result es t mu t' mu' (e :: new)).
  { intros t' mu' new. apply loop_continue; try done.
    - rewrite <- Hsl at 1. f_equal. unfold zlen in Hez. lia.
    - lia.
    - simpl. lia.
    - simpl. by rewrite (pi_idx _ _ _ _ _ _ _ Hinv0).
    - simpl. congruence.
    - intros H1 H2 H3. destruct (Hptr H1 H2 H3) as (_ & _ & Hst). simpl. rewrite blocks_app. simpl.
      rewrite Z.add_0_r, Eb. replace (2 ^ kb - (blocks es + b)) with (free - b) by (unfold free; lia). exact Hst. }
  assert (Hpr1 : progress_ok (par t2) (mu_posted mu1) (mu_checked mu1)).
  { rewrite P1. simpl. split; [lia|]. split; [lia|]. intros n d Hn Hc.
    destruct (decide (Z.of_nat n < mu_checked mu)); [by eapply Hchk|].
    assert (Hacc_n : acc !! (n - Z.to_nat (mu_posted mu))%nat = Some d).
    { destruct Hpre as [tl Etl]. rewrite <- (lookup_app_l acc tl) by (unfold zlen in *; lia). rewrite <- Etl, lookup_drop.
      replace (Z.to_nat (mu_posted mu) + (n - Z.to_nat (mu_posted mu)))%nat with n by lia. done. }
    by apply accepted_nth in Hacc_n as [_ ?]. }
  destruct (refuses (par t) gd) eqn:Eref.
  - exists mu1, t2, [e]. split; [done|]. split; [|done]. apply Hcont; [done|]. apply loop_stop; try done.
    intros _ Hf _. exfalso. rewrite P1 in Hf. unfold refuses in Eref. fold acc in Eref. rewrite (Hall Hf) in Eref.
    apply Nat.ltb_lt in Eref. lia.
  - destruct (IH (es ++ [e]) t2 mu1) as (mu' & t' & new & EL & HL & Hnil); try done.
    + by rewrite P1.
    + by rewrite P1.
    + simpl. lia.
    + exists mu', t', (e :: new). split; [exact EL|]. split; [|done]. apply Hcont; [|done].
      intros Hn. by rewrite (Hnil Hn).
Qed.
End loop.

(** ** Asking for a completion *)

(** The completion bit of a control segment is bit 3 of its byte 11. *)
Lemma ctrl_signal idx op qpn ds rest :
  (ctrl_seg idx op qpn ds false ++ rest) !! 11%nat = Some 0 /\
  <[11%nat := Z.lor 0 CtrlCQUpdate]> (ctrl_seg idx op qpn ds false ++ rest) = ctrl_seg idx op qpn ds true ++ rest.
Proof.
  unfold ctrl_seg. rewrite <- !app_assoc.
  set (a := be_bytes 4 (Z.lor (u32 (Z.shiftl idx 8)) op)). set (b := be_bytes 4 (Z.lor (u32 (Z.shiftl qpn 8)) ds)).
  assert (Ha : length a = 4%nat) by apply length_be_bytes. assert (Hb : length b = 4%nat) by apply length_be_bytes.
  do 5 (destruct a as [|? a]; try discriminate). do 5 (destruct b as [|? b]; try discriminate). done.
Qed.


Lemma made_signal p m region b e :
  made p m region b false e -> e_bytes e !! 11%nat = Some 0 /\
  made p m region b true (mkEntry (e_descs e) (e_blocks e) (<[11%nat := Z.lor 0 CtrlCQUpdate]> (e_bytes e))).
Proof.
  intros [d f Hd Hf|ds fs Hd Hptr Hfs Hc H2|ds fs Hd Hptr Hfs Hc H2]; cbn [e_descs e_blocks e_bytes single].
  - unfold send_entry. split; [apply ctrl_signal|]. rewrite (proj2 (ctrl_signal _ _ _ _ _)). by apply made_single.
  - unfold ptr_entry, mpw_head. rewrite <- !app_assoc. split; [apply ctrl_signal|].
    rewrite (proj2 (ctrl_signal _ _ _ _ _)), app_assoc. by apply made_pointers.
  - unfold mpw_entry, mpw_head. rewrite <- !app_assoc. split; [apply ctrl_signal|].
    rewrite (proj2 (ctrl_signal _ _ _ _ _)), app_assoc. by apply made_copies.
Qed.

Lemma setSignaled_spec kb ks kf B H es e t m region :
  tx_inv kb ks kf B H (es ++ [e]) t -> made (par t) m region (B + blocks es) false e -> 32 <= zlen (e_bytes e) ->
  exists e' t', setSignaled (u16 (B + blocks es)) t = Some t' /\ tx_inv kb ks kf B H (es ++ [e']) t' /\
    made (par t) m region (B + blocks es) true e' /\ e_descs e' = e_descs e /\ e_blocks e' = e_blocks e /\
    zlen (e_bytes e') = zlen (e_bytes e) /\
    (par t', ci t', failed t', cqDbrec t', sqDbrec t', uar t') = (par t, ci t, failed t, cqDbrec t, sqDbrec t, uar t).
Proof.
  intros Hinv Hmade H32. destruct (made_signal _ _ _ _ _ Hmade) as [Hx Hsig].
  destruct (inv_patch kb ks kf B H es e t 0 (Z.lor 0 CtrlCQUpdate) (sinceSignal t) Hinv ltac:(lia) Hx) as [Hg Hi].
  pose proof (inv_pows _ _ _ _ _ _ _ Hinv) as Hpw. pose proof (ti_sq _ _ _ _ _ _ _ Hinv) as Hl.
  pose proof (po_kb _ _ _ _ (ti_par _ _ _ _ _ _ _ Hinv)) as Hkb.
  unfold setSignaled. set (len := zlen (sqBytes t)) in *.
  assert (Hoff : u32 (Z.land (u32 (u16 (B + blocks es) * WQEBB)) (u32 (u32 len - 1)) + 11) = ((B + blocks es) * 64 + 11) mod len).
  { assert (Hlen : len = 2 ^ (kb + 6)) by (rewrite Hl, Z.pow_add_r by lia; lia).
    rewrite (u32_small len), (u32_small (len - 1)) by lia. rewrite Hlen, u32_land_mask by lia. rewrite <- Hlen. unfold WQEBB.
    assert (Hm : (u16 (B + blocks es) * 64) mod len = ((B + blocks es) * 64) mod len).
    { rewrite Hl, (Z.mul_comm 64), !Z.mul_mod_distr_r by lia. f_equal. unfold u16. by rewrite mod_mod_pow2 by lia. }
    rewrite Hm, Hl, (Z.mul_comm 64). rewrite Z.mul_mod_distr_r by lia.
    pose proof (Z.mod_pos_bound (B + blocks es) (2 ^ kb) ltac:(lia)). rewrite u32_small by lia.
    pose proof (Z.div_mod (B + blocks es) (2 ^ kb) ltac:(lia)) as Hdm.
    apply (Z.mod_unique _ _ ((B + blocks es) / 2 ^ kb)); [lia|nia]. }
  rewrite Hoff, Hg. cbn [mbind option_bind]. rewrite set_at_Some by (apply Z.mod_pos_bound; lia). cbn [mbind option_bind].
  eexists _, _. split; [done|]. split; [exact Hi|]. split; [exact Hsig|]. split; [done|]. split; [done|]. simpl.
  split; [by rewrite zlen_insert|done].
Qed.

(** ** The batch *)

(** The entries of a batch: made one after another from block [b] on, the last
    one asking for a completion. *)
Definition batch_made (p : TxParams) (m : MPWSender) (region : list Z) (b : Z) (new : list entry) : Prop :=
  match new with
  | [] => True
  | _ => all_made p m region b (removelast new) /\
         exists e, new = removelast new ++ [e] /\ made p m region (b + blocks (removelast new)) true e
  end.

Lemma tick_fields t :
  (par (tick t), sqBytes (tick t), meta (tick t), slots (tick t)) = (par t, sqBytes t, meta t, slots t) /\
  (head (tick t), pi (tick t), slotHead (tick t), slotTail (tick t)) = (head t, pi t, slotHead t, slotTail t) /\
  (par (tick t), ci (tick t), failed (tick t), cqDbrec (tick t), sqDbrec (tick t), uar (tick t)) =
  (par t, ci t, failed t, cqDbrec t, sqDbrec t, uar t).
Proof. unfold tick. by destruct (_ >=? _). Qed.

Lemma postMulti_spec kb ks kf B H es t region m descs :
  tx_inv kb ks kf B H es t -> mpw (par t) = Some m -> zlen region = regionLen (par t) -> Forall desc_ok descs ->
  exists new t', postMulti region m descs t = Some (zlen (outstanding new), t') /\
    tx_inv kb ks kf B H (es ++ new) t' /\ batch_made (par t) m region (B + blocks es) new /\
    outstanding new = take (length (outstanding new)) descs /\ published t t' B es new /\
    (par t', ci t', cqDbrec t', failed t') = (par t, ci t, cqDbrec t, failed t) /\
    (Pointer m = true -> Forall (fun d => descOK (par t) d = true) descs -> zlen descs <= offer (2 ^ kb - blocks es) ->
     outstanding new = descs).
Proof.
  intros Hinv Hm Hr Hds. pose proof (ti_par _ _ _ _ _ _ _ Hinv) as Hp.
  destruct (multi_loop_spec kb ks kf B H region m descs Hds (S (length descs)) es t (mkMulti 0 0 0 false 0)) as
    (mu & t1 & new & EL & (Hi & Ham & Hout & Hpo & Hany & Hlast & H32 & Hsame & Hprog) & _); try done.
  { split; [simpl; pose proof (zlen_nonneg descs); lia|]. split; [done|]. intros n d _ Hn. simpl in Hn. lia. }
  { simpl. unfold zlen. lia. }
  unfold postMulti. rewrite EL. cbn [mbind option_bind]. simpl in Hpo, Hany, Hprog. rewrite drop_0 in Hout.
  injection Hsame as P1 P2 P3 P4 P5 P6. rewrite Hany, Hpo.
  assert (Hfull : Pointer m = true -> Forall (fun d => descOK (par t) d = true) descs ->
    zlen descs <= offer (2 ^ kb - blocks es) -> outstanding new = descs).
  { intros H1 H2 H3. specialize (Hprog H1 H2 ltac:(lia)). rewrite Hout. rewrite firstn_all2; [done|]. unfold zlen in *. lia. }
  destruct (decide (new = [])) as [->|Hn].
  { eexists [], _. split; [done|]. split; [by eapply tx_inv_same|]. simpl. split_and!; try done. congruence. }
  destruct (removelast_snoc new Hn) as (e & Ee). replace (is_nil new) with false by (by destruct new). simpl negb.
  rewrite (Hlast Hn). unfold last_block. rewrite Ee in Ham. apply all_made_app in Ham as [Ham [Hme _]].
  rewrite Ee in Hi, H32. apply Forall_app in H32 as [_ H32]. apply Forall_cons_iff in H32 as [H32 _].
  rewrite app_assoc in Hi. rewrite <- Z.add_assoc, <- blocks_app in Hme.
  destruct (setSignaled_spec kb ks kf B H (es ++ removelast new) e t1 m region) as
    (e' & t2 & E2 & Hi2 & Hme2 & Ed & Eb & Ez & Hs2); [done|by rewrite P1|done|].
  rewrite <- Z.add_assoc, <- blocks_app, E2. cbn [mbind option_bind].
  pose proof (inv_sq_ok _ _ _ _ _ _ _ Hi2) as Hq. injection Hs2 as Q1 Q2 Q3 Q4 Q5 Q6.
  unfold MPWSender_FirstOctoword. destruct (po_mpw _ _ _ _ Hp m Hm) as (_ & Hmsq & _).
  assert (Hpp : sender (par t) = sender (par t2)) by congruence.
  rewrite Hmsq, Hpp, (first_octoword kb ks kf B H (es ++ removelast new) e' [] t2) by (done || lia).
  cbn [mbind option_bind]. rewrite Z.add_0_l. set (t3 := with_counters _ _).
  destruct (tick_fields t3) as (T1 & T2 & T3). injection T3 as _ T4 T5 T6 T7 T8.
  set (new' := removelast new ++ [e']).
  assert (Erl : removelast new' = removelast new) by (unfold new'; by rewrite removelast_last).
  assert (Hn' : new' <> []) by (unfold new'; by destruct (removelast new)).
  assert (Hout' : outstanding new' = outstanding new).
  { unfold new'. transitivity (outstanding (removelast new ++ [e])); [|by rewrite <- Ee].
    by rewrite !outstanding_app, !outstanding_one, Ed. }
  exists new', (tick t3). rewrite Hout'. split; [done|]. rewrite <- app_assoc in Hi2. fold new' in Hi2.
  split; [by eapply tx_inv_same; [exact Hi2|rewrite T1|rewrite T2]|]. rewrite P1 in Hme2. rewrite blocks_app, Z.add_assoc in Hme2.
  split; [|split; [done|split; [|split; [|done]]]].
  - unfold batch_made. destruct new' as [|x y] eqn:En; [done|]. rewrite <- En in *. rewrite Erl. split; [done|].
    exists e'. split; [done|]. done.
  - unfold published. destruct new' as [|x y] eqn:En; [done|]. rewrite <- En in *. exists e'. rewrite Erl. split; [done|].
    rewrite T7, T8. simpl. rewrite (ti_pi _ _ _ _ _ _ _ Hi2), pi_low16. done.
  - injection T1 as T9 _ _ _. rewrite T4, T5, T6, T9. simpl. congruence.
Qed.
