(* ===== verification/RingTxComplete.v ===== *)
(** [Complete]: what completions release.

    Two accounts.  Whatever the completion queue holds, [Complete] hands out a
    prefix of the frames the device owns and keeps the rest.  When it holds
    what an honest device wrote, the prefix is exactly the frames of the
    entries the completions account for. *)

From stdpp Require Import prelude list numbers strings.
From S2P Require Import Prelude Circ Bytes Desc Sq Send Mpw Cqe RingTx RingTxInv.

(** ** Releasing slots *)

Lemma u32_ne x n : 0 < n < 2 ^ 32 -> u32 x <> u32 (x + n).
Proof.
  intros Hn E. unfold u32 in E. apply (mod_distinct x (x + n) (2 ^ 32)); lia.
Qed.

Lemma release_slots_spec ks sl : 0 <= ks <= 24 -> zlen sl = 2 ^ ks -> forall n h out,
  Z.of_nat n <= 2 ^ ks ->
  release_slots n (u32 h) (u32 (h + Z.of_nat n)) sl (2 ^ ks - 1) out = Some (out ++ window sl h n).
Proof.
  intros Hk Hl. assert (0 < 2 ^ ks <= 2 ^ 24) by (split; [lia|apply Z.pow_le_mono_r; lia]).
  induction n as [|n IH]; intros h out Hn; cbn [release_slots].
  - rewrite Z.add_0_r, Z.eqb_refl, app_nil_r. done.
  - rewrite (proj2 (Z.eqb_neq _ _)) by (apply u32_ne; lia).
    rewrite u32_land_mask, <- Hl, get_at_cell by lia. cbn [mbind option_bind].
    rewrite u32_add_l. replace (h + Z.of_nat (S n)) with (h + 1 + Z.of_nat n) by lia. rewrite Hl, IH by lia.
    rewrite window_front, <- app_assoc. done.
Qed.

(** ** Any completion queue *)

(** Where a completion may release up to: [n] frames past the oldest. *)
Definition releases (H n : Z) (r : option (Z * Z)) : Prop :=
  match r with None => n = 0 | Some (target, _) => target = u32 (H + n) end.

Section any.
Context (kb ks kf B H : Z) (es : list entry) (t : Tx) (Hinv : tx_inv kb ks kf B H es t).

Lemma entryFor_any header :
  exists n r, entryFor t header = Some r /\ releases H n r /\ 0 <= n <= zlen (outstanding es) /\ (is_some r = true -> 1 <= n).
Proof using Hinv.
  pose proof (inv_inflight _ _ _ _ _ _ _ Hinv) as Hif. pose proof (inv_pows _ _ _ _ _ _ _ Hinv).
  pose proof (inv_sizes _ _ _ _ _ _ _ Hinv) as Hsz.
  unfold entryFor. case_if; [exists 0, None; simpl; split_and!; done || lia|].
  rewrite (ti_head _ _ _ _ _ _ _ Hinv), u32_add_l, (po_bbMask _ _ _ _ (ti_par _ _ _ _ _ _ _ Hinv)).
  set (d := u16 _). pose proof (po_kb _ _ _ _ (ti_par _ _ _ _ _ _ _ Hinv)).
  rewrite u32_land_mask by lia. rewrite <- (ti_meta _ _ _ _ _ _ _ Hinv).
  rewrite get_at_cell by (rewrite (ti_meta _ _ _ _ _ _ _ Hinv); lia). cbn [mbind option_bind].
  set (mm := cell (meta t) (B + d)).
  assert (Hmm : 0 <= m_slotTail mm < 2 ^ 32).
  { pose proof (ti_metas _ _ _ _ _ _ _ Hinv) as Hf. rewrite Forall_forall in Hf. apply Hf.
    unfold mm, cell. apply list_elem_of_lookup_total_2.
    pose proof (Z.mod_pos_bound (B + d) (zlen (meta t)) ltac:(rewrite (ti_meta _ _ _ _ _ _ _ Hinv); lia)). unfold zlen in *. lia. }
  case_if; [exists 0, None; simpl; split_and!; done || lia|]. rewrite Hif. case_if; [exists 0, None; simpl; split_and!; done || lia|].
  rewrite Z.gtb_ltb in *. to_prop. rewrite (ti_slotHead _ _ _ _ _ _ _ Hinv) in *. rewrite u32_sub_r in *.
  pose proof (u32_range (m_slotTail mm - H)).
  eexists (u32 (m_slotTail mm - H)), _. split; [done|]. simpl. split; [|lia].
  rewrite <- (u32_small (m_slotTail mm)) at 1 by lia. unfold u32. rewrite Zplus_mod_idemp_r. f_equal. lia.
Qed.

Lemma complete_loop_any j cqbuf max : cq_ok j (cq (par t)) cqbuf -> forall n x r k,
  r_ci r = u32 x -> releases H k (r_release r) -> 0 <= k <= zlen (outstanding es) -> 0 <= r_completed r ->
  (r_completed r = 0 -> r_release r = None) ->
  exists r' k', complete_loop n max cqbuf t r = Some r' /\ releases H k' (r_release r') /\
    0 <= k' <= zlen (outstanding es) /\ 0 <= r_completed r' /\ (exists x', r_ci r' = u32 x') /\
    (r_completed r' = 0 -> r_release r' = None).
Proof using Hinv.
  intros Hc. induction n as [|n IH]; intros x r k Hx Hrel Hk Hcomp Hz; cbn [complete_loop].
  { exists r, k. split_and!; eauto; lia. }
  rewrite Hx. destruct (Load_Some j _ _ Hc x) as (h & -> & _). cbn [mbind option_bind].
  case_if; [exists r, k; split_and!; eauto; lia|]. case_if.
  { eexists _, k. split; [done|]. simpl. split_and!; eauto; lia. }
  case_if.
  { eapply (IH (x + 1) _ k); simpl; [by rewrite u32_add_l|done|done|lia|lia]. }
  destruct (entryFor_any h) as (k1 & e & -> & Hrel1 & Hk1 & _). cbn [mbind option_bind].
  case_if; [exists r, k; split_and!; eauto; lia|].
  destruct (Entry_Some j _ _ Hc x) as (ent & Hent & Hel).
  assert (Herr : exists info, Error ent = Some info).
  { unfold Error. destruct (get_at_Some cqeSyndrome ent) as (a & ->); [unfold cqeSyndrome; lia|]. cbn [mbind option_bind].
    destruct (get_at_Some cqeVendorSyndrom ent) as (b & ->); [unfold cqeVendorSyndrom; lia|]. cbn [mbind option_bind].
    unfold get_be, cqeSWQEOpcodeQPN, cqeHeader. rewrite !slice_Some by lia. simpl. eauto. }
  destruct Herr as [info Herr].
  assert (Hstep : exists fe : option ErrorInfo * Z,
    (if Opcode h =? CQEReqErr then
       entry ← Entry (cq (par t)) (u32 (u32 (u32 x + 1) - 1)) cqbuf; info ← Error entry;
       Some (match r_failed r with Some f => Some f | None => Some info end, r_errors r + 1)
     else Some (r_failed r, r_errors r)) = Some fe).
  { case_if; [|eauto]. replace (u32 (u32 (u32 x + 1) - 1)) with (u32 x) by (rewrite u32_add_l, u32_sub_l; f_equal; lia).
    rewrite Hent. cbn [mbind option_bind]. rewrite Herr. simpl. eauto. }
  destruct Hstep as [[fl er] ->]. cbn [mbind option_bind].
  assert (Hx1 : u32 (u32 x + 1) = u32 (x + 1)) by apply u32_add_l. rewrite Hx1.
  destruct e as [[target hd]|].
  - case_if.
    + eexists _, k1. split; [done|]. simpl. split_and!; try done; try lia; eauto.
    + eapply (IH (x + 1) _ k1); simpl; try done; lia.
  - eapply (IH (x + 1) _ k); simpl; try done; lia.
Qed.
End any.


(** What [Complete] does with what the loop read. *)
Lemma Complete_result kb ks kf B H es t cqbuf max out r n :
  tx_inv kb ks kf B H es t -> 0 < max ->
  complete_loop (Z.to_nat (Entries (cq (par t)))) max cqbuf t (mkReading (ci t) None 0 (failed t) 0) = Some r ->
  releases H (Z.of_nat n) (r_release r) -> (n <= length (outstanding es))%nat ->
  (r_completed r = 0 -> r_release r = None) ->
  exists t', Complete max cqbuf out t = Some (out ++ take n (outstanding es), t') /\
    slotHead t' = u32 (H + Z.of_nat n) /\ head t' = match r_release r with Some (_, hd) => hd | None => head t end /\
    (par t', sqBytes t', meta t', slots t', pi t', slotTail t') = (par t, sqBytes t, meta t, slots t, pi t, slotTail t) /\
    ci t' = r_ci r /\ failed t' = r_failed r /\ (sqDbrec t', uar t', sinceSignal t') = (sqDbrec t, uar t, sinceSignal t) /\
    (r_completed r <> 0 -> cqDbrec t' = be32_native (Z.land (r_ci r) 0xffffff)).
Proof.
  intros Hinv Hmax Hloop Hrel Hn Hzero.
  pose proof (inv_pows _ _ _ _ _ _ _ Hinv) as Hpw. pose proof (inv_sizes _ _ _ _ _ _ _ Hinv) as Hsz.
  pose proof (po_ks _ _ _ _ (ti_par _ _ _ _ _ _ _ Hinv)). pose proof (po_kb _ _ _ _ (ti_par _ _ _ _ _ _ _ Hinv)).
  unfold Complete. rewrite (proj2 (Z.leb_gt max 0)) by lia. rewrite Hloop. cbn [mbind option_bind].
  assert (Hnone : r_release r = None -> n = 0%nat) by (intros E; rewrite E in Hrel; simpl in Hrel; lia).
  destruct (Z.eqb_spec (r_completed r) 0) as [E0|E0].
  { rewrite (Hzero E0), (Hnone (Hzero E0)). eexists. split; [simpl; by rewrite app_nil_r|]. simpl.
    rewrite Z.add_0_r. split_and!; try done. by rewrite (ti_slotHead _ _ _ _ _ _ _ Hinv). }
  destruct (r_release r) as [[target hd]|] eqn:Er.
  - simpl in Hrel. subst target. cbn [par slotHead slots with_counters]. rewrite (ti_slotHead _ _ _ _ _ _ _ Hinv).
    rewrite u32_dist by (unfold zlen in *; lia). replace (H + Z.of_nat n - H) with (Z.of_nat n) by lia. rewrite Nat2Z.id.
    rewrite (po_slotMask _ _ _ _ (ti_par _ _ _ _ _ _ _ Hinv)).
    rewrite (release_slots_spec ks) by first [exact (ti_slotlen _ _ _ _ _ _ _ Hinv)|unfold zlen in *; lia].
    cbn [mbind option_bind]. eexists. split.
    + rewrite <- (ti_slots _ _ _ _ _ _ _ Hinv), window_take by done. done.
    + cbn [slotTail slotHead]. destruct (slotTail _ =? _); simpl; split_and!; done.
  - rewrite (Hnone eq_refl). cbn [mbind option_bind]. eexists. split; [simpl; by rewrite app_nil_r|]. simpl.
    rewrite Z.add_0_r. split_and!; try done. by rewrite (ti_slotHead _ _ _ _ _ _ _ Hinv).
Qed.

(** [Complete] against any completion queue. *)
Lemma Complete_total kb ks kf j B H C es t cqbuf max out :
  tx_inv kb ks kf B H es t -> cq_ok j (cq (par t)) cqbuf -> ci t = u32 C ->
  exists n t', Complete max cqbuf out t = Some (out ++ take n (outstanding es), t') /\ (n <= length (outstanding es))%nat /\
    slotTail t' = slotTail t /\ InFlight t' = zlen (outstanding es) - Z.of_nat n /\
    window (slots t') (H + Z.of_nat n) (length (outstanding es) - n) = drop n (outstanding es).
Proof.
  intros Hinv Hc HC. pose proof (inv_pows _ _ _ _ _ _ _ Hinv) as Hpw. pose proof (inv_sizes _ _ _ _ _ _ _ Hinv) as Hsz.
  assert (Hgen : forall n t', (n <= length (outstanding es))%nat -> slotHead t' = u32 (H + Z.of_nat n) ->
    slotTail t' = slotTail t -> slots t' = slots t ->
    slotTail t' = slotTail t /\ InFlight t' = zlen (outstanding es) - Z.of_nat n /\
    window (slots t') (H + Z.of_nat n) (length (outstanding es) - n) = drop n (outstanding es)).
  { intros n t' Hn E1 E2 E3. split; [done|]. split.
    - unfold InFlight. rewrite E1, E2, (ti_slotTail _ _ _ _ _ _ _ Hinv), u32_dist by (unfold zlen in *; lia). lia.
    - rewrite E3. rewrite <- (ti_slots _ _ _ _ _ _ _ Hinv) at 2. by rewrite window_drop. }
  destruct (decide (max <= 0)).
  { exists 0%nat, t. unfold Complete. rewrite (proj2 (Z.leb_le max 0)), app_nil_r by lia. split; [done|]. split; [lia|].
    apply Hgen; try done; [lia|]. by rewrite Z.add_0_r, (ti_slotHead _ _ _ _ _ _ _ Hinv). }
  destruct (complete_loop_any kb ks kf B H es t Hinv j cqbuf max Hc (Z.to_nat (Entries (cq (par t)))) C
    (mkReading (ci t) None 0 (failed t) 0) 0) as (r & k & Hl & Hrel & Hk & Hcomp & _ & Hz); try done; [lia|].
  destruct (Complete_result kb ks kf B H es t cqbuf max out r (Z.to_nat k)) as (t' & E & E1 & _ & E2 & _);
    try done; [lia|by rewrite Z2Nat.id by lia|unfold zlen in *; lia|].
  injection E2 as _ _ _ E3 _ E4. exists (Z.to_nat k), t'. split; [done|]. split; [unfold zlen in *; lia|]. 
  apply Hgen; try done. unfold zlen in *; lia.
Qed.

(** ** An honest device *)

(** The frames of the entries up to and including entry [k], and where the
    ring stands once they are finished. *)
Definition covers (es : list entry) (k : nat) : Z := zlen (outstanding (take (S k) es)).
Definition finish (B H : Z) (es : list entry) (k : nat) : Z * Z :=
  (u32 (H + covers es k), u32 (B + blocks (take (S k) es))).

(** A completion names the first block of entry [k]. *)
Definition names (B : Z) (es : list entry) (header : Z) (k : nat) : Prop :=
  (k < length es)%nat /\ WQECounter header = u16 (B + blocks (take k es)) /\ Format header = CQEFormatNoData /\
  (Opcode header = CQEReq \/ Opcode header = CQEReqErr).

(** The device has written completions up to [P], the driver has read up to
    [C]; those in between name, in order, the entries [pend]. *)
Record honest (c : CQ) (cqbuf : list Z) (C P : Z) (hdr : Z -> Z) (B : Z) (es : list entry) (pend : list nat) : Prop := {
  ho_holds : cq_holds c cqbuf P hdr;
  ho_window : 0 <= C <= P /\ P <= C + Entries c;
  ho_pend : zlen pend = P - C;
  ho_names (i : nat) k : pend !! i = Some k -> names B es (hdr (C + Z.of_nat i)) k;
  ho_order (i i' k k' : nat) : pend !! i = Some k -> pend !! i' = Some k' -> (i < i')%nat -> (k < k')%nat
}.

Lemma entryFor_live kb ks kf B H es t header k :
  tx_inv kb ks kf B H es t -> names B es header k -> entryFor t header = Some (Some (finish B H es k)).
Proof.
  intros Hinv (Hk & Hctr & _ & _). pose proof (inv_pows _ _ _ _ _ _ _ Hinv) as Hpw.
  pose proof (inv_sizes _ _ _ _ _ _ _ Hinv) as Hsz. pose proof (inv_inflight _ _ _ _ _ _ _ Hinv) as Hif.
  destruct (lookup_lt_is_Some_2 es k Hk) as [e He].
  assert (Hsplit : es = take k es ++ e :: drop (S k) es) by (symmetry; by apply take_drop_middle).
  pose proof (take_S_r _ _ _ He) as HS.
  pose proof (ti_entries _ _ _ _ _ _ _ Hinv) as Hes. rewrite Hsplit in Hes. apply Forall_app in Hes as [Hes1 Hes2].
  apply Forall_cons_iff in Hes2 as [[He1 He2 _ _ _] Hes2].
  pose proof (entries_counts _ _ Hes1) as [Hb1 [Ho1 _]]. pose proof (entries_counts _ _ Hes2) as [Hb2 [Ho2 _]].
  pose proof (zlen_nonneg (take k es)). pose proof (zlen_nonneg (drop (S k) es)).
  assert (Hblocks : blocks es = blocks (take k es) + e_blocks e + blocks (drop (S k) es)).
  { rewrite Hsplit at 1. rewrite blocks_app. cbn [blocks]. lia. }
  assert (Hout : zlen (outstanding es) = zlen (outstanding (take k es)) + zlen (e_descs e) + zlen (outstanding (drop (S k) es))).
  { rewrite Hsplit at 1. change (e :: drop (S k) es) with ([e] ++ drop (S k) es).
    rewrite !outstanding_app, outstanding_one, !zlen_app. lia. }
  assert (Hcov : covers es k = zlen (outstanding (take k es)) + zlen (e_descs e)).
  { unfold covers. rewrite HS, outstanding_app, outstanding_one, zlen_app. done. }
  pose proof (ti_laid _ _ _ _ _ _ _ Hinv) as Hl. rewrite Hsplit in Hl. apply laid_app in Hl as [_ [Hm _]].
  unfold entryFor. rewrite (ti_head _ _ _ _ _ _ _ Hinv) in *. rewrite (ti_pi _ _ _ _ _ _ _ Hinv), u32_dist by lia.
  assert (Hdelta : u16 (WQECounter header - u16 (u32 B)) = blocks (take k es)).
  { rewrite Hctr. unfold u16, u32. rewrite (mod_mod_pow2 B) by lia. rewrite <- Zminus_mod. rewrite Z.mod_small by lia. lia. }
  rewrite Hdelta. destruct (Z.geb_spec (blocks (take k es)) (B + blocks es - B)); [lia|].
  rewrite u32_add_l, (po_bbMask _ _ _ _ (ti_par _ _ _ _ _ _ _ Hinv)).
  pose proof (po_kb _ _ _ _ (ti_par _ _ _ _ _ _ _ Hinv)).
  rewrite u32_land_mask, <- (ti_meta _ _ _ _ _ _ _ Hinv) by lia.
  rewrite get_at_cell by (rewrite (ti_meta _ _ _ _ _ _ _ Hinv); lia). cbn [mbind option_bind].
  rewrite Hm. cbn [m_bbs m_slotTail]. rewrite (proj2 (Z.eqb_neq (e_blocks e) 0)) by lia.
  rewrite Hif, (ti_slotHead _ _ _ _ _ _ _ Hinv), <- Z.add_assoc, <- Hcov, u32_dist by lia.
  rewrite Z.gtb_ltb, (proj2 (Z.eqb_neq _ 0)), (proj2 (Z.ltb_ge _ _)) by lia. cbn [orb].
  unfold finish. do 3 f_equal. rewrite <- Z.add_assoc, u32_add_l, HS, blocks_app. cbn [blocks]. f_equal. lia.
Qed.

Lemma covers_mono p es k k' : Forall (entry_ok p) es -> (k < k' < length es)%nat -> covers es k < covers es k'.
Proof.
  intros Hes [Hk Hk']. unfold covers.
  assert (E : take (S k') es = take (S k) es ++ take (k' - k) (drop (S k) es)).
  { rewrite take_take_drop. f_equal. lia. }
  rewrite E, outstanding_app, zlen_app.
  assert (HF : Forall (entry_ok p) (take (k' - k) (drop (S k) es))) by (by apply Forall_take, Forall_drop).
  pose proof (entries_counts p _ HF) as [_ [Ho _]].
  assert (0 < zlen (take (k' - k) (drop (S k) es))) by (unfold zlen; rewrite length_take, length_drop; lia). lia.
Qed.

Lemma honest_tail c cqbuf C P hdr B es k pend :
  honest c cqbuf C P hdr B es (k :: pend) -> honest c cqbuf (C + 1) P hdr B es pend.
Proof.
  intros [Hh Hw Hp Hn Ho]. rewrite zlen_cons in Hp. pose proof (zlen_nonneg pend). split; try done; try lia.
  - intros i k' Hi. replace (C + 1 + Z.of_nat i) with (C + Z.of_nat (S i)) by lia. by apply Hn.
  - intros i i' k1 k2 H1 H2 Hlt. apply (Ho (S i) (S i')); [done|done|lia].
Qed.

(** Whether one of the first [j] completions from [C] on reports a failure. *)
Definition reports_error (hdr : Z -> Z) (C : Z) (j : nat) : Prop :=
  exists i : nat, (i < j)%nat /\ Opcode (hdr (C + Z.of_nat i)) = CQEReqErr.

Section honest.
Context (kb ks kf B H j : Z) (es : list entry) (t : Tx) (cqbuf : list Z) (max P : Z) (hdr : Z -> Z).
Context (Hinv : tx_inv kb ks kf B H es t) (Hc : cq_ok j (cq (par t)) cqbuf) (Hmax : 0 < max < 2 ^ 32).

(** What has been read so far releases up to entry [k0], if anything. *)
Definition read_so_far (pend : list nat) (r : reading) : Prop :=
  match r_release r with
  | None => r_completed r = 0
  | Some f => 0 < r_completed r /\ exists k0, f = finish B H es k0 /\ covers es k0 < max /\ (k0 < length es)%nat /\
              forall i k, pend !! i = Some k -> (k0 < k)%nat
  end.

(** What the loop has read once it stops after [n] more completions. *)
Record read_result (C : Z) (pend : list nat) (r r' : reading) (n : nat) : Prop := {
  rr_len : (n <= length pend)%nat;
  rr_ci : r_ci r' = u32 (C + Z.of_nat n);
  rr_completed : r_completed r' = r_completed r + Z.of_nat n;
  rr_release : r_release r' = match n with O => r_release r | S i => finish B H es <$> pend !! i end;
  rr_next k : pend !! n = Some k -> ((n = 0)%nat -> r_release r <> None) /\ max < covers es k;
  rr_last i k : n = S i -> pend !! i = Some k -> covers es k <= max \/ (i = 0%nat /\ r_release r = None);
  rr_failed : r_failed r <> None -> r_failed r' = r_failed r;
  rr_error : reports_error hdr C n -> r_failed r' <> None;
  rr_fine : ~ reports_error hdr C n -> r_failed r' = r_failed r
}.

Lemma covers_used k : (k < length es)%nat -> u32 (fst (finish B H es k) - slotHead t) = covers es k /\ 0 < covers es k < 2 ^ 32.
Proof using Hinv.
  intros Hk. pose proof (inv_pows _ _ _ _ _ _ _ Hinv). pose proof (inv_sizes _ _ _ _ _ _ _ Hinv).
  assert (Hcov : 0 < covers es k <= zlen (outstanding es)).
  { unfold covers. rewrite <- (take_drop (S k) es) at 3. rewrite outstanding_app, zlen_app.
    pose proof (zlen_nonneg (outstanding (drop (S k) es))).
    pose proof (entries_counts _ _ (Forall_take _ (S k) _ (ti_entries _ _ _ _ _ _ _ Hinv))) as [_ [Ho _]].
    assert (0 < zlen (take (S k) es)) by (unfold zlen; rewrite length_take; lia). lia. }
  rewrite (ti_slotHead _ _ _ _ _ _ _ Hinv). simpl. rewrite u32_dist by lia. lia.
Qed.

(** Consuming one completion: where it leaves the failure latch. *)
Lemma latch h x fl er :
  exists fl' er',
    (if Opcode h =? CQEReqErr then
       entry ← Entry (cq (par t)) (u32 (u32 (u32 x + 1) - 1)) cqbuf; info ← Error entry;
       Some (match fl with Some f => Some f | None => Some info end, er + 1)
     else Some (fl, er)) = Some (fl', er') /\
    (fl <> None -> fl' = fl) /\ (Opcode h = CQEReqErr -> fl' <> None) /\ (Opcode h <> CQEReqErr -> fl' = fl).
Proof using Hc.
  destruct (Z.eqb_spec (Opcode h) CQEReqErr); [|by eexists _, _].
  replace (u32 (u32 (u32 x + 1) - 1)) with (u32 x) by (rewrite u32_add_l, u32_sub_l; f_equal; lia).
  destruct (Entry_Some j _ _ Hc x) as (ent & -> & Hel). cbn [mbind option_bind]. unfold Error.
  destruct (get_at_Some cqeSyndrome ent) as (a & ->); [unfold cqeSyndrome; lia|]. cbn [mbind option_bind].
  destruct (get_at_Some cqeVendorSyndrom ent) as (b & ->); [unfold cqeVendorSyndrom; lia|]. cbn [mbind option_bind].
  unfold get_be, cqeSWQEOpcodeQPN, cqeHeader. rewrite !slice_Some by lia. cbn [mbind option_bind].
  eexists _, _. split; [done|]. by destruct fl.
Qed.

Lemma read_none C pend r : pend = [] -> r_ci r = u32 C -> read_result C pend r r 0.
Proof using Hmax.
  intros -> Hr. split; simpl; try done; try lia.
  - by rewrite Z.add_0_r.
  - intros (i & Hi & _). lia.
Qed.

Lemma reports_error_S C n : reports_error hdr C (S n) <-> Opcode (hdr C) = CQEReqErr \/ reports_error hdr (C + 1) n.
Proof using Hmax.
  unfold reports_error. split.
  - intros ([|i] & Hi & E); [left; by rewrite Z.add_0_r in E|right]. exists i. split; [lia|].
    by replace (C + 1 + Z.of_nat i) with (C + Z.of_nat (S i)) by lia.
  - intros [E|(i & Hi & E)]; [exists 0%nat; rewrite Z.add_0_r; split; [lia|done]|].
    exists (S i). split; [lia|]. by replace (C + Z.of_nat (S i)) with (C + 1 + Z.of_nat i) by lia.
Qed.

Lemma read_cons C k pend r r1 r' n :
  r_completed r1 = r_completed r + 1 -> r_release r1 = Some (finish B H es k) ->
  (r_failed r <> None -> r_failed r1 = r_failed r) -> (Opcode (hdr C) = CQEReqErr -> r_failed r1 <> None) ->
  (Opcode (hdr C) <> CQEReqErr -> r_failed r1 = r_failed r) ->
  (covers es k <= max \/ r_release r = None) ->
  read_result (C + 1) pend r1 r' n -> read_result C (k :: pend) r r' (S n).
Proof using Hmax.
  intros E1 E2 F1 F2 F3 Hcov [R1 R2 R3 R4 R5 R6 R7 R8 R9]. split; simpl; try lia.
  - rewrite R2. f_equal. lia.
  - rewrite R4. by destruct n.
  - intros k' Hk'. destruct (R5 k' Hk') as [_ ?]. done.
  - intros i k' [= <-]. destruct n as [|n]; simpl.
    + intros [= <-]. destruct Hcov; [by left|by right].
    + intros Hk'. destruct (R6 n k' eq_refl Hk') as [?|[_ ?]]; [by left|]. congruence.
  - intros Hf. rewrite R7; [by apply F1|]. by rewrite F1.
  - rewrite reports_error_S. intros [He|He]; [|by apply R8]. rewrite R7; by apply F2.
  - rewrite reports_error_S. intros Hn. rewrite R9 by tauto. apply F3. tauto.
Qed.

Lemma complete_loop_honest : forall pend n C r,
  honest (cq (par t)) cqbuf C P hdr B es pend -> r_ci r = u32 C -> (length pend <= n)%nat -> read_so_far pend r ->
  exists m r', complete_loop n max cqbuf t r = Some r' /\ read_result C pend r r' m.
Proof using Hinv Hc Hmax.
  induction pend as [|k pend IH]; intros n C r Hh Hr Hn Hsofar.
  - destruct n as [|n]; [by exists 0%nat, r; split; [done|apply read_none]|]. cbn [complete_loop].
    destruct (Owned_written j _ _ P hdr C Hc (ho_holds _ _ _ _ _ _ _ _ Hh)) as (h & Hl & Ho & _);
      [destruct (ho_window _ _ _ _ _ _ _ _ Hh); lia|destruct (ho_window _ _ _ _ _ _ _ _ Hh); lia|].
    rewrite Hr, Hl. cbn [mbind option_bind]. rewrite Ho.
    pose proof (ho_pend _ _ _ _ _ _ _ _ Hh) as Hp. change (zlen []) with 0 in Hp.
    rewrite (proj2 (Z.ltb_ge C P)) by lia. simpl. exists 0%nat, r. split; [done|by apply read_none].
  - destruct n as [|n]; [simpl in Hn; lia|]. cbn [complete_loop].
    pose proof (ho_pend _ _ _ _ _ _ _ _ Hh) as Hp. rewrite zlen_cons in Hp. pose proof (zlen_nonneg pend).
    destruct (Owned_written j _ _ P hdr C Hc (ho_holds _ _ _ _ _ _ _ _ Hh)) as (h & Hl & Ho & Hhdr);
      [destruct (ho_window _ _ _ _ _ _ _ _ Hh); lia|destruct (ho_window _ _ _ _ _ _ _ _ Hh); lia|].
    rewrite Hr, Hl. cbn [mbind option_bind]. rewrite Ho, (proj2 (Z.ltb_lt C P)) by lia. cbn [negb].
    rewrite (Hhdr ltac:(lia)) in *. clear Hhdr.
    pose proof (ho_names _ _ _ _ _ _ _ _ Hh 0%nat k eq_refl) as Hnm. rewrite Z.add_0_r in Hnm.
    destruct (Hnm) as (Hk & _ & Hfmt & Hop). rewrite Hfmt. cbn [negb Z.eqb CQEFormatNoData].
    assert (Hopb : negb (Opcode (hdr C) =? CQEReq) && negb (Opcode (hdr C) =? CQEReqErr) = false).
    { destruct Hop as [-> | ->]; done. }
    rewrite Hopb, (entryFor_live kb ks kf B H es t _ k Hinv Hnm). cbn [mbind option_bind].
    destruct (covers_used k Hk) as [Hused Hrange]. destruct (finish B H es k) as [target hd] eqn:Efin.
    cbn [fst] in Hused.    rewrite Hused, (u32_small max) by lia.
    destruct (is_some (r_release r) && (covers es k >? max)) eqn:Estop.
    { apply andb_true_iff in Estop as [Es Eg]. rewrite Z.gtb_ltb in Eg. to_prop.
      exists 0%nat, r. split; [done|]. split; simpl; try done; try lia.
      - by rewrite Z.add_0_r.
      - intros k' [= <-]. split; [|done]. intros _ E. by rewrite E in Es.
      - intros (i & Hi & _). lia. }
    destruct (latch (hdr C) C (r_failed r) (r_errors r)) as (fl & er & -> & F1 & F2 & F3). cbn [mbind option_bind].
    cbv zeta. rewrite u32_add_l. set (r1 := mkReading _ _ _ fl er).
    assert (Hcov : covers es k <= max \/ r_release r = None).
    { destruct (r_release r); [|by right]. simpl in Estop. rewrite Z.gtb_ltb in Estop. to_prop. by left. }
    assert (Hnext : forall i k', pend !! i = Some k' -> (k < k')%nat).
    { intros i k' Hi. by apply (ho_order _ _ _ _ _ _ _ _ Hh 0%nat (S i) k k'); [done|done|lia]. }
    pose proof (honest_tail _ _ _ _ _ _ _ _ _ Hh) as Ht.
    destruct (Z.geb_spec (covers es k) max) as [Hge|Hlt].
    + exists 1%nat, r1. split; [done|]. apply (read_cons _ _ _ _ r1); try done; [simpl; by rewrite Efin|].
      split; simpl; try done; try lia.
      * by rewrite Z.add_0_r.
      * intros k' Hk'. split; [done|]. assert (covers es k < covers es k'); [|lia].
        eapply covers_mono; [exact (ti_entries _ _ _ _ _ _ _ Hinv)|].
        split; [by eapply Hnext|]. by destruct (ho_names _ _ _ _ _ _ _ _ Ht 0%nat k' Hk').
      * intros (i & Hi & _). lia.
    + destruct (IH n (C + 1) r1 Ht eq_refl) as (m & r' & El & Hres); [simpl in Hn; lia| |].
      { unfold read_so_far. simpl. split.
        - unfold read_so_far in Hsofar. destruct (r_release r); [destruct Hsofar; lia|lia].
        - exists k. rewrite Efin. split_and!; done. }
      exists (S m), r'. split; [done|]. apply (read_cons _ _ _ _ r1); try done. simpl. by rewrite Efin.
Qed.
End honest.

(** Finishing the first [n] entries. *)
Lemma inv_drop kb ks kf B H es t t' n :
  tx_inv kb ks kf B H es t ->
  (par t', sqBytes t', meta t', slots t', pi t', slotTail t') = (par t, sqBytes t, meta t, slots t, pi t, slotTail t) ->
  head t' = u32 (B + blocks (take n es)) -> slotHead t' = u32 (H + zlen (outstanding (take n es))) ->
  tx_inv kb ks kf (B + blocks (take n es)) (H + zlen (outstanding (take n es))) (drop n es) t'.
Proof.
  intros [Hp Hsq Hme Hsl Hh Hpi Hsh Hst Hr Hes Hw Hl Hmt] [= E1 E2 E3 E4 E5 E6] Eh Es.
  rewrite <- (take_drop n es) in Hpi, Hst, Hr, Hw, Hl. rewrite blocks_app in Hpi, Hr. rewrite outstanding_app in Hst, Hw.
  rewrite zlen_app in Hst. apply laid_app in Hl as [_ Hl].
  pose proof (entries_counts _ _ (Forall_take _ n _ Hes)) as [Hb _]. pose proof (zlen_nonneg (take n es)).
  split; rewrite ?E1, ?E2, ?E3, ?E4, ?E5, ?E6, ?Eh, ?Es; try done.
  - rewrite Hpi. f_equal. lia.
  - rewrite Hst. f_equal. lia.
  - lia.
  - by apply Forall_drop.
  - rewrite length_app, window_app in Hw. apply app_inj_1 in Hw as [_ Hw]; [done|by rewrite length_window].
Qed.

(** How many entries the first [m] of the pending completions finish. *)
Definition finished (pend : list nat) (m : nat) : nat :=
  match m with O => O | S i => match pend !! i with Some k => S k | None => O end end.

Lemma honest_rest c cqbuf C P hdr B es pend m :
  honest c cqbuf C P hdr B es pend -> (m <= length pend)%nat ->
  let n := finished pend m in
  honest c cqbuf (C + Z.of_nat m) P hdr (B + blocks (take n es)) (drop n es) (map (fun k => k - n)%nat (drop m pend)).
Proof.
  intros [Hh Hw Hp Hn Ho] Hm n.
  assert (Hge : forall i k, pend !! (m + i)%nat = Some k -> (n <= k)%nat).
  { intros i k Hk. unfold n, finished. destruct m as [|m]; [lia|]. destruct (pend !! m) as [k0|] eqn:E0; [|lia].
    apply (Ho m (S m + i)%nat k0 k); [done|done|lia]. }
  unfold zlen in *. split; try done.
  - lia.
  - unfold zlen. rewrite length_map, length_drop. lia.
  - intros i k Hk. rewrite list_lookup_fmap in Hk. rewrite lookup_drop in Hk.
    destruct (pend !! (m + i)%nat) as [k0|] eqn:E0; [|done]. injection Hk as <-.
    pose proof (Hge i k0 E0). destruct (Hn _ _ E0) as (Hlt & Hctr & Hrest).
    replace (C + Z.of_nat m + Z.of_nat i) with (C + Z.of_nat (m + i)) by lia.
    split; [rewrite length_drop; lia|]. split; [|done]. rewrite Hctr. f_equal.
    rewrite <- Z.add_assoc, <- blocks_app, take_take_drop. do 3 f_equal. lia.
  - intros i i' k k' Hi Hi' Hlt. rewrite list_lookup_fmap, lookup_drop in Hi, Hi'.
    destruct (pend !! (m + i)%nat) as [k0|] eqn:E0; [|done]. destruct (pend !! (m + i')%nat) as [k0'|] eqn:E0'; [|done].
    injection Hi as <-. injection Hi' as <-. pose proof (Hge _ _ E0). pose proof (Hge _ _ E0').
    pose proof (Ho _ _ _ _ E0 E0' ltac:(lia)). lia.
Qed.

(** [Complete] against an honest device. *)
Lemma Complete_spec kb ks kf j B H C P es pend hdr t cqbuf max out :
  tx_inv kb ks kf B H es t -> cq_ok j (cq (par t)) cqbuf -> ci t = u32 C ->
  honest (cq (par t)) cqbuf C P hdr B es pend -> 0 < max < 2 ^ 32 ->
  exists m t', let n := finished pend m in
    Complete max cqbuf out t = Some (out ++ outstanding (take n es), t') /\
    tx_inv kb ks kf (B + blocks (take n es)) (H + zlen (outstanding (take n es))) (drop n es) t' /\
    ci t' = u32 (C + Z.of_nat m) /\
    honest (cq (par t')) cqbuf (C + Z.of_nat m) P hdr (B + blocks (take n es)) (drop n es) (map (fun k => k - n)%nat (drop m pend)) /\
    (pend <> [] -> 0 < m)%nat /\ ((1 < m)%nat -> zlen (outstanding (take n es)) <= max) /\
    (forall k, pend !! m = Some k -> max < covers es k) /\
    (reports_error hdr C m -> failed t' <> None) /\ (~ reports_error hdr C m -> failed t' = failed t) /\
    (m <= length pend)%nat /\ (par t', sqDbrec t') = (par t, sqDbrec t).
Proof.
  intros Hinv Hc HC Hh Hmax.
  assert (Hlen : (length pend <= Z.to_nat (Entries (cq (par t))))%nat).
  { destruct Hh as [_ [Hw1 Hw2] Hp _ _]. unfold zlen in Hp. lia. }
  destruct (complete_loop_honest kb ks kf B H j es t cqbuf max P hdr Hinv Hc Hmax pend _ C
    (mkReading (ci t) None 0 (failed t) 0) Hh HC Hlen eq_refl) as (m & r & Hloop & [R1 R2 R3 R4 R5 R6 _ R8 R9]).
  cbn [r_release r_completed r_failed] in *. rewrite Z.add_0_l in R3. set (n := finished pend m).
  assert (Hfin : r_release r = match m with O => None | S _ => Some (u32 (H + zlen (outstanding (take n es))), u32 (B + blocks (take n es))) end /\
    (n <= length es)%nat).
  { rewrite R4. unfold n, finished. destruct m as [|i]; [split; [done|lia]|].
    destruct (lookup_lt_is_Some_2 pend i ltac:(lia)) as [k Hk]. rewrite Hk. split; [done|].
    destruct (ho_names _ _ _ _ _ _ _ _ Hh i k Hk) as [? _]. lia. }
  destruct Hfin as [Hfin Hn].
  assert (Hzn : m = 0%nat -> take n es = []) by (intros ->; done).
  assert (Htake : outstanding (take n es) = take (length (outstanding (take n es))) (outstanding es)).
  { rewrite <- (take_drop n es) at 3. rewrite outstanding_app. by rewrite take_app_length. }
  destruct (Complete_result kb ks kf B H es t cqbuf max out r (length (outstanding (take n es)))) as
    (t' & E & E1 & E2 & E3 & E4 & E5 & E6 & _); try done; [lia| | | |].
  { rewrite Hfin. destruct m; [by rewrite (Hzn eq_refl)|done]. }
  { rewrite <- (take_drop n es) at 2. rewrite outstanding_app, length_app. lia. }
  { rewrite R3, Hfin. destruct m; [done|lia]. }
  exists m, t'. cbv zeta. fold n. rewrite <- Htake in E. split; [done|].
  assert (Ehead : head t' = u32 (B + blocks (take n es))).
  { rewrite E2, Hfin. destruct m; [|done]. rewrite (Hzn eq_refl), (ti_head _ _ _ _ _ _ _ Hinv). simpl. by rewrite Z.add_0_r. }
  injection (E3). intros _ _ _ _ _ Epar.
  split; [by apply (inv_drop _ _ _ _ _ _ t)|]. split; [by rewrite E4, R2|].
  split; [rewrite Epar; by apply honest_rest|].
  injection E6 as E7 _ _.
  split; [|split; [|split; [|split; [by rewrite E5|split; [by rewrite E5|split; [done|by rewrite E7, Epar]]]]]].
  - intros Hne. destruct m; [|lia]. destruct pend as [|k pend]; [done|]. destruct (R5 k eq_refl) as [Hbad _]. by destruct Hbad.
  - intros Hm. destruct m as [|i]; [lia|]. destruct (lookup_lt_is_Some_2 pend i ltac:(lia)) as [k Hk].
    unfold n, finished. rewrite Hk. destruct (R6 i k eq_refl Hk) as [?|[? _]]; [done|lia].
  - intros k Hk. by destruct (R5 k Hk).
Qed.
