(* ===== verification/RingTxSystem.v ===== *)
(** The send ring's theorems: what [NewTx] sets up, what [Post] takes, and
    the ring together with a device that finishes its entries. *)

From stdpp Require Import prelude list numbers strings.
From S2P Require Import Prelude Circ Bytes Desc Sq Send Mpw Cqe RingTx RingTxInv RingTxPost RingTxMulti RingTxComplete.

(** ** Posting, in every mode *)

Lemma FreeSlots_nonneg kb ks kf B H es t : tx_inv kb ks kf B H es t -> 0 <= FreeSlots t.
Proof.
  intros Hinv. pose proof (inv_sizes _ _ _ _ _ _ _ Hinv). pose proof (inv_pows _ _ _ _ _ _ _ Hinv).
  pose proof (maxBBs_pos _ _ _ _ (ti_par _ _ _ _ _ _ _ Hinv)).
  unfold FreeSlots. destruct (failed t); [lia|]. rewrite (inv_free _ _ _ _ _ _ _ Hinv).
  unfold MaxDS, Octoword, WQEBB. destruct (mpw (par t)) as [m|]; [|apply Z.div_pos; lia].
  match goal with |- context [if ?x >? ?y then _ else _] => set (a := x); set (b := y) end.
  assert (0 <= b) by apply u32_range.
  assert (0 <= a).
  { unfold a. destruct (Pointer m).
    - destruct (Z.gtb_spec ((2 ^ kb - blocks es) mod ((2 + (60 - 2)) * 16 / 64) * (64 / 16) - 2) 0);
        change ((2 + (60 - 2)) * 16 / 64) with 15 in *; divlia.
    - pose proof (u64_range (4 + u64 (MaxLen m) + 16 - 1)). set (q := u64 (4 + u64 (MaxLen m) + 16 - 1) / 16).
      assert (0 <= q) by (unfold q; divlia). change (64 / 16) with 4. destruct (decide (q = 0)) as [->|]; [by rewrite Zdiv_0_r|].
      apply Z.div_pos; lia. }
  destruct (a >? b); lia.
Qed.

Lemma FreeSlots_pointer kb ks kf B H es t m :
  tx_inv kb ks kf B H es t -> mpw (par t) = Some m -> Pointer m = true -> failed t = None ->
  FreeSlots t = offer (2 ^ kb - blocks es).
Proof.
  intros Hinv Hm Hptr Hf. pose proof (inv_sizes _ _ _ _ _ _ _ Hinv) as Hsz. pose proof (inv_pows _ _ _ _ _ _ _ Hinv) as Hpw.
  unfold FreeSlots. rewrite Hf, Hm, Hptr, (inv_free _ _ _ _ _ _ _ Hinv), (inv_inflight _ _ _ _ _ _ _ Hinv), (ti_slotlen _ _ _ _ _ _ _ Hinv).
  rewrite (u32_small (2 ^ ks)), (u32_small (2 ^ ks - _)) by lia. unfold MaxDS, Octoword, WQEBB.
  change ((2 + (60 - 2)) * 16 / 64) with 15. change (64 / 16) with 4.
  pose proof (po_slots _ _ _ _ (ti_par _ _ _ _ _ _ _ Hinv)) as Hps. unfold per_block in *. rewrite Hm in *.
  set (free := 2 ^ kb - blocks es) in *. pose proof (offer_le free ltac:(unfold free; lia)) as Hol. unfold offer in *.
  assert (E : free / 15 * (60 - 2) + (if free mod 15 * 4 - 2 >? 0 then free mod 15 * 4 - 2 else 0) =
              free / 15 * 58 + Z.max 0 (free mod 15 * 4 - 2)).
  { destruct (Z.gtb_spec (free mod 15 * 4 - 2) 0); lia. }
  rewrite E. destruct (Z.gtb_spec (free / 15 * 58 + Z.max 0 (free mod 15 * 4 - 2)) (2 ^ ks - zlen (outstanding es))); [|lia].
  unfold free in *. lia.
Qed.

(** Only the first [FreeSlots] descriptors matter. *)
Lemma Post_clip region descs t :
  failed t = None -> 0 < FreeSlots t -> Post region descs t = Post region (take (Z.to_nat (FreeSlots t)) descs) t.
Proof.
  intros Hf Hpos. unfold Post. rewrite Hf. set (free := FreeSlots t) in *.
  destruct (Z.gtb_spec (zlen descs) free) as [Hgt|Hle].
  - assert (Hz : zlen (take (Z.to_nat free) descs) = free) by (unfold zlen in *; rewrite length_take; lia).
    rewrite Hz, (proj2 (Z.eqb_neq free 0)) by lia. rewrite Z.gtb_ltb, Z.ltb_irrefl. cbn [andb]. rewrite (proj2 (Z.eqb_neq free 0)) by lia.
    rewrite !slice_Some by lia. rewrite Z.sub_0_r, !drop_0, take_take, Nat.min_id. done.
  - rewrite firstn_all2 by (unfold zlen in *; lia). rewrite Z.gtb_ltb, (proj2 (Z.ltb_ge _ _)) by lia. done.
Qed.

Lemma made_descOK p m region b sg e : made p m region b sg e -> Forall (fun d => descOK p d = true) (e_descs e).
Proof. intros [d f Hd Hf|ds fs Hd _ _ _ _|ds fs Hd _ _ _ _]; simpl; [by constructor|done|done]. Qed.

Lemma all_made_descOK p m region : forall es b, all_made p m region b es -> Forall (fun d => descOK p d = true) (outstanding es).
Proof.
  induction es as [|e es IH]; intros b; [constructor|]. intros [H1 H2]. unfold outstanding. simpl.
  apply Forall_app. split; [by eapply made_descOK|by eapply IH].
Qed.

(** The entries a batch consists of, by the mode of the queue. *)
Definition batch_shape (t : Tx) (region : list Z) (b : Z) (descs : list Desc) (new : list entry) : Prop :=
  match mpw (par t) with
  | None => new = batch_entries (par t) region b (sinceSignal t) descs
  | Some m => batch_made (par t) m region b new
  end.

(** A queue without multi-packet entries, or one that points at its packets. *)
Definition exact_mode (p : TxParams) : Prop := match mpw p with None => True | Some m => Pointer m = true end.

Section post.
Context (kb ks kf B H : Z) (es : list entry) (t : Tx) (region : list Z).
Context (Hinv : tx_inv kb ks kf B H es t) (Hr : zlen region = regionLen (par t)).

Lemma Post_few descs :
  failed t = None -> Forall desc_ok descs -> 0 < zlen descs <= FreeSlots t ->
  exists new t', Post region descs t = Some (zlen (outstanding new), t') /\ tx_inv kb ks kf B H (es ++ new) t' /\
    batch_shape t region (B + blocks es) descs new /\ outstanding new = take (length (outstanding new)) descs /\
    Forall (fun d => descOK (par t) d = true) (outstanding new) /\ published t t' B es new /\
    (par t', ci t', cqDbrec t', failed t') = (par t, ci t, cqDbrec t, None) /\
    (exact_mode (par t) -> Forall (fun d => descOK (par t) d = true) descs -> outstanding new = descs).
Proof using Hinv Hr.
  intros Hf Hds Hn. unfold batch_shape, exact_mode. destruct (mpw (par t)) as [m|] eqn:Hm.
  - destruct (postMulti_spec kb ks kf B H es t region m descs Hinv Hm Hr Hds) as
      (new & t' & E & Hi & Hb & Ho & Hpub & Hs & Hfull).
    exists new, t'. split.
    { unfold Post. rewrite Hf, Z.gtb_ltb, (proj2 (Z.ltb_ge _ (zlen descs))) by lia. cbn [andb].
      rewrite (proj2 (Z.eqb_neq (zlen descs) 0)) by lia. rewrite slice_Some by lia.
      rewrite Z.sub_0_r, drop_0, firstn_all2 by (unfold zlen; lia). cbn [mbind option_bind]. by rewrite Hm. }
    rewrite Hf in Hs. split_and!; try done.
    + destruct new as [|e0 new0] eqn:En; [constructor|]. rewrite <- En in *.
      assert (Hb' : batch_made (par t) m region (B + blocks es) new) by done. unfold batch_made in Hb'. rewrite En in Hb'.
      rewrite <- En in Hb'. destruct Hb' as (H1 & e & Ee & H2). rewrite Ee, outstanding_app, outstanding_one.
      apply Forall_app. split; [by eapply all_made_descOK|by eapply made_descOK].
    + intros Hptr Hall. apply Hfull; try done. rewrite (FreeSlots_pointer _ _ _ _ _ _ _ m Hinv) in Hn by done. lia.
  - destruct (Post_batch kb ks kf B H es t region Hinv Hm Hf Hr descs Hds Hn) as (t' & E & Hi & Hpub & Hs).
    set (new := batch_entries _ _ _ _ _) in *. exists new, t'.
    assert (Ho : outstanding new = accepted (par t) descs) by apply outstanding_batch.
    assert (Hz : zlen (outstanding new) = zlen new) by (rewrite Ho; unfold zlen; f_equal; symmetry; apply length_batch).
    rewrite Hz. split_and!; try done; rewrite Ho.
    + destruct (accepted_prefix (par t) descs) as (rest & E1 & _). rewrite E1 at 3. by rewrite take_app_length.
    + by destruct (accepted_prefix (par t) descs) as (rest & _ & E1 & _).
    + intros _. apply accepted_all.
Qed.

(** [Post] on any batch. *)
Lemma Post_spec descs :
  Forall desc_ok descs ->
  exists new t', Post region descs t = Some (zlen (outstanding new), t') /\ tx_inv kb ks kf B H (es ++ new) t' /\
    (failed t = None -> batch_shape t region (B + blocks es) (take (Z.to_nat (FreeSlots t)) descs) new) /\
    outstanding new = take (length (outstanding new)) descs /\ zlen (outstanding new) <= FreeSlots t /\
    Forall (fun d => descOK (par t) d = true) (outstanding new) /\ published t t' B es new /\
    (par t', ci t', cqDbrec t', failed t') = (par t, ci t, cqDbrec t, failed t) /\
    (exact_mode (par t) -> Forall (fun d => descOK (par t) d = true) descs ->
     outstanding new = take (Z.to_nat (FreeSlots t)) descs).
Proof using Hinv Hr.
  intros Hds. pose proof (FreeSlots_nonneg _ _ _ _ _ _ _ Hinv) as Hnn.
  assert (Hshape : batch_shape t region (B + blocks es) [] []) by (unfold batch_shape; by destruct (mpw (par t))).
  destruct (failed t) as [f|] eqn:Hf.
  { exists [], t. assert (H0 : FreeSlots t = 0) by (unfold FreeSlots; by rewrite Hf).
    unfold Post. rewrite Hf, app_nil_r, H0, take_0. by split_and!. }
  destruct (decide (FreeSlots t = 0)) as [H0|H0].
  { rewrite H0, take_0. destruct descs as [|d ds].
    - exists [], t. unfold Post. rewrite Hf, H0, app_nil_r. by split_and!.
    - exists [], (publish (with_counters inc_ringFull t)). unfold Post. rewrite Hf, H0, app_nil_r.
      rewrite Z.gtb_ltb, (proj2 (Z.ltb_lt 0 _)) by (rewrite zlen_cons; pose proof (zlen_nonneg ds); lia).
      split_and!; try done; [by eapply tx_inv_same|]. simpl. by rewrite Hf. }
  destruct descs as [|d0 ds0] eqn:Edescs.
  { exists [], t. unfold Post. rewrite Hf, take_nil, app_nil_r. change (zlen (@nil Desc)) with 0.
    rewrite Z.gtb_ltb, (proj2 (Z.ltb_ge _ 0)) by lia. by split_and!. }
  rewrite <- Edescs in *. rewrite (Post_clip region descs t) by (done || lia).
  set (n := Z.to_nat (FreeSlots t)).
  destruct (Post_few (take n descs)) as (new & t' & E & Hi & Hb & Ho & Hok & Hpub & Hs & Hfull); try done.
  { by apply Forall_take. }
  { assert (0 < zlen descs) by (rewrite Edescs, zlen_cons; pose proof (zlen_nonneg ds0); lia).
    unfold n, zlen in *. rewrite length_take. lia. }
  assert (Hle : zlen (outstanding new) <= FreeSlots t).
  { rewrite Ho. unfold zlen. rewrite !length_take. unfold n. lia. }
  exists new, t'. split_and!; try done.
  - rewrite Ho at 1. rewrite take_take. f_equal. unfold zlen, n in *. lia.
  - intros H1 H2. apply Hfull; [done|]. by apply Forall_take.
Qed.
End post.

(** ** Setting up *)

Lemma nextPow2_loop_pow a : 0 <= a <= 31 -> forall fuel b,
  0 <= b <= a -> a - b <= Z.of_nat fuel -> nextPow2_loop fuel (2 ^ a) (2 ^ b) = Some (2 ^ a).
Proof.
  intros Ha. induction fuel as [|fuel IH]; intros b Hb Hf; cbn [nextPow2_loop].
  - replace b with a by lia. by rewrite Z.ltb_irrefl.
  - destruct (decide (b = a)) as [->|Hne]; [by rewrite Z.ltb_irrefl|].
    rewrite (proj2 (Z.ltb_lt _ _)) by (apply Z.pow_lt_mono_r; lia).
    rewrite Z.shiftl_mul_pow2, <- Z.pow_add_r by lia.
    rewrite u32_small; [apply IH; lia|]. split; [lia|]. apply Z.pow_lt_mono_r; lia.
Qed.

Lemma nextPow2_pow a : 0 <= a <= 31 -> nextPow2 (2 ^ a) = Some (2 ^ a).
Proof. intros Ha. unfold nextPow2. change 1 with (2 ^ 0). apply nextPow2_loop_pow; lia. Qed.

(** The widths of the configuration's fields, and queues the device can
    address: 16-bit block indices, 24-bit completion indices. *)
Record cfg_ok (cfg : TxConfig) : Prop := {
  co_sq : zlen (cfg_SQ cfg) <= 2 ^ 22;
  co_cq : zlen (cfg_CQ cfg) <= 64 * 2 ^ 24;
  co_cqb : bytes_ok (cfg_CQ cfg);
  co_qpn : 0 <= cfg_QPN cfg < 2 ^ 24;
  co_inline : cfg_InlineLen cfg < 2 ^ 31;
  co_maxlen : cfg_MultiPacketMaxLen cfg < 2 ^ 31;
  co_frame : cfg_FrameSize cfg <= 2 ^ 32;
  co_region : 0 <= cfg_regionLen cfg < 2 ^ 63
}.

Lemma OnesCount_one n : 0 < n -> OnesCount n = 1 -> exists k, 0 <= k /\ n = 2 ^ k.
Proof. intros Hn Ho. by apply OnesCount_pow2 in Ho. Qed.

Lemma newMPW_ok k sq buf cfg mp spb :
  sq_ok k sq buf -> cfg_ok cfg -> newMPW sq cfg = Some (Ok (mp, spb)) ->
  (mp = None /\ spb = 1) \/
  exists m, mp = Some m /\ spb = 4 /\ cfg_InlineLen cfg = 0 /\ mpw_ok m /\ m_sq m = sq /\ m_qpn m = cfg_QPN cfg /\ m_lkey m = cfg_LKey cfg.
Proof.
  intros Hq Hcfg. unfold newMPW. destruct (cfg_MultiPacket cfg); [|intros [= <- <-]; by left].
  case_if; [done|]. destruct (Z.eqb_spec (cfg_InlineLen cfg) 0) as [Ei|]; simpl negb; [|done].
  destruct (NewMPWSender sq _) as [[m|]|] eqn:Em; cbn [mbind option_bind]; try done.
  intros [= <- <-]. right. exists m. apply (NewMPWSender_ok k sq buf) in Em as (? & ? & _ & ? & ?); [|done|simpl; by destruct Hcfg].
  split_and!; done.
Qed.

Lemma NewTx_inv cfg t :
  cfg_ok cfg -> NewTx cfg = Some (Ok t) ->
  exists kb ks kf j, zlen (cfg_SQ cfg) = 64 * 2 ^ kb /\ tx_inv kb ks kf 0 0 [] t /\ cq_ok j (cq (par t)) (cfg_CQ cfg) /\ 2 ^ kb <= Entries (cq (par t)) /\
    ci t = 0 /\ sqDbrec t = 0 /\ failed t = None /\ sqBytes t = cfg_SQ cfg /\ regionLen (par t) = cfg_regionLen cfg.
Proof.
  intros Hcfg Hnew. destruct (Hcfg) as [Hsq Hcq Hcqb Hqpn Hinl Hml Hfr Hreg]. unfold NewTx in Hnew.
  destruct (NewSQ (cfg_SQ cfg)) as [sq|] eqn:Esq; [|done].
  destruct (NewCQ (cfg_CQ cfg) CQESize) as [c0|] eqn:Ecq; [|done].
  destruct (NewSender sq _) as [s|] eqn:Es; [|done].
  apply NewSQ_ok in Esq as [k Hq]; [|done]. apply NewCQ_ok in Ecq as [j Hcqok]; [|done|done].
  apply (NewSender_ok k sq _ s (cfg_SQ cfg) Hq) in Es as (Hs & Hssq & Hsi & Hsq1 & Hsk); [|done|done].
  case_if_in Hnew; [done|]. case_if_in Hnew; [done|].
  destruct (newMPW sq cfg) as [[[mp spb]|]|] eqn:Em; cbn [mbind option_bind] in Hnew; try done.
  pose proof (newMPW_ok k sq _ cfg mp spb Hq Hcfg Em) as Hmp.
  destruct (Hq) as (Hk & Hlen & Hmask & Hbbs). unfold BBs in *. rewrite Hbbs in *.
  pose proof (pow2_split k ltac:(lia)) as Hsplit. set (kb := k - 6) in *.
  set (a := match mp with Some _ => 2 | None => 0 end).
  assert (Hspb : 2 ^ kb * spb = 2 ^ (kb + a)).
  { rewrite Z.pow_add_r by (unfold kb, a; destruct mp; lia).
    destruct Hmp as [[-> ->]|(m & -> & -> & _)]; unfold a; lia. }
  assert (Hp16 : 0 < 2 ^ kb <= 2 ^ 16) by (unfold kb; split; [lia|apply Z.pow_le_mono_r; lia]).
  assert (Hpa : 0 < 2 ^ (kb + a) <= 2 ^ 18) by (unfold kb, a; destruct mp; split; try lia; apply Z.pow_le_mono_r; lia).
  rewrite Hspb, (u32_small (2 ^ (kb + a))), nextPow2_pow in Hnew by first [lia|unfold kb, a; destruct mp; lia].
  cbn [mbind option_bind] in Hnew. case_if_in Hnew; [done|].
  destruct ((cfg_FrameSize cfg <=? 0) || negb (OnesCount (u64 (cfg_FrameSize cfg)) =? 1)) eqn:Ef; [done|].
  to_prop. case_if_in Hnew; [done|]. injection Hnew as <-.
  rewrite u64_small in * by lia. destruct (OnesCount_one (cfg_FrameSize cfg)) as (kf & Hkf & Efs); [lia|done|].
  assert (Hkf32 : kf <= 32).
  { destruct (decide (kf <= 32)); [done|]. assert (2 ^ 32 < 2 ^ kf) by (apply Z.pow_lt_mono_r; lia). lia. }
  rewrite (u32_small (2 ^ kb - 1)), (u32_small (2 ^ (kb + a) - 1)) by lia.
  exists kb, (kb + a), kf, j. simpl. split; [lia|]. split; [|split; [done|split; [lia|done]]].
  split; simpl; try done.
  - split; simpl; try done.
    + unfold kb; lia.
    + unfold kb, a; destruct mp; lia.
    + rewrite <- Hspb. unfold per_block. simpl. destruct Hmp as [[-> ->]|(m & -> & -> & _)]; lia.
    + by rewrite Hssq.
    + rewrite Hssq, Hmask. unfold kb. do 2 f_equal. lia.
    + by rewrite Efs.
    + split; [done|]. rewrite <- Efs. done.
    + intros m ->. destruct Hmp as [[? _]|(m' & [= <-] & _ & Hi & Hok & Hm & Hq1 & Hk1)]; [done|].
      rewrite Hssq, Hsi, Hsq1, Hsk. done.
  - unfold kb in *. lia.
  - unfold zlen. rewrite length_replicate. lia.
  - unfold zlen. rewrite length_replicate. lia.
  - lia.
  - apply Forall_replicate. simpl. lia.
Qed.

(** The send ring and the device together.

    The device is a step relation over the same memory: it may finish the next
    published entry, silently or by writing a completion that names the
    entry's block, and it looks at nothing but the send queue's bytes and the
    doorbell record.  It never checks whether the completion queue has room. *)

(** [s_D] counts the blocks the device has finished, [s_P] the completions it
    has written; [s_posted] and [s_released] log what [Post] took and what
    [Complete] gave back. *)
Record sys : Set := mkSys {
  s_tx : Tx; s_cq : list Z; s_D : Z; s_P : Z; s_posted : list Desc; s_released : list Desc
}.

(** The producer index in the doorbell record, as the device reads it. *)
Definition doorbell_index (t : Tx) : Z := be_val (le_bytes 4 (sqDbrec t)).

(** Blocks published that the device has not reached, by 16-bit counters. *)
Definition dev_pending (t : Tx) (D : Z) : Z := u16 (doorbell_index t - D).

(** The size of the entry at block [D], from its octoword count. *)
Definition dev_blocks (t : Tx) (D : Z) : Z := (cell (sqBytes t) (D * 64 + 7) * 16 + 63) / 64.

(** A 64-byte completion naming block [D], for position [P] of the queue. *)
Record cqe_for (c : CQ) (P D : Z) (e : list Z) (h : Z) : Prop := {
  cf_len : zlen e = 64;
  cf_bytes : bytes_ok e;
  cf_hdr : get_be 4 cqeHeader e = Some h;
  cf_owner : Owner h = ExpectedOwner c (u32 P);
  cf_format : Format h = CQEFormatNoData;
  cf_opcode : Opcode h = CQEReq \/ Opcode h = CQEReqErr;
  cf_counter : WQECounter h = u16 D
}.

Inductive step : sys -> sys -> Prop :=
| step_post t q D P lp lr region descs n t' :
    zlen region = regionLen (par t) -> Forall desc_ok descs -> Post region descs t = Some (n, t') ->
    step (mkSys t q D P lp lr) (mkSys t' q D P (lp ++ take (Z.to_nat n) descs) lr)
| step_finish t q D P lp lr :
    dev_pending t D <> 0 ->
    step (mkSys t q D P lp lr) (mkSys t q (D + dev_blocks t D) P lp lr)
| step_report t q D P lp lr e h :
    dev_pending t D <> 0 -> cqe_for (cq (par t)) P D e h ->
    step (mkSys t q D P lp lr) (mkSys t (cq_write (cq (par t)) P e q) (D + dev_blocks t D) (P + 1) lp lr)
| step_complete t q D P lp lr max out t' :
    0 < max < 2 ^ 32 -> Complete max q [] t = Some (out, t') ->
    step (mkSys t q D P lp lr) (mkSys t' q D P lp (lr ++ out)).

(** A queue as it is opened: nothing written, every completion invalid. *)
Definition fresh_cq (c : CQ) (q : list Z) : Prop :=
  forall i, exists h, LoadCQEHeader c (u32 i) q = Some h /\ Opcode h = CQEInvalid.

Inductive reach (cfg : TxConfig) : sys -> Prop :=
| reach_init t : NewTx cfg = Some (Ok t) -> fresh_cq (cq (par t)) (cfg_CQ cfg) -> reach cfg (mkSys t (cfg_CQ cfg) 0 0 [] [])
| reach_step s s' : reach cfg s -> step s s' -> reach cfg s'.

(** ** Writing a completion *)

Lemma cq_report_holds j c P D e h q hdr :
  cq_ok j c q -> cq_holds c q P hdr -> 0 <= P -> cqe_for c P D e h ->
  cq_holds c (cq_write c P e q) (P + 1) (fun i => if i =? P then h else hdr i).
Proof.
  intros Hc Hh HP [Hl Hb Hg Ho _ Hop _]. apply (cq_write_holds j); try done. by destruct Hop as [-> | ->].
Qed.

(** ** The invariant of the system *)

Record sys_inv (kb ks kf j B H C : Z) (es : list entry) (n : nat) (pend : list nat) (hdr : Z -> Z) (s : sys) : Prop := {
  si_tx : tx_inv kb ks kf B H es (s_tx s);
  si_kb : kb <= 15;
  si_cq : cq_ok j (cq (par (s_tx s))) (s_cq s);
  si_room : 2 ^ kb <= Entries (cq (par (s_tx s)));
  si_ci : ci (s_tx s) = u32 C;
  si_honest : honest (cq (par (s_tx s))) (s_cq s) C (s_P s) hdr B es pend;
  si_done : (n <= length es)%nat;
  si_D : s_D s = B + blocks (take n es);
  si_pend (i k : nat) : pend !! i = Some k -> (k < n)%nat;
  si_bell : doorbell_index (s_tx s) = u16 (B + blocks es);
  si_log : s_posted s = s_released s ++ outstanding es
}.

Lemma published_bell t t' B es new :
  published t t' B es new -> doorbell_index t = u16 (B + blocks es) -> doorbell_index t' = u16 (B + blocks (es ++ new)).
Proof.
  unfold published, doorbell_index. destruct new as [|e0 new0].
  - intros [E _] Hb. by rewrite E, app_nil_r.
  - intros (e & _ & E & _) _. rewrite E. apply be32_native_index. pose proof (u16_range (B + blocks (es ++ e0 :: new0))). lia.
Qed.

Lemma honest_more c q C P hdr B es new pend :
  honest c q C P hdr B es pend -> honest c q C P hdr B (es ++ new) pend.
Proof.
  intros [Hh Hw Hp Hn Ho]. split; try done. intros i k Hi. destruct (Hn i k Hi) as (Hk & Hc & Hr).
  split; [rewrite length_app; lia|]. split; [|done]. rewrite take_app_le by lia. done.
Qed.

Lemma pend_length (pend : list nat) n :
  (forall i k, pend !! i = Some k -> (k < n)%nat) ->
  (forall i i' k k', pend !! i = Some k -> pend !! i' = Some k' -> (i < i')%nat -> (k < k')%nat) -> (length pend <= n)%nat.
Proof.
  intros Hn Ho. destruct (decide (length pend = 0)%nat) as [->|Hz]; [lia|].
  assert (G : forall i k, pend !! i = Some k -> (i <= k)%nat).
  { induction i as [|i IH]; intros k Hk; [lia|].
    destruct (lookup_lt_is_Some_2 pend i) as [k0 Hk0]; [apply lookup_lt_Some in Hk; lia|].
    specialize (IH k0 Hk0). pose proof (Ho i (S i) k0 k Hk0 Hk ltac:(lia)). lia. }
  destruct (lookup_lt_is_Some_2 pend (length pend - 1)) as [k Hk]; [lia|].
  pose proof (G _ _ Hk). pose proof (Hn _ _ Hk). lia.
Qed.

Section steps.
Context (kb ks kf j B H C : Z) (es : list entry) (n : nat) (pend : list nat) (hdr : Z -> Z) (s : sys).
Context (Hs : sys_inv kb ks kf j B H C es n pend hdr s).

(** The device has an entry in front of it exactly when one is outstanding,
    and reads its size right. *)
Lemma dev_next : dev_pending (s_tx s) (s_D s) <> 0 ->
  exists e, es !! n = Some e /\ dev_blocks (s_tx s) (s_D s) = e_blocks e /\ take (S n) es = take n es ++ [e].
Proof using Hs.
  destruct Hs as [Hi Hkb _ _ _ _ Hn HD _ Hbell _]. pose proof (inv_pows _ _ _ _ _ _ _ Hi).
  unfold dev_pending. rewrite Hbell, HD. intros Hpen.
  destruct (es !! n) as [e|] eqn:He.
  2: { exfalso. apply Hpen. apply lookup_ge_None in He. rewrite (firstn_all2 (n := n) es) by lia.
       unfold u16. rewrite Zminus_mod_idemp_l, Z.sub_diag. done. }
  exists e. split; [done|]. split; [|by apply take_S_r].
  pose proof (ti_entries _ _ _ _ _ _ _ Hi) as Hes. rewrite Forall_lookup in Hes. destruct (Hes _ _ He) as [_ _ _ _ (ds & Hds & ->)].
  pose proof (ti_laid _ _ _ _ _ _ _ Hi) as Hl. rewrite <- (take_drop_middle _ _ _ He) in Hl.
  apply laid_app in Hl as [_ (_ & Hw & _)].
  unfold dev_blocks. do 3 f_equal. pose proof (lookup_lt_Some _ _ _ Hds) as Hlt.
  apply (f_equal (fun l => l !! 7%nat)) in Hw. rewrite Hds in Hw. unfold window in Hw.
  rewrite list_lookup_fmap, lookup_seq_lt in Hw by lia. simpl in Hw. by injection Hw.
Qed.

Lemma room_for_completion : (n < length es)%nat -> s_P s < C + Entries (cq (par (s_tx s))).
Proof using Hs.
  destruct Hs as [Hi _ _ Hroom _ Hh Hn _ Hp _ _]. intros Hlt.
  pose proof (pend_length pend n Hp (ho_order _ _ _ _ _ _ _ _ Hh)). pose proof (ho_pend _ _ _ _ _ _ _ _ Hh) as Hz.
  pose proof (inv_sizes _ _ _ _ _ _ _ Hi). unfold zlen in *. lia.
Qed.

Lemma inv_post region descs t' m :
  zlen region = regionLen (par (s_tx s)) -> Forall desc_ok descs -> Post region descs (s_tx s) = Some (m, t') ->
  exists new, sys_inv kb ks kf j B H C (es ++ new) n pend hdr
    (mkSys t' (s_cq s) (s_D s) (s_P s) (s_posted s ++ take (Z.to_nat m) descs) (s_released s)).
Proof using Hs.
  intros Hr Hds E. destruct Hs as [Hi Hkb Hc Hroom Hci Hh Hn HD Hp Hbell Hlog].
  destruct (Post_spec kb ks kf B H es _ region Hi Hr descs Hds) as (new & t1 & E1 & Hi1 & _ & Ho & _ & _ & Hpub & Hsame & _).
  rewrite E in E1. injection E1 as -> <-. injection Hsame as P1 P2 _ _.
  exists new. split; simpl; rewrite ?P1, ?P2; try done.
  - by apply honest_more.
  - rewrite length_app. lia.
  - by rewrite take_app_le.
  - by eapply published_bell.
  - rewrite Hlog, outstanding_app, <- app_assoc. do 2 f_equal. unfold zlen. rewrite Nat2Z.id. by rewrite <- Ho.
Qed.

Lemma inv_finish :
  dev_pending (s_tx s) (s_D s) <> 0 ->
  sys_inv kb ks kf j B H C es (S n) pend hdr
    (mkSys (s_tx s) (s_cq s) (s_D s + dev_blocks (s_tx s) (s_D s)) (s_P s) (s_posted s) (s_released s)).
Proof using Hs.
  intros Hpen. destruct (dev_next Hpen) as (e & He & Hb & Ht).
  destruct Hs as [Hi Hkb Hc Hroom Hci Hh Hn HD Hp Hbell Hlog].
  split; simpl; try done.
  - apply lookup_lt_Some in He. lia.
  - rewrite Hb, HD, Ht, blocks_app. simpl. lia.
  - intros i k Hk. pose proof (Hp i k Hk). lia.
Qed.

Lemma inv_report e h :
  dev_pending (s_tx s) (s_D s) <> 0 -> cqe_for (cq (par (s_tx s))) (s_P s) (s_D s) e h ->
  sys_inv kb ks kf j B H C es (S n) (pend ++ [n]) (fun i => if i =? s_P s then h else hdr i)
    (mkSys (s_tx s) (cq_write (cq (par (s_tx s))) (s_P s) e (s_cq s)) (s_D s + dev_blocks (s_tx s) (s_D s)) (s_P s + 1)
       (s_posted s) (s_released s)).
Proof using Hs.
  intros Hpen Hcf. destruct (dev_next Hpen) as (en & He & _). pose proof (room_for_completion (lookup_lt_Some _ _ _ He)) as Hroom1.
  destruct (inv_finish Hpen) as [_ _ _ _ _ _ Hn1 HD1 _ _ _].
  destruct Hs as [Hi Hkb Hc Hroom Hci Hh Hn HD Hp Hbell Hlog].
  destruct Hh as [Hh [Hw1 Hw2] Hz Hnm Ho]. destruct (Hcf) as [Hl Hb Hhd Hown Hfm Hop Hct].
  split; simpl; try done.
  - by apply cq_write_ok.
  - split; try lia.
    + by eapply cq_report_holds; [done|done|lia|].
    + rewrite zlen_app, Hz. change (zlen [n]) with 1. lia.
    + intros i k Hik. unfold zlen in Hz. apply lookup_app_Some in Hik as [Hik|[Hge Hik]].
      * pose proof (lookup_lt_Some _ _ _ Hik). rewrite (proj2 (Z.eqb_neq _ _)) by lia. by apply Hnm.
      * destruct (i - length pend)%nat as [|x] eqn:Ex; [|done]. injection Hik as <-.
        replace (C + Z.of_nat i) with (s_P s) by lia. rewrite Z.eqb_refl.
        split; [by apply lookup_lt_Some in He|]. by rewrite Hct, HD.
    + intros i i' k k' Hik Hik' Hlt. apply lookup_app_Some in Hik' as [Hik'|[Hge' Hik']].
      * rewrite lookup_app_l in Hik by (apply lookup_lt_Some in Hik'; lia). by apply (Ho i i').
      * destruct (i' - length pend)%nat as [|x] eqn:Ex; [|done]. injection Hik' as <-.
        rewrite lookup_app_l in Hik by lia. by eapply Hp.
  - intros i k Hik. apply lookup_app_Some in Hik as [Hik|[_ Hik]]; [pose proof (Hp _ _ Hik); lia|].
    destruct (i - length pend)%nat; [|done]. injection Hik as <-. lia.
Qed.

Lemma inv_complete max out t' :
  0 < max < 2 ^ 32 -> Complete max (s_cq s) [] (s_tx s) = Some (out, t') ->
  exists m, let d := finished pend m in (d <= n)%nat /\ out = outstanding (take d es) /\
    sys_inv kb ks kf j (B + blocks (take d es)) (H + zlen (outstanding (take d es))) (C + Z.of_nat m) (drop d es) (n - d)
      (map (fun k => k - d)%nat (drop m pend)) hdr
      (mkSys t' (s_cq s) (s_D s) (s_P s) (s_posted s) (s_released s ++ out)).
Proof using Hs.
  intros Hmax E. destruct Hs as [Hi Hkb Hc Hroom Hci Hh Hn HD Hp Hbell Hlog].
  destruct (Complete_spec kb ks kf j B H C _ es pend hdr _ _ max [] Hi Hc Hci Hh Hmax) as
    (m & t1 & E1 & Hi1 & Hci1 & Hh1 & _ & _ & _ & _ & _ & Hm & Hsame).
  rewrite E in E1. injection E1 as -> <-. injection Hsame as P1 P2. exists m. cbv zeta in *. set (d := finished pend m) in *.
  assert (Hd : (d <= n)%nat).
  { unfold d, finished. destruct m as [|i]; [lia|]. destruct (pend !! i) as [k|] eqn:Ek; [|lia]. pose proof (Hp _ _ Ek). lia. }
  split; [done|]. split; [done|]. split; simpl; rewrite ?P1; try done.
  - rewrite P1 in Hh1. done.
  - rewrite length_drop. lia.
  - rewrite HD, <- Z.add_assoc, <- blocks_app, take_take_drop. do 3 f_equal. lia.
  - intros i k Hik. rewrite list_lookup_fmap, lookup_drop in Hik. destruct (pend !! (m + i)%nat) as [k0|] eqn:E0; [|done].
    injection Hik as <-. pose proof (Hp _ _ E0).
    assert (d <= k0)%nat; [|lia]. unfold d, finished. destruct m as [|i0]; [lia|].
    destruct (pend !! i0) as [k1|] eqn:E2; [|lia]. apply (ho_order _ _ _ _ _ _ _ _ Hh i0 (S i0 + i)%nat); [done|done|lia].
  - unfold doorbell_index. rewrite P2. fold (doorbell_index (s_tx s)). rewrite Hbell. f_equal.
    rewrite <- Z.add_assoc, <- blocks_app, take_drop. done.
  - rewrite Hlog. simpl. rewrite <- app_assoc, <- outstanding_app, take_drop. done.
Qed.
End steps.

Lemma reach_inv cfg s : cfg_ok cfg -> zlen (cfg_SQ cfg) <= 2 ^ 21 -> reach cfg s ->
  exists kb ks kf j B H C es n pend hdr, sys_inv kb ks kf j B H C es n pend hdr s.
Proof.
  intros Hcfg Hsz. induction 1 as [t Hnew Hfresh|s s' _ (kb & ks & kf & j & B & H & C & es & n & pend & hdr & Hinv) Hstep].
  - destruct (NewTx_inv cfg t Hcfg Hnew) as (kb & ks & kf & j & Hlen & Hi & Hc & Hroom & Hci & Hdb & _).
    exists kb, ks, kf, j, 0, 0, 0, [], 0%nat, [], (fun _ => 0). pose proof (po_kb _ _ _ _ (ti_par _ _ _ _ _ _ _ Hi)).
    split; simpl; try done.
    + destruct (decide (kb <= 15)); [done|]. assert (2 ^ 16 <= 2 ^ kb) by (apply Z.pow_le_mono_r; lia). lia.
    + split; try done.
      * split; intros i Hi0 Hi1; [lia|]. apply Hfresh.
      * split; [lia|]. pose proof (inv_pows _ _ _ _ _ _ _ Hi). lia.
    + unfold doorbell_index. by rewrite Hdb.
  - destruct Hstep as [t q D P lp lr region descs m t' Hr Hds E|t q D P lp lr Hpen|t q D P lp lr e h Hpen Hcf|t q D P lp lr max out t' Hmax E].
    + destruct (inv_post _ _ _ _ _ _ _ _ _ _ _ _ Hinv region descs t' m Hr Hds E) as [new Hi]. eauto 15.
    + pose proof (inv_finish _ _ _ _ _ _ _ _ _ _ _ _ Hinv Hpen). eauto 15.
    + pose proof (inv_report _ _ _ _ _ _ _ _ _ _ _ _ Hinv e h Hpen Hcf). eauto 15.
    + destruct (inv_complete _ _ _ _ _ _ _ _ _ _ _ _ Hinv max out t' Hmax E) as (m & _ & _ & Hi). eauto 15.
Qed.
