(* ===== verification/RingTxClaims.v ===== *)
(** What holds of the send ring: the properties, each with an instance on a
    small concrete queue. *)

From stdpp Require Import prelude list numbers strings.
From S2P Require Import Prelude Circ Bytes Desc Sq Send Mpw Cqe RingTx RingTxInv RingTxPost RingTxMulti RingTxComplete RingTxSystem.

(** ** A concrete queue *)

(** Four blocks, four completions, two frames of 64 bytes, nothing inlined. *)
Definition freshCQE : list Z := replicate 63 0 ++ [0xf0].
Definition exCfg : TxConfig :=
  mkTxConfig (replicate 256 0) (freshCQE ++ freshCQE ++ freshCQE ++ freshCQE) true 7 9 128 4096 64 0 0 false 0 false 0.

Definition exTx : Tx := Eval vm_compute in
  match NewTx exCfg with
  | Some (Ok t) => t
  | _ => mkTx (mkTxParams (mkSender (mkSQ 0 0) 0 0 0 0 0 0) None (mkCQ 0 0 0) 0 0 0 0 0 0 0 0) [] 0 0 0 0 0 0 [] 0 0 [] 0
           None zeroCounters 0 zeroCounters
  end.

Definition exRegion : list Z := map (fun i => Z.of_nat i mod 256) (seq 0 128).
Definition exDescs : list Desc := [mkDesc 0 40 0; mkDesc 64 60 0].

(** A completion for the entry at block [b], as the first of the queue. *)
Definition exCQE (b : Z) : list Z := replicate 60 0 ++ [0; b; 0; 0].

Lemma exCfg_ok : cfg_ok exCfg.
Proof. split; try (vm_compute; done || (split; congruence)). unfold bytes_ok. repeat constructor; vm_compute; congruence. Qed.

Lemma exTx_new : NewTx exCfg = Some (Ok exTx).
Proof. reflexivity. Qed.

Lemma exDescs_ok : Forall desc_ok exDescs.
Proof. repeat constructor; vm_compute; congruence. Qed.

Lemma ex_fresh : fresh_cq (cq (par exTx)) (cfg_CQ exCfg).
Proof.
  destruct (NewTx_inv exCfg exTx exCfg_ok exTx_new) as (kb & ks & kf & j & _ & _ & Hc & _).
  assert (Hj : j = 2) by (destruct Hc as (_ & _ & E & _); by injection E).
  subst j. intros i. rewrite (Load_eq 2 _ _ Hc). change (2 ^ 2) with 4. pose proof (Z.mod_pos_bound i 4).
  assert (Hcase : i mod 4 = 0 \/ i mod 4 = 1 \/ i mod 4 = 2 \/ i mod 4 = 3) by lia.
  destruct Hcase as [-> | [-> | [-> | ->]]]; eexists; split; reflexivity.
Qed.

(** The queue with both packets posted. *)
Definition exPosted : Tx := Eval vm_compute in match Post exRegion exDescs exTx with Some (_, t) => t | None => exTx end.

Lemma exPosted_eq : Post exRegion exDescs exTx = Some (2, exPosted).
Proof. vm_compute. reflexivity. Qed.

Lemma ex_posted : exists kb ks kf es,
  tx_inv kb ks kf 0 0 es exPosted /\ es = batch_entries (par exTx) exRegion 0 0 exDescs /\ outstanding es = exDescs /\
  cq_ok 2 (cq (par exPosted)) (cfg_CQ exCfg) /\ ci exPosted = u32 0.
Proof.
  destruct (NewTx_inv exCfg exTx exCfg_ok exTx_new) as (kb & ks & kf & j & _ & Hi & Hc & _ & Hci & _).
  assert (Hj : j = 2) by (destruct Hc as (_ & _ & E & _); by injection E). subst j.
  destruct (Post_spec kb ks kf 0 0 [] exTx exRegion Hi eq_refl exDescs exDescs_ok) as
    (new & t & E & Hi' & Hshape & _ & _ & _ & _ & Hsame & Hfull).
  assert (Hgood : Forall (fun d => descOK (par exTx) d = true) exDescs) by (repeat constructor).
  assert (Hout : outstanding new = exDescs) by (rewrite (Hfull I Hgood); vm_compute; reflexivity).
  assert (Hnew : new = batch_entries (par exTx) exRegion 0 0 exDescs) by exact (Hshape eq_refl). clear Hshape Hfull.
  rewrite exPosted_eq in E. injection E as _ <-.
  exists kb, ks, kf, new. split; [exact Hi'|]. split; [exact Hnew|]. split; [exact Hout|]. split; [exact Hc|reflexivity].
Qed.

Lemma ex_entry_for : cqe_for (cq (par exPosted)) 0 0 (exCQE 0) 0.
Proof. split; try reflexivity; [unfold bytes_ok; repeat constructor; vm_compute; congruence|by left]. Qed.

(** ** Properties *)

(** C1: the safety of the send queue, over every interleaving of [Post] and
    [Complete] with a device that finishes published entries in order and
    reports those it likes, without ever checking for room: neither operation
    panics; the frames taken are, in order, the frames given back followed by
    the frames of the entries still outstanding, so none is lost, duplicated
    or reordered; and the device's position [s_D] lies among the outstanding
    entries, so that every frame given back belongs to an entry it finished. *)
Theorem tx_system_safe cfg s :
  cfg_ok cfg -> zlen (cfg_SQ cfg) <= 2 ^ 21 -> reach cfg s ->
  exists kb ks kf B H es n, tx_inv kb ks kf B H es (s_tx s) /\
    s_posted s = s_released s ++ outstanding es /\ InFlight (s_tx s) = zlen (outstanding es) /\
    s_D s = B + blocks (take n es) /\
    (forall region descs, zlen region = regionLen (par (s_tx s)) -> Forall desc_ok descs ->
       is_Some (Post region descs (s_tx s))) /\
    (forall max, is_Some (Complete max (s_cq s) [] (s_tx s))).
Proof.
  intros Hcfg Hsz Hr. destruct (reach_inv cfg s Hcfg Hsz Hr) as (kb & ks & kf & j & B & H & C & es & n & pend & hdr & Hinv).
  destruct Hinv as [Hi _ Hc _ Hci _ _ HD _ _ Hlog]. exists kb, ks, kf, B, H, es, n. split_and!; try done.
  - by apply (inv_inflight _ _ _ _ _ _ _ Hi).
  - intros region descs Hr1 Hds. destruct (Post_spec _ _ _ _ _ _ _ region Hi Hr1 descs Hds) as (new & t' & -> & _). done.
  - intros max. destruct (Complete_total _ _ _ _ _ _ _ _ _ (s_cq s) max [] Hi Hc Hci) as (n' & t' & -> & _). done.
Qed.

Lemma tx_system_safe_witness :
  exists kb ks kf B H es n, tx_inv kb ks kf B H es exPosted /\ exDescs = [] ++ outstanding es /\
    InFlight exPosted = zlen (outstanding es) /\ 1 = B + blocks (take n es).
Proof.
  assert (Hreach : reach exCfg (mkSys exPosted (cq_write (cq (par exPosted)) 0 (exCQE 0) (cfg_CQ exCfg)) 1 1 exDescs [])).
  { eapply reach_step; [eapply reach_step; [exact (reach_init exCfg exTx exTx_new ex_fresh)|]|].
    - apply (step_post exTx _ 0 0 [] [] exRegion exDescs 2 exPosted); [reflexivity|exact exDescs_ok|exact exPosted_eq].
    - apply (step_report exPosted _ 0 0 _ _ (exCQE 0) 0); [vm_compute; congruence|exact ex_entry_for]. }
  destruct (tx_system_safe exCfg _ exCfg_ok ltac:(vm_compute; congruence) Hreach) as
    (kb & ks & kf & B & H & es & n & H1 & H2 & H3 & H4 & _).
  exists kb, ks, kf, B, H, es, n. split; [exact H1|]. split; [exact H2|]. split; [exact H3|exact H4].
Defined.

(** The completion queue cannot overrun.  Whenever the device has an
    entry to finish, the slot of its next completion holds nothing unread:
    fewer completions are waiting than the queue has entries, which is what
    [NewTx]'s comparison of the two queues buys. *)
Theorem completion_queue_has_room cfg s :
  cfg_ok cfg -> zlen (cfg_SQ cfg) <= 2 ^ 21 -> reach cfg s -> dev_pending (s_tx s) (s_D s) <> 0 ->
  exists C, ci (s_tx s) = u32 C /\ 0 <= C <= s_P s /\ s_P s - C < Entries (cq (par (s_tx s))).
Proof.
  intros Hcfg Hsz Hr Hpen. destruct (reach_inv cfg s Hcfg Hsz Hr) as (kb & ks & kf & j & B & H & C & es & n & pend & hdr & Hinv).
  destruct (dev_next _ _ _ _ _ _ _ _ _ _ _ _ Hinv Hpen) as (e & He & _).
  pose proof (room_for_completion _ _ _ _ _ _ _ _ _ _ _ _ Hinv (lookup_lt_Some _ _ _ He)).
  exists C. destruct Hinv as [_ _ _ _ Hci Hh _ _ _ _ _]. destruct (ho_window _ _ _ _ _ _ _ _ Hh). split; [done|]. lia.
Qed.

Lemma completion_queue_has_room_witness :
  exists C, ci exPosted = u32 C /\ 0 <= C <= 0 /\ 0 - C < Entries (cq (par exPosted)).
Proof.
  apply (completion_queue_has_room exCfg (mkSys exPosted (cfg_CQ exCfg) 0 0 exDescs []) exCfg_ok ltac:(vm_compute; congruence)).
  - eapply reach_step; [exact (reach_init exCfg exTx exTx_new ex_fresh)|].
    apply (step_post exTx _ 0 0 [] [] exRegion exDescs 2 exPosted); [reflexivity|exact exDescs_ok|exact exPosted_eq].
  - vm_compute. congruence.
Defined.

(** C28: [Post] takes a prefix of the batch, never more than [FreeSlots], and
    only descriptors that name bytes inside one frame; the frames it takes
    join the outstanding ones in order.  On a queue that has not failed, the
    bytes of the send queue from the producer index on are then those of the
    entries that describe the frames taken ([batch_shape]): for each frame the
    address the device has for it, its byte count and the memory key, behind
    what the queue copies of its head, or all of its bytes where the queue
    copies packets.  The entries already in flight stay as they are; and it
    publishes the new producer index with the first eight bytes of its last
    entry, or nothing if it took nothing. *)
Theorem Post_exact kb ks kf B H es t region descs :
  tx_inv kb ks kf B H es t -> zlen region = regionLen (par t) -> Forall desc_ok descs ->
  exists new t', Post region descs t = Some (zlen (outstanding new), t') /\ tx_inv kb ks kf B H (es ++ new) t' /\
    outstanding new `prefix_of` descs /\ zlen (outstanding new) <= FreeSlots t /\
    Forall (in_one_frame kf (regionLen (par t))) (outstanding new) /\
    (failed t = None -> batch_shape t region (B + blocks es) (take (Z.to_nat (FreeSlots t)) descs) new) /\
    laid (meta t') (sqBytes t') B H es /\
    laid (meta t') (sqBytes t') (B + blocks es) (H + zlen (outstanding es)) new /\ published t t' B es new.
Proof.
  intros Hinv Hr Hds.
  destruct (Post_spec kb ks kf B H es t region Hinv Hr descs Hds) as (new & t' & E & Hi & Hsh & Ho & Hle & Hok & Hpub & _).
  pose proof (ti_laid _ _ _ _ _ _ _ Hi) as Hl. apply laid_app in Hl as [Hl1 Hl2].
  exists new, t'. split_and!; try done.
  - exists (drop (length (outstanding new)) descs). rewrite Ho at 1. symmetry. apply take_drop.
  - apply Forall_forall. intros d Hd. rewrite Forall_forall in Hok.
    apply (descOK_spec _ _ _ _ _ (ti_par _ _ _ _ _ _ _ Hinv)); [|by apply Hok].
    rewrite Forall_forall in Hds. apply Hds. rewrite Ho in Hd. by eapply elem_take.
Qed.

(** Two packets on a fresh queue: the second entry, one block on, ends in
    the segment of its packet, 60 bytes from address 4096 + 64 with key 9. *)
Lemma Post_exact_witness :
  exists new t', Post exRegion exDescs exTx = Some (zlen (outstanding new), t') /\
    new = batch_entries (par exTx) exRegion 0 0 exDescs /\ laid (meta t') (sqBytes t') 0 0 new /\
    window (sqBytes t') (64 + 32) 16 = data_seg 60 9 (4096 + 64).
Proof.
  destruct (NewTx_inv exCfg exTx exCfg_ok exTx_new) as (kb & ks & kf & j & _ & Hi & _).
  destruct (Post_exact kb ks kf 0 0 [] exTx exRegion exDescs Hi eq_refl exDescs_ok)
    as (new & t' & E & _ & _ & _ & _ & Hsh & _ & Hl & _).
  exists new, t'. split; [exact E|]. split; [exact (Hsh eq_refl)|]. split; [exact Hl|].
  rewrite exPosted_eq in E. injection E as _ <-. vm_compute. reflexivity.
Defined.

(** What [FreeSlots] offers, [Post] takes: on a working queue that does
    not copy packets into its entries, a batch of good descriptors is taken up
    to exactly the number offered. *)
Theorem Post_takes_offer kb ks kf B H es t region descs :
  tx_inv kb ks kf B H es t -> zlen region = regionLen (par t) -> Forall desc_ok descs ->
  exact_mode (par t) -> Forall (in_one_frame kf (regionLen (par t))) descs ->
  exists t', Post region descs t = Some (Z.min (zlen descs) (FreeSlots t), t').
Proof.
  intros Hinv Hr Hds Hmode Hgood. pose proof (FreeSlots_nonneg _ _ _ _ _ _ _ Hinv).
  destruct (Post_spec kb ks kf B H es t region Hinv Hr descs Hds) as (new & t' & E & _ & _ & _ & _ & _ & _ & _ & Hfull).
  exists t'. rewrite E, Hfull; [|done|].
  - do 2 f_equal. unfold zlen. rewrite length_take. lia.
  - apply Forall_forall. intros d Hd. rewrite Forall_forall in Hgood, Hds.
    apply (descOK_spec _ _ _ _ _ (ti_par _ _ _ _ _ _ _ Hinv)); auto.
Qed.

Lemma Post_takes_offer_witness : exists t', Post exRegion exDescs exTx = Some (Z.min (zlen exDescs) (FreeSlots exTx), t').
Proof.
  destruct (NewTx_inv exCfg exTx exCfg_ok exTx_new) as (kb & ks & kf & j & _ & Hi & _).
  apply (Post_takes_offer kb ks kf 0 0 [] exTx exRegion exDescs Hi eq_refl exDescs_ok I).
  assert (Hkf : kf = 6).
  { pose proof (po_frameMask _ _ _ _ (ti_par _ _ _ _ _ _ _ Hi)) as Hm. pose proof (po_kf _ _ _ _ (ti_par _ _ _ _ _ _ _ Hi)).
    change (frameMask (par exTx)) with 63 in Hm. apply (Z.pow_inj_r 2); lia. }
  subst kf. repeat constructor; vm_compute; congruence.
Defined.

(** A queue of sixteen blocks that copies packets of up to 60 bytes. *)
Definition copyCfg : TxConfig :=
  mkTxConfig (replicate 1024 0) (concat (replicate 16 freshCQE)) true 7 9 1024 4096 64 0 0 true 60 false 0.
Definition copyDescs : list Desc := map (fun i => mkDesc (64 * Z.of_nat i) 60 0) (seq 0 16).

(** On a queue that copies packets, [FreeSlots] counts no room for the two
    octowords that head each entry, so it offers more than [Post] can take: an
    empty queue of sixteen blocks offers sixteen packets of the longest kind
    and takes fourteen of them. *)
Theorem copy_mode_overpromises :
  exists t t', NewTx copyCfg = Some (Ok t) /\ FreeSlots t = 16 /\
    forallb (descOK (par t)) copyDescs = true /\ Post (replicate 1024 0) copyDescs t = Some (14, t').
Proof.
  eexists _, _. split; [vm_compute; reflexivity|]. split; [vm_compute; reflexivity|]. split; vm_compute; reflexivity.
Qed.

(** A batch that a bad descriptor cuts short asks for no completion: the
    packet before it is posted, but its entry lacks the completion bit it
    would have had alone, so its frame stays with the device until some later
    batch is posted and completes. *)
Theorem cut_batch_unsignaled :
  exists t1 t2,
    Post exRegion [mkDesc 0 40 0; mkDesc 64 65 0] exTx = Some (1, t1) /\ cell (sqBytes t1) ctrlFMCESE = 0 /\
    Post exRegion [mkDesc 0 40 0] exTx = Some (1, t2) /\ cell (sqBytes t2) ctrlFMCESE = CtrlCQUpdate.
Proof. eexists _, _. split; [vm_compute; reflexivity|]. split; [reflexivity|]. split; [vm_compute; reflexivity|reflexivity]. Qed.

(** The bounds check of every posted descriptor: [descOK] holds exactly of
    the descriptors that name at least one byte and no byte outside one frame
    of the region, for every value of the 64-bit address and 32-bit length. *)
Theorem descOK_exact kb ks kf p d :
  par_ok kb ks kf p -> desc_ok d -> descOK p d = true <-> in_one_frame kf (regionLen p) d.
Proof. apply descOK_spec. Qed.

Lemma descOK_exact_witness :
  exists kf, descOK (par exTx) (mkDesc 64 60 0) = true <-> in_one_frame kf (regionLen (par exTx)) (mkDesc 64 60 0).
Proof.
  destruct (NewTx_inv exCfg exTx exCfg_ok exTx_new) as (kb & ks & kf & j & _ & Hi & _). exists kf.
  assert (Hd : desc_ok (mkDesc 64 60 0)) by (repeat split; vm_compute; congruence).
  exact (descOK_exact kb ks kf (par exTx) (mkDesc 64 60 0) (ti_par _ _ _ _ _ _ _ Hi) Hd).
Defined.

(** C32: whatever is in the completion queue, be it stale, malformed or naming
    entries that do not exist, [Complete] neither fails nor loses nor
    duplicates a frame: what it appends is a prefix of the frames the device
    owned, and the rest of them are exactly the frames the device still owns. *)
Theorem Complete_conserves kb ks kf j B H C es t cqbuf max out :
  tx_inv kb ks kf B H es t -> cq_ok j (cq (par t)) cqbuf -> ci t = u32 C ->
  exists n t', Complete max cqbuf out t = Some (out ++ take n (outstanding es), t') /\ (n <= length (outstanding es))%nat /\
    slotTail t' = slotTail t /\ InFlight t' = zlen (outstanding es) - Z.of_nat n /\
    window (slots t') (H + Z.of_nat n) (length (outstanding es) - n) = drop n (outstanding es).
Proof. apply Complete_total. Qed.

(** The completion queue with a report of the entry at block [b]. *)
Definition exReport (b : Z) : list Z := cq_write (cq (par exPosted)) 0 (exCQE b) (cfg_CQ exCfg).

Lemma exReport_ok b : byte_ok b -> cq_ok 2 (cq (par exPosted)) (exReport b).
Proof.
  intros Hb. destruct ex_posted as (kb & ks & kf & es & _ & _ & _ & Hc & _). apply cq_write_ok; [exact Hc|reflexivity|].
  unfold exCQE, bytes_ok. apply Forall_app. split; [apply Forall_replicate; vm_compute; split; congruence|].
  repeat constructor; try exact (proj1 Hb); try exact (proj2 Hb); vm_compute; congruence.
Qed.

Lemma Complete_conserves_witness :
  exists n t', Complete 8 (exReport 1) [] exPosted = Some ([] ++ take n exDescs, t') /\ (n <= length exDescs)%nat /\
    slotTail t' = slotTail exPosted /\ InFlight t' = zlen exDescs - Z.of_nat n /\
    window (slots t') (0 + Z.of_nat n) (length exDescs - n) = drop n exDescs.
Proof.
  destruct ex_posted as (kb & ks & kf & es & Hi & _ & Ho & _ & Hci). rewrite <- Ho.
  apply (Complete_conserves kb ks kf 2 0 0 0 es exPosted (exReport 1) 8 [] Hi); [|exact Hci].
  apply exReport_ok. vm_compute. split; congruence.
Defined.

(** With an honest device, [Complete] releases exactly the frames of the
    entries finished by the completions it consumes, in order, and leaves the
    ring describing the entries behind them.  It consumes at least one
    completion if there is one; it releases more than [max] frames only by the
    very first one; it stops short of a completion only when that one would
    take it past [max]; and it latches a failure exactly when a completion it
    consumed reports one. *)
Theorem Complete_honest kb ks kf j B H C P es pend hdr t cqbuf max out :
  tx_inv kb ks kf B H es t -> cq_ok j (cq (par t)) cqbuf -> ci t = u32 C ->
  honest (cq (par t)) cqbuf C P hdr B es pend -> 0 < max < 2 ^ 32 ->
  exists m t', let n := finished pend m in
    Complete max cqbuf out t = Some (out ++ outstanding (take n es), t') /\
    tx_inv kb ks kf (B + blocks (take n es)) (H + zlen (outstanding (take n es))) (drop n es) t' /\
    honest (cq (par t')) cqbuf (C + Z.of_nat m) P hdr (B + blocks (take n es)) (drop n es) (map (fun k => k - n)%nat (drop m pend)) /\
    (pend <> [] -> 0 < m)%nat /\ ((1 < m)%nat -> zlen (outstanding (take n es)) <= max) /\
    (forall k, pend !! m = Some k -> max < covers es k) /\
    (reports_error hdr C m -> failed t' <> None) /\ (~ reports_error hdr C m -> failed t' = failed t).
Proof.
  intros Hi Hc Hci Hh Hmax.
  destruct (Complete_spec kb ks kf j B H C P es pend hdr t cqbuf max out Hi Hc Hci Hh Hmax) as
    (m & t' & E1 & E2 & _ & E4 & E5 & E6 & E7 & E8 & E9 & _). exists m, t'. split_and!; done.
Qed.

(** The device has finished both entries and reported the second. *)
Lemma ex_honest es : es = batch_entries (par exTx) exRegion 0 0 exDescs ->
  honest (cq (par exPosted)) (exReport 1) 0 1 (fun i => if i =? 0 then 65536 else 0) 0 es [1%nat].
Proof.
  intros Hes. destruct ex_posted as (kb & ks & kf & es' & _ & _ & _ & Hc & _). split.
  - apply (cq_report_holds 2 _ 0 1); [exact Hc| |lia|].
    + split; intros i H1 H2; [lia|]. apply ex_fresh.
    + split; try reflexivity; [unfold bytes_ok; repeat constructor; vm_compute; congruence|by left].
  - split; [lia|]. vm_compute. congruence.
  - reflexivity.
  - intros [|i] k Hk; [|done]. injection Hk as <-. rewrite Hes. split; [vm_compute; lia|].
    split; [vm_compute; reflexivity|]. split; [reflexivity|by left].
  - intros [|i] [|i'] k k' H1 H2 Hlt; done || lia.
Qed.

Lemma Complete_honest_witness :
  exists m t', let n := finished [1%nat] m in exists es, es = batch_entries (par exTx) exRegion 0 0 exDescs /\
    Complete 8 (exReport 1) [] exPosted = Some ([] ++ outstanding (take n es), t') /\ (0 < m)%nat /\
    (~ reports_error (fun i => if i =? 0 then 65536 else 0) 0 m -> failed t' = None).
Proof.
  destruct ex_posted as (kb & ks & kf & es & Hi & Hes & Ho & _ & Hci).
  assert (Hc : cq_ok 2 (cq (par exPosted)) (exReport 1)) by (apply exReport_ok; vm_compute; split; congruence).
  destruct (Complete_honest kb ks kf 2 0 0 0 1 es [1%nat] _ exPosted (exReport 1) 8 [] Hi Hc Hci (ex_honest es Hes) ltac:(lia))
    as (m & t' & E1 & _ & _ & E2 & _ & _ & _ & E3).
  exists m, t'. cbv zeta. exists es. split; [exact Hes|]. split; [exact E1|]. split; [apply E2; congruence|exact E3].
Defined.
