(* ===== verification/MockNic.v ===== *)
(** What the two halves of mlx5/internal/mocknic share: reading a doorbell
    record, the completion queue as it starts out, and the completions the
    driver has released. *)

From stdpp Require Import prelude list numbers strings.
From S2P Require Import Prelude Circ Bytes Sq Send Mpw Cqe.

(** Every completion starts out invalid. *)
Fixpoint invalidate (n : nat) (i : Z) (q : list Z) : option (list Z) :=
  match n with
  | O => Some q
  | S n => q ← set_at (i * CQESize + 63) (Z.shiftl CQEInvalid 4) q; invalidate n (i + 1) q
  end.

(** A 32-bit doorbell record, read as the device does. *)
Definition dbrec (v : Z) : Z := be_val (le_bytes 4 v).

(** How far the driver has read the completions, by the low 24 bits in the
    record, for a device that has written [pi] of them. *)
Definition released (pi rec : Z) : Z :=
  let low := Z.land (dbrec rec) 0xffffff in
  u32 (pi - Z.land (u32 (pi - low)) 0xffffff).

Lemma released_eq P C rec :
  dbrec rec mod 2 ^ 24 = C mod 2 ^ 24 -> 0 <= P - C < 2 ^ 24 -> u32 (u32 P - released (u32 P) rec) = P - C.
Proof.
  intros HC Hw. unfold released. change 0xffffff with (2 ^ 24 - 1). rewrite !land_ones_mod by lia. rewrite HC.
  assert (E : u32 (u32 P - C mod 2 ^ 24) mod 2 ^ 24 = P - C).
  { unfold u32. rewrite mod_mod_pow2, Zminus_mod, mod_mod_pow2, Zmod_mod, <- Zminus_mod by lia. apply Z.mod_small. lia. }
  rewrite E. rewrite u32_sub_r. replace (u32 P - (u32 P - (P - C))) with (P - C) by lia. apply u32_small. lia.
Qed.

(** ** The header word of a completion *)

(** The last four bytes of completion [P], naming entry [x], are a header that
    reads back. *)
Lemma header_word j c q P x opcode :
  cq_ok j c q -> 0 <= x < 2 ^ 16 -> 0 <= opcode < 16 ->
  exists h, be_bytes 2 x ++ [0; Z.lor (u8 (Z.shiftl opcode 4)) (u8 (ExpectedOwner c (u32 P)))] = be_bytes 4 h /\
    Owner h = ExpectedOwner c (u32 P) /\ (Format h = CQEFormatNoData /\ 0 <= h < 2 ^ 32) /\ Opcode h = opcode /\ WQECounter h = x.
Proof.
  intros Hc Hx Hop. rewrite (ExpectedOwner_eq j _ _ Hc). set (own := (P / 2 ^ j) mod 2).
  assert (Hown : 0 <= own < 2) by (apply Z.mod_pos_bound; lia).
  assert (E : Z.lor (u8 (Z.shiftl opcode 4)) (u8 own) = opcode * 16 + own).
  { unfold u8. rewrite Z.shiftl_mul_pow2, !Z.mod_small by lia. rewrite <- Z.shiftl_mul_pow2, Z.lor_comm, lor_shiftl_add by lia. lia. }
  rewrite E. exists (x * 65536 + opcode * 16 + own). split_and!; try lia.
  - unfold be_bytes. simpl. repeat f_equal; divlia.
  - unfold Owner. rewrite land_1_mod2. divlia.
  - unfold Format, u8, CQEFormatNoData. rewrite Z.shiftr_div_pow2, land_3_mod4 by lia. change (2 ^ 8) with 256. divlia.
  - unfold Opcode, u8. rewrite Z.shiftr_div_pow2, land_15_mod16 by lia. change (2 ^ 8) with 256. divlia.
  - unfold WQECounter. rewrite Z.shiftr_div_pow2 by lia. change (2 ^ 16) with 65536.
    replace ((x * 65536 + opcode * 16 + own) / 65536) with x by divlia. by apply u16_small.
Qed.

Lemma header_at (pre : list Z) h post : length pre = 60%nat -> 0 <= h < 2 ^ 32 ->
  get_be 4 cqeHeader (pre ++ be_bytes 4 h ++ post) = Some h.
Proof.
  intros Hl Hh. unfold get_be, cqeHeader. pose proof (length_be_bytes 4 h) as H4.
  rewrite slice_Some by (unfold zlen; rewrite ?length_app; lia). cbn [mbind option_bind]. f_equal.
  change (Z.to_nat (60 + Z.of_nat 4 - 60)) with 4%nat. change (Z.to_nat 60) with 60%nat.
  rewrite drop_app_length' by done. rewrite take_app_length' by done. rewrite be_val_bytes. by apply Z.mod_small.
Qed.

(** ** A fresh completion queue *)

Lemma invalidate_spec j : 0 <= j <= 24 -> forall n i q,
  zlen q = 64 * 2 ^ j -> bytes_ok q -> 0 <= i -> i + Z.of_nat n = 2 ^ j ->
  exists q', invalidate n i q = Some q' /\ zlen q' = 64 * 2 ^ j /\ bytes_ok q' /\
    (forall s, 0 <= s < i -> get_at (s * 64 + 63) q' = get_at (s * 64 + 63) q) /\
    (forall s, i <= s < 2 ^ j -> get_at (s * 64 + 63) q' = Some 0xf0).
Proof.
  intros Hj. induction n as [|n IH]; intros i q Hz Hb Hi Hn; cbn [invalidate].
  - exists q. split_and!; try done. intros s Hs. lia.
  - unfold CQESize. rewrite set_at_Some by lia. cbn [mbind option_bind]. set (q1 := <[_ := _]> q).
    assert (Hz1 : zlen q1 = 64 * 2 ^ j) by (unfold q1; by rewrite zlen_insert).
    assert (Hb1 : bytes_ok q1) by (apply Forall_insert; [done|vm_compute; split; congruence]).
    destruct (IH (i + 1) q1 Hz1 Hb1 ltac:(lia) ltac:(lia)) as (q' & -> & Hz' & Hb' & Hlo & Hhi). exists q'. split_and!; try done.
    + intros s Hs. rewrite Hlo by lia. rewrite !get_at_lookup by lia. unfold q1. rewrite list_lookup_insert_ne by lia. done.
    + intros s Hs. destruct (decide (s = i)) as [->|]; [|apply Hhi; lia]. rewrite Hlo, get_at_lookup by lia. unfold q1.
      rewrite list_lookup_insert_eq by (unfold zlen in *; lia). done.
Qed.

(** Every header of it reads as invalid. *)
Lemma invalidated_fresh j c q q' :
  cq_ok j c q -> invalidate (Z.to_nat (Entries c)) 0 q = Some q' ->
  cq_ok j c q' /\ forall i, exists h, LoadCQEHeader c (u32 i) q' = Some h /\ Opcode h = CQEInvalid.
Proof.
  intros Hc E. pose proof (cq_pow j c q Hc). destruct (Hc) as (Hj & Hz & Ec & Hb).
  assert (Hent : Entries c = 2 ^ j) by (by rewrite Ec). rewrite Hent in E.
  destruct (invalidate_spec j Hj (Z.to_nat (2 ^ j)) 0 q Hz Hb ltac:(lia) ltac:(lia)) as (q1 & E1 & Hz1 & Hb1 & _ & Hhi).
  rewrite E in E1. injection E1 as <-. assert (Hc' : cq_ok j c q') by done. split; [done|]. intros i.
  rewrite (Load_eq j c q' Hc'). pose proof (Z.mod_pos_bound i (2 ^ j) ltac:(lia)) as Hm. set (s := i mod 2 ^ j) in *.
  specialize (Hhi s ltac:(lia)). unfold get_be. change (Z.of_nat 4) with 4. rewrite slice_Some by lia. cbn [mbind option_bind].
  eexists. split; [done|]. rewrite get_at_lookup in Hhi by lia.
  replace (Z.to_nat (s * 64 + 60 + 4 - (s * 64 + 60))) with 4%nat by lia.
  set (w := take 4 (drop (Z.to_nat (s * 64 + 60)) q')).
  assert (Hw : w !! 3%nat = Some 0xf0).
  { unfold w. rewrite lookup_take_lt, lookup_drop by lia. by replace (Z.to_nat (s * 64 + 60) + 3)%nat with (Z.to_nat (s * 64 + 63)) by lia. }
  assert (Hl : length w = 4%nat) by (unfold w; rewrite length_take, length_drop; unfold zlen in *; lia).
  clearbody w. do 4 (destruct w as [|? w]; [discriminate|]). destruct w; [|discriminate]. simpl in Hw. injection Hw as ->.
  unfold Opcode, be_val, u8. simpl. rewrite Z.shiftr_div_pow2, land_15_mod16 by lia. unfold CQEInvalid. change (2 ^ 8) with 256. change (2 ^ 4) with 16. divlia.
Qed.

(** The device model: mlx5/internal/mocknic/mocknic.go, the transmit half.

    The repository's own software model of the card reads the doorbell record
    and the send queue, transmits the packets it finds there and writes
    completions, recording as a violation anything the hardware would be
    entitled to treat as undefined.  Memory the driver owns (the send queue,
    the doorbell records, the region) is an argument; [None] is a panic. *)

Record NPacket : Set := mkNPacket { p_Bytes : list Z; p_Addr : Z; p_Block : Z; p_Inlined : Z }.

Record NicConfig : Set := mkNicConfig { nc_RegionVA : Z; nc_LKey : Z; nc_QPN : Z }.

(** The memory the model reads. *)
Record NicMem : Set := mkNicMem { nm_SQ : list Z; nm_SQDbrec : Z; nm_CQDbrec : Z; nm_Region : list Z }.

Record TxNIC : Set := mkTxNIC {
  n_cfg : NicConfig; n_cq : CQ; n_blocks : Z;
  n_consumed : Z; n_done : Z; n_cqPi : Z;
  n_FailAfter : Z; n_Syndrome : Z; n_BlocksPerPoll : Z; n_Discard : bool;
  n_failed : bool; n_stop : bool; n_Packets : list NPacket; n_sent : Z; n_Violations : list string;
  n_CQ : list Z
}.

Definition violate (v : string) (n : TxNIC) : TxNIC :=
  mkTxNIC (n_cfg n) (n_cq n) (n_blocks n) (n_consumed n) (n_done n) (n_cqPi n) (n_FailAfter n) (n_Syndrome n)
    (n_BlocksPerPoll n) (n_Discard n) (n_failed n) (n_stop n) (n_Packets n) (n_sent n) (n_Violations n ++ [v]) (n_CQ n).

(** [n.consumed = c; n.done = d]. *)
Definition with_consumed (c d : Z) (n : TxNIC) : TxNIC :=
  mkTxNIC (n_cfg n) (n_cq n) (n_blocks n) c d (n_cqPi n) (n_FailAfter n) (n_Syndrome n)
    (n_BlocksPerPoll n) (n_Discard n) (n_failed n) (n_stop n) (n_Packets n) (n_sent n) (n_Violations n) (n_CQ n).

Definition with_failed (f st : bool) (n : TxNIC) : TxNIC :=
  mkTxNIC (n_cfg n) (n_cq n) (n_blocks n) (n_consumed n) (n_done n) (n_cqPi n) (n_FailAfter n) (n_Syndrome n)
    (n_BlocksPerPoll n) (n_Discard n) f st (n_Packets n) (n_sent n) (n_Violations n) (n_CQ n).

(** Records a packet, unless the model discards them, and counts it. *)
Definition transmit (p : NPacket) (n : TxNIC) : TxNIC :=
  mkTxNIC (n_cfg n) (n_cq n) (n_blocks n) (n_consumed n) (n_done n) (n_cqPi n) (n_FailAfter n) (n_Syndrome n)
    (n_BlocksPerPoll n) (n_Discard n) (n_failed n) (n_stop n) (if n_Discard n then n_Packets n else n_Packets n ++ [p])
    (n_sent n + 1) (n_Violations n) (n_CQ n).

Definition count_sent (n : TxNIC) : TxNIC :=
  mkTxNIC (n_cfg n) (n_cq n) (n_blocks n) (n_consumed n) (n_done n) (n_cqPi n) (n_FailAfter n) (n_Syndrome n)
    (n_BlocksPerPoll n) (n_Discard n) (n_failed n) (n_stop n) (n_Packets n) (n_sent n + 1) (n_Violations n) (n_CQ n).

Definition NewTxNIC (cfg : NicConfig) (SQ CQm : list Z) : option (res TxNIC) :=
  match NewCQ CQm CQESize with
  | Err e => Some (Err e)
  | Ok cq =>
      if negb (zlen SQ mod WQEBB =? 0) || (zlen SQ =? 0) then Some (Err (Errorf "mocknic: send queue of the wrong size"))
      else
        q ← invalidate (Z.to_nat (Entries cq)) 0 CQm;
        Some (Ok (mkTxNIC cfg cq (u32 (zlen SQ / WQEBB)) 0 0 0 0 0 0 false false false [] 0 [] q))
  end.

Definition producerIndex (mem : NicMem) (n : TxNIC) : Z * TxNIC :=
  let low := dbrec (nm_SQDbrec mem) in
  let n := if negb (Z.shiftr low 16 =? 0) then violate "doorbell record is not a 16-bit block index" n else n in
  (u32 (n_consumed n + u16 (u16 low - u16 (n_consumed n))), n).

Definition consumerIndex (mem : NicMem) (n : TxNIC) : Z :=
  released (n_cqPi n) (nm_CQDbrec mem).

Definition writeCompletion (mem : NicMem) (block opcode syndrome : Z) (n : TxNIC) : option TxNIC :=
  if u32 (n_cqPi n - consumerIndex mem n) >=? Entries (n_cq n) then Some (violate "completion queue overrun" n)
  else
    let off := u32 (Z.land (n_cqPi n) (cq_mask (n_cq n)) * CQESize) in
    q ← clear_range off (u32 (off + CQESize)) (n_CQ n);
    q ← (if opcode =? CQEReqErr then
           q ← set_at (off + 55) syndrome q; put_be 4 (off + 56) (nc_QPN (n_cfg n)) q
         else Some q);
    q ← put_be 2 (off + 60) (u16 block) q;
    q ← set_at (off + 63) (Z.lor (u8 (Z.shiftl opcode 4)) (u8 (ExpectedOwner (n_cq n) (n_cqPi n)))) q;
    Some (mkTxNIC (n_cfg n) (n_cq n) (n_blocks n) (n_consumed n) (n_done n) (u32 (n_cqPi n + 1)) (n_FailAfter n)
            (n_Syndrome n) (n_BlocksPerPoll n) (n_Discard n) (n_failed n) (n_stop n) (n_Packets n) (n_sent n)
            (n_Violations n) q).

Definition readSQ (SQ : list Z) (off length : Z) : option (list Z) :=
  let size := u32 (zlen SQ) in
  let off := Z.land off (u32 (size - 1)) in
  if u32 (off + length) <=? size then slice off (u32 (off + length)) SQ
  else
    a ← slice off (zlen SQ) SQ;
    b ← slice 0 (u32 (length - u32 (size - off))) SQ;
    Some (a ++ b).

Definition read_be (k : nat) (SQ : list Z) (off : Z) : option Z :=
  b ← readSQ SQ off (Z.of_nat k); Some (be_val b).

Definition failWith (mem : NicMem) (block syndrome : Z) (n : TxNIC) : option TxNIC :=
  n ← writeCompletion mem block CQEReqErr syndrome (with_failed true (n_stop n) n);
  let c := u32 (n_consumed n + 1) in
  Some (with_failed (n_failed n) true (with_consumed c c n)).

(** The packet with number [FailAfter] fails: its entry is reported, and the
    poll ends. *)
Definition fail_now (mem : NicMem) (block blocks : Z) (n : TxNIC) : option TxNIC :=
  let c := u32 (n_consumed n + blocks) in
  let n := with_failed true (n_stop n) (with_consumed c (n_done n) n) in
  let syndrome := if n_Syndrome n =? 0 then SyndromeLocalProt else n_Syndrome n in
  n ← writeCompletion mem block CQEReqErr syndrome n;
  Some (with_failed (n_failed n) true (with_consumed (n_consumed n) (n_consumed n) n)).

Definition fails_here (n : TxNIC) : bool := (n_FailAfter n >? 0) && (n_sent n =? n_FailAfter n).

(** An entry that was transmitted: a completion if it asked for one. *)
Definition finish_entry (mem : NicMem) (off block blocks : Z) (n : TxNIC) : option TxNIC :=
  let n := with_consumed (u32 (n_consumed n + blocks)) (n_done n) n in
  fm ← get_at (u32 (off + ctrlFMCESE)) (nm_SQ mem);
  n ← (if negb (Z.land fm CtrlCQUpdate =? 0) then writeCompletion mem block CQEReq 0 n else Some n);
  Some (with_consumed (n_consumed n) (n_consumed n) n).

(** Where a data segment's bytes lie in the region, if they do. *)
Definition in_region (mem : NicMem) (n : TxNIC) (addr count : Z) : bool :=
  let lo := nc_RegionVA (n_cfg n) in
  let hi := u64 (lo + zlen (nm_Region mem)) in
  negb ((addr <? lo) || (u64 (addr + count) >? hi)).

Definition fetch (mem : NicMem) (n : TxNIC) (addr count : Z) : option (list Z) :=
  let start := u64 (addr - nc_RegionVA (n_cfg n)) in
  slice start (u64 (start + count)) (nm_Region mem).

(** The packets of a multi-packet entry; [None] in the sum is the end of the
    loop, [Some] an early return. *)
Fixpoint multi_packets (fuel : nat) (mem : NicMem) (block blocks end_ : Z) (at_ : Z) (packets : Z) (n : TxNIC)
    : option (TxNIC + Z * TxNIC) :=
  match fuel with
  | O => None
  | S fuel =>
      if negb (at_ <? end_) then Some (inr (packets, n))
      else
        length ← read_be 4 (nm_SQ mem) at_;
        if Z.land length MPWInlineFlag =? 0 then
          if u32 (at_ + Octoword) >? end_ then
            n ← failWith mem block SyndromeLocalLength (violate "a pointer segment runs past the end of its entry" n);
            Some (inl n)
          else
            let count := length in
            lkey ← read_be 4 (nm_SQ mem) (u32 (at_ + 4));
            addr ← read_be 8 (nm_SQ mem) (u32 (at_ + 8));
            if count =? 0 then
              n ← failWith mem block SyndromeLocalLength (violate "a pointer segment describes no bytes" n);
              Some (inl n)
            else
              let n := if negb (lkey =? nc_LKey (n_cfg n)) then violate "a packet uses the wrong memory key" n else n in
              n ← (if negb (in_region mem n addr count)
                   then Some (count_sent (violate "a packet points outside the registered region" n))
                   else
                     if n_Discard n then Some (count_sent n)
                     else b ← fetch mem n addr count; Some (transmit (mkNPacket b addr block 0) n));
              if fails_here n then n ← fail_now mem block blocks n; Some (inl n)
              else multi_packets fuel mem block blocks end_ (u32 (at_ + Octoword)) (packets + 1) n
        else
          let size := length &^ MPWInlineFlag in
          if size =? 0 then
            n ← failWith mem block SyndromeLocalLength (violate "a packet describes no bytes" n);
            Some (inl n)
          else if u32 (at_ + 4 + size) >? end_ then
            n ← failWith mem block SyndromeLocalLength (violate "a packet runs past the end of its entry" n);
            Some (inl n)
          else
            b ← readSQ (nm_SQ mem) (u32 (at_ + 4)) size;
            let n := transmit (mkNPacket b 0 block size) n in
            let at_ := u32 (at_ + u32 (4 + size + Octoword - 1) / Octoword * Octoword) in
            if fails_here n then n ← fail_now mem block blocks n; Some (inl n)
            else multi_packets fuel mem block blocks end_ at_ (packets + 1) n
  end.

Definition processMultiPacket (mem : NicMem) (block off ds blocks : Z) (n : TxNIC) : option TxNIC :=
  hdr ← read_be 2 (nm_SQ mem) (u32 (off + ethInlineHdrSz));
  if negb (hdr =? 0) then
    failWith mem block SyndromeLocalLength (violate "a multi-packet entry claims inline header bytes" n)
  else
    let at_ := u32 (off + CtrlSegSize + MPWEthSegSize) in
    let end_ := u32 (off + ds * Octoword) in
    r ← multi_packets (S (Z.to_nat ds)) mem block blocks end_ at_ 0 n;
    match r with
    | inl n => Some n
    | inr (packets, n) =>
        if packets =? 0 then
          failWith mem block SyndromeLocalLength (violate "a multi-packet entry carries nothing" n)
        else finish_entry mem off block blocks n
    end.

(** The bytes of an ordinary entry's packet, and its data segment's address;
    [inl] is an early return. *)
Definition gather_packet (mem : NicMem) (block off inlineLen ethOcts : Z) (hasDseg : bool) (n : TxNIC)
    : option (TxNIC + list Z * Z * TxNIC) :=
  buf ← readSQ (nm_SQ mem) (u32 (off + ethInlineHdr)) inlineLen;
  if hasDseg then
    let dsegOff := u32 (off + CtrlSegSize + ethOcts * Octoword) in
    count ← read_be 4 (nm_SQ mem) dsegOff;
    lkey ← read_be 4 (nm_SQ mem) (u32 (dsegOff + 4));
    addr ← read_be 8 (nm_SQ mem) (u32 (dsegOff + 8));
    if count =? 0 then
      n ← failWith mem block SyndromeLocalLength (violate "a data segment describes no bytes" n);
      Some (inl n)
    else
      let n := if negb (lkey =? nc_LKey (n_cfg n)) then violate "an entry uses the wrong memory key" n else n in
      if negb (in_region mem n addr count)
      then Some (inr (buf, addr, violate "an entry points outside the registered region" n))
      else b ← fetch mem n addr count; Some (inr (buf ++ b, addr, n))
  else Some (inr (buf, 0, n)).

Definition processOne (mem : NicMem) (n : TxNIC) : option TxNIC :=
  let block := n_consumed n in
  let off := u32 (Z.land block (u32 (n_blocks n - 1)) * WQEBB) in
  let e := nm_SQ mem in
  opcode ← get_at (u32 (off + 3)) e;
  if negb (opcode =? OpcodeSend) && negb (opcode =? OpcodeEnhancedMPSW) then
    let n := violate "an entry has an unknown opcode" n in Some (with_consumed (n_done n) (n_done n) n)
  else
    b1 ← get_at (u32 (off + 1)) e;
    b2 ← get_at (u32 (off + 2)) e;
    let idx := Z.lor (u32 (Z.shiftl b1 8)) b2 in
    let n := if negb (idx =? Z.land block 0xffff) then violate "an entry carries the wrong producer index" n else n in
    qpnDS ← get_be 4 (off + 4) e;
    let n := if negb (Z.shiftr qpnDS 8 =? nc_QPN (n_cfg n)) then violate "an entry names the wrong queue pair" n else n in
    let ds := Z.land qpnDS 0xff in
    if (ds =? 0) || (ds >? MaxDS) then
      let n := violate "an entry has a bad octoword count" n in Some (with_consumed (n_done n) (n_done n) n)
    else
      let blocks := u32 (ds * Octoword + WQEBB - 1) / WQEBB in
      if opcode =? OpcodeEnhancedMPSW then processMultiPacket mem block off ds blocks n
      else
        inlineLen ← get_be 2 (off + ethInlineHdrSz) e;
        let ethOcts := u32 (EthSegHeaderSize + inlineLen + Octoword - 1) / Octoword in
        let hasDseg := ds =? u32 (1 + ethOcts + 1) in
        if negb hasDseg && negb (ds =? u32 (1 + ethOcts)) then
          let n := violate "an entry's octoword count does not match its inline header" n in
          Some (with_consumed (n_done n) (n_done n) n)
        else
          r ← gather_packet mem block off inlineLen ethOcts hasDseg n;
          match r with
          | inl n => Some n
          | inr (buf, addr, n) =>
              if zlen buf =? 0 then
                failWith mem block SyndromeLocalLength (violate "an entry describes a packet of no bytes" n)
              else
                let n := transmit (mkNPacket buf addr block inlineLen) n in
                if fails_here n then fail_now mem block blocks n
                else finish_entry mem off block blocks n
          end.

Definition flushOne (mem : NicMem) (n : TxNIC) : option TxNIC :=
  let block := n_consumed n in
  let off := u32 (Z.land block (u32 (n_blocks n - 1)) * WQEBB) in
  v ← get_be 4 (off + 4) (nm_SQ mem);
  let ds := Z.land v 0xff in
  let ds := if (ds =? 0) || (ds >? MaxDS) then 4 else ds in
  let blocks := u32 (ds * Octoword + WQEBB - 1) / WQEBB in
  let c := u32 (n_consumed n + blocks) in
  writeCompletion mem block CQEReqErr SyndromeWRFlush (with_consumed c c n).

(** [for n.consumed != limit]; a queue of entries ends after one round each. *)
Fixpoint poll_loop (fuel : nat) (mem : NicMem) (limit : Z) (n : TxNIC) : option TxNIC :=
  if n_consumed n =? limit then Some n
  else match fuel with
       | O => None
       | S fuel =>
           if n_stop n then Some (with_failed (n_failed n) false n)
           else if n_failed n then n ← flushOne mem n; poll_loop fuel mem limit n
           else n ← processOne mem n; poll_loop fuel mem limit n
       end.

Definition Poll (fuel : nat) (mem : NicMem) (n : TxNIC) : option TxNIC :=
  let '(pi, n) := producerIndex mem n in
  if pi =? n_consumed n then Some n
  else
    let room := u32 (n_blocks n - u32 (n_consumed n - n_done n)) in
    if u32 (pi - n_consumed n) >? room then Some (violate "producer index runs past the blocks the queue has free" n)
    else if n_BlocksPerPoll n <? 0 then Some n
    else
      let limit := if (n_BlocksPerPoll n >? 0) && (u32 (pi - n_consumed n) >? u32 (n_BlocksPerPoll n))
                   then u32 (n_consumed n + u32 (n_BlocksPerPoll n)) else pi in
      poll_loop fuel mem limit n.
