(* ===== verification/MockNicThms.v ===== *)
(** The device model reads back what the driver wrote: every kind of entry
    decodes to exactly its packets, without a violation. *)

From stdpp Require Import prelude list numbers strings.
From S2P Require Import Prelude Circ Bytes Desc Sq Send Mpw Cqe MockNic.

(** ** Reading an entry *)

(** A field of a byte string put together from parts. *)
Lemma field {A} (pre f post : list A) n m : length pre = n -> length f = m -> take m (drop n (pre ++ f ++ post)) = f.
Proof. intros <- <-. by rewrite drop_app_length, take_app_length. Qed.

Lemma lookup_field {A} (pre f post : list A) n i : length pre = n -> (i < length f)%nat -> (pre ++ f ++ post) !! (n + i)%nat = f !! i.
Proof. intros <- Hi. rewrite lookup_app_r by lia. rewrite Nat.add_comm, Nat.add_sub. by rewrite lookup_app_l. Qed.

(** The entry [W] lies at block [b] of a queue of [2^kb] blocks. *)
Record lies (kb : Z) (SQ : list Z) (b : Z) (W : list Z) : Prop := {
  li_kb : 0 <= kb <= 16;
  li_len : zlen SQ = 64 * 2 ^ kb;
  li_fit : zlen W <= zlen SQ;
  li_window : window SQ (b * 64) (length W) = W
}.

Definition off_of (kb b : Z) : Z := b mod 2 ^ kb * 64.

Lemma window_sub {A} `{!Inhabited A} (buf : list A) h n i m :
  (i + m <= n)%nat -> window buf (h + Z.of_nat i) m = take m (drop i (window buf h n)).
Proof. intros Hn. rewrite window_drop by lia. rewrite window_take by lia. done. Qed.

Section lies.
Context (kb b : Z) (SQ W : list Z) (Hl : lies kb SQ b W).

Lemma lies_bounds : 0 < 2 ^ kb <= 2 ^ 16 /\ 0 <= off_of kb b /\ off_of kb b + 64 <= zlen SQ /\ zlen SQ <= 2 ^ 22.
Proof using Hl.
  destruct Hl as [Hk Hz _ _]. assert (0 < 2 ^ kb <= 2 ^ 16) by (split; [lia|apply Z.pow_le_mono_r; lia]).
  unfold off_of. pose proof (Z.mod_pos_bound b (2 ^ kb)). lia.
Qed.

Lemma off_mod : off_of kb b = (b * 64) mod zlen SQ.
Proof using Hl.
  pose proof lies_bounds. destruct Hl as [Hk Hz _ _]. unfold off_of. rewrite Hz, (Z.mul_comm 64), Z.mul_mod_distr_r by lia. done.
Qed.

Lemma entry_off x : x = u32 b -> u32 (Z.land x (u32 (2 ^ kb - 1)) * WQEBB) = off_of kb b.
Proof using Hl.
  intros ->. pose proof lies_bounds. destruct Hl as [Hk _ _ _]. rewrite (u32_small (2 ^ kb - 1)) by lia.
  rewrite u32_land_mask by lia. unfold WQEBB, off_of in *. apply u32_small. lia.
Qed.

(** Any part of the entry, read through the wrap of the queue. *)
Lemma readSQ_entry i n :
  (i + n <= length W)%nat -> readSQ SQ (u32 (off_of kb b + Z.of_nat i)) (Z.of_nat n) = Some (take n (drop i W)).
Proof using Hl.
  intros Hin. pose proof lies_bounds as Hb. destruct (Hl) as [Hk Hz Hfit Hw].
  rewrite <- Hw, <- window_sub by done.
  unfold readSQ. rewrite (u32_small (zlen SQ)), (u32_small (zlen SQ - 1)) by lia.
  assert (Hlen : zlen SQ = 2 ^ (kb + 6)) by (rewrite Hz, Z.pow_add_r by lia; lia).
  assert (Hland : forall y, Z.land (u32 y) (zlen SQ - 1) = y mod zlen SQ) by (intros; rewrite Hlen; apply u32_land_mask; lia).
  rewrite Hland.
  assert (Hx : (off_of kb b + Z.of_nat i) mod zlen SQ = (b * 64 + Z.of_nat i) mod zlen SQ).
  { rewrite off_mod. by rewrite Zplus_mod_idemp_l. }
  rewrite Hx. set (x := b * 64 + Z.of_nat i). set (o := x mod zlen SQ).
  assert (Ho : 0 <= o < zlen SQ) by (apply Z.mod_pos_bound; lia).
  assert (Hn : Z.of_nat n <= zlen SQ) by (unfold zlen in *; lia).
  rewrite (u32_small (o + Z.of_nat n)) by lia.
  rewrite <- (window_mod SQ x). fold o.
  destruct (Z.leb_spec (o + Z.of_nat n) (zlen SQ)).
  - rewrite slice_window by lia. done.
  - rewrite (u32_small (zlen SQ - o)), (u32_small (Z.of_nat n - (zlen SQ - o))) by lia.
    set (n1 := Z.to_nat (zlen SQ - o)). set (n2 := (n - n1)%nat).
    replace (zlen SQ) with (o + Z.of_nat n1) at 1 by lia. rewrite slice_window by lia. cbn [mbind option_bind].
    replace (Z.of_nat n - (zlen SQ - o)) with (0 + Z.of_nat n2) by (unfold n2; lia). rewrite slice_window by (unfold n2; lia).
    cbn [mbind option_bind]. replace n with (n1 + n2)%nat by (unfold n2; lia). rewrite window_app. do 2 f_equal.
    rewrite <- (window_mod SQ (o + Z.of_nat n1)). replace (o + Z.of_nat n1) with (zlen SQ) by lia.
    by rewrite Z.mod_same by lia.
Qed.

(** The first block of an entry does not wrap. *)
Lemma get_at_entry i x : (i < 64)%nat -> W !! i = Some x -> get_at (u32 (off_of kb b + Z.of_nat i)) SQ = Some x.
Proof using Hl.
  intros Hi Hx. pose proof lies_bounds as Hb. destruct (Hl) as [Hk Hz Hfit Hw]. rewrite u32_small by lia.
  assert (Hm : off_of kb b + Z.of_nat i = (b * 64 + Z.of_nat i) mod zlen SQ).
  { rewrite <- Zplus_mod_idemp_l, <- off_mod. symmetry. apply Z.mod_small. lia. }
  rewrite Hm, get_at_cell by lia. rewrite <- Hx, <- Hw. pose proof (lookup_lt_Some _ _ _ Hx).
  unfold window. rewrite list_lookup_fmap, lookup_seq_lt by lia. done.
Qed.

Lemma get_be_entry i n : (i + n <= 64)%nat -> (i + n <= length W)%nat ->
  get_be n (off_of kb b + Z.of_nat i) SQ = Some (be_val (take n (drop i W))).
Proof using Hl.
  intros Hi Hin. pose proof lies_bounds as Hb. destruct (Hl) as [Hk Hz Hfit Hw]. unfold get_be.
  rewrite slice_window by lia. cbn [mbind option_bind]. do 2 f_equal. rewrite <- Hw, <- window_sub by done.
  rewrite <- (window_mod SQ (b * 64 + _)), <- Zplus_mod_idemp_l, <- off_mod. by rewrite window_mod.
Qed.

Lemma read_be_entry i n : (i + n <= length W)%nat ->
  read_be n SQ (u32 (off_of kb b + Z.of_nat i)) = Some (be_val (take n (drop i W))).
Proof using Hl. intros Hin. unfold read_be. by rewrite readSQ_entry. Qed.
End lies.

(** ** The control segment *)

(** Shifting a field up by a byte and putting another below it. *)
Lemma lor_byte a x : 0 <= a < 2 ^ 24 -> 0 <= x < 256 -> Z.lor (u32 (Z.shiftl a 8)) x = a * 256 + x.
Proof.
  intros Ha Hx. rewrite u32_small by (rewrite Z.shiftl_mul_pow2 by lia; lia).
  rewrite Z.lor_comm, lor_shiftl_add by lia. lia.
Qed.

(** What the device makes of a control segment. *)
Record ctrl_fields (W : list Z) (b op qpn ds : Z) (sg : bool) : Prop := {
  cf_op : W !! 3%nat = Some op;
  cf_idx : exists b1 b2, W !! 1%nat = Some b1 /\ W !! 2%nat = Some b2 /\ Z.lor (u32 (Z.shiftl b1 8)) b2 = u16 b;
  cf_qpnds : be_val (take 4 (drop 4 W)) = qpn * 256 + ds;
  cf_fm : W !! 11%nat = Some (if sg then CtrlCQUpdate else 0);
  cf_size : (16 <= length W)%nat
}.

Lemma ctrl_decodes b op qpn ds sg rest :
  0 <= op < 256 -> 0 <= qpn < 2 ^ 24 -> 0 <= ds < 256 ->
  ctrl_fields (ctrl_seg (u16 b) op qpn ds sg ++ rest) b op qpn ds sg.
Proof.
  intros Hop Hq Hd. unfold ctrl_seg. pose proof (u16_range b) as Hb. rewrite !lor_byte by lia. rewrite !be4_eq. simpl app.
  split.
  - simpl. f_equal. divlia.
  - eexists _, _. simpl. split; [done|]. split; [done|].
    rewrite lor_byte; [divlia|divlia|divlia].
  - simpl. unfold be_val. simpl. divlia.
  - destruct sg; reflexivity.
  - simpl. lia.
Qed.

(** ** Entries *)

(** What the device is configured with, and its not being told to fail. *)
Record nic_for (kb qpn lkey va : Z) (n : TxNIC) : Prop := {
  nf_blocks : n_blocks n = 2 ^ kb;
  nf_qpn : nc_QPN (n_cfg n) = qpn;
  nf_lkey : nc_LKey (n_cfg n) = lkey;
  nf_va : nc_RegionVA (n_cfg n) = va;
  nf_keys : 0 <= qpn < 2 ^ 24 /\ 0 <= lkey < 2 ^ 32 /\ 0 <= va;
  nf_fail : n_FailAfter n = 0;
  nf_discard : n_Discard n = false
}.

(** The packet [f] lies at [addr] of the region. *)
Definition in_memory (mem : NicMem) (va addr : Z) (f : list Z) : Prop :=
  0 <= addr /\ slice addr (addr + zlen f) (nm_Region mem) = Some f /\ va + zlen (nm_Region mem) < 2 ^ 64.

Lemma transmit_eq p n : n_Discard n = false ->
  n_Packets (transmit p n) = n_Packets n ++ [p] /\ n_Violations (transmit p n) = n_Violations n.
Proof. intros E. unfold transmit. simpl. by rewrite E. Qed.

Lemma slice_inv {A} lo hi (l x : list A) : slice lo hi l = Some x -> 0 <= lo <= hi /\ hi <= zlen l /\ x = take (Z.to_nat (hi - lo)) (drop (Z.to_nat lo) l).
Proof. unfold slice. intros H. case_if_in H; [|done]. injection H as <-. split; [lia|]. split; [lia|done]. Qed.

(** The part of a packet from byte [i] on, fetched through a data segment. *)
Lemma fetch_rest mem kb qpn lkey va n addr f i :
  nic_for kb qpn lkey va n -> in_memory mem va addr f -> 0 <= i < zlen f ->
  let a := u64 (u64 (va + addr) + i) in
  in_region mem n a (zlen f - i) = true /\ fetch mem n a (zlen f - i) = Some (drop (Z.to_nat i) f).
Proof.
  intros [_ _ _ Hva [_ [_ Hva0]] _ _] (Ha & Hs & Hhi) Hi a. apply slice_inv in Hs as (H1 & H2 & Hf).
  unfold in_region, fetch. rewrite Hva. unfold a. rewrite !(u64_small (va + addr)) by lia.
  rewrite (u64_small (va + addr + i)), (u64_small (va + zlen _)), (u64_small (va + addr + i + (zlen f - i))) by lia.
  rewrite (u64_small (va + addr + i - va)), (u64_small (va + addr + i - va + _)) by lia. split.
  - rewrite Z.gtb_ltb, (proj2 (Z.ltb_ge _ va)), (proj2 (Z.ltb_ge _ (va + addr + i + _))) by lia. done.
  - rewrite slice_Some by lia. f_equal. symmetry. rewrite Hf at 1. rewrite skipn_firstn_comm, drop_drop. f_equal; [lia|]. f_equal. lia.
Qed.

Lemma fails_never n p : n_FailAfter n = 0 -> fails_here (transmit p n) = false.
Proof. intros E. unfold fails_here. simpl. by rewrite E. Qed.

Section decode.
Context (kb b qpn lkey va : Z) (mem : NicMem) (n : TxNIC) (Hn : nic_for kb qpn lkey va n) (Hc : n_consumed n = u32 b).

(** The common part of every entry. *)
Lemma processOne_ctrl W op ds sg :
  lies kb (nm_SQ mem) b W -> ctrl_fields W b op qpn ds sg -> 1 <= ds <= 60 ->
  op = OpcodeSend \/ op = OpcodeEnhancedMPSW ->
  processOne mem n =
    let blocks := (ds * 16 + 63) / 64 in let off := off_of kb b in
    if op =? OpcodeEnhancedMPSW then processMultiPacket mem (n_consumed n) off ds blocks n
    else
      inlineLen ← get_be 2 (off + ethInlineHdrSz) (nm_SQ mem);
      let ethOcts := u32 (EthSegHeaderSize + inlineLen + Octoword - 1) / Octoword in
      let hasDseg := ds =? u32 (1 + ethOcts + 1) in
      if negb hasDseg && negb (ds =? u32 (1 + ethOcts)) then
        let n := violate "an entry's octoword count does not match its inline header" n in
        Some (with_consumed (n_done n) (n_done n) n)
      else
        r ← gather_packet mem (n_consumed n) off inlineLen ethOcts hasDseg n;
        match r with
        | inl n => Some n
        | inr (buf, addr, n') =>
            if zlen buf =? 0 then
              failWith mem (n_consumed n) SyndromeLocalLength (violate "an entry describes a packet of no bytes" n')
            else
              let n'' := transmit (mkNPacket buf addr (n_consumed n) inlineLen) n' in
              if fails_here n'' then fail_now mem (n_consumed n) blocks n''
              else finish_entry mem off (n_consumed n) blocks n''
        end.
Proof using Hn Hc.
  intros Hl [Hop (b1 & b2 & Hb1 & Hb2 & Hidx) Hq _ Hsz] Hds Hopk. unfold processOne.
  rewrite (nf_blocks _ _ _ _ _ Hn), (entry_off kb b (nm_SQ mem) W Hl _ Hc). cbv zeta.
  pose proof (get_at_entry kb b _ W Hl 3 op ltac:(lia) Hop) as G3. change (Z.of_nat 3) with 3 in G3. rewrite G3. cbn [mbind option_bind].
  assert (Hopb : negb (op =? OpcodeSend) && negb (op =? OpcodeEnhancedMPSW) = false) by (by destruct Hopk as [-> | ->]).
  rewrite Hopb.
  pose proof (get_at_entry kb b _ W Hl 1 b1 ltac:(lia) Hb1) as G1. change (Z.of_nat 1) with 1 in G1. rewrite G1. cbn [mbind option_bind].
  pose proof (get_at_entry kb b _ W Hl 2 b2 ltac:(lia) Hb2) as G2. change (Z.of_nat 2) with 2 in G2. rewrite G2. cbn [mbind option_bind].
  assert (Hi : Z.land (n_consumed n) 0xffff = u16 b) by (rewrite Hc; change 0xffff with (2 ^ 16 - 1); by rewrite u32_land_mask by lia).
  rewrite Hidx, Hi, Z.eqb_refl. cbn [negb].
  pose proof (get_be_entry kb b _ W Hl 4 4 ltac:(lia) ltac:(lia)) as G4. change (Z.of_nat 4) with 4 in G4. rewrite G4, Hq. cbn [mbind option_bind].
  destruct (nf_keys _ _ _ _ _ Hn) as (Hqpn & _).
  assert (E1 : Z.shiftr (qpn * 256 + ds) 8 = qpn) by (rewrite Z.shiftr_div_pow2 by lia; change (2 ^ 8) with 256; divlia).
  assert (E2 : Z.land (qpn * 256 + ds) 0xff = ds) by (change 0xff with (2 ^ 8 - 1); rewrite land_ones_mod by lia; change (2 ^ 8) with 256; divlia).
  rewrite E1, E2, (nf_qpn _ _ _ _ _ Hn), Z.eqb_refl. cbn [negb].
  unfold MaxDS. rewrite (proj2 (Z.eqb_neq ds 0)), Z.gtb_ltb, (proj2 (Z.ltb_ge 60 ds)) by lia. cbn [orb].
  assert (E3 : u32 (ds * Octoword + WQEBB - 1) / WQEBB = (ds * 16 + 63) / 64).
  { unfold Octoword, WQEBB. rewrite u32_small by lia. f_equal. lia. }
  rewrite E3. reflexivity.
Qed.

(** The fields of an ordinary entry behind its control segment. *)
Lemma send_fields k s idx f addr sg buf :
  sender_ok s -> sq_ok k (s_sq s) buf -> zlen f < 2 ^ 32 ->
  let W := send_entry s idx f addr sg in
  be_val (take 2 (drop 28 W)) = inlined s f /\
  take (Z.to_nat (inlined s f)) (drop 30 W) = take (Z.to_nat (inlined s f)) f /\
  (has_rest s f = true -> 0 <= s_lkey s < 2 ^ 32 ->
   let d := Z.to_nat (16 + eth_octs s f * 16) in
   be_val (take 4 (drop d W)) = zlen f - inlined s f /\ be_val (take 4 (drop (d + 4) W)) = s_lkey s /\
   be_val (take 8 (drop (d + 8) W)) = u64 (addr + inlined s f)).
Proof using.
  intros Hs Hq Hf W. pose proof (send_sizes k s buf f Hs Hq) as (Hi & Ho & Hp & _ & _ & _ & _ & Hpad & _). pose proof (zlen_nonneg f).
  assert (Hctl : length (ctrl_seg idx OpcodeSend (s_qpn s) (send_ds s f) sg) = 16%nat).
  { unfold ctrl_seg. rewrite !length_app, !length_be_bytes. done. }
  assert (Hhd : length (take (Z.to_nat (inlined s f)) f) = Z.to_nat (inlined s f)).
  { rewrite length_take. unfold inlined, zlen in *. lia. }
  unfold W, send_entry. set (ctl := ctrl_seg _ _ _ _ _) in *. set (hd := take _ f) in *.
  set (z := be_bytes 4 0). set (cs := be_bytes 4 (u32 _)). set (il := be_bytes 2 (inlined s f)).
  set (pad := replicate _ 0). set (dseg := if has_rest s f then _ else _).
  assert (Hz : length z = 4%nat /\ length cs = 4%nat /\ length il = 2%nat) by (unfold z, cs, il; by rewrite !length_be_bytes).
  destruct Hz as (Hz1 & Hz2 & Hz3).
  split_and!.
  - replace (ctl ++ z ++ cs ++ z ++ il ++ hd ++ pad ++ dseg) with ((ctl ++ z ++ cs ++ z) ++ il ++ (hd ++ pad ++ dseg))
      by (by rewrite <- !app_assoc).
    rewrite (field _ il) by (rewrite ?length_app; lia). apply be_val_be. lia.
  - replace (ctl ++ z ++ cs ++ z ++ il ++ hd ++ pad ++ dseg) with ((ctl ++ z ++ cs ++ z ++ il) ++ hd ++ (pad ++ dseg))
      by (by rewrite <- !app_assoc).
    rewrite (field _ hd) by (rewrite ?length_app; lia). done.
  - intros Hr Hlk. set (d := Z.to_nat (16 + eth_octs s f * 16)). unfold dseg. rewrite Hr. unfold data_seg.
    assert (Hpd : length pad = Z.to_nat (eth_pad s f)) by (unfold pad; by rewrite length_replicate).
    set (pre := ctl ++ z ++ cs ++ z ++ il ++ hd ++ pad).
    assert (Hpre : length pre = d) by (unfold pre, d; rewrite !length_app, Hctl, Hz1, Hz2, Hz3, Hhd, Hpd; lia).
    set (x := be_bytes 4 (zlen f - inlined s f)). set (y := be_bytes 4 (s_lkey s)). set (w := be_bytes 8 _).
    replace (ctl ++ z ++ cs ++ z ++ il ++ hd ++ pad ++ x ++ y ++ w) with (pre ++ x ++ y ++ w)
      by (unfold pre; by rewrite <- !app_assoc).
    split_and!.
    + rewrite (field pre x) by (done || apply length_be_bytes). apply be_val_be. unfold inlined in *. change (256 ^ Z.of_nat 4) with (2 ^ 32). lia.
    + rewrite (app_assoc pre x). rewrite (field (pre ++ x) y) by (rewrite ?length_app, ?Hpre; unfold x, y; rewrite ?length_be_bytes; lia).
      by apply be_val_be.
    + rewrite (app_assoc pre x), (app_assoc (pre ++ x) y). rewrite <- (app_nil_r w).
      rewrite (field ((pre ++ x) ++ y) w []) by (rewrite ?length_app, ?Hpre; unfold x, y, w; rewrite ?length_be_bytes; lia).
      apply be_val_be. change (256 ^ Z.of_nat 8) with (2 ^ 64). apply u64_range.
Qed.

(** An ordinary entry is transmitted as the packet it was made of. *)
Lemma decode_single k s f addr sg buf :
  sender_ok s -> sq_ok k (s_sq s) buf -> s_qpn s = qpn -> s_lkey s = lkey ->
  lies kb (nm_SQ mem) b (send_entry s (u16 b) f (u64 (va + addr)) sg) ->
  0 < zlen f < 2 ^ 32 -> in_memory mem va addr f ->
  exists a, processOne mem n =
    finish_entry mem (off_of kb b) (n_consumed n) (send_bbs s f) (transmit (mkNPacket f a (n_consumed n) (inlined s f)) n).
Proof using Hn Hc.
  intros Hs Hq Hqpn Hlk Hl Hf Hmem. set (W := send_entry s (u16 b) f (u64 (va + addr)) sg) in *.
  pose proof (send_sizes k s buf f Hs Hq) as (Hi & Ho & Hp & Hds & Hm & _ & _ & Hpad & Hoct).
  destruct (nf_keys _ _ _ _ _ Hn) as (Hq0 & Hlk0 & _).
  assert (HW : zlen W = send_ds s f * 16) by (by apply (zlen_send_entry k _ buf)).
  assert (HWn : length W = Z.to_nat (send_ds s f * 16)) by (unfold zlen in HW; lia).
  destruct (send_fields k s (u16 b) f (u64 (va + addr)) sg buf Hs Hq ltac:(lia)) as (F1 & F2 & F3). fold W in F1, F2, F3.
  rewrite (processOne_ctrl W OpcodeSend (send_ds s f) sg Hl); [|rewrite <- Hqpn; apply ctrl_decodes; unfold OpcodeSend; lia|lia|by left].
  cbn [Z.eqb OpcodeSend OpcodeEnhancedMPSW]. cbv zeta.
  change (off_of kb b + ethInlineHdrSz) with (off_of kb b + Z.of_nat 28).
  rewrite (get_be_entry kb b _ W Hl 28 2) by lia. rewrite F1. cbn [mbind option_bind].
  assert (Eo : u32 (EthSegHeaderSize + inlined s f + Octoword - 1) / Octoword = eth_octs s f).
  { unfold EthSegHeaderSize, Octoword, eth_octs. rewrite u32_small by lia. f_equal. lia. }
  rewrite Eo, (u32_small (1 + eth_octs s f + 1)), (u32_small (1 + eth_octs s f)) by lia.
  assert (Hd : (send_ds s f =? 1 + eth_octs s f + 1) = has_rest s f).
  { unfold send_ds. destruct (has_rest s f); [apply Z.eqb_eq|apply Z.eqb_neq]; lia. }
  assert (Hd2 : negb (has_rest s f) && negb (send_ds s f =? 1 + eth_octs s f) = false).
  { unfold send_ds. destruct (has_rest s f); [done|]. rewrite Z.add_0_r, Z.eqb_refl. done. }
  rewrite Hd, Hd2. unfold gather_packet.
  change (off_of kb b + ethInlineHdr) with (off_of kb b + Z.of_nat 30).
  pose proof (readSQ_entry kb b _ W Hl 30 (Z.to_nat (inlined s f)) ltac:(unfold eth_pad in *; lia)) as HR.
  rewrite Z2Nat.id in HR by lia. rewrite HR, F2. cbn [mbind option_bind].
  fold (send_bbs s f). destruct (has_rest s f) eqn:Hr.
  - destruct (F3 eq_refl ltac:(lia)) as (D1 & D2 & D3). set (d := Z.to_nat (16 + eth_octs s f * 16)) in *.
    assert (Hlen : (d + 16 <= length W)%nat) by (unfold d; unfold send_ds in *; lia).
    pose proof (lies_bounds kb b _ W Hl) as Hb.
    assert (Edo : u32 (off_of kb b + CtrlSegSize + eth_octs s f * Octoword) = off_of kb b + Z.of_nat d).
    { unfold CtrlSegSize, Octoword, d. rewrite u32_small by lia. lia. }
    pose proof (read_be_entry kb b _ W Hl d 4 ltac:(lia)) as G. rewrite u32_small in G by (unfold d; lia).
    rewrite Edo, G, D1. cbn [mbind option_bind].
    replace (off_of kb b + Z.of_nat d + 4) with (off_of kb b + Z.of_nat (d + 4)) by lia.
    rewrite (read_be_entry kb b _ W Hl (d + 4) 4) by lia. rewrite D2. cbn [mbind option_bind].
    replace (off_of kb b + Z.of_nat d + 8) with (off_of kb b + Z.of_nat (d + 8)) by lia.
    rewrite (read_be_entry kb b _ W Hl (d + 8) 8) by lia. rewrite D3. cbn [mbind option_bind].
    assert (Hin : 0 <= inlined s f < zlen f).
    { unfold has_rest in Hr. apply Z.ltb_lt in Hr. unfold inlined in *. lia. }
    rewrite (proj2 (Z.eqb_neq (zlen f - _) 0)) by lia.
    rewrite Hlk, (nf_lkey _ _ _ _ _ Hn), Z.eqb_refl. cbn [negb].
    destruct (fetch_rest mem kb qpn lkey va n addr f (inlined s f) Hn Hmem Hin) as [R1 R2].
    rewrite R1, R2. cbn [negb mbind option_bind]. rewrite take_drop.
    rewrite (proj2 (Z.eqb_neq (zlen f) 0)) by lia. rewrite fails_never by exact (nf_fail _ _ _ _ _ Hn). eauto.
  - assert (Hin : inlined s f = zlen f) by (unfold has_rest in Hr; apply Z.ltb_ge in Hr; unfold inlined; lia).
    cbn [mbind option_bind]. rewrite firstn_all2 by (unfold zlen in *; lia). rewrite (proj2 (Z.eqb_neq (zlen f) 0)) by lia.
    rewrite fails_never by exact (nf_fail _ _ _ _ _ Hn). eauto.
Qed.

End decode.

(** *** Multi-packet entries *)

Lemma flag_clear x : 0 <= x < 2 ^ 31 -> Z.land x MPWInlineFlag = 0.
Proof.
  intros Hx. unfold MPWInlineFlag. apply Z.bits_inj'. intros i Hi.
  rewrite Z.land_spec, Z.bits_0. destruct (decide (i = 31)) as [->|Hne].
  - rewrite <- (Z.mod_small x (2 ^ 31)), Z.mod_pow2_bits_high by lia. done.
  - rewrite Z.shiftl_1_l, Z.pow2_bits_false by lia. apply andb_false_r.
Qed.

Lemma flag_set x : 0 <= x < 2 ^ 31 ->
  let v := Z.lor x MPWInlineFlag in v = x + 2 ^ 31 /\ Z.land v MPWInlineFlag <> 0 /\ v &^ MPWInlineFlag = x.
Proof.
  intros Hx. unfold MPWInlineFlag. cbv zeta. rewrite lor_shiftl_add by lia. split; [lia|]. split.
  - intros E. apply (f_equal (fun v => Z.testbit v 31)) in E. rewrite Z.land_spec, Z.bits_0 in E.
    rewrite Z.shiftl_1_l, Z.pow2_bits_true in E by lia. rewrite andb_true_r in E.
    rewrite <- (lor_shiftl_add x 1 31), Z.lor_spec, Z.shiftl_1_l, Z.pow2_bits_true, orb_true_r in E by lia. done.
  - rewrite <- (lor_shiftl_add x 1 31) by lia. apply Z.bits_inj'. intros i Hi.
    rewrite Z.ldiff_spec, Z.lor_spec, Z.shiftl_1_l. destruct (decide (i = 31)) as [->|Hne].
    + rewrite Z.pow2_bits_true, andb_false_r by lia. rewrite <- (Z.mod_small x (2 ^ 31)), Z.mod_pow2_bits_high by lia. done.
    + rewrite Z.pow2_bits_false by lia. by rewrite orb_false_r, andb_true_r.
Qed.

Lemma nic_for_transmit kb qpn lkey va n p : nic_for kb qpn lkey va n -> nic_for kb qpn lkey va (transmit p n).
Proof. intros [H1 H2 H3 H4 H5 H6 H7]. by split. Qed.

(** The packets of an entry, recorded one after another. *)
Definition record_all (block : Z) (ps : list NPacket) (n : TxNIC) : TxNIC := foldl (fun n p => transmit p n) n ps.

Section multi.
Context (kb b qpn lkey va : Z) (mem : NicMem) (W : list Z) (Hl : lies kb (nm_SQ mem) b W) (block blks : Z).

Definition ptr_packet (fa : list Z * Z) : NPacket := mkNPacket fa.1 (u64 (va + fa.2)) block 0.
Definition copy_packet (f : list Z) : NPacket := mkNPacket f 0 block (zlen f).

Lemma W_small : zlen W <= 2 ^ 22.
Proof using Hl. pose proof (lies_bounds kb b _ W Hl). destruct Hl. lia. Qed.

Lemma ptr_packets : forall fas pre fuel pk n,
  nic_for kb qpn lkey va n ->
  W = pre ++ pointers lkey (map fst fas) (map (fun fa => u64 (va + fa.2)) fas) ->
  Forall (fun fa => in_memory mem va fa.2 fa.1 /\ 0 < zlen fa.1 < 2 ^ 31) fas -> (length fas < fuel)%nat ->
  multi_packets fuel mem block blks (off_of kb b + zlen W) (off_of kb b + zlen pre) pk n =
  Some (inr (pk + zlen fas, record_all block (map ptr_packet fas) n)).
Proof using Hl.
  pose proof W_small as HW. pose proof (lies_bounds kb b _ W Hl) as Hb.
  induction fas as [|[f a] fas IH]; intros pre fuel pk n Hn EW Hfas Hfuel; (destruct fuel as [|fuel]; [simpl in Hfuel; lia|]).
  - cbn [multi_packets]. unfold pointers in EW. simpl in EW. rewrite app_nil_r in EW. rewrite EW.
    rewrite Z.ltb_irrefl. simpl. by rewrite Z.add_0_r.
  - apply Forall_cons_iff in Hfas as [[Hmem Hf] Hfas]. cbn [fst snd] in *.
    set (rest := pointers lkey (map fst fas) (map (fun fa => u64 (va + fa.2)) fas)) in *.
    assert (EW2 : W = pre ++ (be_bytes 4 (zlen f) ++ be_bytes 4 lkey ++ be_bytes 8 (u64 (va + a))) ++ rest) by exact EW.
    assert (Hlen : (length pre + 16 <= length W)%nat).
    { rewrite EW2. rewrite !length_app, !length_be_bytes. lia. }
    destruct (nf_keys _ _ _ _ _ Hn) as (_ & Hlk & _).
    cbn [multi_packets]. rewrite (proj2 (Z.ltb_lt _ _)) by (unfold zlen in *; lia). cbn [negb].
    change (zlen pre) with (Z.of_nat (length pre)).
    pose proof (read_be_entry kb b _ W Hl (length pre) 4 ltac:(lia)) as G1. rewrite u32_small in G1 by (unfold zlen in *; lia).
    pose proof (read_be_entry kb b _ W Hl (length pre + 4) 4 ltac:(lia)) as G2.
    pose proof (read_be_entry kb b _ W Hl (length pre + 8) 8 ltac:(lia)) as G3.
    rewrite EW2 in G1, G2, G3. rewrite <- !app_assoc in G1, G2, G3.
    rewrite (field pre (be_bytes 4 (zlen f))) in G1 by (done || apply length_be_bytes).
    rewrite (app_assoc pre), (field (pre ++ _) (be_bytes 4 lkey)) in G2 by (rewrite ?length_app, ?length_be_bytes; done).
    rewrite (app_assoc pre), (app_assoc (pre ++ _)), (field ((pre ++ _) ++ _) (be_bytes 8 _)) in G3 by (rewrite ?length_app, ?length_be_bytes; lia).
    rewrite be_val_be in G1 by (change (256 ^ Z.of_nat 4) with (2 ^ 32); lia).
    rewrite be_val_be in G2 by (change (256 ^ Z.of_nat 4) with (2 ^ 32); lia).
    rewrite be_val_be in G3 by (change (256 ^ Z.of_nat 8) with (2 ^ 64); apply u64_range).
    rewrite G1. cbn [mbind option_bind]. rewrite flag_clear by lia. cbn [Z.eqb].
    unfold Octoword. rewrite (u32_small (_ + 16)) by (unfold zlen in *; lia).
    rewrite Z.gtb_ltb, (proj2 (Z.ltb_ge _ _)) by (unfold zlen in *; lia).
    replace (off_of kb b + Z.of_nat (length pre) + 4) with (off_of kb b + Z.of_nat (length pre + 4)) by lia.
    replace (off_of kb b + Z.of_nat (length pre) + 8) with (off_of kb b + Z.of_nat (length pre + 8)) by lia.
    rewrite G2. cbn [mbind option_bind]. rewrite G3. cbn [mbind option_bind].
    rewrite (proj2 (Z.eqb_neq (zlen f) 0)) by lia.
    rewrite (nf_lkey _ _ _ _ _ Hn), Z.eqb_refl. cbn [negb].
    destruct (fetch_rest mem kb qpn lkey va n a f 0 Hn Hmem ltac:(lia)) as [R1 R2]. rewrite Z.add_0_r, Z.sub_0_r in R1, R2.
    assert (Hu : u64 (u64 (va + a)) = u64 (va + a)) by (unfold u64; by rewrite Z.mod_mod). rewrite Hu in R1, R2.
    rewrite R1, (nf_discard _ _ _ _ _ Hn), R2. cbn [negb mbind option_bind]. rewrite drop_0.
    rewrite fails_never by exact (nf_fail _ _ _ _ _ Hn).
    assert (Hpre2 : off_of kb b + Z.of_nat (length pre) + 16 =
      off_of kb b + zlen (pre ++ be_bytes 4 (zlen f) ++ be_bytes 4 lkey ++ be_bytes 8 (u64 (va + a)))).
    { unfold zlen. rewrite !length_app, !length_be_bytes. lia. }
    rewrite Hpre2, IH; [|by apply nic_for_transmit|rewrite <- app_assoc; exact EW2|done|simpl in Hfuel; lia].
    rewrite zlen_cons. do 3 f_equal. lia.
Qed.

Lemma copy_packets : forall fs pre fuel pk n,
  n_FailAfter n = 0 -> W = pre ++ concat (map copied fs) -> zlen pre mod 16 = 0 ->
  Forall (fun f => 0 < zlen f < 2 ^ 31) fs -> (length fs < fuel)%nat ->
  multi_packets fuel mem block blks (off_of kb b + zlen W) (off_of kb b + zlen pre) pk n =
  Some (inr (pk + zlen fs, record_all block (map copy_packet fs) n)).
Proof using Hl.
  pose proof W_small as HW. pose proof (lies_bounds kb b _ W Hl) as Hb.
  induction fs as [|f fs IH]; intros pre fuel pk n Hn EW Hal Hfs Hfuel; (destruct fuel as [|fuel]; [simpl in Hfuel; lia|]).
  - cbn [multi_packets]. simpl in EW. rewrite app_nil_r in EW. rewrite EW.
    rewrite Z.ltb_irrefl. simpl. by rewrite Z.add_0_r.
  - apply Forall_cons_iff in Hfs as [Hf Hfs]. cbn [map concat] in EW. set (rest := concat (map copied fs)) in *.
    unfold copied in EW. set (pad := replicate _ 0) in EW.
    assert (Hpz : zlen pad = octs f * 16 - 4 - zlen f).
    { unfold pad. autorewrite with word. unfold octs. divlia. }
    destruct (flag_set (zlen f) ltac:(lia)) as (Hv & Hflag & Hclr). set (v := Z.lor (zlen f) MPWInlineFlag) in *.
    assert (HzW : zlen W = zlen pre + octs f * 16 + zlen rest).
    { rewrite EW, !zlen_app, zlen_be_bytes, Hpz. lia. }
    pose proof (zlen_nonneg rest). pose proof (zlen_nonneg pre). pose proof (octs_pos f). pose proof (octs_len f).
    assert (Hof : zlen f + 4 <= octs f * 16) by (unfold octs; divlia).
    cbn [multi_packets]. rewrite (proj2 (Z.ltb_lt _ _)) by lia. cbn [negb].
    pose proof (read_be_entry kb b _ W Hl (length pre) 4 ltac:(unfold zlen in *; lia)) as G1.
    rewrite u32_small in G1 by (unfold zlen in *; lia).
    pose proof (readSQ_entry kb b _ W Hl (length pre + 4) (length f) ltac:(unfold zlen in *; lia)) as G2.
    rewrite EW in G1, G2. rewrite <- !app_assoc in G1, G2.
    rewrite (field pre (be_bytes 4 v)) in G1 by (done || apply length_be_bytes).
    rewrite (app_assoc pre), (field (pre ++ _) f) in G2 by (rewrite ?length_app, ?length_be_bytes; done).
    rewrite be_val_be in G1 by (change (256 ^ Z.of_nat 4) with (2 ^ 32); lia).
    change (Z.of_nat (length pre)) with (zlen pre) in G1. rewrite G1. cbn [mbind option_bind].
    rewrite (proj2 (Z.eqb_neq _ 0)) by done. rewrite Hclr, (proj2 (Z.eqb_neq (zlen f) 0)) by lia.
    rewrite (u32_small (off_of kb b + zlen pre + 4 + zlen f)), Z.gtb_ltb, (proj2 (Z.ltb_ge _ _)) by lia.
    replace (off_of kb b + Z.of_nat (length pre + 4)) with (off_of kb b + zlen pre + 4) in G2 by (unfold zlen; lia).
    change (Z.of_nat (length f)) with (zlen f) in G2. rewrite G2. cbn [mbind option_bind].
    rewrite fails_never by done. unfold Octoword.
    rewrite (u32_small (4 + zlen f + 16 - 1)) by lia.
    assert (Eo : (4 + zlen f + 16 - 1) / 16 = octs f) by (unfold octs; f_equal; lia). rewrite Eo.
    rewrite (u32_small (off_of kb b + zlen pre + octs f * 16)) by lia.
    assert (Hpre2 : off_of kb b + zlen pre + octs f * 16 = off_of kb b + zlen (pre ++ be_bytes 4 v ++ f ++ pad)).
    { rewrite !zlen_app, zlen_be_bytes, Hpz. lia. }
    rewrite Hpre2, IH; [|done|by rewrite EW, <- !app_assoc| |done|simpl in Hfuel; lia].
    + rewrite zlen_cons. do 3 f_equal. lia.
    + rewrite !zlen_app, zlen_be_bytes, Hpz. divlia.
Qed.
End multi.

Section decode_multi.
Context (kb b qpn lkey va : Z) (mem : NicMem) (n : TxNIC) (Hn : nic_for kb qpn lkey va n) (Hc : n_consumed n = u32 b).

(** The compact Ethernet segment claims no inline header. *)
Lemma mpw_head_inline s idx ds sg rest : take 2 (drop 28 (mpw_head s idx ds sg ++ rest)) = [0; 0].
Proof using.
  unfold mpw_head, ctrl_seg. rewrite <- !app_assoc.
  rewrite !be4_eq. done.
Qed.

(** From the control segment to the packet loop. *)
Lemma process_multi W ds sg s rest packets n' :
  lies kb (nm_SQ mem) b W -> W = mpw_head s (u16 b) ds sg ++ rest -> m_qpn s = qpn -> 2 < ds <= 60 -> zlen W = ds * 16 ->
  packets <> 0 ->
  multi_packets (S (Z.to_nat ds)) mem (n_consumed n) ((ds * 16 + 63) / 64) (off_of kb b + zlen W) (off_of kb b + 32) 0 n =
    Some (inr (packets, n')) ->
  processOne mem n = finish_entry mem (off_of kb b) (n_consumed n) ((ds * 16 + 63) / 64) n'.
Proof using Hn Hc.
  intros Hl EW Hq Hds HzW Hpk Hloop. pose proof (lies_bounds kb b _ W Hl) as Hb. destruct (nf_keys _ _ _ _ _ Hn) as (Hq0 & _).
  rewrite (processOne_ctrl kb b qpn lkey va mem n Hn Hc W OpcodeEnhancedMPSW ds sg Hl); [| |lia|by right].
  2: { rewrite EW. unfold mpw_head. rewrite <- app_assoc, Hq. apply ctrl_decodes; unfold OpcodeEnhancedMPSW; lia. }
  cbv zeta. rewrite Z.eqb_refl. unfold processMultiPacket.
  pose proof (read_be_entry kb b _ W Hl 28 2 ltac:(unfold zlen in *; lia)) as G. rewrite EW in G. rewrite mpw_head_inline in G.
  change (Z.of_nat 28) with ethInlineHdrSz in G. rewrite G. cbn [mbind option_bind]. change (be_val [0; 0]) with 0. cbn [Z.eqb negb].
  assert (zlen W <= 2 ^ 22) by (destruct Hl; lia).
  unfold CtrlSegSize, MPWEthSegSize, Octoword.
  rewrite (u32_small (off_of kb b + 16 + 16)), (u32_small (off_of kb b + ds * 16)) by lia.
  replace (off_of kb b + 16 + 16) with (off_of kb b + 32) by lia. rewrite HzW in Hloop. rewrite Hloop. cbn [mbind option_bind].
  by rewrite (proj2 (Z.eqb_neq _ _) Hpk).
Qed.

(** An entry that points at its packets. *)
Lemma decode_pointers s fas sg :
  m_qpn s = qpn -> m_lkey s = lkey -> 2 <= zlen fas <= 58 ->
  Forall (fun fa => in_memory mem va fa.2 fa.1 /\ 0 < zlen fa.1 < 2 ^ 31) fas ->
  lies kb (nm_SQ mem) b (ptr_entry s (u16 b) (map fst fas) (map (fun fa => u64 (va + fa.2)) fas) sg) ->
  processOne mem n = finish_entry mem (off_of kb b) (n_consumed n) (((2 + zlen fas) * 16 + 63) / 64)
                       (record_all (n_consumed n) (map (ptr_packet va (n_consumed n)) fas) n).
Proof using Hn Hc.
  intros Hq Hlk H2 Hfas Hl. set (W := ptr_entry _ _ _ _ _) in *.
  assert (Hzf : zlen (map fst fas) = zlen fas) by (unfold zlen; by rewrite length_map).
  assert (HzW : zlen W = (2 + zlen fas) * 16).
  { unfold W, ptr_entry. rewrite zlen_app, zlen_mpw_head, zlen_pointers, Hzf by (unfold zlen; by rewrite !length_map). lia. }
  eapply (process_multi W (2 + zlen fas) sg s (pointers (m_lkey s) (map fst fas) (map (fun fa => u64 (va + fa.2)) fas)) (0 + zlen fas));
    [done|unfold W, ptr_entry; by rewrite Hzf|done|lia|done|lia|].
  rewrite <- (zlen_mpw_head s (u16 b) (2 + zlen fas) sg).
  apply (ptr_packets kb b qpn lkey va mem W Hl); [done| |done|unfold zlen; lia].
  unfold W, ptr_entry. by rewrite Hzf, Hlk.
Qed.

(** An entry that has its packets copied in. *)
Lemma decode_copies s fs sg :
  m_qpn s = qpn -> 2 <= zlen fs -> 2 + octs_all fs <= 60 -> Forall (fun f => 0 < zlen f < 2 ^ 31) fs ->
  lies kb (nm_SQ mem) b (mpw_entry s (u16 b) fs sg) ->
  processOne mem n = finish_entry mem (off_of kb b) (n_consumed n) (((2 + octs_all fs) * 16 + 63) / 64)
                       (record_all (n_consumed n) (map (copy_packet (n_consumed n)) fs) n).
Proof using Hn Hc.
  intros Hq H2 Ho Hfs Hl. set (W := mpw_entry _ _ _ _) in *.
  assert (Hle : zlen fs <= octs_all fs).
  { clear. induction fs as [|f fs IH]; [unfold zlen; simpl; lia|]. rewrite zlen_cons. simpl. pose proof (octs_pos f). lia. }
  assert (HzW : zlen W = (2 + octs_all fs) * 16).
  { unfold W, mpw_entry. rewrite zlen_app, zlen_mpw_head, zlen_copied_all. lia. }
  eapply (process_multi W (2 + octs_all fs) sg s (concat (map copied fs)) (0 + zlen fs)); [done|done|done|lia|done|lia|].
  rewrite <- (zlen_mpw_head s (u16 b) (2 + octs_all fs) sg).
  apply (copy_packets kb b mem W Hl); [exact (nf_fail _ _ _ _ _ Hn)|done| |done|unfold zlen in *; lia].
  by rewrite zlen_mpw_head.
Qed.
End decode_multi.
