(* ===== verification/MockNicClaims.v ===== *)
(** The send ring against the device model: what [Post] publishes, [Poll]
    transmits, byte for byte. *)

From stdpp Require Import prelude list numbers strings.
From S2P Require Import Prelude Circ Bytes Desc Sq Send Mpw Cqe RingTx RingTxInv RingTxPost RingTxMulti RingTxComplete RingTxSystem RingTxClaims MockNic MockNicThms.

(** ** Completions *)

(** The 64 bytes of a completion. *)
Definition cqe_bytes (qpn block opcode syndrome owner : Z) : list Z :=
  replicate 55 0 ++ (if opcode =? CQEReqErr then [syndrome] ++ be_bytes 4 qpn else [0; 0; 0; 0; 0]) ++
  be_bytes 2 (u16 block) ++ [0; Z.lor (u8 (Z.shiftl opcode 4)) (u8 owner)].

(** ** A completion the driver understands *)

Section completion.
Context (j P C : Z) (mem : NicMem) (n : TxNIC).
Context (Hc : cq_ok j (n_cq n) (n_CQ n)) (HP : n_cqPi n = u32 P)
        (HC : dbrec (nm_CQDbrec mem) mod 2 ^ 24 = C mod 2 ^ 24) (Hroom : 0 <= P - C < Entries (n_cq n)).

Lemma consumer_eq : u32 (n_cqPi n - consumerIndex mem n) = P - C.
Proof using Hc HP HC Hroom.
  pose proof (cq_pow j _ _ Hc) as Hp. destruct (Hc) as (_ & _ & Ec & _). unfold Entries in Hroom. rewrite Ec in Hroom. simpl in Hroom.
  unfold consumerIndex. rewrite HP. by apply released_eq; [|lia].
Qed.

Lemma writeCompletion_spec block opcode syndrome :
  opcode = CQEReq \/ opcode = CQEReqErr -> 0 <= syndrome < 256 ->
  exists n', writeCompletion mem block opcode syndrome n = Some n' /\
    n_cqPi n' = u32 (P + 1) /\ n_CQ n' = cq_write (n_cq n) P (cqe_bytes (nc_QPN (n_cfg n)) block opcode syndrome (ExpectedOwner (n_cq n) (u32 P))) (n_CQ n) /\
    (n_cfg n', n_cq n', n_blocks n', n_consumed n', n_done n', n_FailAfter n', n_Syndrome n', n_BlocksPerPoll n', n_Discard n') =
    (n_cfg n, n_cq n, n_blocks n, n_consumed n, n_done n, n_FailAfter n, n_Syndrome n, n_BlocksPerPoll n, n_Discard n) /\
    (n_failed n', n_stop n', n_Packets n', n_sent n', n_Violations n') = (n_failed n, n_stop n, n_Packets n, n_sent n, n_Violations n).
Proof using Hc HP HC Hroom.
  intros Hop Hsyn. pose proof (cq_pow j _ _ Hc) as Hp. unfold writeCompletion. rewrite consumer_eq, HP.
  rewrite Z.geb_leb, (proj2 (Z.leb_gt _ (P - C))) by lia.
  rewrite (cq_slot j _ _ Hc). set (o := P mod 2 ^ j * 64). pose proof (Z.mod_pos_bound P (2 ^ j) ltac:(lia)) as Hm.
  destruct (Hc) as (_ & Hz & Ec & _). unfold CQESize.
  rewrite (u32_small (o + 64)), clear_range_Some by (unfold o; lia). replace (o + 64 - o) with 64 by lia. cbn [mbind option_bind].
  set (z := replicate (Z.to_nat 64) 0). assert (Hlz : zlen z = 64) by done.
  assert (Hfield : forall i b q, zlen q = 64 -> 0 <= i -> i + zlen b <= 64 -> blit (o + i) b (blit o q (n_CQ n)) = blit o (blit i b q) (n_CQ n)).
  { intros i b q Hq Hi Hb. apply blit_over; unfold o; lia. }
  assert (Hlen : forall q, zlen q = 64 -> zlen (blit o q (n_CQ n)) = zlen (n_CQ n)) by (intros q Hq; apply zlen_blit; unfold o; lia).
  assert (Hstep : exists e1, zlen e1 = 64 /\
    (if opcode =? CQEReqErr then q ← set_at (o + 55) syndrome (blit o z (n_CQ n)); put_be 4 (o + 56) (nc_QPN (n_cfg n)) q
     else Some (blit o z (n_CQ n))) = Some (blit o e1 (n_CQ n)) /\
    e1 = if opcode =? CQEReqErr then blit 56 (be_bytes 4 (nc_QPN (n_cfg n))) (blit 55 [syndrome] z) else z).
  { destruct (opcode =? CQEReqErr).
    - rewrite set_blit by (rewrite Hlen by done; unfold o; lia). cbn [mbind option_bind]. rewrite Hfield by (done || lia).
      assert (Hz1 : zlen (blit 55 [syndrome] z) = 64) by (rewrite zlen_blit; done || lia).
      rewrite put_be_Some by (rewrite ?Hlen by done; unfold o; lia). rewrite Hfield by (rewrite ?zlen_be_bytes; done || lia).
      eexists. split; [|split; [done|done]]. rewrite zlen_blit; rewrite ?zlen_be_bytes, ?Hz1; lia.
    - exists z. done. }
  destruct Hstep as (e1 & He1 & -> & Ee1). cbn [mbind option_bind].
  rewrite put_be_Some by (rewrite ?Hlen by done; unfold o; lia). cbn [mbind option_bind].
  rewrite Hfield by (rewrite ?zlen_be_bytes; done || lia). set (e2 := blit 60 (be_bytes 2 (u16 block)) e1).
  assert (He2 : zlen e2 = 64) by (unfold e2; rewrite zlen_blit; rewrite ?zlen_be_bytes, ?He1; lia).
  rewrite set_blit by (rewrite Hlen by done; unfold o; lia). cbn [mbind option_bind]. rewrite Hfield by (done || lia).
  eexists. split; [done|]. simpl. split; [apply u32_add_l|]. split; [|done].
  unfold cq_write, Entries. rewrite Ec. cbn [cq_entries]. fold o. f_equal. unfold cqe_bytes, e2. rewrite Ee1.
  pose proof (length_be_bytes 4 (nc_QPN (n_cfg n))) as Hl4. pose proof (length_be_bytes 2 (u16 block)) as Hl2.
  set (qb := be_bytes 4 (nc_QPN (n_cfg n))) in *. set (bb := be_bytes 2 (u16 block)) in *.
  do 5 (destruct qb as [|? qb]; try discriminate). do 3 (destruct bb as [|? bb]; try discriminate).
  destruct Hop as [-> | ->]; reflexivity.
Qed.

Lemma cqe_bytes_ok block opcode syndrome :
  opcode = CQEReq \/ opcode = CQEReqErr -> 0 <= syndrome < 256 ->
  exists h, cqe_for (n_cq n) P block (cqe_bytes (nc_QPN (n_cfg n)) block opcode syndrome (ExpectedOwner (n_cq n) (u32 P))) h /\ Opcode h = opcode.
Proof using Hc.
  clear HP HC Hroom. intros Hop Hsyn.
  assert (Hop16 : 0 <= opcode < 16) by (destruct Hop as [-> | ->]; unfold CQEReq, CQEReqErr; lia).
  destruct (header_word j _ _ P (u16 block) opcode Hc (u16_range block) Hop16) as (h & Hbytes & Ho & [Hf Hr] & Hopc & Hctr).
  exists h. split; [|done]. unfold cqe_bytes. pose proof (be_bytes_ok 4 (nc_QPN (n_cfg n))) as Hq.
  pose proof (length_be_bytes 4 (nc_QPN (n_cfg n))) as Hl4. set (qb := be_bytes 4 (nc_QPN (n_cfg n))) in *.
  set (mid := if opcode =? CQEReqErr then [syndrome] ++ qb else [0; 0; 0; 0; 0]).
  assert (Hmid : length mid = 5%nat /\ bytes_ok mid).
  { unfold mid. destruct (opcode =? CQEReqErr); [|split; [done|repeat constructor; done]].
    split; [by rewrite length_app, Hl4|]. by constructor. }
  destruct Hmid as [Hlm Hbm]. clearbody mid. rewrite Hbytes. pose proof (length_be_bytes 4 h) as Hlh.
  split; [..|by rewrite Hopc|done]; try done.
  - unfold zlen. rewrite !length_app, length_replicate, Hlm, Hlh. done.
  - unfold bytes_ok. rewrite !Forall_app. split_and!; [by apply Forall_replicate|done|apply be_bytes_ok].
  - rewrite app_assoc, <- (app_nil_r (be_bytes 4 h)). apply header_at; [|done]. by rewrite length_app, length_replicate, Hlm.
Qed.
End completion.

(** ** Entries and the packets they describe *)

(** The entries [Post] makes at block [b], with the packets each describes. *)
Inductive describes (p : TxParams) (region : list Z) (b : Z) (sg : bool) : entry -> list (list Z) -> Prop :=
| describes_single d f :
    descOK p d = true -> frame_of region d = Some f -> describes p region b sg (single p b d f sg) [f]
| describes_multi m e fs :
    mpw p = Some m -> made p m region b sg e -> frames_of region (e_descs e) fs -> describes p region b sg e fs.

(** The entries of a batch, one after another from block [b] on. *)
Inductive batch_describes (p : TxParams) (region : list Z) : Z -> list entry -> list (list Z) -> Prop :=
| bd_nil b : batch_describes p region b [] []
| bd_cons b sg e fs es fss :
    describes p region b sg e fs -> batch_describes p region (b + e_blocks e) es fss ->
    batch_describes p region b (e :: es) (fs ++ fss).

(** What the model keeps while it works through a queue: it stands at block
    [b] and has written [P] completions. *)
Record polling (kb j : Z) (p : TxParams) (b P : Z) (n : TxNIC) : Prop := {
  pl_nic : nic_for kb (s_qpn (sender p)) (s_lkey (sender p)) (regionVA p) n;
  pl_consumed : n_consumed n = u32 b;
  pl_done : n_done n = u32 b;
  pl_failed : n_failed n = false;
  pl_stop : n_stop n = false;
  pl_cq : cq_ok j (n_cq n) (n_CQ n);
  pl_pi : n_cqPi n = u32 P
}.

(** What stays as it is. *)
Definition kept (n : TxNIC) : list string * CQ * Z := (n_Violations n, n_cq n, n_BlocksPerPoll n).

Lemma record_all_fields block ps : forall n, n_Discard n = false ->
  n_Packets (record_all block ps n) = n_Packets n ++ ps /\ kept (record_all block ps n) = kept n /\
  n_consumed (record_all block ps n) = n_consumed n /\ n_CQ (record_all block ps n) = n_CQ n /\
  n_cqPi (record_all block ps n) = n_cqPi n /\ n_failed (record_all block ps n) = n_failed n /\
  n_stop (record_all block ps n) = n_stop n /\
  (forall kb q l v, nic_for kb q l v n -> nic_for kb q l v (record_all block ps n)).
Proof.
  induction ps as [|x ps IH]; intros n Hd; [rewrite app_nil_r; by split_and!|].
  unfold record_all in *. cbn [foldl]. destruct (IH (transmit x n) Hd) as (E1 & E2 & E3 & E4 & E5 & E6 & E7 & E8).
  rewrite E1, E2, E3, E4, E5, E6, E7. simpl. rewrite Hd, <- app_assoc. split_and!; try done.
  intros kb q l v Hn. by apply E8, nic_for_transmit.
Qed.

Section poll.
Context (kb ks kf j C : Z) (p : TxParams) (region : list Z) (mem : NicMem).
Context (Hp : par_ok kb ks kf p) (Hkf : kf <= 30) (Hr : zlen region = regionLen p) (Hm : nm_Region mem = region)
        (Hva : 0 <= regionVA p /\ regionVA p + zlen region < 2 ^ 64)
        (HC : dbrec (nm_CQDbrec mem) mod 2 ^ 24 = C mod 2 ^ 24).

(** The completion of an entry, if it asked for one. *)
Lemma finish_polled b P W op ds sg blks n :
  lies kb (nm_SQ mem) b W -> ctrl_fields W b op (s_qpn (sender p)) ds sg ->
  nic_for kb (s_qpn (sender p)) (s_lkey (sender p)) (regionVA p) n ->
  n_consumed n = u32 b -> n_failed n = false -> n_stop n = false -> cq_ok j (n_cq n) (n_CQ n) -> n_cqPi n = u32 P ->
  0 <= P - C < Entries (n_cq n) ->
  exists n', finish_entry mem (off_of kb b) (u32 b) blks n = Some n' /\ polling kb j p (b + blks) (P + Z.b2z sg) n' /\
    n_Packets n' = n_Packets n /\ kept n' = kept n /\
    (if sg then exists c h, cqe_for (n_cq n) P b c h /\ Opcode h = CQEReq /\ n_CQ n' = cq_write (n_cq n) P c (n_CQ n)
     else n_CQ n' = n_CQ n).
Proof using Hp Hkf Hr Hm Hva HC.
  intros Hl Hcf Hn Hc Hf Hst Hcq HP Hroom. unfold finish_entry.
  pose proof (get_at_entry kb b _ W Hl 11 _ ltac:(lia) (cf_fm _ _ _ _ _ _ Hcf)) as G. change (Z.of_nat 11) with ctrlFMCESE in G.
  rewrite G. cbn [mbind option_bind]. rewrite Hc, u32_add_l. destruct sg.
  - change (negb (Z.land CtrlCQUpdate CtrlCQUpdate =? 0)) with true. cbv iota.
    destruct (writeCompletion_spec j P C mem (with_consumed (u32 (b + blks)) (n_done n) n) Hcq HP HC Hroom (u32 b) CQEReq 0
                ltac:(by left) ltac:(lia)) as (n1 & -> & HP1 & HQ1 & H1 & H2). cbn [mbind option_bind].
    destruct (cqe_bytes_ok j P (with_consumed (u32 (b + blks)) (n_done n) n) Hcq (u32 b) CQEReq 0 ltac:(by left) ltac:(lia)) as (h & Hh & Ho).
    simpl in H1, H2. injection H1 as F1 F2 F3 F4 F5 F6 F7 F8 F9. injection H2 as K1 K2 K3 K4 K5.
    eexists. split; [done|]. destruct Hn as [N1 N2 N3 N4 N5 N6 N7]. split.
    { split; simpl; try done; try congruence.
      - split; simpl; congruence.
      - rewrite F2, HQ1. simpl. destruct Hh. by apply cq_write_ok. }
    split; [done|]. split; [unfold kept; simpl; congruence|]. eexists _, h. split; [|split; [done|exact HQ1]].
    simpl in Hh. destruct Hh as [A1 A2 A3 A4 A5 A6 A7]. split; try done.
    rewrite A7. unfold u16, u32. apply mod_mod_pow2. lia.
  - change (negb (Z.land 0 CtrlCQUpdate =? 0)) with false. cbv iota. cbn [mbind option_bind].
    eexists. split; [done|]. destruct Hn as [N1 N2 N3 N4 N5 N6 N7]. split; [|done].
    split; simpl; try done. by rewrite Z.add_0_r.
Qed.

Lemma frame_in_memory d f : desc_ok d -> descOK p d = true -> frame_of region d = Some f ->
  in_memory mem (regionVA p) (Addr d) f /\ 0 < zlen f <= 2 ^ 30.
Proof using Hp Hkf Hr Hm Hva.
  intros Hd Hok Hf. destruct (frame_len _ _ _ _ _ _ _ Hp Hr Hd Hok Hf) as [Hl _].
  apply (descOK_spec _ _ _ _ _ Hp Hd) in Hok as (H1 & H2 & H3). destruct Hd as ((Ha & _) & Hlr & _).
  pose proof (po_kf _ _ _ _ Hp). assert (0 < 2 ^ kf <= 2 ^ 30) by (split; [lia|apply Z.pow_le_mono_r; lia]).
  pose proof (Z.mod_pos_bound (Addr d) (2 ^ kf) ltac:(lia)). pose proof (po_region _ _ _ _ Hp) as [Hrl _].
  split; [|lia]. split; [done|]. rewrite Hm, Hl. split; [|lia]. unfold frame_of in Hf. by rewrite u64_small in Hf by lia.
Qed.

Lemma frames_in_memory ds fs : Forall desc_ok ds -> Forall (fun d => descOK p d = true) ds -> frames_of region ds fs ->
  Forall (fun fa => in_memory mem (regionVA p) fa.2 fa.1 /\ 0 < zlen fa.1 < 2 ^ 31) (zip fs (map Addr ds)).
Proof using Hp Hkf Hr Hm Hva.
  intros Hd Hok Hf. induction Hf as [|d f ds fs Hdf _ IH]; [constructor|]. simpl.
  apply Forall_cons_iff in Hd as [Hd1 Hd]. apply Forall_cons_iff in Hok as [Hok1 Hok].
  constructor; [|by apply IH]. simpl. destruct (frame_in_memory d f Hd1 Hok1 Hdf). split; [done|lia].
Qed.

Lemma frames_of_inj ds fs fs' : frames_of region ds fs -> frames_of region ds fs' -> fs = fs'.
Proof.
  intros H. revert fs'. induction H as [|d f ds fs Hdf _ IH]; intros fs' H'; inversion_clear H'; [done|].
  f_equal; [congruence|by apply IH].
Qed.

Section entry.
Context (b : Z) (n : TxNIC) (Hn : nic_for kb (s_qpn (sender p)) (s_lkey (sender p)) (regionVA p) n) (Hc : n_consumed n = u32 b).

(** The device takes an entry for the packets it was made of. *)
Lemma decode_entry sg e fs :
  describes p region b sg e fs -> Forall desc_ok (e_descs e) -> lies kb (nm_SQ mem) b (e_bytes e) ->
  exists ps op ds, processOne mem n = finish_entry mem (off_of kb b) (u32 b) (e_blocks e) (record_all (u32 b) ps n) /\
    map p_Bytes ps = fs /\ ctrl_fields (e_bytes e) b op (s_qpn (sender p)) ds sg.
Proof using Hp Hkf Hr Hm Hva Hn Hc.
  intros Hde Hds Hl. destruct (nf_keys _ _ _ _ _ Hn) as (Hq & _).
  assert (Hone : forall d f, desc_ok d -> descOK p d = true -> frame_of region d = Some f -> e = single p b d f sg ->
    exists ps op ds, processOne mem n = finish_entry mem (off_of kb b) (u32 b) (e_blocks e) (record_all (u32 b) ps n) /\
      map p_Bytes ps = [f] /\ ctrl_fields (e_bytes e) b op (s_qpn (sender p)) ds sg).
  { intros d f Hd Hok Hf ->. destruct (frame_in_memory d f Hd Hok Hf) as [Hin Hlf].
    pose proof (po_sender _ _ _ _ Hp) as Hs.
    assert (Hsq : sq_ok (kb + 6) (s_sq (sender p)) (nm_SQ mem)).
    { destruct Hl as [? Hz _ _]. unfold sq_ok. rewrite Hz, (po_sq_mask _ _ _ _ Hp), (po_sq_bbs _ _ _ _ Hp).
      replace (kb + 6 - 6) with kb by lia. rewrite Z.pow_add_r by lia. split_and!; lia. }
    destruct (decode_single kb b _ _ _ mem n Hn Hc (kb + 6) (sender p) f (Addr d) sg (nm_SQ mem) Hs Hsq eq_refl eq_refl Hl ltac:(lia) Hin)
      as [a Ha]. rewrite Hc in Ha.
    eexists [_], OpcodeSend, _. split; [exact Ha|]. split; [done|]. simpl. unfold send_entry.
    pose proof (send_sizes (kb + 6) (sender p) (nm_SQ mem) f Hs Hsq).
    apply ctrl_decodes; [done|done|lia]. }
  destruct Hde as [d f Hok Hf|m e fs Hm' Hma Hfs].
  { apply (Hone d f); try done. by inversion_clear Hds. }
  destruct (po_mpw _ _ _ _ Hp m Hm') as (Hmok & _ & _ & Hmq & Hmk).
  destruct Hma as [d f Hok Hf|ds fs' Hok Hptr Hf Hsh H2|ds fs' Hok Hptr Hf Hsh H2]; simpl in Hfs, Hds.
  - inversion Hfs as [|? f' ? fs0 Hf' Hnil]; subst. inversion Hnil; subst. rewrite Hf in Hf'. injection Hf' as <-.
    apply (Hone d f); try done. by inversion_clear Hds.
  - pose proof (frames_of_inj _ _ _ Hfs Hf) as ->. unfold mpw_ok, can_share, Pointer in *. rewrite Hptr in *.
    pose proof (Forall2_length _ _ _ Hf) as Hlen. set (fas := zip fs' (map Addr ds)).
    assert (E1 : map fst fas = fs') by (apply fst_zip; rewrite length_map; lia).
    assert (E2 : map (fun fa => u64 (regionVA p + fa.2)) fas = map (device_addr p) ds).
    { unfold fas. rewrite <- (map_map snd (fun a => u64 (regionVA p + a))).
      change (map snd (zip fs' (map Addr ds))) with (snd <$> zip fs' (map Addr ds)). rewrite snd_zip by (rewrite length_map; lia).
      rewrite map_map. done. }
    assert (E3 : zlen fas = zlen fs') by (rewrite <- E1; unfold zlen; by rewrite length_map).
    pose proof (frames_in_memory ds fs' Hds Hok Hf) as Hall. fold fas in Hall.
    simpl e_bytes in *. rewrite <- E2 in *. rewrite <- E1 in Hl at 1.
    pose proof (decode_pointers kb b _ _ _ mem n Hn Hc m fas sg Hmq Hmk ltac:(lia) Hall Hl) as Hd. rewrite E3, Hc in Hd.
    eexists _, OpcodeEnhancedMPSW, _. split; [exact Hd|]. split.
    + rewrite map_map. simpl. exact E1.
    + unfold ptr_entry, mpw_head. rewrite <- app_assoc, Hmq. apply ctrl_decodes; [done|done|lia].
  - pose proof (frames_of_inj _ _ _ Hfs Hf) as ->. unfold mpw_ok, can_share, Pointer, MaxDS in *. rewrite Hptr in *.
    destruct Hsh as [Ho Hsh]. pose proof (octs_all_len fs').
    assert (Hall : Forall (fun f => 0 < zlen f < 2 ^ 31) fs') by (eapply Forall_impl; [exact Hsh|]; simpl; lia).
    pose proof (decode_copies kb b _ _ _ mem n Hn Hc m fs' sg Hmq H2 Ho Hall Hl) as Hd. rewrite Hc in Hd.
    eexists _, OpcodeEnhancedMPSW, _. split; [exact Hd|]. split.
    + rewrite map_map. simpl. apply map_id.
    + simpl. unfold mpw_entry, mpw_head. rewrite <- app_assoc, Hmq. apply ctrl_decodes; [done|done|lia].
Qed.
End entry.

(** One round of [Poll]. *)
Lemma entry_polled b P sg e fs n :
  describes p region b sg e fs -> Forall desc_ok (e_descs e) -> lies kb (nm_SQ mem) b (e_bytes e) ->
  polling kb j p b P n -> 0 <= P - C < Entries (n_cq n) ->
  exists n' ps, processOne mem n = Some n' /\ polling kb j p (b + e_blocks e) (P + Z.b2z sg) n' /\
    n_Packets n' = n_Packets n ++ ps /\ map p_Bytes ps = fs /\ kept n' = kept n /\
    (if sg then exists c h, cqe_for (n_cq n) P b c h /\ Opcode h = CQEReq /\ n_CQ n' = cq_write (n_cq n) P c (n_CQ n)
     else n_CQ n' = n_CQ n).
Proof using Hp Hkf Hr Hm Hva HC.
  intros Hde Hds Hl [Hn Hc _ Hf Hst Hcq HP] Hroom.
  destruct (decode_entry b n Hn Hc sg e fs Hde Hds Hl) as (ps & op & ds & -> & Hps & Hcf).
  destruct (record_all_fields (u32 b) ps n (nf_discard _ _ _ _ _ Hn)) as (E1 & E2 & E3 & E4 & E5 & E6 & E7 & E8).
  injection E2 as K1 K2 K3.
  destruct (finish_polled b P _ op ds sg (e_blocks e) (record_all (u32 b) ps n) Hl Hcf (E8 _ _ _ _ Hn)) as (n' & -> & Hpl & Hpk & Hk & Hcqe);
    rewrite ?E3, ?E4, ?E5, ?E6, ?E7, ?K2; try done.
  exists n', ps. rewrite Hpk, E1, Hk. split_and!; try done; [unfold kept; congruence|]. by rewrite K2, E4 in Hcqe.
Qed.

(** A batch, entry by entry. *)
Lemma batch_polled es fss b : batch_describes p region b es fss ->
  forall P n fuel me h, Forall desc_ok (outstanding es) -> Forall (entry_ok p) es -> laid me (nm_SQ mem) b h es ->
  zlen (nm_SQ mem) = 64 * 2 ^ kb -> blocks es <= 2 ^ kb -> polling kb j p b P n ->
  0 <= P - C -> P - C + zlen es <= Entries (n_cq n) -> (length es <= fuel)%nat ->
  exists n' ps P', poll_loop fuel mem (u32 (b + blocks es)) n = Some n' /\ polling kb j p (b + blocks es) P' n' /\
    n_Packets n' = n_Packets n ++ ps /\ map p_Bytes ps = fss /\ kept n' = kept n /\ P <= P' <= P + zlen es.
Proof using Hp Hkf Hr Hm Hva HC.
  induction 1 as [b|b sg e fs es fss Hde Hbd IH]; intros P n fuel me h Hds Hes Hl Hz Hfit Hpl HP0 HP Hfu.
  - exists n, [], P. simpl blocks. rewrite Z.add_0_r. destruct fuel; simpl; rewrite (pl_consumed _ _ _ _ _ _ Hpl), Z.eqb_refl, app_nil_r;
      split_and!; try done; change (zlen (@nil entry)) with 0; lia.
  - pose proof (po_kb _ _ _ _ Hp) as Hkb. assert (Hpow : 0 < 2 ^ kb <= 2 ^ 16) by (split; [lia|apply Z.pow_le_mono_r; lia]).
    apply Forall_cons_iff in Hes as [He Hes]. pose proof (entries_counts p es Hes) as [Hcnt _]. rewrite zlen_cons in HP. pose proof (zlen_nonneg es).
    unfold outstanding in Hds. cbn [map concat] in Hds. apply Forall_app in Hds as [Hd1 Hds]. destruct Hl as (_ & Hw & Hl).
    cbn [blocks] in *. destruct (He) as [_ Hbl Hby _ _].
    destruct (entry_polled b P sg e fs n Hde Hd1) as (n1 & ps1 & E1 & Hpl1 & Hpk1 & Hps1 & Hk1 & _);
      [split; try done; lia|done|lia|]. injection Hk1 as K1 K2 K3.
    destruct fuel as [|fuel]; [simpl in Hfu; lia|].
    destruct (IH (P + Z.b2z sg) n1 fuel me (h + zlen (e_descs e))) as (n2 & ps2 & P2 & E2 & Hpl2 & Hpk2 & Hps2 & Hk2 & HP2); try done;
      [lia|destruct sg; simpl; lia|rewrite K2; destruct sg; simpl; lia|simpl in Hfu; lia|].
    exists n2, (ps1 ++ ps2), P2. rewrite Z.add_assoc.
    assert (Hne : n_consumed n =? u32 (b + e_blocks e + blocks es) = false).
    { apply Z.eqb_neq. rewrite (pl_consumed _ _ _ _ _ _ Hpl). unfold u32. apply mod_distinct; lia. }
    cbn [poll_loop]. rewrite Hne, (pl_stop _ _ _ _ _ _ Hpl), (pl_failed _ _ _ _ _ _ Hpl), E1. cbn [mbind option_bind].
    split; [exact E2|]. split; [exact Hpl2|]. rewrite Hpk2, Hpk1, map_app, Hps1, Hps2, Hk2, app_assoc, zlen_cons.
    split_and!; try done; [unfold kept; congruence|destruct sg; simpl in *; lia|destruct sg; simpl in *; lia].
Qed.
End poll.

(** ** What [Post] makes, described *)

Lemma batch_entries_described p region : forall descs b since, Forall desc_ok descs ->
  (forall d, d ∈ descs -> descOK p d = true -> is_Some (frame_of region d)) ->
  exists fss, batch_describes p region b (batch_entries p region b since descs) fss /\
    frames_of region (outstanding (batch_entries p region b since descs)) fss.
Proof.
  induction descs as [|d ds IH]; intros b since Hds Hfr; simpl; [exists []; split; constructor|].
  destruct (descOK p d) eqn:Hok; [|exists []; split; constructor]. apply Forall_cons_iff in Hds as [_ Hds].
  destruct (Hfr d ltac:(left) Hok) as [f Hf]. rewrite Hf. simpl default.
  edestruct IH as (fss & H1 & H2); [done|intros d' Hd'; apply Hfr; by right|].
  exists ([f] ++ fss). split; [econstructor; [by constructor|exact H1]|]. unfold outstanding. simpl. by constructor.
Qed.

Lemma made_frames p m region b sg e : made p m region b sg e -> exists fs, frames_of region (e_descs e) fs.
Proof. destruct 1 as [d f Hok Hf| |]; [exists [f]; repeat constructor; done|eauto|eauto]. Qed.

Lemma describes_app p region : forall es b fss e fs sg,
  batch_describes p region b es fss -> describes p region (b + blocks es) sg e fs -> batch_describes p region b (es ++ [e]) (fss ++ fs).
Proof.
  induction es as [|e0 es IH]; intros b fss e fs sg H Hd; inversion_clear H.
  - simpl in *. rewrite Z.add_0_r in Hd. rewrite <- (app_nil_r fs). econstructor; [exact Hd|constructor].
  - simpl in *. rewrite <- app_assoc. econstructor; [done|]. eapply IH; [done|]. rewrite <- Z.add_assoc. exact Hd.
Qed.

Lemma all_made_described p m region : mpw p = Some m -> forall es b, all_made p m region b es ->
  exists fss, batch_describes p region b es fss /\ frames_of region (outstanding es) fss.
Proof.
  intros Hm. induction es as [|e es IH]; intros b; simpl; [exists []; split; constructor|].
  intros [Hma Hall]. destruct (IH _ Hall) as (fss & H1 & H2). destruct (made_frames _ _ _ _ _ _ Hma) as [fs Hfs].
  exists (fs ++ fss). split; [econstructor; [by econstructor|done]|]. unfold outstanding. simpl. by apply Forall2_app.
Qed.

Lemma shape_described kb ks kf t region b descs new :
  par_ok kb ks kf (par t) -> zlen region = regionLen (par t) -> Forall desc_ok descs ->
  batch_shape t region b descs new ->
  exists fss, batch_describes (par t) region b new fss /\ frames_of region (outstanding new) fss.
Proof.
  intros Hp Hr Hds. unfold batch_shape. destruct (mpw (par t)) as [m|] eqn:Hm.
  - unfold batch_made. destruct new as [|e0 new0] eqn:En; [exists []; split; constructor|]. rewrite <- En in *.
    intros [Hall (e & He & Hma)]. destruct (all_made_described _ _ _ Hm _ _ Hall) as (fss & H1 & H2).
    destruct (made_frames _ _ _ _ _ _ Hma) as [fs Hfs]. exists (fss ++ fs). rewrite He.
    split; [eapply describes_app; [done|by econstructor]|]. rewrite outstanding_app, outstanding_one. by apply Forall2_app.
  - intros ->. apply batch_entries_described; [done|]. intros d Hd Hok. rewrite Forall_forall in Hds.
    destruct (frame_of_ok _ _ _ _ _ _ Hp (Hds d Hd) Hr Hok) as (f & -> & _). done.
Qed.

(** The send ring against the device model: what [Post] publishes, [Poll]
    transmits, byte for byte. *)

(** What the device sees of a send ring's memory. *)
Definition nic_mem (t : Tx) (region : list Z) : NicMem := mkNicMem (sqBytes t) (sqDbrec t) (cqDbrec t) region.

Lemma producerIndex_spec kb j p mem b d P n :
  polling kb j p b P n -> dbrec (nm_SQDbrec mem) = u16 (b + d) -> 0 <= d < 2 ^ 16 -> producerIndex mem n = (u32 (b + d), n).
Proof.
  intros Hpl Hd Hb. unfold producerIndex. rewrite Hd. pose proof (u16_range (b + d)).
  rewrite Z.shiftr_div_pow2, (Z.div_small (u16 (b + d))) by lia. cbn [Z.eqb negb]. rewrite (pl_consumed _ _ _ _ _ _ Hpl). f_equal.
  assert (E : u16 (u16 (u16 (b + d)) - u16 (u32 b)) = d).
  { unfold u16, u32. rewrite (mod_mod_pow2 b), Zmod_mod, <- Zminus_mod by lia. replace (b + d - b) with d by lia. by apply Z.mod_small. }
  by rewrite E, u32_add_l.
Qed.

(** C7: end to end.  A device that has caught up with a queue and can report
    every entry polls it after a [Post]: it transmits exactly the packets of
    the descriptors [Post] took, in order and byte for byte, whichever of the
    three kinds of entry carries them; it finds nothing to complain about; and
    it ends level with the queue again. *)
Theorem Post_then_Poll kb ks kf j B H es t region descs n P C :
  tx_inv kb ks kf B H es t -> kb <= 15 -> kf <= 30 -> zlen region = regionLen (par t) -> Forall desc_ok descs -> failed t = None ->
  0 <= regionVA (par t) -> regionVA (par t) + zlen region < 2 ^ 64 ->
  dbrec (sqDbrec t) = u16 (B + blocks es) -> dbrec (cqDbrec t) mod 2 ^ 24 = C mod 2 ^ 24 ->
  polling kb j (par t) (B + blocks es) P n -> n_BlocksPerPoll n = 0 ->
  0 <= P - C -> P - C + 2 ^ kb <= Entries (n_cq n) ->
  exists new t' n' ps P', Post region descs t = Some (zlen (outstanding new), t') /\
    outstanding new `prefix_of` descs /\
    Poll (length new) (nic_mem t' region) n = Some n' /\
    n_Packets n' = n_Packets n ++ ps /\ frames_of region (outstanding new) (map p_Bytes ps) /\
    n_Violations n' = n_Violations n /\ polling kb j (par t) (B + blocks (es ++ new)) P' n'.
Proof.
  intros Hinv Hkb Hkf Hr Hds Hf Hva0 Hva Hsb HC Hpl Hbpp HP0 HP.
  destruct (Post_spec kb ks kf B H es t region Hinv Hr descs Hds) as (new & t' & E & Hi & Hshape & Ho & Hle & _ & Hpub & Hsame & _).
  injection Hsame as P1 P2 P3 P4. exists new, t'.
  assert (Hdt : Forall desc_ok (take (Z.to_nat (FreeSlots t)) descs)) by (by apply Forall_take).
  pose proof (ti_par _ _ _ _ _ _ _ Hinv) as Hp. pose proof (inv_pows _ _ _ _ _ _ _ Hinv).
  destruct (shape_described kb ks kf t region _ _ new Hp Hr Hdt (Hshape Hf)) as (fss & Hbd & Hfss).
  pose proof (ti_laid _ _ _ _ _ _ _ Hi) as Hl. apply laid_app in Hl as [_ Hl].
  pose proof (ti_entries _ _ _ _ _ _ _ Hi) as Hes. rewrite P1 in Hes. apply Forall_app in Hes as [Hes0 Hes].
  pose proof (ti_room _ _ _ _ _ _ _ Hi) as Hroom. rewrite blocks_app in Hroom.
  pose proof (entries_counts _ _ Hes) as [Hcnt _]. pose proof (entries_counts _ _ Hes0) as [Hcnt0 _].
  pose proof (zlen_nonneg new). pose proof (zlen_nonneg es).
  assert (Hpow : 2 ^ kb <= 2 ^ 15) by (apply Z.pow_le_mono_r; [lia|done]).
  assert (Hdn : Forall desc_ok (outstanding new)) by (rewrite Ho; by apply Forall_take).
  destruct (batch_polled kb ks kf j C (par t) region (nic_mem t' region) Hp Hkf Hr eq_refl (conj Hva0 Hva) ltac:(simpl; by rewrite P3)
              new fss _ Hbd P n (length new) (meta t') _ Hdn Hes Hl (ti_sq _ _ _ _ _ _ _ Hi) ltac:(lia) Hpl HP0 ltac:(lia) ltac:(lia))
    as (n' & ps & P' & EL & Hpl' & Hpk & Hps & Hk & _).
  exists n', ps, P'. injection Hk as K1 K2 K3. split; [done|]. split.
  { exists (drop (length (outstanding new)) descs). rewrite Ho at 1. symmetry. apply take_drop. }
  split; [|rewrite blocks_app, Z.add_assoc, Hps; by split_and!].
  unfold Poll. assert (Hbell : dbrec (sqDbrec t') = u16 (B + blocks es + blocks new)).
  { rewrite <- Z.add_assoc, <- blocks_app. apply (published_bell t t' B es new Hpub Hsb). }
  rewrite (producerIndex_spec kb j (par t) (nic_mem t' region) _ (blocks new) P n Hpl Hbell) by lia.
  destruct (decide (new = [])) as [->|Hne].
  { simpl in EL |- *. rewrite Z.add_0_r in *. rewrite (pl_consumed _ _ _ _ _ _ Hpl), Z.eqb_refl in *. done. }
  assert (0 < zlen new) by (unfold zlen; destruct new; [done|simpl; lia]).
  rewrite (pl_consumed _ _ _ _ _ _ Hpl), (pl_done _ _ _ _ _ _ Hpl).
  rewrite (proj2 (Z.eqb_neq (u32 (B + blocks es + blocks new)) _)) by (unfold u32; apply not_eq_sym, mod_distinct; lia).
  rewrite Z.sub_diag, (nf_blocks _ _ _ _ _ (pl_nic _ _ _ _ _ _ Hpl)), Hbpp.
  replace (u32 (u32 (B + blocks es + blocks new) - u32 (B + blocks es))) with (blocks new).
  2: { rewrite u32_sub_l, u32_sub_r. replace (B + blocks es + blocks new - (B + blocks es)) with (blocks new) by lia.
       symmetry. apply u32_small. lia. }
  change (u32 0) with 0. rewrite Z.sub_0_r, (u32_small (2 ^ kb)) by lia. rewrite Z.gtb_ltb, (proj2 (Z.ltb_ge _ _)) by lia.
  exact EL.
Qed.

Definition exNic : TxNIC := Eval vm_compute in
  match NewTxNIC (mkNicConfig 4096 9 7) (cfg_SQ exCfg) (cfg_CQ exCfg) with
  | Some (Ok n) => n
  | _ => mkTxNIC (mkNicConfig 0 0 0) (mkCQ 0 0 0) 0 0 0 0 0 0 0 false false false [] 0 [] []
  end.

Lemma ex_polling : polling 2 2 (par exTx) 0 0 exNic.
Proof.
  destruct (NewTx_inv exCfg exTx exCfg_ok exTx_new) as (kb & ks & kf & j & _ & _ & Hc & _).
  assert (Hj : j = 2) by (destruct Hc as (_ & _ & E & _); by injection E). subst j.
  split; try reflexivity; [|exact Hc]. split; try reflexivity. split_and!; vm_compute; congruence.
Qed.

Lemma Post_then_Poll_witness :
  exists new t' n' ps, Post exRegion exDescs exTx = Some (zlen (outstanding new), t') /\
    Poll (length new) (nic_mem t' exRegion) exNic = Some n' /\
    n_Packets n' = [] ++ ps /\ frames_of exRegion (outstanding new) (map p_Bytes ps) /\ n_Violations n' = [].
Proof.
  destruct (NewTx_inv exCfg exTx exCfg_ok exTx_new) as (kb & ks & kf & j & Hz & Hi & _).
  assert (Hkb : kb = 2).
  { pose proof (po_kb _ _ _ _ (ti_par _ _ _ _ _ _ _ Hi)). change (zlen (cfg_SQ exCfg)) with 256 in Hz. apply (Z.pow_inj_r 2); lia. }
  assert (Hkf : kf = 6).
  { pose proof (po_frameMask _ _ _ _ (ti_par _ _ _ _ _ _ _ Hi)) as Hm. pose proof (po_kf _ _ _ _ (ti_par _ _ _ _ _ _ _ Hi)).
    change (frameMask (par exTx)) with 63 in Hm. apply (Z.pow_inj_r 2); lia. }
  subst kb kf.
  assert (Hle : forall x y : Z, (x <=? y) = true -> x <= y) by (intros x y E; by apply Z.leb_le).
  assert (Hlt : forall x y : Z, (x <? y) = true -> x < y) by (intros x y E; by apply Z.ltb_lt).
  destruct (Post_then_Poll 2 ks 6 2 0 0 [] exTx exRegion exDescs exNic 0 0 Hi (Hle 2 15 eq_refl) (Hle 6 30 eq_refl) eq_refl
              exDescs_ok eq_refl (Hle 0 4096 eq_refl) (Hlt (4096 + 128) (2 ^ 64) eq_refl) eq_refl eq_refl ex_polling eq_refl
              (Hle 0 (0 - 0) eq_refl) (Hle (0 - 0 + 2 ^ 2) 4 eq_refl))
    as (new & t' & n' & ps & P' & H1 & _ & H2 & H3 & H4 & H5 & _).
  exists new, t', n', ps. split; [exact H1|]. split; [exact H2|]. split; [exact H3|]. split; [exact H4|exact H5].
Defined.

(** ** An entry the device model cannot read *)

(** A queue of zeros with one block published: its opcode is no send. *)
Definition zeroMem : NicMem := mkNicMem (replicate 256 0) (be32_native 1) 0 [].

(** What giving up leaves behind: the position it started from. *)
Lemma unread_entry n : n_consumed n = 0 -> n_done n = 0 -> n_blocks n = 4 ->
  processOne zeroMem n = Some (with_consumed 0 0 (violate "an entry has an unknown opcode" n)).
Proof. intros Hc Hd Hb. unfold processOne. rewrite Hc, Hb. cbv zeta. simpl. by rewrite Hd. Qed.

Lemma spin : forall fuel n, n_consumed n = 0 -> n_done n = 0 -> n_blocks n = 4 -> n_failed n = false -> n_stop n = false ->
  poll_loop fuel zeroMem 1 n = None.
Proof.
  induction fuel as [|fuel IH]; intros n Hc Hd Hb Hf Hs; cbn [poll_loop]; rewrite Hc; [done|].
  cbn [Z.eqb]. rewrite Hs, Hf, unread_entry by done. cbn [mbind option_bind]. by apply IH.
Qed.

(** On an entry it cannot read the device model resets its position to
    the entry's own block and returns, so that [Poll] reads the same entry
    again for ever: no number of rounds ends it. *)
Theorem Poll_spins_on_bad_opcode :
  NewTxNIC (mkNicConfig 4096 9 7) (nm_SQ zeroMem) (cfg_CQ exCfg) = Some (Ok exNic) /\
  forall fuel, Poll fuel zeroMem exNic = None.
Proof. split; [vm_compute; reflexivity|]. intros fuel. change (poll_loop fuel zeroMem 1 exNic = None). by apply spin. Qed.
