(* ===== verification/RingRx.v ===== *)
(** The receive ring: mlx5/internal/ring/rx.go.

    [Rx] is the state of one receive queue.  As in the send ring, the memory
    the driver writes (the receive queue, the doorbell records) is part of the
    state, and the completion queue, which it only reads, is an argument: a
    snapshot of what the device has written.  [None] is a panic. *)

From stdpp Require Import prelude list numbers strings.
From S2P Require Import Prelude Circ Bytes Desc Sq Cqe.

Record RxConfig : Set := mkRxConfig {
  rcfg_RQ : list Z; rcfg_CQ : list Z; rcfg_haveDoorbells : bool; rcfg_Stride : Z; rcfg_LKey : Z;
  rcfg_regionLen : Z; rcfg_RegionVA : Z; rcfg_BufferSize : Z
}.

Record rxCounters : Set := mkRxCounters {
  rc_packets : Z; rc_bytes : Z; rc_filled : Z; rc_batches : Z; rc_completions : Z; rc_errors : Z; rc_oversize : Z
}.

(** The published counters, with the gauge of buffers outstanding. *)
Record RxStats : Set := mkRxStats { rs_counters : rxCounters; rs_Outstanding : Z }.

(** What [NewRx] fixes for the life of the queue. *)
Record RxParams : Set := mkRxParams {
  rx_entries : Z; rx_mask : Z; rx_stride : Z; rx_cq : CQ; rx_regionLen : Z; rx_regionVA : Z; rx_bufSize : Z
}.

Record Rx : Set := mkRx {
  rx_par : RxParams;
  rx_rq : list Z; rx_rqDbrec : Z; rx_cqDbrec : Z;
  rx_pi : Z; rx_ci : Z; rx_cqci : Z;
  rx_posted : list Desc; rx_failed : list Desc; rx_dead : option error;
  rx_c : rxCounters; rx_sincePublish : Z; rx_Stats : RxStats
}.

Definition zeroRxCounters : rxCounters := mkRxCounters 0 0 0 0 0 0 0.

(** The constant half of every entry: how long a buffer is and whose it is. *)
Fixpoint prefill (n : nat) (i bufSize lkey : Z) (rq : list Z) : option (list Z) :=
  match n with
  | O => Some rq
  | S n =>
      rq ← put_be 4 (u32 (i * 16)) bufSize rq;
      rq ← put_be 4 (u32 (u32 (i * 16) + 4)) lkey rq;
      prefill n (i + 1) bufSize lkey rq
  end.

Definition NewRx (cfg : RxConfig) : option (res Rx) :=
  if negb (rcfg_Stride cfg =? 16) then Some (Err (Errorf "ring: a receive entry is not the 16 bytes of one data segment"))
  else if negb (zlen (rcfg_RQ cfg) mod rcfg_Stride cfg =? 0) || (zlen (rcfg_RQ cfg) =? 0) then
    Some (Err (Errorf "ring: a receive queue is not a whole number of entries"))
  else
    let entries := u32 (zlen (rcfg_RQ cfg)) / rcfg_Stride cfg in
    if negb (Z.land entries (u32 (entries - 1)) =? 0) then
      Some (Err (Errorf "ring: a receive queue is not a power of two"))
    else
      match NewCQ (rcfg_CQ cfg) CQESize with
      | Err e => Some (Err e)
      | Ok cq =>
          if Entries cq <? entries then
            Some (Err (Errorf "ring: a completion queue is smaller than the buffers that can be outstanding"))
          else if negb (rcfg_haveDoorbells cfg) then
            Some (Err (Errorf "ring: the receive queue is missing a doorbell record"))
          else if rcfg_BufferSize cfg =? 0 then Some (Err (Errorf "ring: buffers of no bytes"))
          else
            rq ← prefill (Z.to_nat entries) 0 (rcfg_BufferSize cfg) (rcfg_LKey cfg) (rcfg_RQ cfg);
            Some (Ok (mkRx (mkRxParams entries (u32 (entries - 1)) (rcfg_Stride cfg) cq (rcfg_regionLen cfg)
                              (rcfg_RegionVA cfg) (rcfg_BufferSize cfg))
                        rq 0 0 0 0 0 (replicate (Z.to_nat entries) (mkDesc 0 0 0)) [] None zeroRxCounters 0
                        (mkRxStats zeroRxCounters 0)))
      end.

Definition Rx_Entries (r : Rx) : Z := rx_entries (rx_par r).
Definition Outstanding (r : Rx) : Z := u32 (rx_pi r - rx_ci r).
Definition Rx_FreeSlots (r : Rx) : Z := u32 (rx_entries (rx_par r) - u32 (rx_pi r - rx_ci r)).
Definition Failed (r : Rx) : list Desc := rx_failed r.
Definition Rx_Err (r : Rx) : option error := rx_dead r.

Definition Rx_Sync (r : Rx) : Rx :=
  mkRx (rx_par r) (rx_rq r) (rx_rqDbrec r) (rx_cqDbrec r) (rx_pi r) (rx_ci r) (rx_cqci r) (rx_posted r) (rx_failed r)
    (rx_dead r) (rx_c r) 0 (mkRxStats (rx_c r) (u32 (rx_pi r - rx_ci r))).

Definition Rx_tick (r : Rx) : Rx :=
  let n := u32 (rx_sincePublish r + 1) in
  let r := mkRx (rx_par r) (rx_rq r) (rx_rqDbrec r) (rx_cqDbrec r) (rx_pi r) (rx_ci r) (rx_cqci r) (rx_posted r)
             (rx_failed r) (rx_dead r) (rx_c r) n (rx_Stats r) in
  if n >=? publishEvery then Rx_Sync r else r.

(** The first reason is kept. *)
Definition Rx_fail (e : error) (r : Rx) : Rx :=
  mkRx (rx_par r) (rx_rq r) (rx_rqDbrec r) (rx_cqDbrec r) (rx_pi r) (rx_ci r) (rx_cqci r) (rx_posted r) (rx_failed r)
    (match rx_dead r with None => Some e | d => d end) (rx_c r) (rx_sincePublish r) (rx_Stats r).

(** ** Filling *)

Definition fill_one (d : Desc) (r : Rx) : option Rx :=
  let slot := Z.land (rx_pi r) (rx_mask (rx_par r)) in
  rq ← put_be 8 (u32 (u32 (slot * rx_stride (rx_par r)) + 8)) (u64 (rx_regionVA (rx_par r) + Addr d)) (rx_rq r);
  posted ← set_at slot d (rx_posted r);
  Some (mkRx (rx_par r) rq (rx_rqDbrec r) (rx_cqDbrec r) (u32 (rx_pi r + 1)) (rx_ci r) (rx_cqci r) posted (rx_failed r)
          (rx_dead r) (rx_c r) (rx_sincePublish r) (rx_Stats r)).

Definition Fill (descs : list Desc) (r : Rx) : option (Z * Rx) :=
  let free := Rx_FreeSlots r in
  let n := if zlen descs >? free then free else zlen descs in
  if n =? 0 then Some (0, r)
  else
    descs ← slice 0 n descs;
    r ← foldM (fun r d => fill_one d r) descs r;
    let c := rx_c r in
    let c := mkRxCounters (rc_packets c) (rc_bytes c) (u64 (rc_filled c + n)) (rc_batches c) (rc_completions c)
               (rc_errors c) (rc_oversize c) in
    let r := mkRx (rx_par r) (rx_rq r) (be32_native (Z.land (rx_pi r) 0xffff)) (rx_cqDbrec r) (rx_pi r) (rx_ci r) (rx_cqci r)
               (rx_posted r) (rx_failed r) (rx_dead r) c (rx_sincePublish r) (rx_Stats r) in
    Some (n, Rx_tick r).

(** ** Receiving *)

Definition add_errors (n : Z) (r : Rx) : Rx :=
  let c := rx_c r in
  mkRx (rx_par r) (rx_rq r) (rx_rqDbrec r) (rx_cqDbrec r) (rx_pi r) (rx_ci r) (rx_cqci r) (rx_posted r) (rx_failed r)
    (rx_dead r)
    (mkRxCounters (rc_packets c) (rc_bytes c) (rc_filled c) (rc_batches c) (rc_completions c) (u64 (rc_errors c + n))
       (rc_oversize c)) (rx_sincePublish r) (rx_Stats r).

Definition add_oversize (r : Rx) : Rx :=
  let c := rx_c r in
  mkRx (rx_par r) (rx_rq r) (rx_rqDbrec r) (rx_cqDbrec r) (rx_pi r) (rx_ci r) (rx_cqci r) (rx_posted r) (rx_failed r)
    (rx_dead r)
    (mkRxCounters (rc_packets c) (rc_bytes c) (rc_filled c) (rc_batches c) (rc_completions c) (rc_errors c)
       (u64 (rc_oversize c + 1))) (rx_sincePublish r) (rx_Stats r).

(** [r.ci, r.cqci, r.failed = ci, cqci, fl]. *)
Definition rx_move (ci cqci : Z) (fl : list Desc) (r : Rx) : Rx :=
  mkRx (rx_par r) (rx_rq r) (rx_rqDbrec r) (rx_cqDbrec r) (rx_pi r) ci cqci (rx_posted r) fl
    (rx_dead r) (rx_c r) (rx_sincePublish r) (rx_Stats r).

(** The options of a received packet, from its checksum flags. *)
Definition rx_options (f : Z) : Z :=
  if negb (Z.land f CQEL3OK =? 0) then
    let o := Z.lor 0 OptL3ChecksumOK in
    if negb (Z.land f CQEL4OK =? 0) then Z.lor o OptChecksumOK else o
  else 0.

(** The locals of [receive]. *)
Record receiving : Set := mkReceiving {
  v_out : list Desc; v_ts : option (list Z); v_got : Z; v_bytes : Z; v_read : Z
}.

(** A received packet's descriptor, and the entry's timestamp if asked for. *)
Definition rx_accept (d : Desc) (entry : list Z) (v : receiving) (length : Z) : option receiving :=
  f ← ChecksumFlags entry;
  ts ← (match v_ts v with
        | None => Some None
        | Some ts => t ← Timestamp entry; Some (Some (ts ++ [t]))
        end);
  Some (mkReceiving (v_out v ++ [mkDesc (Addr d) length (rx_options f)]) ts (v_got v + 1) (u64 (v_bytes v + length))
          (v_read v)).

(** One completion that belongs to a receive queue and whose buffer is the
    oldest one; the result says whether the loop goes on. *)
Definition rx_consume (cqbuf : list Z) (opcode : Z) (slot : Z) (v : receiving) (r : Rx) : option (bool * receiving * Rx) :=
  d ← get_at slot (rx_posted r);
  let r := rx_move (u32 (rx_ci r + 1)) (rx_cqci r) (rx_failed r) r in
  if negb ((0 <=? Addr d) && (Addr d <? rx_regionLen (rx_par r))) then None (* r.region[d.Addr] *)
  else if opcode =? CQERespErr then
    Some (true, v, rx_move (rx_ci r) (rx_cqci r) (rx_failed r ++ [d]) (add_errors 1 r))
  else
    entry ← Entry (rx_cq (rx_par r)) (u32 (rx_cqci r - 1)) cqbuf;
    length ← ByteCount entry;
    if length >? rx_bufSize (rx_par r) then
      Some (true, v, rx_move (rx_ci r) (rx_cqci r) (rx_failed r ++ [d]) (add_oversize (add_errors 1 r)))
    else
      v ← rx_accept d entry v length;
      Some (true, v, r).

(** One round of the loop of [receive]; [false] is a [break]. *)
Definition rx_round (cqbuf : list Z) (v : receiving) (r : Rx) : option (bool * receiving * Rx) :=
  let p := rx_par r in
  header ← LoadCQEHeader (rx_cq p) (rx_cqci r) cqbuf;
  if negb (Owned (rx_cq p) (rx_cqci r) header) then Some (false, v, r)
  else if negb (Format header =? CQEFormatNoData) then
    Some (false, v, Rx_fail (Errorf "ring: a completion of a format which needs a decoder this does not have") (add_errors 1 r))
  else
    let r := rx_move (rx_ci r) (u32 (rx_cqci r + 1)) (rx_failed r) r in
    let v := mkReceiving (v_out v) (v_ts v) (v_got v) (v_bytes v) (v_read v + 1) in
    let opcode := Opcode header in
    if negb (opcode =? CQERespSend) && negb (opcode =? CQERespErr) then Some (true, v, add_errors 1 r)
    else if rx_pi r =? rx_ci r then Some (true, v, add_errors 1 r)
    else
      let slot := Z.land (rx_ci r) (rx_mask p) in
      if negb (Z.land (WQECounter header) (rx_mask p) =? slot) then
        Some (false, v, Rx_fail (Errorf "ring: the queue and the card have lost track of each other") (add_errors 1 r))
      else rx_consume cqbuf opcode slot v r.

(** [for got < max]; on a snapshot of the completion queue every entry is read
    at most once, so one round more than it has entries is enough. *)
Fixpoint rx_loop (fuel : nat) (max : Z) (cqbuf : list Z) (v : receiving) (r : Rx) : option (receiving * Rx) :=
  if negb (v_got v <? max) then Some (v, r)
  else match fuel with
       | O => None
       | S fuel =>
           '(again, v, r) ← rx_round cqbuf v r;
           if (again : bool) then rx_loop fuel max cqbuf v r else Some (v, r)
       end.

Definition rx_fuel (r : Rx) : nat := S (Z.to_nat (Entries (rx_cq (rx_par r)))).

Definition receive (max : Z) (cqbuf : list Z) (out : list Desc) (ts : option (list Z)) (r : Rx)
    : option (list Desc * option (list Z) * Rx) :=
  let r := rx_move (rx_ci r) (rx_cqci r) [] r in
  if (max <=? 0) || (match rx_dead r with None => false | Some _ => true end) then Some (out, ts, r)
  else
    '(v, r) ← rx_loop (rx_fuel r) max cqbuf (mkReceiving out ts 0 0 0) r;
    if v_read v =? 0 then Some (v_out v, v_ts v, if rx_pi r =? rx_ci r then Rx_Sync r else r)
    else
      let c := rx_c r in
      let c := mkRxCounters (u64 (rc_packets c + v_got v)) (u64 (rc_bytes c + v_bytes v)) (rc_filled c)
                 (u64 (rc_batches c + 1)) (u64 (rc_completions c + v_read v)) (rc_errors c) (rc_oversize c) in
      Some (v_out v, v_ts v,
            mkRx (rx_par r) (rx_rq r) (rx_rqDbrec r) (be32_native (Z.land (rx_cqci r) 0xffffff)) (rx_pi r) (rx_ci r) (rx_cqci r)
              (rx_posted r) (rx_failed r) (rx_dead r) c (rx_sincePublish r) (rx_Stats r)).

Definition Receive (max : Z) (cqbuf : list Z) (out : list Desc) (r : Rx) : option (list Desc * Rx) :=
  '(descs, _, r) ← receive max cqbuf out None r; Some (descs, r).

Definition ReceiveTimestamps (max : Z) (cqbuf : list Z) (out : list Desc) (ts : option (list Z)) (r : Rx) :=
  receive max cqbuf out ts r.

Definition Ready (cqbuf : list Z) (r : Rx) : option bool :=
  header ← LoadCQEHeader (rx_cq (rx_par r)) (rx_cqci r) cqbuf;
  Some (Owned (rx_cq (rx_par r)) (rx_cqci r) header).

Fixpoint ready_loop (fuel : nat) (max ci n : Z) (cqbuf : list Z) (c : CQ) : option Z :=
  if negb (n <? max) then Some n
  else match fuel with
       | O => None
       | S fuel =>
           header ← LoadCQEHeader c ci cqbuf;
           if negb (Owned c ci header) then Some n
           else ready_loop fuel max (u32 (ci + 1)) (n + 1) cqbuf c
       end.

Definition ReadyCount (max : Z) (cqbuf : list Z) (r : Rx) : option Z :=
  ready_loop (rx_fuel r) max (rx_cqci r) 0 cqbuf (rx_cq (rx_par r)).
