(* ===== verification/RingRxInv.v ===== *)
(** The receive ring's invariant, and what [Fill] and [receive] do on any
    completion queue whatever.

    The counters run free and wrap at 2^32, so [rx_inv] speaks of unbounded
    ones: [C] buffers reported on, [Q] completions read, and [out] the buffers
    the device holds, oldest first. *)

From stdpp Require Import prelude list numbers strings.
From S2P Require Import Prelude Circ Bytes Desc Sq Cqe RingRx.

(** What [NewRx] establishes: [2^k] buffers, and a completion queue of [2^j]
    entries that is no shorter. *)
Record rx_par_ok (k j : Z) (p : RxParams) : Prop := {
  rp_k : 0 <= k <= 16;
  rp_entries : rx_entries p = 2 ^ k;
  rp_mask : rx_mask p = 2 ^ k - 1;
  rp_stride : rx_stride p = 16;
  rp_cq : rx_cq p = mkCQ (2 ^ j) (2 ^ j - 1) j;
  rp_j : k <= j <= 24;
  rp_buf : 0 < rx_bufSize p < 2 ^ 32;
  rp_region : 0 <= rx_regionLen p < 2 ^ 63
}.

(** The constant half of an entry, and the half [Fill] writes. *)
Definition rq_head (p : RxParams) (lkey : Z) : list Z := be_bytes 4 (rx_bufSize p) ++ be_bytes 4 lkey.
Definition rq_addr (p : RxParams) (d : Desc) : list Z := be_bytes 8 (u64 (rx_regionVA p + Addr d)).

Record rx_inv (k j lkey C Q : Z) (out : list Desc) (r : Rx) : Prop := {
  ri_par : rx_par_ok k j (rx_par r);
  ri_rqlen : zlen (rx_rq r) = 16 * 2 ^ k;
  ri_len : zlen (rx_posted r) = 2 ^ k;
  ri_pi : rx_pi r = u32 (C + zlen out);
  ri_ci : rx_ci r = u32 C;
  ri_cqci : rx_cqci r = u32 Q;
  ri_room : zlen out <= 2 ^ k;
  ri_window : window (rx_posted r) C (length out) = out;
  ri_heads s : 0 <= s < 2 ^ k -> slice (s * 16) (s * 16 + 8) (rx_rq r) = Some (rq_head (rx_par r) lkey);
  ri_addrs (i : nat) d : out !! i = Some d ->
    let s := (C + Z.of_nat i) mod 2 ^ k in slice (s * 16 + 8) (s * 16 + 16) (rx_rq r) = Some (rq_addr (rx_par r) d)
}.

Lemma rx_pow k j p : rx_par_ok k j p -> 0 < 2 ^ k <= 2 ^ 16.
Proof. intros [Hk _ _ _ _ _ _ _]. split; [lia|]. apply Z.pow_le_mono_r; lia. Qed.

(** What the counters and the records do not change. *)
Lemma rx_inv_same k j lkey C Q out r r' :
  (rx_par r', rx_rq r', rx_posted r') = (rx_par r, rx_rq r, rx_posted r) ->
  (rx_pi r', rx_ci r', rx_cqci r') = (rx_pi r, rx_ci r, rx_cqci r) ->
  rx_inv k j lkey C Q out r -> rx_inv k j lkey C Q out r'.
Proof. intros [= E1 E2 E3] [= E4 E5 E6] []. split; rewrite ?E1, ?E2, ?E3, ?E4, ?E5, ?E6; done. Qed.

Section inv.
Context (k j lkey C Q : Z) (out : list Desc) (r : Rx) (Hinv : rx_inv k j lkey C Q out r).

Lemma rx_outstanding : Outstanding r = zlen out.
Proof using Hinv.
  pose proof (rx_pow _ _ _ (ri_par _ _ _ _ _ _ _ Hinv)). destruct Hinv as [_ _ _ Hpi Hci _ Hr _ _ _]. unfold Outstanding.
  rewrite Hpi, Hci, u32_sub_l, u32_sub_r. replace (C + zlen out - C) with (zlen out) by lia.
  apply u32_small. pose proof (zlen_nonneg out). lia.
Qed.

Lemma rx_free : Rx_FreeSlots r = 2 ^ k - zlen out.
Proof using Hinv.
  pose proof rx_outstanding as Ho. pose proof (rx_pow _ _ _ (ri_par _ _ _ _ _ _ _ Hinv)). unfold Rx_FreeSlots, Outstanding in *. rewrite Ho.
  destruct Hinv as [Hp _ _ _ _ _ Hr _ _ _]. rewrite (rp_entries _ _ _ Hp). apply u32_small. pose proof (zlen_nonneg out). lia.
Qed.

Lemma rx_slot c : Z.land (u32 c) (rx_mask (rx_par r)) = c mod 2 ^ k.
Proof using Hinv.
  destruct Hinv as [Hp _ _ _ _ _ _ _ _ _]. rewrite (rp_mask _ _ _ Hp). apply u32_land_mask. pose proof (rp_k _ _ _ Hp). lia.
Qed.
End inv.

(** ** Filling *)

Lemma fill_one_spec k j lkey C Q out r d :
  rx_inv k j lkey C Q out r -> zlen out < 2 ^ k ->
  exists r', fill_one d r = Some r' /\ rx_inv k j lkey C Q (out ++ [d]) r' /\
    (rx_par r', rx_rqDbrec r', rx_cqDbrec r', rx_failed r', rx_dead r', rx_c r', rx_sincePublish r', rx_Stats r') =
    (rx_par r, rx_rqDbrec r, rx_cqDbrec r, rx_failed r, rx_dead r, rx_c r, rx_sincePublish r, rx_Stats r).
Proof.
  intros Hinv Hroom. pose proof (rx_slot _ _ _ _ _ _ _ Hinv) as Hslot. destruct (Hinv) as [Hp Hrq Hpl Hpi Hci Hcq Hr Hw Hh Ha].
  pose proof (rx_pow _ _ _ Hp) as Hpow. pose proof (zlen_nonneg out). set (s := (C + zlen out) mod 2 ^ k).
  assert (Hs : 0 <= s < 2 ^ k) by (by apply Z.mod_pos_bound; lia).
  unfold fill_one. rewrite Hpi, Hslot, (rp_stride _ _ _ Hp). fold s.
  rewrite (u32_small (s * 16)), (u32_small (s * 16 + 8)), put_be_Some by lia. cbn [mbind option_bind].
  rewrite set_at_Some by lia. cbn [mbind option_bind]. eexists. split; [done|]. split; [|done].
  assert (Hzb : zlen (be_bytes 8 (u64 (rx_regionVA (rx_par r) + Addr d))) = 8) by (by rewrite zlen_be_bytes).
  split; simpl; try done.
  - by rewrite zlen_blit by lia.
  - by rewrite zlen_insert.
  - rewrite u32_add_l, zlen_app. change (zlen [d]) with 1. f_equal. lia.
  - rewrite zlen_app. change (zlen [d]) with 1. lia.
  - rewrite length_app, Nat.add_1_r. unfold s. rewrite <- Hpl. unfold zlen at 1. rewrite window_push by (unfold zlen in *; lia). by rewrite Hw.
  - intros s' Hs'. rewrite slice_blit_disjoint by lia. by apply Hh.
  - intros i d' Hi. apply lookup_app_Some in Hi as [Hi|[Hge Hi]].
    + pose proof (lookup_lt_Some _ _ _ Hi). rewrite slice_blit_disjoint; [by apply Ha|lia|lia|].
      assert (Hne : (C + Z.of_nat i) mod 2 ^ k <> s) by (apply mod_distinct; unfold zlen in *; lia). lia.
    + destruct (i - length out)%nat as [|x] eqn:Ex; [|done]. injection Hi as <-.
      replace (Z.of_nat i) with (zlen out) by (unfold zlen; lia). fold s.
      pose proof (slice_blit_same (s * 16 + 8) (rq_addr (rx_par r) d) (rx_rq r) ltac:(lia) ltac:(unfold rq_addr; lia)) as E.
      unfold rq_addr in *. rewrite Hzb in *. replace (s * 16 + 8 + 8) with (s * 16 + 16) in E by lia. exact E.
Qed.

Lemma fill_all_spec : forall descs k j lkey C Q out r,
  rx_inv k j lkey C Q out r -> zlen out + zlen descs <= 2 ^ k ->
  exists r', foldM (fun r d => fill_one d r) descs r = Some r' /\ rx_inv k j lkey C Q (out ++ descs) r' /\
    (rx_par r', rx_rqDbrec r', rx_cqDbrec r', rx_failed r', rx_dead r', rx_c r', rx_sincePublish r', rx_Stats r') =
    (rx_par r, rx_rqDbrec r, rx_cqDbrec r, rx_failed r, rx_dead r, rx_c r, rx_sincePublish r, rx_Stats r).
Proof.
  induction descs as [|d descs IH]; intros k j lkey C Q out r Hinv Hroom; simpl.
  - exists r. by rewrite app_nil_r.
  - rewrite zlen_cons in Hroom. pose proof (zlen_nonneg descs).
    destruct (fill_one_spec k j lkey C Q out r d Hinv ltac:(lia)) as (r1 & -> & Hi1 & E1). cbn [mbind option_bind].
    destruct (IH k j lkey C Q (out ++ [d]) r1 Hi1) as (r2 & -> & Hi2 & E2); [rewrite zlen_app; change (zlen [d]) with 1; lia|].
    exists r2. rewrite <- app_assoc in Hi2. split; [done|]. split; [done|]. by rewrite E2, E1.
Qed.

(** [Fill] takes as much of the batch as there is room for, puts it behind the
    buffers the device holds, and publishes the count. *)
Lemma Fill_spec k j lkey C Q out r descs :
  rx_inv k j lkey C Q out r ->
  exists r', let n := Z.min (zlen descs) (Rx_FreeSlots r) in let new := take (Z.to_nat n) descs in
    Fill descs r = Some (n, r') /\ rx_inv k j lkey C Q (out ++ new) r' /\
    (n = 0 \/ rx_rqDbrec r' = be32_native (u16 (C + zlen (out ++ new)))) /\ (n = 0 -> r' = r) /\
    (rx_par r', rx_cqDbrec r', rx_failed r', rx_dead r') = (rx_par r, rx_cqDbrec r, rx_failed r, rx_dead r).
Proof.
  intros Hinv. pose proof (rx_free _ _ _ _ _ _ _ Hinv) as Hf. pose proof (zlen_nonneg out). pose proof (zlen_nonneg descs).
  pose proof (ri_room _ _ _ _ _ _ _ Hinv). cbv zeta. unfold Fill. rewrite Z.gtb_ltb.
  replace (if Rx_FreeSlots r <? zlen descs then Rx_FreeSlots r else zlen descs) with (Z.min (zlen descs) (Rx_FreeSlots r))
    by (destruct (Z.ltb_spec (Rx_FreeSlots r) (zlen descs)); lia).
  set (n := Z.min (zlen descs) (Rx_FreeSlots r)). destruct (Z.eqb_spec n 0) as [E|E].
  - exists r. rewrite E, take_0, app_nil_r. split_and!; try done. by left.
  - rewrite slice_Some by lia. rewrite Z.sub_0_r, drop_0. cbn [mbind option_bind].
    destruct (fill_all_spec (take (Z.to_nat n) descs) k j lkey C Q out r Hinv) as (r1 & -> & Hi & Es).
    { rewrite zlen_take. lia. }
    cbn [mbind option_bind]. injection Es as E1 E2 E3 E4 E5 E6 E7 E8.
    eexists. split; [done|]. set (r2 := mkRx _ _ _ _ _ _ _ _ _ _ _ _ _).
    assert (Hi2 : rx_inv k j lkey C Q (out ++ take (Z.to_nat n) descs) r2) by (by eapply rx_inv_same; [| |exact Hi]).
    assert (Hb : rx_rqDbrec r2 = be32_native (u16 (C + zlen (out ++ take (Z.to_nat n) descs)))).
    { unfold r2. simpl. rewrite (ri_pi _ _ _ _ _ _ _ Hi). change 0xffff with (2 ^ 16 - 1). by rewrite u32_land_mask by lia. }
    unfold Rx_tick. destruct (_ >=? _); simpl.
    all: split; [by eapply rx_inv_same; [| |exact Hi2]|]; split; [by right|]; split; [done|]; by rewrite E1, E3, E4, E5.
Qed.

(** ** Receiving, whatever the completion queue holds *)

(** Buffers that were reported on: each is either received, at its own address
    and no longer than a buffer, or put aside as it was. *)
Inductive handed (bs : Z) : list Desc -> list Desc -> list Desc -> Prop :=
| handed_nil : handed bs [] [] []
| handed_got d l o cs os fs :
    handed bs cs os fs -> 0 <= l <= bs -> handed bs (cs ++ [d]) (os ++ [mkDesc (Addr d) l o]) fs
| handed_bad d cs os fs : handed bs cs os fs -> handed bs (cs ++ [d]) os (fs ++ [d]).

Lemma handed_app bs cs os fs : handed bs cs os fs -> forall cs' os' fs',
  handed bs cs' os' fs' -> handed bs (cs ++ cs') (os ++ os') (fs ++ fs').
Proof.
  intros H cs' os' fs'. induction 1 as [|d l o cs' os' fs' _ IH Hl|d cs' os' fs' _ IH]; [by rewrite !app_nil_r| |].
  - rewrite !app_assoc. by constructor.
  - rewrite !app_assoc. by constructor.
Qed.

(** A frame of the region can be touched. *)
Definition in_region_at (p : RxParams) (d : Desc) : Prop := 0 <= Addr d < rx_regionLen p.

(** What one round can change: at most the oldest buffer changes hands. *)
Record round_ok (k j lkey C Q : Z) (out : list Desc) (v v' : receiving) (r r' : Rx) (n : nat) (os fs : list Desc) : Prop := {
  ro_n : (n <= length out)%nat /\ (n <= 1)%nat;
  ro_inv : forall Q', rx_cqci r' = u32 Q' -> rx_inv k j lkey (C + Z.of_nat n) Q' (drop n out) r';
  ro_handed : handed (rx_bufSize (rx_par r)) (take n out) os fs;
  ro_out : v_out v' = v_out v ++ os;
  ro_failed : rx_failed r' = rx_failed r ++ fs;
  ro_got : v_got v' = v_got v + zlen os;
  ro_same : (rx_par r', rx_rqDbrec r', rx_cqDbrec r') = (rx_par r, rx_rqDbrec r, rx_cqDbrec r)
}.

Lemma rx_inv_move k j lkey C Q Q' out r r' fl :
  rx_inv k j lkey C Q out r -> (rx_par r', rx_rq r', rx_posted r', rx_pi r') = (rx_par r, rx_rq r, rx_posted r, rx_pi r) ->
  rx_ci r' = rx_ci r -> rx_cqci r' = u32 Q' -> rx_inv k j lkey C Q' out (rx_move (rx_ci r') (rx_cqci r') fl r').
Proof. intros [] [= E1 E2 E3 E4] E5 E6. split; simpl; rewrite ?E1, ?E2, ?E3, ?E4, ?E5, ?E6; done. Qed.

(** The oldest buffer leaves. *)
Lemma rx_inv_pop k j lkey C Q d out r r' :
  rx_inv k j lkey C Q (d :: out) r -> (rx_par r', rx_rq r', rx_posted r', rx_pi r') = (rx_par r, rx_rq r, rx_posted r, rx_pi r) ->
  rx_ci r' = u32 (C + 1) -> forall Q', rx_cqci r' = u32 Q' -> rx_inv k j lkey (C + 1) Q' out r'.
Proof.
  intros [Hp Hrq Hpl Hpi Hci Hcq Hr Hw Hh Ha] [= E1 E2 E3 E4] E5 Q' E6. rewrite zlen_cons in *.
  split; rewrite ?E1, ?E2, ?E3, ?E4, ?E5, ?E6; try done.
  - rewrite Hpi. f_equal. lia.
  - lia.
  - simpl length in Hw. rewrite window_front in Hw. by injection Hw.
  - intros i d' Hi. specialize (Ha (S i) d' Hi). cbv zeta in *. by replace (C + 1 + Z.of_nat i) with (C + Z.of_nat (S i)) by lia.
Qed.

Lemma be_val_nonneg (l : list Z) : bytes_ok l -> 0 <= be_val l.
Proof. intros H. pose proof (be_val_range l H). lia. Qed.

Lemma get_be_nonneg n off (l : list Z) x : bytes_ok l -> get_be n off l = Some x -> 0 <= x.
Proof.
  unfold get_be, slice. intros Hb H. case_if_in H; simpl in H; [|done]. injection H as <-.
  apply be_val_nonneg. by apply Forall_take, Forall_drop.
Qed.

Section receive.
Context (k j lkey : Z) (cqbuf : list Z).

(** One completion whose buffer is the oldest. *)
Lemma rx_consume_spec C Q d out v r opcode :
  rx_inv k j lkey C Q (d :: out) r -> cq_ok j (rx_cq (rx_par r)) cqbuf -> in_region_at (rx_par r) d ->
  exists v' r' os fs, rx_consume cqbuf opcode (C mod 2 ^ k) v r = Some (true, v', r') /\
    round_ok k j lkey C Q (d :: out) v v' r r' 1 os fs /\ rx_cqci r' = rx_cqci r /\ v_read v' = v_read v /\ rx_dead r' = rx_dead r.
Proof.
  intros Hinv Hc Hreg. destruct (Hinv) as [Hp Hrq Hpl Hpi Hci Hcq Hr Hw Hh Ha]. pose proof (rx_pow _ _ _ Hp) as Hpow.
  unfold rx_consume. rewrite <- Hpl. rewrite get_at_cell by lia. cbn [mbind option_bind].
  simpl length in Hw. rewrite window_front in Hw. injection Hw as Hd _. rewrite Hd.
  set (r1 := rx_move (u32 (rx_ci r + 1)) (rx_cqci r) (rx_failed r) r). change (rx_par r1) with (rx_par r). cbv zeta.
  destruct Hreg as [Hr0 Hr1]. rewrite (proj2 (Z.leb_le 0 (Addr d)) Hr0), (proj2 (Z.ltb_lt _ _) Hr1). cbn [andb negb].
  assert (Hci1 : u32 (rx_ci r + 1) = u32 (C + 1)) by (by rewrite Hci, u32_add_l).
  assert (Hpop : forall r', (rx_par r', rx_rq r', rx_posted r', rx_pi r') = (rx_par r, rx_rq r, rx_posted r, rx_pi r) ->
    rx_ci r' = u32 (rx_ci r + 1) -> forall Q', rx_cqci r' = u32 Q' -> rx_inv k j lkey (C + Z.of_nat 1) Q' (drop 1 (d :: out)) r').
  { intros r' Hs Hc' Q' HQ'. simpl drop. rewrite Hci1 in Hc'. by eapply rx_inv_pop. }
  assert (Hbad : handed (rx_bufSize (rx_par r)) (take 1 (d :: out)) [] [d]) by (simpl; rewrite take_0; apply (handed_bad _ d [] [] []); constructor).
  destruct (opcode =? CQERespErr).
  { eexists _, _, [], [d]. split; [done|]. split; [|done]. split; simpl; try done; [lia|intros Q' HQ'; by apply Hpop|by rewrite app_nil_r|].
    change (zlen (@nil Desc)) with 0. lia. }
  assert (Hq1 : u32 (rx_cqci r1 - 1) = u32 (Q - 1)) by (unfold r1; simpl; by rewrite Hcq, u32_sub_l). rewrite Hq1.
  destruct (Entry_Some j _ _ Hc (Q - 1)) as (e & Ee & He). pose proof (Entry_bytes j _ _ Hc _ _ Ee) as Hbe. rewrite Ee. cbn [mbind option_bind].
  destruct (get_be 4 cqeByteCount e) as [l|] eqn:El.
  2: { exfalso. unfold get_be, cqeByteCount in El. rewrite slice_Some in El by (change (Z.of_nat 4) with 4; lia). done. }
  unfold ByteCount. rewrite El. cbn [mbind option_bind].
  pose proof (get_be_nonneg _ _ _ _ Hbe El) as Hl0.
  destruct (Z.gtb_spec l (rx_bufSize (rx_par r))) as [Hl|Hl].
  { eexists _, _, [], [d]. split; [done|]. split; [|done]. split; simpl; try done; [lia|intros Q' HQ'; by apply Hpop|by rewrite app_nil_r|].
    change (zlen (@nil Desc)) with 0. lia. }
  unfold rx_accept, ChecksumFlags. destruct (get_at_Some cqeHDSIPExt e) as [f ->]; [unfold cqeHDSIPExt; lia|]. cbn [mbind option_bind].
  assert (Hts : exists ts, (match v_ts v with None => Some None | Some ts => t ← Timestamp e; Some (Some (ts ++ [t])) end) = Some ts).
  { destruct (v_ts v); [|by eexists]. unfold Timestamp, get_be, cqeTimestamp. rewrite slice_Some by (change (Z.of_nat 8) with 8; lia).
    by eexists. }
  destruct Hts as [ts ->]. cbn [mbind option_bind]. eexists _, _, [_], []. split; [done|]. split; [|done].
  split; simpl; try done; [lia|intros Q' HQ'; by apply Hpop| |by rewrite app_nil_r].
  rewrite take_0. apply (handed_got _ d l _ [] [] []); [constructor|]. lia.
Qed.

Definition owned_at (c : CQ) (q : Z) : Prop :=
  exists h, LoadCQEHeader c (u32 q) cqbuf = Some h /\ Owned c (u32 q) h = true.

(** The same slot cannot be owned on two laps in a row. *)
Lemma owned_lap c q : cq_ok j c cqbuf -> owned_at c q -> owned_at c (q + 2 ^ j) -> False.
Proof.
  intros Hc (h & Hl & Ho) (h' & Hl' & Ho'). pose proof (Load_lap j c cqbuf Hc (q + 2 ^ j)) as E.
  replace (q + 2 ^ j - 2 ^ j) with q in E by lia. rewrite Hl, Hl' in E. injection E as ->.
  pose proof (ExpectedOwner_lap j c cqbuf Hc (q + 2 ^ j)) as Hne. replace (q + 2 ^ j - 2 ^ j) with q in Hne by lia.
  unfold Owned in *. to_prop. congruence.
Qed.

Lemma rx_round_spec C Q out v r :
  rx_inv k j lkey C Q out r -> cq_ok j (rx_cq (rx_par r)) cqbuf -> Forall (in_region_at (rx_par r)) out ->
  exists again v' r' n os fs Q', rx_round cqbuf v r = Some (again, v', r') /\
    round_ok k j lkey C Q out v v' r r' n os fs /\ rx_cqci r' = u32 Q' /\ v_read v' = v_read v + (Q' - Q) /\
    Q <= Q' <= Q + 1 /\ (if again then Q' = Q + 1 /\ owned_at (rx_cq (rx_par r)) Q else True).
Proof.
  intros Hinv Hc Hreg. destruct (Hinv) as [Hp Hrq Hpl Hpi Hci Hcq Hr Hw Hh Ha]. pose proof (rx_pow _ _ _ Hp) as Hpow.
  unfold rx_round. destruct (Load_Some j _ _ Hc Q) as (h & Hl & _). rewrite Hcq, Hl. cbn [mbind option_bind].
  assert (Hnone : forall v' r', v_out v' = v_out v -> v_got v' = v_got v -> rx_failed r' = rx_failed r -> rx_ci r' = rx_ci r ->
    (rx_par r', rx_rqDbrec r', rx_cqDbrec r') = (rx_par r, rx_rqDbrec r, rx_cqDbrec r) ->
    (rx_rq r', rx_posted r', rx_pi r') = (rx_rq r, rx_posted r, rx_pi r) -> round_ok k j lkey C Q out v v' r r' 0 [] []).
  { intros v' r' E1 E2 E3 E4 [= E5 E6 E7] [= E8 E9 E10]. split; rewrite ?E1, ?E3, ?app_nil_r, ?take_0, ?drop_0; try done.
    - lia.
    - intros Q' HQ'. rewrite Z.add_0_r. split; rewrite ?E4, ?E5, ?E8, ?E9, ?E10; done.
    - constructor.
    - rewrite E2. change (zlen (@nil Desc)) with 0. lia.
    - by rewrite E5, E6, E7. }
  destruct (Owned _ _ h) eqn:Ho; cbn [negb].
  2: { exists false, v, r, 0%nat, [], [], Q. split; [done|]. split; [by apply Hnone|]. split_and!; try done; lia. }
  assert (Hown : owned_at (rx_cq (rx_par r)) Q) by (by exists h).
  destruct (Format h =? CQEFormatNoData); cbn [negb].
  2: { eexists false, v, _, 0%nat, [], [], Q. split; [done|]. split; [by apply Hnone|]. split_and!; try done; lia. }
  set (r1 := rx_move (rx_ci r) (u32 (u32 Q + 1)) (rx_failed r) r). set (v1 := mkReceiving _ _ _ _ _).
  assert (Hq1 : u32 (u32 Q + 1) = u32 (Q + 1)) by apply u32_add_l.
  destruct (_ && _).
  { eexists true, v1, _, 0%nat, [], [], (Q + 1). split; [done|]. split; [by apply Hnone|]. split_and!; try done; unfold v1; simpl; lia. }
  change (rx_pi r1) with (rx_pi r). change (rx_ci r1) with (rx_ci r). change (rx_par r1) with (rx_par r).
  destruct (Z.eqb_spec (rx_pi r) (rx_ci r)) as [E|E].
  { eexists true, v1, _, 0%nat, [], [], (Q + 1). split; [done|]. split; [by apply Hnone|]. split_and!; try done; unfold v1; simpl; lia. }
  rewrite Hci, (rx_slot _ _ _ _ _ _ _ Hinv). destruct (_ =? C mod 2 ^ k); cbn [negb].
  2: { eexists false, v1, _, 0%nat, [], [], (Q + 1). split; [done|]. split; [by apply Hnone|]. split_and!; try done; unfold v1; simpl; lia. }
  destruct out as [|d out].
  { exfalso. apply E. rewrite Hpi, Hci. change (zlen (@nil Desc)) with 0. by rewrite Z.add_0_r. }
  apply Forall_cons_iff in Hreg as [Hd _].
  assert (Hi1 : rx_inv k j lkey C (Q + 1) (d :: out) r1).
  { apply (rx_inv_move k j lkey C Q (Q + 1) (d :: out) r (rx_move (rx_ci r) (u32 (u32 Q + 1)) (rx_failed r) r) (rx_failed r)); done. }
  destruct (rx_consume_spec C (Q + 1) d out v1 r1 (Opcode h) Hi1 Hc Hd) as (v' & r' & os & fs & -> & Hro & Hcq' & Hrd & _).
  exists true, v', r', 1%nat, os, fs, (Q + 1). split; [done|]. split.
  - destruct Hro as [G1 G2 G3 G4 G5 G6 G7]. by split.
  - rewrite Hcq', Hrd. split_and!; try done; unfold v1; simpl; lia.
Qed.

(** What a run of the loop has done. *)
Record loop_ok (C Q : Z) (out : list Desc) (v v' : receiving) (r r' : Rx) (n : nat) (os fs : list Desc) (Q' : Z) : Prop := {
  lo_n : (n <= length out)%nat;
  lo_inv : rx_inv k j lkey (C + Z.of_nat n) Q' (drop n out) r';
  lo_handed : handed (rx_bufSize (rx_par r)) (take n out) os fs;
  lo_out : v_out v' = v_out v ++ os;
  lo_failed : rx_failed r' = rx_failed r ++ fs;
  lo_got : v_got v' = v_got v + zlen os;
  lo_read : v_read v' = v_read v + (Q' - Q) /\ Q <= Q';
  lo_same : (rx_par r', rx_rqDbrec r', rx_cqDbrec r') = (rx_par r, rx_rqDbrec r, rx_cqDbrec r)
}.

Lemma loop_ok_nil C Q out v r : rx_inv k j lkey C Q out r -> loop_ok C Q out v v r r 0 [] [] Q.
Proof.
  intros H. split; rewrite ?take_0, ?drop_0, ?app_nil_r, ?Z.add_0_r; try done; change (zlen (@nil Desc)) with 0; first [lia|apply handed_nil].
Qed.

Lemma loop_ok_round C Q out v v1 v' r r1 r' n1 os1 fs1 Q1 n os fs Q' :
  round_ok k j lkey C Q out v v1 r r1 n1 os1 fs1 -> v_read v1 = v_read v + (Q1 - Q) -> Q <= Q1 ->
  loop_ok (C + Z.of_nat n1) Q1 (drop n1 out) v1 v' r1 r' n os fs Q' ->
  loop_ok C Q out v v' r r' (n1 + n) (os1 ++ os) (fs1 ++ fs) Q'.
Proof.
  intros [[G1 _] _ G3 G4 G5 G6 G7] Hr Hq [L1 L2 L3 L4 L5 L6 [L7 L8] L9]. injection G7 as P1 P2 P3. rewrite P1 in *.
  rewrite length_drop in L1. rewrite drop_drop in L2. split; try lia.
  - replace (C + Z.of_nat (n1 + n)) with (C + Z.of_nat n1 + Z.of_nat n) by lia. first [done|by rewrite Nat.add_comm in L2].
  - rewrite <- take_take_drop. by apply handed_app.
  - by rewrite L4, G4, app_assoc.
  - by rewrite L5, G5, app_assoc.
  - rewrite L6, G6, zlen_app. lia.
  - congruence.
Qed.

Lemma rx_loop_spec max Q0 : forall fuel C Q out v r,
  rx_inv k j lkey C Q out r -> cq_ok j (rx_cq (rx_par r)) cqbuf -> Forall (in_region_at (rx_par r)) out ->
  Q0 <= Q <= Q0 + 2 ^ j -> (forall q, Q0 <= q < Q -> owned_at (rx_cq (rx_par r)) q) -> 2 ^ j < Q - Q0 + Z.of_nat fuel ->
  exists v' r' n os fs Q', rx_loop fuel max cqbuf v r = Some (v', r') /\ loop_ok C Q out v v' r r' n os fs Q' /\
    v_got v' <= Z.max (v_got v) max.
Proof.
  induction fuel as [|fuel IH]; intros C Q out v r Hinv Hc Hreg HQ Hown Hfuel; cbn [rx_loop].
  - lia.
  - destruct (Z.ltb_spec (v_got v) max) as [Hlt|Hge]; cbn [negb].
    2: { exists v, r, 0%nat, [], [], Q. split; [done|]. split; [by apply loop_ok_nil|lia]. }
    destruct (rx_round_spec C Q out v r Hinv Hc Hreg) as (again & v1 & r1 & n1 & os1 & fs1 & Q1 & -> & Hro & HQ1 & Hrd & HQr & Hag).
    cbn [mbind option_bind]. pose proof (ro_inv _ _ _ _ _ _ _ _ _ _ _ _ _ Hro Q1 HQ1) as Hinv1.
    pose proof (ro_got _ _ _ _ _ _ _ _ _ _ _ _ _ Hro) as Hgot. pose proof (ro_same _ _ _ _ _ _ _ _ _ _ _ _ _ Hro) as [= P1 _ _].
    assert (Hos : zlen os1 <= 1).
    { pose proof (ro_handed _ _ _ _ _ _ _ _ _ _ _ _ _ Hro) as Hh. pose proof (ro_n _ _ _ _ _ _ _ _ _ _ _ _ _ Hro) as [_ Hn].
      assert (G : forall bs cs os fs, handed bs cs os fs -> zlen os <= zlen cs).
      { induction 1; rewrite ?zlen_app; unfold zlen in *; simpl; lia. }
      apply G in Hh. rewrite zlen_take in Hh. lia. }
    destruct again.
    + destruct Hag as [-> Hoq].
      assert (Hlap : Q <> Q0 + 2 ^ j).
      { intros ->. pose proof (cq_pow j _ _ Hc). apply (owned_lap (rx_cq (rx_par r)) Q0 Hc); [|done].
        apply Hown. lia. }
      destruct (IH (C + Z.of_nat n1) (Q + 1) (drop n1 out) v1 r1 Hinv1) as (v' & r' & n & os & fs & Q' & E & Hlo & Hle).
      * by rewrite P1.
      * rewrite P1. by apply Forall_drop.
      * lia.
      * intros q Hq. rewrite P1. destruct (decide (q = Q)) as [->|]; [done|]. apply Hown. lia.
      * lia.
      * exists v', r', (n1 + n)%nat, (os1 ++ os), (fs1 ++ fs), Q'. split; [done|].
        split; [eapply loop_ok_round; [exact Hro|exact Hrd|lia|exact Hlo]|]. lia.
    + exists v1, r1, (n1 + 0)%nat, (os1 ++ []), (fs1 ++ []), Q1. split; [done|].
      split; [eapply loop_ok_round; [exact Hro|exact Hrd|lia|by apply loop_ok_nil]|]. lia.
Qed.

(** [receive] never panics, never spins, and loses no buffer. *)
Lemma receive_total C Q out r max o ts :
  rx_inv k j lkey C Q out r -> cq_ok j (rx_cq (rx_par r)) cqbuf -> Forall (in_region_at (rx_par r)) out ->
  exists os ts' r' n Q', receive max cqbuf o ts r = Some (o ++ os, ts', r') /\ (n <= length out)%nat /\
    rx_inv k j lkey (C + Z.of_nat n) Q' (drop n out) r' /\ handed (rx_bufSize (rx_par r)) (take n out) os (Failed r') /\
    zlen os <= Z.max 0 max /\ rx_par r' = rx_par r /\ rx_rqDbrec r' = rx_rqDbrec r.
Proof.
  intros Hinv Hc Hreg. unfold receive. set (r0 := rx_move _ _ [] r).
  assert (Hi0 : rx_inv k j lkey C Q out r0) by (by eapply rx_inv_same; [| |exact Hinv]).
  destruct (_ || _).
  { exists [], ts, r0, 0%nat, Q. rewrite app_nil_r, take_0, drop_0, Z.add_0_r. split_and!; try done; [lia|constructor|].
    change (zlen (@nil Desc)) with 0. lia. }
  destruct (rx_loop_spec max Q (rx_fuel r0) C Q out (mkReceiving o ts 0 0 0) r0 Hi0 Hc Hreg) as (v & r1 & n & os & fs & Q' & -> & Hlo & Hle).
  - pose proof (cq_pow j _ _ Hc). lia.
  - lia.
  - unfold rx_fuel, Entries. change (rx_par r0) with (rx_par r). destruct (Hc) as (? & _ & -> & _). simpl. lia.
  - cbn [mbind option_bind]. destruct Hlo as [L1 L2 L3 L4 L5 L6 L7 L9]. simpl in L4, L5, L6, Hle. injection L9 as P1 P2 P3.
    assert (Hzl : zlen os <= Z.max 0 max) by (pose proof (zlen_nonneg os); lia).
    destruct (v_read v =? 0).
    + exists os, (v_ts v), (if rx_pi r1 =? rx_ci r1 then Rx_Sync r1 else r1), n, Q'. rewrite L4.
      split_and!; try done; [by destruct (rx_pi r1 =? rx_ci r1); [eapply rx_inv_same; [| |exact L2]|]|..].
      * unfold Failed. destruct (rx_pi r1 =? rx_ci r1); simpl; rewrite L5; exact L3.
      * by destruct (rx_pi r1 =? rx_ci r1).
      * by destruct (rx_pi r1 =? rx_ci r1).
    + eexists os, _, _, n, Q'. rewrite L4. split; [done|]. split_and!; try done; [by eapply rx_inv_same; [| |exact L2]|].
      unfold Failed. simpl. rewrite L5. exact L3.
Qed.
End receive.

(** ** A fresh queue *)

Lemma be4_len v : zlen (be_bytes 4 v) = 4.
Proof. by rewrite zlen_be_bytes. Qed.

Lemma slice_join {A} lo mid hi (l a b : list A) :
  slice lo mid l = Some a -> slice mid hi l = Some b -> slice lo hi l = Some (a ++ b).
Proof.
  unfold slice. intros Ha Hb. case_if_in Ha; [|done]. case_if_in Hb; [|done]. to_prop. injection Ha as <-. injection Hb as <-.
  rewrite (proj2 (Z.leb_le 0 lo)), (proj2 (Z.leb_le lo hi)), (proj2 (Z.leb_le hi _)) by lia. cbn [andb]. f_equal.
  replace (Z.to_nat mid) with (Z.to_nat lo + Z.to_nat (mid - lo))%nat by lia. rewrite <- drop_drop.
  replace (Z.to_nat (hi - lo)) with (Z.to_nat (mid - lo) + Z.to_nat (hi - mid))%nat by lia. by rewrite <- take_take_drop.
Qed.

Lemma prefill_spec k bs lkey : 0 <= k <= 16 -> forall n i rq,
  zlen rq = 16 * 2 ^ k -> 0 <= i -> i + Z.of_nat n = 2 ^ k ->
  exists rq', prefill n i bs lkey rq = Some rq' /\ zlen rq' = 16 * 2 ^ k /\
    (forall s, 0 <= s < i -> slice (s * 16) (s * 16 + 8) rq' = slice (s * 16) (s * 16 + 8) rq) /\
    (forall s, i <= s < 2 ^ k -> slice (s * 16) (s * 16 + 8) rq' = Some (be_bytes 4 bs ++ be_bytes 4 lkey)).
Proof.
  intros Hk. assert (Hp : 0 < 2 ^ k <= 2 ^ 16) by (split; [lia|apply Z.pow_le_mono_r; lia]).
  induction n as [|n IH]; intros i rq Hz Hi Hn; cbn [prefill].
  - exists rq. split_and!; try done. intros s Hs. lia.
  - rewrite (u32_small (i * 16)), (u32_small (i * 16 + 4)) by lia. pose proof (be4_len bs). pose proof (be4_len lkey).
    rewrite put_be_Some by lia. cbn [mbind option_bind]. rewrite put_be_Some by (rewrite ?zlen_blit by lia; lia).
    cbn [mbind option_bind]. set (rq1 := blit (i * 16) (be_bytes 4 bs) rq). set (rq2 := blit (i * 16 + 4) (be_bytes 4 lkey) rq1).
    assert (Hz1 : zlen rq1 = 16 * 2 ^ k) by (unfold rq1; by rewrite zlen_blit by lia).
    assert (Hz2 : zlen rq2 = 16 * 2 ^ k) by (unfold rq2; by rewrite zlen_blit by lia).
    destruct (IH (i + 1) rq2 Hz2 ltac:(lia) ltac:(lia)) as (rq' & -> & Hz' & Hlo & Hhi).
    exists rq'. split; [done|]. split; [done|]. split.
    + intros s Hs. rewrite Hlo by lia. unfold rq2. rewrite slice_blit_disjoint by lia. unfold rq1. by rewrite slice_blit_disjoint by lia.
    + intros s Hs. destruct (decide (s = i)) as [->|]; [|apply Hhi; lia]. rewrite Hlo by lia.
      apply (slice_join _ (i * 16 + 4)).
      * unfold rq2. rewrite slice_blit_disjoint by lia. pose proof (slice_blit_same (i * 16) (be_bytes 4 bs) rq ltac:(lia) ltac:(lia)) as E.
        by rewrite be4_len in E.
      * pose proof (slice_blit_same (i * 16 + 4) (be_bytes 4 lkey) rq1 ltac:(lia) ltac:(lia)) as E. rewrite be4_len in E.
        by replace (i * 16 + 4 + 4) with (i * 16 + 8) in E by lia.
Qed.

(** The widths of the configuration's fields, and a queue the device can
    address with its 16-bit index. *)
Record rx_cfg_ok (cfg : RxConfig) : Prop := {
  rco_rq : zlen (rcfg_RQ cfg) <= 2 ^ 20;
  rco_cq : zlen (rcfg_CQ cfg) <= 64 * 2 ^ 24;
  rco_cqb : bytes_ok (rcfg_CQ cfg);
  rco_buf : 0 <= rcfg_BufferSize cfg < 2 ^ 32;
  rco_region : 0 <= rcfg_regionLen cfg < 2 ^ 63
}.

Lemma NewRx_inv cfg r :
  rx_cfg_ok cfg -> NewRx cfg = Some (Ok r) ->
  exists k j, rx_inv k j (rcfg_LKey cfg) 0 0 [] r /\ cq_ok j (rx_cq (rx_par r)) (rcfg_CQ cfg) /\ zlen (rcfg_RQ cfg) = 16 * 2 ^ k /\
    rx_dead r = None /\ rx_rqDbrec r = 0 /\ rx_cqDbrec r = 0 /\ rx_regionLen (rx_par r) = rcfg_regionLen cfg /\
    rx_regionVA (rx_par r) = rcfg_RegionVA cfg /\ rx_bufSize (rx_par r) = rcfg_BufferSize cfg.
Proof.
  intros [Hrq Hcq Hcqb Hbuf Hreg]. unfold NewRx. destruct (Z.eqb_spec (rcfg_Stride cfg) 16) as [->|]; [|done]. cbn [negb].
  destruct (negb _ || _) eqn:E0; [done|]. to_prop. pose proof (zlen_nonneg (rcfg_RQ cfg)).
  rewrite (u32_small (zlen (rcfg_RQ cfg))) by lia. set (n := zlen (rcfg_RQ cfg) / 16).
  assert (Hn : 0 < n <= 2 ^ 16) by (unfold n; divlia).
  rewrite (u32_small (n - 1)) by lia. destruct (negb (Z.land n (n - 1) =? 0)) eqn:E1; [done|]. to_prop.
  destruct (land_pred_pow2 n) as (k & Hk & Hz); [lia|lia|].
  destruct (NewCQ (rcfg_CQ cfg) CQESize) as [c|] eqn:Ec; [|done]. apply NewCQ_ok in Ec as [j Hc]; [|done|done].
  destruct (Z.ltb_spec (Entries c) n) as [|Hent]; [done|]. case_if; [done|].
  destruct (Z.eqb_spec (rcfg_BufferSize cfg) 0) as [|Hb0]; [done|].
  assert (Hk16 : k <= 16).
  { destruct (decide (k <= 16)); [done|]. assert (2 ^ 16 < 2 ^ k) by (apply Z.pow_lt_mono_r; lia). lia. }
  assert (Hlen : zlen (rcfg_RQ cfg) = 16 * 2 ^ k) by (rewrite <- Hz; unfold n; divlia).
  destruct (prefill_spec k (rcfg_BufferSize cfg) (rcfg_LKey cfg) ltac:(lia) (Z.to_nat n) 0 (rcfg_RQ cfg) Hlen ltac:(lia) ltac:(lia))
    as (rq & -> & Hzq & _ & Hh). cbn [mbind option_bind]. intros [= <-].
  assert (Hkj : k <= j).
  { destruct (Hc) as (Hj & _ & -> & _). unfold Entries in Hent. simpl in Hent.
    destruct (decide (k <= j)); [done|]. assert (2 ^ j < 2 ^ k) by (apply Z.pow_lt_mono_r; lia). lia. }
  exists k, j. split; [|by split_and!]. split; simpl; try done.
  - destruct (Hc) as (Hj & _ & -> & _). split; simpl; try done; lia.
  - rewrite zlen_replicate. lia.
  - change (zlen (@nil Desc)) with 0. lia.
Qed.
