(* ===== verification/RingRxDevice.v ===== *)
(** The device model's receive half: mlx5/internal/mocknic/mocknic.go.

    [RxNIC] writes packets into the buffers the driver posted and reports each
    with a completion.  The memory it writes (the region, the completion queue)
    is part of its state; the memory it reads (the receive queue, the doorbell
    records) is an argument.  [None] is a panic. *)

From stdpp Require Import prelude list numbers strings.
From S2P Require Import Prelude Circ Bytes Desc Sq Cqe MockNic RingRx RingRxInv.

Definition rxStride : Z := 16.

Record RxNIC : Set := mkRxNIC {
  xn_RegionVA : Z; xn_LKey : Z; xn_cq : CQ; xn_entries : Z; xn_mask : Z;
  xn_ci : Z; xn_cqPi : Z; xn_FailEvery : Z; xn_delivered : Z; xn_TicksPerPacket : Z; xn_clock : Z;
  xn_Violations : list string; xn_CQ : list Z; xn_Region : list Z
}.

(** The memory the model reads. *)
Record RxMem : Set := mkRxMem { xm_RQ : list Z; xm_RQDbrec : Z; xm_CQDbrec : Z }.

Definition NewRxNIC (RegionVA LKey : Z) (Region RQ CQm : list Z) : option (res RxNIC) :=
  match NewCQ CQm CQESize with
  | Err e => Some (Err e)
  | Ok cq =>
      if negb (zlen RQ mod rxStride =? 0) || (zlen RQ =? 0) then
        Some (Err (Errorf "mocknic: a receive queue of the wrong size"))
      else
        let entries := u32 (zlen RQ / rxStride) in
        q ← invalidate (Z.to_nat (Entries cq)) 0 CQm;
        Some (Ok (mkRxNIC RegionVA LKey cq entries (u32 (entries - 1)) 0 0 0 0 0 0 [] q Region))
  end.

Definition xn_violate (v : string) (n : RxNIC) : RxNIC :=
  mkRxNIC (xn_RegionVA n) (xn_LKey n) (xn_cq n) (xn_entries n) (xn_mask n) (xn_ci n) (xn_cqPi n) (xn_FailEvery n)
    (xn_delivered n) (xn_TicksPerPacket n) (xn_clock n) (xn_Violations n ++ [v]) (xn_CQ n) (xn_Region n).

Definition cqConsumerIndex (mem : RxMem) (n : RxNIC) : Z := released (xn_cqPi n) (xm_CQDbrec mem).

Definition xn_writeCompletion (mem : RxMem) (slot opcode length : Z) (n : RxNIC) : option RxNIC :=
  if u32 (xn_cqPi n - cqConsumerIndex mem n) >=? Entries (xn_cq n) then Some (xn_violate "completion queue overrun" n)
  else
    let off := u32 (Z.land (xn_cqPi n) (cq_mask (xn_cq n)) * CQESize) in
    q ← clear_range off (u32 (off + CQESize)) (xn_CQ n);
    q ← put_be 4 (off + 44) length q;
    let ticks := if xn_TicksPerPacket n =? 0 then 1 else xn_TicksPerPacket n in
    let clock := u64 (xn_clock n + ticks) in
    q ← put_be 8 (off + 48) clock q;
    q ← set_at (off + 28) (Z.lor (Z.lor CQEL2OK CQEL3OK) CQEL4OK) q;
    q ← put_be 2 (off + 60) (u16 slot) q;
    q ← set_at (off + 63) (Z.lor (u8 (Z.shiftl opcode 4)) (u8 (ExpectedOwner (xn_cq n) (xn_cqPi n)))) q;
    Some (mkRxNIC (xn_RegionVA n) (xn_LKey n) (xn_cq n) (xn_entries n) (xn_mask n) (xn_ci n) (u32 (xn_cqPi n + 1))
            (xn_FailEvery n) (xn_delivered n) ticks clock (xn_Violations n) q (xn_Region n)).

Definition postedCount (mem : RxMem) (n : RxNIC) : Z * RxNIC :=
  let low := dbrec (xm_RQDbrec mem) in
  let n := if negb (Z.shiftr low 16 =? 0) then xn_violate "the receive doorbell record is not a 16-bit index" n else n in
  let pi := u32 (xn_ci n + u16 (u16 low - u16 (xn_ci n))) in
  if u32 (pi - xn_ci n) >? xn_entries n
  then (0, xn_violate "software says more buffers are posted than the queue holds" n)
  else (u32 (pi - xn_ci n), n).

(** A packet copied into its buffer, before it is reported. *)
Definition land_packet (start : Z) (p : list Z) (n : RxNIC) : option RxNIC :=
  '(_, region) ← copy_at start p (xn_Region n);
  Some (mkRxNIC (xn_RegionVA n) (xn_LKey n) (xn_cq n) (xn_entries n) (xn_mask n) (u32 (xn_ci n + 1)) (xn_cqPi n)
          (xn_FailEvery n) (xn_delivered n + 1) (xn_TicksPerPacket n) (xn_clock n) (xn_Violations n) (xn_CQ n) region).

(** Whether the packet counted [delivered] is made to fail. *)
Definition made_to_fail (every delivered : Z) : bool := (every >? 0) && (delivered mod every =? 0).

Fixpoint deliver_loop (mem : RxMem) (posted : Z) (ps : list (list Z)) (sent : Z) (n : RxNIC) : option (Z * RxNIC) :=
  match ps with
  | [] => Some (sent, n)
  | p :: ps =>
      if u32 sent >=? posted then Some (sent, n)
      else
        let slot := Z.land (xn_ci n) (xn_mask n) in
        let off := u32 (slot * rxStride) in
        capacity ← get_be 4 off (xm_RQ mem);
        lkey ← get_be 4 (u32 (off + 4)) (xm_RQ mem);
        addr ← get_be 8 (u32 (off + 8)) (xm_RQ mem);
        if negb (lkey =? xn_LKey n) then Some (sent, xn_violate "a buffer uses the wrong memory key" n)
        else
          let lo := xn_RegionVA n in
          let hi := u64 (lo + zlen (xn_Region n)) in
          if (addr <? lo) || (u64 (addr + capacity) >? hi)
          then Some (sent, xn_violate "a buffer is outside the registered region" n)
          else if u32 (zlen p) >? capacity then Some (sent, xn_violate "a packet does not fit a buffer" n)
          else
            n ← land_packet (u64 (addr - lo)) p n;
            n ← (if made_to_fail (xn_FailEvery n) (xn_delivered n)
                 then xn_writeCompletion mem slot CQERespErr 0 n
                 else xn_writeCompletion mem slot CQERespSend (u32 (zlen p)) n);
            deliver_loop mem posted ps (sent + 1) n
  end.

Definition Deliver (mem : RxMem) (ps : list (list Z)) (n : RxNIC) : option (Z * RxNIC) :=
  let '(posted, n) := postedCount mem n in deliver_loop mem posted ps 0 n.

(** The receive ring and the device model together: what a completion says,
    what a delivery leaves behind, and what [receive] makes of it. *)

(** ** Completions *)

(** Completion [P] of a receive queue. *)
Record rx_cqe_for (c : CQ) (P slot opcode len : Z) (e : list Z) (h : Z) : Prop := {
  xf_len : zlen e = 64;
  xf_bytes : bytes_ok e;
  xf_hdr : get_be 4 cqeHeader e = Some h;
  xf_owner : Owner h = ExpectedOwner c (u32 P);
  xf_format : Format h = CQEFormatNoData;
  xf_opcode : Opcode h = opcode;
  xf_counter : WQECounter h = u16 slot;
  xf_count : ByteCount e = Some len;
  xf_flags : ChecksumFlags e = Some 7
}.

(** The 64 bytes the device writes. *)
Definition rx_cqe (len clock slot opcode owner : Z) : list Z :=
  replicate 28 0 ++ [7] ++ replicate 15 0 ++ be_bytes 4 len ++ be_bytes 8 clock ++ replicate 4 0 ++
  be_bytes 2 (u16 slot) ++ [0; Z.lor (u8 (Z.shiftl opcode 4)) (u8 owner)].

Lemma rx_cqe_ok j c q P len clock slot opcode :
  cq_ok j c q -> 0 <= len < 2 ^ 32 -> 0 <= opcode < 16 ->
  exists h, rx_cqe_for c P slot opcode len (rx_cqe len clock slot opcode (ExpectedOwner c (u32 P))) h.
Proof.
  intros Hc Hlen Hop. destruct (header_word j c q P (u16 slot) opcode Hc (u16_range slot) Hop) as (h & Hb & Ho & [Hf Hr] & Hopc & Hct).
  exists h. unfold rx_cqe. rewrite Hb. pose proof (length_be_bytes 4 len) as L1. pose proof (length_be_bytes 8 clock) as L2.
  pose proof (length_be_bytes 4 h) as L3. split; [| | |done|done|done|done| |done].
  - unfold zlen. rewrite !length_app, !length_replicate, L1, L2, L3. done.
  - unfold bytes_ok. rewrite !Forall_app. split_and!; try (by apply Forall_replicate); try apply be_bytes_ok. by repeat constructor.
  - rewrite !app_assoc, <- (app_nil_r (_ ++ be_bytes 4 h)), <- app_assoc. apply header_at; [|done].
    rewrite !length_app, !length_replicate, L1, L2. done.
  - unfold ByteCount, get_be, cqeByteCount.
    rewrite slice_Some by (unfold zlen; rewrite ?length_app, ?length_replicate, ?L1, ?L2, ?L3; simpl; lia).
    cbn [mbind option_bind]. f_equal. rewrite <- (be_val_be 4 len) at 2 by done. f_equal.
Qed.

Section completion.
Context (j D C : Z) (mem : RxMem) (n : RxNIC).
Context (Hc : cq_ok j (xn_cq n) (xn_CQ n)) (HD : xn_cqPi n = u32 D)
        (HC : dbrec (xm_CQDbrec mem) mod 2 ^ 24 = C mod 2 ^ 24) (Hroom : 0 <= D - C < Entries (xn_cq n)).

Lemma xn_writeCompletion_spec slot opcode len :
  0 <= opcode < 16 -> 0 <= len < 2 ^ 32 ->
  exists n' e h, xn_writeCompletion mem slot opcode len n = Some n' /\ rx_cqe_for (xn_cq n) D slot opcode len e h /\
    xn_CQ n' = cq_write (xn_cq n) D e (xn_CQ n) /\ xn_cqPi n' = u32 (D + 1) /\
    (xn_RegionVA n', xn_LKey n', xn_cq n', xn_entries n', xn_mask n', xn_ci n', xn_FailEvery n', xn_delivered n') =
    (xn_RegionVA n, xn_LKey n, xn_cq n, xn_entries n, xn_mask n, xn_ci n, xn_FailEvery n, xn_delivered n) /\
    (xn_Violations n', xn_Region n') = (xn_Violations n, xn_Region n).
Proof using Hc HD HC Hroom.
  intros Hop Hlen. pose proof (cq_pow j _ _ Hc) as Hp. unfold xn_writeCompletion, cqConsumerIndex.
  destruct (Hc) as (_ & Hz & Ec & _). assert (Hent : Entries (xn_cq n) = 2 ^ j) by (by rewrite Ec). rewrite Hent in *.
  rewrite HD, (released_eq D C) by (done || lia). rewrite Z.geb_leb, (proj2 (Z.leb_gt _ (D - C))) by lia.
  rewrite (cq_slot j _ _ Hc). set (o := D mod 2 ^ j * 64). pose proof (Z.mod_pos_bound D (2 ^ j) ltac:(lia)) as Hm.
  unfold CQESize. rewrite (u32_small (o + 64)), clear_range_Some by (unfold o; lia). replace (o + 64 - o) with 64 by lia. cbn [mbind option_bind].
  assert (Hfield : forall i b q, zlen q = 64 -> 0 <= i -> i + zlen b <= 64 -> blit (o + i) b (blit o q (xn_CQ n)) = blit o (blit i b q) (xn_CQ n)).
  { intros i b q Hq Hi Hb. apply blit_over; unfold o; lia. }
  assert (Hlen' : forall q, zlen q = 64 -> zlen (blit o q (xn_CQ n)) = zlen (xn_CQ n)) by (intros q Hq; apply zlen_blit; unfold o; lia).
  set (z := replicate (Z.to_nat 64) 0). assert (Hlz : zlen z = 64) by done.
  assert (Hput : forall k i v q, zlen q = 64 -> 0 <= i -> i + Z.of_nat k <= 64 ->
    put_be k (o + i) v (blit o q (xn_CQ n)) = Some (blit o (blit i (be_bytes k v) q) (xn_CQ n)) /\ zlen (blit i (be_bytes k v) q) = 64).
  { intros k i v q Hq Hi Hk. split; [|rewrite zlen_blit; rewrite ?zlen_be_bytes; lia].
    rewrite put_be_Some by (rewrite ?Hlen' by done; unfold o in *; lia). f_equal. apply Hfield; rewrite ?zlen_be_bytes; lia. }
  assert (Hset : forall i x q, zlen q = 64 -> 0 <= i < 64 ->
    set_at (o + i) x (blit o q (xn_CQ n)) = Some (blit o (blit i [x] q) (xn_CQ n)) /\ zlen (blit i [x] q) = 64).
  { intros i x q Hq Hi. split; [|rewrite zlen_blit; change (zlen [x]) with 1; lia].
    rewrite set_blit by (rewrite Hlen' by done; unfold o; lia). f_equal. apply Hfield; change (zlen [x]) with 1; lia. }
  destruct (Hput 4%nat 44 len z Hlz) as [-> Hz1]; [lia|lia|]. cbn [mbind option_bind].
  set (ticks := if _ =? 0 then 1 else _). set (clock := u64 (xn_clock n + ticks)).
  destruct (Hput 8%nat 48 clock _ Hz1) as [-> Hz2]; [lia|lia|]. cbn [mbind option_bind].
  destruct (Hset 28 (Z.lor (Z.lor CQEL2OK CQEL3OK) CQEL4OK) _ Hz2) as [-> Hz3]; [lia|]. cbn [mbind option_bind].
  destruct (Hput 2%nat 60 (u16 slot) _ Hz3) as [-> Hz4]; [lia|lia|]. cbn [mbind option_bind].
  destruct (Hset 63 (Z.lor (u8 (Z.shiftl opcode 4)) (u8 (ExpectedOwner (xn_cq n) (u32 D)))) _ Hz4) as [-> Hz5]; [lia|]. cbn [mbind option_bind].
  destruct (rx_cqe_ok j _ _ D len clock slot opcode Hc Hlen Hop) as [h Hh].
  eexists _, (rx_cqe len clock slot opcode (ExpectedOwner (xn_cq n) (u32 D))), h. split; [done|]. split; [done|]. simpl. split; [|by rewrite u32_add_l].
  unfold cq_write. rewrite Hent. fold o. f_equal.
Qed.
End completion.

(** ** The device's side of the queue *)

(** What became of a packet the device took: its bytes, or nothing if it was
    made to fail. *)
Definition outcome_opcode (o : option (list Z)) : Z := match o with Some _ => CQERespSend | None => CQERespErr end.
Definition outcome_len (o : option (list Z)) : Z := match o with Some p => zlen p | None => 0 end.

(** Completion [i] reports outcome [o] of the buffer in its slot. *)
Definition reported (k : Z) (c : CQ) (q : list Z) (i : Z) (o : option (list Z)) : Prop :=
  exists e h, Entry c (u32 i) q = Some e /\ LoadCQEHeader c (u32 i) q = Some h /\
    rx_cqe_for c i (i mod 2 ^ k) (outcome_opcode o) (outcome_len o) e h.

(** The device has used [D] buffers, of which the driver has read about [C];
    [out] are the buffers the driver has not heard of, and [sent] what became
    of every packet so far. *)
Record dev_inv (k j lkey C D : Z) (out : list Desc) (p : RxParams) (sent : list (option (list Z))) (n : RxNIC) : Prop := {
  di_entries : xn_entries n = 2 ^ k;
  di_mask : xn_mask n = 2 ^ k - 1;
  di_ci : xn_ci n = u32 D;
  di_pi : xn_cqPi n = u32 D;
  di_cq : xn_cq n = rx_cq p;
  di_cqok : cq_ok j (xn_cq n) (xn_CQ n);
  di_holds : exists hdr, cq_holds (xn_cq n) (xn_CQ n) D hdr;
  di_range : 0 <= C <= D /\ D <= C + zlen out;
  di_sent : zlen sent = D;
  di_reported i o : C <= i < D -> sent !! Z.to_nat i = Some o -> reported k (xn_cq n) (xn_CQ n) i o;
  di_data i d pkt : C <= i < D -> out !! Z.to_nat (i - C) = Some d -> sent !! Z.to_nat i = Some (Some pkt) ->
    zlen pkt <= rx_bufSize p /\ slice (Addr d) (Addr d + zlen pkt) (xn_Region n) = Some pkt;
  di_violations : xn_Violations n = [];
  di_region : zlen (xn_Region n) = rx_regionLen p;
  di_va : xn_RegionVA n = rx_regionVA p /\ 0 <= rx_regionVA p /\ rx_regionVA p + rx_regionLen p < 2 ^ 64;
  di_lkey : xn_LKey n = lkey /\ 0 <= lkey < 2 ^ 32
}.

(** Buffers of [bs] bytes at these addresses lie inside the region and do not
    overlap. *)
Definition separate (bs len : Z) (addrs : list Z) : Prop :=
  NoDup addrs /\ Forall (fun a => 0 <= a /\ a + bs <= len) addrs /\
  forall a b, a ∈ addrs -> b ∈ addrs -> a <> b -> a + bs <= b \/ b + bs <= a.

#[export] Instance separate_proper bs len : Proper ((≡ₚ) ==> iff) (separate bs len).
Proof.
  intros l l' Hp. unfold separate. rewrite Hp. split; intros (H1 & H2 & H3); (split; [done|split; [done|]]); intros a b Ha Hb;
    apply H3; by rewrite ?Hp in *.
Qed.

Lemma separate_app_r bs len l l' : separate bs len (l ++ l') -> separate bs len l'.
Proof.
  intros (H1 & H2 & H3). apply NoDup_app in H1 as (_ & _ & H1). apply Forall_app in H2 as [_ H2]. split_and!; try done.
  intros a b Ha Hb. apply H3; apply elem_of_app; by right.
Qed.

Lemma separate_cross bs len l i i' a b :
  separate bs len l -> l !! i = Some a -> l !! i' = Some b -> i <> i' -> a + bs <= b \/ b + bs <= a.
Proof.
  intros (H1 & _ & H3) Ha Hb Hne. apply H3; [by eapply list_elem_of_lookup_2|by eapply list_elem_of_lookup_2|].
  intros ->. apply Hne. by eapply NoDup_lookup.
Qed.

(** ** Delivering *)

Lemma slice_sub {A} lo hi (l x : list A) i i' :
  slice lo hi l = Some x -> 0 <= i <= i' -> i' <= hi - lo -> slice (lo + i) (lo + i') l = Some (take (Z.to_nat (i' - i)) (drop (Z.to_nat i) x)).
Proof.
  unfold slice. intros H Hi Hi'. case_if_in H; [|done]. to_prop. injection H as <-.
  rewrite (proj2 (Z.leb_le 0 (lo + i))), (proj2 (Z.leb_le (lo + i) _)), (proj2 (Z.leb_le (lo + i') _)) by lia. cbn [andb]. f_equal.
  rewrite skipn_firstn_comm, take_take, drop_drop. f_equal; [lia|]. f_equal. lia.
Qed.

(** The fields of a receive entry, read back. *)
Lemma rq_fields k j lkey C Q out r i d s :
  rx_inv k j lkey C Q out r -> out !! i = Some d -> s = (C + Z.of_nat i) mod 2 ^ k -> 0 <= lkey < 2 ^ 32 ->
  get_be 4 (s * 16) (rx_rq r) = Some (rx_bufSize (rx_par r)) /\ get_be 4 (s * 16 + 4) (rx_rq r) = Some lkey /\
  get_be 8 (s * 16 + 8) (rx_rq r) = Some (u64 (rx_regionVA (rx_par r) + Addr d)).
Proof.
  intros Hi Hd -> Hk. pose proof (rx_pow _ _ _ (ri_par _ _ _ _ _ _ _ Hi)) as Hpow. set (s := (C + Z.of_nat i) mod 2 ^ k).
  assert (Hs : 0 <= s < 2 ^ k) by (apply Z.mod_pos_bound; lia). pose proof (ri_heads _ _ _ _ _ _ _ Hi s Hs) as Hh.
  pose proof (ri_addrs _ _ _ _ _ _ _ Hi i d Hd) as Ha. cbv zeta in Ha. fold s in Ha.
  pose proof (rp_buf _ _ _ (ri_par _ _ _ _ _ _ _ Hi)).
  unfold get_be. change (Z.of_nat 4) with 4. change (Z.of_nat 8) with 8. unfold rq_head, rq_addr in *. split_and!.
  - pose proof (slice_sub _ _ _ _ 0 4 Hh ltac:(lia) ltac:(lia)) as E. rewrite Z.add_0_r in E. rewrite E. cbn [mbind option_bind]. f_equal.
    change (Z.to_nat (4 - 0)) with 4%nat. change (Z.to_nat 0) with 0%nat. rewrite drop_0, take_app_length' by (by rewrite length_be_bytes).
    apply be_val_be. lia.
  - pose proof (slice_sub _ _ _ _ 4 8 Hh ltac:(lia) ltac:(lia)) as E. replace (s * 16 + 4 + 4) with (s * 16 + 8) by lia. rewrite E. cbn [mbind option_bind]. f_equal.
    change (Z.to_nat (8 - 4)) with 4%nat. change (Z.to_nat 4) with 4%nat. rewrite drop_app_length' by (by rewrite length_be_bytes).
    rewrite firstn_all2 by (by rewrite length_be_bytes). apply be_val_be. lia.
  - replace (s * 16 + 8 + 8) with (s * 16 + 16) by lia. rewrite Ha. cbn [mbind option_bind]. f_equal. apply be_val_be. apply u64_range.
Qed.

Section deliver.
Context (k j lkey C : Z) (out : list Desc) (r : Rx).
Context (Hr : rx_inv k j lkey C C out r) (Hk : k <= 15)
        (HC : dbrec (rx_cqDbrec r) mod 2 ^ 24 = C mod 2 ^ 24)
        (Hsep : separate (rx_bufSize (rx_par r)) (rx_regionLen (rx_par r)) (map Addr out)).

Definition rx_mem : RxMem := mkRxMem (rx_rq r) (rx_rqDbrec r) (rx_cqDbrec r).

(** The bytes of the earlier packets survive the one that lands at [a]. *)
Lemma data_kept D n sent d p :
  dev_inv k j lkey C D out (rx_par r) sent n -> out !! Z.to_nat (D - C) = Some d -> zlen p <= rx_bufSize (rx_par r) ->
  forall i d' pkt, C <= i < D -> out !! Z.to_nat (i - C) = Some d' -> sent !! Z.to_nat i = Some (Some pkt) ->
  zlen pkt <= rx_bufSize (rx_par r) /\ slice (Addr d') (Addr d' + zlen pkt) (blit (Addr d) p (xn_Region n)) = Some pkt.
Proof using Hsep.
  intros Hn Hd Hp i d' pkt Hi Hd' Hs. destruct (di_data _ _ _ _ _ _ _ _ _ Hn i d' pkt Hi Hd' Hs) as [Hl E]. split; [done|].
  assert (Ha : forall x m, out !! m = Some x -> map Addr out !! m = Some (Addr x)) by (intros x m Hx; by rewrite list_lookup_fmap, Hx).
  pose proof (separate_cross _ _ _ _ _ _ _ Hsep (Ha _ _ Hd) (Ha _ _ Hd') ltac:(lia)) as Hx.
  destruct (Hsep) as (_ & Hin & _). rewrite Forall_lookup in Hin. pose proof (Hin _ _ (Ha _ _ Hd)) as Hb.
  pose proof (di_region _ _ _ _ _ _ _ _ _ Hn). rewrite slice_blit_disjoint; [done|lia|lia|lia].
Qed.

(** Landing a packet and reporting it. *)
Lemma deliver_report D n sent d p (o : option (list Z)) :
  dev_inv k j lkey C D out (rx_par r) sent n -> out !! Z.to_nat (D - C) = Some d -> zlen p <= rx_bufSize (rx_par r) ->
  o = None \/ o = Some p ->
  exists n1 n2, land_packet (Addr d) p n = Some n1 /\ xn_delivered n1 = xn_delivered n + 1 /\ xn_FailEvery n1 = xn_FailEvery n /\
    xn_writeCompletion rx_mem (D mod 2 ^ k) (outcome_opcode o) (outcome_len o) n1 = Some n2 /\
    dev_inv k j lkey C (D + 1) out (rx_par r) (sent ++ [o]) n2 /\
    xn_delivered n2 = xn_delivered n + 1 /\ xn_FailEvery n2 = xn_FailEvery n.
Proof using Hr Hk HC Hsep.
  intros Hn Hd Hp Ho. pose proof (data_kept D n sent d p Hn Hd Hp) as Hkept. destruct (Hn) as [N1 N2 N3 N4 N5 N6 [hdr N7] [N8 N8'] N9 N10 N11 N12 N13 N14 N15].
  pose proof (ri_par _ _ _ _ _ _ _ Hr) as Hpar. pose proof (rx_pow _ _ _ Hpar) as Hpow. pose proof (rp_buf _ _ _ Hpar) as Hbuf.
  pose proof (lookup_lt_Some _ _ _ Hd) as Hlt. pose proof (ri_room _ _ _ _ _ _ _ Hr) as Hroom. pose proof (zlen_nonneg p).
  destruct (Hsep) as (_ & Hin & _). rewrite Forall_lookup in Hin.
  assert (Hb : 0 <= Addr d /\ Addr d + rx_bufSize (rx_par r) <= rx_regionLen (rx_par r)).
  { apply (Hin (Z.to_nat (D - C))). by rewrite list_lookup_fmap, Hd. }
  assert (Hent : Entries (xn_cq n) = 2 ^ j) by (destruct N6 as (_ & _ & -> & _); done).
  assert (Hkj : 2 ^ k <= 2 ^ j) by (apply Z.pow_le_mono_r; [lia|]; pose proof (rp_j _ _ _ Hpar); lia).
  unfold land_packet. rewrite copy_at_Some by lia. cbn [mbind option_bind].
  replace (Z.min (zlen p) (zlen (xn_Region n) - Addr d)) with (zlen p) by lia.
  rewrite firstn_all2 by (unfold zlen; lia). set (n1 := mkRxNIC _ _ _ _ _ _ _ _ _ _ _ _ _ _).
  assert (HDC : 0 <= D - C < Entries (xn_cq n1)) by (change (xn_cq n1) with (xn_cq n); rewrite Hent; unfold zlen in *; lia).
  assert (Hol : 0 <= outcome_len o < 2 ^ 32) by (destruct Ho as [-> | ->]; simpl; lia).
  assert (Hoo : 0 <= outcome_opcode o < 16) by (destruct o; vm_compute; split; congruence).
  destruct (xn_writeCompletion_spec j D C rx_mem n1 N6 N4 HC HDC (D mod 2 ^ k) (outcome_opcode o) (outcome_len o) Hoo Hol)
    as (n2 & e & h & Ew & Hf & HQ & HP2 & F1 & F2). exists n1, n2. split; [done|]. split; [done|]. split; [done|]. split; [exact Ew|].
  unfold n1 in F1, F2, HQ, Hf. simpl in F1, F2, HQ, Hf. injection F1 as A1 A2 A3 A4 A5 A6 A7 A8. injection F2 as A9 A10.
  split; [|by rewrite A7, A8]. destruct (Hf) as [X1 X2 X3 X4 X5 X6 X7 X8 X9].
  assert (Hzr : zlen (blit (Addr d) p (xn_Region n)) = zlen (xn_Region n)) by (apply zlen_blit; lia).
  split; rewrite ?A1, ?A2, ?A3, ?A4, ?A5, ?A6, ?A9, ?A10, ?HQ; try done.
  - by rewrite N3, u32_add_l.
  - by apply cq_write_ok.
  - eexists. apply (cq_write_holds j _ _ _ h _ _ N6 N7); try done; [lia|]. rewrite X6. by destruct o.
  - unfold zlen in *. lia.
  - rewrite zlen_app. change (zlen [o]) with 1. lia.
  - intros i o' Hi Hs. unfold zlen in N9. destruct (decide (i = D)) as [->|Hne].
    + rewrite lookup_app_r in Hs by lia. replace (Z.to_nat D - length sent)%nat with 0%nat in Hs by lia. injection Hs as <-.
      exists e, h. rewrite (cq_write_entry j), (cq_write_load j), Z.eqb_refl by done. done.
    + rewrite lookup_app_l in Hs by lia. destruct (N10 i o' ltac:(lia) Hs) as (e' & h' & E1 & E2 & E3).
      exists e', h'. rewrite (cq_write_entry j), (cq_write_load j) by done.
      rewrite (proj2 (Z.eqb_neq (i mod 2 ^ j) _)) by (apply mod_distinct; unfold zlen in *; lia). done.
  - intros i d' pkt Hi Hd' Hs. unfold zlen in N9. destruct (decide (i = D)) as [->|Hne].
    + rewrite Hd in Hd'. injection Hd' as <-. rewrite lookup_app_r in Hs by lia.
      replace (Z.to_nat D - length sent)%nat with 0%nat in Hs by lia. injection Hs as Hs. destruct Ho as [-> | ->]; [done|].
      injection Hs as <-. split; [done|]. apply slice_blit_same; lia.
    + rewrite lookup_app_l in Hs by lia. by apply Hkept with i; [lia| |].
  - by rewrite Hzr.
Qed.

(** What becomes of a run of packets. *)
Fixpoint outcomes (every d : Z) (ps : list (list Z)) : list (option (list Z)) :=
  match ps with
  | [] => []
  | p :: ps => (if made_to_fail every (d + 1) then None else Some p) :: outcomes every (d + 1) ps
  end.

Lemma deliver_loop_spec posted : forall ps sent D n count,
  dev_inv k j lkey C D out (rx_par r) sent n -> Forall (fun p => zlen p <= rx_bufSize (rx_par r)) ps ->
  0 <= count -> posted - count = C + zlen out - D -> posted <= 2 ^ 16 ->
  exists m n', deliver_loop rx_mem posted ps count n = Some (count + Z.of_nat m, n') /\
    Z.of_nat m = Z.min (zlen ps) (C + zlen out - D) /\
    dev_inv k j lkey C (D + Z.of_nat m) out (rx_par r) (sent ++ outcomes (xn_FailEvery n) (xn_delivered n) (take m ps)) n'.
Proof using Hr Hk HC Hsep.
  induction ps as [|p ps IH]; intros sent D n count Hn Hps Hc Hcnt Hpo; cbn [deliver_loop].
  - exists 0%nat, n. rewrite !Z.add_0_r, app_nil_r. pose proof (di_range _ _ _ _ _ _ _ _ _ Hn). split_and!; try done. change (zlen (@nil (list Z))) with 0. lia.
  - pose proof (di_range _ _ _ _ _ _ _ _ _ Hn) as [Hrg1 Hrg2]. apply Forall_cons_iff in Hps as [Hp Hps]. rewrite zlen_cons. pose proof (zlen_nonneg ps).
    rewrite (u32_small count) by lia. rewrite Z.geb_leb. destruct (Z.leb_spec posted count) as [Hle|Hgt].
    { exists 0%nat, n. rewrite !Z.add_0_r, app_nil_r. split_and!; try done. lia. }
    destruct (lookup_lt_is_Some_2 out (Z.to_nat (D - C))) as [d Hd]; [unfold zlen in *; lia|].
    destruct (Hn) as [N1 N2 N3 N4 N5 N6 _ _ N9 N10 N11 N12 N13 (N14 & N14' & N14'') (N15 & N15')].
    pose proof (ri_par _ _ _ _ _ _ _ Hr) as Hpar. pose proof (rx_pow _ _ _ Hpar) as Hpow. pose proof (rp_buf _ _ _ Hpar) as Hbuf. pose proof (rp_k _ _ _ Hpar) as Hk0.
    assert (Hb : 0 <= Addr d /\ Addr d + rx_bufSize (rx_par r) <= rx_regionLen (rx_par r)).
    { destruct (Hsep) as (_ & Hin & _). rewrite Forall_lookup in Hin. apply (Hin (Z.to_nat (D - C))). by rewrite list_lookup_fmap, Hd. }
    pose proof (zlen_nonneg p). pose proof (Z.mod_pos_bound D (2 ^ k) ltac:(lia)) as Hm.
    rewrite N2, N3, u32_land_mask by lia. unfold rxStride. cbn [rx_mem xm_RQ].
    rewrite (u32_small (D mod 2 ^ k * 16)), (u32_small (_ + 4)), (u32_small (_ + 8)) by lia.
    destruct (rq_fields k j lkey C C out r (Z.to_nat (D - C)) d (D mod 2 ^ k) Hr Hd) as (-> & -> & ->);
      [f_equal; lia|done|]. cbn [mbind option_bind]. rewrite N15, Z.eqb_refl. cbn [negb].
    rewrite N14, N13, (u64_small (rx_regionVA _ + Addr d)), (u64_small (rx_regionVA _ + rx_regionLen _)), (u64_small (_ + Addr d + _)) by lia.
    rewrite (proj2 (Z.ltb_ge _ (rx_regionVA _))), Z.gtb_ltb, (proj2 (Z.ltb_ge _ (rx_regionVA _ + Addr d + _))) by lia. cbn [orb].
    rewrite (u32_small (zlen p)), Z.gtb_ltb, (proj2 (Z.ltb_ge _ (zlen p))) by lia.
    replace (rx_regionVA (rx_par r) + Addr d - rx_regionVA (rx_par r)) with (Addr d) by lia. rewrite (u64_small (Addr d)) by lia.
    set (o := if made_to_fail (xn_FailEvery n) (xn_delivered n + 1) then None else Some p).
    destruct (deliver_report D n sent d p o Hn Hd Hp) as (n1 & n2 & -> & E1 & E2 & Ew & Hn2 & E3 & E4).
    { unfold o. destruct (made_to_fail _ _); [by left|by right]. }
    cbn [mbind option_bind]. rewrite E1, E2.
    assert (Hw : (if made_to_fail (xn_FailEvery n) (xn_delivered n + 1) then xn_writeCompletion rx_mem (D mod 2 ^ k) CQERespErr 0 n1
                  else xn_writeCompletion rx_mem (D mod 2 ^ k) CQERespSend (zlen p) n1) = Some n2).
    { unfold o in Ew. by destruct (made_to_fail _ _). }
    fold rx_mem. rewrite Hw. cbn [mbind option_bind].
    destruct (IH (sent ++ [o]) (D + 1) n2 (count + 1) Hn2 Hps) as (m & n' & El & Em & Hn'); [lia|lia|lia|].
    exists (S m), n'. split; [rewrite El; do 2 f_equal; lia|]. split; [lia|].
    replace (D + Z.of_nat (S m)) with (D + 1 + Z.of_nat m) by lia. cbn [firstn take outcomes]. fold o.
    rewrite E3, E4 in Hn'. by rewrite <- app_assoc in Hn'.
Qed.

(** [Deliver] uses one buffer per packet, in order, as far as they go. *)
Lemma Deliver_spec ps sent D n :
  dev_inv k j lkey C D out (rx_par r) sent n -> Forall (fun p => zlen p <= rx_bufSize (rx_par r)) ps ->
  dbrec (rx_rqDbrec r) = u16 (C + zlen out) ->
  exists m n', Deliver rx_mem ps n = Some (Z.of_nat m, n') /\ Z.of_nat m = Z.min (zlen ps) (C + zlen out - D) /\
    dev_inv k j lkey C (D + Z.of_nat m) out (rx_par r) (sent ++ outcomes (xn_FailEvery n) (xn_delivered n) (take m ps)) n'.
Proof using Hr Hk HC Hsep.
  intros Hn Hps Hbell. pose proof (di_range _ _ _ _ _ _ _ _ _ Hn) as [Hrg1 Hrg2]. pose proof (ri_room _ _ _ _ _ _ _ Hr).
  pose proof (rx_pow _ _ _ (ri_par _ _ _ _ _ _ _ Hr)). assert (2 ^ k <= 2 ^ 15) by (apply Z.pow_le_mono_r; lia).
  unfold Deliver, postedCount. cbn [rx_mem xm_RQDbrec]. rewrite Hbell. pose proof (u16_range (C + zlen out)).
  rewrite Z.shiftr_div_pow2, (Z.div_small (u16 _)) by lia. cbn [Z.eqb negb].
  rewrite (di_ci _ _ _ _ _ _ _ _ _ Hn), (di_entries _ _ _ _ _ _ _ _ _ Hn).
  assert (E : u16 (u16 (u16 (C + zlen out)) - u16 (u32 D)) = C + zlen out - D).
  { unfold u16, u32. rewrite (mod_mod_pow2 D), Zmod_mod, <- Zminus_mod by lia. apply Z.mod_small. lia. }
  rewrite E, u32_add_l. replace (u32 (u32 (D + (C + zlen out - D)) - u32 D)) with (C + zlen out - D).
  2: { rewrite u32_sub_l, u32_sub_r. replace (D + (C + zlen out - D) - D) with (C + zlen out - D) by lia. symmetry. apply u32_small. lia. }
  rewrite Z.gtb_ltb, (proj2 (Z.ltb_ge _ _)) by lia.
  destruct (deliver_loop_spec (C + zlen out - D) ps sent D n 0 Hn Hps) as (m & n' & El & Em & Hn'); [lia|lia|lia|].
  exists m, n'. split; [exact El|]. by split.
Qed.
End deliver.

(** ** Receiving what a device reported *)

(** Buffers, what became of the packets in them, and how they come back: a
    packet with its length and both checksums found good, a failed one put
    aside. *)
Inductive receipts : list Desc -> list (option (list Z)) -> list Desc -> list Desc -> Prop :=
| receipts_nil : receipts [] [] [] []
| receipts_got d p cs ss os fs :
    receipts cs ss os fs ->
    receipts (d :: cs) (Some p :: ss) (mkDesc (Addr d) (zlen p) (Z.lor OptL3ChecksumOK OptChecksumOK) :: os) fs
| receipts_bad d cs ss os fs : receipts cs ss os fs -> receipts (d :: cs) (None :: ss) os (d :: fs).

Lemma receipts_addrs cs ss os fs : receipts cs ss os fs -> map Addr cs ≡ₚ map Addr (os ++ fs).
Proof.
  induction 1 as [|d p cs ss os fs _ IH|d cs ss os fs _ IH]; simpl; [done|by rewrite IH|].
  rewrite IH, !map_app. simpl. by rewrite Permutation_middle.
Qed.

Lemma dev_inv_next k j lkey C D d out p sent n :
  dev_inv k j lkey C D (d :: out) p sent n -> C < D -> dev_inv k j lkey (C + 1) D out p sent n.
Proof.
  intros [N1 N2 N3 N4 N5 N6 N7 [N8 N8'] N9 N10 N11 N12 N13 N14 N15] Hlt. rewrite zlen_cons in N8'. split; try done.
  - lia.
  - intros i o Hi. apply N10. lia.
  - intros i d' pkt Hi Hd'. apply N11; [lia|]. by replace (Z.to_nat (i - C)) with (S (Z.to_nat (i - (C + 1)))) by lia.
Qed.

Lemma dev_inv_drop k j lkey D p sent n : forall m C out,
  dev_inv k j lkey C D out p sent n -> C + Z.of_nat m <= D -> dev_inv k j lkey (C + Z.of_nat m) D (drop m out) p sent n.
Proof.
  induction m as [|m IH]; intros C out Hn Hm; [by rewrite Z.add_0_r, drop_0|].
  pose proof (di_range _ _ _ _ _ _ _ _ _ Hn). destruct out as [|d out]; [change (zlen (@nil Desc)) with 0 in *; lia|].
  replace (C + Z.of_nat (S m)) with (C + 1 + Z.of_nat m) by lia. simpl drop. apply IH; [|lia]. apply (dev_inv_next _ _ _ _ _ d); [done|lia].
Qed.

Section honest.
Context (k j lkey : Z).

(** Nothing pending: the completion queue reads as empty. *)
Lemma rx_round_idle C out v r sent n :
  rx_inv k j lkey C C out r -> dev_inv k j lkey C C out (rx_par r) sent n -> rx_round (xn_CQ n) v r = Some (false, v, r).
Proof.
  intros Hr [_ _ _ _ Ecq Hc [hdr Hh] [Hrg _] _ _ _ _ _ _ _]. unfold rx_round. rewrite (ri_cqci _ _ _ _ _ _ _ Hr), <- Ecq.
  pose proof (cq_pow j _ _ Hc). assert (Entries (xn_cq n) = 2 ^ j) by (destruct Hc as (_ & _ & -> & _); done).
  destruct (Owned_written j _ _ C hdr C Hc Hh) as (h & -> & Ho & _); [lia|lia|]. cbn [mbind option_bind].
  by rewrite Ho, Z.ltb_irrefl.
Qed.

(** One pending completion. *)
Lemma rx_round_pending C D d out v r sent n o :
  rx_inv k j lkey C C (d :: out) r -> dev_inv k j lkey C D (d :: out) (rx_par r) sent n -> C < D ->
  sent !! Z.to_nat C = Some o -> in_region_at (rx_par r) d ->
  exists v' r' os fs, rx_round (xn_CQ n) v r = Some (true, v', r') /\ receipts [d] [o] os fs /\
    rx_inv k j lkey (C + 1) (C + 1) out r' /\ v_out v' = v_out v ++ os /\ rx_failed r' = rx_failed r ++ fs /\
    v_got v' = v_got v + zlen os /\ v_read v' = v_read v + 1 /\ rx_dead r' = rx_dead r /\
    (rx_par r', rx_rqDbrec r', rx_cqDbrec r') = (rx_par r, rx_rqDbrec r, rx_cqDbrec r).
Proof.
  intros Hr Hn Hlt Ho [Ha0 Ha1]. destruct (Hn) as [_ _ _ _ Ecq Hc [hdr Hh] [Hrg Hrg'] Hz Hrep Hdat _ _ _ _].
  destruct (Hrep C o ltac:(lia) Ho) as (e & h & He & Hl & [X1 X2 X3 X4 X5 X6 X7 X8 X9]).
  destruct (Hr) as [Hp Hrq Hpl Hpi Hci Hcq Hroom Hw Hhd Had]. pose proof (rx_pow _ _ _ Hp) as Hpow. pose proof (rp_k _ _ _ Hp).
  unfold rx_round. cbv zeta. rewrite Hcq, <- Ecq, Hl. cbn [mbind option_bind].
  assert (Hown : Owned (xn_cq n) (u32 C) h = true) by (unfold Owned; rewrite X4, Z.eqb_refl, X6; by destruct o).
  rewrite Hown, X5, X6. cbn [negb Z.eqb CQEFormatNoData]. rewrite u32_add_l.
  set (r1 := rx_move (rx_ci r) (u32 (C + 1)) (rx_failed r) r).
  change (rx_pi r1) with (rx_pi r). change (rx_ci r1) with (rx_ci r).
  assert (Hopn : negb (outcome_opcode o =? CQERespSend) && negb (outcome_opcode o =? CQERespErr) = false) by (by destruct o).
  rewrite Hopn. assert (Hne : rx_pi r =? rx_ci r = false).
  { apply Z.eqb_neq. rewrite Hpi, Hci. rewrite zlen_cons in *. pose proof (zlen_nonneg out). unfold u32. apply not_eq_sym, mod_distinct; lia. }
  rewrite Hne, Hci, (rx_slot _ _ _ _ _ _ _ Hr), X7. pose proof (Z.mod_pos_bound C (2 ^ k) ltac:(lia)).
  rewrite (u16_small (C mod 2 ^ k)) by lia. rewrite (rp_mask _ _ _ Hp), land_ones_mod, Zmod_mod, Z.eqb_refl by lia. cbn [negb].
  assert (Hi1 : rx_inv k j lkey C (C + 1) (d :: out) r1) by (by apply (rx_inv_move k j lkey C C (C + 1) (d :: out) r r1 (rx_failed r))).
  unfold rx_consume. change (rx_posted r1) with (rx_posted r). rewrite <- Hpl. rewrite get_at_cell by lia. cbn [mbind option_bind].
  simpl length in Hw. rewrite window_front in Hw. injection Hw as Hd _. rewrite Hd.
  set (r2 := rx_move (u32 (rx_ci r1 + 1)) (rx_cqci r1) (rx_failed r1) r1). change (rx_par r2) with (rx_par r).
  rewrite (proj2 (Z.leb_le 0 (Addr d)) Ha0), (proj2 (Z.ltb_lt _ _) Ha1). cbn [andb negb].
  assert (Hpop : forall r', (rx_par r', rx_rq r', rx_posted r', rx_pi r') = (rx_par r1, rx_rq r1, rx_posted r1, rx_pi r1) ->
    rx_ci r' = u32 (C + 1) -> rx_cqci r' = u32 (C + 1) -> rx_inv k j lkey (C + 1) (C + 1) out r').
  { intros r' E1 E2 E3. by eapply (rx_inv_pop k j lkey C (C + 1) d out r1 r' Hi1). }
  assert (Hci2 : rx_ci r2 = u32 (C + 1)) by (unfold r2; simpl; by rewrite Hci, u32_add_l).
  destruct o as [pkt|]; simpl outcome_opcode.
  - change (CQERespSend =? CQERespErr) with false. cbv iota.
    assert (Hq2 : u32 (rx_cqci r2 - 1) = u32 C) by (unfold r2, r1; simpl; rewrite u32_sub_l; f_equal; lia).
    rewrite Hq2, <- Ecq, He. cbn [mbind option_bind]. rewrite X8. cbn [mbind option_bind].
    destruct (Hdat C d pkt ltac:(lia)) as [Hlen _]; [by rewrite Z.sub_diag|done|].
    simpl outcome_len. rewrite Z.gtb_ltb, (proj2 (Z.ltb_ge _ (zlen pkt))) by lia.
    unfold rx_accept. rewrite X9. cbn [mbind option_bind v_ts].
    assert (Hts : exists ts, (match v_ts v with None => Some None | Some ts => t ← Timestamp e; Some (Some (ts ++ [t])) end) = Some ts).
    { destruct (v_ts v); [|by eexists]. unfold Timestamp, get_be, cqeTimestamp. rewrite slice_Some by (change (Z.of_nat 8) with 8; lia). by eexists. }
    destruct Hts as [ts ->]. cbn [mbind option_bind]. eexists _, r2, [_], []. split; [done|]. split; [by repeat constructor|].
    split; [by apply Hpop|]. rewrite app_nil_r. split_and!; try done.
  - change (CQERespErr =? CQERespErr) with true. cbv iota. eexists _, _, [], [d]. split; [done|]. split; [by repeat constructor|].
    split; [by apply Hpop|]. rewrite app_nil_r. split_and!; try done. simpl. change (zlen (@nil Desc)) with 0. lia.
Qed.

Lemma receipts_app cs ss os fs cs' ss' os' fs' :
  receipts cs ss os fs -> receipts cs' ss' os' fs' -> receipts (cs ++ cs') (ss ++ ss') (os ++ os') (fs ++ fs').
Proof. intros H H'. induction H; simpl; [done|by constructor|by constructor]. Qed.

Lemma rx_loop_honest max sent n D : forall fuel C out v r,
  rx_inv k j lkey C C out r -> dev_inv k j lkey C D out (rx_par r) sent n -> Forall (in_region_at (rx_par r)) out ->
  D - C < Z.of_nat fuel ->
  exists m v' r' os fs, rx_loop fuel max (xn_CQ n) v r = Some (v', r') /\ C + Z.of_nat m <= D /\
    receipts (take m out) (take m (drop (Z.to_nat C) sent)) os fs /\
    rx_inv k j lkey (C + Z.of_nat m) (C + Z.of_nat m) (drop m out) r' /\ v_out v' = v_out v ++ os /\
    rx_failed r' = rx_failed r ++ fs /\ v_got v' = v_got v + zlen os /\ v_read v' = v_read v + Z.of_nat m /\ rx_dead r' = rx_dead r /\
    (rx_par r', rx_rqDbrec r', rx_cqDbrec r') = (rx_par r, rx_rqDbrec r, rx_cqDbrec r) /\
    (C + Z.of_nat m = D \/ max <= v_got v').
Proof.
  induction fuel as [|fuel IH]; intros C out v r Hr Hn Hreg Hfuel; cbn [rx_loop].
  - pose proof (di_range _ _ _ _ _ _ _ _ _ Hn). lia.
  - assert (Hstop : (C = D \/ max <= v_got v) -> exists m v' r' os fs, Some (v, r) = Some (v', r') /\ C + Z.of_nat m <= D /\
      receipts (take m out) (take m (drop (Z.to_nat C) sent)) os fs /\
      rx_inv k j lkey (C + Z.of_nat m) (C + Z.of_nat m) (drop m out) r' /\ v_out v' = v_out v ++ os /\
      rx_failed r' = rx_failed r ++ fs /\ v_got v' = v_got v + zlen os /\ v_read v' = v_read v + Z.of_nat m /\ rx_dead r' = rx_dead r /\
      (rx_par r', rx_rqDbrec r', rx_cqDbrec r') = (rx_par r, rx_rqDbrec r, rx_cqDbrec r) /\ (C + Z.of_nat m = D \/ max <= v_got v')).
    { intros Hor. pose proof (di_range _ _ _ _ _ _ _ _ _ Hn). exists 0%nat, v, r, [], [].
      rewrite !take_0, drop_0, !app_nil_r, ?Z.add_0_r. change (zlen (@nil Desc)) with 0. split_and!; try done; first [lia|constructor]. }
    destruct (Z.ltb_spec (v_got v) max) as [Hlt|Hge]; cbn [negb]; [|apply Hstop; by right].
    destruct (decide (C = D)) as [->|HCD].
    { rewrite (rx_round_idle D out v r sent n Hr Hn). cbn [mbind option_bind]. apply Hstop. by left. }
    pose proof (di_range _ _ _ _ _ _ _ _ _ Hn) as [Hrg1 Hrg2]. pose proof (di_sent _ _ _ _ _ _ _ _ _ Hn) as Hz.
    destruct out as [|d out]; [change (zlen (@nil Desc)) with 0 in *; lia|].
    destruct (lookup_lt_is_Some_2 sent (Z.to_nat C)) as [o Ho]; [unfold zlen in *; lia|].
    apply Forall_cons_iff in Hreg as [Hd Hreg].
    destruct (rx_round_pending C D d out v r sent n o Hr Hn ltac:(lia) Ho Hd) as (v1 & r1 & os1 & fs1 & -> & Hrc1 & Hr1 & E1 & E2 & E3 & E4 & E5 & E6).
    cbn [mbind option_bind]. injection E6 as P1 P2 P3.
    destruct (IH (C + 1) out v1 r1 Hr1) as (m & v' & r' & os & fs & El & Hm & Hrc & Hr' & F1 & F2 & F3 & F4 & F5 & F6 & F7).
    { rewrite P1. apply (dev_inv_next _ _ _ _ _ d); [done|lia]. }
    { by rewrite P1. }
    { lia. }
    exists (S m), v', r', (os1 ++ os), (fs1 ++ fs). split; [done|]. split; [lia|]. split.
    { rewrite (drop_S _ _ _ Ho). simpl take. replace (S (Z.to_nat C)) with (Z.to_nat (C + 1)) by lia. exact (receipts_app _ _ _ _ _ _ _ _ Hrc1 Hrc). }
    replace (C + Z.of_nat (S m)) with (C + 1 + Z.of_nat m) by lia. split; [done|]. rewrite F1, E1, F2, E2, F3, E3, zlen_app, !app_assoc, F5, E5.
    split_and!; try done; try lia; try (rewrite F6; congruence).
Qed.

(** [receive] gives back, in order, what the device reported, and stops only
    when it has [max] packets or nothing is left to read. *)
Lemma receive_honest max C D out r sent n o ts :
  rx_inv k j lkey C C out r -> dev_inv k j lkey C D out (rx_par r) sent n -> Forall (in_region_at (rx_par r)) out ->
  rx_dead r = None -> 0 < max -> dbrec (rx_cqDbrec r) mod 2 ^ 24 = C mod 2 ^ 24 ->
  exists m os ts' r', receive max (xn_CQ n) o ts r = Some (o ++ os, ts', r') /\ C + Z.of_nat m <= D /\
    receipts (take m out) (take m (drop (Z.to_nat C) sent)) os (Failed r') /\
    rx_inv k j lkey (C + Z.of_nat m) (C + Z.of_nat m) (drop m out) r' /\
    dev_inv k j lkey (C + Z.of_nat m) D (drop m out) (rx_par r') sent n /\ rx_dead r' = None /\
    dbrec (rx_cqDbrec r') mod 2 ^ 24 = (C + Z.of_nat m) mod 2 ^ 24 /\
    (rx_par r', rx_rqDbrec r') = (rx_par r, rx_rqDbrec r) /\ (C + Z.of_nat m = D \/ max <= zlen os).
Proof.
  intros Hr Hn Hreg Hdead Hmax HC. unfold receive. set (r0 := rx_move _ _ [] r).
  assert (Hr0 : rx_inv k j lkey C C out r0) by (by eapply rx_inv_same; [| |exact Hr]).
  change (rx_dead r0) with (rx_dead r). rewrite Hdead, (proj2 (Z.leb_gt max 0)) by lia. cbn [orb].
  pose proof (di_range _ _ _ _ _ _ _ _ _ Hn) as [Hrg1 Hrg2]. pose proof (ri_room _ _ _ _ _ _ _ Hr). pose proof (ri_par _ _ _ _ _ _ _ Hr) as Hp.
  assert (Hkj : 2 ^ k <= 2 ^ j) by (apply Z.pow_le_mono_r; [lia|]; pose proof (rp_j _ _ _ Hp); lia).
  destruct (rx_loop_honest max sent n D (rx_fuel r0) C out (mkReceiving o ts 0 0 0) r0 Hr0 Hn Hreg) as
    (m & v & r1 & os & fs & -> & Hm & Hrc & Hr1 & E1 & E2 & E3 & E4 & E5 & E6 & E7).
  { unfold rx_fuel, Entries. change (rx_par r0) with (rx_par r). rewrite (rp_cq _ _ _ Hp). simpl. lia. }
  cbn [mbind option_bind]. injection E6 as P1 P2 P3. simpl in E1, E2, E3, E4, P1, P2, P3. change (rx_dead r0) with (rx_dead r) in E5. rewrite Hdead in E5. unfold Failed.
  pose proof (dev_inv_drop _ _ _ _ _ _ _ m C out Hn Hm) as Hn1.
  assert (Hfin : C + Z.of_nat m = D \/ max <= zlen os) by (destruct E7; [by left|right; lia]).
  rewrite Z.add_0_l in E4. rewrite E4. destruct (Z.eqb_spec (Z.of_nat m) 0) as [Em|Em].
  - assert (m = 0%nat) as -> by lia. eexists 0%nat, os, _, _. split; [by rewrite E1|]. split; [done|].
    assert (Hs : exists r2, r2 = (if rx_pi r1 =? rx_ci r1 then Rx_Sync r1 else r1) /\ rx_failed r2 = fs /\
      rx_inv k j lkey (C + Z.of_nat 0) (C + Z.of_nat 0) (drop 0 out) r2 /\ rx_dead r2 = None /\
      (rx_par r2, rx_rqDbrec r2, rx_cqDbrec r2) = (rx_par r, rx_rqDbrec r, rx_cqDbrec r)).
    { eexists. split; [done|]. destruct (rx_pi r1 =? rx_ci r1); simpl.
      - split; [done|]. split; [by eapply rx_inv_same; [| |exact Hr1]|]. split; [done|]. by rewrite P1, P2, P3.
      - split; [done|]. split; [done|]. split; [done|]. by rewrite P1, P2, P3. }
    destruct Hs as (r2 & <- & S1 & S2 & S3 & [= S4 S5 S6]). rewrite S1, S4, S5, S6, Z.add_0_r. rewrite Z.add_0_r in *. by split_and!.
  - eexists m, os, _, _. split; [by rewrite E1|]. split; [done|]. simpl. rewrite E2. simpl. split; [done|].
    split; [by eapply rx_inv_same; [| |exact Hr1]|]. rewrite P1, P2. split_and!; try done.
    rewrite (ri_cqci _ _ _ _ _ _ _ Hr1). change 0xffffff with (2 ^ 24 - 1). rewrite u32_land_mask by lia.
    unfold dbrec. rewrite be32_native_index; [by rewrite Zmod_mod|]. pose proof (Z.mod_pos_bound (C + Z.of_nat m) (2 ^ 24)). lia.
Qed.
End honest.
