(* ===== verification/RingRxClaims.v ===== *)
(** The receive ring, the device model and an application, as a system of
    steps over the memory they share. *)

From stdpp Require Import prelude list numbers strings.
From S2P Require Import Prelude Circ Bytes Desc Sq Cqe MockNic RingRx RingRxInv RingRxDevice.

(** [y_filled] logs what [Fill] took, [y_ret] what [receive] gave back, failed
    buffers included, [y_sent] what became of every packet the device took, and
    [y_got] the bytes the application found in the packets it received. *)
Record rsys : Set := mkRsys {
  y_rx : Rx; y_nic : RxNIC; y_filled : list Desc; y_ret : list Desc; y_sent : list (option (list Z)); y_got : list (list Z)
}.

(** The bytes a descriptor names. *)
Definition bytes_of (region : list Z) (d : Desc) : list Z := default [] (slice (Addr d) (Addr d + Len d) region).

(** The addresses the application has filled and not got back. *)
Definition held (y : rsys) (addrs : list Z) : Prop := map Addr (y_filled y) ≡ₚ map Addr (y_ret y) ++ addrs.

(** The knobs of the device model, and its memory as the application leaves
    it. *)
Definition xn_tune (every ticks : Z) (n : RxNIC) : RxNIC :=
  mkRxNIC (xn_RegionVA n) (xn_LKey n) (xn_cq n) (xn_entries n) (xn_mask n) (xn_ci n) (xn_cqPi n) every
    (xn_delivered n) ticks (xn_clock n) (xn_Violations n) (xn_CQ n) (xn_Region n).
Definition xn_store (region : list Z) (n : RxNIC) : RxNIC :=
  mkRxNIC (xn_RegionVA n) (xn_LKey n) (xn_cq n) (xn_entries n) (xn_mask n) (xn_ci n) (xn_cqPi n) (xn_FailEvery n)
    (xn_delivered n) (xn_TicksPerPacket n) (xn_clock n) (xn_Violations n) (xn_CQ n) region.

Inductive rstep : rsys -> rsys -> Prop :=
| rstep_fill r n lf lr ls lg descs addrs m r' :
    held (mkRsys r n lf lr ls lg) addrs ->
    separate (rx_bufSize (rx_par r)) (rx_regionLen (rx_par r)) (addrs ++ map Addr descs) ->
    Fill descs r = Some (m, r') ->
    rstep (mkRsys r n lf lr ls lg) (mkRsys r' n (lf ++ take (Z.to_nat m) descs) lr ls lg)
| rstep_deliver r n lf lr ls lg ps m n' :
    Forall (fun p => zlen p <= rx_bufSize (rx_par r)) ps -> Deliver (rx_mem r) ps n = Some (m, n') ->
    rstep (mkRsys r n lf lr ls lg)
      (mkRsys r n' lf lr (ls ++ outcomes (xn_FailEvery n) (xn_delivered n) (take (Z.to_nat m) ps)) lg)
| rstep_receive r n lf lr ls lg max out ts r' :
    0 < max -> receive max (xn_CQ n) [] None r = Some (out, ts, r') ->
    rstep (mkRsys r n lf lr ls lg) (mkRsys r' n lf (lr ++ out ++ Failed r') ls (lg ++ map (bytes_of (xn_Region n)) out))
| rstep_app r n lf lr ls lg addrs region :
    held (mkRsys r n lf lr ls lg) addrs -> zlen region = zlen (xn_Region n) ->
    (forall a, a ∈ addrs -> forall lo hi, a <= lo -> hi <= a + rx_bufSize (rx_par r) -> slice lo hi region = slice lo hi (xn_Region n)) ->
    rstep (mkRsys r n lf lr ls lg) (mkRsys r (xn_store region n) lf lr ls lg)
| rstep_tune r n lf lr ls lg every ticks :
    rstep (mkRsys r n lf lr ls lg) (mkRsys r (xn_tune every ticks n) lf lr ls lg).

Inductive rreach (cfg : RxConfig) (region : list Z) : rsys -> Prop :=
| rreach_init r n :
    NewRx cfg = Some (Ok r) ->
    NewRxNIC (rcfg_RegionVA cfg) (rcfg_LKey cfg) region (rcfg_RQ cfg) (rcfg_CQ cfg) = Some (Ok n) ->
    rreach cfg region (mkRsys r n [] [] [] [])
| rreach_step y y' : rreach cfg region y -> rstep y y' -> rreach cfg region y'.

(** ** The invariant *)

Record rsys_inv (k j lkey C D : Z) (out : list Desc) (y : rsys) : Prop := {
  yi_rx : rx_inv k j lkey C C out (y_rx y);
  yi_k : k <= 15;
  yi_dead : rx_dead (y_rx y) = None;
  yi_dev : dev_inv k j lkey C D out (rx_par (y_rx y)) (y_sent y) (y_nic y);
  yi_bell : dbrec (rx_rqDbrec (y_rx y)) = u16 (C + zlen out);
  yi_cqbell : dbrec (rx_cqDbrec (y_rx y)) mod 2 ^ 24 = C mod 2 ^ 24;
  yi_sep : separate (rx_bufSize (rx_par (y_rx y))) (rx_regionLen (rx_par (y_rx y))) (map Addr out);
  yi_held : held y (map Addr out);
  yi_got : y_got y = omap id (take (Z.to_nat C) (y_sent y))
}.

Lemma separate_in p l d : separate (rx_bufSize p) (rx_regionLen p) (map Addr l) -> d ∈ l -> 0 < rx_bufSize p -> in_region_at p d.
Proof.
  intros (_ & Hf & _) Hd Hb. rewrite Forall_forall in Hf. specialize (Hf (Addr d) ltac:(by apply list_elem_of_fmap_2)). unfold in_region_at. lia.
Qed.

Lemma held_unique y l l' : held y l -> held y l' -> l ≡ₚ l'.
Proof. unfold held. intros H H'. rewrite H in H'. by apply Permutation_app_inv_l in H'. Qed.

(** What the application reads in the packets [receive] gave it. *)
Lemma receipts_bytes region cs ss os fs :
  receipts cs ss os fs ->
  (forall i d p, cs !! i = Some d -> ss !! i = Some (Some p) -> slice (Addr d) (Addr d + zlen p) region = Some p) ->
  map (bytes_of region) os = omap id ss.
Proof.
  induction 1 as [|d p cs ss os fs _ IH|d cs ss os fs _ IH]; intros H; simpl; [done| |].
  - rewrite (IH (fun i d' p' H1 H2 => H (S i) d' p' H1 H2)). unfold bytes_of at 1. simpl. by rewrite (H 0%nat d p eq_refl eq_refl).
  - apply IH. intros i d' p' H1 H2. by apply (H (S i)).
Qed.

Section steps.
Context (k j lkey C D : Z) (out : list Desc) (y : rsys) (Hy : rsys_inv k j lkey C D out y).

Lemma yinv_fill addrs descs m r' :
  held y addrs -> separate (rx_bufSize (rx_par (y_rx y))) (rx_regionLen (rx_par (y_rx y))) (addrs ++ map Addr descs) ->
  Fill descs (y_rx y) = Some (m, r') ->
  rsys_inv k j lkey C D (out ++ take (Z.to_nat m) descs)
    (mkRsys r' (y_nic y) (y_filled y ++ take (Z.to_nat m) descs) (y_ret y) (y_sent y) (y_got y)).
Proof using Hy.
  intros Hh Hs E. destruct Hy as [Hr Hk Hd Hn Hb Hcb Hsep Hhd Hg].
  destruct (Fill_spec _ _ _ _ _ _ _ descs Hr) as (r1 & E1 & Hr1 & Hbell & Hsame & Hp). cbv zeta in *. rewrite E in E1. injection E1 as Em <-.
  rewrite <- Em in *. injection Hp as P1 P2 P3 P4. set (new := take (Z.to_nat m) descs) in *.
  split; simpl; rewrite ?P1, ?P2, ?P4; try done.
  - destruct Hn as [N1 N2 N3 N4 N5 N6 N7 [N8 N8'] N9 N10 N11 N12 N13 N14 N15]. split; try done.
    + rewrite zlen_app. pose proof (zlen_nonneg new). lia.
    + intros i d pkt Hi Hd'. apply N11; [done|]. rewrite lookup_app_l in Hd' by (unfold zlen in *; lia). done.
  - destruct Hbell as [E0 | ->].
    + rewrite (Hsame E0), Hb. unfold new. rewrite E0, take_0, app_nil_r. done.
    + unfold dbrec. apply be32_native_index. pose proof (u16_range (C + zlen (out ++ new))). lia.
  - rewrite (held_unique _ _ _ Hh Hhd) in Hs. rewrite map_app. unfold new. rewrite <- (take_drop (Z.to_nat m) descs), map_app, app_assoc in Hs.
    rewrite Permutation_app_comm in Hs. by apply separate_app_r in Hs.
  - unfold held in *. simpl. by rewrite !map_app, Hhd, app_assoc.
Qed.

Lemma yinv_deliver ps m n' :
  Forall (fun p => zlen p <= rx_bufSize (rx_par (y_rx y))) ps -> Deliver (rx_mem (y_rx y)) ps (y_nic y) = Some (m, n') ->
  exists D', rsys_inv k j lkey C D' out (mkRsys (y_rx y) n' (y_filled y) (y_ret y)
    (y_sent y ++ outcomes (xn_FailEvery (y_nic y)) (xn_delivered (y_nic y)) (take (Z.to_nat m) ps)) (y_got y)).
Proof using Hy.
  intros Hps E. destruct Hy as [Hr Hk Hd Hn Hb Hcb Hsep Hhd Hg].
  destruct (Deliver_spec _ _ _ _ _ _ Hr Hk Hcb Hsep ps _ D _ Hn Hps Hb) as (m' & n1 & E1 & Hm & Hn1).
  rewrite E in E1. injection E1 as -> <-. rewrite Nat2Z.id. exists (D + Z.of_nat m'). split; simpl; try done.
  rewrite take_app_le; [done|]. pose proof (di_range _ _ _ _ _ _ _ _ _ Hn). pose proof (di_sent _ _ _ _ _ _ _ _ _ Hn). unfold zlen in *. lia.
Qed.

Lemma yinv_receive max o ts r' :
  0 < max -> receive max (xn_CQ (y_nic y)) [] None (y_rx y) = Some (o, ts, r') ->
  exists m, rsys_inv k j lkey (C + Z.of_nat m) D (drop m out)
    (mkRsys r' (y_nic y) (y_filled y) (y_ret y ++ o ++ Failed r') (y_sent y) (y_got y ++ map (bytes_of (xn_Region (y_nic y))) o)) /\
    (C + Z.of_nat m = D \/ max <= zlen o).
Proof using Hy.
  intros Hmax E. destruct Hy as [Hr Hk Hd Hn Hb Hcb Hsep Hhd Hg].
  assert (Hreg : Forall (in_region_at (rx_par (y_rx y))) out).
  { apply Forall_forall. intros d Hin. eapply separate_in; [done|done|]. pose proof (rp_buf _ _ _ (ri_par _ _ _ _ _ _ _ Hr)). lia. }
  destruct (receive_honest k j lkey max C D out _ _ _ [] None Hr Hn Hreg Hd Hmax Hcb) as
    (m & os & ts' & r1 & E1 & Hm & Hrc & Hr1 & Hn1 & Hd1 & Hcb1 & Hsame & Hfin).
  rewrite E in E1. injection E1 as -> _ <-. injection Hsame as P1 P2. exists m. split; [|done]. split; simpl; rewrite ?P1, ?P2; try done.
  - by rewrite <- P1.
  - rewrite Hb. f_equal. pose proof (di_range _ _ _ _ _ _ _ _ _ Hn). unfold zlen in *. rewrite length_drop. lia.
  - rewrite <- (take_drop m out), map_app in Hsep. by apply separate_app_r in Hsep.
  - unfold held in *. simpl. rewrite Hhd. rewrite map_app, <- app_assoc. f_equiv. rewrite <- (receipts_addrs _ _ _ _ Hrc).
    by rewrite <- map_app, take_drop.
  - rewrite Hg. pose proof (di_range _ _ _ _ _ _ _ _ _ Hn) as [HC0 _]. replace (Z.to_nat (C + Z.of_nat m)) with (Z.to_nat C + m)%nat by lia.
    rewrite <- take_take_drop, omap_app. f_equal. eapply receipts_bytes; [exact Hrc|].
    intros i d p Hi Hs. apply lookup_take_Some in Hi as [Hi Hlt]. apply lookup_take_Some in Hs as [Hs _]. rewrite lookup_drop in Hs.
    apply (di_data _ _ _ _ _ _ _ _ _ Hn (C + Z.of_nat i)); [lia| |].
    + by replace (Z.to_nat (C + Z.of_nat i - C)) with i by lia.
    + by replace (Z.to_nat (C + Z.of_nat i)) with (Z.to_nat C + i)%nat by lia.
Qed.

Lemma yinv_app addrs region :
  held y addrs -> zlen region = zlen (xn_Region (y_nic y)) ->
  (forall a, a ∈ addrs -> forall lo hi, a <= lo -> hi <= a + rx_bufSize (rx_par (y_rx y)) ->
     slice lo hi region = slice lo hi (xn_Region (y_nic y))) ->
  rsys_inv k j lkey C D out (mkRsys (y_rx y) (xn_store region (y_nic y)) (y_filled y) (y_ret y) (y_sent y) (y_got y)).
Proof using Hy.
  intros Hh Hz Hsl. destruct Hy as [Hr Hk Hd Hn Hb Hcb Hsep Hhd Hg]. split; simpl; try done.
  destruct Hn as [N1 N2 N3 N4 N5 N6 N7 N8 N9 N10 N11 N12 N13 N14 N15]. split; simpl; try done; [|congruence].
  intros i d pkt Hi Hd' Hs. destruct (N11 i d pkt Hi Hd' Hs) as [Hl <-]. split; [done|].
  apply (Hsl (Addr d)); [|lia|lia]. rewrite (held_unique _ _ _ Hh Hhd). apply list_elem_of_fmap_2. by eapply list_elem_of_lookup_2.
Qed.

Lemma yinv_tune every ticks :
  rsys_inv k j lkey C D out (mkRsys (y_rx y) (xn_tune every ticks (y_nic y)) (y_filled y) (y_ret y) (y_sent y) (y_got y)).
Proof using Hy. destruct Hy as [Hr Hk Hd Hn Hb Hcb Hsep Hhd Hg]. split; simpl; try done. by destruct Hn. Qed.
End steps.

Lemma rinit_inv cfg region r n :
  rx_cfg_ok cfg -> zlen (rcfg_RQ cfg) <= 2 ^ 19 -> zlen region = rcfg_regionLen cfg -> 0 <= rcfg_LKey cfg < 2 ^ 32 ->
  0 <= rcfg_RegionVA cfg -> rcfg_RegionVA cfg + rcfg_regionLen cfg < 2 ^ 64 ->
  NewRx cfg = Some (Ok r) ->
  NewRxNIC (rcfg_RegionVA cfg) (rcfg_LKey cfg) region (rcfg_RQ cfg) (rcfg_CQ cfg) = Some (Ok n) ->
  exists k j, rsys_inv k j (rcfg_LKey cfg) 0 0 [] (mkRsys r n [] [] [] []).
Proof.
  intros Hcfg Hsz Hreg Hlk Hva Hva' Er En. destruct (NewRx_inv cfg r Hcfg Er) as (k & j & Hr & Hc & Hz & Hd & Hb1 & Hb2 & Hl & Hv & Hbs).
  pose proof (rx_pow _ _ _ (ri_par _ _ _ _ _ _ _ Hr)) as Hpow. pose proof (rp_k _ _ _ (ri_par _ _ _ _ _ _ _ Hr)) as Hk0.
  assert (Hk : k <= 15).
  { destruct (decide (k <= 15)); [done|]. assert (2 ^ 16 <= 2 ^ k) by (apply Z.pow_le_mono_r; lia). lia. }
  unfold NewRxNIC in En. destruct (NewCQ (rcfg_CQ cfg) CQESize) as [c|] eqn:Ec; [|done].
  assert (c = rx_cq (rx_par r)) as ->.
  { unfold NewRx in Er. rewrite Ec in Er. repeat case_if_in Er; try done.
    destruct (prefill _ _ _ _ _); [|done]. cbn [mbind option_bind] in Er. by injection Er as <-. }
  case_if_in En; [done|]. destruct (invalidate _ _ _) as [q|] eqn:Eq; [|done]. cbn [mbind option_bind] in En. injection En as <-.
  destruct (invalidated_fresh j _ _ _ Hc Eq) as [Hc' Hfresh]. unfold rxStride.
  assert (Hen : u32 (zlen (rcfg_RQ cfg) / 16) = 2 ^ k) by (rewrite Hz, Z.mul_comm, Z.div_mul by lia; apply u32_small; lia).
  exists k, j. rewrite Hen, (u32_small (2 ^ k - 1)) by lia. split; simpl; try done.
  - split; simpl; rewrite ?Hv, ?Hl; try done; try lia.
    exists (fun _ => 0). split; intros i Hi0 Hi; [lia|apply Hfresh].
  - by rewrite Hb1.
  - by rewrite Hb2.
  - split; [constructor|]. split; [constructor|]. intros a b Ha. by apply not_elem_of_nil in Ha.
  - unfold held. done.
Qed.

Lemma rreach_inv cfg region y :
  rx_cfg_ok cfg -> zlen (rcfg_RQ cfg) <= 2 ^ 19 -> zlen region = rcfg_regionLen cfg -> 0 <= rcfg_LKey cfg < 2 ^ 32 ->
  0 <= rcfg_RegionVA cfg -> rcfg_RegionVA cfg + rcfg_regionLen cfg < 2 ^ 64 -> rreach cfg region y ->
  exists k j C D out, rsys_inv k j (rcfg_LKey cfg) C D out y.
Proof.
  intros Hcfg Hsz Hreg Hlk Hva Hva'. induction 1 as [r n Er En|y y' _ (k & j & C & D & out & Hy) Hstep].
  - destruct (rinit_inv cfg region r n Hcfg Hsz Hreg Hlk Hva Hva' Er En) as (k & j & Hy). by exists k, j, 0, 0, [].
  - destruct Hstep as [r n lf lr ls lg descs addrs m r' Hh Hs E|r n lf lr ls lg ps m n' Hps E|r n lf lr ls lg max o ts r' Hm E
                      |r n lf lr ls lg addrs reg Hh Hz Hsl|r n lf lr ls lg every ticks].
    + pose proof (yinv_fill _ _ _ _ _ _ _ Hy addrs descs m r' Hh Hs E). eauto 10.
    + destruct (yinv_deliver _ _ _ _ _ _ _ Hy ps m n' Hps E) as [D' H]. eauto 10.
    + destruct (yinv_receive _ _ _ _ _ _ _ Hy max o ts r' Hm E) as (m & H & _). eauto 10.
    + pose proof (yinv_app _ _ _ _ _ _ _ Hy addrs reg Hh Hz Hsl). eauto 10.
    + pose proof (yinv_tune _ _ _ _ _ _ _ Hy every ticks). eauto 10.
Qed.

(** What holds of the receive ring: the properties, each with an instance on a
    small concrete queue. *)

(** ** A concrete queue *)

(** Two buffers of 32 bytes, four completions, a region of 128 bytes. *)
Definition rexCfg : RxConfig := mkRxConfig (replicate 32 0) (replicate 256 0) true 16 9 128 4096 32.
Definition rexRegion : list Z := replicate 128 0.

Definition rexRx : Rx := Eval vm_compute in
  match NewRx rexCfg with
  | Some (Ok r) => r
  | _ => mkRx (mkRxParams 0 0 0 (mkCQ 0 0 0) 0 0 0) [] 0 0 0 0 0 [] [] None zeroRxCounters 0 (mkRxStats zeroRxCounters 0)
  end.
Definition rexNic : RxNIC := Eval vm_compute in
  match NewRxNIC 4096 9 rexRegion (rcfg_RQ rexCfg) (rcfg_CQ rexCfg) with
  | Some (Ok n) => n
  | _ => mkRxNIC 0 0 (mkCQ 0 0 0) 0 0 0 0 0 0 0 0 [] [] []
  end.
Definition rexDescs : list Desc := [mkDesc 0 0 0; mkDesc 64 0 0; mkDesc 96 0 0].
Definition rexFilled : Rx := Eval vm_compute in match Fill rexDescs rexRx with Some (_, r) => r | None => rexRx end.
Definition rexPackets : list (list Z) := [[1; 2; 3]; [4; 5]].
Definition rexDelivered : RxNIC := Eval vm_compute in match Deliver (rx_mem rexFilled) rexPackets rexNic with Some (_, n) => n | None => rexNic end.

Lemma rexCfg_ok : rx_cfg_ok rexCfg.
Proof. split; try (vm_compute; done || (split; congruence)). unfold bytes_ok. by apply Forall_replicate. Qed.

Lemma rexRx_new : NewRx rexCfg = Some (Ok rexRx).
Proof. vm_compute. reflexivity. Qed.
Lemma rexNic_new : NewRxNIC 4096 9 rexRegion (rcfg_RQ rexCfg) (rcfg_CQ rexCfg) = Some (Ok rexNic).
Proof. vm_compute. reflexivity. Qed.
Lemma rexFilled_eq : Fill rexDescs rexRx = Some (2, rexFilled).
Proof. vm_compute. reflexivity. Qed.
Lemma rexDelivered_eq : Deliver (rx_mem rexFilled) rexPackets rexNic = Some (2, rexDelivered).
Proof. vm_compute. reflexivity. Qed.

Lemma rex_separate : separate 32 128 ([] ++ map Addr rexDescs).
Proof.
  split; [|split].
  - apply (bool_decide_unpack (NoDup _)). vm_compute. exact I.
  - repeat constructor; vm_compute; congruence.
  - intros a b Ha Hb Hne. apply list_elem_of_In in Ha, Hb. simpl in Ha, Hb.
    destruct Ha as [<- | [<- | [<- | []]]], Hb as [<- | [<- | [<- | []]]]; lia.
Qed.

(** Both packets delivered, neither received. *)
Definition rexSys : rsys := mkRsys rexFilled rexDelivered ([] ++ take 2 rexDescs) [] ([] ++ outcomes 0 0 (take 2 rexPackets)) [].

Lemma rex_reach : rreach rexCfg rexRegion rexSys.
Proof.
  eapply rreach_step; [eapply rreach_step; [exact (rreach_init rexCfg rexRegion rexRx rexNic rexRx_new rexNic_new)|]|].
  - apply (rstep_fill rexRx rexNic [] [] [] [] rexDescs [] 2 rexFilled); [unfold held; done|exact rex_separate|exact rexFilled_eq].
  - apply (rstep_deliver rexFilled rexNic _ [] [] [] rexPackets 2 rexDelivered); [repeat constructor; vm_compute; congruence|exact rexDelivered_eq].
Qed.

(** ** Properties *)

(** C2: the receive path end to end, over every interleaving of [Fill],
    [Receive], deliveries by the device model and writes by an application
    that stays out of the buffers it has posted: the device finds nothing to
    complain about and the queue stays in service; every buffer posted is
    either given back exactly once or still with the device; and the bytes the
    application has found in its packets are, in order and without loss or
    corruption, those of the first packets the device took, less those made to
    fail. *)
Theorem rx_system_exact cfg region y :
  rx_cfg_ok cfg -> zlen (rcfg_RQ cfg) <= 2 ^ 19 -> zlen region = rcfg_regionLen cfg -> 0 <= rcfg_LKey cfg < 2 ^ 32 ->
  0 <= rcfg_RegionVA cfg -> rcfg_RegionVA cfg + rcfg_regionLen cfg < 2 ^ 64 -> rreach cfg region y ->
  exists out (C : nat), xn_Violations (y_nic y) = [] /\ Rx_Err (y_rx y) = None /\ Outstanding (y_rx y) = zlen out /\
    map Addr (y_filled y) ≡ₚ map Addr (y_ret y) ++ map Addr out /\
    y_got y = omap id (take C (y_sent y)) /\ (C <= length (y_sent y) <= C + length out)%nat.
Proof.
  intros Hcfg Hsz Hreg Hlk Hva Hva' Hy.
  destruct (rreach_inv cfg region y Hcfg Hsz Hreg Hlk Hva Hva' Hy) as (k & j & C & D & out & [Hr _ Hd Hn _ _ _ Hh Hg]).
  destruct Hn as [_ _ _ _ _ _ _ Hrg Hz _ _ Hv _ _ _]. exists out, (Z.to_nat C). split_and!; try done.
  - by apply (rx_outstanding _ _ _ _ _ _ _ Hr).
  - unfold zlen in *. lia.
  - unfold zlen in *. lia.
Qed.

Lemma rx_system_exact_witness :
  exists out (C : nat), xn_Violations rexDelivered = [] /\ Rx_Err rexFilled = None /\ Outstanding rexFilled = zlen out /\
    map Addr (take 2 rexDescs) ≡ₚ [] ++ map Addr out /\ [] = omap id (take C [Some [1; 2; 3]; Some [4; 5]]) /\ (C <= 2 <= C + length out)%nat.
Proof.
  refine (rx_system_exact rexCfg rexRegion rexSys rexCfg_ok _ eq_refl _ _ _ rex_reach); vm_compute; try split; congruence.
Defined.

(** C35: nothing that arrived stays behind: from any reachable state, a
    [Receive] that asks for at least as many packets as the device has taken
    brings the application every packet not made to fail. *)
Theorem receive_delivers_all cfg region y max :
  rx_cfg_ok cfg -> zlen (rcfg_RQ cfg) <= 2 ^ 19 -> zlen region = rcfg_regionLen cfg -> 0 <= rcfg_LKey cfg < 2 ^ 32 ->
  0 <= rcfg_RegionVA cfg -> rcfg_RegionVA cfg + rcfg_regionLen cfg < 2 ^ 64 -> rreach cfg region y ->
  zlen (y_sent y) < max ->
  exists out r', Receive max (xn_CQ (y_nic y)) [] (y_rx y) = Some (out, r') /\
    y_got y ++ map (bytes_of (xn_Region (y_nic y))) out = omap id (y_sent y).
Proof.
  intros Hcfg Hsz Hreg Hlk Hva Hva' Hy Hmax.
  destruct (rreach_inv cfg region y Hcfg Hsz Hreg Hlk Hva Hva' Hy) as (k & j & C & D & out & Hinv).
  pose proof (zlen_nonneg (y_sent y)). destruct (Hinv) as [Hr _ Hd Hn _ _ Hsep _ _].
  assert (Hok : exists o ts r', receive max (xn_CQ (y_nic y)) [] None (y_rx y) = Some (o, ts, r') /\ zlen o <= zlen (y_sent y)).
  { assert (Hreg' : Forall (in_region_at (rx_par (y_rx y))) out).
    { apply Forall_forall. intros d Hin. eapply separate_in; [done|done|]. pose proof (rp_buf _ _ _ (ri_par _ _ _ _ _ _ _ Hr)). lia. }
    destruct (receive_honest k j (rcfg_LKey cfg) max C D out _ _ _ [] None Hr Hn Hreg' Hd ltac:(lia) (yi_cqbell _ _ _ _ _ _ _ Hinv)) as
      (m & os & ts & r' & E & Hm & Hrc & _). exists os, ts, r'. split; [done|]. rewrite <- (di_sent _ _ _ _ _ _ _ _ _ Hn) in Hm.
    assert (G : forall cs ss o f, receipts cs ss o f -> zlen o <= zlen ss) by (induction 1; unfold zlen in *; simpl; lia).
    apply G in Hrc. rewrite zlen_take, zlen_drop in Hrc. lia. }
  destruct Hok as (o & ts & r' & E & Hle). exists o, r'. split; [unfold Receive; by rewrite E|].
  destruct (yinv_receive _ _ _ _ _ _ _ Hinv max o ts r' ltac:(lia) E) as (m & Hy' & Hfin). pose proof (yi_got _ _ _ _ _ _ _ Hy') as Hg. simpl in Hg. rewrite Hg.
  destruct Hfin as [Hfin|]; [|lia]. rewrite Hfin. pose proof (di_sent _ _ _ _ _ _ _ _ _ Hn). rewrite firstn_all2 by (unfold zlen in *; lia). done.
Qed.

Lemma receive_delivers_all_witness :
  exists out r', Receive 5 (xn_CQ rexDelivered) [] rexFilled = Some (out, r') /\
    [] ++ map (bytes_of (xn_Region rexDelivered)) out = [[1; 2; 3]; [4; 5]].
Proof.
  refine (receive_delivers_all rexCfg rexRegion rexSys 5 rexCfg_ok _ eq_refl _ _ _ rex_reach _); vm_compute; try split; congruence.
Defined.

(** C31: whatever is in the completion queue, [receive] neither panics nor
    spins and loses no buffer: those it reports on are the oldest ones, in
    order, each either handed out at its own address with a length no longer
    than a buffer or put aside for [Failed]; the rest are exactly the buffers
    the queue still counts as the device's; and no more than [max] packets
    are handed out. *)
Theorem receive_conserves k j lkey cqbuf C Q out r max o ts :
  rx_inv k j lkey C Q out r -> cq_ok j (rx_cq (rx_par r)) cqbuf -> Forall (in_region_at (rx_par r)) out ->
  exists os ts' r' n Q', receive max cqbuf o ts r = Some (o ++ os, ts', r') /\ (n <= length out)%nat /\
    rx_inv k j lkey (C + Z.of_nat n) Q' (drop n out) r' /\ handed (rx_bufSize (rx_par r)) (take n out) os (Failed r') /\
    zlen os <= Z.max 0 max /\ rx_par r' = rx_par r /\ rx_rqDbrec r' = rx_rqDbrec r.
Proof. apply receive_total. Qed.

Lemma rex_filled_inv : exists k, rx_inv k 2 9 0 0 (take 2 rexDescs) rexFilled /\ cq_ok 2 (rx_cq (rx_par rexFilled)) (xn_CQ rexDelivered).
Proof.
  destruct (NewRx_inv rexCfg rexRx rexCfg_ok rexRx_new) as (k & j & Hr & Hc & _).
  assert (Hj : j = 2) by (destruct Hc as (_ & _ & E & _); by injection E). subst j.
  destruct (Fill_spec k 2 9 0 0 [] rexRx rexDescs Hr) as (r' & HF). cbv zeta in HF. destruct HF as (E & Hi & _). rewrite rexFilled_eq in E. injection E as <-.
  exists k. split; [exact Hi|]. destruct Hc as (H1 & _ & H3 & _). split; [done|]. split; [reflexivity|]. split; [exact H3|].
  unfold bytes_ok. repeat constructor; vm_compute; congruence.
Qed.

Lemma receive_conserves_witness :
  exists k os ts' r' n Q', receive 8 (xn_CQ rexDelivered) [] None rexFilled = Some ([] ++ os, ts', r') /\ (n <= 2)%nat /\
    rx_inv k 2 9 (0 + Z.of_nat n) Q' (drop n (take 2 rexDescs)) r' /\ handed 32 (take n (take 2 rexDescs)) os (Failed r').
Proof.
  destruct rex_filled_inv as (k & Hi & Hc). exists k.
  assert (Hreg : Forall (in_region_at (rx_par rexFilled)) (take 2 rexDescs)) by (repeat constructor; vm_compute; congruence).
  destruct (receive_conserves k 2 9 (xn_CQ rexDelivered) 0 0 (take 2 rexDescs) rexFilled 8 [] None Hi Hc Hreg) as (os & ts & r' & n & Q' & H1 & H2 & H3 & H4 & _).
  exists os, ts, r', n, Q'. split; [exact H1|]. split; [exact H2|]. split; [exact H3|exact H4].
Defined.

(** [Fill] takes exactly as many buffers as there is room for, a prefix
    of the batch, behind those the device holds and without disturbing them;
    every buffer it holds is described in its entry of the receive queue, and
    the new count is published. *)
Theorem Fill_exact k j lkey C Q out r descs :
  rx_inv k j lkey C Q out r ->
  exists r', let n := Z.min (zlen descs) (Rx_FreeSlots r) in let new := take (Z.to_nat n) descs in
    Fill descs r = Some (n, r') /\ rx_inv k j lkey C Q (out ++ new) r' /\
    (n = 0 \/ rx_rqDbrec r' = be32_native (u16 (C + zlen (out ++ new)))) /\ (n = 0 -> r' = r) /\
    (rx_par r', rx_cqDbrec r', rx_failed r', rx_dead r') = (rx_par r, rx_cqDbrec r, rx_failed r, rx_dead r).
Proof. apply Fill_spec. Qed.

Lemma Fill_exact_witness :
  exists k r', let n := Z.min (zlen rexDescs) (Rx_FreeSlots rexRx) in let new := take (Z.to_nat n) rexDescs in
    Fill rexDescs rexRx = Some (n, r') /\ rx_inv k 2 9 0 0 ([] ++ new) r'.
Proof.
  destruct (NewRx_inv rexCfg rexRx rexCfg_ok rexRx_new) as (k & j & Hr & Hc & _).
  assert (Hj : j = 2) by (destruct Hc as (_ & _ & E & _); by injection E). subst j.
  destruct (Fill_exact k 2 9 0 0 [] rexRx rexDescs Hr) as (r' & HF). cbv zeta in HF. destruct HF as (H1 & H2 & _).
  exists k, r'. split; [exact H1|exact H2].
Defined.
