(* ===== verification/Mlx5Tx.v ===== *)
(** The transmit queue of the mlx5 backend: mlx5/txqueue.go.

    One logical queue over several send rings ([RingTx]), drawing on a free
    list.  The free list is any [FramePool], so what is proved here is proved
    against that interface.  The completion queues, which only the device
    writes, are arguments, one per ring; the frame memory is threaded through
    the operations that let the caller write it.  The scratch slices, which
    the code keeps to avoid allocating, carry nothing from one call to the
    next and are left out.  [None] is a panic. *)

From stdpp Require Import prelude list numbers strings gmap.
From S2P Require Import Prelude Circ Bytes Desc Pool Sq Send Mpw Cqe Mlx5Region RingTx.

(** What the verbs library hands over for one hardware queue: its memory and
    its names. *)
Record DvTx : Set := mkDvTx {
  dv_SQ : list Z; dv_CQ : list Z; dv_haveDoorbells : bool; dv_QPN : Z; dv_CQN : Z; dv_Blocks : Z; dv_CQEntries : Z
}.

(** The options of [Device] a queue is built from. *)
Record TxOptions : Set := mkTxOptions {
  to_checksums : bool; to_frameSize : Z; to_signalEvery : Z; to_mpwMaxLen : Z; to_LKey : Z; to_regionVA : Z
}.

Definition EthWQEL3Csum : Z := Z.shiftl 1 6.
Definition EthWQEL4Csum : Z := Z.shiftl 1 7.

Record stalls : Set := mkStalls { st_ringFull : Z; st_poolEmpty : Z }.

Record TxQueue (P : Type) : Type := mkTxQueue {
  tq_dvqs : list DvTx;
  tq_rings : list Tx;
  tq_next : Z;
  tq_pool : P;
  tq_stalls : stalls;
  tq_published : stalls;
  tq_qpn : Z; tq_cqn : Z; tq_blocks : Z; tq_cqEntries : Z; tq_inlineLen : Z;
  tq_place : placement;
  tq_index : Z;
  tq_closed : bool
}.
Arguments mkTxQueue {P}.
Arguments tq_dvqs {P}. Arguments tq_rings {P}. Arguments tq_next {P}. Arguments tq_pool {P}. Arguments tq_stalls {P}.
Arguments tq_published {P}. Arguments tq_qpn {P}. Arguments tq_cqn {P}. Arguments tq_blocks {P}. Arguments tq_cqEntries {P}.
Arguments tq_inlineLen {P}. Arguments tq_place {P}. Arguments tq_index {P}. Arguments tq_closed {P}.

(** The published counters of a whole queue; [Backend] is Go's map. *)
Record TxStats : Type := mkTxStats {
  ts_Packets : Z; ts_Bytes : Z; ts_Completed : Z; ts_Batches : Z; ts_Completions : Z; ts_RingFull : Z; ts_PoolEmpty : Z;
  ts_Errors : Z; ts_Backend : gmap string Z
}.

Definition boolCount (b : bool) : Z := if b then 1 else 0.

Section queue.
Context {P : Type} `{!FramePool P}.
(** What placing the calling goroutine on a processor comes to. *)
Context (pin : res Z).

Definition tq_with (rings : list Tx) (next : Z) (pool : P) (q : TxQueue P) : TxQueue P :=
  mkTxQueue (tq_dvqs q) rings next pool (tq_stalls q) (tq_published q) (tq_qpn q) (tq_cqn q) (tq_blocks q) (tq_cqEntries q)
    (tq_inlineLen q) (tq_place q) (tq_index q) (tq_closed q).

Definition tq_pinned (q : TxQueue P) : TxQueue P :=
  mkTxQueue (tq_dvqs q) (tq_rings q) (tq_next q) (tq_pool q) (tq_stalls q) (tq_published q) (tq_qpn q) (tq_cqn q) (tq_blocks q)
    (tq_cqEntries q) (tq_inlineLen q) (snd (autoPin pin (tq_place q))) (tq_index q) (tq_closed q).

Definition Pin (q : TxQueue P) : res Z * TxQueue P := (fst (autoPin pin (tq_place q)), tq_pinned q).

(** Puts the frames of [descs] on the free list, one [Push] each. *)
Definition push_all (descs : list Desc) (p : P) : option P :=
  foldM (fun p d => fp_Push (fp_Base p (Addr d)) p) descs p.

Definition syncStalls (s : stalls) (q : TxQueue P) : TxQueue P :=
  mkTxQueue (tq_dvqs q) (map Sync (tq_rings q)) (tq_next q) (tq_pool q) s s (tq_qpn q) (tq_cqn q) (tq_blocks q)
    (tq_cqEntries q) (tq_inlineLen q) (tq_place q) (tq_index q) (tq_closed q).

Definition Alloc (n : Z) (q : TxQueue P) : option (list Desc * TxQueue P) :=
  if tq_closed q || (n <=? 0) then Some ([], q)
  else
    let q := tq_pinned q in
    r ← get_at (tq_next q) (tq_rings q);
    let free := FreeSlots r in
    if (n >? free) && (free =? 0) then
      Some ([], syncStalls (mkStalls (u64 (st_ringFull (tq_stalls q) + 1)) (st_poolEmpty (tq_stalls q))) q)
    else
      let n := if n >? free then free else n in
      let have := fp_Len (tq_pool q) in
      if (n >? have) && (have =? 0) then
        Some ([], syncStalls (mkStalls (st_ringFull (tq_stalls q)) (u64 (st_poolEmpty (tq_stalls q) + 1))) q)
      else
        let n := if n >? have then have else n in
        '(addrs, p) ← fp_Pop n [] (tq_pool q);
        Some (map (fun a => mkDesc a 0 0) addrs, tq_with (tq_rings q) (tq_next q) p q).

Definition Transmit (rg : region) (descs : list Desc) (q : TxQueue P) : option (Z * TxQueue P) :=
  if tq_closed q then Some (0, q)
  else
    let q := tq_pinned q in
    r ← get_at (tq_next q) (tq_rings q);
    '(n, r) ← Post (rg_b rg) descs r;
    rings ← set_at (tq_next q) r (tq_rings q);
    let next := tq_next q + 1 in
    Some (n, tq_with rings (if next =? zlen rings then 0 else next) (tq_pool q) q).

(** The loop of [Complete]: what a ring releases goes to the free list before
    the next ring is looked at. *)
Fixpoint complete_rings (max total : Z) (rings : list Tx) (cqs : list (list Z)) (p : P) : option (Z * list Tx * P) :=
  match rings, cqs with
  | [], _ => Some (total, [], p)
  | r :: rs, c :: cs =>
      if total >=? max then Some (total, r :: rs, p)
      else
        '(released, r) ← Complete (max - total) c [] r;
        p ← push_all released p;
        '(total, rs, p) ← complete_rings max (total + zlen released) rs cs p;
        Some (total, r :: rs, p)
  | _ :: _, [] => None
  end.

Definition TxQueue_Complete (max : Z) (cqs : list (list Z)) (q : TxQueue P) : option (Z * TxQueue P) :=
  if tq_closed q then Some (0, q)
  else
    '(total, rings, p) ← complete_rings max 0 (tq_rings q) cqs (tq_pool q);
    Some (total, tq_with rings (tq_next q) p q).

Fixpoint reclaim_rings (max before : Z) (rings : list Tx) (cqs : list (list Z)) (out : list Desc)
    : option (list Desc * list Tx) :=
  match rings, cqs with
  | [], _ => Some (out, [])
  | r :: rs, c :: cs =>
      let got := zlen out - before in
      if got >=? max then Some (out, r :: rs)
      else
        '(out, r) ← Complete (max - got) c out r;
        '(out, rs) ← reclaim_rings max before rs cs out;
        Some (out, r :: rs)
  | _ :: _, [] => None
  end.

Definition Reclaim (max : Z) (cqs : list (list Z)) (out : list Desc) (q : TxQueue P) : option (list Desc * TxQueue P) :=
  if tq_closed q then Some (out, q)
  else
    '(out, rings) ← reclaim_rings max (zlen out) (tq_rings q) cqs out;
    Some (out, tq_with rings (tq_next q) (tq_pool q) q).

Definition Free (descs : list Desc) (q : TxQueue P) : option (TxQueue P) :=
  p ← push_all descs (tq_pool q);
  Some (tq_with (tq_rings q) (tq_next q) p q).

Definition NumCompleted (cqs : list (list Z)) (q : TxQueue P) : option Z :=
  if tq_closed q then Some 0
  else foldM (fun n rc => m ← Completable (snd rc) (fst rc); Some (n + m)) (zip (tq_rings q) cqs) 0.

Definition NumInFlight (q : TxQueue P) : Z := foldl (fun n r => n + InFlight r) 0 (tq_rings q).

Definition NumFreeSlots (q : TxQueue P) : option Z :=
  if tq_closed q then Some 0 else r ← get_at (tq_next q) (tq_rings q); Some (FreeSlots r).

Definition NumFreeFrames (q : TxQueue P) : Z := fp_Len (tq_pool q).

(** The first ring that has failed speaks for the queue. *)
Definition failedInfo (q : TxQueue P) : option ErrorInfo :=
  foldr (fun r rest => match failed r with Some info => Some info | None => rest end) None (tq_rings q).

Definition TxQueue_Err (q : TxQueue P) : option error :=
  if tq_closed q then Some (Sentinel ErrClosed)
  else match failedInfo q with
       | Some info => Some (Wrap ErrQueueFailed (SyndromeString (Syndrome info)))
       | None => None
       end.

(** ** SendFunc *)

(** The caller's callback: the packet's index and the frame's bytes to the
    length it reports, the bytes it leaves there and its own state. *)
Context {St : Type} (build : Z -> list Z -> St -> Z * list Z * St).

(** Fills the frames one by one; stops at a length of zero, fails at one
    outside the frame. *)
Fixpoint build_loop (i : Z) (descs : list Desc) (rg : region) (s : St) (done : list Desc)
    : option (res (list Desc) * region * St) :=
  match descs with
  | [] => Some (Ok done, rg, s)
  | d :: ds =>
      f ← Writable rg d;
      let frame := default [] f in
      let '(n, b, s) := build i frame s in
      let rg := match f with Some _ => rg_store (Addr d) b rg | None => rg end in
      if n =? 0 then Some (Ok done, rg, s)
      else if (n <? 0) || (n >? zlen frame) then Some (Err (Wrap ErrBadLength "bytes into a frame"), rg, s)
      else build_loop (i + 1) ds rg s (done ++ [mkDesc (Addr d) (u32 n) (Options d)])
  end.

Definition SendFunc (count : Z) (cqs : list (list Z)) (rg : region) (s : St) (q : TxQueue P)
    : option (res Z * region * St * TxQueue P) :=
  if tq_closed q then Some (Err (Sentinel ErrClosed), rg, s, q)
  else match failedInfo q with
  | Some info => Some (Err (Wrap ErrQueueFailed (SyndromeString (Syndrome info))), rg, s, q)
  | None =>
      let q := tq_pinned q in
      '(_, q) ← TxQueue_Complete (count + NumInFlight q) cqs q;
      '(descs, q) ← Alloc count q;
      match descs with
      | [] => Some (Ok 0, rg, s, q)
      | _ :: _ =>
          '(r, rg, s) ← build_loop 0 descs rg s [];
          match r with
          | Err e => q ← Free descs q; Some (Err e, rg, s, q)
          | Ok built =>
              q ← (if zlen built <? zlen descs then Free (drop (length built) descs) q else Some q);
              '(sent, q) ← Transmit rg built q;
              q ← (if sent <? zlen built then rest ← slice sent (zlen built) built; Free rest q else Some q);
              Some (Ok sent, rg, s, q)
          end
      end
  end.
End queue.

(** ** Setting up, reporting, closing *)

Section device.
Context {P : Type} `{!FramePool P}.

Definition tx_config (o : TxOptions) (rg : region) (inlineLen : Z) (multiPacket mpwPointer : bool) (dv : DvTx) : TxConfig :=
  mkTxConfig (dv_SQ dv) (dv_CQ dv) (dv_haveDoorbells dv) (dv_QPN dv) (to_LKey o) (zlen (rg_b rg)) (to_regionVA o)
    (RegionFrameSize rg) inlineLen (if to_checksums o then Z.lor EthWQEL3Csum EthWQEL4Csum else 0)
    multiPacket (to_mpwMaxLen o) mpwPointer (to_signalEvery o).

(** One hardware queue and its ring per element of [created], the outcomes of
    [CreateTxQueue]. *)
Fixpoint make_rings (cfg : DvTx -> TxConfig) (created : list (res DvTx)) : option (res (list DvTx * list Tx)) :=
  match created with
  | [] => Some (Ok ([], []))
  | Err e :: _ => Some (Err e)
  | Ok dv :: rest =>
      r ← NewTx (cfg dv);
      match r with
      | Err e => Some (Err e)
      | Ok t =>
          rs ← make_rings cfg rest;
          Some (match rs with Err e => Err e | Ok (dvs, ts) => Ok (dv :: dvs, t :: ts) end)
      end
  end.

(** [created] has one outcome per ring asked for; [newPool] is [pool.New]. *)
Definition newTxQueue (newPool : Z -> Z -> Z -> option P) (o : TxOptions) (rg : region) (created : list (res DvTx))
    (index firstFrame frames inlineLen : Z) (multiPacket mpwPointer : bool) : option (res (TxQueue P)) :=
  p ← newPool firstFrame frames (to_frameSize o);
  rs ← make_rings (tx_config o rg inlineLen multiPacket mpwPointer) created;
  match rs with
  | Err e => Some (Err e)
  | Ok (dvs, ts) =>
      dv ← get_at 0 dvs;
      Some (Ok (mkTxQueue dvs ts 0 p (mkStalls 0 0) (mkStalls 0 0) (dv_QPN dv) (dv_CQN dv) (dv_Blocks dv) (dv_CQEntries dv)
                  inlineLen (mkPlacement false 0 None) index false))
  end.

Definition add_ring_stats (st : TxStats) (r : Tx) : TxStats :=
  let c := Stats r in
  mkTxStats (u64 (ts_Packets st + packets c)) (u64 (ts_Bytes st + bytes c)) (u64 (ts_Completed st + completed c))
    (u64 (ts_Batches st + batches c)) (u64 (ts_Completions st + completions c)) (u64 (ts_RingFull st + ringFull c))
    (ts_PoolEmpty st) (u64 (ts_Errors st + errors c))
    (match failed r with
     | Some info => <["last_vendor_syndrome" := VendorSyndrome info]> (<["last_syndrome" := Syndrome info]> (ts_Backend st))
     | None => ts_Backend st
     end).

Definition TxQueue_Stats (q : TxQueue P) : option TxStats :=
  r0 ← get_at 0 (tq_rings q);
  let backend : gmap string Z := list_to_map [
    ("qpn", tq_qpn q); ("cqn", tq_cqn q); ("rings", zlen (tq_rings q)); ("sq_blocks", tq_blocks q);
    ("cq_entries", tq_cqEntries q); ("inline_bytes", tq_inlineLen q); ("multi_packet", boolCount (MultiPacket r0));
    ("pool_rejected", fp_rejected (tq_pool q))] in
  let st := foldl add_ring_stats
              (mkTxStats 0 0 0 0 0 (st_ringFull (tq_published q)) (st_poolEmpty (tq_published q)) 0 backend) (tq_rings q) in
  let badDesc := foldl (fun n r => u64 (n + badDesc (Stats r))) 0 (tq_rings q) in
  let b := <["bad_desc" := badDesc]> (ts_Backend st) in
  let b := if ts_Packets st >=? ts_Completed st then <["in_flight" := u64 (ts_Packets st - ts_Completed st)]> b else b in
  Some (mkTxStats (ts_Packets st) (ts_Bytes st) (ts_Completed st) (ts_Batches st) (ts_Completions st) (ts_RingFull st)
          (ts_PoolEmpty st) (ts_Errors st) b).

(** [dvClose] is what releasing a hardware queue answers; the first failure is
    reported. *)
Definition TxQueue_close (dvClose : DvTx -> option error) (q : TxQueue P) : option error * TxQueue P :=
  if tq_closed q then (None, q)
  else
    (foldl (fun first dv => match dvClose dv, first with Some e, None => Some e | _, _ => first end) None (tq_dvqs q),
     mkTxQueue [] (tq_rings q) (tq_next q) (tq_pool q) (tq_stalls q) (tq_published q) (tq_qpn q) (tq_cqn q) (tq_blocks q)
       (tq_cqEntries q) (tq_inlineLen q) (tq_place q) (tq_index q) true).
End device.
