(* ===== verification/Mlx5Rx.v ===== *)
(** The receive queue of the mlx5 backend: mlx5/rxqueue.go.

    A receive ring ([RingRx]), the free list its buffers come from (any
    [FramePool]) and the clock that turns the device's ticks into
    nanoseconds ([Clock]).  The completion queue is an argument.  [None] is a
    panic. *)

From stdpp Require Import prelude list numbers strings gmap.
From S2P Require Import Prelude Circ Bytes Desc Pool Sq Cqe Clock Mlx5Region RingRx Mlx5Tx.

Record DvRx : Set := mkDvRx {
  dvr_RQ : list Z; dvr_CQ : list Z; dvr_haveDoorbells : bool; dvr_Stride : Z; dvr_CQN : Z
}.

Record RxQueue (P : Type) : Type := mkRxQueue {
  rq_dvq : option DvRx;
  rq_ring : Rx;
  rq_pool : P;
  rq_poolEmpty : Z;
  rq_cqn : Z;
  rq_entries : Z;
  rq_place : placement;
  rq_index : Z;
  rq_closed : bool;
  rq_clock : option Counter
}.
Arguments mkRxQueue {P}.
Arguments rq_dvq {P}. Arguments rq_ring {P}. Arguments rq_pool {P}. Arguments rq_poolEmpty {P}. Arguments rq_cqn {P}.
Arguments rq_entries {P}. Arguments rq_place {P}. Arguments rq_index {P}. Arguments rq_closed {P}. Arguments rq_clock {P}.

Record RxQueueStats : Type := mkRxQueueStats {
  qs_Packets : Z; qs_Bytes : Z; qs_Filled : Z; qs_Batches : Z; qs_Completions : Z; qs_Errors : Z; qs_PoolEmpty : Z;
  qs_Backend : gmap string Z
}.

(** Where a received packet starts within its frame. *)
Definition rxHeadroom : Z := 64.

Section queue.
Context {P : Type} `{!FramePool P}.
Context (pin : res Z).

Definition rq_with (r : Rx) (p : P) (q : RxQueue P) : RxQueue P :=
  mkRxQueue (rq_dvq q) r p (rq_poolEmpty q) (rq_cqn q) (rq_entries q) (rq_place q) (rq_index q) (rq_closed q) (rq_clock q).

Definition rq_pinned (q : RxQueue P) : RxQueue P :=
  mkRxQueue (rq_dvq q) (rq_ring q) (rq_pool q) (rq_poolEmpty q) (rq_cqn q) (rq_entries q) (snd (autoPin pin (rq_place q)))
    (rq_index q) (rq_closed q) (rq_clock q).

Definition RxQueue_Fill (n : Z) (q : RxQueue P) : option (Z * RxQueue P) :=
  if rq_closed q || (n <=? 0) then Some (0, q)
  else
    let q := rq_pinned q in
    let free := Rx_FreeSlots (rq_ring q) in
    let n := if n >? free then free else n in
    let have := fp_Len (rq_pool q) in
    if (n >? have) && (have =? 0) then
      Some (0, mkRxQueue (rq_dvq q) (rq_ring q) (rq_pool q) (u64 (rq_poolEmpty q + 1)) (rq_cqn q) (rq_entries q) (rq_place q)
                 (rq_index q) (rq_closed q) (rq_clock q))
    else
      let n := if n >? have then have else n in
      if n =? 0 then Some (0, q)
      else
        '(addrs, p) ← fp_Pop n [] (rq_pool q);
        let fill := map (fun a => mkDesc (u64 (a + rxHeadroom)) 0 0) addrs in
        '(posted, r) ← Fill fill (rq_ring q);
        rest ← slice posted (zlen fill) fill;
        p ← push_all rest p;
        Some (posted, rq_with r p q).

(** Frames whose packet failed go straight back. *)
Definition RxQueue_Receive (max : Z) (cqbuf : list Z) (q : RxQueue P) : option (list Desc * RxQueue P) :=
  if rq_closed q then Some ([], q)
  else
    let q := rq_pinned q in
    '(received, r) ← Receive max cqbuf [] (rq_ring q);
    p ← push_all (Failed r) (rq_pool q);
    Some (received, rq_with r p q).

(** Ticks to nanoseconds, one after another, through the queue's clock. *)
Fixpoint ticks_ns (c : Counter) (ticks : list Z) : list Z * Counter :=
  match ticks with
  | [] => ([], c)
  | t :: ts =>
      let '(ns, c) := NS t c in
      let '(rest, c) := ticks_ns c ts in
      (ns :: rest, c)
  end.

(** [None] for the pair is Go's two nils. *)
Definition RxQueue_ReceiveTimestamps (max : Z) (cqbuf : list Z) (q : RxQueue P)
    : option (option (list Desc * list Z) * RxQueue P) :=
  if rq_closed q then Some (None, q)
  else
    let q := rq_pinned q in
    match rq_clock q with
    | None => Some (None, q)
    | Some c =>
        '(received, ticks, r) ← ReceiveTimestamps max cqbuf [] (Some []) (rq_ring q);
        p ← push_all (Failed r) (rq_pool q);
        let '(ns, c) := ticks_ns c (default [] ticks) in
        Some (Some (received, ns),
              mkRxQueue (rq_dvq q) r p (rq_poolEmpty q) (rq_cqn q) (rq_entries q) (rq_place q) (rq_index q) (rq_closed q) (Some c))
    end.

Definition Recycle (descs : list Desc) (q : RxQueue P) : option (RxQueue P) :=
  p ← push_all descs (rq_pool q);
  Some (rq_with (rq_ring q) p q).

(** How many are ready, or that the queue was closed. *)
Definition readyLocked (cqbuf : list Z) (q : RxQueue P) : option (Z * bool) :=
  if rq_closed q then Some (0, true) else n ← ReadyCount (rq_entries q) cqbuf (rq_ring q); Some (n, false).

(** One turn of [Poll]'s loop sees the queue as it is then and the time; the
    turns are the elements of [looks], and running out of them is a poll still
    waiting. *)
Fixpoint poll_turns (timeout deadline : Z) (looks : list (list Z * RxQueue P * Z)) : option (option (res Z)) :=
  match looks with
  | [] => Some None
  | (cqbuf, q, now) :: rest =>
      '(n, closed) ← readyLocked cqbuf q;
      if (closed : bool) then Some (Some (Err (Sentinel ErrClosed)))
      else if n >? 0 then Some (Some (Ok n))
      else if (timeout =? 0) || ((timeout >? 0) && negb (now <? deadline)) then Some (Some (Ok 0))
      else poll_turns timeout deadline rest
  end.

Definition RxQueue_Poll (timeout start : Z) (looks : list (list Z * RxQueue P * Z)) (q : RxQueue P)
    : option (option (res Z)) :=
  if rq_closed q then Some (Some (Err (Sentinel ErrClosed)))
  else poll_turns timeout (start + timeout) looks.

Definition NumFreeFillSlots (q : RxQueue P) : Z := if rq_closed q then 0 else Rx_FreeSlots (rq_ring q).
Definition NumReceived (cqbuf : list Z) (q : RxQueue P) : option Z :=
  if rq_closed q then Some 0 else ReadyCount (rq_entries q) cqbuf (rq_ring q).
Definition NumOutstanding (q : RxQueue P) : Z := Outstanding (rq_ring q).
Definition Rx_NumFreeFrames (q : RxQueue P) : Z := fp_Len (rq_pool q).

Definition RxQueue_Stats (q : RxQueue P) : RxQueueStats :=
  let s := rs_counters (rx_Stats (rq_ring q)) in
  mkRxQueueStats (rc_packets s) (rc_bytes s) (rc_filled s) (rc_batches s) (rc_completions s) (rc_errors s) (rq_poolEmpty q)
    (list_to_map [("cqn", rq_cqn q); ("rq_entries", rq_entries q); ("outstanding", rs_Outstanding (rx_Stats (rq_ring q)));
                  ("pool_rejected", fp_rejected (rq_pool q)); ("oversize", rc_oversize s)]).

Definition RxQueue_Err (q : RxQueue P) : option error :=
  if rq_closed q then Some (Sentinel ErrClosed)
  else match Rx_Err (rq_ring q) with
       | Some (Errorf m | Wrap _ m) => Some (Wrap ErrQueueFailed m)
       | Some (Sentinel _) => Some (Wrap ErrQueueFailed "")
       | None => None
       end.

(** [dvClose] is what releasing the hardware queue answers. *)
Definition RxQueue_close (dvClose : DvRx -> option error) (q : RxQueue P) : option error * RxQueue P :=
  if rq_closed q then (None, q)
  else
    (rq_dvq q ≫= dvClose,
     mkRxQueue None (rq_ring q) (rq_pool q) (rq_poolEmpty q) (rq_cqn q) (rq_entries q) (rq_place q) (rq_index q) true (rq_clock q)).
End queue.

Definition rx_config (o : TxOptions) (rg : region) (dv : DvRx) : RxConfig :=
  mkRxConfig (dvr_RQ dv) (dvr_CQ dv) (dvr_haveDoorbells dv) (dvr_Stride dv) (to_LKey o) (zlen (rg_b rg)) (to_regionVA o)
    (u32 (to_frameSize o - rxHeadroom)).

(** [created] is the outcome of [CreateRxQueue], [newPool] is [pool.New],
    [info] the clock the device reports. *)
Definition newRxQueue {P : Type} (newPool : Z -> Z -> Z -> option P) (o : TxOptions) (rg : region) (info : Info)
    (created : res DvRx) (index firstFrame frames : Z) : option (res (RxQueue P)) :=
  match created with
  | Err e => Some (Err e)
  | Ok dv =>
      r ← NewRx (rx_config o rg dv);
      match r with
      | Err e => Some (Err e)
      | Ok r =>
          p ← newPool firstFrame frames (to_frameSize o);
          Some (Ok (mkRxQueue (Some dv) r p 0 (dvr_CQN dv) (Rx_Entries r) (mkPlacement false 0 None) index false
                      (if OK info then Some (NewCounter info) else None)))
      end
  end.
