(* ===== verification/Mlx5TxOps.v ===== *)
(** One send ring as the transmit queue sees it, and lists of frames going
    back to a free list.

    [ring_ok] packs the ring's invariant and the honesty of its device;
    [inflight_of] reads the frames the device owns off the slot ring.  The
    lemmas about them are all the queue's proofs use of the ring. *)

From stdpp Require Import prelude list numbers strings gmap.
From S2P Require Import Prelude Circ Bytes Desc Pool Sq Send Mpw Cqe Mlx5Region RingTx RingTxInv RingTxPost RingTxMulti RingTxComplete RingTxSystem Mlx5Tx.

(** What the device behind a ring has done. *)
Record txdev : Set := mkTxdev { td_cq : list Z; td_D : Z; td_P : Z }.

Definition inflight_of (t : Tx) : list Desc := window (slots t) (slotHead t) (Z.to_nat (InFlight t)).

Definition ring_ok (kf rlen : Z) (t : Tx) (d : txdev) : Prop :=
  regionLen (par t) = rlen /\
  exists kb ks j B H C es n pend hdr,
    sys_inv kb ks kf j B H C es n pend hdr (mkSys t (td_cq d) (td_D d) (td_P d) (outstanding es) []).

Lemma inflight_inv kb ks kf B H es t : tx_inv kb ks kf B H es t -> inflight_of t = outstanding es.
Proof.
  intros Hi. unfold inflight_of, InFlight. rewrite (inv_inflight _ _ _ _ _ _ _ Hi). pose proof (po_ks _ _ _ _ (ti_par _ _ _ _ _ _ _ Hi)).
  pose proof (po_kb _ _ _ _ (ti_par _ _ _ _ _ _ _ Hi)).
  rewrite (ti_slotHead _ _ _ _ _ _ _ Hi), (window_u32 _ ks) by first [lia|exact (ti_slotlen _ _ _ _ _ _ _ Hi)].
  unfold zlen. rewrite Nat2Z.id. apply (ti_slots _ _ _ _ _ _ _ Hi).
Qed.

Lemma relog kb ks kf j B H C es n pend hdr s :
  sys_inv kb ks kf j B H C es n pend hdr s ->
  sys_inv kb ks kf j B H C es n pend hdr (mkSys (s_tx s) (s_cq s) (s_D s) (s_P s) (outstanding es) []).
Proof. intros []. split; done. Qed.

Lemma ring_tx_inv kf rlen t d : ring_ok kf rlen t d -> exists kb ks B H es, tx_inv kb ks kf B H es t /\ inflight_of t = outstanding es.
Proof.
  intros (_ & kb & ks & j & B & H & C & es & n & pend & hdr & Hs). exists kb, ks, B, H, es. pose proof (si_tx _ _ _ _ _ _ _ _ _ _ _ _ Hs) as Hi.
  split; [done|]. by eapply inflight_inv.
Qed.

Lemma ring_inflight kf rlen t d : ring_ok kf rlen t d -> InFlight t = zlen (inflight_of t).
Proof. intros Hr. destruct (ring_tx_inv _ _ _ _ Hr) as (kb & ks & B & H & es & Hi & ->). by apply (inv_inflight _ _ _ _ _ _ _ Hi). Qed.

Lemma ring_free kf rlen t d : ring_ok kf rlen t d -> 0 <= FreeSlots t.
Proof. intros Hr. destruct (ring_tx_inv _ _ _ _ Hr) as (kb & ks & B & H & es & Hi & _). by eapply FreeSlots_nonneg. Qed.

(** The counters do not matter. *)
Lemma ring_sync kf rlen t d : ring_ok kf rlen t d -> ring_ok kf rlen (Sync t) d /\ inflight_of (Sync t) = inflight_of t.
Proof.
  intros (Hl & kb & ks & j & B & H & C & es & n & pend & hdr & [Hi ? ? ? ? ? ? ? ? ? ?]). split; [|done]. split; [done|].
  exists kb, ks, j, B, H, C, es, n, pend, hdr. split; try done. by eapply tx_inv_same.
Qed.

Lemma ring_post kf rlen region descs t d :
  ring_ok kf rlen t d -> zlen region = rlen -> Forall desc_ok descs ->
  exists n t', Post region descs t = Some (n, t') /\ 0 <= n <= zlen descs /\ n <= FreeSlots t /\ ring_ok kf rlen t' d /\
    inflight_of t' = inflight_of t ++ take (Z.to_nat n) descs /\ (par t', failed t') = (par t, failed t) /\
    (exact_mode (par t) -> Forall (in_one_frame kf rlen) descs -> n = Z.min (zlen descs) (FreeSlots t)).
Proof.
  intros (Hl & kb & ks & j & B & H & C & es & n & pend & hdr & Hs) Hr Hds. pose proof (si_tx _ _ _ _ _ _ _ _ _ _ _ _ Hs) as Hi. simpl in Hi.
  destruct (Post_spec kb ks kf B H es t region Hi ltac:(lia) descs Hds) as (new & t' & E & Hi' & _ & Ho & Hle & _ & _ & Hsame & Hfull).
  destruct (inv_post _ _ _ _ _ _ _ _ _ _ _ _ Hs region descs t' _ ltac:(simpl; lia) Hds E) as [new' Hs']. simpl in Hs'.
  pose proof (si_tx _ _ _ _ _ _ _ _ _ _ _ _ Hs') as Hi2. simpl in Hi2. injection Hsame as P1 _ _ P4. pose proof (FreeSlots_nonneg _ _ _ _ _ _ _ Hi) as Hnn.
  exists (zlen (outstanding new)), t'. split; [done|].
  assert (Hn : 0 <= zlen (outstanding new) <= zlen descs) by (rewrite Ho; unfold zlen; rewrite length_take; lia).
  split; [done|]. split; [done|]. split; [|split; [|split; [by rewrite P1, P4|]]].
  - split; [by rewrite P1|]. exists kb, ks, j, B, H, C, (es ++ new'), n, pend, hdr. by apply relog in Hs'.
  - rewrite (inflight_inv _ _ _ _ _ _ _ Hi'), (inflight_inv _ _ _ _ _ _ _ Hi), outstanding_app. f_equal.
    unfold zlen. by rewrite Nat2Z.id.
  - intros Hm Hgood. rewrite Hfull; [unfold zlen; rewrite length_take; lia|done|].
    rewrite Forall_forall in Hgood, Hds |- *. intros x Hx. apply (descOK_spec _ _ _ _ _ (ti_par _ _ _ _ _ _ _ Hi)); [by apply Hds|].
    rewrite Hl. by apply Hgood.
Qed.

Lemma release_slots_acc sl mask fuel : forall h release out acc,
  release_slots fuel h release sl mask (acc ++ out) = (o ← release_slots fuel h release sl mask out; Some (acc ++ o)).
Proof.
  induction fuel as [|fuel IH]; intros h release out acc; simpl; destruct (h =? release); try done.
  destruct (get_at _ sl) as [d|]; simpl; [|done]. by rewrite <- app_assoc, IH.
Qed.

(** [Complete] appends, whatever it appends to. *)
Lemma Complete_acc max q acc t :
  Complete max q acc t = ('(o, t') ← Complete max q [] t; Some (acc ++ o, t')).
Proof.
  unfold Complete. case_if; [simpl; by rewrite app_nil_r|].
  destruct (complete_loop _ _ _ _ _) as [r|]; cbn [mbind option_bind]; [|done].
  case_if; [simpl; by rewrite app_nil_r|]. destruct (r_release r) as [[rel hd]|]; cbn [mbind option_bind].
  2: { by rewrite app_nil_r. }
  rewrite <- (app_nil_r acc) at 1. rewrite release_slots_acc. by destruct (release_slots _ _ _ _ _ []).
Qed.

Lemma Complete_par max q acc t o t' : Complete max q acc t = Some (o, t') -> par t' = par t.
Proof.
  unfold Complete. intros E. case_if_in E; [by injection E as _ <-|].
  destruct (complete_loop _ _ _ _ _) as [r|]; cbn [mbind option_bind] in E; [|done].
  case_if_in E; [by injection E as _ <-|]. destruct (r_release r) as [[rel hd]|]; cbn [mbind option_bind] in E.
  2: { by injection E as _ <-. }
  destruct (release_slots _ _ _ _ _ _); cbn [mbind option_bind] in E; [|done]. injection E as _ <-. simpl. by case_if.
Qed.

Lemma ring_complete kf rlen max acc t d :
  ring_ok kf rlen t d -> max < 2 ^ 32 ->
  exists out t', Complete max (td_cq d) acc t = Some (acc ++ out, t') /\ ring_ok kf rlen t' d /\
    inflight_of t = out ++ inflight_of t' /\ par t' = par t.
Proof.
  intros Hok Hmax. destruct (decide (max <= 0)) as [Hz|Hz].
  { exists [], t. unfold Complete. rewrite (proj2 (Z.leb_le max 0)), app_nil_r by lia. done. }
  destruct (Hok) as (Hl & kb & ks & j & B & H & C & es & n & pend & hdr & Hs). rewrite Complete_acc.
  destruct (Complete_spec kb ks kf j B H C _ es pend hdr t (td_cq d) max [] (si_tx _ _ _ _ _ _ _ _ _ _ _ _ Hs) (si_cq _ _ _ _ _ _ _ _ _ _ _ _ Hs)
    (si_ci _ _ _ _ _ _ _ _ _ _ _ _ Hs) (si_honest _ _ _ _ _ _ _ _ _ _ _ _ Hs) ltac:(lia)) as (m & t1 & E1 & _).
  cbv zeta in E1. rewrite E1. cbn [mbind option_bind].
  destruct (inv_complete _ _ _ _ _ _ _ _ _ _ _ _ Hs max _ t1 ltac:(lia) E1) as (m' & Hd & Ho & Hs'). cbv zeta in *. simpl in Ho.
  apply Complete_par in E1. eexists _, t1. split; [done|]. split; [|split; [|done]].
  - split; [by rewrite E1|]. do 10 eexists. apply relog in Hs'. exact Hs'.
  - pose proof (inflight_inv _ _ _ _ _ _ _ (si_tx _ _ _ _ _ _ _ _ _ _ _ _ Hs)) as F1.
    pose proof (inflight_inv _ _ _ _ _ _ _ (si_tx _ _ _ _ _ _ _ _ _ _ _ _ Hs')) as F2. simpl in F1, F2.
    rewrite F1, F2, app_nil_l, Ho, <- outstanding_app. by rewrite take_drop.
Qed.

(** The device goes on: it finishes an entry, with or without a completion. *)
Inductive dev_step (t : Tx) : txdev -> txdev -> Prop :=
| dev_finish q D P : dev_pending t D <> 0 -> dev_step t (mkTxdev q D P) (mkTxdev q (D + dev_blocks t D) P)
| dev_report q D P e h : dev_pending t D <> 0 -> cqe_for (cq (par t)) P D e h ->
    dev_step t (mkTxdev q D P) (mkTxdev (cq_write (cq (par t)) P e q) (D + dev_blocks t D) (P + 1)).

Lemma ring_dev kf rlen t d d' : ring_ok kf rlen t d -> dev_step t d d' -> ring_ok kf rlen t d'.
Proof.
  intros (Hl & kb & ks & j & B & H & C & es & n & pend & hdr & Hs) Hd. split; [done|]. destruct Hd as [q D P Hp|q D P e h Hp Hc].
  - exists kb, ks, j, B, H, C, es, (S n), pend, hdr. exact (inv_finish _ _ _ _ _ _ _ _ _ _ _ _ Hs Hp).
  - do 10 eexists. exact (inv_report _ _ _ _ _ _ _ _ _ _ _ _ Hs e h Hp Hc).
Qed.

(** A ring as it is opened. *)
Lemma ring_new cfg t :
  cfg_ok cfg -> zlen (cfg_SQ cfg) <= 2 ^ 21 -> NewTx cfg = Some (Ok t) -> fresh_cq (cq (par t)) (cfg_CQ cfg) ->
  exists kf, cfg_FrameSize cfg = 2 ^ kf /\ ring_ok kf (cfg_regionLen cfg) t (mkTxdev (cfg_CQ cfg) 0 0) /\ inflight_of t = [].
Proof.
  intros Hcfg Hsz Hnew Hf. destruct (NewTx_inv cfg t Hcfg Hnew) as (kb & ks & kf & j & Hlen & Hi & Hc & Hroom & Hci & Hdb & _ & _ & Hrl).
  assert (Hfm : frameMask (par t) = u64 (cfg_FrameSize cfg - 1) /\ 0 < cfg_FrameSize cfg).
  { clear -Hnew. unfold NewTx in Hnew. destruct (NewSQ _); [|done]. destruct (NewCQ _ _); [|done]. destruct (NewSender _ _); [|done].
    case_if_in Hnew; [done|]. case_if_in Hnew; [done|]. destruct (newMPW _ _) as [[[mp spb]|]|]; cbn [mbind option_bind] in Hnew; try done.
    destruct (nextPow2 _); cbn [mbind option_bind] in Hnew; [|done]. case_if_in Hnew; [done|].
    destruct ((cfg_FrameSize cfg <=? 0) || negb (OnesCount (u64 (cfg_FrameSize cfg)) =? 1)) eqn:Ef; [done|]. to_prop.
    case_if_in Hnew; [done|]. injection Hnew as <-. done. }
  destruct Hfm as [Hfm Hfs]. exists kf. pose proof (ti_par _ _ _ _ _ _ _ Hi) as Hp. pose proof (co_frame _ Hcfg).
  split; [|split; [|by apply (inflight_inv _ _ _ _ _ _ _ Hi)]].
  { rewrite (po_frameMask _ _ _ _ Hp), u64_small in Hfm by lia. lia. }
  split; [done|]. exists kb, ks, j, 0, 0, 0, [], 0%nat, [], (fun _ => 0). pose proof (po_kb _ _ _ _ Hp).
  split; simpl; try done.
  - destruct (decide (kb <= 15)); [done|]. assert (2 ^ 16 <= 2 ^ kb) by (apply Z.pow_le_mono_r; lia). lia.
  - split; try done; [split; intros i Hi0 Hi1; [lia|apply Hf]|]. pose proof (inv_pows _ _ _ _ _ _ _ Hi). lia.
  - unfold doorbell_index. by rewrite Hdb.
Qed.

(** ** Frames going back *)

Section push.
Context {P : Type} `{!FramePool P} (g : geometry) (inv : P -> Prop) `{!FramePoolLaws P g inv}.

Lemma push_all_ok ds p :
  inv p -> map (frame_at g) ds ⊆ all_frames g -> NoDup (fp_free p ++ map (frame_at g) ds) ->
  exists p', push_all ds p = Some p' /\ fp_free p' = fp_free p ++ map (frame_at g) ds /\ fp_rejected p' = fp_rejected p /\ inv p'.
Proof using FramePoolLaws0. by apply push_descs_ok. Qed.
End push.

(** The operations of the transmit queue: what each does to the frames.

    [flight] is what the device owns over all rings.  Every operation moves
    frames between the free list, the caller and the device, and the lemmas
    say exactly which. *)

Definition in_flight (rings : list Tx) : list Desc := concat (map inflight_of rings).
Definition flight {P} (q : TxQueue P) : list Desc := in_flight (tq_rings q).

(** Every ring is well and the next one to use exists. *)
Record txq_ok {P} (kf rlen : Z) (q : TxQueue P) (devs : list txdev) : Prop := {
  qo_rings : Forall2 (ring_ok kf rlen) (tq_rings q) devs;
  qo_next : 0 <= tq_next q < zlen (tq_rings q)
}.

Lemma in_flight_insert rings i r r' new :
  rings !! i = Some r -> inflight_of r' = inflight_of r ++ new -> in_flight (<[i := r']> rings) ≡ₚ in_flight rings ++ new.
Proof.
  intros Hr Hn. rewrite <- (take_drop_middle rings i r Hr) at 2. rewrite (insert_take_drop rings i r') by (by eapply lookup_lt_Some).
  unfold in_flight. rewrite !map_app, !concat_app. simpl. rewrite Hn. solve_Permutation.
Qed.

Section ops.
Context {P : Type} `{!FramePool P} (g : geometry) (inv : P -> Prop) `{!FramePoolLaws P g inv}.
Context (pin : res Z) (rlen : Z).
Implicit Types q : TxQueue P.

Let kf := g_log g.

Lemma frame_start a : a ∈ all_frames g -> frame_at g (mkDesc a 0 0) = a /\ 0 <= a < 2 ^ 64.
Proof using FramePoolLaws0.
  intros Ha. pose proof (fp_geo (g := g) (inv := inv)) as Hg. apply (elem_all_frames g a Hg) in Ha as [Hr Hm]. unfold frame_at. simpl. rewrite Hm.
  destruct Hg as (Hl & Hf & Hc & Hb). pose proof (fsize_pos g Hl). unfold frame in Hr. split; [lia|]. nia.
Qed.

Lemma next_ring q devs : txq_ok kf rlen q devs ->
  exists r d, get_at (tq_next q) (tq_rings q) = Some r /\ tq_rings q !! Z.to_nat (tq_next q) = Some r /\
    devs !! Z.to_nat (tq_next q) = Some d /\ ring_ok kf rlen r d.
Proof using.
  intros [Hr Hn]. rewrite get_at_lookup by lia. destruct (lookup_lt_is_Some_2 (tq_rings q) (Z.to_nat (tq_next q))) as [r Er]; [unfold zlen in *; lia|].
  destruct (Forall2_lookup_l _ _ _ _ _ Hr Er) as (d & Ed & Hok). exists r, d. done.
Qed.

Lemma sync_rings rings devs : Forall2 (ring_ok kf rlen) rings devs ->
  Forall2 (ring_ok kf rlen) (map Sync rings) devs /\ in_flight (map Sync rings) = in_flight rings.
Proof using.
  induction 1 as [|r d rs ds Hr _ [IH1 IH2]]; [done|]. destruct (ring_sync _ _ _ _ Hr) as [Hs1 Hs2].
  split; [by constructor|]. unfold in_flight in *. cbn [map concat]. by rewrite Hs2, IH2.
Qed.

Lemma txq_sync q devs s : txq_ok kf rlen q devs -> txq_ok kf rlen (syncStalls s q) devs /\ flight (syncStalls s q) = flight q.
Proof using.
  intros [Hr Hn]. destruct (sync_rings _ _ Hr) as [Hs1 Hs2]. split; [|done]. split; [done|]. simpl. unfold zlen in *. by rewrite length_map.
Qed.

(** What [Alloc] hands out and leaves, the next ring being [r]. *)
Record allocated (n : Z) (q : TxQueue P) (devs : list txdev) (r : Tx) (ds : list Desc) (q' : TxQueue P) : Prop := {
  al_ok : txq_ok kf rlen q' devs;
  al_inv : inv (tq_pool q');
  al_flight : flight q' = flight q;
  al_free : fp_free (tq_pool q) = fp_free (tq_pool q') ++ map Addr ds;
  al_rejected : fp_rejected (tq_pool q') = fp_rejected (tq_pool q);
  al_blank : exists addrs, ds = map (fun a => mkDesc a 0 0) addrs;
  al_same : tq_closed q' = tq_closed q /\ tq_next q' = tq_next q /\ (ds <> [] -> tq_rings q' = tq_rings q);
  al_len : zlen ds <= FreeSlots r;
  al_count : tq_closed q = false -> zlen ds = Z.max 0 (Z.min n (Z.min (FreeSlots r) (zlen (fp_free (tq_pool q)))))
}.

(** Nothing handed out, for one of the reasons there are. *)
Lemma allocated_none n q devs r q' :
  txq_ok kf rlen q' devs -> inv (tq_pool q) -> 0 <= FreeSlots r -> tq_pool q' = tq_pool q -> flight q' = flight q ->
  tq_closed q' = tq_closed q -> tq_next q' = tq_next q ->
  (tq_closed q = false -> n <= 0 \/ FreeSlots r = 0 \/ zlen (fp_free (tq_pool q)) = 0) -> allocated n q devs r [] q'.
Proof using.
  intros H1 Hi Hf H2 H3 H4 H5 H6. pose proof (zlen_nonneg (fp_free (tq_pool q))). split; rewrite ?H2; try done.
  - by rewrite app_nil_r.
  - by exists [].
  - change (zlen (@nil Desc)) with 0. intros Hc. specialize (H6 Hc). lia.
Qed.

(** [Alloc] takes frames off the free list: as many as asked for, as the next
    [Transmit] has slots for and as there are, whichever is least. *)
Lemma Alloc_spec n q devs r :
  txq_ok kf rlen q devs -> inv (tq_pool q) -> get_at (tq_next q) (tq_rings q) = Some r ->
  exists ds q', Alloc pin n q = Some (ds, q') /\ allocated n q devs r ds q'.
Proof using FramePoolLaws0.
  intros Hq Hi Er. destruct (next_ring q devs Hq) as (r0 & d & Er0 & _ & _ & Hr). rewrite Er in Er0. injection Er0 as <-.
  pose proof (ring_free _ _ _ _ Hr) as Hf. pose proof (fp_len_ok _ Hi) as Hlen. pose proof (zlen_nonneg (fp_free (tq_pool q))) as Hzf.
  assert (Hq' : txq_ok kf rlen (tq_pinned pin q) devs) by (destruct Hq; by split).
  assert (Hstall : forall s, (tq_closed q = false -> n <= 0 \/ FreeSlots r = 0 \/ zlen (fp_free (tq_pool q)) = 0) ->
    exists ds q', Some ([], syncStalls s (tq_pinned pin q)) = Some (ds, q') /\ allocated n q devs r ds q').
  { intros s Hwhy. destruct (txq_sync _ _ s Hq'). eexists _, _. split; [done|]. by apply allocated_none. }
  unfold Alloc. destruct (tq_closed q || (n <=? 0)) eqn:Ec.
  { exists [], q. split; [done|]. apply allocated_none; try done. apply orb_true_iff in Ec as [Ec|Ec]; [congruence|]. to_prop. intros; lia. }
  to_prop. simpl tq_next. simpl tq_rings. rewrite Er. cbn [mbind option_bind].
  destruct ((n >? FreeSlots r) && (FreeSlots r =? 0)) eqn:E1; [apply Hstall; to_prop; lia|].
  set (n1 := if n >? FreeSlots r then FreeSlots r else n).
  assert (Hn1 : n1 = Z.min n (FreeSlots r) /\ 0 < n1).
  { unfold n1. apply andb_false_iff in E1. destruct (Z.gtb_spec n (FreeSlots r)); destruct E1; to_prop; try done; lia. }
  destruct Hn1 as [Hn1 Hpos]. simpl tq_pool. rewrite Hlen.
  destruct ((n1 >? zlen (fp_free (tq_pool q))) && (zlen (fp_free (tq_pool q)) =? 0)) eqn:E2; [apply Hstall; to_prop; lia|].
  set (n2 := if n1 >? zlen (fp_free (tq_pool q)) then zlen (fp_free (tq_pool q)) else n1).
  assert (Hn2 : n2 = Z.min n1 (zlen (fp_free (tq_pool q)))) by (unfold n2; destruct (Z.gtb_spec n1 (zlen (fp_free (tq_pool q)))); lia).
  destruct (fp_pop_ok (tq_pool q) n2 [] Hi) as (p' & E & Hf' & Hr' & Hi'). rewrite E. cbn [mbind option_bind].
  set (kk := (length (fp_free (tq_pool q)) - Z.to_nat (Z.max 0 n2))%nat) in *. rewrite app_nil_l.
  assert (Hz : zlen (drop kk (fp_free (tq_pool q))) = Z.max 0 n2) by (unfold zlen in *; rewrite length_drop; unfold kk; lia).
  eexists _, _. split; [done|]. split; simpl; try done.
  - destruct Hq; by split.
  - rewrite map_map, map_id. by rewrite Hf', take_drop.
  - by eexists.
  - unfold zlen in *. rewrite length_map. lia.
  - intros _. unfold zlen in *. rewrite length_map. lia.
Qed.

Lemma Transmit_spec rg ds q devs :
  txq_ok kf rlen q devs -> zlen (rg_b rg) = rlen -> Forall desc_ok ds ->
  exists n q', Transmit pin rg ds q = Some (n, q') /\ 0 <= n <= zlen ds /\ txq_ok kf rlen q' devs /\ tq_pool q' = tq_pool q /\
    flight q' ≡ₚ flight q ++ take (Z.to_nat n) ds /\ tq_closed q' = tq_closed q /\
    forall r, get_at (tq_next q) (tq_rings q) = Some r -> tq_closed q = false ->
      exact_mode (par r) -> Forall (in_one_frame kf rlen) ds -> n = Z.min (zlen ds) (FreeSlots r).
Proof using.
  intros Hq Hrg Hds. pose proof (zlen_nonneg ds). unfold Transmit. destruct (tq_closed q) eqn:Hc.
  { exists 0, q. change (Z.to_nat 0) with 0%nat. rewrite take_0, app_nil_r. split_and!; done || lia. }
  destruct (next_ring q devs Hq) as (r & d & Er & El & Ed & Hr). simpl tq_next. simpl tq_rings. rewrite Er. cbn [mbind option_bind].
  destruct (ring_post kf rlen (rg_b rg) ds r d Hr Hrg Hds) as (n & r' & E & Hn & _ & Hr' & Hf & _ & Hall). rewrite E. cbn [mbind option_bind].
  destruct Hq as [Hrs Hnx]. rewrite set_at_Some by lia. cbn [mbind option_bind]. rewrite zlen_insert.
  eexists n, _. split; [done|]. split; [done|]. split; [|split; [done|split; [by eapply in_flight_insert|split; [done|]]]].
  - split; simpl.
    + rewrite <- (list_insert_id devs (Z.to_nat (tq_next q)) d Ed). by apply Forall2_insert.
    + rewrite zlen_insert. destruct (Z.eqb_spec (tq_next q + 1) (zlen (tq_rings q))); lia.
  - intros r0 E0 _. injection E0 as <-. done.
Qed.

(** ** Reclaiming *)

Lemma complete_rings_spec max rings devs : Forall2 (ring_ok kf rlen) rings devs -> max < 2 ^ 32 -> forall total p,
  0 <= total -> inv p -> map (frame_at g) (in_flight rings) ⊆ all_frames g -> NoDup (fp_free p ++ map (frame_at g) (in_flight rings)) ->
  exists out rings' p', complete_rings max total rings (map td_cq devs) p = Some (total + zlen out, rings', p') /\
    Forall2 (ring_ok kf rlen) rings' devs /\ inv p' /\ in_flight rings ≡ₚ out ++ in_flight rings' /\
    fp_free p' = fp_free p ++ map (frame_at g) out /\ fp_rejected p' = fp_rejected p.
Proof using FramePoolLaws0.
  intros Hrs Hmax. induction Hrs as [|r d rings devs Hr Hrs IH]; intros total p Ht Hp Hsub Hnd; cbn [complete_rings map].
  { exists [], [], p. change (zlen (@nil Desc)) with 0. rewrite Z.add_0_r. split_and!; try done. by rewrite app_nil_r. }
  rewrite Z.geb_leb. destruct (Z.leb_spec max total) as [Hle|Hgt].
  { exists [], (r :: rings), p. change (zlen (@nil Desc)) with 0. rewrite Z.add_0_r. split_and!; try done; [by constructor|]. by rewrite app_nil_r. }
  destruct (ring_complete kf rlen (max - total) [] r d Hr ltac:(lia)) as (out & r' & E & Hr' & Hf & _).
  rewrite E, app_nil_l. cbn [mbind option_bind]. unfold in_flight in *. cbn [map concat] in Hsub, Hnd. rewrite Hf in Hsub, Hnd.
  rewrite <- app_assoc, map_app in Hsub, Hnd.
  destruct (push_all_ok g inv out p Hp) as (p1 & E1 & Hf1 & Hj1 & Hp1).
  { set_solver. } { rewrite app_assoc in Hnd. by apply list.NoDup_app in Hnd as [? _]. }
  rewrite E1. cbn [mbind option_bind]. rewrite map_app in Hsub, Hnd.
  destruct (IH (total + zlen out) p1) as (out2 & rings' & p' & E2 & H1 & H2 & H3 & H4 & H5).
  { pose proof (zlen_nonneg out). lia. } { done. } { set_solver. }
  { rewrite Hf1, <- app_assoc. rewrite app_assoc in Hnd. apply NoDup_without in Hnd. by rewrite <- app_assoc in Hnd. }
  rewrite E2. cbn [mbind option_bind]. exists (out ++ out2), (r' :: rings'), p'. split_and!; try done.
  - rewrite zlen_app. do 3 f_equal. lia.
  - by constructor.
  - cbn [map concat]. rewrite Hf, H3. solve_Permutation.
  - by rewrite H4, Hf1, map_app, app_assoc.
  - congruence.
Qed.

Lemma reclaim_rings_spec max before rings devs : Forall2 (ring_ok kf rlen) rings devs -> max < 2 ^ 32 -> forall acc,
  before <= zlen acc ->
  exists out rings', reclaim_rings max before rings (map td_cq devs) acc = Some (acc ++ out, rings') /\
    Forall2 (ring_ok kf rlen) rings' devs /\ in_flight rings ≡ₚ out ++ in_flight rings'.
Proof using.
  intros Hrs Hmax. induction Hrs as [|r d rings devs Hr Hrs IH]; intros acc Hb; cbn [reclaim_rings map].
  { exists [], []. by rewrite app_nil_r. }
  rewrite Z.geb_leb. destruct (Z.leb_spec max (zlen acc - before)) as [Hle|Hgt].
  { exists [], (r :: rings). rewrite app_nil_r. split_and!; try done. by constructor. }
  destruct (ring_complete kf rlen (max - (zlen acc - before)) acc r d Hr ltac:(lia)) as (out & r' & E & Hr' & Hf & _).
  rewrite E. cbn [mbind option_bind].
  destruct (IH (acc ++ out)) as (out2 & rings' & E2 & H1 & H2). { rewrite zlen_app. pose proof (zlen_nonneg out). lia. }
  rewrite E2. cbn [mbind option_bind]. exists (out ++ out2), (r' :: rings'). split_and!.
  - by rewrite app_assoc.
  - by constructor.
  - unfold in_flight in *. cbn [map concat]. rewrite Hf, H2. solve_Permutation.
Qed.

Lemma txq_rings q devs rings' p : txq_ok kf rlen q devs -> Forall2 (ring_ok kf rlen) rings' devs -> txq_ok kf rlen (tq_with rings' (tq_next q) p q) devs.
Proof using.
  intros [Hr Hn] H. split; [done|]. simpl. apply Forall2_length in Hr, H. unfold zlen in *. lia.
Qed.

Lemma Complete_queue_spec max q devs :
  txq_ok kf rlen q devs -> max < 2 ^ 32 -> inv (tq_pool q) ->
  map (frame_at g) (flight q) ⊆ all_frames g -> NoDup (fp_free (tq_pool q) ++ map (frame_at g) (flight q)) ->
  exists out q', TxQueue_Complete max (map td_cq devs) q = Some (zlen out, q') /\ txq_ok kf rlen q' devs /\ inv (tq_pool q') /\
    flight q ≡ₚ out ++ flight q' /\ fp_free (tq_pool q') = fp_free (tq_pool q) ++ map (frame_at g) out /\
    fp_rejected (tq_pool q') = fp_rejected (tq_pool q) /\ tq_closed q' = tq_closed q /\ tq_next q' = tq_next q.
Proof using FramePoolLaws0.
  intros Hq Hmax Hp Hsub Hnd. unfold TxQueue_Complete. destruct (tq_closed q) eqn:Hc.
  { exists [], q. by rewrite app_nil_r. }
  destruct (complete_rings_spec max _ _ (qo_rings _ _ _ _ Hq) Hmax 0 _ ltac:(lia) Hp Hsub Hnd) as (out & rings' & p' & E & H1 & H2 & H3 & H4 & H5).
  rewrite E. cbn [mbind option_bind]. exists out, (tq_with rings' (tq_next q) p' q). split_and!; try done. by apply txq_rings.
Qed.

Lemma Reclaim_spec max acc q devs :
  txq_ok kf rlen q devs -> max < 2 ^ 32 ->
  exists out q', Reclaim max (map td_cq devs) acc q = Some (acc ++ out, q') /\ txq_ok kf rlen q' devs /\ tq_pool q' = tq_pool q /\
    flight q ≡ₚ out ++ flight q' /\ tq_closed q' = tq_closed q.
Proof using.
  intros Hq Hmax. unfold Reclaim. destruct (tq_closed q) eqn:Hc.
  { exists [], q. by rewrite app_nil_r. }
  destruct (reclaim_rings_spec max (zlen acc) _ _ (qo_rings _ _ _ _ Hq) Hmax acc ltac:(lia)) as (out & rings' & E & H1 & H2).
  rewrite E. cbn [mbind option_bind]. exists out, (tq_with rings' (tq_next q) (tq_pool q) q). split_and!; try done. by apply txq_rings.
Qed.

Lemma Free_spec ds q devs :
  txq_ok kf rlen q devs -> inv (tq_pool q) -> map (frame_at g) ds ⊆ all_frames g -> NoDup (fp_free (tq_pool q) ++ map (frame_at g) ds) ->
  exists q', Free ds q = Some q' /\ txq_ok kf rlen q' devs /\ inv (tq_pool q') /\ tq_rings q' = tq_rings q /\
    fp_free (tq_pool q') = fp_free (tq_pool q) ++ map (frame_at g) ds /\ fp_rejected (tq_pool q') = fp_rejected (tq_pool q) /\
    tq_closed q' = tq_closed q /\ tq_next q' = tq_next q.
Proof using FramePoolLaws0.
  intros Hq Hp Hsub Hnd. unfold Free. destruct (push_all_ok g inv ds _ Hp Hsub Hnd) as (p' & E & H1 & H2 & H3). rewrite E. cbn [mbind option_bind].
  eexists. split; [done|]. split_and!; try done. apply txq_rings; [done|apply Hq].
Qed.

Lemma NumInFlight_flight q devs : txq_ok kf rlen q devs -> NumInFlight q = zlen (flight q).
Proof using.
  intros [Hr _]. unfold NumInFlight, flight. enough (G : forall n, foldl (fun n r => n + InFlight r) n (tq_rings q) = n + zlen (in_flight (tq_rings q))) by apply G.
  induction Hr as [|r d rs ds Hr _ IH]; intros n; unfold in_flight in *; cbn [map concat foldl]; [change (zlen (@nil Desc)) with 0; lia|].
  rewrite IH, zlen_app, (ring_inflight _ _ _ _ Hr). lia.
Qed.
End ops.
