(* ===== verification/Mlx5Send.v ===== *)
(** [SendFunc]: the whole transmit cycle. *)

From stdpp Require Import prelude list numbers strings gmap.
From S2P Require Import Prelude Circ Bytes Desc Pool Sq Send Mpw Cqe Mlx5Region RingTx RingTxInv RingTxPost RingTxSystem Mlx5Tx Mlx5TxOps.

Section sendfunc.
Context {P : Type} `{!FramePool P} (g : geometry) (inv : P -> Prop) `{!FramePoolLaws P g inv}.
Context (pin : res Z) (rlen : Z) (Hlog : g_log g <= 31).
Context {St : Type} (build : Z -> list Z -> St -> Z * list Z * St).
(** A callback writes in the frame it is given, not past it. *)
Context (Hbuild : forall i f s, zlen (snd (fst (build i f s))) = zlen f).
Implicit Types q : TxQueue P.

Let kf := g_log g.
Notation fr := (map (frame_at g)).

(** ** The callback loop *)

(** Bytes a descriptor built from frame start [d] names are bytes of [d]. *)
Record built_from (d b : Desc) : Prop := { bf_addr : Addr b = Addr d; bf_ok : desc_ok b; bf_in : in_one_frame kf rlen b; bf_opts : Options b = Options d }.

Lemma build_loop_spec ds : forall i rg s acc,
  region_ok kf rg -> zlen (rg_b rg) = rlen -> Forall (fun d => 0 <= Addr d < 2 ^ 64 /\ Options d = 0) ds ->
  exists r rg' s', build_loop build i ds rg s acc = Some (r, rg', s') /\ region_ok kf rg' /\ zlen (rg_b rg') = rlen /\
    match r with
    | Ok built => exists k new, (k <= length ds)%nat /\ built = acc ++ new /\ Forall2 built_from (take k ds) new
    | Err e => errors_is ErrBadLength e = true
    end.
Proof using Hbuild Hlog.
  induction ds as [|d ds IH]; intros i rg s acc Hrg Hl Hds; cbn [build_loop].
  { exists (Ok acc), rg, s. split_and!; try done. exists 0%nat, []. rewrite app_nil_r. split_and!; [done|done|constructor]. }
  apply Forall_cons in Hds as [[Ha Ho] Hds]. pose proof (Writable_eq kf rg d Hrg ltac:(lia)) as HW.
  assert (Hgen : forall f, Writable rg d = Some f -> (match f with Some b => zlen b = 2 ^ kf - Addr d mod 2 ^ kf /\ Addr d + zlen b <= rlen | None => True end) ->
    exists r rg' s', (f0 ← Writable rg d;
      let frame := default [] f0 in let '(n, b, s) := build i frame s in
      let rg := match f0 with Some _ => rg_store (Addr d) b rg | None => rg end in
      if n =? 0 then Some (Ok acc, rg, s)
      else if (n <? 0) || (n >? zlen frame) then Some (Err (Wrap ErrBadLength "bytes into a frame"), rg, s)
      else build_loop build (i + 1) ds rg s (acc ++ [mkDesc (Addr d) (u32 n) (Options d)])) = Some (r, rg', s') /\ region_ok kf rg' /\ zlen (rg_b rg') = rlen /\
    match r with
    | Ok built => exists k new, (k <= length (d :: ds))%nat /\ built = acc ++ new /\ Forall2 built_from (take k (d :: ds)) new
    | Err e => errors_is ErrBadLength e = true
    end).
  { intros f E Hf. rewrite E. cbn [mbind option_bind]. pose proof (Hbuild i (default [] f) s) as Hb. destruct (build i (default [] f) s) as [[n b] s1]. simpl in Hb. cbv zeta.
    set (rg1 := match f with Some _ => _ | None => _ end).
    assert (Hrg1 : region_ok kf rg1 /\ zlen (rg_b rg1) = rlen).
    { destruct f as [b0|]; [|by unfold rg1]. simpl in Hb. destruct Hf as [_ Hf]. unfold rg1, region_ok in *. simpl.
      pose proof (zlen_nonneg b). rewrite zlen_blit by lia. destruct Hrg as (? & ? & ? & ?). split_and!; (done || lia). }
    destruct Hrg1 as [Hrg1 Hl1]. destruct (Z.eqb_spec n 0) as [Hn0|Hn0].
    { exists (Ok acc), rg1, s1. split_and!; try done. exists 0%nat, []. rewrite app_nil_r, take_0. split_and!; [lia|done|constructor]. }
    destruct ((n <? 0) || (n >? zlen (default [] f))) eqn:En. { exists (Err (Wrap ErrBadLength "bytes into a frame")), rg1, s1. done. }
    apply orb_false_iff in En as [En1 En2]. to_prop. rewrite Z.gtb_ltb in En2. to_prop.
    destruct (IH (i + 1) rg1 s1 (acc ++ [mkDesc (Addr d) (u32 n) (Options d)]) Hrg1 Hl1 Hds) as (r & rg' & s' & E' & H1 & H2 & H3).
    rewrite E'. exists r, rg', s'. split_and!; try done. destruct r as [built|]; [|done]. destruct H3 as (k & new & Hk & -> & Hnew).
    exists (S k), (mkDesc (Addr d) (u32 n) (Options d) :: new). split; [simpl; lia|]. split; [by rewrite <- app_assoc|]. constructor; [|done].
    destruct f as [b0|]; simpl in En2; [|change (zlen (@nil Z)) with 0 in En2; lia]. destruct Hf as [Hf1 Hf2].
    assert (Hkf : 0 < 2 ^ kf <= 2 ^ 31). { destruct Hrg as (Hk0 & _). split; [lia|apply Z.pow_le_mono_r; unfold kf; lia]. }
    pose proof (Z.mod_pos_bound (Addr d) (2 ^ kf) ltac:(lia)).
    rewrite u32_small by lia. split; [done|unfold desc_ok; simpl; rewrite Ho; lia| |done]. unfold in_one_frame. simpl. lia. }
  destruct (Z.ltb_spec (Addr d) (zlen (rg_b rg))) as [Hlt|Hge]; [|by apply (Hgen None)].
  destruct HW as (b & E & Hb & Hsl). apply (Hgen (Some b)); [done|]. split; [done|].
  unfold slice in Hsl. case_if_in Hsl; [|done]. to_prop. lia.
Qed.

Lemma built_addrs ds bs : Forall2 built_from ds bs -> map Addr bs = map Addr ds /\ fr bs = fr ds /\ Forall desc_ok bs /\ length bs = length ds.
Proof using.
  induction 1 as [|d b ds bs [Ha Ho _ _] _ (IH1 & IH2 & IH3 & IH4)]; [done|]. cbn [map]. split_and!; [by f_equal| |by constructor|by f_equal/=].
  f_equal; [|done]. unfold frame_at. by rewrite Ha.
Qed.

(** ** The calls of the callback *)

(** How the calls end: every frame filled, a length of zero, a length outside
    the frame. *)
Inductive ending : Set := Filled | Stopped | Miscounted.

(** The bytes from [a] to the end of its frame. *)
Definition room (a : Z) : Z := fsize g - a mod fsize g.

(** [calls i m s addrs ps e m' s']: the callback, called from packet [i] on
    for the addresses [addrs] in turn, is each time given the bytes from there
    to the end of the frame, which are replaced by what it leaves; [ps] are
    the packets it built, of the lengths it reported. *)
Inductive calls : Z -> list Z -> St -> list Z -> list Desc -> ending -> list Z -> St -> Prop :=
| calls_all i m s : calls i m s [] [] Filled m s
| calls_stop i m s a addrs f b s' :
    slice a (a + room a) m = Some f -> build i f s = (0, b, s') -> calls i m s (a :: addrs) [] Stopped (blit a b m) s'
| calls_bad i m s a addrs f n b s' :
    slice a (a + room a) m = Some f -> build i f s = (n, b, s') -> n < 0 \/ room a < n ->
    calls i m s (a :: addrs) [] Miscounted (blit a b m) s'
| calls_next i m s a addrs f n b s1 ps e m' s' :
    slice a (a + room a) m = Some f -> build i f s = (n, b, s1) -> 1 <= n <= room a ->
    calls (i + 1) (blit a b m) s1 addrs ps e m' s' -> calls i m s (a :: addrs) (mkDesc a n 0 :: ps) e m' s'.

Lemma build_loop_calls : forall addrs, Forall (fun a => 0 <= a < rlen) addrs -> forall i rg s acc r rg' s',
  region_ok kf rg -> zlen (rg_b rg) = rlen -> build_loop build i (map (fun a => mkDesc a 0 0) addrs) rg s acc = Some (r, rg', s') ->
  exists ps e, calls i (rg_b rg) s addrs ps e (rg_b rg') s' /\
    match r with Ok built => built = acc ++ ps /\ e <> Miscounted | Err _ => e = Miscounted end.
Proof using Hbuild Hlog.
  induction 1 as [|a addrs Ha _ IH]; intros i rg s acc r rg' s' Hrg Hl E; cbn [build_loop map] in E.
  { injection E as <- <- <-. exists [], Filled. rewrite app_nil_r. split; [constructor|done]. }
  assert (Hk : 0 < fsize g <= 2 ^ 31).
  { destruct Hrg as (Hk0 & _). unfold kf in Hk0. split; [apply Z.pow_pos_nonneg; lia|apply Z.pow_le_mono_r; lia]. }
  pose proof (Z.mod_pos_bound a (fsize g) ltac:(lia)) as Hmb. assert (Hrm : 0 < room a <= 2 ^ 31) by (unfold room; lia).
  pose proof (Writable_eq kf rg (mkDesc a 0 0) Hrg (proj1 Ha)) as HW. simpl Addr in HW. rewrite (proj2 (Z.ltb_lt a _)) in HW by lia.
  destruct HW as (f & EW & Hz & Hsl). change (zlen f = room a) in Hz. rewrite Hz in Hsl.
  assert (Hfit : a + room a <= rlen) by (unfold slice in Hsl; case_if_in Hsl; [to_prop; lia|done]).
  rewrite EW in E. cbn [mbind option_bind] in E. simpl default in E. pose proof (Hbuild i f s) as Hb.
  destruct (build i f s) as [[n b] s1] eqn:Eb. simpl in Hb. cbv zeta in E. cbn [Addr Options] in E. rewrite Hz in E.
  destruct (Z.eqb_spec n 0) as [->|Hn0].
  { injection E as <- <- <-. exists [], Stopped. rewrite app_nil_r. split; [by econstructor|done]. }
  destruct ((n <? 0) || (n >? room a)) eqn:En.
  { injection E as <- <- <-. exists [], Miscounted. split; [|done]. eapply calls_bad; [done..|]. apply orb_true_iff in En. rewrite Z.gtb_ltb in En. to_prop. lia. }
  apply orb_false_iff in En as [En1 En2]. rewrite Z.gtb_ltb in En2. to_prop. rewrite u32_small in E by lia.
  pose proof (zlen_nonneg b). destruct (IH (i + 1) (rg_store a b rg) s1 (acc ++ [mkDesc a n 0]) r rg' s') as (ps & e & Hc & Hr); try done.
  - unfold region_ok in *. simpl. rewrite zlen_blit by lia. done.
  - simpl. rewrite zlen_blit by lia. done.
  - exists (mkDesc a n 0 :: ps), e. split; [eapply calls_next; [done|done|lia|exact Hc]|]. destruct r; [|done]. by rewrite <- app_assoc in Hr.
Qed.

(** ** The cycle *)

(** Every frame is on the free list, with the device or [held]. *)
Definition accounted (T : list Z) (q : TxQueue P) (held : list Z) : Prop :=
  T ≡ₚ fp_free (tq_pool q) ++ fr (flight q) ++ held.

#[local] Instance accounted_perm T q : Proper (Permutation ==> iff) (accounted T q).
Proof using. intros h h' Hh. unfold accounted. by rewrite Hh. Qed.

(** The frames lie in the region. *)
Definition frames_within : Prop := forall a, a ∈ all_frames g -> 0 <= a < rlen.

Section cycle.
Context (T : list Z) (HT : NoDup T) (Hsub : T ⊆ all_frames g).

Lemma accounted_free q held h : accounted T q (h ++ held) -> h ⊆ all_frames g /\ NoDup (fp_free (tq_pool q) ++ h).
Proof using HT Hsub.
  intros HA. split.
  - intros a Ha. apply Hsub. rewrite HA, !elem_of_app. auto.
  - unfold accounted in HA. rewrite HA in HT. apply NoDup_without in HT. rewrite app_assoc in HT. by eapply NoDup_app_l.
Qed.

Lemma accounted_flight q held : accounted T q held -> fr (flight q) ⊆ all_frames g /\ NoDup (fp_free (tq_pool q) ++ fr (flight q)).
Proof using HT Hsub.
  intros HA. split.
  - intros a Ha. apply Hsub. rewrite HA, !elem_of_app. auto.
  - unfold accounted in HA. rewrite HA, app_assoc in HT. by eapply NoDup_app_l.
Qed.

(** [Free] of what is held. *)
Lemma Free_accounted q devs ds held :
  txq_ok kf rlen q devs -> inv (tq_pool q) -> accounted T q (fr ds ++ held) ->
  exists q', Free ds q = Some q' /\ txq_ok kf rlen q' devs /\ inv (tq_pool q') /\ accounted T q' held /\ tq_rings q' = tq_rings q /\
    fp_rejected (tq_pool q') = fp_rejected (tq_pool q) /\ tq_closed q' = tq_closed q /\ tq_next q' = tq_next q.
Proof using HT Hsub FramePoolLaws0.
  intros Hq Hi HA. destruct (accounted_free _ _ _ HA) as [Hs Hn].
  destruct (Free_spec g inv rlen ds q devs Hq Hi Hs Hn) as (q' & E & H1 & H2 & H3 & H4 & H5 & H6 & H7).
  exists q'. split_and!; try done. unfold accounted, flight in *. rewrite H3, H4. rewrite HA. solve_Permutation.
Qed.

(** What [SendFunc] does, for a caller: a queue out of service says so and
    nothing happens; otherwise everything the device has finished with comes
    back, as [Complete] would have it; as many frames as asked for, as the
    queue has room for and as are free are offered to the callback; and what
    is with the device afterwards is what was left there and the packets
    reported, the first of those the callback built.  A queue that does not
    copy packets takes all of them.  A callback that miscounts sends nothing. *)
Definition cycle (count : Z) (cqs : list (list Z)) (rg : region) (s : St) (q : TxQueue P) (r : res Z) (rg' : region) (s' : St) (q' : TxQueue P) : Prop :=
  match TxQueue_Err q with
  | Some e => r = Err e /\ rg' = rg /\ s' = s /\ q' = q
  | None =>
      exists back q1 ring left addrs ps e,
        TxQueue_Complete (count + zlen (flight q)) cqs (tq_pinned pin q) = Some (zlen back, q1) /\ flight q ≡ₚ back ++ flight q1 /\
        get_at (tq_next q1) (tq_rings q1) = Some ring /\ fp_free (tq_pool q1) = left ++ addrs /\
        zlen addrs = Z.max 0 (Z.min count (Z.min (FreeSlots ring) (zlen (fp_free (tq_pool q1))))) /\
        calls 0 (rg_b rg) s addrs ps e (rg_b rg') s' /\
        match r with
        | Ok n => e <> Miscounted /\ 0 <= n <= zlen ps /\ flight q' ≡ₚ flight q1 ++ take (Z.to_nat n) ps /\ (exact_mode (par ring) -> n = zlen ps)
        | Err er => e = Miscounted /\ errors_is ErrBadLength er = true /\ flight q' ≡ₚ flight q1
        end
  end.

(** What a call of [SendFunc] leaves. *)
Record sent_ok (count : Z) (q : TxQueue P) (devs : list txdev) (rg : region) (s : St) (r : res Z) (rg' : region) (s' : St) (q' : TxQueue P) : Prop := {
  se_ok : txq_ok kf rlen q' devs;
  se_inv : inv (tq_pool q');
  se_acc : accounted T q' [];
  se_region : region_ok kf rg' /\ zlen (rg_b rg') = rlen;
  se_rejected : fp_rejected (tq_pool q') = fp_rejected (tq_pool q);
  se_cycle : frames_within -> cycle count (map td_cq devs) rg s q r rg' s' q'
}.

(** The part after the frames are built. *)
Lemma send_built q devs rg ds built s :
  txq_ok kf rlen q devs -> inv (tq_pool q) -> region_ok kf rg -> zlen (rg_b rg) = rlen -> tq_closed q = false ->
  accounted T q (fr ds) -> (length built <= length ds)%nat -> Forall2 built_from (take (length built) ds) built ->
  exists n q', (q ← (if zlen built <? zlen ds then Free (drop (length built) ds) q else Some q);
     '(sent, q) ← Transmit pin rg built q;
     q ← (if sent <? zlen built then rest ← slice sent (zlen built) built; Free rest q else Some q);
     Some (Ok sent, rg, s, q)) = Some (Ok n, rg, s : St, q') /\
    txq_ok kf rlen q' devs /\ inv (tq_pool q') /\ accounted T q' [] /\ fp_rejected (tq_pool q') = fp_rejected (tq_pool q) /\
    0 <= n <= zlen built /\ flight q' ≡ₚ flight q ++ take (Z.to_nat n) built /\
    forall r, get_at (tq_next q) (tq_rings q) = Some r -> zlen ds <= FreeSlots r -> exact_mode (par r) -> n = zlen built.
Proof using HT Hsub FramePoolLaws0.
  intros Hq Hi Hrg Hl Hcl HA Hk Hb. destruct (built_addrs _ _ Hb) as (_ & Hfr & Hok & _).
  rewrite <- (take_drop (length built) ds), map_app, <- Hfr in HA.
  assert (H1 : exists q1, (if zlen built <? zlen ds then Free (drop (length built) ds) q else Some q) = Some q1 /\ txq_ok kf rlen q1 devs /\
    inv (tq_pool q1) /\ accounted T q1 (fr built) /\ tq_rings q1 = tq_rings q /\ fp_rejected (tq_pool q1) = fp_rejected (tq_pool q) /\
    tq_closed q1 = tq_closed q /\ tq_next q1 = tq_next q).
  { destruct (Z.ltb_spec (zlen built) (zlen ds)) as [Hlt|Hge].
    - rewrite (Permutation_app_comm (fr built)) in HA. destruct (Free_accounted q devs _ _ Hq Hi HA) as (q1 & E & ? & ? & ? & ? & ? & ? & ?). by exists q1.
    - exists q. split_and!; try done. rewrite drop_ge in HA by (unfold zlen in *; lia). cbn [map] in HA. by rewrite app_nil_r in HA. }
  destruct H1 as (q1 & -> & Hq1 & Hi1 & HA1 & Hr1 & Hj1 & Hc1 & Hx1). cbn [mbind option_bind].
  destruct (Transmit_spec g pin rlen rg built q1 devs Hq1 Hl Hok) as (n & q2 & E2 & Hn & Hq2 & Hp2 & Hf2 & _ & Hall). rewrite E2. cbn [mbind option_bind].
  assert (Hf : flight q2 ≡ₚ flight q ++ take (Z.to_nat n) built) by (rewrite Hf2; unfold flight; by rewrite Hr1).
  assert (Hgood : Forall (in_one_frame kf rlen) built) by (clear - Hb; induction Hb as [|x b xs bs [] _ IH]; by constructor).
  assert (Hfull : forall r, get_at (tq_next q) (tq_rings q) = Some r -> zlen ds <= FreeSlots r -> exact_mode (par r) -> n = zlen built).
  { intros r Er Hle Hm. rewrite (Hall r) by (congruence || done). unfold zlen in *. lia. }
  assert (HA2 : accounted T q2 (fr (drop (Z.to_nat n) built))).
  { unfold accounted in *. rewrite HA1, Hp2, Hf2, !map_app. rewrite <- (take_drop (Z.to_nat n) built) at 1. rewrite map_app. solve_Permutation. }
  destruct (Z.ltb_spec n (zlen built)) as [Hlt|Hge].
  - rewrite slice_Some by lia. cbn [mbind option_bind]. rewrite firstn_all2 by (unfold zlen in *; rewrite length_drop; lia).
    rewrite <- (app_nil_r (fr _)) in HA2. rewrite <- Hp2 in Hi1.
    destruct (Free_accounted q2 devs _ _ Hq2 Hi1 HA2) as (q3 & E3 & ? & ? & ? & Hr3 & Hj3 & _). rewrite E3. cbn [mbind option_bind].
    exists n, q3. split; [done|]. split_and!; try done; try congruence; try lia. unfold flight in *. by rewrite Hr3.
  - cbn [mbind option_bind]. exists n, q2. split; [done|]. rewrite drop_ge in HA2 by (unfold zlen in *; lia).
    split_and!; try done; try congruence; try lia.
Qed.

(** A queue out of service. *)
Lemma SendFunc_out count q cqs rg s e : TxQueue_Err q = Some e -> SendFunc pin build count cqs rg s q = Some (Err e, rg, s, q).
Proof using. unfold TxQueue_Err, SendFunc. destruct (tq_closed q); [by intros [= <-]|]. destruct (failedInfo q); [by intros [= <-]|done]. Qed.

Lemma SendFunc_spec count q devs rg s :
  txq_ok kf rlen q devs -> inv (tq_pool q) -> region_ok kf rg -> zlen (rg_b rg) = rlen -> accounted T q [] ->
  count + zlen (flight q) < 2 ^ 32 ->
  exists r rg' s' q', SendFunc pin build count (map td_cq devs) rg s q = Some (r, rg', s', q') /\ sent_ok count q devs rg s r rg' s' q'.
Proof using HT Hsub FramePoolLaws0 Hbuild Hlog.
  intros Hq Hi Hrg Hl HA Hc. destruct (TxQueue_Err q) as [er|] eqn:Herr.
  { rewrite (SendFunc_out _ _ _ _ _ er Herr). do 4 eexists. split; [done|]. split; try done. intros _. unfold cycle. by rewrite Herr. }
  unfold SendFunc. unfold TxQueue_Err in Herr. destruct (tq_closed q) eqn:Hcl; [done|]. destruct (failedInfo q) eqn:Hfi; [done|]. cbv zeta.
  assert (Hserr : TxQueue_Err q = None) by (unfold TxQueue_Err; by rewrite Hcl, Hfi).
  assert (Hq0 : txq_ok kf rlen (tq_pinned pin q) devs) by (destruct Hq; by split).
  rewrite (NumInFlight_flight g rlen _ _ Hq0). change (flight (tq_pinned pin q)) with (flight q).
  destruct (accounted_flight _ _ HA) as [Hs Hn].
  destruct (Complete_queue_spec g inv rlen (count + zlen (flight q)) (tq_pinned pin q) devs Hq0 Hc Hi Hs Hn) as (out & q1 & E1 & Hq1 & Hi1 & Hf1 & Hp1 & Hj1 & Hc1 & _).
  change (flight (tq_pinned pin q)) with (flight q) in Hf1. simpl in Hp1, Hj1, Hc1. rewrite E1. cbn [mbind option_bind].
  assert (HA1 : accounted T q1 []).
  { unfold accounted in *. rewrite HA, Hp1, Hf1, map_app. solve_Permutation. }
  destruct (next_ring g rlen q1 devs Hq1) as (r1 & d1 & Er1 & _).
  destruct (Alloc_spec g inv pin rlen count q1 devs r1 Hq1 Hi1 Er1) as (ds & q2 & E2 & [Hq2 Hi2 Hf2 Hp2 Hj2 [addrs Hds] Hsame Hle Hcnt]).
  rewrite E2. cbn [mbind option_bind]. destruct Hsame as (Hc2 & Hx2 & Hrings).
  assert (Hda : map Addr ds = addrs) by (rewrite Hds, map_map; apply map_id). rewrite Hda in Hp2.
  assert (Hstart : Forall (fun a => a ∈ all_frames g) addrs).
  { apply Forall_forall. intros a Ha. apply (fp_sub _ Hi1). rewrite Hp2. rewrite elem_of_app. by right. }
  assert (Hfrds : fr ds = addrs).
  { rewrite <- Hda, Hds, !map_map. apply map_ext_Forall. eapply Forall_impl; [exact Hstart|]. intros a Ha. simpl. by apply (frame_start g inv). }
  assert (HA2 : accounted T q2 (fr ds)).
  { unfold accounted in *. rewrite HA1, Hp2, Hf2, Hfrds. solve_Permutation. }
  specialize (Hcnt ltac:(congruence)).
  assert (Hza : zlen addrs = zlen ds) by (rewrite Hds; unfold zlen; by rewrite length_map).
  assert (Hcyc : forall r rg' s' q', (frames_within -> exists ps e, calls 0 (rg_b rg) s addrs ps e (rg_b rg') s' /\
      match r with
      | Ok n => e <> Miscounted /\ 0 <= n <= zlen ps /\ flight q' ≡ₚ flight q1 ++ take (Z.to_nat n) ps /\ (exact_mode (par r1) -> n = zlen ps)
      | Err er => e = Miscounted /\ errors_is ErrBadLength er = true /\ flight q' ≡ₚ flight q1
      end) -> frames_within -> cycle count (map td_cq devs) rg s q r rg' s' q').
  { intros r rg' s' q' HC Hin. destruct (HC Hin) as (ps & e & Hcalls & Hr). unfold cycle. rewrite Hserr.
    exists out, q1, r1, (fp_free (tq_pool q2)), addrs, ps, e. rewrite Hza. split_and!; done. }
  destruct ds as [|d0 ds0] eqn:Eds.
  { eexists _, _, _, _. split; [done|]. simpl in Hda. subst addrs. split; try done; [congruence|]. apply Hcyc. intros _. exists [], Filled. rewrite take_nil, app_nil_r, Hf2.
    change (zlen (@nil Desc)) with 0. split; [constructor|]. split_and!; done. }
  rewrite <- Eds in *. assert (Hne : ds <> []) by (by rewrite Eds). clear Eds d0 ds0.
  destruct (build_loop_spec ds 0 rg s [] Hrg Hl) as (r & rg' & s' & E3 & Hrg' & Hl' & Hres).
  { rewrite Hds. apply Forall_map. eapply Forall_impl; [exact Hstart|]. intros a Ha. simpl. split; [|done]. by apply (frame_start g inv). }
  assert (Hcalls : frames_within -> exists ps e, calls 0 (rg_b rg) s addrs ps e (rg_b rg') s' /\
    match r with Ok built => built = [] ++ ps /\ e <> Miscounted | Err _ => e = Miscounted end).
  { intros Hin. rewrite Hds in E3. apply (build_loop_calls addrs) with (acc := []); try done. eapply Forall_impl; [exact Hstart|]. intros a Ha. by apply Hin. }
  rewrite E3. cbn [mbind option_bind]. destruct r as [built|e].
  - destruct Hres as (k & new & Hk & Eb & Hnew). rewrite app_nil_l in Eb. subst new. pose proof (Forall2_length _ _ _ Hnew) as Hlen. rewrite length_take in Hlen.
    replace k with (length built) in Hnew, Hk by lia.
    destruct (send_built q2 devs rg' ds built s' Hq2 Hi2 Hrg' Hl' ltac:(congruence) HA2 Hk Hnew) as (n & q' & E4 & S1 & S2 & S3 & S4 & S5 & S6 & S7).
    eexists _, _, _, _. split; [exact E4|]. split; try done; [congruence|]. apply Hcyc. intros Hin. destruct (Hcalls Hin) as (ps & e & Hca & Eb & He). rewrite app_nil_l in Eb. subst ps.
    exists built, e. rewrite S6, Hf2. split; [done|]. split_and!; try done; try lia. intros Hm. apply (S7 r1); [|lia|done]. rewrite (Hrings Hne). congruence.
  - rewrite <- (app_nil_r (fr ds)) in HA2. destruct (Free_accounted q2 devs ds [] Hq2 Hi2 HA2) as (q3 & E4 & H1 & H2 & H3 & H4 & H5 & _).
    rewrite E4. cbn [mbind option_bind]. eexists _, _, _, _. split; [done|]. split; try done; [congruence|]. apply Hcyc. intros Hin.
    destruct (Hcalls Hin) as (ps & e' & Hca & ->). exists ps, Miscounted. split; [done|]. split_and!; try done. unfold flight in *. by rewrite H4, Hf2.
Qed.
End cycle.
End sendfunc.

(** A pool's frames that end inside a region lie in it. *)
Lemma geo_frames_within g rlen : geo_ok g -> (g_first g + g_count g) * fsize g <= rlen -> frames_within g rlen.
Proof.
  intros (Hl & Hf & Hc & _) Hle a Ha. pose proof (fsize_pos g Hl). apply mem_frame in Ha as (i & Hi & ->). unfold frame.
  nia.
Qed.
