(* ===== verification/Mlx5RxOps.v ===== *)
(** The operations of the receive queue: what each does to the frames.

    [posted_of] reads the buffers the device holds off the ring.  Nothing is
    assumed of the device: the completion queue holds whatever bytes it
    likes. *)

From stdpp Require Import prelude list numbers strings gmap.
From S2P Require Import Prelude Circ Bytes Desc Pool Sq Cqe Clock Mlx5Region RingRx RingRxInv Mlx5Tx Mlx5TxOps Mlx5Rx.

Definition posted_of (r : Rx) : list Desc := window (rx_posted r) (rx_ci r) (Z.to_nat (Outstanding r)).

(** The receive ring of a queue over a region of [rlen] bytes, its completion
    queue of [2^j] entries. *)
Definition rxr_ok (rlen j : Z) (r : Rx) : Prop :=
  rx_regionLen (rx_par r) = rlen /\
  exists k lkey C Q out, rx_inv k j lkey C Q out r /\ Forall (in_region_at (rx_par r)) out.

Definition rxq_ok {P} (rlen j : Z) (q : RxQueue P) (cqbuf : list Z) : Prop :=
  rxr_ok rlen j (rq_ring q) /\ cq_ok j (rx_cq (rx_par (rq_ring q))) cqbuf.

Lemma posted_inv k j lkey C Q out r : rx_inv k j lkey C Q out r -> posted_of r = out.
Proof.
  intros Hi. unfold posted_of. rewrite (rx_outstanding _ _ _ _ _ _ _ Hi). pose proof (rp_k _ _ _ (ri_par _ _ _ _ _ _ _ Hi)).
  rewrite (ri_ci _ _ _ _ _ _ _ Hi), (window_u32 _ k) by first [lia|exact (ri_len _ _ _ _ _ _ _ Hi)].
  unfold zlen. rewrite Nat2Z.id. apply (ri_window _ _ _ _ _ _ _ Hi).
Qed.

(** As many timestamps as packets. *)
Lemma receive_stamps max cqbuf o ts r o' ts' r' :
  receive max cqbuf o (Some ts) r = Some (o', ts', r') -> exists ts1, ts' = Some ts1 /\ (length o' + length ts = length o + length ts1)%nat.
Proof.
  set (paired := fun v : receiving => exists ts1, v_ts v = Some ts1 /\ (length (v_out v) + length ts = length o + length ts1)%nat).
  assert (Hround : forall v r b v' r', paired v -> rx_round cqbuf v r = Some (b, v', r') -> paired v').
  { intros v r0 b v' r0' (t1 & E1 & E2) E. unfold rx_round in E. destruct (LoadCQEHeader _ _ _) as [h|]; cbn [mbind option_bind] in E; [|done].
    repeat (case_if_in E; [injection E as _ <- _; by exists t1|]).
    unfold rx_consume in E. destruct (get_at _ _) as [d|]; cbn [mbind option_bind] in E; [|done]. case_if_in E; [done|].
    case_if_in E; [injection E as _ <- _; by exists t1|]. destruct (Entry _ _ _) as [e|]; cbn [mbind option_bind] in E; [|done].
    destruct (ByteCount e) as [l|]; cbn [mbind option_bind] in E; [|done]. case_if_in E; [injection E as _ <- _; by exists t1|].
    unfold rx_accept in E. destruct (ChecksumFlags e); cbn [mbind option_bind] in E; [|done]. cbn [v_ts] in E. rewrite E1 in E.
    destruct (Timestamp e) as [t|]; cbn [mbind option_bind] in E; [|done]. injection E as _ <- _. eexists. split; [done|]. simpl. rewrite !length_app. simpl. lia. }
  assert (Hloop : forall fuel v r v' r', paired v -> rx_loop fuel max cqbuf v r = Some (v', r') -> paired v').
  { induction fuel as [|fuel IH]; intros v r0 v' r0' Hv E; cbn [rx_loop] in E; (case_if_in E; [by injection E as <- _|]); [done|].
    destruct (rx_round cqbuf v r0) as [[[b v1] r1]|] eqn:E1; cbn [mbind option_bind] in E; [|done]. apply Hround in E1; [|done].
    destruct b; [by eapply IH|]. by injection E as <- _. }
  unfold receive. case_if; [intros [= <- <- _]; exists ts; split; [done|lia]|].
  destruct (rx_loop _ _ _ _ _) as [[v r1]|] eqn:E; cbn [mbind option_bind]; [|done]. apply Hloop in E as (t1 & E1 & E2); [|by exists ts].
  case_if; intros [= <- <- _]; exists t1; done.
Qed.

Section ops.
Context {P : Type} `{!FramePool P} (g : geometry) (inv : P -> Prop) `{!FramePoolLaws P g inv}.
Context (pin : res Z) (rlen j : Z).
(** Frames longer than the headroom, all of them inside the region. *)
Context (Hsz : rxHeadroom < fsize g) (Hin : (g_first g + g_count g) * fsize g <= rlen).
Implicit Types q : RxQueue P.
Notation fr := (map (frame_at g)).

Lemma headroom_frame a : a ∈ all_frames g ->
  u64 (a + rxHeadroom) = a + rxHeadroom /\ frame_at g (mkDesc (a + rxHeadroom) 0 0) = a /\ 0 <= a + rxHeadroom < rlen.
Proof using FramePoolLaws0 Hsz Hin.
  intros Ha. pose proof (fp_geo (g := g) (inv := inv)) as Hg. apply (elem_all_frames g a Hg) in Ha as [Hr Hm].
  destruct Hg as (Hl & Hf & Hc & Hb). pose proof (fsize_pos g Hl). unfold frame in Hr.
  assert (Ha : a + fsize g <= (g_first g + g_count g) * fsize g).
  { pose proof (Z.div_mod a (fsize g) ltac:(lia)). assert (a / fsize g < g_first g + g_count g) by nia. nia. }
  unfold rxHeadroom in *. rewrite u64_small by nia. unfold frame_at. simpl. split; [done|]. split; [|nia].
  rewrite <- Zplus_mod_idemp_l, Hm, Z.add_0_l, Z.mod_small by lia. lia.
Qed.

Lemma handed_frames bs cs os fs : handed bs cs os fs -> fr cs ≡ₚ fr os ++ fr fs.
Proof using.
  induction 1 as [|d l o cs os fs _ IH _|d cs os fs _ IH]; [done|..]; rewrite !map_app, IH; cbn [map].
  - change (frame_at g (mkDesc (Addr d) l o)) with (frame_at g d). solve_Permutation.
  - by rewrite app_assoc.
Qed.

(** [Fill] moves frames from the free list to the device. *)
Lemma Fill_queue_spec n q cqbuf :
  rxq_ok rlen j q cqbuf -> inv (rq_pool q) ->
  exists addrs q', RxQueue_Fill pin n q = Some (zlen addrs, q') /\ rxq_ok rlen j q' cqbuf /\ inv (rq_pool q') /\
    fp_free (rq_pool q) = fp_free (rq_pool q') ++ addrs /\ fp_rejected (rq_pool q') = fp_rejected (rq_pool q) /\
    posted_of (rq_ring q') = posted_of (rq_ring q) ++ map (fun a => mkDesc (a + rxHeadroom) 0 0) addrs.
Proof using FramePoolLaws0 Hsz Hin.
  intros [(Hl & k & lkey & C & Q & out & Hi & Ho) Hc] Hp. pose proof (fp_len_ok _ Hp) as Hlen. pose proof (zlen_nonneg (fp_free (rq_pool q))) as Hzf.
  assert (Hfree : 0 <= Rx_FreeSlots (rq_ring q)).
  { rewrite (rx_free _ _ _ _ _ _ _ Hi). pose proof (ri_room _ _ _ _ _ _ _ Hi). lia. }
  assert (Hnone : forall q', rq_ring q' = rq_ring q -> rq_pool q' = rq_pool q ->
    exists addrs q'', Some (0, q') = Some (zlen addrs, q'') /\ rxq_ok rlen j q'' cqbuf /\ inv (rq_pool q'') /\
    fp_free (rq_pool q) = fp_free (rq_pool q'') ++ addrs /\ fp_rejected (rq_pool q'') = fp_rejected (rq_pool q) /\
    posted_of (rq_ring q'') = posted_of (rq_ring q) ++ map (fun a => mkDesc (a + rxHeadroom) 0 0) addrs).
  { intros q' E1 E2. exists [], q'. unfold rxq_ok, rxr_ok. rewrite E1, E2, !app_nil_r. split_and!; try done. by exists k, lkey, C, Q, out. }
  unfold RxQueue_Fill. case_if; [by apply Hnone|]. cbv zeta. set (n1 := if n >? _ then _ else n). simpl rq_pool. rewrite Hlen.
  case_if; [by apply Hnone|]. set (n2 := if n1 >? _ then _ else n1). case_if; [by apply Hnone|].
  assert (Hn2 : n2 <= Rx_FreeSlots (rq_ring q) /\ n2 <= zlen (fp_free (rq_pool q)) /\ 0 < n2).
  { match goal with Hb : _ && _ = false |- _ => apply andb_false_iff in Hb end. unfold n2, n1 in *. simpl rq_ring in *.
    repeat match goal with H : _ \/ _ |- _ => destruct H end; to_prop;
    repeat match goal with |- context [?a >? ?b] => destruct (Z.gtb_spec a b) | H : context [?a >? ?b] |- _ => destruct (Z.gtb_spec a b) end; lia. }
  destruct (fp_pop_ok (rq_pool q) n2 [] Hp) as (p' & E2 & Hf' & Hr' & Hp'). rewrite E2. cbn [mbind option_bind].
  set (kk := (length (fp_free (rq_pool q)) - Z.to_nat (Z.max 0 n2))%nat) in *. rewrite app_nil_l. set (addrs := drop kk (fp_free (rq_pool q))) in *.
  assert (Hz : zlen addrs = n2) by (unfold addrs, zlen in *; rewrite length_drop; unfold kk; lia).
  assert (Hall : Forall (fun a => a ∈ all_frames g) addrs).
  { apply Forall_forall. intros a Ha. apply (fp_sub _ Hp). by eapply elem_drop. }
  assert (Hmap : map (fun a => mkDesc (u64 (a + rxHeadroom)) 0 0) addrs = map (fun a => mkDesc (a + rxHeadroom) 0 0) addrs).
  { apply map_ext_Forall. eapply Forall_impl; [exact Hall|]. intros a Ha. simpl. by rewrite (proj1 (headroom_frame a Ha)). }
  rewrite Hmap. set (ds := map _ addrs). assert (Hzd : zlen ds = n2) by (unfold ds, zlen in *; by rewrite length_map).
  destruct (Fill_spec k j lkey C Q out (rq_ring q) ds Hi) as (r' & HF). cbv zeta in HF. rewrite Hzd, Z.min_l in HF by lia.
  destruct HF as (E3 & Hi3 & _ & _ & Hsame). injection Hsame as Hpar _ _ _. simpl rq_ring. rewrite E3. cbn [mbind option_bind].
  rewrite slice_Some by lia. rewrite drop_ge, take_nil by (unfold zlen in *; lia). cbn [push_all foldM mbind option_bind].
  rewrite firstn_all2 in Hi3 by (unfold zlen in *; lia). change (push_all [] p') with (Some p'). cbn [mbind option_bind].
  exists addrs, (rq_with r' p' (rq_pinned pin q)). rewrite Hz. split; [done|].
  assert (Hok : rxr_ok rlen j r').
  { split; [by rewrite Hpar|]. exists k, lkey, C, Q, (out ++ ds). split; [done|]. rewrite Hpar. apply Forall_app. split; [done|]. unfold ds. apply Forall_map.
    eapply Forall_impl; [exact Hall|]. intros a Ha. unfold in_region_at. simpl. rewrite Hl. by apply headroom_frame. }
  split; [split; [done|simpl; by rewrite Hpar]|]. simpl. split; [done|]. split; [|split; [done|]].
  - rewrite Hf'. unfold addrs. by rewrite take_drop.
  - by rewrite (posted_inv _ _ _ _ _ _ _ Hi3), (posted_inv _ _ _ _ _ _ _ Hi).
Qed.

(** A receive of either kind on the ring, then the failed frames back. *)
Lemma receive_push max ts r p cqbuf :
  rxr_ok rlen j r -> cq_ok j (rx_cq (rx_par r)) cqbuf -> inv p -> fr (posted_of r) ⊆ all_frames g -> NoDup (fp_free p ++ fr (posted_of r)) ->
  exists out ts' r' p' bad, receive max cqbuf [] ts r = Some (out, ts', r') /\ push_all (Failed r') p = Some p' /\
    rxr_ok rlen j r' /\ rx_par r' = rx_par r /\ inv p' /\ fp_rejected p' = fp_rejected p /\ fp_free p' = fp_free p ++ bad /\
    fr (posted_of r) ≡ₚ fr out ++ bad ++ fr (posted_of r') /\ zlen out <= Z.max 0 max.
Proof using FramePoolLaws0.
  clear Hsz Hin. intros (Hl & k & lkey & C & Q & out & Hi & Ho) Hc Hp Hs Hn. rewrite (posted_inv _ _ _ _ _ _ _ Hi) in *.
  destruct (receive_total k j lkey cqbuf C Q out r max [] ts Hi Hc Ho) as (os & ts' & r' & m & Q' & E & Hm & Hi' & Hh & Hz & Hpar & _).
  pose proof (handed_frames _ _ _ _ Hh) as Hfr. rewrite <- (take_drop m out), map_app, Hfr in Hs, Hn.
  destruct (push_all_ok g inv (Failed r') p Hp) as (p' & E' & Hf' & Hj' & Hp').
  { set_solver. } { rewrite <- !app_assoc in Hn. apply NoDup_without in Hn. rewrite app_assoc in Hn. by eapply NoDup_app_l. }
  exists os, ts', r', p', (fr (Failed r')). rewrite (posted_inv _ _ _ _ _ _ _ Hi'). split_and!; try done.
  - split; [by rewrite Hpar|]. exists k, lkey, (C + Z.of_nat m), Q', (drop m out). split; [done|]. rewrite Hpar. by apply Forall_drop.
  - rewrite <- (take_drop m out) at 1. by rewrite map_app, Hfr, app_assoc.
Qed.

Lemma Receive_queue_spec max q cqbuf :
  rxq_ok rlen j q cqbuf -> inv (rq_pool q) -> fr (posted_of (rq_ring q)) ⊆ all_frames g ->
  NoDup (fp_free (rq_pool q) ++ fr (posted_of (rq_ring q))) ->
  exists out q' bad, RxQueue_Receive pin max cqbuf q = Some (out, q') /\ rxq_ok rlen j q' cqbuf /\ inv (rq_pool q') /\
    fp_rejected (rq_pool q') = fp_rejected (rq_pool q) /\ fp_free (rq_pool q') = fp_free (rq_pool q) ++ bad /\
    fr (posted_of (rq_ring q)) ≡ₚ fr out ++ bad ++ fr (posted_of (rq_ring q')) /\ zlen out <= Z.max 0 max.
Proof using FramePoolLaws0.
  clear Hsz Hin. intros [Hr Hc] Hp Hs Hn. unfold RxQueue_Receive. case_if.
  { exists [], q, []. rewrite app_nil_r. split_and!; try done. change (zlen (@nil Desc)) with 0. lia. }
  destruct (receive_push max None (rq_ring q) (rq_pool q) cqbuf Hr Hc Hp Hs Hn) as (out & ts & r' & p' & bad & E1 & E2 & H1 & H2 & H3 & H4 & H5 & H6 & H7).
  cbv zeta. simpl rq_ring. unfold Receive. rewrite E1. cbn [mbind option_bind]. simpl rq_pool. rewrite E2. cbn [mbind option_bind].
  exists out, (rq_with r' p' (rq_pinned pin q)), bad. split; [done|]. split; [split; [done|simpl; by rewrite H2]|done].
Qed.

Lemma ticks_ns_length : forall ticks c, length (fst (ticks_ns c ticks)) = length ticks.
Proof using.
  induction ticks as [|t ts IH]; intros c; simpl; [done|]. destruct (NS t c) as [ns c1]. specialize (IH c1). destruct (ticks_ns c1 ts). simpl in *. by f_equal.
Qed.

Lemma ReceiveTimestamps_spec max q cqbuf :
  rxq_ok rlen j q cqbuf -> inv (rq_pool q) -> fr (posted_of (rq_ring q)) ⊆ all_frames g ->
  NoDup (fp_free (rq_pool q) ++ fr (posted_of (rq_ring q))) ->
  exists res q' bad, RxQueue_ReceiveTimestamps pin max cqbuf q = Some (res, q') /\ rxq_ok rlen j q' cqbuf /\ inv (rq_pool q') /\
    let out := from_option fst [] res in
    fp_rejected (rq_pool q') = fp_rejected (rq_pool q) /\ fp_free (rq_pool q') = fp_free (rq_pool q) ++ bad /\
    fr (posted_of (rq_ring q)) ≡ₚ fr out ++ bad ++ fr (posted_of (rq_ring q')) /\
    length out = length (from_option snd [] res).
Proof using FramePoolLaws0.
  clear Hsz Hin. intros [Hr Hc] Hp Hs Hn. unfold RxQueue_ReceiveTimestamps. case_if.
  { exists None, q, []. rewrite app_nil_r. done. }
  cbv zeta. simpl rq_clock. destruct (rq_clock q) as [ck|].
  2: { exists None, (rq_pinned pin q), []. rewrite app_nil_r. done. }
  destruct (receive_push max (Some []) (rq_ring q) (rq_pool q) cqbuf Hr Hc Hp Hs Hn) as (out & ts & r' & p' & bad & E1 & E2 & H1 & H2 & H3 & H4 & H5 & H6 & H7).
  simpl rq_ring. unfold ReceiveTimestamps. rewrite E1. cbn [mbind option_bind]. simpl rq_pool. rewrite E2. cbn [mbind option_bind].
  destruct (receive_stamps _ _ _ _ _ _ _ _ E1) as (ts1 & -> & Hlen). simpl in Hlen. simpl default. pose proof (ticks_ns_length ts1 ck) as Ht.
  destruct (ticks_ns ck ts1) as [ns c1]. simpl in Ht. eexists _, _, bad. split; [done|]. split; [split; [done|simpl; by rewrite H2]|]. simpl. split_and!; try done. lia.
Qed.

Lemma Recycle_spec ds q cqbuf :
  rxq_ok rlen j q cqbuf -> inv (rq_pool q) -> fr ds ⊆ all_frames g -> NoDup (fp_free (rq_pool q) ++ fr ds) ->
  exists q', Recycle ds q = Some q' /\ rxq_ok rlen j q' cqbuf /\ inv (rq_pool q') /\ rq_ring q' = rq_ring q /\
    fp_free (rq_pool q') = fp_free (rq_pool q) ++ fr ds /\ fp_rejected (rq_pool q') = fp_rejected (rq_pool q).
Proof using FramePoolLaws0.
  clear Hsz Hin. intros Hq Hp Hsub Hnd. unfold Recycle. destruct (push_all_ok g inv ds _ Hp Hsub Hnd) as (p' & E & H1 & H2 & H3). rewrite E. cbn [mbind option_bind].
  eexists. split; [done|]. done.
Qed.
End ops.
