(* ===== verification/Mlx5Claims.v ===== *)
(** A program that receives, forwards and sends on an mlx5 device.

    The state is a transmit queue with its rings' devices, a receive queue
    with the memory its device writes, the frame memory, and the descriptors
    the program holds.  An operation is a call of a queue, or something a
    device does.  [may] is the discipline packetio asks of a caller: give back
    only frames you hold, each to the queue it came from; and take the frames
    of a transmit queue that carries received frames with [Reclaim], not with
    [Complete].  Nothing else is asked: descriptors may name any bytes, any
    packet lengths may be reported, the receive device may write any
    completions. *)

From stdpp Require Import prelude list numbers strings gmap.
From S2P Require Import Prelude Circ Bytes Desc Pool Sq Send Mpw Cqe Clock Mlx5Region RingTx RingTxInv RingTxPost RingTxSystem RingRx RingRxInv Mlx5Tx Mlx5Rx Mlx5TxOps Mlx5Send Mlx5RxOps.

Record fsys (P : Type) : Type := mkFsys {
  f_tx : TxQueue P; f_devs : list txdev; f_rx : RxQueue P; f_rxcq : list Z; f_rg : region; f_held : list Desc
}.
Arguments mkFsys {P}. Arguments f_tx {P}. Arguments f_devs {P}. Arguments f_rx {P}. Arguments f_rxcq {P}. Arguments f_rg {P}. Arguments f_held {P}.

(** [rest] is what the caller goes on holding. *)
Inductive fop : Type :=
| OAlloc (n : Z)
| OTransmit (ds rest : list Desc)
| OComplete (max : Z)
| OReclaim (max : Z)
| OFree (ds rest : list Desc)
| OSend (count : Z) (build : Z -> list Z -> list Z -> Z * list Z * list Z) (s : list Z)
| OFill (n : Z)
| OReceive (max : Z)
| OReceiveTimestamps (max : Z)
| ORecycle (ds rest : list Desc)
| OTxDevice (i : nat) (d : txdev)
| ORxDevice (cqbuf : list Z) (rg : region).

Section system.
Context {P : Type} `{!FramePool P} (pin : res Z).

Definition fdo (op : fop) (s : fsys P) : option (fsys P) :=
  let '(mkFsys tx devs rx cqb rg held) := s in
  let cqs := map td_cq devs in
  match op with
  | OAlloc n => '(ds, tx) ← Alloc pin n tx; Some (mkFsys tx devs rx cqb rg (ds ++ held))
  | OTransmit ds rest => '(n, tx) ← Transmit pin rg ds tx; Some (mkFsys tx devs rx cqb rg (drop (Z.to_nat n) ds ++ rest))
  | OComplete max => '(_, tx) ← TxQueue_Complete max cqs tx; Some (mkFsys tx devs rx cqb rg held)
  | OReclaim max => '(held, tx) ← Reclaim max cqs held tx; Some (mkFsys tx devs rx cqb rg held)
  | OFree ds rest => tx ← Free ds tx; Some (mkFsys tx devs rx cqb rg rest)
  | OSend count build st => '(_, rg, _, tx) ← SendFunc pin build count cqs rg st tx; Some (mkFsys tx devs rx cqb rg held)
  | OFill n => '(_, rx) ← RxQueue_Fill pin n rx; Some (mkFsys tx devs rx cqb rg held)
  | OReceive max => '(ds, rx) ← RxQueue_Receive pin max cqb rx; Some (mkFsys tx devs rx cqb rg (ds ++ held))
  | OReceiveTimestamps max =>
      '(r, rx) ← RxQueue_ReceiveTimestamps pin max cqb rx; Some (mkFsys tx devs rx cqb rg (from_option fst [] r ++ held))
  | ORecycle ds rest => rx ← Recycle ds rx; Some (mkFsys tx devs rx cqb rg rest)
  | OTxDevice i d => Some (mkFsys tx (<[i := d]> devs) rx cqb rg held)
  | ORxDevice cqb rg => Some (mkFsys tx devs rx cqb rg held)
  end.

Context (gt gr : geometry).
Notation fr := (map (frame_at gt)).

(** The caller's side of the contract, and what a device may do. *)
Definition may (op : fop) (s : fsys P) : Prop :=
  match op with
  | OAlloc _ | OFill _ | OReceive _ | OReceiveTimestamps _ => True
  | OTransmit ds rest => fr (f_held s) ≡ₚ fr (ds ++ rest) /\ Forall desc_ok ds
  | OComplete max => max < 2 ^ 32 /\ fr (flight (f_tx s)) ⊆ all_frames gt
  | OReclaim max => max < 2 ^ 32
  | OFree ds rest => fr (f_held s) ≡ₚ fr (ds ++ rest) /\ fr ds ⊆ all_frames gt
  | OSend count build _ => count + zlen (flight (f_tx s)) < 2 ^ 32 /\ fr (flight (f_tx s)) ⊆ all_frames gt /\
      forall i f s, zlen (snd (fst (build i f s))) = zlen f
  | ORecycle ds rest => fr (f_held s) ≡ₚ fr (ds ++ rest) /\ fr ds ⊆ all_frames gr
  | OTxDevice i d => exists t d0, tq_rings (f_tx s) !! i = Some t /\ f_devs s !! i = Some d0 /\ dev_step t d0 d
  | ORxDevice cqb rg => zlen cqb = zlen (f_rxcq s) /\ bytes_ok cqb /\ zlen (rg_b rg) = zlen (rg_b (f_rg s)) /\ rg_frameMask rg = rg_frameMask (f_rg s)
  end.

Inductive freach (s0 : fsys P) : fsys P -> Prop :=
| freach_init : freach s0 s0
| freach_step op s s' : freach s0 s -> may op s -> fdo op s = Some s' -> freach s0 s'.

(** ** The invariant *)

Context (invt invr : P -> Prop) `{!FramePoolLaws P gt invt} `{!FramePoolLaws P gr invr}.
Context (rlen j : Z).
Context (Hlog : g_log gr = g_log gt) (Hkf : g_log gt <= 31).
Context (Hdis : NoDup (all_frames gt ++ all_frames gr)).
Context (Hsz : rxHeadroom < fsize gr) (Hin : (g_first gr + g_count gr) * fsize gr <= rlen).

(** Every frame of the device is in one place: on a free list, with the
    program, with the transmit device or with the receive device. *)
Definition conserved (s : fsys P) : Prop :=
  all_frames gt ++ all_frames gr ≡ₚ
  fp_free (tq_pool (f_tx s)) ++ fp_free (rq_pool (f_rx s)) ++ fr (f_held s) ++ fr (flight (f_tx s)) ++ fr (posted_of (rq_ring (f_rx s))).

Record finv (s : fsys P) : Prop := {
  fi_tx : txq_ok (g_log gt) rlen (f_tx s) (f_devs s);
  fi_rx : rxq_ok rlen j (f_rx s) (f_rxcq s);
  fi_tpool : invt (tq_pool (f_tx s));
  fi_rpool : invr (rq_pool (f_rx s));
  fi_region : region_ok (g_log gt) (f_rg s) /\ zlen (rg_b (f_rg s)) = rlen;
  fi_rejected : fp_rejected (tq_pool (f_tx s)) = 0 /\ fp_rejected (rq_pool (f_rx s)) = 0;
  fi_posted : fr (posted_of (rq_ring (f_rx s))) ⊆ all_frames gr;
  fi_conserved : conserved s
}.

Lemma frame_at_same d : frame_at gr d = frame_at gt d.
Proof using Hlog. unfold frame_at, fsize. by rewrite Hlog. Qed.

Lemma fr_same ds : map (frame_at gr) ds = fr ds.
Proof using Hlog. apply map_ext. intros d. apply frame_at_same. Qed.

(** A part of what is conserved has no frame twice. *)
Lemma part_NoDup s l rest : conserved s ->
  l ++ rest ≡ₚ fp_free (tq_pool (f_tx s)) ++ fp_free (rq_pool (f_rx s)) ++ fr (f_held s) ++ fr (flight (f_tx s)) ++ fr (posted_of (rq_ring (f_rx s))) ->
  NoDup l.
Proof using Hdis. intros Hc Hl. unfold conserved in Hc. rewrite Hc, <- Hl in Hdis. by eapply NoDup_app_l. Qed.

Ltac open_sys s :=
  destruct s as [tx devs rx cqb rg held]; intros [Htx Hrx Htp Hrp Hrg Hrej Hpost Hc];
  cbn [f_tx f_devs f_rx f_rxcq f_rg f_held may fdo] in *.

Ltac close_sys := eexists; split; [done|]; split; cbn [f_tx f_devs f_rx f_rxcq f_rg f_held]; try done.

(** ** Every permitted operation goes through *)

Lemma do_alloc n s : finv s -> exists s', fdo (OAlloc n) s = Some s' /\ finv s'.
Proof using All.
  open_sys s. destruct (next_ring gt rlen tx devs Htx) as (r & d & Er & _).
  destruct (Alloc_spec gt invt pin rlen n tx devs r Htx Htp Er) as (ds & tx' & E & [H1 H2 H3 H4 H5 [addrs H6] _ _ _]).
  rewrite E. cbn [mbind option_bind]. close_sys; [by rewrite H5|].
  assert (Hds : fr ds = map Addr ds).
  { rewrite H6, !map_map. apply map_ext_Forall, Forall_forall. intros a Ha. simpl. apply (frame_start gt invt).
    apply (fp_sub _ Htp). rewrite H4, H6, map_map, map_id. set_solver. }
  unfold conserved in *. cbn [f_tx f_rx f_held] in *. rewrite Hc, H4, H3, map_app, Hds. solve_Permutation.
Qed.

Lemma do_transmit ds rest s : finv s -> may (OTransmit ds rest) s -> exists s', fdo (OTransmit ds rest) s = Some s' /\ finv s'.
Proof using All.
  open_sys s. intros [Hh Hds]. destruct (Transmit_spec gt pin rlen rg ds tx devs Htx (proj2 Hrg) Hds) as (n & tx' & E & Hn & H1 & H2 & H3 & _).
  rewrite E. cbn [mbind option_bind]. close_sys; try (by rewrite H2).
  unfold conserved in *. cbn [f_tx f_rx f_held] in *. rewrite Hc, H2, H3, Hh, !map_app. rewrite <- (take_drop (Z.to_nat n) ds) at 1. rewrite map_app. solve_Permutation.
Qed.

Lemma do_complete max s : finv s -> may (OComplete max) s -> exists s', fdo (OComplete max) s = Some s' /\ finv s'.
Proof using All.
  open_sys s. intros [Hmax Hown].
  assert (Hn : NoDup (fp_free (tq_pool tx) ++ fr (flight tx))) by (apply (part_NoDup _ _ (fp_free (rq_pool rx) ++ fr held ++ fr (posted_of (rq_ring rx))) Hc); cbn [f_tx f_rx f_held]; solve_Permutation).
  destruct (Complete_queue_spec gt invt rlen max tx devs Htx Hmax Htp Hown Hn) as (out & tx' & E & H1 & H2 & H3 & H4 & H5 & _).
  rewrite E. cbn [mbind option_bind]. close_sys; [by rewrite H5|].
  unfold conserved in *. cbn [f_tx f_rx f_held] in *. rewrite Hc, H4, H3, map_app. solve_Permutation.
Qed.

Lemma do_reclaim max s : finv s -> may (OReclaim max) s -> exists s', fdo (OReclaim max) s = Some s' /\ finv s'.
Proof using All.
  open_sys s. intros Hmax. destruct (Reclaim_spec gt rlen max held tx devs Htx Hmax) as (out & tx' & E & H1 & H2 & H3 & _).
  rewrite E. cbn [mbind option_bind]. close_sys; try (by rewrite H2).
  unfold conserved in *. cbn [f_tx f_rx f_held] in *. rewrite Hc, H2, H3, !map_app. solve_Permutation.
Qed.

Lemma do_free ds rest s : finv s -> may (OFree ds rest) s -> exists s', fdo (OFree ds rest) s = Some s' /\ finv s'.
Proof using All.
  open_sys s. intros [Hh Hown]. rewrite map_app in Hh.
  assert (Hn : NoDup (fp_free (tq_pool tx) ++ fr ds)) by (apply (part_NoDup _ _ (fp_free (rq_pool rx) ++ fr rest ++ fr (flight tx) ++ fr (posted_of (rq_ring rx))) Hc); cbn [f_tx f_rx f_held]; rewrite Hh; solve_Permutation).
  destruct (Free_spec gt invt rlen ds tx devs Htx Htp Hown Hn) as (tx' & E & H1 & H2 & H3 & H4 & H5 & _).
  rewrite E. cbn [mbind option_bind]. close_sys; [by rewrite H5|].
  unfold conserved, flight in *. cbn [f_tx f_rx f_held] in *. rewrite Hc, H4, H3, Hh. solve_Permutation.
Qed.

Lemma do_send count build st s : finv s -> may (OSend count build st) s -> exists s', fdo (OSend count build st) s = Some s' /\ finv s'.
Proof using All.
  open_sys s. intros (Hcount & Hown & Hb). set (T := fp_free (tq_pool tx) ++ fr (flight tx)).
  assert (Hn : NoDup T) by (apply (part_NoDup _ _ (fp_free (rq_pool rx) ++ fr held ++ fr (posted_of (rq_ring rx))) Hc); cbn [f_tx f_rx f_held]; unfold T; solve_Permutation).
  assert (Hs : T ⊆ all_frames gt) by (pose proof (fp_sub _ Htp); unfold T; set_solver).
  assert (HA : accounted gt T tx []) by (unfold accounted, T; by rewrite app_nil_r).
  destruct (SendFunc_spec gt invt pin rlen Hkf build Hb T Hn Hs count tx devs rg st Htx Htp (proj1 Hrg) (proj2 Hrg) HA Hcount) as
    (r & rg' & s' & tx' & E & [H1 H2 H3 H4 H5 _]).
  rewrite E. cbn [mbind option_bind]. close_sys; [by rewrite H5|].
  unfold conserved, accounted in *. cbn [f_tx f_rx f_held] in *. rewrite app_nil_r in H3. rewrite Hc.
  transitivity (T ++ fp_free (rq_pool rx) ++ fr held ++ fr (posted_of (rq_ring rx))); [unfold T; solve_Permutation|]. rewrite H3. solve_Permutation.
Qed.

Lemma do_fill n s : finv s -> exists s', fdo (OFill n) s = Some s' /\ finv s'.
Proof using All.
  open_sys s. destruct (Fill_queue_spec gr invr pin rlen j Hsz Hin n rx cqb Hrx Hrp) as (addrs & rx' & E & H1 & H2 & H3 & H4 & H5).
  rewrite E. cbn [mbind option_bind].
  assert (Ha : Forall (fun a => a ∈ all_frames gr) addrs) by (apply Forall_forall; intros a Ha; apply (fp_sub _ Hrp); rewrite H3; set_solver).
  assert (Hfr : fr (map (fun a => mkDesc (a + rxHeadroom) 0 0) addrs) = addrs).
  { rewrite map_map. rewrite <- (map_id addrs) at 2. apply map_ext_Forall. eapply Forall_impl; [exact Ha|]. intros a Hin_a. simpl.
    rewrite <- frame_at_same. by apply (headroom_frame gr invr rlen Hsz Hin). }
  close_sys; [by rewrite H4|rewrite H5, map_app, Hfr; rewrite Forall_forall in Ha; set_solver|].
  unfold conserved in *. cbn [f_tx f_rx f_held] in *. rewrite Hc, H3, H5, map_app, Hfr. solve_Permutation.
Qed.

(** What the two ways of receiving share. *)
Lemma receive_part tx devs rx cqb rg held : finv (mkFsys tx devs rx cqb rg held) ->
  map (frame_at gr) (posted_of (rq_ring rx)) ⊆ all_frames gr /\ NoDup (fp_free (rq_pool rx) ++ map (frame_at gr) (posted_of (rq_ring rx))).
Proof using All.
  intros [Htx Hrx Htp Hrp Hrg Hrej Hpost Hc]. rewrite fr_same. split; [done|].
  apply (part_NoDup _ _ (fp_free (tq_pool tx) ++ fr held ++ fr (flight tx)) Hc); cbn [f_tx f_rx f_held]; solve_Permutation.
Qed.

Lemma received_inv tx devs rx cqb rg held out rx' bad :
  finv (mkFsys tx devs rx cqb rg held) -> rxq_ok rlen j rx' cqb -> invr (rq_pool rx') -> fp_rejected (rq_pool rx') = fp_rejected (rq_pool rx) ->
  fp_free (rq_pool rx') = fp_free (rq_pool rx) ++ bad ->
  map (frame_at gr) (posted_of (rq_ring rx)) ≡ₚ map (frame_at gr) out ++ bad ++ map (frame_at gr) (posted_of (rq_ring rx')) ->
  finv (mkFsys tx devs rx' cqb rg (out ++ held)).
Proof using All.
  intros [Htx Hrx Htp Hrp Hrg Hrej Hpost Hc] H1 H2 H3 H4 H5. rewrite !fr_same in H5. cbn [f_tx f_devs f_rx f_rxcq f_rg f_held] in *.
  split; cbn [f_tx f_devs f_rx f_rxcq f_rg f_held]; try done; [by rewrite H3| |].
  - intros a Ha. apply Hpost. rewrite H5. set_solver.
  - unfold conserved in *. cbn [f_tx f_rx f_held] in *. rewrite Hc, H4, H5, map_app. solve_Permutation.
Qed.

Lemma do_receive max s : finv s -> exists s', fdo (OReceive max) s = Some s' /\ finv s'.
Proof using All.
  destruct s as [tx devs rx cqb rg held]. intros Hs. destruct (receive_part _ _ _ _ _ _ Hs) as [Hp Hn]. cbn [fdo].
  destruct (Receive_queue_spec gr invr pin rlen j max rx cqb (fi_rx _ Hs) (fi_rpool _ Hs) Hp Hn) as (out & rx' & bad & E & H1 & H2 & H3 & H4 & H5 & _).
  rewrite E. cbn [mbind option_bind]. eexists. split; [done|]. by eapply received_inv.
Qed.

Lemma do_receive_timestamps max s : finv s -> exists s', fdo (OReceiveTimestamps max) s = Some s' /\ finv s'.
Proof using All.
  destruct s as [tx devs rx cqb rg held]. intros Hs. destruct (receive_part _ _ _ _ _ _ Hs) as [Hp Hn]. cbn [fdo].
  destruct (ReceiveTimestamps_spec gr invr pin rlen j max rx cqb (fi_rx _ Hs) (fi_rpool _ Hs) Hp Hn) as (r & rx' & bad & E & H1 & H2 & H3 & H4 & H5 & _).
  rewrite E. cbn [mbind option_bind]. eexists. split; [done|]. by eapply received_inv.
Qed.

Lemma do_recycle ds rest s : finv s -> may (ORecycle ds rest) s -> exists s', fdo (ORecycle ds rest) s = Some s' /\ finv s'.
Proof using All.
  open_sys s. intros [Hh Hown]. rewrite map_app in Hh.
  assert (Hn : NoDup (fp_free (rq_pool rx) ++ fr ds)) by (apply (part_NoDup _ _ (fp_free (tq_pool tx) ++ fr rest ++ fr (flight tx) ++ fr (posted_of (rq_ring rx))) Hc); cbn [f_tx f_rx f_held]; rewrite Hh; solve_Permutation).
  rewrite <- fr_same in Hown, Hn.
  destruct (Recycle_spec gr invr rlen j ds rx cqb Hrx Hrp Hown Hn) as (rx' & E & H1 & H2 & H3 & H4 & H5). rewrite fr_same in H4.
  rewrite E. cbn [mbind option_bind]. close_sys; [by rewrite H5|by rewrite H3|].
  unfold conserved in *. cbn [f_tx f_rx f_held] in *. rewrite Hc, H4, H3, Hh. solve_Permutation.
Qed.

Lemma do_txdevice i d s : finv s -> may (OTxDevice i d) s -> exists s', fdo (OTxDevice i d) s = Some s' /\ finv s'.
Proof using All.
  open_sys s. intros (t & d0 & Et & Ed & Hd). close_sys. destruct Htx as [Hr Hn]. split; [|done].
  rewrite <- (list_insert_id _ _ _ Et). apply Forall2_insert; [done|]. pose proof (Forall2_lookup_lr _ _ _ _ _ _ Hr Et Ed). by eapply ring_dev.
Qed.

Lemma do_rxdevice cqb' rg' s : finv s -> may (ORxDevice cqb' rg') s -> exists s', fdo (ORxDevice cqb' rg') s = Some s' /\ finv s'.
Proof using All.
  open_sys s. intros (Hl & Hb & Hr & Hm). close_sys.
  - destruct Hrx as [H1 (Hj & Hz & Hq & _)]. split; [done|]. split; [done|]. split; [by rewrite Hl|]. done.
  - destruct Hrg as [(? & ? & ? & ?) ?]. split; [|congruence]. unfold region_ok. rewrite Hr, Hm. done.
Qed.

(** A permitted operation never panics and keeps the invariant. *)
Lemma fdo_inv op s : finv s -> may op s -> exists s', fdo op s = Some s' /\ finv s'.
Proof using All.
  intros Hs Hm. destruct op; [by apply do_alloc|by apply do_transmit|by apply do_complete|by apply do_reclaim|by apply do_free|by apply do_send|
    by apply do_fill|by apply do_receive|by apply do_receive_timestamps|by apply do_recycle|by apply do_txdevice|by apply do_rxdevice].
Qed.

Lemma freach_inv s0 s : finv s0 -> freach s0 s -> finv s.
Proof using All.
  intros H0. induction 1 as [|op s s' _ IH Hm E]; [done|]. destruct (fdo_inv op s IH Hm) as (s2 & E2 & Hs2). congruence.
Qed.
End system.

(** What holds of the mlx5 queues: the properties, each with an instance on a
    small concrete device. *)

(** ** A device as it is opened *)

(** How a transmit and a receive queue of one device are set up: each with its
    own range of frames of the region, the hardware queues as the verbs
    library made them, and their completion queues still unwritten. *)
Record setup : Type := mkSetup {
  u_checked : bool; u_opts : TxOptions; u_region : region; u_info : Info;
  u_created : list (res DvTx); u_dvr : DvRx; u_gt : geometry; u_gr : geometry;
  u_inline : Z; u_multi : bool; u_pointer : bool
}.

Definition open_tx (u : setup) : option (res (TxQueue Frames)) :=
  newTxQueue (New (u_checked u)) (u_opts u) (u_region u) (u_created u) 0 (g_first (u_gt u)) (g_count (u_gt u))
    (u_inline u) (u_multi u) (u_pointer u).
Definition open_rx (u : setup) : option (res (RxQueue Frames)) :=
  newRxQueue (New (u_checked u)) (u_opts u) (u_region u) (u_info u) (Ok (u_dvr u)) 0 (g_first (u_gr u)) (g_count (u_gr u)).

Definition u_cfg (u : setup) : DvTx -> TxConfig := tx_config (u_opts u) (u_region u) (u_inline u) (u_multi u) (u_pointer u).

Record setup_ok (u : setup) : Prop := {
  uo_gt : geo_ok (u_gt u);
  uo_gr : geo_ok (u_gr u);
  uo_log : g_log (u_gr u) = g_log (u_gt u) /\ 6 < g_log (u_gt u) <= 31;
  uo_ranges : g_first (u_gt u) + g_count (u_gt u) <= g_first (u_gr u) \/ g_first (u_gr u) + g_count (u_gr u) <= g_first (u_gt u);
  uo_size : to_frameSize (u_opts u) = fsize (u_gt u) /\ RegionFrameSize (u_region u) = fsize (u_gt u);
  uo_region : region_ok (g_log (u_gt u)) (u_region u) /\ (g_first (u_gr u) + g_count (u_gr u)) * fsize (u_gr u) <= zlen (rg_b (u_region u));
  uo_txin : (g_first (u_gt u) + g_count (u_gt u)) * fsize (u_gt u) <= zlen (rg_b (u_region u));
  uo_tx dv : Ok dv ∈ u_created u -> cfg_ok (u_cfg u dv) /\ zlen (dv_SQ dv) <= 2 ^ 21 /\
    forall t, NewTx (u_cfg u dv) = Some (Ok t) -> fresh_cq (cq (par t)) (dv_CQ dv);
  uo_rx : rx_cfg_ok (rx_config (u_opts u) (u_region u) (u_dvr u))
}.

(** The state the program starts from. *)
Definition opened (u : setup) (tx : TxQueue Frames) (rx : RxQueue Frames) : fsys Frames :=
  mkFsys tx (map (fun dv => mkTxdev (dv_CQ dv) 0 0) (tq_dvqs tx)) rx (dvr_CQ (u_dvr u)) (u_region u) [].

(** What is reachable from there. *)
Definition mreach (pin : res Z) (u : setup) (s : fsys Frames) : Prop :=
  exists tx rx, open_tx u = Some (Ok tx) /\ open_rx u = Some (Ok rx) /\
    @freach Frames (frames_pool (u_checked u)) pin (u_gt u) (u_gr u) (opened u tx rx) s.

Section opening.
Context (u : setup) (Hu : setup_ok u).
Let kf := g_log (u_gt u).
Let rlen := zlen (rg_b (u_region u)).

Lemma make_rings_ok created dvs ts :
  (forall dv, Ok dv ∈ created -> Ok dv ∈ u_created u) -> make_rings (u_cfg u) created = Some (Ok (dvs, ts)) ->
  Forall2 (ring_ok kf rlen) ts (map (fun dv => mkTxdev (dv_CQ dv) 0 0) dvs) /\ in_flight ts = [].
Proof using Hu.
  revert dvs ts. induction created as [|c created IH]; intros dvs ts Hin E; cbn [make_rings] in E; [by injection E as <- <-|].
  destruct c as [dv|]; [|done]. destruct (NewTx (u_cfg u dv)) as [[t|]|] eqn:Et; cbn [mbind option_bind] in E; try done.
  destruct (make_rings (u_cfg u) created) as [[[dvs' ts']|]|] eqn:Er; cbn [mbind option_bind] in E; try done. injection E as <- <-.
  destruct (IH dvs' ts') as [H1 H2]; [intros dv' Hdv; apply Hin; set_solver|done|].
  destruct (uo_tx _ Hu dv) as (Hcfg & Hsz & Hfr); [apply Hin; set_solver|].
  destruct (ring_new (u_cfg u dv) t Hcfg Hsz Et (Hfr t Et)) as (kf' & Hk & Hr & Hf).
  assert (Hkf : kf' = kf).
  { unfold u_cfg, tx_config in Hk. simpl in Hk. rewrite (proj2 (uo_size _ Hu)) in Hk. unfold fsize in Hk. pose proof (proj2 (uo_log _ Hu)).
    destruct (decide (0 <= kf')); [apply (Z.pow_inj_r 2) in Hk; unfold kf; lia|]. rewrite (Z.pow_neg_r 2 kf') in Hk by lia. lia. }
  subst kf'. split; [by constructor|]. unfold in_flight in *. cbn [map concat]. by rewrite Hf, H2.
Qed.

Lemma newTx_dvqs created dvs ts : make_rings (u_cfg u) created = Some (Ok (dvs, ts)) -> length dvs = length ts.
Proof using.
  revert dvs ts. induction created as [|c created IH]; intros dvs ts E; cbn [make_rings] in E; [by injection E as <- <-|].
  destruct c as [dv|]; [|done]. destruct (NewTx (u_cfg u dv)) as [[t|]|] eqn:Et; cbn [mbind option_bind] in E; try done.
  destruct (make_rings (u_cfg u) created) as [[[dvs' ts']|]|] eqn:Er; cbn [mbind option_bind] in E; try done. injection E as <- <-. simpl. f_equal. by apply IH.
Qed.

#[local] Instance pool_ops : FramePool Frames := frames_pool (u_checked u).

Lemma open_inv tx rx :
  open_tx u = Some (Ok tx) -> open_rx u = Some (Ok rx) ->
  exists j, finv (u_gt u) (u_gr u) (pool_inv (u_checked u) (u_gt u)) (pool_inv (u_checked u) (u_gr u)) rlen j (opened u tx rx).
Proof using Hu.
  intros Etx Erx. destruct (uo_size _ Hu) as [Hs1 Hs2]. pose proof (proj1 (uo_log _ Hu)) as Hlog.
  assert (Hfs : fsize (u_gr u) = fsize (u_gt u)) by (unfold fsize; by rewrite Hlog).
  destruct (New_spec (u_gt u) (uo_gt _ Hu) (u_checked u)) as (p & Ep & Hp & Hpf & Hpr).
  destruct (New_spec (u_gr u) (uo_gr _ Hu) (u_checked u)) as (p2 & Ep2 & Hp2 & Hpf2 & Hpr2). rewrite Hfs in Ep2.
  unfold open_tx, newTxQueue in Etx. rewrite Hs1, Ep in Etx. cbn [mbind option_bind] in Etx. fold (u_cfg u) in Etx.
  destruct (make_rings (u_cfg u) (u_created u)) as [[[dvs ts]|]|] eqn:Er; cbn [mbind option_bind] in Etx; try done.
  destruct (make_rings_ok _ _ _ (fun _ H => H) Er) as [Hrings Hfl]. pose proof (newTx_dvqs _ _ _ Er) as Hlen.
  destruct (get_at 0 dvs) as [dv0|] eqn:Ed; cbn [mbind option_bind] in Etx; [|done]. injection Etx as <-.
  unfold open_rx, newRxQueue in Erx. destruct (NewRx _) as [[r|]|] eqn:ENr; cbn [mbind option_bind] in Erx; try done.
  rewrite Hs1, Ep2 in Erx. cbn [mbind option_bind] in Erx. injection Erx as <-.
  destruct (NewRx_inv _ r (uo_rx _ Hu) ENr) as (k & j & Hr & Hc & _ & _ & _ & _ & Hrl & _).
  pose proof (posted_inv _ _ _ _ _ _ _ Hr) as Hpo. exists j. split; simpl; try done.
  - split; [done|]. simpl. unfold get_at in Ed. simpl in Ed. apply lookup_lt_Some in Ed. unfold zlen. lia.
  - split; [split; [done|]|done]. exists k, (to_LKey (u_opts u)), 0, 0, []. done.
  - split; [apply (uo_region _ Hu)|done].
  - rewrite Hpo. set_solver.
  - unfold conserved, flight. simpl. rewrite Hfl, Hpo. cbn [map]. rewrite !app_nil_r, Hpf, Hpf2, !reverse_Permutation. done.
Qed.

Lemma mreach_inv pin s : mreach pin u s ->
  exists j, finv (u_gt u) (u_gr u) (pool_inv (u_checked u) (u_gt u)) (pool_inv (u_checked u) (u_gr u)) rlen j s /\
    forall op, may (u_gt u) (u_gr u) op s -> is_Some (fdo pin op s).
Proof using Hu.
  intros (tx & rx & Etx & Erx & Hr). destruct (open_inv tx rx Etx Erx) as (j & H0). exists j.
  pose proof (frames_pool_laws (u_checked u) (u_gt u) (uo_gt _ Hu)) as L1. pose proof (frames_pool_laws (u_checked u) (u_gr u) (uo_gr _ Hu)) as L2.
  destruct (uo_log _ Hu) as [Hlog Hk]. pose proof (all_frames_disjoint _ _ (uo_gt _ Hu) (uo_gr _ Hu) Hlog (uo_ranges _ Hu)) as Hd.
  assert (Hsz : rxHeadroom < fsize (u_gr u)).
  { unfold fsize, rxHeadroom. rewrite Hlog. change 64 with (2 ^ 6). apply Z.pow_lt_mono_r; lia. }
  pose proof (freach_inv pin (u_gt u) (u_gr u) _ _ rlen j Hlog (proj2 Hk) Hd Hsz (proj2 (uo_region _ Hu)) _ _ H0 Hr) as Hs.
  split; [exact Hs|]. intros op Hm.
  destruct (fdo_inv pin (u_gt u) (u_gr u) _ _ rlen j Hlog (proj2 Hk) Hd Hsz (proj2 (uo_region _ Hu)) op s Hs Hm) as (s' & E & _). by exists s'.
Qed.
End opening.

(** ** A concrete device *)

(** Eight frames of 128 bytes, four to each direction; two send rings of four
    blocks and a receive ring of four entries. *)
Definition freshEntry : list Z := replicate 63 0 ++ [0xf0].
Definition fourFresh : list Z := freshEntry ++ freshEntry ++ freshEntry ++ freshEntry.
Definition exDv : DvTx := mkDvTx (replicate 256 0) fourFresh true 7 3 4 4.
Definition exDvr : DvRx := mkDvRx (replicate 64 0) fourFresh true 16 4.
Definition exSetup : setup :=
  mkSetup true (mkTxOptions false 128 0 0 9 4096) (mkRegion (replicate 1024 0) 128 127 8 false) (mkInfo 0 0 0)
    [Ok exDv; Ok exDv] exDvr (mkGeo 7 0 4) (mkGeo 7 4 4) 0 false false.

Definition exTxQ : TxQueue Frames := Eval vm_compute in
  match open_tx exSetup with
  | Some (Ok q) => q
  | _ => mkTxQueue [] [] 0 (mkFrames [] 0 0 0 0 0 0 0 []) (mkStalls 0 0) (mkStalls 0 0) 0 0 0 0 0 (mkPlacement false 0 None) 0 true
  end.
Definition exRx0 : Rx := mkRx (mkRxParams 0 0 0 (mkCQ 0 0 0) 0 0 0) [] 0 0 0 0 0 [] [] None zeroRxCounters 0 (mkRxStats zeroRxCounters 0).
Definition exRxQ : RxQueue Frames := Eval vm_compute in
  match open_rx exSetup with
  | Some (Ok q) => q
  | _ => mkRxQueue None exRx0 (mkFrames [] 0 0 0 0 0 0 0 []) 0 0 0 (mkPlacement false 0 None) 0 true None
  end.

Lemma exTxQ_open : open_tx exSetup = Some (Ok exTxQ). Proof. vm_compute. reflexivity. Qed.
Lemma exRxQ_open : open_rx exSetup = Some (Ok exRxQ). Proof. vm_compute. reflexivity. Qed.

Lemma exSetup_fresh t : NewTx (u_cfg exSetup exDv) = Some (Ok t) -> cfg_ok (u_cfg exSetup exDv) -> fresh_cq (cq (par t)) (dv_CQ exDv).
Proof.
  intros E Hcfg. destruct (NewTx_inv _ t Hcfg E) as (kb & ks & kf & j & _ & _ & Hc & _).
  assert (Hj : j = 2).
  { destruct Hc as (Hj & Hz & _). change (zlen (cfg_CQ (u_cfg exSetup exDv))) with 256 in Hz. apply (Z.pow_inj_r 2); lia. }
  subst j. intros i. change (dv_CQ exDv) with (cfg_CQ (u_cfg exSetup exDv)). rewrite (Load_eq 2 _ _ Hc). change (2 ^ 2) with 4. pose proof (Z.mod_pos_bound i 4).
  assert (Hcase : i mod 4 = 0 \/ i mod 4 = 1 \/ i mod 4 = 2 \/ i mod 4 = 3) by lia.
  destruct Hcase as [-> | [-> | [-> | ->]]]; eexists; split; reflexivity.
Qed.

Lemma exSetup_ok : setup_ok exSetup.
Proof.
  assert (Hcfg : cfg_ok (u_cfg exSetup exDv)).
  { split; try (vm_compute; done || (split; congruence)). unfold bytes_ok. repeat constructor; vm_compute; congruence. }
  assert (Hz : zlen (rg_b (u_region exSetup)) = 1024) by (vm_compute; reflexivity).
  split; rewrite ?Hz.
  - unfold geo_ok, fsize. simpl. lia.
  - unfold geo_ok, fsize. simpl. lia.
  - simpl. lia.
  - simpl. lia.
  - done.
  - unfold region_ok. rewrite Hz. unfold fsize. simpl. split_and!; try done; lia.
  - unfold fsize. simpl. lia.
  - intros dv Hdv. assert (dv = exDv) as ->.
    { unfold exSetup in Hdv. simpl in Hdv. rewrite !elem_of_cons in Hdv. destruct Hdv as [[= ->]|[[= ->]|Hn]]; [done..|]. by apply not_elem_of_nil in Hn. }
    split; [exact Hcfg|]. split; [vm_compute; congruence|]. intros t Et. by apply exSetup_fresh.
  - split; try (vm_compute; done || (split; congruence)). unfold bytes_ok. repeat constructor; vm_compute; congruence.
Qed.

(** The program takes three frames, transmits two and posts two buffers. *)
Definition exPin : res Z := Ok 2.
Definition exS0 : fsys Frames := Eval vm_compute in opened exSetup exTxQ exRxQ.
Definition exDs : list Desc := [mkDesc 256 60 0; mkDesc 130 100 0].
Definition exRest : list Desc := [mkDesc 0 0 0].
Definition run (ops : list fop) : fsys Frames := default exS0 (foldM (fun s op => @fdo Frames (frames_pool true) exPin op s) ops exS0).
Definition exS1 : fsys Frames := Eval vm_compute in run [OAlloc 3].
Definition exS2 : fsys Frames := Eval vm_compute in run [OAlloc 3; OTransmit exDs exRest].
Definition exS3 : fsys Frames := Eval vm_compute in run [OAlloc 3; OTransmit exDs exRest; OFill 2].

Lemma ex_mreach : mreach exPin exSetup exS3.
Proof.
  exists exTxQ, exRxQ. split; [exact exTxQ_open|]. split; [exact exRxQ_open|].
  assert (E0 : opened exSetup exTxQ exRxQ = exS0) by (vm_compute; reflexivity). rewrite E0.
  eapply (freach_step exPin _ _ _ (OFill 2) exS2); [|exact I|vm_compute; reflexivity].
  eapply (freach_step exPin _ _ _ (OTransmit exDs exRest) exS1); [| |vm_compute; reflexivity].
  - eapply (freach_step exPin _ _ _ (OAlloc 3) exS0); [apply freach_init|exact I|vm_compute; reflexivity].
  - split; [|repeat constructor; vm_compute; congruence].
    assert (E : map (frame_at (u_gt exSetup)) (f_held exS1) = [256; 128; 0]) by (vm_compute; reflexivity). rewrite E. vm_compute. reflexivity.
Qed.

(** ** Properties *)

(** C3: over every run of a program that keeps to the contract, whatever
    descriptors it transmits and whatever the receive device reports, each
    frame of the device is in exactly one place: on one of the two free
    lists, with the program, in flight or posted for receiving.  No free list
    ever has to refuse a frame, and the counts the queues report add up to
    the frames there are. *)
Theorem mlx5_frames_conserved pin u s :
  setup_ok u -> mreach pin u s ->
  let owners := free (tq_pool (f_tx s)) ++ free (rq_pool (f_rx s)) ++
    map (frame_at (u_gt u)) (f_held s ++ flight (f_tx s) ++ posted_of (rq_ring (f_rx s))) in
  all_frames (u_gt u) ++ all_frames (u_gr u) ≡ₚ owners /\ NoDup owners /\
  Rejected (tq_pool (f_tx s)) = 0 /\ Rejected (rq_pool (f_rx s)) = 0 /\
  PoolLen (tq_pool (f_tx s)) + PoolLen (rq_pool (f_rx s)) + zlen (f_held s) + NumInFlight (f_tx s) + NumOutstanding (f_rx s) =
    g_count (u_gt u) + g_count (u_gr u).
Proof.
  intros Hu Hr owners. destruct (mreach_inv u Hu pin s Hr) as (j & Hs & _).
  assert (Hp : all_frames (u_gt u) ++ all_frames (u_gr u) ≡ₚ owners).
  { unfold owners. rewrite !map_app. apply Hs. }
  split; [done|]. split.
  { rewrite <- Hp. apply all_frames_disjoint; [apply Hu|apply Hu|apply (uo_log _ Hu)|apply (uo_ranges _ Hu)]. }
  split; [apply (fi_rejected _ _ _ _ _ _ _ Hs)|]. split; [apply (fi_rejected _ _ _ _ _ _ _ Hs)|].
  apply Permutation_length in Hp. unfold owners in Hp. rewrite !length_app, length_map, !length_app in Hp.
  rewrite (NumInFlight_flight (u_gt u) _ _ _ (fi_tx _ _ _ _ _ _ _ Hs)).
  assert (Ho : NumOutstanding (f_rx s) = zlen (posted_of (rq_ring (f_rx s)))).
  { destruct (fi_rx _ _ _ _ _ _ _ Hs) as [(_ & k & lkey & C & Q & out & Hi & _) _]. unfold NumOutstanding. rewrite (posted_inv _ _ _ _ _ _ _ Hi).
    by apply (rx_outstanding _ _ _ _ _ _ _ Hi). }
  rewrite Ho, <- (zlen_all_frames _ (uo_gt _ Hu)), <- (zlen_all_frames _ (uo_gr _ Hu)). unfold PoolLen, zlen. lia.
Qed.

Lemma mlx5_frames_conserved_witness :
  setup_ok exSetup /\ mreach exPin exSetup exS3 /\
  all_frames (mkGeo 7 0 4) ++ all_frames (mkGeo 7 4 4) ≡ₚ
    free (tq_pool (f_tx exS3)) ++ free (rq_pool (f_rx exS3)) ++ map (frame_at (mkGeo 7 0 4)) (f_held exS3 ++ flight (f_tx exS3) ++ posted_of (rq_ring (f_rx exS3))).
Proof.
  split; [exact exSetup_ok|]. split; [exact ex_mreach|]. exact (proj1 (mlx5_frames_conserved exPin exSetup exS3 exSetup_ok ex_mreach)).
Defined.

(** C33: no operation of the queues panics on any state a run reaches, with
    any arguments the contract permits. *)
Theorem mlx5_never_panics pin u s op :
  setup_ok u -> mreach pin u s -> may (u_gt u) (u_gr u) op s ->
  is_Some (@fdo Frames (frames_pool (u_checked u)) pin op s).
Proof. intros Hu Hr Hm. destruct (mreach_inv u Hu pin s Hr) as (j & _ & Hop). by apply Hop. Qed.

Lemma mlx5_never_panics_witness :
  mreach exPin exSetup exS3 /\ is_Some (@fdo Frames (frames_pool true) exPin (OReclaim 8) exS3).
Proof.
  split; [exact ex_mreach|]. apply (mlx5_never_panics exPin exSetup exS3 (OReclaim 8) exSetup_ok ex_mreach).
  exact (eq_refl : (8 ?= 2 ^ 32) = Lt).
Defined.

(** The packets a caller makes of the frames [Alloc] gave it. *)
Definition packets_of (ds : list Desc) (lens : list Z) : list Desc := zip_with (fun d l => mkDesc (Addr d) l 0) ds lens.

Lemma packets_ok g inv rlen ds addrs lens `{!FramePool Frames} `{!FramePoolLaws Frames g inv} :
  g_log g <= 31 -> (g_first g + g_count g) * fsize g <= rlen -> Forall (fun a => a ∈ all_frames g) addrs -> ds = map (fun a => mkDesc a 0 0) addrs ->
  Forall (fun l => 1 <= l <= fsize g) lens -> Forall (fun d => desc_ok d /\ in_one_frame (g_log g) rlen d) (packets_of ds lens).
Proof.
  intros Hk Hin Ha -> Hl. apply Forall_forall. intros d Hd. unfold packets_of in Hd. apply elem_of_lookup_zip_with in Hd as (i & d0 & l & -> & E1 & E2).
  rewrite list_lookup_fmap in E1. destruct (addrs !! i) as [a|] eqn:Ea; [|done]. injection E1 as <-. simpl.
  rewrite Forall_forall in Ha, Hl. pose proof (Ha a (list_elem_of_lookup_2 _ _ _ Ea)) as Hm. specialize (Hl l (list_elem_of_lookup_2 _ _ _ E2)).
  pose proof (fp_geo (g := g) (inv := inv)) as Hg. apply (elem_all_frames g a Hg) in Hm as [Hr Hm].
  destruct Hg as (Hlog & Hf & Hc & Hb). pose proof (fsize_pos g Hlog) as Hp. unfold frame in Hr.
  assert (a + fsize g <= (g_first g + g_count g) * fsize g).
  { pose proof (Z.div_mod a (fsize g) ltac:(lia)). assert (a / fsize g < g_first g + g_count g) by nia. nia. }
  assert (fsize g <= 2 ^ 31) by (unfold fsize; apply Z.pow_le_mono_r; lia).
  split; [unfold desc_ok; simpl; nia|]. unfold in_one_frame. simpl. fold (fsize g). rewrite Hm. lia.
Qed.

(** What [Alloc] hands out, the following [Transmit] takes: on queues
    that do not copy packets, a batch built in the frames [Alloc] returned,
    each packet of at least one byte and no longer than its frame, is taken
    whole, so a caller that transmits everything it allocated leaks nothing. *)
Theorem Alloc_then_Transmit pin u s n :
  setup_ok u -> mreach pin u s -> Forall (fun r => exact_mode (par r)) (tq_rings (f_tx s)) ->
  exists ds tx, @Alloc Frames (frames_pool (u_checked u)) pin n (f_tx s) = Some (ds, tx) /\
    forall lens, length lens = length ds -> Forall (fun l => 1 <= l <= fsize (u_gt u)) lens ->
    exists tx', Transmit pin (f_rg s) (packets_of ds lens) tx = Some (zlen ds, tx').
Proof.
  intros Hu Hr Hmode. destruct (mreach_inv u Hu pin s Hr) as (j & [Htx _ Htp _ [_ Hrg] _ _ _] & _).
  pose proof (frames_pool_laws (u_checked u) (u_gt u) (uo_gt _ Hu)) as L1. set (FPI := frames_pool (u_checked u)) in *.
  destruct (next_ring (u_gt u) _ _ _ Htx) as (r & d & Er & El & _).
  destruct (Alloc_spec (u_gt u) _ pin _ n _ _ r Htx Htp Er) as (ds & tx & E & [Hq' Hi' _ Hfree _ [addrs Hds] (Hcl & Hnx & Hri) Hlen _]).
  exists ds, tx. split; [done|]. intros lens Hl Hlens.
  assert (Haddr : Forall (fun a => a ∈ all_frames (u_gt u)) addrs).
  { apply Forall_forall. intros a Ha. apply (fp_sub _ Htp). rewrite Hfree, Hds, map_map, map_id. set_solver. }
  pose proof (packets_ok (u_gt u) (pool_inv (u_checked u) (u_gt u)) _ ds addrs lens (proj2 (proj2 (uo_log _ Hu))) (uo_txin _ Hu) Haddr Hds Hlens) as Hok.
  apply Forall_and in Hok as [Hok1 Hok2].
  assert (Hzl : zlen (packets_of ds lens) = zlen ds) by (unfold packets_of, zlen; rewrite length_zip_with; lia).
  destruct (Transmit_spec (u_gt u) pin _ (f_rg s) (packets_of ds lens) tx _ Hq' Hrg Hok1) as (m & tx' & E2 & Hm & _ & _ & _ & _ & Hall).
  exists tx'. rewrite E2. do 2 f_equal. destruct (decide (ds = [])) as [->|Hne]; [change (zlen (@nil Desc)) with 0 in *; lia|].
  destruct (tq_closed (f_tx s)) eqn:Hclosed.
  { exfalso. unfold Alloc in E. rewrite Hclosed in E. simpl in E. by injection E as <- _. }
  rewrite (Hall r); [rewrite Hzl; lia|by rewrite Hnx, (Hri Hne)|by rewrite Hcl| |done].
  rewrite Forall_forall in Hmode. apply Hmode. by eapply list_elem_of_lookup_2.
Qed.

Lemma Alloc_then_Transmit_witness :
  mreach exPin exSetup exS3 /\
  exists ds tx, @Alloc Frames (frames_pool true) exPin 5 (f_tx exS3) = Some (ds, tx) /\
    forall lens, length lens = length ds -> Forall (fun l => 1 <= l <= 128) lens ->
    exists tx', Transmit exPin (f_rg exS3) (packets_of ds lens) tx = Some (zlen ds, tx').
Proof.
  split; [exact ex_mreach|]. apply (Alloc_then_Transmit exPin exSetup exS3 5 exSetup_ok ex_mreach). repeat constructor.
Defined.

(** C16: [SendFunc], from any state a program can reach in which the device
    has only frames of the transmit pool, with any callback that stays in the
    frame it is given.  It always returns.  A queue that is closed or failed
    reports so and nothing happens.  Otherwise everything the device has
    finished with comes back first; as many frames as asked for, as there is
    room for and as are free are offered to the callback, in turn and each with
    its own bytes; the number reported is that of the packets the callback
    built which the device has been given, the first ones, all of them unless
    the queue copies packets; and they are exactly what the device has more
    than what it had not finished with ([cycle]).  A length outside the frame
    is [ErrBadLength], and the device has nothing more.  In every case each
    frame is back on the free list or with the device. *)
Theorem SendFunc_exact {St} pin u s count (build : Z -> list Z -> St -> Z * list Z * St) st :
  setup_ok u -> mreach pin u s -> count + zlen (flight (f_tx s)) < 2 ^ 32 ->
  map (frame_at (u_gt u)) (flight (f_tx s)) ⊆ all_frames (u_gt u) ->
  (forall i f st, zlen (snd (fst (build i f st))) = zlen f) ->
  let _ := frames_pool (u_checked u) in
  exists r rg st' tx', SendFunc pin build count (map td_cq (f_devs s)) (f_rg s) st (f_tx s) = Some (r, rg, st', tx') /\
    cycle (u_gt u) pin build count (map td_cq (f_devs s)) (f_rg s) st (f_tx s) r rg st' tx' /\
    free (tq_pool (f_tx s)) ++ map (frame_at (u_gt u)) (flight (f_tx s)) ≡ₚ free (tq_pool tx') ++ map (frame_at (u_gt u)) (flight tx') /\
    Rejected (tq_pool tx') = 0.
Proof.
  intros Hu Hr Hc Hown Hb. cbv zeta. destruct (mreach_inv u Hu pin s Hr) as (j & [Htx _ Htp _ [Hrg Hrl] [Hj _] _ Hcons] & _).
  pose proof (frames_pool_laws (u_checked u) (u_gt u) (uo_gt _ Hu)) as L1. set (FPI := frames_pool (u_checked u)) in *.
  set (T := fp_free (tq_pool (f_tx s)) ++ map (frame_at (u_gt u)) (flight (f_tx s))).
  assert (Hn : NoDup T).
  { pose proof (all_frames_disjoint _ _ (uo_gt _ Hu) (uo_gr _ Hu) (proj1 (uo_log _ Hu)) (uo_ranges _ Hu)) as Hd.
    apply (part_NoDup (u_gt u) (u_gr u) Hd s T (fp_free (rq_pool (f_rx s)) ++ map (frame_at (u_gt u)) (f_held s) ++ map (frame_at (u_gt u)) (posted_of (rq_ring (f_rx s)))) Hcons).
    unfold T. solve_Permutation. }
  assert (Hs : T ⊆ all_frames (u_gt u)) by (pose proof (fp_sub _ Htp); unfold T; set_solver).
  assert (HA : accounted (u_gt u) T (f_tx s) []) by (unfold accounted, T; by rewrite app_nil_r).
  destruct (SendFunc_spec (u_gt u) _ pin _ (proj2 (proj2 (uo_log _ Hu))) build Hb T Hn Hs count _ _ _ st Htx Htp Hrg Hrl HA Hc) as
    (r & rg' & st' & tx' & E & [H1 H2 H3 H4 H5 H6]).
  exists r, rg', st', tx'. split; [done|]. split; [apply H6; apply (geo_frames_within _ _ (uo_gt _ Hu) (uo_txin _ Hu))|].
  split; [unfold accounted in H3; by rewrite app_nil_r in H3|]. exact (eq_trans H5 Hj).
Qed.

(** A callback that fills two packets of 60 bytes and then stops. *)
Definition exBuild (i : Z) (f : list Z) (st : unit) : Z * list Z * unit := (if i <? 2 then 60 else 0, f, st).

(** Two packets are with the device, one frame is held and one is free: that
    one is offered and sent, and the callback is not asked again. *)
Lemma SendFunc_exact_witness :
  let _ := frames_pool true in
  exists rg tx', SendFunc exPin exBuild 4 (map td_cq (f_devs exS3)) (f_rg exS3) tt (f_tx exS3) = Some (Ok 1, rg, tt, tx') /\
    cycle (mkGeo 7 0 4) exPin exBuild 4 (map td_cq (f_devs exS3)) (f_rg exS3) tt (f_tx exS3) (Ok 1) rg tt tx' /\
    NumInFlight tx' = 3.
Proof.
  destruct (SendFunc_exact exPin exSetup exS3 4 exBuild tt exSetup_ok ex_mreach) as (r & rg & [] & tx' & E & Hc & _).
  - vm_compute. reflexivity.
  - assert (E : map (frame_at (u_gt exSetup)) (flight (f_tx exS3)) = [256; 128]) by (vm_compute; reflexivity). rewrite E.
    intros a Ha. apply (bool_decide_unpack (a ∈ all_frames (mkGeo 7 0 4))). rewrite !elem_of_cons in Ha. destruct Ha as [-> | [-> | Ha]]; [vm_compute; exact I..|].
    by apply not_elem_of_nil in Ha.
  - intros i f st. reflexivity.
  - cbv zeta in *. exists rg, tx'. assert (Hr : r = Ok 1 /\ NumInFlight tx' = 3) by (vm_compute in E; injection E as <- _ <-; split; vm_compute; reflexivity).
    destruct Hr as [-> Hn]. split; [exact E|]. split; [exact Hc|exact Hn].
Defined.

(** A closed queue does nothing: it hands out and takes no frame,
    reports [ErrClosed], and a second [Close] is harmless. *)
Theorem closed_queues_inert {P} `{!FramePool P} {St} pin (build : Z -> list Z -> St -> Z * list Z * St) dvClose dvrClose (tx : TxQueue P) (rx : RxQueue P)
    n cqs cqb rg ds out st timeout start looks :
  let tx' := snd (TxQueue_close dvClose tx) in
  let rx' := snd (RxQueue_close dvrClose rx) in
  Alloc pin n tx' = Some ([], tx') /\ Transmit pin rg ds tx' = Some (0, tx') /\ TxQueue_Complete n cqs tx' = Some (0, tx') /\
  Reclaim n cqs out tx' = Some (out, tx') /\ SendFunc pin build n cqs rg st tx' = Some (Err (Sentinel ErrClosed), rg, st, tx') /\
  TxQueue_Err tx' = Some (Sentinel ErrClosed) /\ TxQueue_close dvClose tx' = (None, tx') /\
  RxQueue_Fill pin n rx' = Some (0, rx') /\ RxQueue_Receive pin n cqb rx' = Some ([], rx') /\
  RxQueue_ReceiveTimestamps pin n cqb rx' = Some (None, rx') /\ RxQueue_Poll timeout start looks rx' = Some (Some (Err (Sentinel ErrClosed))) /\
  RxQueue_Err rx' = Some (Sentinel ErrClosed) /\ RxQueue_close dvrClose rx' = (None, rx').
Proof.
  intros tx' rx'. assert (Ht : tq_closed tx' = true) by (unfold tx', TxQueue_close; by destruct (tq_closed tx) eqn:E).
  assert (Hr : rq_closed rx' = true) by (unfold rx', RxQueue_close; by destruct (rq_closed rx) eqn:E).
  unfold Alloc, Transmit, TxQueue_Complete, Reclaim, SendFunc, TxQueue_Err, TxQueue_close, RxQueue_Fill, RxQueue_Receive, RxQueue_ReceiveTimestamps, RxQueue_Poll,
    RxQueue_Err, RxQueue_close. rewrite Ht, Hr. by split_and!.
Qed.

(** A completion of a format the send ring does not decode puts it out of
    action without saying so: every later [Complete] finds the same entry,
    releases nothing and leaves the queue in service with one more error
    counted, so [Err] goes on reporting nothing. *)
Theorem Complete_wedged_by_format max cqbuf out t h :
  0 < max -> LoadCQEHeader (cq (par t)) (ci t) cqbuf = Some h -> Owned (cq (par t)) (ci t) h = true ->
  Format h <> CQEFormatNoData -> 0 < Entries (cq (par t)) ->
  Complete max cqbuf out t = Some (out, with_counters inc_errors t).
Proof.
  intros Hmax Hl Ho Hf He. unfold Complete. rewrite (proj2 (Z.leb_gt max 0)) by lia.
  destruct (Z.to_nat (Entries (cq (par t)))) as [|n] eqn:En; [lia|]. cbn [complete_loop r_ci]. rewrite Hl. cbn [mbind option_bind].
  rewrite Ho, (proj2 (Z.eqb_neq _ _) Hf). cbn [negb mbind option_bind r_ci r_completed r_failed r_errors r_release]. reflexivity.
Qed.

(** The first entry of a queue of four, written with the compressed format. *)
Definition exCompressed : list Z := (replicate 63 0 ++ [0x0c]) ++ freshEntry ++ freshEntry ++ freshEntry.

Lemma Complete_wedged_by_format_witness :
  exists t h, tq_rings (f_tx exS3) !! 0%nat = Some t /\ Format h = 3 /\ Complete 8 exCompressed [] t = Some ([], with_counters inc_errors t) /\
    failed (with_counters inc_errors t) = None /\ ci (with_counters inc_errors t) = ci t.
Proof.
  destruct (tq_rings (f_tx exS3) !! 0%nat) as [t|] eqn:E; [|discriminate E]. exists t, 0xc. split; [exact eq_refl|]. split; [reflexivity|].
  injection E as <-. split; [|split; reflexivity].
  apply (Complete_wedged_by_format 8 exCompressed [] _ 0xc); [reflexivity|vm_compute; reflexivity|vm_compute; reflexivity|vm_compute; discriminate|reflexivity].
Defined.
