(* ===== verification/Mbuf.v ===== *)
(** The DPDK packet buffer header: dpdk/internal/mbuf/mbuf.go.

    An mbuf is 128 bytes inside the frame region; its fields are read and
    written at fixed offsets, little-endian, the host order of both
    architectures the backend builds for.  [None] is an index out of range. *)

From stdpp Require Import prelude list numbers strings.
From S2P Require Import Prelude Bytes.

Definition mbufSize : Z := 128.

Definition offBufAddr : Z := 0.
Definition offBufIOVA : Z := 8.
Definition offRearm : Z := 16.
Definition offDataOff : Z := 16.
Definition offRefcnt : Z := 18.
Definition offNbSegs : Z := 20.
Definition offPort : Z := 22.
Definition offOlFlags : Z := 24.
Definition offPktLen : Z := 36.
Definition offDataLen : Z := 40.
Definition offVLANTCI : Z := 42.
Definition offBufLen : Z := 54.
Definition offPool : Z := 56.
Definition offNext : Z := 64.
Definition offTxOffload : Z := 72.

Definition RxIPChecksumGood : Z := Z.shiftl 1 7.
Definition RxL4ChecksumGood : Z := Z.shiftl 1 8.
Definition PortInvalid : Z := 0xffff.

(** ** Where things sit inside a frame *)

Record Layout : Set := mkLayout { l_FrameSize : Z; l_ObjHeader : Z; l_MbufSize : Z; l_Headroom : Z }.

Definition DataStart (l : Layout) : Z := l_ObjHeader l + l_MbufSize l + l_Headroom l.
Definition MbufOffset (l : Layout) (frame : Z) : Z := frame + l_ObjHeader l.
Definition BufferOffset (l : Layout) (frame : Z) : Z := frame + l_ObjHeader l + l_MbufSize l.
Definition BufferLen (l : Layout) : Z := l_FrameSize l - l_ObjHeader l - l_MbufSize l.
Definition MaxPacket (l : Layout) : Z := l_FrameSize l - DataStart l.
Definition FrameOf (l : Layout) (off : Z) : Z := off &^ u64 (l_FrameSize l - 1).

Definition Layout_Validate (l : Layout) : res unit :=
  if (l_FrameSize l <=? 0) || negb (OnesCount (u64 (l_FrameSize l)) =? 1) then
    Err (Errorf "dpdk: a frame size which must be a power of two")
  else if (l_ObjHeader l <? 0) || (l_MbufSize l <? mbufSize) || (l_Headroom l <? 0) then
    Err (Errorf "dpdk: an object header, mbuf and headroom")
  else if DataStart l >=? l_FrameSize l then
    Err (Errorf "dpdk: a frame has no room for a packet after object header, mbuf and headroom")
  else Ok tt.

(** ** Fields *)

Definition SetBuffer (m addr iova bufLen : Z) (b : list Z) : option (list Z) :=
  b ← put_le 8 (m + offBufAddr) addr b;
  b ← put_le 8 (m + offBufIOVA) iova b;
  put_le 2 (m + offBufLen) bufLen b.

Definition BufAddr (b : list Z) (m : Z) : option Z := get_le 8 (m + offBufAddr) b.
Definition BufIOVA (b : list Z) (m : Z) : option Z := get_le 8 (m + offBufIOVA) b.
Definition BufLen (b : list Z) (m : Z) : option Z := get_le 2 (m + offBufLen) b.
Definition mbufPool (b : list Z) (m : Z) : option Z := get_le 8 (m + offPool) b.
Definition SetPool (m pool : Z) (b : list Z) : option (list Z) := put_le 8 (m + offPool) pool b.

Definition rearm (dataOff refcnt nbSegs port : Z) : Z :=
  Z.lor (Z.lor (Z.lor dataOff (Z.shiftl refcnt 16)) (Z.shiftl nbSegs 32)) (Z.shiftl port 48).

Definition mbufReset (m headroom : Z) (b : list Z) : option (list Z) :=
  b ← put_le 8 (m + offRearm) (rearm headroom 1 1 PortInvalid) b;
  b ← put_le 8 (m + offOlFlags) 0 b;
  b ← put_le 8 (m + offNext) 0 b;
  b ← put_le 8 (m + offTxOffload) 0 b;
  b ← put_le 4 (m + offPktLen) 0 b;
  put_le 2 (m + offDataLen) 0 b.

Definition ResetRx (m headroom pool : Z) (b : list Z) : option (list Z) :=
  b ← put_le 8 (m + offRearm) (rearm headroom 1 1 PortInvalid) b;
  b ← put_le 8 (m + offNext) 0 b;
  put_le 8 (m + offPool) pool b.

Definition PrepareTx (m pool dataOff length : Z) (b : list Z) : option (list Z) :=
  b ← put_le 8 (m + offRearm) (rearm dataOff 1 1 PortInvalid) b;
  b ← put_le 8 (m + offOlFlags) 0 b;
  b ← put_le 4 (m + offPktLen) length b;
  b ← put_le 2 (m + offDataLen) (u16 length) b;
  b ← put_le 8 (m + offNext) 0 b;
  SetPool m pool b.

(** Data offset, segments, data length and flags, from three wide loads. *)
Definition RxRead (b : list Z) (m : Z) : option (Z * Z * Z * Z) :=
  rearmWord ← get_le 8 (m + offRearm) b;
  lenWord ← get_le 8 (m + offPktLen) b;
  olFlags ← get_le 8 (m + offOlFlags) b;
  Some (u16 rearmWord, u16 (Z.shiftr rearmWord 32), u16 (Z.shiftr lenWord 32), olFlags).

Definition DataOff (b : list Z) (m : Z) : option Z := get_le 2 (m + offDataOff) b.
Definition DataLen (b : list Z) (m : Z) : option Z := get_le 2 (m + offDataLen) b.
Definition PktLen (b : list Z) (m : Z) : option Z := get_le 4 (m + offPktLen) b.
Definition NbSegs (b : list Z) (m : Z) : option Z := get_le 2 (m + offNbSegs) b.
Definition SetNbSegs (m n : Z) (b : list Z) : option (list Z) := put_le 2 (m + offNbSegs) n b.
Definition OlFlags (b : list Z) (m : Z) : option Z := get_le 8 (m + offOlFlags) b.
Definition SetOlFlags (m v : Z) (b : list Z) : option (list Z) := put_le 8 (m + offOlFlags) v b.
Definition VLANTCI (b : list Z) (m : Z) : option Z := get_le 2 (m + offVLANTCI) b.

Definition SetTxOffload (m l2Len l3Len : Z) (b : list Z) : option (list Z) :=
  put_le 8 (m + offTxOffload) (Z.lor (Z.land l2Len 0x7f) (Z.shiftl (Z.land l3Len 0x1ff) 7)) b.
Definition TxOffload (b : list Z) (m : Z) : option Z := get_le 8 (m + offTxOffload) b.

Definition SetTxOffloadTSO (m l2Len l3Len l4Len segSize : Z) (b : list Z) : option (list Z) :=
  put_le 8 (m + offTxOffload)
    (Z.lor (Z.lor (Z.lor (Z.land l2Len 0x7f) (Z.shiftl (Z.land l3Len 0x1ff) 7)) (Z.shiftl (Z.land l4Len 0xff) 16))
       (Z.shiftl (Z.land segSize 0xffff) 24)) b.

(** ** Offload flags and packet headers *)

Definition TxIPv4 : Z := Z.shiftl 1 55.
Definition TxIPv6 : Z := Z.shiftl 1 56.
Definition TxIPChecksum : Z := Z.shiftl 1 54.
Definition TxTCPChecksum : Z := Z.shiftl 1 52.
Definition TxUDPChecksum : Z := Z.shiftl 3 52.
Definition TxTCPSeg : Z := Z.shiftl 1 50.

Definition ProtoTCP : Z := 6.
Definition ProtoUDP : Z := 17.
Definition udpHeaderLen : Z := 8.
Definition tcpHeaderLen : Z := 20.
Definition etherIPv4 : Z := 0x0800.
Definition etherIPv6 : Z := 0x86dd.
Definition etherVLAN : Z := 0x8100.
Definition etherQinQ : Z := 0x88a8.
Definition etherQinQ2 : Z := 0x9100.

Record Headers : Set := mkHeaders { L2Len : Z; L3Len : Z; hIPv4 : bool; hIPv6 : bool; hProto : Z }.

(** [int(p[off])<<8 | int(p[off+1])]. *)
Definition be16_at (off : Z) (p : list Z) : option Z :=
  a ← get_at off p; b ← get_at (off + 1) p; Some (Z.lor (Z.shiftl a 8) b).

Definition is_tag (et : Z) : bool := (et =? etherVLAN) || (et =? etherQinQ) || (et =? etherQinQ2).

(** Steps over at most [tags] VLAN tags; [None] inside is a packet too short. *)
Fixpoint skip_tags (tags : nat) (et off : Z) (p : list Z) : option (option (Z * Z)) :=
  match tags with
  | O => Some (Some (et, off))
  | S tags =>
      if is_tag et then
        if zlen p <? off + 4 then Some None
        else et ← be16_at (off + 2) p; skip_tags tags et (off + 4) p
      else Some (Some (et, off))
  end.

Definition noHeaders : Headers := mkHeaders 0 0 false false 0.

(** The IP header at [off]: its version, length and protocol. *)
Definition parse_ip (et off : Z) (p : list Z) : option (Headers * bool) :=
  let h0 := mkHeaders off 0 false false 0 in
  if et =? etherIPv4 then
    if zlen p <? off + 20 then Some (h0, false)
    else
      b ← get_at off p;
      if negb (Z.shiftr b 4 =? 4) then Some (h0, false)
      else
        let ihl := Z.land b 0x0f * 4 in
        if (ihl <? 20) || (zlen p <? off + ihl) then Some (h0, false)
        else proto ← get_at (off + 9) p; Some (mkHeaders off ihl true false proto, true)
  else if et =? etherIPv6 then
    if zlen p <? off + 40 then Some (h0, false)
    else
      b ← get_at off p;
      if negb (Z.shiftr b 4 =? 6) then Some (h0, false)
      else
        next ← get_at (off + 6) p;
        if negb (next =? ProtoTCP) && negb (next =? ProtoUDP) then Some (h0, false)
        else Some (mkHeaders off 40 false true next, true)
  else Some (h0, false).

Definition Parse (p : list Z) : option (Headers * bool) :=
  if zlen p <? 14 then Some (noHeaders, false)
  else
    et ← be16_at 12 p;
    r ← skip_tags 2 et 14 p;
    match r with
    | None => Some (noHeaders, false)
    | Some (et, off) =>
        '(h, ok) ← parse_ip et off p;
        if negb ok then Some (h, false)
        else if negb (hProto h =? ProtoTCP) && negb (hProto h =? ProtoUDP) then Some (h, false)
        else
          let need := if hProto h =? ProtoTCP then tcpHeaderLen else udpHeaderLen in
          Some (h, zlen p >=? L2Len h + L3Len h + need)
    end.

Definition ChecksumFlags (h : Headers) : Z :=
  let l4 := if hProto h =? ProtoTCP then TxTCPChecksum else if hProto h =? ProtoUDP then TxUDPChecksum else 0 in
  if hIPv4 h then Z.lor (Z.lor TxIPv4 TxIPChecksum) l4
  else if hIPv6 h then Z.lor TxIPv6 l4
  else 0.
