(* ===== verification/MbufThms.v ===== *)
(** What holds of the packet buffer header: the fields read back as written,
    and the parser finds exactly the headers a packet has. *)

From stdpp Require Import prelude list numbers strings.
From S2P Require Import Prelude Bytes Mbuf.

(** ** Wide and narrow loads *)

Lemma rearm_sum d s p : 0 <= d < 2 ^ 16 -> 0 <= s < 2 ^ 16 -> rearm d 1 s p = d + 2 ^ 16 + s * 2 ^ 32 + p * 2 ^ 48.
Proof.
  intros Hd Hs. unfold rearm. rewrite (lor_shiftl_add d 1 16), (lor_shiftl_add (d + _) s 32), (lor_shiftl_add (d + _ + _) p 48) by lia. lia.
Qed.

Lemma slice_parts {A} off (b : list A) n l : slice off (off + n) b = Some l -> zlen l = n /\
  forall lo hi, 0 <= lo <= hi -> hi <= n -> slice (off + lo) (off + hi) b = slice lo hi l.
Proof.
  intros E. pose proof (slice_length _ _ _ _ E) as El. unfold slice in E. case_if_in E; [|done]. to_prop. injection E as <-.
  split; [lia|]. intros lo hi Hl Hh. rewrite !slice_Some by lia. f_equal.
  rewrite skipn_firstn_comm, drop_drop, take_take. f_equal; [lia|]. f_equal. lia.
Qed.

Ltac eight l := destruct l as [|?b0 [|?b1 [|?b2 [|?b3 [|?b4 [|?b5 [|?b6 [|?b7 [|]]]]]]]]]; try (unfold zlen in *; simpl in *; lia).

(** Each narrow field is a part of the word around it. *)
Lemma get_le_part (n : nat) off (b : list Z) w : bytes_ok b -> get_le 8 off b = Some w ->
  get_le 2 off b = Some (u16 w) /\ get_le 2 (off + 4) b = Some (u16 (Z.shiftr w 32)) /\ get_le 4 off b = Some (u32 w).
Proof.
  intros Hb E. unfold get_le in E. destruct (slice off (off + Z.of_nat 8) b) as [l|] eqn:Es; [|done]. cbn [mbind option_bind] in E. injection E as <-.
  assert (Hl : bytes_ok l). { unfold slice in Es. case_if_in Es; [|done]. injection Es as <-. by apply Forall_take, Forall_drop. }
  destruct (slice_parts _ _ _ _ Es) as [Hz Hp]. unfold get_le. change (Z.of_nat 2) with 2. change (Z.of_nat 4) with 4. change (Z.of_nat 8) with 8 in *.
  pose proof (Hp 0 2 ltac:(lia) ltac:(lia)) as P1. pose proof (Hp 4 6 ltac:(lia) ltac:(lia)) as P2. pose proof (Hp 0 4 ltac:(lia) ltac:(lia)) as P3.
  rewrite Z.add_0_r in P1, P3. replace (off + 6) with (off + 4 + 2) in P2 by lia. rewrite P1, P2, P3.
  eight l. unfold bytes_ok, byte_ok in Hl. rewrite !Forall_cons in Hl. destruct Hl as (? & ? & ? & ? & ? & ? & ? & ? & _).
  unfold slice, zlen. simpl. rewrite Z.shiftr_div_pow2 by lia. unfold u16, u32. repeat split; f_equal; divlia.
Qed.

(** What a whole number of bytes away from a store was not touched. *)
Ltac put_step := rewrite put_le_Some by (rewrite ?zlen_blit by (rewrite ?zlen_le_bytes; lia); lia); cbn [mbind option_bind].

(** ** Headers *)

Definition byte_at (p : list Z) (i : Z) : Z := p !!! Z.to_nat i.
Definition ethertype (p : list Z) (i : Z) : Z := byte_at p i * 256 + byte_at p (i + 1).

(** [p] starts with the headers [h] describes: an Ethernet header with [k] VLAN
    tags, an IP header and a whole TCP or UDP header. *)
Record l4_packet (p : list Z) (h : Headers) (k : Z) : Prop := {
  lp_tags : 0 <= k <= 2 /\ L2Len h = 14 + 4 * k /\ forall i, 0 <= i < k -> is_tag (ethertype p (12 + 4 * i)) = true;
  lp_ip : hIPv4 h = true /\ hIPv6 h = false /\ ethertype p (12 + 4 * k) = etherIPv4 /\ byte_at p (L2Len h) / 16 = 4 /\
            L3Len h = 4 * (byte_at p (L2Len h) mod 16) /\ 20 <= L3Len h /\ hProto h = byte_at p (L2Len h + 9) \/
          hIPv4 h = false /\ hIPv6 h = true /\ ethertype p (12 + 4 * k) = etherIPv6 /\ byte_at p (L2Len h) / 16 = 6 /\
            L3Len h = 40 /\ hProto h = byte_at p (L2Len h + 6);
  lp_l4 : hProto h = ProtoTCP /\ L2Len h + L3Len h + 20 <= zlen p \/ hProto h = ProtoUDP /\ L2Len h + L3Len h + 8 <= zlen p
}.

Section parse.
Context (p : list Z) (Hp : bytes_ok p).

Lemma get_byte i : 0 <= i < zlen p -> get_at i p = Some (byte_at p i) /\ 0 <= byte_at p i < 256.
Proof using Hp.
  intros Hi. rewrite get_at_lookup by lia. assert (Hl : (Z.to_nat i < length p)%nat) by (unfold zlen in *; lia). unfold byte_at.
  rewrite (list_lookup_lookup_total_lt _ _ Hl). split; [done|]. unfold bytes_ok in Hp. rewrite Forall_lookup in Hp. apply (Hp (Z.to_nat i)).
  by apply list_lookup_lookup_total_lt.
Qed.

Lemma get_ethertype i : 0 <= i -> i + 2 <= zlen p -> be16_at i p = Some (ethertype p i).
Proof using Hp.
  intros Hi Hl. unfold be16_at. destruct (get_byte i ltac:(lia)) as [-> Ha]. destruct (get_byte (i + 1) ltac:(lia)) as [-> Hb]. cbn [mbind option_bind].
  unfold ethertype. f_equal. rewrite Z.lor_comm, (lor_shiftl_add _ _ 8) by lia. lia.
Qed.

(** Where the tags end. *)
Lemma skip_tags_spec (n : nat) off : 14 <= off <= zlen p ->
  match skip_tags n (ethertype p (off - 2)) off p with
  | None => False
  | Some None => True
  | Some (Some (et, off')) =>
      exists k, 0 <= k <= Z.of_nat n /\ off' = off + 4 * k /\ et = ethertype p (off' - 2) /\ off' <= zlen p /\
        (forall i, 0 <= i < k -> is_tag (ethertype p (off - 2 + 4 * i)) = true) /\ (k < Z.of_nat n -> is_tag et = false)
  end.
Proof using Hp.
  revert off. induction n as [|n IH]; intros off Hoff; cbn [skip_tags].
  { exists 0. rewrite Z.mul_0_r, Z.add_0_r. split_and!; try done; lia. }
  destruct (is_tag (ethertype p (off - 2))) eqn:Et.
  2: { exists 0. rewrite Z.mul_0_r, Z.add_0_r. split_and!; try done; lia. }
  destruct (Z.ltb_spec (zlen p) (off + 4)); [done|]. rewrite get_ethertype by lia. cbn [mbind option_bind].
  specialize (IH (off + 4) ltac:(lia)). replace (off + 4 - 2) with (off + 2) in IH by lia.
  destruct (skip_tags n (ethertype p (off + 2)) (off + 4) p) as [[[et off']|]|]; [|done|done].
  destruct IH as (k & Hk & E1 & E2 & E3 & Ht & Hlast). exists (k + 1). split_and!; try done; try lia.
  - intros i Hi. destruct (decide (i = 0)) as [->|]; [by rewrite Z.mul_0_r, Z.add_0_r|].
    replace (off - 2 + 4 * i) with (off + 2 + 4 * (i - 1)) by lia. apply Ht. lia.
  - intros Hlt. apply Hlast. lia.
Qed.

(** A packet whose headers are there has its tags skipped. *)
Lemma skip_tags_reach (n : nat) k off : 0 <= k <= Z.of_nat n -> 14 <= off -> off + 4 * k <= zlen p ->
  (forall i, 0 <= i < k -> is_tag (ethertype p (off - 2 + 4 * i)) = true) -> is_tag (ethertype p (off - 2 + 4 * k)) = false ->
  skip_tags n (ethertype p (off - 2)) off p = Some (Some (ethertype p (off - 2 + 4 * k), off + 4 * k)).
Proof using Hp.
  revert k off. induction n as [|n IH]; intros k off Hk Hoff Hl Ht Hlast; cbn [skip_tags].
  { assert (k = 0) as -> by lia. by rewrite Z.mul_0_r, !Z.add_0_r. }
  destruct (decide (k = 0)) as [->|Hk0].
  { rewrite Z.mul_0_r, !Z.add_0_r in *. by rewrite Hlast. }
  pose proof (Ht 0 ltac:(lia)) as H0. rewrite Z.mul_0_r, Z.add_0_r in H0. rewrite H0.
  destruct (Z.ltb_spec (zlen p) (off + 4)); [lia|]. rewrite get_ethertype by lia. cbn [mbind option_bind].
  specialize (IH (k - 1) (off + 4)). replace (off + 4 - 2) with (off + 2) in IH by lia. rewrite IH; try lia.
  - do 3 f_equal; [f_equal; lia|lia].
  - intros i Hi. replace (off + 2 + 4 * i) with (off - 2 + 4 * (i + 1)) by lia. apply Ht. lia.
  - by replace (off + 2 + 4 * (k - 1)) with (off - 2 + 4 * k) by lia.
Qed.

Lemma nibbles x : 0 <= x < 256 -> Z.shiftr x 4 = x / 16 /\ Z.land x 0x0f = x mod 16.
Proof using. intros Hx. split; [by rewrite Z.shiftr_div_pow2|]. apply (land_ones_mod x 4). lia. Qed.

(** The IP header: what [parse_ip] accepts. *)
Lemma parse_ip_total et off : 0 <= off -> exists h ok, parse_ip et off p = Some (h, ok).
Proof using Hp.
  intros Hoff. unfold parse_ip. case_if.
  - case_if; [by eauto|]. destruct (get_byte off ltac:(lia)) as [-> _]. cbn [mbind option_bind]. case_if; [by eauto|]. case_if; [by eauto|].
    destruct (get_byte (off + 9) ltac:(lia)) as [-> _]. cbn [mbind option_bind]. by eauto.
  - case_if; [|by eauto]. case_if; [by eauto|]. destruct (get_byte off ltac:(lia)) as [-> _]. cbn [mbind option_bind]. case_if; [by eauto|].
    destruct (get_byte (off + 6) ltac:(lia)) as [-> _]. cbn [mbind option_bind]. case_if; by eauto.
Qed.

Definition ip_header (et off : Z) (h : Headers) : Prop :=
  L2Len h = off /\
  (et = etherIPv4 /\ off + 20 <= zlen p /\ off + L3Len h <= zlen p /\ hIPv4 h = true /\ hIPv6 h = false /\ byte_at p off / 16 = 4 /\
     L3Len h = 4 * (byte_at p off mod 16) /\ 20 <= L3Len h /\ hProto h = byte_at p (off + 9) \/
   et = etherIPv6 /\ off + 40 <= zlen p /\ hIPv4 h = false /\ hIPv6 h = true /\ byte_at p off / 16 = 6 /\ L3Len h = 40 /\
     hProto h = byte_at p (off + 6) /\ (hProto h = ProtoTCP \/ hProto h = ProtoUDP)).

Lemma parse_ip_sound et off h : 0 <= off -> parse_ip et off p = Some (h, true) -> ip_header et off h.
Proof using Hp.
  intros Hoff. unfold parse_ip. case_if.
  - case_if; [done|]. destruct (get_byte off ltac:(lia)) as [-> Hb]. cbn [mbind option_bind]. destruct (nibbles _ Hb) as [-> ->]. case_if; [done|].
    destruct ((byte_at p off mod 16 * 4 <? 20) || (zlen p <? off + byte_at p off mod 16 * 4)) eqn:E3; [done|]. to_prop.
    destruct (get_byte (off + 9) ltac:(lia)) as [-> _]. cbn [mbind option_bind]. intros [= <-]. split; [done|]. left. simpl. split_and!; try done; lia.
  - case_if; [|done]. case_if; [done|]. destruct (get_byte off ltac:(lia)) as [-> Hb]. cbn [mbind option_bind]. destruct (nibbles _ Hb) as [-> _]. case_if; [done|].
    destruct (get_byte (off + 6) ltac:(lia)) as [-> _]. cbn [mbind option_bind].
    destruct (negb (byte_at p (off + 6) =? ProtoTCP) && negb (byte_at p (off + 6) =? ProtoUDP)) eqn:E3; [done|]. intros [= <-]. split; [done|]. right. simpl. split_and!; try done; try lia.
Qed.

Lemma parse_ip_complete et off h : 0 <= off -> ip_header et off h -> parse_ip et off p = Some (h, true).
Proof using Hp.
  intros Hoff [E0 [(-> & H1 & H2 & H3 & H4 & H5 & H6 & H7 & H8)|(-> & H1 & H2 & H3 & H4 & H5 & H6 & H7)]]; unfold parse_ip;
    destruct h as [l2 l3 v4 v6 pr]; simpl in *; subst.
  - rewrite (proj2 (Z.ltb_ge _ (off + 20))) by lia. destruct (get_byte off ltac:(lia)) as [-> Hb]. cbn [mbind option_bind]. destruct (nibbles _ Hb) as [-> ->].
    rewrite H5. cbn [negb Z.eqb Pos.eqb]. rewrite (proj2 (Z.ltb_ge _ 20)), (proj2 (Z.ltb_ge (zlen p) _)) by lia. cbn [orb].
    destruct (get_byte (off + 9) ltac:(lia)) as [-> _]. cbn [mbind option_bind]. do 3 f_equal. lia.
  - rewrite (proj2 (Z.ltb_ge _ (off + 40))) by lia. destruct (get_byte off ltac:(lia)) as [-> Hb]. cbn [mbind option_bind]. destruct (nibbles _ Hb) as [-> _].
    rewrite H4. cbn [negb Z.eqb Pos.eqb]. destruct (get_byte (off + 6) ltac:(lia)) as [-> _]. cbn [mbind option_bind].
    destruct H7 as [-> | ->]; done.
Qed.

Lemma Parse_total : exists h ok, Parse p = Some (h, ok).
Proof using Hp.
  unfold Parse. case_if; [by eauto|]. rewrite get_ethertype by lia. cbn [mbind option_bind].
  pose proof (skip_tags_spec 2 14 ltac:(lia)) as Hs. change (14 - 2) with 12 in Hs.
  destruct (skip_tags 2 (ethertype p 12) 14 p) as [[[et off]|]|]; cbn [mbind option_bind]; [|by eauto|done].
  destruct Hs as (k & Hk & -> & _). destruct (parse_ip_total et (14 + 4 * k) ltac:(lia)) as (h & ok & ->). cbn [mbind option_bind]. repeat case_if; by eauto.
Qed.

Lemma is_tag_not_ip et : et = etherIPv4 \/ et = etherIPv6 -> is_tag et = false.
Proof using. by intros [-> | ->]. Qed.

Lemma need_eq h : hProto h = ProtoTCP \/ hProto h = ProtoUDP ->
  negb (hProto h =? ProtoTCP) && negb (hProto h =? ProtoUDP) = false /\
  ((zlen p >=? L2Len h + L3Len h + (if hProto h =? ProtoTCP then tcpHeaderLen else udpHeaderLen)) = true <->
   hProto h = ProtoTCP /\ L2Len h + L3Len h + 20 <= zlen p \/ hProto h = ProtoUDP /\ L2Len h + L3Len h + 8 <= zlen p).
Proof using.
  intros [E | E]; rewrite E; split; try done; rewrite Z.geb_leb, Z.leb_le; cbn; unfold tcpHeaderLen, udpHeaderLen, ProtoTCP, ProtoUDP; lia.
Qed.

Lemma Parse_iff h : Parse p = Some (h, true) <-> exists k, l4_packet p h k.
Proof using Hp.
  split.
  - unfold Parse. case_if; [done|]. rewrite get_ethertype by lia. cbn [mbind option_bind].
    pose proof (skip_tags_spec 2 14 ltac:(lia)) as Hs. change (14 - 2) with 12 in Hs.
    destruct (skip_tags 2 (ethertype p 12) 14 p) as [[[et off]|]|]; cbn [mbind option_bind]; [|done|done].
    destruct Hs as (k & Hk & -> & -> & Hl & Ht & _). replace (14 + 4 * k - 2) with (12 + 4 * k) by lia.
    destruct (parse_ip (ethertype p (12 + 4 * k)) (14 + 4 * k) p) as [[h0 [|]]|] eqn:Ei; cbn [mbind option_bind negb]; [|done|done].
    apply parse_ip_sound in Ei as [E2 Hip]; [|lia].
    destruct (negb (hProto h0 =? ProtoTCP) && negb (hProto h0 =? ProtoUDP)) eqn:Epr; [done|]. intros [= <- Hn]. exists k.
    assert (Hpr : hProto h0 = ProtoTCP \/ hProto h0 = ProtoUDP) by (apply andb_false_iff in Epr as [Epr|Epr]; to_prop; auto).
    apply (proj2 (need_eq h0 Hpr)) in Hn. split; [split_and!; (done || lia)| |done]. rewrite E2.
    destruct Hip as [(H0 & _ & _ & H3 & H4 & H5 & H6 & H7 & H8)|(H0 & _ & H2 & H3 & H4 & H5 & H6 & _)]; [left|right]; done.
  - intros (k & [(Hk & E2 & Ht) Hip Hl4]). pose proof (zlen_nonneg p).
    assert (H3 : 20 <= L3Len h) by (destruct Hip as [?|?]; intuition lia).
    assert (Hlen : L2Len h + L3Len h + 8 <= zlen p) by (destruct Hl4 as [?|?]; lia).
    assert (Hpr : hProto h = ProtoTCP \/ hProto h = ProtoUDP) by (destruct Hl4 as [[? _]|[? _]]; auto).
    unfold Parse. rewrite (proj2 (Z.ltb_ge _ 14)) by lia. rewrite get_ethertype by lia. cbn [mbind option_bind].
    pose proof (skip_tags_reach 2 k 14 ltac:(lia) ltac:(lia) ltac:(lia)) as Hs. change (14 - 2) with 12 in Hs.
    assert (Het : ethertype p (12 + 4 * k) = etherIPv4 \/ ethertype p (12 + 4 * k) = etherIPv6) by (destruct Hip as [?|?]; intuition).
    rewrite Hs; [|intros i Hi; by apply Ht|by apply is_tag_not_ip]. cbn [mbind option_bind].
    rewrite (parse_ip_complete _ _ h); [|lia|].
    + cbn [mbind option_bind negb]. destruct (need_eq h Hpr) as [-> Hn]. do 2 f_equal. by apply Hn.
    + rewrite <- E2 in *. split; [done|]. destruct Hip as [(H1 & H2 & H4 & H5 & H6 & H7 & H8)|(H1 & H2 & H4 & H5 & H6 & H7)]; [left|right]; split_and!; (done || lia).
Qed.
End parse.

(** ** Properties *)

(** Reading a received packet's fields in three wide loads gives exactly
    what reading each field by itself does. *)
Theorem RxRead_narrow b m :
  bytes_ok b -> 0 <= m -> m + mbufSize <= zlen b ->
  RxRead b m = (dataOff ← DataOff b m; nbSegs ← NbSegs b m; dataLen ← DataLen b m; olFlags ← OlFlags b m; Some (dataOff, nbSegs, dataLen, olFlags)).
Proof.
  intros Hb Hm Hl. unfold mbufSize in Hl. unfold RxRead, DataOff, NbSegs, DataLen, OlFlags, offRearm, offPktLen, offDataOff, offNbSegs, offDataLen, offOlFlags.
  assert (Hw : forall off, 0 <= off -> off + 8 <= zlen b -> exists w, get_le 8 off b = Some w).
  { intros off H1 H2. unfold get_le. rewrite slice_Some by lia. cbn [mbind option_bind]. by eexists. }
  destruct (Hw (m + 16) ltac:(lia) ltac:(lia)) as [w1 E1]. destruct (Hw (m + 36) ltac:(lia) ltac:(lia)) as [w2 E2].
  destruct (get_le_part 0 _ _ _ Hb E1) as (P1 & P2 & _). destruct (get_le_part 0 _ _ _ Hb E2) as (_ & P3 & _).
  replace (m + 16 + 4) with (m + 20) in P2 by lia. replace (m + 36 + 4) with (m + 40) in P3 by lia. rewrite E1, E2, P1, P2, P3. cbn [mbind option_bind]. done.
Qed.

Lemma RxRead_narrow_witness :
  RxRead (map (fun i => Z.of_nat i mod 256) (seq 0 200)) 64 = Some (0x5150, 0x5554, 0x6968, 0x5f5e5d5c5b5a5958).
Proof.
  rewrite RxRead_narrow; [vm_compute; reflexivity| |discriminate|vm_compute; discriminate].
  unfold bytes_ok, byte_ok. repeat constructor; vm_compute; congruence.
Defined.

(** The parser does not look at the fragment field of an IPv4 header:
    whatever is written there, a packet it accepts stays accepted with the
    same headers.  So a fragment that is not the first of its datagram, which
    has no transport header, is taken for one that has, and the device is
    asked to write a checksum into its payload. *)
Theorem Parse_ignores_fragments p h x y :
  bytes_ok p -> byte_ok x -> byte_ok y -> Parse p = Some (h, true) -> hIPv4 h = true ->
  let p' := <[Z.to_nat (L2Len h + 6) := x]> (<[Z.to_nat (L2Len h + 7) := y]> p) in
  Parse p' = Some (h, true) /\ Z.land (ChecksumFlags h) TxTCPChecksum <> 0.
Proof.
  intros Hp Hx Hy Hh H4 p'. pose proof (Parse_iff p Hp h) as [HP _]. destruct (HP Hh) as (k & [(Hk & E2 & Ht) Hip Hl4]).
  assert (Hp' : bytes_ok p') by (unfold p'; apply Forall_insert; [by apply Forall_insert|done]).
  assert (Hz : zlen p' = zlen p) by (unfold p'; by rewrite !zlen_insert).
  assert (Hsame : forall i, 0 <= i -> i <> L2Len h + 6 -> i <> L2Len h + 7 -> byte_at p' i = byte_at p i).
  { intros i Hi H6 H7. unfold byte_at, p'. rewrite !list_lookup_total_insert_ne by lia. done. }
  assert (Hse : forall i, 0 <= i -> i + 1 < L2Len h -> ethertype p' i = ethertype p i) by (intros i Hi Hi2; unfold ethertype; rewrite !Hsame by lia; done).
  split.
  - apply (Parse_iff p' Hp'). exists k. split.
    + split; [done|]. split; [done|]. intros i Hi. rewrite Hse by lia. by apply Ht.
    + destruct Hip as [(H1 & H2 & H3 & H5 & H6 & H7 & H8)|(H1 & _)]; [|congruence]. left. rewrite Hse, !Hsame by lia. done.
    + by rewrite Hz.
  - unfold ChecksumFlags. rewrite H4. destruct Hl4 as [[-> _]|[-> _]]; vm_compute; discriminate.
Qed.

(** The offset of an IPv4 fragment in its datagram, in units of eight bytes,
    for an IP header at [off]. *)
Definition fragment_offset (p : list Z) (off : Z) : Z := byte_at p (off + 6) mod 32 * 256 + byte_at p (off + 7).

(** The packet begins with the headers [h], and not with the fields of such
    headers before the payload of a later fragment. *)
Definition begins_with (p : list Z) (h : Headers) (k : Z) : Prop :=
  l4_packet p h k /\ (hIPv4 h = true -> fragment_offset p (L2Len h) = 0).

(** C29: the parser never reads out of bounds, whatever the packet holds.  It
    accepts exactly the packets whose Ethernet types (of at most two tags), IP
    version, header length and protocol name a TCP or UDP header the packet is
    long enough for, and reports exactly the lengths they name, which fit the
    bit fields the device is told them in.  The fragment offset of an IPv4
    header is not among what it looks at: of the packets whose offset is zero,
    and of those over IPv6, it accepts exactly the ones that begin with such
    headers; a later fragment, which has no TCP or UDP header, it takes like
    the first one with the same bytes. *)
Theorem Parse_exact p :
  bytes_ok p ->
  is_Some (Parse p) /\
  (forall h, Parse p = Some (h, true) <-> exists k, l4_packet p h k) /\
  (forall h, (hIPv4 h = true -> fragment_offset p (L2Len h) = 0) -> Parse p = Some (h, true) <-> exists k, begins_with p h k) /\
  (forall h x y, byte_ok x -> byte_ok y -> hIPv4 h = true -> Parse p = Some (h, true) ->
     Parse (<[Z.to_nat (L2Len h + 6) := x]> (<[Z.to_nat (L2Len h + 7) := y]> p)) = Some (h, true)) /\
  (forall h, Parse p = Some (h, true) ->
     Z.land (L2Len h) 0x7f = L2Len h /\ Z.land (L3Len h) 0x1ff = L3Len h /\ L2Len h + L3Len h + 8 <= zlen p).
Proof.
  intros Hp. split; [destruct (Parse_total p Hp) as (h & ok & ->); by eexists|]. split; [by apply Parse_iff|]. split; [|split].
  - intros h Hf. rewrite (Parse_iff p Hp). unfold begins_with. split; intros [k Hk]; exists k; [done|by destruct Hk].
  - intros h x y Hx Hy H4 Hh. by apply Parse_ignores_fragments.
  - intros h Hh. apply (Parse_iff p Hp) in Hh as (k & [(Hk & E2 & _) Hip Hl4]).
    assert (H3 : 20 <= L3Len h <= 60).
    { destruct Hip as [(_ & _ & _ & _ & E & Hlo & _)|(_ & _ & _ & _ & E & _)]; [|lia]. pose proof (Z.mod_pos_bound (byte_at p (L2Len h)) 16). lia. }
    change 0x7f with (2 ^ 7 - 1). change 0x1ff with (2 ^ 9 - 1). rewrite !land_ones_mod, !Z.mod_small by lia. split; [done|]. split; [done|]. lia.
Qed.

(** A tagged UDP packet over IPv4. *)
Definition exUDP : list Z :=
  replicate 12 2 ++ [0x81; 0; 0; 5; 0x08; 0] ++ [0x45; 0; 0; 28; 0; 1; 0; 0; 64; 17; 0; 0; 10; 0; 0; 1; 10; 0; 0; 2] ++ [0; 53; 0; 53; 0; 8; 0; 0].

Lemma exUDP_bytes : bytes_ok exUDP.
Proof. unfold bytes_ok, byte_ok. repeat constructor; vm_compute; congruence. Qed.

(** The packet begins with its headers; as a later fragment of a datagram it
    is taken all the same. *)
Lemma Parse_exact_witness : (exists k, begins_with exUDP (mkHeaders 18 20 true false 17) k) /\
  fragment_offset (<[24%nat := 0]> (<[25%nat := 185]> exUDP)) 18 = 185 /\ Parse (<[24%nat := 0]> (<[25%nat := 185]> exUDP)) = Some (mkHeaders 18 20 true false 17, true).
Proof.
  destruct (Parse_exact exUDP exUDP_bytes) as (_ & _ & H & Hf & _). split; [|split; [vm_compute; reflexivity|]].
  - apply (H (mkHeaders 18 20 true false 17)); [intros _; vm_compute; reflexivity|vm_compute; reflexivity].
  - apply (Hf (mkHeaders 18 20 true false 17) 0 185); [unfold byte_ok; lia|unfold byte_ok; lia|reflexivity|vm_compute; reflexivity].
Defined.

Lemma Parse_ignores_fragments_witness :
  Parse (<[24%nat := 0]> (<[25%nat := 185]> exUDP)) = Some (mkHeaders 18 20 true false 17, true).
Proof.
  apply (Parse_ignores_fragments exUDP (mkHeaders 18 20 true false 17) 0 185 exUDP_bytes); [unfold byte_ok; lia|unfold byte_ok; lia|vm_compute; reflexivity|reflexivity].
Defined.
