(* ===== verification/DpdkRing.v ===== *)
(** The rings between this backend and a poll-mode driver:
    dpdk/internal/queue/ring.go.

    A ring is an array of addresses and two free-running 32-bit indices.
    [fifo] is the list it stands for; each operation is that of a bounded
    queue, across the wrap of both the array and the indices. *)

From stdpp Require Import prelude list numbers strings.
From S2P Require Import Prelude Circ.

Record Ring : Set := mkRing { g_buf : list Z; g_mask : Z; g_head : Z; g_tail : Z }.

Definition NewRing (capacity : Z) : res Ring :=
  if (capacity <=? 0) || negb (Z.land capacity (capacity - 1) =? 0) then Err (Errorf "dpdk: a ring which must be a power of two")
  else Ok (mkRing (replicate (Z.to_nat capacity) 0) (u32 (capacity - 1)) 0 0).

(** [indices] are the head and tail words, if there are any. *)
Definition NewRingOver (buf : list Z) (indices : option (Z * Z)) : res Ring :=
  if (zlen buf =? 0) || negb (Z.land (zlen buf) (zlen buf - 1) =? 0) then Err (Errorf "dpdk: a ring which must be a power of two")
  else match indices with
       | None => Err (Errorf "dpdk: a ring without its indices")
       | Some (head, tail) => Ok (mkRing buf (u32 (zlen buf - 1)) head tail)
       end.

Definition RingLen (r : Ring) : Z := u32 (g_tail r - g_head r).
Definition RingCap (r : Ring) : Z := zlen (g_buf r).
Definition Room (r : Ring) : Z := zlen (g_buf r) - RingLen r.

(** [r.buf[*r.tail&r.mask] = addr; *r.tail++]. *)
Definition ring_put (r : Ring) (addr : Z) : option Ring :=
  buf ← set_at (Z.land (g_tail r) (g_mask r)) addr (g_buf r);
  Some (mkRing buf (g_mask r) (g_head r) (u32 (g_tail r + 1))).

Definition RingPush (addrs : list Z) (r : Ring) : option (Z * Ring) :=
  let n := if zlen addrs >? Room r then Room r else zlen addrs in
  r ← foldM ring_put (take (Z.to_nat n) addrs) r;
  Some (n, r).

Definition PushOne (addr : Z) (r : Ring) : option (bool * Ring) :=
  if Room r =? 0 then Some (false, r) else r ← ring_put r addr; Some (true, r).

(** [n] times: read the slot at the head and step over it. *)
Fixpoint ring_take (n : nat) (r : Ring) (dst : list Z) : option (list Z * Ring) :=
  match n with
  | O => Some (dst, r)
  | S n =>
      a ← get_at (Z.land (g_head r) (g_mask r)) (g_buf r);
      ring_take n (mkRing (g_buf r) (g_mask r) (u32 (g_head r + 1)) (g_tail r)) (dst ++ [a])
  end.

Definition RingPop (n : Z) (dst : list Z) (r : Ring) : option (list Z * Ring) :=
  let n := if n >? RingLen r then RingLen r else n in
  ring_take (Z.to_nat n) r dst.

(** The addresses, or nothing at all. *)
Definition PopBulk (n : Z) (r : Ring) : option (option (list Z) * Ring) :=
  if RingLen r <? n then Some (None, r) else '(l, r) ← ring_take (Z.to_nat n) r []; Some (Some l, r).

(** ** The list a ring stands for *)

Record fifo (k : Z) (l : list Z) (r : Ring) : Prop := {
  ff_k : 0 <= k <= 31;
  ff_buf : zlen (g_buf r) = 2 ^ k;
  ff_mask : g_mask r = 2 ^ k - 1;
  ff_len : zlen l <= 2 ^ k;
  ff_at : exists h, g_head r = u32 h /\ g_tail r = u32 (h + zlen l) /\ window (g_buf r) h (length l) = l
}.

Section ops.
Context (k : Z).

Lemma fifo_pow l r : fifo k l r -> 0 < 2 ^ k <= 2 ^ 31.
Proof using. intros [Hk _ _ _ _]. split; [lia|apply Z.pow_le_mono_r; lia]. Qed.

Lemma fifo_len l r : fifo k l r -> RingLen r = zlen l /\ Room r = 2 ^ k - zlen l.
Proof using.
  intros Hf. pose proof (fifo_pow _ _ Hf). destruct Hf as [Hk Hb _ Hl (h & Eh & Et & _)]. unfold Room, RingLen. rewrite Eh, Et, Hb.
  pose proof (zlen_nonneg l). rewrite u32_dist by lia. lia.
Qed.

Lemma ring_put_spec l r a : fifo k l r -> zlen l < 2 ^ k -> exists r', ring_put r a = Some r' /\ fifo k (l ++ [a]) r'.
Proof using.
  intros Hf Hroom. pose proof (fifo_pow _ _ Hf). destruct Hf as [Hk Hb Hm Hl (h & Eh & Et & Hw)]. pose proof (zlen_nonneg l). unfold ring_put.
  rewrite Et, Hm, u32_land_mask by lia. pose proof (Z.mod_pos_bound (h + zlen l) (2 ^ k)). rewrite set_at_Some by lia. cbn [mbind option_bind].
  eexists. split; [done|]. split; simpl; try done.
  - by rewrite zlen_insert.
  - rewrite zlen_app. change (zlen [a]) with 1. lia.
  - exists h. split; [done|]. split; [rewrite zlen_app; change (zlen [a]) with 1; rewrite u32_add_l; f_equal; lia|].
    rewrite length_app, Nat.add_1_r. rewrite <- Hb. unfold zlen at 1. rewrite window_push by (unfold zlen in *; lia). by rewrite Hw.
Qed.

Lemma ring_puts_spec addrs : forall l r, fifo k l r -> zlen l + zlen addrs <= 2 ^ k ->
  exists r', foldM ring_put addrs r = Some r' /\ fifo k (l ++ addrs) r'.
Proof using.
  induction addrs as [|a addrs IH]; intros l r Hf Hroom; cbn [foldM].
  { exists r. by rewrite app_nil_r. }
  rewrite zlen_cons in Hroom. pose proof (zlen_nonneg addrs). destruct (ring_put_spec l r a Hf ltac:(lia)) as (r1 & -> & Hf1). cbn [mbind option_bind].
  destruct (IH (l ++ [a]) r1 Hf1) as (r' & E & Hf'). { rewrite zlen_app. change (zlen [a]) with 1. lia. }
  exists r'. by rewrite <- app_assoc in Hf'.
Qed.

Lemma RingPush_spec addrs l r : fifo k l r ->
  exists r', RingPush addrs r = Some (Z.min (zlen addrs) (2 ^ k - zlen l), r') /\ fifo k (l ++ take (Z.to_nat (2 ^ k - zlen l)) addrs) r'.
Proof using.
  intros Hf. pose proof (ff_len _ _ _ Hf) as Hl. pose proof (zlen_nonneg addrs). unfold RingPush. rewrite (proj2 (fifo_len _ _ Hf)).
  set (n := if zlen addrs >? 2 ^ k - zlen l then 2 ^ k - zlen l else zlen addrs). assert (Hn : n = Z.min (zlen addrs) (2 ^ k - zlen l)) by (unfold n; destruct (Z.gtb_spec (zlen addrs) (2 ^ k - zlen l)); lia).
  assert (Ht : take (Z.to_nat n) addrs = take (Z.to_nat (2 ^ k - zlen l)) addrs).
  { destruct (decide (zlen addrs <= 2 ^ k - zlen l)); [|by replace n with (2 ^ k - zlen l) by lia].
    rewrite !firstn_all2 by (unfold zlen in *; lia). done. }
  rewrite Ht. destruct (ring_puts_spec (take (Z.to_nat (2 ^ k - zlen l)) addrs) l r Hf) as (r' & E & Hf').
  { unfold zlen in *. rewrite length_take. lia. }
  rewrite E. cbn [mbind option_bind]. exists r'. by rewrite Hn.
Qed.

Lemma ring_take_spec n : forall l r dst, fifo k l r -> (n <= length l)%nat ->
  exists r', ring_take n r dst = Some (dst ++ take n l, r') /\ fifo k (drop n l) r'.
Proof using.
  induction n as [|n IH]; intros l r dst Hf Hn; cbn [ring_take].
  { exists r. by rewrite take_0, app_nil_r, drop_0. }
  destruct l as [|a l]; [simpl in Hn; lia|]. pose proof (fifo_pow _ _ Hf). destruct Hf as [Hk Hb Hm Hl (h & Eh & Et & Hw)].
  cbn [length] in Hw. rewrite window_front in Hw. injection Hw as Ha Hw. rewrite zlen_cons in *. pose proof (zlen_nonneg l).
  assert (Eg : get_at (Z.land (g_head r) (g_mask r)) (g_buf r) = Some a).
  { rewrite Eh, Hm, u32_land_mask by lia. rewrite <- Hb, get_at_cell, Ha by lia. done. }
  rewrite Eg. cbn [mbind option_bind].
  destruct (IH l (mkRing (g_buf r) (g_mask r) (u32 (g_head r + 1)) (g_tail r)) (dst ++ [a])) as (r' & E & Hf').
  { split; simpl; try done; [lia|]. exists (h + 1). split; [by rewrite Eh, u32_add_l|]. split; [rewrite Et; f_equal; lia|done]. }
  { simpl in Hn. lia. }
  exists r'. split; [|done]. rewrite E. cbn [take]. by rewrite <- app_assoc.
Qed.

Lemma RingPop_spec n dst l r : fifo k l r ->
  exists r', RingPop n dst r = Some (dst ++ take (Z.to_nat n) l, r') /\ fifo k (drop (Z.to_nat n) l) r'.
Proof using.
  intros Hf. unfold RingPop. rewrite (proj1 (fifo_len _ _ Hf)). destruct (Z.gtb_spec n (zlen l)).
  - destruct (ring_take_spec (Z.to_nat (zlen l)) l r dst Hf) as (r' & E & Hf'); [unfold zlen; lia|]. exists r'.
    rewrite drop_ge in Hf' by (unfold zlen in *; lia). rewrite drop_ge by (unfold zlen in *; lia). split; [|done].
    rewrite E, !firstn_all2 by (unfold zlen in *; lia). done.
  - destruct (ring_take_spec (Z.to_nat n) l r dst Hf) as (r' & E & Hf'); [unfold zlen in *; lia|]. by exists r'.
Qed.
End ops.

Lemma NewRing_spec k : 0 <= k <= 31 -> exists r, NewRing (2 ^ k) = Ok r /\ fifo k [] r.
Proof.
  intros Hk. assert (Hp : 0 < 2 ^ k <= 2 ^ 31) by (split; [lia|apply Z.pow_le_mono_r; lia]). unfold NewRing.
  rewrite (proj2 (Z.leb_gt (2 ^ k) 0)), (land_ones_mod (2 ^ k)), Z.mod_same by lia. cbn [orb negb Z.eqb]. eexists. split; [done|]. split; simpl; try done.
  - unfold zlen. rewrite length_replicate. lia.
  - apply u32_small. lia.
  - change (zlen (@nil Z)) with 0. lia.
  - by exists 0.
Qed.

(** ** Properties *)

(** C30: a ring is a bounded first-in first-out queue of addresses, across the
    wrap of its array and of its 32-bit indices: [Push] appends the prefix
    there is room for, [Pop] takes the oldest and [PopBulk] takes all it was
    asked for or nothing. *)
Theorem Ring_fifo k l r addrs n dst :
  fifo k l r ->
  (exists r', RingPush addrs r = Some (Z.min (zlen addrs) (Room r), r') /\ fifo k (l ++ take (Z.to_nat (Room r)) addrs) r') /\
  (exists r', RingPop n dst r = Some (dst ++ take (Z.to_nat n) l, r') /\ fifo k (drop (Z.to_nat n) l) r') /\
  (exists r', PopBulk n r = Some (if zlen l <? n then None else Some (take (Z.to_nat n) l), r') /\
     fifo k (if zlen l <? n then l else drop (Z.to_nat n) l) r') /\
  RingLen r = zlen l /\ Room r = RingCap r - zlen l.
Proof.
  intros Hf. destruct (fifo_len k l r Hf) as [Hlen Hroom]. split_and!.
  - rewrite Hroom. by apply RingPush_spec.
  - by apply RingPop_spec.
  - unfold PopBulk. rewrite Hlen. destruct (Z.ltb_spec (zlen l) n); [by exists r|].
    destruct (ring_take_spec k (Z.to_nat n) l r [] Hf) as (r' & E & Hf'); [unfold zlen in *; lia|]. rewrite E. cbn [mbind option_bind]. by exists r'.
  - done.
  - unfold RingCap. by rewrite (ff_buf _ _ _ Hf).
Qed.

(** A ring of four about to wrap both ways. *)
Definition exRing : Ring := mkRing [30; 0; 10; 20] 3 (2 ^ 32 - 2) 1.

Lemma Ring_fifo_witness :
  exists r', RingPush [40; 50] exRing = Some (Z.min 2 (Room exRing), r') /\ fifo 2 ([10; 20; 30] ++ take (Z.to_nat (Room exRing)) [40; 50]) r'.
Proof.
  assert (Hf : fifo 2 [10; 20; 30] exRing).
  { split; [lia|reflexivity|reflexivity|discriminate|]. exists (2 ^ 32 - 2). split; [reflexivity|]. split; vm_compute; reflexivity. }
  exact (proj1 (Ring_fifo 2 [10; 20; 30] exRing [40; 50] 0 [] Hf)).
Defined.
