(* ===== verification/DpdkQueue.v ===== *)
(** The queues of the DPDK backend: dpdk/internal/queue/queue.go.

    The driver is the [PMD] class: code that is not part of the repository,
    called with the memory it shares with the queue ([world]: the frame region
    and the two rings) and its own state.  The free list is any [FramePool].
    [None] is a panic.  The scratch slices carry nothing from one call to the
    next and are left out; their length, the queue's depth, bounds a burst. *)

From stdpp Require Import prelude list numbers strings.
From S2P Require Import Prelude Bytes Desc Pool Mbuf DpdkRing.

Record world : Set := mkWorld { w_region : list Z; w_supply : Ring; w_returned : Ring }.

Class PMD (D : Type) := {
  TxBurst : list Z -> D -> world -> Z * D * world;
  (** The burst array after the call, and how much of it was filled. *)
  RxBurst : Z -> D -> world -> Z * list Z * D * world;
  Poke : D -> world -> D * world
}.

Record Config : Set := mkConfig {
  c_regionLen : Z; c_RegionVA : Z; c_Layout : Layout; c_PoolVA : Z; c_FirstFrame : Z; c_Frames : Z; c_Depth : Z;
  c_haveSupply : bool; c_haveReturned : bool; c_Checksums : bool; c_TSO : bool; c_havePMD : bool
}.

Definition Config_validate (c : Config) : res unit :=
  let? _ := Layout_Validate (c_Layout c) in
  if c_regionLen c =? 0 then Err (Errorf "dpdk: a queue with no region")
  else if negb (c_regionLen c mod l_FrameSize (c_Layout c) =? 0) then Err (Errorf "dpdk: a region is not a whole number of frames")
  else if c_Frames c <=? 0 then Err (Errorf "dpdk: a queue with no frames")
  else if (c_FirstFrame c + c_Frames c) * l_FrameSize (c_Layout c) >? c_regionLen c then Err (Errorf "dpdk: frames run past the region")
  else if c_Depth c <=? 0 then Err (Errorf "dpdk: a queue of no depth")
  else if negb (c_haveReturned c) then Err (Errorf "dpdk: a queue with no returned ring")
  else if negb (c_havePMD c) then Err (Errorf "dpdk: a queue with no driver")
  else Ok tt.

(** What both directions share. *)
Record base (P : Type) : Type := mkBase {
  d_cfg : Config; d_pool : P; d_frameMask : Z; d_dataStart : Z; d_bufStart : Z; d_closed : bool; d_dead : option error
}.
Arguments mkBase {P}. Arguments d_cfg {P}. Arguments d_pool {P}. Arguments d_frameMask {P}. Arguments d_dataStart {P}.
Arguments d_bufStart {P}. Arguments d_closed {P}. Arguments d_dead {P}.

Record DTxStats : Set := mkDTxStats {
  xs_Packets : Z; xs_Bytes : Z; xs_Completed : Z; xs_Batches : Z; xs_RingFull : Z; xs_PoolEmpty : Z; xs_BadDesc : Z;
  xs_BadOffload : Z; xs_Pokes : Z; xs_Foreign : Z
}.
Record DRxStats : Set := mkDRxStats {
  ys_Packets : Z; ys_Bytes : Z; ys_Filled : Z; ys_Batches : Z; ys_PoolEmpty : Z; ys_Chained : Z; ys_BadLen : Z; ys_Foreign : Z
}.

Record DTx (P : Type) : Type := mkDTx { x_base : base P; x_inFlight : Z; x_Stats : DTxStats }.
Record DRx (P : Type) : Type := mkDRx { y_base : base P; y_outstanding : Z; y_Stats : DRxStats }.
Arguments mkDTx {P}. Arguments x_base {P}. Arguments x_inFlight {P}. Arguments x_Stats {P}.
Arguments mkDRx {P}. Arguments y_base {P}. Arguments y_outstanding {P}. Arguments y_Stats {P}.

Section queue.
Context {P : Type} `{!FramePool P} {D : Type} `{!PMD D}.
Implicit Types (b : base P) (t : DTx P) (q : DRx P).

(** ** Both directions *)

Definition initBase (newPool : Z -> Z -> Z -> option P) (cfg : Config) : option (res (base P)) :=
  match Config_validate cfg with
  | Err e => Some (Err e)
  | Ok _ =>
      let l := c_Layout cfg in
      p ← newPool (c_FirstFrame cfg) (c_Frames cfg) (l_FrameSize l);
      Some (Ok (mkBase cfg p (u64 (l_FrameSize l - 1)) (u64 (DataStart l)) (u64 (l_ObjHeader l + l_MbufSize l)) false None))
  end.

Definition with_pool (p : P) b : base P := mkBase (d_cfg b) p (d_frameMask b) (d_dataStart b) (d_bufStart b) (d_closed b) (d_dead b).

(** The first failure is kept. *)
Definition fail_base (e : error) b : base P :=
  mkBase (d_cfg b) (d_pool b) (d_frameMask b) (d_dataStart b) (d_bufStart b) (d_closed b)
    (match d_dead b with None => Some e | d => d end).

Definition close_base b : base P :=
  mkBase (d_cfg b) (d_pool b) (d_frameMask b) (d_dataStart b) (d_bufStart b) true (d_dead b).

Definition d_descOK b (d : Desc) : bool :=
  if Addr d >=? c_regionLen (d_cfg b) then false
  else
    let within := Z.land (Addr d) (d_frameMask b) in
    if within <? d_bufStart b then false
    else u64 (Len d - 1) <? u64 (d_frameMask b + 1 - within).

Definition frameOf b (addr : Z) : Z := addr &^ d_frameMask b.
Definition mbufOf b (addr : Z) : Z := frameOf b addr + l_ObjHeader (c_Layout (d_cfg b)).

Definition offsetOfVA b (va : Z) : option Z :=
  if va <? c_RegionVA (d_cfg b) then None
  else
    let off := va - c_RegionVA (d_cfg b) in
    if off >=? c_regionLen (d_cfg b) then None else Some off.

Definition d_Owns b (addr : Z) : bool :=
  let fs := u64 (l_FrameSize (c_Layout (d_cfg b))) in
  let lo := u64 (u64 (c_FirstFrame (d_cfg b)) * fs) in
  let hi := u64 (lo + u64 (c_Frames (d_cfg b)) * fs) in
  (addr >=? lo) && (addr <? hi).

Definition push_frames (frames : list Z) (p : P) : option P := foldM (fun p a => fp_Push a p) frames p.

(** The addresses a driver handed back, as frames; those outside the region
    are counted, and the last of them named. *)
Fixpoint frames_back b (vas : list Z) : list Z * Z :=
  match vas with
  | [] => ([], 0)
  | va :: vas =>
      let '(fs, bad) := frames_back b vas in
      match offsetOfVA b va with
      | None => (fs, bad + 1)
      | Some off => (frameOf b off :: fs, bad)
      end
  end.

Definition foreign_error : error := Wrap ErrQueueFailed "the driver freed an address which is not in this queue's region".

Definition note_foreign (bad : Z) b : base P := if bad >? 0 then fail_base foreign_error b else b.

(** ** Transmit *)

Definition zeroDTxStats : DTxStats := mkDTxStats 0 0 0 0 0 0 0 0 0 0.

Definition NewDTx (newPool : Z -> Z -> Z -> option P) (cfg : Config) : option (res (DTx P)) :=
  r ← initBase newPool cfg;
  Some (match r with Err e => Err e | Ok b => Ok (mkDTx b 0 zeroDTxStats) end).

Definition x_with_pool (p : P) t : DTx P := mkDTx (with_pool p (x_base t)) (x_inFlight t) (x_Stats t).
Definition x_stats (f : DTxStats -> DTxStats) t : DTx P := mkDTx (x_base t) (x_inFlight t) (f (x_Stats t)).

Definition inc_xRingFull (s : DTxStats) : DTxStats :=
  mkDTxStats (xs_Packets s) (xs_Bytes s) (xs_Completed s) (xs_Batches s) (u64 (xs_RingFull s + 1)) (xs_PoolEmpty s) (xs_BadDesc s)
    (xs_BadOffload s) (xs_Pokes s) (xs_Foreign s).
Definition inc_xPoolEmpty (s : DTxStats) : DTxStats :=
  mkDTxStats (xs_Packets s) (xs_Bytes s) (xs_Completed s) (xs_Batches s) (xs_RingFull s) (u64 (xs_PoolEmpty s + 1)) (xs_BadDesc s)
    (xs_BadOffload s) (xs_Pokes s) (xs_Foreign s).
Definition inc_xBadDesc (s : DTxStats) : DTxStats :=
  mkDTxStats (xs_Packets s) (xs_Bytes s) (xs_Completed s) (xs_Batches s) (xs_RingFull s) (xs_PoolEmpty s) (u64 (xs_BadDesc s + 1))
    (xs_BadOffload s) (xs_Pokes s) (xs_Foreign s).
Definition inc_xBadOffload (s : DTxStats) : DTxStats :=
  mkDTxStats (xs_Packets s) (xs_Bytes s) (xs_Completed s) (xs_Batches s) (xs_RingFull s) (xs_PoolEmpty s) (xs_BadDesc s)
    (u64 (xs_BadOffload s + 1)) (xs_Pokes s) (xs_Foreign s).
Definition inc_xPokes (s : DTxStats) : DTxStats :=
  mkDTxStats (xs_Packets s) (xs_Bytes s) (xs_Completed s) (xs_Batches s) (xs_RingFull s) (xs_PoolEmpty s) (xs_BadDesc s)
    (xs_BadOffload s) (u64 (xs_Pokes s + 1)) (xs_Foreign s).
Definition add_xSent (n bytes : Z) (s : DTxStats) : DTxStats :=
  mkDTxStats (u64 (xs_Packets s + n)) (u64 (xs_Bytes s + bytes)) (xs_Completed s) (u64 (xs_Batches s + 1)) (xs_RingFull s)
    (xs_PoolEmpty s) (xs_BadDesc s) (xs_BadOffload s) (xs_Pokes s) (xs_Foreign s).
Definition add_xBack (n bad : Z) (s : DTxStats) : DTxStats :=
  mkDTxStats (xs_Packets s) (xs_Bytes s) (u64 (xs_Completed s + n)) (xs_Batches s) (xs_RingFull s)
    (xs_PoolEmpty s) (xs_BadDesc s) (xs_BadOffload s) (xs_Pokes s) (u64 (xs_Foreign s + bad)).

Definition dNumFreeSlots t : Z :=
  if d_closed (x_base t) then 0
  else let n := c_Depth (d_cfg (x_base t)) - x_inFlight t in if n >? 0 then n else 0.

Definition dAlloc (n : Z) t : option (list Desc * DTx P) :=
  if d_closed (x_base t) || (n <=? 0) || (match d_dead (x_base t) with Some _ => true | None => false end) then Some ([], t)
  else
    let free := dNumFreeSlots t in
    if (n >? free) && (free =? 0) then Some ([], x_stats inc_xRingFull t)
    else
      let n := if n >? free then free else n in
      let have := fp_Len (d_pool (x_base t)) in
      if (n >? have) && (have =? 0) then Some ([], x_stats inc_xPoolEmpty t)
      else
        let n := if n >? have then have else n in
        '(addrs, p) ← fp_Pop n [] (d_pool (x_base t));
        Some (map (fun frame => mkDesc (u64 (frame + d_dataStart (x_base t))) 0 0) addrs, x_with_pool p t).

(** Writes what an [Offload] means into the mbuf at [m], or says why not. *)
Definition applyOffload (tso : bool) (m : Z) (o : Offload) (packet region : list Z) : option (res (list Z)) :=
  if (Flags o =? 0) && (GSOType o =? OffloadGSONone) then Some (Ok region)
  else
    '(h, ok) ← Parse packet;
    if negb ok then Some (Err (Wrap ErrBadLength "offload asked for a packet whose headers this backend does not recognise"))
    else
      let hdrLen := L2Len h + L3Len h in
      if negb (Z.land (Flags o) OffloadNeedsCsum =? 0) && negb (CsumStart o =? hdrLen) then
        Some (Err (Wrap ErrBadLength "CsumStart, but the packet's headers end elsewhere"))
      else
        let flags := ChecksumFlags h in
        if flags =? 0 then Some (Err (Wrap ErrBadLength "offload asked for a packet that is neither IPv4 nor IPv6"))
        else
          let seg : res (Z * Z * Z) :=
            if Segmented o then
              if negb tso then Err (Wrap ErrUnsupported "segmentation, which this device was not opened for or does not offer")
              else
                let ty := GSOType o &^ OffloadGSOECN in
                if (ty =? OffloadGSOTCPv4) || (ty =? OffloadGSOTCPv6) then
                  if negb (hProto h =? ProtoTCP) then Err (Wrap ErrBadLength "TCP segmentation of a non-TCP packet")
                  else if GSOSize o =? 0 then Err (Wrap ErrBadLength "segmented but the segment size is zero")
                  else if (HdrLen o <=? hdrLen) || (HdrLen o >? zlen packet) then Err (Wrap ErrBadLength "header length")
                  else Ok (HdrLen o - hdrLen, GSOSize o, Z.lor flags TxTCPSeg)
                else Err (Wrap ErrUnsupported "segmentation type")
            else Ok (0, 0, flags) in
          match seg with
          | Err e => Some (Err e)
          | Ok (l4Len, segSize, flags) =>
              region ← SetOlFlags m flags region;
              region ← SetTxOffloadTSO m (L2Len h) (L3Len h) l4Len segSize region;
              Some (Ok region)
          end.

(** One descriptor prepared for the driver: the region with its mbuf written,
    and the refusal if there is one, which leaves the mbuf a plain frame's. *)
Definition prepare_one b (off : option Offload) (d : Desc) (region : list Z) : option (list Z * option error) :=
  let frame := frameOf b (Addr d) in
  let m := frame + l_ObjHeader (c_Layout (d_cfg b)) in
  region ← PrepareTx m (c_PoolVA (d_cfg b)) (u16 (u64 (Addr d - frame - d_bufStart b))) (Len d) region;
  match off with
  | Some o =>
      packet ← slice (Addr d) (u64 (Addr d + Len d)) region;
      r ← applyOffload (c_TSO (d_cfg b)) m o packet region;
      Some (match r with Ok region' => (region', None) | Err e => (region, Some e) end)
  | None =>
      if c_Checksums (d_cfg b) then
        packet ← slice (Addr d) (u64 (Addr d + Len d)) region;
        '(h, ok) ← Parse packet;
        if (ok : bool) then
          region ← SetOlFlags m (ChecksumFlags h) region;
          region ← SetTxOffload m (L2Len h) (L3Len h) region;
          Some (region, None)
        else Some (region, None)
      else Some (region, None)
  end.

(** What the loop of [transmit] has built: the mbuf addresses, their bytes, and
    why it stopped early if it did. *)
Record building : Set := mkBuilding {
  k_mbufs : list Z; k_bytes : Z; k_region : list Z; k_badDesc : bool; k_badOffload : bool; k_refused : option error
}.

Definition bad_desc_error : error := Wrap ErrBadLength "descriptor names bytes which are not inside one frame's packet area".

Fixpoint build_mbufs b (offs : option (list Offload)) (i : nat) (descs : list Desc) (v : building) : option building :=
  match descs with
  | [] => Some v
  | d :: ds =>
      if negb (d_descOK b d) then
        Some (mkBuilding (k_mbufs v) (k_bytes v) (k_region v) true (k_badOffload v) (Some bad_desc_error))
      else
        o ← (match offs with None => Some None | Some l => x ← l !! i; Some (Some x) end);
        '(region, refused) ← prepare_one b o d (k_region v);
        match refused with
        | Some e => Some (mkBuilding (k_mbufs v) (k_bytes v) region (k_badDesc v) true (Some e))
        | None =>
            build_mbufs b offs (S i) ds
              (mkBuilding (k_mbufs v ++ [u64 (c_RegionVA (d_cfg b) + u64 (mbufOf b (Addr d)))])
                 (u64 (k_bytes v + Len d)) region (k_badDesc v) (k_badOffload v) (k_refused v))
        end
  end.

Definition w_with_region (region : list Z) (w : world) : world := mkWorld region (w_supply w) (w_returned w).
Definition w_with_returned (r : Ring) (w : world) : world := mkWorld (w_region w) (w_supply w) r.
Definition w_with_supply (r : Ring) (w : world) : world := mkWorld (w_region w) r (w_returned w).

Definition x_flight (n : Z) t : DTx P := mkDTx (x_base t) n (x_Stats t).

Definition d_transmit (descs : list Desc) (offs : option (list Offload)) t (dr : D) (w : world) :
    option (Z * option error * DTx P * D * world) :=
  if d_closed (x_base t) then Some (0, Some (Sentinel ErrClosed), t, dr, w)
  else match d_dead (x_base t) with
  | Some e => Some (0, Some e, t, dr, w)
  | None =>
      if zlen descs =? 0 then Some (0, None, t, dr, w)
      else
        let free := dNumFreeSlots t in
        let n := if zlen descs >? free then free else zlen descs in
        if n =? 0 then Some (0, None, x_stats inc_xRingFull t, dr, w)
        else
          let n := if n >? c_Depth (d_cfg (x_base t)) then c_Depth (d_cfg (x_base t)) else n in
          v ← build_mbufs (x_base t) offs 0 (take (Z.to_nat n) descs) (mkBuilding [] 0 (w_region w) false false None);
          let t := if k_badDesc v then x_stats inc_xBadDesc t else t in
          let t := if k_badOffload v then x_stats inc_xBadOffload t else t in
          let w := w_with_region (k_region v) w in
          let built := zlen (k_mbufs v) in
          if built =? 0 then Some (0, k_refused v, t, dr, w)
          else
            let '(sent, dr, w) := TxBurst (k_mbufs v) dr w in
            let sent := if (sent <? 0) || (sent >? built) then 0 else sent in
            let unsent := take (Z.to_nat (built - sent)) (drop (Z.to_nat sent) descs) in
            let bytes := foldl (fun sum d => u64 (sum - Len d)) (k_bytes v) unsent in
            Some (sent, if sent =? built then k_refused v else None,
                  x_stats (add_xSent sent bytes) (x_flight (x_inFlight t + sent) t), dr, w)
  end.

Definition dTransmit (descs : list Desc) t (dr : D) (w : world) : option (Z * DTx P * D * world) :=
  '(n, _, t, dr, w) ← d_transmit descs None t dr w; Some (n, t, dr, w).

Definition dTransmitOffload (descs : list Desc) (offs : list Offload) t (dr : D) (w : world) :
    option (Z * option error * DTx P * D * world) :=
  if negb (zlen offs =? zlen descs) then Some (0, Some (Wrap ErrBadLength "descriptors but offloads"), t, dr, w)
  else d_transmit descs (Some offs) t dr w.

Definition dNumInFlight t : Z := x_inFlight t.
Definition dNumCompleted (w : world) : Z := RingLen (w_returned w).

(** Drains what the driver has freed; the frames, in order, for the caller's
    [give]. *)
Definition d_reclaim (max : Z) t (dr : D) (w : world) : option (list Z * DTx P * D * world) :=
  if d_closed (x_base t) || (max <=? 0) then Some ([], t, dr, w)
  else
    let '(t, dr, w) :=
      if (RingLen (w_returned w) =? 0) && (x_inFlight t >? 0) then
        let '(dr, w) := Poke dr w in (x_stats inc_xPokes t, dr, w)
      else (t, dr, w) in
    let n := if RingLen (w_returned w) >? max then max else RingLen (w_returned w) in
    if n =? 0 then Some ([], t, dr, w)
    else
      '(vas, r) ← RingPop n [] (w_returned w);
      let '(frames, bad) := frames_back (x_base t) vas in
      let completed := zlen frames in
      let t := mkDTx (note_foreign bad (x_base t)) (x_inFlight t - completed) (add_xBack completed bad (x_Stats t)) in
      Some (frames, t, dr, w_with_returned r w).

Definition dComplete (max : Z) t (dr : D) (w : world) : option (Z * DTx P * D * world) :=
  '(frames, t, dr, w) ← d_reclaim max t dr w;
  p ← push_frames frames (d_pool (x_base t));
  Some (zlen frames, x_with_pool p t, dr, w).

Definition dReclaim (max : Z) (out : list Desc) t (dr : D) (w : world) : option (list Desc * DTx P * D * world) :=
  '(frames, t, dr, w) ← d_reclaim max t dr w;
  Some (out ++ map (fun frame => mkDesc (u64 (frame + d_dataStart (x_base t))) 0 0) frames, t, dr, w).

Definition push_bases (descs : list Desc) (p : P) : option P := foldM (fun p d => fp_Push (fp_Base p (Addr d)) p) descs p.

Definition dFree (descs : list Desc) t : option (DTx P) :=
  p ← push_bases descs (d_pool (x_base t)); Some (x_with_pool p t).

(** ** Receive *)

Definition zeroDRxStats : DRxStats := mkDRxStats 0 0 0 0 0 0 0 0.

Definition NewDRx (newPool : Z -> Z -> Z -> option P) (cfg : Config) : option (res (DRx P)) :=
  if negb (c_haveSupply cfg) then Some (Err (Errorf "dpdk: a receive queue with no supply ring"))
  else
    r ← initBase newPool cfg;
    Some (match r with Err e => Err e | Ok b => Ok (mkDRx b 0 zeroDRxStats) end).

Definition y_with_pool (p : P) q : DRx P := mkDRx (with_pool p (y_base q)) (y_outstanding q) (y_Stats q).
Definition y_stats (f : DRxStats -> DRxStats) q : DRx P := mkDRx (y_base q) (y_outstanding q) (f (y_Stats q)).

Definition inc_yPoolEmpty (s : DRxStats) : DRxStats :=
  mkDRxStats (ys_Packets s) (ys_Bytes s) (ys_Filled s) (ys_Batches s) (u64 (ys_PoolEmpty s + 1)) (ys_Chained s) (ys_BadLen s) (ys_Foreign s).
Definition inc_yChained (s : DRxStats) : DRxStats :=
  mkDRxStats (ys_Packets s) (ys_Bytes s) (ys_Filled s) (ys_Batches s) (ys_PoolEmpty s) (u64 (ys_Chained s + 1)) (ys_BadLen s) (ys_Foreign s).
Definition inc_yBadLen (s : DRxStats) : DRxStats :=
  mkDRxStats (ys_Packets s) (ys_Bytes s) (ys_Filled s) (ys_Batches s) (ys_PoolEmpty s) (ys_Chained s) (u64 (ys_BadLen s + 1)) (ys_Foreign s).
Definition inc_yForeign (s : DRxStats) : DRxStats :=
  mkDRxStats (ys_Packets s) (ys_Bytes s) (ys_Filled s) (ys_Batches s) (ys_PoolEmpty s) (ys_Chained s) (ys_BadLen s) (u64 (ys_Foreign s + 1)).
Definition add_yFilled (n : Z) (s : DRxStats) : DRxStats :=
  mkDRxStats (ys_Packets s) (ys_Bytes s) (u64 (ys_Filled s + n)) (ys_Batches s) (ys_PoolEmpty s) (ys_Chained s) (ys_BadLen s) (ys_Foreign s).
Definition add_yReceived (n bytes : Z) (s : DRxStats) : DRxStats :=
  mkDRxStats (u64 (ys_Packets s + n)) (u64 (ys_Bytes s + bytes)) (ys_Filled s) (u64 (ys_Batches s + 1)) (ys_PoolEmpty s) (ys_Chained s)
    (ys_BadLen s) (ys_Foreign s).

Definition y_move (k : Z) q : DRx P := mkDRx (y_base q) (y_outstanding q + k) (y_Stats q).

(** Each frame's mbuf made ready to receive into, and its address. *)
Fixpoint reset_frames b (frames : list Z) (region : list Z) : option (list Z * list Z) :=
  match frames with
  | [] => Some ([], region)
  | frame :: fs =>
      let m := frame + l_ObjHeader (c_Layout (d_cfg b)) in
      region ← ResetRx m (u16 (l_Headroom (c_Layout (d_cfg b)))) (c_PoolVA (d_cfg b)) region;
      '(vas, region) ← reset_frames b fs region;
      Some (u64 (c_RegionVA (d_cfg b) + u64 m) :: vas, region)
  end.

Definition dFill (n : Z) q (w : world) : option (Z * DRx P * world) :=
  if d_closed (y_base q) || (n <=? 0) || (match d_dead (y_base q) with Some _ => true | None => false end) then Some (0, q, w)
  else
    let have := fp_Len (d_pool (y_base q)) in
    if (n >? have) && (have =? 0) then Some (0, y_stats inc_yPoolEmpty q, w)
    else
      let n := if n >? have then have else n in
      if n =? 0 then Some (0, q, w)
      else
        '(addrs, p) ← fp_Pop n [] (d_pool (y_base q));
        '(vas, region) ← reset_frames (y_base q) addrs (w_region w);
        '(posted, supply) ← RingPush vas (w_supply w);
        rest ← slice posted (zlen addrs) addrs;
        p ← push_frames rest p;
        Some (posted, y_stats (add_yFilled posted) (y_move posted (y_with_pool p q)), mkWorld region supply (w_returned w)).

Definition dNumFreeFillSlots q (w : world) : Z :=
  if d_closed (y_base q) then 0
  else let room := Room (w_supply w) in let have := fp_Len (d_pool (y_base q)) in if room >? have then have else room.

Definition dNumOutstanding q : Z := y_outstanding q.

Definition y_fail (e : error) q : DRx P := mkDRx (fail_base e (y_base q)) (y_outstanding q) (y_Stats q).

Definition delivered_error : error := Wrap ErrQueueFailed "the driver delivered an address which is not in this queue's region".
Definition returned_error : error := Wrap ErrQueueFailed "the driver returned an address which is not in this queue's region".

Definition dpdk_rx_options (flags : Z) : Z :=
  if negb (Z.land flags RxIPChecksumGood =? 0) then
    Z.lor OptL3ChecksumOK (if negb (Z.land flags RxL4ChecksumGood =? 0) then OptChecksumOK else 0)
  else 0.

(** One address of a received burst: the descriptor it gives, if it gives one,
    and whether it was a frame of this region. *)
Definition rx_one (region : list Z) (va : Z) q : option (option Desc * bool * DRx P) :=
  match offsetOfVA (y_base q) va with
  | None => Some (None, false, y_fail delivered_error (y_stats inc_yForeign q))
  | Some off =>
      let frame := frameOf (y_base q) off in
      let m := frame + l_ObjHeader (c_Layout (d_cfg (y_base q))) in
      '(dataOff, nbSegs, dataLen, flags) ← RxRead region m;
      if negb (nbSegs =? 1) then
        p ← fp_Push frame (d_pool (y_base q)); Some (None, true, y_with_pool p (y_stats inc_yChained q))
      else
        let d := mkDesc (u64 (frame + d_bufStart (y_base q) + dataOff)) dataLen 0 in
        if negb (d_descOK (y_base q) d) then
          p ← fp_Push frame (d_pool (y_base q)); Some (None, true, y_with_pool p (y_stats inc_yBadLen q))
        else Some (Some (mkDesc (Addr d) (Len d) (dpdk_rx_options flags)), true, q)
  end.

Fixpoint rx_burst (region : list Z) (vas : list Z) q : option (list Desc * Z * DRx P) :=
  match vas with
  | [] => Some ([], 0, q)
  | va :: vas =>
      '(d, ours, q) ← rx_one region va q;
      '(ds, taken, q) ← rx_burst region vas q;
      Some (match d with Some d => d :: ds | None => ds end, if (ours : bool) then taken + 1 else taken, q)
  end.

Definition dReceive (max : Z) q (dr : D) (w : world) : option (list Desc * DRx P * D * world) :=
  if d_closed (y_base q) || (max <=? 0) || (match d_dead (y_base q) with Some _ => true | None => false end) then Some ([], q, dr, w)
  else
    let max := if max >? c_Depth (d_cfg (y_base q)) then c_Depth (d_cfg (y_base q)) else max in
    let '(got, burst, dr, w) := RxBurst max dr w in
    if (got <=? 0) || (got >? max) then Some ([], q, dr, w)
    else
      '(ds, taken, q) ← rx_burst (w_region w) (take (Z.to_nat got) burst) q;
      let q := y_move (- taken) q in
      let bytes := foldl (fun sum d => u64 (sum + Len d)) 0 ds in
      Some (ds, if zlen ds >? 0 then y_stats (add_yReceived (zlen ds) bytes) q else q, dr, w).

Definition dRecycle (descs : list Desc) q : option (DRx P) :=
  p ← push_bases descs (d_pool (y_base q)); Some (y_with_pool p q).

(** [for _, va := range q.addrs] of [DrainReturned]. *)
Fixpoint drain_back (vas : list Z) (back : Z) q : option (Z * DRx P) :=
  match vas with
  | [] => Some (back, q)
  | va :: vas =>
      match offsetOfVA (y_base q) va with
      | None => drain_back vas back (y_fail returned_error (y_stats inc_yForeign q))
      | Some off => p ← fp_Push (frameOf (y_base q) off) (d_pool (y_base q)); drain_back vas (back + 1) (y_with_pool p q)
      end
  end.

Definition DrainReturned q (w : world) : option (Z * DRx P * world) :=
  if negb (c_haveReturned (d_cfg (y_base q))) then Some (0, q, w)
  else
    let n := RingLen (w_returned w) in
    if n =? 0 then Some (0, q, w)
    else
      '(vas, r) ← RingPop n [] (w_returned w);
      '(back, q) ← drain_back vas 0 q;
      Some (back, y_move (- back) q, w_with_returned r w).
End queue.
