(* ===== verification/DpdkBuild.v ===== *)
(** What a transmit queue of the DPDK backend writes into the mbufs it hands
    to the driver: every descriptor accepted is described exactly, by the mbuf
    of its own frame, and no packet byte and no other mbuf is touched. *)

From stdpp Require Import prelude list numbers strings.
From S2P Require Import Prelude Bytes Desc Pool Mbuf MbufThms DpdkRing DpdkQueue.

(** ** Stores inside one header *)

(** Nothing outside the header at [m] differs. *)
Definition untouched (m : Z) (b b' : list Z) : Prop :=
  zlen b' = zlen b /\ forall lo hi, hi <= m \/ m + mbufSize <= lo -> slice lo hi b' = slice lo hi b.

Lemma untouched_refl m b : untouched m b b.
Proof. done. Qed.

Lemma untouched_trans m a b c : untouched m a b -> untouched m b c -> untouched m a c.
Proof. intros [H1 H2] [H3 H4]. split; [congruence|]. intros lo hi H. by rewrite H4, H2. Qed.

Lemma get_le_untouched n m off b b' : untouched m b b' -> off + Z.of_nat n <= m \/ m + mbufSize <= off -> get_le n off b' = get_le n off b.
Proof. intros [_ H] Ho. unfold get_le. by rewrite H. Qed.

Lemma bytes_ok_blit off src b : bytes_ok src -> bytes_ok b -> bytes_ok (blit off src b).
Proof. intros Hs Hb. unfold blit. apply Forall_app. split; [by apply Forall_take|]. apply Forall_app. split; [done|by apply Forall_drop]. Qed.

(** One field: the store goes through and stays inside. *)
Lemma put_field n m off v b :
  bytes_ok b -> 0 <= m -> m + mbufSize <= zlen b -> 0 <= off -> off + Z.of_nat n <= mbufSize ->
  exists b', put_le n (m + off) v b = Some b' /\ bytes_ok b' /\ zlen b' = zlen b /\ untouched m b b'.
Proof.
  intros Hb Hm Hl Ho Hn. assert (E : put_le n (m + off) v b = Some (blit (m + off) (le_bytes n v) b)) by (apply put_le_Some; lia). rewrite E.
  eexists. split; [done|]. assert (Hz := put_le_zlen _ _ _ _ _ E). split; [apply bytes_ok_blit; [apply le_bytes_ok|done]|]. split; [done|]. split; [done|].
  intros lo hi Hd. apply (slice_put_disjoint _ _ _ _ _ _ _ E). lia.
Qed.

(** The header at [m] says: one segment of [len] bytes, [dataOff] into its
    buffer, to be freed into [pool]. *)
Record described (m pool dataOff len : Z) (b : list Z) : Prop := {
  ds_rearm : get_le 8 (m + offRearm) b = Some (rearm dataOff 1 1 PortInvalid);
  ds_pktlen : PktLen b m = Some len;
  ds_datalen : DataLen b m = Some (u16 len);
  ds_next : get_le 8 (m + offNext) b = Some 0;
  ds_pool : mbufPool b m = Some pool
}.

Lemma described_untouched m m' pool o len b b' :
  untouched m' b b' -> m + mbufSize <= m' \/ m' + mbufSize <= m -> described m pool o len b -> described m pool o len b'.
Proof.
  unfold mbufSize. intros Hu Hd [H1 H2 H3 H4 H5]. unfold PktLen, DataLen, mbufPool, offRearm, offPktLen, offDataLen, offNext, offPool in *.
  split; unfold PktLen, DataLen, mbufPool, offRearm, offPktLen, offDataLen, offNext, offPool;
    rewrite (get_le_untouched _ m' _ _ _ Hu) by (unfold mbufSize; lia); done.
Qed.

(** The checksum and segmentation words are apart from these. *)
Lemma described_offload m pool o len b b' off v : off = offOlFlags \/ off = offTxOffload ->
  put_le 8 (m + off) v b = Some b' -> described m pool o len b -> described m pool o len b'.
Proof.
  unfold offOlFlags, offTxOffload. intros Ho E [H1 H2 H3 H4 H5]. unfold PktLen, DataLen, mbufPool, offRearm, offPktLen, offDataLen, offNext, offPool in *.
  split; unfold PktLen, DataLen, mbufPool, offRearm, offPktLen, offDataLen, offNext, offPool; rewrite (get_le_put_disjoint _ _ _ _ _ _ _ E) by lia; done.
Qed.

Lemma described_fields m pool o len b : bytes_ok b -> 0 <= o < 2 ^ 16 -> described m pool o len b ->
  DataOff b m = Some o /\ NbSegs b m = Some 1.
Proof.
  intros Hb Ho [H1 _ _ _ _]. destruct (get_le_part 0 _ _ _ Hb H1) as (P1 & P2 & _). unfold DataOff, NbSegs, offRearm, offDataOff, offNbSegs in *.
  replace (m + 20) with (m + 16 + 4) by lia. rewrite P1, P2, rearm_sum by lia. rewrite Z.shiftr_div_pow2 by lia. unfold u16, PortInvalid. split; f_equal; divlia.
Qed.

Lemma PrepareTx_spec m pool o len b :
  bytes_ok b -> 0 <= m -> m + mbufSize <= zlen b -> 0 <= pool < 2 ^ 64 -> 0 <= o < 2 ^ 16 -> 0 <= len < 2 ^ 32 ->
  exists b', PrepareTx m pool o len b = Some b' /\ bytes_ok b' /\ untouched m b b' /\ described m pool o len b' /\ OlFlags b' m = Some 0.
Proof.
  intros Hb Hm Hl Hp Ho Hlen. unfold PrepareTx, SetPool.
  destruct (put_field 8 m offRearm (rearm o 1 1 PortInvalid) b Hb Hm Hl) as (b1 & E1 & B1 & L1 & U1); [done..|]. rewrite E1. cbn [mbind option_bind]. rewrite <- L1 in Hl.
  destruct (put_field 8 m offOlFlags 0 b1 B1 Hm Hl) as (b2 & E2 & B2 & L2 & U2); [done..|]. rewrite E2. cbn [mbind option_bind]. rewrite <- L2 in Hl.
  destruct (put_field 4 m offPktLen len b2 B2 Hm Hl) as (b3 & E3 & B3 & L3 & U3); [done..|]. rewrite E3. cbn [mbind option_bind]. rewrite <- L3 in Hl.
  destruct (put_field 2 m offDataLen (u16 len) b3 B3 Hm Hl) as (b4 & E4 & B4 & L4 & U4); [done..|]. rewrite E4. cbn [mbind option_bind]. rewrite <- L4 in Hl.
  destruct (put_field 8 m offNext 0 b4 B4 Hm Hl) as (b5 & E5 & B5 & L5 & U5); [done..|]. rewrite E5. cbn [mbind option_bind]. rewrite <- L5 in Hl.
  destruct (put_field 8 m offPool pool b5 B5 Hm Hl) as (b6 & E6 & B6 & L6 & U6); [done..|]. exists b6. split; [done|]. split; [done|].
  split; [eauto 10 using untouched_trans|].
  unfold PktLen, DataLen, mbufPool, OlFlags, offRearm, offOlFlags, offPktLen, offDataLen, offNext, offPool in *. split; [split|];
    unfold PktLen, DataLen, mbufPool, offRearm, offPktLen, offDataLen, offNext, offPool.
  - do 5 (erewrite get_le_put_disjoint by first [eassumption|lia]). rewrite (get_le_put_same _ _ _ _ _ E1). f_equal.
    apply Z.mod_small. rewrite rearm_sum by lia. unfold PortInvalid. lia.
  - do 3 (erewrite get_le_put_disjoint by first [eassumption|lia]). rewrite (get_le_put_same _ _ _ _ _ E3). f_equal. by apply Z.mod_small.
  - do 2 (erewrite get_le_put_disjoint by first [eassumption|lia]). rewrite (get_le_put_same _ _ _ _ _ E4). f_equal. apply Z.mod_small, u16_range.
  - erewrite get_le_put_disjoint by first [eassumption|lia]. rewrite (get_le_put_same _ _ _ _ _ E5). done.
  - rewrite (get_le_put_same _ _ _ _ _ E6). f_equal. by apply Z.mod_small.
  - do 4 (erewrite get_le_put_disjoint by first [eassumption|lia]). rewrite (get_le_put_same _ _ _ _ _ E2). done.
Qed.

Lemma ResetRx_spec m headroom pool b :
  bytes_ok b -> 0 <= m -> m + mbufSize <= zlen b -> exists b', ResetRx m headroom pool b = Some b' /\ bytes_ok b' /\ untouched m b b'.
Proof.
  intros Hb Hm Hl. unfold ResetRx.
  destruct (put_field 8 m offRearm (rearm headroom 1 1 PortInvalid) b Hb Hm Hl) as (b1 & E1 & B1 & L1 & U1); [done..|]. rewrite E1. cbn [mbind option_bind]. rewrite <- L1 in Hl.
  destruct (put_field 8 m offNext 0 b1 B1 Hm Hl) as (b2 & E2 & B2 & L2 & U2); [done..|]. rewrite E2. cbn [mbind option_bind]. rewrite <- L2 in Hl.
  destruct (put_field 8 m offPool pool b2 B2 Hm Hl) as (b3 & E3 & B3 & L3 & U3); [done..|]. exists b3. eauto 6 using untouched_trans.
Qed.

(** The frame arithmetic of a DPDK queue, and the batch a transmit builds. *)

(** A queue's constants: frames of [fsize g] bytes over a region of [rlen]
    bytes, which the driver knows at address [rva]. *)
Record base_ok {P} (g : geometry) (rva rlen : Z) (b : base P) : Prop := {
  bo_log : 0 <= g_log g <= 16;
  bo_size : l_FrameSize (c_Layout (d_cfg b)) = fsize g;
  bo_mask : d_frameMask b = fsize g - 1;
  bo_layout : 0 <= l_ObjHeader (c_Layout (d_cfg b)) /\ mbufSize <= l_MbufSize (c_Layout (d_cfg b)) /\ 0 <= l_Headroom (c_Layout (d_cfg b));
  bo_room : DataStart (c_Layout (d_cfg b)) < fsize g;
  bo_data : d_dataStart b = DataStart (c_Layout (d_cfg b));
  bo_buf : d_bufStart b = l_ObjHeader (c_Layout (d_cfg b)) + l_MbufSize (c_Layout (d_cfg b));
  bo_region : c_regionLen (d_cfg b) = rlen /\ rlen mod fsize g = 0 /\ 0 <= rlen < 2 ^ 62;
  bo_va : c_RegionVA (d_cfg b) = rva /\ 0 <= rva /\ rva + rlen <= 2 ^ 64;
  bo_pool : 0 <= c_PoolVA (d_cfg b) < 2 ^ 64;
  bo_depth : 0 < c_Depth (d_cfg b)
}.

(** A frame of the region, of this queue or of another. *)
Definition region_frame (g : geometry) (rlen a : Z) : Prop := 0 <= a < rlen /\ a mod fsize g = 0.

(** The region as the queue finds it. *)
Definition mem_ok (rlen : Z) (region : list Z) : Prop := zlen region = rlen /\ bytes_ok region.

Section arith.
Context {P : Type} `{!FramePool P} (g : geometry) (rva rlen : Z).
Implicit Types (b : base P).

(** The address the driver knows a frame's mbuf by. *)
Definition va_of b (a : Z) : Z := rva + a + l_ObjHeader (c_Layout (d_cfg b)).

Lemma fsize_16 b : base_ok g rva rlen b -> 0 < fsize g <= 2 ^ 16.
Proof using. intros Hb. destruct (bo_log _ _ _ _ Hb). unfold fsize. split; [lia|apply Z.pow_le_mono_r; lia]. Qed.

Lemma frame_room b a : base_ok g rva rlen b -> region_frame g rlen a -> a + fsize g <= rlen.
Proof using.
  intros Hb [Ha Hm]. pose proof (fsize_16 _ Hb). destruct (bo_region _ _ _ _ Hb) as (_ & Hr & _).
  pose proof (Z.div_mod a (fsize g) ltac:(lia)). pose proof (Z.div_mod rlen (fsize g) ltac:(lia)). assert (a / fsize g < rlen / fsize g) by nia. nia.
Qed.

Lemma frameOf_frame b x : base_ok g rva rlen b -> 0 <= x -> frameOf b x = x - x mod fsize g.
Proof using. intros Hb Hx. unfold frameOf. rewrite (bo_mask _ _ _ _ Hb). unfold fsize. apply ldiff_ones_sub. apply (bo_log _ _ _ _ Hb). Qed.

Lemma frame_of_region b x : base_ok g rva rlen b -> 0 <= x < rlen -> region_frame g rlen (x - x mod fsize g).
Proof using.
  intros Hb Hx. pose proof (fsize_16 _ Hb). pose proof (Z.mod_pos_bound x (fsize g) ltac:(lia)). pose proof (Z.div_mod x (fsize g) ltac:(lia)).
  assert (0 <= x / fsize g) by (apply Z.div_pos; lia). split; [nia|]. replace (x - x mod fsize g) with (x / fsize g * fsize g) by lia. apply Z.mod_mul. lia.
Qed.

(** An address goes out and comes back as the frame it was made from. *)
Lemma va_of_back b a : base_ok g rva rlen b -> region_frame g rlen a ->
  u64 (c_RegionVA (d_cfg b) + u64 (a + l_ObjHeader (c_Layout (d_cfg b)))) = va_of b a /\
  exists off, offsetOfVA b (va_of b a) = Some off /\ frameOf b off = a.
Proof using.
  intros Hb Ha. pose proof (frame_room _ _ Hb Ha) as Hr. destruct Ha as [Ha Hm]. pose proof (fsize_16 _ Hb). destruct (bo_layout _ _ _ _ Hb) as (H1 & H2 & H3).
  pose proof (bo_room _ _ _ _ Hb) as Hd. unfold DataStart, mbufSize in *. destruct (bo_region _ _ _ _ Hb) as (R1 & R2 & R3). destruct (bo_va _ _ _ _ Hb) as (V1 & V2 & V3).
  unfold va_of. rewrite (u64_small (a + _)), u64_small by lia. split; [lia|].
  exists (a + l_ObjHeader (c_Layout (d_cfg b))). unfold offsetOfVA. rewrite V1, R1, (proj2 (Z.ltb_ge _ rva)) by lia.
  replace (_ - rva) with (a + l_ObjHeader (c_Layout (d_cfg b))) by lia. rewrite Z.geb_leb, (proj2 (Z.leb_gt rlen _)) by lia. split; [done|].
  rewrite frameOf_frame by (done || lia). rewrite <- Zplus_mod_idemp_l, Hm, Z.add_0_l, Z.mod_small by lia. lia.
Qed.

Lemma frames_back_vas b l : base_ok g rva rlen b -> Forall (region_frame g rlen) l -> frames_back b (map (va_of b) l) = (l, 0).
Proof using.
  intros Hb. induction 1 as [|a l Ha _ IH]; [done|]. cbn [map frames_back]. rewrite IH. destruct (va_of_back b a Hb Ha) as (_ & off & -> & ->). done.
Qed.

(** What [descOK] accepts: at least one byte, all of it in one frame and none
    of it in the frame's header. *)
Definition in_packet_area b (d : Desc) : Prop :=
  exists a, region_frame g rlen a /\ a + d_bufStart b <= Addr d /\ 0 < Len d /\ Addr d + Len d <= a + fsize g.

Lemma descOK_iff b d : base_ok g rva rlen b -> desc_ok d -> d_descOK b d = true <-> in_packet_area b d.
Proof using.
  intros Hb (Ha & Hl & _). pose proof (fsize_16 _ Hb). destruct (bo_layout _ _ _ _ Hb) as (H1 & H2 & H3). pose proof (bo_room _ _ _ _ Hb) as Hd.
  pose proof (bo_buf _ _ _ _ Hb) as Hbuf. unfold DataStart, mbufSize in *. destruct (bo_region _ _ _ _ Hb) as (R1 & R2 & R3).
  unfold d_descOK. rewrite R1, (bo_mask _ _ _ _ Hb). unfold fsize. rewrite land_ones_mod by apply (bo_log _ _ _ _ Hb). fold (fsize g).
  pose proof (Z.mod_pos_bound (Addr d) (fsize g) ltac:(lia)) as Hw. set (within := Addr d mod fsize g) in *. rewrite (u64_small (fsize g - 1 + 1 - within)) by lia.
  assert (Hlen : u64 (Len d - 1) = if Len d =? 0 then 2 ^ 64 - 1 else Len d - 1).
  { destruct (Z.eqb_spec (Len d) 0) as [->|]; [done|]. apply u64_small. lia. }
  rewrite Hlen, Z.geb_leb. split.
  - destruct (Z.leb_spec rlen (Addr d)); [done|]. destruct (Z.ltb_spec within (d_bufStart b)); [done|]. intros Hlt. to_prop.
    exists (Addr d - within). split; [apply (frame_of_region b); [done|lia]|]. destruct (Z.eqb_spec (Len d) 0); lia.
  - intros (a & Hf & Hlo & Hpos & Hhi). pose proof (frame_room _ _ Hb Hf). destruct Hf as [Hf Hm].
    assert (Hwa : within = Addr d - a).
    { unfold within. replace (Addr d) with (a + (Addr d - a)) at 1 by lia. rewrite <- Zplus_mod_idemp_l, Hm, Z.add_0_l, Z.mod_small by lia. done. }
    rewrite (proj2 (Z.leb_gt rlen _)), (proj2 (Z.ltb_ge within _)) by lia. apply Z.ltb_lt. destruct (Z.eqb_spec (Len d) 0); lia.
Qed.

(** The frame and the mbuf of a descriptor that was accepted. *)
Lemma accepted_frame b d : base_ok g rva rlen b -> in_packet_area b d ->
  region_frame g rlen (frame_at g d) /\ frameOf b (Addr d) = frame_at g d /\ frame_at g d + d_bufStart b <= Addr d /\
  0 < Len d /\ Addr d + Len d <= frame_at g d + fsize g.
Proof using.
  intros Hb (a & Hf & Hlo & Hpos & Hhi). pose proof (fsize_16 _ Hb). destruct (bo_layout _ _ _ _ Hb) as (H1 & H2 & H3). pose proof (bo_buf _ _ _ _ Hb) as Hbuf.
  unfold mbufSize in *. assert (E : frame_at g d = a).
  { unfold frame_at. destruct Hf as [Hf Hm]. replace (Addr d) with (a + (Addr d - a)) at 2 by lia. rewrite <- Zplus_mod_idemp_l, Hm, Z.add_0_l, Z.mod_small by lia. lia. }
  rewrite E. split; [done|]. destruct Hf as [Hf Hm]. rewrite frameOf_frame by (done || lia). done.
Qed.
End arith.

(** ** One descriptor *)

Section build.
Context {P : Type} `{!FramePool P} (g : geometry) (rva rlen : Z).
Implicit Types (b : base P).

(** The mbuf of [d]'s frame describes [d]. *)
Definition mbuf_of b (d : Desc) : Z := frame_at g d + l_ObjHeader (c_Layout (d_cfg b)).
Definition described_as b (region : list Z) (d : Desc) : Prop :=
  described (mbuf_of b d) (c_PoolVA (d_cfg b)) (Addr d - frame_at g d - d_bufStart b) (Len d) region.

Lemma applyOffload_spec tso m o packet region dpool doff dlen :
  bytes_ok packet -> bytes_ok region -> 0 <= m -> m + mbufSize <= zlen region -> described m dpool doff dlen region ->
  exists r, applyOffload tso m o packet region = Some r /\
    forall region', r = Ok region' -> bytes_ok region' /\ untouched m region region' /\ described m dpool doff dlen region'.
Proof using.
  intros Hp Hr Hm Hl Hd. unfold applyOffload. case_if; [eexists; split; [done|]; by intros ? [= <-]|].
  destruct (Parse_total packet Hp) as (h & ok & ->). cbn [mbind option_bind]. case_if; [by eexists|]. case_if; [by eexists|]. case_if; [by eexists|].
  cbv zeta. match goal with |- context [match ?s with Ok _ => _ | Err _ => _ end] => destruct s as [[[l4 seg] fl]|e]; [|by eexists] end.
  unfold SetOlFlags, SetTxOffloadTSO.
  destruct (put_field 8 m offOlFlags fl region Hr Hm Hl) as (r1 & F1 & B1 & L1 & U1); [done..|]. rewrite F1. cbn [mbind option_bind]. rewrite <- L1 in Hl.
  match goal with |- context [put_le 8 (m + offTxOffload) ?v r1] => destruct (put_field 8 m offTxOffload v r1 B1 Hm Hl) as (r2 & F2 & B2 & L2 & U2); [done..|] end.
  rewrite F2. cbn [mbind option_bind]. eexists. split; [done|]. intros ? [= <-]. split; [done|]. split; [eauto using untouched_trans|].
  eapply described_offload; [by right|exact F2|]. eapply described_offload; [by left|exact F1|done].
Qed.

(** A descriptor of the packet area is prepared without a panic; what is handed
    on describes it and has the rest of the region untouched. *)
Lemma prepare_one_spec b o d region :
  base_ok g rva rlen b -> in_packet_area g rlen b d -> desc_ok d -> mem_ok rlen region ->
  exists region' e, prepare_one b o d region = Some (region', e) /\ mem_ok rlen region' /\ untouched (mbuf_of b d) region region' /\
    described_as b region' d /\ (o = None -> e = None).
Proof using.
  intros Hb Ha Hd [Hz Hr]. destruct (accepted_frame g rva rlen b d Hb Ha) as (Hf & Ef & Hlo & Hpos & Hhi). pose proof (fsize_16 _ _ _ _ Hb).
  destruct (bo_layout _ _ _ _ Hb) as (H1 & H2 & H3). pose proof (bo_buf _ _ _ _ Hb) as Hbuf. pose proof (bo_room _ _ _ _ Hb) as Hroom. unfold DataStart in Hroom.
  pose proof (frame_room g rva rlen b _ Hb Hf) as Hin. destruct (bo_region _ _ _ _ Hb) as (_ & _ & Hrl). destruct Hd as (HA & HL & _).
  assert (Hm : 0 <= mbuf_of b d /\ mbuf_of b d + mbufSize <= rlen) by (unfold mbuf_of, mbufSize in *; destruct Hf; lia). destruct Hm as [Hm Hml].
  unfold prepare_one. rewrite Ef. fold (mbuf_of b d). rewrite (u64_small (Addr d - _ - _)), u16_small by (unfold mbufSize in *; lia).
  destruct (PrepareTx_spec (mbuf_of b d) (c_PoolVA (d_cfg b)) (Addr d - frame_at g d - d_bufStart b) (Len d) region Hr Hm) as (r1 & -> & B1 & U1 & D1 & F1);
    [by rewrite Hz|apply (bo_pool _ _ _ _ Hb)|unfold mbufSize in *; lia|lia|].
  cbn [mbind option_bind]. assert (Hz1 : zlen r1 = rlen) by (rewrite <- Hz; apply U1). rewrite u64_small, slice_Some by lia.
  assert (Hpk : bytes_ok (take (Z.to_nat (Addr d + Len d - Addr d)) (drop (Z.to_nat (Addr d)) r1))) by (by apply Forall_take, Forall_drop).
  destruct o as [o|].
  - cbn [mbind option_bind].
    destruct (applyOffload_spec (c_TSO (d_cfg b)) (mbuf_of b d) o _ r1 _ _ _ Hpk B1 Hm ltac:(lia) D1) as (r & -> & Hok). cbn [mbind option_bind].
    destruct r as [r2|e]; eexists _, _; (split; [done|]); [|done]. destruct (Hok r2 eq_refl) as (B2 & U2 & D2).
    split; [split; [rewrite <- Hz1; apply U2|done]|]. split; [eauto using untouched_trans|]. done.
  - destruct (c_Checksums (d_cfg b)); [|by eexists _, _]. cbn [mbind option_bind]. destruct (Parse_total _ Hpk) as (h & ok & ->). cbn [mbind option_bind].
    destruct ok; [|by eexists _, _]. unfold SetOlFlags, SetTxOffload.
    destruct (put_field 8 (mbuf_of b d) offOlFlags (ChecksumFlags h) r1 B1 Hm ltac:(lia)) as (r2 & E2 & B2 & L2 & U2); [done..|]. rewrite E2. cbn [mbind option_bind].
    match goal with |- context [put_le 8 (_ + offTxOffload) ?v r2] => destruct (put_field 8 (mbuf_of b d) offTxOffload v r2 B2 Hm ltac:(lia)) as (r3 & E3 & B3 & L3 & U3); [done..|] end.
    rewrite E3. cbn [mbind option_bind]. eexists _, _. split; [done|]. split; [split; [lia|done]|]. split; [eauto using untouched_trans|]. split; [|done].
    eapply described_offload; [by right|exact E3|]. eapply described_offload; [by left|exact E2|done].
Qed.
(** ** A batch *)

(** Packets are where they were, byte for byte. *)
Definition packets_kept b (region region' : list Z) : Prop :=
  forall a, region_frame g rlen a -> slice (a + d_bufStart b) (a + fsize g) region' = slice (a + d_bufStart b) (a + fsize g) region.

Lemma frames_apart b a f : base_ok g rva rlen b -> region_frame g rlen a -> region_frame g rlen f -> a <> f -> a + fsize g <= f \/ f + fsize g <= a.
Proof using.
  intros Hb [_ Ha] [_ Hf] Hne. pose proof (fsize_16 _ _ _ _ Hb). pose proof (Z.div_mod a (fsize g) ltac:(lia)). pose proof (Z.div_mod f (fsize g) ltac:(lia)).
  destruct (Z.lt_trichotomy (a / fsize g) (f / fsize g)) as [?|[E|?]]; [left; nia|exfalso; apply Hne; nia|right; nia].
Qed.

Lemma untouched_packets b d region region' : base_ok g rva rlen b -> in_packet_area g rlen b d ->
  untouched (mbuf_of b d) region region' -> packets_kept b region region'.
Proof using.
  intros Hb Hd [_ Hu] a Ha. destruct (accepted_frame g rva rlen b d Hb Hd) as (Hf & _). destruct (bo_layout _ _ _ _ Hb) as (H1 & H2 & H3).
  pose proof (bo_buf _ _ _ _ Hb) as Hbuf. pose proof (bo_room _ _ _ _ Hb) as Hroom. unfold DataStart in Hroom. apply Hu. unfold mbuf_of.
  destruct (decide (a = frame_at g d)) as [->|Hne]; [lia|]. destruct (frames_apart b a _ Hb Ha Hf Hne); lia.
Qed.

(** What the loop makes of the descriptors [ds] after those of [done]. *)
Record built b (offs : option (list Offload)) (done ds : list Desc) (region0 : list Z) (v : building) (n : nat) : Prop := {
  bu_mbufs : k_mbufs v = map (fun d => va_of rva b (frame_at g d)) (done ++ take n ds);
  bu_mem : mem_ok rlen (k_region v);
  bu_good : Forall (in_packet_area g rlen b) (take n ds);
  bu_described : Forall (described_as b (k_region v)) (done ++ take n ds);
  bu_kept : packets_kept b region0 (k_region v);
  bu_stop : (k_refused v = None /\ n = length ds) \/
            (exists d e, ds !! n = Some d /\ k_refused v = Some e /\ (in_packet_area g rlen b d -> offs <> None))
}.

(** The mbuf of one frame written, those of the frames before stay. *)
Lemma described_others b d region region' done :
  base_ok g rva rlen b -> in_packet_area g rlen b d -> Forall (in_packet_area g rlen b) done -> frame_at g d ∉ map (frame_at g) done ->
  untouched (mbuf_of b d) region region' -> Forall (described_as b region) done -> Forall (described_as b region') done.
Proof using.
  intros Hb Hd Hg Hfresh Hu. rewrite !Forall_forall in *. intros Hall x Hx. destruct (accepted_frame g rva rlen b d Hb Hd) as (Hf & _).
  destruct (accepted_frame g rva rlen b x Hb (Hg x Hx)) as (Hfx & _). destruct (bo_layout _ _ _ _ Hb) as (H1 & H2 & H3). pose proof (bo_room _ _ _ _ Hb) as Hroom.
  unfold DataStart in Hroom. assert (Hne : frame_at g x <> frame_at g d) by (intros E; apply Hfresh; rewrite <- E; by apply list_elem_of_fmap_2).
  eapply described_untouched; [exact Hu| |by apply Hall]. unfold mbuf_of. destruct (frames_apart b _ _ Hb Hfx Hf Hne); unfold mbufSize in *; lia.
Qed.

Lemma build_mbufs_spec b offs : base_ok g rva rlen b -> forall ds i v done,
  Forall desc_ok ds -> (forall l, offs = Some l -> (i + length ds <= length l)%nat) -> NoDup (map (frame_at g) (done ++ ds)) ->
  k_mbufs v = map (fun d => va_of rva b (frame_at g d)) done -> mem_ok rlen (k_region v) -> Forall (in_packet_area g rlen b) done ->
  Forall (described_as b (k_region v)) done -> k_refused v = None ->
  exists v' n, build_mbufs b offs i ds v = Some v' /\ built b offs done ds (k_region v) v' n.
Proof using.
  intros Hb ds. induction ds as [|d ds IH]; intros i v done Hok Hoffs Hnd Hm Hmem Hgood Hdesc Href.
  { exists v, 0%nat. split; [done|]. split; rewrite ?take_nil, ?app_nil_r; try done. by left. }
  apply Forall_cons in Hok as [Hd Hok]. cbn [build_mbufs].
  destruct (d_descOK b d) eqn:Eok; cbn [negb].
  2: { eexists _, 0%nat. split; [done|]. split; rewrite ?take_0, ?app_nil_r; simpl; try done. right. exists d, bad_desc_error. split_and!; try done.
       intros Hin. apply (descOK_iff g rva rlen b d Hb Hd) in Hin. congruence. }
  apply (descOK_iff g rva rlen b d Hb Hd) in Eok as Hin.
  assert (Ho : exists o, (match offs with None => Some None | Some l => x ← l !! i; Some (Some x) end) = Some o /\ (offs = None -> o = None)).
  { destruct offs as [l|]; [|by exists None]. destruct (lookup_lt_is_Some_2 l i) as [x Hx]; [specialize (Hoffs l eq_refl); simpl in Hoffs; lia|].
    exists (Some x). by rewrite Hx. }
  destruct Ho as (o & -> & Hon). cbn [mbind option_bind].
  destruct (prepare_one_spec b o d (k_region v) Hb Hin Hd Hmem) as (region' & e & -> & Hmem' & Hu & Hdd & He). cbn [mbind option_bind].
  assert (Hfresh : frame_at g d ∉ map (frame_at g) done).
  { rewrite map_app in Hnd. apply list.NoDup_app in Hnd as (_ & Hx & _). intros Hx2. apply (Hx _ Hx2). simpl. set_solver. }
  pose proof (described_others b d _ _ done Hb Hin Hgood Hfresh Hu Hdesc) as Hdesc'. pose proof (untouched_packets b d _ _ Hb Hin Hu) as Hkept.
  destruct e as [e|].
  { eexists _, 0%nat. split; [done|]. split; rewrite ?take_0, ?app_nil_r; simpl; try done. right. exists d, e. split_and!; try done. intros _ E. by specialize (He (Hon E)). }
  destruct (IH (S i) (mkBuilding (k_mbufs v ++ [u64 (c_RegionVA (d_cfg b) + u64 (mbufOf b (Addr d)))]) (u64 (k_bytes v + Len d)) region' (k_badDesc v) (k_badOffload v) (k_refused v))
    (done ++ [d])) as (v' & n & E & [B1 B2 B3 B4 B5 B6]); simpl; try done.
  - intros l El. specialize (Hoffs l El). simpl in Hoffs. lia.
  - by rewrite <- app_assoc.
  - rewrite Hm, map_app. simpl. do 2 f_equal. destruct (accepted_frame g rva rlen b d Hb Hin) as (Hf & Ef & _).
    unfold mbufOf. rewrite Ef. by apply (va_of_back g rva rlen b).
  - apply Forall_app. split; [done|by constructor].
  - apply Forall_app. split; [done|by constructor].
  - exists v', (S n). split; [exact E|]. rewrite <- app_assoc in B1, B4. split; try done.
    + by constructor.
    + intros a Ha. simpl in B5. rewrite (B5 a Ha). by apply Hkept.
    + destruct B6 as [[? ->]|?]; [by left|by right].
Qed.
End build.
