(* ===== verification/DpdkTxOps.v ===== *)
(** The transmit queue of the DPDK backend against any driver that keeps
    DPDK's contract: what each operation does to the frames.

    [TxDriver] is that contract: a burst takes a prefix; a buffer taken is the
    driver's until it puts it, once, on the ring of the pool its mbuf names;
    the driver may write the region as it likes. *)

From stdpp Require Import prelude list numbers strings.
From S2P Require Import Prelude Bytes Desc Pool Mbuf DpdkRing DpdkQueue DpdkBuild.

Class TxDriver (D : Type) `{!PMD D} (rva rlen poolVA k : Z) (owned : D -> list Z) := {
  tx_burst_ok mbufs d w l :
    fifo k l (w_returned w) -> mem_ok rlen (w_region w) -> zlen l + zlen (owned d) + zlen mbufs <= 2 ^ k ->
    Forall (fun va => mbufPool (w_region w) (va - rva) = Some poolVA) mbufs ->
    exists sent d' w' l', TxBurst mbufs d w = (sent, d', w') /\ 0 <= sent <= zlen mbufs /\ fifo k l' (w_returned w') /\
      mem_ok rlen (w_region w') /\ w_supply w' = w_supply w /\ l' ++ owned d' ≡ₚ l ++ owned d ++ take (Z.to_nat sent) mbufs;
  poke_ok d w l :
    fifo k l (w_returned w) -> mem_ok rlen (w_region w) -> zlen l + zlen (owned d) <= 2 ^ k ->
    exists d' w' l', Poke d w = (d', w') /\ fifo k l' (w_returned w') /\ mem_ok rlen (w_region w') /\ w_supply w' = w_supply w /\
      l' ++ owned d' ≡ₚ l ++ owned d
}.

(** A list of addresses that are all addresses of frames. *)
Lemma vas_split (f : Z -> Z) (a b l : list Z) : a ++ b ≡ₚ map f l -> exists la lb, a = map f la /\ b = map f lb /\ l ≡ₚ la ++ lb.
Proof.
  intros H. apply Permutation_map_inv in H as (l' & E & Hp). symmetry in E. apply map_eq_app in E as (la & lb & -> & <- & <-).
  by exists la, lb.
Qed.

(** The queue, its driver and its ring, with the frames [fl] in flight. *)
Record tx_ok {P D} (g : geometry) (rva rlen k : Z) (owned : D -> list Z) (t : DTx P) (dr : D) (ret : Ring) (fl : list Z) : Prop := {
  to_base : base_ok g rva rlen (x_base t);
  to_alive : d_dead (x_base t) = None;
  to_flight : x_inFlight t = zlen fl;
  to_depth : zlen fl <= c_Depth (d_cfg (x_base t)) <= 2 ^ k;
  to_frames : Forall (region_frame g rlen) fl;
  to_ring : exists l, fifo k l ret /\ l ++ owned dr ≡ₚ map (va_of rva (x_base t)) fl
}.

Section ops.
Context {P : Type} `{!FramePool P} (g : geometry) (inv : P -> Prop) `{!FramePoolLaws P g inv}.
Context {D : Type} `{!PMD D} (rva rlen poolVA k : Z) (owned : D -> list Z) `{!TxDriver D rva rlen poolVA k owned}.
(** The frames of the queue are inside the region. *)
Context (Hin : (g_first g + g_count g) * fsize g <= rlen).
Implicit Types (t : DTx P) (dr : D) (w : world).
Notation fr := (map (frame_at g)).
Notation okt := (tx_ok g rva rlen k owned).

Lemma own_region a : a ∈ all_frames g -> region_frame g rlen a.
Proof using FramePoolLaws0 Hin.
  clear TxDriver0. intros Ha. pose proof (fp_geo (g := g) (inv := inv)) as Hg. apply (elem_all_frames g a Hg) in Ha as [Hr Hm].
  destruct Hg as (Hl & Hf & Hc & Hb). pose proof (fsize_pos g Hl). unfold frame in Hr. split; [nia|done].
Qed.

Lemma free_slots t dr ret fl : okt t dr ret fl -> d_closed (x_base t) = false ->
  dNumFreeSlots t = c_Depth (d_cfg (x_base t)) - zlen fl.
Proof using.
  clear. intros Ht Hc. unfold dNumFreeSlots. rewrite Hc, (to_flight _ _ _ _ _ _ _ _ _ Ht). pose proof (to_depth _ _ _ _ _ _ _ _ _ Ht).
  destruct (Z.gtb_spec (c_Depth (d_cfg (x_base t)) - zlen fl) 0); lia.
Qed.

(** The descriptors [Alloc] and [Reclaim] make of frames. *)
(** Where a packet starts in its frame. *)
Lemma start_in (b : base P) a : base_ok g rva rlen b -> region_frame g rlen a ->
  u64 (a + d_dataStart b) = a + d_dataStart b /\ 0 <= a + d_dataStart b < rlen /\ frame_at g (mkDesc (a + d_dataStart b) 0 0) = a.
Proof using.
  clear -P. intros Hb Hf. pose proof (frame_room g rva rlen b a Hb Hf) as Hr. destruct (bo_region _ _ _ _ Hb) as (_ & _ & Hrl). pose proof (bo_room _ _ _ _ Hb).
  destruct (bo_layout _ _ _ _ Hb) as (H1 & H2 & H3). unfold mbufSize in *. pose proof (fsize_16 _ _ _ _ Hb). pose proof (bo_log _ _ _ _ Hb).
  rewrite (bo_data _ _ _ _ Hb). destruct Hf as [Hf Hm]. unfold DataStart in *. split; [apply u64_small; lia|]. split; [lia|]. apply frame_at_start; (done || lia).
Qed.

Lemma desc_frames (b : base P) addrs : base_ok g rva rlen b -> Forall (region_frame g rlen) addrs ->
  fr (map (fun a => mkDesc (u64 (a + d_dataStart b)) 0 0) addrs) = addrs.
Proof using.
  intros Hb Ha. rewrite map_map. rewrite <- (map_id addrs) at 2. apply map_ext_Forall. eapply Forall_impl; [exact Ha|]. intros a Hf. simpl.
  destruct (start_in b a Hb Hf) as (-> & _ & E). exact E.
Qed.

Lemma desc_starts (b : base P) addrs : base_ok g rva rlen b -> Forall (region_frame g rlen) addrs ->
  map (fun a => mkDesc (u64 (a + d_dataStart b)) 0 0) addrs = map (fun a => mkDesc (a + d_dataStart b) 0 0) addrs.
Proof using.
  intros Hb Ha. apply map_ext_Forall. eapply Forall_impl; [exact Ha|]. intros a Hf. simpl. by destruct (start_in b a Hb Hf) as (-> & _).
Qed.

(** The queue differs in its pool or its counters alone. *)
Lemma okt_pool t dr ret fl p f : okt t dr ret fl -> okt (x_stats f (x_with_pool p t)) dr ret fl.
Proof using. clear. intros [H1 H2 H3 H4 H5 H6]. split; try done. destruct H1. by split. Qed.

Lemma okt_same t t' dr ret fl : x_base t' = x_base t -> x_inFlight t' = x_inFlight t -> okt t dr ret fl -> okt t' dr ret fl.
Proof using. clear. intros E1 E2 [H1 H2 H3 H4 H5 H6]. split; rewrite ?E1, ?E2; done. Qed.

(** [Alloc] takes frames off the free list, never more than the next
    [Transmit] has slots for. *)
Record d_allocated (n : Z) t dr ret fl (ds : list Desc) t' : Prop := {
  da_ok : okt t' dr ret fl;
  da_inv : inv (d_pool (x_base t'));
  da_free : fp_free (d_pool (x_base t)) = fp_free (d_pool (x_base t')) ++ fr ds;
  da_rejected : fp_rejected (d_pool (x_base t')) = fp_rejected (d_pool (x_base t));
  da_cfg : d_cfg (x_base t') = d_cfg (x_base t) /\ d_closed (x_base t') = d_closed (x_base t);
  da_count : d_closed (x_base t) = false -> zlen ds = Z.max 0 (Z.min n (Z.min (dNumFreeSlots t) (zlen (fp_free (d_pool (x_base t))))));
  da_start : ds = map (fun a => mkDesc (a + d_dataStart (x_base t)) 0 0) (fr ds)
}.

Lemma d_allocated_none n t dr ret fl t' : okt t dr ret fl -> inv (d_pool (x_base t)) -> x_base t' = x_base t -> x_inFlight t' = x_inFlight t ->
  (d_closed (x_base t) = false -> n <= 0 \/ dNumFreeSlots t = 0 \/ zlen (fp_free (d_pool (x_base t))) = 0) -> d_allocated n t dr ret fl [] t'.
Proof using.
  clear -P. intros Ht Hp E1 E2 Hwhy. split; rewrite ?E1; try done; [by eapply okt_same|by rewrite app_nil_r|].
  intros Hc. specialize (Hwhy Hc). pose proof (to_depth _ _ _ _ _ _ _ _ _ Ht). pose proof (zlen_nonneg (fp_free (d_pool (x_base t)))).
  rewrite (free_slots _ _ _ _ Ht Hc) in *. change (zlen (@nil Desc)) with 0. lia.
Qed.

Lemma dAlloc_spec n t dr ret fl : okt t dr ret fl -> inv (d_pool (x_base t)) ->
  exists ds t', dAlloc n t = Some (ds, t') /\ d_allocated n t dr ret fl ds t'.
Proof using FramePoolLaws0 Hin.
  clear TxDriver0. intros Ht Hp. pose proof (fp_len_ok _ Hp) as Hlen. pose proof (zlen_nonneg (fp_free (d_pool (x_base t)))) as Hzf.
  pose proof (to_depth _ _ _ _ _ _ _ _ _ Ht) as Hdep. unfold dAlloc. rewrite (to_alive _ _ _ _ _ _ _ _ _ Ht), orb_false_r.
  destruct (d_closed (x_base t) || (n <=? 0)) eqn:Ec.
  { eexists _, _. split; [done|]. apply d_allocated_none; try done. apply orb_true_iff in Ec as [Ec|Ec]; to_prop; [congruence|auto]. }
  to_prop. pose proof (free_slots _ _ _ _ Ht ltac:(done)) as Hfs. cbv zeta.
  case_if; [eexists _, _; split; [done|]; apply d_allocated_none; try done; lia|]. set (n1 := if n >? dNumFreeSlots t then dNumFreeSlots t else n).
  assert (Hn1 : n1 = Z.min n (dNumFreeSlots t) /\ 0 < n1) by (unfold n1; destruct (Z.gtb_spec n (dNumFreeSlots t)); lia). rewrite Hlen.
  case_if; [eexists _, _; split; [done|]; apply d_allocated_none; try done; lia|]. set (n2 := if n1 >? _ then _ else n1).
  assert (Hn2 : n2 = Z.min n1 (zlen (fp_free (d_pool (x_base t)))) /\ 0 < n2) by (unfold n2; destruct (Z.gtb_spec n1 (zlen (fp_free (d_pool (x_base t))))); lia).
  destruct (fp_pop_ok (d_pool (x_base t)) n2 [] Hp) as (p' & Epop & Hf' & Hr' & Hi'). rewrite Epop. cbn [mbind option_bind].
  set (kk := (length (fp_free (d_pool (x_base t))) - Z.to_nat (Z.max 0 n2))%nat) in *. rewrite app_nil_l. set (addrs := drop kk (fp_free (d_pool (x_base t)))).
  assert (Ha : Forall (region_frame g rlen) addrs).
  { apply Forall_forall. intros a Ha. apply own_region, (fp_sub _ Hp). by eapply elem_drop. }
  eexists _, _. split; [done|]. split; simpl; rewrite ?(desc_frames _ _ (to_base _ _ _ _ _ _ _ _ _ Ht) Ha); try done.
  - apply (okt_same (x_stats (fun s => s) (x_with_pool p' t))); [done..|]. by apply okt_pool.
  - rewrite Hf'. unfold addrs. by rewrite take_drop.
  - intros _. unfold addrs, zlen in *. rewrite length_map, length_drop. unfold kk. lia.
  - by apply desc_starts; [apply (to_base _ _ _ _ _ _ _ _ _ Ht)|].
Qed.

(** ** Transmit *)

(** What a transmit of [ds] did: [n] of them went, all inside their packet
    areas; the rest of the queue is as it was.  The driver was handed
    addresses whose mbufs described exactly the descriptors. *)
Record d_transmitted (ds : list Desc) t w fl (n : Z) t' (dr' : D) (w' : world) : Prop := {
  dt_count : 0 <= n <= Z.min (zlen ds) (Z.max 0 (c_Depth (d_cfg (x_base t)) - zlen fl));
  dt_ok : okt t' dr' (w_returned w') (fl ++ fr (take (Z.to_nat n) ds));
  dt_base : x_base t' = x_base t;
  dt_mem : mem_ok rlen (w_region w') /\ w_supply w' = w_supply w;
  dt_good : Forall (in_packet_area g rlen (x_base t)) (take (Z.to_nat n) ds)
}.

Lemma d_transmitted_none ds t dr w fl t' w' : okt t dr (w_returned w) fl -> x_base t' = x_base t -> x_inFlight t' = x_inFlight t ->
  mem_ok rlen (w_region w') -> w_supply w' = w_supply w -> w_returned w' = w_returned w -> d_transmitted ds t w fl 0 t' dr w'.
Proof using.
  clear. intros Ht E1 E2 Hm E3 E4. pose proof (zlen_nonneg ds). split; try done; [lia|]. change (Z.to_nat 0) with 0%nat. rewrite take_0, app_nil_r, E4.
  by eapply okt_same.
Qed.

Lemma named_pool (b : base P) region ds : base_ok g rva rlen b -> c_PoolVA (d_cfg b) = poolVA -> Forall (described_as g b region) ds ->
  Forall (fun va => mbufPool region (va - rva) = Some poolVA) (map (fun d => va_of rva b (frame_at g d)) ds).
Proof using.
  clear -P. intros Hb Hp Hd. apply Forall_map. eapply Forall_impl; [exact Hd|]. intros d [_ _ _ _ Hpool]. simpl. unfold va_of, mbuf_of in *.
  rewrite Hp in Hpool. by replace (rva + frame_at g d + l_ObjHeader (c_Layout (d_cfg b)) - rva) with (frame_at g d + l_ObjHeader (c_Layout (d_cfg b))) by lia.
Qed.

(** The driver given a batch that describes [ds]. *)
Lemma burst_spec t dr w fl ds region : okt t dr (w_returned w) fl -> c_PoolVA (d_cfg (x_base t)) = poolVA -> mem_ok rlen region ->
  Forall (described_as g (x_base t) region) ds -> Forall (in_packet_area g rlen (x_base t)) ds -> zlen fl + zlen ds <= c_Depth (d_cfg (x_base t)) ->
  exists sent dr' w', TxBurst (map (fun d => va_of rva (x_base t) (frame_at g d)) ds) dr (w_with_region region w) = (sent, dr', w') /\
    0 <= sent <= zlen ds /\ mem_ok rlen (w_region w') /\ w_supply w' = w_supply w /\
    forall f, okt (x_stats f (x_flight (x_inFlight t + sent) t)) dr' (w_returned w') (fl ++ fr (take (Z.to_nat sent) ds)).
Proof using TxDriver0.
  clear Hin. intros Ht Hp Hm Hd Hg Hroom. destruct (to_ring _ _ _ _ _ _ _ _ _ Ht) as (l & Hf & Hl). pose proof (to_depth _ _ _ _ _ _ _ _ _ Ht) as Hdep.
  assert (Hzl : zlen l + zlen (owned dr) = zlen fl) by (rewrite <- zlen_app; unfold zlen; by rewrite Hl, length_map).
  set (mb := map _ ds). assert (Hmb : zlen mb = zlen ds) by (unfold mb, zlen; by rewrite length_map).
  destruct (tx_burst_ok mb dr (w_with_region region w) l) as (sent & dr' & w' & l' & E & Hs & Hf' & Hm' & Hsup & Hperm); try done; [lia|by apply (named_pool (x_base t) region ds (to_base _ _ _ _ _ _ _ _ _ Ht))|].
  exists sent, dr', w'. split; [done|]. split; [lia|]. split; [done|]. split; [done|]. intros f.
  assert (Hz : zlen (fr (take (Z.to_nat sent) ds)) = sent) by (unfold zlen in *; rewrite length_map, length_take; lia).
  split; simpl; rewrite ?zlen_app, ?Hz; try apply Ht.
  - by rewrite (to_flight _ _ _ _ _ _ _ _ _ Ht).
  - lia.
  - apply Forall_app. split; [apply (to_frames _ _ _ _ _ _ _ _ _ Ht)|]. apply Forall_map, Forall_take. eapply Forall_impl; [exact Hg|]. intros d Hin. simpl.
    by apply (accepted_frame g rva rlen (x_base t) d (to_base _ _ _ _ _ _ _ _ _ Ht)).
  - exists l'. split; [done|]. rewrite Hperm, app_assoc, Hl, map_app, map_map. unfold mb. by rewrite firstn_map.
Qed.

Lemma d_transmit_spec ds offs t dr w fl : okt t dr (w_returned w) fl -> c_PoolVA (d_cfg (x_base t)) = poolVA -> mem_ok rlen (w_region w) ->
  Forall desc_ok ds -> NoDup (fr ds) -> (forall l, offs = Some l -> length l = length ds) ->
  exists n e t' dr' w', d_transmit ds offs t dr w = Some (n, e, t', dr', w') /\ d_transmitted ds t w fl n t' dr' w'.
Proof using TxDriver0.
  clear Hin. intros Ht Hp Hm Hds Hnd Hoffs. pose proof (to_base _ _ _ _ _ _ _ _ _ Ht) as Hb. pose proof (zlen_nonneg ds). pose proof (to_depth _ _ _ _ _ _ _ _ _ Ht) as Hdep.
  unfold d_transmit. destruct (d_closed (x_base t)) eqn:Hc; [do 5 eexists; split; [done|]; by apply d_transmitted_none|].
  rewrite (to_alive _ _ _ _ _ _ _ _ _ Ht). case_if; [do 5 eexists; split; [done|]; by apply d_transmitted_none|]. cbv zeta. rewrite (free_slots _ _ _ _ Ht Hc).
  set (n1 := if zlen ds >? _ then _ else zlen ds). assert (Hn1 : n1 = Z.min (zlen ds) (c_Depth (d_cfg (x_base t)) - zlen fl)).
  { unfold n1. destruct (Z.gtb_spec (zlen ds) (c_Depth (d_cfg (x_base t)) - zlen fl)); lia. }
  case_if; [do 5 eexists; split; [done|]; by apply d_transmitted_none|]. pose proof (zlen_nonneg fl).
  replace (if n1 >? c_Depth (d_cfg (x_base t)) then c_Depth (d_cfg (x_base t)) else n1) with n1 by (destruct (Z.gtb_spec n1 (c_Depth (d_cfg (x_base t)))); lia).
  destruct (build_mbufs_spec g rva rlen (x_base t) offs Hb (take (Z.to_nat n1) ds) 0 (mkBuilding [] 0 (w_region w) false false None) []) as (v & m & Ebuild & [B1 B2 B3 B4 B5 B6]); try done.
  { by apply Forall_take. } { intros l El. rewrite (Hoffs l El), length_take. lia. }
  { rewrite app_nil_l. rewrite <- (take_drop (Z.to_nat n1) ds), map_app in Hnd. by eapply NoDup_app_l. }
  rewrite Ebuild. cbn [mbind option_bind]. rewrite app_nil_l in *. rewrite take_take in *. set (good := take (m `min` Z.to_nat n1) ds) in *.
  set (t1 := if k_badDesc v then x_stats inc_xBadDesc t else t). set (t2 := if k_badOffload v then x_stats inc_xBadOffload t1 else t1).
  assert (Hb2 : x_base t2 = x_base t /\ x_inFlight t2 = x_inFlight t) by (unfold t2, t1; by repeat case_if). destruct Hb2 as [Hb2 Hi2].
  case_if; [do 5 eexists; split; [done|]; by apply d_transmitted_none|].
  assert (Ht2 : okt t2 dr (w_returned w) fl) by (by eapply okt_same). rewrite <- Hb2 in B1, B3, B4, Hp.
  assert (Hzg : zlen good <= n1) by (unfold good, zlen; rewrite length_take; lia).
  destruct (burst_spec t2 dr w fl good (k_region v) Ht2 Hp B2 B4 B3) as (sent & dr' & w' & E3 & Hs & Hm' & Hsup & Hok); [rewrite Hb2; lia|].
  rewrite <- B1 in E3. rewrite E3. assert (Hkm : zlen (k_mbufs v) = zlen good) by (rewrite B1; unfold zlen; by rewrite length_map).
  replace ((sent <? 0) || (sent >? zlen (k_mbufs v))) with false by (symmetry; apply orb_false_iff; split; [apply Z.ltb_ge|rewrite Z.gtb_ltb; apply Z.ltb_ge]; lia).
  assert (Htk : take (Z.to_nat sent) good = take (Z.to_nat sent) ds).
  { unfold good. rewrite take_take. f_equal. unfold good, zlen in *. rewrite length_take in *. lia. }
  do 5 eexists. split; [done|]. rewrite Htk in Hok. split; try done; [lia|]. rewrite <- Htk, <- Hb2. by apply Forall_take.
Qed.

(** ** Reclaiming *)

Record d_reclaimed (max : Z) t w fl (frames : list Z) t' (dr' : D) (w' : world) (fl' : list Z) : Prop := {
  dc_ok : okt t' dr' (w_returned w') fl';
  dc_frames : fl ≡ₚ frames ++ fl';
  dc_base : x_base t' = x_base t;
  dc_mem : mem_ok rlen (w_region w') /\ w_supply w' = w_supply w;
  dc_count : zlen frames <= Z.max 0 max
}.

(** The driver asked once if nothing has come back. *)
Lemma poke_spec t dr w fl : okt t dr (w_returned w) fl -> mem_ok rlen (w_region w) ->
  exists t' dr' w', (if (RingLen (w_returned w) =? 0) && (x_inFlight t >? 0) then let '(dr, w) := Poke dr w in (x_stats inc_xPokes t, dr, w) else (t, dr, w)) = (t', dr', w') /\
    okt t' dr' (w_returned w') fl /\ x_base t' = x_base t /\ mem_ok rlen (w_region w') /\ w_supply w' = w_supply w.
Proof using TxDriver0.
  clear Hin. intros Ht Hm. case_if; [|by exists t, dr, w]. destruct (to_ring _ _ _ _ _ _ _ _ _ Ht) as (l & Hf & Hl). pose proof (to_depth _ _ _ _ _ _ _ _ _ Ht) as Hdep.
  assert (Hzl : zlen l + zlen (owned dr) = zlen fl) by (rewrite <- zlen_app; unfold zlen; by rewrite Hl, length_map).
  destruct (poke_ok dr w l) as (dr' & w' & l' & -> & Hf' & Hm' & Hs & Hp); [done|done|lia|]. do 3 eexists. split; [done|]. split; [|done].
  destruct Ht as [H1 H2 H3 H4 H5 H6]. split; try done. exists l'. split; [done|]. by rewrite Hp.
Qed.

Lemma d_reclaim_spec max t dr w fl : okt t dr (w_returned w) fl -> mem_ok rlen (w_region w) ->
  exists frames t' dr' w' fl', d_reclaim max t dr w = Some (frames, t', dr', w') /\ d_reclaimed max t w fl frames t' dr' w' fl'.
Proof using TxDriver0.
  clear Hin. intros Ht Hm. unfold d_reclaim. case_if.
  { exists [], t, dr, w, fl. split; [done|]. split; try done. change (zlen (@nil Z)) with 0. lia. }
  to_prop. destruct (poke_spec t dr w fl Ht Hm) as (t1 & dr1 & w1 & -> & Ht1 & Hb1 & Hm1 & Hs1).
  destruct (to_ring _ _ _ _ _ _ _ _ _ Ht1) as (l & Hf & Hl). rewrite (proj1 (fifo_len k l _ Hf)). cbv zeta.
  set (n := if zlen l >? max then max else zlen l). assert (Hn : n = Z.min (zlen l) max) by (unfold n; destruct (Z.gtb_spec (zlen l) max); lia).
  case_if.
  { exists [], t1, dr1, w1, fl. split; [done|]. split; try done. change (zlen (@nil Z)) with 0. lia. }
  destruct (RingPop_spec k n [] l _ Hf) as (r & -> & Hf'). cbn [mbind option_bind]. rewrite app_nil_l.
  rewrite <- (take_drop (Z.to_nat n) l), <- app_assoc in Hl. destruct (vas_split _ _ _ _ Hl) as (la & lb & Ea & Eb & Hfl). rewrite Ea.
  pose proof (to_frames _ _ _ _ _ _ _ _ _ Ht1) as Hall. rewrite Hfl in Hall. apply Forall_app in Hall as [Ha Hb].
  rewrite (frames_back_vas g rva rlen _ _ (to_base _ _ _ _ _ _ _ _ _ Ht1) Ha). cbn [note_foreign Z.gtb Z.compare].
  assert (Hz : zlen fl = zlen la + zlen lb) by (unfold zlen; rewrite Hfl, length_app; lia).
  assert (Hla : zlen la <= n).
  { apply (f_equal length) in Ea. rewrite length_take, length_map in Ea. unfold zlen in *. lia. }
  eexists la, _, dr1, _, lb. split; [done|]. split; simpl; try done; [|lia]. pose proof (zlen_nonneg la). pose proof (to_depth _ _ _ _ _ _ _ _ _ Ht1).
  split; simpl; try apply Ht1; try done.
  - rewrite (to_flight _ _ _ _ _ _ _ _ _ Ht1). lia.
  - lia.
  - exists (drop (Z.to_nat n) l). split; [done|]. by rewrite Eb.
Qed.

(** [Complete] puts what came back on the free list; the frames in flight have
    to be this queue's. *)
Lemma dComplete_spec max t dr w fl : okt t dr (w_returned w) fl -> mem_ok rlen (w_region w) -> inv (d_pool (x_base t)) ->
  fl ⊆ all_frames g -> NoDup (fp_free (d_pool (x_base t)) ++ fl) ->
  exists frames t' dr' w' fl', dComplete max t dr w = Some (zlen frames, t', dr', w') /\ okt t' dr' (w_returned w') fl' /\ fl ≡ₚ frames ++ fl' /\
    inv (d_pool (x_base t')) /\ fp_free (d_pool (x_base t')) = fp_free (d_pool (x_base t)) ++ frames /\
    fp_rejected (d_pool (x_base t')) = fp_rejected (d_pool (x_base t)) /\ d_cfg (x_base t') = d_cfg (x_base t) /\
    mem_ok rlen (w_region w') /\ w_supply w' = w_supply w.
Proof using TxDriver0 FramePoolLaws0.
  clear Hin. intros Ht Hm Hp Hs Hn. unfold dComplete. destruct (d_reclaim_spec max t dr w fl Ht Hm) as (frames & t1 & dr1 & w1 & fl1 & -> & [H1 H2 H3 H4 H5]).
  cbn [mbind option_bind]. rewrite H3. rewrite H2 in Hn, Hs. destruct (push_addrs_ok g inv frames (d_pool (x_base t)) Hp) as (p' & E & F1 & F2 & F3).
  { set_solver. } { rewrite app_assoc in Hn. by eapply NoDup_app_l. }
  unfold push_frames. rewrite E. cbn [mbind option_bind]. exists frames, (x_with_pool p' t1), dr1, w1, fl1. split; [done|].
  split; [apply (okt_same (x_stats (fun s => s) (x_with_pool p' t1))); [done..|]; by apply okt_pool|]. simpl. rewrite H3. by destruct H4.
Qed.

(** Frames of others are refused by the free list, and counted there. *)
Lemma dComplete_any max t dr w fl : okt t dr (w_returned w) fl -> mem_ok rlen (w_region w) -> inv (d_pool (x_base t)) ->
  0 <= fp_rejected (d_pool (x_base t)) < 2 ^ 64 -> NoDup (fp_free (d_pool (x_base t)) ++ fl) ->
  exists frames t' dr' w' fl', dComplete max t dr w = Some (zlen frames, t', dr', w') /\ okt t' dr' (w_returned w') fl' /\ fl ≡ₚ frames ++ fl' /\
    inv (d_pool (x_base t')) /\ fp_free (d_pool (x_base t')) = fp_free (d_pool (x_base t)) ++ filter (fun a => a ∈ all_frames g) frames /\
    fp_rejected (d_pool (x_base t')) = u64 (fp_rejected (d_pool (x_base t)) + zlen (filter (fun a => a ∉ all_frames g) frames)) /\
    d_cfg (x_base t') = d_cfg (x_base t) /\ (d_dataStart (x_base t') = d_dataStart (x_base t) /\ d_closed (x_base t') = d_closed (x_base t)) /\ mem_ok rlen (w_region w').
Proof using TxDriver0 FramePoolLaws0.
  clear Hin. intros Ht Hm Hp Hr Hn. unfold dComplete. destruct (d_reclaim_spec max t dr w fl Ht Hm) as (frames & t1 & dr1 & w1 & fl1 & -> & [H1 H2 H3 H4 H5]).
  cbn [mbind option_bind]. rewrite H3. rewrite H2 in Hn. destruct (push_addrs_any g inv frames (d_pool (x_base t)) Hp Hr) as (p' & E & F1 & F2 & F3).
  { rewrite app_assoc in Hn. by eapply NoDup_app_l. }
  unfold push_frames. rewrite E. cbn [mbind option_bind]. exists frames, (x_with_pool p' t1), dr1, w1, fl1. split; [done|].
  split; [apply (okt_same (x_stats (fun s => s) (x_with_pool p' t1))); [done..|]; by apply okt_pool|]. simpl. rewrite H3. by destruct H4.
Qed.

(** [Reclaim] hands it to the caller, whoever's it is. *)
Lemma dReclaim_spec max out t dr w fl : okt t dr (w_returned w) fl -> mem_ok rlen (w_region w) ->
  exists ds t' dr' w' fl', dReclaim max out t dr w = Some (out ++ ds, t', dr', w') /\ okt t' dr' (w_returned w') fl' /\ fl ≡ₚ fr ds ++ fl' /\
    x_base t' = x_base t /\ mem_ok rlen (w_region w') /\ w_supply w' = w_supply w /\ zlen ds <= Z.max 0 max.
Proof using TxDriver0.
  clear Hin. intros Ht Hm. unfold dReclaim. destruct (d_reclaim_spec max t dr w fl Ht Hm) as (frames & t1 & dr1 & w1 & fl1 & -> & [H1 H2 H3 H4 H5]).
  cbn [mbind option_bind]. eexists _, t1, dr1, w1, fl1. split; [done|]. pose proof (to_frames _ _ _ _ _ _ _ _ _ Ht) as Hall. rewrite H2 in Hall. apply Forall_app in Hall as [Ha _].
  rewrite (desc_frames _ _ (to_base _ _ _ _ _ _ _ _ _ H1) Ha). destruct H4. split_and!; try done. unfold zlen in *. by rewrite length_map.
Qed.

Lemma dFree_spec ds t dr ret fl : okt t dr ret fl -> inv (d_pool (x_base t)) -> fr ds ⊆ all_frames g -> NoDup (fp_free (d_pool (x_base t)) ++ fr ds) ->
  exists t', dFree ds t = Some t' /\ okt t' dr ret fl /\ inv (d_pool (x_base t')) /\ fp_free (d_pool (x_base t')) = fp_free (d_pool (x_base t)) ++ fr ds /\
    fp_rejected (d_pool (x_base t')) = fp_rejected (d_pool (x_base t)) /\ d_cfg (x_base t') = d_cfg (x_base t) /\ d_closed (x_base t') = d_closed (x_base t).
Proof using FramePoolLaws0.
  clear TxDriver0 Hin. intros Ht Hp Hs Hn. unfold dFree, push_bases. destruct (push_descs_ok g inv ds (d_pool (x_base t)) Hp Hs Hn) as (p' & -> & F1 & F2 & F3).
  cbn [mbind option_bind]. eexists. split; [done|]. split; [apply (okt_same (x_stats (fun s => s) (x_with_pool p' t))); [done..|]; by apply okt_pool|]. done.
Qed.
End ops.
