(* ===== verification/DpdkRxOps.v ===== *)
(** The receive queue of the DPDK backend against any driver that keeps DPDK's
    contract: what each operation does to the frames.

    [RxDriver] is that contract: the driver takes buffers from the supply and
    delivers each once, or frees it into its pool's ring; what it delivers
    starts inside the buffer.  A packet in several segments is delivered by its
    first; the rest of the chain is still the driver's for this account.
    Lengths, flags and packet bytes may be anything. *)

From stdpp Require Import prelude list numbers strings.
From S2P Require Import Prelude Bytes Desc Pool Mbuf MbufThms DpdkRing DpdkQueue DpdkBuild DpdkTxOps.

Class RxDriver (D : Type) `{!PMD D} (rva rlen bufLen ks kr : Z) (held : D -> list Z) := {
  rx_burst_ok max d w ls lr :
    fifo ks ls (w_supply w) -> fifo kr lr (w_returned w) -> mem_ok rlen (w_region w) -> 0 < max ->
    zlen ls + zlen lr + zlen (held d) <= 2 ^ kr ->
    exists got burst d' w' ls' lr', RxBurst max d w = (got, burst, d', w') /\ 0 <= got <= max /\ zlen burst = max /\
      fifo ks ls' (w_supply w') /\ fifo kr lr' (w_returned w') /\ mem_ok rlen (w_region w') /\
      take (Z.to_nat got) burst ++ ls' ++ lr' ++ held d' ≡ₚ ls ++ lr ++ held d /\
      Forall (fun va => forall o, DataOff (w_region w') (va - rva) = Some o -> o < bufLen) (take (Z.to_nat got) burst)
}.

(** The queue, its driver and its rings, with the frames [out] outstanding. *)
Record rx_ok {P D} (g : geometry) (rva rlen ks kr : Z) (held : D -> list Z) (q : DRx P) (dr : D) (sup ret : Ring) (out : list Z) : Prop := {
  ro_base : base_ok g rva rlen (y_base q);
  ro_alive : d_dead (y_base q) = None;
  ro_returned : c_haveReturned (d_cfg (y_base q)) = true;
  ro_count : y_outstanding q = zlen out;
  ro_frames : Forall (region_frame g rlen) out;
  ro_rings : exists ls lr, fifo ks ls sup /\ fifo kr lr ret /\ ls ++ lr ++ held dr ≡ₚ map (va_of rva (y_base q)) out
}.

Section ops.
Context {P : Type} `{!FramePool P} (g : geometry) (inv : P -> Prop) `{!FramePoolLaws P g inv}.
Context {D : Type} `{!PMD D} (rva rlen bufLen ks kr : Z) (held : D -> list Z) `{!RxDriver D rva rlen bufLen ks kr held}.
Implicit Types (q : DRx P) (dr : D) (w : world).
Notation fr := (map (frame_at g)).
Notation okr := (rx_ok g rva rlen ks kr held).

(** [q'] is [q] but for its pool and counters. *)
Definition same_queue q q' : Prop := (exists p, y_base q' = with_pool p (y_base q)) /\ y_outstanding q' = y_outstanding q.

Lemma same_queue_trans q1 q2 q3 : same_queue q1 q2 -> same_queue q2 q3 -> same_queue q1 q3.
Proof using. clear. intros [[p1 E1] E2] [[p2 E3] E4]. split; [exists p2; by rewrite E3, E1|congruence]. Qed.

Lemma base_with_pool b p : base_ok g rva rlen b -> base_ok g rva rlen (with_pool p b : base P).
Proof using. clear. intros []. by split. Qed.

(** [k] frames more or less, the addresses still being those of [out']. *)
Lemma okr_step q q' dr dr' sup ret sup' ret' out out' k : okr q dr sup ret out ->
  (exists p, y_base q' = with_pool p (y_base q)) -> y_outstanding q' = y_outstanding q + k -> zlen out' = zlen out + k ->
  Forall (region_frame g rlen) out' ->
  (exists ls lr, fifo ks ls sup' /\ fifo kr lr ret' /\ ls ++ lr ++ held dr' ≡ₚ map (va_of rva (y_base q)) out') ->
  okr q' dr' sup' ret' out'.
Proof using.
  clear. intros [H1 H2 H3 H4 H5 _] [p E1] E2 Hz Hf Hr. split; rewrite ?E1; try done; [by apply base_with_pool|lia].
Qed.

Lemma reset_frames_spec (b : base P) addrs : base_ok g rva rlen b -> Forall (region_frame g rlen) addrs -> forall region, mem_ok rlen region ->
  exists region', reset_frames b addrs region = Some (map (va_of rva b) addrs, region') /\ mem_ok rlen region'.
Proof using.
  clear -P. intros Hb. induction 1 as [|a addrs Ha _ IH]; intros region [Hz Hr]; cbn [reset_frames map]; [by exists region|].
  pose proof (frame_room g rva rlen b a Hb Ha). destruct (bo_layout _ _ _ _ Hb) as (H1 & H2 & H3). pose proof (bo_room _ _ _ _ Hb) as Hroom. unfold DataStart in Hroom.
  destruct (ResetRx_spec (a + l_ObjHeader (c_Layout (d_cfg b))) (u16 (l_Headroom (c_Layout (d_cfg b)))) (c_PoolVA (d_cfg b)) region Hr) as (r1 & -> & B1 & U1);
    [destruct Ha; lia|unfold mbufSize in *; lia|]. cbn [mbind option_bind].
  destruct (IH r1) as (r2 & -> & Hm); [split; [rewrite <- Hz; apply U1|done]|]. cbn [mbind option_bind]. exists r2. split; [|done].
  by rewrite (proj1 (va_of_back g rva rlen b a Hb Ha)).
Qed.

(** ** Fill *)

Record d_filled (n : Z) q w (dr : D) (out posted : list Z) q' w' : Prop := {
  df_ok : okr q' dr (w_supply w') (w_returned w') (out ++ posted);
  df_inv : inv (d_pool (y_base q'));
  df_free : fp_free (d_pool (y_base q)) ≡ₚ fp_free (d_pool (y_base q')) ++ posted;
  df_rejected : fp_rejected (d_pool (y_base q')) = fp_rejected (d_pool (y_base q));
  df_mem : mem_ok rlen (w_region w') /\ w_returned w' = w_returned w;
  df_same : d_cfg (y_base q') = d_cfg (y_base q) /\ d_closed (y_base q') = d_closed (y_base q);
  df_count : d_closed (y_base q) = false -> zlen posted = Z.max 0 (Z.min n (dNumFreeFillSlots q w))
}.

(** [Fill] moves frames from the free list to the supply, as many as it has
    room for, and puts the rest back. *)
Lemma dFill_spec n q dr w out : (forall a, a ∈ all_frames g -> region_frame g rlen a) ->
  okr q dr (w_supply w) (w_returned w) out -> mem_ok rlen (w_region w) -> inv (d_pool (y_base q)) -> NoDup (fp_free (d_pool (y_base q))) ->
  exists posted q' w', dFill n q w = Some (zlen posted, q', w') /\ d_filled n q w dr out posted q' w'.
Proof using FramePoolLaws0.
  clear RxDriver0. intros Hown Hq Hm Hp Hnd. pose proof (fp_len_ok _ Hp) as Hlen. pose proof (zlen_nonneg (fp_free (d_pool (y_base q)))) as Hzf.
  destruct (ro_rings _ _ _ _ _ _ _ _ _ _ _ Hq) as (ls & lr & Hfs & Hfr & Hl). destruct (fifo_len ks ls _ Hfs) as [_ Hroom]. pose proof (ff_len _ _ _ Hfs) as Hls.
  assert (Hslots : d_closed (y_base q) = false -> dNumFreeFillSlots q w = Z.min (2 ^ ks - zlen ls) (zlen (fp_free (d_pool (y_base q))))).
  { intros Hc. unfold dNumFreeFillSlots. rewrite Hc, Hroom, Hlen. destruct (Z.gtb_spec (2 ^ ks - zlen ls) (zlen (fp_free (d_pool (y_base q))))); lia. }
  assert (Hnone : forall q', y_base q' = y_base q -> y_outstanding q' = y_outstanding q -> (d_closed (y_base q) = false -> n <= 0 \/ zlen (fp_free (d_pool (y_base q))) = 0) ->
    exists posted q'' w', Some (0, q', w) = Some (zlen posted, q'', w') /\ d_filled n q w dr out posted q'' w').
  { intros q' E1 E2 Hwhy. exists [], q', w. split; [done|]. split; rewrite ?app_nil_r, ?E1; try done.
    - destruct Hq as [H1 H2 H3 H4 H5 H6]. split; rewrite ?E1, ?E2; done.
    - intros Hc. rewrite (Hslots Hc). specialize (Hwhy Hc). change (zlen (@nil Z)) with 0. lia. }
  unfold dFill. rewrite (ro_alive _ _ _ _ _ _ _ _ _ _ _ Hq), orb_false_r. destruct (d_closed (y_base q) || (n <=? 0)) eqn:Ec.
  { apply Hnone; try done. apply orb_true_iff in Ec as [Ec|Ec]; to_prop; [congruence|auto]. }
  to_prop. cbv zeta. rewrite Hlen. case_if; [apply Hnone; try done; lia|]. set (n1 := if n >? _ then _ else n).
  assert (Hn1 : n1 = Z.min n (zlen (fp_free (d_pool (y_base q)))) /\ 0 < n1) by (unfold n1; destruct (Z.gtb_spec n (zlen (fp_free (d_pool (y_base q))))); lia).
  destruct Hn1 as [Hn1 Hpos]. rewrite (proj2 (Z.eqb_neq n1 0)) by lia. destruct (fp_pop_ok (d_pool (y_base q)) n1 [] Hp) as (p1 & Epop & Hf1 & Hr1 & Hi1). rewrite Epop.
  cbn [mbind option_bind]. set (kk := (length (fp_free (d_pool (y_base q))) - Z.to_nat (Z.max 0 n1))%nat) in *. rewrite app_nil_l.
  set (addrs := drop kk (fp_free (d_pool (y_base q)))) in *. assert (Hz : zlen addrs = n1) by (unfold addrs, zlen in *; rewrite length_drop; unfold kk; lia).
  assert (Hsub : addrs ⊆ all_frames g) by (intros a Ha; apply (fp_sub _ Hp); by eapply elem_drop).
  assert (Ha : Forall (region_frame g rlen) addrs) by (apply Forall_forall; auto).
  pose proof (ro_base _ _ _ _ _ _ _ _ _ _ _ Hq) as Hb. destruct (reset_frames_spec (y_base q) addrs Hb Ha _ Hm) as (region' & -> & Hm'). cbn [mbind option_bind].
  destruct (RingPush_spec ks (map (va_of rva (y_base q)) addrs) ls _ Hfs) as (sup' & -> & Hfs'). cbn [mbind option_bind].
  assert (Hzv : zlen (map (va_of rva (y_base q)) addrs) = n1) by (rewrite <- Hz; unfold zlen; by rewrite length_map). rewrite Hzv.
  set (posted := Z.min n1 (2 ^ ks - zlen ls)) in *. rewrite slice_Some by lia. cbn [mbind option_bind].
  rewrite (firstn_all2 (drop _ addrs)) by (rewrite length_drop; unfold zlen in *; lia).
  assert (Hfree : fp_free (d_pool (y_base q)) = fp_free p1 ++ take (Z.to_nat posted) addrs ++ drop (Z.to_nat posted) addrs) by (rewrite Hf1, take_drop; unfold addrs; by rewrite take_drop).
  destruct (push_addrs_ok g inv (drop (Z.to_nat posted) addrs) p1 Hi1) as (p2 & E2 & Hf2 & Hr2 & Hi2).
  { intros a Hin. apply Hsub. by eapply elem_drop. } { rewrite Hfree in Hnd. by eapply NoDup_without. }
  unfold push_frames. rewrite E2. cbn [mbind option_bind].
  assert (Hzp : zlen (take (Z.to_nat posted) addrs) = posted) by (unfold zlen in *; rewrite length_take; lia).
  exists (take (Z.to_nat posted) addrs). rewrite Hzp. eexists _, _. split; [done|]. split; simpl; try done.
  - eapply (okr_step q _ dr dr _ _ _ _ out _ posted Hq); simpl; try done; [by eexists|rewrite zlen_app; lia|apply Forall_app; split; [apply Hq|by apply Forall_take]|].
    exists (ls ++ take (Z.to_nat (2 ^ ks - zlen ls)) (map (va_of rva (y_base q)) addrs)), lr. split; [done|]. split; [done|].
    rewrite map_app, <- Hl, <- app_assoc. rewrite firstn_map.
    replace (take (Z.to_nat (2 ^ ks - zlen ls)) addrs) with (take (Z.to_nat posted) addrs); [solve_Permutation|].
    unfold posted. destruct (decide (n1 <= 2 ^ ks - zlen ls)); [rewrite !firstn_all2 by (unfold zlen in *; lia); done|by rewrite Z.min_r by lia].
  - rewrite Hf2, Hfree. solve_Permutation.
  - congruence.
  - intros Hc. rewrite (Hslots Hc), Hzp. lia.
Qed.

(** ** Receive *)

(** A queue that took [bad] back into its pool. *)
Record d_pushed q (bad : list Z) q' : Prop := {
  dp_same : same_queue q q';
  dp_inv : inv (d_pool (y_base q'));
  dp_free : fp_free (d_pool (y_base q')) = fp_free (d_pool (y_base q)) ++ bad;
  dp_rejected : fp_rejected (d_pool (y_base q')) = fp_rejected (d_pool (y_base q))
}.

Lemma same_refl q : same_queue q q.
Proof using. clear. split; [|done]. exists (d_pool (y_base q)). by destruct (y_base q). Qed.

Lemma d_pushed_trans q1 q2 q3 a b : d_pushed q1 a q2 -> d_pushed q2 b q3 -> d_pushed q1 (a ++ b) q3.
Proof using.
  clear. intros [H1 H2 H3 H4] [H5 H6 H7 H8]. split; [by eapply same_queue_trans|done|by rewrite H7, H3, app_assoc|congruence].
Qed.

Lemma pushed_one a rest f q : inv (d_pool (y_base q)) -> a ∈ all_frames g -> NoDup (fp_free (d_pool (y_base q)) ++ a :: rest) ->
  exists p, fp_Push a (d_pool (y_base q)) = Some p /\ d_pushed q [a] (y_with_pool p (y_stats f q)).
Proof using FramePoolLaws0.
  clear RxDriver0. intros Hi Ha Hn. destruct (push_fresh g inv a rest _ Hi Ha Hn) as (p & E & H1 & H2 & H3). exists p. split; [done|].
  split; try done. split; [by exists p|done].
Qed.

(** One received buffer: a descriptor inside the packet area of that very
    frame, or the frame back on the free list. *)
Lemma rx_one_spec region a rest q : base_ok g rva rlen (y_base q) -> bufLen = fsize g - d_bufStart (y_base q) -> mem_ok rlen region ->
  region_frame g rlen a -> a ∈ all_frames g -> inv (d_pool (y_base q)) -> NoDup (fp_free (d_pool (y_base q)) ++ a :: rest) ->
  (forall o, DataOff region (va_of rva (y_base q) a - rva) = Some o -> o < bufLen) ->
  exists d q', rx_one region (va_of rva (y_base q) a) q = Some (d, true, q') /\
    match d with
    | Some d => q' = q /\ frame_at g d = a /\ in_packet_area g rlen (y_base q) d
    | None => d_pushed q [a] q'
    end.
Proof using FramePoolLaws0.
  clear RxDriver0. intros Hb Hbl [Hz Hr] Hf Ha Hi Hn Hoff. unfold rx_one. destruct (va_of_back g rva rlen (y_base q) a Hb Hf) as (_ & off & -> & ->).
  set (m := a + l_ObjHeader (c_Layout (d_cfg (y_base q)))). pose proof (frame_room g rva rlen _ a Hb Hf) as Hroom. destruct (bo_layout _ _ _ _ Hb) as (L1 & L2 & L3).
  pose proof (bo_room _ _ _ _ Hb) as Hds. unfold DataStart, mbufSize in *. pose proof (bo_buf _ _ _ _ Hb) as Hbuf. destruct (bo_region _ _ _ _ Hb) as (_ & _ & Hrl).
  assert (Hw : forall o, 0 <= o -> o + 8 <= 128 -> exists x, get_le 8 (m + o) region = Some x).
  { intros o H1 H2. unfold get_le. destruct Hf. rewrite slice_Some by (unfold m; lia). cbn [mbind option_bind]. by eexists. }
  unfold RxRead. destruct (Hw offRearm) as [w1 E1]; [done..|]. destruct (Hw offPktLen) as [w2 E2]; [done..|]. destruct (Hw offOlFlags) as [w3 E3]; [done..|].
  rewrite E1, E2, E3. cbn [mbind option_bind]. case_if.
  { destruct (pushed_one a rest inc_yChained q Hi Ha Hn) as (p & -> & Hp). cbn [mbind option_bind]. by exists None, (y_with_pool p (y_stats inc_yChained q)). }
  destruct (get_le_part 0 _ _ _ Hr E1) as (P1 & _ & _).
  assert (Ho : u16 w1 < bufLen). { apply Hoff. unfold va_of, DataOff, offDataOff. replace (rva + a + _ - rva) with m by (unfold m; lia). exact P1. }
  pose proof (u16_range w1) as Hu1. pose proof (u16_range (Z.shiftr w2 32)) as Hu2. destruct (Hf) as [Hfr Hfm].
  rewrite (u64_small (a + d_bufStart (y_base q) + u16 w1)) by lia. set (d := mkDesc _ _ 0).
  assert (Hdok : desc_ok d) by (unfold desc_ok, d; simpl; lia). pose proof (descOK_iff g rva rlen (y_base q) d Hb Hdok) as Hiff.
  destruct (d_descOK (y_base q) d); cbn [negb].
  - destruct (proj1 Hiff eq_refl) as (a' & Hf' & Hlo & Hpos & Hhi). eexists (Some _), q. split; [done|]. split; [done|]. split; [|by exists a'].
    unfold frame_at. simpl. replace (a + d_bufStart (y_base q) + u16 w1) with (a + (d_bufStart (y_base q) + u16 w1)) by lia.
    pose proof (fsize_16 _ _ _ _ Hb). rewrite <- Zplus_mod_idemp_l, Hfm, Z.add_0_l, Z.mod_small by lia. lia.
  - destruct (pushed_one a rest inc_yBadLen q Hi Ha Hn) as (p & -> & Hp). cbn [mbind option_bind]. by exists None, (y_with_pool p (y_stats inc_yBadLen q)).
Qed.

Lemma rx_burst_spec region la : mem_ok rlen region -> forall q, base_ok g rva rlen (y_base q) -> bufLen = fsize g - d_bufStart (y_base q) ->
  Forall (region_frame g rlen) la -> la ⊆ all_frames g -> inv (d_pool (y_base q)) -> NoDup (fp_free (d_pool (y_base q)) ++ la) ->
  Forall (fun va => forall o, DataOff region (va - rva) = Some o -> o < bufLen) (map (va_of rva (y_base q)) la) ->
  exists ds bad q', rx_burst region (map (va_of rva (y_base q)) la) q = Some (ds, zlen la, q') /\ la ≡ₚ fr ds ++ bad /\ d_pushed q bad q' /\
    Forall (in_packet_area g rlen (y_base q)) ds.
Proof using FramePoolLaws0.
  clear RxDriver0. intros Hm. induction la as [|a la IH]; intros q Hb Hbl Hf Hs Hi Hn Ho; cbn [rx_burst map] in *.
  { exists [], [], q. split; [done|]. split; [done|]. split; [|done]. split; rewrite ?app_nil_r; try done. apply same_refl. }
  apply Forall_cons in Hf as [Hfa Hf]. apply Forall_cons in Ho as [Hoa Ho].
  destruct (rx_one_spec region a la q Hb Hbl Hm Hfa ltac:(set_solver) Hi Hn Hoa) as (d & q1 & -> & Hd). cbn [mbind option_bind]. rewrite zlen_cons.
  assert (Hq1 : exists bad1, d_pushed q bad1 q1 /\ [a] ≡ₚ (match d with Some d => [frame_at g d] | None => [] end) ++ bad1).
  { destruct d as [d|]; [|by exists [a]]. destruct Hd as (-> & -> & _). exists []. split; [|done]. split; rewrite ?app_nil_r; try done. apply same_refl. }
  destruct Hq1 as (bad1 & Hp1 & Hperm1). destruct (Hp1) as [[[p1 E1] _] I1 F1 _].
  assert (Hva : va_of rva (y_base q1) = va_of rva (y_base q)) by (by rewrite E1).
  destruct (IH q1) as (ds & bad & q' & Er & Hperm & Hp2 & Hg); rewrite ?Hva; try done; [rewrite E1; by apply base_with_pool|by rewrite E1|set_solver| |].
  { rewrite F1. destruct d; [|rewrite <- app_assoc; simpl in Hperm1; by rewrite <- Hperm1]. apply Permutation_length in Hperm1. destruct bad1; [|simpl in Hperm1; lia].
    rewrite app_nil_r. rewrite (cons_middle a) in Hn. by eapply NoDup_without. }
  rewrite Hva in Er. rewrite Er. cbn [mbind option_bind]. exists (match d with Some d => d :: ds | None => ds end), (bad1 ++ bad), q'.
  split; [do 3 f_equal; lia|]. split; [|split; [by eapply d_pushed_trans|]].
  - change (a :: la) with ([a] ++ la). rewrite Hperm, Hperm1. destruct d; cbn [map]; solve_Permutation.
  - rewrite E1 in Hg. destruct d; [|done]. constructor; [apply Hd|done].
Qed.

Record d_received (max : Z) q (out : list Z) (ds : list Desc) (bad : list Z) q' (dr' : D) (w' : world) (out' : list Z) : Prop := {
  dv_ok : okr q' dr' (w_supply w') (w_returned w') out';
  dv_inv : inv (d_pool (y_base q'));
  dv_frames : out ≡ₚ fr ds ++ bad ++ out';
  dv_free : fp_free (d_pool (y_base q')) = fp_free (d_pool (y_base q)) ++ bad;
  dv_rejected : fp_rejected (d_pool (y_base q')) = fp_rejected (d_pool (y_base q));
  dv_mem : mem_ok rlen (w_region w');
  dv_cfg : d_cfg (y_base q') = d_cfg (y_base q) /\ d_bufStart (y_base q') = d_bufStart (y_base q);
  dv_good : Forall (in_packet_area g rlen (y_base q)) ds
}.

Lemma dReceive_spec max q dr w out : okr q dr (w_supply w) (w_returned w) out -> bufLen = fsize g - d_bufStart (y_base q) ->
  mem_ok rlen (w_region w) -> inv (d_pool (y_base q)) -> out ⊆ all_frames g -> NoDup (fp_free (d_pool (y_base q)) ++ out) -> zlen out <= 2 ^ kr ->
  exists ds q' dr' w' bad out', dReceive max q dr w = Some (ds, q', dr', w') /\ d_received max q out ds bad q' dr' w' out'.
Proof using FramePoolLaws0 RxDriver0.
  intros Hq Hbl Hm Hi Hs Hn Hcap. unfold dReceive. rewrite (ro_alive _ _ _ _ _ _ _ _ _ _ _ Hq), orb_false_r. pose proof (ro_base _ _ _ _ _ _ _ _ _ _ _ Hq) as Hb.
  case_if. { exists [], q, dr, w, [], out. split; [done|]. split; rewrite ?app_nil_r; done. }
  to_prop. cbv zeta. set (mx := if max >? _ then _ else max).
  assert (Hmx : 0 < mx) by (pose proof (bo_depth _ _ _ _ Hb); unfold mx; destruct (Z.gtb_spec max (c_Depth (d_cfg (y_base q)))); lia).
  destruct (ro_rings _ _ _ _ _ _ _ _ _ _ _ Hq) as (ls & lr & Hfs & Hfr & Hl).
  assert (Hzl : zlen ls + zlen lr + zlen (held dr) = zlen out) by (unfold zlen; rewrite <- (length_map (va_of rva (y_base q)) out), <- Hl, !length_app; lia).
  destruct (rx_burst_ok mx dr w ls lr) as (got & burst & dr' & w' & ls' & lr' & -> & Hgot & Hzb & Hfs' & Hfr' & Hm' & Hperm & Hoff); try done; [lia|].
  rewrite Hl in Hperm. destruct (vas_split _ _ _ _ Hperm) as (la & lb & Ea & Eb & Hout).
  pose proof (ro_frames _ _ _ _ _ _ _ _ _ _ _ Hq) as Hall. rewrite Hout in Hall, Hs, Hn. apply Forall_app in Hall as [Hla Hlb].
  destruct (decide (got = 0)) as [->|Hg0].
  { simpl. change (Z.to_nat 0) with 0%nat in Ea. rewrite take_0 in Ea. destruct la; [|done]. exists [], q, dr', w', [], out. split; [done|].
    split; rewrite ?app_nil_r; try done. destruct Hq as [Q1 Q2 Q3 Q4 Q5 _]. split; try done. exists ls', lr'. split; [done|]. split; [done|]. rewrite Eb. by rewrite Hout. }
  replace ((got <=? 0) || (got >? mx)) with false by (symmetry; apply orb_false_iff; split; [apply Z.leb_gt|rewrite Z.gtb_ltb; apply Z.ltb_ge]; lia).
  rewrite Ea in Hoff |- *. destruct (rx_burst_spec (w_region w') la Hm' q Hb Hbl Hla ltac:(set_solver) Hi) as (ds & bad & q1 & -> & Hp1 & Hp & Hg); [|done|].
  { rewrite app_assoc in Hn. by eapply NoDup_app_l. }
  cbn [mbind option_bind]. destruct Hp as [[[p1 E1] E2] I1 F1 R1].
  exists ds, (if zlen ds >? 0 then y_stats (add_yReceived (zlen ds) (foldl (fun sum d => u64 (sum + Len d)) 0 ds)) (y_move (- zlen la) q1) else y_move (- zlen la) q1), dr', w', bad, lb.
  split; [done|]. match goal with |- d_received _ _ _ _ _ ?q2 _ _ _ => assert (Hq2 : y_base q2 = y_base q1 /\ y_outstanding q2 = y_outstanding q1 + - zlen la) by (by case_if) end.
  destruct Hq2 as [B2 O2]. split; rewrite ?B2; try done.
  - eapply (okr_step q _ dr dr' _ _ _ _ out lb (- zlen la) Hq); rewrite ?B2, ?O2, ?E2; try done; [by exists p1| |].
    + unfold zlen. rewrite Hout, length_app. lia.
    + exists ls', lr'. split; [done|]. split; [done|]. by rewrite Eb.
  - by rewrite Hout, Hp1, app_assoc.
  - by rewrite E1.
Qed.

Lemma dRecycle_spec ds q dr sup ret out : okr q dr sup ret out -> inv (d_pool (y_base q)) -> fr ds ⊆ all_frames g -> NoDup (fp_free (d_pool (y_base q)) ++ fr ds) ->
  exists q', dRecycle ds q = Some q' /\ okr q' dr sup ret out /\ d_pushed q (fr ds) q'.
Proof using FramePoolLaws0.
  clear RxDriver0. intros Hq Hp Hs Hn. unfold dRecycle, push_bases. destruct (push_descs_ok g inv ds _ Hp Hs Hn) as (p' & -> & F1 & F2 & F3).
  cbn [mbind option_bind]. eexists. split; [done|]. split; [|split; try done; split; [by exists p'|done]].
  eapply (okr_step q _ dr dr _ _ _ _ out out 0 Hq); try done; [by exists p'|simpl; lia|lia|apply Hq|apply Hq].
Qed.

(** ** DrainReturned *)

Lemma drain_back_spec la : forall q back, base_ok g rva rlen (y_base q) -> Forall (region_frame g rlen) la -> la ⊆ all_frames g ->
  inv (d_pool (y_base q)) -> NoDup (fp_free (d_pool (y_base q)) ++ la) ->
  exists q', drain_back (map (va_of rva (y_base q)) la) back q = Some (back + zlen la, q') /\ d_pushed q la q'.
Proof using FramePoolLaws0.
  clear RxDriver0. induction la as [|a la IH]; intros q back Hb Hf Hs Hi Hn; cbn [drain_back map].
  { exists q. split; [do 2 f_equal; rewrite zlen_nil; lia|]. split; rewrite ?app_nil_r; try done. apply same_refl. }
  apply Forall_cons in Hf as [Hfa Hf]. destruct (va_of_back g rva rlen (y_base q) a Hb Hfa) as (_ & off & -> & ->).
  destruct (pushed_one a la (fun s => s) q Hi ltac:(set_solver) Hn) as (p & -> & Hp). cbn [mbind option_bind].
  assert (Hp1 : d_pushed q [a] (y_with_pool p q)) by (destruct Hp as [[[p0 E0] E0'] H2 H3 H4]; split; try done; split; [by exists p|done]).
  destruct (IH (y_with_pool p q) (back + 1)) as (q' & E & Hp2); try done; [by apply base_with_pool|set_solver|apply Hp1|rewrite (dp_free _ _ _ Hp1), <- app_assoc; done|].
  exists q'. change (va_of rva (y_base (y_with_pool p q))) with (va_of rva (y_base q)) in E. rewrite E, zlen_cons. split; [do 2 f_equal; lia|].
  by apply (d_pushed_trans _ _ _ [a] la Hp1).
Qed.

Lemma DrainReturned_spec q dr w out : okr q dr (w_supply w) (w_returned w) out -> inv (d_pool (y_base q)) -> out ⊆ all_frames g ->
  NoDup (fp_free (d_pool (y_base q)) ++ out) ->
  exists back q' w' out', DrainReturned q w = Some (zlen back, q', w') /\ okr q' dr (w_supply w') (w_returned w') out' /\ out ≡ₚ back ++ out' /\
    inv (d_pool (y_base q')) /\ fp_free (d_pool (y_base q')) = fp_free (d_pool (y_base q)) ++ back /\
    fp_rejected (d_pool (y_base q')) = fp_rejected (d_pool (y_base q)) /\ w_region w' = w_region w /\
    d_cfg (y_base q') = d_cfg (y_base q) /\ d_bufStart (y_base q') = d_bufStart (y_base q).
Proof using FramePoolLaws0.
  clear RxDriver0. intros Hq Hi Hs Hn. unfold DrainReturned. rewrite (ro_returned _ _ _ _ _ _ _ _ _ _ _ Hq). cbn [negb]. pose proof (ro_base _ _ _ _ _ _ _ _ _ _ _ Hq) as Hb.
  destruct (ro_rings _ _ _ _ _ _ _ _ _ _ _ Hq) as (ls & lr & Hfs & Hfr & Hl). cbv zeta. rewrite (proj1 (fifo_len kr lr _ Hfr)).
  case_if. { exists [], q, w, out. rewrite app_nil_r. done. }
  destruct (RingPop_spec kr (zlen lr) [] lr _ Hfr) as (r & -> & Hfr'). cbn [mbind option_bind]. rewrite app_nil_l, firstn_all2 by (unfold zlen; lia).
  rewrite drop_ge in Hfr' by (unfold zlen; lia). rewrite Permutation_app_swap_app in Hl. destruct (vas_split _ _ _ _ Hl) as (la & lb & -> & Eb & Hout).
  pose proof (ro_frames _ _ _ _ _ _ _ _ _ _ _ Hq) as Hall. rewrite Hout in Hall, Hs, Hn. apply Forall_app in Hall as [Hla Hlb].
  destruct (drain_back_spec la q 0 Hb Hla ltac:(set_solver) Hi) as (q' & -> & [[[p1 E1] E2] I1 F1 R1]); [rewrite app_assoc in Hn; by eapply NoDup_app_l|].
  cbn [mbind option_bind]. rewrite Z.add_0_l. eexists la, _, _, lb. split; [done|]. split; [|split_and!; simpl; try done; by rewrite E1].
  eapply (okr_step q _ dr dr _ _ _ _ out lb (- zlen la) Hq); simpl; rewrite ?E2; try done; [by exists p1| |].
  - unfold zlen. rewrite Hout, length_app. lia.
  - exists ls, []. split; [done|]. split; [done|]. by rewrite app_nil_l, Eb.
Qed.
End ops.
