(* ===== verification/DpdkSystem.v ===== *)
(** A program that receives, forwards and sends through the DPDK backend.

    The state is a transmit and a receive queue over one region, the drivers
    behind them with their rings, and the descriptors the program holds.  An
    operation is a call of a queue, or something the device does by itself.
    [may] is the discipline packetio asks of a caller: give back only frames
    you hold, each to the queue it came from; and take the frames of a transmit
    queue that carries received frames with [Reclaim], not with [Complete]. *)

From stdpp Require Import prelude list numbers strings.
From S2P Require Import Prelude Circ Bytes Desc Pool Mbuf DpdkRing DpdkQueue DpdkBuild DpdkTxOps DpdkRxOps.

Record dsys (P D : Type) : Type := mkDsys {
  s_tx : DTx P; s_txd : D; s_tret : Ring; s_rx : DRx P; s_rxd : D; s_sup : Ring; s_rret : Ring; s_region : list Z; s_held : list Desc
}.
Arguments mkDsys {P D}. Arguments s_tx {P D}. Arguments s_txd {P D}. Arguments s_tret {P D}. Arguments s_rx {P D}. Arguments s_rxd {P D}.
Arguments s_sup {P D}. Arguments s_rret {P D}. Arguments s_region {P D}. Arguments s_held {P D}.

Inductive dop (D : Type) : Type :=
| DAlloc (n : Z)
| DTransmit (ds rest : list Desc)
| DTransmitOffload (ds : list Desc) (offs : list Offload) (rest : list Desc)
| DComplete (max : Z)
| DReclaim (max : Z)
| DFree (ds rest : list Desc)
| DFill (n : Z)
| DReceive (max : Z)
| DRecycle (ds rest : list Desc)
| DDrain
| DMemory (region : list Z)                        (* the device writes memory *)
| DRxDriver (d : D) (sup ret : Ring).              (* the receive driver by itself: a port is stopped *)
Arguments DAlloc {D}. Arguments DTransmit {D}. Arguments DTransmitOffload {D}. Arguments DComplete {D}. Arguments DReclaim {D}. Arguments DFree {D}.
Arguments DFill {D}. Arguments DReceive {D}. Arguments DRecycle {D}. Arguments DDrain {D}. Arguments DMemory {D}. Arguments DRxDriver {D}.

(** The addresses on a ring, oldest first. *)
Definition ring_list (r : Ring) : list Z := window (g_buf r) (g_head r) (Z.to_nat (RingLen r)).

Lemma fifo_list k l r : fifo k l r -> ring_list r = l.
Proof.
  intros Hf. unfold ring_list. rewrite (proj1 (fifo_len _ _ _ Hf)). destruct Hf as [Hk Hb _ _ (h & Eh & _ & Hw)].
  rewrite Eh, (window_u32 _ k) by (done || lia). unfold zlen. by rewrite Nat2Z.id.
Qed.

Section system.
Context {P : Type} `{!FramePool P} {D : Type} `{!PMD D}.

Definition noRing : Ring := mkRing [] 0 0 0.

Definition ddo (op : dop D) (s : dsys P D) : option (dsys P D) :=
  let '(mkDsys t td tret q qd sup rret region held) := s in
  let wt := mkWorld region noRing tret in
  let wq := mkWorld region sup rret in
  match op with
  | DAlloc n => '(ds, t) ← dAlloc n t; Some (mkDsys t td tret q qd sup rret region (ds ++ held))
  | DTransmit ds rest =>
      '(n, t, td, w) ← dTransmit ds t td wt;
      Some (mkDsys t td (w_returned w) q qd sup rret (w_region w) (drop (Z.to_nat n) ds ++ rest))
  | DTransmitOffload ds offs rest =>
      '(n, _, t, td, w) ← dTransmitOffload ds offs t td wt;
      Some (mkDsys t td (w_returned w) q qd sup rret (w_region w) (drop (Z.to_nat n) ds ++ rest))
  | DComplete max => '(_, t, td, w) ← dComplete max t td wt; Some (mkDsys t td (w_returned w) q qd sup rret (w_region w) held)
  | DReclaim max => '(ds, t, td, w) ← dReclaim max [] t td wt; Some (mkDsys t td (w_returned w) q qd sup rret (w_region w) (ds ++ held))
  | DFree ds rest => t ← dFree ds t; Some (mkDsys t td tret q qd sup rret region rest)
  | DFill n => '(_, q, w) ← dFill n q wq; Some (mkDsys t td tret q qd (w_supply w) (w_returned w) (w_region w) held)
  | DReceive max =>
      '(ds, q, qd, w) ← dReceive max q qd wq; Some (mkDsys t td tret q qd (w_supply w) (w_returned w) (w_region w) (ds ++ held))
  | DRecycle ds rest => q ← dRecycle ds q; Some (mkDsys t td tret q qd sup rret region rest)
  | DDrain => '(_, q, w) ← DrainReturned q wq; Some (mkDsys t td tret q qd (w_supply w) (w_returned w) (w_region w) held)
  | DMemory region => Some (mkDsys t td tret q qd sup rret region held)
  | DRxDriver qd sup rret => Some (mkDsys t td tret q qd sup rret region held)
  end.

Context (owned held_by : D -> list Z) (gt gr : geometry) (rva rlen poolVA bufLen k ks kr : Z).
Notation fr := (map (frame_at gt)).

(** The frames the drivers have, on their rings or in hand. *)
Definition frame_back (b : base P) (va : Z) : Z := va - rva - l_ObjHeader (c_Layout (d_cfg b)).
Definition tx_frames (s : dsys P D) : list Z := map (frame_back (x_base (s_tx s))) (ring_list (s_tret s) ++ owned (s_txd s)).
Definition rx_frames (s : dsys P D) : list Z :=
  map (frame_back (y_base (s_rx s))) (ring_list (s_sup s) ++ ring_list (s_rret s) ++ held_by (s_rxd s)).

(** The caller's side of the contract, and what a device may do. *)
Definition d_may (op : dop D) (s : dsys P D) : Prop :=
  match op with
  | DAlloc _ | DReclaim _ | DFill _ | DReceive _ | DDrain => True
  | DTransmit ds rest | DTransmitOffload ds _ rest => fr (s_held s) ≡ₚ fr (ds ++ rest) /\ Forall desc_ok ds
  | DComplete _ => tx_frames s ⊆ all_frames gt
  | DFree ds rest => fr (s_held s) ≡ₚ fr (ds ++ rest) /\ fr ds ⊆ all_frames gt
  | DRecycle ds rest => fr (s_held s) ≡ₚ fr (ds ++ rest) /\ fr ds ⊆ all_frames gr
  | DMemory region => mem_ok rlen region
  | DRxDriver d sup ret => exists ls lr, fifo ks ls sup /\ fifo kr lr ret /\
      ls ++ lr ++ held_by d ≡ₚ ring_list (s_sup s) ++ ring_list (s_rret s) ++ held_by (s_rxd s)
  end.

Inductive dreach (s0 : dsys P D) : dsys P D -> Prop :=
| dreach_init : dreach s0 s0
| dreach_step op s s' : dreach s0 s -> d_may op s -> ddo op s = Some s' -> dreach s0 s'.

(** Every frame of the device is in one place. *)
Definition d_conserved (s : dsys P D) (fl out : list Z) : Prop :=
  all_frames gt ++ all_frames gr ≡ₚ
  fp_free (d_pool (x_base (s_tx s))) ++ fp_free (d_pool (y_base (s_rx s))) ++ fr (s_held s) ++ fl ++ out.

Context (invt invr : P -> Prop) `{!FramePoolLaws P gt invt} `{!FramePoolLaws P gr invr}.
Context `{!TxDriver D rva rlen poolVA k owned} `{!RxDriver D rva rlen bufLen ks kr held_by}.
Context (Hlog : g_log gr = g_log gt) (Hdis : NoDup (all_frames gt ++ all_frames gr)).
Context (Hint : (g_first gt + g_count gt) * fsize gt <= rlen) (Hinr : (g_first gr + g_count gr) * fsize gr <= rlen).
(** The ring a receive driver frees into has room for the queue's frames. *)
Context (Hcap : g_count gr <= 2 ^ kr).

Record dinv_with (s : dsys P D) (fl out : list Z) : Prop := {
  di_tx : tx_ok gt rva rlen k owned (s_tx s) (s_txd s) (s_tret s) fl;
  di_rx : rx_ok gr rva rlen ks kr held_by (s_rx s) (s_rxd s) (s_sup s) (s_rret s) out;
  di_tpool : invt (d_pool (x_base (s_tx s)));
  di_rpool : invr (d_pool (y_base (s_rx s)));
  di_mem : mem_ok rlen (s_region s);
  di_names : c_PoolVA (d_cfg (x_base (s_tx s))) = poolVA /\ bufLen = fsize gr - d_bufStart (y_base (s_rx s));
  di_rejected : fp_rejected (d_pool (x_base (s_tx s))) = 0 /\ fp_rejected (d_pool (y_base (s_rx s))) = 0;
  di_out : out ⊆ all_frames gr;
  di_conserved : d_conserved s fl out
}.

Definition dinv (s : dsys P D) : Prop := exists fl out, dinv_with s fl out.

Lemma dfr_same ds : map (frame_at gr) ds = fr ds.
Proof using Hlog. apply map_ext. intros d. unfold frame_at, fsize. by rewrite Hlog. Qed.

Lemma dpart_NoDup s fl out l rest : d_conserved s fl out ->
  l ++ rest ≡ₚ fp_free (d_pool (x_base (s_tx s))) ++ fp_free (d_pool (y_base (s_rx s))) ++ fr (s_held s) ++ fl ++ out -> NoDup l.
Proof using Hdis. intros Hc Hl. unfold d_conserved in Hc. rewrite Hc, <- Hl in Hdis. by eapply NoDup_app_l. Qed.

Lemma frame_back_va (b : base P) l : map (frame_back b) (map (va_of rva b) l) = l.
Proof using. rewrite map_map. rewrite <- (map_id l) at 2. apply map_ext. intros a. unfold frame_back, va_of. clear. lia. Qed.

(** The frames read off the drivers are those of the invariant. *)
Lemma tx_frames_inv s fl : tx_ok gt rva rlen k owned (s_tx s) (s_txd s) (s_tret s) fl -> tx_frames s ≡ₚ fl.
Proof using.
  intros Ht. destruct (to_ring _ _ _ _ _ _ _ _ _ Ht) as (l & Hf & Hl). unfold tx_frames. rewrite (fifo_list _ _ _ Hf), Hl. by rewrite frame_back_va.
Qed.

Lemma rx_frames_inv s out : rx_ok gr rva rlen ks kr held_by (s_rx s) (s_rxd s) (s_sup s) (s_rret s) out -> rx_frames s ≡ₚ out.
Proof using.
  intros Hq. destruct (ro_rings _ _ _ _ _ _ _ _ _ _ _ Hq) as (ls & lr & Hfs & Hfr & Hl). unfold rx_frames. rewrite (fifo_list _ _ _ Hfs), (fifo_list _ _ _ Hfr), Hl.
  by rewrite frame_back_va.
Qed.

Ltac open_dsys s :=
  destruct s as [t td tret q qd sup rret region held]; intros (fl & out & [Ht Hq Htp Hrp Hm Hnm Hrej Hout Hc]);
  cbn [s_tx s_txd s_tret s_rx s_rxd s_sup s_rret s_region s_held d_may ddo] in *.

Ltac close_dsys f o :=
  eexists; split; [done|]; exists f, o; split; cbn [s_tx s_txd s_tret s_rx s_rxd s_sup s_rret s_region s_held]; try done.

Ltac count_dsys := unfold d_conserved in *; cbn [s_tx s_txd s_tret s_rx s_rxd s_sup s_rret s_region s_held] in *.

Ltac part Hc rest := apply (dpart_NoDup _ _ _ _ rest Hc); cbn [s_tx s_rx s_held].

Lemma ddo_alloc n s : dinv s -> exists s', ddo (DAlloc n) s = Some s' /\ dinv s'.
Proof using All.
  open_dsys s. destruct (dAlloc_spec gt invt rva rlen k owned Hint n t td tret fl Ht Htp) as (ds & t' & -> & [H1 H2 H3 H4 [H5 _] _ _]).
  cbn [mbind option_bind]. close_dsys fl out; [by rewrite H5|by rewrite H4|]. count_dsys. rewrite Hc, H3, map_app. solve_Permutation.
Qed.

(** What the two transmits share. *)
Lemma transmitted_inv t td tret q qd sup rret region held fl out ds rest n t' td' w :
  dinv_with (mkDsys t td tret q qd sup rret region held) fl out -> fr held ≡ₚ fr (ds ++ rest) ->
  d_transmitted gt rva rlen k owned ds t (mkWorld region noRing tret) fl n t' td' w ->
  dinv (mkDsys t' td' (w_returned w) q qd sup rret (w_region w) (drop (Z.to_nat n) ds ++ rest)).
Proof using All.
  intros [Ht Hq Htp Hrp Hm Hnm Hrej Hout Hc] Hh [H1 H2 H3 [H4 _] _]. cbn [s_tx s_txd s_tret s_rx s_rxd s_sup s_rret s_region s_held] in *.
  exists (fl ++ fr (take (Z.to_nat n) ds)), out. split; cbn [s_tx s_txd s_tret s_rx s_rxd s_sup s_rret s_region s_held]; rewrite ?H3; try done.
  count_dsys. rewrite Hc, Hh, H3, !map_app. rewrite <- (take_drop (Z.to_nat n) ds) at 1. rewrite map_app. solve_Permutation.
Qed.

Lemma ddo_transmit ds rest s : dinv s -> d_may (DTransmit ds rest) s -> exists s', ddo (DTransmit ds rest) s = Some s' /\ dinv s'.
Proof using All.
  intros Hs [Hh Hds]. destruct Hs as (fl & out & Hs). destruct s as [t td tret q qd sup rret region held]. cbn [ddo s_held] in *. unfold dTransmit.
  assert (Hn : NoDup (fr ds)).
  { part (di_conserved _ _ _ Hs) (fr rest ++ fp_free (d_pool (x_base t)) ++ fp_free (d_pool (y_base q)) ++ fl ++ out). rewrite Hh, map_app. solve_Permutation. }
  destruct (d_transmit_spec gt rva rlen poolVA k owned ds None t td (mkWorld region noRing tret) fl (di_tx _ _ _ Hs) (proj1 (di_names _ _ _ Hs)) (di_mem _ _ _ Hs) Hds Hn) as
    (n & e & t' & td' & w & -> & Ht); [done|]. cbn [mbind option_bind]. eexists. split; [done|]. by eapply transmitted_inv.
Qed.

Lemma ddo_transmit_offload ds offs rest s : dinv s -> d_may (DTransmitOffload ds offs rest) s -> exists s', ddo (DTransmitOffload ds offs rest) s = Some s' /\ dinv s'.
Proof using All.
  intros Hs [Hh Hds]. destruct Hs as (fl & out & Hs). destruct s as [t td tret q qd sup rret region held]. cbn [ddo s_held] in *. unfold dTransmitOffload.
  assert (Hn : NoDup (fr ds)).
  { part (di_conserved _ _ _ Hs) (fr rest ++ fp_free (d_pool (x_base t)) ++ fp_free (d_pool (y_base q)) ++ fl ++ out). rewrite Hh, map_app. solve_Permutation. }
  case_if.
  { cbn [mbind option_bind]. eexists. split; [done|]. eapply (transmitted_inv t td tret); [exact Hs|exact Hh|]. apply d_transmitted_none; try done; apply Hs. }
  destruct (d_transmit_spec gt rva rlen poolVA k owned ds (Some offs) t td (mkWorld region noRing tret) fl (di_tx _ _ _ Hs) (proj1 (di_names _ _ _ Hs)) (di_mem _ _ _ Hs) Hds Hn) as
    (n & e & t' & td' & w & -> & Ht); [intros l [= <-]; unfold zlen in *; lia|]. cbn [mbind option_bind]. eexists. split; [done|]. by eapply transmitted_inv.
Qed.

Lemma ddo_complete max s : dinv s -> d_may (DComplete max) s -> exists s', ddo (DComplete max) s = Some s' /\ dinv s'.
Proof using All.
  open_dsys s. intros Hown. rewrite (tx_frames_inv (mkDsys t td tret q qd sup rret region held) fl Ht) in Hown.
  assert (Hn : NoDup (fp_free (d_pool (x_base t)) ++ fl)) by (part Hc (fp_free (d_pool (y_base q)) ++ fr held ++ out); solve_Permutation).
  destruct (dComplete_spec gt invt rva rlen poolVA k owned max t td (mkWorld region noRing tret) fl Ht Hm Htp Hown Hn) as (fs & t' & td' & w & fl' & -> & H1 & H2 & H3 & H4 & H5 & H6 & H7 & _).
  cbn [mbind option_bind]. close_dsys fl' out; [by rewrite H6|by rewrite H5|]. count_dsys. rewrite Hc, H2, H4. solve_Permutation.
Qed.

Lemma ddo_reclaim max s : dinv s -> exists s', ddo (DReclaim max) s = Some s' /\ dinv s'.
Proof using All.
  open_dsys s. destruct (dReclaim_spec gt rva rlen poolVA k owned max [] t td (mkWorld region noRing tret) fl Ht Hm) as (ds & t' & td' & w & fl' & -> & H1 & H2 & H3 & H4 & _).
  cbn [mbind option_bind]. close_dsys fl' out; rewrite ?H3; try done. count_dsys. rewrite Hc, H2, H3, app_nil_l, map_app. solve_Permutation.
Qed.

Lemma ddo_free ds rest s : dinv s -> d_may (DFree ds rest) s -> exists s', ddo (DFree ds rest) s = Some s' /\ dinv s'.
Proof using All.
  open_dsys s. intros [Hh Hown]. rewrite map_app in Hh.
  assert (Hn : NoDup (fp_free (d_pool (x_base t)) ++ fr ds)) by (part Hc (fp_free (d_pool (y_base q)) ++ fr rest ++ fl ++ out); rewrite Hh; solve_Permutation).
  destruct (dFree_spec gt invt rva rlen k owned ds t td tret fl Ht Htp Hown Hn) as (t' & -> & H1 & H2 & H3 & H4 & H5 & _).
  cbn [mbind option_bind]. close_dsys fl out; [by rewrite H5|by rewrite H4|]. count_dsys. rewrite Hc, H3, Hh. solve_Permutation.
Qed.

Lemma ddo_fill n s : dinv s -> exists s', ddo (DFill n) s = Some s' /\ dinv s'.
Proof using All.
  open_dsys s. assert (Hn : NoDup (fp_free (d_pool (y_base q)))) by (part Hc (fp_free (d_pool (x_base t)) ++ fr held ++ fl ++ out); solve_Permutation).
  destruct (dFill_spec gr invr rva rlen ks kr held_by n q qd (mkWorld region sup rret) out (own_region gr invr rlen Hinr) Hq Hm Hrp Hn) as (posted & q' & w & -> & [H1 H2 H3 H4 [H5 _] [H6 _] _]).
  cbn [mbind option_bind]. close_dsys fl (out ++ posted).
  - destruct (ro_base _ _ _ _ _ _ _ _ _ _ _ H1), (ro_base _ _ _ _ _ _ _ _ _ _ _ Hq). split; [apply Hnm|]. rewrite bo_buf, H6, <- bo_buf0. apply Hnm.
  - by rewrite H4.
  - intros a. rewrite elem_of_app. intros [Ha|Ha]; [by apply Hout|]. apply (fp_sub _ Hrp). rewrite H3. set_solver.
  - count_dsys. rewrite Hc, H3. solve_Permutation.
Qed.

Lemma ddo_receive max s : dinv s -> exists s', ddo (DReceive max) s = Some s' /\ dinv s'.
Proof using All.
  open_dsys s. assert (Hn : NoDup (fp_free (d_pool (y_base q)) ++ out)) by (part Hc (fp_free (d_pool (x_base t)) ++ fr held ++ fl); solve_Permutation).
  assert (Hzo : zlen out <= 2 ^ kr) by (pose proof (NoDup_fits gr invr out (NoDup_app_r _ _ Hn) Hout); lia).
  destruct (dReceive_spec gr invr rva rlen bufLen ks kr held_by max q qd (mkWorld region sup rret) out Hq (proj2 Hnm) Hm Hrp Hout Hn Hzo) as
    (ds & q' & qd' & w & bad & out' & -> & [H1 H2 H3 H4 H5 H6 [H7 H8] _]). rewrite dfr_same in H3.
  cbn [mbind option_bind]. close_dsys fl out'; [by rewrite H8|by rewrite H5|rewrite H3 in Hout; set_solver|]. count_dsys. rewrite Hc, H3, H4, map_app. solve_Permutation.
Qed.

Lemma ddo_recycle ds rest s : dinv s -> d_may (DRecycle ds rest) s -> exists s', ddo (DRecycle ds rest) s = Some s' /\ dinv s'.
Proof using All.
  open_dsys s. intros [Hh Hown]. rewrite map_app in Hh.
  assert (Hn : NoDup (fp_free (d_pool (y_base q)) ++ fr ds)) by (part Hc (fp_free (d_pool (x_base t)) ++ fr rest ++ fl ++ out); rewrite Hh; solve_Permutation).
  rewrite <- dfr_same in Hown, Hn. destruct (dRecycle_spec gr invr rva rlen ks kr held_by ds q qd sup rret out Hq Hrp Hown Hn) as (q' & -> & H1 & [[[p E] _] H2 H3 H4]).
  rewrite dfr_same in H3. cbn [mbind option_bind]. close_dsys fl out; [by rewrite E|by rewrite H4|]. count_dsys. rewrite Hc, H3, Hh. solve_Permutation.
Qed.

Lemma ddo_drain s : dinv s -> exists s', ddo DDrain s = Some s' /\ dinv s'.
Proof using All.
  open_dsys s. assert (Hn : NoDup (fp_free (d_pool (y_base q)) ++ out)) by (part Hc (fp_free (d_pool (x_base t)) ++ fr held ++ fl); solve_Permutation).
  destruct (DrainReturned_spec gr invr rva rlen ks kr held_by q qd (mkWorld region sup rret) out Hq Hrp Hout Hn) as (back & q' & w & out' & -> & H1 & H2 & H3 & H4 & H5 & H6 & H7 & H8).
  cbn [mbind option_bind]. close_dsys fl out'; [by rewrite H6|by rewrite H8|by rewrite H5|rewrite H2 in Hout; set_solver|]. count_dsys. rewrite Hc, H2, H4. solve_Permutation.
Qed.

Lemma ddo_rxdriver d sup' ret' s : dinv s -> d_may (DRxDriver d sup' ret') s -> exists s', ddo (DRxDriver d sup' ret') s = Some s' /\ dinv s'.
Proof using All.
  open_dsys s. intros (ls & lr & H1 & H2 & H3). close_dsys fl out. destruct Hq as [Q1 Q2 Q3 Q4 Q5 (ls0 & lr0 & F1 & F2 & F3)]. split; try done.
  exists ls, lr. split; [done|]. split; [done|]. by rewrite H3, (fifo_list _ _ _ F1), (fifo_list _ _ _ F2).
Qed.

Lemma ddo_memory region' s : dinv s -> d_may (DMemory region') s -> exists s', ddo (DMemory region') s = Some s' /\ dinv s'.
Proof using All. open_dsys s. intros Hr. by close_dsys fl out. Qed.

(** A permitted operation never panics and keeps the invariant. *)
Lemma ddo_inv op s : dinv s -> d_may op s -> exists s', ddo op s = Some s' /\ dinv s'.
Proof using All.
  intros Hs Hmay. destruct op; [by apply ddo_alloc|by apply ddo_transmit|by apply ddo_transmit_offload|by apply ddo_complete|by apply ddo_reclaim|by apply ddo_free|
    by apply ddo_fill|by apply ddo_receive|by apply ddo_recycle|by apply ddo_drain|by apply ddo_memory|by apply ddo_rxdriver].
Qed.

Lemma dreach_inv s0 s : dinv s0 -> dreach s0 s -> dinv s.
Proof using All.
  intros H0. induction 1 as [|op s s' _ IH Hmay E]; [done|]. destruct (ddo_inv op s IH Hmay) as (s2 & E2 & Hs2). congruence.
Qed.
End system.
