(* ===== verification/DpdkClaims.v ===== *)
(** What holds of the DPDK queues: the properties, each with an instance on a
    small concrete device behind a driver that keeps DPDK's contract. *)

From stdpp Require Import prelude list numbers strings.
From S2P Require Import Prelude Circ Bytes Desc Pool Mbuf MbufThms DpdkRing DpdkQueue DpdkBuild DpdkTxOps DpdkRxOps DpdkSystem.

(** ** A device as it is opened *)

(** A transmit and a receive queue over one region, each with its own frames;
    [su_k], [su_ks] and [su_kr] are the sizes of the transmit ring's returned
    ring and of the receive queue's supply and returned rings. *)
Record dsetup : Type := mkDsetup {
  su_checked : bool; su_ct : Config; su_cr : Config; su_gt : geometry; su_gr : geometry; su_k : Z; su_ks : Z; su_kr : Z
}.

Definition su_rva (u : dsetup) : Z := c_RegionVA (su_ct u).
Definition su_rlen (u : dsetup) : Z := c_regionLen (su_ct u).
Definition su_bufLen (u : dsetup) : Z := BufferLen (c_Layout (su_cr u)).

(** How the configurations are filled in: the frames are powers of two of at
    most 2^16 bytes, the ranges do not overlap, and the rings hold what can be
    on them at once. *)
Record dsetup_ok (u : dsetup) : Prop := {
  so_geo : geo_ok (su_gt u) /\ geo_ok (su_gr u) /\ g_log (su_gr u) = g_log (su_gt u) /\ g_log (su_gt u) <= 16;
  so_ranges : g_first (su_gt u) + g_count (su_gt u) <= g_first (su_gr u) \/ g_first (su_gr u) + g_count (su_gr u) <= g_first (su_gt u);
  so_tx : c_FirstFrame (su_ct u) = g_first (su_gt u) /\ c_Frames (su_ct u) = g_count (su_gt u) /\ l_FrameSize (c_Layout (su_ct u)) = fsize (su_gt u);
  so_rx : c_FirstFrame (su_cr u) = g_first (su_gr u) /\ c_Frames (su_cr u) = g_count (su_gr u) /\ l_FrameSize (c_Layout (su_cr u)) = fsize (su_gr u);
  so_region : c_RegionVA (su_cr u) = su_rva u /\ c_regionLen (su_cr u) = su_rlen u /\ 0 <= su_rva u /\ su_rva u + su_rlen u <= 2 ^ 64 /\ 0 <= su_rlen u < 2 ^ 62;
  so_pools : 0 <= c_PoolVA (su_ct u) < 2 ^ 64 /\ 0 <= c_PoolVA (su_cr u) < 2 ^ 64;
  so_rings : c_Depth (su_ct u) <= 2 ^ su_k u /\ c_Frames (su_cr u) <= 2 ^ su_kr u
}.

(** What a configuration that was accepted satisfies. *)
Lemma validate_base (g : geometry) checked cfg rva rlen : geo_ok g -> g_log g <= 16 ->
  c_FirstFrame cfg = g_first g -> c_Frames cfg = g_count g -> l_FrameSize (c_Layout cfg) = fsize g ->
  c_RegionVA cfg = rva -> c_regionLen cfg = rlen -> 0 <= rva -> rva + rlen <= 2 ^ 64 -> 0 <= rlen < 2 ^ 62 -> 0 <= c_PoolVA cfg < 2 ^ 64 ->
  forall b, initBase (New checked) cfg = Some (Ok b) ->
  base_ok g rva rlen b /\ d_cfg b = cfg /\ d_dead b = None /\ d_closed b = false /\ pool_inv checked g (d_pool b) /\ free (d_pool b) = reverse (all_frames g) /\
  rejected (d_pool b) = 0 /\ (g_first g + g_count g) * fsize g <= rlen /\ c_haveReturned cfg = true.
Proof.
  intros Hg Hl H1 H2 H3 H4 H5 Hr1 Hr2 Hr3 Hp b. unfold initBase, Config_validate, Layout_Validate. pose proof (fsize_pos g (proj1 Hg)) as Hfs.
  assert (Hfs16 : fsize g <= 2 ^ 16) by (unfold fsize; destruct Hg; apply Z.pow_le_mono_r; lia). rewrite H1, H2, H3, H5.
  repeat (case_if; [done|]). rewrite Z.geb_leb in *. repeat match goal with E : (_ <=? _) = _ |- _ => progress to_prop | E : (_ >? _) = false |- _ => rewrite Z.gtb_ltb in E; apply Z.ltb_ge in E end.
  destruct (New_spec g Hg checked) as (p & -> & Hpi & Hpf & Hpr). cbn [mbind option_bind]. intros [= <-].
  assert (Hlay : 0 <= l_ObjHeader (c_Layout cfg) /\ mbufSize <= l_MbufSize (c_Layout cfg) /\ 0 <= l_Headroom (c_Layout cfg)) by lia.
  unfold DataStart, mbufSize in *. split_and!; simpl; try done.
  split; simpl; try done; unfold DataStart; rewrite ?H3; try done; try lia; [destruct Hg; lia|rewrite u64_small by lia; lia|rewrite u64_small by lia; lia|rewrite u64_small by lia; lia].
Qed.

Section opened.
Context (u : dsetup) (Hu : dsetup_ok u) {D : Type} `{!PMD D} (owned held_by : D -> list Z).
#[local] Instance dpool_ops : FramePool Frames := frames_pool (su_checked u).

(** The state a program starts from: both queues made, nothing on the rings
    and nothing with the drivers. *)
Record dopened (s : dsys Frames D) : Prop := {
  op_tx : NewDTx (New (su_checked u)) (su_ct u) = Some (Ok (s_tx s));
  op_rx : NewDRx (New (su_checked u)) (su_cr u) = Some (Ok (s_rx s));
  op_rings : fifo (su_k u) [] (s_tret s) /\ fifo (su_ks u) [] (s_sup s) /\ fifo (su_kr u) [] (s_rret s);
  op_drivers : owned (s_txd s) = [] /\ held_by (s_rxd s) = [];
  op_mem : mem_ok (su_rlen u) (s_region s);
  op_held : s_held s = []
}.

Definition su_may : dop D -> dsys Frames D -> Prop := d_may owned held_by (su_gt u) (su_gr u) (su_rva u) (su_rlen u) (su_ks u) (su_kr u).
Definition su_reach : dsys Frames D -> dsys Frames D -> Prop := dreach owned held_by (su_gt u) (su_gr u) (su_rva u) (su_rlen u) (su_ks u) (su_kr u).
Definition su_inv : dsys Frames D -> Prop :=
  dinv owned held_by (su_gt u) (su_gr u) (su_rva u) (su_rlen u) (c_PoolVA (su_ct u)) (su_bufLen u) (su_k u) (su_ks u) (su_kr u)
    (pool_inv (su_checked u) (su_gt u)) (pool_inv (su_checked u) (su_gr u)).

Lemma dopened_inv s : dopened s -> su_inv s /\
  (g_first (su_gt u) + g_count (su_gt u)) * fsize (su_gt u) <= su_rlen u /\ (g_first (su_gr u) + g_count (su_gr u)) * fsize (su_gr u) <= su_rlen u.
Proof using Hu.
  intros [Etx Erx (R1 & R2 & R3) (O1 & O2) Hm Hh]. destruct Hu as [(G1 & G2 & G3 & G4) _ (T1 & T2 & T3) (Q1 & Q2 & Q3) (V1 & V2 & V3 & V4 & V5) (P1 & P2) (K1 & K2)].
  unfold NewDTx in Etx. destruct (initBase (New (su_checked u)) (su_ct u)) as [[bt|]|] eqn:Et; cbn [mbind option_bind] in Etx; try done. injection Etx as Etx.
  unfold NewDRx in Erx. case_if_in Erx; [done|]. destruct (initBase (New (su_checked u)) (su_cr u)) as [[br|]|] eqn:Er; cbn [mbind option_bind] in Erx; try done. injection Erx as Erx.
  destruct (validate_base (su_gt u) (su_checked u) (su_ct u) (su_rva u) (su_rlen u) G1 G4 T1 T2 T3 eq_refl eq_refl V3 V4 V5 P1 bt Et) as (B1 & B2 & B3 & B4 & B5 & B6 & B7 & B8 & B9).
  destruct (validate_base (su_gr u) (su_checked u) (su_cr u) (su_rva u) (su_rlen u) G2 ltac:(lia) Q1 Q2 Q3 V1 V2 V3 V4 V5 P2 br Er) as (C1 & C2 & C3 & C4 & C5 & C6 & C7 & C8 & C9).
  split; [|done]. exists [], []. split; rewrite <- ?Etx, <- ?Erx; cbn [x_base y_base]; try done.
  - split; simpl; try done; [|exists []; split; [done|]; by rewrite O1]. rewrite B2. change (zlen (@nil Z)) with 0. pose proof (bo_depth _ _ _ _ B1) as Hd. rewrite B2 in Hd. lia.
  - split; simpl; try done; [by rewrite C2|]. exists [], []. split; [done|]. split; [done|]. by rewrite O2.
  - rewrite B2. split; [done|]. unfold su_bufLen, BufferLen. rewrite (bo_buf _ _ _ _ C1), C2, Q3. lia.
  - set_solver.
  - unfold d_conserved. rewrite <- Etx, <- Erx, Hh. simpl. rewrite B6, C6, !reverse_Permutation. by rewrite !app_nil_r.
Qed.

Context `{!TxDriver D (su_rva u) (su_rlen u) (c_PoolVA (su_ct u)) (su_k u) owned}.
Context `{!RxDriver D (su_rva u) (su_rlen u) (su_bufLen u) (su_ks u) (su_kr u) held_by}.

Lemma su_reach_inv s0 s : dopened s0 -> su_reach s0 s -> su_inv s /\ forall op, su_may op s -> is_Some (ddo op s).
Proof using All.
  intros H0 Hr. destruct (dopened_inv s0 H0) as (I0 & B1 & B2). destruct (so_geo _ Hu) as (G1 & G2 & G3 & G4).
  pose proof (frames_pool_laws (su_checked u) (su_gt u) G1) as L1. pose proof (frames_pool_laws (su_checked u) (su_gr u) G2) as L2.
  assert (Hd : NoDup (all_frames (su_gt u) ++ all_frames (su_gr u))) by (apply all_frames_disjoint; try done; apply Hu).
  assert (Hc : g_count (su_gr u) <= 2 ^ su_kr u) by (pose proof (so_rings _ Hu); pose proof (so_rx _ Hu); lia).
  unfold su_inv, su_reach, su_may in *. assert (Hs := I0). eapply dreach_inv in Hs; try done. split; [done|]. intros op Hop.
  eapply ddo_inv in Hop as (s' & E & _); try done.
Qed.
End opened.

(** ** A driver *)

(** A driver that holds what it was given until it is poked, then frees as much
    as the ring takes; and that delivers one buffer of the supply at a time, as
    a packet of 60 bytes. *)
Record fakePMD : Set := mkFake { fk_holding : list Z }.

(** Where its process has the region. *)
Definition exRVA : Z := 0x10000.

Definition fake_poke (d : fakePMD) (w : world) : fakePMD * world :=
  match RingPush (fk_holding d) (w_returned w) with
  | Some (n, r) => (mkFake (drop (Z.to_nat n) (fk_holding d)), w_with_returned r w)
  | None => (d, w)
  end.

Definition fake_rx (max : Z) (d : fakePMD) (w : world) : Z * list Z * fakePMD * world :=
  let none := (0, replicate (Z.to_nat max) 0, d, w) in
  match RingPop 1 [] (w_supply w) with
  | Some ([va], sup) =>
      let m := va - exRVA in
      if (0 <=? m) && (m + mbufSize <=? zlen (w_region w)) then
        match PrepareTx m 0 0 60 (w_region w) with
        | Some region => (1, va :: replicate (Z.to_nat max - 1) 0, d, mkWorld region sup (w_returned w))
        | None => none
        end
      else none
  | _ => none
  end.

#[export] Instance fake_PMD : PMD fakePMD := {
  TxBurst mbufs d w := (zlen mbufs, mkFake (fk_holding d ++ mbufs), w);
  RxBurst := fake_rx;
  Poke := fake_poke
}.

#[export] Instance fake_tx rva rlen poolVA k : TxDriver fakePMD rva rlen poolVA k fk_holding.
Proof.
  split.
  - intros mbufs d w l Hf Hm _ _. pose proof (zlen_nonneg mbufs). exists (zlen mbufs), (mkFake (fk_holding d ++ mbufs)), w, l. rewrite firstn_all2 by (unfold zlen; lia). split_and!; (done || lia).
  - intros d w l Hf Hm Hroom. simpl. unfold fake_poke. destruct (RingPush_spec k (fk_holding d) l _ Hf) as (r & -> & Hf').
    pose proof (zlen_nonneg (fk_holding d)). rewrite firstn_all2 in Hf' by (unfold zlen in *; lia). rewrite Z.min_l by lia. do 2 eexists. exists (l ++ fk_holding d). split; [done|]. simpl. split_and!; try done.
    rewrite drop_ge by (unfold zlen; lia). by rewrite app_nil_r.
Qed.

(** Buffers it cannot use stay on the supply, so it never holds any: the
    frames of its receive side are those on the rings. *)
Definition fk_none (d : fakePMD) : list Z := [].

Lemma fake_rx_driver rlen bufLen ks kr : 0 < bufLen -> RxDriver fakePMD exRVA rlen bufLen ks kr fk_none.
Proof.
  intros Hbl. split. intros max d w ls lr Hfs Hfr [Hz Hb] Hmax _. cbn [RxBurst fake_PMD]. unfold fake_rx.
  assert (Hnone : exists got burst d' w' ls' lr', (0, replicate (Z.to_nat max) 0, d, w) = (got, burst, d', w') /\ 0 <= got <= max /\ zlen burst = max /\
    fifo ks ls' (w_supply w') /\ fifo kr lr' (w_returned w') /\ mem_ok rlen (w_region w') /\
    take (Z.to_nat got) burst ++ ls' ++ lr' ++ fk_none d' ≡ₚ ls ++ lr ++ fk_none d /\
    Forall (fun va => forall o, DataOff (w_region w') (va - exRVA) = Some o -> o < bufLen) (take (Z.to_nat got) burst)).
  { exists 0, (replicate (Z.to_nat max) 0), d, w, ls, lr. rewrite zlen_replicate. split_and!; try done; lia. }
  destruct (RingPop_spec ks 1 [] ls _ Hfs) as (sup & -> & Hfs'). rewrite app_nil_l. change (Z.to_nat 1) with 1%nat in *.
  destruct ls as [|va ls]; [exact Hnone|]. simpl in Hfs'. rewrite drop_0 in Hfs'. cbn [take]. rewrite take_0. cbv zeta. case_if; [|exact Hnone]. to_prop.
  destruct (PrepareTx_spec (va - exRVA) 0 0 60 (w_region w) Hb) as (r & -> & B1 & U1 & D1 & _); [lia..|].
  exists 1, (va :: replicate (Z.to_nat max - 1) 0), d, (mkWorld r sup (w_returned w)), ls, lr. split; [done|]. split; [lia|]. split; [rewrite zlen_cons, zlen_replicate; lia|].
  simpl. split; [done|]. split; [done|]. split; [split; [rewrite <- Hz; apply U1|done]|]. split; [done|]. constructor; [|done]. intros o Ho.
  destruct (described_fields _ _ 0 _ _ B1 ltac:(lia) D1) as [Hd _]. rewrite Hd in Ho. injection Ho as <-.
  exact Hbl.
Qed.

(** ** Properties *)

Section properties.
Context {D : Type} `{!PMD D}.

(** Whatever a program does within the rules and whatever the drivers do
    within DPDK's contract, every frame of the region is in exactly one place
    (a free list, the program's hands, or a driver and its rings), each
    queue's count of what its driver has is exact, no free list ever refused a
    frame and neither queue has failed. *)
Theorem dpdk_frames_conserved (u : dsetup) (owned held_by : D -> list Z) s0 s :
  TxDriver D (su_rva u) (su_rlen u) (c_PoolVA (su_ct u)) (su_k u) owned ->
  RxDriver D (su_rva u) (su_rlen u) (su_bufLen u) (su_ks u) (su_kr u) held_by ->
  dsetup_ok u -> dopened u owned held_by s0 -> su_reach u owned held_by s0 s ->
  let tf := tx_frames owned (su_rva u) s in
  let rf := rx_frames held_by (su_rva u) s in
  all_frames (su_gt u) ++ all_frames (su_gr u) ≡ₚ
    free (d_pool (x_base (s_tx s))) ++ free (d_pool (y_base (s_rx s))) ++ map (frame_at (su_gt u)) (s_held s) ++ tf ++ rf /\
  dNumInFlight (s_tx s) = zlen tf /\ dNumOutstanding (s_rx s) = zlen rf /\
  Rejected (d_pool (x_base (s_tx s))) = 0 /\ Rejected (d_pool (y_base (s_rx s))) = 0 /\
  d_dead (x_base (s_tx s)) = None /\ d_dead (y_base (s_rx s)) = None.
Proof using.
  intros Ltx Lrx Hu H0 Hr tf rf. destruct (su_reach_inv u Hu owned held_by s0 s H0 Hr) as [(fl & out & [Ht Hq _ _ _ _ [J1 J2] _ Hc]) _].
  pose proof (tx_frames_inv owned (su_gt u) _ _ _ s fl Ht) as Ef. pose proof (rx_frames_inv held_by (su_gr u) _ _ _ _ s out Hq) as Eo.
  unfold tf, rf. split; [unfold d_conserved in Hc; rewrite Ef, Eo; exact Hc|].
  unfold dNumInFlight, dNumOutstanding. rewrite (to_flight _ _ _ _ _ _ _ _ _ Ht), (ro_count _ _ _ _ _ _ _ _ _ _ _ Hq). unfold zlen. rewrite Ef, Eo.
  split_and!; try done; [apply Ht|apply Hq].
Qed.

(** No call of the DPDK queues that a caller is allowed to make ever
    indexes out of range, in any state such a program can reach. *)
Theorem dpdk_never_panics (u : dsetup) (owned held_by : D -> list Z) s0 s op :
  TxDriver D (su_rva u) (su_rlen u) (c_PoolVA (su_ct u)) (su_k u) owned ->
  RxDriver D (su_rva u) (su_rlen u) (su_bufLen u) (su_ks u) (su_kr u) held_by ->
  dsetup_ok u -> dopened u owned held_by s0 -> su_reach u owned held_by s0 s -> su_may u owned held_by op s ->
  is_Some (@ddo Frames (frames_pool (su_checked u)) D _ op s).
Proof using. intros Ltx Lrx Hu H0 Hr Hm. by apply (su_reach_inv u Hu owned held_by s0 s H0 Hr). Qed.

(** C17: what [Transmit] hands a driver, any driver: the longest prefix of the
    descriptors that is acceptable and has slots, as the addresses of the
    mbufs of those very frames, each mbuf saying exactly where its packet is,
    how long, and which pool it goes back to; no packet byte is changed.  What
    it reports is the driver's answer, or nothing when that is no prefix. *)
Theorem dTransmit_batch `{!FramePool P} g rva rlen ds (t : DTx P) (dr : D) w :
  base_ok g rva rlen (x_base t) -> d_closed (x_base t) = false -> d_dead (x_base t) = None -> 0 <= x_inFlight t -> 0 < dNumFreeSlots t ->
  mem_ok rlen (w_region w) -> Forall desc_ok ds -> NoDup (map (frame_at g) ds) ->
  exists good bad region,
    take (Z.to_nat (dNumFreeSlots t)) ds = good ++ bad /\
    Forall (in_packet_area g rlen (x_base t)) good /\ (forall d, head bad = Some d -> ~ in_packet_area g rlen (x_base t) d) /\
    Forall (described_as g (x_base t) region) good /\ packets_kept g rlen (x_base t) (w_region w) region /\
    (good = [] -> exists t', dTransmit ds t dr w = Some (0, t', dr, w_with_region region w) /\ x_inFlight t' = x_inFlight t) /\
    (good <> [] -> forall sent dr' w',
       TxBurst (map (fun d => va_of rva (x_base t) (frame_at g d)) good) dr (w_with_region region w) = (sent, dr', w') ->
       exists t', dTransmit ds t dr w = Some (if (0 <=? sent) && (sent <=? zlen good) then sent else 0, t', dr', w') /\
         x_inFlight t' = x_inFlight t + (if (0 <=? sent) && (sent <=? zlen good) then sent else 0)).
Proof using.
  intros Hb Hc Hdead Hfl Hfree Hm Hds Hnd. assert (Hfs : dNumFreeSlots t <= c_Depth (d_cfg (x_base t))).
  { unfold dNumFreeSlots in *. rewrite Hc in *. destruct (Z.gtb_spec (c_Depth (d_cfg (x_base t)) - x_inFlight t) 0); lia. }
  destruct (decide (ds = [])) as [->|Hne].
  { exists [], [], (w_region w). rewrite take_nil. split_and!; try done. intros _. unfold dTransmit, d_transmit. rewrite Hc, Hdead. cbn. exists t. by destruct w. }
  assert (Hzd : 0 < zlen ds) by (destruct ds; [done|rewrite zlen_cons; pose proof (zlen_nonneg ds); lia]).
  set (n := if zlen ds >? dNumFreeSlots t then dNumFreeSlots t else zlen ds).
  assert (Hn : n = Z.min (zlen ds) (dNumFreeSlots t)) by (unfold n; destruct (Z.gtb_spec (zlen ds) (dNumFreeSlots t)); lia).
  assert (Htk : take (Z.to_nat n) ds = take (Z.to_nat (dNumFreeSlots t)) ds).
  { rewrite Hn. destruct (decide (zlen ds <= dNumFreeSlots t)); [rewrite !firstn_all2 by (unfold zlen in *; lia); done|by rewrite Z.min_r by lia]. }
  destruct (build_mbufs_spec g rva rlen (x_base t) None Hb (take (Z.to_nat n) ds) 0 (mkBuilding [] 0 (w_region w) false false None) []) as (v & m & Ev & [B1 B2 B3 B4 B5 B6]); try done.
  { by apply Forall_take. } { rewrite <- (take_drop (Z.to_nat n) ds), map_app in Hnd. by eapply NoDup_app_l. }
  rewrite app_nil_l in *. set (good := take m (take (Z.to_nat n) ds)) in *. exists good, (drop m (take (Z.to_nat n) ds)), (k_region v). split; [by rewrite <- Htk; unfold good; rewrite take_drop|].
  split; [done|]. split.
  { intros d Hd Hin. destruct B6 as [[_ ->]|(d' & e & Hl & _ & Hx)]; [by rewrite drop_ge in Hd|]. apply Hx; [|done].
    rewrite <- (Nat.add_0_r m), <- lookup_drop, <- head_lookup in Hl. congruence. }
  split; [done|]. split; [done|]. assert (Hkm : zlen (k_mbufs v) = zlen good) by (rewrite B1; unfold zlen; by rewrite length_map).
  assert (Hstep : forall X, d_transmit ds None t dr w = X -> dTransmit ds t dr w = ('(n, _, t, dr, w) ← X; Some (n, t, dr, w))) by (by intros X <-).
  unfold d_transmit in Hstep. rewrite Hc, Hdead, (proj2 (Z.eqb_neq (zlen ds) 0)) in Hstep by lia. cbv zeta in Hstep. fold n in Hstep.
  rewrite (proj2 (Z.eqb_neq n 0)) in Hstep by lia. replace (if n >? c_Depth (d_cfg (x_base t)) then _ else n) with n in Hstep by (destruct (Z.gtb_spec n (c_Depth (d_cfg (x_base t)))); lia).
  rewrite Ev in Hstep. cbn [mbind option_bind] in Hstep.
  set (t1 := if k_badDesc v then x_stats inc_xBadDesc t else t) in *. set (t2 := if k_badOffload v then x_stats inc_xBadOffload t1 else t1) in *.
  assert (Hi2 : x_inFlight t2 = x_inFlight t) by (unfold t2, t1; by repeat case_if). split.
  - intros Hg. rewrite Hkm, Hg in Hstep. cbn in Hstep. rewrite (Hstep _ eq_refl). by exists t2.
  - intros Hg sent dr' w' Eb. assert (0 < zlen good) by (destruct good as [|? gs]; [done|rewrite zlen_cons; pose proof (zlen_nonneg gs); lia]).
    rewrite Hkm, (proj2 (Z.eqb_neq (zlen good) 0)), B1, Eb in Hstep by lia. rewrite (Hstep _ eq_refl). cbn [mbind option_bind].
    replace ((0 <=? sent) && (sent <=? zlen good)) with (negb ((sent <? 0) || (sent >? zlen good))) by (destruct (Z.leb_spec 0 sent), (Z.leb_spec sent (zlen good)), (Z.ltb_spec sent 0), (Z.gtb_spec sent (zlen good)); (done || lia)).
    destruct ((sent <? 0) || (sent >? zlen good)); cbn [negb]; (eexists; split; [done|]); simpl; by rewrite Hi2.
Qed.

(** A queue accepts a descriptor exactly when it names at least one byte,
    all of them in the packet area of one frame of the region: past the
    frame's object header and mbuf, and short of the next frame. *)
Theorem dpdk_descOK_exact checked g cfg b d :
  geo_ok g -> g_log g <= 16 -> c_FirstFrame cfg = g_first g -> c_Frames cfg = g_count g -> l_FrameSize (c_Layout cfg) = fsize g ->
  0 <= c_RegionVA cfg -> c_RegionVA cfg + c_regionLen cfg <= 2 ^ 64 -> 0 <= c_regionLen cfg < 2 ^ 62 -> 0 <= c_PoolVA cfg < 2 ^ 64 -> desc_ok d ->
  initBase (New checked) cfg = Some (Ok b) ->
  d_descOK b d = true <->
  exists i, 0 <= i /\ (i + 1) * fsize g <= c_regionLen cfg /\ 0 < Len d /\
    i * fsize g + l_ObjHeader (c_Layout cfg) + l_MbufSize (c_Layout cfg) <= Addr d /\ Addr d + Len d <= (i + 1) * fsize g.
Proof using.
  intros Hg Hl H1 H2 H3 V1 V2 V3 Hp Hd E.
  destruct (validate_base g checked cfg (c_RegionVA cfg) (c_regionLen cfg) Hg Hl H1 H2 H3 eq_refl eq_refl V1 V2 V3 Hp b E) as (Hb & Hcfg & _).
  rewrite (descOK_iff g _ _ b d Hb Hd). unfold in_packet_area. rewrite (bo_buf _ _ _ _ Hb), Hcfg. pose proof (fsize_16 _ _ _ _ Hb). split.
  - intros (a & Ha & Hlo & Hpos & Hhi). pose proof (frame_room g _ _ b a Hb Ha) as Hr. destruct Ha as [Ha Hm].
    assert (Ea : a = a / fsize g * fsize g) by (pose proof (Z.div_mod a (fsize g) ltac:(lia)); lia). exists (a / fsize g).
    assert (0 <= a / fsize g) by (apply Z.div_pos; lia). rewrite Z.mul_add_distr_r, <- Ea. lia.
  - intros (i & Hi & Hr & Hpos & Hlo & Hhi). exists (i * fsize g). rewrite Z.mul_add_distr_r in *. split; [split; [nia|apply Z.mod_mul; lia]|lia].
Qed.
End properties.

(** ** A concrete device *)

(** Eight frames of 512 bytes, four to each direction, and rings of four. *)
Definition exLayout : Layout := mkLayout 512 64 128 64.
Definition exCt : Config := mkConfig 4096 exRVA exLayout 0x100 0 4 4 false true false false true.
Definition exCr : Config := mkConfig 4096 exRVA exLayout 0x200 4 4 4 true true false false true.
Definition exDSetup : dsetup := mkDsetup true exCt exCr (mkGeo 9 0 4) (mkGeo 9 4 4) 2 2 2.
Definition exEmpty : Ring := mkRing [0; 0; 0; 0] 3 0 0.

#[local] Instance ex_pool : FramePool Frames := frames_pool true.

Definition exNoPool : Frames := mkFrames [] 0 0 0 0 0 0 0 [].
Definition exNoBase : base Frames := mkBase exCt exNoPool 0 0 0 true None.
Definition exDTx : DTx Frames := Eval vm_compute in match NewDTx (New true) exCt with Some (Ok t) => t | _ => mkDTx exNoBase 0 zeroDTxStats end.
Definition exDRx : DRx Frames := Eval vm_compute in match NewDRx (New true) exCr with Some (Ok q) => q | _ => mkDRx exNoBase 0 zeroDRxStats end.
Definition exD0 : dsys Frames fakePMD :=
  mkDsys exDTx (mkFake []) exEmpty exDRx (mkFake []) exEmpty exEmpty (replicate 4096 0) [].

Lemma exD_setup : dsetup_ok exDSetup.
Proof.
  split; repeat split; try (vm_compute; congruence). left. vm_compute. congruence.
Qed.

Lemma exEmpty_fifo : fifo 2 [] exEmpty.
Proof. split; [lia|reflexivity|reflexivity|discriminate|]. exists 0. done. Qed.

Lemma exMem : mem_ok 4096 (replicate 4096 0).
Proof. split; [reflexivity|]. apply Forall_replicate. unfold byte_ok. lia. Qed.

Lemma exD_opened : dopened exDSetup fk_holding fk_none exD0.
Proof.
  split; [vm_compute; reflexivity|vm_compute; reflexivity|split_and!; apply exEmpty_fifo|done|exact exMem|done].
Qed.

(** Two frames allocated, three supplied, one received. *)
Definition exOps : list (dop fakePMD) := [DAlloc 2; DFill 3; DReceive 1].
Definition exRun (ops : list (dop fakePMD)) (s : dsys Frames fakePMD) : option (dsys Frames fakePMD) := foldM (fun s op => ddo op s) ops s.

Definition exD1 : dsys Frames fakePMD := Eval vm_compute in default exD0 (exRun exOps exD0).

Lemma exD_reach : su_reach exDSetup fk_holding fk_none exD0 exD1.
Proof.
  assert (E : exRun exOps exD0 = Some exD1) by (vm_compute; reflexivity). unfold exRun, exOps in E. cbn [foldM] in E.
  destruct (ddo (DAlloc 2) exD0) as [s1|] eqn:E1; cbn [mbind option_bind] in E; [|done]. destruct (ddo (DFill 3) s1) as [s2|] eqn:E2; cbn [mbind option_bind] in E; [|done].
  destruct (ddo (DReceive 1) s2) as [s3|] eqn:E3; cbn [mbind option_bind] in E; [|done]. injection E as <-.
  unfold su_reach. eapply (dreach_step _ _ _ _ _ _ _ _ _ (DReceive 1)); [|exact I|exact E3]. eapply (dreach_step _ _ _ _ _ _ _ _ _ (DFill 3)); [|exact I|exact E2].
  eapply (dreach_step _ _ _ _ _ _ _ _ _ (DAlloc 2)); [apply dreach_init|exact I|exact E1].
Qed.

Lemma exD_txdriver : TxDriver fakePMD (su_rva exDSetup) (su_rlen exDSetup) (c_PoolVA (su_ct exDSetup)) (su_k exDSetup) fk_holding.
Proof. apply fake_tx. Qed.

Lemma exD_rxdriver : RxDriver fakePMD (su_rva exDSetup) (su_rlen exDSetup) (su_bufLen exDSetup) (su_ks exDSetup) (su_kr exDSetup) fk_none.
Proof. apply fake_rx_driver. vm_compute. reflexivity. Qed.

Lemma dpdk_frames_conserved_witness :
  length (s_held exD1) = 3%nat /\
  all_frames (mkGeo 9 0 4) ++ all_frames (mkGeo 9 4 4) ≡ₚ
    free (d_pool (x_base (s_tx exD1))) ++ free (d_pool (y_base (s_rx exD1))) ++ map (frame_at (mkGeo 9 0 4)) (s_held exD1) ++
    tx_frames fk_holding exRVA exD1 ++ rx_frames fk_none exRVA exD1.
Proof.
  split; [reflexivity|].
  exact (proj1 (dpdk_frames_conserved exDSetup fk_holding fk_none exD0 exD1 exD_txdriver exD_rxdriver exD_setup exD_opened exD_reach)).
Defined.

Lemma dpdk_never_panics_witness : is_Some (ddo (DReceive 4) exD1).
Proof.
  exact (dpdk_never_panics exDSetup fk_holding fk_none exD0 exD1 (DReceive 4) exD_txdriver exD_rxdriver exD_setup exD_opened exD_reach I).
Defined.

(** The first frame in full, and a length that runs past the second. *)
Definition exDescs : list Desc := [mkDesc 256 256 0; mkDesc 768 257 0].

Lemma exD_base : base_ok (mkGeo 9 0 4) exRVA 4096 (x_base exDTx).
Proof.
  destruct (validate_base (mkGeo 9 0 4) true exCt exRVA 4096) with (b := x_base exDTx) as [Hb _]; try done; unfold exRVA; cbn; try lia.
Qed.

Lemma dTransmit_batch_witness :
  exists good bad region, take 4 exDescs = good ++ bad /\ Forall (in_packet_area (mkGeo 9 0 4) 4096 (x_base exDTx)) good /\
    Forall (described_as (mkGeo 9 0 4) (x_base exDTx) region) good.
Proof.
  destruct (dTransmit_batch (mkGeo 9 0 4) exRVA 4096 exDescs exDTx (mkFake []) (mkWorld (replicate 4096 0) noRing exEmpty)) as (good & bad & region & H1 & H2 & _ & H3 & _);
    [exact exD_base|reflexivity|reflexivity|discriminate|reflexivity|exact exMem| | |by exists good, bad, region].
  - repeat constructor; discriminate.
  - vm_compute. repeat constructor; [set_solver|set_solver].
Defined.

Lemma dpdk_descOK_exact_witness : d_descOK (x_base exDTx) (mkDesc 256 256 0) = true /\ d_descOK (x_base exDTx) (mkDesc 768 257 0) = false.
Proof.
  split; [|reflexivity].
  apply (dpdk_descOK_exact true (mkGeo 9 0 4) exCt (x_base exDTx) (mkDesc 256 256 0)); try reflexivity; try discriminate.
  - unfold geo_ok, fsize. cbn. lia.
  - split; [discriminate|reflexivity].
  - split; [discriminate|reflexivity].
  - repeat split; discriminate.
  - exists 0. repeat split; discriminate.
Defined.

(** ** What the code does not do *)

(** A driver whose packets are chains of two buffers: it takes both from the
    supply and delivers the first, which is how DPDK hands over a chain. *)
Definition chain_rx (max : Z) (d : unit) (w : world) : Z * list Z * unit * world :=
  match RingPop 2 [] (w_supply w) with
  | Some ([va; _], sup) =>
      match SetNbSegs (va - exRVA) 2 (w_region w) with
      | Some region => (1, va :: replicate (Z.to_nat max - 1) 0, d, mkWorld region sup (w_returned w))
      | None => (0, replicate (Z.to_nat max) 0, d, w)
      end
  | _ => (0, replicate (Z.to_nat max) 0, d, w)
  end.

Definition chainPMD : PMD unit := {|
  TxBurst mbufs d w := (0, d, w);
  RxBurst := chain_rx;
  Poke d w := (d, w)
|}.

(** A packet of two buffers is refused and one buffer goes back on the free
    list; the other is nowhere: three of the four frames are on the free list
    or the supply, and the queue counts one it will never see again. *)
Lemma chained_packet_leaks :
  exists q1 w1 q2 w2,
    dFill 4 exDRx (mkWorld (replicate 4096 0) exEmpty exEmpty) = Some (4, q1, w1) /\
    @dReceive Frames _ unit chainPMD 4 q1 tt w1 = Some ([], q2, tt, w2) /\
    fp_free (d_pool (y_base q2)) = [3584] /\ ring_list (w_supply w2) = map (va_of exRVA (y_base q2)) [2560; 2048] /\
    ring_list (w_returned w2) = [] /\ dNumOutstanding q2 = 3 /\ d_dead (y_base q2) = None.
Proof. do 4 eexists. split; [vm_compute; reflexivity|]. split; [vm_compute; reflexivity|]. split_and!; vm_compute; reflexivity. Qed.

(** The data offset a driver reports is not checked against the buffer: one as
    large as a frame makes a descriptor of the next frame, which the check of
    the descriptor accepts. *)
Lemma data_offset_escapes :
  exists region d q, PrepareTx (2048 + 64) 0 512 60 (replicate 4096 0) = Some region /\
    rx_one region (va_of exRVA (y_base exDRx) 2048) exDRx = Some (Some d, true, q) /\ frame_at (mkGeo 9 4 4) d = 2560.
Proof. do 3 eexists. split; [vm_compute; reflexivity|]. split; [vm_compute; reflexivity|]. vm_compute. reflexivity. Qed.

(** A TCP packet over IPv4, and metadata that claims 276 bytes of TCP header. *)
Definition exTCP : list Z :=
  replicate 12 2 ++ [0x08; 0] ++ [0x45; 0; 3; 0; 0; 1; 0; 0; 64; 6; 0; 0; 10; 0; 0; 1; 10; 0; 0; 2] ++ replicate 12 0 ++ [0x50; 0] ++ replicate 300 0.
Definition exTSO : Offload := mkOffload OffloadNeedsCsum OffloadGSOTCPv4 310 100 34 16.

(** A header length the mbuf's eight-bit field cannot hold is accepted and the
    device is told 20. *)
Lemma header_length_truncated :
  exists region, applyOffload true 0 exTSO exTCP (replicate 128 0) = Some (Ok region) /\
    TxOffload region 0 = Some (14 + Z.shiftl 20 7 + Z.shiftl 20 16 + Z.shiftl 100 24) /\ HdrLen exTSO - 34 = 276.
Proof. eexists. split; [vm_compute; reflexivity|]. split; vm_compute; reflexivity. Qed.
