(* ===== verification/DpdkDevice.v ===== *)
(** How a DPDK device divides its region among its queues: the checks of
    [config.validate] that bound it, and the part of [Open] in dpdk/device.go
    that counts the frames and hands each queue its run of them. *)

From stdpp Require Import prelude list numbers strings.
From S2P Require Import Prelude.

Definition maxQueues : Z := 64.
Definition maxFrames : Z := Z.shiftl 1 21.
Definition maxFrameSize : Z := Z.shiftl 1 16.
Definition ringsPerCopiedQueue : Z := 4.

(** The fields of [config] that decide the division. *)
Record devConfig : Set := mkDevConfig {
  v_txQueues : Z; v_rxQueues : Z; v_ringsPerQueue : Z; v_txDepth : Z; v_rxDepth : Z; v_frameSize : Z; v_frames : Z; v_framesSet : bool; v_mtu : Z
}.

(** [config.validate], but for affinity and steering. *)
Definition config_validate (c : devConfig) : res unit :=
  if (v_txQueues c <? 0) || (v_rxQueues c <? 0) then Err (Errorf "dpdk: transmit and receive queues")
  else if (v_txQueues c =? 0) && (v_rxQueues c =? 0) then Err (Errorf "dpdk: no queues asked for")
  else if (v_ringsPerQueue c <? 0) || (v_ringsPerQueue c >? 16) then Err (Errorf "dpdk: rings behind each transmit queue; between 1 and 16, or 0 to let the device choose")
  else if (v_txQueues c >? maxQueues) || (v_rxQueues c >? maxQueues) then Err (Errorf "dpdk: the most this backend opens")
  else if (v_txDepth c <=? 0) || negb (Z.land (v_txDepth c) (v_txDepth c - 1) =? 0) then Err (Errorf "dpdk: a transmit queue which must be a power of two")
  else if (v_rxDepth c <=? 0) || negb (Z.land (v_rxDepth c) (v_rxDepth c - 1) =? 0) then Err (Errorf "dpdk: a receive queue which must be a power of two")
  else if v_frameSize c >? maxFrameSize then Err (Errorf "dpdk: a frame size over the largest a frame may be")
  else if (v_frameSize c <? 512) || negb (Z.land (v_frameSize c) (v_frameSize c - 1) =? 0) then Err (Errorf "dpdk: a frame size which must be a power of two of at least 512")
  else if v_frames c <=? 0 then Err (Errorf "dpdk: frames")
  else if v_frames c >? maxFrames then Err (Errorf "dpdk: frames over the most this backend reserves")
  else if v_mtu c <=? 0 then Err (Errorf "dpdk: an MTU")
  else Ok tt.

(** [for p < n { p <<= 1 }]; sixty-three doublings reach any [int]. *)
Fixpoint double_to (fuel : nat) (p n : Z) : Z :=
  match fuel with
  | O => p
  | S fuel => if p <? n then double_to fuel (Z.shiftl p 1) n else p
  end.
Definition devNextPow2 (n : Z) : Z := double_to 63 1 n.

Definition ringSize (frames : Z) : Z := devNextPow2 frames.

(** How many rings a transmit queue has. *)
Definition rings_of (mellanox : bool) (c : devConfig) : Z :=
  if v_ringsPerQueue c =? 0 then if (v_rxQueues c =? 0) && (v_txQueues c >=? 2) && mellanox then ringsPerCopiedQueue else 1
  else v_ringsPerQueue c.

(** How many frames the region has. *)
Definition region_frames (rings : Z) (c : devConfig) : res Z :=
  if v_txQueues c * rings >? maxQueues then Err (Errorf "dpdk: send queues, the most this backend opens")
  else
    let need := v_txQueues c * rings * v_txDepth c + v_rxQueues c * v_rxDepth c in
    let? frames :=
      if v_framesSet c then if v_frames c <? need then Err (Errorf "dpdk: frames is not enough") else Ok (v_frames c)
      else if v_frames c <? 2 * need then Ok (devNextPow2 (2 * need))
      else Ok (v_frames c) in
    if frames >? maxFrames then Err (Errorf "dpdk: more than this backend reserves") else Ok frames.

(** One queue's run of frames: the first and how many. *)
Record share : Set := mkShare { sh_start : Z; sh_count : Z }.

(** [n] queues served one after the other by [take]. *)
Fixpoint deal (n : nat) (perQueue leftover first : Z) : list share * Z * Z :=
  match n with
  | O => ([], leftover, first)
  | S n =>
      let count := if leftover >? 0 then perQueue + 1 else perQueue in
      let leftover := if leftover >? 0 then leftover - 1 else leftover in
      let '(l, leftover, next) := deal n perQueue leftover (first + count) in
      (mkShare first count :: l, leftover, next)
  end.

(** The runs of the rings of the transmit queues, then of the receive queues. *)
Definition divide (rings : Z) (c : devConfig) (frames : Z) : list share * list share :=
  let queues := v_txQueues c * rings + v_rxQueues c in
  let perQueue := frames / Z.max queues 1 in
  let leftover := frames mod Z.max queues 1 in
  let '(tx, leftover, first) := deal (Z.to_nat (v_txQueues c * rings)) perQueue leftover 0 in
  let '(rx, _, _) := deal (Z.to_nat (v_rxQueues c)) perQueue leftover first in
  (tx, rx).

(** ** Properties *)

Definition frames_in (s : share) : list Z := (fun i => sh_start s + Z.of_nat i) <$> seq 0 (Z.to_nat (sh_count s)).
Definition run (a n : Z) : list Z := (fun i => a + Z.of_nat i) <$> seq 0 (Z.to_nat n).

Lemma run_app a n m : 0 <= n -> 0 <= m -> run a n ++ run (a + n) m = run a (n + m).
Proof.
  intros Hn Hm. unfold run. rewrite Z2Nat.inj_add, seq_app, fmap_app by lia. f_equal. replace (0 + Z.to_nat n)%nat with (Z.to_nat n + 0)%nat by lia.
  rewrite <- fmap_add_seq, <- list_fmap_compose. apply list_fmap_ext. intros i x _. simpl. lia.
Qed.

Lemma deal_spec perQueue : 0 <= perQueue -> forall n leftover first, 0 <= leftover -> forall l left' next, deal n perQueue leftover first = (l, left', next) ->
  length l = n /\ next = first + Z.of_nat n * perQueue + Z.min (Z.of_nat n) leftover /\ left' = Z.max 0 (leftover - Z.of_nat n) /\
  concat (map frames_in l) = run first (next - first) /\ Forall (fun s => perQueue <= sh_count s <= perQueue + 1) l.
Proof.
  intros Hp n. induction n as [|n IH]; intros leftover first Hl l left' next E; cbn [deal] in E.
  { injection E as <- <- <-. split_and!; try done; try lia. by rewrite Z.sub_diag. }
  set (count := if leftover >? 0 then perQueue + 1 else perQueue) in E. set (left1 := if leftover >? 0 then leftover - 1 else leftover) in E.
  destruct (deal n perQueue left1 (first + count)) as [[l1 left2] next1] eqn:E1. injection E as <- <- <-.
  assert (Hc : count = perQueue + Z.min 1 leftover /\ left1 = Z.max 0 (leftover - 1)) by (unfold count, left1; destruct (Z.gtb_spec leftover 0); lia). destruct Hc as [Hc Hl1].
  apply IH in E1 as (H1 & H2 & H3 & H4 & H5); [|lia]. cbn [length map concat]. split; [lia|]. split; [lia|]. split; [lia|]. split.
  - rewrite H4. change (frames_in (mkShare first count)) with (run first count). rewrite run_app by lia. f_equal. lia.
  - constructor; [simpl; lia|done].
Qed.

(** Every frame of the region is dealt to exactly one queue, in runs
    that follow one another, and no queue has more than one frame more than
    another. *)
Theorem divide_exact rings c frames tx rx :
  0 <= v_txQueues c * rings -> 0 <= v_rxQueues c -> 0 < v_txQueues c * rings + v_rxQueues c -> 0 <= frames -> divide rings c frames = (tx, rx) ->
  concat (map frames_in (tx ++ rx)) = run 0 frames /\
  length tx = Z.to_nat (v_txQueues c * rings) /\ length rx = Z.to_nat (v_rxQueues c) /\
  Forall (fun s => frames / (v_txQueues c * rings + v_rxQueues c) <= sh_count s <= frames / (v_txQueues c * rings + v_rxQueues c) + 1) (tx ++ rx).
Proof.
  intros Ht Hr Hq Hf. unfold divide. rewrite Z.max_l by lia. set (n := v_txQueues c * rings + v_rxQueues c) in *.
  pose proof (Z.div_pos frames n ltac:(lia) ltac:(lia)) as Hp. pose proof (Z.mod_pos_bound frames n ltac:(lia)) as Hm. pose proof (Z.div_mod frames n ltac:(lia)) as Hdm.
  destruct (deal (Z.to_nat (v_txQueues c * rings)) (frames / n) (frames mod n) 0) as [[l1 left1] first1] eqn:E1.
  destruct (deal (Z.to_nat (v_rxQueues c)) (frames / n) left1 first1) as [[l2 left2] first2] eqn:E2. intros [= <- <-].
  apply deal_spec in E1 as (A1 & A2 & A3 & A4 & A5); [|lia..]. apply deal_spec in E2 as (B1 & B2 & B3 & B4 & B5); [|lia..].
  split_and!; try done; [|by apply Forall_app]. rewrite map_app, concat_app, A4, B4, Z.sub_0_r. rewrite Z2Nat.id in * by lia.
  replace first1 with (0 + first1) at 2 by lia. rewrite run_app by nia. f_equal. nia.
Qed.

(** Two transmit rings and three receive queues over seventeen frames. *)
Definition exDev : devConfig := mkDevConfig 2 3 1 4 4 512 17 true 1500.

Lemma divide_exact_witness :
  divide 1 exDev 17 = ([mkShare 0 4; mkShare 4 4], [mkShare 8 3; mkShare 11 3; mkShare 14 3]) /\
  concat (map frames_in [mkShare 0 4; mkShare 4 4; mkShare 8 3; mkShare 11 3; mkShare 14 3]) = run 0 17.
Proof.
  split; [reflexivity|].
  exact (proj1 (divide_exact 1 exDev 17 [mkShare 0 4; mkShare 4 4] [mkShare 8 3; mkShare 11 3; mkShare 14 3]
    ltac:(discriminate) ltac:(discriminate) eq_refl ltac:(discriminate) eq_refl)).
Defined.

(** The division is the same for every queue whatever its depth: with one deep
    transmit queue and seven shallow receive queues, the transmit queue has
    half as many frames as slots, and its returned ring, sized by its frames,
    holds half of what the driver may free at once when the frames in flight
    are other queues'. *)
Definition exShallow : devConfig := mkDevConfig 1 7 1 4096 64 2048 4096 false 1500.

Lemma returned_ring_below_depth :
  config_validate exShallow = Ok tt /\ region_frames 1 exShallow = Ok 16384 /\
  exists rx, divide 1 exShallow 16384 = ([mkShare 0 2048], rx) /\ ringSize 2048 < v_txDepth exShallow.
Proof. split; [reflexivity|]. split; [reflexivity|]. eexists. split; [vm_compute; reflexivity|reflexivity]. Qed.
