(* ===== verification/DpdkFan.v ===== *)
(** The queues a program is given by the DPDK backend: dpdk/queues.go.

    A transmit queue drives several hardware send queues, each with its own
    driver, returned ring and free list ([hwring]); a receive queue keeps what a
    poll had to take from the driver to look at it.  The frame memory is shared
    and threaded through.  The counters of the C side ([Drops], [Empty]) are
    arguments, and so is what happens while a poll waits, turn by turn; the
    mutex that keeps [Close] out of a turn is left out, a turn being atomic. *)

From stdpp Require Import prelude list numbers strings.
From S2P Require Import Prelude Bytes Desc Pool Mbuf Mlx5Region DpdkRing DpdkQueue.

(** ** region *)

Definition dr_Frame (b : list Z) (d : Desc) : option (option (list Z)) :=
  if (Addr d >=? zlen b) || (u64 (Addr d + Len d) >? zlen b) then Some None
  else f ← slice (Addr d) (u64 (Addr d + Len d)) b; Some (Some f).

Definition dr_end (l : Layout) (b : list Z) (d : Desc) : Z :=
  let end_ := u64 (FrameOf l (Addr d) + l_FrameSize l) in
  if end_ >? zlen b then zlen b else end_.

Definition dr_Writable (l : Layout) (b : list Z) (d : Desc) : option (option (list Z)) :=
  if Addr d >=? zlen b then Some None
  else f ← slice (Addr d) (dr_end l b d) b; Some (Some f).

(** ** TxQueue *)

(** One of [qs], with the driver behind it and the ring it frees into. *)
Record hwring (P D : Type) : Type := mkHw { h_tx : DTx P; h_drv : D; h_ret : Ring }.
Arguments mkHw {P D}. Arguments h_tx {P D}. Arguments h_drv {P D}. Arguments h_ret {P D}.

Record QTx (P D : Type) : Type := mkQTx { q_qs : list (hwring P D); q_next : nat; q_place : placement; q_closed : bool }.
Arguments mkQTx {P D}. Arguments q_qs {P D}. Arguments q_next {P D}. Arguments q_place {P D}. Arguments q_closed {P D}.

Section txqueue.
Context {P : Type} `{!FramePool P} {D : Type} `{!PMD D}.
Implicit Types (h : hwring P D) (q : QTx P D) (region : list Z).

(** What the driver of a send queue shares with it. *)
Definition hw_world (region : list Z) h : world := mkWorld region (mkRing [] 0 0 0) (h_ret h).
Definition hw_with (t : DTx P) h : hwring P D := mkHw t (h_drv h) (h_ret h).

Definition q_with (hs : list (hwring P D)) q : QTx P D := mkQTx hs (q_next q) (q_place q) (q_closed q).

(** [pin] is the outcome of placing the worker. *)
Context (pin : res Z).
Definition q_pinned q : QTx P D := mkQTx (q_qs q) (q_next q) (snd (autoPin pin (q_place q))) (q_closed q).
Definition q_Pin q : res Z * QTx P D := (fst (autoPin pin (q_place q)), q_pinned q).

(** [if q.next++; q.next == len(q.qs) { q.next = 0 }] *)
Definition q_advance q : QTx P D :=
  mkQTx (q_qs q) (if decide (S (q_next q) = length (q_qs q)) then 0%nat else S (q_next q)) (q_place q) (q_closed q).

(** Ring [i] replaced. *)
Definition q_set (i : nat) h q : QTx P D := q_with (<[i := h]> (q_qs q)) q.

Definition q_Alloc (n : Z) q : option (list Desc * QTx P D) :=
  if q_closed q then Some ([], q)
  else
    let q := q_pinned q in
    h ← q_qs q !! q_next q;
    '(ds, t) ← dAlloc n (h_tx h);
    Some (ds, q_set (q_next q) (hw_with t h) q).

Definition hw_Transmit (ds : list Desc) (region : list Z) h : option (Z * list Z * hwring P D) :=
  '(n, t, dr, w) ← dTransmit ds (h_tx h) (h_drv h) (hw_world region h);
  Some (n, w_region w, mkHw t dr (w_returned w)).

Definition q_Transmit (ds : list Desc) (region : list Z) q : option (Z * list Z * QTx P D) :=
  if q_closed q then Some (0, region, q)
  else
    let q := q_pinned q in
    h ← q_qs q !! q_next q;
    '(n, region, h) ← hw_Transmit ds region h;
    Some (n, region, q_advance (q_set (q_next q) h q)).

(** Whether the device was opened with [WithChecksumOffload], and offers it. *)
Context (txChecksums : bool).

Definition q_TransmitOffload (ds : list Desc) (offs : list Offload) (region : list Z) q : option (Z * option error * list Z * QTx P D) :=
  if q_closed q then Some (0, Some (Sentinel ErrClosed), region, q)
  else if negb txChecksums then
    Some (0, Some (Wrap ErrUnsupported "TransmitOffload needs WithChecksumOffload, and a device that offers it"), region, q)
  else
    h ← q_qs q !! q_next q;
    '(n, e, t, dr, w) ← dTransmitOffload ds offs (h_tx h) (h_drv h) (hw_world region h);
    Some (n, e, w_region w, q_advance (q_set (q_next q) (mkHw t dr (w_returned w)) q)).

Definition hw_Complete (max : Z) (region : list Z) h : option (Z * list Z * hwring P D) :=
  '(n, t, dr, w) ← dComplete max (h_tx h) (h_drv h) (hw_world region h);
  Some (n, w_region w, mkHw t dr (w_returned w)).

(** [for _, t := range q.qs] of [Complete]. *)
Fixpoint q_complete_rings (max total : Z) (region : list Z) (hs : list (hwring P D)) : option (Z * list Z * list (hwring P D)) :=
  match hs with
  | [] => Some (total, region, [])
  | h :: hs =>
      if total >=? max then Some (total, region, h :: hs)
      else
        '(n, region, h) ← hw_Complete (max - total) region h;
        '(total, region, hs) ← q_complete_rings max (total + n) region hs;
        Some (total, region, h :: hs)
  end.

Definition q_Complete (max : Z) (region : list Z) q : option (Z * list Z * QTx P D) :=
  if q_closed q then Some (0, region, q)
  else '(total, region, hs) ← q_complete_rings max 0 region (q_qs q); Some (total, region, q_with hs q).

(** [for _, t := range q.qs] of [Reclaim]; [before] is [len(out)] at the start. *)
Fixpoint q_reclaim_rings (max before : Z) (out : list Desc) (region : list Z) (hs : list (hwring P D)) :
    option (list Desc * list Z * list (hwring P D)) :=
  match hs with
  | [] => Some (out, region, [])
  | h :: hs =>
      let got := zlen out - before in
      if got >=? max then Some (out, region, h :: hs)
      else
        '(out, t, dr, w) ← dReclaim (max - got) out (h_tx h) (h_drv h) (hw_world region h);
        '(out, region, hs) ← q_reclaim_rings max before out (w_region w) hs;
        Some (out, region, mkHw t dr (w_returned w) :: hs)
  end.

Definition q_Reclaim (max : Z) (out : list Desc) (region : list Z) q : option (list Desc * list Z * QTx P D) :=
  if q_closed q then Some (out, region, q)
  else '(out, region, hs) ← q_reclaim_rings max (zlen out) out region (q_qs q); Some (out, region, q_with hs q).

(** The first ring that owns the address, or the first of all. *)
Fixpoint owner_from (i : nat) (addr : Z) (hs : list (hwring P D)) : nat :=
  match hs with
  | [] => 0
  | h :: hs => if d_Owns (x_base (h_tx h)) addr then i else owner_from (S i) addr hs
  end.

Definition free_one (d : Desc) (hs : list (hwring P D)) : option (list (hwring P D)) :=
  _ ← hs !! 0%nat;
  let i := owner_from 0 (Addr d) hs in
  h ← hs !! i;
  t ← dFree [d] (h_tx h);
  Some (<[i := hw_with t h]> hs).

Definition q_Free (ds : list Desc) q : option (QTx P D) := hs ← foldM (fun hs d => free_one d hs) ds (q_qs q); Some (q_with hs q).

Definition zsum (l : list Z) : Z := foldr Z.add 0 l.

Definition q_NumCompleted q : Z := if q_closed q then 0 else zsum (map (fun h => RingLen (h_ret h)) (q_qs q)).
Definition q_NumInFlight q : Z := zsum (map (fun h => dNumInFlight (h_tx h)) (q_qs q)).
Definition q_NumFreeFrames q : Z := zsum (map (fun h => fp_Len (d_pool (x_base (h_tx h)))) (q_qs q)).
Definition q_NumFreeSlots q : option Z := if q_closed q then Some 0 else h ← q_qs q !! q_next q; Some (dNumFreeSlots (h_tx h)).

(** *** SendFunc *)

Context {St : Type} (build : Z -> list Z -> St -> Z * list Z * St).

(** [for i := range descs]: the frames built, the region and the callback's
    state; an error when it claims more than the frame holds. *)
Fixpoint q_build (l : Layout) (i : Z) (descs : list Desc) (region : list Z) (s : St) (done : list Desc) :
    option (res (list Desc) * list Z * St) :=
  match descs with
  | [] => Some (Ok done, region, s)
  | d :: ds =>
      f ← dr_Writable l region d;
      let frame := default [] f in
      let '(n, b, s) := build i frame s in
      let region := match f with Some _ => blit (Addr d) b region | None => region end in
      if n =? 0 then Some (Ok done, region, s)
      else if (n <? 0) || (n >? zlen frame) then Some (Err (Wrap ErrBadLength "bytes into a frame"), region, s)
      else q_build l (i + 1) ds region s (done ++ [mkDesc (Addr d) (u32 n) (Options d)])
  end.

Definition hw_Free (ds : list Desc) h : option (hwring P D) := t ← dFree ds (h_tx h); Some (hw_with t h).

(** The cycle against one ring. *)
Definition hw_Send (l : Layout) (count : Z) (region : list Z) (s : St) h : option (res Z * list Z * St * hwring P D) :=
  '(_, region, h) ← hw_Complete (count + dNumInFlight (h_tx h)) region h;
  '(descs, t) ← dAlloc count (h_tx h);
  let h := hw_with t h in
  match descs with
  | [] => Some (Ok 0, region, s, h)
  | _ :: _ =>
      '(r, region, s) ← q_build l 0 descs region s [];
      match r with
      | Err e => h ← hw_Free descs h; Some (Err e, region, s, h)
      | Ok built =>
          h ← (if zlen built <? zlen descs then hw_Free (drop (length built) descs) h else Some h);
          '(sent, region, h) ← hw_Transmit built region h;
          h ← (if sent <? zlen built then rest ← slice sent (zlen built) built; hw_Free rest h else Some h);
          Some (Ok sent, region, s, h)
      end
  end.

Definition q_SendFunc (l : Layout) (count : Z) (region : list Z) (s : St) q : option (res Z * list Z * St * QTx P D) :=
  if q_closed q then Some (Err (Sentinel ErrClosed), region, s, q)
  else
    let q := q_pinned q in
    h ← q_qs q !! q_next q;
    '(r, region, s, h) ← hw_Send l count region s h;
    Some (r, region, s, q_advance (q_set (q_next q) h q)).

(** *** Err, Stats, Close *)

Definition lost_error : error := Wrap ErrQueueFailed "frames were lost when the driver's frees did not fit the returned ring".

Fixpoint first_dead (hs : list (hwring P D)) : option error :=
  match hs with
  | [] => None
  | h :: hs => match d_dead (x_base (h_tx h)) with Some e => Some e | None => first_dead hs end
  end.

(** [drops] is [Drops] of each pool. *)
Definition q_Err (drops : list Z) q : option error :=
  if q_closed q then Some (Sentinel ErrClosed)
  else match first_dead (q_qs q) with
       | Some e => Some e
       | None => if existsb (fun d => d >? 0) drops then Some lost_error else None
       end.

(** The counters of packetio.TxStats, and this backend's own. *)
Record QTxStats : Set := mkQTxStats {
  qs_Packets : Z; qs_Bytes : Z; qs_Completed : Z; qs_Batches : Z; qs_RingFull : Z; qs_PoolEmpty : Z; qs_Errors : Z;
  qs_in_flight : Z; qs_rings : Z; qs_bad_desc : Z; qs_pokes : Z; qs_foreign : Z; qs_bad_offload : Z; qs_mempool_drops : Z; qs_pool_rejected : Z
}.

Definition usum (l : list Z) : Z := foldl (fun s x => u64 (s + x)) 0 l.

Definition q_Stats (drops : list Z) q : QTxStats :=
  let total f := usum (map (fun h => f (x_Stats (h_tx h))) (q_qs q)) in
  let badDesc := total xs_BadDesc in let foreign := total xs_Foreign in let badOffload := total xs_BadOffload in
  mkQTxStats (total xs_Packets) (total xs_Bytes) (total xs_Completed) (total xs_Batches) (total xs_RingFull) (total xs_PoolEmpty)
    (u64 (u64 (badDesc + foreign) + badOffload)) (u64 (q_NumInFlight q)) (zlen (q_qs q)) badDesc (total xs_Pokes) foreign badOffload
    (usum drops) (usum (map (fun h => fp_rejected (d_pool (x_base (h_tx h)))) (q_qs q))).

Definition hw_Close h : hwring P D := hw_with (mkDTx (close_base (x_base (h_tx h))) (x_inFlight (h_tx h)) (x_Stats (h_tx h))) h.
Definition q_Close q : QTx P D := mkQTx (map hw_Close (q_qs q)) (q_next q) (q_place q) true.
End txqueue.

(** ** RxQueue *)

Record QRx (P : Type) : Type := mkQRx { e_q : DRx P; e_stash : list Desc; e_place : placement; e_closed : bool }.
Arguments mkQRx {P}. Arguments e_q {P}. Arguments e_stash {P}. Arguments e_place {P}. Arguments e_closed {P}.

Definition pollBatch : Z := 64.

Section rxqueue.
Context {P : Type} `{!FramePool P} {D : Type} `{!PMD D}.
Implicit Types (q : QRx P) (dr : D) (w : world).
Context (pin : res Z).

Definition e_pinned q : QRx P := mkQRx (e_q q) (e_stash q) (snd (autoPin pin (e_place q))) (e_closed q).
Definition e_Pin q : res Z * QRx P := (fst (autoPin pin (e_place q)), e_pinned q).
Definition e_with (r : DRx P) (stash : list Desc) q : QRx P := mkQRx r stash (e_place q) (e_closed q).

Definition e_Fill (n : Z) q w : option (Z * QRx P * world) :=
  if e_closed q then Some (0, q, w)
  else
    let q := e_pinned q in
    '(_, r, w) ← DrainReturned (e_q q) w;
    '(posted, r, w) ← dFill n r w;
    Some (posted, e_with r (e_stash q) q, w).

Definition e_pollOnce q dr w : option (Z * bool * QRx P * D * world) :=
  if e_closed q then Some (0, true, q, dr, w)
  else
    '(got, r, dr, w) ← dReceive pollBatch (e_q q) dr w;
    let stash := e_stash q ++ got in
    Some (zlen stash, false, e_with r stash q, dr, w).

(** A turn of the wait: what the queue, the driver and the memory are when it
    looks, and whether the deadline has passed when it has looked. *)
Record look : Type := mkLook { lk_q : QRx P; lk_dr : D; lk_w : world; lk_expired : bool }.

(** [None] inside is a poll that has not returned when the turns are over. *)
Fixpoint e_wait (timeout : Z) (turns : list look) : option (option (res Z * QRx P * D * world)) :=
  match turns with
  | [] => Some None
  | mkLook q dr w expired :: turns =>
      '(n, closed, q, dr, w) ← e_pollOnce q dr w;
      if (closed : bool) then Some (Some (Err (Sentinel ErrClosed), q, dr, w))
      else if n >? 0 then Some (Some (Ok n, q, dr, w))
      else if (timeout =? 0) || ((timeout >? 0) && expired) then Some (Some (Ok 0, q, dr, w))
      else e_wait timeout turns
  end.

(** The first look is at the queue as it is. *)
Definition e_Poll (timeout : Z) (expired : bool) (turns : list look) q dr w : option (option (res Z * QRx P * D * world)) :=
  if e_closed q then Some (Some (Err (Sentinel ErrClosed), q, dr, w))
  else if zlen (e_stash q) >? 0 then Some (Some (Ok (zlen (e_stash q)), q, dr, w))
  else e_wait timeout (mkLook q dr w expired :: turns).

Definition e_Receive (max : Z) q dr w : option (list Desc * QRx P * D * world) :=
  if e_closed q || (max <=? 0) then Some ([], q, dr, w)
  else
    let q := e_pinned q in
    if zlen (e_stash q) >? 0 then
      if max >=? zlen (e_stash q) then Some (e_stash q, e_with (e_q q) [] q, dr, w)
      else Some (take (Z.to_nat max) (e_stash q), e_with (e_q q) (drop (Z.to_nat max) (e_stash q)) q, dr, w)
    else
      '(ds, r, dr, w) ← dReceive max (e_q q) dr w;
      Some (ds, e_with r (e_stash q) q, dr, w).

Definition e_Recycle (ds : list Desc) q : option (QRx P) := r ← dRecycle ds (e_q q); Some (e_with r (e_stash q) q).

Definition e_NumFreeFillSlots q w : Z := if e_closed q then 0 else dNumFreeFillSlots (e_q q) w.

Definition e_NumReceived q dr w : option (Z * QRx P * D * world) :=
  if e_closed q then Some (0, q, dr, w)
  else '(n, _, q, dr, w) ← e_pollOnce q dr w; Some (n, q, dr, w).

Definition e_NumFreeFrames q : Z := fp_Len (d_pool (y_base (e_q q))).
Definition e_NumOutstanding q : Z := dNumOutstanding (e_q q).

Definition e_Err (drops : Z) q : option error :=
  if e_closed q then Some (Sentinel ErrClosed)
  else match d_dead (y_base (e_q q)) with
       | Some e => Some e
       | None => if drops >? 0 then Some lost_error else None
       end.

Record QRxStats : Set := mkQRxStats {
  es_Packets : Z; es_Bytes : Z; es_Filled : Z; es_Batches : Z; es_PoolEmpty : Z; es_Errors : Z;
  es_outstanding : Z; es_chained : Z; es_bad_len : Z; es_foreign : Z; es_supply_empty : Z; es_mempool_drops : Z; es_pool_rejected : Z
}.

Definition e_Stats (empty drops : Z) q : QRxStats :=
  let s := y_Stats (e_q q) in
  mkQRxStats (ys_Packets s) (ys_Bytes s) (ys_Filled s) (ys_Batches s) (ys_PoolEmpty s) (u64 (u64 (ys_Chained s + ys_BadLen s) + ys_Foreign s))
    (u64 (dNumOutstanding (e_q q))) (ys_Chained s) (ys_BadLen s) (ys_Foreign s) empty drops (fp_rejected (d_pool (y_base (e_q q)))).

(** [shut], which [Close] calls. *)
Definition e_Close q : QRx P :=
  if e_closed q then q
  else mkQRx (mkDRx (close_base (y_base (e_q q))) (y_outstanding (e_q q)) (y_Stats (e_q q))) (e_stash q) (e_place q) true.
End rxqueue.
