(* ===== verification/DpdkFanOps.v ===== *)
(** The queues of dpdk/queues.go against drivers that keep DPDK's contract:
    what each operation of a transmit queue over several rings does to the
    frames, and the order a receive queue hands packets out in. *)

From stdpp Require Import prelude list numbers strings.
From S2P Require Import Prelude Circ Bytes Desc Pool Mbuf Mlx5Region RingTxPost Mlx5Tx Mlx5Send DpdkRing DpdkQueue DpdkBuild DpdkTxOps DpdkRxOps DpdkSystem DpdkFan.

(** One ring's share: its frames, the pool its mbufs name, its returned ring. *)
Record ringspec : Set := mkSpec { rs_g : geometry; rs_pool : Z; rs_k : Z }.

Section rings.
Context {P : Type} `{!FramePool P} {D : Type} `{!PMD D} (rva rlen kf : Z) (owned : D -> list Z) (inv : geometry -> P -> Prop) (cl : bool).
Implicit Types (sp : ringspec) (h : hwring P D) (region : list Z).

Definition hw_free h : list Z := fp_free (d_pool (x_base (h_tx h))).

(** The frames the driver of a ring has, on the returned ring or in hand. *)
Definition hw_flight h : list Z := map (frame_back rva (x_base (h_tx h))) (ring_list (h_ret h) ++ owned (h_drv h)).

(** How many frames its free list has refused. *)
Definition hw_rejected h : Z := fp_rejected (d_pool (x_base (h_tx h))).

(** The frames a ring answers for. *)
Definition hw_frames h : list Z := hw_free h ++ hw_flight h.

(** What a ring needs of its surroundings. *)
Record spec_ok sp : Prop := {
  sp_log : g_log (rs_g sp) = kf;
  sp_laws : FramePoolLaws P (rs_g sp) (inv (rs_g sp));
  sp_driver : TxDriver D rva rlen (rs_pool sp) (rs_k sp) owned;
  sp_in : (g_first (rs_g sp) + g_count (rs_g sp)) * fsize (rs_g sp) <= rlen
}.

(** [cl]: whether the queue over the rings is closed; until then none of
    them is. *)
Record ring_ok sp h : Prop := {
  rk_tx : tx_ok (rs_g sp) rva rlen (rs_k sp) owned (h_tx h) (h_drv h) (h_ret h) (hw_flight h);
  rk_inv : inv (rs_g sp) (d_pool (x_base (h_tx h)));
  rk_pool : c_PoolVA (d_cfg (x_base (h_tx h))) = rs_pool sp;
  rk_range : c_FirstFrame (d_cfg (x_base (h_tx h))) = g_first (rs_g sp) /\ c_Frames (d_cfg (x_base (h_tx h))) = g_count (rs_g sp);
  rk_rejected : 0 <= hw_rejected h < 2 ^ 64;
  rk_open : cl = false -> d_closed (x_base (h_tx h)) = false
}.

Lemma tx_ok_perm g k (t : DTx P) dr ret fl fl' : fl ≡ₚ fl' -> tx_ok g rva rlen k owned t dr ret fl -> tx_ok g rva rlen k owned t dr ret fl'.
Proof using.
  intros Hp [H1 H2 H3 H4 H5 (l & Hl & H6)]. assert (Hz : zlen fl' = zlen fl) by (unfold zlen; by rewrite Hp). split; rewrite ?Hz, <- ?Hp; try done.
  exists l. split; [done|]. by rewrite H6, Hp.
Qed.

(** Whatever frames the driver is shown to have are those read off it. *)
Lemma flight_eq g k h fl : tx_ok g rva rlen k owned (h_tx h) (h_drv h) (h_ret h) fl -> hw_flight h ≡ₚ fl.
Proof using.
  intros Ht. destruct (to_ring _ _ _ _ _ _ _ _ _ Ht) as (l & Hf & Hl). unfold hw_flight. rewrite (fifo_list _ _ _ Hf), Hl. by rewrite frame_back_va.
Qed.

(** A ring after an operation, from what the operation's lemma says. *)
Lemma ring_ok_after sp h h' fl : ring_ok sp h ->
  tx_ok (rs_g sp) rva rlen (rs_k sp) owned (h_tx h') (h_drv h') (h_ret h') fl -> inv (rs_g sp) (d_pool (x_base (h_tx h'))) ->
  d_cfg (x_base (h_tx h')) = d_cfg (x_base (h_tx h)) -> d_closed (x_base (h_tx h')) = d_closed (x_base (h_tx h)) -> 0 <= hw_rejected h' < 2 ^ 64 ->
  ring_ok sp h' /\ hw_flight h' ≡ₚ fl.
Proof using.
  intros [_ _ R3 R4 R5 R6] Ht Hi Hc Hcl Hr. pose proof (flight_eq _ _ _ _ Ht) as Hf. split; [|done].
  split; rewrite ?Hc, ?Hcl; try done. eapply tx_ok_perm; [symmetry; exact Hf|done].
Qed.

Lemma kf_same sp ds : g_log (rs_g sp) = kf -> map (frame_at (rs_g sp)) ds = map (frame_at (mkGeo kf 0 0)) ds.
Proof using. intros <-. apply map_ext. intros d. reflexivity. Qed.

Notation fr := (map (frame_at (mkGeo kf 0 0))).

Section ring.
Context sp (Hsp : spec_ok sp).

(** An allocation hands out the start of each packet area. *)
Lemma hw_alloc n h : ring_ok sp h ->
  exists addrs t, dAlloc n (h_tx h) = Some (map (fun a => mkDesc (a + d_dataStart (x_base (h_tx h))) 0 0) addrs, t) /\ ring_ok sp (hw_with t h) /\
    hw_free h = hw_free (hw_with t h) ++ addrs /\ hw_flight (hw_with t h) ≡ₚ hw_flight h /\ hw_rejected (hw_with t h) = hw_rejected h /\
    Forall (region_frame (rs_g sp) rlen) addrs /\ addrs = fr (map (fun a => mkDesc (a + d_dataStart (x_base (h_tx h))) 0 0) addrs) /\
    (cl = false -> zlen addrs = Z.max 0 (Z.min n (Z.min (dNumFreeSlots (h_tx h)) (zlen (hw_free h))))).
Proof using Hsp.
  intros H. destruct Hsp as [Hl L1 L2 Hin]. pose proof (rk_tx _ _ H) as Ht.
  destruct (dAlloc_spec (rs_g sp) (inv (rs_g sp)) rva rlen (rs_k sp) owned Hin n (h_tx h) (h_drv h) (h_ret h) (hw_flight h) Ht (rk_inv _ _ H)) as (ds & t & E & [A1 A2 A3 A4 [A5 A8] A6 A7]).
  destruct (ring_ok_after sp h (hw_with t h) (hw_flight h) H A1 A2 A5 A8) as [H' Hf]. { unfold hw_rejected. simpl. rewrite A4. apply H. }
  exists (map (frame_at (rs_g sp)) ds), t. rewrite <- A7. split_and!; try done.
  - apply Forall_forall. intros a Ha. apply (own_region (rs_g sp) (inv (rs_g sp)) rlen Hin), (fp_sub _ (rk_inv _ _ H)). rewrite A3, elem_of_app. by right.
  - by apply kf_same.
  - intros Hc. apply (rk_open _ _ H) in Hc. unfold hw_free. rewrite <- (A6 Hc). unfold zlen. by rewrite length_map.
Qed.

Lemma hw_alloc_frames n h : ring_ok sp h ->
  exists ds t, dAlloc n (h_tx h) = Some (ds, t) /\ ring_ok sp (hw_with t h) /\ hw_frames h ≡ₚ hw_frames (hw_with t h) ++ fr ds /\
    hw_flight (hw_with t h) ≡ₚ hw_flight h /\ hw_rejected (hw_with t h) = hw_rejected h.
Proof using Hsp.
  intros H. destruct (hw_alloc n h H) as (addrs & t & E & H1 & H2 & H3 & H4 & _ & H5 & _). eexists _, t. split; [exact E|]. rewrite <- H5. split_and!; try done.
  unfold hw_frames. rewrite H2, H3. solve_Permutation.
Qed.

Lemma hw_transmit_gen ds offs region h : ring_ok sp h -> mem_ok rlen region -> Forall desc_ok ds -> NoDup (fr ds) -> (forall l, offs = Some l -> length l = length ds) ->
  exists n e t dr w, d_transmit ds offs (h_tx h) (h_drv h) (hw_world region h) = Some (n, e, t, dr, w) /\ 0 <= n <= zlen ds /\
    let h' := mkHw t dr (w_returned w) in
    ring_ok sp h' /\ mem_ok rlen (w_region w) /\ hw_free h' = hw_free h /\ hw_flight h' ≡ₚ hw_flight h ++ fr (take (Z.to_nat n) ds) /\ hw_rejected h' = hw_rejected h.
Proof using Hsp.
  intros H Hm Hds Hnd Hoffs. destruct Hsp as [Hl L1 L2 Hin]. rewrite <- (kf_same sp) in Hnd by done.
  destruct (d_transmit_spec (rs_g sp) rva rlen (rs_pool sp) (rs_k sp) owned ds offs (h_tx h) (h_drv h) (hw_world region h) (hw_flight h) (rk_tx _ _ H) (rk_pool _ _ H) Hm Hds Hnd Hoffs) as
    (n & e & t & dr & w & E & [T1 T2 T3 [T4 _] _]).
  exists n, e, t, dr, w. split; [done|]. split; [lia|]. cbv zeta.
  destruct (ring_ok_after sp h (mkHw t dr (w_returned w)) _ H T2) as [H' Hf]; unfold hw_rejected; simpl; rewrite ?T3; try done; [apply H|apply H|]. split; [done|]. split; [done|].
  unfold hw_free. simpl. rewrite T3. split; [done|]. by rewrite Hf, kf_same.
Qed.

Lemma hw_Transmit_spec ds region h : ring_ok sp h -> mem_ok rlen region -> Forall desc_ok ds -> NoDup (fr ds) ->
  exists n region' h', hw_Transmit ds region h = Some (n, region', h') /\ 0 <= n <= zlen ds /\ ring_ok sp h' /\ mem_ok rlen region' /\
    hw_free h' = hw_free h /\ hw_flight h' ≡ₚ hw_flight h ++ fr (take (Z.to_nat n) ds) /\ hw_rejected h' = hw_rejected h.
Proof using Hsp.
  intros H Hm Hds Hnd. destruct (hw_transmit_gen ds None region h H Hm Hds Hnd ltac:(done)) as (n & e & t & dr & w & E & Hn & HH).
  unfold hw_Transmit, dTransmit. rewrite E. cbn [mbind option_bind]. by do 3 eexists.
Qed.

(** A reclaim: what comes back was in flight. *)
Lemma hw_reclaim_gen max region h : ring_ok sp h -> mem_ok rlen region ->
  exists frames t dr w, d_reclaim max (h_tx h) (h_drv h) (hw_world region h) = Some (frames, t, dr, w) /\ x_base t = x_base (h_tx h) /\
    let h' := mkHw t dr (w_returned w) in
    ring_ok sp h' /\ mem_ok rlen (w_region w) /\ hw_flight h ≡ₚ frames ++ hw_flight h' /\ zlen frames <= Z.max 0 max.
Proof using Hsp.
  intros H Hm. destruct Hsp as [Hl L1 L2 Hin].
  destruct (d_reclaim_spec (rs_g sp) rva rlen (rs_pool sp) (rs_k sp) owned max (h_tx h) (h_drv h) (hw_world region h) (hw_flight h) (rk_tx _ _ H) Hm) as
    (frames & t & dr & w & fl' & E & [C1 C2 C3 [C4 _] C5]).
  exists frames, t, dr, w. split; [done|]. split; [done|]. cbv zeta.
  destruct (ring_ok_after sp h (mkHw t dr (w_returned w)) _ H C1) as [H' Hf]; unfold hw_rejected; simpl; rewrite ?C3; try done; [apply H|apply H|]. by rewrite Hf.
Qed.

(** Only this ring's frames are with its driver. *)
Definition own_flight sp h : Prop := hw_flight h ⊆ all_frames (rs_g sp).

(** What comes back is put on the free list, or refused and counted if it is
    not this ring's. *)
Lemma hw_Complete_spec max region h : ring_ok sp h -> mem_ok rlen region -> NoDup (hw_frames h) ->
  exists n region' h' back lost, hw_Complete max region h = Some (n, region', h') /\ ring_ok sp h' /\ mem_ok rlen region' /\ n = zlen back + zlen lost /\
    hw_free h' = hw_free h ++ back /\ hw_flight h ≡ₚ back ++ lost ++ hw_flight h' /\ hw_rejected h' = u64 (hw_rejected h + zlen lost) /\
    Forall (fun a => a ∉ all_frames (rs_g sp)) lost /\ d_dataStart (x_base (h_tx h')) = d_dataStart (x_base (h_tx h)).
Proof using Hsp.
  intros H Hm Hnd. destruct Hsp as [Hl L1 L2 Hin].
  destruct (dComplete_any (rs_g sp) (inv (rs_g sp)) rva rlen (rs_pool sp) (rs_k sp) owned max (h_tx h) (h_drv h) (hw_world region h) (hw_flight h) (rk_tx _ _ H) Hm (rk_inv _ _ H) (rk_rejected _ _ H) Hnd) as
    (frames & t & dr & w & fl' & E & C1 & C2 & C3 & C4 & C5 & C6 & [C7 C9] & C8).
  set (back := filter (fun a => a ∈ all_frames (rs_g sp)) frames) in *. set (lost := filter (fun a => a ∉ all_frames (rs_g sp)) frames) in *.
  assert (Hsplit : frames ≡ₚ back ++ lost) by (unfold back, lost; symmetry; apply filter_app_complement).
  unfold hw_Complete. rewrite E. cbn [mbind option_bind]. eexists _, _, _, back, lost. split; [done|].
  destruct (ring_ok_after sp h (mkHw t dr (w_returned w)) _ H C1 C3 C6 C9) as [H' Hf]. { unfold hw_rejected. simpl. rewrite C5. apply u64_range. }
  split; [done|]. split; [done|]. split; [rewrite <- zlen_app; unfold zlen; by rewrite Hsplit|]. split; [done|]. split; [by rewrite Hf, C2, Hsplit, <- app_assoc|]. split; [done|]. split; [|done].
  apply Forall_forall. intros a Ha. unfold lost in Ha. by apply list_elem_of_filter in Ha as [? _].
Qed.

(** What that means for the ring's frames; with its own frames alone nothing
    is refused. *)
Lemma complete_frames h h' back lost : hw_free h' = hw_free h ++ back -> hw_flight h ≡ₚ back ++ lost ++ hw_flight h' -> hw_frames h ≡ₚ hw_frames h' ++ lost.
Proof using. clear. intros H1 H2. unfold hw_frames. rewrite H1, H2. solve_Permutation. Qed.

Lemma own_complete h h' back lost : ring_ok sp h -> own_flight sp h -> hw_flight h ≡ₚ back ++ lost ++ hw_flight h' ->
  Forall (fun a => a ∉ all_frames (rs_g sp)) lost -> hw_rejected h' = u64 (hw_rejected h + zlen lost) ->
  lost = [] /\ own_flight sp h' /\ hw_rejected h' = hw_rejected h.
Proof using.
  clear. intros H Ho Hf Hl Hr. destruct lost as [|a lost].
  - split; [done|]. split; [|rewrite Hr; change (zlen (@nil Z)) with 0; rewrite Z.add_0_r; apply u64_small, H].
    intros a Ha. apply Ho. rewrite Hf, !elem_of_app. auto.
  - apply Forall_cons in Hl as [Ha _]. destruct Ha. apply Ho. rewrite Hf, !elem_of_app. right. left. by left.
Qed.

Lemma hw_Free_spec ds h : ring_ok sp h -> fr ds ⊆ all_frames (rs_g sp) -> NoDup (hw_free h ++ fr ds) ->
  exists h', hw_Free ds h = Some h' /\ ring_ok sp h' /\ hw_free h' = hw_free h ++ fr ds /\ hw_flight h' ≡ₚ hw_flight h /\ hw_rejected h' = hw_rejected h.
Proof using Hsp.
  intros H Hs Hn. destruct Hsp as [Hl L1 L2 Hin]. rewrite <- (kf_same sp) in * by done.
  destruct (dFree_spec (rs_g sp) (inv (rs_g sp)) rva rlen (rs_k sp) owned ds (h_tx h) (h_drv h) (h_ret h) (hw_flight h) (rk_tx _ _ H) (rk_inv _ _ H) Hs Hn) as (t & E & F1 & F2 & F3 & F4 & F5 & F6).
  unfold hw_Free. rewrite E. cbn [mbind option_bind]. eexists. split; [done|]. destruct (ring_ok_after sp h (hw_with t h) _ H F1 F2 F5 F6) as [H' Hf]; [|done]. unfold hw_rejected. simpl. rewrite F4. apply H.
Qed.

(** [Owns] is exact: the address is in a frame of this ring. *)
Lemma Owns_iff h d : ring_ok sp h -> 0 <= Addr d < 2 ^ 64 -> d_Owns (x_base (h_tx h)) (Addr d) = true <-> frame_at (rs_g sp) d ∈ all_frames (rs_g sp).
Proof using Hsp.
  intros H Ha. destruct Hsp as [Hl L1 L2 Hin]. pose proof (to_base _ _ _ _ _ _ _ _ _ (rk_tx _ _ H)) as Hb. destruct (rk_range _ _ H) as [R1 R2].
  pose proof (fp_geo (g := rs_g sp) (inv := inv (rs_g sp))) as Hg. rewrite elem_all_frames by done. destruct Hg as (G1 & G2 & G3 & G4).
  destruct (bo_region _ _ _ _ Hb) as (_ & _ & Hr). pose proof (fsize_16 _ _ _ _ Hb) as Hfs.
  assert (g_first (rs_g sp) + g_count (rs_g sp) < 2 ^ 62) by nia. assert (0 <= g_first (rs_g sp) * fsize (rs_g sp)) by nia. assert (0 <= g_count (rs_g sp) * fsize (rs_g sp)) by nia.
  unfold d_Owns. rewrite R1, R2, (bo_size _ _ _ _ Hb). rewrite (u64_small (fsize _)), (u64_small (g_first _)), (u64_small (g_count _)) by lia.
  rewrite (u64_small (g_first _ * _)) by lia. rewrite u64_small by lia. unfold frame, frame_at. set (a := Addr d) in *. set (f := fsize (rs_g sp)) in *.
  pose proof (Z.mod_pos_bound a f ltac:(lia)). pose proof (Z.div_mod a f ltac:(lia)) as E. rewrite andb_true_iff, Z.geb_leb, Z.leb_le, Z.ltb_lt.
  assert (a - a mod f = a / f * f) by lia. split.
  - intros [X1 X2]. split; [|replace (a - a mod f) with (a / f * f) by lia; apply Z.mod_mul; lia]. assert (g_first (rs_g sp) <= a / f) by (apply Z.div_le_lower_bound; lia).
    assert (a / f < g_first (rs_g sp) + g_count (rs_g sp)) by (apply Z.div_lt_upper_bound; lia). nia.
  - intros [[X1 X2] _]. split; [lia|]. assert (a / f < g_first (rs_g sp) + g_count (rs_g sp)) by nia. nia.
Qed.

(** ** SendFunc *)

Lemma ring_frames_own h : ring_ok sp h -> own_flight sp h -> hw_frames h ⊆ all_frames (rs_g sp).
Proof using Hsp.
  intros H Ho. destruct Hsp as [_ L1 _ _]. intros a. unfold hw_frames. rewrite elem_of_app. intros [Ha|Ha]; [by apply (fp_sub _ (rk_inv _ _ H))|by apply Ho].
Qed.

Context {St : Type} (build : Z -> list Z -> St -> Z * list Z * St).
(** A callback writes in the frame it is given, not past it, and bytes. *)
Context (Hbuild : forall i f s, zlen (snd (fst (build i f s))) = zlen f).
Context (Hbytes : forall i f s, bytes_ok f -> bytes_ok (snd (fst (build i f s)))).

(** The region of this backend as one of mlx5. *)
Definition region_view (l : Layout) (b : list Z) : Mlx5Region.region := mkRegion b (l_FrameSize l) (l_FrameSize l - 1) 0 false.

Lemma dr_Writable_view l b d : 0 < l_FrameSize l < 2 ^ 64 -> dr_Writable l b d = Writable (region_view l b) d.
Proof using.
  clear. intros Hl. unfold dr_Writable, Writable, dr_end, frameEnd, FrameOf. simpl. rewrite (u64_small (l_FrameSize l - 1)) by lia.
  by replace (Addr d &^ (l_FrameSize l - 1) + (l_FrameSize l - 1) + 1) with (Addr d &^ (l_FrameSize l - 1) + l_FrameSize l) by lia.
Qed.

Lemma q_build_view l ds : 0 < l_FrameSize l < 2 ^ 64 -> forall i b s acc,
  build_loop build i ds (region_view l b) s acc = ('(r, b', s') ← q_build build l i ds b s acc; Some (r, region_view l b', s')).
Proof using.
  clear. intros Hl. induction ds as [|d ds IH]; intros i b s acc; cbn [build_loop q_build]; [done|]. rewrite dr_Writable_view by done.
  destruct (Writable (region_view l b) d) as [f|]; cbn [mbind option_bind]; [|done]. destruct (build i (default [] f) s) as [[n fb] s1].
  case_if; [by destruct f|]. case_if; [by destruct f|]. rewrite <- IH. by destruct f.
Qed.

Lemma q_build_bytes l ds : forall i b s acc r b' s', bytes_ok b -> q_build build l i ds b s acc = Some (r, b', s') -> bytes_ok b'.
Proof using Hbytes.
  clear - Hbytes. induction ds as [|d ds IH]; intros i b s acc r b' s' Hb; cbn [q_build]; [by intros [= _ <- _]|].
  destruct (dr_Writable l b d) as [f|] eqn:Ew; cbn [mbind option_bind]; [|done].
  assert (Hf : bytes_ok (default [] f)).
  { destruct f as [f|]; [|constructor]. unfold dr_Writable in Ew. case_if_in Ew; [done|]. destruct (slice _ _ b) as [x|] eqn:Es; cbn [mbind option_bind] in Ew; [|done].
    injection Ew as <-. unfold slice in Es. case_if_in Es; [|done]. injection Es as <-. by apply Forall_take, Forall_drop. }
  pose proof (Hbytes i _ s Hf) as Hb1. destruct (build i (default [] f) s) as [[n fb] s1]. simpl in Hb1.
  assert (Hb2 : bytes_ok (match f with Some _ => blit (Addr d) fb b | None => b end)).
  { destruct f; [|done]. unfold blit, bytes_ok. rewrite !Forall_app. split_and!; [by apply Forall_take|done|by apply Forall_drop]. }
  case_if; [by intros [= _ <- _]|]. case_if; [by intros [= _ <- _]|]. by apply IH.
Qed.

(** What [SendFunc] does on a ring, for a caller: everything the driver has
    finished with comes back first, as [Complete] would have it; as many frames
    as asked for, as the ring has room for and as are free are offered to the
    callback; and the driver has then what it had left and the packets
    reported, the first of those the callback built.  A callback that
    miscounts sends nothing. *)
Definition hw_cycle count h region (s : St) (r : res Z) (s' : St) h' : Prop :=
  exists n1 region1 h1 back lost left addrs ps e region2,
    hw_Complete (count + dNumInFlight (h_tx h)) region h = Some (n1, region1, h1) /\ hw_free h1 = hw_free h ++ back /\
    hw_flight h ≡ₚ back ++ lost ++ hw_flight h1 /\ hw_free h1 = left ++ addrs /\
    zlen addrs = Z.max 0 (Z.min count (Z.min (dNumFreeSlots (h_tx h1)) (zlen (hw_free h1)))) /\
    calls (rs_g sp) build 0 region1 s (map (fun a => a + d_dataStart (x_base (h_tx h))) addrs) ps e region2 s' /\
    match r with
    | Ok n => e <> Miscounted /\ 0 <= n <= zlen ps /\ hw_flight h' ≡ₚ hw_flight h1 ++ fr (take (Z.to_nat n) ps)
    | Err er => e = Miscounted /\ errors_is ErrBadLength er = true /\ hw_flight h' ≡ₚ hw_flight h1
    end.

(** What a cycle leaves: the ring's frames are the same, but for those of
    others that came back. *)
Record hw_sent count h region (s : St) (r : res Z) region' (s' : St) h' : Prop := {
  hs_ok : ring_ok sp h';
  hs_mem : mem_ok rlen region';
  hs_lost : exists lost, hw_frames h ≡ₚ hw_frames h' ++ lost /\ hw_rejected h' = u64 (hw_rejected h + zlen lost) /\
    Forall (fun a => a ∉ all_frames (rs_g sp)) lost /\ (own_flight sp h -> lost = [] /\ own_flight sp h' /\ hw_rejected h' = hw_rejected h);
  hs_cycle : cl = false -> hw_cycle count h region s r s' h'
}.

(** Giving back what was held. *)
Lemma hw_give_back T ds held h : ring_ok sp h -> NoDup T -> fr ds ⊆ all_frames (rs_g sp) -> T ≡ₚ hw_frames h ++ fr ds ++ held ->
  exists h', hw_Free ds h = Some h' /\ ring_ok sp h' /\ T ≡ₚ hw_frames h' ++ held /\ hw_flight h' ≡ₚ hw_flight h /\ hw_rejected h' = hw_rejected h.
Proof using Hsp.
  intros H Hn Hs HT. destruct (hw_Free_spec ds h H) as (h' & E & H1 & H2 & H3 & H4); [done|..].
  - rewrite HT in Hn. unfold hw_frames in Hn. rewrite <- app_assoc in Hn. apply NoDup_without in Hn. rewrite app_assoc in Hn. by eapply NoDup_app_l.
  - exists h'. split; [done|]. split; [done|]. split; [|done]. rewrite HT. unfold hw_frames. rewrite H2, H3. solve_Permutation.
Qed.

(** The part of the cycle after the frames are built. *)
Lemma hw_send_built T h region ds built (s : St) : ring_ok sp h -> mem_ok rlen region -> NoDup T -> fr ds ⊆ all_frames (rs_g sp) ->
  T ≡ₚ hw_frames h ++ fr ds -> (length built <= length ds)%nat -> fr built = fr (take (length built) ds) -> Forall desc_ok built ->
  exists n region' h', (h ← (if zlen built <? zlen ds then hw_Free (drop (length built) ds) h else Some h);
     '(sent, region, h) ← hw_Transmit built region h;
     h ← (if sent <? zlen built then rest ← slice sent (zlen built) built; hw_Free rest h else Some h);
     Some (Ok sent, region, s, h)) = Some (Ok n, region', s, h') /\ ring_ok sp h' /\ mem_ok rlen region' /\ T ≡ₚ hw_frames h' /\
     0 <= n <= zlen built /\ hw_flight h' ≡ₚ hw_flight h ++ fr (take (Z.to_nat n) built) /\ hw_rejected h' = hw_rejected h.
Proof using Hsp.
  intros H Hm Hn Hs HT Hlen Hfr Hds. assert (Hsplit : fr ds ≡ₚ fr (drop (length built) ds) ++ fr built) by (rewrite Hfr, <- (take_drop (length built) ds) at 1; rewrite map_app; solve_Permutation).
  assert (Hs1 : fr (drop (length built) ds) ⊆ all_frames (rs_g sp) /\ fr built ⊆ all_frames (rs_g sp)) by (split; intros a Ha; apply Hs; rewrite Hsplit, elem_of_app; auto).
  destruct Hs1 as [Hs1 Hs2].
  assert (H1 : exists h1, (if zlen built <? zlen ds then hw_Free (drop (length built) ds) h else Some h) = Some h1 /\ ring_ok sp h1 /\ T ≡ₚ hw_frames h1 ++ fr built /\ hw_flight h1 ≡ₚ hw_flight h /\ hw_rejected h1 = hw_rejected h).
  { case_if; [apply (hw_give_back T); try done; by rewrite HT, Hsplit|]. exists h. split_and!; try done. rewrite HT, Hsplit, drop_ge by (unfold zlen in *; lia). done. }
  destruct H1 as (h1 & -> & H1 & HT1 & Hf1 & Hr1). cbn [mbind option_bind].
  assert (Hnb : NoDup (fr built)) by (rewrite HT1 in Hn; by eapply NoDup_app_r).
  destruct (hw_Transmit_spec built region h1 H1 Hm Hds Hnb) as (n & region' & h2 & -> & Hc & H2 & Hm2 & F1 & F2 & F3). cbn [mbind option_bind].
  assert (HT2 : T ≡ₚ hw_frames h2 ++ fr (drop (Z.to_nat n) built) ++ []).
  { rewrite HT1. unfold hw_frames. rewrite F1, F2. rewrite <- (take_drop (Z.to_nat n) built) at 1. rewrite map_app. solve_Permutation. }
  destruct (Z.ltb_spec n (zlen built)).
  - rewrite slice_Some by lia. cbn [mbind option_bind]. rewrite firstn_all2 by (unfold zlen in *; rewrite length_drop; lia).
    destruct (hw_give_back T (drop (Z.to_nat n) built) [] h2 H2 Hn) as (h3 & -> & H3 & HT3 & Hf3 & Hr3); [|done|].
    { intros a Ha. apply Hs2. rewrite <- (take_drop (Z.to_nat n) built), map_app, elem_of_app. by right. }
    cbn [mbind option_bind]. rewrite app_nil_r in HT3. do 3 eexists. split; [done|]. split_and!; try done; try lia; try congruence. by rewrite Hf3, F2, Hf1.
  - cbn [mbind option_bind]. rewrite drop_ge in HT2 by (unfold zlen in *; lia). simpl in HT2. rewrite app_nil_r in HT2. do 3 eexists. split; [done|]. split_and!; try done; try lia; try congruence. by rewrite F2, Hf1.
Qed.

Lemma hw_Send_spec l count region s h : ring_ok sp h -> mem_ok rlen region -> NoDup (hw_frames h) -> l_FrameSize l = fsize (rs_g sp) ->
  exists r region' s' h', hw_Send build l count region s h = Some (r, region', s', h') /\ hw_sent count h region s r region' s' h'.
Proof using All.
  intros H Hm Hn Hl. pose proof (to_base _ _ _ _ _ _ _ _ _ (rk_tx _ _ H)) as Hb. pose proof (fsize_16 _ _ _ _ Hb) as Hfs.
  destruct (bo_region _ _ _ _ Hb) as (_ & Hrm & Hrl). unfold hw_Send.
  destruct (hw_Complete_spec (count + dNumInFlight (h_tx h)) region h H Hm Hn) as (nc & region1 & h1 & back & lost & EC & H1 & Hm1 & _ & T1 & M1 & J1 & HL & Hst). rewrite EC. cbn [mbind option_bind].
  pose proof (complete_frames h h1 back lost T1 M1) as HF1.
  destruct (hw_alloc count h1 H1) as (addrs & t & -> & H2 & T2 & M2 & J2 & Hreg & Hfa & Hcnt). rewrite Hst in *. cbn [mbind option_bind]. set (h2 := hw_with t h1) in *.
  set (ds := map (fun a => mkDesc (a + d_dataStart (x_base (h_tx h))) 0 0) addrs) in *.
  assert (Ha : addrs ⊆ all_frames (rs_g sp)) by (intros a Ha; apply (fp_sub (FramePoolLaws := sp_laws _ Hsp) _ (rk_inv _ _ H1)); change (a ∈ hw_free h1); rewrite T2, elem_of_app; by right).
  assert (HT : hw_frames h ≡ₚ (hw_frames h2 ++ lost) ++ addrs) by (rewrite HF1; unfold hw_frames; rewrite T2, M2; solve_Permutation).
  assert (Hdone : forall r region' s' h' region2 ps e, ring_ok sp h' -> mem_ok rlen region' -> hw_frames h ≡ₚ hw_frames h' ++ lost -> hw_rejected h' = hw_rejected h2 ->
    calls (rs_g sp) build 0 region1 s (map (fun a => a + d_dataStart (x_base (h_tx h))) addrs) ps e region2 s' ->
    match r with
    | Ok n => e <> Miscounted /\ 0 <= n <= zlen ps /\ hw_flight h' ≡ₚ hw_flight h1 ++ fr (take (Z.to_nat n) ps)
    | Err er => e = Miscounted /\ errors_is ErrBadLength er = true /\ hw_flight h' ≡ₚ hw_flight h1
    end -> hw_sent count h region s r region' s' h').
  { intros r region' s' h' region2 ps e K1 K2 K3 K4 K5 K6. split; try done.
    - exists lost. rewrite K4, J2. split_and!; try done. intros Ho. destruct (own_complete h h1 back lost H Ho M1 HL J1) as (E1 & _ & E3).
      split_and!; try done. intros a Hin. assert (Hall : a ∈ hw_frames h) by (rewrite K3; unfold hw_frames; rewrite !elem_of_app; auto).
      unfold hw_frames in Hall. apply elem_of_app in Hall as [Hall|Hall]; [by apply (fp_sub (FramePoolLaws := sp_laws _ Hsp) _ (rk_inv _ _ H))|by apply Ho].
    - intros Hcl. exists nc, region1, h1, back, lost, (hw_free h2), addrs, ps, e, region2. split_and!; try done. by apply Hcnt. }
  destruct ds as [|d0 ds0] eqn:Eds.
  { apply map_eq_nil in Eds. subst addrs. do 4 eexists. split; [done|]. rewrite app_nil_r in HT. apply (Hdone (Ok 0) region1 s h2 region1 [] Filled); try done; [constructor|].
    split; [done|]. split; [done|]. by rewrite take_nil, app_nil_r. }
  rewrite <- Eds in *. assert (Hds : Forall (fun d => 0 <= Addr d < rlen /\ Options d = 0) ds).
  { apply Forall_map. eapply Forall_impl; [exact Hreg|]. intros a Hf. simpl. rewrite <- Hst. by destruct (start_in _ _ _ _ a (to_base _ _ _ _ _ _ _ _ _ (rk_tx _ _ H1)) Hf) as (_ & ? & _). }
  clear Eds d0 ds0. destruct (bo_log _ _ _ _ Hb) as [Hlog0 Hlog16].
  assert (Hrg0 : region_ok (g_log (rs_g sp)) (region_view l region1)).
  { destruct Hm1 as [Hz1 _]. unfold region_ok, region_view. simpl. rewrite Hl, Hz1. unfold fsize in *. split_and!; (done || lia). }
  assert (Hlb : g_log (rs_g sp) <= 31) by lia.
  destruct (build_loop_spec (rs_g sp) rlen Hlb build Hbuild ds 0 (region_view l region1) s [] Hrg0 (proj1 Hm1)) as (r & rg & s' & E & Hrg & Hz & Hres).
  { eapply Forall_impl; [exact Hds|]. intros d [? ?]. split; [lia|done]. }
  assert (Hcalls : exists ps e, calls (rs_g sp) build 0 region1 s (map (fun a => a + d_dataStart (x_base (h_tx h))) addrs) ps e (rg_b rg) s' /\
    match r with Ok built => built = ps /\ e <> Miscounted | Err _ => e = Miscounted end).
  { replace ds with (map (fun a => mkDesc a 0 0) (map (fun a => a + d_dataStart (x_base (h_tx h))) addrs)) in E by (unfold ds; by rewrite map_map).
    apply (build_loop_calls (rs_g sp) rlen Hlb build Hbuild) in E as (ps & e & Hca & Hr); [by exists ps, e| |done|apply Hm1].
    apply Forall_map. apply Forall_map in Hds. eapply Forall_impl; [exact Hds|]. by intros a [? _]. }
  rewrite q_build_view in E by lia. destruct (q_build build l 0 ds region1 s []) as [[[r0 region2] s2]|] eqn:Eb; cbn [mbind option_bind] in E; [|done]. injection E as -> <- ->.
  destruct Hcalls as (ps & e & Hca & Hr). simpl rg_b in Hca. cbn [mbind option_bind]. simpl in Hz.
  assert (Hm2 : mem_ok rlen region2) by (split; [done|]; eapply q_build_bytes; [exact (proj2 Hm1)|exact Eb]).
  assert (HNT : NoDup (hw_frames h2 ++ addrs)).
  { rewrite HT in Hn. assert (Hp : (hw_frames h2 ++ lost) ++ addrs ≡ₚ lost ++ hw_frames h2 ++ addrs) by solve_Permutation. rewrite Hp in Hn. by eapply NoDup_app_r. }
  destruct r as [built|er].
  - destruct Hr as [<- He]. destruct Hres as (k & new & Hk & Enew & HF). rewrite app_nil_l in Enew. subst new. destruct (built_addrs (rs_g sp) rlen _ _ HF) as (_ & Hfr & Hok & Hlb2). rewrite length_take in Hlb2.
    replace k with (length built) in Hfr by lia. rewrite !kf_same in Hfr by apply Hsp.
    destruct (hw_send_built (hw_frames h2 ++ addrs) h2 region2 ds built s' H2 Hm2 HNT) as (n & region3 & h3 & -> & H3 & Hm3 & T3 & Hc3 & M3 & J3); [by rewrite <- Hfa|by rewrite <- Hfa|lia|done|done|].
    do 4 eexists. split; [done|]. apply (Hdone (Ok n) region3 s' h3 region2 built e); try done; [rewrite HT, <- T3; solve_Permutation|]. by rewrite M3, M2.
  - subst e. destruct (hw_give_back (hw_frames h2 ++ addrs) ds [] h2 H2 HNT) as (h3 & -> & H3 & T3 & M3 & J3); [by rewrite <- Hfa|by rewrite <- Hfa, app_nil_r|]. cbn [mbind option_bind]. rewrite app_nil_r in T3.
    do 4 eexists. split; [done|]. apply (Hdone (Err er) region2 s' h3 region2 ps Miscounted); try done; [rewrite HT, <- T3; solve_Permutation|]. by rewrite M3, M2.
Qed.
End ring.

(** ** All the rings of a queue *)

Context (specs : list ringspec) (Hspecs : Forall spec_ok specs).
Implicit Types (hs : list (hwring P D)) (q : QTx P D).

Definition rings_frames hs : list Z := hs ≫= hw_frames.

Record qtx_ok q : Prop := { qk_rings : Forall2 ring_ok specs (q_qs q); qk_next : (q_next q < length specs)%nat; qk_closed : q_closed q = cl }.

(** No driver has a frame of another ring or of a receive queue. *)
Definition qtx_own q : Prop := Forall2 own_flight specs (q_qs q).

Lemma rings_split hs i h : hs !! i = Some h ->
  exists rest, rings_frames hs ≡ₚ hw_frames h ++ rest /\ forall h', rings_frames (<[i := h']> hs) ≡ₚ hw_frames h' ++ rest.
Proof using.
  intros Hi. exists (rings_frames (take i hs) ++ rings_frames (drop (S i) hs)). pose proof (lookup_lt_Some _ _ _ Hi). unfold rings_frames. split.
  - rewrite <- (take_drop_middle _ _ _ Hi) at 1. rewrite bind_app, bind_cons. solve_Permutation.
  - intros h'. rewrite insert_take_drop by done. rewrite bind_app, bind_cons. solve_Permutation.
Qed.

(** What each free list has refused. *)
Definition rejected_by hs : list Z := map hw_rejected hs.

Lemma rejected_insert hs i h h' : hs !! i = Some h -> hw_rejected h' = hw_rejected h -> rejected_by (<[i := h']> hs) = rejected_by hs.
Proof using. clear. intros Hi E. unfold rejected_by. rewrite list_fmap_insert, E. apply list_insert_id. by rewrite list_lookup_fmap, Hi. Qed.

Lemma zsum_insert (l : list Z) x y : forall i, l !! i = Some x -> zsum (<[i := y]> l) = zsum l - x + y.
Proof using. clear. induction l as [|z l IH]; intros [|i] Hi; try done; simpl in *; [injection Hi as ->; lia|]. rewrite (IH i Hi). lia. Qed.

Lemma rejected_grow hs i h h' d : hs !! i = Some h -> hw_rejected h' = u64 (hw_rejected h + d) ->
  u64 (zsum (rejected_by (<[i := h']> hs))) = u64 (zsum (rejected_by hs) + d).
Proof using.
  clear. intros Hi E. unfold rejected_by. rewrite list_fmap_insert, (zsum_insert _ (hw_rejected h)) by (by rewrite list_lookup_fmap, Hi).
  rewrite E. unfold u64. rewrite Zplus_mod_idemp_r. change (hw_rejected <$> hs) with (map hw_rejected hs). f_equal. lia.
Qed.

Lemma ring_at q i : qtx_ok q -> (i < length specs)%nat -> exists sp h, specs !! i = Some sp /\ q_qs q !! i = Some h /\ spec_ok sp /\ ring_ok sp h.
Proof using Hspecs.
  intros [Hr _] Hi. destruct (lookup_lt_is_Some_2 specs i Hi) as [sp Esp]. destruct (Forall2_lookup_l _ _ _ _ _ Hr Esp) as (h & Eh & Hh).
  exists sp, h. split_and!; try done. by apply (Forall_lookup_1 _ _ _ _ Hspecs Esp).
Qed.

Lemma q_set_ok q i sp h' : qtx_ok q -> specs !! i = Some sp -> ring_ok sp h' -> qtx_ok (q_set i h' q).
Proof using.
  intros [Hr Hn Hcl] Hi Hh. split; [|done|done]. simpl. rewrite <- (list_insert_id specs i sp Hi). by apply Forall2_insert.
Qed.

Lemma q_set_own q i sp h' : qtx_own q -> specs !! i = Some sp -> own_flight sp h' -> qtx_own (q_set i h' q).
Proof using.
  intros Hr Hi Hh. unfold qtx_own. simpl. rewrite <- (list_insert_id specs i sp Hi). by apply Forall2_insert.
Qed.

Lemma q_pinned_ok pin q : qtx_ok q -> qtx_ok (q_pinned pin q).
Proof using. by intros [H1 H2 H3]. Qed.

Lemma q_advance_ok q : qtx_ok q -> qtx_ok (q_advance q).
Proof using.
  intros [H1 H2 H3]. split; [done| |done]. simpl. pose proof (Forall2_length _ _ _ H1). case_decide; lia.
Qed.

Lemma q_Alloc_spec pin n q : qtx_ok q -> exists ds q', q_Alloc pin n q = Some (ds, q') /\ qtx_ok q' /\ rings_frames (q_qs q) ≡ₚ rings_frames (q_qs q') ++ fr ds /\
  rejected_by (q_qs q') = rejected_by (q_qs q).
Proof using Hspecs.
  intros Hq. unfold q_Alloc. case_if. { do 2 eexists. split; [done|]. split; [done|]. split; [by rewrite app_nil_r|done]. }
  cbv zeta. change (q_next (q_pinned pin q)) with (q_next q). change (q_qs (q_pinned pin q)) with (q_qs q).
  destruct (ring_at q (q_next q) Hq (qk_next _ Hq)) as (sp & h & Esp & Eh & Hsp & Hh). rewrite Eh. cbn [mbind option_bind].
  destruct (hw_alloc_frames sp Hsp n h Hh) as (ds & t & -> & H1 & H2 & _ & H3). cbn [mbind option_bind]. do 2 eexists. split; [done|].
  split; [by eapply q_set_ok; [apply q_pinned_ok|..]|]. destruct (rings_split _ _ _ Eh) as (rest & R1 & R2). simpl. split; [rewrite R1, R2, H2; solve_Permutation|].
  by eapply rejected_insert.
Qed.

(** What the two transmits share. *)
Lemma q_transmit_gen ds offs region q : qtx_ok q -> mem_ok rlen region -> Forall desc_ok ds -> NoDup (fr ds) -> (forall l, offs = Some l -> length l = length ds) ->
  exists h n e t dr w, q_qs q !! q_next q = Some h /\ d_transmit ds offs (h_tx h) (h_drv h) (hw_world region h) = Some (n, e, t, dr, w) /\ 0 <= n <= zlen ds /\
    mem_ok rlen (w_region w) /\ forall q', q_qs q' = q_qs q -> q_next q' = q_next q -> q_closed q' = q_closed q ->
      let q2 := q_advance (q_set (q_next q) (mkHw t dr (w_returned w)) q') in qtx_ok q2 /\ rings_frames (q_qs q2) ≡ₚ rings_frames (q_qs q) ++ fr (take (Z.to_nat n) ds) /\
        rejected_by (q_qs q2) = rejected_by (q_qs q).
Proof using Hspecs.
  intros Hq Hm Hds Hnd Hoffs. destruct (ring_at q (q_next q) Hq (qk_next _ Hq)) as (sp & h & Esp & Eh & Hsp & Hh).
  destruct (hw_transmit_gen sp Hsp ds offs region h Hh Hm Hds Hnd Hoffs) as (n & e & t & dr & w & E & Hn & H1 & H2 & H3 & H4 & H5).
  exists h, n, e, t, dr, w. split_and!; try done; try lia. intros q' Eq Enx Ecl. cbv zeta. split; [|split].
  - apply q_advance_ok. eapply q_set_ok; [|exact Esp|exact H1]. destruct Hq. by split; rewrite ?Eq, ?Enx, ?Ecl.
  - simpl. rewrite Eq. destruct (rings_split _ _ _ Eh) as (rest & R1 & R2). rewrite R1, R2. unfold hw_frames. rewrite H3, H4. solve_Permutation.
  - simpl. rewrite Eq. by eapply rejected_insert.
Qed.

Lemma q_Transmit_spec pin ds region q : qtx_ok q -> mem_ok rlen region -> Forall desc_ok ds -> NoDup (fr ds) ->
  exists n region' q', q_Transmit pin ds region q = Some (n, region', q') /\ 0 <= n <= zlen ds /\ qtx_ok q' /\ mem_ok rlen region' /\
    rings_frames (q_qs q') ≡ₚ rings_frames (q_qs q) ++ fr (take (Z.to_nat n) ds) /\ rejected_by (q_qs q') = rejected_by (q_qs q).
Proof using Hspecs.
  intros Hq Hm Hds Hnd. unfold q_Transmit. pose proof (zlen_nonneg ds). case_if. { do 3 eexists. split; [done|]. rewrite app_nil_r. split_and!; (done || lia). }
  cbv zeta. change (q_next (q_pinned pin q)) with (q_next q). change (q_qs (q_pinned pin q)) with (q_qs q).
  destruct (q_transmit_gen ds None region q Hq Hm Hds Hnd ltac:(done)) as (h & n & e & t & dr & w & -> & E0 & Hn & Hm' & Hall). cbn [mbind option_bind].
  unfold hw_Transmit, dTransmit. rewrite E0. cbn [mbind option_bind]. destruct (Hall (q_pinned pin q) eq_refl eq_refl eq_refl) as (A1 & A2 & A3). do 3 eexists. split; [done|]. done.
Qed.

Lemma q_TransmitOffload_spec csum ds offs region q : qtx_ok q -> mem_ok rlen region -> Forall desc_ok ds -> NoDup (fr ds) ->
  exists n e region' q', q_TransmitOffload csum ds offs region q = Some (n, e, region', q') /\ 0 <= n <= zlen ds /\ qtx_ok q' /\ mem_ok rlen region' /\
    rings_frames (q_qs q') ≡ₚ rings_frames (q_qs q) ++ fr (take (Z.to_nat n) ds) /\ rejected_by (q_qs q') = rejected_by (q_qs q).
Proof using Hspecs.
  intros Hq Hm Hds Hnd. unfold q_TransmitOffload. pose proof (zlen_nonneg ds).
  assert (Hnone : forall e : option error, exists n e' region' q', Some (0, e, region, q) = Some (n, e', region', q') /\ 0 <= n <= zlen ds /\ qtx_ok q' /\ mem_ok rlen region' /\
    rings_frames (q_qs q') ≡ₚ rings_frames (q_qs q) ++ fr (take (Z.to_nat n) ds) /\ rejected_by (q_qs q') = rejected_by (q_qs q)).
  { intros e. do 4 eexists. split; [done|]. rewrite app_nil_r. split_and!; (done || lia). }
  case_if; [apply Hnone|]. case_if; [apply Hnone|]. unfold dTransmitOffload. destruct (ring_at q (q_next q) Hq (qk_next _ Hq)) as (sp & h & Esp & Eh & Hsp & Hh).
  case_if.
  - rewrite Eh. cbn [mbind option_bind]. do 4 eexists. split; [done|]. rewrite app_nil_r. split; [lia|]. split; [|split; [done|split]].
    + apply q_advance_ok. eapply q_set_ok; [done|exact Esp|]. by destruct h.
    + simpl. by rewrite list_insert_id by (by destruct h).
    + simpl. by eapply rejected_insert.
  - destruct (q_transmit_gen ds (Some offs) region q Hq Hm Hds Hnd) as (h2 & n & e & t & dr & w & -> & E2 & Hn & Hm' & Hall).
    { intros l [= <-]. to_prop. unfold zlen in *. lia. }
    cbn [mbind option_bind]. rewrite E2. cbn [mbind option_bind]. destruct (Hall q eq_refl eq_refl eq_refl) as (A1 & A2 & A3). do 4 eexists. split; [done|]. done.
Qed.

(** ** Complete and Reclaim, ring by ring *)

Lemma fan_complete_rings_spec sps : Forall spec_ok sps -> forall max total region hs,
  Forall2 ring_ok sps hs -> mem_ok rlen region -> NoDup (rings_frames hs) ->
  exists n region' hs' lost, q_complete_rings max total region hs = Some (n, region', hs') /\ Forall2 ring_ok sps hs' /\ mem_ok rlen region' /\
    rings_frames hs ≡ₚ rings_frames hs' ++ lost /\ u64 (zsum (rejected_by hs')) = u64 (zsum (rejected_by hs) + zlen lost) /\
    (Forall2 own_flight sps hs -> lost = [] /\ Forall2 own_flight sps hs' /\ rejected_by hs' = rejected_by hs).
Proof using.
  clear. intros Hsps. induction Hsps as [|sp sps Hsp _ IH]; intros max total region hs Hr Hm Hn.
  { apply Forall2_nil_inv_l in Hr as ->. exists total, region, [], []. split_and!; try done; constructor. }
  apply Forall2_cons_inv_l in Hr as (h & hs1 & Hh & Hrest & ->). cbn [q_complete_rings]. unfold rings_frames in *. rewrite bind_cons in Hn. case_if.
  { exists total, region, (h :: hs1), []. rewrite app_nil_r. change (zlen (@nil Z)) with 0. rewrite Z.add_0_r. split_and!; try done; by constructor. }
  destruct (hw_Complete_spec sp Hsp (max - total) region h Hh Hm (NoDup_app_l _ _ Hn)) as (n & region1 & h1 & back & lost & -> & H1 & H2 & _ & H3 & H4 & H5 & H6 & _). cbn [mbind option_bind].
  destruct (IH max (total + n) region1 hs1 Hrest H2 (NoDup_app_r _ _ Hn)) as (n2 & region2 & hs2 & lost2 & -> & I1 & I2 & I3 & I4 & I5). cbn [mbind option_bind].
  exists n2, region2, (h1 :: hs2), (lost ++ lost2). rewrite !bind_cons. split; [done|]. split; [by constructor|]. split; [done|]. split; [|split].
  - rewrite (complete_frames h h1 back lost H3 H4), I3. solve_Permutation.
  - cbn [rejected_by map zsum foldr]. rewrite H5, zlen_app. unfold zsum, rejected_by, u64 in *. rewrite Zplus_mod_idemp_l, <- Zplus_mod_idemp_r, I4, Zplus_mod_idemp_r. f_equal. lia.
  - intros Ho. apply Forall2_cons in Ho as [Ho1 Ho2]. destruct (own_complete sp h h1 back lost Hh Ho1 H4 H6 H5) as (-> & ? & E1). destruct (I5 Ho2) as (-> & ? & E2).
    split_and!; [done|by constructor|]. cbn [rejected_by map]. by f_equal.
Qed.

Lemma q_Complete_spec max region q : qtx_ok q -> mem_ok rlen region -> NoDup (rings_frames (q_qs q)) ->
  exists n region' q' lost, q_Complete max region q = Some (n, region', q') /\ qtx_ok q' /\ mem_ok rlen region' /\ rings_frames (q_qs q) ≡ₚ rings_frames (q_qs q') ++ lost /\
    u64 (zsum (rejected_by (q_qs q'))) = u64 (zsum (rejected_by (q_qs q)) + zlen lost) /\
    (qtx_own q -> lost = [] /\ qtx_own q' /\ rejected_by (q_qs q') = rejected_by (q_qs q)).
Proof using Hspecs.
  intros Hq Hm Hn. unfold q_Complete. case_if. { exists 0, region, q, []. rewrite app_nil_r. change (zlen (@nil Z)) with 0. by rewrite Z.add_0_r. }
  destruct (fan_complete_rings_spec specs Hspecs max 0 region (q_qs q) (qk_rings _ Hq) Hm Hn) as (n & region' & hs' & lost & -> & H1 & H2 & H3 & H4 & H5). cbn [mbind option_bind].
  do 4 eexists. split; [done|]. destruct Hq. by split_and!.
Qed.

Lemma fan_reclaim_rings_spec sps : Forall spec_ok sps -> forall max before out region hs, Forall2 ring_ok sps hs -> mem_ok rlen region ->
  exists new region' hs', q_reclaim_rings max before out region hs = Some (out ++ new, region', hs') /\ Forall2 ring_ok sps hs' /\ mem_ok rlen region' /\
    rings_frames hs ≡ₚ rings_frames hs' ++ fr new /\ zlen new <= Z.max 0 (max - (zlen out - before)) /\ rejected_by hs' = rejected_by hs.
Proof using.
  clear. intros Hsps. induction Hsps as [|sp sps Hsp _ IH]; intros max before out region hs Hr Hm.
  { apply Forall2_nil_inv_l in Hr as ->. exists [], region, []. rewrite app_nil_r. change (zlen (@nil Desc)) with 0. split; [done|]. split_and!; (done || constructor || lia). }
  apply Forall2_cons_inv_l in Hr as (h & hs1 & Hh & Hrest & ->). cbn [q_reclaim_rings]. unfold rings_frames in *. cbv zeta. case_if. { exists [], region, (h :: hs1). rewrite !app_nil_r. change (zlen (@nil Desc)) with 0. split; [done|]. split_and!; try done; [by constructor|lia]. }
  unfold dReclaim. destruct (hw_reclaim_gen sp Hsp (max - (zlen out - before)) region h Hh Hm) as (frames & t & dr & w & -> & Hb & H1 & H2 & H3 & H4). cbn [mbind option_bind].
  set (ds := map _ frames). assert (Hds : fr ds = frames).
  { unfold ds. rewrite <- (kf_same sp) by apply Hsp. apply (desc_frames (rs_g sp) rva rlen); [apply (to_base _ _ _ _ _ _ _ _ _ (rk_tx _ _ H1))|].
    pose proof (to_frames _ _ _ _ _ _ _ _ _ (rk_tx _ _ Hh)) as Hall. rewrite H3 in Hall. by apply Forall_app in Hall as [? _]. }
  assert (Hzd : zlen ds = zlen frames) by (unfold ds, zlen; by rewrite length_map).
  destruct (IH max before (out ++ ds) (w_region w) hs1 Hrest H2) as (new & region2 & hs2 & -> & I1 & I2 & I3 & I4 & I5). cbn [mbind option_bind].
  exists (ds ++ new), region2, (mkHw t dr (w_returned w) :: hs2). split; [by rewrite app_assoc|]. split; [by constructor|]. split; [done|]. split; [|split].
  - rewrite !bind_cons, I3, map_app, Hds. unfold hw_frames. rewrite H3. unfold hw_free. simpl. rewrite Hb. solve_Permutation.
  - pose proof (zlen_nonneg frames). rewrite !zlen_app in *. lia.
  - cbn [rejected_by map]. f_equal; [|done]. unfold hw_rejected. simpl. by rewrite Hb.
Qed.

Lemma q_Reclaim_spec max out region q : qtx_ok q -> mem_ok rlen region ->
  exists new region' q', q_Reclaim max out region q = Some (out ++ new, region', q') /\ qtx_ok q' /\ mem_ok rlen region' /\
    rings_frames (q_qs q) ≡ₚ rings_frames (q_qs q') ++ fr new /\ zlen new <= Z.max 0 max /\ rejected_by (q_qs q') = rejected_by (q_qs q).
Proof using Hspecs.
  intros Hq Hm. unfold q_Reclaim. case_if. { exists [], region, q. rewrite !app_nil_r. change (zlen (@nil Desc)) with 0. split; [done|]. split_and!; (done || lia). }
  destruct (fan_reclaim_rings_spec specs Hspecs max (zlen out) out region (q_qs q) (qk_rings _ Hq) Hm) as (new & region' & hs' & -> & H1 & H2 & H3 & H4 & H5). cbn [mbind option_bind].
  do 3 eexists. split; [done|]. destruct Hq. split_and!; try done. lia.
Qed.

(** ** Free: each frame to its owner *)

Definition all_of (sps : list ringspec) : list Z := sps ≫= fun sp => all_frames (rs_g sp).

Lemma owner_spec addr d sps : forall hs i, Forall spec_ok sps -> Forall2 ring_ok sps hs -> 0 <= Addr d < 2 ^ 64 -> Addr d = addr -> frame_at (mkGeo kf 0 0) d ∈ all_of sps ->
  exists j sp h, owner_from i addr hs = (i + j)%nat /\ sps !! j = Some sp /\ hs !! j = Some h /\ frame_at (mkGeo kf 0 0) d ∈ all_frames (rs_g sp).
Proof using.
  clear. induction sps as [|sp sps IH]; intros hs i Hsps Hr Hd Ea Hin; [by apply elem_of_nil in Hin|]. apply Forall_cons in Hsps as [Hsp Hsps]. apply Forall2_cons_inv_l in Hr as (h & hs1 & Hh & Hrest & ->).
  cbn [owner_from]. pose proof (Owns_iff sp Hsp h d Hh Hd) as Hiff. rewrite Ea in Hiff. pose proof (kf_same sp [d] (sp_log _ Hsp)) as Hk. injection Hk as Hk. rewrite Hk in Hiff.
  destruct (d_Owns (x_base (h_tx h)) addr).
  - exists 0%nat, sp, h. rewrite Nat.add_0_r. split_and!; try done. by apply Hiff.
  - unfold all_of in Hin. rewrite bind_cons, elem_of_app in Hin. destruct Hin as [Hin|Hin]; [by apply Hiff in Hin|].
    destruct (IH hs1 (S i) Hsps Hrest Hd Ea Hin) as (j & sp' & h' & E & E1 & E2 & E3). exists (S j), sp', h'. split; [lia|]. done.
Qed.

Lemma free_one_spec d hs : Forall2 ring_ok specs hs -> 0 <= Addr d < 2 ^ 64 -> frame_at (mkGeo kf 0 0) d ∈ all_of specs -> NoDup (rings_frames hs ++ fr [d]) ->
  exists hs', free_one d hs = Some hs' /\ Forall2 ring_ok specs hs' /\ rings_frames hs' ≡ₚ rings_frames hs ++ fr [d] /\ rejected_by hs' = rejected_by hs.
Proof using Hspecs.
  intros Hr Hd Hin Hn. destruct (owner_spec (Addr d) d specs hs 0 Hspecs Hr Hd eq_refl Hin) as (i & sp & h & Eo & Esp & Eh & Hown). rewrite Nat.add_0_l in Eo.
  destruct hs as [|h0 hs0] eqn:Ehs; [done|]. rewrite <- Ehs in *. assert (E0 : hs !! 0%nat = Some h0) by (by rewrite Ehs). clear Ehs. unfold free_one. rewrite E0, Eo, Eh. cbn [mbind option_bind].
  destruct (rings_split _ _ _ Eh) as (rest & R1 & R2). pose proof (Forall_lookup_1 _ _ _ _ Hspecs Esp) as Hsp. pose proof (Forall2_lookup_lr _ _ _ _ _ _ Hr Esp Eh) as Hh.
  destruct (hw_Free_spec sp Hsp [d] h Hh) as (h' & E & H1 & H2 & H3 & H4).
  { intros a. cbn [map]. rewrite list_elem_of_singleton. by intros ->. }
  { rewrite R1, <- app_assoc in Hn. apply NoDup_without in Hn. unfold hw_frames in Hn. rewrite <- app_assoc in Hn. by apply NoDup_without in Hn. }
  unfold hw_Free in E. destruct (dFree [d] (h_tx h)) as [t|]; cbn [mbind option_bind] in *; [|done]. injection E as <-. eexists. split; [done|].
  split; [rewrite <- (list_insert_id specs i sp Esp); by apply Forall2_insert|]. split.
  - rewrite R2, R1. unfold hw_frames. rewrite H2, H3. solve_Permutation.
  - by eapply rejected_insert.
Qed.

Lemma q_Free_spec ds q : qtx_ok q -> Forall (fun d => 0 <= Addr d < 2 ^ 64) ds -> fr ds ⊆ all_of specs -> NoDup (rings_frames (q_qs q) ++ fr ds) ->
  exists q', q_Free ds q = Some q' /\ qtx_ok q' /\ rings_frames (q_qs q') ≡ₚ rings_frames (q_qs q) ++ fr ds /\ rejected_by (q_qs q') = rejected_by (q_qs q).
Proof using Hspecs.
  intros [Hr Hnx] Hd Hs Hn. unfold q_Free.
  assert (G : exists hs', foldM (fun hs d => free_one d hs) ds (q_qs q) = Some hs' /\ Forall2 ring_ok specs hs' /\ rings_frames hs' ≡ₚ rings_frames (q_qs q) ++ fr ds /\ rejected_by hs' = rejected_by (q_qs q)).
  { clear Hnx. revert Hr Hn. generalize (q_qs q) as hs. induction Hd as [|d ds Hd _ IH]; intros hs Hr Hn; cbn [foldM].
    { exists hs. cbn [map]. by rewrite app_nil_r. }
    cbn [map] in Hs, Hn. destruct (free_one_spec d hs Hr Hd) as (hs1 & -> & H1 & H2 & H3); [apply Hs; by left| |].
    { change (frame_at (mkGeo kf 0 0) d :: fr ds) with ([frame_at (mkGeo kf 0 0) d] ++ fr ds) in Hn. rewrite app_assoc in Hn. by eapply NoDup_app_l. }
    cbn [mbind option_bind]. destruct (IH ltac:(set_solver) hs1 H1) as (hs2 & -> & I1 & I2 & I3); [by rewrite H2, <- app_assoc|]. exists hs2. rewrite I2, H2. cbn [map]. rewrite <- app_assoc.
    split_and!; try done. congruence. }
  destruct G as (hs' & -> & G1 & G2 & G3). cbn [mbind option_bind]. eexists. split; [done|]. by split_and!.
Qed.

(** ** SendFunc *)

Lemma q_SendFunc_spec {St} pin (build : Z -> list Z -> St -> Z * list Z * St) l count region s q :
  (forall i f s, zlen (snd (fst (build i f s))) = zlen f) -> (forall i f s, bytes_ok f -> bytes_ok (snd (fst (build i f s)))) ->
  qtx_ok q -> mem_ok rlen region -> NoDup (rings_frames (q_qs q)) -> l_FrameSize l = 2 ^ kf ->
  exists r region' s' q' lost, q_SendFunc pin build l count region s q = Some (r, region', s', q') /\ qtx_ok q' /\ mem_ok rlen region' /\
    rings_frames (q_qs q) ≡ₚ rings_frames (q_qs q') ++ lost /\ u64 (zsum (rejected_by (q_qs q'))) = u64 (zsum (rejected_by (q_qs q)) + zlen lost) /\
    (qtx_own q -> lost = [] /\ qtx_own q' /\ rejected_by (q_qs q') = rejected_by (q_qs q)) /\
    (q_closed q = true -> r = Err (Sentinel ErrClosed) /\ q' = q) /\
    (q_closed q = false -> exists sp h h', specs !! q_next q = Some sp /\ q_qs q !! q_next q = Some h /\ q_qs q' = <[q_next q := h']> (q_qs q) /\
       hw_sent sp build count h region s r region' s' h').
Proof using Hspecs.
  intros Hb1 Hb2 Hq Hm Hn Hl. unfold q_SendFunc. destruct (q_closed q) eqn:Ec.
  { do 4 eexists. exists []. rewrite app_nil_r. change (zlen (@nil Z)) with 0. rewrite Z.add_0_r. split; [done|]. by split_and!. }
  cbv zeta. change (q_next (q_pinned pin q)) with (q_next q). change (q_qs (q_pinned pin q)) with (q_qs q).
  destruct (ring_at q (q_next q) Hq (qk_next _ Hq)) as (sp & h & Esp & Eh & Hsp & Hh). rewrite Eh. cbn [mbind option_bind]. destruct (rings_split _ _ _ Eh) as (rest & R1 & R2).
  destruct (hw_Send_spec sp Hsp build Hb1 Hb2 l count region s h Hh Hm) as (r & region' & s' & h' & -> & HS).
  { rewrite R1 in Hn. by eapply NoDup_app_l. } { rewrite Hl. unfold fsize. by rewrite (sp_log _ Hsp). }
  cbn [mbind option_bind]. assert (HS' := HS). destruct HS as [S1 S2 (lost & S3 & S4 & S5 & S6) _]. do 4 eexists. exists lost. split; [done|]. split; [apply q_advance_ok; by eapply q_set_ok; [apply q_pinned_ok|..]|].
  split; [done|]. simpl. split; [rewrite R2, R1, S3; solve_Permutation|]. split; [by eapply rejected_grow|]. split; [|split; [done|intros _; by exists sp, h, h']].
  intros Ho. destruct (S6 (Forall2_lookup_lr _ _ _ _ _ _ Ho Esp Eh)) as (-> & So & Se). split; [done|]. split; [by eapply (q_set_own (q_pinned pin q))|by eapply rejected_insert].
Qed.
End rings.
