(* ===== verification/DpdkFanRx.v ===== *)
(** The receive queue of dpdk/queues.go: what each operation does to the
    frames, and in which order packets are handed out.

    DPDK cannot look at a queue without taking from it, so a poll keeps what it
    took.  [erun] and [prun] compare that with a queue with nothing in front of the
    driver: the same packets come out, in the same order, however it is polled. *)

From stdpp Require Import prelude list numbers strings.
From S2P Require Import Prelude Circ Bytes Desc Pool Mbuf Mlx5Region DpdkRing DpdkQueue DpdkBuild DpdkTxOps DpdkRxOps DpdkSystem DpdkFan.

Section rx.
Context {P : Type} `{!FramePool P} (g : geometry) (inv : P -> Prop) `{!FramePoolLaws P g inv}.
Context {D : Type} `{!PMD D} (rva rlen bufLen ks kr : Z) (held_by : D -> list Z) `{!RxDriver D rva rlen bufLen ks kr held_by}.
Context (Hin : (g_first g + g_count g) * fsize g <= rlen) (Hcap : g_count g <= 2 ^ kr).
Implicit Types (q : QRx P) (dr : D) (w : world).
Notation fr := (map (frame_at g)).

(** The frames the driver has, on a ring or in hand. *)
Definition e_out q dr w : list Z :=
  map (frame_back rva (y_base (e_q q))) (ring_list (w_supply w) ++ ring_list (w_returned w) ++ held_by dr).

(** The frames the queue answers for: free, stashed, or with the driver. *)
Definition e_frames q dr w : list Z := fp_free (d_pool (y_base (e_q q))) ++ fr (e_stash q) ++ e_out q dr w.

Record qrx_ok q dr w : Prop := {
  ek_rx : rx_ok g rva rlen ks kr held_by (e_q q) dr (w_supply w) (w_returned w) (e_out q dr w);
  ek_inv : inv (d_pool (y_base (e_q q)));
  ek_mem : mem_ok rlen (w_region w);
  ek_buf : bufLen = fsize g - d_bufStart (y_base (e_q q));
  ek_rejected : fp_rejected (d_pool (y_base (e_q q))) = 0
}.

Lemma rx_ok_perm (q : DRx P) dr sup ret out out' : out ≡ₚ out' -> rx_ok g rva rlen ks kr held_by q dr sup ret out -> rx_ok g rva rlen ks kr held_by q dr sup ret out'.
Proof using.
  clear. intros Hp [H1 H2 H3 H4 H5 (ls & lr & H6 & H7 & H8)]. assert (Hz : zlen out' = zlen out) by (unfold zlen; by rewrite Hp). split; rewrite ?Hz, <- ?Hp; try done.
  exists ls, lr. split_and!; try done. by rewrite H8, Hp.
Qed.

Lemma e_out_eq q dr w out : rx_ok g rva rlen ks kr held_by (e_q q) dr (w_supply w) (w_returned w) out -> e_out q dr w ≡ₚ out.
Proof using.
  clear. intros Hq. destruct (ro_rings _ _ _ _ _ _ _ _ _ _ _ Hq) as (ls & lr & Hfs & Hfr & Hl). unfold e_out. rewrite (fifo_list _ _ _ Hfs), (fifo_list _ _ _ Hfr), Hl.
  by rewrite frame_back_va.
Qed.

Lemma qrx_ok_after q q' dr dr' w w' out : qrx_ok q dr w -> rx_ok g rva rlen ks kr held_by (e_q q') dr' (w_supply w') (w_returned w') out ->
  inv (d_pool (y_base (e_q q'))) -> mem_ok rlen (w_region w') -> d_cfg (y_base (e_q q')) = d_cfg (y_base (e_q q)) ->
  fp_rejected (d_pool (y_base (e_q q'))) = fp_rejected (d_pool (y_base (e_q q))) -> qrx_ok q' dr' w' /\ e_out q' dr' w' ≡ₚ out.
Proof using.
  clear. intros [E1 E2 E3 E4 E5] Hq Hi Hm Hc Hr. pose proof (e_out_eq _ _ _ _ Hq) as Ho. split; [|done]. split; try done; [eapply rx_ok_perm; [symmetry; exact Ho|done]| |by rewrite Hr].
  rewrite (bo_buf _ _ _ _ (ro_base _ _ _ _ _ _ _ _ _ _ _ Hq)), Hc, <- (bo_buf _ _ _ _ (ro_base _ _ _ _ _ _ _ _ _ _ _ E1)). done.
Qed.

Section ops.
Context q dr w (Hq : qrx_ok q dr w) (Hs : e_frames q dr w ⊆ all_frames g) (Hn : NoDup (e_frames q dr w)).

Lemma e_parts : NoDup (fp_free (d_pool (y_base (e_q q))) ++ e_out q dr w) /\ e_out q dr w ⊆ all_frames g /\ zlen (e_out q dr w) <= 2 ^ kr.
Proof using All.
  unfold e_frames in *. assert (H1 : NoDup (fp_free (d_pool (y_base (e_q q))) ++ e_out q dr w)) by (by apply NoDup_without in Hn). split; [done|].
  assert (H2 : e_out q dr w ⊆ all_frames g) by set_solver. split; [done|]. pose proof (NoDup_fits g inv (e_out q dr w) (NoDup_app_r _ _ H1) H2). lia.
Qed.

Lemma e_receive_gen max : exists ds r dr' w', dReceive max (e_q q) dr w = Some (ds, r, dr', w') /\
  forall stash p c, let q' := mkQRx r stash p c in qrx_ok q' dr' w' /\ e_frames q dr w ≡ₚ fp_free (d_pool (y_base r)) ++ fr (e_stash q) ++ fr ds ++ e_out q' dr' w' /\
    Forall (in_packet_area g rlen (y_base (e_q q))) ds.
Proof using All.
  destruct e_parts as (P1 & P2 & P3). destruct Hq as [E1 E2 E3 E4 E5].
  destruct (dReceive_spec g inv rva rlen bufLen ks kr held_by max (e_q q) dr w (e_out q dr w) E1 E4 E3 E2 P2 P1 P3) as (ds & r & dr' & w' & bad & out' & E & [V1 V2 V3 V4 V5 V6 [V7 V8] V9]).
  exists ds, r, dr', w'. split; [done|]. intros stash p c. cbv zeta. destruct (qrx_ok_after q (mkQRx r stash p c) dr dr' w w' out' Hq V1 V2 V6 V7 V5) as [H1 H2]. split; [done|]. split; [|done].
  rewrite H2. unfold e_frames. rewrite V3, V4. solve_Permutation.
Qed.

Lemma e_pollOnce_spec : exists n closed q' dr' w', e_pollOnce q dr w = Some (n, closed, q', dr', w') /\ qrx_ok q' dr' w' /\ e_frames q' dr' w' ≡ₚ e_frames q dr w.
Proof using All.
  unfold e_pollOnce. case_if; [by do 5 eexists|]. destruct (e_receive_gen pollBatch) as (ds & r & dr' & w' & -> & Hrc). cbn [mbind option_bind]. do 5 eexists. split; [done|].
  destruct (Hrc (e_stash q ++ ds) (e_place q) (e_closed q)) as (H1 & H2 & _). split; [done|]. rewrite H2. unfold e_frames. simpl. rewrite map_app. solve_Permutation.
Qed.

Lemma e_NumReceived_spec : exists n q' dr' w', e_NumReceived q dr w = Some (n, q', dr', w') /\ qrx_ok q' dr' w' /\ e_frames q' dr' w' ≡ₚ e_frames q dr w.
Proof using All.
  unfold e_NumReceived. case_if; [by do 4 eexists|]. destruct e_pollOnce_spec as (n & c & q' & dr' & w' & -> & H1 & H2). cbn [mbind option_bind]. by do 4 eexists.
Qed.

Lemma e_Receive_spec pin max : exists ds q' dr' w', e_Receive pin max q dr w = Some (ds, q', dr', w') /\ qrx_ok q' dr' w' /\ e_frames q dr w ≡ₚ e_frames q' dr' w' ++ fr ds.
Proof using All.
  unfold e_Receive. case_if. { do 4 eexists. split; [done|]. split; [done|]. cbn [map]. by rewrite app_nil_r. }
  cbv zeta. case_if.
  - assert (Hgen : forall a b, e_stash q = a ++ b -> qrx_ok (e_with (e_q q) b (e_pinned pin q)) dr w /\ e_frames q dr w ≡ₚ e_frames (e_with (e_q q) b (e_pinned pin q)) dr w ++ fr a).
    { intros a b E0. split; [destruct Hq; by split|]. unfold e_frames. simpl. rewrite E0, map_app. change (e_out (e_with (e_q q) b (e_pinned pin q)) dr w) with (e_out q dr w). solve_Permutation. }
    case_if; do 4 eexists; (split; [done|]); apply Hgen; [by rewrite app_nil_r|by rewrite take_drop].
  - destruct (e_receive_gen max) as (ds & r & dr' & w' & E' & Hrc). change (e_q (e_pinned pin q)) with (e_q q). rewrite E'. cbn [mbind option_bind]. do 4 eexists. split; [done|].
    unfold e_with. destruct (Hrc (e_stash (e_pinned pin q)) (e_place (e_pinned pin q)) (e_closed (e_pinned pin q))) as (H1 & H2 & _). split; [done|]. rewrite H2. unfold e_frames. simpl. solve_Permutation.
Qed.

Lemma e_Fill_spec pin n : exists k q' w', e_Fill pin n q w = Some (k, q', w') /\ qrx_ok q' dr w' /\ e_frames q' dr w' ≡ₚ e_frames q dr w.
Proof using All.
  unfold e_Fill. case_if; [by do 3 eexists|]. cbv zeta. destruct e_parts as (P1 & P2 & P3). destruct Hq as [E1 E2 E3 E4 E5].
  change (e_q (e_pinned pin q)) with (e_q q).
  destruct (DrainReturned_spec g inv rva rlen ks kr held_by (e_q q) dr w (e_out q dr w) E1 E2 P2 P1) as (back & r1 & w1 & out1 & -> & D1 & D2 & D3 & D4 & D5 & D6 & D7 & D8). cbn [mbind option_bind].
  assert (Hn1 : NoDup (fp_free (d_pool (y_base r1)))) by (rewrite D4; rewrite D2, app_assoc in P1; by eapply NoDup_app_l).
  destruct (dFill_spec g inv rva rlen ks kr held_by n r1 dr w1 out1 (own_region g inv rlen Hin) D1 ltac:(by rewrite D6) D3 Hn1) as (posted & r2 & w2 & -> & [F1 F2 F3 F4 [F5 _] [F6 _] _]). cbn [mbind option_bind].
  do 3 eexists. split; [done|]. set (q2 := e_with r2 (e_stash (e_pinned pin q)) (e_pinned pin q)). destruct (qrx_ok_after q q2 dr dr w w2 (out1 ++ posted) Hq F1 F2 F5) as [H1 H2]; [simpl; congruence|simpl; congruence|].
  split; [done|]. unfold e_frames. rewrite H2, D2. rewrite D4 in F3. simpl. clear - F3.
  transitivity (fr (e_stash q) ++ out1 ++ (fp_free (d_pool (y_base r2)) ++ posted)); [solve_Permutation|]. rewrite <- F3. solve_Permutation.
Qed.

Lemma e_Recycle_spec ds : fr ds ⊆ all_frames g -> NoDup (e_frames q dr w ++ fr ds) ->
  exists q', e_Recycle ds q = Some q' /\ qrx_ok q' dr w /\ e_frames q' dr w ≡ₚ e_frames q dr w ++ fr ds.
Proof using All.
  intros Hsd Hnd. unfold e_Recycle. destruct Hq as [E1 E2 E3 E4 E5].
  destruct (dRecycle_spec g inv rva rlen ks kr held_by ds (e_q q) dr (w_supply w) (w_returned w) (e_out q dr w) E1 E2 Hsd) as (r & -> & R1 & [[[p Eb] Eo] R2 R3 R4]).
  { unfold e_frames in Hnd. rewrite <- !app_assoc in Hnd. rewrite app_assoc in Hnd. apply NoDup_without in Hnd. rewrite <- app_assoc in Hnd. by apply NoDup_without in Hnd. }
  cbn [mbind option_bind]. eexists. split; [done|]. destruct (qrx_ok_after q (e_with r (e_stash q) q) dr dr w w _ Hq R1 R2 E3) as [H1 H2]; [simpl; by rewrite Eb|done|].
  split; [done|]. unfold e_frames at 1. rewrite H2. simpl. rewrite R3. unfold e_frames. solve_Permutation.
Qed.
End ops.
End rx.

(** ** The order packets come in *)

Section order.
Context {P : Type} `{!FramePool P} {D : Type} `{!PMD D} (pin : res Z).
Implicit Types (q : QRx P) (r : DRx P) (dr : D) (w : world).

(** What is done to the queue a program has ... *)
Inductive eop : Type := ELook | ETake (max : Z) | EFill (n : Z) | EGive (ds : list Desc) | EDevice (dr : D) (w : world).

(** ... and to one with nothing in front of the driver: each receive takes what
    the driver has. *)
Inductive pop : Type := PTake (max : Z) | PFill (n : Z) | PGive (ds : list Desc) | PDevice (dr : D) (w : world).

Definition estep (op : eop) q dr w : option (list Desc * QRx P * D * world) :=
  match op with
  | ELook => '(_, q, dr, w) ← e_NumReceived q dr w; Some ([], q, dr, w)
  | ETake max => e_Receive pin max q dr w
  | EFill n => '(_, q, w) ← e_Fill pin n q w; Some ([], q, dr, w)
  | EGive ds => q ← e_Recycle ds q; Some ([], q, dr, w)
  | EDevice dr w => Some ([], q, dr, w)
  end.

Definition pstep (op : pop) r dr w : option (list Desc * DRx P * D * world) :=
  match op with
  | PTake max => dReceive max r dr w
  | PFill n => '(_, r, w) ← DrainReturned r w; '(_, r, w) ← dFill n r w; Some ([], r, dr, w)
  | PGive ds => r ← dRecycle ds r; Some ([], r, dr, w)
  | PDevice dr w => Some ([], r, dr, w)
  end.

(** The packets of a run, in the order they came out. *)
Fixpoint erun (ops : list eop) q dr w : option (list Desc * QRx P * D * world) :=
  match ops with
  | [] => Some ([], q, dr, w)
  | op :: ops => '(a, q, dr, w) ← estep op q dr w; '(b, q, dr, w) ← erun ops q dr w; Some (a ++ b, q, dr, w)
  end.

Fixpoint prun (ops : list pop) r dr w : option (list Desc * DRx P * D * world) :=
  match ops with
  | [] => Some ([], r, dr, w)
  | op :: ops => '(a, r, dr, w) ← pstep op r dr w; '(b, r, dr, w) ← prun ops r dr w; Some (a ++ b, r, dr, w)
  end.

Lemma prun_app ops1 ops2 r dr w : prun (ops1 ++ ops2) r dr w = ('(a, r, dr, w) ← prun ops1 r dr w; '(b, r, dr, w) ← prun ops2 r dr w; Some (a ++ b, r, dr, w)).
Proof using.
  revert r dr w. induction ops1 as [|op ops1 IH]; intros r dr w; cbn [prun app].
  - cbn [mbind option_bind]. by destruct (prun ops2 r dr w) as [[[[b r'] dr'] w']|].
  - destruct (pstep op r dr w) as [[[[a r1] dr1] w1]|]; cbn [mbind option_bind]; [|done]. rewrite IH. destruct (prun ops1 r1 dr1 w1) as [[[[b r2] dr2] w2]|]; cbn [mbind option_bind]; [|done].
    destruct (prun ops2 r2 dr2 w2) as [[[[c r3] dr3] w3]|]; cbn [mbind option_bind]; [|done]. by rewrite app_assoc.
Qed.

(** What of [op] reaches the driver: a take does not when it is served from the
    stash; nothing does once the queue is closed. *)
Definition reaches (closed : bool) (op : eop) (pops : list pop) : Prop :=
  match op with
  | ELook => pops = if closed then [] else [PTake pollBatch]
  | ETake max => pops = [] \/ (closed = false /\ pops = [PTake max])
  | EFill n => pops = if closed then [] else [PFill n]
  | EGive ds => pops = [PGive ds]
  | EDevice dr w => pops = [PDevice dr w]
  end.

Definition all_reach (closed : bool) (ops : list eop) (pops : list pop) : Prop := exists l, Forall2 (reaches closed) ops l /\ pops = concat l.

(** [res] is what the front queue does where the plain one does [plain]. *)
Definition fronts q (plain : option (list Desc * DRx P * D * world)) (res : option (list Desc * QRx P * D * world)) : Prop :=
  match plain with
  | Some (all, r, dr, w) => exists out q', res = Some (out, q', dr, w) /\ e_q q' = r /\ e_closed q' = e_closed q /\ out ++ e_stash q' = e_stash q ++ all
  | None => res = None
  end.

Lemma prun_one op r dr w : prun [op] r dr w = pstep op r dr w.
Proof using. cbn [prun]. destruct (pstep op r dr w) as [[[[a r1] dr1] w1]|]; cbn [mbind option_bind]; [|done]. by rewrite app_nil_r. Qed.

Lemma estep_fronts op q dr w : exists pops, reaches (e_closed q) op pops /\ fronts q (prun pops (e_q q) dr w) (estep op q dr w).
Proof using.
  assert (Hskip : forall out q', e_q q' = e_q q -> e_closed q' = e_closed q -> out ++ e_stash q' = e_stash q -> fronts q (prun [] (e_q q) dr w) (Some (out, q', dr, w))).
  { intros out q' E1 E2 E3. unfold fronts. cbn [prun]. exists out, q'. by rewrite app_nil_r. }
  destruct op as [|max|n|ds|dr' w']; cbn [estep].
  - unfold e_NumReceived, e_pollOnce. eexists. split; [reflexivity|]. destruct (e_closed q) eqn:Ec; cbn [mbind option_bind]; [by apply Hskip|].
    rewrite prun_one. cbn [pstep]. destruct (dReceive pollBatch (e_q q) dr w) as [[[[got r] dr1] w1]|]; cbn [mbind option_bind fronts]; [|done]. by do 2 eexists.
  - unfold e_Receive. case_if; [exists []; split; [by left|by apply Hskip]|]. cbv zeta. change (e_stash (e_pinned pin q)) with (e_stash q). change (e_q (e_pinned pin q)) with (e_q q).
    destruct (Z.gtb_spec (zlen (e_stash q)) 0).
    + exists []. split; [by left|]. case_if; apply Hskip; try done; simpl; [by rewrite app_nil_r|by rewrite take_drop].
    + exists [PTake max]. to_prop. split; [by right|]. rewrite prun_one. cbn [pstep]. destruct (dReceive max (e_q q) dr w) as [[[[got r] dr1] w1]|]; cbn [mbind option_bind fronts]; [|done]. do 2 eexists. split; [done|]. split; [done|]. split; [done|].
      simpl. assert (e_stash q = []) as -> by (destruct (e_stash q) as [|d l]; [done|]; rewrite zlen_cons in *; pose proof (zlen_nonneg l); lia). by rewrite app_nil_r.
  - unfold e_Fill. eexists. split; [reflexivity|]. destruct (e_closed q) eqn:Ec; cbn [mbind option_bind]; [by apply Hskip|]. rewrite prun_one. cbn [pstep]. change (e_q (e_pinned pin q)) with (e_q q).
    destruct (DrainReturned (e_q q) w) as [[[k r1] w1]|]; cbn [mbind option_bind fronts]; [|done]. destruct (dFill n r1 w1) as [[[k2 r2] w2]|]; cbn [mbind option_bind fronts]; [|done].
    do 2 eexists. split; [done|]. split; [done|]. simpl. by rewrite app_nil_r.
  - unfold e_Recycle. exists [PGive ds]. split; [done|]. rewrite prun_one. cbn [pstep]. destruct (dRecycle ds (e_q q)) as [r|]; cbn [mbind option_bind fronts]; [|done].
    do 2 eexists. split; [done|]. split; [done|]. simpl. by rewrite app_nil_r.
  - exists [PDevice dr' w']. split; [done|]. rewrite prun_one. cbn [pstep fronts]. do 2 eexists. split; [done|]. split; [done|]. by rewrite app_nil_r.
Qed.

Lemma all_reach_cons c op ops p ps : reaches c op p -> all_reach c ops ps -> all_reach c (op :: ops) (p ++ ps).
Proof using. intros H (l & Hl & ->). exists (p :: l). split; [by constructor|done]. Qed.

Lemma all_reach_some c ops : exists pops, all_reach c ops pops.
Proof using.
  induction ops as [|op ops [ps IH]]; [by exists [], []|]. assert (exists p, reaches c op p) as [p Hp] by (destruct op; eexists; cbn [reaches]; try reflexivity; by left).
  exists (p ++ ps). by apply all_reach_cons.
Qed.

Lemma erun_fronts ops : forall q dr w, exists pops, all_reach (e_closed q) ops pops /\ fronts q (prun pops (e_q q) dr w) (erun ops q dr w).
Proof using.
  induction ops as [|op ops IH]; intros q dr w; cbn [erun].
  { exists []. split; [by exists []|]. cbn [prun fronts]. exists [], q. by rewrite app_nil_r. }
  destruct (estep_fronts op q dr w) as (p1 & R1 & F1). destruct (prun p1 (e_q q) dr w) as [[[[a r1] dr1] w1]|] eqn:E1; cbn [fronts] in F1.
  - destruct F1 as (out & q1 & -> & E2 & Ec & E3). cbn [mbind option_bind]. destruct (IH q1 dr1 w1) as (p2 & R2 & F2). exists (p1 ++ p2). rewrite Ec in R2. split; [by apply all_reach_cons|].
    rewrite prun_app, E1. cbn [mbind option_bind]. rewrite <- E2.
    destruct (prun p2 (e_q q1) dr1 w1) as [[[[b r2] dr2] w2]|]; cbn [mbind option_bind fronts] in *; [|by rewrite F2].
    destruct F2 as (out2 & q2 & -> & E4 & Ec2 & E5). cbn [mbind option_bind]. do 2 eexists. split; [done|]. split; [done|]. split; [congruence|]. by rewrite <- app_assoc, E5, app_assoc, E3, app_assoc.
  - destruct (all_reach_some (e_closed q) ops) as [p2 R2]. exists (p1 ++ p2). split; [by apply all_reach_cons|]. rewrite prun_app, E1. cbn [mbind option_bind fronts]. by rewrite F1.
Qed.
End order.
