(* ===== verification/DpdkFanClaims.v ===== *)
(** A program that receives, forwards and sends through the queues of the DPDK
    backend: a transmit queue over several rings and a receive queue, behind
    them the drivers, and the descriptors the program holds.

    [f_may] is the discipline packetio asks of a caller.  [Complete] and
    [SendFunc] put a finished frame on the free list of the ring that sent it,
    which refuses a frame of another ring or of a receive queue: a frame so
    refused is lost, and counted.  The flag [own] of a run says that the program
    keeps clear of that, and calls either only while every frame with a driver
    is of that driver's own ring; [SendFunc] keeps it so by itself, [Transmit]
    may break it, and then [Reclaim] is the way to get frames back. *)

From stdpp Require Import prelude list numbers strings.
From S2P Require Import Prelude Circ Bytes Desc Pool Mlx5Region Mbuf DpdkRing DpdkQueue DpdkBuild DpdkTxOps DpdkRxOps DpdkSystem DpdkClaims DpdkFan DpdkFanOps DpdkFanRx.

Record fsys (P D : Type) : Type := mkFsys {
  f_tx : QTx P D; f_rx : QRx P; f_rxd : D; f_sup : Ring; f_rret : Ring; f_region : list Z; f_held : list Desc
}.
Arguments mkFsys {P D}. Arguments f_tx {P D}. Arguments f_rx {P D}. Arguments f_rxd {P D}. Arguments f_sup {P D}. Arguments f_rret {P D}.
Arguments f_region {P D}. Arguments f_held {P D}.

Inductive fop (D : Type) : Type :=
| FAlloc (n : Z)
| FTransmit (ds rest : list Desc)
| FTransmitOffload (ds : list Desc) (offs : list Offload) (rest : list Desc)
| FComplete (max : Z)
| FReclaim (max : Z)
| FFree (ds rest : list Desc)
| FSend (count : Z) (build : Z -> list Z -> unit -> Z * list Z * unit)
| FFill (n : Z)
| FLook                                            (* NumReceived, or one turn of a Poll *)
| FReceive (max : Z)
| FRecycle (ds rest : list Desc)
| FClose                                           (* both queues *)
| FMemory (region : list Z)                        (* the device writes memory *)
| FRxDriver (d : D) (sup ret : Ring).              (* the receive driver by itself *)
Arguments FAlloc {D}. Arguments FTransmit {D}. Arguments FTransmitOffload {D}. Arguments FComplete {D}. Arguments FReclaim {D}. Arguments FFree {D}. Arguments FSend {D}.
Arguments FFill {D}. Arguments FLook {D}. Arguments FReceive {D}. Arguments FRecycle {D}. Arguments FClose {D}. Arguments FMemory {D}. Arguments FRxDriver {D}.

Section system.
Context {P : Type} `{!FramePool P} {D : Type} `{!PMD D} (pin : res Z) (csum : bool) (lay : Layout).

Definition fdo (op : fop D) (s : fsys P D) : option (fsys P D) :=
  let '(mkFsys t q qd sup rret region held) := s in
  let w := mkWorld region sup rret in
  match op with
  | FAlloc n => '(ds, t) ← q_Alloc pin n t; Some (mkFsys t q qd sup rret region (ds ++ held))
  | FTransmit ds rest => '(n, region, t) ← q_Transmit pin ds region t; Some (mkFsys t q qd sup rret region (drop (Z.to_nat n) ds ++ rest))
  | FTransmitOffload ds offs rest =>
      '(n, _, region, t) ← q_TransmitOffload csum ds offs region t; Some (mkFsys t q qd sup rret region (drop (Z.to_nat n) ds ++ rest))
  | FComplete max => '(_, region, t) ← q_Complete max region t; Some (mkFsys t q qd sup rret region held)
  | FReclaim max => '(ds, region, t) ← q_Reclaim max [] region t; Some (mkFsys t q qd sup rret region (ds ++ held))
  | FFree ds rest => t ← q_Free ds t; Some (mkFsys t q qd sup rret region rest)
  | FSend count build => '(_, region, _, t) ← q_SendFunc pin build lay count region tt t; Some (mkFsys t q qd sup rret region held)
  | FFill n => '(_, q, w) ← e_Fill pin n q w; Some (mkFsys t q qd (w_supply w) (w_returned w) (w_region w) held)
  | FLook => '(_, q, qd, w) ← e_NumReceived q qd w; Some (mkFsys t q qd (w_supply w) (w_returned w) (w_region w) held)
  | FReceive max => '(ds, q, qd, w) ← e_Receive pin max q qd w; Some (mkFsys t q qd (w_supply w) (w_returned w) (w_region w) (ds ++ held))
  | FRecycle ds rest => q ← e_Recycle ds q; Some (mkFsys t q qd sup rret region rest)
  | FClose => Some (mkFsys (q_Close t) (e_Close q) qd sup rret region held)
  | FMemory region => Some (mkFsys t q qd sup rret region held)
  | FRxDriver qd sup rret => Some (mkFsys t q qd sup rret region held)
  end.

Context (own : bool) (owned held_by : D -> list Z) (specs : list ringspec) (gr : geometry) (rva rlen kf bufLen ks kr : Z) (inv : geometry -> P -> Prop).
Notation fr := (map (frame_at (mkGeo kf 0 0))).
Notation wof s := (mkWorld (f_region s) (f_sup s) (f_rret s)).
Notation rxf s := (e_frames gr rva held_by (f_rx s) (f_rxd s) (wof s)).
Notation txf s := (rings_frames rva owned (q_qs (f_tx s))).

Definition f_may (op : fop D) (s : fsys P D) : Prop :=
  match op with
  | FAlloc _ | FReclaim _ | FFill _ | FLook | FReceive _ | FClose => True
  | FTransmit ds rest | FTransmitOffload ds _ rest => fr (f_held s) ≡ₚ fr (ds ++ rest) /\ Forall desc_ok ds
  | FComplete _ => own = true -> qtx_own rva owned specs (f_tx s)
  | FSend _ build => (own = true -> qtx_own rva owned specs (f_tx s)) /\ forall i f u, zlen (snd (fst (build i f u))) = zlen f /\ (bytes_ok f -> bytes_ok (snd (fst (build i f u))))
  | FFree ds rest => fr (f_held s) ≡ₚ fr (ds ++ rest) /\ fr ds ⊆ all_of specs /\ Forall (fun d => 0 <= Addr d < 2 ^ 64) ds
  | FRecycle ds rest => fr (f_held s) ≡ₚ fr (ds ++ rest) /\ fr ds ⊆ all_frames gr
  | FMemory region => mem_ok rlen region
  | FRxDriver d sup ret => exists ls lr, fifo ks ls sup /\ fifo kr lr ret /\
      ls ++ lr ++ held_by d ≡ₚ ring_list (f_sup s) ++ ring_list (f_rret s) ++ held_by (f_rxd s)
  end.

Inductive freach (s0 : fsys P D) : fsys P D -> Prop :=
| freach_init : freach s0 s0
| freach_step op s s' : freach s0 s -> f_may op s -> fdo op s = Some s' -> freach s0 s'.

(** [lost] are the frames a free list refused: as many as the rings counted,
    and none in a run that keeps to its rings' own. *)
Record finv (lost : list Z) (s : fsys P D) : Prop := {
  fi_tx : qtx_ok rva rlen owned inv (q_closed (f_tx s)) specs (f_tx s);
  fi_rx : qrx_ok gr (inv gr) rva rlen bufLen ks kr held_by (f_rx s) (f_rxd s) (wof s);
  fi_conserved : all_of specs ++ all_frames gr ≡ₚ txf s ++ rxf s ++ fr (f_held s) ++ lost;
  fi_rxown : rxf s ⊆ all_frames gr;
  fi_lost : u64 (zsum (rejected_by (q_qs (f_tx s)))) = u64 (zlen lost);
  fi_own : own = true -> lost = [] /\ Forall (fun r => r = 0) (rejected_by (q_qs (f_tx s)))
}.

Context (Hspecs : Forall (spec_ok rva rlen kf owned inv) specs) `{!FramePoolLaws P gr (inv gr)} `{!RxDriver D rva rlen bufLen ks kr held_by}.
Context (Hlog : g_log gr = kf) (Hdis : NoDup (all_of specs ++ all_frames gr)) (Hlay : l_FrameSize lay = 2 ^ kf).
Context (Hin : (g_first gr + g_count gr) * fsize gr <= rlen) (Hcap : g_count gr <= 2 ^ kr).

Lemma fr_gr ds : map (frame_at gr) ds = fr ds.
Proof using Hlog. apply map_ext. intros d. unfold frame_at, fsize. by rewrite Hlog. Qed.

Lemma fpart lost s l rest : finv lost s -> l ++ rest ≡ₚ txf s ++ rxf s ++ fr (f_held s) -> NoDup l.
Proof using Hdis.
  intros Hs Hl. assert (E : txf s ++ rxf s ++ fr (f_held s) ++ lost ≡ₚ (l ++ rest) ++ lost) by (rewrite Hl; solve_Permutation).
  rewrite (fi_conserved _ _ Hs), E, <- app_assoc in Hdis. by eapply NoDup_app_l.
Qed.

(** An operation of the transmit side, and one of the receive side. *)
Lemma finv_lose lost s t' region' held' more : finv lost s -> (exists cl, qtx_ok rva rlen owned inv cl specs t') -> mem_ok rlen region' ->
  rings_frames rva owned (q_qs t') ++ fr held' ++ more ≡ₚ txf s ++ fr (f_held s) ->
  u64 (zsum (rejected_by (q_qs t'))) = u64 (zsum (rejected_by (q_qs (f_tx s))) + zlen more) ->
  (own = true -> more = [] /\ rejected_by (q_qs t') = rejected_by (q_qs (f_tx s))) ->
  finv (lost ++ more) (mkFsys t' (f_rx s) (f_rxd s) (f_sup s) (f_rret s) region' held').
Proof using.
  clear. intros [H1 H2 H3 H4 H5 H6] [cl Ht] Hm Hp Hr Ho. split; cbn [f_tx f_rx f_rxd f_sup f_rret f_region f_held]; try done.
  - by rewrite (qk_closed _ _ _ _ _ _ _ Ht).
  - destruct H2. by split.
  - rewrite H3. change (e_frames gr rva held_by (f_rx s) (f_rxd s) (mkWorld region' (f_sup s) (f_rret s))) with (rxf s).
    transitivity (rxf s ++ lost ++ (txf s ++ fr (f_held s))); [solve_Permutation|]. rewrite <- Hp. solve_Permutation.
  - rewrite Hr, zlen_app. unfold u64 in *. by rewrite <- Zplus_mod_idemp_l, H5, Zplus_mod_idemp_l.
  - intros E. destruct (H6 E) as [-> HF], (Ho E) as [-> ->]. done.
Qed.

Lemma finv_tx lost s t' region' held' : finv lost s -> (exists cl, qtx_ok rva rlen owned inv cl specs t') -> mem_ok rlen region' ->
  rings_frames rva owned (q_qs t') ++ fr held' ≡ₚ txf s ++ fr (f_held s) -> rejected_by (q_qs t') = rejected_by (q_qs (f_tx s)) ->
  finv lost (mkFsys t' (f_rx s) (f_rxd s) (f_sup s) (f_rret s) region' held').
Proof using.
  intros Hs Ht Hm Hp Hr. rewrite <- (app_nil_r lost). apply finv_lose; try done; [by rewrite app_nil_r|]. rewrite Hr. change (zlen (@nil Z)) with 0. by rewrite Z.add_0_r.
Qed.

Lemma finv_rx lost s q' qd' w' held' : finv lost s -> qrx_ok gr (inv gr) rva rlen bufLen ks kr held_by q' qd' w' ->
  e_frames gr rva held_by q' qd' w' ++ fr held' ≡ₚ rxf s ++ fr (f_held s) -> e_frames gr rva held_by q' qd' w' ⊆ all_frames gr ->
  finv lost (mkFsys (f_tx s) q' qd' (w_supply w') (w_returned w') (w_region w') held').
Proof using.
  clear. intros [H1 H2 H3 H4 H5 H6] Hq Hp Hs. destruct w' as [region' sup' ret']. split; cbn [f_tx f_rx f_rxd f_sup f_rret f_region f_held w_supply w_returned w_region]; try done.
  rewrite H3. transitivity (txf s ++ (rxf s ++ fr (f_held s)) ++ lost); [solve_Permutation|]. rewrite <- Hp. solve_Permutation.
Qed.

Ltac open_fsys s Hs :=
  destruct s as [t q qd sup rret region held]; pose proof (fi_tx _ _ Hs) as Ht; pose proof (fi_rx _ _ Hs) as Hq; pose proof (fi_rxown _ _ Hs) as Hown;
  cbn [f_tx f_rx f_rxd f_sup f_rret f_region f_held f_may fdo] in *.
Ltac close_tx Hs := eexists _, _; split; [done|]; apply (finv_tx _ _ _ _ _ Hs); cbn [f_tx f_rx f_rxd f_sup f_rret f_region f_held]; try done; try by eexists.
Ltac close_rx Hs := eexists _, _; split; [done|]; apply (finv_rx _ _ _ _ _ _ Hs); cbn [f_tx f_rx f_rxd f_sup f_rret f_region f_held]; try done.

Definition f_step (op : fop D) : Prop := forall lost s, finv lost s -> f_may op s -> exists s' lost', fdo op s = Some s' /\ finv lost' s'.

Lemma held_NoDup lost s ds rest : finv lost s -> fr (f_held s) ≡ₚ fr (ds ++ rest) -> NoDup (txf s ++ rxf s ++ fr ds).
Proof using Hdis. intros Hs Hh. apply (fpart lost s _ (fr rest) Hs). rewrite Hh, map_app. solve_Permutation. Qed.

Lemma fan_do_alloc n : f_step (FAlloc n).
Proof using Hspecs.
  intros lost s Hs _. open_fsys s Hs. destruct (q_Alloc_spec rva rlen kf owned inv _ specs Hspecs pin n t Ht) as (ds & t' & -> & H1 & H2 & H3). cbn [mbind option_bind].
  close_tx Hs; [apply Hq|]. rewrite H2, map_app. solve_Permutation.
Qed.

Lemma fan_do_transmit ds rest : f_step (FTransmit ds rest).
Proof using Hspecs Hdis.
  intros lost s Hs Hmay. assert (Hn := held_NoDup lost s ds rest Hs (proj1 Hmay)). rewrite app_assoc in Hn. apply NoDup_app_r in Hn. open_fsys s Hs. destruct Hmay as [Hh Hds].
  destruct (q_Transmit_spec rva rlen kf owned inv _ specs Hspecs pin ds region t Ht (ek_mem _ _ _ _ _ _ _ _ _ _ _ Hq) Hds Hn) as (n & region' & t' & -> & Hc & H1 & H2 & H3 & H4). cbn [mbind option_bind].
  close_tx Hs. rewrite H3, Hh, !map_app. rewrite <- (take_drop (Z.to_nat n) ds) at 3. rewrite map_app. solve_Permutation.
Qed.

Lemma do_transmit_offload ds offs rest : f_step (FTransmitOffload ds offs rest).
Proof using Hspecs Hdis.
  intros lost s Hs Hmay. assert (Hn := held_NoDup lost s ds rest Hs (proj1 Hmay)). rewrite app_assoc in Hn. apply NoDup_app_r in Hn. open_fsys s Hs. destruct Hmay as [Hh Hds].
  destruct (q_TransmitOffload_spec rva rlen kf owned inv _ specs Hspecs csum ds offs region t Ht (ek_mem _ _ _ _ _ _ _ _ _ _ _ Hq) Hds Hn) as (n & e & region' & t' & -> & Hc & H1 & H2 & H3 & H4). cbn [mbind option_bind].
  close_tx Hs. rewrite H3, Hh, !map_app. rewrite <- (take_drop (Z.to_nat n) ds) at 3. rewrite map_app. solve_Permutation.
Qed.

Lemma tx_NoDup lost s : finv lost s -> NoDup (txf s).
Proof using Hdis. intros Hs. by apply (fpart lost s _ (rxf s ++ fr (f_held s)) Hs). Qed.

Lemma fan_do_complete max : f_step (FComplete max).
Proof using Hspecs Hdis.
  intros lost s Hs Hmay. pose proof (tx_NoDup lost s Hs) as Hn. open_fsys s Hs.
  destruct (q_Complete_spec rva rlen kf owned inv _ specs Hspecs max region t Ht (ek_mem _ _ _ _ _ _ _ _ _ _ _ Hq) Hn) as (n & region' & t' & more & -> & H1 & H2 & H3 & H4 & H5). cbn [mbind option_bind].
  eexists _, _. split; [done|]. apply (finv_lose _ _ _ _ _ more Hs); cbn [f_tx f_held]; try done; [by eexists|rewrite H3; solve_Permutation|]. intros E. by destruct (H5 (Hmay E)) as (? & _ & ?).
Qed.

Lemma fan_do_reclaim max : f_step (FReclaim max).
Proof using Hspecs.
  intros lost s Hs _. open_fsys s Hs. destruct (q_Reclaim_spec rva rlen kf owned inv _ specs Hspecs max [] region t Ht (ek_mem _ _ _ _ _ _ _ _ _ _ _ Hq)) as (new & region' & t' & -> & H1 & H2 & H3 & _ & H4). cbn [mbind option_bind].
  close_tx Hs. rewrite H3, app_nil_l, map_app. solve_Permutation.
Qed.

Lemma fan_do_free ds rest : f_step (FFree ds rest).
Proof using Hspecs Hdis.
  intros lost s Hs Hmay. assert (Hn := held_NoDup lost s ds rest Hs (proj1 Hmay)). apply NoDup_without in Hn. open_fsys s Hs. destruct Hmay as (Hh & Hsub & Ha).
  destruct (q_Free_spec rva rlen kf owned inv _ specs Hspecs ds t Ht Ha Hsub Hn) as (t' & -> & H1 & H2 & H3). cbn [mbind option_bind]. close_tx Hs; [apply Hq|]. rewrite H2, Hh, map_app. solve_Permutation.
Qed.

Lemma fan_do_send count build : f_step (FSend count build).
Proof using Hspecs Hdis Hlay.
  intros lost s Hs [Ho Hb]. pose proof (tx_NoDup lost s Hs) as Hn. open_fsys s Hs.
  destruct (q_SendFunc_spec rva rlen kf owned inv _ specs Hspecs pin build lay count region tt t ltac:(apply Hb) ltac:(apply Hb) Ht (ek_mem _ _ _ _ _ _ _ _ _ _ _ Hq) Hn Hlay) as
    (r & region' & u & t' & more & -> & H1 & H2 & H3 & H4 & H5 & _). cbn [mbind option_bind].
  eexists _, _. split; [done|]. apply (finv_lose _ _ _ _ _ more Hs); cbn [f_tx f_held]; try done; [by eexists|rewrite H3; solve_Permutation|]. intros E. by destruct (H5 (Ho E)) as (? & _ & ?).
Qed.

Lemma rx_NoDup lost s : finv lost s -> NoDup (rxf s).
Proof using Hdis. intros Hs. apply (fpart lost s _ (txf s ++ fr (f_held s)) Hs). solve_Permutation. Qed.

Lemma fan_do_fill n : f_step (FFill n).
Proof using All.
  intros lost s Hs _. pose proof (rx_NoDup lost s Hs) as Hn. open_fsys s Hs.
  destruct (e_Fill_spec gr (inv gr) rva rlen bufLen ks kr held_by Hin Hcap q qd (mkWorld region sup rret) Hq Hown Hn pin n) as (k & q' & w' & -> & H1 & H2). cbn [mbind option_bind].
  close_rx Hs; [by rewrite H2|]. intros a. rewrite H2. apply Hown.
Qed.

Lemma do_look : f_step FLook.
Proof using All.
  intros lost s Hs _. pose proof (rx_NoDup lost s Hs) as Hn. open_fsys s Hs.
  destruct (e_NumReceived_spec gr (inv gr) rva rlen bufLen ks kr held_by Hin Hcap q qd (mkWorld region sup rret) Hq Hown Hn) as (k & q' & qd' & w' & -> & H1 & H2). cbn [mbind option_bind].
  close_rx Hs; [by rewrite H2|]. intros a. rewrite H2. apply Hown.
Qed.

Lemma fan_do_receive max : f_step (FReceive max).
Proof using All.
  intros lost s Hs _. pose proof (rx_NoDup lost s Hs) as Hn. open_fsys s Hs.
  destruct (e_Receive_spec gr (inv gr) rva rlen bufLen ks kr held_by Hin Hcap q qd (mkWorld region sup rret) Hq Hown Hn pin max) as (ds & q' & qd' & w' & -> & H1 & H2). cbn [mbind option_bind].
  close_rx Hs; [rewrite H2, map_app, fr_gr; solve_Permutation|]. intros a Ha. apply Hown. rewrite H2, elem_of_app. by left.
Qed.

Lemma fan_do_recycle ds rest : f_step (FRecycle ds rest).
Proof using All.
  intros lost s Hs Hmay. assert (Hn2 := held_NoDup lost s ds rest Hs (proj1 Hmay)). apply NoDup_app_r in Hn2. pose proof (rx_NoDup lost s Hs) as Hn. open_fsys s Hs. destruct Hmay as [Hh Hsub].
  rewrite <- fr_gr in Hsub, Hn2. destruct (e_Recycle_spec gr (inv gr) rva rlen bufLen ks kr held_by Hin Hcap q qd (mkWorld region sup rret) Hq Hown Hn ds Hsub Hn2) as (q' & -> & H1 & H2). cbn [mbind option_bind].
  rewrite fr_gr in H2, Hsub. eexists _, _. split; [done|]. apply (finv_rx _ _ q' qd (mkWorld region sup rret) rest Hs); cbn [f_rx f_rxd f_sup f_rret f_region f_held]; try done.
  - rewrite H2, Hh, map_app. solve_Permutation.
  - intros a. rewrite H2, elem_of_app. intros [Ha|Ha]; [by apply Hown|by apply Hsub].
Qed.

Lemma do_close : f_step FClose.
Proof using All.
  intros lost s Hs _. open_fsys s Hs. eexists _, lost. split; [done|].
  assert (Hc : finv lost (mkFsys (q_Close t) q qd sup rret region held)).
  { apply (finv_tx _ _ _ _ _ Hs); [|apply Hq| |]; cbn [f_tx f_held q_Close q_qs].
    - exists true. destruct Ht as [T1 T2 T3]. split; [|done|done]. simpl. apply Forall2_fmap_r. eapply Forall2_impl; [exact T1|]. intros sp h [[B1 B2 B3 B4 B5 B6] R2 R3 R4 R5 R6]. split; try done. split; try done. by destruct B1.
    - unfold rings_frames. replace (map hw_Close (q_qs t) ≫= hw_frames rva owned) with (q_qs t ≫= hw_frames rva owned); [done|]. clear. induction (q_qs t) as [|h hs IH]; [done|]. cbn [map]. by rewrite !bind_cons, IH.
    - unfold rejected_by. rewrite map_map. by apply map_ext. }
  unfold e_Close. case_if; [done|]. apply (finv_rx _ _ _ qd (mkWorld region sup rret) held Hc); cbn [f_rx f_rxd f_sup f_rret f_region f_held]; try done.
  destruct Hq as [[B1 B2 B3 B4 B5 B6] R2 R3 R4 R5]. split; try done. split; try done. by destruct B1.
Qed.

Lemma do_memory region' : f_step (FMemory region').
Proof using. clear. intros lost s Hs Hm. open_fsys s Hs. by close_tx Hs. Qed.

Lemma do_rxdriver d sup' ret' : f_step (FRxDriver d sup' ret').
Proof using.
  clear. intros lost s Hs (ls & lr & H1 & H2 & H3). open_fsys s Hs. eexists _, lost. split; [done|].
  assert (Hout : e_out rva held_by q d (mkWorld region sup' ret') ≡ₚ e_out rva held_by q qd (mkWorld region sup rret)).
  { unfold e_out. cbn [w_supply w_returned]. by rewrite (fifo_list _ _ _ H1), (fifo_list _ _ _ H2), H3. }
  assert (Hf : e_frames gr rva held_by q d (mkWorld region sup' ret') ≡ₚ e_frames gr rva held_by q qd (mkWorld region sup rret)) by (unfold e_frames; by rewrite Hout).
  apply (finv_rx _ _ q d (mkWorld region sup' ret') held Hs); cbn [f_rx f_rxd f_sup f_rret f_region f_held]; [|by rewrite Hf|intros a; rewrite Hf; apply Hown].
  destruct Hq as [E1 E2 E3 E4 E5]. split; try done. eapply rx_ok_perm; [symmetry; exact Hout|]. cbn [w_supply w_returned] in *.
  destruct E1 as [Q1 Q2 Q3 Q4 Q5 (ls0 & lr0 & F1 & F2 & F3)]. split; try done. exists ls, lr. split; [done|]. split; [done|]. by rewrite H3, (fifo_list _ _ _ F1), (fifo_list _ _ _ F2).
Qed.

(** A permitted operation never panics and keeps the invariant. *)
Lemma fan_fdo_inv op : f_step op.
Proof using All.
  destruct op; auto using fan_do_alloc, fan_do_transmit, do_transmit_offload, fan_do_complete, fan_do_reclaim, fan_do_free, fan_do_send, fan_do_fill, do_look, fan_do_receive, fan_do_recycle, do_close, do_memory, do_rxdriver.
Qed.

Lemma fan_freach_inv s0 s : finv [] s0 -> freach s0 s -> exists lost, finv lost s.
Proof using All.
  intros H0. induction 1 as [|op s s' _ [lost IH] Hmay E]; [by exists []|]. destruct (fan_fdo_inv op lost s IH Hmay) as (s2 & lost2 & E2 & Hs2). exists lost2. congruence.
Qed.
End system.

(** What holds of the queues a program is given by the DPDK backend: the
    properties, each with an instance on a small concrete device with two rings
    behind its transmit queue. *)

(** ** A device as it is opened *)

(** A transmit queue of several rings, each with its configuration, its frames
    and its returned ring; and a receive queue. *)
Record fsetup : Type := mkFsetup {
  fu_checked : bool; fu_pin : res Z; fu_csum : bool; fu_rings : list (Config * ringspec); fu_cr : Config; fu_gr : geometry; fu_kf : Z; fu_ks : Z; fu_kr : Z
}.

Definition fu_specs (u : fsetup) : list ringspec := map snd (fu_rings u).
Definition fu_rva (u : fsetup) : Z := c_RegionVA (fu_cr u).
Definition fu_rlen (u : fsetup) : Z := c_regionLen (fu_cr u).
Definition fu_bufLen (u : fsetup) : Z := BufferLen (c_Layout (fu_cr u)).

(** A configuration over the frames [g] of the region. *)
Definition config_for (u : fsetup) (c : Config) (g : geometry) : Prop :=
  geo_ok g /\ g_log g = fu_kf u /\ c_FirstFrame c = g_first g /\ c_Frames c = g_count g /\ l_FrameSize (c_Layout c) = fsize g /\
  c_RegionVA c = fu_rva u /\ c_regionLen c = fu_rlen u /\ 0 <= c_PoolVA c < 2 ^ 64.

Record fsetup_ok (u : fsetup) : Prop := {
  fo_log : fu_kf u <= 16;
  fo_rings : Forall (fun '(c, sp) => config_for u c (rs_g sp) /\ c_PoolVA c = rs_pool sp /\ c_Depth c <= 2 ^ rs_k sp) (fu_rings u);
  fo_some : fu_rings u <> [];
  fo_rx : config_for u (fu_cr u) (fu_gr u) /\ c_Frames (fu_cr u) <= 2 ^ fu_kr u;
  fo_region : 0 <= fu_rva u /\ fu_rva u + fu_rlen u <= 2 ^ 64 /\ 0 <= fu_rlen u < 2 ^ 62;
  fo_apart : NoDup (all_of (fu_specs u) ++ all_frames (fu_gr u))
}.

Section opened.
Context (u : fsetup) (Hu : fsetup_ok u) (own : bool) {D : Type} `{!PMD D} (owned held_by : D -> list Z).
#[local] Instance fpool_ops : FramePool Frames := frames_pool (fu_checked u).
Notation lay := (c_Layout (fu_cr u)).
Notation inv := (pool_inv (fu_checked u)).

(** The state a program starts from: all queues made, nothing on the rings and
    nothing with the drivers. *)
Record fopened (s : fsys Frames D) : Prop := {
  fp_rings : Forall2 (fun '(c, sp) h => NewDTx (New (fu_checked u)) c = Some (Ok (h_tx h)) /\ fifo (rs_k sp) [] (h_ret h) /\ owned (h_drv h) = []) (fu_rings u) (q_qs (f_tx s));
  fp_next : q_next (f_tx s) = 0%nat;
  fp_rx : NewDRx (New (fu_checked u)) (fu_cr u) = Some (Ok (e_q (f_rx s))) /\ e_stash (f_rx s) = [];
  fp_rxrings : fifo (fu_ks u) [] (f_sup s) /\ fifo (fu_kr u) [] (f_rret s) /\ held_by (f_rxd s) = [];
  fp_mem : mem_ok (fu_rlen u) (f_region s);
  fp_held : f_held s = []
}.

(** Drivers that keep DPDK's contract, behind every ring and the receive queue. *)
Definition fdrivers : Prop :=
  Forall (fun sp => TxDriver D (fu_rva u) (fu_rlen u) (rs_pool sp) (rs_k sp) owned) (fu_specs u) /\
  RxDriver D (fu_rva u) (fu_rlen u) (fu_bufLen u) (fu_ks u) (fu_kr u) held_by.

Definition fu_do : fop D -> fsys Frames D -> option (fsys Frames D) := fdo (fu_pin u) (fu_csum u) lay.
Definition fu_may : fop D -> fsys Frames D -> Prop :=
  f_may own owned held_by (fu_specs u) (fu_gr u) (fu_rva u) (fu_rlen u) (fu_kf u) (fu_ks u) (fu_kr u).
Definition fu_reach : fsys Frames D -> fsys Frames D -> Prop :=
  freach (fu_pin u) (fu_csum u) lay own owned held_by (fu_specs u) (fu_gr u) (fu_rva u) (fu_rlen u) (fu_kf u) (fu_ks u) (fu_kr u).
Definition fu_inv : list Z -> fsys Frames D -> Prop :=
  finv own owned held_by (fu_specs u) (fu_gr u) (fu_rva u) (fu_rlen u) (fu_kf u) (fu_bufLen u) (fu_ks u) (fu_kr u) inv.

(** A queue made of an accepted configuration. *)
Lemma made_base c g b : config_for u c g -> initBase (New (fu_checked u)) c = Some (Ok b) ->
  base_ok g (fu_rva u) (fu_rlen u) b /\ d_cfg b = c /\ d_dead b = None /\ inv g (d_pool b) /\ free (d_pool b) ≡ₚ all_frames g /\ rejected (d_pool b) = 0 /\
  (g_first g + g_count g) * fsize g <= fu_rlen u /\ c_haveReturned c = true.
Proof using Hu.
  intros (C1 & C2 & C3 & C4 & C5 & C6 & C7 & C8) E. destruct (fo_region _ Hu) as (V1 & V2 & V3). pose proof (fo_log _ Hu).
  destruct (validate_base g (fu_checked u) c (fu_rva u) (fu_rlen u) C1 ltac:(lia) C3 C4 C5 C6 C7 V1 V2 V3 C8 b E) as (B1 & B2 & B3 & B4 & B5 & B6 & B7 & B8 & B9).
  split_and!; try done. by rewrite B6, reverse_Permutation.
Qed.

(** A ring as it is made: all its frames are free. *)
Lemma made_ring cl c sp (h : hwring Frames D) : config_for u c (rs_g sp) -> c_PoolVA c = rs_pool sp -> c_Depth c <= 2 ^ rs_k sp ->
  NewDTx (New (fu_checked u)) c = Some (Ok (h_tx h)) -> fifo (rs_k sp) [] (h_ret h) -> owned (h_drv h) = [] ->
  ring_ok (fu_rva u) (fu_rlen u) owned inv cl sp h /\ hw_frames (fu_rva u) owned h ≡ₚ all_frames (rs_g sp) /\ (g_first (rs_g sp) + g_count (rs_g sp)) * fsize (rs_g sp) <= fu_rlen u /\ hw_rejected h = 0.
Proof using Hu.
  intros Hc Hp Hd E Hf Ho. unfold NewDTx in E. destruct (initBase (New (fu_checked u)) c) as [[b|]|] eqn:Eb; cbn [mbind option_bind] in E; try done. injection E as E.
  destruct (made_base c (rs_g sp) b Hc Eb) as (B1 & B2 & B3 & B4 & B5 & B6 & B7 & _).
  assert (Hfl : hw_flight (fu_rva u) owned h = []) by (unfold hw_flight; by rewrite (fifo_list _ _ _ Hf), Ho).
  assert (Hop : d_closed b = false) by (unfold initBase in Eb; destruct (Config_validate c); [|done]; destruct (New _ _ _ _) as [p|]; cbn [mbind option_bind] in Eb; [|done]; by injection Eb as <-).
  assert (Hrj : hw_rejected h = 0) by (unfold hw_rejected; rewrite <- E; exact B6).
  split; [|split; [|done]].
  - destruct Hc as (_ & _ & C3 & C4 & _). split; rewrite ?Hrj, <- ?E, ?Hfl; cbn [x_base]; rewrite ?B2; try done. split; cbn [x_base x_inFlight]; try done.
    + rewrite B2. pose proof (bo_depth _ _ _ _ B1) as Hdp. rewrite B2 in Hdp. change (zlen (@nil Z)) with 0. lia.
    + exists []. split; [done|]. by rewrite Ho.
  - unfold hw_frames, hw_free. rewrite Hfl, <- E, app_nil_r. done.
Qed.

Lemma fopened_inv s : fopened s -> fu_inv [] s /\ (g_first (fu_gr u) + g_count (fu_gr u)) * fsize (fu_gr u) <= fu_rlen u /\
  Forall (fun sp => g_log (rs_g sp) = fu_kf u /\ geo_ok (rs_g sp) /\ (g_first (rs_g sp) + g_count (rs_g sp)) * fsize (rs_g sp) <= fu_rlen u) (fu_specs u).
Proof using Hu.
  intros [O1 O2 [O3 O4] (O5 & O6 & O7) O8 O9]. destruct (fo_rx _ Hu) as [Hc Hk].
  unfold NewDRx in O3. case_if_in O3; [done|]. destruct (initBase (New (fu_checked u)) (fu_cr u)) as [[b|]|] eqn:Eb; cbn [mbind option_bind] in O3; try done. injection O3 as O3.
  destruct (made_base _ _ b Hc Eb) as (B1 & B2 & B3 & B4 & B5 & B6 & B7 & B8).
  assert (Hout : e_out (fu_rva u) held_by (f_rx s) (f_rxd s) (mkWorld (f_region s) (f_sup s) (f_rret s)) = []).
  { unfold e_out. cbn [w_supply w_returned]. by rewrite (fifo_list _ _ _ O5), (fifo_list _ _ _ O6), O7. }
  assert (Hef : e_frames (fu_gr u) (fu_rva u) held_by (f_rx s) (f_rxd s) (mkWorld (f_region s) (f_sup s) (f_rret s)) ≡ₚ all_frames (fu_gr u)).
  { unfold e_frames. rewrite Hout, O4, <- O3. cbn [map]. by rewrite !app_nil_r. }
  pose proof (fo_rings _ Hu) as Hr.
  assert (Hrings : Forall2 (ring_ok (fu_rva u) (fu_rlen u) owned inv (q_closed (f_tx s))) (fu_specs u) (q_qs (f_tx s)) /\ rings_frames (fu_rva u) owned (q_qs (f_tx s)) ≡ₚ all_of (fu_specs u) /\
    (Forall (fun r => r = 0) (rejected_by (q_qs (f_tx s))) /\ zsum (rejected_by (q_qs (f_tx s))) = 0) /\
    Forall (fun sp => g_log (rs_g sp) = fu_kf u /\ geo_ok (rs_g sp) /\ (g_first (rs_g sp) + g_count (rs_g sp)) * fsize (rs_g sp) <= fu_rlen u) (fu_specs u)).
  { unfold fu_specs, rings_frames, all_of, rejected_by. clear O2. induction O1 as [|[c sp] h l hs (E1 & E2 & E3) _ IH]; [by repeat constructor|]. apply Forall_cons in Hr as [(R1 & R2 & R3) Hr].
    destruct (IH Hr) as (I1 & I2 & [I3 I4] & I5). destruct (made_ring (q_closed (f_tx s)) c sp h R1 R2 R3 E1 E2 E3) as (M1 & M2 & M3 & M4).
    cbn [map snd zsum foldr]. rewrite !bind_cons, M2, I2, M4. destruct R1 as (G1 & G2 & _). split_and!; try done; by constructor. }
  destruct Hrings as (R1 & R2 & [R4 R5] & R3). split; [|done]. split.
  - split; [done| |done]. rewrite O2. unfold fu_specs. rewrite length_map. pose proof (fo_some _ Hu). destruct (fu_rings u); [done|simpl; lia].
  - split; rewrite <- ?O3; cbn [y_base]; try done.
    + split; cbn [y_base y_outstanding]; rewrite ?Hout; try done; [by rewrite B2|]. exists [], []. split_and!; try done. by rewrite O7.
    + rewrite (bo_buf _ _ _ _ B1), B2. unfold fu_bufLen, BufferLen. destruct Hc as (_ & _ & _ & _ & C5 & _). rewrite C5. lia.
  - rewrite R2, Hef, O9. cbn [map]. by rewrite app_nil_r.
  - intros a. by rewrite Hef.
  - by rewrite R5.
  - done.
Qed.

Lemma fu_reach_inv s0 s : fdrivers -> fopened s0 -> fu_reach s0 s ->
  (exists lost, fu_inv lost s) /\ Forall (spec_ok (fu_rva u) (fu_rlen u) (fu_kf u) owned inv) (fu_specs u) /\ forall op, fu_may op s -> is_Some (fu_do op s).
Proof using Hu.
  intros [D1 D2] H0 Hr. destruct (fopened_inv s0 H0) as (I0 & B1 & B2). destruct (fo_rx _ Hu) as [(G1 & G2 & G3 & G4 & G5 & _) Hk].
  pose proof (frames_pool_laws (fu_checked u) (fu_gr u) G1) as L1.
  assert (Hsp : Forall (spec_ok (fu_rva u) (fu_rlen u) (fu_kf u) owned inv) (fu_specs u)).
  { apply Forall_forall. intros sp Hsp. rewrite Forall_forall in B2, D1. destruct (B2 sp Hsp) as (S1 & S2 & S3). split; try done; [by apply frames_pool_laws|by apply D1]. }
  assert (Hlay : l_FrameSize lay = 2 ^ fu_kf u) by (rewrite G5; unfold fsize; by rewrite G2).
  assert (Hcap : g_count (fu_gr u) <= 2 ^ fu_kr u) by lia. pose proof (fo_apart _ Hu) as Hd.
  assert (Hs : exists lost, fu_inv lost s) by (by eapply (fan_freach_inv (fu_pin u) (fu_csum u) lay)). split; [done|]. split; [done|].
  intros op Hop. destruct Hs as [lost Hs]. edestruct (fan_fdo_inv (fu_pin u) (fu_csum u) lay own owned held_by (fu_specs u) (fu_gr u) (fu_rva u) (fu_rlen u) (fu_kf u) (fu_bufLen u) (fu_ks u) (fu_kr u) inv) as (s' & lost' & E & _); try done.
Qed.
End opened.



(** ** Properties *)

Section properties.
Context {D : Type} `{!PMD D}.



(** C34: No call a program may make of the DPDK queues indexes out of range,
    from any state it can reach. *)
Theorem dpdk_device_never_panics (u : fsetup) (own : bool) (owned held_by : D -> list Z) s0 s op :
  fsetup_ok u -> fdrivers u owned held_by -> fopened u owned held_by s0 -> fu_reach u own owned held_by s0 s ->
  fu_may u own owned held_by op s -> is_Some (fu_do u op s).
Proof using. intros Hu Hd H0 Hr Hm. by apply (fu_reach_inv u Hu own owned held_by s0 s Hd H0 Hr). Qed.


(** However a receive queue of the DPDK backend is polled, what [Receive]
    hands out and what a poll has stashed are together exactly what the same
    driver gives a queue with nothing in front of it, in the same order.  The
    plain queue sees the same fills, recycles and device, a receive of 64 for
    every poll, and every receive that was not served from the stash; one fails
    where the other does. *)
Theorem dpdk_poll_order {P} `{!FramePool P} (pin : res Z) ops (q : QRx P) (dr : D) w :
  exists pops, all_reach (e_closed q) ops pops /\
  match prun pops (e_q q) dr w with
  | Some (all, r, dr', w') => exists out q', erun pin ops q dr w = Some (out, q', dr', w') /\ e_q q' = r /\ e_closed q' = e_closed q /\ out ++ e_stash q' = e_stash q ++ all
  | None => erun pin ops q dr w = None
  end.
Proof using. destruct (erun_fronts pin ops q dr w) as (pops & H1 & H2). by exists pops. Qed.
End properties.

(** ** A concrete device *)

(** Eight frames of 512 bytes: two for each of two rings, four to receive into. *)
Definition exRing0 : Config := mkConfig 4096 exRVA exLayout 0x100 0 2 4 false true false false true.
Definition exRing1 : Config := mkConfig 4096 exRVA exLayout 0x180 2 2 4 false true false false true.
Definition exSpec0 : ringspec := mkSpec (mkGeo 9 0 2) 0x100 2.
Definition exSpec1 : ringspec := mkSpec (mkGeo 9 2 2) 0x180 2.
Definition exFan : fsetup := mkFsetup true (Ok 0) false [(exRing0, exSpec0); (exRing1, exSpec1)] exCr (mkGeo 9 4 4) 9 2 2.

#[local] Instance ex_fan_pool : FramePool Frames := frames_pool true.

Definition exMade (c : Config) : DTx Frames := match NewDTx (New true) c with Some (Ok t) => t | _ => mkDTx exNoBase 0 zeroDTxStats end.
Definition exHw (c : Config) : hwring Frames fakePMD := mkHw (exMade c) (mkFake []) exEmpty.
Definition exUnplaced : placement := mkPlacement false 0 None.
Definition exF0 : fsys Frames fakePMD := Eval vm_compute in
  mkFsys (mkQTx [exHw exRing0; exHw exRing1] 0 exUnplaced false) (mkQRx exDRx [] exUnplaced false) (mkFake []) exEmpty exEmpty (replicate 4096 0) [].

Lemma exF_config c g : g_log g = 9 -> 0 <= g_first g -> 0 <= g_count g -> g_first g + g_count g <= 8 -> c_FirstFrame c = g_first g -> c_Frames c = g_count g ->
  c_Layout c = exLayout -> c_RegionVA c = exRVA -> c_regionLen c = 4096 -> 0 <= c_PoolVA c < 2 ^ 64 -> config_for exFan c g.
Proof.
  intros H1 H2 H3 H4 H5 H6 H7 H8 H9 H10. unfold config_for, geo_ok, fsize. rewrite H1, H7, H8, H9. change (2 ^ 9) with 512. split_and!; try done; lia.
Qed.

Lemma exF_setup : fsetup_ok exFan.
Proof.
  split.
  - discriminate.
  - repeat constructor; try discriminate; apply exF_config; cbn; lia || reflexivity.
  - discriminate.
  - split; [apply exF_config; cbn; lia || reflexivity|discriminate].
  - repeat split; discriminate.
  - change (NoDup [0; 512; 1024; 1536; 2048; 2560; 3072; 3584]). apply (bool_decide_unpack _). vm_compute. exact I.
Qed.

Lemma exF_drivers : fdrivers exFan fk_holding fk_none.
Proof. split; [constructor; [apply fake_tx|constructor; [apply fake_tx|constructor]]|exact (fake_rx_driver 4096 (fu_bufLen exFan) 2 2 eq_refl)]. Qed.

Lemma exF_opened : fopened exFan fk_holding fk_none exF0.
Proof.
  split; [|reflexivity|split; [vm_compute; reflexivity|reflexivity]|split_and!; [apply exEmpty_fifo|apply exEmpty_fifo|reflexivity]|exact exMem|reflexivity].
  constructor; [|constructor; [|constructor]]; (split; [vm_compute; reflexivity|split; [apply exEmpty_fifo|reflexivity]]).
Qed.

Lemma run_reach (u : fsetup) own {D} `{!PMD D} (owned held_by : D -> list Z) s0 ops : forall s s', fu_reach u own owned held_by s0 s ->
  Forall (fun op => match op with FAlloc _ | FReclaim _ | FFill _ | FLook | FReceive _ | FClose => True | _ => False end) ops ->
  foldM (fun s op => fu_do u op s) ops s = Some s' -> fu_reach u own owned held_by s0 s'.
Proof.
  induction ops as [|op ops IH]; intros s s' Hr Hops E; cbn [foldM] in E; [by injection E as <-|]. apply Forall_cons in Hops as [Hop Hops].
  destruct (fu_do u op s) as [s1|] eqn:E1; cbn [mbind option_bind] in E; [|done]. eapply IH; [|done|exact E]. eapply (freach_step _ _ _ _ _ _ _ _ _ _ _ _ _ _ op); [exact Hr| |exact E1]. by destruct op.
Qed.

(** A frame allocated, three supplied, a poll that takes one and a receive. *)
Definition exFanOps : list (fop fakePMD) := [FAlloc 1; FFill 3; FLook; FReceive 1; FLook].
Definition exF1 : fsys Frames fakePMD := Eval vm_compute in default exF0 (foldM (fun s op => fu_do exFan op s) exFanOps exF0).

Lemma exF_reach : fu_reach exFan true fk_holding fk_none exF0 exF1.
Proof. apply (run_reach exFan true fk_holding fk_none exF0 exFanOps exF0 exF1); [apply freach_init|repeat constructor|vm_compute; reflexivity]. Qed.

(** Two frames of the first ring allocated and transmitted one by one, the
    second over the other ring, and both completed. *)
Definition exStep (op : fop fakePMD) (s : fsys Frames fakePMD) : fsys Frames fakePMD := default s (fu_do exFan op s).
Definition exL1 : fsys Frames fakePMD := Eval vm_compute in exStep (FAlloc 2) exF0.
Definition exD1 : Desc := Eval vm_compute in match f_held exL1 with d :: _ => mkDesc (Addr d) 60 0 | [] => mkDesc 0 0 0 end.
Definition exD2 : Desc := Eval vm_compute in match f_held exL1 with _ :: d :: _ => mkDesc (Addr d) 60 0 | _ => mkDesc 0 0 0 end.
Definition exL2 : fsys Frames fakePMD := Eval vm_compute in exStep (FTransmit [exD1] [exD2]) exL1.
Definition exL3 : fsys Frames fakePMD := Eval vm_compute in exStep (FTransmit [exD2] []) exL2.
Definition exL4 : fsys Frames fakePMD := Eval vm_compute in exStep (FComplete 4) exL3.

Lemma exL_reach : fu_reach exFan false fk_holding fk_none exF0 exL4.
Proof.
  apply (freach_step _ _ _ _ _ _ _ _ _ _ _ _ _ _ (FComplete 4) exL3); [|discriminate|vm_compute; reflexivity].
  apply (freach_step _ _ _ _ _ _ _ _ _ _ _ _ _ _ (FTransmit [exD2] []) exL2); [|split; [reflexivity|repeat constructor; discriminate]|vm_compute; reflexivity].
  apply (freach_step _ _ _ _ _ _ _ _ _ _ _ _ _ _ (FTransmit [exD1] [exD2]) exL1); [|split; [reflexivity|repeat constructor; discriminate]|vm_compute; reflexivity].
  apply (freach_step _ _ _ _ _ _ _ _ _ _ _ _ _ _ (FAlloc 2) exF0); [constructor|exact I|vm_compute; reflexivity].
Qed.


Lemma dpdk_device_never_panics_witness : is_Some (fu_do exFan (FReceive 4) exF1) /\ is_Some (fu_do exFan (FComplete 4) exL4).
Proof.
  split; [exact (dpdk_device_never_panics exFan true fk_holding fk_none exF0 exF1 (FReceive 4) exF_setup exF_drivers exF_opened exF_reach I)|].
  apply (dpdk_device_never_panics exFan false fk_holding fk_none exF0 exL4 (FComplete 4) exF_setup exF_drivers exF_opened exL_reach). discriminate.
Defined.



(** ** What the code does not do *)

(** The interface says that the part of a batch [Transmit] did not take, or
    frames allocated earlier, may be transmitted later.  Over two rings the
    next [Transmit] goes to the other ring; when that finishes, [Complete] puts
    the frame on that ring's free list, which refuses it.  Here two frames are
    allocated and transmitted one by one, and both sent: one of them is on no
    free list and with no driver, and only a counter says so. *)
Lemma transmit_later_leaks :
  exists d1 d2 q1 q2 q3 region2 region3 region4 q4,
    q_Alloc (Ok 0) 2 (f_tx exF0) = Some ([d1; d2], q1) /\
    q_Transmit (Ok 0) [mkDesc (Addr d1) 60 0] (f_region exF0) q1 = Some (1, region2, q2) /\
    q_Transmit (Ok 0) [mkDesc (Addr d2) 60 0] region2 q2 = Some (1, region3, q3) /\
    q_Complete 4 region3 q3 = Some (2, region4, q4) /\
    q_NumInFlight q4 = 0 /\ q_NumFreeFrames q4 = 3 /\ map (fun h => rejected (d_pool (x_base (h_tx h)))) (q_qs q4) = [0; 1] /\ q_Err [0; 0] q4 = None.
Proof.
  do 9 eexists. split; [vm_compute; reflexivity|]. split; [vm_compute; reflexivity|]. split; [vm_compute; reflexivity|].
  split; [vm_compute; reflexivity|]. split_and!; vm_compute; reflexivity.
Qed.
