(* ===== verification/Csum.v ===== *)
(** Software checksums of the AF_PACKET backend: afpacket/csum.go.

    [completeL4] finishes a partial transport checksum in place.  A frame is a
    list of bytes; [None] is an index out of range. *)

From stdpp Require Import prelude list numbers strings.
From S2P Require Import Prelude Bytes Desc.

(** ** onesComplement *)

(** The loop over whole 16-bit words, and the odd byte after it. *)
Fixpoint sum_words (b : list Z) (sum : Z) : Z :=
  match b with
  | hi :: lo :: b => sum_words b (u32 (sum + Z.lor (Z.shiftl hi 8) lo))
  | [x] => u32 (sum + Z.shiftl x 8)
  | [] => sum
  end.

(** [for sum>>16 != 0 { sum = sum&0xffff + sum>>16 }]. *)
Fixpoint fold_carries (fuel : nat) (sum : Z) : option Z :=
  if Z.shiftr sum 16 =? 0 then Some sum
  else match fuel with
       | O => None
       | S fuel => fold_carries fuel (u32 (Z.land sum 0xffff + Z.shiftr sum 16))
       end.

(** Two rounds reach 16 bits from any 32-bit sum; see [fold_carries_ends]. *)
Definition onesComplement (b : list Z) : option Z :=
  sum ← fold_carries 2 (sum_words b 0);
  Some (0xffff - u16 sum).

(** ** completeL4 *)

(** [uint16(f[i])<<8 | uint16(f[i+1])]. *)
Definition be16 (i : Z) (f : list Z) : option Z :=
  a ← get_at i f; b ← get_at (i + 1) f; Some (Z.lor (Z.shiftl a 8) b).

Definition is_tpid (et : Z) : bool :=
  (et =? 0x8100) || (et =? 0x88a8) || (et =? 0x9100) || (et =? 0x9200) || (et =? 0x9300).

(** Where the type is, after every VLAN tag; at most a tag for every four
    bytes. *)
Fixpoint tags_end (fuel : nat) (l3 : Z) (f : list Z) : option Z :=
  if l3 + 4 <=? zlen f then
    et ← be16 l3 f;
    if is_tpid et then match fuel with O => None | S fuel => tags_end fuel (l3 + 4) f end
    else Some l3
  else Some l3.

(** What the length field of the IP header says. *)
Definition ip_end (l3 : Z) (f : list Z) : option Z :=
  let hdr := l3 + 2 in
  if (hdr + 8 <=? zlen f) && (zlen f <=? hdr + 0xffff) then
    et ← be16 l3 f;
    if et =? 0x0800 then n ← be16 (hdr + 2) f; Some (hdr + n)
    else if et =? 0x86dd then n ← be16 (hdr + 4) f; Some (hdr + 40 + n)
    else Some (zlen f)
  else Some (zlen f).

Definition sum_end (at_ : Z) (f : list Z) : option Z :=
  l3 ← tags_end (length f) 12 f;
  e ← ip_end l3 f;
  Some (if (e >? zlen f) || (e <? at_ + 2) || ((e <? zlen f) && (zlen f >? l3 + 2 + 46)) then zlen f else e).

Definition completeL4 (frame : list Z) (csumStart csumOff : Z) : option (bool * list Z) :=
  if (csumStart <? 0) || (csumOff <? 0) then Some (false, frame)
  else if (csumStart >? zlen frame) || (csumOff >? zlen frame - csumStart - 2) then Some (false, frame)
  else
    let at_ := csumStart + csumOff in
    if at_ + 2 >? zlen frame then Some (false, frame)
    else
      e ← sum_end at_ frame;
      range ← slice csumStart e frame;
      sum ← onesComplement range;
      let sum := if sum =? 0 then 0xffff else sum in
      frame ← put_be 2 at_ sum frame;
      Some (true, frame).

(** ** completeOffloads *)

Definition chained (cont : option (list bool)) (i : nat) : option bool :=
  match cont with
  | None => Some false
  | Some c =>
      a ← c !! i;
      if (a : bool) then Some true
      else match i with O => Some false | S j => c !! j end
  end.

Definition clear_needs_csum (o : Offload) : Offload :=
  mkOffload (Flags o &^ OffloadNeedsCsum) (GSOType o) (HdrLen o) (GSOSize o) (CsumStart o) (CsumOff o).

(** One frame of the batch: its metadata and bytes after, and whether the
    offsets did not fit. *)
Definition complete_one (cont : option (list bool)) (i : nat) (o : Offload) (frame : list Z) : option (Offload * list Z * bool) :=
  if (Z.land (Flags o) OffloadNeedsCsum =? 0) || Segmented o then Some (o, frame, false)
  else
    ch ← chained cont i;
    if (ch : bool) then Some (o, frame, false)
    else
      '(ok, frame) ← completeL4 frame (CsumStart o) (CsumOff o);
      Some (if (ok : bool) then (clear_needs_csum o, frame, false) else (o, frame, true)).

Fixpoint completeOffloads (cont : option (list bool)) (i : nat) (offs : list Offload) (frames : list (list Z)) :
    option (list Offload * list (list Z) * Z) :=
  match offs, frames with
  | o :: offs, f :: frames =>
      '(o, f, bad1) ← complete_one cont i o f;
      '(offs, frames, bad) ← completeOffloads cont (S i) offs frames;
      Some (o :: offs, f :: frames, if (bad1 : bool) then bad + 1 else bad)
  | [], _ => Some ([], frames, 0)
  | _, [] => None
  end.

(** ** The sums *)

(** The sum of the 16-bit big-endian words of [b], an odd byte padded. *)
Fixpoint wsum (b : list Z) : Z :=
  match b with
  | hi :: lo :: b => hi * 256 + lo + wsum b
  | [x] => x * 256
  | [] => 0
  end.

Lemma list_pair_ind {A} (Q : list A -> Prop) :
  Q [] -> (forall x, Q [x]) -> (forall x y l, Q l -> Q (x :: y :: l)) -> forall l, Q l.
Proof.
  intros H0 H1 H2 l. assert (Q l /\ forall x, Q (x :: l)) as [? _]; [|done]. induction l as [|x l [IH1 IH2]]; [by split|]. split; [done|]. intros y. by apply H2.
Qed.

Lemma lor_word hi lo : byte_ok lo -> Z.lor (Z.shiftl hi 8) lo = hi * 256 + lo.
Proof. intros Hl. unfold byte_ok in Hl. rewrite Z.lor_comm, (lor_shiftl_add lo hi 8) by lia. lia. Qed.

Lemma wsum_range b : bytes_ok b -> 0 <= wsum b <= 65535 * ((zlen b + 1) / 2).
Proof.
  induction b as [|x|x y b IH] using list_pair_ind; intros Hb; cbn [wsum]; [done| |].
  - apply Forall_cons in Hb as [Hx _]. unfold byte_ok in Hx. change (zlen [x]) with 1. change ((1 + 1) / 2) with 1. lia.
  - apply Forall_cons in Hb as [Hx Hb]. apply Forall_cons in Hb as [Hy Hb]. specialize (IH Hb). unfold byte_ok in *. rewrite !zlen_cons.
    replace (1 + (1 + zlen b) + 1) with (zlen b + 1 + 1 * 2) by lia. rewrite Z.div_add by lia. lia.
Qed.

(** No sum of at most 2^17 bytes leaves 32 bits. *)
Lemma sum_words_spec b : bytes_ok b -> forall sum, 0 <= sum -> sum + wsum b < 2 ^ 32 -> sum_words b sum = sum + wsum b.
Proof.
  induction b as [|x|x y b IH] using list_pair_ind; intros Hb sum Hs Hr; cbn [sum_words wsum] in *; [lia| |].
  - apply Forall_cons in Hb as [Hx _]. unfold byte_ok in Hx. rewrite Z.shiftl_mul_pow2 by lia. rewrite u32_small by lia. lia.
  - apply Forall_cons in Hb as [Hx Hb]. apply Forall_cons in Hb as [Hy Hb]. rewrite lor_word by done. pose proof (proj1 (wsum_range b Hb)). unfold byte_ok in *.
    rewrite u32_small by lia. rewrite IH by (done || lia). lia.
Qed.

(** One round keeps the value modulo 2^16-1 and a sum that was not zero so. *)
Lemma fold_round sum : 0 <= sum < 2 ^ 32 ->
  let s := u32 (Z.land sum 0xffff + Z.shiftr sum 16) in
  s = sum mod 65536 + sum / 65536 /\ s mod 65535 = sum mod 65535 /\ (s = 0 <-> sum = 0).
Proof.
  intros Hs. cbv zeta. change 0xffff with (2 ^ 16 - 1). rewrite (land_ones_mod sum 16), Z.shiftr_div_pow2 by lia. change (2 ^ 16) with 65536. rewrite u32_small by divlia.
  split; [done|]. split; [|divlia]. rewrite (Z.div_mod sum 65536) at 3 by lia.
  replace (65536 * (sum / 65536) + sum mod 65536) with (sum mod 65536 + sum / 65536 + sum / 65536 * 65535) by lia. by rewrite Z_mod_plus_full.
Qed.

Lemma fold_carries_ends sum : 0 <= sum < 2 ^ 32 ->
  exists s, fold_carries 2 sum = Some s /\ 0 <= s < 2 ^ 16 /\ s mod 65535 = sum mod 65535 /\ (s = 0 <-> sum = 0).
Proof.
  assert (Hstop : forall s, 0 <= s < 2 ^ 32 -> (Z.shiftr s 16 =? 0) = (s <? 2 ^ 16)).
  { intros s Hs. rewrite Z.shiftr_div_pow2 by lia. destruct (Z.ltb_spec s (2 ^ 16)); [apply Z.eqb_eq|apply Z.eqb_neq]; divlia. }
  intros Hs. cbn [fold_carries]. rewrite (Hstop sum Hs). destruct (Z.ltb_spec sum (2 ^ 16)); [exists sum; split; [done|lia]|].
  pose proof (fold_round sum Hs) as (E1 & M1 & Z1). generalize dependent (u32 (Z.land sum 0xffff + Z.shiftr sum 16)). intros s1 E1 M1 Z1. assert (Hs1 : 0 <= s1 < 2 ^ 17) by (rewrite E1; divlia).
  rewrite (Hstop s1) by lia. destruct (Z.ltb_spec s1 (2 ^ 16)); [exists s1; split; [done|lia]|].
  pose proof (fold_round s1 ltac:(lia)) as (E2 & M2 & Z2). generalize dependent (u32 (Z.land s1 0xffff + Z.shiftr s1 16)). intros s2 E2 M2 Z2. assert (Hs2 : 0 <= s2 < 2 ^ 16) by (rewrite E2; divlia).
  rewrite (Hstop s2) by lia. rewrite (proj2 (Z.ltb_lt s2 _)) by lia. exists s2. split; [done|]. split; [done|]. split; [congruence|]. rewrite Z2. exact Z1.
Qed.

(** The folded complement: with the words it was made of it sums to all ones. *)
Lemma onesComplement_spec b : bytes_ok b -> zlen b <= 2 ^ 17 ->
  exists c, onesComplement b = Some c /\ 0 <= c < 2 ^ 16 /\ (wsum b + c) mod 65535 = 0 /\ (c = 65535 <-> wsum b = 0).
Proof.
  intros Hb Hl. pose proof (wsum_range b Hb) as Hw. assert (Hlt : wsum b < 2 ^ 32) by (assert ((zlen b + 1) / 2 <= 65536) by divlia; nia).
  unfold onesComplement. rewrite sum_words_spec by (done || lia). rewrite Z.add_0_l.
  destruct (fold_carries_ends (wsum b) ltac:(lia)) as (s & -> & Hs & Hm & Hz). cbn [mbind option_bind]. rewrite u16_small by lia.
  exists (65535 - s). split; [done|]. split; [lia|]. split; [|lia].
  rewrite Zplus_mod, <- Hm, <- Zplus_mod. replace (s + (65535 - s)) with 65535 by lia. done.
Qed.

(** Words add up over a boundary between words. *)
Lemma wsum_app a b : Z.even (zlen a) = true -> wsum (a ++ b) = wsum a + wsum b.
Proof.
  induction a as [|x|x y a IH] using list_pair_ind; intros He; [done|done|].
  cbn [app wsum]. rewrite IH; [lia|]. rewrite !zlen_cons in He. replace (1 + (1 + zlen a)) with (zlen a + 2) in He by lia. by rewrite Z.even_add, eqb_true_iff in He.
Qed.

(** Cuts a frame at the sum's start, its checksum field and the sum's end. *)
Lemma cut_field {A} (f : list A) s o e : 0 <= s -> 0 <= o -> s + o + 2 <= e -> e <= zlen f ->
  exists pre a x y c post, f = pre ++ (a ++ [x; y] ++ c) ++ post /\ zlen pre = s /\ zlen a = o /\ zlen c = e - (s + o + 2).
Proof.
  intros Hs Ho He Hl. exists (take (Z.to_nat s) f), (take (Z.to_nat o) (drop (Z.to_nat s) f)).
  destruct (get_at_Some (s + o) f ltac:(lia)) as [x Hx]. destruct (get_at_Some (s + o + 1) f ltac:(lia)) as [y Hy]. rewrite get_at_lookup in Hx, Hy by lia.
  exists x, y, (take (Z.to_nat (e - (s + o + 2))) (drop (Z.to_nat (s + o + 2)) f)), (drop (Z.to_nat e) f).
  split; [|autorewrite with word; lia].
  rewrite <- (take_drop (Z.to_nat s) f) at 1. f_equal. rewrite <- (take_drop (Z.to_nat o) (drop (Z.to_nat s) f)) at 1. rewrite <- !app_assoc. f_equal.
  rewrite drop_drop. replace (Z.to_nat s + Z.to_nat o)%nat with (Z.to_nat (s + o)) by lia. rewrite (drop_S f x (Z.to_nat (s + o)) Hx).
  replace (S (Z.to_nat (s + o))) with (Z.to_nat (s + o + 1)) by lia. rewrite (drop_S f y _ Hy). replace (S (Z.to_nat (s + o + 1))) with (Z.to_nat (s + o + 2)) by lia.
  cbn [app]. do 2 f_equal. rewrite <- (take_drop (Z.to_nat (e - (s + o + 2))) (drop (Z.to_nat (s + o + 2)) f)) at 1. f_equal. rewrite drop_drop. f_equal. lia.
Qed.

(** ** The end of the summed range *)

Lemma be16_Some i f : 0 <= i -> i + 2 <= zlen f -> exists v, be16 i f = Some v.
Proof.
  intros Hi Hl. unfold be16. destruct (get_at_Some i f ltac:(lia)) as [a ->]. destruct (get_at_Some (i + 1) f ltac:(lia)) as [b ->]. eauto.
Qed.

(** [k] VLAN tags from offset [l3] on. *)
Definition tagged (l3 : Z) (k : nat) (f : list Z) : Prop :=
  forall j, (j < k)%nat -> exists t, be16 (l3 + 4 * Z.of_nat j) f = Some t /\ is_tpid t = true.

Lemma tagged_S l3 k f : tagged l3 (S k) f <-> (exists t, be16 l3 f = Some t /\ is_tpid t = true) /\ tagged (l3 + 4) k f.
Proof.
  split.
  - intros H. split.
    + destruct (H 0%nat ltac:(lia)) as (t & Ht & Hi). exists t. by rewrite Z.add_0_r in Ht.
    + intros j Hj. destruct (H (S j) ltac:(lia)) as (t & Ht & Hi). exists t. split; [|done]. rewrite <- Ht. f_equal. lia.
  - intros [(t & Ht & Hi) H] [|j] Hj; [exists t; by rewrite Z.add_0_r|]. destruct (H j ltac:(lia)) as (t' & Ht' & Hi'). exists t'. split; [|done]. rewrite <- Ht'. f_equal. lia.
Qed.

(** The walk ends, behind a run of tags, where there is no whole tag. *)
Lemma tags_end_total fuel : forall l3 f, 0 <= l3 -> zlen f < l3 + 4 * Z.of_nat fuel + 4 ->
  exists k, tags_end fuel l3 f = Some (l3 + 4 * Z.of_nat k) /\ tagged l3 k f.
Proof.
  induction fuel as [|fuel IH]; intros l3 f Hl Hf; cbn [tags_end].
  - rewrite (proj2 (Z.leb_gt _ _)) by lia. exists 0%nat. split; [f_equal; lia|]. intros j Hj; lia.
  - destruct (Z.leb_spec (l3 + 4) (zlen f)); [|exists 0%nat; split; [f_equal; lia|intros j Hj; lia]].
    destruct (be16_Some l3 f ltac:(lia) ltac:(lia)) as [v Hv]. rewrite Hv. cbn [mbind option_bind]. destruct (is_tpid v) eqn:Et; [|exists 0%nat; split; [f_equal; lia|intros j Hj; lia]].
    destruct (IH (l3 + 4) f ltac:(lia) ltac:(lia)) as (k & -> & Hk). exists (S k). split; [f_equal; lia|]. apply tagged_S. split; [eauto|done].
Qed.

(** It stops at the first type that is not a tag. *)
Lemma tags_end_exact fuel : forall k l3 f t, (k <= fuel)%nat -> 0 <= l3 -> tagged l3 k f -> l3 + 4 * Z.of_nat k + 4 <= zlen f ->
  be16 (l3 + 4 * Z.of_nat k) f = Some t -> is_tpid t = false -> tags_end fuel l3 f = Some (l3 + 4 * Z.of_nat k).
Proof.
  induction fuel as [|fuel IH]; intros k l3 f t Hk Hl Ht Hf Hb Hi; cbn [tags_end]; rewrite (proj2 (Z.leb_le _ _)) by lia.
  - replace k with 0%nat in * by lia. rewrite Z.add_0_r in *. rewrite Hb. cbn [mbind option_bind]. by rewrite Hi.
  - destruct k as [|k]; [rewrite Z.add_0_r in *; rewrite Hb; cbn [mbind option_bind]; by rewrite Hi|].
    apply tagged_S in Ht as [(u & Hu & Hui) Ht]. rewrite Hu. cbn [mbind option_bind]. rewrite Hui. replace (l3 + 4 * Z.of_nat (S k)) with (l3 + 4 + 4 * Z.of_nat k) in * by lia. eapply IH; eauto; lia.
Qed.

Lemma ip_end_total l3 f : 0 <= l3 -> exists e, ip_end l3 f = Some e.
Proof.
  intros Hl. unfold ip_end. case_if; [|eauto]. destruct (be16_Some l3 f ltac:(lia) ltac:(lia)) as [v ->]. cbn [mbind option_bind].
  repeat case_if; eauto; match goal with |- context [be16 ?i f] => destruct (be16_Some i f ltac:(lia) ltac:(lia)) as [n ->] end; cbn [mbind option_bind]; eauto.
Qed.

Lemma sum_end_total at_ f : at_ + 2 <= zlen f -> exists e, sum_end at_ f = Some e /\ at_ + 2 <= e <= zlen f.
Proof.
  intros Ha. unfold sum_end. destruct (tags_end_total (length f) 12 f ltac:(lia) ltac:(unfold zlen; lia)) as (k & -> & _). cbn [mbind option_bind].
  destruct (ip_end_total (12 + 4 * Z.of_nat k) f ltac:(lia)) as [e ->]. cbn [mbind option_bind]. eexists. split; [done|].
  destruct (_ || _) eqn:E; [lia|]. to_prop. rewrite Z.gtb_ltb in *. to_prop. lia.
Qed.

(** An IP packet of a frame: behind [k] tags, of the length its header gives,
    reaching to the end of the frame or to the padding of a minimal one. *)
Definition ip_packet (f : list Z) (pe : Z) : Prop :=
  exists k n, let l3 := 12 + 4 * Z.of_nat k in
    tagged 12 k f /\ l3 + 10 <= zlen f /\ (zlen f <= l3 + 48 \/ pe = zlen f) /\ pe <= zlen f /\
    ((be16 l3 f = Some 0x0800 /\ be16 (l3 + 4) f = Some n /\ pe = l3 + 2 + n) \/
     (be16 l3 f = Some 0x86dd /\ be16 (l3 + 6) f = Some n /\ pe = l3 + 42 + n)).

Lemma sum_end_packet at_ f pe e : ip_packet f pe -> at_ + 2 <= pe -> sum_end at_ f = Some e -> e = pe.
Proof.
  intros (k & n & Ht & Hl & Hp & Hpe & Hty) Ha. unfold sum_end. set (l3 := 12 + 4 * Z.of_nat k) in *.
  assert (Hend : exists t, be16 l3 f = Some t /\ is_tpid t = false) by (destruct Hty as [(-> & _)|(-> & _)]; eauto).
  destruct Hend as (t & Hbt & Hit). rewrite (tags_end_exact (length f) k 12 f t) by (done || unfold zlen, l3 in *; lia). fold l3. cbn [mbind option_bind].
  assert (He : exists e0, ip_end l3 f = Some e0 /\ (e0 = pe \/ (e0 = zlen f /\ pe = zlen f))).
  { unfold ip_end. destruct (_ && _) eqn:E.
    - destruct Hty as [(Hb & Hn & ->)|(Hb & Hn & ->)]; rewrite Hb; cbn [mbind option_bind]; cbn [Z.eqb Pos.eqb].
      + replace (l3 + 2 + 2) with (l3 + 4) by lia. rewrite Hn. cbn [mbind option_bind]. eauto.
      + replace (l3 + 2 + 4) with (l3 + 6) by lia. rewrite Hn. cbn [mbind option_bind]. eexists. split; [done|]. left. lia.
    - exists (zlen f). split; [done|]. apply andb_false_iff in E as [E|E]; to_prop; lia. }
  destruct He as (e0 & -> & He). cbn [mbind option_bind]. intros [= <-]. case_if; destruct He as [->|[-> He]]; try lia.
Qed.

(** ** completeL4 *)

Definition field_fits (frame : list Z) (csumStart csumOff : Z) : Prop :=
  0 <= csumStart /\ 0 <= csumOff /\ csumStart + csumOff + 2 <= zlen frame.

Lemma completeL4_refused frame cs co : ~ field_fits frame cs co -> completeL4 frame cs co = Some (false, frame).
Proof.
  intros Hn. unfold completeL4, field_fits in *. rewrite !Z.gtb_ltb. repeat case_if; try done.
  exfalso. apply Hn. lia.
Qed.

Lemma be_bytes_2 c : 0 <= c < 2 ^ 16 -> exists x y, be_bytes 2 c = [x; y] /\ x * 256 + y = c /\ byte_ok x /\ byte_ok y.
Proof.
  intros Hc. exists (c / 256), (c mod 256). unfold be_bytes. cbn [le_bytes rev app]. unfold byte_ok.
  repeat split; try divlia. f_equal. divlia.
Qed.

(** What completion leaves behind: two bytes changed, never to zero, so that
    the range sums with the partial to all ones. *)
Record completed (frame : list Z) (cs co e : Z) (frame' : list Z) : Prop := mkCompleted {
  cp_field : exists c, 0 < c < 2 ^ 16 /\ frame' = blit (cs + co) (be_bytes 2 c) frame;
  cp_start : 0 <= cs /\ 0 <= co;
  cp_range : cs + co + 2 <= e <= zlen frame;
  cp_sum : Z.even co = true -> forall partial range, be16 (cs + co) frame = Some partial -> slice cs e frame' = Some range ->
    (partial + wsum range) mod 65535 = 0 }.

Lemma be16_mid pre x y post : byte_ok y -> be16 (zlen pre) (pre ++ x :: y :: post) = Some (x * 256 + y).
Proof.
  intros Hy. pose proof (zlen_nonneg pre). unfold be16. rewrite !get_at_lookup by lia.
  replace (Z.to_nat (zlen pre)) with (length pre + 0)%nat by (unfold zlen; lia). replace (Z.to_nat (zlen pre + 1)) with (length pre + 1)%nat by (unfold zlen; lia).
  rewrite !lookup_app_r, !Nat.add_sub' by lia. cbn [lookup list_lookup mbind option_bind]. by rewrite lor_word.
Qed.

Lemma completed_sum pre a x y c post s :
  bytes_ok (a ++ [x; y] ++ c) -> 0 <= s < 2 ^ 16 -> (wsum (a ++ [x; y] ++ c) + s) mod 65535 = 0 ->
  let frame := pre ++ (a ++ [x; y] ++ c) ++ post in
  let cs := zlen pre in let co := zlen a in
  0 < s -> completed frame cs co (cs + co + 2 + zlen c) (blit (cs + co) (be_bytes 2 s) frame).
Proof.
  intros Hb Hs Hm frame cs co Hpos. destruct (be_bytes_2 s Hs) as (u & v & Huv & Hsum & Hu & Hv).
  assert (Hfr : frame = (pre ++ a) ++ [x; y] ++ c ++ post) by (unfold frame; by rewrite <- !app_assoc).
  assert (Hbl : blit (cs + co) (be_bytes 2 s) frame = pre ++ (a ++ [u; v] ++ c) ++ post).
  { rewrite Hfr, Huv. unfold cs, co. rewrite <- zlen_app. rewrite blit_app_mid by done. by rewrite <- !app_assoc. }
  constructor.
  - exists s. split; [lia|done].
  - split; apply zlen_nonneg.
  - subst frame. autorewrite with word. pose proof (zlen_nonneg c). pose proof (zlen_nonneg post). unfold cs, co. lia.
  - intros He p range Hp Hr. rewrite Hbl in Hr.
    replace (cs + co + 2 + zlen c) with (zlen pre + zlen (a ++ [u; v] ++ c)) in Hr by (autorewrite with word; unfold cs, co; lia).
    unfold cs in Hr. rewrite slice_app_mid in Hr. injection Hr as <-. apply Forall_app in Hb as [_ Hb]. apply Forall_cons in Hb as [Hx Hb]. apply Forall_cons in Hb as [Hy _].
    rewrite Hfr in Hp. unfold cs, co in Hp. rewrite <- zlen_app in Hp. cbn [app] in Hp. rewrite be16_mid in Hp by done. injection Hp as <-.
    rewrite wsum_app in * by done. cbn [app wsum] in *. rewrite <- Hm. f_equal. lia.
Qed.

(** [completeL4] never indexes outside the frame, whatever the two offsets
    are.  A pair that does not fit leaves the frame as it was; otherwise the two
    bytes of the field, and only they, change, to a sum that is not zero and
    with which the summed range and the partial that was in the field add up to
    ones-complement zero - what the receiver checks.  The range ends where the
    packet inside ends, behind any VLAN tags and before any padding. *)
Lemma completeL4_spec frame cs co :
  bytes_ok frame -> zlen frame <= 2 ^ 17 ->
  exists ok frame', completeL4 frame cs co = Some (ok, frame') /\
    (ok = true <-> field_fits frame cs co) /\ (ok = false -> frame' = frame) /\
    (ok = true -> exists e, completed frame cs co e frame' /\
       forall pe, ip_packet frame pe -> cs + co + 2 <= pe -> e = pe).
Proof.
  intros Hb Hl. destruct (decide (0 <= cs /\ 0 <= co /\ cs + co + 2 <= zlen frame)) as [Hf|Hf].
  2:{ exists false, frame. by rewrite completeL4_refused. }
  destruct (sum_end_total (cs + co) frame ltac:(lia)) as (e & He & Hr).
  assert (Hc : exists c, completeL4 frame cs co = Some (true, blit (cs + co) (be_bytes 2 c) frame) /\ 0 < c < 2 ^ 16 /\
    exists range, slice cs e frame = Some range /\ (wsum range + c) mod 65535 = 0).
  { unfold completeL4. rewrite !Z.gtb_ltb, !(proj2 (Z.ltb_ge _ _)) by lia. cbn [orb]. rewrite He. cbn [mbind option_bind].
    rewrite slice_Some by lia. cbn [mbind option_bind]. set (range := take _ _).
    destruct (onesComplement_spec range) as (c & -> & Hcr & Hcm & _); [by apply Forall_take, Forall_drop|subst range; autorewrite with word; lia|]. cbn [mbind option_bind].
    exists (if c =? 0 then 0xffff else c). rewrite put_be_Some by lia. split; [done|]. split; [case_if; lia|]. exists range. split; [done|].
    case_if; [subst c|done]. rewrite Z.add_0_r in Hcm. by rewrite Zplus_mod, Hcm. }
  destruct Hc as (c & HL & Hcr & range & Hs & Hm). exists true, (blit (cs + co) (be_bytes 2 c) frame). split; [done|]. split; [done|]. split; [done|].
  intros _. exists e. split; [|intros pe Hpe Hin; by eapply sum_end_packet].
  destruct (cut_field frame cs co e) as (pre & a & x & y & w & post & -> & <- & <- & Hw); [lia..|].
  replace e with (zlen pre + zlen (a ++ [x; y] ++ w)) in Hs by (autorewrite with word; lia). rewrite slice_app_mid in Hs. injection Hs as <-.
  replace e with (zlen pre + zlen a + 2 + zlen w) by lia. apply completed_sum; [|lia|done|lia].
  apply Forall_app in Hb as [_ Hb]. by apply Forall_app in Hb as [Hb _].
Qed.

(** ** completeOffloads *)

(** What becomes of one slot of the batch; [bad] says that it is counted. *)
Inductive slot_done (cont : option (list bool)) (i : nat) (o : Offload) (f : list Z) : Offload -> list Z -> bool -> Prop :=
| SlotNone : Z.land (Flags o) OffloadNeedsCsum = 0 -> slot_done cont i o f o f false
| SlotSuper : Segmented o = true -> slot_done cont i o f o f false
| SlotChained : chained cont i = Some true -> slot_done cont i o f o f false
| SlotRefused : ~ field_fits f (CsumStart o) (CsumOff o) -> slot_done cont i o f o f true
| SlotCompleted e f' : chained cont i = Some false -> Segmented o = false -> completed f (CsumStart o) (CsumOff o) e f' ->
    (forall pe, ip_packet f pe -> CsumStart o + CsumOff o + 2 <= pe -> e = pe) -> slot_done cont i o f (clear_needs_csum o) f' false.

Inductive batch_done (cont : option (list bool)) : nat -> list Offload -> list (list Z) -> list Offload -> list (list Z) -> Z -> Prop :=
| BatchNil i frames : batch_done cont i [] frames [] frames 0
| BatchCons i o f o' f' bad offs frames offs' frames' n :
    slot_done cont i o f o' f' bad -> batch_done cont (S i) offs frames offs' frames' n ->
    batch_done cont i (o :: offs) (f :: frames) (o' :: offs') (f' :: frames') (n + if bad then 1 else 0).

Lemma chained_Some cont i : (forall c, cont = Some c -> (i < length c)%nat) -> exists b, chained cont i = Some b.
Proof.
  intros Hc. unfold chained. destruct cont as [c|]; [|eauto]. specialize (Hc c eq_refl).
  destruct (lookup_lt_is_Some_2 c i Hc) as [a ->]. cbn [mbind option_bind]. destruct a; [eauto|]. destruct i as [|j]; [eauto|]. destruct (lookup_lt_is_Some_2 c j ltac:(lia)) as [b ->]. eauto.
Qed.

Lemma complete_one_done cont i o f : (forall c, cont = Some c -> (i < length c)%nat) -> bytes_ok f -> zlen f <= 2 ^ 17 ->
  exists o' f' bad, complete_one cont i o f = Some (o', f', bad) /\ slot_done cont i o f o' f' bad.
Proof.
  intros Hc Hb Hl. unfold complete_one. destruct (Z.eqb_spec (Z.land (Flags o) OffloadNeedsCsum) 0) as [E|E]; cbn [orb]; [eexists _, _, _; split; [done|]; by apply SlotNone|].
  destruct (Segmented o) eqn:Es; [eexists _, _, _; split; [done|]; by apply SlotSuper|].
  destruct (chained_Some cont i Hc) as [[|] Hch]; rewrite Hch; cbn [mbind option_bind]; [eexists _, _, _; split; [done|]; by apply SlotChained|].
  destruct (completeL4_spec f (CsumStart o) (CsumOff o) Hb Hl) as (ok & f' & -> & Hok & Hno & Hyes). cbn [mbind option_bind]. destruct ok.
  - destruct (Hyes eq_refl) as (e & He & Hpe). eexists _, _, _. split; [done|]. by eapply SlotCompleted.
  - rewrite (Hno eq_refl). eexists _, _, _. split; [done|]. apply SlotRefused. rewrite <- Hok. done.
Qed.

(** [completeOffloads] goes through the whole batch without indexing outside
    anything, whatever offsets the metadata carry.  A slot that needs nothing, a
    super-frame and a piece of a chained packet keep their bytes and metadata.
    Offsets that do not fit leave the frame as it was, the flag set, and are
    counted.  Of every other frame two bytes change and the flag is cleared: the
    field gets a sum that is not zero, with which the range from the transport
    header on and the partial add up to ones-complement zero, and the range ends
    where the IP packet does, behind any VLAN tags and before any padding. *)
Lemma completeOffloads_done cont offs i frames :
  (forall c, cont = Some c -> (i + length offs <= length c)%nat) -> (length offs <= length frames)%nat ->
  Forall (fun f => bytes_ok f /\ zlen f <= 2 ^ 17) frames ->
  exists offs' frames' bad, completeOffloads cont i offs frames = Some (offs', frames', bad) /\ batch_done cont i offs frames offs' frames' bad.
Proof.
  revert i frames. induction offs as [|o offs IH]; intros i frames Hc Hl Hf; [eexists _, _, _; split; [done|]; constructor|].
  destruct frames as [|f frames]; [simpl in Hl; lia|]. apply Forall_cons in Hf as [[Hb Hz] Hf]. cbn [completeOffloads length] in *.
  destruct (complete_one_done cont i o f) as (o' & f' & bad & -> & Hs); [intros c Ec; specialize (Hc c Ec); lia|done|done|].
  destruct (IH (S i) frames) as (offs' & frames' & n & -> & Hbd); [intros c Ec; specialize (Hc c Ec); lia|lia|done|]. cbn [mbind option_bind].
  eexists _, _, _. split; [done|]. replace (if bad then n + 1 else n) with (n + if bad then 1 else 0) by (destruct bad; lia). by constructor.
Qed.
