(* ===== verification/AfTx.v ===== *)
(** Frame memory of the AF_PACKET backend: afpacket/region.go.

    The struct is that of mlx5 without the huge-page flag, so the record of
    [Mlx5Region] is used with that flag off; the methods are written out here
    and shown to be the same functions. *)

From stdpp Require Import prelude list numbers strings.
From S2P Require Import Prelude Bytes Desc Pool Mlx5Region.

(** [mmap size] is what the kernel answers; memory it maps is zero. *)
Definition af_newRegion (mmap : Z -> res unit) (frames frameSize : Z) : res region :=
  if (frames <=? 0) || (frameSize <=? 0) then Err (Errorf "afpacket: a region of no frames or no bytes")
  else if negb (Z.land frameSize (frameSize - 1) =? 0) then Err (Errorf "afpacket: frame size is not a power of two")
  else match mmap (frames * frameSize) with
       | Err e => Err (Errorf "afpacket: mapping frame memory")
       | Ok _ => Ok (mkRegion (replicate (Z.to_nat (frames * frameSize)) 0) frameSize (u64 (frameSize - 1)) frames false)
       end.

Definition af_Frame (r : region) (d : Desc) : option (option (list Z)) :=
  if (Addr d >=? zlen (rg_b r)) || (u64 (Addr d + Len d) >? zlen (rg_b r)) then Some None
  else b ← slice (Addr d) (u64 (Addr d + Len d)) (rg_b r); Some (Some b).

Definition af_Writable (r : region) (d : Desc) : option (option (list Z)) :=
  if Addr d >=? zlen (rg_b r) then Some None
  else
    let end_ := u64 ((Addr d) &^ (rg_frameMask r) + rg_frameMask r + 1) in
    let end_ := if end_ >? zlen (rg_b r) then zlen (rg_b r) else end_ in
    b ← slice (Addr d) end_ (rg_b r); Some (Some b).

Lemma af_Writable_same r d : af_Writable r d = Writable r d. Proof. done. Qed.
Lemma af_Frame_same r d : af_Frame r d = RegionFrame r d. Proof. done. Qed.

(** A region that was made is one of whole frames of a power of two bytes. *)
Lemma af_newRegion_ok mmap frames frameSize r : frameSize <= 2 ^ 31 -> frames < 2 ^ 31 -> af_newRegion mmap frames frameSize = Ok r ->
  exists kf, region_ok kf r /\ frameSize = 2 ^ kf /\ zlen (rg_b r) = frames * 2 ^ kf.
Proof.
  intros Hs Hf. unfold af_newRegion. case_if; [done|]. case_if; [done|]. destruct (mmap _); [|done]. intros [= <-].
  destruct (land_pred_pow2 frameSize ltac:(lia) E) as (k & Hk & Hp). exists k. cbn [rg_b rg_frameMask]. rewrite zlen_replicate, Z2Nat.id by nia.
  rewrite <- Hp. split; [|done]. assert (k <= 32) by (destruct (decide (k <= 32)) as [|Hbig]; [done|]; assert (2 ^ 32 <= 2 ^ k) by (apply Z.pow_le_mono_r; lia); lia).
  unfold region_ok. cbn [rg_b rg_frameMask]. rewrite zlen_replicate, Z2Nat.id by nia. rewrite <- Hp, u64_small by lia. rewrite Z.mod_mul by lia. nia.
Qed.

(** The transmit queue of the AF_PACKET backend: afpacket/txqueue.go.

    A queue owns message headers that point at iovecs, which point at frame
    memory, at virtio headers or at the caller's own segments.  All three
    arrays are memory of the model, the pointers are data, and what the kernel
    is given is what it finds by following them at the time of the call.  The
    iovec array of the chained path is made anew when it is too small; the
    arrays it has been are all kept, since a message may still point into one.

    The kernel is the [Kernel] class.  [None] is a panic, or a pointer the
    kernel cannot follow.  Scratch slices that carry nothing from one call to
    the next ([descs], [addrs], [chainLens]) are values of the call. *)

Definition txBatch : Z := 256.
Definition maxChainBufs : Z := 1023.
Definition chainIovBudget : Z := 2048.
Definition maxPending : Z := 4096.
Definition frameHeadroom : Z := 64.
Definition maxStall : Z := 16.

Definition EINTR : Z := 4.
Definition EAGAIN : Z := 11.
Definition ENOBUFS : Z := 105.

(** ** Memory the kernel reads *)

(** [&region.b[addr]], [&hdrs[i][0]] and [&segs[k][0]]. *)
Inductive mem_ptr : Set := PFrame (addr : Z) | PHdr (i : Z) | PSeg (k : Z).
Record Iovec : Set := mkIov { io_base : option mem_ptr; io_len : Z }.

(** [&iovs[i]], [&iovs2[i]], and element [i] of the [a]-th array [chainIovs]
    has been. *)
Inductive iov_ptr : Set := AtIovs (i : Z) | AtIovs2 (i : Z) | AtChain (a : nat) (i : Z).
Record Msghdr : Set := mkMsg { m_iov : option iov_ptr; m_iovlen : Z }.

Record wiring : Set := mkWiring {
  w_msgs : list Msghdr; w_iovs : list Iovec; w_hdrs : list (list Z); w_iovs2 : list Iovec; w_arrays : list (list Iovec); w_msgsChained : bool
}.

Record counters : Set := mkCounters {
  n_sent : Z; n_bytes : Z; n_batches : Z; n_drops : Z; n_ringFull : Z; n_rejected : Z; n_errno : Z
}.

Record AfTx (P : Type) : Type := mkAfTx {
  at_gso : bool; at_pool : P; at_wiring : wiring; at_pending : list Desc; at_pendingN : Z; at_n : counters; at_closed : bool
}.
Arguments mkAfTx {P}. Arguments at_gso {P}. Arguments at_pool {P}. Arguments at_wiring {P}. Arguments at_pending {P}.
Arguments at_pendingN {P}. Arguments at_n {P}. Arguments at_closed {P}.

(** [sendmmsg] of the messages' bytes: the count, the errno, the state after. *)
Class Kernel (K : Type) := {
  k_wire : K -> list (list Z);
  sendmmsg : list (list Z) -> K -> Z * Z * K
}.

(** sendmmsg(2): without an error it tells how many messages it sent, the first
    of the vector in order; with one it sent none. *)
Class KernelLaws (K : Type) `{Kernel K} := {
  k_sent ms k got errno k' : sendmmsg ms k = (got, errno, k') -> errno = 0 ->
    0 <= got <= zlen ms /\ k_wire k' = k_wire k ++ take (Z.to_nat got) ms;
  k_failed ms k got errno k' : sendmmsg ms k = (got, errno, k') -> errno <> 0 -> k_wire k' = k_wire k
}.

(** What the kernel finds behind a message. *)
Definition read_iov (b : list Z) (hdrs segs : list (list Z)) (v : Iovec) : option (list Z) :=
  match io_base v with
  | Some (PFrame a) => slice a (a + io_len v) b
  | Some (PHdr i) => h ← get_at i hdrs; slice 0 (io_len v) h
  | Some (PSeg k) => s ← get_at k segs; slice 0 (io_len v) s
  | None => if io_len v =? 0 then Some [] else None
  end.

Definition iovs_at (w : wiring) (p : iov_ptr) (n : Z) : option (list Iovec) :=
  match p with
  | AtIovs i => slice i (i + n) (w_iovs w)
  | AtIovs2 i => slice i (i + n) (w_iovs2 w)
  | AtChain a i => arr ← w_arrays w !! a; slice i (i + n) arr
  end.

Definition read_msg (b : list Z) (segs : list (list Z)) (w : wiring) (m : Msghdr) : option (list Z) :=
  p ← m_iov m;
  vs ← iovs_at w p (m_iovlen m);
  parts ← mapM (read_iov b (w_hdrs w) segs) vs;
  Some (concat parts).

(** ** Updates *)

Definition w_with_msgs (m : list Msghdr) (w : wiring) : wiring := mkWiring m (w_iovs w) (w_hdrs w) (w_iovs2 w) (w_arrays w) (w_msgsChained w).
Definition w_with_iovs (v : list Iovec) (w : wiring) : wiring := mkWiring (w_msgs w) v (w_hdrs w) (w_iovs2 w) (w_arrays w) (w_msgsChained w).
Definition w_with_hdrs (h : list (list Z)) (w : wiring) : wiring := mkWiring (w_msgs w) (w_iovs w) h (w_iovs2 w) (w_arrays w) (w_msgsChained w).
Definition w_with_iovs2 (v : list Iovec) (w : wiring) : wiring := mkWiring (w_msgs w) (w_iovs w) (w_hdrs w) v (w_arrays w) (w_msgsChained w).
Definition w_with_arrays (a : list (list Iovec)) (w : wiring) : wiring := mkWiring (w_msgs w) (w_iovs w) (w_hdrs w) (w_iovs2 w) a (w_msgsChained w).
Definition w_with_chained (b : bool) (w : wiring) : wiring := mkWiring (w_msgs w) (w_iovs w) (w_hdrs w) (w_iovs2 w) (w_arrays w) b.

Definition count_ringFull (c : counters) : counters :=
  mkCounters (n_sent c) (n_bytes c) (n_batches c) (n_drops c) (u64 (n_ringFull c + 1)) (n_rejected c) (n_errno c).
Definition count_rejected (c : counters) : counters :=
  mkCounters (n_sent c) (n_bytes c) (n_batches c) (n_drops c) (n_ringFull c) (u64 (n_rejected c + 1)) (n_errno c).
Definition count_drops (n errno : Z) (c : counters) : counters :=
  mkCounters (n_sent c) (n_bytes c) (n_batches c) (u64 (n_drops c + n)) (n_ringFull c) (n_rejected c) (if errno =? 0 then n_errno c else errno).
Definition count_batch (frames bytes : Z) (c : counters) : counters :=
  mkCounters (u64 (n_sent c + frames)) (u64 (n_bytes c + bytes)) (u64 (n_batches c + 1)) (n_drops c) (n_ringFull c) (n_rejected c) (n_errno c).

Section queue.
Context {P : Type} `{!FramePool P} {K : Type} `{!Kernel K}.
Implicit Types q : AfTx P.

Definition at_with_pool (p : P) q : AfTx P := mkAfTx (at_gso q) p (at_wiring q) (at_pending q) (at_pendingN q) (at_n q) (at_closed q).
Definition at_with_wiring (w : wiring) q : AfTx P := mkAfTx (at_gso q) (at_pool q) w (at_pending q) (at_pendingN q) (at_n q) (at_closed q).
Definition at_with_pending (l : list Desc) q : AfTx P := mkAfTx (at_gso q) (at_pool q) (at_wiring q) l (zlen l) (at_n q) (at_closed q).
Definition at_count (f : counters -> counters) q : AfTx P := mkAfTx (at_gso q) (at_pool q) (at_wiring q) (at_pending q) (at_pendingN q) (f (at_n q)) (at_closed q).

(** ** Wiring *)

(** One message of the loop. *)
Definition wire_one (gso : bool) (w : wiring) (i : Z) : option wiring :=
  if gso then
    _ ← get_at (2 * i) (w_iovs2 w);
    msgs ← set_at i (mkMsg (Some (AtIovs2 (2 * i))) 2) (w_msgs w);
    _ ← get_at i (w_hdrs w);
    iovs2 ← set_at (2 * i) (mkIov (Some (PHdr i)) OffloadHdrLen) (w_iovs2 w);
    Some (w_with_iovs2 iovs2 (w_with_msgs msgs w))
  else
    _ ← get_at i (w_iovs w);
    msgs ← set_at i (mkMsg (Some (AtIovs i)) 1) (w_msgs w);
    Some (w_with_msgs msgs w).

Definition wireOnePerPacket (gso : bool) (w : wiring) : option wiring :=
  w ← foldM (wire_one gso) (seqZ 0 (zlen (w_msgs w))) w;
  Some (w_with_chained false w).

Definition af_newTxQueue (newPool : Z -> Z -> Z -> option P) (rg : region) (firstFrame frames : Z) (gso : bool) : option (AfTx P) :=
  p ← newPool firstFrame frames (rg_frameSize rg);
  let n := Z.to_nat txBatch in
  let hdrs := if gso then replicate n (replicate (Z.to_nat OffloadHdrLen) 0) else [] in
  let iovs2 := if gso then replicate (2 * n) (mkIov None 0) else [] in
  w ← wireOnePerPacket gso (mkWiring (replicate n (mkMsg None 0)) (replicate n (mkIov None 0)) hdrs iovs2 [] false);
  Some (mkAfTx gso p w [] 0 (mkCounters 0 0 0 0 0 0 0) false).

(** ** sendAll *)

(** [segs] is the caller's memory.  One system call a round; see [sendAll_ends]
    for the fuel. *)
Fixpoint send_loop (fuel : nat) (b : list Z) (segs : list (list Z)) (w : wiring) (n sent stall : Z) (c : counters) (k : K) : option (Z * counters * K) :=
  if sent <? n then
    match fuel with
    | O => None
    | S fuel =>
        msgs ← slice sent n (w_msgs w);
        ms ← mapM (read_msg b segs w) msgs;
        let '(got, errno, k) := sendmmsg ms k in
        if (errno =? 0) && (got >? 0) then send_loop fuel b segs w n (sent + got) 0 c k
        else if (errno =? EAGAIN) || (errno =? ENOBUFS) then Some (sent, count_ringFull c, k)
        else
          let stall := stall + 1 in
          if (negb (errno =? 0) && negb (errno =? EINTR)) || (stall >=? maxStall) then Some (sent, count_drops (n - sent) errno c, k)
          else send_loop fuel b segs w n sent stall c k
    end
  else Some (sent, c, k).

Definition sendAll (b : list Z) (segs : list (list Z)) (n : Z) q (k : K) : option (Z * AfTx P * K) :=
  '(sent, c, k) ← send_loop (Z.to_nat (maxStall * n)) b segs (at_wiring q) n 0 0 (at_n q) k;
  Some (sent, at_count (fun _ => c) q, k).

(** ** Alloc and the frames that come back *)

Definition at_NumCompleted q : Z := zlen (at_pending q).
Definition at_NumInFlight q : Z := zlen (at_pending q).
Definition at_NumFreeSlots q : Z := maxPending - zlen (at_pending q).
Definition at_NumFreeFrames q : Z := fp_Len (at_pool q).

Definition at_Alloc (n : Z) q : option (list Desc * AfTx P) :=
  if at_closed q then Some ([], q)
  else
    '(addrs, p) ← fp_Pop (Z.min n (at_NumFreeSlots q)) [] (at_pool q);
    Some (map (fun a => mkDesc (u64 (a + frameHeadroom)) 0 0) addrs, at_with_pool p q).

Definition at_push (ds : list Desc) q : option (AfTx P) :=
  p ← foldM (fun p d => fp_Push (fp_Base p (Addr d)) p) ds (at_pool q);
  Some (at_with_pool p q).

(** [n] is at most what is pending. *)
Definition at_drop (n : Z) q : option (AfTx P) :=
  rest ← slice n (zlen (at_pending q)) (at_pending q);
  Some (at_with_pending rest q).

Definition at_Complete (max : Z) q : option (Z * AfTx P) :=
  let n := Z.min max (zlen (at_pending q)) in
  if n <=? 0 then Some (0, q)
  else
    done ← slice 0 n (at_pending q);
    q ← at_push done q;
    q ← at_drop n q;
    Some (n, q).

Definition at_Reclaim (max : Z) (out : list Desc) q : option (list Desc * AfTx P) :=
  let n := Z.min max (zlen (at_pending q)) in
  if n <=? 0 then Some (out, q)
  else
    done ← slice 0 n (at_pending q);
    q ← at_drop n q;
    Some (out ++ done, q).

Definition at_Free (ds : list Desc) q : option (AfTx P) := at_push ds q.

Definition at_Close q : AfTx P := mkAfTx (at_gso q) (at_pool q) (at_wiring q) (at_pending q) (at_pendingN q) (at_n q) true.
Definition at_Err q : option error := if at_closed q then Some (Sentinel ErrClosed) else None.
Definition at_LastErrno q : Z := n_errno (at_n q).

(** packetio.TxStats, the counters this backend fills, and its own two. *)
Record AfTxStats : Set := mkAfTxStats {
  as_Packets : Z; as_Bytes : Z; as_Completed : Z; as_Batches : Z; as_RingFull : Z; as_Errors : Z; as_rejected_descs : Z; as_pool_rejected : Z
}.
Definition at_Stats q : AfTxStats :=
  let c := at_n q in
  mkAfTxStats (n_sent c) (n_bytes c) (u64 (n_sent c - u64 (at_pendingN q))) (n_batches c) (n_ringFull c)
    (u64 (n_drops c + n_rejected c)) (n_rejected c) (fp_rejected (at_pool q)).

(** ** What a descriptor and its metadata must say *)

Definition zeroOffload : Offload := mkOffload 0 0 0 0 0 0.

Definition checkOffload (o : Offload) (n : Z) : option error :=
  if negb (Z.land (Flags o) OffloadNeedsCsum =? 0) &&
     ((CsumStart o >? n) || (CsumOff o >? n - CsumStart o) || (u32 (CsumOff o + 2) >? n - CsumStart o))
  then Some (Errorf "checksum field does not fit")
  else if Segmented o then
    if GSOSize o =? 0 then Some (Errorf "segmented but the segment size is zero")
    else if HdrLen o >? n then Some (Errorf "header length is past the frame")
    else None
  else None.

(** [w == nil || d.Len == 0 || int(d.Len) > len(w)] is not so. *)
Definition desc_inside (rg : region) (d : Desc) : option bool :=
  w ← af_Writable rg d;
  Some (match w with
        | None => false
        | Some w => negb (Len d =? 0) && negb (Len d >? zlen w)
        end).

Definition not_inside : error := Wrap ErrBadLength "names bytes which are not inside one frame".
Definition bad_offload : error := Wrap ErrBadLength "the offload does not fit the packet".

(** How many descriptors of a batch may go, and why not the next; [offs] is the
    batch's. *)
Fixpoint check_batch (rg : region) (batch : list Desc) (offs : option (list Offload)) : option (Z * option error) :=
  match batch with
  | [] => Some (0, None)
  | d :: batch =>
      ok ← desc_inside rg d;
      if negb ok then Some (0, Some not_inside)
      else
        e ← match offs with
            | None => Some None
            | Some [] => None
            | Some (o :: _) => Some (checkOffload o (Len d))
            end;
        match e with
        | Some _ => Some (0, Some bad_offload)
        | None =>
            '(n, refused) ← check_batch rg batch (tail <$> offs);
            Some (n + 1, refused)
        end
  end.

(** ** Transmit, one frame per packet *)

(** [o.Marshal(q.hdrs[i][:])]. *)
Definition put_hdr (i : Z) (o : Offload) (w : wiring) : option wiring :=
  h ← get_at i (w_hdrs w);
  h ← Marshal o h;
  hdrs ← set_at i h (w_hdrs w);
  Some (w_with_hdrs hdrs w).

(** [&q.region.b[d.Addr]] with its length. *)
Definition iov_of (rg : region) (d : Desc) : option Iovec :=
  _ ← get_at (Addr d) (rg_b rg);
  Some (mkIov (Some (PFrame (Addr d))) (Len d)).

(** Slot [i] of the single-frame path. *)
Definition fill_one (gso : bool) (rg : region) (i : Z) (d : Desc) (offs : option (list Offload)) (w : wiring) : option wiring :=
  if gso then
    o ← match offs with None => Some zeroOffload | Some os => head os end;
    w ← put_hdr i o w;
    v ← iov_of rg d;
    iovs2 ← set_at (2 * i + 1) v (w_iovs2 w);
    Some (w_with_iovs2 iovs2 w)
  else
    v ← iov_of rg d;
    iovs ← set_at i v (w_iovs w);
    Some (w_with_iovs iovs w).

Fixpoint fill_batch (gso : bool) (rg : region) (i : Z) (batch : list Desc) (offs : option (list Offload)) (w : wiring) : option wiring :=
  match batch with
  | [] => Some w
  | d :: batch =>
      w ← fill_one gso rg i d offs w;
      fill_batch gso rg (i + 1) batch (tail <$> offs) w
  end.

Definition sum_lens (ds : list Desc) : Z := foldl (fun n d => u64 (n + Len d)) 0 ds.

(** What follows a send of frames: the counters and the pending list. *)
Definition account (sent : list Desc) q : AfTx P :=
  at_with_pending (at_pending q ++ sent) (at_count (count_batch (zlen sent) (sum_lens sent)) q).

Definition note_refused (refused : option error) q : AfTx P :=
  match refused with Some _ => at_count count_rejected q | None => q end.

(** One round of the loop: how many went, whether the call returns, and with
    what. *)
Definition transmit_batch (rg : region) (batch : list Desc) (offs : option (list Offload)) q (k : K) : option (Z * bool * option error * AfTx P * K) :=
  '(n, refused) ← check_batch rg batch offs;
  if n >? 0 then
    good ← slice 0 n batch;
    w ← fill_batch (at_gso q) rg 0 good offs (at_wiring q);
    '(sent, q, k) ← sendAll (rg_b rg) [] n (at_with_wiring w q) k;
    went ← slice 0 sent batch;
    let q := account went q in
    if sent <? n then Some (sent, true, refused, note_refused refused q, k)
    else Some (sent, match refused with Some _ => true | None => false end, refused, note_refused refused q, k)
  else Some (0, match refused with Some _ => true | None => false end, refused, note_refused refused q, k).

(** [off] advances by a whole batch, so the fuel need not exceed the frames. *)
Fixpoint transmit_loop (fuel : nat) (rg : region) (descs : list Desc) (offs : option (list Offload)) (off total : Z) q (k : K)
    : option (Z * option error * AfTx P * K) :=
  if off <? zlen descs then
    match fuel with
    | O => None
    | S fuel =>
        batch ← slice off (Z.min (off + txBatch) (zlen descs)) descs;
        os ← match offs with None => Some None | Some os => os ← slice off (zlen os) os; Some (Some os) end;
        '(sent, stop, err, q, k) ← transmit_batch rg batch os q k;
        if (stop : bool) then Some (total + sent, err, q, k)
        else transmit_loop fuel rg descs offs (off + txBatch) (total + sent) q k
    end
  else Some (total, None, q, k).
(** ** Packets of several frames *)

Fixpoint chainLen_from (n : Z) (descs : list Desc) : res Z :=
  match descs with
  | [] => Err (Errorf "the last descriptor still says the packet continues")
  | d :: descs =>
      if Z.land (Options d) OptContinued =? 0 then
        if n + 1 >? maxChainBufs then Err (Errorf "a packet of more buffers than one message carries") else Ok (n + 1)
      else chainLen_from (n + 1) descs
  end.
Definition chainLen (descs : list Desc) : res Z := chainLen_from 0 descs.

(** The frames of one packet, and their length together. *)
Fixpoint check_frames (rg : region) (length : Z) (chain : list Desc) : option (res Z) :=
  match chain with
  | [] => Some (Ok length)
  | d :: chain =>
      ok ← desc_inside rg d;
      if negb ok then Some (Err not_inside) else check_frames rg (u32 (length + Len d)) chain
  end.

Fixpoint check_zero (offs : list Offload) (idx : list Z) : option (option error) :=
  match idx with
  | [] => Some None
  | i :: idx =>
      o ← get_at i offs;
      if decide (o = zeroOffload) then check_zero offs idx
      else Some (Some (Wrap ErrBadLength "continues a packet, so its offload metadata must be zero"))
  end.

(** [at_] is the packet's place in [offs]. *)
Definition checkChain (rg : region) (chain : list Desc) (offs : option (list Offload)) (at_ : Z) : option (option error) :=
  r ← check_frames rg 0 chain;
  match r, offs with
  | Err e, _ => Some (Some e)
  | Ok _, None => Some None
  | Ok length, Some offs =>
      z ← check_zero offs (seqZ (at_ + 1) (zlen chain - 1));
      match z with
      | Some e => Some (Some e)
      | None =>
          o ← get_at at_ offs;
          Some (match checkOffload o length with Some _ => Some bad_offload | None => None end)
      end
  end.

Definition need_of (gso : bool) (n : Z) : Z := if gso then n + 1 else n.

(** The first pass: the whole packets that go in this batch, how many iovecs
    they take, and why not the next. *)
Fixpoint chain_pass (fuel : nat) (gso : bool) (rg : region) (rest : list Desc) (offs : option (list Offload)) (left : Z)
    (lens : list Z) (iovN descN : Z) : option (list Z * Z * option error) :=
  if (descN <? zlen rest) && (zlen lens <? txBatch) then
    match fuel with
    | O => None
    | S fuel =>
        rest1 ← slice descN (zlen rest) rest;
        match chainLen rest1 with
        | Err _ => Some (lens, iovN, Some (Wrap ErrBadLength "not a whole packet"))
        | Ok n =>
            if (iovN + need_of gso n >? chainIovBudget) || (descN + n >? left) then Some (lens, iovN, None)
            else
              chain ← slice descN (descN + n) rest;
              e ← checkChain rg chain offs descN;
              match e with
              | Some e => Some (lens, iovN, Some e)
              | None => chain_pass fuel gso rg rest offs left (lens ++ [n]) (iovN + need_of gso n) (descN + n)
              end
        end
    end
  else Some (lens, iovN, None).

(** [chainIovs] is the last array that was made, and long enough. *)
Definition grow_chain (iovN : Z) (w : wiring) : wiring :=
  if zlen (default [] (last (w_arrays w))) <? iovN then w_with_arrays (w_arrays w ++ [replicate (Z.to_nat iovN) (mkIov None 0)]) w else w.

Definition grow_hdrs (gso : bool) (n : Z) (w : wiring) : wiring :=
  if gso && (zlen (w_hdrs w) <? n) then w_with_hdrs (replicate (Z.to_nat n) (replicate (Z.to_nat OffloadHdrLen) 0)) w else w.

Definition set_chain (at_ : Z) (v : Iovec) (w : wiring) : option wiring :=
  let a := (length (w_arrays w) - 1)%nat in
  arr ← w_arrays w !! a;
  arr ← set_at at_ v arr;
  Some (w_with_arrays (<[a := arr]> (w_arrays w)) w).

(** The iovecs of one packet from slot [at_] on, its header first; [parts] are
    its frames or segments. *)
Fixpoint set_parts (at_ : Z) (parts : list Iovec) (w : wiring) : option (Z * wiring) :=
  match parts with
  | [] => Some (at_, w)
  | v :: parts => w ← set_chain at_ v w; set_parts (at_ + 1) parts w
  end.

Definition lay_packet (gso : bool) (m : Z) (o : Offload) (parts : list Iovec) (at_ : Z) (w : wiring) : option (Z * wiring) :=
  let start := at_ in
  '(at_, w) ← (if gso then
                 w ← put_hdr m o w;
                 w ← set_chain at_ (mkIov (Some (PHdr m)) OffloadHdrLen) w;
                 Some (at_ + 1, w)
               else Some (at_, w));
  '(at_, w) ← set_parts at_ parts w;
  msgs ← set_at m (mkMsg (Some (AtChain (length (w_arrays w) - 1) start)) (at_ - start)) (w_msgs w);
  Some (at_, w_with_chained true (w_with_msgs msgs w)).

(** The second pass over frames: message [m], slot [at_], packet at [d0]. *)
Fixpoint lay_chains (gso : bool) (rg : region) (rest : list Desc) (offs : option (list Offload)) (lens : list Z) (m at_ d0 : Z) (w : wiring) : option wiring :=
  match lens with
  | [] => Some w
  | n :: lens =>
      o ← match offs with None => Some zeroOffload | Some os => if gso then get_at d0 os else Some zeroOffload end;
      chain ← slice d0 (d0 + n) rest;
      parts ← mapM (iov_of rg) chain;
      '(at_, w) ← lay_packet gso m o parts at_ w;
      lay_chains gso rg rest offs lens (m + 1) at_ (d0 + n) w
  end.

Definition sumZ (l : list Z) : Z := foldr Z.add 0 l.

(** One round: how many frames went, whether the call returns, and with what. *)
Definition chained_batch (rg : region) (rest : list Desc) (offs : option (list Offload)) (left : Z) q (k : K) : option (Z * bool * option error * AfTx P * K) :=
  '(lens, iovN, refused) ← chain_pass (length rest) (at_gso q) rg rest offs left [] 0 0;
  match lens with
  | [] => Some (0, true, refused, match refused with Some _ => at_count count_rejected q | None => at_count count_ringFull q end, k)
  | _ :: _ =>
      let w := grow_hdrs (at_gso q) (zlen lens) (grow_chain iovN (at_wiring q)) in
      w ← lay_chains (at_gso q) rg rest offs lens 0 0 0 w;
      '(sentMsgs, q, k) ← sendAll (rg_b rg) [] (zlen lens) (at_with_wiring w q) k;
      went ← slice 0 sentMsgs lens;
      let sentDescs := sumZ went in
      gone ← slice 0 sentDescs rest;
      let q := account gone q in
      if sentMsgs <? zlen lens then Some (sentDescs, true, refused, note_refused refused q, k)
      else Some (sentDescs, match refused with Some _ => true | None => false end, refused, note_refused refused q, k)
  end.

(** Every round but the last takes at least one frame. *)
Fixpoint transmitChained (fuel : nat) (rg : region) (descs : list Desc) (offs : option (list Offload)) (room total : Z) q (k : K)
    : option (Z * option error * AfTx P * K) :=
  if total <? zlen descs then
    match fuel with
    | O => None
    | S fuel =>
        rest ← slice total (zlen descs) descs;
        os ← match offs with None => Some None | Some os => os ← slice total (zlen os) os; Some (Some os) end;
        '(sent, stop, err, q, k) ← chained_batch rg rest os (room - total) q k;
        if (stop : bool) then Some (total + sent, err, q, k)
        else transmitChained fuel rg descs offs room (total + sent) q k
    end
  else Some (total, None, q, k).

Definition continues (d : Desc) : bool := negb (Z.land (Options d) OptContinued =? 0).

Definition at_transmit (rg : region) (descs : list Desc) (offs : option (list Offload)) q (k : K) : option (Z * option error * AfTx P * K) :=
  if at_closed q then Some (0, Some (Sentinel ErrClosed), q, k)
  else if zlen descs =? 0 then Some (0, None, q, k)
  else
    let room := at_NumFreeSlots q in
    if room =? 0 then Some (0, None, at_count count_ringFull q, k)
    else if existsb continues descs then transmitChained (length descs) rg descs offs room 0 q k
    else
      '(descs, offs) ← (if zlen descs >? room then
                          ds ← slice 0 room descs;
                          match offs with None => Some (ds, None) | Some os => os ← slice 0 room os; Some (ds, Some os) end
                        else Some (descs, offs));
      w ← (if w_msgsChained (at_wiring q) then wireOnePerPacket (at_gso q) (at_wiring q) else Some (at_wiring q));
      transmit_loop (length descs) rg descs offs 0 0 (at_with_wiring w q) k.

Definition at_Transmit (rg : region) (descs : list Desc) q (k : K) : option (Z * AfTx P * K) :=
  '(n, _, q, k) ← at_transmit rg descs None q k;
  Some (n, q, k).

Definition at_TransmitOffload (rg : region) (descs : list Desc) (offs : list Offload) q (k : K) : option (Z * option error * AfTx P * K) :=
  if negb (at_gso q) then Some (0, Some (Wrap ErrUnsupported "TransmitOffload needs WithGSO"), q, k)
  else if negb (zlen offs =? zlen descs) then Some (0, Some (Wrap ErrBadLength "descriptors but offloads"), q, k)
  else at_transmit rg descs (Some offs) q k.

(** ** TransmitGather *)

(** The segments of one packet: their length together, or an empty one. *)
Fixpoint check_segs (length : Z) (segs : list (list Z)) : option Z :=
  match segs with
  | [] => Some length
  | s :: segs => if zlen s =? 0 then None else check_segs (u32 (length + u32 (zlen s))) segs
  end.

Definition bad_packet : error := Wrap ErrBadLength "packet".

(** The first pass from packet [p] on, whose segments start at [base + segN]. *)
Fixpoint gather_pass (gso : bool) (segs : list (list Z)) (offs : option (list Offload)) (base p : Z) (counts : list Z)
    (lens : list Z) (iovN segN : Z) : option (list Z * Z * option error) :=
  match counts with
  | [] => Some (lens, iovN, None)
  | n :: counts =>
      if zlen lens <? txBatch then
        if (n <=? 0) || (base + segN + n >? zlen segs) then Some (lens, iovN, Some bad_packet)
        else if n >? maxChainBufs then Some (lens, iovN, Some bad_packet)
        else
          mine ← slice (base + segN) (base + segN + n) segs;
          match check_segs 0 mine with
          | None => Some (lens, iovN, Some bad_packet)
          | Some length =>
              e ← match offs with None => Some None | Some os => o ← get_at p os; Some (checkOffload o length) end;
              match e with
              | Some _ => Some (lens, iovN, Some bad_packet)
              | None =>
                  if iovN + need_of gso n >? chainIovBudget then Some (lens, iovN, None)
                  else gather_pass gso segs offs base (p + 1) counts (lens ++ [n]) (iovN + need_of gso n) (segN + n)
              end
          end
      else Some (lens, iovN, None)
  end.

Definition seg_iov (segs : list (list Z)) (j : Z) : option Iovec :=
  s ← get_at j segs;
  _ ← get_at 0 s;
  Some (mkIov (Some (PSeg j)) (zlen s)).

(** The second pass: message [m] is packet [sent + m], its segments from [s0]. *)
Fixpoint lay_gather (gso : bool) (segs : list (list Z)) (offs : option (list Offload)) (sent : Z) (lens : list Z) (m at_ s0 : Z) (w : wiring) : option wiring :=
  match lens with
  | [] => Some w
  | n :: lens =>
      o ← match offs with None => Some zeroOffload | Some os => if gso then get_at (sent + m) os else Some zeroOffload end;
      parts ← mapM (seg_iov segs) (seqZ s0 n);
      '(at_, w) ← lay_packet gso m o parts at_ w;
      lay_gather gso segs offs sent lens (m + 1) at_ (s0 + n) w
  end.

Definition sum_segs (segs : list (list Z)) : Z := foldl (fun n s => u64 (n + zlen s)) 0 segs.

(** Every round but the last takes at least one packet. *)
Fixpoint gather_loop (fuel : nat) (rg : region) (segs : list (list Z)) (counts : list Z) (offs : option (list Offload)) (sent base : Z) q (k : K)
    : option (Z * option error * AfTx P * K) :=
  if sent <? zlen counts then
    match fuel with
    | O => None
    | S fuel =>
        todo ← slice sent (zlen counts) counts;
        '(lens, iovN, refused) ← gather_pass (at_gso q) segs offs base sent todo [] 0 0;
        match lens with
        | [] => Some (sent, refused, note_refused refused q, k)
        | _ :: _ =>
            let w := grow_hdrs (at_gso q) (zlen lens) (grow_chain iovN (at_wiring q)) in
            w ← lay_gather (at_gso q) segs offs sent lens 0 0 base w;
            '(got, q, k) ← sendAll (rg_b rg) segs (zlen lens) (at_with_wiring w q) k;
            went ← slice 0 got lens;
            let sentBufs := sumZ went in
            gone ← slice base (base + sentBufs) segs;
            let q := at_count (count_batch sentBufs (sum_segs gone)) q in
            if got <? zlen lens then Some (sent + got, refused, note_refused refused q, k)
            else match refused with
                 | Some _ => Some (sent + got, refused, note_refused refused q, k)
                 | None => gather_loop fuel rg segs counts offs (sent + got) (base + sentBufs) q k
                 end
        end
    end
  else Some (sent, None, q, k).

Definition at_TransmitGather (rg : region) (segs : list (list Z)) (counts : list Z) (offs : option (list Offload)) q (k : K)
    : option (Z * option error * AfTx P * K) :=
  if at_closed q then Some (0, Some (Sentinel ErrClosed), q, k)
  else if zlen counts =? 0 then Some (0, None, q, k)
  else match offs with
       | Some os =>
           if negb (zlen os =? zlen counts) then Some (0, Some (Wrap ErrBadLength "packets and offload descriptors"), q, k)
           else if negb (at_gso q) then Some (0, Some (Wrap ErrUnsupported "TransmitGather with offload metadata needs WithGSO"), q, k)
           else gather_loop (length counts) rg segs counts offs 0 0 q k
       | None => gather_loop (length counts) rg segs counts offs 0 0 q k
       end.

(** ** SendFunc *)

Context {St : Type} (build : Z -> list Z -> St -> Z * list Z * St).

(** The callback fills the frames one by one; a length of zero stops, one
    outside the frame fails. *)
Fixpoint at_build_loop (i : Z) (descs : list Desc) (rg : region) (s : St) (done : list Desc) : option (res (list Desc) * region * St) :=
  match descs with
  | [] => Some (Ok done, rg, s)
  | d :: ds =>
      f ← af_Writable rg d;
      let frame := default [] f in
      let '(l, b, s) := build i frame s in
      let rg := match f with Some _ => rg_store (Addr d) b rg | None => rg end in
      if l =? 0 then Some (Ok done, rg, s)
      else if (l <? 0) || (l >? zlen frame) then Some (Err (Wrap ErrBadLength "bytes into a frame"), rg, s)
      else at_build_loop (i + 1) ds rg s (done ++ [mkDesc (Addr d) (u32 l) (Options d)])
  end.

Definition at_SendFunc (count : Z) (rg : region) (s : St) q (k : K) : option (res Z * region * St * AfTx P * K) :=
  if at_closed q then Some (Err (Sentinel ErrClosed), rg, s, q, k)
  else
    '(_, q) ← at_Complete (count + at_NumInFlight q) q;
    '(descs, q) ← at_Alloc count q;
    match descs with
    | [] => Some (Ok 0, rg, s, q, k)
    | _ :: _ =>
        '(r, rg, s) ← at_build_loop 0 descs rg s [];
        match r with
        | Err e => q ← at_Free descs q; Some (Err e, rg, s, q, k)
        | Ok built =>
            q ← (if zlen built <? zlen descs then at_Free (drop (length built) descs) q else Some q);
            '(sent, q, k) ← at_Transmit rg built q k;
            q ← (if sent <? zlen built then rest ← slice sent (zlen built) built; at_Free rest q else Some q);
            Some (Ok sent, rg, s, q, k)
        end
    end.
End queue.
