(* ===== verification/AfTxWire.v ===== *)
(** What the kernel is given: the invariant of the messages and iovecs, the
    send loop, and what the kernel reads after each way of filling them. *)

From stdpp Require Import prelude list numbers strings.
From S2P Require Import Prelude Bytes Desc Pool Mlx5Region AfTx.

(** ** The send loop *)

Section send.
Context {K : Type} `{!Kernel K} `{!KernelLaws K}.

(** How the counters tell why a send stopped short. *)
Inductive stopped (n sent : Z) (c : counters) : counters -> Prop :=
| SentAll : sent = n -> stopped n sent c c
| QueueFull : sent < n -> stopped n sent c (count_ringFull c)
| SendFailed errno : sent < n -> stopped n sent c (count_drops (n - sent) errno c).

Lemma send_loop_spec b segs w n ms : mapM (read_msg b segs w) (take (Z.to_nat n) (w_msgs w)) = Some ms -> 0 <= n <= zlen (w_msgs w) ->
  forall fuel sent stall c k, 0 <= sent <= n -> 0 <= stall < maxStall -> maxStall * (n - sent) - stall <= Z.of_nat fuel ->
  exists sent' c' k', send_loop fuel b segs w n sent stall c k = Some (sent', c', k') /\ sent <= sent' <= n /\ stopped n sent' c c' /\
    k_wire k' = k_wire k ++ take (Z.to_nat (sent' - sent)) (drop (Z.to_nat sent) ms).
Proof using KernelLaws0.
  intros Hms Hn. assert (Hlen : zlen ms = n). { pose proof (mapM_Some_1 _ _ _ Hms) as Hl%Forall2_length. unfold zlen in *. rewrite length_take in Hl. lia. }
  unfold maxStall. induction fuel as [|fuel IH]; intros sent stall c k Hs Hst Hf; cbn [send_loop]; unfold maxStall.
  - replace sent with n by lia. rewrite Z.ltb_irrefl. exists n, c, k. rewrite Z.sub_diag, take_0, app_nil_r. split; [done|]. split; [lia|]. split; [by constructor|done].
  - destruct (Z.ltb_spec sent n) as [Hlt|Hge].
    2:{ replace sent with n by lia. exists n, c, k. rewrite Z.sub_diag, take_0, app_nil_r. split; [done|]. split; [lia|]. split; [by constructor|done]. }
    rewrite slice_Some by lia. cbn [mbind option_bind].
    assert (Hrd : mapM (read_msg b segs w) (take (Z.to_nat (n - sent)) (drop (Z.to_nat sent) (w_msgs w))) = Some (drop (Z.to_nat sent) ms)).
    { apply mapM_Some in Hms. apply mapM_Some. replace (Z.to_nat (n - sent)) with (Z.to_nat n - Z.to_nat sent)%nat by lia.
      rewrite <- skipn_firstn_comm. by apply Forall2_drop. }
    rewrite Hrd. cbn [mbind option_bind]. destruct (sendmmsg _ k) as [[got errno] k1] eqn:Ek.
    destruct (Z.eqb_spec errno 0) as [->|He]; cbn [andb orb negb].
    + destruct (k_sent _ _ _ _ _ Ek eq_refl) as [Hg Hw]. rewrite zlen_drop, Hlen in Hg. destruct (Z.gtb_spec got 0) as [Hgt|Hgt].
      * destruct (IH (sent + got) 0 c k1) as (s' & c' & k' & E & Hr & Hst' & Hw'); [lia..|]. exists s', c', k'. split; [done|]. split; [lia|]. split; [done|].
        rewrite Hw', Hw, <- app_assoc. f_equal. replace (Z.to_nat (s' - sent)) with (Z.to_nat got + Z.to_nat (s' - (sent + got)))%nat by lia.
        rewrite <- take_take_drop. do 2 f_equal. rewrite drop_drop. f_equal. lia.
      * replace got with 0 in Hw by lia. rewrite take_0, app_nil_r in Hw. change (0 =? EAGAIN) with false. change (0 =? ENOBUFS) with false. cbn [orb].
        destruct (Z.geb_spec (stall + 1) 16) as [Hm|Hm].
        -- eexists sent, _, k1. rewrite Z.sub_diag, take_0, app_nil_r. split; [done|]. split; [lia|]. split; [by constructor|done].
        -- destruct (IH sent (stall + 1) c k1) as (s' & c' & k' & E & Hr & Hst' & Hw'); [lia..|]. exists s', c', k'. rewrite Hw', Hw. split; [done|]. split; [lia|]. by split.
    + pose proof (k_failed _ _ _ _ _ Ek He) as Hw. destruct ((errno =? EAGAIN) || (errno =? ENOBUFS)).
      { eexists sent, _, k1. rewrite Z.sub_diag, take_0, app_nil_r. split; [done|]. split; [lia|]. split; [by constructor|done]. }
      destruct (negb (errno =? EINTR) || (stall + 1 >=? 16)) eqn:Em.
      { eexists sent, _, k1. rewrite Z.sub_diag, take_0, app_nil_r. split; [done|]. split; [lia|]. split; [by constructor|done]. }
      apply orb_false_iff in Em as [_ Em]. rewrite Z.geb_leb in Em. to_prop.
      destruct (IH sent (stall + 1) c k1) as (s' & c' & k' & E & Hr & Hst' & Hw'); [lia..|]. exists s', c', k'. rewrite Hw', Hw. split; [done|]. split; [lia|]. by split.
Qed.
End send.

(** ** The wiring *)

Definition hdr_iov (i : Z) : Iovec := mkIov (Some (PHdr i)) OffloadHdrLen.
Definition plain_msg (gso : bool) (i : Z) : Msghdr := if gso then mkMsg (Some (AtIovs2 (2 * i))) 2 else mkMsg (Some (AtIovs i)) 1.

(** Sizes that never change, the headers' iovecs, and - unless the messages say
    otherwise - every message at its own iovecs. *)
Record wired (gso : bool) (w : wiring) : Prop := mkWired {
  wi_msgs : zlen (w_msgs w) = 256;
  wi_iovs : zlen (w_iovs w) = 256;
  wi_hdrs : gso = true -> zlen (w_hdrs w) = 256 /\ Forall (fun h => zlen h = 10) (w_hdrs w);
  wi_iovs2 : gso = true -> zlen (w_iovs2 w) = 512 /\ forall i, 0 <= i < 256 -> w_iovs2 w !! Z.to_nat (2 * i) = Some (hdr_iov i);
  wi_plain : w_msgsChained w = false -> forall i, 0 <= i < 256 -> w_msgs w !! Z.to_nat i = Some (plain_msg gso i) }.

(** The sizes alone. *)
Record sized (gso : bool) (w : wiring) : Prop := mkSized {
  sz_msgs : zlen (w_msgs w) = 256;
  sz_iovs : zlen (w_iovs w) = 256;
  sz_hdrs : gso = true -> zlen (w_hdrs w) = 256 /\ Forall (fun h => zlen h = 10) (w_hdrs w);
  sz_iovs2 : gso = true -> zlen (w_iovs2 w) = 512 }.

Lemma wired_sized gso w : wired gso w -> sized gso w.
Proof. intros []. constructor; try done. intros Hg. by destruct (wi_iovs3 Hg). Qed.

Lemma get_at_is {A} i (l : list A) x : 0 <= i -> l !! Z.to_nat i = Some x -> get_at i l = Some x.
Proof. intros Hi Hl. by rewrite get_at_lookup. Qed.

Lemma lookup_set {A} (l : list A) i j (x : A) : 0 <= i < zlen l -> 0 <= j ->
  <[Z.to_nat i := x]> l !! Z.to_nat j = if decide (i = j) then Some x else l !! Z.to_nat j.
Proof.
  intros Hi Hj. case_decide as Hd; [subst j; apply list_lookup_insert_eq; unfold zlen in *; lia|]. apply list_lookup_insert_ne. lia.
Qed.

Lemma wire_one_spec gso i w : sized gso w -> 0 <= i < 256 ->
  exists w', wire_one gso w i = Some w' /\ sized gso w' /\
    (forall j, 0 <= j -> w_msgs w' !! Z.to_nat j = if decide (i = j) then Some (plain_msg gso i) else w_msgs w !! Z.to_nat j) /\
    (gso = true -> forall j, 0 <= j -> w_iovs2 w' !! Z.to_nat (2 * j) = if decide (i = j) then Some (hdr_iov i) else w_iovs2 w !! Z.to_nat (2 * j)).
Proof.
  intros [Hm Hv Hh H2] Hi. unfold wire_one, plain_msg. destruct gso.
  - destruct (Hh eq_refl) as [Hh1 Hh2]. specialize (H2 eq_refl). destruct (get_at_Some (2 * i) (w_iovs2 w) ltac:(lia)) as [v ->]. destruct (get_at_Some i (w_hdrs w) ltac:(lia)) as [h ->].
    rewrite !set_at_Some by lia. cbn [mbind option_bind]. eexists. split; [done|]. cbn.
    split; [constructor; cbn; rewrite ?zlen_insert; (done || intros _; done)|]. split; [intros j Hj; apply lookup_set; lia|].
    intros _ j Hj. rewrite lookup_set by lia. repeat case_decide; (done || lia).
  - destruct (get_at_Some i (w_iovs w) ltac:(lia)) as [v ->]. rewrite !set_at_Some by lia. cbn [mbind option_bind]. eexists. split; [done|]. cbn.
    split; [constructor; cbn; rewrite ?zlen_insert; done|]. split; [intros j Hj; apply lookup_set; lia|done].
Qed.

Lemma wire_all gso w (n : nat) : sized gso w -> (n <= 256)%nat ->
  exists w', foldM (wire_one gso) (seqZ 0 (Z.of_nat n)) w = Some w' /\ sized gso w' /\
    forall i, 0 <= i < Z.of_nat n -> w_msgs w' !! Z.to_nat i = Some (plain_msg gso i) /\ (gso = true -> w_iovs2 w' !! Z.to_nat (2 * i) = Some (hdr_iov i)).
Proof.
  intros Hs. induction n as [|n IH]; intros Hn; [exists w; split; [done|]; split; [done|]; lia|].
  destruct (IH ltac:(lia)) as (w1 & E1 & Hs1 & H1). replace (Z.of_nat (S n)) with (Z.of_nat n + 1) by lia. rewrite seqZ_app by lia. rewrite foldM_app, E1. cbn [mbind option_bind].
  change (seqZ (0 + Z.of_nat n) 1) with [0 + Z.of_nat n]. cbn [foldM]. rewrite Z.add_0_l.
  destruct (wire_one_spec gso (Z.of_nat n) w1 Hs1 ltac:(lia)) as (w2 & -> & Hs2 & Hm2 & H22). cbn [mbind option_bind]. exists w2. split; [done|]. split; [done|].
  intros i Hi. rewrite Hm2 by lia. case_decide as Hd; [subst i; split; [done|]; intros Hg; rewrite H22 by (done || lia); by rewrite decide_True|].
  destruct (H1 i ltac:(lia)) as [Ha Hb]. split; [done|]. intros Hg. rewrite H22 by (done || lia). rewrite decide_False by done. by apply Hb.
Qed.

Lemma wireOnePerPacket_spec gso w : sized gso w -> exists w', wireOnePerPacket gso w = Some w' /\ wired gso w' /\ w_msgsChained w' = false.
Proof.
  intros Hs. unfold wireOnePerPacket. rewrite (sz_msgs _ _ Hs). destruct (wire_all gso w 256 Hs ltac:(lia)) as (w1 & E & Hs1 & H1). change (Z.of_nat 256) with 256 in E, H1. rewrite E. cbn [mbind option_bind].
  eexists. split; [done|]. split; [|done]. destruct Hs1. constructor; cbn; try done.
  - intros Hg. split; [by auto|]. intros i Hi. by apply H1.
  - intros _ i Hi. by apply H1.
Qed.

(** ** What a message says *)

Definition frame_bytes (b : list Z) (d : Desc) : list Z := take (Z.to_nat (Len d)) (drop (Z.to_nat (Addr d)) b).

(** A packet on its way to the kernel: the virtio header, where there is one,
    and the frames one after the other. *)
Definition packet (gso : bool) (b : list Z) (p : Offload * list Desc) : list Z :=
  (if gso then marshalled (fst p) else []) ++ concat (map (frame_bytes b) (snd p)).

Definition inside_region (b : list Z) (d : Desc) : Prop := 0 <= Addr d /\ 0 < Len d /\ Addr d + Len d <= zlen b.

Definition frame_iov (d : Desc) : Iovec := mkIov (Some (PFrame (Addr d))) (Len d).

Lemma iov_of_Some rg d : inside_region (rg_b rg) d -> iov_of rg d = Some (frame_iov d).
Proof. intros (H1 & H2 & H3). unfold iov_of. destruct (get_at_Some (Addr d) (rg_b rg) ltac:(lia)) as [x ->]. done. Qed.

Lemma read_frame b hdrs segs d : inside_region b d -> read_iov b hdrs segs (frame_iov d) = Some (frame_bytes b d).
Proof.
  intros (H1 & H2 & H3). unfold read_iov, frame_iov. cbn [io_base io_len]. rewrite slice_Some by lia. unfold frame_bytes. do 3 f_equal. lia.
Qed.

Lemma zlen_marshalled o : zlen (marshalled o) = 10. Proof. done. Qed.

Lemma read_hdr b hdrs segs i o : 0 <= i -> hdrs !! Z.to_nat i = Some (marshalled o) -> read_iov b hdrs segs (hdr_iov i) = Some (marshalled o).
Proof. intros Hi Hh. unfold read_iov, hdr_iov. cbn [io_base io_len]. rewrite (get_at_is i hdrs _ Hi Hh). done. Qed.

Lemma put_hdr_spec i o w : Forall (fun h => zlen h = 10) (w_hdrs w) -> 0 <= i < zlen (w_hdrs w) ->
  put_hdr i o w = Some (w_with_hdrs (<[Z.to_nat i := marshalled o]> (w_hdrs w)) w).
Proof.
  intros Hf Hi. unfold put_hdr. destruct (get_at_Some i (w_hdrs w) Hi) as [h Hh]. rewrite Hh. cbn [mbind option_bind].
  assert (Hl : zlen h = 10). { rewrite get_at_lookup in Hh by lia. exact (Forall_lookup_1 _ _ _ _ Hf Hh). }
  rewrite Marshal_spec by lia. cbn [mbind option_bind]. rewrite (drop_ge h) by (unfold zlen in Hl; lia). rewrite app_nil_r. by rewrite set_at_Some.
Qed.

Lemma slice_two {A} i (l : list A) x y : 0 <= i -> l !! Z.to_nat i = Some x -> l !! Z.to_nat (i + 1) = Some y -> slice i (i + 2) l = Some [x; y].
Proof.
  intros Hi Hx Hy. pose proof (lookup_lt_Some _ _ _ Hy). rewrite slice_Some by (unfold zlen; lia). rewrite (drop_S l x _ Hx). replace (S (Z.to_nat i)) with (Z.to_nat (i + 1)) by lia.
  rewrite (drop_S l y _ Hy). by replace (Z.to_nat (i + 2 - i)) with 2%nat by lia.
Qed.

Lemma slice_one {A} i (l : list A) x : 0 <= i -> l !! Z.to_nat i = Some x -> slice i (i + 1) l = Some [x].
Proof.
  intros Hi Hx. pose proof (lookup_lt_Some _ _ _ Hx). rewrite slice_Some by (unfold zlen; lia). rewrite (drop_S l x _ Hx). by replace (Z.to_nat (i + 1 - i)) with 1%nat by lia.
Qed.

(** ** One frame per packet *)

(** The metadata of each packet: the element at its first descriptor. *)
Definition first_off (offs : option (list Offload)) : Offload := default zeroOffload (os ← offs; head os).

Fixpoint carries (offs : option (list Offload)) (ps : list (Offload * list Desc)) : Prop :=
  match ps with
  | [] => True
  | (o, c) :: ps => o = first_off offs /\ carries (drop (length c) <$> offs) ps
  end.

Fixpoint singles (offs : option (list Offload)) (ds : list Desc) : list (Offload * list Desc) :=
  match ds with
  | [] => []
  | d :: ds => (first_off offs, [d]) :: singles (tail <$> offs) ds
  end.

(** What [fill_batch] leaves: the slots below [i] as they were. *)
Record filled (gso : bool) (i : Z) (w w' : wiring) : Prop := mkFilled {
  fi_wired : wired gso w';
  fi_msgs : w_msgs w' = w_msgs w;
  fi_chained : w_msgsChained w' = w_msgsChained w;
  fi_arrays : w_arrays w' = w_arrays w;
  fi_iovs : forall j, 0 <= j < i -> w_iovs w' !! Z.to_nat j = w_iovs w !! Z.to_nat j;
  fi_iovs2 : forall j, 0 <= j < i -> w_iovs2 w' !! Z.to_nat (2 * j + 1) = w_iovs2 w !! Z.to_nat (2 * j + 1);
  fi_hdrs : forall j, 0 <= j < i -> w_hdrs w' !! Z.to_nat j = w_hdrs w !! Z.to_nat j }.

(** The slot a plain message reads. *)
Definition slot (gso : bool) (w : wiring) (i : Z) (o : Offload) (d : Desc) : Prop :=
  if gso then w_hdrs w !! Z.to_nat i = Some (marshalled o) /\ w_iovs2 w !! Z.to_nat (2 * i + 1) = Some (frame_iov d)
  else w_iovs w !! Z.to_nat i = Some (frame_iov d).

Lemma read_plain gso b segs w i o d : wired gso w -> 0 <= i < 256 -> slot gso w i o d -> inside_region b d ->
  read_msg b segs w (plain_msg gso i) = Some (packet gso b (o, [d])).
Proof.
  intros Hw Hi Hs Hin. unfold read_msg, plain_msg, slot, packet in *. destruct gso; cbn [m_iov m_iovlen mbind option_bind iovs_at fst snd map concat].
  - destruct Hs as [Hh Hv]. destruct (wi_iovs2 _ _ Hw eq_refl) as [_ H2]. rewrite (slice_two (2 * i) _ (hdr_iov i) (frame_iov d)) by (done || lia || by apply H2).
    cbn [mbind option_bind mapM]. rewrite (read_hdr _ _ _ _ o) by (done || lia). cbn [mbind option_bind]. rewrite read_frame by done. done.
  - rewrite (slice_one i _ (frame_iov d)) by (done || lia). cbn [mbind option_bind mapM]. rewrite read_frame by done. done.
Qed.

(** A list of metadata that reaches as far as the descriptors do. *)
Definition offs_reach (offs : option (list Offload)) (n : Z) : Prop := forall os, offs = Some os -> n <= zlen os.

Lemma offs_reach_tail offs n : offs_reach offs (1 + n) -> offs_reach (tail <$> offs) n.
Proof. intros Hr os Ho. destruct offs as [[|o l]|]; simplify_eq/=; specialize (Hr _ eq_refl); rewrite ?zlen_nil, ?zlen_cons in *; lia. Qed.

Lemma first_off_head offs n : offs_reach offs (1 + n) -> 0 <= n -> match offs with None => Some zeroOffload | Some os => head os end = Some (first_off offs).
Proof. intros Hr Hn. destruct offs as [[|o l]|]; [|done|done]. specialize (Hr _ eq_refl). rewrite zlen_nil in Hr. lia. Qed.

Lemma filled_refl gso i w : wired gso w -> filled gso i w w.
Proof. by constructor. Qed.

Lemma filled_trans gso i w1 w2 w3 : filled gso i w1 w2 -> filled gso (i + 1) w2 w3 -> filled gso i w1 w3.
Proof.
  intros F G. constructor.
  - apply G.
  - rewrite (fi_msgs _ _ _ _ G). apply F.
  - rewrite (fi_chained _ _ _ _ G). apply F.
  - rewrite (fi_arrays _ _ _ _ G). apply F.
  - intros j Hj. rewrite (fi_iovs _ _ _ _ G) by lia. by apply F.
  - intros j Hj. rewrite (fi_iovs2 _ _ _ _ G) by lia. by apply F.
  - intros j Hj. rewrite (fi_hdrs _ _ _ _ G) by lia. by apply F.
Qed.

Lemma iov_fill_one_spec gso rg i d offs w : wired gso w -> 0 <= i < 256 -> inside_region (rg_b rg) d -> offs_reach offs 1 ->
  exists w', fill_one gso rg i d offs w = Some w' /\ filled gso i w w' /\ slot gso w' i (first_off offs) d.
Proof.
  intros Hw Hi Hin Ho. unfold fill_one, slot. rewrite (first_off_head offs 0) by (done || lia). cbn [mbind option_bind]. rewrite iov_of_Some by done. destruct Hw as [Hm Hv Hh H2 Hp]. destruct gso.
  - destruct (Hh eq_refl) as [Hh1 Hh2]. destruct (H2 eq_refl) as [H21 H22]. rewrite put_hdr_spec by (done || lia). cbn [mbind option_bind]. rewrite set_at_Some by (cbn; lia). cbn [mbind option_bind].
    eexists. split; [done|]. split; [|cbn; rewrite !lookup_set by lia; by rewrite !decide_True].
    constructor; cbn; try done; [constructor; cbn; rewrite ?zlen_insert; try done| |].
    + intros _. split; [done|]. by apply Forall_insert.
    + intros _. split; [done|]. intros j Hj. rewrite lookup_set by lia. rewrite decide_False by lia. by apply H22.
    + intros j Hj. rewrite lookup_set by lia. by rewrite decide_False by lia.
    + intros j Hj. rewrite lookup_set by lia. by rewrite decide_False by lia.
  - cbn [mbind option_bind]. rewrite set_at_Some by lia. cbn [mbind option_bind]. eexists. split; [done|]. split; [|cbn; rewrite lookup_set by lia; by rewrite decide_True].
    constructor; cbn; try done; [constructor; cbn; rewrite ?zlen_insert; done|]. intros j Hj. rewrite lookup_set by lia. by rewrite decide_False by lia.
Qed.

Lemma slot_filled gso i w w' j o d : filled gso i w w' -> 0 <= j < i -> slot gso w j o d -> slot gso w' j o d.
Proof. intros F Hj. unfold slot. destruct gso; [by rewrite (fi_hdrs _ _ _ _ F), (fi_iovs2 _ _ _ _ F)|by rewrite (fi_iovs _ _ _ _ F)]. Qed.

Lemma fill_batch_spec gso rg segs : forall batch i offs w, wired gso w -> 0 <= i -> i + zlen batch <= 256 -> Forall (inside_region (rg_b rg)) batch ->
  offs_reach offs (zlen batch) ->
  exists w', fill_batch gso rg i batch offs w = Some w' /\ filled gso i w w' /\
    mapM (read_msg (rg_b rg) segs w') (plain_msg gso <$> seqZ i (zlen batch)) = Some (map (packet gso (rg_b rg)) (singles offs batch)).
Proof.
  induction batch as [|d batch IH]; intros i offs w Hw Hi Hl Hin Ho; cbn [fill_batch singles map].
  { exists w. split; [done|]. split; [by apply filled_refl|done]. }
  apply Forall_cons in Hin as [Hd Hin]. rewrite zlen_cons in *. pose proof (zlen_nonneg batch).
  destruct (iov_fill_one_spec gso rg i d offs w Hw ltac:(lia) Hd) as (w1 & -> & Hf1 & Hs1); [intros os E; specialize (Ho os E); lia|]. cbn [mbind option_bind].
  destruct (IH (i + 1) (tail <$> offs) w1) as (w2 & -> & Hf2 & Hr2); [by apply Hf1|lia|lia|done|by apply offs_reach_tail|].
  exists w2. split; [done|]. split; [by eapply filled_trans|]. rewrite seqZ_cons by lia. rewrite Z.add_1_r in Hr2. replace (Z.pred (1 + zlen batch)) with (zlen batch) by lia. cbn [fmap list_fmap mapM].
  rewrite (read_plain gso _ _ w2 i (first_off offs) d); [|by apply Hf2|lia|eapply slot_filled; [done|lia|done]|done]. cbn [mbind option_bind]. by rewrite Hr2.
Qed.

(** The first [n] messages of a queue that is not chained. *)
Lemma plain_prefix gso w n : wired gso w -> w_msgsChained w = false -> 0 <= n <= 256 -> take (Z.to_nat n) (w_msgs w) = plain_msg gso <$> seqZ 0 n.
Proof.
  intros Hw Hc Hn. pose proof (wi_msgs _ _ Hw). apply list_eq. intros j. destruct (decide (j < Z.to_nat n)%nat) as [Hj|Hj].
  - rewrite lookup_take_lt by lia. rewrite list_lookup_fmap, lookup_seqZ_lt by lia. cbn. replace j with (Z.to_nat (Z.of_nat j)) at 1 by lia. rewrite (wi_plain _ _ Hw Hc) by lia. f_equal.
  - rewrite lookup_take_ge by lia. rewrite list_lookup_fmap, lookup_seqZ_ge by lia. done.
Qed.

(** What the kernel is given by the paths that gather several pieces into one
    packet: the chained and the gather path lay their iovecs out the same way. *)

(** ** One packet *)

Definition entries (gso : bool) (m : Z) (parts : list Iovec) : list Iovec := (if gso then [hdr_iov m] else []) ++ parts.

Lemma zlen_entries gso m parts : zlen (entries gso m parts) = need_of gso (zlen parts).
Proof. unfold entries, need_of. rewrite zlen_app. destruct gso; cbn; rewrite ?zlen_nil; [change (zlen [hdr_iov m]) with 1; lia|lia]. Qed.

Lemma set_chain_spec at_ v w old arr : w_arrays w = old ++ [arr] -> 0 <= at_ < zlen arr ->
  set_chain at_ v w = Some (w_with_arrays (old ++ [blit at_ [v] arr]) w).
Proof.
  intros Hw Ha. unfold set_chain. rewrite Hw, length_app. replace (length old + length [arr] - 1)%nat with (length old + 0)%nat by (cbn; lia).
  rewrite lookup_app_r, Nat.add_sub' by lia. cbn [lookup list_lookup mbind option_bind]. rewrite (set_blit at_ v arr) by lia. cbn [mbind option_bind].
  rewrite insert_app_r. done.
Qed.

Lemma set_parts_spec parts : forall at_ w old arr, w_arrays w = old ++ [arr] -> 0 <= at_ -> at_ + zlen parts <= zlen arr ->
  set_parts at_ parts w = Some (at_ + zlen parts, w_with_arrays (old ++ [blit at_ parts arr]) w).
Proof.
  induction parts as [|v parts IH]; intros at_ w old arr Hw Ha Hl; cbn [set_parts].
  { rewrite blit_nil, <- Hw, zlen_nil, Z.add_0_r by done. by destruct w. }
  rewrite zlen_cons in *. pose proof (zlen_nonneg parts). rewrite (set_chain_spec at_ v w old arr) by (done || lia). cbn [mbind option_bind].
  rewrite (IH (at_ + 1) _ old (blit at_ [v] arr)); [|done|lia|rewrite zlen_blit by (change (zlen [v]) with 1; lia); lia].
  change (v :: parts) with ([v] ++ parts). rewrite (blit_app at_ [v] parts) by (change (zlen [v]) with 1; lia). change (zlen [v]) with 1. do 2 f_equal. lia.
Qed.

(** The state after one packet was laid out. *)
Record laid (gso : bool) (m : Z) (o : Offload) (E : list Iovec) (at_ : Z) (old : list (list Iovec)) (arr : list Iovec) (w w' : wiring) : Prop := mkLaid {
  la_arrays : w_arrays w' = old ++ [blit at_ E arr];
  la_msgs : w_msgs w' = <[Z.to_nat m := mkMsg (Some (AtChain (length old) at_)) (zlen E)]> (w_msgs w);
  la_hdrs : w_hdrs w' = if gso then <[Z.to_nat m := marshalled o]> (w_hdrs w) else w_hdrs w;
  la_iovs : w_iovs w' = w_iovs w;
  la_iovs2 : w_iovs2 w' = w_iovs2 w;
  la_chained : w_msgsChained w' = true }.

Lemma lay_packet_spec gso m o parts at_ w old arr : wired gso w -> w_arrays w = old ++ [arr] -> 0 <= m < 256 -> 0 <= at_ ->
  at_ + need_of gso (zlen parts) <= zlen arr ->
  exists w', lay_packet gso m o parts at_ w = Some (at_ + need_of gso (zlen parts), w') /\ laid gso m o (entries gso m parts) at_ old arr w w'.
Proof.
  intros Hw Hold Hm Ha Hl. unfold lay_packet, entries. pose proof (zlen_nonneg parts). pose proof (wi_msgs _ _ Hw). destruct gso; unfold need_of in *.
  - destruct (wi_hdrs _ _ Hw eq_refl) as [Hh1 Hh2]. rewrite put_hdr_spec by (done || lia). cbn [mbind option_bind].
    rewrite (set_chain_spec at_ _ _ old arr) by (done || lia). cbn [mbind option_bind].
    rewrite (set_parts_spec parts (at_ + 1) _ old (blit at_ [hdr_iov m] arr)); [|done|lia|rewrite zlen_blit by (change (zlen [hdr_iov m]) with 1; lia); lia]. cbn [mbind option_bind].
    rewrite set_at_Some by (cbn; lia). cbn [mbind option_bind]. replace (at_ + 1 + zlen parts) with (at_ + (zlen parts + 1)) by lia. eexists. split; [done|].
    constructor; cbn; try done.
    + rewrite <- (blit_app at_ [hdr_iov m] parts) by (change (zlen [hdr_iov m]) with 1; lia). done.
    + rewrite length_app. cbn [length app]. replace (length old + 1 - 1)%nat with (length old) by lia. do 2 f_equal. rewrite zlen_cons. lia.
  - cbn [mbind option_bind]. rewrite (set_parts_spec parts at_ _ old arr) by (done || lia). cbn [mbind option_bind].
    rewrite set_at_Some by (cbn; lia). cbn [mbind option_bind]. eexists. split; [done|]. constructor; cbn; try done.
    rewrite length_app. cbn [length app]. replace (length old + 1 - 1)%nat with (length old) by lia. do 2 f_equal. lia.
Qed.

Lemma laid_wired gso m o E at_ old arr w w' : wired gso w -> 0 <= m < 256 -> laid gso m o E at_ old arr w w' -> wired gso w'.
Proof.
  intros [Hm Hv Hh H2 _] Hr [La Lm Lh Li Li2 Lc]. constructor; rewrite ?Lm, ?Lh, ?Li, ?Li2, ?Lc; try done; [by rewrite zlen_insert|].
  intros ->. destruct (Hh eq_refl) as [H1 H3]. rewrite zlen_insert. split; [done|]. by apply Forall_insert.
Qed.

(** ** The packets of a batch *)

Fixpoint lay_all (gso : bool) (m at_ : Z) (ps : list (Offload * list Iovec)) (w : wiring) : option wiring :=
  match ps with
  | [] => Some w
  | (o, parts) :: ps => '(at_, w) ← lay_packet gso m o parts at_ w; lay_all gso (m + 1) at_ ps w
  end.

Definition needs (gso : bool) (ps : list (Offload * list Iovec)) : Z := sumZ (map (fun p => need_of gso (zlen (snd p))) ps).

Lemma needs_cons gso p ps : needs gso (p :: ps) = need_of gso (zlen (snd p)) + needs gso ps.
Proof. done. Qed.
Lemma need_of_nonneg gso n : 0 <= n -> 0 <= need_of gso n.
Proof. unfold need_of. destruct gso; lia. Qed.
Lemma needs_nonneg gso ps : 0 <= needs gso ps.
Proof. induction ps as [|p ps IH]; [done|]. rewrite needs_cons. pose proof (need_of_nonneg gso _ (zlen_nonneg (snd p))). lia. Qed.

(** Messages and slots before [m] and [at_] stay as they are. *)
Record kept (m at_ : Z) (w w' : wiring) (arr arr' : list Iovec) : Prop := mkKept {
  ke_msgs : forall j, 0 <= j < m -> w_msgs w' !! Z.to_nat j = w_msgs w !! Z.to_nat j;
  ke_hdrs : forall j, 0 <= j < m -> w_hdrs w' !! Z.to_nat j = w_hdrs w !! Z.to_nat j;
  ke_arr : take (Z.to_nat at_) arr' = take (Z.to_nat at_) arr }.

Definition gathered (gso : bool) (o : Offload) (bs : list (list Z)) : list Z := (if gso then marshalled o else []) ++ concat bs.

Lemma slice_kept {A} lo hi at_ (l l' : list A) : 0 <= lo <= hi -> hi <= at_ -> at_ <= zlen l -> zlen l' = zlen l ->
  take (Z.to_nat at_) l' = take (Z.to_nat at_) l -> slice lo hi l' = slice lo hi l.
Proof.
  intros H1 H2 H3 H4 H5. rewrite !slice_Some by lia. f_equal. apply list_eq. intros i. destruct (decide (i < Z.to_nat (hi - lo))%nat) as [Hi|Hi]; [|by rewrite !lookup_take_ge by lia].
  rewrite !lookup_take_lt, !lookup_drop by lia. rewrite <- (lookup_take_lt l' (Z.to_nat at_)), <- (lookup_take_lt l (Z.to_nat at_)) by lia. by rewrite H5.
Qed.

(** What a laid message reads, whatever came after it. *)
Lemma read_laid gso b segs m o parts bs at_ old arr w w1 w' arr' :
  laid gso m o (entries gso m parts) at_ old arr w w1 -> 0 <= m < zlen (w_msgs w) -> (gso = true -> m < zlen (w_hdrs w)) -> 0 <= at_ ->
  at_ + zlen (entries gso m parts) <= zlen arr ->
  w_arrays w' = old ++ [arr'] -> zlen arr' = zlen arr -> kept (m + 1) (at_ + zlen (entries gso m parts)) w1 w' (blit at_ (entries gso m parts) arr) arr' ->
  (forall hdrs, mapM (read_iov b hdrs segs) parts = Some bs) ->
  exists msg, w_msgs w' !! Z.to_nat m = Some msg /\ read_msg b segs w' msg = Some (gathered gso o bs).
Proof.
  intros [La Lm Lh _ _ _] Hm Hh Ha Hl Hold Hz [Km Kh Ka] Hr. exists (mkMsg (Some (AtChain (length old) at_)) (zlen (entries gso m parts))).
  pose proof (zlen_nonneg (entries gso m parts)). split; [rewrite Km, Lm by lia; rewrite lookup_set by lia; by rewrite decide_True|].
  unfold read_msg. cbn [m_iov m_iovlen mbind option_bind iovs_at]. rewrite Hold, lookup_app_r, Nat.sub_diag by lia. cbn [lookup list_lookup mbind option_bind].
  rewrite (slice_kept _ _ (at_ + zlen (entries gso m parts)) (blit at_ (entries gso m parts) arr)) by (rewrite ?zlen_blit by lia; done || lia).
  rewrite slice_blit_same by lia. cbn [mbind option_bind]. unfold entries, gathered. destruct gso; [|cbn [app]; by rewrite Hr].
  cbn [app mapM]. rewrite (read_hdr _ _ _ _ o) by (lia || (rewrite Kh, Lh by lia; rewrite lookup_set by (specialize (Hh eq_refl); lia); by rewrite decide_True)).
  cbn [mbind option_bind]. by rewrite Hr.
Qed.

Lemma take_drop_cons {A} (l : list A) (i : Z) n x : 0 <= i -> l !! Z.to_nat i = Some x -> take (S n) (drop (Z.to_nat i) l) = x :: take n (drop (Z.to_nat (i + 1)) l).
Proof. intros Hi Hx. rewrite (drop_S l x _ Hx). cbn [take]. by replace (S (Z.to_nat i)) with (Z.to_nat (i + 1)) by lia. Qed.

Lemma lay_all_spec gso b segs : forall ps bss m at_ w old arr,
  Forall2 (fun p bs => forall hdrs, mapM (read_iov b hdrs segs) (snd p) = Some bs) ps bss ->
  wired gso w -> w_arrays w = old ++ [arr] -> 0 <= m -> m + zlen ps <= 256 -> 0 <= at_ -> at_ + needs gso ps <= zlen arr ->
  exists w' arr', lay_all gso m at_ ps w = Some w' /\ wired gso w' /\ w_arrays w' = old ++ [arr'] /\ zlen arr' = zlen arr /\ kept m at_ w w' arr arr' /\
    mapM (read_msg b segs w') (take (length ps) (drop (Z.to_nat m) (w_msgs w'))) = Some (zip_with (fun p bs => gathered gso (fst p) bs) ps bss).
Proof.
  intros ps. induction ps as [|[o parts] ps IH]; intros bss m at_ w old arr Hps Hw Hold Hm Hml Ha Hal; inversion Hps as [|? bs ? bss' Hr Hps']; subst; cbn [lay_all].
  { exists w, arr. split; [done|]. split; [done|]. split; [done|]. split; [done|]. split; [by constructor|done]. }
  rewrite zlen_cons in Hml. rewrite needs_cons in Hal. cbn [snd] in Hal, Hr.
  pose proof (needs_nonneg gso ps).
  pose proof (zlen_nonneg ps). pose proof (zlen_nonneg parts). pose proof (zlen_entries gso m parts) as He. pose proof (need_of_nonneg gso _ (zlen_nonneg parts)).
  destruct (lay_packet_spec gso m o parts at_ w old arr Hw Hold ltac:(lia) Ha ltac:(lia)) as (w1 & -> & L). cbn [mbind option_bind]. pose proof (laid_wired gso m o _ at_ old arr w w1 Hw ltac:(lia) L) as Hw1.
  destruct (IH bss' (m + 1) (at_ + need_of gso (zlen parts)) w1 old (blit at_ (entries gso m parts) arr)) as (w' & arr' & -> & Hw' & Hold' & Hz' & Hk & Hrd); try done; try lia.
  { apply L. } { rewrite zlen_blit by lia. lia. }
  rewrite zlen_blit in Hz' by lia. exists w', arr'. split; [done|]. split; [done|]. split; [done|]. split; [done|]. pose proof (wi_msgs _ _ Hw) as Hmw. split.
  - destruct Hk as [Km Kh Ka]. destruct L as [La Lm Lh _ _ _]. constructor.
    + intros j Hj. rewrite Km, Lm by lia. rewrite lookup_set by lia. by rewrite decide_False by lia.
    + intros j Hj. rewrite Kh, Lh by lia. destruct gso; [|done]. destruct (wi_hdrs _ _ Hw eq_refl). rewrite lookup_set by lia. by rewrite decide_False by lia.
    + replace (take (Z.to_nat at_) arr') with (take (Z.to_nat at_) (take (Z.to_nat (at_ + need_of gso (zlen parts))) arr')) by (rewrite take_take; f_equal; lia).
      rewrite Ka, take_take. rewrite Nat.min_l by lia. apply take_blit; lia.
  - destruct (read_laid gso b segs m o parts bs at_ old arr w w1 w' arr') as (msg & Hmsg & Hread); try done; try lia.
    { intros ->. destruct (wi_hdrs _ _ Hw eq_refl). lia. } { by rewrite He. }
    cbn [length]. rewrite (take_drop_cons _ m _ msg) by (done || lia). cbn [mapM zip_with fst]. rewrite Hread. cbn [mbind option_bind]. by rewrite Hrd.
Qed.
