(* ===== verification/AfTxOps.v ===== *)
(** The transmit paths of the AF_PACKET queue, from the checks to the pending
    list: what every round of each path does. *)

From stdpp Require Import prelude list numbers strings.
From S2P Require Import Prelude Bytes Desc Pool Mlx5Region AfTx AfTxWire.

(** ** Checks *)

(** Bytes inside one frame of the region. *)
Definition one_frame (kf rlen : Z) (d : Desc) : Prop :=
  Addr d < rlen /\ 0 < Len d /\ Addr d mod 2 ^ kf + Len d <= 2 ^ kf.

Lemma one_frame_in_region kf rg d : region_ok kf rg -> desc_ok d -> one_frame kf (zlen (rg_b rg)) d -> inside_region (rg_b rg) d.
Proof.
  intros (Hk & _ & Hz & _) (Ha & _ & _) (H1 & H2 & H3). pose proof (frame_bounds kf _ _ ltac:(lia) (conj (proj1 Ha) H1) Hz). unfold inside_region. lia.
Qed.

Lemma desc_inside_spec kf rg d : region_ok kf rg -> desc_ok d ->
  exists b, desc_inside rg d = Some b /\ (b = true <-> one_frame kf (zlen (rg_b rg)) d).
Proof.
  intros Hr (Ha & Hl & _). unfold desc_inside, one_frame. rewrite af_Writable_same. pose proof (Writable_eq kf rg d Hr ltac:(lia)) as HW.
  destruct (Z.ltb_spec (Addr d) (zlen (rg_b rg))) as [Hlt|Hge].
  - destruct HW as (b & -> & Hb & _). cbn [mbind option_bind]. eexists. split; [done|]. rewrite Hb, andb_true_iff, !negb_true_iff, Z.eqb_neq, Z.gtb_ltb, Z.ltb_ge. lia.
  - rewrite HW. cbn [mbind option_bind]. eexists. split; [done|]. split; [done|lia].
Qed.

(** Metadata that fit a packet of [n] bytes. *)
Definition off_fits (offs : option (list Offload)) (n : Z) : Prop := offs = None \/ checkOffload (first_off offs) n = None.

Lemma check_batch_spec kf rg : region_ok kf rg -> forall batch offs, Forall desc_ok batch -> offs_reach offs (zlen batch) ->
  exists n refused, check_batch rg batch offs = Some (n, refused) /\ 0 <= n <= zlen batch /\ Forall (one_frame kf (zlen (rg_b rg))) (take (Z.to_nat n) batch) /\
    match refused with None => n = zlen batch | Some e => n < zlen batch /\ errors_is ErrBadLength e = true end.
Proof.
  intros Hr. induction batch as [|d batch IH]; intros offs Hd Ho; cbn [check_batch]; [exists 0, None; split; [done|]; split; [done|]; split; [constructor|done]|].
  apply Forall_cons in Hd as [Hd Hds]. rewrite zlen_cons in *. pose proof (zlen_nonneg batch). destruct (desc_inside_spec kf rg d Hr Hd) as (ok & -> & Hok). cbn [mbind option_bind].
  destruct ok; cbn [negb]; [|exists 0, (Some not_inside); split; [done|]; split; [lia|]; split; [constructor|split; [lia|done]]].
  assert (He : exists e, match offs with None => Some None | Some [] => None | Some (o :: _) => Some (checkOffload o (Len d)) end = Some e).
  { destruct offs as [[|o os]|]; [specialize (Ho [] eq_refl); rewrite zlen_nil in Ho; lia|eauto|eauto]. }
  destruct He as [e ->]. cbn [mbind option_bind]. destruct e as [e|]; [exists 0, (Some bad_offload); split; [done|]; split; [lia|]; split; [constructor|split; [lia|done]]|].
  destruct (IH (tail <$> offs) Hds) as (n & refused & -> & Hn & Hin & Hrf); [by apply offs_reach_tail|]. cbn [mbind option_bind].
  exists (n + 1), refused. split; [done|]. split; [lia|]. split; [replace (Z.to_nat (n + 1)) with (S (Z.to_nat n)) by lia; cbn [take]; constructor; [by apply Hok|done]|].
  destruct refused; [destruct Hrf; split; [lia|done]|lia].
Qed.

(** ** What a call does *)

(** A packet given as several frames: every one but the last is continued. *)
Definition whole (c : list Desc) : Prop := exists c0 d, c = c0 ++ [d] /\ Forall (fun x => continues x = true) c0 /\ continues d = false.

(** Nothing was lost, refused or turned away. *)
Definition quiet (c c' : counters) : Prop := n_ringFull c' = n_ringFull c /\ n_drops c' = n_drops c /\ n_rejected c' = n_rejected c.

Definition in64 (x : Z) : Prop := 0 <= x < 2 ^ 64.

Definition total_len (ds : list Desc) : Z := sumZ (map Len ds).

Lemma sumZ_cons x l : sumZ (x :: l) = x + sumZ l. Proof. done. Qed.

Section ops.
Context {P : Type} `{!FramePool P} {K : Type} `{!Kernel K} `{!KernelLaws K}.
Implicit Types q : AfTx P.

Record txq_ok q : Prop := mkTxqOk {
  to_wired : wired (at_gso q) (at_wiring q);
  to_room : zlen (at_pending q) <= maxPending;
  to_pendingN : at_pendingN q = zlen (at_pending q);
  to_counts : in64 (n_ringFull (at_n q)) /\ in64 (n_drops (at_n q)) /\ in64 (n_rejected (at_n q)) }.

(** The first [n] of [ds] went, as whole packets and as they were. *)
Record went (kf : Z) (rg : region) (offs : option (list Offload)) (ds : list Desc) (n : Z) q (k : K) q' (k' : K) : Prop := mkWent {
  we_range : 0 <= n <= zlen ds;
  we_ok : txq_ok q';
  we_same : at_gso q' = at_gso q /\ at_pool q' = at_pool q /\ at_closed q' = at_closed q;
  we_pending : at_pending q' = at_pending q ++ take (Z.to_nat n) ds;
  we_sent : u64 (n_sent (at_n q')) = u64 (n_sent (at_n q) + n);
  we_bytes : u64 (n_bytes (at_n q')) = u64 (n_bytes (at_n q) + total_len (take (Z.to_nat n) ds));
  we_wire : exists ps, concat (map snd ps) = take (Z.to_nat n) ds /\ Forall whole (map snd ps) /\ Forall (one_frame kf (zlen (rg_b rg))) (take (Z.to_nat n) ds) /\
    carries offs ps /\ k_wire k' = k_wire k ++ map (packet (at_gso q) (rg_b rg)) ps }.

Lemma total_len_app a b : total_len (a ++ b) = total_len a + total_len b.
Proof using. unfold total_len. induction a as [|x a IH]; [done|]. cbn [app map]. rewrite !sumZ_cons, IH. lia. Qed.

Lemma carries_app ps1 : forall offs ps2, carries offs ps1 -> carries (drop (length (concat (map snd ps1))) <$> offs) ps2 -> carries offs (ps1 ++ ps2).
Proof using.
  induction ps1 as [|[o c] ps1 IH]; intros offs ps2 H1 H2; cbn [map concat app carries] in *.
  { by destruct offs; cbn in *; rewrite ?drop_0 in H2. }
  destruct H1 as [Ho H1]. split; [done|]. apply IH; [done|]. destruct offs; cbn in *; [|done]. by rewrite drop_drop, <- length_app.
Qed.

Lemma u64_add_u64 a b c x : u64 x = u64 (a + b) -> u64 (x + c) = u64 (a + (b + c)).
Proof using. intros H. unfold u64 in *. rewrite Zplus_mod, H, <- Zplus_mod. f_equal. lia. Qed.

Lemma went_trans kf rg offs ds n1 n2 q k q1 k1 q2 k2 :
  went kf rg offs ds n1 q k q1 k1 -> went kf rg (drop (Z.to_nat n1) <$> offs) (drop (Z.to_nat n1) ds) n2 q1 k1 q2 k2 -> went kf rg offs ds (n1 + n2) q k q2 k2.
Proof using.
  intros W1 W2. destruct W1 as [R1 _ (G1 & P1 & C1) Pe1 S1 B1 (ps1 & F1 & Wh1 & In1 & Ca1 & Wi1)]. destruct W2 as [R2 O2 (G2 & P2 & C2) Pe2 S2 B2 (ps2 & F2 & Wh2 & In2 & Ca2 & Wi2)].
  rewrite zlen_drop in R2. assert (Ht : take (Z.to_nat (n1 + n2)) ds = take (Z.to_nat n1) ds ++ take (Z.to_nat n2) (drop (Z.to_nat n1) ds)) by (rewrite take_take_drop; f_equal; lia).
  constructor.
  - lia.
  - done.
  - by rewrite G2, P2, C2.
  - by rewrite Pe2, Pe1, Ht, app_assoc.
  - rewrite S2. by apply u64_add_u64.
  - rewrite B2, Ht, total_len_app. by apply u64_add_u64.
  - exists (ps1 ++ ps2). rewrite !map_app, concat_app, F1, F2, Ht. split; [done|]. split; [by apply Forall_app|]. split; [by apply Forall_app|].
    split; [|rewrite Wi2, Wi1, G1; by rewrite <- app_assoc]. apply carries_app; [done|]. rewrite F1, length_take. unfold zlen in R1. by replace (Z.to_nat n1 `min` length ds)%nat with (Z.to_nat n1) by lia.
Qed.

Lemma went_none kf rg offs ds q k f : txq_ok q -> (forall c, n_sent (f c) = n_sent c /\ n_bytes (f c) = n_bytes c) -> txq_ok (at_count f q) -> went kf rg offs ds 0 q k (at_count f q) k.
Proof using.
  intros Hq Hf Hq'. pose proof (zlen_nonneg ds). destruct (Hf (at_n q)) as [F1 F2]. constructor; cbn.
  - lia.
  - done.
  - done.
  - by rewrite app_nil_r.
  - by rewrite F1, Z.add_0_r.
  - by rewrite F2, Z.add_0_r.
  - exists []. rewrite app_nil_r. by repeat split.
Qed.

(** ** One send *)

Lemma sendAll_spec b segs n q k ms : mapM (read_msg b segs (at_wiring q)) (take (Z.to_nat n) (w_msgs (at_wiring q))) = Some ms -> 0 <= n <= zlen (w_msgs (at_wiring q)) ->
  exists sent c' k', sendAll b segs n q k = Some (sent, at_count (fun _ => c') q, k') /\ 0 <= sent <= n /\ stopped n sent (at_n q) c' /\
    k_wire k' = k_wire k ++ take (Z.to_nat sent) ms.
Proof using KernelLaws0.
  intros Hr Hn. unfold sendAll. destruct (send_loop_spec b segs (at_wiring q) n ms Hr Hn (Z.to_nat (maxStall * n)) 0 0 (at_n q) k) as (sent & c' & k' & -> & Hs & Hst & Hw).
  - lia.
  - unfold maxStall. lia.
  - unfold maxStall. lia.
  - cbn [mbind option_bind]. exists sent, c', k'. split; [done|]. split; [lia|]. split; [done|]. by rewrite Z.sub_0_r in Hw.
Qed.

(** What a send did to the counters. *)
Definition counts_ok (c : counters) : Prop := in64 (n_ringFull c) /\ in64 (n_drops c) /\ in64 (n_rejected c).

Lemma u64_moves x m : in64 x -> 0 < m < 2 ^ 64 -> u64 (x + m) <> x.
Proof using. unfold in64, u64. intros. divlia. Qed.

Lemma stopped_counts n sent c c' : stopped n sent c c' -> 0 <= sent -> n < 2 ^ 64 -> counts_ok c ->
  n_sent c' = n_sent c /\ n_bytes c' = n_bytes c /\ counts_ok c' /\ n_rejected c' = n_rejected c /\
  (sent = n -> quiet c c') /\ (sent < n -> n_ringFull c' <> n_ringFull c \/ n_drops c' <> n_drops c).
Proof using.
  unfold counts_ok, quiet. intros [->|Hlt|errno Hlt] H0 Hn (C1 & C2 & C3); cbn.
  - split_and!; try done; lia.
  - pose proof (u64_moves _ 1 C1). split_and!; try done; try apply u64_range; lia.
  - pose proof (u64_moves _ (n - sent) C2). split_and!; try done; try apply u64_range; lia.
Qed.

Lemma sum_lens_total ds x : u64 (x + sum_lens ds) = u64 (x + total_len ds).
Proof using.
  assert (Hg : forall l acc y, u64 (y + foldl (fun n d => u64 (n + Len d)) acc l) = u64 (y + acc + total_len l)).
  { induction l as [|d l IH]; intros acc y; cbn [foldl]; [unfold total_len; cbn; f_equal; lia|]. rewrite IH. change (total_len (d :: l)) with (Len d + total_len l). unfold u64.
    rewrite <- (Zplus_mod_idemp_l (y + _)), Zplus_mod_idemp_r, Zplus_mod_idemp_l. f_equal. lia. }
  unfold sum_lens. rewrite Hg. f_equal. lia.
Qed.

Lemma went_account kf rg offs ds n w c' refused q k k' ps :
  txq_ok q -> wired (at_gso q) w -> 0 <= n <= zlen ds -> zlen (at_pending q) + n <= maxPending ->
  n_sent c' = n_sent (at_n q) -> n_bytes c' = n_bytes (at_n q) -> counts_ok c' ->
  concat (map snd ps) = take (Z.to_nat n) ds -> Forall whole (map snd ps) -> Forall (one_frame kf (zlen (rg_b rg))) (take (Z.to_nat n) ds) -> carries offs ps ->
  k_wire k' = k_wire k ++ map (packet (at_gso q) (rg_b rg)) ps ->
  went kf rg offs ds n q k (note_refused refused (account (take (Z.to_nat n) ds) (at_count (fun _ => c') (at_with_wiring w q)))) k'.
Proof using.
  intros Hq Hw Hn Hroom Hs Hb (C1 & C2 & C3) Hps Hwh Hin Hc Hk. set (ds' := take (Z.to_nat n) ds). assert (Hz : zlen ds' = n) by (unfold ds'; rewrite zlen_take; lia).
  assert (Hok : txq_ok (note_refused refused (account ds' (at_count (fun _ => c') (at_with_wiring w q))))).
  { constructor; [|unfold note_refused, account; destruct refused; cbn; rewrite zlen_app; lia|unfold note_refused, account; by destruct refused|].
    - by destruct refused.
    - unfold note_refused, account; destruct refused; cbn; split_and!; try done; apply u64_range. }
  constructor; try done.
  - by destruct refused.
  - by destruct refused.
  - unfold note_refused, account. destruct refused; cbn; rewrite Hs, Hz; unfold u64; by rewrite Zmod_mod.
  - unfold note_refused, account. destruct refused; cbn; rewrite Hb; unfold u64; rewrite Zmod_mod; apply sum_lens_total.
  - exists ps. done.
Qed.

(** How a round ends: it took all there was, with nothing to report, or the
    call returns and a counter has moved. *)
Definition round_end (all stop : bool) (err : option error) (c c' : counters) : Prop :=
  (stop = false -> all = true /\ err = None /\ quiet c c') /\ (stop = true -> ~ quiet c c') /\
  (forall e, err = Some e -> errors_is ErrBadLength e = true).

Lemma rejected_not_quiet c1 c : n_rejected c1 = n_rejected c -> in64 (n_rejected c) -> ~ quiet c (count_rejected c1).
Proof using. intros E C (_ & _ & H). cbn in H. rewrite E in H. by apply (u64_moves _ 1 C). Qed.

Lemma round_end_send (all : bool) n sent c c' refused ds (q : AfTx P) :
  stopped n sent c c' -> 0 <= sent <= n -> n < 2 ^ 64 -> counts_ok c -> at_n q = c' -> (refused = None -> all = true) ->
  (forall e, refused = Some e -> errors_is ErrBadLength e = true) ->
  round_end (all && (sent =? n)) (if sent <? n then true else match refused with Some _ => true | None => false end) refused c (at_n (note_refused refused (account ds q))).
Proof using.
  intros Hst Hs Hn Hc Hq Hall Herr. destruct (stopped_counts _ _ _ _ Hst ltac:(lia) Hn Hc) as (_ & _ & _ & Hr & Hq1 & Hq2). destruct Hc as (_ & _ & Hc3).
  assert (Hnq : sent < n -> ~ quiet c (at_n (account ds q))) by (intros Hlt (A & B & _); cbn in A, B; rewrite Hq in A, B; destruct (Hq2 Hlt); done).
  unfold round_end. destruct (Z.ltb_spec sent n) as [Hlt|Hge].
  - split; [done|]. split; [|done]. intros _. destruct refused; cbn [note_refused]; [|by apply Hnq]. cbn. apply rejected_not_quiet; [cbn; by rewrite Hq|done].
  - replace sent with n in * by lia. rewrite Z.eqb_refl, andb_true_r. destruct refused as [e|]; cbn [note_refused].
    + split; [done|]. split; [|done]. intros _. cbn. apply rejected_not_quiet; [cbn; by rewrite Hq|done].
    + split; [|split; [done|done]]. intros _. split; [by apply Hall|]. split; [done|]. destruct (Hq1 eq_refl) as (A & B & C). unfold quiet. cbn. by rewrite Hq.
Qed.

(** ** One frame per packet *)

Lemma singles_facts : forall ds offs, concat (map snd (singles offs ds)) = ds /\ carries offs (singles offs ds) /\
  (Forall (fun d => continues d = false) ds -> Forall whole (map snd (singles offs ds))).
Proof using.
  induction ds as [|d ds IH]; intros offs; [done|]. cbn [singles map concat snd carries]. destruct (IH (tail <$> offs)) as (I1 & I2 & I3). split; [cbn; by rewrite I1|].
  split; [split; [done|]; replace (drop (length [d]) <$> offs) with (tail <$> offs) by (destruct offs as [[|]|]; cbn; rewrite ?drop_0; done); done|].
  intros Hf. apply Forall_cons in Hf as [Hd Hf]. constructor; [exists [], d; by split|by apply I3].
Qed.

Lemma singles_take : forall n ds offs, take n (singles offs ds) = singles offs (take n ds).
Proof using. induction n as [|n IH]; intros [|d ds] offs; cbn [take singles]; try done. by rewrite IH. Qed.

Lemma transmit_batch_spec kf rg batch offs q k : region_ok kf rg -> txq_ok q -> w_msgsChained (at_wiring q) = false ->
  Forall desc_ok batch -> Forall (fun d => continues d = false) batch -> zlen batch <= 256 -> zlen (at_pending q) + zlen batch <= maxPending -> offs_reach offs (zlen batch) ->
  exists sent stop err q' k', transmit_batch rg batch offs q k = Some (sent, stop, err, q', k') /\ went kf rg offs batch sent q k q' k' /\
    w_msgsChained (at_wiring q') = false /\ round_end (sent =? zlen batch) stop err (at_n q) (at_n q').
Proof using KernelLaws0.
  intros Hr Hq Hch Hd Hnc Hl Hroom Ho. unfold transmit_batch. destruct (check_batch_spec kf rg Hr batch offs Hd Ho) as (n & refused & -> & Hn & Hin & Hrf). cbn [mbind option_bind].
  assert (Herr : forall e, refused = Some e -> errors_is ErrBadLength e = true) by (intros e ->; by destruct Hrf).
  destruct (Z.gtb_spec n 0) as [Hpos|Hzero].
  - rewrite slice_Some by lia. cbn [mbind option_bind]. rewrite Z.sub_0_r, drop_0. set (good := take (Z.to_nat n) batch) in *. assert (Hg : zlen good = n) by (unfold good; rewrite zlen_take; lia).
    assert (Hreg : Forall (inside_region (rg_b rg)) good).
    { apply Forall_forall. intros d Hdin. rewrite Forall_forall in Hin. eapply one_frame_in_region; [done| |by apply Hin]. rewrite Forall_forall in Hd. apply Hd. by eapply elem_take. }
    destruct (fill_batch_spec (at_gso q) rg [] good 0 offs (at_wiring q)) as (w & -> & Hf & Hrd); [by apply to_wired|done|lia|done|intros os E; specialize (Ho os E); lia|]. cbn [mbind option_bind].
    pose proof (fi_wired _ _ _ _ Hf) as Hw. assert (Hwc : w_msgsChained w = false) by (by rewrite (fi_chained _ _ _ _ Hf)).
    rewrite Hg, <- (plain_prefix _ w) in Hrd by (done || lia). pose proof (wi_msgs _ _ Hw) as Hm.
    destruct (sendAll_spec (rg_b rg) [] n (at_with_wiring w q) k _ Hrd) as (sent & c' & k' & -> & Hs & Hst & Hk); [cbn; lia|]. cbn [mbind option_bind].
    rewrite slice_Some by lia. cbn [mbind option_bind]. rewrite Z.sub_0_r, drop_0.
    destruct (stopped_counts _ _ _ _ Hst ltac:(lia) ltac:(lia) (to_counts _ Hq)) as (S1 & S2 & S3 & _).
    exists sent, (if sent <? n then true else match refused with Some _ => true | None => false end), refused, (note_refused refused (account (take (Z.to_nat sent) batch) (at_count (fun _ => c') (at_with_wiring w q)))), k'. split; [by destruct (sent <? n)|].
    assert (Hsent : take (Z.to_nat sent) batch = take (Z.to_nat sent) good) by (unfold good; rewrite take_take; f_equal; lia).
    destruct (singles_facts (take (Z.to_nat sent) batch) offs) as (F1 & F2 & F3).
    split; [|split].
    + apply (went_account kf rg offs batch sent w c' refused q k k' (singles offs (take (Z.to_nat sent) batch))); try done; try lia.
      * by apply F3, Forall_take.
      * rewrite Hsent. by apply Forall_take.
      * rewrite Hk. f_equal. by rewrite firstn_map, singles_take, Hsent.
    + unfold note_refused, account. by destruct refused.
    + replace (sent =? zlen batch) with ((n =? zlen batch) && (sent =? n)).
      2:{ destruct (Z.eqb_spec n (zlen batch)), (Z.eqb_spec sent n), (Z.eqb_spec sent (zlen batch)); cbn; try done; lia. }
      eapply round_end_send; try done; [lia|apply (to_counts _ Hq)|]. intros ->. by apply Z.eqb_eq.
  - replace n with 0 in * by lia. exists 0, (match refused with Some _ => true | None => false end), refused, (note_refused refused q), k. split; [done|].
    destruct refused as [e|]; cbn [note_refused].
    + destruct (to_counts _ Hq) as (C1 & C2 & C3). split; [|split; [done|]].
      * apply went_none; [done|done|]. destruct Hq. constructor; cbn; try done. split_and!; try done. apply u64_range.
      * split; [done|]. split; [intros _; by apply rejected_not_quiet|done].
    + split; [|split; [done|]].
      * pose proof (went_none kf rg offs batch q k id Hq ltac:(done)) as Hwn. destruct q. by apply Hwn.
      * split; [intros _; split; [by apply Z.eqb_eq|by split]|by split].
Qed.

Lemma went_widen kf rg offs ds m n q k q' k' : went kf rg offs (take m ds) n q k q' k' -> went kf rg offs ds n q k q' k'.
Proof using.
  intros [R O S Pe Se B W]. rewrite zlen_take in R. assert (Ht : take (Z.to_nat n) (take m ds) = take (Z.to_nat n) ds) by (rewrite take_take; f_equal; lia).
  rewrite Ht in *. constructor; try done. lia.
Qed.

Lemma went_offs_nil kf rg offs ds n q k q' k' : went kf rg (drop 0 <$> offs) (drop 0 ds) n q k q' k' -> went kf rg offs ds n q k q' k'.
Proof using. rewrite drop_0. by destruct offs as [os|]; cbn; rewrite ?drop_0. Qed.

(** Packets left over are told by a counter. *)
Record loop_res (kf : Z) (rg : region) (offs : option (list Offload)) (ds : list Desc) (n : Z) (err : option error) q (k : K) q' (k' : K) : Prop := mkLoopRes {
  lr_went : went kf rg offs ds n q k q' k';
  lr_short : n < zlen ds -> ~ quiet (at_n q) (at_n q');
  lr_err : forall e, err = Some e -> errors_is ErrBadLength e = true }.

Lemma loop_res_all kf rg offs ds q k : txq_ok q -> zlen ds = 0 -> loop_res kf rg offs ds 0 None q k q k.
Proof using.
  intros Hq Hz. constructor; [|lia|done]. pose proof (went_none kf rg offs ds q k id Hq ltac:(done)) as Hwn. destruct q. by apply Hwn.
Qed.

(** A round that stops ends the call. *)
Lemma loop_res_stop kf rg offs ds n err q k q' k' : went kf rg offs ds n q k q' k' -> ~ quiet (at_n q) (at_n q') ->
  (forall e, err = Some e -> errors_is ErrBadLength e = true) -> loop_res kf rg offs ds n err q k q' k'.
Proof using. by constructor. Qed.

Lemma loop_res_trans kf rg offs ds n1 n2 err q k q1 k1 q2 k2 : went kf rg offs ds n1 q k q1 k1 -> quiet (at_n q) (at_n q1) ->
  loop_res kf rg (drop (Z.to_nat n1) <$> offs) (drop (Z.to_nat n1) ds) n2 err q1 k1 q2 k2 -> loop_res kf rg offs ds (n1 + n2) err q k q2 k2.
Proof using.
  intros W1 (A & B & C) [W2 S2 E2]. pose proof (we_range _ _ _ _ _ _ _ _ _ W1). rewrite zlen_drop in S2. unfold quiet in *. rewrite A, B, C in *. constructor; [by eapply went_trans| |done]. intros Hlt. apply S2. lia.
Qed.

Lemma offs_slice offs off n : 0 <= off -> offs_reach offs (off + n) -> 0 <= n ->
  match offs with None => Some None | Some os => os ← slice off (zlen os) os; Some (Some os) end = Some (drop (Z.to_nat off) <$> offs) /\
  offs_reach (drop (Z.to_nat off) <$> offs) n.
Proof using.
  intros Ho Hr Hn. destruct offs as [os|]; [|split; [done|]; intros os; done]. specialize (Hr os eq_refl). rewrite slice_Some by lia. cbn [mbind option_bind fmap option_fmap option_map]. split.
  - rewrite take_ge; [done|]. rewrite length_drop. unfold zlen in *. lia.
  - intros os' [= <-]. rewrite zlen_drop. lia.
Qed.

Lemma transmit_loop_spec kf rg descs offs : region_ok kf rg -> Forall desc_ok descs -> Forall (fun d => continues d = false) descs -> offs_reach offs (zlen descs) ->
  forall fuel off total q k, txq_ok q -> w_msgsChained (at_wiring q) = false -> 0 <= off -> zlen descs - off <= Z.of_nat fuel ->
  zlen (at_pending q) + (zlen descs - off) <= maxPending ->
  exists n err q' k', transmit_loop fuel rg descs offs off total q k = Some (total + n, err, q', k') /\
    loop_res kf rg (drop (Z.to_nat off) <$> offs) (drop (Z.to_nat off) descs) n err q k q' k'.
Proof using KernelLaws0.
  intros Hr Hd Hnc Ho. induction fuel as [|fuel IH]; intros off total q k Hq Hch Hoff Hf Hroom; cbn [transmit_loop].
  { rewrite (proj2 (Z.ltb_ge _ _)) by lia. exists 0, None, q, k. rewrite Z.add_0_r. split; [done|]. apply loop_res_all; [done|]. rewrite zlen_drop. lia. }
  destruct (Z.ltb_spec off (zlen descs)) as [Hlt|Hge].
  2:{ exists 0, None, q, k. rewrite Z.add_0_r. split; [done|]. apply loop_res_all; [done|]. rewrite zlen_drop. lia. }
  rewrite slice_Some by (unfold txBatch; lia). cbn [mbind option_bind]. set (m := Z.to_nat (Z.min (off + txBatch) (zlen descs) - off)).
  assert (Hm : zlen (take m (drop (Z.to_nat off) descs)) = Z.min (off + 256) (zlen descs) - off) by (rewrite zlen_take, zlen_drop; unfold m, txBatch; lia).
  destruct (offs_slice offs off (zlen descs - off) Hoff) as [-> Ho2]; [intros os E; specialize (Ho os E); lia|lia|]. cbn [mbind option_bind].
  destruct (transmit_batch_spec kf rg (take m (drop (Z.to_nat off) descs)) (drop (Z.to_nat off) <$> offs) q k) as (sent & stop & err & q1 & k1 & -> & Hw & Hc1 & Hst & Hmv & Herr);
    [done|done|done|by apply Forall_take, Forall_drop|by apply Forall_take, Forall_drop|lia|lia|intros os E; specialize (Ho2 os E); lia|].
  cbn [mbind option_bind]. apply went_widen in Hw. destruct stop.
  - exists sent, err, q1, k1. split; [done|]. apply loop_res_stop; auto.
  - destruct (Hst eq_refl) as (Hall & -> & Hq1). apply Z.eqb_eq in Hall. rewrite Hm in Hall.
    destruct (decide (off + txBatch <= zlen descs)) as [Hle|Hle].
    + destruct (IH (off + txBatch) (total + sent) q1 k1) as (n & err & q' & k' & -> & HR); [by apply Hw|done|unfold txBatch in *; lia..| |].
      { rewrite (we_pending _ _ _ _ _ _ _ _ _ Hw), zlen_app, zlen_take, zlen_drop. unfold txBatch in *. lia. }
      exists (sent + n), err, q', k'. rewrite Z.add_assoc. split; [done|]. eapply loop_res_trans; [done|done|].
      replace (Z.to_nat (off + txBatch)) with (Z.to_nat off + Z.to_nat sent)%nat in HR by (unfold txBatch in *; lia). rewrite drop_drop. destruct offs as [os|]; cbn in *; [by rewrite drop_drop|done].
    + exists sent, None, q1, k1. split; [|constructor; [done|rewrite zlen_drop; unfold txBatch in *; lia|done]].
      destruct fuel; cbn [transmit_loop]; rewrite (proj2 (Z.ltb_ge _ _)) by lia; done.
Qed.

(** ** Packets of several frames *)

Lemma chainLen_whole ds n : chainLen ds = Ok n -> exists c r, ds = c ++ r /\ whole c /\ zlen c = n /\ 1 <= n <= maxChainBufs.
Proof using.
  unfold chainLen. intros H. assert (Hg : forall ds i, 0 <= i -> chainLen_from i ds = Ok n -> exists c r, ds = c ++ r /\ whole c /\ i + zlen c = n /\ i < n <= maxChainBufs).
  { clear. induction ds as [|d ds IH]; intros i Hi H; cbn [chainLen_from] in H; [done|]. destruct (Z.eqb_spec (Z.land (Options d) OptContinued) 0) as [Hc|Hc].
    - destruct (Z.gtb_spec (i + 1) maxChainBufs); [done|]. injection H as <-. exists [d], ds. split; [done|]. split; [|rewrite zlen_cons, zlen_nil; lia].
      exists [], d. split; [done|]. split; [done|]. unfold continues. by rewrite Hc.
    - destruct (IH (i + 1) ltac:(lia) H) as (c & r & -> & (c0 & e & -> & Hc0 & He) & Hl & Hn). exists (d :: c0 ++ [e]), r. split; [done|]. split; [|rewrite zlen_cons; lia].
      exists (d :: c0), e. split; [done|]. split; [|done]. constructor; [|done]. unfold continues. by rewrite (proj2 (Z.eqb_neq _ _) Hc). }
  destruct (Hg ds 0 ltac:(lia) H) as (c & r & E & Hw & Hl & Hn). exists c, r. split; [done|]. split; [done|]. lia.
Qed.

Lemma check_frames_spec kf rg : region_ok kf rg -> forall chain n, Forall desc_ok chain ->
  exists r, check_frames rg n chain = Some r /\ match r with Ok _ => Forall (one_frame kf (zlen (rg_b rg))) chain | Err e => errors_is ErrBadLength e = true end.
Proof using.
  intros Hr. induction chain as [|d chain IH]; intros n Hd; cbn [check_frames]; [exists (Ok n); by split|]. apply Forall_cons in Hd as [Hd Hds].
  destruct (desc_inside_spec kf rg d Hr Hd) as (ok & -> & Hok). cbn [mbind option_bind]. destruct ok; cbn [negb]; [|exists (Err not_inside); by split].
  destruct (IH (u32 (n + Len d)) Hds) as (r & E & Hrr). exists r. split; [done|]. destruct r; [|done]. constructor; [by apply Hok|done].
Qed.

Lemma check_zero_spec offs : forall idx, Forall (fun i => 0 <= i < zlen offs) idx ->
  exists r, check_zero offs idx = Some r /\ forall e, r = Some e -> errors_is ErrBadLength e = true.
Proof using.
  induction idx as [|i idx IH]; intros Hi; cbn [check_zero]; [by eexists|]. apply Forall_cons in Hi as [Hi His]. destruct (get_at_Some i offs Hi) as [o ->]. cbn [mbind option_bind].
  case_decide; [by apply IH|]. eexists. split; [done|]. by intros e [= <-].
Qed.

Lemma checkChain_spec kf rg chain offs at_ : region_ok kf rg -> Forall desc_ok chain -> 1 <= zlen chain -> 0 <= at_ -> offs_reach offs (at_ + zlen chain) ->
  exists r, checkChain rg chain offs at_ = Some r /\ match r with None => Forall (one_frame kf (zlen (rg_b rg))) chain | Some e => errors_is ErrBadLength e = true end.
Proof using.
  intros Hr Hd Hl Ha Ho. unfold checkChain. destruct (check_frames_spec kf rg Hr chain 0 Hd) as (r & -> & Hrr). cbn [mbind option_bind]. destruct r as [len|e]; [|eexists; split; [done|done]].
  destruct offs as [os|]; [|by eexists]. specialize (Ho os eq_refl). destruct (check_zero_spec os (seqZ (at_ + 1) (zlen chain - 1))) as (z & -> & Hz).
  { apply Forall_forall. intros i Hi. apply elem_of_seqZ in Hi. lia. }
  cbn [mbind option_bind]. destruct z as [e|]; [eexists; split; [done|]; by apply Hz|]. destruct (get_at_Some at_ os ltac:(lia)) as [o ->]. cbn [mbind option_bind].
  eexists. split; [done|]. by destruct (checkOffload o len).
Qed.

(** What the first pass has found: whole packets, checked, that fit. *)
Record passed (kf : Z) (rg : region) (gso : bool) (rest : list Desc) (left : Z) (cs : list (list Desc)) (iovN : Z) : Prop := mkPassed {
  pa_prefix : exists post, rest = concat cs ++ post;
  pa_whole : Forall whole cs;
  pa_inside : Forall (one_frame kf (zlen (rg_b rg))) (concat cs);
  pa_iov : iovN = sumZ (map (fun c => need_of gso (zlen c)) cs);
  pa_fit : iovN <= chainIovBudget;
  pa_msgs : zlen cs <= txBatch;
  pa_left : cs <> [] -> zlen (concat cs) <= left }.

Lemma sumZ_app a b : sumZ (a ++ b) = sumZ a + sumZ b.
Proof using. induction a as [|x a IH]; [done|]. cbn [app]. rewrite !sumZ_cons, IH. lia. Qed.

Lemma slice_rest {A} i (l : list A) : 0 <= i <= zlen l -> slice i (zlen l) l = Some (drop (Z.to_nat i) l).
Proof using. intros Hi. rewrite slice_Some by lia. rewrite take_ge; [done|]. rewrite length_drop. unfold zlen in *. lia. Qed.

Lemma chain_pass_spec kf gso rg rest offs left : region_ok kf rg -> Forall desc_ok rest -> offs_reach offs (zlen rest) ->
  forall fuel cs iovN, passed kf rg gso rest left cs iovN -> zlen rest - zlen (concat cs) <= Z.of_nat fuel ->
  exists cs' iovN' refused, chain_pass fuel gso rg rest offs left (map zlen cs) iovN (zlen (concat cs)) = Some (map zlen cs', iovN', refused) /\
    passed kf rg gso rest left cs' iovN' /\ forall e, refused = Some e -> errors_is ErrBadLength e = true.
Proof using.
  intros Hr Hd Ho. induction fuel as [|fuel IH]; intros cs iovN Hp Hf; cbn [chain_pass].
  { rewrite (proj2 (Z.ltb_ge (zlen (concat cs)) _)) by lia. cbn [andb]. by exists cs, iovN, None. }
  destruct ((zlen (concat cs) <? zlen rest) && (zlen (map zlen cs) <? txBatch)) eqn:Eg; [|by exists cs, iovN, None]. to_prop.
  rename H into Hmore, H0 into Hroom. pose proof (zlen_nonneg (concat cs)). destruct (pa_prefix _ _ _ _ _ _ _ Hp) as [post Hpost].
  rewrite slice_rest by lia. cbn [mbind option_bind].
  assert (Hdrop : drop (Z.to_nat (zlen (concat cs))) rest = post) by (rewrite Hpost; apply drop_app_length'; unfold zlen; lia). rewrite Hdrop.
  destruct (chainLen post) as [n|] eqn:El; [|eexists cs, iovN, _; split; [done|]; split; [done|]; by intros e' [= <-]]. destruct (chainLen_whole post n El) as (c & r & -> & Hc & Hzc & Hn).
  destruct (Z.gtb_spec (iovN + need_of gso n) chainIovBudget) as [|Hb]; cbn [orb]; [by exists cs, iovN, None|].
  destruct (Z.gtb_spec (zlen (concat cs) + n) left) as [|Hleft]; [by exists cs, iovN, None|].
  assert (Hsl : slice (zlen (concat cs)) (zlen (concat cs) + n) rest = Some c) by (rewrite Hpost, <- Hzc; apply slice_app_mid). rewrite Hsl. cbn [mbind option_bind].
  assert (Hdc : Forall desc_ok c) by (rewrite Hpost in Hd; apply Forall_app in Hd as [_ Hd]; by apply Forall_app in Hd as [Hd _]).
  destruct (checkChain_spec kf rg c offs (zlen (concat cs)) Hr Hdc) as (e & -> & He); [lia|lia|intros os E; specialize (Ho os E); rewrite Hpost, !zlen_app in Ho; pose proof (zlen_nonneg r); lia|].
  cbn [mbind option_bind]. destruct e as [e|]; [exists cs, iovN, (Some e); split; [done|]; split; [done|]; by intros e' [= <-]|].
  destruct (IH (cs ++ [c]) (iovN + need_of gso (zlen c))) as (cs' & iovN' & refused & E & HP & HE).
  - destruct Hp as [Pp Pw Pi Pv Pf Pm Pl]. rewrite Hzc. constructor.
    + exists r. rewrite concat_app. cbn [concat]. by rewrite app_nil_r, <- app_assoc.
    + apply Forall_app. split; [done|]. by repeat constructor.
    + rewrite concat_app. cbn [concat]. rewrite app_nil_r. by apply Forall_app.
    + rewrite map_app, sumZ_app, Pv. cbn [map sumZ foldr]. rewrite Hzc. unfold sumZ. cbn. lia.
    + lia.
    + rewrite zlen_app. unfold zlen in Hroom |- *. rewrite length_map in Hroom. cbn [length]. lia.
    + intros _. rewrite concat_app. cbn [concat]. rewrite app_nil_r, zlen_app. lia.
  - rewrite concat_app. cbn [concat]. rewrite app_nil_r, zlen_app. lia.
  - exists cs', iovN', refused. split; [|done]. rewrite <- E, map_app, concat_app. cbn [map concat]. rewrite app_nil_r, zlen_app, Hzc. done.
Qed.

(** The packets with their metadata. *)
Fixpoint with_offs (offs : option (list Offload)) (cs : list (list Desc)) : list (Offload * list Desc) :=
  match cs with
  | [] => []
  | c :: cs => (first_off offs, c) :: with_offs (drop (length c) <$> offs) cs
  end.

Lemma with_offs_facts : forall cs offs, map snd (with_offs offs cs) = cs /\ carries offs (with_offs offs cs) /\ length (with_offs offs cs) = length cs.
Proof using. induction cs as [|c cs IH]; intros offs; [done|]. cbn [with_offs map snd carries length]. destruct (IH (drop (length c) <$> offs)) as (I1 & I2 & I3). by rewrite I1, I3. Qed.

Lemma with_offs_take : forall n cs offs, take n (with_offs offs cs) = with_offs offs (take n cs).
Proof using. induction n as [|n IH]; intros [|c cs] offs; cbn [take with_offs]; try done. by rewrite IH. Qed.

Definition as_iovs (p : Offload * list Desc) : Offload * list Iovec := (fst p, map frame_iov (snd p)).

Lemma lay_packet_nogso m o o' parts at_ w : lay_packet false m o parts at_ w = lay_packet false m o' parts at_ w.
Proof using. done. Qed.

Lemma mapM_iov_of rg c : Forall (inside_region (rg_b rg)) c -> mapM (iov_of rg) c = Some (map frame_iov c).
Proof using. induction 1 as [|d c Hd _ IH]; [done|]. cbn [mapM map]. rewrite iov_of_Some by done. cbn [mbind option_bind]. by rewrite IH. Qed.

Lemma lay_chains_all gso rg rest : forall cs offs pre post m at_ w, rest = pre ++ concat cs ++ post -> Forall (inside_region (rg_b rg)) (concat cs) -> Forall (fun c => c <> []) cs -> offs_reach offs (zlen rest) ->
  lay_chains gso rg rest offs (map zlen cs) m at_ (zlen pre) w = lay_all gso m at_ (map as_iovs (with_offs (drop (Z.to_nat (zlen pre)) <$> offs) cs)) w.
Proof using.
  induction cs as [|c cs IH]; intros offs pre post m at_ w Hrest Hin Hne Ho; cbn [lay_chains lay_all map with_offs concat as_iovs fst snd] in *; [done|].
  apply Forall_app in Hin as [Hc Hcs]. apply Forall_cons in Hne as [Hnc Hne]. rewrite Hrest in *. rewrite <- (app_assoc c) in *. pose proof (zlen_nonneg pre).
  assert (Hz : 1 <= zlen c) by (destruct c; [done|]; rewrite zlen_cons; pose proof (zlen_nonneg c); lia). pose proof (zlen_nonneg (concat cs ++ post)).
  assert (Hoff : exists o, match offs with None => Some zeroOffload | Some os => if gso then get_at (zlen pre) os else Some zeroOffload end = Some o /\ (gso = true -> o = first_off (drop (Z.to_nat (zlen pre)) <$> offs))).
  { destruct offs as [os|]; [|by eexists]. destruct gso; [|by eexists]. specialize (Ho os eq_refl). rewrite !zlen_app in Ho. rewrite get_at_lookup by lia.
    destruct (lookup_lt_is_Some_2 os (Z.to_nat (zlen pre))) as [o Hl]; [unfold zlen in *; lia|]. exists o. split; [done|]. intros _. unfold first_off. cbn. by rewrite (drop_S os o _ Hl). }
  destruct Hoff as (o & -> & Heq). cbn [mbind option_bind]. rewrite slice_app_mid. cbn [mbind option_bind]. rewrite mapM_iov_of by done. cbn [mbind option_bind].
  assert (Hlp : lay_packet gso m o (map frame_iov c) at_ w = lay_packet gso m (first_off (drop (Z.to_nat (zlen pre)) <$> offs)) (map frame_iov c) at_ w) by (destruct gso; [by rewrite Heq|apply lay_packet_nogso]).
  rewrite Hlp. destruct (lay_packet gso m (first_off _) _ at_ w) as [[at1 w1]|]. 2:{ done. } cbn [mbind option_bind]. rewrite <- zlen_app.
  rewrite (IH offs (pre ++ c) post) by (done || by rewrite <- app_assoc). do 3 f_equal. destruct offs as [os|]; cbn; [|done]. rewrite drop_drop. do 2 f_equal. unfold zlen. rewrite length_app. lia.
Qed.

(** The scratch is long enough before anything points into it. *)
Lemma grow_spec gso iovN n w : wired gso w -> 1 <= iovN -> n <= 256 ->
  exists old arr, let w' := grow_hdrs gso n (grow_chain iovN w) in wired gso w' /\ w_arrays w' = old ++ [arr] /\ iovN <= zlen arr.
Proof using.
  intros Hw Hi Hn. assert (Hg : grow_hdrs gso n (grow_chain iovN w) = grow_chain iovN w).
  { unfold grow_hdrs. destruct gso; [|done]. cbn [andb]. assert (E : w_hdrs (grow_chain iovN w) = w_hdrs w) by (unfold grow_chain; by case_match). rewrite E.
    destruct (wi_hdrs _ _ Hw eq_refl). by rewrite (proj2 (Z.ltb_ge _ _)) by lia. }
  rewrite Hg. unfold grow_chain. destruct (Z.ltb_spec (zlen (default [] (last (w_arrays w)))) iovN) as [Hlt|Hge].
  - exists (w_arrays w), (replicate (Z.to_nat iovN) (mkIov None 0)). cbv zeta. split; [by destruct Hw|]. split; [done|]. rewrite zlen_replicate. lia.
  - destruct (last (w_arrays w)) as [arr|] eqn:El; cbn in Hge; [|rewrite zlen_nil in Hge; lia]. apply last_Some in El as [old Hold]. exists old, arr. done.
Qed.

Lemma mapM_read_frames b hdrs segs c : Forall (inside_region b) c -> mapM (read_iov b hdrs segs) (map frame_iov c) = Some (map (frame_bytes b) c).
Proof using. induction 1 as [|d c Hd _ IH]; [done|]. cbn [map mapM]. rewrite read_frame by done. cbn [mbind option_bind]. by rewrite IH. Qed.

Lemma whole_nonempty c : whole c -> c <> [].
Proof using. intros (c0 & d & -> & _) H. by destruct c0. Qed.

Lemma concat_len_pos (cs : list (list Desc)) : Forall (fun c => c <> []) cs -> zlen cs <= zlen (concat cs).
Proof using.
  induction 1 as [|c cs Hc _ IH]; [done|]. cbn [concat]. rewrite zlen_cons, zlen_app. destruct c; [done|]. rewrite zlen_cons. pose proof (zlen_nonneg c). lia.
Qed.

Lemma sum_lens_concat (cs : list (list Desc)) : sumZ (map zlen cs) = zlen (concat cs).
Proof using. induction cs as [|c cs IH]; [done|]. cbn [map concat]. rewrite sumZ_cons, zlen_app, IH. done. Qed.

Lemma needs_as_iovs gso : forall cs offs, needs gso (map as_iovs (with_offs offs cs)) = sumZ (map (fun c => need_of gso (zlen c)) cs).
Proof using.
  induction cs as [|c cs IH]; intros offs; [done|]. cbn [with_offs map]. rewrite needs_cons, sumZ_cons, IH. cbn [as_iovs snd]. unfold zlen. by rewrite length_map.
Qed.

Lemma zip_gathered gso b : forall ps, zip_with (fun p bs => gathered gso (fst p) bs) (map as_iovs ps) (map (fun p => map (frame_bytes b) (snd p)) ps) = map (packet gso b) ps.
Proof using. induction ps as [|p ps IH]; [done|]. cbn [map zip_with]. by rewrite IH. Qed.

(** The messages of the batch after the second pass. *)
Lemma lay_chains_spec kf rg rest offs cs iovN left gso w : region_ok kf rg -> Forall desc_ok rest -> offs_reach offs (zlen rest) ->
  wired gso w -> passed kf rg gso rest left cs iovN -> cs <> [] ->
  exists w', lay_chains gso rg rest offs (map zlen cs) 0 0 0 (grow_hdrs gso (zlen (map zlen cs)) (grow_chain iovN w)) = Some w' /\ wired gso w' /\
    mapM (read_msg (rg_b rg) [] w') (take (length cs) (w_msgs w')) = Some (map (packet gso (rg_b rg)) (with_offs offs cs)).
Proof using.
  intros Hr Hd Ho Hw [(post & Hpost) Pw Pi Pv Pf Pm Pl] Hne. unfold txBatch in Pm. rewrite !(Forall_forall whole) in Pw. assert (Hcs : Forall (fun c => c <> []) cs) by (apply Forall_forall; intros c Hc; by apply whole_nonempty, Pw).
  assert (Hin : Forall (inside_region (rg_b rg)) (concat cs)).
  { rewrite Hpost in Hd. apply Forall_app in Hd as [Hd _]. rewrite Forall_forall in Hd, Pi. apply Forall_forall. intros d Hdin. eapply one_frame_in_region; eauto. }
  assert (Hiov : 1 <= iovN).
  { destruct cs as [|c cs]; [done|]. apply Forall_cons in Hcs as [Hc _]. rewrite Pv. cbn [map]. rewrite sumZ_cons. destruct c; [done|]. rewrite zlen_cons. pose proof (zlen_nonneg c).
    pose proof (needs_nonneg gso (map as_iovs (with_offs None cs))) as Hn. rewrite needs_as_iovs in Hn. unfold need_of at 1. destruct gso; lia. }
  assert (Hlen : zlen (map zlen cs) = zlen cs) by (unfold zlen; by rewrite length_map). rewrite Hlen.
  destruct (grow_spec gso iovN (zlen cs) w Hw Hiov Pm) as (old & arr & Hwg & Harr & Hz). set (wg := grow_hdrs _ _ _) in *.
  pose proof (lay_chains_all gso rg rest cs offs [] post 0 0 wg Hpost Hin Hcs Ho) as HL. change (zlen (@nil Desc)) with 0 in HL. rewrite HL.
  assert (Hd0 : drop (Z.to_nat 0) <$> offs = offs) by (destruct offs; cbn; by rewrite ?drop_0). rewrite Hd0. set (ps := with_offs offs cs).
  assert (Hps : Forall (fun p => Forall (inside_region (rg_b rg)) (snd p)) ps).
  { apply Forall_forall. intros p Hp. assert (Hs : snd p ∈ cs). { destruct (with_offs_facts cs offs) as [<- _]. by apply list_elem_of_fmap_2. }
    rewrite Forall_forall in Hin |- *. intros d Hdin. apply Hin. apply list_elem_of_In, in_concat. exists (snd p). by rewrite <- !list_elem_of_In. }
  destruct (lay_all_spec gso (rg_b rg) [] (map as_iovs ps) (map (fun p => map (frame_bytes (rg_b rg)) (snd p)) ps) 0 0 wg old arr) as (w' & arr' & E & Hw' & _ & _ & _ & Hrd); try done.
  - clear -Hps. induction Hps as [|p ps Hp _ IH]; cbn [map]; constructor; [|done]. intros hdrs. cbn [as_iovs snd]. by apply mapM_read_frames.
  - unfold ps. unfold zlen. rewrite length_map. destruct (with_offs_facts cs offs) as (_ & _ & ->). unfold zlen in Pm. lia.
  - unfold ps. rewrite needs_as_iovs, <- Pv. lia.
  - exists w'. split; [done|]. split; [done|]. rewrite length_map in Hrd. destruct (with_offs_facts cs offs) as (_ & _ & Hlw). unfold ps in Hrd. rewrite Hlw, zip_gathered in Hrd. done.
Qed.

Lemma chained_batch_spec kf rg rest offs left q k : region_ok kf rg -> txq_ok q -> Forall desc_ok rest -> offs_reach offs (zlen rest) ->
  zlen (at_pending q) + left <= maxPending ->
  exists sent stop err q' k', chained_batch rg rest offs left q k = Some (sent, stop, err, q', k') /\ went kf rg offs rest sent q k q' k' /\
    round_end (1 <=? sent) stop err (at_n q) (at_n q').
Proof using KernelLaws0.
  intros Hr Hq Hd Ho Hroom. unfold chained_batch.
  destruct (chain_pass_spec kf (at_gso q) rg rest offs left Hr Hd Ho (length rest) [] 0) as (cs & iovN & refused & E & Hp & Herr).
  { constructor; cbn; try done. by exists rest. } { cbn. unfold zlen. cbn. lia. }
  change (map zlen []) with (@nil Z) in E. change (zlen (concat [])) with 0 in E. rewrite E. clear E. cbn [mbind option_bind].
  destruct (decide (cs = [])) as [->|Hne]; cbn [map].
  - eexists 0, true, refused, _, k. split; [done|]. destruct (to_counts _ Hq) as (C1 & C2 & C3). destruct refused as [e|].
    + split; [|split; [done|split; [intros _; by apply rejected_not_quiet|done]]]. apply went_none; [done|done|]. destruct Hq. constructor; cbn; try done. split_and!; try done. apply u64_range.
    + split; [|split; [done|split; [|done]]]. { apply went_none; [done|done|]. destruct Hq. constructor; cbn; try done. split_and!; try done. apply u64_range. }
      intros _ (H & _). cbn in H. by apply (u64_moves _ 1 C1).
  - destruct (lay_chains_spec kf rg rest offs cs iovN left (at_gso q) (at_wiring q) Hr Hd Ho (to_wired _ Hq) Hp Hne) as (w & E & Hw & Hrd).
    pose proof (pa_msgs _ _ _ _ _ _ _ Hp) as Hm. unfold txBatch in Hm. assert (Hlen : zlen (map zlen cs) = zlen cs) by (unfold zlen; by rewrite length_map). rewrite Hlen in *.
    destruct (map zlen cs) as [|n0 l0] eqn:Hlens; [by destruct cs|]. rewrite <- Hlens in *. rewrite E. cbn [mbind option_bind].
    replace (length cs) with (Z.to_nat (zlen cs)) in Hrd by (unfold zlen; lia). pose proof (wi_msgs _ _ Hw). pose proof (zlen_nonneg cs).
    destruct (sendAll_spec (rg_b rg) [] (zlen cs) (at_with_wiring w q) k _ Hrd) as (sm & c' & k' & -> & Hs & Hst & Hk); [cbn; lia|]. cbn [mbind option_bind].
    rewrite slice_Some by lia. cbn [mbind option_bind]. rewrite Z.sub_0_r, drop_0. rewrite firstn_map, sum_lens_concat.
    destruct Hp as [(post & Hpost) Pw Pi Pv Pf _ Pl]. set (cs1 := take (Z.to_nat sm) cs). assert (Hsplit : concat cs = concat cs1 ++ concat (drop (Z.to_nat sm) cs)) by (unfold cs1; by rewrite <- concat_app, take_drop).
    assert (Hpre : rest = concat cs1 ++ concat (drop (Z.to_nat sm) cs) ++ post) by (by rewrite app_assoc, <- Hsplit).
    assert (Hgone : take (Z.to_nat (zlen (concat cs1))) rest = concat cs1) by (rewrite Hpre; apply take_app_length'; unfold zlen; lia).
    assert (Hsd : 0 <= zlen (concat cs1) <= zlen rest) by (rewrite Hpre, zlen_app; pose proof (zlen_nonneg (concat cs1)); pose proof (zlen_nonneg (concat (drop (Z.to_nat sm) cs) ++ post)); lia).
    rewrite slice_Some by lia. cbn [mbind option_bind]. rewrite Z.sub_0_r, drop_0.
    destruct (stopped_counts _ _ _ _ Hst ltac:(lia) ltac:(lia) (to_counts _ Hq)) as (S1 & S2 & S3 & _).
    exists (zlen (concat cs1)), (if sm <? zlen cs then true else match refused with Some _ => true | None => false end), refused,
      (note_refused refused (account (take (Z.to_nat (zlen (concat cs1))) rest) (at_count (fun _ => c') (at_with_wiring w q)))), k'.
    split; [by destruct (sm <? zlen cs)|]. split.
    + apply (went_account kf rg offs rest (zlen (concat cs1)) w c' refused q k k' (with_offs offs cs1)); try done.
      * specialize (Pl Hne). rewrite Hsplit, zlen_app in Pl. pose proof (zlen_nonneg (concat (drop (Z.to_nat sm) cs))). lia.
      * destruct (with_offs_facts cs1 offs) as (-> & _). by rewrite Hgone.
      * destruct (with_offs_facts cs1 offs) as (-> & _). by apply Forall_take.
      * rewrite Hgone. rewrite Hsplit in Pi. by apply Forall_app in Pi as [Pi _].
      * by destruct (with_offs_facts cs1 offs) as (_ & ? & _).
      * rewrite Hk. f_equal. by rewrite firstn_map, with_offs_take.
    + pose proof (round_end_send true (zlen cs) sm (at_n q) c' refused (take (Z.to_nat (zlen (concat cs1))) rest) (at_count (fun _ => c') (at_with_wiring w q)) Hst Hs ltac:(lia) (to_counts _ Hq) eq_refl ltac:(done) Herr) as (R1 & R2 & R3).
      split; [|by split]. intros Hstop. destruct (R1 Hstop) as (R4 & R5 & R6). split; [|by split]. cbn [andb] in R4. apply Z.eqb_eq in R4. apply Z.leb_le.
      unfold cs1. rewrite R4. replace (Z.to_nat (zlen cs)) with (length cs) by (unfold zlen; lia). rewrite firstn_all. transitivity (zlen cs).
      * destruct cs; [done|]. rewrite zlen_cons. pose proof (zlen_nonneg cs). lia.
      * apply concat_len_pos. eapply Forall_impl; [exact Pw|]. intros c Hc. by apply whole_nonempty.
Qed.

Lemma transmitChained_spec kf rg descs offs room : region_ok kf rg -> Forall desc_ok descs -> offs_reach offs (zlen descs) ->
  forall fuel total q k, txq_ok q -> 0 <= total <= zlen descs -> zlen descs - total <= Z.of_nat fuel -> zlen (at_pending q) + (room - total) <= maxPending ->
  exists n err q' k', transmitChained fuel rg descs offs room total q k = Some (total + n, err, q', k') /\
    loop_res kf rg (drop (Z.to_nat total) <$> offs) (drop (Z.to_nat total) descs) n err q k q' k'.
Proof using KernelLaws0.
  intros Hr Hd Ho. induction fuel as [|fuel IH]; intros total q k Hq Ht Hf Hroom; cbn [transmitChained].
  { rewrite (proj2 (Z.ltb_ge _ _)) by lia. exists 0, None, q, k. rewrite Z.add_0_r. split; [done|]. apply loop_res_all; [done|]. rewrite zlen_drop. lia. }
  destruct (Z.ltb_spec total (zlen descs)) as [Hlt|Hge].
  2:{ exists 0, None, q, k. rewrite Z.add_0_r. split; [done|]. apply loop_res_all; [done|]. rewrite zlen_drop. lia. }
  rewrite slice_rest by lia. cbn [mbind option_bind].
  destruct (offs_slice offs total (zlen descs - total)) as [-> Ho2]; [lia|intros os E; specialize (Ho os E); lia|lia|]. cbn [mbind option_bind].
  destruct (chained_batch_spec kf rg (drop (Z.to_nat total) descs) (drop (Z.to_nat total) <$> offs) (room - total) q k) as (sent & stop & err & q1 & k1 & -> & Hw & Hst & Hmv & Herr);
    [done|done|by apply Forall_drop|rewrite zlen_drop; intros os E; specialize (Ho2 os E); lia|lia|].
  cbn [mbind option_bind]. pose proof (we_range _ _ _ _ _ _ _ _ _ Hw) as Hrange. rewrite zlen_drop in Hrange. destruct stop.
  - exists sent, err, q1, k1. split; [done|]. apply loop_res_stop; auto.
  - destruct (Hst eq_refl) as (Hall & -> & Hq1). apply Z.leb_le in Hall.
    destruct (IH (total + sent) q1 k1) as (n & err & q' & k' & -> & HR); [by apply Hw|lia|lia| |].
    { rewrite (we_pending _ _ _ _ _ _ _ _ _ Hw), zlen_app, zlen_take, zlen_drop. lia. }
    exists (sent + n), err, q', k'. rewrite Z.add_assoc. split; [done|]. eapply loop_res_trans; [done|done|].
    replace (Z.to_nat (total + sent)) with (Z.to_nat total + Z.to_nat sent)%nat in HR by lia. rewrite drop_drop. destruct offs as [os|]; cbn in *; [by rewrite drop_drop|done].
Qed.
End ops.
