(* ===== verification/AfTxGather.v ===== *)
(** The gather path: packets out of the caller's own memory. *)

From stdpp Require Import prelude list numbers strings.
From S2P Require Import Prelude Bytes Desc Pool Mlx5Region AfTx AfTxWire AfTxOps.

(** The segments of each packet. *)
Fixpoint groups (counts : list Z) (segs : list (list Z)) : list (list (list Z)) :=
  match counts with
  | [] => []
  | n :: counts => take (Z.to_nat n) segs :: groups counts (drop (Z.to_nat n) segs)
  end.

(** One Offload per packet, zero where there are none. *)
Fixpoint pair_offs {A} (offs : option (list Offload)) (l : list A) : list (Offload * A) :=
  match l with
  | [] => []
  | x :: l => (first_off offs, x) :: pair_offs (tail <$> offs) l
  end.

(** A packet of the gather path. *)
Definition gather_bytes (gso : bool) (p : Offload * list (list Z)) : list Z := gathered gso (fst p) (snd p).

Lemma length_pair_offs {A} : forall (l : list A) offs, length (pair_offs offs l) = length l.
Proof. induction l as [|x l IH]; intros offs; [done|]. cbn [pair_offs length]. by rewrite IH. Qed.

Lemma take_pair_offs {A} : forall n (l : list A) offs, take n (pair_offs offs l) = pair_offs offs (take n l).
Proof. induction n as [|n IH]; intros [|x l] offs; cbn [take pair_offs]; try done. by rewrite IH. Qed.

Lemma take_groups : forall n counts segs, take n (groups counts segs) = groups (take n counts) segs.
Proof. induction n as [|n IH]; intros [|c counts] segs; cbn [take groups]; try done. by rewrite IH. Qed.

Lemma pair_offs_app {A} (l1 l2 : list A) : forall offs, pair_offs offs (l1 ++ l2) = pair_offs offs l1 ++ pair_offs (drop (length l1) <$> offs) l2.
Proof.
  induction l1 as [|x l1 IH]; intros offs; cbn [app pair_offs length]; [by destruct offs; cbn; rewrite ?drop_0|]. rewrite IH. do 3 f_equal. destruct offs as [[|]|]; cbn; rewrite ?drop_nil; done.
Qed.

Lemma groups_app l1 : forall l2 segs, Forall (fun n => 0 <= n) l1 -> groups (l1 ++ l2) segs = groups l1 segs ++ groups l2 (drop (Z.to_nat (sumZ l1)) segs).
Proof.
  induction l1 as [|n l1 IH]; intros l2 segs Hn; [by rewrite drop_0|]. apply Forall_cons in Hn as [Hn Hl]. cbn [app groups]. rewrite IH by done. do 3 f_equal. rewrite drop_drop. f_equal. rewrite sumZ_cons.
  assert (0 <= sumZ l1); [|lia]. clear -Hl. induction Hl as [|x l H _ IH]; [done|]. rewrite sumZ_cons. lia.
Qed.

Lemma sumZ_nonneg l : Forall (fun n => 0 <= n) l -> 0 <= sumZ l.
Proof. induction 1 as [|x l H _ IH]; [done|]. rewrite sumZ_cons. lia. Qed.

Lemma length_groups : forall counts segs, length (groups counts segs) = length counts.
Proof. induction counts as [|n counts IH]; intros segs; [done|]. cbn [groups length]. by rewrite IH. Qed.

(** ** The first pass *)

Lemma check_segs_nonempty : forall segs n len, check_segs n segs = Some len -> Forall (fun s => s <> []) segs.
Proof.
  induction segs as [|s segs IH]; intros n len H; cbn [check_segs] in H; [constructor|]. destruct (Z.eqb_spec (zlen s) 0) as [|Hs]; [done|]. constructor; [|by eapply IH]. intros ->. done.
Qed.

(** Packets found good: counts that the segments reach, nothing empty. *)
Record gpassed (gso : bool) (segs : list (list Z)) (base : Z) (lens : list Z) (iovN : Z) : Prop := mkGpassed {
  gp_counts : Forall (fun n => 1 <= n) lens;
  gp_segs : base + sumZ lens <= zlen segs;
  gp_nonempty : Forall (fun s => s <> []) (take (Z.to_nat (sumZ lens)) (drop (Z.to_nat base) segs));
  gp_iov : iovN = sumZ (map (need_of gso) lens);
  gp_fit : iovN <= chainIovBudget;
  gp_msgs : zlen lens <= txBatch }.

Lemma gather_pass_spec gso segs offs base : 0 <= base -> forall counts p lens iovN, 0 <= p -> offs_reach offs (p + zlen counts) -> gpassed gso segs base lens iovN ->
  exists lens' iovN' refused j, gather_pass gso segs offs base p counts lens iovN (sumZ lens) = Some (lens', iovN', refused) /\ gpassed gso segs base lens' iovN' /\
    lens' = lens ++ take j counts /\ (j <= length counts)%nat /\ (forall e, refused = Some e -> errors_is ErrBadLength e = true) /\
    (lens = [] -> iovN = 0 -> counts <> [] -> refused = None -> j <> 0%nat).
Proof.
  intros Hb. induction counts as [|n counts IH]; intros p lens iovN Hp Ho Hg; cbn [gather_pass]; [exists lens, iovN, None, 0%nat; split; [done|]; split; [done|]; split; [by rewrite app_nil_r|]; split; [done|]; by split|].
  assert (Hstop : forall refused, (forall e, refused = Some e -> errors_is ErrBadLength e = true) -> (refused = None -> lens = [] -> iovN = 0 -> False) ->
    exists lens' iovN' refused' j, Some (lens, iovN, refused) = Some (lens', iovN', refused') /\ gpassed gso segs base lens' iovN' /\ lens' = lens ++ take j (n :: counts) /\
      (j <= length (n :: counts))%nat /\ (forall e, refused' = Some e -> errors_is ErrBadLength e = true) /\ (lens = [] -> iovN = 0 -> n :: counts <> [] -> refused' = None -> j <> 0%nat)).
  { intros refused H1 H2. exists lens, iovN, refused, 0%nat. split; [done|]. split; [done|]. split; [by rewrite take_0, app_nil_r|]. split; [cbn; lia|]. split; [done|]. intros A B _ C. by destruct (H2 C A B). }
  rewrite zlen_cons in Ho. pose proof (zlen_nonneg counts). destruct (Z.ltb_spec (zlen lens) txBatch) as [Hm|Hm]; [|apply Hstop; [done|intros _ -> _; unfold txBatch in Hm; rewrite zlen_nil in Hm; lia]].
  destruct (Z.leb_spec n 0) as [|Hn]; cbn [orb]; [apply Hstop; [by intros ? [= <-]|done]|]. destruct (Z.gtb_spec (base + sumZ lens + n) (zlen segs)) as [|Hs]; [apply Hstop; [by intros ? [= <-]|done]|].
  destruct (Z.gtb_spec n maxChainBufs) as [|Hmax]; [apply Hstop; [by intros ? [= <-]|done]|].
  assert (Hl0 : 0 <= sumZ lens) by (apply sumZ_nonneg; eapply Forall_impl; [exact (gp_counts _ _ _ _ _ Hg)|]; cbn; lia).
  rewrite slice_Some by lia. cbn [mbind option_bind]. destruct (check_segs 0 _) as [len|] eqn:Ec; [|apply Hstop; [by intros ? [= <-]|done]].
  assert (He : exists e, match offs with None => Some None | Some os => o ← get_at p os; Some (checkOffload o len) end = Some e).
  { destruct offs as [os|]; [|eauto]. specialize (Ho os eq_refl). destruct (get_at_Some p os ltac:(lia)) as [o ->]. eauto. }
  destruct He as [e ->]. cbn [mbind option_bind]. destruct e as [e|]; [apply Hstop; [by intros ? [= <-]|done]|].
  destruct (Z.gtb_spec (iovN + need_of gso n) chainIovBudget) as [Hbud|Hbud].
  { apply Hstop; [done|]. intros _ _ ->. unfold chainIovBudget, maxChainBufs, need_of in *. destruct gso; lia. }
  apply check_segs_nonempty in Ec. replace (sumZ lens + n) with (sumZ (lens ++ [n])) by (rewrite sumZ_app, sumZ_cons; cbn; lia).
  destruct (IH (p + 1) (lens ++ [n]) (iovN + need_of gso n)) as (lens' & iovN' & refused & j & E & G & L & J & Er & _); [lia|intros os Eo; specialize (Ho os Eo); lia| |].
  - destruct Hg as [G1 G2 G3 G4 G5 G6]. assert (Hsum : sumZ (lens ++ [n]) = sumZ lens + n) by (rewrite sumZ_app, sumZ_cons; cbn; lia). constructor.
    + apply Forall_app. split; [done|]. repeat constructor. lia.
    + lia.
    + rewrite Hsum. replace (Z.to_nat (sumZ lens + n)) with (Z.to_nat (sumZ lens) + Z.to_nat n)%nat by lia. rewrite <- take_take_drop, drop_drop. apply Forall_app. split; [done|].
      replace (Z.to_nat base + Z.to_nat (sumZ lens))%nat with (Z.to_nat (base + sumZ lens)) by lia. by replace (base + sumZ lens + n - (base + sumZ lens)) with n in Ec by lia.
    + rewrite map_app, sumZ_app, G4. cbn [map]. rewrite sumZ_cons. cbn. lia.
    + lia.
    + rewrite zlen_app, zlen_cons, zlen_nil. lia.
  - exists lens', iovN', refused, (S j). split; [done|]. split; [done|]. split; [by rewrite L, <- app_assoc|]. split; [cbn; lia|]. split; [done|]. lia.
Qed.

(** ** The second pass *)

Lemma seg_parts_ok segs : forall (n : nat) s0, 0 <= s0 -> s0 + Z.of_nat n <= zlen segs -> Forall (fun s => s <> []) (take n (drop (Z.to_nat s0) segs)) ->
  exists parts, mapM (seg_iov segs) (seqZ s0 (Z.of_nat n)) = Some parts /\ length parts = n /\
    forall b hdrs, mapM (read_iov b hdrs segs) parts = Some (take n (drop (Z.to_nat s0) segs)).
Proof.
  induction n as [|n IH]; intros s0 Hs Hl Hne; [by exists []|]. destruct (lookup_lt_is_Some_2 segs (Z.to_nat s0)) as [s Hlk]; [unfold zlen in Hl; lia|].
  rewrite (take_drop_cons segs s0 n s Hs Hlk) in *. apply Forall_cons in Hne as [Hs0 Hne]. destruct (IH (s0 + 1) ltac:(lia) ltac:(lia) Hne) as (parts & E & Hlen & Hrd).
  exists (mkIov (Some (PSeg s0)) (zlen s) :: parts). rewrite seqZ_cons by lia. replace (Z.pred (Z.of_nat (S n))) with (Z.of_nat n) by lia. cbn [mapM]. split; [|split; [by cbn; rewrite Hlen|]].
  - assert (Hh : seg_iov segs s0 = Some (mkIov (Some (PSeg s0)) (zlen s))). { unfold seg_iov. rewrite (get_at_is s0 segs s Hs Hlk). by destruct s. }
    rewrite Hh. cbn [mbind option_bind]. by rewrite <- Z.add_1_r, E.
  - intros b hdrs. assert (Hh : read_iov b hdrs segs (mkIov (Some (PSeg s0)) (zlen s)) = Some s).
    { unfold read_iov. cbn [io_base io_len]. rewrite (get_at_is s0 segs s Hs Hlk). cbn [mbind option_bind]. pose proof (zlen_nonneg s). rewrite slice_Some by lia. rewrite Z.sub_0_r, drop_0. by rewrite take_ge by (unfold zlen; lia). }
    cbn [mapM]. rewrite Hh. cbn [mbind option_bind]. by rewrite Hrd.
Qed.

(** What one laid packet holds of the packet asked for. *)
Definition lays (gso : bool) (segs : list (list Z)) (p : Offload * list Iovec) (gp : Offload * list (list Z)) : Prop :=
  (gso = true -> fst p = fst gp) /\ zlen (snd p) = zlen (snd gp) /\ forall b hdrs, mapM (read_iov b hdrs segs) (snd p) = Some (snd gp).

Lemma lay_gather_all gso segs offs sent : 0 <= sent -> forall lens m s0, 0 <= m -> 0 <= s0 -> Forall (fun n => 1 <= n) lens -> s0 + sumZ lens <= zlen segs ->
  Forall (fun s => s <> []) (take (Z.to_nat (sumZ lens)) (drop (Z.to_nat s0) segs)) -> offs_reach offs (sent + m + zlen lens) ->
  exists ps, (forall at_ w, lay_gather gso segs offs sent lens m at_ s0 w = lay_all gso m at_ ps w) /\
    Forall2 (lays gso segs) ps (pair_offs (drop (Z.to_nat (sent + m)) <$> offs) (groups lens (drop (Z.to_nat s0) segs))).
Proof.
  intros Hsent. induction lens as [|n lens IH]; intros m s0 Hm Hs Hn Hl Hne Ho; cbn [lay_gather groups pair_offs]; [exists []; by split|].
  apply Forall_cons in Hn as [Hn Hns]. rewrite sumZ_cons in *. assert (Hpos : 0 <= sumZ lens) by (apply sumZ_nonneg; eapply Forall_impl; [exact Hns|]; cbn; lia).
  replace (Z.to_nat (n + sumZ lens)) with (Z.to_nat n + Z.to_nat (sumZ lens))%nat in Hne by lia. rewrite <- take_take_drop, drop_drop in Hne. apply Forall_app in Hne as [Hne1 Hne2].
  rewrite zlen_cons in Ho. pose proof (zlen_nonneg lens).
  assert (Hoff : exists o, match offs with None => Some zeroOffload | Some os => if gso then get_at (sent + m) os else Some zeroOffload end = Some o /\ (gso = true -> o = first_off (drop (Z.to_nat (sent + m)) <$> offs))).
  { destruct offs as [os|]; [|by eexists]. destruct gso; [|by eexists]. specialize (Ho os eq_refl). rewrite get_at_lookup by lia.
    destruct (lookup_lt_is_Some_2 os (Z.to_nat (sent + m))) as [o Hlk]; [unfold zlen in *; lia|]. exists o. split; [done|]. intros _. unfold first_off. cbn. by rewrite (drop_S os o _ Hlk). }
  destruct Hoff as (o & -> & Heq). cbn [mbind option_bind]. destruct (seg_parts_ok segs (Z.to_nat n) s0 Hs ltac:(lia) Hne1) as (parts & Ep & Hlen & Hrd). rewrite Z2Nat.id in Ep by lia. rewrite Ep. cbn [mbind option_bind].
  destruct (IH (m + 1) (s0 + n)) as (ps & Hla & Hf); [lia|lia|done|lia|by replace (Z.to_nat (s0 + n)) with (Z.to_nat s0 + Z.to_nat n)%nat by lia|intros os E; specialize (Ho os E); lia|].
  exists ((o, parts) :: ps). cbn [lay_all]. split.
  - intros at_ w. destruct (lay_packet gso m o parts at_ w) as [[at1 w1]|]; [|done]. cbn [mbind option_bind]. apply Hla.
  - constructor; [split; [done|]; split; [cbn [snd]; unfold zlen; rewrite Hlen, length_take, length_drop; unfold zlen in Hl; lia|done]|].
    rewrite drop_drop. replace (Z.to_nat s0 + Z.to_nat n)%nat with (Z.to_nat (s0 + n)) by lia. replace (tail <$> (drop (Z.to_nat (sent + m)) <$> offs)) with (drop (Z.to_nat (sent + (m + 1))) <$> offs); [done|].
    destruct offs as [os|]; cbn; [|done]. f_equal. replace (Z.to_nat (sent + (m + 1))) with (Z.to_nat (sent + m) + 1)%nat by lia. rewrite <- drop_drop. by destruct (drop (Z.to_nat (sent + m)) os).
Qed.

Lemma lays_needs gso segs ps gps : Forall2 (lays gso segs) ps gps -> needs gso ps = sumZ (map (fun gp => need_of gso (zlen (snd gp))) gps).
Proof. induction 1 as [|p gp ps gps (_ & Hz & _) _ IH]; [done|]. cbn [map]. rewrite needs_cons, sumZ_cons, IH, Hz. done. Qed.

Lemma lays_packets gso segs ps gps : Forall2 (lays gso segs) ps gps -> zip_with (fun p bs => gathered gso (fst p) bs) ps (map snd gps) = map (gather_bytes gso) gps.
Proof.
  induction 1 as [|p gp ps gps (Ho & _ & _) _ IH]; [done|]. cbn [map zip_with]. rewrite IH. f_equal. unfold gather_bytes, gathered. destruct gso; [by rewrite Ho|done].
Qed.

Lemma groups_needs gso : forall lens segs offs, Forall (fun n => 1 <= n) lens -> sumZ lens <= zlen segs ->
  sumZ (map (fun gp => need_of gso (zlen (snd gp))) (pair_offs offs (groups lens segs))) = sumZ (map (need_of gso) lens).
Proof.
  induction lens as [|n lens IH]; intros segs offs Hn Hl; [done|]. apply Forall_cons in Hn as [Hn Hns]. rewrite sumZ_cons in Hl. cbn [groups pair_offs map snd].
  assert (0 <= sumZ lens) by (apply sumZ_nonneg; eapply Forall_impl; [exact Hns|]; cbn; lia). rewrite !sumZ_cons, IH by (done || rewrite zlen_drop; lia). do 2 f_equal. rewrite zlen_take. lia.
Qed.

Lemma lay_gather_spec gso rg segs offs sent base lens iovN w : 0 <= sent -> 0 <= base -> wired gso w -> gpassed gso segs base lens iovN -> lens <> [] ->
  offs_reach offs (sent + zlen lens) ->
  exists w', lay_gather gso segs offs sent lens 0 0 base (grow_hdrs gso (zlen lens) (grow_chain iovN w)) = Some w' /\ wired gso w' /\
    mapM (read_msg (rg_b rg) segs w') (take (length lens) (w_msgs w')) = Some (map (gather_bytes gso) (pair_offs (drop (Z.to_nat sent) <$> offs) (groups lens (drop (Z.to_nat base) segs)))).
Proof.
  intros Hs Hb Hw [G1 G2 G3 G4 G5 G6] Hne Ho. unfold txBatch in G6.
  assert (Hiov : 1 <= iovN).
  { destruct lens as [|n lens]; [done|]. apply Forall_cons in G1 as [Hn Hns]. rewrite G4. cbn [map]. rewrite sumZ_cons. assert (0 <= sumZ (map (need_of gso) lens)); [|unfold need_of at 1; destruct gso; lia].
    apply sumZ_nonneg, Forall_map. eapply Forall_impl; [exact Hns|]. intros x Hx. cbn in *. unfold need_of. destruct gso; lia. }
  destruct (grow_spec gso iovN (zlen lens) w Hw Hiov G6) as (old & arr & Hwg & Harr & Hz).
  destruct (lay_gather_all gso segs offs sent Hs lens 0 base) as (ps & Hla & Hf); [lia|lia|done|lia|done|by rewrite Z.add_0_r|]. rewrite Hla. rewrite Z.add_0_r in Hf. set (gps := pair_offs _ _) in *.
  destruct (lay_all_spec gso (rg_b rg) segs ps (map snd gps) 0 0 (grow_hdrs gso (zlen lens) (grow_chain iovN w)) old arr) as (w' & arr' & E & Hw' & _ & _ & _ & Hrd); try done.
  - clear -Hf. induction Hf as [|p gp ps gps Hp _ IH]; cbn [map]; constructor; [|done]. intros hdrs. by apply Hp.
  - apply Forall2_length in Hf. unfold zlen in *. unfold gps in Hf. rewrite length_pair_offs, length_groups in Hf. lia.
  - rewrite (lays_needs _ _ _ _ Hf). unfold gps. assert (0 <= sumZ lens) by (apply sumZ_nonneg; eapply Forall_impl; [exact G1|]; cbn; lia). rewrite groups_needs by (done || rewrite zlen_drop; lia). lia.
  - exists w'. split; [done|]. split; [done|]. apply Forall2_length in Hf as Hl. unfold gps in Hl. rewrite length_pair_offs, length_groups in Hl. rewrite Hl, (lays_packets _ _ _ _ Hf) in Hrd. done.
Qed.

(** ** The call *)

Definition total_bytes (segs : list (list Z)) : Z := sumZ (map zlen segs).

Lemma total_bytes_app a b : total_bytes (a ++ b) = total_bytes a + total_bytes b.
Proof. unfold total_bytes. by rewrite map_app, sumZ_app. Qed.

Lemma sum_segs_total segs x : u64 (x + sum_segs segs) = u64 (x + total_bytes segs).
Proof.
  assert (Hg : forall l acc y, u64 (y + foldl (fun n s => u64 (n + zlen s)) acc l) = u64 (y + acc + total_bytes l)).
  { induction l as [|d l IH]; intros acc y; cbn [foldl]; [unfold total_bytes; cbn; f_equal; lia|]. rewrite IH. change (total_bytes (d :: l)) with (zlen d + total_bytes l). unfold u64.
    rewrite <- (Zplus_mod_idemp_l (y + _)), Zplus_mod_idemp_r, Zplus_mod_idemp_l. f_equal. lia. }
  unfold sum_segs. rewrite Hg. f_equal. lia.
Qed.

Section gather.
Context {P : Type} `{!FramePool P} {K : Type} `{!Kernel K} `{!KernelLaws K}.
Implicit Types q : AfTx P.

(** The first [n] packets went, whole and as they were; nothing is pending. *)
Record gwent (segs : list (list Z)) (counts : list Z) (offs : option (list Offload)) (n : Z) q (k : K) q' (k' : K) : Prop := mkGwent {
  gw_range : 0 <= n <= zlen counts;
  gw_ok : txq_ok q';
  gw_same : at_gso q' = at_gso q /\ at_pool q' = at_pool q /\ at_closed q' = at_closed q /\ at_pending q' = at_pending q;
  gw_counts : Forall (fun c => 1 <= c) (take (Z.to_nat n) counts) /\ sumZ (take (Z.to_nat n) counts) <= zlen segs;
  gw_sent : u64 (n_sent (at_n q')) = u64 (n_sent (at_n q) + sumZ (take (Z.to_nat n) counts));
  gw_bytes : u64 (n_bytes (at_n q')) = u64 (n_bytes (at_n q) + total_bytes (take (Z.to_nat (sumZ (take (Z.to_nat n) counts))) segs));
  gw_wire : k_wire k' = k_wire k ++ map (gather_bytes (at_gso q)) (pair_offs offs (groups (take (Z.to_nat n) counts) segs)) }.

Lemma gwent_trans segs counts offs n1 n2 q k q1 k1 q2 k2 : gwent segs counts offs n1 q k q1 k1 ->
  gwent (drop (Z.to_nat (sumZ (take (Z.to_nat n1) counts))) segs) (drop (Z.to_nat n1) counts) (drop (Z.to_nat n1) <$> offs) n2 q1 k1 q2 k2 -> gwent segs counts offs (n1 + n2) q k q2 k2.
Proof using.
  intros [R1 _ (A1 & B1 & C1 & D1) (E1 & F1) S1 T1 W1] [R2 O2 (A2 & B2 & C2 & D2) (E2 & F2) S2 T2 W2]. rewrite zlen_drop in R2.
  assert (Ht : take (Z.to_nat (n1 + n2)) counts = take (Z.to_nat n1) counts ++ take (Z.to_nat n2) (drop (Z.to_nat n1) counts)) by (rewrite take_take_drop; f_equal; lia).
  set (c1 := take (Z.to_nat n1) counts) in *. set (c2 := take (Z.to_nat n2) (drop (Z.to_nat n1) counts)) in *.
  assert (P1 : 0 <= sumZ c1) by (apply sumZ_nonneg; eapply Forall_impl; [exact E1|]; cbn; lia). assert (P2 : 0 <= sumZ c2) by (apply sumZ_nonneg; eapply Forall_impl; [exact E2|]; cbn; lia).
  constructor; rewrite ?Ht.
  - lia.
  - done.
  - rewrite A2, B2, C2, D2. done.
  - rewrite zlen_drop in F2. rewrite sumZ_app. split; [by apply Forall_app|lia].
  - rewrite S2, sumZ_app. by apply u64_add_u64.
  - rewrite T2, sumZ_app. replace (Z.to_nat (sumZ c1 + sumZ c2)) with (Z.to_nat (sumZ c1) + Z.to_nat (sumZ c2))%nat by lia. rewrite <- take_take_drop, total_bytes_app. by apply u64_add_u64.
  - rewrite W2, W1, A1, groups_app by (eapply Forall_impl; [exact E1|]; cbn; lia). rewrite pair_offs_app, map_app, <- app_assoc, length_groups. do 4 f_equal.
    unfold c1. rewrite length_take. unfold zlen in R1. by replace (Z.to_nat n1 `min` length counts)%nat with (Z.to_nat n1) by lia.
Qed.

Lemma gwent_none segs counts offs q k f : txq_ok q -> (forall c, n_sent (f c) = n_sent c /\ n_bytes (f c) = n_bytes c) -> txq_ok (at_count f q) -> gwent segs counts offs 0 q k (at_count f q) k.
Proof using.
  intros Hq Hf Hq'. destruct (Hf (at_n q)) as [F1 F2]. constructor; cbn; try done.
  - pose proof (zlen_nonneg counts). lia.
  - split; [constructor|]. change (take (Z.to_nat 0) counts) with (@nil Z). change (sumZ []) with 0. apply zlen_nonneg.
  - by rewrite F1, Z.add_0_r.
  - by rewrite F2, Z.add_0_r.
  - by rewrite app_nil_r.
Qed.

Lemma note_refused_ok refused q : txq_ok q -> txq_ok (note_refused refused q).
Proof using. intros [A B C (D & E & F)]. destruct refused; [|done]. constructor; cbn; try done. split_and!; try done. apply u64_range. Qed.

(** The result of a call, or of what is left of one. *)
Record gres (segs : list (list Z)) (counts : list Z) (offs : option (list Offload)) (n : Z) (err : option error) q (k : K) q' (k' : K) : Prop := mkGres {
  gr_went : gwent segs counts offs n q k q' k';
  gr_short : n < zlen counts -> ~ quiet (at_n q) (at_n q');
  gr_err : forall e, err = Some e -> errors_is ErrBadLength e = true }.

Lemma gres_nothing segs counts offs refused q k : txq_ok q -> (refused = None -> zlen counts = 0) -> (forall e, refused = Some e -> errors_is ErrBadLength e = true) ->
  gres segs counts offs 0 refused q k (note_refused refused q) k.
Proof using.
  intros Hq Hn He. assert (Hw : gwent segs counts offs 0 q k (note_refused refused q) k).
  { destruct refused as [e|]; [apply gwent_none; [done|done|by apply (note_refused_ok (Some e))]|]. pose proof (gwent_none segs counts offs q k id Hq ltac:(done)) as HW. destruct q. by apply HW. }
  constructor; [done| |done]. intros Hlt. destruct refused; [|rewrite Hn in Hlt by done; lia]. cbn. apply rejected_not_quiet; [done|]. apply (to_counts _ Hq).
Qed.

Lemma gather_loop_spec rg segs counts offs : offs_reach offs (zlen counts) ->
  forall fuel sent base q k, txq_ok q -> 0 <= sent <= zlen counts -> 0 <= base <= zlen segs -> zlen counts - sent <= Z.of_nat fuel ->
  exists n err q' k', gather_loop fuel rg segs counts offs sent base q k = Some (sent + n, err, q', k') /\
    gres (drop (Z.to_nat base) segs) (drop (Z.to_nat sent) counts) (drop (Z.to_nat sent) <$> offs) n err q k q' k'.
Proof using KernelLaws0.
  intros Ho. induction fuel as [|fuel IH]; intros sent base q k Hq Hs Hb Hf; cbn [gather_loop].
  { rewrite (proj2 (Z.ltb_ge _ _)) by lia. exists 0, None, q, k. rewrite Z.add_0_r. split; [done|]. apply (gres_nothing _ _ _ None); [done|intros _; rewrite zlen_drop; lia|done]. }
  destruct (Z.ltb_spec sent (zlen counts)) as [Hlt|Hge].
  2:{ exists 0, None, q, k. rewrite Z.add_0_r. split; [done|]. apply (gres_nothing _ _ _ None); [done|intros _; rewrite zlen_drop; lia|done]. }
  rewrite slice_rest by lia. cbn [mbind option_bind]. set (todo := drop (Z.to_nat sent) counts). assert (Htodo : zlen todo = zlen counts - sent) by (unfold todo; rewrite zlen_drop; lia).
  destruct (gather_pass_spec (at_gso q) segs offs base (proj1 Hb) todo sent [] 0) as (lens & iovN & refused & j & E & G & L & J & Er & Hprog);
    [lia|intros os Eo; specialize (Ho os Eo); lia| |].
  { constructor; try done. change (sumZ []) with 0. lia. } cbn [app] in L. change (sumZ []) with 0 in E. rewrite E. cbn [mbind option_bind].
  destruct (decide (lens = [])) as [Hnil|Hne].
  - rewrite Hnil. exists 0, refused, (note_refused refused q), k. rewrite Z.add_0_r. split; [done|]. apply gres_nothing; [done| |done]. intros Hr. exfalso.
    assert (Hj : j <> 0%nat) by (apply Hprog; try done; intros Hz; rewrite Hz in Htodo; rewrite zlen_nil in Htodo; lia). rewrite Hnil in L. destruct todo, j; done || (rewrite zlen_nil in Htodo; lia).
  - destruct (lay_gather_spec (at_gso q) rg segs offs sent base lens iovN (at_wiring q)) as (w & Ew & Hw & Hrd); [lia|lia|apply Hq|done|done|intros os Eo; specialize (Ho os Eo); rewrite L, zlen_take; lia|].
    destruct G as [G1 G2 G3 G4 G5 G6]. unfold txBatch in G6. destruct lens as [|n0 l0] eqn:Hl0; [done|]. rewrite <- Hl0 in *. clear Hl0. rewrite Ew. cbn [mbind option_bind].
    replace (length lens) with (Z.to_nat (zlen lens)) in Hrd by (unfold zlen; lia). pose proof (wi_msgs _ _ Hw). pose proof (zlen_nonneg lens).
    destruct (sendAll_spec (rg_b rg) segs (zlen lens) (at_with_wiring w q) k _ Hrd) as (got & c' & k' & -> & Hg & Hst & Hk); [cbn; lia|]. cbn [mbind option_bind].
    rewrite slice_Some by lia. cbn [mbind option_bind]. rewrite Z.sub_0_r, drop_0. set (l1 := take (Z.to_nat got) lens).
    assert (Hl1 : l1 = take (Z.to_nat got) todo) by (unfold l1; rewrite L, take_take; f_equal; rewrite L, zlen_take in Hg; lia).
    assert (Hpos1 : Forall (fun c => 1 <= c) l1) by (by apply Forall_take). assert (Hs1 : 0 <= sumZ l1) by (apply sumZ_nonneg; eapply Forall_impl; [exact Hpos1|]; cbn; lia).
    assert (Hs2 : sumZ l1 <= sumZ lens).
    { rewrite <- (take_drop (Z.to_nat got) lens), sumZ_app. fold l1. assert (0 <= sumZ (drop (Z.to_nat got) lens)); [|lia]. apply sumZ_nonneg. eapply Forall_impl; [apply Forall_drop; exact G1|]; cbn; lia. }
    rewrite slice_Some by lia. cbn [mbind option_bind]. replace (base + sumZ l1 - base) with (sumZ l1) by lia. set (gone := take (Z.to_nat (sumZ l1)) (drop (Z.to_nat base) segs)).
    destruct (stopped_counts _ _ _ _ Hst ltac:(lia) ltac:(lia) (to_counts _ Hq)) as (S1 & S2 & S3 & Srej & Sq & Snq). cbn [at_n at_with_wiring] in S1, S2, Srej, Sq, Snq.
    set (q1 := at_count (count_batch (sumZ l1) (sum_segs gone)) (at_count (fun _ => c') (at_with_wiring w q))).
    assert (Hq1 : txq_ok q1) by (constructor; cbn; [done|apply (to_room _ Hq)|apply (to_pendingN _ Hq)|apply S3]).
    assert (HG : forall r, gwent (drop (Z.to_nat base) segs) todo (drop (Z.to_nat sent) <$> offs) got q k (note_refused r q1) k').
    { intros r. assert (HG0 : gwent (drop (Z.to_nat base) segs) todo (drop (Z.to_nat sent) <$> offs) got q k q1 k').
      { constructor; rewrite <- ?Hl1.
        - rewrite L, zlen_take in Hg. lia.
        - done.
        - done.
        - split; [done|]. rewrite zlen_drop. lia.
        - cbn. rewrite S1. unfold u64. by rewrite Zmod_mod.
        - cbn. rewrite S2. unfold u64. rewrite Zmod_mod. apply sum_segs_total.
        - rewrite Hk. f_equal. by rewrite firstn_map, take_pair_offs, take_groups. }
      destruct r; [|done]. destruct HG0 as [R1 R2 R3 R4 R5 R6 R7]. constructor; try done. by apply (note_refused_ok (Some e)). }
    assert (Hrej : forall e, ~ quiet (at_n q) (at_n (note_refused (Some e) q1))) by (intros e; cbn; apply rejected_not_quiet; [done|apply (to_counts _ Hq)]).
    destruct (Z.ltb_spec got (zlen lens)) as [Hshort|Hfull].
    + exists got, refused, (note_refused refused q1), k'. split; [done|]. constructor; [by apply HG| |done]. intros _. destruct refused; [by apply Hrej|]. cbn [note_refused]. intros (A & B & _). cbn in A, B. destruct (Snq Hshort); done.
    + destruct refused as [e|]; [exists got, (Some e), (note_refused (Some e) q1), k'; split; [done|]; constructor; [apply HG|intros _; apply Hrej|done]|].
      replace got with (zlen lens) in * by lia. rewrite L, zlen_take in Hg.
      destruct (IH (sent + zlen lens) (base + sumZ l1) q1 k') as (n & err & q' & k2 & -> & HR).
      { done. } { rewrite L, zlen_take. lia. } { lia. } { assert (1 <= zlen lens); [|lia]. destruct lens; [done|]. rewrite zlen_cons. pose proof (zlen_nonneg lens). lia. }
      exists (zlen lens + n), err, q', k2. rewrite Z.add_assoc. split; [done|]. destruct HR as [R1 R2 R3]. destruct (Sq eq_refl) as (Q1 & Q2 & Q3).
      replace (Z.to_nat (base + sumZ l1)) with (Z.to_nat base + Z.to_nat (sumZ l1))%nat in * by lia. replace (Z.to_nat (sent + zlen lens)) with (Z.to_nat sent + Z.to_nat (zlen lens))%nat in * by lia. rewrite <- !drop_drop in *. fold todo in R1, R2. constructor.
      * eapply gwent_trans; [apply (HG None)|]. rewrite <- Hl1. cbn [note_refused]. destruct offs as [os|]; cbn in *; [by rewrite <- drop_drop in R1|done].
      * rewrite zlen_drop in R2. intros Hlt2. unfold quiet. rewrite <- Q1, <- Q2, <- Q3. apply R2. lia.
      * done.
Qed.
End gather.
