(* ===== verification/AfTxFrames.v ===== *)
(** The operations of the AF_PACKET transmit queue: [Transmit] on every path,
    and the frames' way from the pool to the caller, the kernel and back. *)

From stdpp Require Import prelude list numbers strings.
From S2P Require Import Prelude Bytes Desc Pool Mlx5Region Mlx5Send AfTx AfTxWire AfTxOps.

Section thms.
Context {P : Type} `{!FramePool P} {K : Type} `{!Kernel K} `{!KernelLaws K}.
Implicit Types q : AfTx P.

(** ** Transmit *)

(** Packets left over: no room for them, or a counter says why. *)
Record tx_res (kf : Z) (rg : region) (offs : option (list Offload)) (ds : list Desc) (n : Z) (err : option error) q (k : K) q' (k' : K) : Prop := mkTxRes {
  tr_went : went kf rg offs ds n q k q' k';
  tr_short : n < zlen ds -> zlen (at_pending q') = maxPending \/ ~ quiet (at_n q) (at_n q');
  tr_err : forall e, err = Some e -> errors_is ErrBadLength e = true }.

Lemma went_rewired kf rg offs ds n q w k q' k' : went kf rg offs ds n (at_with_wiring w q) k q' k' -> went kf rg offs ds n q k q' k'.
Proof using. intros [A B C D E F G]. by constructor. Qed.

Lemma went_idle kf rg offs ds q k : txq_ok q -> went kf rg offs ds 0 q k q k.
Proof using. intros Hq. pose proof (went_none kf rg offs ds q k id Hq ltac:(done)) as HW. destruct q. by apply HW. Qed.

Lemma not_continued ds : existsb continues ds = false -> Forall (fun d => continues d = false) ds.
Proof using.
  induction ds as [|d ds IH]; cbn [existsb]; intros H; [constructor|]. apply orb_false_iff in H as [H1 H2]. constructor; auto.
Qed.

(** Metadata cut behind the packets say the same of them. *)
Lemma carries_take : forall ps b offs, Forall whole (map snd ps) -> (length (concat (map snd ps)) <= b)%nat -> carries (take b <$> offs) ps -> carries offs ps.
Proof using.
  induction ps as [|[o c] ps IH]; intros b offs Hwh Hlen; [done|]. cbn [map snd concat carries] in *. rewrite length_app in Hlen. apply Forall_cons in Hwh as [Hc Hwh].
  pose proof (whole_nonempty c Hc). assert (1 <= length c)%nat by (destruct c; [done|cbn; lia]). intros [Ho Hc2]. split.
  - rewrite Ho. unfold first_off. destruct offs as [[|x os]|]; cbn; [by rewrite take_nil| |done]. destruct b; [lia|done].
  - apply (IH (b - length c)%nat); [done|lia|]. destruct offs as [os|]; cbn in *; [|done]. by rewrite <- skipn_firstn_comm.
Qed.

Lemma at_transmit_spec kf rg offs ds q k : region_ok kf rg -> txq_ok q -> at_closed q = false -> Forall desc_ok ds -> offs_reach offs (zlen ds) ->
  exists n err q' k', at_transmit rg ds offs q k = Some (n, err, q', k') /\ tx_res kf rg offs ds n err q k q' k'.
Proof using KernelLaws0.
  intros Hr Hq Hcl Hd Ho. unfold at_transmit. rewrite Hcl. destruct (Z.eqb_spec (zlen ds) 0) as [Hz|Hz].
  { exists 0, None, q, k. split; [done|]. constructor; [by apply went_idle|lia|done]. }
  unfold at_NumFreeSlots. pose proof (to_room _ Hq) as Hroom. pose proof (zlen_nonneg ds). destruct (Z.eqb_spec (maxPending - zlen (at_pending q)) 0) as [Hfull|Hfree].
  { exists 0, None, (at_count count_ringFull q), k. split; [done|]. constructor; [apply went_none; [done|done|]|intros _; left; cbn; lia|done].
    destruct Hq as [A B C (D & E & F)]. constructor; cbn; try done. split_and!; try done. apply u64_range. }
  set (room := maxPending - zlen (at_pending q)) in *. destruct (existsb continues ds) eqn:Ec.
  - destruct (transmitChained_spec kf rg ds offs room Hr Hd Ho (length ds) 0 q k) as (n & err & q' & k' & E & [W S X]); [done|lia|unfold zlen; lia|lia|].
    rewrite E, Z.add_0_l. exists n, err, q', k'. split; [done|]. apply went_offs_nil in W. rewrite drop_0 in S. constructor; auto.
  - apply not_continued in Ec.
    assert (Hcut : exists m, 0 <= m <= room /\ m <= zlen ds /\ (m < zlen ds -> m = room) /\
      (if zlen ds >? room then ds' ← slice 0 room ds; match offs with None => Some (ds', None) | Some os => os ← slice 0 room os; Some (ds', Some os) end else Some (ds, offs))
        = Some (take (Z.to_nat m) ds, if zlen ds >? room then take (Z.to_nat m) <$> offs else offs)).
    { destruct (Z.gtb_spec (zlen ds) room) as [Hgt|Hle].
      - exists room. split; [lia|]. split; [lia|]. split; [done|]. rewrite slice_Some by lia. cbn [mbind option_bind]. rewrite Z.sub_0_r, drop_0. destruct offs as [os|]; [|done].
        specialize (Ho os eq_refl). rewrite slice_Some by lia. cbn [mbind option_bind]. by rewrite Z.sub_0_r, drop_0.
      - exists (zlen ds). split; [lia|]. split; [lia|]. split; [lia|]. rewrite take_ge by (unfold zlen; lia). done. }
    destruct Hcut as (m & Hm & Hmd & Hmr & ->). cbn [mbind option_bind]. set (ds1 := take (Z.to_nat m) ds). set (offs1 := if zlen ds >? room then _ else _).
    assert (Hz1 : zlen ds1 = m) by (unfold ds1; rewrite zlen_take; lia).
    assert (Ho1 : offs_reach offs1 (zlen ds1)).
    { unfold offs1. destruct (zlen ds >? room); intros os E; [|specialize (Ho os E); lia]. destruct offs as [os0|]; [|done]. cbn in E. injection E as <-. specialize (Ho os0 eq_refl). rewrite zlen_take. lia. }
    assert (Hw : exists w, (if w_msgsChained (at_wiring q) then wireOnePerPacket (at_gso q) (at_wiring q) else Some (at_wiring q)) = Some w /\ wired (at_gso q) w /\ w_msgsChained w = false).
    { destruct (w_msgsChained (at_wiring q)) eqn:Ew; [|exists (at_wiring q); split; [done|]; split; [apply Hq|done]]. apply wireOnePerPacket_spec, wired_sized, Hq. }
    destruct Hw as (w & -> & Hw & Hwc). cbn [mbind option_bind].
    assert (Hq1 : txq_ok (at_with_wiring w q)) by (destruct Hq; by constructor).
    destruct (transmit_loop_spec kf rg ds1 offs1 Hr ltac:(by apply Forall_take) ltac:(by apply Forall_take) Ho1 (length ds1) 0 0 (at_with_wiring w q) k Hq1 Hwc) as (n & err & q' & k' & E & [W S X]);
      [lia|unfold zlen; lia|cbn; unfold room in *; lia|].
    rewrite E, Z.add_0_l. exists n, err, q', k'. split; [done|]. apply went_offs_nil, went_rewired in W. rewrite drop_0 in S. cbn [at_n at_with_wiring] in S.
    assert (W2 : went kf rg offs ds n q k q' k').
    { apply (went_widen kf rg offs ds (Z.to_nat m)). fold ds1. destruct W as [R1 R2 R3 R4 R5 R6 (ps & F1 & F2 & F3 & F4 & F5)]. constructor; try done. exists ps. split; [done|]. split; [done|]. split; [done|]. split; [|done].
      unfold offs1 in F4. destruct (zlen ds >? room); [|done]. apply (carries_take ps (Z.to_nat m)); try done. rewrite F1, length_take. unfold zlen in R1, Hz1. lia. }
    constructor; [done| |done]. intros Hlt. destruct (decide (n < zlen ds1)) as [Hlt1|Hge]; [right; by apply S|left].
    pose proof (we_range _ _ _ _ _ _ _ _ _ W). rewrite (we_pending _ _ _ _ _ _ _ _ _ W2), zlen_app, zlen_take. unfold room in *. lia.
Qed.
End thms.

(** The frames of the AF_PACKET transmit queue: from the pool to the caller,
    to the pending list and back, and [SendFunc], which goes all the way. *)

Section frames.
Context {P : Type} `{!FramePool P} (g : geometry) (inv : P -> Prop) `{!FramePoolLaws P g inv}.
Context (rlen : Z) (Hlog : 7 <= g_log g <= 31) (Hcover : (g_first g + g_count g) * fsize g <= rlen) (Hrlen : rlen < 2 ^ 63).
Implicit Types q : AfTx P.
Notation fr := (map (frame_at g)).
Notation kf := (g_log g).

(** Every frame of [T] is free, pending or [held] by the caller. *)
Definition owns (T : list Z) q (held : list Z) : Prop := T ≡ₚ fp_free (at_pool q) ++ fr (at_pending q) ++ held.

#[local] Instance owns_perm T q : Proper (Permutation ==> iff) (owns T q).
Proof using. intros h h' Hh. unfold owns. by rewrite Hh. Qed.

(** What the operations that move frames leave alone. *)
Record steady q q' : Prop := mkSteady {
  sd_ok : txq_ok q'; sd_inv : inv (at_pool q'); sd_rej : fp_rejected (at_pool q') = fp_rejected (at_pool q);
  sd_closed : at_closed q' = at_closed q; sd_gso : at_gso q' = at_gso q; sd_n : at_n q' = at_n q }.

(** ** Alloc *)

Lemma headroom_desc a : a ∈ all_frames g -> mkDesc (u64 (a + frameHeadroom)) 0 0 = mkDesc (a + frameHeadroom) 0 0 /\ 0 <= a /\ a + fsize g <= rlen /\ frame_at g (mkDesc (a + frameHeadroom) 0 0) = a.
Proof using FramePoolLaws0 Hcover Hlog Hrlen.
  intros Ha. apply mem_frame in Ha as (i & Hi & ->). destruct (fp_geo (g := g) (inv := inv)) as (L & F & C & _). assert (128 <= fsize g) by (unfold fsize; change 128 with (2 ^ 7); apply Z.pow_le_mono_r; lia). unfold frame, frameHeadroom.
  assert ((g_first g + i) * fsize g + fsize g <= rlen) by nia. assert (0 <= (g_first g + i) * fsize g) by nia. split; [by rewrite u64_small by lia|]. split; [done|]. split; [done|].
  apply frame_at_start; [done| |lia]. apply Z.mod_mul. lia.
Qed.

Lemma frames_headroom addrs : addrs ⊆ all_frames g -> fr (map (fun a => mkDesc (u64 (a + frameHeadroom)) 0 0) addrs) = addrs.
Proof using FramePoolLaws0 Hcover Hlog Hrlen.
  induction addrs as [|a addrs IH]; intros Hs; [done|]. cbn [map]. destruct (headroom_desc a ltac:(set_solver)) as (-> & _ & _ & ->). rewrite IH by set_solver. done.
Qed.

(** Frames come from the list, no more than asked for or pending has room for,
    each at the headroom of its frame. *)
Lemma at_Alloc_spec T n q held : txq_ok q -> inv (at_pool q) -> at_closed q = false -> owns T q held ->
  exists ds q', at_Alloc n q = Some (ds, q') /\ steady q q' /\ owns T q' (fr ds ++ held) /\ at_pending q' = at_pending q /\
    zlen ds = Z.min (Z.max 0 (Z.min n (maxPending - zlen (at_pending q)))) (zlen (fp_free (at_pool q))) /\
    Forall (fun d => frame_at g d ∈ fp_free (at_pool q) /\ Addr d = frame_at g d + frameHeadroom /\ 0 <= Addr d < rlen /\ Len d = 0 /\ Options d = 0) ds.
Proof using FramePoolLaws0 Hcover Hlog Hrlen.
  intros Hq Hi Hc Ho. unfold at_Alloc. rewrite Hc. unfold at_NumFreeSlots. set (m := Z.min n (maxPending - zlen (at_pending q))).
  destruct (fp_pop_ok (at_pool q) m [] Hi) as (p' & E & Hf & Hr & Hi'). rewrite E. cbn [mbind option_bind app]. set (cut := (length (fp_free (at_pool q)) - Z.to_nat (Z.max 0 m))%nat) in *. set (addrs := drop cut (fp_free (at_pool q))) in *.
  assert (Hin : addrs ⊆ fp_free (at_pool q)) by (intros a Ha; by eapply elem_drop). pose proof (fp_sub _ Hi) as Hsub. assert (Hfr := frames_headroom addrs ltac:(set_solver)).
  eexists _, _. split; [done|]. split; [|split; [|split; [done|split]]].
  - destruct Hq as [A B C D]. constructor; try done.
  - unfold owns in *. cbn [at_pool at_pending at_with_pool]. rewrite Hfr, Ho, Hf. rewrite <- (take_drop cut (fp_free (at_pool q))) at 1. fold addrs. solve_Permutation.
  - unfold zlen. rewrite length_map. unfold addrs. rewrite length_drop. unfold cut. lia.
  - apply Forall_map, Forall_forall. intros a Ha. destruct (headroom_desc a ltac:(set_solver)) as (-> & H1 & H2 & ->). cbn. split; [by apply Hin|]. assert (128 <= fsize g) by (unfold fsize; change 128 with (2 ^ 7); apply Z.pow_le_mono_r; lia). unfold frameHeadroom. lia.
Qed.

(** ** Frames coming back *)

Lemma at_push_spec ds q : txq_ok q -> inv (at_pool q) -> fr ds ⊆ all_frames g -> NoDup (fp_free (at_pool q) ++ fr ds) ->
  exists q', at_push ds q = Some q' /\ steady q q' /\ fp_free (at_pool q') = fp_free (at_pool q) ++ fr ds /\ at_pending q' = at_pending q /\ at_wiring q' = at_wiring q.
Proof using FramePoolLaws0.
  intros Hq Hi Hs Hn. unfold at_push. destruct (push_descs_ok g inv ds (at_pool q) Hi Hs Hn) as (p' & -> & Hf & Hr & Hi'). cbn [mbind option_bind].
  eexists. split; [done|]. split; [|done]. destruct Hq. by constructor.
Qed.

Lemma at_drop_spec n q : txq_ok q -> inv (at_pool q) -> 0 <= n <= zlen (at_pending q) ->
  exists q', at_drop n q = Some q' /\ steady q q' /\ at_pending q' = drop (Z.to_nat n) (at_pending q) /\ at_pool q' = at_pool q.
Proof using.
  intros Hq Hi Hn. unfold at_drop. rewrite slice_Some by lia. cbn [mbind option_bind]. rewrite take_ge by (rewrite length_drop; unfold zlen; lia).
  eexists. split; [done|]. split; [|done]. destruct Hq as [A B C D]. constructor; try done. constructor; cbn; try done. rewrite zlen_drop. lia.
Qed.

Section cycle.
Context (T : list Z) (HT : NoDup T) (Hsub : T ⊆ all_frames g).

Lemma owns_held q held h : owns T q (h ++ held) -> h ⊆ all_frames g /\ NoDup (fp_free (at_pool q) ++ h).
Proof using HT Hsub.
  intros HA. split; [intros a Ha; apply Hsub; rewrite HA, !elem_of_app; auto|]. unfold owns in HA. rewrite HA in HT. apply NoDup_without in HT. rewrite app_assoc in HT. by eapply NoDup_app_l.
Qed.

(** [Free] of what is held. *)
Lemma at_Free_spec ds held q : txq_ok q -> inv (at_pool q) -> owns T q (fr ds ++ held) ->
  exists q', at_Free ds q = Some q' /\ steady q q' /\ owns T q' held /\ at_pending q' = at_pending q.
Proof using HT Hsub FramePoolLaws0.
  intros Hq Hi Ho. destruct (owns_held _ _ _ Ho) as [Hs Hn]. unfold at_Free. destruct (at_push_spec ds q Hq Hi Hs Hn) as (q' & -> & Hst & Hf & Hp & _). exists q'. split; [done|]. split; [done|]. split; [|done].
  unfold owns in *. rewrite Hf, Hp, Ho. solve_Permutation.
Qed.

Lemma steady_trans q1 q2 q3 : steady q1 q2 -> steady q2 q3 -> steady q1 q3.
Proof using. intros [A1 B1 C1 D1 E1 F1] [A2 B2 C2 D2 E2 F2]. constructor; congruence. Qed.

(** What is pending can be split at any place. *)
Lemma pending_split n q : fr (at_pending q) = fr (take n (at_pending q)) ++ fr (drop n (at_pending q)).
Proof using. by rewrite <- map_app, take_drop. Qed.

(** [Complete]: the oldest pending frames are free again. *)
Lemma at_Complete_spec max held q : txq_ok q -> inv (at_pool q) -> owns T q held ->
  exists n q', at_Complete max q = Some (n, q') /\ steady q q' /\ owns T q' held /\ n = Z.max 0 (Z.min max (zlen (at_pending q))) /\ at_pending q' = drop (Z.to_nat n) (at_pending q).
Proof using HT Hsub FramePoolLaws0.
  intros Hq Hi Ho. unfold at_Complete. pose proof (zlen_nonneg (at_pending q)). destruct (Z.leb_spec (Z.min max (zlen (at_pending q))) 0) as [Hle|Hgt].
  { exists 0, q. split; [done|]. split; [by constructor|]. split; [done|]. split; [lia|by rewrite drop_0]. }
  set (n := Z.min max (zlen (at_pending q))) in *. rewrite slice_Some by lia. cbn [mbind option_bind]. rewrite Z.sub_0_r, drop_0.
  assert (Ho1 : T ≡ₚ fp_free (at_pool q) ++ fr (take (Z.to_nat n) (at_pending q)) ++ (fr (drop (Z.to_nat n) (at_pending q)) ++ held)) by (unfold owns in Ho; rewrite Ho, (pending_split (Z.to_nat n)); by rewrite <- app_assoc).
  assert (Hs : fr (take (Z.to_nat n) (at_pending q)) ⊆ all_frames g) by (intros a Ha; apply Hsub; rewrite Ho1, !elem_of_app; auto).
  assert (Hn : NoDup (fp_free (at_pool q) ++ fr (take (Z.to_nat n) (at_pending q)))) by (rewrite Ho1, app_assoc in HT; by eapply NoDup_app_l).
  destruct (at_push_spec _ q Hq Hi Hs Hn) as (q1 & -> & S1 & Hf & Hp & _). cbn [mbind option_bind].
  destruct (at_drop_spec n q1 (sd_ok _ _ S1) (sd_inv _ _ S1)) as (q2 & -> & S2 & Hp2 & Hpl2); [rewrite Hp; lia|]. cbn [mbind option_bind].
  exists n, q2. split; [done|]. split; [by eapply steady_trans|]. rewrite Hp in Hp2. split; [|split; [lia|done]]. unfold owns. rewrite Hp2, Hpl2, Hf, Ho1. solve_Permutation.
Qed.
End cycle.

(** [Reclaim]: the same frames, to the caller. *)
Lemma at_Reclaim_spec T max out held q : txq_ok q -> inv (at_pool q) -> owns T q held ->
  exists ds q', at_Reclaim max out q = Some (out ++ ds, q') /\ steady q q' /\ owns T q' (fr ds ++ held) /\ at_pool q' = at_pool q /\ at_pending q = ds ++ at_pending q' /\
    zlen ds = Z.max 0 (Z.min max (zlen (at_pending q))).
Proof using.
  intros Hq Hi Ho. unfold at_Reclaim. pose proof (zlen_nonneg (at_pending q)). destruct (Z.leb_spec (Z.min max (zlen (at_pending q))) 0) as [Hle|Hgt].
  { exists [], q. rewrite app_nil_r. split; [done|]. split; [by constructor|]. split; [done|]. split; [done|]. split; [done|]. change (zlen (@nil Desc)) with 0. lia. }
  set (n := Z.min max (zlen (at_pending q))) in *. rewrite slice_Some by lia. cbn [mbind option_bind]. rewrite Z.sub_0_r, drop_0.
  destruct (at_drop_spec n q Hq Hi ltac:(lia)) as (q2 & -> & S2 & Hp2 & Hpl2). cbn [mbind option_bind]. eexists _, q2. split; [done|]. split; [done|]. rewrite Hp2, take_drop. split; [|split; [done|split; [done|rewrite zlen_take; lia]]].
  unfold owns in *. rewrite Hp2, Hpl2, Ho, (pending_split (Z.to_nat n)). solve_Permutation.
Qed.

(** ** Transmit *)

Context {K : Type} `{!Kernel K} `{!KernelLaws K}.

(** The frames that went are pending, the others are the caller's. *)
Lemma went_owns rg offs ds n q k q' k' T held : went kf rg offs ds n q k q' k' -> owns T q (fr ds ++ held) -> owns T q' (fr (drop (Z.to_nat n) ds) ++ held).
Proof using.
  intros [W1 W2 (W3 & W4 & W5) W6 _ _ _] Ho. unfold owns in *. rewrite W4, W6, Ho, map_app. rewrite <- (take_drop (Z.to_nat n) ds) at 1. rewrite map_app. solve_Permutation.
Qed.

Lemma at_Transmit_any rg offs ds q k : region_ok kf rg -> txq_ok q -> Forall desc_ok ds -> offs_reach offs (zlen ds) ->
  exists n err q' k', at_transmit rg ds offs q k = Some (n, err, q', k') /\ went kf rg offs ds n q k q' k'.
Proof using KernelLaws0.
  intros Hr Hq Hd Ho. destruct (at_closed q) eqn:Hc.
  - unfold at_transmit. rewrite Hc. exists 0, (Some (Sentinel ErrClosed)), q, k. split; [done|]. by apply went_idle.
  - destruct (at_transmit_spec kf rg offs ds q k Hr Hq Hc Hd Ho) as (n & err & q' & k' & E & [W _ _]). eauto 10.
Qed.

(** ** SendFunc *)

Context {St : Type} (build : Z -> list Z -> St -> Z * list Z * St).
(** A callback writes in the frame it is given, not past it. *)
Context (Hbuild : forall i f s, zlen (snd (fst (build i f s))) = zlen f).

Lemma at_build_loop_same ds : forall i rg s acc, at_build_loop build i ds rg s acc = Mlx5Tx.build_loop build i ds rg s acc.
Proof using.
  induction ds as [|d ds IH]; intros i rg s acc; [done|]. cbn [at_build_loop Mlx5Tx.build_loop]. rewrite af_Writable_same. destruct (Writable rg d) as [f|]; [|done]. cbn [mbind option_bind]. destruct (build i (default [] f) s) as [[l b] s1].
  case_if; [done|]. case_if; [done|]. apply IH.
Qed.

Section send.
Context (T : list Z) (HT : NoDup T) (Hsub : T ⊆ all_frames g).

(** What a call leaves: [sent] are the packets, [carried] what the wire got. *)
Record sendfunc_ok q (k : K) (r : res Z) (rg : region) q' (k' : K) : Prop := mkSendfuncOk {
  sf_ok : txq_ok q';
  sf_inv : inv (at_pool q');
  sf_owns : owns T q' [];
  sf_region : region_ok kf rg /\ zlen (rg_b rg) = rlen;
  sf_rej : fp_rejected (at_pool q') = fp_rejected (at_pool q);
  sf_closed : at_closed q' = at_closed q;
  sf_wire : exists built, Forall (one_frame kf rlen) built /\ Forall (fun d => continues d = false) built /\ k_wire k' = k_wire k ++ map (packet (at_gso q) (rg_b rg)) (map (fun d => (zeroOffload, [d])) built) /\
    match r with Ok n => n = zlen built /\ (exists rest, at_pending q' = rest ++ built) | Err _ => built = [] end }.

(** Packets of one frame each. *)
Lemma whole_singles : forall ps (ds : list Desc), concat (map snd ps) = ds -> Forall whole (map snd ps) -> Forall (fun d => continues d = false) ds -> carries None ps -> ps = map (fun d => (zeroOffload, [d])) ds.
Proof using.
  induction ps as [|[o c] ps IH]; intros ds E Hw Hc Hca; cbn [map snd concat] in E; subst ds; [done|]. cbn [map snd] in Hw. apply Forall_cons in Hw as [(c0 & d & -> & Hc0 & Hd) Hw]. apply Forall_app in Hc as [Hc1 Hc2].
  destruct c0 as [|x c0]; [|apply Forall_cons in Hc0 as [Hx _]; cbn in Hc1; apply Forall_cons in Hc1 as [Hy _]; congruence]. cbn [app map carries] in *. destruct Hca as [Ho Hca]. cbn in Ho. subst o. f_equal. by apply IH.
Qed.

Lemma continues_zero d : Options d = 0 -> continues d = false.
Proof using. unfold continues. by intros ->. Qed.

Lemma built_plain ds bs : Forall2 (built_from g rlen) ds bs -> Forall (fun d => Options d = 0) ds -> Forall (fun d => continues d = false) bs.
Proof using.
  induction 1 as [|d b ds bs [_ _ _ Ho] _ IH]; intros H; [constructor|]. apply Forall_cons in H as [H Hs]. constructor; [|auto]. apply continues_zero. congruence.
Qed.

Lemma at_Free_maybe (c : bool) ds held q : (c = false -> ds = []) -> txq_ok q -> inv (at_pool q) -> owns T q (fr ds ++ held) ->
  exists q', (if c then at_Free ds q else Some q) = Some q' /\ steady q q' /\ owns T q' held /\ at_pending q' = at_pending q.
Proof using FramePoolLaws0 HT Hsub.
  intros Hc Hq Hi Ho. destruct c; [by apply at_Free_spec|]. rewrite Hc in Ho by done. exists q. split; [done|]. split; [by constructor|]. by split.
Qed.

(** The part after the frames are built. *)
Lemma at_send_built q k rg ds built (s : St) : txq_ok q -> inv (at_pool q) -> region_ok kf rg -> zlen (rg_b rg) = rlen -> owns T q (fr ds) -> (length built <= length ds)%nat ->
  Forall2 (built_from g rlen) (take (length built) ds) built -> Forall (fun d => Options d = 0) ds ->
  exists n q' k', (q ← (if zlen built <? zlen ds then at_Free (drop (length built) ds) q else Some q);
     '(sent, q, k) ← at_Transmit rg built q k;
     q ← (if sent <? zlen built then rest ← slice sent (zlen built) built; at_Free rest q else Some q);
     Some (Ok sent, rg, s, q, k)) = Some (Ok n, rg, s, q', k') /\ sendfunc_ok q k (Ok n) rg q' k'.
Proof using FramePoolLaws0 HT Hsub KernelLaws0.
  intros Hq Hi Hrg Hl Ho Hk Hb Hopt. destruct (built_addrs g rlen _ _ Hb) as (_ & Hfr & Hok & _). assert (Hpl : Forall (fun d => continues d = false) built) by (eapply built_plain; [done|by apply Forall_take]).
  rewrite <- (take_drop (length built) ds), map_app, <- Hfr, Permutation_app_comm in Ho.
  destruct (at_Free_maybe (zlen built <? zlen ds) (drop (length built) ds) (fr built) q) as (q1 & -> & S1 & Ho1 & Hp1); try done.
  { intros Hge. apply Z.ltb_ge in Hge. apply drop_ge. unfold zlen in Hge. lia. } cbn [mbind option_bind].
  destruct (at_Transmit_any rg None built q1 k Hrg (sd_ok _ _ S1) Hok ltac:(done)) as (n & err & q2 & k' & E & W). unfold at_Transmit. rewrite E. cbn [mbind option_bind].
  rewrite <- (app_nil_r (fr built)) in Ho1. pose proof (went_owns _ _ _ _ _ _ _ _ _ _ W Ho1) as Ho2. destruct W as [W1 W2 (W3 & W4 & W5) W6 _ _ (ps & F1 & F2 & F3 & F4 & F5)].
  assert (Hi2 : inv (at_pool q2)) by (rewrite W4; apply S1). pose proof (whole_singles ps _ F1 F2 ltac:(by apply Forall_take) F4) as Hps.
  assert (Hrest : exists q3, (if n <? zlen built then rest ← slice n (zlen built) built; at_Free rest q2 else Some q2) = Some q3 /\ steady q2 q3 /\ owns T q3 [] /\ at_pending q3 = at_pending q2).
  { rewrite slice_Some by lia. cbn [mbind option_bind]. rewrite (take_ge (drop _ _)) by (rewrite length_drop; unfold zlen; lia). apply at_Free_maybe; try done. intros Hge. apply Z.ltb_ge in Hge. apply drop_ge. unfold zlen in *. lia. }
  destruct Hrest as (q3 & -> & S3 & Ho3 & Hp3). cbn [mbind option_bind]. exists n, q3, k'. split; [done|]. constructor; try apply S3; try done.
  - rewrite (sd_rej _ _ S3), W4. apply S1.
  - rewrite (sd_closed _ _ S3), W5. apply S1.
  - exists (take (Z.to_nat n) built). rewrite Hl in F3. split; [done|]. split; [by apply Forall_take|]. rewrite F5, Hps, (sd_gso _ _ S1). split; [done|]. split; [rewrite zlen_take; lia|]. rewrite Hp3, W6. by eexists.
Qed.

(** [SendFunc]: no frame is lost on any way out, and what was built and
    accepted is on the wire. *)
Lemma at_SendFunc_spec count q k rg s : txq_ok q -> inv (at_pool q) -> region_ok kf rg -> zlen (rg_b rg) = rlen -> owns T q [] ->
  exists r rg' s' q' k', at_SendFunc build count rg s q k = Some (r, rg', s', q', k') /\ sendfunc_ok q k r rg' q' k'.
Proof using FramePoolLaws0 HT Hsub KernelLaws0 Hbuild Hlog Hcover Hrlen.
  intros Hq Hi Hrg Hl Ho. unfold at_SendFunc.
  assert (Hnone : forall r rg' q', txq_ok q' -> inv (at_pool q') -> owns T q' [] -> region_ok kf rg' /\ zlen (rg_b rg') = rlen -> fp_rejected (at_pool q') = fp_rejected (at_pool q) -> at_closed q' = at_closed q ->
    match r with Ok n => n = 0 | Err _ => True end -> sendfunc_ok q k r rg' q' k).
  { intros r rg' q' H1 H2 H3 H4 H5 H6 Hr. constructor; try done. exists []. cbn. rewrite app_nil_r. split; [constructor|]. split; [constructor|]. split; [done|]. destruct r; [|done]. split; [done|]. exists (at_pending q'). by rewrite app_nil_r. }
  destruct (at_closed q) eqn:Hcl; [eexists _, _, _, _, _; split; [done|]; by apply Hnone|].
  destruct (at_Complete_spec T HT Hsub (count + at_NumInFlight q) [] q Hq Hi Ho) as (c & q1 & -> & S1 & Ho1 & _ & _). cbn [mbind option_bind].
  destruct (at_Alloc_spec T count q1 [] (sd_ok _ _ S1) (sd_inv _ _ S1)) as (ds & q2 & -> & S2 & Ho2 & _ & _ & Hds); [rewrite (sd_closed _ _ S1); done|done|]. cbn [mbind option_bind].
  pose proof (steady_trans _ _ _ S1 S2) as S02. rewrite app_nil_r in Ho2.
  destruct ds as [|d0 ds0] eqn:Eds; [eexists _, _, _, _, _; split; [done|]; apply Hnone; try apply S02; try done; by rewrite (sd_closed _ _ S02)|]. rewrite <- Eds in *. clear Eds d0 ds0.
  rewrite at_build_loop_same. destruct (build_loop_spec g rlen ltac:(lia) build Hbuild ds 0 rg s [] Hrg Hl) as (r & rg' & s' & -> & Hrg' & Hl' & Hres).
  { eapply Forall_impl; [exact Hds|]. cbn. intros d (_ & _ & Ha & _ & Hopt). split; [lia|done]. } cbn [mbind option_bind]. destruct r as [built|e].
  - destruct Hres as (m & new & Hk & Eb & Hnew). rewrite app_nil_l in Eb. subst new. pose proof (Forall2_length _ _ _ Hnew) as Hlen. rewrite length_take in Hlen. replace m with (length built) in Hnew, Hk by lia.
    destruct (at_send_built q2 k rg' ds built s' (sd_ok _ _ S02) (sd_inv _ _ S02) Hrg' Hl' Ho2 Hk Hnew) as (n & q' & k' & E4 & [A1 A2 A3 A4 A5 A6 A7]).
    { eapply Forall_impl; [exact Hds|]. cbn. tauto. } eexists _, _, _, _, _. split; [exact E4|]. constructor; try done; [rewrite A5; apply S02|rewrite A6; by rewrite (sd_closed _ _ S02)|]. by rewrite (sd_gso _ _ S02) in A7.
  - rewrite <- (app_nil_r (fr ds)) in Ho2. destruct (at_Free_spec T HT Hsub ds [] q2 (sd_ok _ _ S02) (sd_inv _ _ S02) Ho2) as (q3 & -> & S3 & Ho3 & _). cbn [mbind option_bind]. pose proof (steady_trans _ _ _ S02 S3) as S03.
    eexists _, _, _, _, _. split; [done|]. apply Hnone; try apply S03; try done.
    by rewrite (sd_closed _ _ S03).
Qed.
End send.
End frames.
