(* ===== verification/AfRing.v ===== *)
(** The receive ring of the AF_PACKET backend: afpacket/tpacket.go, and the
    buffers [Receive] of afpacket/rxqueue.go hands it.

    The mapped ring is a list of bytes the kernel may have written anything
    into; headers are read at the offsets of struct tpacket_block_desc and
    struct tpacket3_hdr, little-endian.  [None] is an access outside the
    mapping or a panic.  The buffer callback of [read] is the one [receive]
    passes: slot [i] is the frame of descriptor [i], popped when there is none
    yet. *)

From stdpp Require Import prelude list numbers strings.
From S2P Require Import Prelude Bytes Desc Pool Mlx5Region AfTx.

Definition tpStatusUser : Z := Z.shiftl 1 0.
Definition tpStatusKernel : Z := 0.
Definition tpStatusVlanValid : Z := Z.shiftl 1 4.
Definition rxFrameSize : Z := 2048.
Definition rxFramesPerBlock : Z := 32.
Definition rxBlockSize : Z := rxFrameSize * rxFramesPerBlock.
Definition rxBlockNr : Z := 160.
Definition gsoFrameSize : Z := 69632.
Definition gsoFramesPerBlock : Z := 4.
Definition gsoBlockSize : Z := gsoFrameSize * gsoFramesPerBlock.
Definition gsoBlockNr : Z := 64.

Record ring : Set := mkRing {
  r_mem : list Z; r_blockSize : Z; r_blockNr : Z;
  r_block : Z; r_frameOff : Z; r_numPkts : Z; r_pending : bool;
  r_oversize : Z; r_batchTooSmall : Z; r_packets : Z; r_chain : bool; r_vnet : bool
}.

(** What [setupRing] asks for and maps; [mmap] is the kernel's memory. *)
Definition setupRing (mmap : Z -> res (list Z)) (vnet chain : bool) : res ring :=
  let '(blockSize, blockNr) := if vnet then (gsoBlockSize, gsoBlockNr) else (rxBlockSize, rxBlockNr) in
  match mmap (u32 (blockSize * blockNr)) with
  | Err e => Err (Errorf "mmap rx ring")
  | Ok mem => Ok (mkRing mem blockSize blockNr 0 0 0 false 0 0 0 chain vnet)
  end.

(** ** Updates *)

Definition r_cursor (off pkts : Z) (r : ring) : ring :=
  mkRing (r_mem r) (r_blockSize r) (r_blockNr r) (r_block r) off pkts (r_pending r) (r_oversize r) (r_batchTooSmall r) (r_packets r) (r_chain r) (r_vnet r).
Definition r_set_pending (b : bool) (r : ring) : ring :=
  mkRing (r_mem r) (r_blockSize r) (r_blockNr r) (r_block r) (r_frameOff r) (r_numPkts r) b (r_oversize r) (r_batchTooSmall r) (r_packets r) (r_chain r) (r_vnet r).
Definition r_count (over small : Z) (r : ring) : ring :=
  mkRing (r_mem r) (r_blockSize r) (r_blockNr r) (r_block r) (r_frameOff r) (r_numPkts r) (r_pending r) (u64 (r_oversize r + over)) (u64 (r_batchTooSmall r + small)) (r_packets r) (r_chain r) (r_vnet r).
Definition r_release (mem : list Z) (r : ring) : ring :=
  mkRing mem (r_blockSize r) (r_blockNr r) ((r_block r + 1) mod r_blockNr r) (r_frameOff r) (r_numPkts r) (r_pending r) (r_oversize r) (r_batchTooSmall r) (r_packets r) (r_chain r) (r_vnet r).
Definition r_delivered (n : Z) (r : ring) : ring :=
  mkRing (r_mem r) (r_blockSize r) (r_blockNr r) (r_block r) (r_frameOff r) (r_numPkts r) (r_pending r) (r_oversize r) (r_batchTooSmall r) (u64 (r_packets r + n)) (r_chain r) (r_vnet r).

(** ** Headers *)

(** The fields of struct tpacket_block_desc that are read. *)
Record tpacketBlockDesc : Set := mkBlockDesc { b_blockStatus : Z; b_numPkts : Z; b_offsetToFirst : Z }.

Definition blockDesc (i : Z) (r : ring) : option tpacketBlockDesc :=
  let at_ := u32 (i * r_blockSize r) in
  st ← get_le 4 (at_ + 8) (r_mem r);
  n ← get_le 4 (at_ + 12) (r_mem r);
  first ← get_le 4 (at_ + 16) (r_mem r);
  Some (mkBlockDesc st n first).

Definition set_blockStatus (i st : Z) (r : ring) : option (list Z) := put_le 4 (u32 (i * r_blockSize r) + 8) st (r_mem r).

Record tpacket3Hdr : Set := mkHdr3 {
  tpNextOffset : Z; tpSec : Z; tpNsec : Z; tpSnaplen : Z; tpLen : Z; tpStatus : Z; tpMac : Z; tpVlanTci : Z; tpVlanTpid : Z
}.
Definition sizeof_tpacket3Hdr : Z := 48.

Definition frameHdr (off : Z) (r : ring) : option tpacket3Hdr :=
  next ← get_le 4 off (r_mem r); sec ← get_le 4 (off + 4) (r_mem r); nsec ← get_le 4 (off + 8) (r_mem r);
  snap ← get_le 4 (off + 12) (r_mem r); len ← get_le 4 (off + 16) (r_mem r); st ← get_le 4 (off + 20) (r_mem r);
  mac ← get_le 2 (off + 24) (r_mem r); tci ← get_le 4 (off + 32) (r_mem r); tpid ← get_le 2 (off + 36) (r_mem r);
  Some (mkHdr3 next sec nsec snap len st mac tci tpid).

Definition frameHdrFits (off : Z) (r : ring) : bool := off <=? u32 (r_blockSize r - sizeof_tpacket3Hdr).

Definition frameInBlock (off : Z) (h : tpacket3Hdr) (r : ring) : bool :=
  let mac := tpMac h in
  if r_vnet r && (mac <? OffloadHdrLen) then false
  else
    let avail := u32 (r_blockSize r - off) in
    if mac >? avail then false else tpSnaplen h <=? u32 (avail - mac).

Definition advance (next : Z) (r : ring) : ring :=
  if next =? 0 then r_cursor (r_frameOff r) 0 r
  else r_cursor (u32 (r_frameOff r + next)) (u32 (r_numPkts r - 1)) r.

Definition shift16 (tagLen v : Z) : Z := if v + tagLen >? 0xffff then 0xffff else u16 (v + u16 tagLen).

Definition offloadFor (d tagLen : Z) (r : ring) : option Offload :=
  if negb (r_vnet r) then Some zeroOffload
  else
    b ← slice (u32 (d - OffloadHdrLen)) d (r_mem r);
    o ← UnmarshalOffload b;
    if tagLen =? 0 then Some o
    else
      let cs := if Z.land (Flags o) OffloadNeedsCsum =? 0 then CsumStart o else shift16 tagLen (CsumStart o) in
      let hl := if HdrLen o =? 0 then HdrLen o else shift16 tagLen (HdrLen o) in
      Some (mkOffload (Flags o) (GSOType o) hl (GSOSize o) cs (CsumOff o)).

(** ** Buffers *)

(** What one call of [receive] has taken: the pool, the descriptors so far, the
    frame memory. *)
Record bufs (P : Type) : Type := mkBufs { s_pool : P; s_descs : list Desc; s_rg : region }.
Arguments mkBufs {P}. Arguments s_pool {P}. Arguments s_descs {P}. Arguments s_rg {P}.

(** The slices the call fills, one element per slot. *)
Record outs : Set := mkOuts { o_lens : list Z; o_offs : list Offload; o_tss : option (list Z); o_cont : option (list bool) }.

Section read.
Context {P : Type} `{!FramePool P}.
Implicit Types s : bufs P.

Definition s_store (addr : Z) (b : list Z) s : bufs P := mkBufs (s_pool s) (s_descs s) (rg_store addr b (s_rg s)).

(** The buffer of descriptor [d]: where it starts and how long it is. *)
Definition buf_of (d : Desc) s : option (option (Z * Z)) :=
  w ← af_Writable (s_rg s) d;
  Some (match w with None => None | Some w => Some (Addr d, zlen w) end).

(** The callback of [receive]; [None] inside is nil. *)
Definition dst (i : Z) s : option (option (Z * Z) * bufs P) :=
  if i <? zlen (s_descs s) then
    d ← get_at i (s_descs s);
    b ← buf_of d s;
    Some (b, s)
  else
    '(addrs, p) ← fp_Pop 1 [] (s_pool s);
    match addrs with
    | [] => Some (None, mkBufs p (s_descs s) (s_rg s))
    | a :: _ =>
        let s := mkBufs p (s_descs s ++ [mkDesc (u64 (a + frameHeadroom)) 0 0]) (s_rg s) in
        d ← get_at i (s_descs s);
        b ← buf_of d s;
        Some (b, s)
    end.

(** [copy(buf[off:], src)] into a buffer of [len] bytes at [addr]. *)
Definition copy_to (addr len off : Z) (src : list Z) s : option (bufs P) :=
  if (0 <=? off) && (off <=? len) then Some (s_store (addr + off) (take (Z.to_nat (len - off)) src) s) else None.

(** ** spread *)

(** Fills one buffer from the segments, the first of which is used up to [at_]:
    what was written, and what is left.  A segment that is not used up has
    filled the buffer. *)
Fixpoint fill_buf (addr room written at_ : Z) (segs : list (list Z)) s : option (Z * Z * list (list Z) * bufs P) :=
  match segs with
  | [] => Some (written, at_, [], s)
  | sg :: rest =>
      if written <? room then
        src ← slice at_ (zlen sg) sg;
        let c := Z.min (room - written) (zlen src) in
        s ← copy_to addr room written src s;
        if at_ + c =? zlen sg then fill_buf addr room (written + c) 0 rest s
        else Some (written + c, at_ + c, segs, s)
      else Some (written, at_, segs, s)
  end.

(** Slot by slot; every round takes a slot, so there are at most [max - out]. *)
Fixpoint spread_loop (fuel : nat) (out n max at_ : Z) (segs : list (list Z)) (lens : list Z) s : option (Z * bool * bool * list Z * bufs P) :=
  match segs with
  | [] => Some (n, true, false, lens, s)
  | _ :: _ =>
      if out + n >=? max then Some (0, false, true, lens, s)
      else match fuel with
      | O => None
      | S fuel =>
          '(buf, s) ← dst (out + n) s;
          match buf with
          | None => Some (0, false, false, lens, s)
          | Some (addr, room) =>
              '(written, at_, segs, s) ← fill_buf addr room 0 at_ segs s;
              lens ← set_at (out + n) written lens;
              spread_loop fuel out (n + 1) max at_ segs lens s
          end
      end
  end.

Definition tag_bytes (tpid tci : Z) : list Z := [u8 (Z.shiftr tpid 8); u8 tpid; u8 (Z.shiftr tci 8); u8 tci].

(** The pieces of the packet at [d], with the tag put back. *)
Definition packet_segs (d plen tagLen tpid tci : Z) (r : ring) : option (list (list Z)) :=
  if negb (tagLen =? 0) then
    a ← slice d (u32 (d + 12)) (r_mem r);
    b ← slice (u32 (d + 12)) (u32 (d + plen)) (r_mem r);
    Some [a; tag_bytes tpid tci; b]
  else
    a ← slice d (u32 (d + plen)) (r_mem r);
    Some [a].

Fixpoint set_range {A} (i : Z) (n : nat) (x : A) (l : list A) : option (list A) :=
  match n with
  | O => Some l
  | S n => l ← set_at i x l; set_range (i + 1) n x l
  end.

Definition mark_cont (out n : Z) (cont : option (list bool)) : option (option (list bool)) :=
  match cont with
  | None => Some None
  | Some c =>
      c ← set_range out (Z.to_nat (n - 1)) true c;
      c ← set_at (out + n - 1) false c;
      Some (Some c)
  end.

Definition spread (out max d plen tagLen tpid tci : Z) (r : ring) (o : outs) s : option (Z * bool * bool * outs * bufs P) :=
  segs ← packet_segs d plen tagLen tpid tci r;
  '(n, ok, noSlots, lens, s) ← spread_loop (Z.to_nat (max - out)) out 0 max 0 segs (o_lens o) s;
  cont ← (if (ok : bool) then mark_cont out n (o_cont o) else Some (o_cont o));
  Some (n, ok, noSlots, mkOuts lens (o_offs o) (o_tss o) cont, s).

(** ** read *)

Definition stamp (h : tpacket3Hdr) : Z := u64 (tpSec h * 1000000000 + tpNsec h).

Definition put_meta (out n : Z) (h : tpacket3Hdr) (d tagLen : Z) (r : ring) (o : outs) : option outs :=
  off ← offloadFor d tagLen r;
  offs ← set_at out off (o_offs o);
  offs ← set_range (out + 1) (Z.to_nat (n - 1)) zeroOffload offs;
  tss ← match o_tss o with
        | None => Some None
        | Some t => t ← set_at out (stamp h) t; t ← set_range (out + 1) (Z.to_nat (n - 1)) 0 t; Some (Some t)
        end;
  Some (mkOuts (o_lens o) offs tss (o_cont o)).

(** The packet that fits its buffer. *)
Definition copy_packet (addr len d plen tagLen tpid tci : Z) (r : ring) s : option (bufs P) :=
  if negb (tagLen =? 0) then
    a ← slice d (u32 (d + 12)) (r_mem r);
    _ ← (if 16 <=? len then Some tt else None);
    s ← copy_to addr 12 0 a s;
    let s := s_store (addr + 12) (tag_bytes tpid tci) s in
    b ← slice (u32 (d + 12)) (u32 (d + plen)) (r_mem r);
    copy_to addr len 16 b s
  else
    a ← slice d (u32 (d + plen)) (r_mem r);
    copy_to addr len 0 a s.

Inductive step : Set := Continue | BreakInner | BreakBlocks.

(** One frame of the block that starts at [blockOff]. *)
Definition read_frame (blockOff max out : Z) (r : ring) (o : outs) s : option (step * Z * ring * outs * bufs P) :=
  if negb (frameHdrFits (r_frameOff r) r) then Some (BreakInner, out, r_cursor (r_frameOff r) 0 (r_count 1 0 r), o, s)
  else
    let frameOff := u32 (blockOff + r_frameOff r) in
    h ← frameHdr frameOff r;
    let next := tpNextOffset h in
    if negb (frameInBlock (r_frameOff r) h r) then Some (BreakInner, out, r_cursor (r_frameOff r) 0 (r_count 1 0 r), o, s)
    else
      '(buf, s) ← dst out s;
      match buf with
      | None => Some (BreakInner, out, r, o, s)
      | Some (addr, len) =>
          let plen := tpSnaplen h in
          let d := u32 (frameOff + tpMac h) in
          if tpSnaplen h <? tpLen h then Some (Continue, out, advance next (r_count 1 0 r), o, s)
          else
            let tagged := negb (Z.land (tpStatus h) tpStatusVlanValid =? 0) && (12 <=? plen) in
            let tpid := if tpVlanTpid h =? 0 then 0x8100 else tpVlanTpid h in
            let tci := u16 (tpVlanTci h) in
            let tagLen := if tagged then 4 else 0 in
            if plen + tagLen >? len then
              if negb (r_chain r) then Some (Continue, out, advance next (r_count 1 0 r), o, s)
              else
                '(n, ok, noSlots, o, s) ← spread out max d plen tagLen tpid tci r o s;
                if negb ok then
                  if noSlots && (out =? 0) then Some (Continue, out, advance next (r_count 1 1 r), o, s)
                  else Some (BreakBlocks, out, r_set_pending true r, o, s)
                else
                  o ← put_meta out n h d tagLen r o;
                  Some (Continue, out + n, advance next r, o, s)
            else
              s ← copy_packet addr len d plen tagLen tpid tci r s;
              lens ← set_at out (plen + tagLen) (o_lens o);
              o ← put_meta out 1 h d tagLen r (mkOuts lens (o_offs o) (o_tss o) (o_cont o));
              Some (Continue, out + 1, advance next r, o, s)
      end.

(** The frames of a block; every round but the last lowers the count. *)
Fixpoint read_block (fuel : nat) (blockOff max out : Z) (r : ring) (o : outs) s : option (bool * Z * ring * outs * bufs P) :=
  if (r_numPkts r >? 0) && (out <? max) then
    match fuel with
    | O => None
    | S fuel =>
        '(st, out, r, o, s) ← read_frame blockOff max out r o s;
        match st with
        | Continue => read_block fuel blockOff max out r o s
        | BreakInner => Some (false, out, r, o, s)
        | BreakBlocks => Some (true, out, r, o, s)
        end
    end
  else Some (false, out, r, o, s).

(** Block after block; a block that is gone through is the kernel's again, so
    no call goes round the ring twice. *)
Fixpoint read_blocks (fuel : nat) (max out : Z) (r : ring) (o : outs) s : option (Z * ring * outs * bufs P) :=
  if out <? max then
    bd ← blockDesc (r_block r) r;
    if Z.land (b_blockStatus bd) tpStatusUser =? 0 then Some (out, r, o, s)
    else match fuel with
    | O => None
    | S fuel =>
        let blockOff := u32 (r_block r * r_blockSize r) in
        let r := if r_pending r then r else r_cursor (b_offsetToFirst bd) (b_numPkts bd) r in
        let r := r_set_pending false r in
        '(brk, out, r, o, s) ← read_block (Z.to_nat (r_numPkts r)) blockOff max out r o s;
        if (brk : bool) then Some (out, r, o, s)
        else if negb (r_numPkts r =? 0) then Some (out, r_set_pending true r, o, s)
        else
          mem ← set_blockStatus (r_block r) tpStatusKernel r;
          read_blocks fuel max out (r_release mem r) o s
    end
  else Some (out, r, o, s).

Definition ring_read (max : Z) (r : ring) (o : outs) s : option (Z * ring * outs * bufs P) :=
  '(out, r, o, s) ← read_blocks (Z.to_nat (r_blockNr r)) max 0 r o s;
  Some (out, r_delivered out r, o, s).
End read.
