(* ===== verification/AfRingBufs.v ===== *)
(** Packets copied out of the ring into frames: what the slots of a batch hold,
    and the copies of [read] and [spread]. *)

From stdpp Require Import prelude list numbers strings.
From S2P Require Import Prelude Bytes Desc Pool Mlx5Region AfTx AfRing.

Section bufs.
Context {P : Type} `{!FramePool P} (g : geometry) (inv : P -> Prop) `{!FramePoolLaws P g inv}.
Context (rlen : Z) (Hlog : 7 <= g_log g <= 31) (Hcover : (g_first g + g_count g) * fsize g <= rlen).
(** The memory before the call. *)
Context (mem0 : list Z).
Implicit Types s : bufs P.

(** The bytes of a frame behind its headroom. *)
Definition room : Z := fsize g - frameHeadroom.

Definition rx_desc (a : Z) : Desc := mkDesc (a + frameHeadroom) 0 0.

(** [T] are the frames of the queue: free, or a slot's. *)
Record bufs_ok (T : list Z) s (addrs : list Z) : Prop := mkBufsOk {
  bo_inv : inv (s_pool s);
  bo_region : region_ok (g_log g) (s_rg s);
  bo_len : zlen (rg_b (s_rg s)) = rlen;
  bo_nodup : NoDup T;
  bo_sub : T ⊆ all_frames g;
  bo_perm : T ≡ₚ fp_free (s_pool s) ++ addrs;
  bo_descs : s_descs s = map rx_desc addrs;
  bo_else : forall lo hi, 0 <= lo -> (forall a, a ∈ T -> hi <= a \/ a + fsize g <= lo) -> slice lo hi (rg_b (s_rg s)) = slice lo hi mem0 }.

Lemma room_bounds : 64 <= room < 2 ^ 32.
Proof using Hlog.
  unfold room, frameHeadroom, fsize. assert (2 ^ 7 <= 2 ^ g_log g) by (apply Z.pow_le_mono_r; lia). assert (2 ^ g_log g <= 2 ^ 31) by (apply Z.pow_le_mono_r; lia). lia.
Qed.

(** Where a frame of the queue lies. *)
Lemma frame_lies a : a ∈ all_frames g -> 0 <= a /\ a + fsize g <= rlen /\ a mod fsize g = 0.
Proof using FramePoolLaws0 Hcover Hlog.
  intros Ha. destruct fp_geo as (Hl & Hf & Hc & Hr). apply mem_frame in Ha as (i & Hi & ->). unfold frame. pose proof (fsize_pos g Hl). split; [nia|]. split; [nia|]. apply Z.mod_mul. lia.
Qed.

Lemma frames_disjoint a b : a ∈ all_frames g -> b ∈ all_frames g -> a <> b -> a + fsize g <= b \/ b + fsize g <= a.
Proof using FramePoolLaws0.
  intros Ha Hb Hne. destruct fp_geo as (Hl & Hf & Hc & Hr). apply mem_frame in Ha as (i & Hi & ->). apply mem_frame in Hb as (j & Hj & ->). unfold frame in *. pose proof (fsize_pos g Hl).
  destruct (Z.lt_trichotomy i j) as [|[->|]]; [left; nia|done|right; nia].
Qed.

Lemma bufs_addr T s addrs i a : bufs_ok T s addrs -> addrs !! i = Some a -> a ∈ all_frames g.
Proof using. intros B Hi. apply (bo_sub _ _ _ B). rewrite (bo_perm _ _ _ B). apply elem_of_app. right. by eapply list_elem_of_lookup_2. Qed.

Lemma bufs_addr_inj T s addrs i j a : bufs_ok T s addrs -> addrs !! i = Some a -> addrs !! j = Some a -> i = j.
Proof using.
  intros B Hi Hj. pose proof (bo_nodup _ _ _ B) as Hn. rewrite (bo_perm _ _ _ B) in Hn. apply NoDup_app_r in Hn. by eapply NoDup_lookup.
Qed.

(** ** Slots *)

(** The first slots hold these bytes. *)
Definition slots s (addrs lens : list Z) (chunks : list (list Z)) : Prop :=
  forall i c, chunks !! i = Some c -> exists a, addrs !! i = Some a /\ lens !! i = Some (zlen c) /\ zlen c <= room /\
    slice (a + frameHeadroom) (a + frameHeadroom + zlen c) (rg_b (s_rg s)) = Some c.

(** A store into the buffer of slot [j]. *)
Lemma store_ok T s addrs j a off b : bufs_ok T s addrs -> addrs !! j = Some a -> 0 <= off -> off + zlen b <= room ->
  bufs_ok T (s_store (a + frameHeadroom + off) b s) addrs.
Proof using FramePoolLaws0 Hcover Hlog.
  intros B Ha Ho Hb. destruct (frame_lies a (bufs_addr _ _ _ _ _ B Ha)) as (H1 & H2 & _). pose proof (zlen_nonneg b). unfold room, frameHeadroom in *. pose proof (bo_len _ _ _ B) as Hl.
  assert (Hz : zlen (blit (a + 64 + off) b (rg_b (s_rg s))) = rlen) by (rewrite zlen_blit by lia; done).
  assert (HaT : a ∈ T) by (rewrite (bo_perm _ _ _ B); apply elem_of_app; right; by eapply list_elem_of_lookup_2).
  destruct B as [B1 (R1 & R2 & R3 & R4) B3 B4 B5 B6 B7 B8]. constructor; cbn; try done; [unfold region_ok; cbn; rewrite Hz, <- B3; done|].
  intros lo hi Hlo Hout. rewrite <- (B8 lo hi Hlo Hout). destruct (Hout a HaT); apply slice_blit_disjoint; lia.
Qed.

Lemma store_slots T s addrs lens chunks j a off b : bufs_ok T s addrs -> slots s addrs lens chunks -> addrs !! j = Some a -> (length chunks <= j)%nat -> 0 <= off -> off + zlen b <= room ->
  slots (s_store (a + frameHeadroom + off) b s) addrs lens chunks.
Proof using FramePoolLaws0 Hcover Hlog.
  intros B Hs Ha Hj Ho Hb i c Hc. destruct (Hs i c Hc) as (a' & Ha' & Hl & Hr & Hsl). exists a'. split; [done|]. split; [done|]. split; [done|]. cbn.
  pose proof (lookup_lt_Some _ _ _ Hc). assert (Hne : a' <> a) by (intros ->; pose proof (bufs_addr_inj _ _ _ _ _ _ B Ha' Ha); lia).
  destruct (frames_disjoint a' a (bufs_addr _ _ _ _ _ B Ha') (bufs_addr _ _ _ _ _ B Ha) Hne) as [Hap|Hap];
    destruct (frame_lies a (bufs_addr _ _ _ _ _ B Ha)) as (L1 & L2 & _); pose proof (bo_len _ _ _ B); pose proof (zlen_nonneg b); pose proof (zlen_nonneg c); unfold room, frameHeadroom in *;
    rewrite slice_blit_disjoint by lia; done.
Qed.

(** More bytes behind those a buffer holds. *)
Lemma store_append T s addrs j a acc b : bufs_ok T s addrs -> addrs !! j = Some a -> zlen acc + zlen b <= room ->
  slice (a + frameHeadroom) (a + frameHeadroom + zlen acc) (rg_b (s_rg s)) = Some acc ->
  slice (a + frameHeadroom) (a + frameHeadroom + zlen (acc ++ b)) (rg_b (s_rg (s_store (a + frameHeadroom + zlen acc) b s))) = Some (acc ++ b).
Proof using FramePoolLaws0 Hcover Hlog.
  intros B Ha Hr Hs. destruct (frame_lies a (bufs_addr _ _ _ _ _ B Ha)) as (L1 & L2 & _). pose proof (bo_len _ _ _ B) as Hl. pose proof (zlen_nonneg b). pose proof (zlen_nonneg acc). unfold room, frameHeadroom in *. cbn.
  set (m := rg_b (s_rg s)) in *. rewrite slice_Some in Hs by lia. injection Hs as Hs. rewrite zlen_app. rewrite slice_Some by (rewrite ?zlen_blit by lia; lia). f_equal.
  replace (Z.to_nat (a + 64 + (zlen acc + zlen b) - (a + 64))) with (length acc + length b)%nat by (unfold zlen; lia). replace (Z.to_nat (a + 64 + zlen acc - (a + 64))) with (length acc) in Hs by (unfold zlen; lia).
  unfold blit. replace (Z.to_nat (a + 64 + zlen acc)) with (Z.to_nat (a + 64) + length acc)%nat by (unfold zlen; lia).
  assert (Ht : take (Z.to_nat (a + 64) + length acc) m = take (Z.to_nat (a + 64)) m ++ acc) by (rewrite <- Hs at 2; by rewrite take_take_drop).
  rewrite Ht, <- !app_assoc. rewrite drop_app_length' by (rewrite length_take; unfold zlen in *; lia). rewrite app_assoc. rewrite take_app_length' by (by rewrite length_app). done.
Qed.

(** ** The callback *)

Lemma buf_of_spec T s addrs i a : bufs_ok T s addrs -> addrs !! i = Some a -> buf_of (rx_desc a) s = Some (Some (a + frameHeadroom, room)).
Proof using FramePoolLaws0 Hcover Hlog.
  intros B Ha. destruct (frame_lies a (bufs_addr _ _ _ _ _ B Ha)) as (L1 & L2 & L3). pose proof room_bounds as Hr. unfold room, frameHeadroom in *. unfold buf_of. rewrite af_Writable_same.
  pose proof (Writable_eq (g_log g) (s_rg s) (rx_desc a) (bo_region _ _ _ B)) as HW. cbn in HW. unfold frameHeadroom in HW. specialize (HW ltac:(lia)). rewrite (bo_len _ _ _ B), (proj2 (Z.ltb_lt _ _)) in HW by lia.
  destruct HW as (b & -> & Hb & _). cbn. unfold frameHeadroom. do 3 f_equal. rewrite Hb. fold (fsize g). rewrite <- Zplus_mod_idemp_l, L3, Z.add_0_l, Z.mod_small by lia. done.
Qed.

(** A slot's buffer, which is the one it had, or a free frame. *)
Record dst_ok (T : list Z) (i : Z) s (addrs : list Z) (buf : option (Z * Z)) s' (addrs' : list Z) : Prop := mkDstOk {
  ds_bufs : bufs_ok T s' addrs';
  ds_rg : s_rg s' = s_rg s;
  ds_ext : exists ext, addrs' = addrs ++ ext;
  ds_rej : fp_rejected (s_pool s') = fp_rejected (s_pool s);
  ds_buf : match buf with None => zlen T = i /\ zlen addrs' = i | Some (addr, len) => exists a, addrs' !! Z.to_nat i = Some a /\ addr = a + frameHeadroom /\ len = room end }.

Lemma dst_spec T i s addrs : bufs_ok T s addrs -> 0 <= i <= zlen addrs -> exists buf s' addrs', dst i s = Some (buf, s') /\ dst_ok T i s addrs buf s' addrs'.
Proof using FramePoolLaws0 Hcover Hlog.
  intros B Hi. unfold dst. assert (Hz : zlen (s_descs s) = zlen addrs) by (rewrite (bo_descs _ _ _ B); unfold zlen; by rewrite length_map). rewrite Hz. destruct (Z.ltb_spec i (zlen addrs)) as [Hlt|Hge].
  - destruct (lookup_lt_is_Some_2 addrs (Z.to_nat i)) as [a Ha]; [unfold zlen in Hlt; lia|]. rewrite (bo_descs _ _ _ B), get_at_lookup by lia. rewrite list_lookup_fmap, Ha. cbn [fmap option_fmap option_map mbind option_bind].
    rewrite (buf_of_spec _ _ _ _ _ B Ha). cbn [mbind option_bind]. eexists _, s, addrs. split; [done|]. constructor; try done; [exists []; by rewrite app_nil_r|]. eauto.
  - replace i with (zlen addrs) in * by lia. destruct (fp_pop_ok (s_pool s) 1 [] (bo_inv _ _ _ B)) as (p' & E & Hf & Hrj & Hi'). rewrite E. cbn [mbind option_bind app].
    destruct (decide (fp_free (s_pool s) = [])) as [Hnil|Hne].
    + rewrite Hnil in *. cbn [length drop Nat.sub take] in *. rewrite drop_nil. eexists None, _, addrs. split; [done|]. rewrite take_nil in Hf. constructor; try done; [|exists []; by rewrite app_nil_r|].
      2:{ split; [|done]. pose proof (bo_perm _ _ _ B) as Hp. rewrite Hnil in Hp. unfold zlen. by rewrite Hp. }
      destruct B. constructor; try done. cbn. rewrite Hf, <- Hnil. done.
    + change (Z.to_nat (Z.max 0 1)) with 1%nat in *. destruct (fp_free (s_pool s)) as [|f0 fr] eqn:Hfree using rev_ind; [done|]. clear IHfr Hne. rewrite length_app in Hf |- *. cbn [length] in *. replace (length fr + 1 - 1)%nat with (length fr) in * by lia.
      rewrite drop_app_length in *. rewrite take_app_length in Hf. rename f0 into a. cbn [mbind option_bind s_descs].
      assert (Ha : a ∈ all_frames g). { apply (bo_sub _ _ _ B). rewrite (bo_perm _ _ _ B), Hfree. set_solver. }
      destruct (frame_lies a Ha) as (L1 & L2 & L3). pose proof (bo_region _ _ _ B) as (_ & _ & _ & Hrl). rewrite (bo_len _ _ _ B) in Hrl. pose proof room_bounds. rewrite u64_small by (unfold room, frameHeadroom in *; lia).
      set (s' := mkBufs p' (s_descs s ++ [mkDesc (a + frameHeadroom) 0 0]) (s_rg s)).
      assert (B' : bufs_ok T s' (addrs ++ [a])).
      { pose proof (bo_perm _ _ _ B) as Hp. rewrite Hfree in Hp. destruct B as [B1 B2 B3 B4 B5 B6 B7 B8]. constructor; try done; cbn; [rewrite Hf, Hp; solve_Permutation|]. rewrite B7, map_app. done. }
      assert (Hl : (addrs ++ [a]) !! Z.to_nat (zlen addrs) = Some a) by (rewrite lookup_app_r by (unfold zlen; lia); replace (Z.to_nat (zlen addrs) - length addrs)%nat with 0%nat by (unfold zlen; lia); done).
      replace (s_descs s ++ [mkDesc (a + frameHeadroom) 0 0]) with (s_descs s') by done. rewrite (bo_descs _ _ _ B'). rewrite get_at_lookup by lia. rewrite list_lookup_fmap, Hl. cbn [fmap option_fmap option_map mbind option_bind].
      rewrite (buf_of_spec _ _ _ _ _ B' Hl). cbn [mbind option_bind]. eexists _, s', (addrs ++ [a]). split; [done|]. constructor; try done; eauto.
Qed.

Lemma slots_dst T i s addrs lens chunks buf s' addrs' : dst_ok T i s addrs buf s' addrs' -> slots s addrs lens chunks -> slots s' addrs' lens chunks.
Proof using.
  intros D Hs j c Hc. destruct (Hs j c Hc) as (a & Ha & Hl & Hr & Hsl). exists a. destruct (ds_ext _ _ _ _ _ _ _ D) as [ext ->]. split; [by apply lookup_app_l_Some|]. by rewrite (ds_rg _ _ _ _ _ _ _ D).
Qed.

(** ** One packet over several slots *)

(** What is left of the segments. *)
Definition remain (at_ : Z) (segs : list (list Z)) : list Z :=
  match segs with [] => [] | sg :: rest => drop (Z.to_nat at_) sg ++ concat rest end.

Definition pieces_ok (at_ : Z) (segs : list (list Z)) : Prop :=
  Forall (fun sg => sg <> []) segs /\ match segs with [] => True | sg :: _ => 0 <= at_ < zlen sg end.

Lemma nonempty_zlen {A} (l : list A) : l <> [] -> 1 <= zlen l.
Proof using. destruct l; [done|]. intros _. rewrite zlen_cons. pose proof (zlen_nonneg l). lia. Qed.

Lemma pieces_next sg rest : Forall (fun x : list Z => x <> []) (sg :: rest) -> pieces_ok 0 rest /\ remain 0 rest = concat rest.
Proof using.
  intros H. apply Forall_cons in H as [_ H]. split; [|by destruct rest; cbn; rewrite ?drop_0]. split; [done|]. destruct rest as [|x rest]; [done|]. apply Forall_cons in H as [H _]. pose proof (nonempty_zlen _ H). lia.
Qed.

(** The buffer of slot [j] takes as much as it has room for. *)
Lemma fill_buf_spec T addrs lens chunks j a : addrs !! j = Some a -> (length chunks <= j)%nat -> forall segs s acc at_,
  bufs_ok T s addrs -> slots s addrs lens chunks -> pieces_ok at_ segs -> zlen acc <= room ->
  slice (a + frameHeadroom) (a + frameHeadroom + zlen acc) (rg_b (s_rg s)) = Some acc ->
  let take_ := take (Z.to_nat (room - zlen acc)) (remain at_ segs) in
  exists at' segs' s', fill_buf (a + frameHeadroom) room (zlen acc) at_ segs s = Some (zlen acc + zlen take_, at', segs', s') /\
    bufs_ok T s' addrs /\ slots s' addrs lens chunks /\ pieces_ok at' segs' /\ remain at' segs' = drop (Z.to_nat (room - zlen acc)) (remain at_ segs) /\
    slice (a + frameHeadroom) (a + frameHeadroom + zlen (acc ++ take_)) (rg_b (s_rg s')) = Some (acc ++ take_) /\ s_pool s' = s_pool s.
Proof using FramePoolLaws0 Hcover Hlog.
  intros Ha Hj. induction segs as [|sg rest IH]; intros s acc at_ B Hs [Hne Hat] Hacc Hsl take_; subst take_; cbn [fill_buf remain].
  { rewrite take_nil, drop_nil, app_nil_r. exists at_, [], s. change (zlen (@nil Z)) with 0. rewrite Z.add_0_r. split; [done|]. split; [done|]. split; [done|]. split; [done|]. by split. }
  pose proof (zlen_nonneg acc). destruct (Z.ltb_spec (zlen acc) room) as [Hlt|Hge].
  2:{ replace (Z.to_nat (room - zlen acc)) with 0%nat by lia. rewrite take_0, drop_0, app_nil_r. exists at_, (sg :: rest), s. change (zlen (@nil Z)) with 0. rewrite Z.add_0_r. split; [done|]. split; [done|]. split; [done|]. split; [done|]. by split. }
  rewrite slice_Some by lia. cbn [mbind option_bind]. rewrite (take_ge (drop (Z.to_nat at_) sg)) by (rewrite length_drop; unfold zlen; lia). set (src := drop (Z.to_nat at_) sg).
  assert (Hsrc : zlen src = zlen sg - at_) by (unfold src; rewrite zlen_drop; lia). unfold copy_to. rewrite (proj2 (Z.leb_le 0 (zlen acc))), (proj2 (Z.leb_le (zlen acc) room)) by lia. cbn [andb mbind option_bind].
  set (b := take (Z.to_nat (room - zlen acc)) src). assert (Hb : zlen b = Z.min (room - zlen acc) (zlen src)) by (unfold b; rewrite zlen_take; lia).
  pose proof (store_ok T s addrs j a (zlen acc) b B Ha ltac:(lia) ltac:(lia)) as B1. pose proof (store_slots T s addrs lens chunks j a (zlen acc) b B Hs Ha Hj ltac:(lia) ltac:(lia)) as Hs1.
  pose proof (store_append T s addrs j a acc b B Ha ltac:(lia) Hsl) as Hsl1. set (s1 := s_store _ b s) in *.
  destruct (Z.eqb_spec (at_ + Z.min (room - zlen acc) (zlen src)) (zlen sg)) as [Hend|Hnot].
  - destruct (pieces_next sg rest Hne) as [Hp Hrem]. assert (Hbs : b = src) by (unfold b; rewrite take_ge; [done|unfold zlen in *; lia]). rewrite Hbs in *. rewrite <- Hb.
    rewrite <- (zlen_app acc src). destruct (IH s1 (acc ++ src) 0 B1 Hs1 Hp) as (at' & segs' & s' & E & H1 & H2 & H3 & H4 & H5 & H6); [rewrite zlen_app; lia|done|]. rewrite E. rewrite Hrem in *.
    rewrite take_app, drop_app. rewrite (take_ge src) by (unfold zlen in *; lia). rewrite (drop_ge src) by (unfold zlen in *; lia). cbn [app]. rewrite zlen_app in *.
    replace (Z.to_nat (room - zlen acc) - length src)%nat with (Z.to_nat (room - (zlen acc + zlen src))) by (unfold zlen in *; lia).
    exists at', segs', s'. split; [do 4 f_equal; rewrite zlen_app; lia|]. split; [done|]. split; [done|]. split; [done|]. split; [done|]. split; [|by rewrite H6]. rewrite app_assoc, (zlen_app (acc ++ src)), (zlen_app acc src). rewrite (zlen_app acc src) in H5. exact H5.
  - assert (Hfull : room - zlen acc < zlen src) by lia. rewrite take_app_le, drop_app_le by (unfold zlen in *; lia). fold b. rewrite <- Hb.
    exists (at_ + zlen b), (sg :: rest), s1. split; [done|]. split; [done|]. split; [done|]. split; [split; [done|lia]|]. split; [|by split]. cbn [remain]. unfold src. rewrite drop_drop. do 2 f_equal. lia.
Qed.

(** Room for one more slot's bytes. *)
Lemma slots_snoc s addrs lens chunks a c lens' : slots s addrs lens chunks -> addrs !! length chunks = Some a -> zlen c <= room ->
  slice (a + frameHeadroom) (a + frameHeadroom + zlen c) (rg_b (s_rg s)) = Some c -> set_at (zlen chunks) (zlen c) lens = Some lens' -> slots s addrs lens' (chunks ++ [c]).
Proof using.
  intros Hs Ha Hr Hsl Hset i x Hx. unfold set_at in Hset. case_if_in Hset; [|done]. injection Hset as <-. replace (Z.to_nat (zlen chunks)) with (length chunks) by (unfold zlen; lia).
  destruct (decide (i < length chunks)%nat) as [Hi|Hi].
  - rewrite lookup_app_l in Hx by done. destruct (Hs i x Hx) as (a' & ? & ? & ? & ?). exists a'. rewrite list_lookup_insert_ne by lia. done.
  - pose proof (lookup_lt_Some _ _ _ Hx) as Hl. rewrite length_app in Hl. cbn in Hl. replace i with (length chunks) in * by lia. rewrite lookup_app_r, Nat.sub_diag in Hx by lia. cbn in Hx. injection Hx as <-.
    exists a. rewrite list_lookup_insert_eq by (unfold zlen in *; lia). done.
Qed.

Lemma slots_prefix s addrs lens c1 c2 : slots s addrs lens (c1 ++ c2) -> slots s addrs lens c1.
Proof using. intros Hs i c Hc. apply (Hs i c). by apply lookup_app_l_Some. Qed.

(** How a spread ends. *)
Record spread_end (T : list Z) (out max : Z) (pkt : list Z) (chunks0 : list (list Z)) (lens : list Z) s (n : Z) (ok noSlots : bool) (lens' : list Z) s' (addrs' : list Z) : Prop := mkSpreadEnd {
  se_bufs : bufs_ok T s' addrs';
  se_lens : zlen lens' = zlen lens;
  se_old : slots s' addrs' lens' chunks0;
  se_rej : fp_rejected (s_pool s') = fp_rejected (s_pool s);
  se_many : zlen chunks0 <= zlen addrs';
  se_result : if ok then exists cs, cs <> [] /\ concat cs = pkt /\ n = zlen cs /\ out + n <= max /\ slots s' addrs' lens' (chunks0 ++ cs) /\ out + n <= zlen addrs'
              else (if noSlots then max - out else zlen T - out) * room < zlen pkt }.

Lemma remain_nonempty at_ segs : pieces_ok at_ segs -> segs <> [] -> remain at_ segs <> [].
Proof using.
  intros [_ Hat] Hne. destruct segs as [|sg rest]; [done|]. cbn [remain]. intros H. apply app_eq_nil in H as [H _]. assert (Hz : zlen (drop (Z.to_nat at_) sg) = 0) by (by rewrite H). rewrite zlen_drop in Hz. lia.
Qed.

Lemma zlen_concat_full (cs : list (list Z)) : Forall (fun c => zlen c = room) cs -> zlen (concat cs) = zlen cs * room.
Proof using. induction 1 as [|c cs Hc _ IH]; [done|]. cbn [concat]. rewrite zlen_app, zlen_cons, IH, Hc. lia. Qed.

Lemma spread_loop_spec T out max pkt chunks0 lens0 s0 : out = zlen chunks0 -> pkt <> [] -> out <= max -> forall fuel n at_ segs lens s addrs cs,
  n = zlen cs -> bufs_ok T s addrs -> slots s addrs lens (chunks0 ++ cs) -> (segs <> [] -> Forall (fun c => zlen c = room) cs) -> concat cs ++ remain at_ segs = pkt -> pieces_ok at_ segs ->
  max - (out + n) <= Z.of_nat fuel -> out + n <= max -> max <= zlen lens -> out + n <= zlen addrs -> zlen lens = zlen lens0 -> fp_rejected (s_pool s) = fp_rejected (s_pool s0) ->
  exists n' ok noSlots lens' s' addrs', spread_loop fuel out n max at_ segs lens s = Some (n', ok, noSlots, lens', s') /\ spread_end T out max pkt chunks0 lens0 s0 n' ok noSlots lens' s' addrs'.
Proof using FramePoolLaws0 Hcover Hlog.
  intros Hout Hpkt Hmax. induction fuel as [|fuel IH]; intros n at_ segs lens s addrs cs Hn B Hs Hfull Hcat Hp Hf Hnm Hl Ha Hz Hrj; (destruct segs as [|sg rest]; cbn [spread_loop];
    [exists n, true, false, lens, s, addrs; split; [done|]; cbn in Hcat; rewrite app_nil_r in Hcat; pose proof (zlen_nonneg cs); constructor; try done; [by eapply slots_prefix|lia|]; exists cs; split; [by intros ->|by split_and!]|]).
  - rewrite Z.geb_leb, (proj2 (Z.leb_le _ _)) by lia. exists 0, false, true, lens, s, addrs. split; [done|]. pose proof (zlen_nonneg cs). constructor; try done; [by eapply slots_prefix|lia|]. cbn.
    pose proof (remain_nonempty at_ (sg :: rest) Hp ltac:(done)) as Hr. apply nonempty_zlen in Hr. rewrite <- Hcat, zlen_app, zlen_concat_full by (by apply Hfull). pose proof room_bounds. nia.
  - rewrite Z.geb_leb. destruct (Z.leb_spec max (out + n)) as [Hge|Hlt].
    { exists 0, false, true, lens, s, addrs. split; [done|]. pose proof (zlen_nonneg cs). constructor; try done; [by eapply slots_prefix|lia|]. cbn.
      pose proof (remain_nonempty at_ (sg :: rest) Hp ltac:(done)) as Hr. apply nonempty_zlen in Hr. rewrite <- Hcat, zlen_app, zlen_concat_full by (by apply Hfull). pose proof room_bounds. nia. }
    pose proof (zlen_nonneg chunks0). pose proof (zlen_nonneg cs). destruct (dst_spec T (out + n) s addrs B ltac:(lia)) as (buf & s1 & addrs1 & -> & D). cbn [mbind option_bind].
    pose proof (slots_dst _ _ _ _ _ _ _ _ _ D Hs) as Hs1. destruct (ds_ext _ _ _ _ _ _ _ D) as [ext Hext]. pose proof (zlen_nonneg ext). assert (Hza : zlen addrs <= zlen addrs1) by (rewrite Hext, zlen_app; lia).
    pose proof (ds_rej _ _ _ _ _ _ _ D) as Hrj1. destruct buf as [[addr len]|].
    2:{ exists 0, false, false, lens, s1, addrs1. split; [done|]. constructor; [apply D|done|by eapply slots_prefix|congruence|lia|]. destruct (ds_buf _ _ _ _ _ _ _ D) as [HzT _]. cbn.
      pose proof (remain_nonempty at_ (sg :: rest) Hp ltac:(done)) as Hr. apply nonempty_zlen in Hr. rewrite <- Hcat, zlen_app, zlen_concat_full by (by apply Hfull). pose proof room_bounds. nia. }
    destruct (ds_buf _ _ _ _ _ _ _ D) as (a & Hla & -> & ->). replace (Z.to_nat (out + n)) with (length (chunks0 ++ cs)) in Hla by (rewrite length_app; unfold zlen in *; lia).
    pose proof room_bounds. pose proof (bo_len _ _ _ (ds_bufs _ _ _ _ _ _ _ D)) as Hrl. destruct (frame_lies a (bufs_addr _ _ _ _ _ (ds_bufs _ _ _ _ _ _ _ D) Hla)) as (L1 & L2 & _).
    destruct (fill_buf_spec T addrs1 lens (chunks0 ++ cs) _ a Hla ltac:(lia) (sg :: rest) s1 [] at_) as (at' & segs' & s2 & E & B2 & Hs2 & Hp2 & Hrem & Hsl & Hpool); try done; [apply D|change (zlen (@nil Z)) with 0; lia| |].
    { change (zlen (@nil Z)) with 0. rewrite Z.add_0_r. rewrite slice_Some by (unfold room, frameHeadroom in *; lia). by rewrite Z.sub_diag. }
    change (zlen (@nil Z)) with 0 in E, Hrem, Hsl. rewrite Z.sub_0_r in E, Hrem, Hsl. rewrite Z.add_0_l in E. cbn [app] in Hsl. rewrite E. cbn [mbind option_bind]. set (c := take (Z.to_nat room) (remain at_ (sg :: rest))) in *.
    assert (Hc : zlen c <= room) by (unfold c; rewrite zlen_take; lia). rewrite set_at_Some by lia. cbn [mbind option_bind].
    assert (Hset : set_at (zlen (chunks0 ++ cs)) (zlen c) lens = Some (<[Z.to_nat (out + n):=zlen c]> lens)) by (rewrite zlen_app, <- Hout, <- Hn; apply set_at_Some; lia).
    pose proof (slots_snoc s2 addrs1 lens (chunks0 ++ cs) a c _ Hs2 Hla Hc Hsl Hset) as Hs3. rewrite <- app_assoc in Hs3.
    assert (Hla2 : out + n < zlen addrs1) by (apply lookup_lt_Some in Hla; rewrite length_app in Hla; unfold zlen in *; lia).
    apply (IH (n + 1) at' segs' _ s2 addrs1 (cs ++ [c])); try done.
    + rewrite zlen_app, zlen_cons, zlen_nil. lia.
    + intros Hne. apply Forall_app. split; [by apply Hfull|]. repeat constructor. pose proof (remain_nonempty at' segs' Hp2 Hne) as Hr. apply nonempty_zlen in Hr. rewrite Hrem, zlen_drop in Hr. unfold c. rewrite zlen_take. lia.
    + rewrite concat_app, Hrem. cbn [concat]. rewrite app_nil_r, <- app_assoc. unfold c. by rewrite take_drop.
    + lia.
    + lia.
    + rewrite zlen_insert. done.
    + lia.
    + by rewrite zlen_insert.
    + congruence.
Qed.

(** ** One packet in one slot *)

(** The buffer of slot [j] holds [acc] so far. *)
Record holding (T : list Z) s (addrs lens : list Z) (chunks : list (list Z)) (a : Z) (acc : list Z) : Prop := mkHolding {
  ho_bufs : bufs_ok T s addrs;
  ho_slots : slots s addrs lens chunks;
  ho_bytes : slice (a + frameHeadroom) (a + frameHeadroom + zlen acc) (rg_b (s_rg s)) = Some acc }.

Lemma holding_nil T s addrs lens chunks j a : bufs_ok T s addrs -> slots s addrs lens chunks -> addrs !! j = Some a -> holding T s addrs lens chunks a [].
Proof using FramePoolLaws0 Hcover Hlog.
  intros B Hs Ha. constructor; try done. destruct (frame_lies a (bufs_addr _ _ _ _ _ B Ha)) as (L1 & L2 & _). pose proof room_bounds. pose proof (bo_len _ _ _ B). change (zlen (@nil Z)) with 0. rewrite Z.add_0_r.
  rewrite slice_Some by (unfold room, frameHeadroom in *; lia). by rewrite Z.sub_diag.
Qed.

Lemma holding_store T s addrs lens chunks j a acc b : holding T s addrs lens chunks a acc -> addrs !! j = Some a -> (length chunks <= j)%nat -> zlen acc + zlen b <= room ->
  holding T (s_store (a + frameHeadroom + zlen acc) b s) addrs lens chunks a (acc ++ b).
Proof using FramePoolLaws0 Hcover Hlog.
  intros [B Hs Hb] Ha Hj Hr. pose proof (zlen_nonneg acc). constructor; [by eapply store_ok|by eapply store_slots|by eapply store_append].
Qed.

(** The packet of [plen] bytes at [d], its tag put back behind the addresses. *)
Definition wire_packet (mem : list Z) (d plen tagLen tpid tci : Z) : list Z :=
  let raw := take (Z.to_nat plen) (drop (Z.to_nat d) mem) in
  if tagLen =? 0 then raw else take 12 raw ++ tag_bytes tpid tci ++ drop 12 raw.

Lemma zlen_wire mem d plen tagLen tpid tci : 0 <= d -> 0 <= plen -> d + plen <= zlen mem -> tagLen = 0 \/ tagLen = 4 -> zlen (wire_packet mem d plen tagLen tpid tci) = plen + tagLen.
Proof using.
  intros Hd Hp Hl Ht. unfold wire_packet. set (raw := take _ _). assert (Hz : zlen raw = plen) by (unfold raw; rewrite zlen_take, zlen_drop; lia).
  destruct Ht as [Ht | Ht]; subst tagLen; cbn [Z.eqb]; [lia|]. rewrite !zlen_app, zlen_take, zlen_drop. change (zlen (tag_bytes tpid tci)) with 4. lia.
Qed.

Lemma packet_segs_spec d plen tagLen tpid tci r : 0 <= d -> d + plen <= zlen (r_mem r) -> zlen (r_mem r) < 2 ^ 32 -> (tagLen = 0 /\ 0 <= plen) \/ (tagLen = 4 /\ 12 <= plen) ->
  exists segs, packet_segs d plen tagLen tpid tci r = Some segs /\ concat segs = wire_packet (r_mem r) d plen tagLen tpid tci /\
    (16 < plen + tagLen -> pieces_ok 0 segs /\ remain 0 segs = concat segs).
Proof using.
  intros Hd Hl Hm Ht. unfold packet_segs, wire_packet. destruct Ht as [[-> Hp]|[-> Hp]]; cbn [Z.eqb negb].
  - rewrite (u32_small (d + plen)), slice_Some by lia. cbn [mbind option_bind]. replace (d + plen - d) with plen by lia. eexists. split; [done|]. split; [cbn; by rewrite app_nil_r|].
    set (raw := take _ _). assert (Hz : zlen raw = plen) by (unfold raw; rewrite zlen_take, zlen_drop; lia). intros Hbig. split; [|cbn; by rewrite drop_0].
    split; [repeat constructor; intros H; rewrite H in Hz; change (zlen []) with 0 in Hz; lia|lia].
  - rewrite (u32_small (d + 12)), (u32_small (d + plen)), !slice_Some by lia. cbn [mbind option_bind].
    replace (d + 12 - d) with 12 by lia. replace (d + plen - (d + 12)) with (plen - 12) by lia. eexists. split; [done|]. split.
    + cbn [concat]. rewrite app_nil_r. rewrite take_take. f_equal; [f_equal; lia|]. f_equal. rewrite skipn_firstn_comm, drop_drop. f_equal; [lia|f_equal; lia].
    + intros Hbig. set (x := take _ _). set (y := take (Z.to_nat (plen - 12)) _). assert (Hx : zlen x = 12) by (unfold x; rewrite zlen_take, zlen_drop; lia). assert (Hy : zlen y = plen - 12) by (unfold y; rewrite zlen_take, zlen_drop; lia).
      split; [|cbn; by rewrite drop_0]. split; [|lia]. repeat constructor; try done; intros H; [rewrite H in Hx; done|rewrite H in Hy; change (zlen []) with 0 in Hy; lia].
Qed.

Lemma copy_packet_spec T s addrs lens chunks j a d plen tagLen tpid tci r : bufs_ok T s addrs -> slots s addrs lens chunks -> addrs !! j = Some a -> (length chunks <= j)%nat ->
  0 <= d -> d + plen <= zlen (r_mem r) -> zlen (r_mem r) < 2 ^ 32 -> (tagLen = 0 /\ 0 <= plen) \/ (tagLen = 4 /\ 12 <= plen) -> plen + tagLen <= room ->
  exists s', copy_packet (a + frameHeadroom) room d plen tagLen tpid tci r s = Some s' /\ holding T s' addrs lens chunks a (wire_packet (r_mem r) d plen tagLen tpid tci) /\ s_pool s' = s_pool s.
Proof using FramePoolLaws0 Hcover Hlog.
  intros B Hs Ha Hj Hd Hl Hm Ht Hr. pose proof (holding_nil T s addrs lens chunks j a B Hs Ha) as H0. pose proof room_bounds as Hrb. unfold copy_packet, wire_packet.
  set (raw := take (Z.to_nat plen) (drop (Z.to_nat d) (r_mem r))). assert (Hz : zlen raw = Z.max 0 plen) by (unfold raw; rewrite zlen_take, zlen_drop; lia).
  destruct Ht as [[-> Hp]|[-> Hp]]; cbn [Z.eqb negb].
  - rewrite (u32_small (d + plen)), slice_Some by lia. cbn [mbind option_bind]. replace (d + plen - d) with plen by lia. fold raw. unfold copy_to. rewrite (proj2 (Z.leb_le 0 room)) by lia. cbn [Z.leb Z.compare andb].
    rewrite Z.sub_0_r, take_ge by (unfold zlen in Hz; lia). eexists. split; [done|]. split; [|done].
    pose proof (holding_store T s addrs lens chunks j a [] raw H0 Ha Hj) as H1. change (zlen (@nil Z)) with 0 in H1. apply H1. lia.
  - rewrite (u32_small (d + 12)), (u32_small (d + plen)) by lia. rewrite slice_Some by lia. cbn [mbind option_bind]. replace (d + 12 - d) with 12 by lia. rewrite (proj2 (Z.leb_le 16 room)) by lia. cbn [mbind option_bind].
    unfold copy_to. cbn [Z.leb Z.compare andb mbind option_bind]. rewrite slice_Some by lia. cbn [mbind option_bind]. replace (d + plen - (d + 12)) with (plen - 12) by lia. rewrite (proj2 (Z.leb_le 16 room)) by lia.
    assert (E1 : take (Z.to_nat (12 - 0)) (take (Z.to_nat (d + 12 - d)) (drop (Z.to_nat d) (r_mem r))) = take 12 raw) by (unfold raw; rewrite !take_take; f_equal; lia).
    assert (E2 : take (Z.to_nat (room - 16)) (take (Z.to_nat (plen - 12)) (drop (Z.to_nat (d + 12)) (r_mem r))) = drop 12 raw) by (unfold raw; rewrite skipn_firstn_comm, drop_drop, take_take; f_equal; [lia|f_equal; lia]).
    rewrite E1, E2. eexists. split; [done|]. split; [|done]. assert (Z1 : zlen (take 12 raw) = 12) by (rewrite zlen_take; lia). assert (Z2 : zlen (drop 12 raw) = plen - 12) by (rewrite zlen_drop; lia).
    pose proof (holding_store T s addrs lens chunks j a [] (take 12 raw) H0 Ha Hj) as H1. change (zlen (@nil Z)) with 0 in H1. specialize (H1 ltac:(lia)). cbn [app] in H1.
    pose proof (holding_store T _ addrs lens chunks j a _ (tag_bytes tpid tci) H1 Ha Hj) as H2. rewrite Z1 in H2. change (zlen (tag_bytes tpid tci)) with 4 in H2. specialize (H2 ltac:(lia)).
    pose proof (holding_store T _ addrs lens chunks j a _ (drop 12 raw) H2 Ha Hj) as H3. rewrite zlen_app, Z1 in H3. change (zlen (tag_bytes tpid tci)) with 4 in H3. specialize (H3 ltac:(lia)). rewrite <- app_assoc in H3. exact H3.
Qed.
End bufs.
