(* ===== verification/AfRingThms.v ===== *)
(** The receive ring as a machine that delivers packets: [rstep] is what may
    happen to the ring, one frame or block at a time, without buffers, loops or
    fuel.  The ring's bounds are shown here for whatever the kernel wrote. *)

From stdpp Require Import prelude list numbers strings.
From S2P Require Import Prelude Bytes Desc Pool Mlx5Region AfTx AfRing AfRingBufs.

(** A mapping of whole blocks, with any bytes in it, and a cursor. *)
Record ring_ok (r : ring) : Prop := mkRingOk {
  rk_len : zlen (r_mem r) = r_blockSize r * r_blockNr r;
  rk_size : 64 <= r_blockSize r;
  rk_nr : 1 <= r_blockNr r;
  rk_small : r_blockSize r * r_blockNr r < 2 ^ 32;
  rk_bytes : bytes_ok (r_mem r);
  rk_block : 0 <= r_block r < r_blockNr r;
  rk_off : 0 <= r_frameOff r < 2 ^ 32;
  rk_pkts : 0 <= r_numPkts r < 2 ^ 32 }.

(** The block the cursor is in. *)
Definition block_at (r : ring) : Z := r_block r * r_blockSize r.

Lemma block_range r : ring_ok r -> 0 <= block_at r /\ block_at r + r_blockSize r <= zlen (r_mem r) /\ zlen (r_mem r) < 2 ^ 32 /\ u32 (r_block r * r_blockSize r) = block_at r.
Proof.
  intros [L S N M B K O P]. unfold block_at. rewrite L. assert (r_block r * r_blockSize r + r_blockSize r <= r_blockSize r * r_blockNr r) by nia. rewrite u32_small by nia. nia.
Qed.

(** Fields of the width they have. *)
Record hdr_ok (h : tpacket3Hdr) : Prop := mkHdrOk {
  hk_next : 0 <= tpNextOffset h < 2 ^ 32; hk_snap : 0 <= tpSnaplen h < 2 ^ 32; hk_len : 0 <= tpLen h < 2 ^ 32; hk_mac : 0 <= tpMac h < 2 ^ 16 }.

Lemma frameHdr_Some off r : bytes_ok (r_mem r) -> 0 <= off -> off + 48 <= zlen (r_mem r) -> exists h, frameHdr off r = Some h /\ hdr_ok h.
Proof.
  intros Hb Ho Hl. unfold frameHdr.
  destruct (get_le_Some 4 off (r_mem r)) as (v0 & -> & R0); [lia|lia|]. destruct (get_le_Some 4 (off + 4) (r_mem r)) as (v1 & -> & R1); [lia|lia|]. destruct (get_le_Some 4 (off + 8) (r_mem r)) as (v2 & -> & R2); [lia|lia|].
  destruct (get_le_Some 4 (off + 12) (r_mem r)) as (v3 & -> & R3); [lia|lia|]. destruct (get_le_Some 4 (off + 16) (r_mem r)) as (v4 & -> & R4); [lia|lia|]. destruct (get_le_Some 4 (off + 20) (r_mem r)) as (v5 & -> & R5); [lia|lia|].
  destruct (get_le_Some 2 (off + 24) (r_mem r)) as (v6 & -> & R6); [lia|lia|]. destruct (get_le_Some 4 (off + 32) (r_mem r)) as (v7 & -> & R7); [lia|lia|]. destruct (get_le_Some 2 (off + 36) (r_mem r)) as (v8 & -> & R8); [lia|lia|].
  cbn [mbind option_bind]. eexists. split; [done|]. constructor; cbn; [apply (R0 Hb)|apply (R3 Hb)|apply (R4 Hb)|apply (R6 Hb)].
Qed.

Lemma blockDesc_Some r : ring_ok r -> exists bd, blockDesc (r_block r) r = Some bd /\ 0 <= b_numPkts bd < 2 ^ 32 /\ 0 <= b_offsetToFirst bd < 2 ^ 32.
Proof.
  intros Hr. destruct (block_range r Hr) as (H1 & H2 & H3 & E). pose proof (rk_size _ Hr). pose proof (rk_bytes _ Hr) as Hb. unfold blockDesc. rewrite E.
  destruct (get_le_Some 4 (block_at r + 8) (r_mem r)) as (v0 & -> & R0); [lia|lia|]. destruct (get_le_Some 4 (block_at r + 12) (r_mem r)) as (v1 & -> & R1); [lia|lia|]. destruct (get_le_Some 4 (block_at r + 16) (r_mem r)) as (v2 & -> & R2); [lia|lia|].
  cbn [mbind option_bind]. eexists. split; [done|]. cbn. split; [apply (R1 Hb)|apply (R2 Hb)].
Qed.

(** ** The frame at the cursor *)

Record frame_here (r : ring) (h : tpacket3Hdr) : Prop := mkFrameHere {
  fh_fits : frameHdrFits (r_frameOff r) r = true;
  fh_hdr : frameHdr (block_at r + r_frameOff r) r = Some h;
  fh_block : frameInBlock (r_frameOff r) h r = true }.

(** Where its bytes start. *)
Definition data_at (r : ring) (h : tpacket3Hdr) : Z := block_at r + r_frameOff r + tpMac h.

Lemma fits_range r : ring_ok r -> frameHdrFits (r_frameOff r) r = true -> r_frameOff r + 48 <= r_blockSize r.
Proof.
  intros Hr Hf. unfold frameHdrFits, sizeof_tpacket3Hdr in Hf. pose proof (rk_size _ Hr). pose proof (rk_small _ Hr). pose proof (rk_nr _ Hr). apply Z.leb_le in Hf. rewrite u32_small in Hf by nia. lia.
Qed.

(** Whatever the kernel wrote, an accepted frame lies in its block, header,
    bytes and - where there is one - the virtio header in front of them. *)
Lemma frame_inside r h : ring_ok r -> hdr_ok h -> frame_here r h ->
  block_at r <= data_at r h /\ data_at r h + tpSnaplen h <= block_at r + r_blockSize r /\ (r_vnet r = true -> block_at r + 10 <= data_at r h).
Proof.
  intros Hr [N S L M] [Hf Hh Hb]. pose proof (fits_range r Hr Hf) as Hfit. pose proof (rk_off _ Hr). pose proof (rk_small _ Hr). pose proof (rk_nr _ Hr). pose proof (rk_size _ Hr). unfold data_at, frameInBlock, OffloadHdrLen in *.
  destruct (r_vnet r && (tpMac h <? 10)) eqn:Ev; [done|]. rewrite (u32_small (r_blockSize r - r_frameOff r)) in Hb by nia. rewrite Z.gtb_ltb in Hb. destruct (Z.ltb_spec (r_blockSize r - r_frameOff r) (tpMac h)); [done|].
  rewrite u32_small in Hb by nia. apply Z.leb_le in Hb. split; [lia|]. split; [lia|]. intros Hv. rewrite Hv in Ev. cbn in Ev. to_prop. lia.
Qed.

(** ** Packets *)

(** A packet with its metadata and arrival time. *)
Record rxpkt : Set := mkRxpkt { x_bytes : list Z; x_off : Offload; x_stamp : Z }.

Definition tagged_hdr (h : tpacket3Hdr) : bool := negb (Z.land (tpStatus h) tpStatusVlanValid =? 0) && (12 <=? tpSnaplen h).
Definition tag_len (h : tpacket3Hdr) : Z := if tagged_hdr h then 4 else 0.
Definition tag_tpid (h : tpacket3Hdr) : Z := if tpVlanTpid h =? 0 then 0x8100 else tpVlanTpid h.

(** The bytes as they were on the wire. *)
Definition packet_at (r : ring) (h : tpacket3Hdr) : list Z :=
  wire_packet (r_mem r) (data_at r h) (tpSnaplen h) (tag_len h) (tag_tpid h) (u16 (tpVlanTci h)).

Definition rxpkt_at (r : ring) (h : tpacket3Hdr) (p : rxpkt) : Prop :=
  x_bytes p = packet_at r h /\ offloadFor (data_at r h) (tag_len h) r = Some (x_off p) /\ x_stamp p = stamp h.

Lemma tag_len_cases h : (tag_len h = 0 /\ (0 <= tpSnaplen h -> 0 <= tpSnaplen h)) \/ (tag_len h = 4 /\ 12 <= tpSnaplen h).
Proof. unfold tag_len, tagged_hdr. destruct (negb _); cbn [andb]; [|by left]. destruct (Z.leb_spec 12 (tpSnaplen h)); [right|left]; done. Qed.

Lemma zlen_packet r h : ring_ok r -> hdr_ok h -> frame_here r h -> zlen (packet_at r h) = tpSnaplen h + tag_len h.
Proof.
  intros Hr Hh Hf. destruct (frame_inside r h Hr Hh Hf) as (H1 & H2 & _). destruct (block_range r Hr) as (H3 & H4 & _). unfold packet_at. apply zlen_wire; [lia|apply Hh|lia|]. destruct (tag_len_cases h) as [[-> _]|[-> _]]; auto.
Qed.

Lemma UnmarshalOffload_total b : zlen b = 10 -> exists o, UnmarshalOffload b = Some o.
Proof. intros Hz. destruct (ten_bytes b ltac:(lia)) as (?&?&?&?&?&?&?&?&?&?&rest&->). eexists. reflexivity. Qed.

Lemma offloadFor_total r h : ring_ok r -> hdr_ok h -> frame_here r h -> exists o, offloadFor (data_at r h) (tag_len h) r = Some o.
Proof.
  intros Hr Hh Hf. destruct (frame_inside r h Hr Hh Hf) as (H1 & H2 & H5). destruct (block_range r Hr) as (H3 & H4 & H6 & _). unfold offloadFor. destruct (r_vnet r); [|by eexists]. specialize (H5 eq_refl). cbn [negb].
  pose proof (hk_snap _ Hh). unfold OffloadHdrLen. rewrite u32_small by lia. rewrite slice_Some by lia. cbn [mbind option_bind]. set (b := take _ _).
  destruct (UnmarshalOffload_total b) as [o ->]; [unfold b; rewrite zlen_take, zlen_drop; lia|]. cbn [mbind option_bind]. case_if; by eexists.
Qed.

(** ** The machine *)

(** One frame of the block at hand; [rm] is the room of one buffer, [max] the
    slots of a call. *)
Inductive fstep (rm max : Z) (r : ring) : list rxpkt -> ring -> Prop :=
| RDeliver h p : 0 < r_numPkts r -> frame_here r h -> tpLen h <= tpSnaplen h -> rxpkt_at r h p -> fstep rm max r [p] (advance (tpNextOffset h) r)
| RClipped h : 0 < r_numPkts r -> frame_here r h -> tpSnaplen h < tpLen h -> fstep rm max r [] (advance (tpNextOffset h) (r_count 1 0 r))
| RTooBig h : 0 < r_numPkts r -> frame_here r h -> r_chain r = false -> rm < zlen (packet_at r h) -> fstep rm max r [] (advance (tpNextOffset h) (r_count 1 0 r))
| RBatchTooSmall h : 0 < r_numPkts r -> frame_here r h -> r_chain r = true -> max * rm < zlen (packet_at r h) -> fstep rm max r [] (advance (tpNextOffset h) (r_count 1 1 r))
| RCorrupt : 0 < r_numPkts r -> (forall h, ~ frame_here r h) -> fstep rm max r [] (r_cursor (r_frameOff r) 0 (r_count 1 0 r)).

(** The machine also knows whether a block is open.  A block is opened once,
    from its first frame, and not again before it has been gone through and
    given back; what the reader notes down between calls ([RNote]) is its own
    affair. *)
Inductive rstep (rm max : Z) : bool -> ring -> list rxpkt -> bool -> ring -> Prop :=
| RFrame r ps r' : fstep rm max r ps r' -> rstep rm max true r ps true r'
| ROpen r bd : blockDesc (r_block r) r = Some bd -> Z.land (b_blockStatus bd) tpStatusUser <> 0 ->
    rstep rm max false r [] true (r_cursor (b_offsetToFirst bd) (b_numPkts bd) r)
| RRelease r mem : r_numPkts r = 0 -> set_blockStatus (r_block r) tpStatusKernel r = Some mem -> rstep rm max true r [] false (r_release mem r)
| RNote o r b : rstep rm max o r [] o (r_set_pending b r).

Inductive rsteps (rm max : Z) : bool -> ring -> list rxpkt -> bool -> ring -> Prop :=
| RDone o r : rsteps rm max o r [] o r
| RMore o1 r1 ps1 o2 r2 ps2 o3 r3 : rstep rm max o1 r1 ps1 o2 r2 -> rsteps rm max o2 r2 ps2 o3 r3 -> rsteps rm max o1 r1 (ps1 ++ ps2) o3 r3.

Lemma rsteps_one rm max o r ps o' r' : rstep rm max o r ps o' r' -> rsteps rm max o r ps o' r'.
Proof. intros H. rewrite <- (app_nil_r ps). econstructor; [done|constructor]. Qed.

Lemma rsteps_trans rm max o1 r1 ps1 o2 r2 ps2 o3 r3 : rsteps rm max o1 r1 ps1 o2 r2 -> rsteps rm max o2 r2 ps2 o3 r3 -> rsteps rm max o1 r1 (ps1 ++ ps2) o3 r3.
Proof. induction 1 as [|a b c d e f g h H _ IH]; intros H2; [done|]. rewrite <- app_assoc. econstructor; [done|]. by apply IH. Qed.

Lemma rsteps_silent rm max o1 r1 o2 r2 ps o3 r3 : rsteps rm max o1 r1 [] o2 r2 -> rsteps rm max o2 r2 ps o3 r3 -> rsteps rm max o1 r1 ps o3 r3.
Proof. apply (rsteps_trans rm max o1 r1 []). Qed.

Lemma advance_pending next r : r_pending (advance next r) = r_pending r.
Proof. unfold advance. by destruct (next =? 0). Qed.

Lemma fstep_pending rm max r ps r' : fstep rm max r ps r' -> r_pending r' = r_pending r.
Proof. by destruct 1; rewrite ?advance_pending. Qed.

(** ** The ring stays well formed *)

Lemma advance_ok next r : ring_ok r -> 0 < r_numPkts r -> ring_ok (advance next r) /\ r_numPkts (advance next r) < r_numPkts r.
Proof.
  intros [L S N M B K O P] Hn. unfold advance. destruct (next =? 0); cbn.
  - split; [|lia]. constructor; cbn; try done; lia.
  - rewrite (u32_small (r_numPkts r - 1)) by lia. split; [|lia]. constructor; cbn; try done; try lia. apply u32_range.
Qed.

Lemma count_ok a b r : ring_ok r -> ring_ok (r_count a b r).
Proof. intros [L S N M B K O P]. by constructor. Qed.

Lemma cursor_ok off n r : ring_ok r -> 0 <= off < 2 ^ 32 -> 0 <= n < 2 ^ 32 -> ring_ok (r_cursor off n r).
Proof. intros [L S N M B K O P] H1 H2. by constructor. Qed.

Lemma pending_ok b r : ring_ok r -> ring_ok (r_set_pending b r).
Proof. intros [L S N M B K O P]. by constructor. Qed.

Lemma blit_bytes off b l : bytes_ok b -> bytes_ok l -> bytes_ok (blit off b l).
Proof. intros Hb Hl. unfold blit. apply Forall_app. split; [by apply Forall_take|]. apply Forall_app. split; [done|by apply Forall_drop]. Qed.

Lemma release_ok r : ring_ok r -> exists mem, set_blockStatus (r_block r) tpStatusKernel r = Some mem /\ ring_ok (r_release mem r) /\ mem = blit (block_at r + 8) (le_bytes 4 0) (r_mem r).
Proof.
  intros Hr. destruct (block_range r Hr) as (H1 & H2 & H3 & E). pose proof (rk_size _ Hr). unfold set_blockStatus. rewrite E, put_le_Some by lia. eexists. split; [done|]. split; [|done].
  assert (Hz : zlen (blit (block_at r + 8) (le_bytes 4 tpStatusKernel) (r_mem r)) = zlen (r_mem r)) by (apply zlen_blit; rewrite ?zlen_le_bytes; lia).
  destruct Hr as [L S N M B K O P]. constructor; cbn [r_release r_mem r_blockSize r_blockNr r_block r_frameOff r_numPkts]; try done; [by rewrite Hz|apply blit_bytes; [apply le_bytes_ok|done]|]. apply Z.mod_pos_bound. lia.
Qed.

(** ** Blocks the kernel owns *)

(** A block that is the kernel's. *)
Definition owned (r : ring) (i : Z) : Prop := exists v, get_le 4 (i * r_blockSize r + 8) (r_mem r) = Some v /\ Z.land v tpStatusUser = 0.

Lemma owned_desc r bd : ring_ok r -> blockDesc (r_block r) r = Some bd -> owned r (r_block r) -> Z.land (b_blockStatus bd) tpStatusUser = 0.
Proof.
  intros Hr Hd (v & Hv & Hz). destruct (block_range r Hr) as (_ & _ & _ & E). unfold blockDesc in Hd. rewrite E in Hd. unfold block_at in Hd. rewrite Hv in Hd. cbn [mbind option_bind] in Hd.
  destruct (get_le 4 (r_block r * r_blockSize r + 12) (r_mem r)) as [v1|]; [|done]. cbn [mbind option_bind] in Hd. destruct (get_le 4 (r_block r * r_blockSize r + 16) (r_mem r)) as [v2|]; [|done]. cbn [mbind option_bind] in Hd. by injection Hd as <-.
Qed.

Lemma owned_release r mem : ring_ok r -> set_blockStatus (r_block r) tpStatusKernel r = Some mem ->
  owned (r_release mem r) (r_block r) /\ forall i, 0 <= i < r_blockNr r -> owned r i -> owned (r_release mem r) i.
Proof.
  intros Hr Hs. destruct (block_range r Hr) as (_ & _ & _ & E). unfold set_blockStatus in Hs. rewrite E in Hs. unfold block_at in Hs. pose proof (rk_size _ Hr).
  assert (Hme : owned (r_release mem r) (r_block r)) by (exists 0; cbn; split; [apply (get_le_put_same _ _ _ _ _ Hs)|done]). split; [done|].
  intros i Hi (v & Hv & Hz). destruct (decide (i = r_block r)) as [->|Hne]; [done|]. exists v. cbn. split; [|done]. rewrite (get_le_put_disjoint _ _ _ _ _ _ _ Hs); [done|]. nia.
Qed.

Lemma owned_same r r' i : r_mem r' = r_mem r -> r_blockSize r' = r_blockSize r -> owned r i -> owned r' i.
Proof. intros H1 H2 (v & Hv & Hz). exists v. by rewrite H1, H2. Qed.

Definition idle (r : ring) : Prop := owned r (r_block r).

(** ** The machine keeps the ring well formed and delivers bytes *)

Lemma wire_bytes mem d plen tagLen tpid tci : bytes_ok mem -> bytes_ok (wire_packet mem d plen tagLen tpid tci).
Proof.
  intros Hb. unfold wire_packet. assert (Hr : bytes_ok (take (Z.to_nat plen) (drop (Z.to_nat d) mem))) by (by apply Forall_take, Forall_drop). destruct (tagLen =? 0); [done|].
  apply Forall_app. split; [by apply Forall_take|]. apply Forall_app. split; [|by apply Forall_drop]. unfold tag_bytes. repeat constructor; apply u8_range.
Qed.

Lemma fstep_ok rm max r ps r' : ring_ok r -> fstep rm max r ps r' -> ring_ok r' /\ Forall (fun p => bytes_ok (x_bytes p)) ps.
Proof.
  intros Hr Hs. pose proof (rk_bytes _ Hr) as Hb. pose proof (rk_off _ Hr).
  destruct Hs as [h p Hn Hf Hc (Hx & _)|h Hn Hf Hc|h Hn Hf Hc Hz|h Hn Hf Hc Hz|Hn Hno].
  - split; [by apply advance_ok|]. repeat constructor. rewrite Hx. by apply wire_bytes.
  - split; [|constructor]. apply advance_ok; [by apply count_ok|done].
  - split; [|constructor]. apply advance_ok; [by apply count_ok|done].
  - split; [|constructor]. apply advance_ok; [by apply count_ok|done].
  - split; [|constructor]. apply cursor_ok; [by apply count_ok|done|lia].
Qed.

Lemma rstep_ok rm max o r ps o' r' : ring_ok r -> rstep rm max o r ps o' r' -> ring_ok r' /\ Forall (fun p => bytes_ok (x_bytes p)) ps.
Proof.
  intros Hr Hs. destruct Hs as [r ps r' Hf|r bd Hbd Hu|r mem Hz Hset|o r b].
  - by eapply fstep_ok.
  - split; [|constructor]. destruct (blockDesc_Some r Hr) as (bd' & E & H1 & H2). rewrite Hbd in E. injection E as <-. by apply cursor_ok.
  - split; [|constructor]. destruct (release_ok r Hr) as (mem' & E & Hok & _). rewrite Hset in E. by injection E as <-.
  - split; [|constructor]. by apply pending_ok.
Qed.

Lemma rsteps_ok rm max o r ps o' r' : ring_ok r -> rsteps rm max o r ps o' r' -> ring_ok r' /\ Forall (fun p => bytes_ok (x_bytes p)) ps.
Proof.
  intros Hr Hs. induction Hs as [|o1 r1 ps1 o2 r2 ps2 o3 r3 Hs _ IH]; [by split; [|constructor]|]. destruct (rstep_ok _ _ _ _ _ _ _ Hr Hs) as [Hr2 Hp]. destruct (IH Hr2) as [Hr3 Hp2]. split; [done|]. by apply Forall_app.
Qed.

(** [ring.read] refines the machine of this file: the slots it returns hold
    exactly the packets the machine delivered, whole and in order. *)

(** ** Slices of one element per slot *)

Lemma set_range_spec {A} (x : A) : forall n i l, 0 <= i -> i + Z.of_nat n <= zlen l -> set_range i n x l = Some (blit i (replicate n x) l).
Proof.
  induction n as [|n IH]; intros i l Hi Hl; cbn [set_range]; [change (replicate 0 x) with (@nil A); by rewrite blit_nil|]. rewrite set_blit by lia. cbn [mbind option_bind]. rewrite IH; [|lia|rewrite zlen_blit by (change (zlen [x]) with 1; lia); lia].
  change (replicate (S n) x) with ([x] ++ replicate n x). rewrite (blit_app i [x]) by (rewrite ?zlen_replicate; change (zlen [x]) with 1; lia). done.
Qed.

(** A packet's elements: one for its first slot, another for the others. *)
Definition slot_elems {A} (x y : A) (n : nat) : list A := x :: replicate (n - 1) y.

Lemma set_elems {A} (x y : A) (n : nat) out l : (1 <= n)%nat -> 0 <= out -> out + Z.of_nat n <= zlen l ->
  exists l', (l ← set_at out x l; set_range (out + 1) (n - 1) y l) = Some l' /\ zlen l' = zlen l /\ take (Z.to_nat (out + Z.of_nat n)) l' = take (Z.to_nat out) l ++ slot_elems x y n.
Proof.
  intros Hn Ho Hl. rewrite set_blit by lia. cbn [mbind option_bind]. assert (Hz : zlen (slot_elems x y n) = Z.of_nat n) by (unfold slot_elems; rewrite zlen_cons, zlen_replicate; lia).
  rewrite set_range_spec; [|lia|rewrite zlen_blit by (change (zlen [x]) with 1; lia); lia]. exists (blit out (slot_elems x y n) l). split; [|split; [apply zlen_blit; lia|rewrite <- Hz; apply take_blit_all; lia]].
  f_equal. unfold slot_elems. change (x :: replicate (n - 1) y) with ([x] ++ replicate (n - 1) y). rewrite (blit_app out [x]) by (rewrite ?zlen_replicate; change (zlen [x]) with 1; lia). done.
Qed.

(** The marks of a packet: every slot but the last continues. *)
Definition marks (n : nat) : list bool := replicate (n - 1) true ++ [false].

Lemma replicate_split {A} (x : A) a b : replicate (a + b) x = replicate a x ++ replicate b x.
Proof. apply replicate_add. Qed.

Lemma mark_cont_spec fl m (n : nat) : (1 <= n)%nat -> (n <= m)%nat ->
  mark_cont (zlen fl) (Z.of_nat n) (Some (fl ++ replicate m false)) = Some (Some ((fl ++ marks n) ++ replicate (m - n) false)).
Proof.
  intros Hn Hm. unfold mark_cont. pose proof (zlen_nonneg fl). rewrite set_range_spec by (rewrite ?zlen_app, ?zlen_replicate; lia). cbn [mbind option_bind].
  replace m with ((n - 1) + (1 + (m - n)))%nat at 1 by lia. rewrite !replicate_split. replace (Z.to_nat (Z.of_nat n - 1)) with (n - 1)%nat by lia.
  rewrite (blit_app_mid fl (replicate (n - 1) false)) by (by rewrite !length_replicate).
  assert (Hz : zlen (fl ++ replicate (n - 1) true) = zlen fl + Z.of_nat n - 1) by (rewrite zlen_app, zlen_replicate; lia). rewrite <- Hz. rewrite app_assoc. change (replicate 1 false) with [false].
  set (hd := fl ++ replicate (n - 1) true) in *. assert (Hz2 : zlen (hd ++ [false] ++ replicate (m - n) false) = zlen hd + (1 + Z.of_nat (m - n))) by (rewrite (zlen_app hd), zlen_app, zlen_replicate; done).
  rewrite set_blit by (pose proof (zlen_nonneg hd); lia). cbn [mbind option_bind].
  rewrite (blit_app_mid hd [false] [false]) by done. unfold hd, marks. by rewrite <- !app_assoc.
Qed.

Section read.
Context {P : Type} `{!FramePool P} (g : geometry) (inv : P -> Prop) `{!FramePoolLaws P g inv}.
Context (rlen : Z) (Hlog : 7 <= g_log g <= 31) (Hcover : (g_first g + g_count g) * fsize g <= rlen) (mem0 : list Z) (ts : bool).
Implicit Types s : bufs P.
Notation rm := (room g).

(** Packets with the pieces they were cut into. *)
Definition batch := list (rxpkt * list (list Z)).

Definition chunks (l : batch) : list (list Z) := concat (map snd l).
Definition flags (l : batch) : list bool := concat (map (fun p => marks (length (snd p))) l).
Definition metas {A} (f : rxpkt -> A) (z : A) (l : batch) : list A := concat (map (fun p => slot_elems (f (fst p)) z (length (snd p))) l).

(** The slots of a call so far hold the packets [l]. *)
Record batch_ok (T : list Z) (max : Z) (chain : bool) (l : batch) (o : outs) s (addrs : list Z) : Prop := mkBatchOk {
  ba_bufs : bufs_ok g inv rlen mem0 T s addrs;
  ba_pieces : Forall (fun p => snd p <> [] /\ concat (snd p) = x_bytes (fst p)) l;
  ba_slots : slots g s addrs (o_lens o) (chunks l);
  ba_many : zlen (chunks l) <= zlen addrs;
  ba_lens : zlen (o_lens o) = max;
  ba_offs : zlen (o_offs o) = max /\ take (length (chunks l)) (o_offs o) = metas x_off zeroOffload l;
  ba_tss : match o_tss o with None => ts = false | Some t => ts = true /\ zlen t = max /\ take (length (chunks l)) t = metas x_stamp 0 l end;
  ba_cont : if chain then o_cont o = Some (flags l ++ replicate (Z.to_nat max - length (chunks l)) false) else o_cont o = None /\ Forall (fun p => length (snd p) = 1%nat) l }.

Lemma chunks_snoc l p : chunks (l ++ [p]) = chunks l ++ snd p.
Proof using. unfold chunks. rewrite map_app, concat_app. cbn. by rewrite app_nil_r. Qed.
Lemma flags_snoc l p : flags (l ++ [p]) = flags l ++ marks (length (snd p)).
Proof using. unfold flags. rewrite map_app, concat_app. cbn. by rewrite app_nil_r. Qed.
Lemma metas_snoc {A} (f : rxpkt -> A) z l p : metas f z (l ++ [p]) = metas f z l ++ slot_elems (f (fst p)) z (length (snd p)).
Proof using. unfold metas. rewrite map_app, concat_app. cbn. by rewrite app_nil_r. Qed.

Lemma length_flags l : Forall (fun p => snd p <> [] /\ concat (snd p) = x_bytes (fst p)) l -> length (flags l) = length (chunks l).
Proof using.
  unfold flags, chunks. induction 1 as [|p l [Hp _] _ IH]; [done|]. cbn [map concat]. rewrite !length_app, IH. f_equal. unfold marks. rewrite length_app, length_replicate. cbn. destruct (snd p); [done|cbn; lia].
Qed.

(** The metadata of one more packet. *)
Lemma put_meta_spec max out n h d tagLen r o off : offloadFor d tagLen r = Some off -> (1 <= n)%nat -> 0 <= out -> out + Z.of_nat n <= max -> zlen (o_offs o) = max ->
  match o_tss o with None => True | Some t => zlen t = max end ->
  exists o', put_meta out (Z.of_nat n) h d tagLen r o = Some o' /\ o_lens o' = o_lens o /\ o_cont o' = o_cont o /\ zlen (o_offs o') = max /\
    take (Z.to_nat (out + Z.of_nat n)) (o_offs o') = take (Z.to_nat out) (o_offs o) ++ slot_elems off zeroOffload n /\
    match o_tss o, o_tss o' with
    | None, None => True
    | Some t, Some t' => zlen t' = max /\ take (Z.to_nat (out + Z.of_nat n)) t' = take (Z.to_nat out) t ++ slot_elems (stamp h) 0 n
    | _, _ => False
    end.
Proof using.
  intros Ho Hn Hout Hm Hz Ht. unfold put_meta. rewrite Ho. cbn [mbind option_bind]. replace (Z.to_nat (Z.of_nat n - 1)) with (n - 1)%nat by lia.
  destruct (set_elems off zeroOffload n out (o_offs o)) as (offs' & E & Hz' & Htk); [done|done|lia|]. destruct (set_at out off (o_offs o)) as [l1|]; [|done]. cbn [mbind option_bind] in E |- *. rewrite E. cbn [mbind option_bind].
  destruct (o_tss o) as [t|].
  - destruct (set_elems (stamp h) 0 n out t) as (t' & E2 & Hz2 & Htk2); [done|done|lia|]. destruct (set_at out (stamp h) t) as [l2|]; [|done]. cbn [mbind option_bind] in E2 |- *. rewrite E2. cbn [mbind option_bind].
    eexists. split; [done|]. cbn. split; [done|]. split; [done|]. split; [lia|]. split; [done|]. split; [lia|done].
  - cbn [mbind option_bind]. eexists. split; [done|]. cbn. split; [done|]. split; [done|]. split; [lia|]. split; [done|done].
Qed.

(** A packet of one or more slots joins the batch. *)
Lemma batch_snoc T max chain l o s addrs p cs lens' cont' o' s' addrs' : batch_ok T max chain l o s addrs ->
  bufs_ok g inv rlen mem0 T s' addrs' -> slots g s' addrs' lens' (chunks l ++ cs) -> cs <> [] -> concat cs = x_bytes p -> zlen (chunks l) + zlen cs <= zlen addrs' -> zlen lens' = max ->
  o_lens o' = lens' -> o_cont o' = cont' -> zlen (o_offs o') = max -> take (Z.to_nat (zlen (chunks l) + zlen cs)) (o_offs o') = take (Z.to_nat (zlen (chunks l))) (o_offs o) ++ slot_elems (x_off p) zeroOffload (length cs) ->
  match o_tss o, o_tss o' with
  | None, None => True
  | Some t, Some t' => zlen t' = max /\ take (Z.to_nat (zlen (chunks l) + zlen cs)) t' = take (Z.to_nat (zlen (chunks l))) t ++ slot_elems (x_stamp p) 0 (length cs)
  | _, _ => False
  end ->
  (if chain then cont' = Some ((flags l ++ marks (length cs)) ++ replicate (Z.to_nat max - length (chunks l) - length cs) false) else cont' = None /\ length cs = 1%nat) ->
  batch_ok T max chain (l ++ [(p, cs)]) o' s' addrs'.
Proof using.
  intros [A1 A2 A3 A4 A5 [A6 A7] A8 A9] B Hs Hne Hcat Hma Hzl Hl Hc Hzo Hto Htt Hcc. subst lens' cont'. replace (Z.to_nat (zlen (chunks l) + zlen cs)) with (length (chunks l) + length cs)%nat in * by (unfold zlen; lia).
  replace (Z.to_nat (zlen (chunks l))) with (length (chunks l)) in * by (unfold zlen; lia).
  constructor; rewrite ?chunks_snoc, ?flags_snoc, ?metas_snoc, ?length_app; cbn [snd fst]; try done.
  - apply Forall_app. split; [done|]. by repeat constructor.
  - by rewrite zlen_app.
  - by rewrite Hto, A7.
  - destruct (o_tss o) as [t|], (o_tss o') as [t'|]; try done. destruct Htt as [H1 ->]. destruct A8 as (? & _ & ->). done.
  - destruct chain; [rewrite Hcc; do 3 f_equal; lia|]. destruct A9 as [_ A9]. destruct Hcc as [-> Hcc]. split; [done|]. apply Forall_app. split; [done|]. by repeat constructor.
Qed.

(** ** One frame *)

(** The queue's frames are too few for the packet at the cursor. *)
Definition starved (T : list Z) (r : ring) : Prop := T = [] \/ exists h, frame_here r h /\ zlen T * rm < zlen (packet_at r h).

Lemma starved_pending T b r : starved T r -> starved T (r_set_pending b r).
Proof using. intros [?|(h & [H1 H2 H3] & Hz)]; [by left|]. right. by exists h. Qed.

(** What a frame or a whole block leaves alone. *)
Record same_ring (r r' : ring) : Prop := mkSameRing {
  sr_mem : r_mem r' = r_mem r; sr_size : r_blockSize r' = r_blockSize r; sr_nr : r_blockNr r' = r_blockNr r; sr_block : r_block r' = r_block r;
  sr_chain : r_chain r' = r_chain r; sr_vnet : r_vnet r' = r_vnet r; sr_packets : r_packets r' = r_packets r }.

#[local] Instance same_ring_preorder : PreOrder same_ring.
Proof using. split; [by constructor|]. intros a b c [] []. constructor; congruence. Qed.

Lemma same_advance next r : same_ring r (advance next r).
Proof using. unfold advance. by destruct (next =? 0). Qed.

Record frame_res (T : list Z) (max : Z) (l : batch) (r : ring) s (st : step) (out' : Z) (r' : ring) (o' : outs) s' (l' : batch) : Prop := mkFrameRes {
  fr_batch : exists addrs', batch_ok T max (r_chain r) (l ++ l') o' s' addrs';
  fr_out : out' = zlen (chunks (l ++ l')) /\ out' <= max;
  fr_ring : ring_ok r';
  fr_same : same_ring r r';
  fr_rej : fp_rejected (s_pool s') = fp_rejected (s_pool s);
  fr_step : match st with
            | Continue => fstep rm max r (map fst l') r' /\ r_numPkts r' < r_numPkts r
            | BreakInner => l' = [] /\ ((r' = r /\ (T = [] \/ l <> [])) \/ (fstep rm max r [] r' /\ r_numPkts r' = 0))
            | BreakBlocks => l' = [] /\ r' = r_set_pending true r /\ (starved T r' \/ l <> [])
            end }.

(** The same batch in buffers that were only added to. *)
Lemma batch_dst T max chain l o s addrs i buf s' addrs' : batch_ok T max chain l o s addrs -> dst_ok g inv rlen mem0 T i s addrs buf s' addrs' -> batch_ok T max chain l o s' addrs'.
Proof using.
  intros [A1 A2 A3 A4 A5 A6 A7 A8] D. constructor; try done; [apply D|by eapply slots_dst|]. destruct (ds_ext _ _ _ _ _ _ _ _ _ _ _ D) as [ext ->]. rewrite zlen_app. pose proof (zlen_nonneg ext). lia.
Qed.

(** Nothing was delivered. *)
Lemma frame_res_none T max l r s st r' o' s' addrs' : batch_ok T max (r_chain r) l o' s' addrs' -> zlen (chunks l) <= max -> ring_ok r' -> same_ring r r' -> fp_rejected (s_pool s') = fp_rejected (s_pool s) ->
  match st with
  | Continue => fstep rm max r [] r' /\ r_numPkts r' < r_numPkts r
  | BreakInner => (r' = r /\ (T = [] \/ l <> [])) \/ (fstep rm max r [] r' /\ r_numPkts r' = 0)
  | BreakBlocks => r' = r_set_pending true r /\ (starved T r' \/ l <> [])
  end -> exists st1 out1 r1 o1 s1 l1, Some (st, zlen (chunks l), r', o', s') = Some (st1, out1, r1, o1, s1) /\ frame_res T max l r s st1 out1 r1 o1 s1 l1.
Proof using.
  intros Hb Hm Hr Hs Hj Hst. exists st, (zlen (chunks l)), r', o', s', []. split; [done|]. constructor; rewrite ?app_nil_r; try done; [eauto|]. by destruct st.
Qed.

Lemma frame_not_here_hdr r h : frameHdr (block_at r + r_frameOff r) r = Some h -> frameInBlock (r_frameOff r) h r = false -> forall h', ~ frame_here r h'.
Proof using. intros E Hb h' [_ E' Hb']. congruence. Qed.

(** The packet fits the slot's buffer. *)
Lemma deliver_one T max l r h o s addrs a : ring_ok r -> hdr_ok h -> frame_here r h -> batch_ok T max (r_chain r) l o s addrs -> zlen (chunks l) < max ->
  addrs !! length (chunks l) = Some a -> tpSnaplen h + tag_len h <= rm ->
  exists s' lens o' p, copy_packet (a + frameHeadroom) rm (data_at r h) (tpSnaplen h) (tag_len h) (tag_tpid h) (u16 (tpVlanTci h)) r s = Some s' /\
    set_at (zlen (chunks l)) (tpSnaplen h + tag_len h) (o_lens o) = Some lens /\
    put_meta (zlen (chunks l)) 1 h (data_at r h) (tag_len h) r (mkOuts lens (o_offs o) (o_tss o) (o_cont o)) = Some o' /\
    rxpkt_at r h p /\ batch_ok T max (r_chain r) (l ++ [(p, [packet_at r h])]) o' s' addrs /\ s_pool s' = s_pool s.
Proof using FramePoolLaws0 Hcover Hlog.
  intros Hr Hh Hf Hb Hm Ha Hfit. destruct (frame_inside r h Hr Hh Hf) as (I1 & I2 & _). destruct (block_range r Hr) as (R1 & R2 & R3 & _). pose proof (zlen_packet r h Hr Hh Hf) as Hz. pose proof (hk_snap _ Hh). pose proof (zlen_nonneg (chunks l)).
  pose proof Hb as [A1 A2 A3 A4 A5 [A6 A7] A8 A9]. assert (Htss : match o_tss o with None => True | Some t => zlen t = max end) by (destruct (o_tss o); [by destruct A8 as (_ & ? & _)|done]). destruct (offloadFor_total r h Hr Hh Hf) as [off Hoff].
  destruct (copy_packet_spec g inv rlen Hlog Hcover mem0 T s addrs (o_lens o) (chunks l) _ a (data_at r h) (tpSnaplen h) (tag_len h) (tag_tpid h) (u16 (tpVlanTci h)) r A1 A3 Ha) as (s' & E & [Ho1 Ho2 Ho3] & Hpool); [lia|lia|lia|lia|destruct (tag_len_cases h) as [[-> _]|[-> ?]]; [left; split; [done|lia]|by right]|lia|].
  fold (packet_at r h) in Ho3. rewrite E. rewrite set_at_Some by lia. set (lens := <[_ := _]> (o_lens o)).
  assert (Hset : set_at (zlen (chunks l)) (zlen (packet_at r h)) (o_lens o) = Some lens) by (rewrite Hz; apply set_at_Some; lia).
  destruct (put_meta_spec max (zlen (chunks l)) 1 h (data_at r h) (tag_len h) r (mkOuts lens (o_offs o) (o_tss o) (o_cont o)) off Hoff) as (o' & E2 & P1 & P2 & P3 & P4 & P5); [lia|lia|lia|done|exact Htss|].
  exists s', lens, o', (mkRxpkt (packet_at r h) off (stamp h)). split; [done|]. split; [done|]. split; [done|]. split; [done|]. split; [|done].
  pose proof (slots_snoc g s' addrs (o_lens o) (chunks l) a (packet_at r h) lens Ho2 Ha ltac:(lia) Ho3 Hset) as Hsl. apply lookup_lt_Some in Ha as Hla.
  eapply (batch_snoc T max (r_chain r) l o s addrs _ _ lens (o_cont o)); try done.
  - cbn. by rewrite app_nil_r.
  - change (zlen [packet_at r h]) with 1. unfold zlen. lia.
  - unfold lens. by rewrite zlen_insert.
  - destruct (r_chain r); [|by destruct A9]. rewrite A9. cbn [length]. f_equal. rewrite <- app_assoc. f_equal. destruct (Z.to_nat max - length (chunks l))%nat as [|k] eqn:Ek; [unfold zlen in Hm; lia|]. cbn. by rewrite Nat.sub_0_r.
Qed.

(** The packet is laid over several slots, or leaves the batch as it was. *)
Lemma deliver_spread T max l r h o s addrs : ring_ok r -> hdr_ok h -> frame_here r h -> r_chain r = true -> batch_ok T max true l o s addrs -> zlen (chunks l) < max -> rm < tpSnaplen h + tag_len h ->
  exists n ok noSlots o' s' addrs', spread (zlen (chunks l)) max (data_at r h) (tpSnaplen h) (tag_len h) (tag_tpid h) (u16 (tpVlanTci h)) r o s = Some (n, ok, noSlots, o', s') /\
    fp_rejected (s_pool s') = fp_rejected (s_pool s) /\
    if ok then exists p cs o2, put_meta (zlen (chunks l)) n h (data_at r h) (tag_len h) r o' = Some o2 /\ rxpkt_at r h p /\ batch_ok T max true (l ++ [(p, cs)]) o2 s' addrs' /\ n = zlen cs /\ zlen (chunks l) + n <= max
    else batch_ok T max true l o' s' addrs' /\ (if noSlots then max - zlen (chunks l) else zlen T - zlen (chunks l)) * rm < zlen (packet_at r h).
Proof using FramePoolLaws0 Hcover Hlog.
  intros Hr Hh Hf Hch Hb Hm Hbig. destruct (frame_inside r h Hr Hh Hf) as (I1 & I2 & _). destruct (block_range r Hr) as (R1 & R2 & R3 & _). pose proof (zlen_packet r h Hr Hh Hf) as Hz. pose proof (hk_snap _ Hh). pose proof (zlen_nonneg (chunks l)).
  pose proof (room_bounds g Hlog) as Hrb. pose proof Hb as [A1 A2 A3 A4 A5 [A6 A7] A8 A9]. assert (Htss : match o_tss o with None => True | Some t => zlen t = max end) by (destruct (o_tss o); [by destruct A8 as (_ & ? & _)|done]). unfold spread.
  destruct (packet_segs_spec (data_at r h) (tpSnaplen h) (tag_len h) (tag_tpid h) (u16 (tpVlanTci h)) r) as (segs & -> & Hcat & Hpc); [lia|lia|lia|destruct (tag_len_cases h) as [[-> _]|[-> ?]]; [left; split; [done|lia]|by right]|].
  cbn [mbind option_bind]. destruct (Hpc ltac:(lia)) as [Hp Hrem]. fold (packet_at r h) in Hcat.
  destruct (spread_loop_spec g inv rlen Hlog Hcover mem0 T (zlen (chunks l)) max (packet_at r h) (chunks l) (o_lens o) s eq_refl) with (fuel := Z.to_nat (max - zlen (chunks l))) (n := 0) (at_ := 0) (segs := segs) (lens := o_lens o) (s := s) (addrs := addrs) (cs := @nil (list Z))
    as (n & ok & noSlots & lens' & s' & addrs' & E & SE); try done; try lia.
  { intros E. rewrite E in Hz. change (zlen []) with 0 in Hz. lia. } { by rewrite app_nil_r. } { by rewrite Hrem. }
  rewrite E. cbn [mbind option_bind]. destruct SE as [S1 S2 S3 S4 S5 S6]. exists n, ok, noSlots. destruct ok.
  - destruct S6 as (cs & Hne & Hcc & -> & Hle & Hsl & Hma).
    assert (Hcs : (1 <= length cs)%nat) by (destruct cs; [done|cbn; lia]).
    assert (Hmc : mark_cont (zlen (chunks l)) (zlen cs) (o_cont o) = Some (Some ((flags l ++ marks (length cs)) ++ replicate (Z.to_nat max - length (chunks l) - length cs) false))).
    { rewrite A9. replace (zlen (chunks l)) with (zlen (flags l)) by (unfold zlen; by rewrite length_flags). apply mark_cont_spec; [done|unfold zlen in Hle; lia]. }
    rewrite Hmc. cbn [mbind option_bind]. eexists _, s', addrs'. split; [done|]. split; [done|]. destruct (offloadFor_total r h Hr Hh Hf) as [off Hoff].
    set (o1 := mkOuts lens' (o_offs o) (o_tss o) _). destruct (put_meta_spec max (zlen (chunks l)) (length cs) h (data_at r h) (tag_len h) r o1 off Hoff) as (o2 & E2 & P1 & P2 & P3 & P4 & P5); [done|lia|unfold zlen in *; lia|done|exact Htss|].
    exists (mkRxpkt (packet_at r h) off (stamp h)), cs, o2. split; [done|]. split; [done|]. split; [|done].
    eapply (batch_snoc T max true l o s addrs _ cs lens' (o_cont o1)); try done. lia.
  - cbn [mbind option_bind]. eexists _, s', addrs'. split; [done|]. split; [done|]. split; [|done]. constructor; try done. cbn. lia.
Qed.

Lemma read_frame_spec T max l r o s addrs : ring_ok r -> 0 < r_numPkts r -> batch_ok T max (r_chain r) l o s addrs -> zlen (chunks l) < max ->
  exists st out' r' o' s' l', read_frame (block_at r) max (zlen (chunks l)) r o s = Some (st, out', r', o', s') /\ frame_res T max l r s st out' r' o' s' l'.
Proof using FramePoolLaws0 Hcover Hlog.
  intros Hr Hn Hb Hm. unfold read_frame. pose proof (zlen_nonneg (chunks l)). pose proof (rk_off _ Hr).
  assert (Hcorrupt : (forall h, ~ frame_here r h) -> exists st1 out1 r1 o1 s1 l1, Some (BreakInner, zlen (chunks l), r_cursor (r_frameOff r) 0 (r_count 1 0 r), o, s) = Some (st1, out1, r1, o1, s1) /\ frame_res T max l r s st1 out1 r1 o1 s1 l1).
  { intros Hno. eapply (frame_res_none T max l r s BreakInner); [done|lia|apply cursor_ok; [by apply count_ok|cbn; lia|lia]|by constructor|done|]. right. split; [|done]. by apply RCorrupt. }
  destruct (frameHdrFits (r_frameOff r) r) eqn:Hfit; cbn [negb]; [|apply Hcorrupt; intros h [Hf _ _]; congruence].
  pose proof (fits_range r Hr Hfit). destruct (block_range r Hr) as (R1 & R2 & R3 & _). pose proof (rk_size _ Hr). rewrite (u32_small (block_at r + r_frameOff r)) by lia.
  destruct (frameHdr_Some (block_at r + r_frameOff r) r (rk_bytes _ Hr) ltac:(lia) ltac:(lia)) as (h & Hh & Hok). rewrite Hh. cbn [mbind option_bind].
  destruct (frameInBlock (r_frameOff r) h r) eqn:Hin; cbn [negb]; [|apply Hcorrupt; by eapply frame_not_here_hdr].
  pose proof (mkFrameHere r h Hfit Hh Hin) as Hhere. destruct (frame_inside r h Hr Hok Hhere) as (I1 & I2 & _). pose proof (zlen_packet r h Hr Hok Hhere) as Hzp.
  destruct (dst_spec g inv rlen Hlog Hcover mem0 T (zlen (chunks l)) s addrs (ba_bufs _ _ _ _ _ _ _ Hb)) as (buf & s1 & addrs1 & -> & D); [pose proof (ba_many _ _ _ _ _ _ _ Hb); lia|]. cbn [mbind option_bind].
  pose proof (batch_dst _ _ _ _ _ _ _ _ _ _ _ Hb D) as Hb1. pose proof (ds_rej _ _ _ _ _ _ _ _ _ _ _ D) as Hj1. destruct buf as [[addr len]|].
  2:{ eapply (frame_res_none T max l r s BreakInner); [done|lia|done|by constructor|done|]. left. split; [done|]. destruct (ds_buf _ _ _ _ _ _ _ _ _ _ _ D) as [HzT _]. destruct l; [left|by right]. apply nil_length_inv. change (zlen (chunks [])) with 0 in HzT. unfold zlen in HzT. lia. }
  destruct (ds_buf _ _ _ _ _ _ _ _ _ _ _ D) as (a & Hla & -> & ->). replace (Z.to_nat (zlen (chunks l))) with (length (chunks l)) in Hla by (unfold zlen; lia).
  pose proof (hk_snap _ Hok). pose proof (hk_mac _ Hok). unfold data_at in I1, I2. rewrite (u32_small (block_at r + r_frameOff r + tpMac h)) by lia. fold (data_at r h) in *.
  destruct (advance_ok (tpNextOffset h) r Hr Hn) as [Hadv Hdec].
  destruct (Z.ltb_spec (tpSnaplen h) (tpLen h)) as [Hclip|Hnclip].
  { destruct (advance_ok (tpNextOffset h) (r_count 1 0 r) (count_ok 1 0 r Hr) Hn) as [Hadv1 Hdec1]. eapply (frame_res_none T max l r s Continue); [done|lia|done|etrans; [|apply same_advance]; by constructor|done|]. split; [|done]. by apply RClipped. }
  fold (tagged_hdr h). fold (tag_len h). fold (tag_tpid h). rewrite Z.gtb_ltb. destruct (Z.ltb_spec rm (tpSnaplen h + tag_len h)) as [Hbig|Hfits].
  - destruct (r_chain r) eqn:Hchain; cbn [negb].
    2:{ destruct (advance_ok (tpNextOffset h) (r_count 1 0 r) (count_ok 1 0 r Hr) Hn) as [Hadv1 Hdec1]. eapply (frame_res_none T max l r s Continue); [by rewrite Hchain|lia|done|etrans; [|apply same_advance]; by constructor|done|]. split; [|done]. apply RTooBig; try done. lia. }
    destruct (deliver_spread T max l r h o s1 addrs1 Hr Hok Hhere Hchain Hb1 Hm Hbig) as (n & ok & noSlots & o2 & s2 & addrs2 & -> & Hj2 & Hres). cbn [mbind option_bind]. destruct ok; cbn [negb].
    + destruct Hres as (p & cs & o3 & -> & Hp & Hb3 & -> & Hle). cbn [mbind option_bind]. eexists _, _, _, _, _, [(p, cs)]. split; [done|]. assert (Hzc : zlen (chunks (l ++ [(p, cs)])) = zlen (chunks l) + zlen cs) by (by rewrite chunks_snoc, zlen_app).
      constructor; try done; [exists addrs2; by rewrite Hchain|apply same_advance|congruence|]. split; [|done]. by eapply RDeliver.
    + destruct Hres as [Hb2 Hwhy]. destruct (noSlots && (zlen (chunks l) =? 0)) eqn:Eno.
      * apply andb_true_iff in Eno as [-> E0]. apply Z.eqb_eq in E0. destruct (advance_ok (tpNextOffset h) (r_count 1 1 r) (count_ok 1 1 r Hr) Hn) as [Hadv1 Hdec1].
        eapply (frame_res_none T max l r s Continue); [rewrite Hchain; exact Hb2|lia|done|etrans; [|apply same_advance]; by constructor|congruence|]. split; [|done]. apply RBatchTooSmall; try done. rewrite E0, Z.sub_0_r in Hwhy. done.
      * eapply (frame_res_none T max l r s BreakBlocks); [rewrite Hchain; exact Hb2|lia|by apply pending_ok|by constructor|congruence|]. split; [done|]. destruct l as [|p0 l0]; [|by right]. left. apply starved_pending. right. exists h. split; [done|]. destruct noSlots; [done|]. change (zlen (chunks [])) with 0 in Hwhy. by rewrite Z.sub_0_r in Hwhy.
  - destruct (deliver_one T max l r h o s1 addrs1 a Hr Hok Hhere Hb1 Hm Hla Hfits) as (s2 & lens & o2 & p & -> & E2 & E3 & Hp & Hb2 & Hpool). cbn [mbind option_bind]. rewrite E2. cbn [mbind option_bind]. rewrite E3. cbn [mbind option_bind].
    eexists _, _, _, _, _, [(p, [packet_at r h])]. split; [done|]. assert (Hzc : zlen (chunks (l ++ [(p, [packet_at r h])])) = zlen (chunks l) + 1) by (by rewrite chunks_snoc, zlen_app).
    constructor; try done; [by exists addrs1|lia|apply same_advance|by rewrite Hpool|]. split; [|done]. by eapply RDeliver.
Qed.

(** ** A block *)

Record block_res (T : list Z) (max : Z) (l : batch) (r : ring) s (brk : bool) (out' : Z) (r' : ring) (o' : outs) s' (l' : batch) : Prop := mkBlockRes {
  br_batch : exists addrs', batch_ok T max (r_chain r) (l ++ l') o' s' addrs';
  br_out : out' = zlen (chunks (l ++ l')) /\ out' <= max;
  br_ring : ring_ok r';
  br_same : same_ring r r';
  br_rej : fp_rejected (s_pool s') = fp_rejected (s_pool s);
  br_steps : rsteps rm max true r (map fst l') true r';
  br_pending : r_pending r' = if brk then true else r_pending r;
  br_end : if brk then starved T r' \/ l ++ l' <> [] else r_numPkts r' = 0 \/ out' = max \/ T = [] \/ l ++ l' <> [] }.

Lemma block_res_now T max l r o s addrs : ring_ok r -> batch_ok T max (r_chain r) l o s addrs -> zlen (chunks l) <= max -> r_numPkts r <= 0 \/ max <= zlen (chunks l) ->
  exists brk out' r' o' s' l', Some (false, zlen (chunks l), r, o, s) = Some (brk, out', r', o', s') /\ block_res T max l r s brk out' r' o' s' l'.
Proof using.
  intros Hr Hb Hm He. eexists _, _, _, _, _, []. split; [done|]. pose proof (rk_pkts _ Hr). constructor; rewrite ?app_nil_r; try done; [eauto|constructor|lia].
Qed.

Lemma read_block_spec T max : forall fuel l r o s addrs, ring_ok r -> batch_ok T max (r_chain r) l o s addrs -> zlen (chunks l) <= max -> r_numPkts r <= Z.of_nat fuel ->
  exists brk out' r' o' s' l', read_block fuel (block_at r) max (zlen (chunks l)) r o s = Some (brk, out', r', o', s') /\ block_res T max l r s brk out' r' o' s' l'.
Proof using FramePoolLaws0 Hcover Hlog.
  induction fuel as [|fuel IH]; intros l r o s addrs Hr Hb Hm Hf; cbn [read_block]; rewrite Z.gtb_ltb.
  { rewrite (proj2 (Z.ltb_ge 0 _)) by lia. eapply block_res_now; try done. lia. }
  destruct (Z.ltb_spec 0 (r_numPkts r)) as [Hn|Hn]; cbn [andb]; [|eapply block_res_now; try done; lia]. destruct (Z.ltb_spec (zlen (chunks l)) max) as [Hlt|Hge]; [|eapply block_res_now; try done; lia].
  destruct (read_frame_spec T max l r o s addrs Hr Hn Hb Hlt) as (st & out1 & r1 & o1 & s1 & l1 & -> & [(addrs1 & F1) (F2 & F2') F3 F4 F5 F6]). cbn [mbind option_bind]. destruct st.
  - destruct F6 as [Hstep Hdec]. subst out1. assert (Hba : block_at r1 = block_at r) by (unfold block_at; by rewrite (sr_block _ _ F4), (sr_size _ _ F4)). rewrite <- Hba.
    destruct (IH (l ++ l1) r1 o1 s1 addrs1) as (brk & out' & r' & o' & s' & l2 & -> & [B1 B2 B3 B4 B5 B6 Bp B7]); [done|by rewrite (sr_chain _ _ F4)|done|lia|].
    exists brk, out', r', o', s', (l1 ++ l2). split; [done|]. rewrite (sr_chain _ _ F4) in B1. rewrite <- app_assoc in *. constructor; try done; [by etrans|congruence| |by rewrite Bp, (fstep_pending _ _ _ _ _ Hstep)]. rewrite map_app. econstructor; [by apply RFrame|done].
  - destruct F6 as [-> Hw]. exists false, out1, r1, o1, s1, []. split; [done|]. constructor; try done; [by exists addrs1| | |]; destruct Hw as [[-> Hw]|[Hw1 Hw2]]; [constructor|by apply rsteps_one, RFrame|done|by eapply fstep_pending|right; right; by rewrite app_nil_r|by left].
  - destruct F6 as (-> & -> & Hw). eexists true, out1, _, o1, s1, []. split; [done|]. constructor; try done; [by exists addrs1|by apply rsteps_one, RNote|]. by rewrite app_nil_r.
Qed.

(** ** The ring *)

Record read_res (T : list Z) (max : Z) (l : batch) (r : ring) s (out' : Z) (r' : ring) (o' : outs) s' (l' : batch) : Prop := mkReadRes {
  re_batch : exists addrs', batch_ok T max (r_chain r) (l ++ l') o' s' addrs';
  re_out : out' = zlen (chunks (l ++ l')) /\ out' <= max;
  re_ring : ring_ok r';
  re_conf : r_chain r' = r_chain r /\ r_vnet r' = r_vnet r /\ r_packets r' = r_packets r;
  re_rej : fp_rejected (s_pool s') = fp_rejected (s_pool s);
  re_steps : rsteps rm max (r_pending r) r (map fst l') (r_pending r') r';
  re_end : out' = max \/ idle r' \/ starved T r' \/ l ++ l' <> [] }.

Lemma read_blocks_spec T max b0 : forall (fuel : nat) l r o s addrs (j : Z), ring_ok r -> batch_ok T max (r_chain r) l o s addrs -> zlen (chunks l) <= max ->
  0 <= j -> j + Z.of_nat fuel = r_blockNr r -> r_block r = (b0 + j) mod r_blockNr r -> (forall i, 0 <= i < j -> owned r ((b0 + i) mod r_blockNr r)) ->
  exists out' r' o' s' l', read_blocks fuel max (zlen (chunks l)) r o s = Some (out', r', o', s') /\ read_res T max l r s out' r' o' s' l'.
Proof using FramePoolLaws0 Hcover Hlog.
  induction fuel as [|fuel IH]; intros l r o s addrs j Hr Hb Hm Hj Hjf Hblk Hown; cbn [read_blocks];
    (destruct (Z.ltb_spec (zlen (chunks l)) max) as [Hlt|Hge]; [|eexists _, _, _, _, []; split; [done|]; constructor; rewrite ?app_nil_r; try done; [eauto|constructor|lia]]);
    destruct (blockDesc_Some r Hr) as (bd & Hbd & Hnp & Hfirst); rewrite Hbd; cbn [mbind option_bind].
  - assert (Ho : owned r (r_block r)). { rewrite Hblk. replace j with (0 + 1 * r_blockNr r) by lia. rewrite Z.add_assoc, Z_mod_plus_full. apply Hown. pose proof (rk_nr _ Hr). lia. }
    rewrite (owned_desc r bd Hr Hbd Ho). cbn. eexists _, _, _, _, []. split; [done|]. constructor; rewrite ?app_nil_r; try done; [eauto|constructor|]. right. by left.
  - destruct (Z.eqb_spec (Z.land (b_blockStatus bd) tpStatusUser) 0) as [Hk|Huser].
    { eexists _, _, _, _, []. split; [done|]. constructor; rewrite ?app_nil_r; try done; [eauto|constructor|]. right. left. exists (b_blockStatus bd). split; [|done].
      destruct (block_range r Hr) as (_ & _ & _ & E). unfold blockDesc in Hbd. rewrite E in Hbd. unfold block_at in Hbd. destruct (get_le 4 (r_block r * r_blockSize r + 8) (r_mem r)) as [v|]; [|done]. cbn [mbind option_bind] in Hbd.
      destruct (get_le 4 (r_block r * r_blockSize r + 12) (r_mem r)) as [v1|]; [|done]. cbn [mbind option_bind] in Hbd. destruct (get_le 4 (r_block r * r_blockSize r + 16) (r_mem r)) as [v2|]; [|done]. cbn [mbind option_bind] in Hbd. by injection Hbd as <-. }
    set (r1 := r_set_pending false (if r_pending r then r else r_cursor (b_offsetToFirst bd) (b_numPkts bd) r)).
    assert (Hr1 : ring_ok r1) by (apply pending_ok; destruct (r_pending r); [done|by apply cursor_ok]). assert (Hsame1 : same_ring r r1) by (unfold r1; destruct (r_pending r); by constructor).
    assert (Hopen : rsteps rm max (r_pending r) r [] true r1) by (unfold r1; destruct (r_pending r); [by apply rsteps_one, RNote|eapply rsteps_silent; [by apply rsteps_one, ROpen|by apply rsteps_one, RNote]]). assert (Hp1 : r_pending r1 = false) by done. destruct (block_range r Hr) as (_ & _ & _ & Eb). rewrite Eb. assert (Hba : block_at r1 = block_at r) by (unfold block_at; by rewrite (sr_block _ _ Hsame1), (sr_size _ _ Hsame1)). rewrite <- Hba.
    destruct (read_block_spec T max (Z.to_nat (r_numPkts r1)) l r1 o s addrs) as (brk & out2 & r2 & o2 & s2 & l2 & -> & [(addrs2 & B1) [B2 B2'] B3 B4 B5 B6 Bp B7]); [done|by rewrite (sr_chain _ _ Hsame1)|done|pose proof (rk_pkts _ Hr1); lia|].
    rewrite (sr_chain _ _ Hsame1) in B1. cbn [mbind option_bind]. assert (Hs2 : same_ring r r2) by (by etrans). assert (Hst2 : rsteps rm max (r_pending r) r (map fst l2) true r2) by (by eapply rsteps_silent).
    destruct brk.
    { exists out2, r2, o2, s2, l2. split; [done|]. constructor; try done; [eauto|by destruct Hs2|by rewrite Bp|]. destruct B7; auto. }
    destruct (Z.eqb_spec (r_numPkts r2) 0) as [Hz|Hnz]; cbn [negb].
    2:{ eexists out2, (r_set_pending true r2), o2, s2, l2. split; [done|]. constructor; try done; [eauto|by apply pending_ok|by destruct Hs2| |].
        - rewrite <- (app_nil_r (map fst l2)). eapply rsteps_trans; [done|]. apply rsteps_one, RNote.
        - destruct B7 as [?|[?|[?|?]]]; [done|by left|right; right; left; by left|]. by right; right; right. }
    destruct (release_ok r2 B3) as (mem & Hset & Hr3 & _). rewrite Hset. cbn [mbind option_bind]. subst out2.
    destruct (owned_release r2 mem B3 Hset) as [Hme Hrest]. pose proof (rk_nr _ Hr) as Hnr. assert (Enr : r_blockNr r2 = r_blockNr r) by apply Hs2.
    destruct (IH (l ++ l2) (r_release mem r2) o2 s2 addrs2 (j + 1)) as (out3 & r3 & o3 & s3 & l3 & E3 & [C1 C2 C3 C4 C5 C6 C7]); try done.
    { cbn. by rewrite (sr_chain _ _ Hs2). } { lia. } { cbn. lia. } { cbn. rewrite Enr, (sr_block _ _ Hs2), Hblk, Zplus_mod_idemp_l. f_equal. lia. }
    { intros i Hi. cbn [r_release r_blockNr]. rewrite Enr. destruct (decide (i = j)) as [->|Hne].
      - rewrite <- Hblk, <- (sr_block _ _ Hs2). exact Hme.
      - apply Hrest; [rewrite Enr; apply Z.mod_pos_bound; lia|]. eapply owned_same; [apply Hs2|apply Hs2|]. apply Hown. lia. }
    rewrite E3. exists out3, r3, o3, s3, (l2 ++ l3). split; [done|]. cbn [r_release r_chain r_vnet r_packets] in C1, C4. rewrite (sr_chain _ _ Hs2) in C1, C4. rewrite <- app_assoc in *. constructor; try done.
    + by rewrite (sr_vnet _ _ Hs2), (sr_packets _ _ Hs2) in C4.
    + congruence.
    + rewrite map_app. eapply rsteps_trans; [done|]. eapply rsteps_silent; [by apply rsteps_one, RRelease|]. cbn [r_release r_pending] in C6. by rewrite Bp, Hp1 in C6.
Qed.

(** [read] on a fresh batch. *)
Lemma ring_read_spec T max r o s : ring_ok r -> 0 <= max -> batch_ok T max (r_chain r) [] o s [] ->
  exists out' r' o' s' l', ring_read max r o s = Some (out', r_delivered out' r', o', s') /\ read_res T max [] r s out' r' o' s' l'.
Proof using FramePoolLaws0 Hcover Hlog.
  intros Hr Hm Hb. unfold ring_read. pose proof (rk_nr _ Hr). pose proof (rk_block _ Hr).
  destruct (read_blocks_spec T max (r_block r) (Z.to_nat (r_blockNr r)) [] r o s [] 0) as (out' & r' & o' & s' & l' & E & HR); try done; try lia.
  { rewrite Z.add_0_r, Z.mod_small by lia. done. }
  change (zlen (chunks [])) with 0 in E. rewrite E. cbn [mbind option_bind]. by exists out', r', o', s', l'.
Qed.
End read.
