(* ===== verification/AfRx.v ===== *)
(** The receive queue of the AF_PACKET backend: afpacket/rxqueue.go.

    The scratch slices are part of the queue, since what a call does not write
    is what an earlier one left there.  What happens while [Poll] waits is an
    argument, turn by turn; the mutex that guards the mapping against [Close] is
    left out, since a turn is atomic; the kernel's counters are an argument. *)

From stdpp Require Import prelude list numbers strings.
From S2P Require Import Prelude Bytes Desc Pool Mlx5Region AfTx Csum AfRing.

Record rx_counters : Set := mkRxCounters {
  m_bytes : Z; m_polls : Z; m_batches : Z; m_empty : Z; m_badCsum : Z; m_drops : Z; m_freeze : Z
}.

Record AfRx (P : Type) : Type := mkAfRx {
  ar_ring : ring; ar_mapped : bool; ar_pool : P;
  ar_lens : list Z; ar_cont : list bool; ar_offs : list Offload; ar_tss : list Z;
  ar_n : rx_counters; ar_closed : bool
}.
Arguments mkAfRx {P}. Arguments ar_ring {P}. Arguments ar_mapped {P}. Arguments ar_pool {P}. Arguments ar_lens {P}. Arguments ar_cont {P}.
Arguments ar_offs {P}. Arguments ar_tss {P}. Arguments ar_n {P}. Arguments ar_closed {P}.

(** [if cap(l) < max { l = make([]T, max) }]. *)
Definition scratch {A} (max : Z) (zero : A) (l : list A) : list A := if zlen l <? max then replicate (Z.to_nat max) zero else l.

(** What was written in [l[:max]] is in [l]. *)
Definition write_back {A} (part l : list A) : list A := blit 0 part l.

Section queue.
Context {P : Type} `{!FramePool P}.
Implicit Types q : AfRx P.

Definition af_newRxQueue (newPool : Z -> Z -> Z -> option P) (rg : region) (rng : ring) (firstFrame frames : Z) : option (AfRx P) :=
  p ← newPool firstFrame frames (rg_frameSize rg);
  let n := Z.to_nat rxFramesPerBlock in
  Some (mkAfRx rng true p (replicate n 0) [] (replicate n zeroOffload) [] (mkRxCounters 0 0 0 0 0 0 0) false).

Definition ar_with_pool (p : P) q : AfRx P :=
  mkAfRx (ar_ring q) (ar_mapped q) p (ar_lens q) (ar_cont q) (ar_offs q) (ar_tss q) (ar_n q) (ar_closed q).

Definition ar_Fill (n : Z) q : Z := if ar_closed q then 0 else Z.min n (fp_Len (ar_pool q)).

(** How many packets the current block holds. *)
Definition ready q : option Z :=
  if negb (ar_mapped q) then Some 0
  else if r_pending (ar_ring q) then Some (r_numPkts (ar_ring q))
  else
    bd ← blockDesc (r_block (ar_ring q)) (ar_ring q);
    Some (if Z.land (b_blockStatus bd) tpStatusUser =? 0 then 0 else b_numPkts bd).

(** ** Poll *)

(** A turn of the loop: the time left until the deadline, in nanoseconds, and
    what poll(2) answers.  By then the kernel may have written into the ring,
    and another goroutine may have closed the queue. *)
Inductive poll_answer : Type :=
| PollEINTR
| PollFailed
| Polled (n revents0 revents1 : Z) (now : AfRx P).
Record poll_turn : Type := mkTurn { pt_left : Z; pt_answer : poll_answer }.

Definition POLLERR : Z := 0x8.
Definition POLLHUP : Z := 0x10.
Definition POLLNVAL : Z := 0x20.

(** [None] is a poll that has not returned when the turns are over. *)
Fixpoint poll_wait (timeout : Z) (turns : list poll_turn) q : option (res Z * AfRx P) :=
  match turns with
  | [] => None
  | mkTurn remaining answer :: turns =>
      if (timeout >? 0) && (remaining <=? 0) then Some (Ok 0, q)
      else
        match answer with
        | PollEINTR => poll_wait timeout turns q
        | PollFailed => Some (Err (Errorf "afpacket: poll"), q)
        | Polled n revents0 revents1 q =>
            if ar_closed q || negb (revents1 =? 0) then Some (Err (Sentinel ErrClosed), q)
            else if negb (Z.land revents0 (Z.lor (Z.lor POLLERR POLLHUP) POLLNVAL) =? 0) then Some (Err (Errorf "afpacket: poll reported an error on the socket"), q)
            else if n =? 0 then Some (Ok 0, q)
            else
              r ← ready q;
              if r >? 0 then Some (Ok r, q) else poll_wait timeout turns q
        end
  end.

Definition count_poll (n : rx_counters) : rx_counters :=
  mkRxCounters (m_bytes n) (u64 (m_polls n + 1)) (m_batches n) (m_empty n) (m_badCsum n) (m_drops n) (m_freeze n).

Definition ar_Poll (timeout : Z) (turns : list poll_turn) q : option (res Z * AfRx P) :=
  if ar_closed q then Some (Err (Sentinel ErrClosed), q)
  else
    let q := mkAfRx (ar_ring q) (ar_mapped q) (ar_pool q) (ar_lens q) (ar_cont q) (ar_offs q) (ar_tss q) (count_poll (ar_n q)) (ar_closed q) in
    n ← ready q;
    if n >? 0 then Some (Ok n, q)
    else if timeout =? 0 then Some (Ok 0, q)
    else poll_wait timeout turns q.

Definition ar_NumReceived q : option Z := if ar_closed q then Some 0 else ready q.
Definition ar_NumFreeFillSlots q : Z := fp_Len (ar_pool q).
Definition ar_NumFreeFrames q : Z := fp_Len (ar_pool q).
Definition ar_Err q : option error := if ar_closed q then Some (Sentinel ErrClosed) else None.

Definition ar_Recycle (ds : list Desc) q : option (AfRx P) :=
  p ← foldM (fun p d => fp_Push (fp_Base p (Addr d)) p) ds (ar_pool q);
  Some (ar_with_pool p q).

(** The descriptors with their lengths and marks. *)
Fixpoint finish_descs (descs : list Desc) (lens : list Z) (cont : option (list bool)) : option (list Desc * Z) :=
  match descs with
  | [] => Some ([], 0)
  | d :: descs =>
      n ← head lens;
      c ← match cont with None => Some false | Some c => head c end;
      '(ds, bytes) ← finish_descs descs (tail lens) (tail <$> cont);
      Some (mkDesc (Addr d) (u32 n) (if (c : bool) then Z.lor (Options d) OptContinued else Options d) :: ds, n + bytes)
  end.

(** Every frame as [region.Frame] gives it, nil as no bytes; the frames of a
    batch are disjoint, so they may be read before any is written. *)
Definition frames_of (rg : region) (ds : list Desc) : option (list (list Z)) :=
  mapM (fun d => f ← af_Frame rg d; Some (default [] f)) ds.

Fixpoint store_frames (ds : list Desc) (frames : list (list Z)) (rg : region) : region :=
  match ds, frames with
  | d :: ds, f :: frames => store_frames ds frames (rg_store (Addr d) f rg)
  | _, _ => rg
  end.

Definition complete_batch (rg : region) (ds : list Desc) (offs : list Offload) (cont : option (list bool)) : option (list Offload * region * Z) :=
  frames ← frames_of rg ds;
  '(offs, frames, bad) ← completeOffloads cont 0 offs frames;
  Some (offs, store_frames ds frames rg, bad).

Definition count_received (got bytes : Z) (empty : bool) (bad : Z) (n : rx_counters) : rx_counters :=
  mkRxCounters (if got >? 0 then u64 (m_bytes n + bytes) else m_bytes n) (m_polls n) (if got >? 0 then u64 (m_batches n + 1) else m_batches n)
    (if empty then u64 (m_empty n + 1) else m_empty n) (if bad =? 0 then m_badCsum n else u64 (m_badCsum n + bad)) (m_drops n) (m_freeze n).

Definition receive (max : Z) (wantTimestamps : bool) (rg : region) q : option (list Desc * list Offload * list Z * region * AfRx P) :=
  if ar_closed q || (max <=? 0) then Some ([], [], [], rg, q)
  else
    let r := ar_ring q in
    let lens0 := scratch max 0 (ar_lens q) in
    let offs0 := scratch max zeroOffload (ar_offs q) in
    let cont0 := if r_chain r then scratch max false (ar_cont q) else ar_cont q in
    let tss0 := if wantTimestamps then scratch max 0 (ar_tss q) else ar_tss q in
    lens ← slice 0 max lens0;
    offs ← slice 0 max offs0;
    tss ← (if wantTimestamps then t ← slice 0 max tss0; Some (Some t) else Some None);
    let cont := if r_chain r then Some (replicate (Z.to_nat max) false) else None in
    '(got, r, o, s) ← ring_read max r (mkOuts lens offs tss cont) (mkBufs (ar_pool q) [] rg);
    let rg := s_rg s in
    surplus ← slice got (zlen (s_descs s)) (s_descs s);
    p ← foldM (fun p d => fp_Push (fp_Base p (Addr d)) p) (reverse surplus) (s_pool s);
    taken ← slice 0 got (s_descs s);
    '(descs, bytes) ← finish_descs taken (o_lens o) (o_cont o);
    offs ← slice 0 got (o_offs o);
    let empty := (got =? 0) && (fp_Len p =? 0) in
    '(offs, rg, bad) ← (if negb (r_vnet r) then Some (offs, rg, 0)
                        else
                          completed ← match o_cont o with None => Some None | Some c => c ← slice 0 got c; Some (Some c) end;
                          complete_batch rg descs offs completed);
    stamps ← match o_tss o with None => Some [] | Some t => slice 0 got t end;
    Some (descs, offs, stamps, rg,
      mkAfRx r (ar_mapped q) p (write_back (o_lens o) lens0) (match o_cont o with None => cont0 | Some c => write_back c cont0 end)
        (write_back offs (write_back (o_offs o) offs0)) (match o_tss o with None => tss0 | Some t => write_back t tss0 end)
        (count_received got bytes empty bad (ar_n q)) (ar_closed q)).

Definition ar_Receive (max : Z) (rg : region) q : option (list Desc * region * AfRx P) :=
  '(ds, _, _, rg, q) ← receive max false rg q; Some (ds, rg, q).
Definition ar_ReceiveOffload (max : Z) (rg : region) q : option (list Desc * list Offload * region * AfRx P) :=
  '(ds, os, _, rg, q) ← receive max false rg q; Some (ds, os, rg, q).
Definition ar_ReceiveTimestamps (max : Z) (rg : region) q : option (list Desc * list Z * region * AfRx P) :=
  '(ds, _, ts, rg, q) ← receive max true rg q; Some (ds, ts, rg, q).

(** [st] is what PACKET_STATISTICS answers: drops and freezes since the last
    time it was asked. *)
Definition readKernelStats (st : option (Z * Z)) q : AfRx P :=
  match st with
  | None => q
  | Some (drops, freeze) =>
      let n := ar_n q in
      mkAfRx (ar_ring q) (ar_mapped q) (ar_pool q) (ar_lens q) (ar_cont q) (ar_offs q) (ar_tss q)
        (mkRxCounters (m_bytes n) (m_polls n) (m_batches n) (m_empty n) (m_badCsum n) (u64 (m_drops n + drops)) (u64 (m_freeze n + freeze))) (ar_closed q)
  end.

Record AfRxStats : Set := mkAfRxStats {
  st_Packets : Z; st_Batches : Z; st_Bytes : Z; st_Polls : Z; st_PoolEmpty : Z; st_Errors : Z; st_Dropped : Z;
  st_freeze : Z; st_bad_checksum : Z; st_oversize : Z; st_batch_too_small : Z; st_pool_rejected : Z
}.
Definition ar_Stats (st : option (Z * Z)) q : AfRxStats * AfRx P :=
  let q := if ar_closed q then q else readKernelStats st q in
  let n := ar_n q in let r := ar_ring q in
  (mkAfRxStats (r_packets r) (m_batches n) (m_bytes n) (m_polls n) (m_empty n) (u64 (r_oversize r + m_badCsum n)) (m_drops n)
     (m_freeze n) (m_badCsum n) (r_oversize r) (r_batchTooSmall r) (fp_rejected (ar_pool q)), q).

(** The queue closes once; the mapping is gone after. *)
Definition ar_Close (st : option (Z * Z)) q : AfRx P :=
  if ar_closed q then q
  else
    let q := readKernelStats st q in
    mkAfRx (ar_ring q) false (ar_pool q) (ar_lens q) (ar_cont q) (ar_offs q) (ar_tss q) (ar_n q) true.
End queue.
