(* ===== verification/AfRxThms.v ===== *)
(** [Receive]: the packets of the ring, in frames of the queue. *)

From stdpp Require Import prelude list numbers strings.
From S2P Require Import Prelude Bytes Desc Pool Mlx5Region AfTx Csum AfRing AfRingBufs AfRingThms AfRx.

Section receive.
Context {P : Type} `{!FramePool P} (g : geometry) (inv : P -> Prop) `{!FramePoolLaws P g inv}.
Context (rlen : Z) (Hlog : 7 <= g_log g <= 17) (Hcover : (g_first g + g_count g) * fsize g <= rlen).
Implicit Types q : AfRx P.
Notation rm := (room g).

Let Hlog31 : 7 <= g_log g <= 31.
Proof. lia. Qed.

Lemma room_small : rm <= 2 ^ 17.
Proof using Hlog. unfold room, fsize, frameHeadroom. assert (2 ^ g_log g <= 2 ^ 17) by (apply Z.pow_le_mono_r; lia). lia. Qed.

(** A queue over the frames [T], with any scratch. *)
Record rxq_ok (T : list Z) (rg : region) q (held : list Z) : Prop := mkRxqOk {
  xo_ring : ring_ok (ar_ring q);
  xo_inv : inv (ar_pool q);
  xo_region : region_ok (g_log g) rg /\ zlen (rg_b rg) = rlen;
  xo_nodup : NoDup T;
  xo_sub : T ⊆ all_frames g;
  xo_perm : T ≡ₚ fp_free (ar_pool q) ++ held }.

(** The descriptor of a slot. *)
Definition slot_desc (a : Z) (c : list Z) (m : bool) : Desc := mkDesc (a + frameHeadroom) (zlen c) (if m then OptContinued else 0).

Fixpoint slot_descs (addrs : list Z) (cs : list (list Z)) (ms : list bool) : list Desc :=
  match addrs, cs, ms with
  | a :: addrs, c :: cs, m :: ms => slot_desc a c m :: slot_descs addrs cs ms
  | _, _, _ => []
  end.

Lemma finish_descs_spec : forall addrs cs ms lens cont, length addrs = length cs -> length ms = length cs -> Forall (fun c => zlen c < 2 ^ 32) cs ->
  (forall i c, cs !! i = Some c -> lens !! i = Some (zlen c)) ->
  match cont with None => ms = replicate (length cs) false | Some l => exists tl, l = ms ++ tl end ->
  finish_descs (map rx_desc addrs) lens cont = Some (slot_descs addrs cs ms, sumZ (map zlen cs)).
Proof using.
  induction addrs as [|a addrs IH]; intros [|c cs] [|m ms] lens cont Ha Hm Hc Hl Hco; try done. cbn [map finish_descs slot_descs]. apply Forall_cons in Hc as [Hc Hcs]. injection Ha as Ha. injection Hm as Hm.
  pose proof (Hl 0%nat c eq_refl) as H0. destruct lens as [|n lens]; [done|]. cbn in H0. injection H0 as ->. cbn [head mbind option_bind].
  assert (Hmm : match cont with None => Some false | Some c => head c end = Some m /\ match (tail <$> cont) with None => ms = replicate (length cs) false | Some l => exists tl, l = ms ++ tl end).
  { destruct cont as [l|]; cbn in *; [destruct Hco as [tl ->]; cbn; eauto|by injection Hco as -> ->]. }
  destruct Hmm as [-> Hmm]. cbn [mbind option_bind tail]. rewrite (IH cs ms lens (tail <$> cont)); [|done|done|done|intros i x Hx; apply (Hl (S i) x Hx)|done]. cbn [mbind option_bind rx_desc Addr Options].
  pose proof (zlen_nonneg c). rewrite u32_small by lia. unfold slot_desc, OptContinued. by destruct m.
Qed.

(** ** Giving back what was not used *)

Lemma rx_desc_frame a : a ∈ all_frames g -> frame_at g (rx_desc a) = a.
Proof using FramePoolLaws0 Hcover Hlog.
  intros Ha. destruct (frame_lies g inv rlen Hlog31 Hcover a Ha) as (_ & _ & Hm). pose proof (room_bounds g Hlog31). unfold room, frameHeadroom in *. apply (frame_at_start g a 64); lia.
Qed.

Lemma map_frame_at_rx addrs : addrs ⊆ all_frames g -> map (frame_at g) (map rx_desc addrs) = addrs.
Proof using FramePoolLaws0 Hcover Hlog.
  induction addrs as [|a addrs IH]; intros Hs; [done|]. cbn [map]. rewrite rx_desc_frame by set_solver. rewrite IH by set_solver. done.
Qed.

Lemma frame_at_slot a c m : frame_at g (slot_desc a c m) = frame_at g (rx_desc a). Proof using. done. Qed.

Lemma map_frame_at_slots : forall addrs cs ms, addrs ⊆ all_frames g -> length addrs = length cs -> length ms = length cs -> map (frame_at g) (slot_descs addrs cs ms) = addrs.
Proof using FramePoolLaws0 Hcover Hlog.
  induction addrs as [|a addrs IH]; intros [|c cs] [|m ms] Hs H1 H2; try done. cbn [slot_descs map]. rewrite frame_at_slot, rx_desc_frame by set_solver. injection H1 as H1. injection H2 as H2. rewrite IH; [done|set_solver|done|done].
Qed.

Lemma give_back p (back : list Z) : inv p -> back ⊆ all_frames g -> NoDup (fp_free p ++ back) ->
  exists p', foldM (fun p d => fp_Push (fp_Base p (Addr d)) p) (reverse (map rx_desc back)) p = Some p' /\ fp_free p' ≡ₚ fp_free p ++ back /\ fp_rejected p' = fp_rejected p /\ inv p'.
Proof using FramePoolLaws0 Hcover Hlog.
  intros Hi Hs Hn. assert (Hm : map (frame_at g) (reverse (map rx_desc back)) = reverse back).
  { rewrite <- (map_frame_at_rx back Hs) at 2. change (map (frame_at g) (reverse (map rx_desc back))) with (frame_at g <$> reverse (map rx_desc back)). by rewrite fmap_reverse. }
  destruct (push_descs_ok g inv (reverse (map rx_desc back)) p Hi) as (p' & E & Hf & Hr & Hi'); rewrite ?Hm.
  - intros a Ha. apply Hs. rewrite elem_of_reverse in Ha. exact Ha.
  - by rewrite reverse_Permutation.
  - exists p'. rewrite E, Hf, Hm, reverse_Permutation. done.
Qed.

(** ** Software checksums *)

(** The frames of a batch hold these bytes. *)
Definition hold (rg : region) (addrs : list Z) (cs : list (list Z)) : Prop :=
  Forall2 (fun a c => zlen c <= rm /\ slice (a + frameHeadroom) (a + frameHeadroom + zlen c) (rg_b rg) = Some c) addrs cs.


Lemma hold_frames rg : zlen (rg_b rg) = rlen -> rlen < 2 ^ 63 -> forall addrs cs ms, addrs ⊆ all_frames g -> length ms = length cs -> hold rg addrs cs -> frames_of rg (slot_descs addrs cs ms) = Some cs.
Proof using FramePoolLaws0 Hcover Hlog.
  intros Hl Hr addrs cs ms Hs Hm Hh. revert ms Hs Hm. induction Hh as [|a c addrs cs [Hz Hc] _ IH]; intros [|m ms] Hs Hm; try done. cbn [slot_descs]. unfold frames_of in *. cbn [mapM].
  assert (Ha : a ∈ all_frames g) by set_solver. destruct (frame_lies g inv rlen Hlog31 Hcover a Ha) as (L1 & L2 & _). pose proof (zlen_nonneg c). pose proof (room_bounds g Hlog31). unfold room, frameHeadroom in *.
  assert (Hf : af_Frame rg (slot_desc a c m) = Some (Some c)).
  { unfold af_Frame. cbn [slot_desc Addr Len]. unfold frameHeadroom. rewrite u64_small by lia. rewrite Z.geb_leb, Z.gtb_ltb, (proj2 (Z.leb_gt _ _)), (proj2 (Z.ltb_ge _ _)) by lia. cbn [orb]. by rewrite Hc. }
  rewrite Hf. cbn [mbind option_bind default]. rewrite IH by (set_solver || (cbn in Hm; lia)). done.
Qed.

(** Frames written back into place. *)
Lemma store_frames_hold : forall addrs cs cs' ms rg, NoDup addrs -> addrs ⊆ all_frames g -> region_ok (g_log g) rg -> zlen (rg_b rg) = rlen -> length ms = length cs -> hold rg addrs cs ->
  Forall2 (fun c c' => zlen c' = zlen c) cs cs' ->
  let rg' := store_frames (slot_descs addrs cs ms) cs' rg in region_ok (g_log g) rg' /\ zlen (rg_b rg') = rlen /\ hold rg' addrs cs' /\
    forall b c, b ∈ all_frames g -> b ∉ addrs -> zlen c <= rm -> slice (b + frameHeadroom) (b + frameHeadroom + zlen c) (rg_b rg) = Some c -> slice (b + frameHeadroom) (b + frameHeadroom + zlen c) (rg_b rg') = Some c.
Proof using FramePoolLaws0 Hcover Hlog.
  induction addrs as [|a addrs IH]; intros cs cs' ms rg Hn Hs Hr Hl Hm Hh Hz rg'; subst rg'; inversion Hh as [|? c ? cs0 [Hc1 Hc2] Hh0]; subst; inversion Hz as [|? c' ? cs0' Hz1 Hz0]; subst; destruct ms as [|m ms]; try done; cbn [slot_descs store_frames slot_desc Addr].
  apply NoDup_cons in Hn as [Ha Hn]. injection Hm as Hm. assert (Hin : a ∈ all_frames g) by set_solver. assert (Hsub : addrs ⊆ all_frames g) by set_solver.
  destruct (frame_lies g inv (zlen (rg_b rg)) Hlog31 Hcover a Hin) as (L1 & L2 & _). pose proof (zlen_nonneg c'). set (rg1 := rg_store (a + frameHeadroom) c' rg).
  assert (Hl1 : zlen (rg_b rg1) = zlen (rg_b rg)) by (unfold rg1; cbn; apply zlen_blit; unfold room, frameHeadroom in *; lia).
  assert (Hr1 : region_ok (g_log g) rg1) by (destruct Hr as (? & ? & ? & ?); unfold region_ok; rewrite Hl1; done).
  assert (Hother : forall b x, b ∈ all_frames g -> b <> a -> zlen x <= rm -> slice (b + frameHeadroom) (b + frameHeadroom + zlen x) (rg_b rg) = Some x -> slice (b + frameHeadroom) (b + frameHeadroom + zlen x) (rg_b rg1) = Some x).
  { intros b x Hb Hne Hx Hsl. rewrite <- Hsl. unfold rg1. cbn. pose proof (zlen_nonneg x). destruct (frames_disjoint g inv b a Hb Hin Hne); apply slice_blit_disjoint; unfold room, frameHeadroom in *; lia. }
  assert (Hh1 : hold rg1 addrs cs0).
  { clear -Hh0 Hother Ha Hsub. induction Hh0 as [|b x addrs cs0 [H1 H2] _ IH]; [constructor|]. constructor; [split; [done|]; apply Hother; try done; set_solver|]. apply IH; set_solver. }
  destruct (IH cs0 cs0' ms rg1 Hn Hsub Hr1 Hl1 Hm Hh1 Hz0) as (I1 & I2 & I3 & I4). split; [done|]. split; [done|]. split.
  - constructor; [|done]. split; [lia|]. apply I4; try done; [lia|]. unfold rg1. cbn. apply slice_blit_same; unfold room, frameHeadroom in *; lia.
  - intros b x Hb Hnb Hx Hsl. apply I4; try done; [set_solver|]. apply Hother; try done. set_solver.
Qed.

(** Completion keeps every frame's length. *)
Lemma batch_done_lengths cont i offs frames offs' frames' n : batch_done cont i offs frames offs' frames' n -> length offs' = length offs /\ Forall2 (fun c c' => zlen c' = zlen c) frames frames'.
Proof using.
  induction 1 as [i frames|i o f o' f' bad offs frames offs' frames' n Hs _ [IH1 IH2]]; [split; [done|]; by induction frames; constructor|]. split; [by cbn; rewrite IH1|]. constructor; [|done].
  destruct Hs as [| | | |e f' _ _ [(c & _ & ->) [Hp1 Hp2] Hr _] _]; try done. rewrite zlen_blit by (rewrite ?zlen_be_bytes; lia). done.
Qed.

(** ** A call *)

(** What [receive] returns and leaves: [l] are the packets, with the pieces
    they were cut into. *)
Record received (max : Z) (ts : bool) (rg : region) q (descs : list Desc) (offs : list Offload) (stamps : list Z) (rg' : region) q' (l : batch) : Prop := mkReceived {
  rv_ring : exists r', rsteps rm max (r_pending (ar_ring q)) (ar_ring q) (map fst l) (r_pending r') r' /\ ar_ring q' = r_delivered (zlen descs) r' /\ (l = [] -> idle r' \/ starved g (fp_free (ar_pool q)) r');
  rv_pieces : Forall (fun p => snd p <> [] /\ concat (snd p) = x_bytes (fst p)) l /\ zlen (chunks l) <= max;
  rv_slots : exists addrs frames, descs = slot_descs addrs (chunks l) (flags l) /\ length addrs = length (chunks l) /\ addrs ⊆ fp_free (ar_pool q) /\ hold rg' addrs frames /\
    if r_vnet (ar_ring q) then exists bad, batch_done (if r_chain (ar_ring q) then Some (flags l) else None) 0 (metas x_off zeroOffload l) (chunks l) offs frames bad
    else frames = chunks l /\ offs = metas x_off zeroOffload l;
  rv_stamps : stamps = if ts then metas x_stamp 0 l else [];
  rv_pool : fp_free (ar_pool q) ≡ₚ fp_free (ar_pool q') ++ map (frame_at g) descs;
  rv_rejected : fp_rejected (ar_pool q') = fp_rejected (ar_pool q);
  rv_ok : ring_ok (ar_ring q') /\ inv (ar_pool q') /\ region_ok (g_log g) rg' /\ zlen (rg_b rg') = rlen;
  rv_else : forall lo hi, 0 <= lo -> (forall a, a ∈ fp_free (ar_pool q) -> hi <= a \/ a + fsize g <= lo) -> slice lo hi (rg_b rg') = slice lo hi (rg_b rg) }.

Lemma scratch_slice {A} max (z : A) l : 0 <= max -> exists l', slice 0 max (scratch max z l) = Some l' /\ zlen l' = max.
Proof using.
  intros Hm. unfold scratch. destruct (Z.ltb_spec (zlen l) max) as [Hlt|Hge]; rewrite slice_Some by (rewrite ?zlen_replicate; lia); eexists; (split; [done|]); rewrite zlen_take, zlen_drop, ?zlen_replicate; lia.
Qed.

Lemma slots_hold (s : bufs P) addrs lens l : slots g s addrs lens l -> length addrs = length l -> hold (s_rg s) addrs l.
Proof using.
  intros Hs Hl. apply Forall2_same_length_lookup_2; [done|]. intros i a c Ha Hc. destruct (Hs i c Hc) as (a' & Ha' & _ & Hr & Hsl). rewrite Ha in Ha'. injection Ha' as <-. done.
Qed.

Lemma store_frames_else : forall ds fs rg lo hi, Forall2 (fun d f => 0 <= Addr d /\ Addr d + zlen f <= zlen (rg_b rg) /\ (hi <= Addr d \/ Addr d + zlen f <= lo)) ds fs ->
  slice lo hi (rg_b (store_frames ds fs rg)) = slice lo hi (rg_b rg).
Proof using.
  induction ds as [|d ds IH]; intros fs rg lo hi H; inversion H as [|? f ? fs' (H1 & H2 & H3) Hr]; subst; [done|]. cbn [store_frames]. rewrite IH.
  - cbn. by apply slice_blit_disjoint.
  - eapply Forall2_impl; [exact Hr|]. intros x y Hx. cbn. rewrite zlen_blit by lia. done.
Qed.

Lemma chunks_bytes (l : batch) : Forall (fun p => snd p <> [] /\ concat (snd p) = x_bytes (fst p)) l -> Forall (fun p => bytes_ok (x_bytes p)) (map fst l) -> Forall bytes_ok (chunks l).
Proof using.
  intros Hp Hb. unfold chunks. induction l as [|[p cs] l IH]; [constructor|]. apply Forall_cons in Hp as [[_ Hp] Hps]. apply Forall_cons in Hb as [Hb Hbs]. cbn [map concat snd fst] in *. apply Forall_app. split; [|auto]. rewrite <- Hp in Hb.
  clear -Hb. induction cs as [|c cs IH]; [constructor|]. cbn [concat] in Hb. apply Forall_app in Hb as [H1 H2]. constructor; auto.
Qed.

Lemma length_metas {A} (f : rxpkt -> A) z (l : batch) : Forall (fun p => snd p <> [] /\ concat (snd p) = x_bytes (fst p)) l -> length (metas f z l) = length (chunks l).
Proof using.
  unfold metas, chunks. induction 1 as [|p l [Hp _] _ IH]; [done|]. cbn [map concat]. rewrite !length_app, IH. f_equal. unfold slot_elems. cbn. rewrite length_replicate. destruct (snd p); [done|cbn; lia].
Qed.

Lemma flags_single (l : batch) : Forall (fun p => length (snd p) = 1%nat) l -> flags l = replicate (length (chunks l)) false.
Proof using.
  unfold flags, chunks. induction 1 as [|p l Hp _ IH]; [done|]. cbn [map concat]. rewrite length_app, Hp, IH. done.
Qed.

(** Frames with the bytes they had and will have. *)
Inductive hold_len : list Z -> list (list Z) -> list (list Z) -> Prop :=
| HoldNil : hold_len [] [] []
| HoldCons a c c' addrs cs cs' : zlen c <= rm -> zlen c' = zlen c -> hold_len addrs cs cs' -> hold_len (a :: addrs) (c :: cs) (c' :: cs').

Lemma hold_len_of rg addrs cs cs' : hold rg addrs cs -> Forall2 (fun c c' => zlen c' = zlen c) cs cs' -> hold_len addrs cs cs'.
Proof using.
  intros Hh. revert cs'. induction Hh as [|a c addrs cs [Hz _] _ IH]; intros cs' Hf; inversion Hf; subst; constructor; auto.
Qed.

Lemma slot_descs_apart : forall addrs cs cs' ms lo hi (n : Z), length ms = length cs -> n = rlen -> hold_len addrs cs cs' -> addrs ⊆ all_frames g -> (forall a, a ∈ addrs -> hi <= a \/ a + fsize g <= lo) ->
  Forall2 (fun d f => 0 <= Addr d /\ Addr d + zlen f <= n /\ (hi <= Addr d \/ Addr d + zlen f <= lo)) (slot_descs addrs cs ms) cs'.
Proof using FramePoolLaws0 Hcover Hlog.
  intros addrs cs cs' ms lo hi n Hm -> Hh. revert ms Hm. induction Hh as [|a c c' addrs cs cs' Hr Hz Hh IH]; intros [|m ms] Hm Hs Ha; try done. injection Hm as Hm. cbn [slot_descs].
  assert (Hin : a ∈ all_frames g) by set_solver. destruct (frame_lies g inv rlen Hlog31 Hcover a Hin) as (L1 & L2 & _). pose proof (zlen_nonneg c'). constructor; [|apply IH; [done|set_solver|intros b Hb; apply Ha; set_solver]].
  cbn [slot_desc Addr]. unfold room, frameHeadroom in *. destruct (Ha a ltac:(set_solver)); lia.
Qed.

Lemma complete_batch_spec rg addrs cs ms offs cont : region_ok (g_log g) rg -> zlen (rg_b rg) = rlen -> NoDup addrs -> addrs ⊆ all_frames g -> hold rg addrs cs -> length ms = length cs -> length offs = length cs -> Forall bytes_ok cs ->
  (forall c, cont = Some c -> length c = length cs) ->
  exists offs' rg' bad frames, complete_batch rg (slot_descs addrs cs ms) offs cont = Some (offs', rg', bad) /\ batch_done cont 0 offs cs offs' frames bad /\ hold rg' addrs frames /\ length offs' = length offs /\
    region_ok (g_log g) rg' /\ zlen (rg_b rg') = rlen /\ forall lo hi, 0 <= lo -> (forall a, a ∈ addrs -> hi <= a \/ a + fsize g <= lo) -> slice lo hi (rg_b rg') = slice lo hi (rg_b rg).
Proof using FramePoolLaws0 Hcover Hlog.
  intros Hr Hl Hn Hs Hh Hm Ho Hb Hc. unfold complete_batch. assert (Hl63 : rlen < 2 ^ 63) by (rewrite <- Hl; apply Hr). rewrite (hold_frames rg Hl Hl63 addrs cs ms Hs Hm Hh). cbn [mbind option_bind].
  destruct (completeOffloads_done cont offs 0 cs) as (offs' & frames & bad & E & Hd).
  - intros c Hcc. rewrite (Hc c Hcc). lia.
  - lia.
  - rewrite Forall_forall in Hb |- *. intros c Hcin. split; [by apply Hb|]. apply list_elem_of_lookup in Hcin as [i Hi]. destruct (Forall2_lookup_r _ _ _ _ _ Hh Hi) as (a & _ & Hz & _). pose proof room_small. lia.
  - rewrite E. cbn [mbind option_bind]. destruct (batch_done_lengths _ _ _ _ _ _ _ Hd) as [Hlo Hlf].
    destruct (store_frames_hold addrs cs frames ms rg Hn Hs Hr Hl Hm Hh Hlf) as (S1 & S2 & S3 & _). eexists _, _, _, frames. split; [done|]. split; [done|]. split; [done|]. split; [done|]. split; [done|]. split; [done|].
    intros lo hi Hlo0 Hap. apply store_frames_else. rewrite Hl. apply slot_descs_apart; try done. by eapply hold_len_of.
Qed.

Lemma cover_region (rg : region) q : ring_ok (ar_ring q) -> inv (ar_pool q) -> region_ok (g_log g) rg -> zlen (rg_b rg) = rlen -> NoDup (fp_free (ar_pool q)) -> forall max lens offs tss ts, 0 <= max -> zlen lens = max -> zlen offs = max ->
  match tss with None => ts = false | Some t => ts = true /\ zlen t = max end ->
  batch_ok g inv rlen (rg_b rg) ts (fp_free (ar_pool q)) max (r_chain (ar_ring q)) []
    (mkOuts lens offs tss (if r_chain (ar_ring q) then Some (replicate (Z.to_nat max) false) else None)) (mkBufs (ar_pool q) [] rg) [].
Proof using FramePoolLaws0.
  intros Hr Hi Hrg Hl Hn max lens offs tss ts Hm H1 H2 H3. constructor; cbn; try done.
  - constructor; cbn; try done; [by apply fp_sub|by rewrite app_nil_r].
  - destruct tss; [|done]. by destruct H3.
  - destruct (r_chain (ar_ring q)); [|by split]. by rewrite Nat.sub_0_r.
Qed.

Lemma NoDup_take_app {A} (a b : list A) n : NoDup (a ++ b) -> NoDup (take n b) /\ NoDup (a ++ drop n b).
Proof using.
  intros Hn. split; [apply NoDup_app_r in Hn; rewrite <- (take_drop n b) in Hn; by eapply NoDup_app_l|]. rewrite <- (take_drop n b) in Hn. by eapply NoDup_without.
Qed.

Lemma receive_spec max ts rg q : ring_ok (ar_ring q) -> inv (ar_pool q) -> NoDup (fp_free (ar_pool q)) -> region_ok (g_log g) rg -> zlen (rg_b rg) = rlen -> ar_closed q = false -> 0 < max ->
  exists descs offs stamps rg' q' l, receive max ts rg q = Some (descs, offs, stamps, rg', q') /\ received max ts rg q descs offs stamps rg' q' l /\ ar_closed q' = false.
Proof using FramePoolLaws0 Hcover Hlog.
  intros Hr Hi Hn Hrg Hl Hcl Hm. unfold receive. rewrite Hcl, (proj2 (Z.leb_gt _ _)) by lia. cbn [orb].
  destruct (scratch_slice max 0 (ar_lens q) ltac:(lia)) as (lens & -> & Hlens). destruct (scratch_slice max zeroOffload (ar_offs q) ltac:(lia)) as (offs & -> & Hoffs). cbn [mbind option_bind].
  assert (Htss : exists tss, (if ts then t ← slice 0 max (if ts then scratch max 0 (ar_tss q) else ar_tss q); Some (Some t) else Some None) = Some tss /\ match tss with None => ts = false | Some t => ts = true /\ zlen t = max end).
  { destruct ts; [|by eexists]. destruct (scratch_slice max 0 (ar_tss q) ltac:(lia)) as (t & -> & Ht). by eexists. }
  destruct Htss as (tss & -> & Htss). cbn [mbind option_bind].
  pose proof (cover_region rg q Hr Hi Hrg Hl Hn max lens offs tss ts ltac:(lia) Hlens Hoffs Htss) as HB0.
  destruct (ring_read_spec g inv rlen Hlog31 Hcover (rg_b rg) ts _ max (ar_ring q) _ _ Hr ltac:(lia) HB0) as (got & r' & o & s & l & E & [(addrs & HB) [Hgot Hgm] Rok Rconf Rrej Rsteps Rend]). rewrite E. cbn [mbind option_bind app] in *.
  destruct HB as [A1 A2 A3 A4 A5 [A6 A7] A8 A9]. destruct Rconf as (Rc & Rv & Rp). cbn [s_pool] in Rrej. pose proof (zlen_nonneg (chunks l)).
  assert (Hzd : zlen (s_descs s) = zlen addrs) by (rewrite (bo_descs _ _ _ _ _ _ _ A1); unfold zlen; by rewrite length_map).
  pose proof (bo_perm _ _ _ _ _ _ _ A1) as Hperm. pose proof (bo_sub _ _ _ _ _ _ _ A1) as Hsub. pose proof (bo_nodup _ _ _ _ _ _ _ A1) as Hnd. rewrite Hperm in Hnd. set (n := length (chunks l)) in *.
  assert (Hn1 : Z.to_nat got = n) by (unfold n; rewrite Hgot; unfold zlen; lia). assert (Hsa : addrs ⊆ fp_free (ar_pool q)) by (intros a Ha; rewrite Hperm; apply elem_of_app; by right).
  destruct (NoDup_take_app _ _ n Hnd) as [Hnt Hndr].
  rewrite Hzd, (slice_Some got) by lia. cbn [mbind option_bind]. rewrite Hn1, (bo_descs _ _ _ _ _ _ _ A1), skipn_map. rewrite (take_ge (map rx_desc (drop n addrs))) by (rewrite length_map, length_drop; unfold zlen in *; lia).
  destruct (give_back (s_pool s) (drop n addrs) (bo_inv _ _ _ _ _ _ _ A1)) as (p' & -> & Hpf & Hpr & Hpi); [intros a Ha; by apply Hsub, Hsa, elem_drop in Ha || (apply Hsub, Hsa; by eapply elem_drop)|done|]. cbn [mbind option_bind].
  assert (Htk : slice 0 got (map rx_desc addrs) = Some (map rx_desc (take n addrs))) by (rewrite slice_Some by (unfold zlen in *; rewrite ?length_map; lia); by rewrite Z.sub_0_r, drop_0, Hn1, firstn_map).
  rewrite Htk. cbn [mbind option_bind].
  set (mine := take n addrs) in *. assert (Hlm : length mine = length (chunks l)) by (unfold mine, n; rewrite length_take; unfold zlen in A4; lia).
  assert (Hhold : hold (s_rg s) mine (chunks l)). { apply (slots_hold s mine (o_lens o)); [|done]. intros i c Hc. destruct (A3 i c Hc) as (a & Ha & Hrest). exists a. split; [|done]. apply lookup_lt_Some in Hc. unfold mine. by rewrite lookup_take_lt. }
  pose proof (length_flags l A2) as Hlf. assert (Hmine : mine ⊆ all_frames g) by (intros a Ha; apply Hsub, Hsa; by eapply elem_take).
  assert (Hfin : finish_descs (map rx_desc mine) (o_lens o) (o_cont o) = Some (slot_descs mine (chunks l) (flags l), sumZ (map zlen (chunks l)))).
  { apply finish_descs_spec; try done.
    - apply Forall_forall. intros c Hc. apply list_elem_of_lookup in Hc as [i Hi2]. destruct (A3 i c Hi2) as (_ & _ & _ & Hz & _). pose proof (room_bounds g Hlog31). lia.
    - intros i c Hc. by destruct (A3 i c Hc) as (_ & _ & ? & _).
    - destruct (r_chain (ar_ring q)); [rewrite A9; eauto|]. destruct A9 as [-> A9]. by apply flags_single. }
  rewrite Hfin. cbn [mbind option_bind]. rewrite slice_Some by lia. cbn [mbind option_bind]. rewrite Z.sub_0_r, drop_0, Hn1, A7.
  assert (Hstamps : match o_tss o with None => Some [] | Some t => slice 0 got t end = Some (if ts then metas x_stamp 0 l else [])).
  { destruct (o_tss o) as [t|]; [|by rewrite A8]. destruct A8 as (-> & Hz & Ht). rewrite slice_Some by lia. by rewrite Z.sub_0_r, drop_0, Hn1, Ht. }
  assert (Hpool : fp_free (ar_pool q) ≡ₚ fp_free p' ++ mine) by (rewrite Hperm, Hpf; unfold mine; rewrite <- (take_drop n addrs) at 1; solve_Permutation).
  assert (Hfr : map (frame_at g) (slot_descs mine (chunks l) (flags l)) = mine) by (apply map_frame_at_slots; done).
  assert (Hzs : zlen (slot_descs mine (chunks l) (flags l)) = got) by (rewrite Hgot; unfold zlen; rewrite <- (length_map (frame_at g)), Hfr, Hlm; done).
  destruct (rsteps_ok _ _ _ _ _ _ _ Hr Rsteps) as [_ Hxb]. pose proof (chunks_bytes l A2 Hxb) as Hcb.
  assert (Hrd : ring_ok (r_delivered got r')) by (destruct Rok; by constructor).
  assert (Hring : exists r1, rsteps rm max (r_pending (ar_ring q)) (ar_ring q) (map fst l) (r_pending r1) r1 /\ r_delivered got r' = r_delivered (zlen (slot_descs mine (chunks l) (flags l))) r1 /\ (l = [] -> idle r1 \/ starved g (fp_free (ar_pool q)) r1)).
  { exists r'. rewrite Hzs. split; [done|]. split; [done|]. intros Hnil. destruct Rend as [?|[?|[?|?]]]; [|by left|by right|done]. exfalso. rewrite Hnil in Hgot. change (zlen (chunks [])) with 0 in Hgot. lia. }
  assert (Helse : forall lo hi, 0 <= lo -> (forall a, a ∈ fp_free (ar_pool q) -> hi <= a \/ a + fsize g <= lo) -> slice lo hi (rg_b (s_rg s)) = slice lo hi (rg_b rg)) by (apply (bo_else _ _ _ _ _ _ _ A1)).
  assert (Hmm : mine ⊆ fp_free (ar_pool q)) by (intros a Ha; apply Hsa; by eapply elem_take).
  change (r_vnet (r_delivered got r')) with (r_vnet r'). rewrite Rv. destruct (r_vnet (ar_ring q)) eqn:Hvn; cbn [negb mbind option_bind].
  2:{ rewrite Hstamps. cbn [mbind option_bind]. eexists _, _, _, _, _, l. split; [done|]. split; [|by cbn]. constructor; cbn [ar_ring ar_pool]; try done; rewrite ?Hvn, ?Hfr; try done.
      - split; [done|]. by rewrite <- Hgot.
      - by exists mine, (chunks l).
      - rewrite Hpr. exact Rrej.
      - split; [done|]. split; [done|]. split; apply A1. }
  assert (Hcont : exists cont, match o_cont o with None => Some None | Some c => c ← slice 0 got c; Some (Some c) end = Some cont /\ cont = (if r_chain (ar_ring q) then Some (flags l) else None)).
  { destruct (r_chain (ar_ring q)); [|destruct A9 as [-> _]; by eexists]. rewrite A9. rewrite slice_Some by (rewrite ?zlen_app; unfold zlen in *; lia). eexists. split; [done|]. rewrite Z.sub_0_r, drop_0, Hn1. unfold n. rewrite <- Hlf, take_app_length. done. }
  destruct Hcont as (cont & -> & Hcont). cbn [mbind option_bind].
  destruct (complete_batch_spec (s_rg s) mine (chunks l) (flags l) (metas x_off zeroOffload l) cont) as (offs' & rg' & bad & frames & -> & Hdone & Hh2 & _ & Hrg2 & Hl2 & Helse2); try done; [apply A1|apply A1|by apply length_metas| |].
  { intros c ->. destruct (r_chain (ar_ring q)); [|done]. by injection Hcont as ->. }
  cbn [mbind option_bind]. rewrite Hstamps. cbn [mbind option_bind]. eexists _, _, _, _, _, l. split; [done|]. split; [|by cbn]. constructor; cbn [ar_ring ar_pool]; try done; rewrite ?Hvn, ?Hfr; try done.
  - split; [done|]. by rewrite <- Hgot.
  - exists mine, frames. rewrite <- Hcont. split; [done|]. split; [done|]. split; [done|]. split; [done|]. by exists bad.
  - rewrite Hpr. exact Rrej.
  - intros lo hi Hlo Hap. rewrite <- (Helse lo hi Hlo Hap). apply Helse2; [done|]. intros a Ha. apply Hap. by apply Hmm.
Qed.
End receive.
