(* ===== verification/AfSystem.v ===== *)
(** A program that receives, forwards and sends on an AF_PACKET device.

    The state is the two queues, the kernel behind the transmit socket, the
    frame memory and the descriptors the program holds.  [af_may] is what
    packetio asks of a caller, as for the other backends; the kernel may write
    any bytes into the receive ring at any time. *)

From stdpp Require Import prelude list numbers strings.
From S2P Require Import Prelude Bytes Desc Pool Mlx5Region AfTx AfTxWire AfTxOps AfTxGather AfTxFrames Csum AfRing AfRingBufs AfRingThms AfRx AfRxThms.

Record asys (P K : Type) : Type := mkAsys { a_tx : AfTx P; a_rx : AfRx P; a_k : K; a_rg : region; a_held : list Desc }.
Arguments mkAsys {P K}. Arguments a_tx {P K}. Arguments a_rx {P K}. Arguments a_k {P K}. Arguments a_rg {P K}. Arguments a_held {P K}.

(** [rest] is what the caller goes on holding. *)
Inductive aop : Type :=
| AAlloc (n : Z)
| ATransmit (ds rest : list Desc)
| ATransmitOffload (ds : list Desc) (offs : list Offload) (rest : list Desc)
| ATransmitGather (segs : list (list Z)) (counts : list Z) (offs : option (list Offload))
| AComplete (max : Z)
| AReclaim (max : Z)
| AFree (ds rest : list Desc)
| ASend (count : Z) (build : Z -> list Z -> list Z -> Z * list Z * list Z) (s : list Z)
| AReceive (max : Z) (ts : bool)
| ARecycle (ds rest : list Desc)
| AWrite (b : list Z)
| ARing (mem : list Z)
| ACloseTx
| ACloseRx (st : option (Z * Z)).

(** The kernel's writes into the ring. *)
Definition r_with_mem (mem : list Z) (r : ring) : ring :=
  mkRing mem (r_blockSize r) (r_blockNr r) (r_block r) (r_frameOff r) (r_numPkts r) (r_pending r) (r_oversize r) (r_batchTooSmall r) (r_packets r) (r_chain r) (r_vnet r).
Definition ar_with_ring {P} (r : ring) (q : AfRx P) : AfRx P :=
  mkAfRx r (ar_mapped q) (ar_pool q) (ar_lens q) (ar_cont q) (ar_offs q) (ar_tss q) (ar_n q) (ar_closed q).
Definition rg_with_bytes (b : list Z) (rg : region) : region := mkRegion b (rg_frameSize rg) (rg_frameMask rg) (rg_frames rg) (rg_hugePages rg).

Section system.
Context {P : Type} `{!FramePool P} {K : Type} `{!Kernel K}.

Definition ado (op : aop) (s : asys P K) : option (asys P K) :=
  let '(mkAsys tx rx k rg held) := s in
  match op with
  | AAlloc n => '(ds, tx) ← at_Alloc n tx; Some (mkAsys tx rx k rg (ds ++ held))
  | ATransmit ds rest => '(n, tx, k) ← at_Transmit rg ds tx k; Some (mkAsys tx rx k rg (drop (Z.to_nat n) ds ++ rest))
  | ATransmitOffload ds offs rest => '(n, _, tx, k) ← at_TransmitOffload rg ds offs tx k; Some (mkAsys tx rx k rg (drop (Z.to_nat n) ds ++ rest))
  | ATransmitGather segs counts offs => '(_, _, tx, k) ← at_TransmitGather rg segs counts offs tx k; Some (mkAsys tx rx k rg held)
  | AComplete max => '(_, tx) ← at_Complete max tx; Some (mkAsys tx rx k rg held)
  | AReclaim max => '(held, tx) ← at_Reclaim max held tx; Some (mkAsys tx rx k rg held)
  | AFree ds rest => tx ← at_Free ds tx; Some (mkAsys tx rx k rg rest)
  | ASend count build st => '(_, rg, _, tx, k) ← at_SendFunc build count rg st tx k; Some (mkAsys tx rx k rg held)
  | AReceive max ts => '(ds, _, _, rg, rx) ← receive max ts rg rx; Some (mkAsys tx rx k rg (ds ++ held))
  | ARecycle ds rest => rx ← ar_Recycle ds rx; Some (mkAsys tx rx k rg rest)
  | AWrite b => Some (mkAsys tx rx k (rg_with_bytes b rg) held)
  | ARing mem => Some (mkAsys tx (ar_with_ring (r_with_mem mem (ar_ring rx)) rx) k rg held)
  | ACloseTx => Some (mkAsys (at_Close tx) rx k rg held)
  | ACloseRx st => Some (mkAsys tx (ar_Close st rx) k rg held)
  end.

Context (gt gr : geometry).
Notation fr := (map (frame_at gt)).

Definition af_may (op : aop) (s : asys P K) : Prop :=
  match op with
  | AAlloc _ | ATransmitGather _ _ _ | AReclaim _ | AReceive _ _ | ACloseTx | ACloseRx _ => True
  | ATransmit ds rest | ATransmitOffload ds _ rest => fr (a_held s) ≡ₚ fr (ds ++ rest) /\ Forall desc_ok ds
  | AComplete _ => fr (at_pending (a_tx s)) ⊆ all_frames gt
  | AFree ds rest => fr (a_held s) ≡ₚ fr (ds ++ rest) /\ fr ds ⊆ all_frames gt
  | ASend _ build _ => fr (at_pending (a_tx s)) ⊆ all_frames gt /\ forall i f s, zlen (snd (fst (build i f s))) = zlen f
  | ARecycle ds rest => fr (a_held s) ≡ₚ fr (ds ++ rest) /\ fr ds ⊆ all_frames gr
  | AWrite b => zlen b = zlen (rg_b (a_rg s))
  | ARing mem => zlen mem = zlen (r_mem (ar_ring (a_rx s))) /\ bytes_ok mem
  end.

Inductive areach (s0 : asys P K) : asys P K -> Prop :=
| areach_init : areach s0 s0
| areach_step op s s' : areach s0 s -> af_may op s -> ado op s = Some s' -> areach s0 s'.

(** ** The invariant *)

Context (invt invr : P -> Prop) `{!FramePoolLaws P gt invt} `{!FramePoolLaws P gr invr} `{!KernelLaws K}.
Context (rlen : Z) (Hlog : g_log gr = g_log gt) (Hkf : 7 <= g_log gt <= 17) (Hdis : NoDup (all_frames gt ++ all_frames gr)).
Context (Hcovt : (g_first gt + g_count gt) * fsize gt <= rlen) (Hcovr : (g_first gr + g_count gr) * fsize gr <= rlen) (Hrlen : rlen < 2 ^ 63).

(** Every frame is in one place. *)
Definition af_conserved (s : asys P K) : Prop :=
  all_frames gt ++ all_frames gr ≡ₚ fp_free (at_pool (a_tx s)) ++ fp_free (ar_pool (a_rx s)) ++ fr (a_held s) ++ fr (at_pending (a_tx s)).

Record ainv (s : asys P K) : Prop := mkAinv {
  ai_tx : txq_ok (a_tx s);
  ai_rx : ring_ok (ar_ring (a_rx s));
  ai_tpool : invt (at_pool (a_tx s));
  ai_rpool : invr (ar_pool (a_rx s));
  ai_region : region_ok (g_log gt) (a_rg s) /\ zlen (rg_b (a_rg s)) = rlen;
  ai_rejected : fp_rejected (at_pool (a_tx s)) = 0 /\ fp_rejected (ar_pool (a_rx s)) = 0;
  ai_conserved : af_conserved s }.

Lemma af_fr_same ds : map (frame_at gr) ds = fr ds.
Proof using Hlog. apply map_ext. intros d. unfold frame_at, fsize. by rewrite Hlog. Qed.

Lemma af_part s l rest : af_conserved s -> l ++ rest ≡ₚ fp_free (at_pool (a_tx s)) ++ fp_free (ar_pool (a_rx s)) ++ fr (a_held s) ++ fr (at_pending (a_tx s)) -> NoDup l.
Proof using Hdis. intros Hc Hl. unfold af_conserved in Hc. rewrite Hc, <- Hl in Hdis. by eapply NoDup_app_l. Qed.

Ltac open_sys s := destruct s as [tx rx k rg held]; intros [Htx Hrx Htp Hrp Hrg Hrej Hc]; cbn [a_tx a_rx a_k a_rg a_held af_may ado] in *.
Ltac close_sys := eexists; split; [done|]; constructor; cbn [a_tx a_rx a_k a_rg a_held]; try done.

(** What is not the transmit queue's. *)
Lemma owns_all tx rx k rg held : af_conserved (mkAsys tx rx k rg held) -> owns gt (all_frames gt ++ all_frames gr) tx (fr held ++ fp_free (ar_pool rx)).
Proof using. unfold af_conserved, owns. cbn. intros ->. solve_Permutation. Qed.

Lemma all_owns tx rx k rg held : owns gt (all_frames gt ++ all_frames gr) tx (fr held ++ fp_free (ar_pool rx)) -> af_conserved (mkAsys tx rx k rg held).
Proof using. unfold af_conserved, owns. cbn. intros ->. solve_Permutation. Qed.

(** The transmit queue moved. *)
Lemma ainv_tx tx rx k rg held tx' k' rg' held' : ainv (mkAsys tx rx k rg held) -> txq_ok tx' -> invt (at_pool tx') -> fp_rejected (at_pool tx') = fp_rejected (at_pool tx) -> region_ok (g_log gt) rg' /\ zlen (rg_b rg') = rlen ->
  owns gt (all_frames gt ++ all_frames gr) tx' (fr held' ++ fp_free (ar_pool rx)) -> ainv (mkAsys tx' rx k' rg' held').
Proof using.
  intros [Htx Hrx Htp Hrp Hrg [Hr1 Hr2] Hc] H1 H2 H3 H4 H5. cbn [a_tx a_rx a_rg] in *. constructor; cbn [a_tx a_rx a_k a_rg a_held]; try done; [by rewrite H3|]. by apply all_owns.
Qed.

Lemma ado_alloc n s : ainv s -> exists s', ado (AAlloc n) s = Some s' /\ ainv s'.
Proof using All.
  intros Hs. destruct s as [tx rx k rg held]. pose proof Hs as [Htx Hrx Htp Hrp Hrg Hrej Hc]. cbn [a_tx a_rx a_k a_rg a_held ado] in *. destruct (at_closed tx) eqn:Hcl.
  { unfold at_Alloc. rewrite Hcl. cbn [mbind option_bind app]. by eexists. }
  destruct (at_Alloc_spec gt invt rlen ltac:(lia) Hcovt Hrlen _ n tx _ Htx Htp Hcl (owns_all _ _ _ _ _ Hc)) as (ds & tx' & -> & S & Ho & _). cbn [mbind option_bind]. eexists. split; [done|].
  eapply ainv_tx; try done; try apply S. by rewrite map_app, <- app_assoc.
Qed.

Lemma ado_went tx rx k rg held ds rest offs n tx' k' : ainv (mkAsys tx rx k rg held) -> fr held ≡ₚ fr (ds ++ rest) -> went (g_log gt) rg offs ds n tx k tx' k' -> ainv (mkAsys tx' rx k' rg (drop (Z.to_nat n) ds ++ rest)).
Proof using All.
  intros Hs Hh W. pose proof Hs as [Htx Hrx Htp Hrp Hrg Hrej Hc]. cbn [a_tx a_rx a_k a_rg a_held] in *. pose proof (owns_all _ _ _ _ _ Hc) as Ho.
  assert (Ho1 : owns gt (all_frames gt ++ all_frames gr) tx (fr ds ++ fr rest ++ fp_free (ar_pool rx))) by (unfold owns in *; rewrite Ho, Hh, map_app; solve_Permutation).
  pose proof (went_owns gt _ _ _ _ _ _ _ _ _ _ W Ho1) as Ho2. destruct W as [_ W2 (_ & W4 & _) _ _ _ _]. eapply ainv_tx; try done; [by rewrite W4|by rewrite W4|]. by rewrite map_app, <- app_assoc.
Qed.

Lemma ado_transmit ds rest s : ainv s -> af_may (ATransmit ds rest) s -> exists s', ado (ATransmit ds rest) s = Some s' /\ ainv s'.
Proof using All.
  intros Hs. destruct s as [tx rx k rg held]. cbn [af_may ado a_held]. intros [Hh Hd]. unfold at_Transmit.
  destruct (at_Transmit_any gt rg None ds tx k (proj1 (ai_region _ Hs)) (ai_tx _ Hs) Hd ltac:(done)) as (n & err & tx' & k' & -> & W). cbn [mbind option_bind]. eexists. split; [done|]. by eapply ado_went.
Qed.

Lemma ado_transmit_offload ds offs rest s : ainv s -> af_may (ATransmitOffload ds offs rest) s -> exists s', ado (ATransmitOffload ds offs rest) s = Some s' /\ ainv s'.
Proof using All.
  intros Hs. destruct s as [tx rx k rg held]. cbn [af_may ado a_held]. intros [Hh Hd]. unfold at_TransmitOffload.
  assert (Hno : forall e, exists s', ('(n, _, tx, k) ← Some (0, e : option error, tx, k); Some (mkAsys tx rx k rg (drop (Z.to_nat n) ds ++ rest))) = Some s' /\ ainv s').
  { intros e. eexists. split; [done|]. eapply (ado_went _ _ _ _ _ ds rest None); try done. apply went_idle. apply (ai_tx _ Hs). }
  case_if; [apply Hno|]. destruct (Z.eqb_spec (zlen offs) (zlen ds)) as [Hz|]; cbn [negb]; [|apply Hno].
  destruct (at_Transmit_any gt rg (Some offs) ds tx k (proj1 (ai_region _ Hs)) (ai_tx _ Hs) Hd) as (n & err & tx' & k' & -> & W); [intros os [= <-]; lia|]. cbn [mbind option_bind]. eexists. split; [done|]. by eapply ado_went.
Qed.

(** [TransmitGather] moves no frame. *)
Lemma gather_any rg segs counts offs (tx : AfTx P) (k : K) : txq_ok tx -> exists n err tx' k', at_TransmitGather rg segs counts offs tx k = Some (n, err, tx', k') /\ txq_ok tx' /\ at_pool tx' = at_pool tx /\ at_pending tx' = at_pending tx.
Proof using KernelLaws0.
  intros Hq. unfold at_TransmitGather. case_if; [by eexists _, _, _, _|]. case_if; [by eexists _, _, _, _|].
  assert (Hgo : offs_reach offs (zlen counts) -> exists n err tx' k', gather_loop (length counts) rg segs counts offs 0 0 tx k = Some (n, err, tx', k') /\ txq_ok tx' /\ at_pool tx' = at_pool tx /\ at_pending tx' = at_pending tx).
  { intros Ho. pose proof (zlen_nonneg segs). pose proof (zlen_nonneg counts). destruct (gather_loop_spec rg segs counts offs Ho (length counts) 0 0 tx k Hq ltac:(lia) ltac:(lia) ltac:(unfold zlen; lia)) as (n & err & tx' & k' & -> & [[_ G2 (G3 & G4 & G5 & G6) _ _ _ _] _ _]). by eexists _, _, _, _. }
  destruct offs as [os|]; [|by apply Hgo]. destruct (Z.eqb_spec (zlen os) (zlen counts)) as [Hz|]; cbn [negb]; [|by eexists _, _, _, _]. case_if; [by eexists _, _, _, _|]. apply Hgo. intros x [= <-]. lia.
Qed.

Lemma ado_gather segs counts offs s : ainv s -> exists s', ado (ATransmitGather segs counts offs) s = Some s' /\ ainv s'.
Proof using All.
  open_sys s. destruct (gather_any rg segs counts offs tx k Htx) as (n & err & tx' & k' & -> & H1 & H2 & H3). cbn [mbind option_bind]. close_sys; [by rewrite H2|by rewrite H2|]. unfold af_conserved in *. cbn in *. by rewrite H2, H3.
Qed.

(** The frames the transmit queue has to do with, which are its own. *)
Lemma owns_own s : ainv s -> fr (at_pending (a_tx s)) ⊆ all_frames gt ->
  let T := fp_free (at_pool (a_tx s)) ++ fr (at_pending (a_tx s)) in NoDup T /\ T ⊆ all_frames gt /\ owns gt T (a_tx s) [] /\
    forall tx', owns gt T tx' [] -> owns gt (all_frames gt ++ all_frames gr) tx' (fr (a_held s) ++ fp_free (ar_pool (a_rx s))).
Proof using All.
  intros Hs Hp T. split; [apply (af_part s T (fp_free (ar_pool (a_rx s)) ++ fr (a_held s)) (ai_conserved _ Hs)); unfold T; solve_Permutation|]. split; [pose proof (fp_sub _ (ai_tpool _ Hs)); unfold T; set_solver|].
  split; [unfold owns, T; by rewrite app_nil_r|]. intros tx' Ho. pose proof (ai_conserved _ Hs) as Hc. unfold owns, af_conserved in *. rewrite app_nil_r in Ho. rewrite Hc.
  transitivity (T ++ fr (a_held s) ++ fp_free (ar_pool (a_rx s))); [unfold T; solve_Permutation|]. rewrite Ho. solve_Permutation.
Qed.

Lemma ado_complete max s : ainv s -> af_may (AComplete max) s -> exists s', ado (AComplete max) s = Some s' /\ ainv s'.
Proof using All.
  intros Hs Hm. destruct (owns_own s Hs Hm) as (Hn & Hsub & Ho & Hback). destruct s as [tx rx k rg held]. cbn [ado a_tx a_rx a_held] in *.
  destruct (at_Complete_spec gt invt _ Hn Hsub max [] tx (ai_tx _ Hs) (ai_tpool _ Hs) Ho) as (n & tx' & -> & S & Ho' & _). cbn [mbind option_bind]. eexists. split; [done|]. eapply ainv_tx; try done; try apply S; [apply (ai_region _ Hs)|]. by apply Hback.
Qed.

Lemma ado_reclaim max s : ainv s -> exists s', ado (AReclaim max) s = Some s' /\ ainv s'.
Proof using All.
  intros Hs. destruct s as [tx rx k rg held]. pose proof Hs as [Htx Hrx Htp Hrp Hrg Hrej Hc]. cbn [a_tx a_rx a_k a_rg a_held ado] in *.
  destruct (at_Reclaim_spec gt invt _ max held _ tx Htx Htp (owns_all _ _ _ _ _ Hc)) as (ds & tx' & -> & S & Ho & _). cbn [mbind option_bind]. eexists. split; [done|]. eapply ainv_tx; try done; try apply S.
  rewrite map_app. unfold owns in *. rewrite Ho. solve_Permutation.
Qed.

Lemma ado_free ds rest s : ainv s -> af_may (AFree ds rest) s -> exists s', ado (AFree ds rest) s = Some s' /\ ainv s'.
Proof using All.
  intros Hs. destruct s as [tx rx k rg held]. pose proof Hs as [Htx Hrx Htp Hrp Hrg Hrej Hc]. cbn [a_tx a_rx a_k a_rg a_held ado af_may] in *. intros [Hh Hown]. rewrite map_app in Hh.
  assert (Hn : NoDup (fp_free (at_pool tx) ++ fr ds)) by (apply (af_part _ _ (fp_free (ar_pool rx) ++ fr rest ++ fr (at_pending tx)) Hc); cbn [a_tx a_rx a_held]; rewrite Hh; solve_Permutation).
  unfold at_Free. destruct (at_push_spec gt invt ds tx Htx Htp Hown Hn) as (tx' & -> & S & Hf & Hp & _). cbn [mbind option_bind]. eexists. split; [done|]. eapply ainv_tx; try done; try apply S.
  pose proof (owns_all _ _ _ _ _ Hc) as Ho. unfold owns in *. rewrite Hf, Hp, Ho, Hh. solve_Permutation.
Qed.

Lemma ado_send count build st s : ainv s -> af_may (ASend count build st) s -> exists s', ado (ASend count build st) s = Some s' /\ ainv s'.
Proof using All.
  intros Hs [Hm Hb]. destruct (owns_own s Hs Hm) as (Hn & Hsub & Ho & Hback). destruct s as [tx rx k rg held]. cbn [ado a_tx a_rx a_held] in *.
  destruct (at_SendFunc_spec gt invt rlen ltac:(lia) Hcovt Hrlen build Hb _ Hn Hsub count tx k rg st (ai_tx _ Hs) (ai_tpool _ Hs) (proj1 (ai_region _ Hs)) (proj2 (ai_region _ Hs)) Ho) as (r & rg' & s' & tx' & k' & -> & [S1 S2 S3 S4 S5 _ _]).
  cbn [mbind option_bind]. eexists. split; [done|]. eapply ainv_tx; try done. by apply Hback.
Qed.

Lemma ado_receive max ts s : ainv s -> exists s', ado (AReceive max ts) s = Some s' /\ ainv s'.
Proof using All.
  intros Hs. destruct s as [tx rx k rg held]. pose proof Hs as [Htx Hrx Htp Hrp Hrg Hrej Hc]. cbn [a_tx a_rx a_k a_rg a_held ado] in *.
  destruct (decide (ar_closed rx = false /\ 0 < max)) as [[Hcl Hm]|Hno].
  - assert (Hn : NoDup (fp_free (ar_pool rx))) by (apply (af_part _ _ (fp_free (at_pool tx) ++ fr held ++ fr (at_pending tx)) Hc); cbn [a_tx a_rx a_held]; solve_Permutation).
    destruct (receive_spec gr invr rlen ltac:(by rewrite Hlog) Hcovr max ts rg rx Hrx Hrp Hn) as (ds & offs & stamps & rg' & rx' & l & -> & R & _); [by rewrite Hlog; apply Hrg|apply Hrg|done|done|]. cbn [mbind option_bind].
    destruct (rv_ok _ _ _ _ _ _ _ _ _ _ _ _ _ R) as (R1 & R2 & R3 & R4). rewrite Hlog in R3. close_sys; [by rewrite (rv_rejected _ _ _ _ _ _ _ _ _ _ _ _ _ R)|].
    pose proof (rv_pool _ _ _ _ _ _ _ _ _ _ _ _ _ R) as Rp. rewrite af_fr_same in Rp. unfold af_conserved in *. cbn [a_tx a_rx a_held] in *. rewrite Hc, Rp, map_app. solve_Permutation.
  - assert (E : receive max ts rg rx = Some ([], [], [], rg, rx)). { unfold receive. destruct (ar_closed rx); [done|]. cbn [orb]. rewrite (proj2 (Z.leb_le _ _)); [done|]. destruct (Z.leb_spec max 0); [done|]. exfalso. apply Hno. by split. }
    rewrite E. cbn [mbind option_bind app]. by eexists.
Qed.

Lemma ado_recycle ds rest s : ainv s -> af_may (ARecycle ds rest) s -> exists s', ado (ARecycle ds rest) s = Some s' /\ ainv s'.
Proof using All.
  open_sys s. intros [Hh Hown]. rewrite map_app in Hh.
  assert (Hn : NoDup (fp_free (ar_pool rx) ++ fr ds)) by (apply (af_part _ _ (fp_free (at_pool tx) ++ fr rest ++ fr (at_pending tx)) Hc); cbn [a_tx a_rx a_held]; rewrite Hh; solve_Permutation).
  rewrite <- af_fr_same in Hown, Hn. unfold ar_Recycle. destruct (push_descs_ok gr invr ds (ar_pool rx) Hrp Hown Hn) as (p' & -> & Hf & Hr & Hi). rewrite af_fr_same in Hf. cbn [mbind option_bind]. close_sys; [by cbn; rewrite Hr|].
  unfold af_conserved in *. cbn in *. rewrite Hc, Hf, Hh. solve_Permutation.
Qed.

Lemma ado_outside op s : ainv s -> af_may op s -> match op with AWrite _ | ARing _ | ACloseTx | ACloseRx _ => True | _ => False end -> exists s', ado op s = Some s' /\ ainv s'.
Proof using All.
  intros Hs Hm Hk. destruct op; try done; revert Hs Hm; open_sys s; intros Hm; close_sys.
  - destruct Hrg as [(R1 & R2 & R3 & R4) Hz]. cbn [rg_with_bytes rg_b]. split; [|congruence]. unfold region_ok. cbn. rewrite Hm. done.
  - destruct Hm as [Hm Hb]. destruct Hrx as [A B C D E F G H]. constructor; cbn; try done. by rewrite Hm.
  - destruct Htx. by constructor.
  - unfold ar_Close. destruct (ar_closed rx); [done|]. by destruct st as [[]|].
  - unfold ar_Close. destruct (ar_closed rx); [done|]. by destruct st as [[]|].
  - unfold ar_Close. destruct (ar_closed rx); [done|]. by destruct st as [[]|].
  - unfold ar_Close, af_conserved in *. destruct (ar_closed rx); [done|]. by destruct st as [[]|].
Qed.

(** A permitted operation never panics and keeps the invariant. *)
Lemma ado_inv op s : ainv s -> af_may op s -> exists s', ado op s = Some s' /\ ainv s'.
Proof using All.
  intros Hs Hm. destruct op; [by apply ado_alloc|by apply ado_transmit|by apply ado_transmit_offload|by apply ado_gather|by apply ado_complete|by apply ado_reclaim|by apply ado_free|by apply ado_send|
    by apply ado_receive|by apply ado_recycle|by apply ado_outside|by apply ado_outside|by apply ado_outside|by apply ado_outside].
Qed.

Lemma areach_inv s0 s : ainv s0 -> areach s0 s -> ainv s.
Proof using All.
  intros H0. induction 1 as [|op s s' _ IH Hm E]; [done|]. destruct (ado_inv op s IH Hm) as (s2 & E2 & Hs2). congruence.
Qed.
End system.
