(* ===== verification/AfOptions.v ===== *)
(** The configuration of an AF_PACKET device: afpacket/options.go, and how
    [Open] in afpacket/afpacket.go divides the frames among the queues. *)

From stdpp Require Import prelude list numbers strings.
From S2P Require Import Prelude Bytes Desc Pool Mlx5Region AfTx AfRing.

Definition af_maxQueues : Z := 64.
Definition maxRegionBytes : Z := Z.shiftl 512 20.

Record af_config : Set := mkAfConfig {
  f_txQueues : Z; f_rxQueues : Z; f_frames : Z; f_frameSize : Z; f_socketBuffer : Z;
  f_promiscuous : bool; f_gso : bool; f_framesSet : bool; f_frameSizeSet : bool; f_multiBuffer : bool
}.

Definition af_defaults : af_config := mkAfConfig 1 1 4096 2048 (Z.shiftl 8 20) false false false false false.

(** A product as [int64] keeps it. *)
Definition int64 (x : Z) : Z := (x + 2 ^ 63) mod 2 ^ 64 - 2 ^ 63.

(** What is wrong with a configuration, [None] if nothing is. *)
Definition af_validate (c : af_config) : option error :=
  if (f_txQueues c <? 0) || (f_rxQueues c <? 0) then Some (Errorf "afpacket: transmit and receive queues")
  else if (f_txQueues c =? 0) && (f_rxQueues c =? 0) then Some (Errorf "afpacket: a device with no queues at all does nothing")
  else if (f_txQueues c >? af_maxQueues) || (f_rxQueues c >? af_maxQueues) then Some (Errorf "afpacket: at most 64 queues either way")
  else if negb (Z.land (f_frameSize c) (f_frameSize c - 1) =? 0) || (f_frameSize c <? 2 * frameHeadroom) then
    Some (Errorf "afpacket: frame size must be a power of two of at least 128")
  else if f_gso c && (f_rxQueues c >? 0) && negb (f_multiBuffer c) && (f_frameSize c <? Z.shiftl 1 16) then
    Some (Errorf "afpacket: WithGSO with receive queues needs a frame size of at least 65536")
  else if negb (f_gso c) && (f_frameSize c >? rxBlockSize) then Some (Errorf "afpacket: frame size is larger than the ring block")
  else if f_frames c <? 64 then Some (Errorf "afpacket: too few frames")
  else if f_gso c && f_multiBuffer c && (f_rxQueues c >? 0) &&
          (let per := f_frames c `quot` (f_txQueues c + f_rxQueues c) in
           let room := f_frameSize c - frameHeadroom in
           let need := (Z.shiftl 1 16 + room - 1) `quot` room in
           per <? need) then Some (Errorf "afpacket: a 64 KB packet needs more frames at once")
  else if int64 (f_frames c * f_frameSize c) >? maxRegionBytes then Some (Errorf "afpacket: too much locked memory")
  else None.

(** ** Options *)

Inductive af_option : Set :=
| WithTxQueues (n : Z) | WithRxQueues (n : Z) | WithQueues (n : Z) | WithFrames (n : Z) | WithFrameSize (n : Z)
| WithSocketBuffer (bytes : Z) | WithGSO | WithMultiBuffer | WithPromiscuous.

Definition apply_option (o : af_option) (c : af_config) : af_config :=
  let '(mkAfConfig tx rx fs sz sb pr gso fset sset mb) := c in
  match o with
  | WithTxQueues n => mkAfConfig n rx fs sz sb pr gso fset sset mb
  | WithRxQueues n => mkAfConfig tx n fs sz sb pr gso fset sset mb
  | WithQueues n => mkAfConfig n n fs sz sb pr gso fset sset mb
  | WithFrames n => mkAfConfig tx rx n sz sb pr gso true sset mb
  | WithFrameSize n => mkAfConfig tx rx fs n sb pr gso fset true mb
  | WithSocketBuffer n => mkAfConfig tx rx fs sz n pr gso fset sset mb
  | WithGSO => mkAfConfig tx rx fs sz sb pr true fset sset mb
  | WithMultiBuffer => mkAfConfig tx rx fs sz sb pr gso fset sset true
  | WithPromiscuous => mkAfConfig tx rx fs sz sb true gso fset sset mb
  end.

Definition af_resolve (c : af_config) : af_config :=
  if negb (f_gso c) then c
  else
    let '(mkAfConfig tx rx fs sz sb pr gso fset sset mb) := c in
    let sz := if negb sset && (sz <? Z.shiftl 1 16) then Z.shiftl 1 16 else sz in
    let fs := if negb fset && (sz >=? Z.shiftl 1 16) then 256 else fs in
    mkAfConfig tx rx fs sz sb pr gso fset sset mb.

(** The configuration [Open] uses. *)
Definition config_of (opts : list af_option) : af_config := af_resolve (fold_left (fun c o => apply_option o c) opts af_defaults).

(** ** Dividing the frames *)

(** A run of [per] frames for each of [n] queues, from frame [base] on. *)
Fixpoint af_runs (n : nat) (per base : Z) : list (Z * Z) :=
  match n with O => [] | S n => (base, per) :: af_runs n per (base + per) end.

Definition perQueue (c : af_config) : Z := f_frames c `quot` (f_txQueues c + f_rxQueues c).

Definition tx_runs (c : af_config) : list (Z * Z) := af_runs (Z.to_nat (f_txQueues c)) (perQueue c) 0.
Definition rx_runs (c : af_config) : list (Z * Z) := af_runs (Z.to_nat (f_rxQueues c)) (perQueue c) (f_txQueues c * perQueue c).

(** What a packet may be long. *)
Definition af_MaxFrameSize (c : af_config) : Z := f_frameSize c - frameHeadroom.

(** * Properties *)

(** ** The order of options does not matter *)

Inductive field : Set := FTx | FRx | FFrames | FSize | FBuffer | FGso | FMulti | FPromisc.
#[export] Instance field_eq_dec : EqDecision field. Proof. solve_decision. Defined.

(** What an option sets. *)
Definition sets (o : af_option) : list field :=
  match o with
  | WithTxQueues _ => [FTx] | WithRxQueues _ => [FRx] | WithQueues _ => [FTx; FRx] | WithFrames _ => [FFrames] | WithFrameSize _ => [FSize]
  | WithSocketBuffer _ => [FBuffer] | WithGSO => [FGso] | WithMultiBuffer => [FMulti] | WithPromiscuous => [FPromisc]
  end.

Lemma options_commute o1 o2 c : NoDup (sets o1 ++ sets o2) -> apply_option o1 (apply_option o2 c) = apply_option o2 (apply_option o1 c).
Proof. destruct c. destruct o1, o2; intros Hn; try done; exfalso; revert Hn; by apply (bool_decide_eq_false_1 _). Qed.

Lemma apply_options_perm opts opts' : opts ≡ₚ opts' -> NoDup (concat (map sets opts)) -> forall c, fold_left (fun c o => apply_option o c) opts c = fold_left (fun c o => apply_option o c) opts' c.
Proof.
  induction 1 as [|o l l' _ IH|o1 o2 l|l l' l'' Hp1 IH1 Hp2 IH2]; intros Hn c; [done| | |].
  - cbn [map concat fold_left] in *. apply IH. by apply list.NoDup_app in Hn as (_ & _ & ?).
  - cbn [map concat fold_left] in *. rewrite app_assoc in Hn. apply list.NoDup_app in Hn as (Hn & _ & _). rewrite (options_commute o1 o2); [done|]. by rewrite Permutation_app_comm.
  - rewrite IH1 by done. apply IH2. assert (Hc : concat (map sets l) ≡ₚ concat (map sets l')) by (clear -Hp1; induction Hp1; cbn [map concat]; [done|by f_equiv|by rewrite !app_assoc, (Permutation_app_comm (sets y))|by etrans]). by rewrite <- Hc.
Qed.

(** ** What a validated configuration promises *)

Lemma af_runs_spec : forall n per base i r, 0 <= per -> af_runs n per base !! i = Some r -> r = (base + Z.of_nat i * per, per) /\ (i < n)%nat.
Proof.
  induction n as [|n IH]; intros per base i r Hp H; cbn [af_runs] in H; [done|]. destruct i as [|i]; cbn in H; [injection H as <-; split; [f_equal; lia|lia]|].
  destruct (IH _ _ _ _ Hp H) as [-> Hi]. split; [f_equal; lia|lia].
Qed.

Lemma length_af_runs n : forall per base, length (af_runs n per base) = n.
Proof. induction n as [|n IH]; intros per base; cbn; [done|]. by rewrite IH. Qed.

Lemma af_runs_app n m per base : af_runs (n + m) per base = af_runs n per base ++ af_runs m per (base + Z.of_nat n * per).
Proof. revert base. induction n as [|n IH]; intros base; cbn [af_runs app Nat.add]; [f_equal; lia|]. rewrite IH. do 3 f_equal. lia. Qed.

Definition queues_of (c : af_config) : Z := f_txQueues c + f_rxQueues c.

Lemma all_runs c : 0 <= f_txQueues c -> 0 <= f_rxQueues c -> tx_runs c ++ rx_runs c = af_runs (Z.to_nat (queues_of c)) (perQueue c) 0.
Proof. intros H1 H2. unfold tx_runs, rx_runs, queues_of. rewrite Z2Nat.inj_add, af_runs_app by lia. rewrite Z.add_0_l, Z2Nat.id by lia. done. Qed.

(** The geometry of the pool of run [r]. *)
Definition run_geo (kf : Z) (r : Z * Z) : geometry := mkGeo kf (fst r) (snd r).

(** The checks of a configuration that validates. *)
Record af_checked (c : af_config) : Prop := mkAfChecked {
  fc_queues : 0 <= f_txQueues c <= 64 /\ 0 <= f_rxQueues c <= 64 /\ 0 < queues_of c;
  fc_size : exists kf, f_frameSize c = 2 ^ kf /\ 7 <= kf /\ (f_gso c = false -> kf <= 16);
  fc_frames : 64 <= f_frames c;
  fc_bytes : int64 (f_frames c * f_frameSize c) <= 2 ^ 29;
  fc_gso : f_gso c = true -> 0 < f_rxQueues c -> f_multiBuffer c = false -> 2 ^ 16 <= f_frameSize c;
  fc_chain : f_gso c = true -> 0 < f_rxQueues c -> f_multiBuffer c = true -> 2 ^ 16 <= perQueue c * af_MaxFrameSize c }.

Lemma need_enough per room : 0 < room -> (2 ^ 16 + room - 1) `quot` room <= per -> 2 ^ 16 <= per * room.
Proof. intros Hr H. rewrite Z.quot_div_nonneg in H by lia. pose proof (Z.div_mod (2 ^ 16 + room - 1) room ltac:(lia)). pose proof (Z.mod_pos_bound (2 ^ 16 + room - 1) room ltac:(lia)). nia. Qed.

Lemma af_validate_checked c : af_validate c = None -> af_checked c.
Proof.
  unfold af_validate, af_maxQueues, frameHeadroom, maxRegionBytes. intros H.
  destruct ((f_txQueues c <? 0) || (f_rxQueues c <? 0)) eqn:E1; [done|]. destruct ((f_txQueues c =? 0) && (f_rxQueues c =? 0)) eqn:E2; [done|]. destruct ((f_txQueues c >? 64) || (f_rxQueues c >? 64)) eqn:E3; [done|].
  destruct (negb (Z.land (f_frameSize c) (f_frameSize c - 1) =? 0) || (f_frameSize c <? 2 * 64)) eqn:E4; [done|]. destruct (f_gso c && (f_rxQueues c >? 0) && negb (f_multiBuffer c) && (f_frameSize c <? Z.shiftl 1 16)) eqn:E5; [done|].
  destruct (negb (f_gso c) && (f_frameSize c >? rxBlockSize)) eqn:E6; [done|]. destruct (f_frames c <? 64) eqn:E7; [done|]. destruct (_ && (_ <? _)) eqn:E8 in H; [done|]. destruct (int64 (f_frames c * f_frameSize c) >? Z.shiftl 512 20) eqn:E9; [done|]. clear H.
  rewrite !Z.gtb_ltb in *. change (Z.shiftl 512 20) with (2 ^ 29) in E9. change (Z.shiftl 1 16) with (2 ^ 16) in *. change rxBlockSize with (2 ^ 16) in E6. change (2 * 64) with 128 in E4.
  apply orb_false_iff in E1 as [E1 E1']. apply orb_false_iff in E3 as [E3 E3']. apply orb_false_iff in E4 as [E4 E4']. apply negb_false_iff in E4. apply Z.eqb_eq in E4. apply Z.ltb_ge in E1, E1', E3, E3', E4', E7, E9.
  apply andb_false_iff in E2. rewrite !Z.eqb_neq in E2. constructor; try done.
  - unfold queues_of. lia.
  - destruct (land_pred_pow2 (f_frameSize c) ltac:(lia) E4) as (kf & Hk & Hp). exists kf. split; [done|]. split; [destruct (decide (7 <= kf)); [done|]; assert (2 ^ kf <= 2 ^ 6) by (apply Z.pow_le_mono_r; lia); lia|].
    intros Hg. rewrite Hg in E6. cbn [negb andb] in E6. apply Z.ltb_ge in E6. destruct (decide (kf <= 16)); [done|]. assert (2 ^ 17 <= 2 ^ kf) by (apply Z.pow_le_mono_r; lia). lia.
  - intros Hg Hr Hm. rewrite Hg, Hm, (proj2 (Z.ltb_lt _ _) Hr) in E5. cbn in E5. by apply Z.ltb_ge in E5.
  - intros Hg Hr Hm. rewrite Hg, Hm, (proj2 (Z.ltb_lt _ _) Hr) in E8. cbn [andb] in E8. apply Z.ltb_ge in E8. unfold perQueue, af_MaxFrameSize, frameHeadroom. apply need_enough; [lia|done].
Qed.

(** Runs that follow one another are one range of frames. *)
Lemma frames_of_runs kf per : 0 <= kf -> 0 <= per -> forall n base, concat (map (fun r => all_frames (run_geo kf r)) (af_runs n per base)) = all_frames (mkGeo kf base (Z.of_nat n * per)).
Proof.
  intros Hk Hp. induction n as [|n IH]; intros base; [done|]. cbn [af_runs map concat]. rewrite IH. unfold all_frames, run_geo, frame, fsize. cbn [g_first g_count g_log fst snd].
  replace (Z.to_nat (Z.of_nat (S n) * per)) with (Z.to_nat per + Z.to_nat (Z.of_nat n * per))%nat by (rewrite <- Z2Nat.inj_add by nia; f_equal; nia). rewrite seq_app, fmap_app. f_equal.
  replace (0 + Z.to_nat per)%nat with (Z.to_nat per + 0)%nat by lia. rewrite <- fmap_add_seq, <- list_fmap_compose. apply list_fmap_ext. intros i x _. cbn. f_equal. lia.
Qed.

(** A configuration with less memory than an [int64] counts. *)
Definition counts_right (c : af_config) : Prop := f_frames c * f_frameSize c < 2 ^ 63.

Lemma int64_small x : 0 <= x < 2 ^ 63 -> int64 x = x.
Proof. intros H. unfold int64. rewrite Z.mod_small by lia. lia. Qed.

(** Quotients of counts. *)
Lemma perQueue_bounds c : af_checked c -> 0 <= perQueue c /\ queues_of c * perQueue c <= f_frames c.
Proof.
  intros [(H1 & H2 & H3) _ Hf _ _ _]. unfold perQueue, queues_of in *. rewrite Z.quot_div_nonneg by lia. split; [apply Z.div_pos; lia|]. apply Z.mul_div_le. lia.
Qed.

(** The order in which a caller lists options does not matter: a device
    is configured the same by any order of options no two of which set the
    same thing. *)
Theorem options_order opts opts' : opts ≡ₚ opts' -> NoDup (concat (map sets opts)) -> config_of opts = config_of opts'.
Proof. intros Hp Hn. unfold config_of. by rewrite (apply_options_perm opts opts'). Qed.

Lemma options_order_witness : config_of [WithGSO; WithFrameSize 65536; WithQueues 2] = config_of [WithQueues 2; WithFrameSize 65536; WithGSO].
Proof. apply (options_order [WithGSO; WithFrameSize 65536; WithQueues 2] [WithQueues 2; WithFrameSize 65536; WithGSO]); [solve_Permutation|by apply (bool_decide_eq_true_1 _)]. Defined.

(** C40: what a configuration that validates promises the queues, unless the
    frames together are 2^63 bytes or more, which the check does not see: frames
    of a power of two bytes, at most 2^16 without GSO, at most half a gigabyte
    of them; for every queue a run of its own inside the region, all of one
    length, no frame in two; a length of zero only when there are fewer frames
    than queues; and with GSO a receive queue has 64 KiB in one frame, headroom
    included, or beyond the headroom in the frames of its share. *)
Theorem validated_config c : af_validate c = None ->
  2 ^ 63 <= f_frames c * f_frameSize c \/
  exists kf, f_frameSize c = 2 ^ kf /\ 7 <= kf <= 23 /\ (f_gso c = false -> kf <= 16) /\ f_frames c * 2 ^ kf <= 2 ^ 29 /\
    length (tx_runs c) = Z.to_nat (f_txQueues c) /\ length (rx_runs c) = Z.to_nat (f_rxQueues c) /\
    Forall (fun r => geo_ok (run_geo kf r) /\ snd r = perQueue c /\ (fst r + snd r) * 2 ^ kf <= f_frames c * 2 ^ kf) (tx_runs c ++ rx_runs c) /\
    NoDup (concat (map (fun r => all_frames (run_geo kf r)) (tx_runs c ++ rx_runs c))) /\
    (f_txQueues c + f_rxQueues c <= f_frames c -> 1 <= perQueue c) /\
    (f_gso c = true -> 0 < f_rxQueues c -> 2 ^ 16 <= (if f_multiBuffer c then perQueue c * af_MaxFrameSize c else f_frameSize c)).
Proof.
  intros Hv. destruct (Z_lt_le_dec (f_frames c * f_frameSize c) (2 ^ 63)) as [Hr|]; [right|by left]. pose proof (af_validate_checked c Hv) as Hc. destruct (perQueue_bounds c Hc) as [Hp Hq]. destruct Hc as [(Q1 & Q2 & Q3) (kf & Hs & Hk & Hk16) Hf Hb Hg Hch]. exists kf. rewrite Hs in Hb, Hr.
  assert (Hpow : 0 < 2 ^ kf) by (apply Z.pow_pos_nonneg; lia). rewrite int64_small in Hb by nia.
  assert (Hk23 : kf <= 23). { destruct (decide (kf <= 23)); [done|]. assert (2 ^ 24 <= 2 ^ kf) by (apply Z.pow_le_mono_r; lia). nia. }
  rewrite (all_runs c) by lia. split; [done|]. split; [lia|]. split; [done|]. split; [done|]. split; [apply length_af_runs|]. split; [apply length_af_runs|]. split; [|split; [|split]].
  - apply Forall_forall. intros r Hin. apply list_elem_of_lookup in Hin as [i Hi]. destruct (af_runs_spec _ _ _ _ _ Hp Hi) as [-> Hlt]. cbn [fst snd]. unfold geo_ok, run_geo, fsize. cbn [g_log g_first g_count].
    assert (Hi2 : 0 + Z.of_nat i * perQueue c + perQueue c <= f_frames c) by nia. assert ((0 + Z.of_nat i * perQueue c + perQueue c) * 2 ^ kf <= f_frames c * 2 ^ kf) by nia. split; [|by split]. split; [lia|]. split; [rewrite Z.add_0_l; apply Z.mul_nonneg_nonneg; lia|]. split; [done|]. eapply Z.le_lt_trans; [eassumption|]. eapply Z.le_lt_trans; [exact Hb|]. done.
  - rewrite frames_of_runs by lia. apply NoDup_all_frames. unfold geo_ok, fsize. cbn [g_log g_first g_count]. rewrite Z2Nat.id by lia. split; [lia|]. split; [lia|]. assert (Hm : queues_of c * perQueue c * 2 ^ kf <= f_frames c * 2 ^ kf) by (apply Z.mul_le_mono_nonneg_r; lia). split; [apply Z.mul_nonneg_nonneg; lia|lia].
  - intros Hle. unfold perQueue, queues_of in *. rewrite Z.quot_div_nonneg by lia. apply Z.div_le_lower_bound; lia.
  - intros H1 H2. destruct (f_multiBuffer c) eqn:Em; auto.
Qed.

Lemma validated_config_witness : exists kf, 2048 = 2 ^ kf /\ NoDup (concat (map (fun r => all_frames (run_geo kf r)) (tx_runs (config_of [WithFrames 128]) ++ rx_runs (config_of [WithFrames 128])))).
Proof.
  destruct (validated_config (config_of [WithFrames 128]) eq_refl) as [H|(kf & H1 & _ & _ & _ & _ & _ & _ & H2 & _)]; [exfalso; vm_compute in H; exact (H eq_refl)|]. exists kf. split; [exact H1|exact H2].
Defined.

(** ** What the checks let through *)

(** The packet the GSO ring is sized for, 65535 bytes and an Ethernet header,
    does not fit the frames of a queue that has as many as [validate] asks
    for, when frames are 128 bytes. *)
Definition wedge_config : af_config := config_of [WithGSO; WithMultiBuffer; WithFrameSize 128; WithFrames 2048].
Lemma validate_admits_wedge : af_validate wedge_config = None /\ perQueue wedge_config * af_MaxFrameSize wedge_config < 65535 + 14.
Proof. by vm_compute. Qed.

(** Queues with no frame at all. *)
Definition hollow_config : af_config := config_of [WithQueues 64; WithFrames 64].
Lemma validate_admits_no_frames : af_validate hollow_config = None /\ perQueue hollow_config = 0.
Proof. by vm_compute. Qed.

(** A product that wraps is under any limit. *)
Definition wrapped_config : af_config := config_of [WithFrames (2 ^ 55 + 1); WithFrameSize 512].
Lemma validate_wraps : af_validate wrapped_config = None /\ 2 ^ 64 < f_frames wrapped_config * f_frameSize wrapped_config.
Proof. by vm_compute. Qed.

(** A 64 KiB packet over 2 KiB frames takes 34 of them. *)
Lemma frames_for_64k : (65536 + af_MaxFrameSize af_defaults - 1) / af_MaxFrameSize af_defaults = 34.
Proof. done. Qed.
