(* ===== verification/AfOpen.v ===== *)
(** Opening and closing an AF_PACKET device: afpacket/afpacket.go, the set-up
    and close of a ring in afpacket/tpacket.go, and the resources of the queues
    in afpacket/rxqueue.go and afpacket/region.go.

    The operating system here is its table of descriptors and mappings, and an
    oracle that says of every call whether it succeeds.  A descriptor that is
    closed, or a mapping that is unmapped, and is not there, is a fault: by then
    it may be another's. *)

From stdpp Require Import prelude list numbers strings.
From S2P Require Import Prelude Bytes Desc Pool Mlx5Region AfTx AfRing AfOptions.

(** ** The operating system *)

Record os : Set := mkOs { os_next : Z; os_fds : list Z; os_maps : list Z; os_fault : bool; os_calls : nat }.

(** A computation that calls it. *)
Definition M (A : Type) : Type := os -> A * os.
Definition ret {A} (a : A) : M A := fun k => (a, k).
Definition bind {A B} (m : M A) (f : A -> M B) : M B := fun k => let '(a, k) := m k in f a k.
Declare Scope os_scope.
Delimit Scope os_scope with os.
Notation "'do' x <- m ; f" := (bind m (fun x => f)) (at level 20, x pattern, m at level 100, f at level 200) : os_scope.
Open Scope os_scope.

(** A ring, whose memory is nil once it is closed. *)
Record ringh : Set := mkRingh { rh_fd : Z; rh_mem : option Z }.

(** The queues hold their ring by its place in the device's list, since the
    two share it. *)
Record txh : Set := mkTxh { th_sock : Z; th_run : Z * Z; th_closed : bool }.
Record rxh : Set := mkRxh { xh_sock : Z; xh_ring : nat; xh_wake : Z; xh_run : Z * Z; xh_closed : bool }.

(** [d_region] is nil, or a region whose memory may be. *)
Record device : Set := mkDevice {
  d_region : option (option Z); d_tx : list txh; d_rx : list rxh; d_socks : list Z; d_rings : list ringh; d_closed : bool
}.

Definition without (x : Z) (l : list Z) : list Z := filter (fun y => y <> x) l.

Section calls.
Context (ans : nat -> bool).

(** Bind, setsockopt, getsockopt and write: whether it succeeded. *)
Definition sys_opt : M bool := fun k => (ans (os_calls k), mkOs (os_next k) (os_fds k) (os_maps k) (os_fault k) (S (os_calls k))).
(** Socket and eventfd. *)
Definition sys_fd : M (option Z) := fun k =>
  if ans (os_calls k) then (Some (os_next k), mkOs (os_next k + 1) (os_next k :: os_fds k) (os_maps k) (os_fault k) (S (os_calls k)))
  else (None, mkOs (os_next k) (os_fds k) (os_maps k) (os_fault k) (S (os_calls k))).
Definition sys_mmap : M (option Z) := fun k =>
  if ans (os_calls k) then (Some (os_next k), mkOs (os_next k + 1) (os_fds k) (os_next k :: os_maps k) (os_fault k) (S (os_calls k)))
  else (None, mkOs (os_next k) (os_fds k) (os_maps k) (os_fault k) (S (os_calls k))).
(** The descriptor is gone whatever close(2) reports. *)
Definition sys_close (fd : Z) : M bool := fun k =>
  (ans (os_calls k), mkOs (os_next k) (without fd (os_fds k)) (os_maps k) (os_fault k || negb (bool_decide (fd ∈ os_fds k))) (S (os_calls k))).
(** A whole mapping that is there can be unmapped. *)
Definition sys_munmap (m : Z) : M bool := fun k =>
  (bool_decide (m ∈ os_maps k), mkOs (os_next k) (os_fds k) (without m (os_maps k)) (os_fault k || negb (bool_decide (m ∈ os_maps k))) (S (os_calls k))).

(** ** Rings *)

Definition teardownRing : M unit := do _ <- sys_opt; ret tt.

Definition ring_close (r : ringh) : M (bool * ringh) :=
  match rh_mem r with
  | None => ret (true, r)
  | Some m => do ok <- sys_munmap m; do _ <- teardownRing; ret (ok, mkRingh (rh_fd r) None)
  end.

Definition setup_ring (fd : Z) : M (res ringh) :=
  do ok <- sys_opt;
  if negb ok then ret (Err (Errorf "PACKET_VERSION v3"))
  else
    do ok <- sys_opt;
    if negb ok then ret (Err (Errorf "PACKET_RX_RING"))
    else
      do mem <- sys_mmap;
      do mem <- match mem with Some m => ret (Some m) | None => sys_mmap end;
      match mem with
      | Some m => ret (Ok (mkRingh fd (Some m)))
      | None => do _ <- teardownRing; ret (Err (Errorf "mmap rx ring"))
      end.

(** ** Sockets *)

Definition abandon (fd : Z) (why : error) : M (res (Z * option ringh)) := do _ <- sys_close fd; ret (Err why).

Definition openSocket (c : af_config) (wantRing fanout : bool) : M (res (Z * option ringh)) :=
  do fd <- sys_fd;
  match fd with
  | None => ret (Err (Errorf "afpacket: socket"))
  | Some fd =>
      do ok <- sys_opt;
      if negb ok then abandon fd (Errorf "afpacket: bind")
      else
        do _ <- sys_opt; do _ <- sys_opt; do _ <- sys_opt; do _ <- sys_opt; do _ <- sys_opt;
        do ok <- (if f_promiscuous c && wantRing then sys_opt else ret true);
        if negb ok then abandon fd (Errorf "afpacket: promiscuous mode")
        else
          do ok <- (if f_gso c then sys_opt else ret true);
          if negb ok then abandon fd (Errorf "afpacket: PACKET_VNET_HDR")
          else
            do r <- (if wantRing then do r <- setup_ring fd; ret (let? r := r in Ok (Some r)) else ret (Ok None));
            match r with
            | Err e => abandon fd (Errorf "afpacket: receive ring")
            | Ok r =>
                do ok <- (if fanout then sys_opt else ret true);
                if negb ok then
                  do _ <- match r with Some r => do _ <- ring_close r; ret tt | None => ret tt end;
                  abandon fd (Errorf "afpacket: PACKET_FANOUT")
                else ret (Ok (fd, r))
            end
  end.

(** ** Closing *)

(** The ring in place [i] of the device's list. *)
Definition close_ring (i : nat) (rings : list ringh) : M (list ringh) :=
  match rings !! i with
  | None => ret rings
  | Some r => do (_, r) <- ring_close r; ret (<[i := r]> rings)
  end.

Definition rx_close (x : rxh) (rings : list ringh) : M (rxh * list ringh) :=
  if xh_closed x then ret (x, rings)
  else
    do _ <- sys_opt;
    do _ <- sys_opt;
    do rings <- close_ring (xh_ring x) rings;
    do _ <- sys_close (xh_wake x);
    ret (mkRxh (xh_sock x) (xh_ring x) (xh_wake x) (xh_run x) true, rings).

Fixpoint close_rxs (l : list rxh) (rings : list ringh) : M (list rxh * list ringh) :=
  match l with
  | [] => ret ([], rings)
  | x :: l => do (x, rings) <- rx_close x rings; do (l, rings) <- close_rxs l rings; ret (x :: l, rings)
  end.

Fixpoint close_rings (l : list ringh) : M (list ringh) :=
  match l with
  | [] => ret []
  | r :: l => do (_, r) <- ring_close r; do l <- close_rings l; ret (r :: l)
  end.

Fixpoint close_socks (l : list Z) : M unit :=
  match l with [] => ret tt | fd :: l => do _ <- sys_close fd; close_socks l end.

Definition region_close (r : option (option Z)) : M (option (option Z)) :=
  match r with
  | Some (Some m) => do _ <- sys_munmap m; ret (Some None)
  | r => ret r
  end.

Definition tx_close (t : txh) : txh := mkTxh (th_sock t) (th_run t) true.

Definition af_Close (d : device) : M device :=
  if d_closed d then ret d
  else
    do (rx, rings) <- close_rxs (d_rx d) (d_rings d);
    do rings <- close_rings rings;
    do _ <- close_socks (d_socks d);
    do rg <- region_close (d_region d);
    ret (mkDevice rg (map tx_close (d_tx d)) rx (d_socks d) rings true).

(** A queue its owner closes first. *)
Definition close_queue (i : nat) (d : device) : M device :=
  match d_rx d !! i with
  | None => ret d
  | Some x => do (x, rings) <- rx_close x (d_rings d); ret (mkDevice (d_region d) (d_tx d) (<[i := x]> (d_rx d)) (d_socks d) rings (d_closed d))
  end.

(** ** Opening *)

Fixpoint open_socks (c : af_config) (is_ : list nat) (d : device) : M (bool * device) :=
  match is_ with
  | [] => ret (true, d)
  | i :: is_ =>
      let wantRing := Z.of_nat i <? f_rxQueues c in
      do s <- openSocket c wantRing (wantRing && (f_rxQueues c >? 1));
      match s with
      | Err _ => ret (false, d)
      | Ok (fd, r) => open_socks c is_ (mkDevice (d_region d) (d_tx d) (d_rx d) (d_socks d ++ [fd]) (d_rings d ++ option_list r) (d_closed d))
      end
  end.

(** [d.socks[i%len(d.socks)]]. *)
Definition sock_for (i : nat) (d : device) : option Z := d_socks d !! (i mod length (d_socks d))%nat.

Fixpoint open_txs (i : nat) (runs : list (Z * Z)) (d : device) : option device :=
  match runs with
  | [] => Some d
  | r :: runs =>
      fd ← sock_for i d;
      open_txs (S i) runs (mkDevice (d_region d) (d_tx d ++ [mkTxh fd r false]) (d_rx d) (d_socks d) (d_rings d) (d_closed d))
  end.

(** [None] is a panic. *)
Fixpoint open_rxs (i : nat) (runs : list (Z * Z)) (d : device) : M (option (bool * device)) :=
  match runs with
  | [] => ret (Some (true, d))
  | r :: runs =>
      match d_socks d !! i, d_rings d !! i with
      | Some fd, Some _ =>
          do wake <- sys_fd;
          match wake with
          | None => ret (Some (false, d))
          | Some wake => open_rxs (S i) runs (mkDevice (d_region d) (d_tx d) (d_rx d ++ [mkRxh fd i wake r false]) (d_socks d) (d_rings d) (d_closed d))
          end
      | _, _ => ret None
      end
  end.

(** The half-built device is closed on every error. *)
Definition fail_open (d : device) (why : error) : M (option (res device)) := do _ <- af_Close d; ret (Some (Err why)).

(** [up] is what the interface says: [None] when there is none of that name. *)
Definition af_Open (up : option bool) (opts : list af_option) : M (option (res device)) :=
  let c := config_of opts in
  match af_validate c, up with
  | Some e, _ => ret (Some (Err e))
  | None, None => ret (Some (Err (Errorf "afpacket: interface")))
  | None, Some false => ret (Some (Err (Errorf "afpacket: interface is down")))
  | None, Some true =>
      let d := mkDevice None [] [] [] [] false in
      do mem <- sys_mmap;
      match mem with
      | None => fail_open d (Errorf "afpacket: mapping frame memory")
      | Some m =>
          do (ok, d) <- open_socks c (seq 0 (Z.to_nat (Z.max (f_rxQueues c) (f_txQueues c)))) (mkDevice (Some (Some m)) [] [] [] [] false);
          if negb ok then fail_open d (Errorf "afpacket: socket")
          else
            match open_txs 0 (tx_runs c) d with
            | None => ret None
            | Some d =>
                do r <- open_rxs 0 (rx_runs c) d;
                match r with
                | None => ret None
                | Some (ok, d) => if negb ok then fail_open d (Errorf "afpacket: eventfd for the receive queue") else ret (Some (Ok d))
                end
            end
      end
  end.
End calls.
