(* ===== verification/AfOpenThms.v ===== *)
(** Nothing leaks: what an AF_PACKET device holds of the operating system, from
    the first call of [Open] to the last of [Close]. *)

From stdpp Require Import prelude list numbers strings.
From S2P Require Import Prelude Bytes Desc Pool Mlx5Region AfTx AfRing AfOptions AfOpen.

(** Descriptors and mappings are there once and older than the next. *)
Record os_ok (k : os) : Prop := mkOsOk {
  ok_fds : NoDup (os_fds k); ok_maps : NoDup (os_maps k); ok_old : Forall (fun x => x < os_next k) (os_fds k ++ os_maps k); ok_fault : os_fault k = false }.

(** [k'] has [fds] and [maps] besides what [k] has. *)
Record grew (k k' : os) (fds maps : list Z) : Prop := mkGrew {
  gr_ok : os_ok k'; gr_fds : os_fds k' ≡ₚ os_fds k ++ fds; gr_maps : os_maps k' ≡ₚ os_maps k ++ maps }.

Lemma grew_same k : os_ok k -> grew k k [] [].
Proof. intros Hk. constructor; by rewrite ?app_nil_r. Qed.

Lemma grew_perm k k' fds maps fds' maps' : grew k k' fds maps -> fds ≡ₚ fds' -> maps ≡ₚ maps' -> grew k k' fds' maps'.
Proof. intros [A B C] Hf Hm. constructor; [done|by rewrite B, Hf|by rewrite C, Hm]. Qed.

Lemma without_perm x l : NoDup l -> x ∈ l -> l ≡ₚ x :: without x l.
Proof.
  intros Hn Hx. induction l as [|y l IH]; [set_solver|]. apply NoDup_cons in Hn as [Hy Hn]. unfold without in *. destruct (decide (y = x)) as [->|Hne].
  - rewrite filter_cons_False by naive_solver. assert (E : filter (fun z => z <> x) l = l); [|by rewrite E]. clear -Hy. induction l as [|z l IH]; [done|]. rewrite filter_cons_True by (intros ->; set_solver). f_equal. apply IH. set_solver.
  - rewrite filter_cons_True by done. rewrite Permutation_swap. f_equiv. apply IH; [done|set_solver].
Qed.

Lemma without_NoDup x l : NoDup l -> NoDup (without x l).
Proof. intros H. by apply NoDup_filter. Qed.

Section calls.
Context (ans : nat -> bool).

(** ** Calls *)

Ltac os_step := intros [Hok Hf Hm]; destruct Hok as [O1 O2 O3 O4].

Lemma sys_opt_grew k0 k fds maps : grew k0 k fds maps -> exists b k', sys_opt ans k = (b, k') /\ grew k0 k' fds maps.
Proof. os_step. eexists _, _. split; [done|]. by constructor. Qed.

Lemma sys_fd_grew k0 k fds maps : grew k0 k fds maps -> exists r k', sys_fd ans k = (r, k') /\ grew k0 k' (fds ++ option_list r) maps.
Proof.
  os_step. unfold sys_fd. destruct (ans (os_calls k)); eexists _, _; (split; [done|]); constructor; cbn; rewrite ?app_nil_r; try done.
  - constructor; cbn; try done.
    + apply NoDup_cons. split; [|done]. intros Hin. apply Forall_app in O3 as [O3 _]. rewrite Forall_forall in O3. specialize (O3 _ Hin). lia.
    + constructor; [lia|]. eapply Forall_impl; [exact O3|]. cbn. lia.
  - rewrite Hf. solve_Permutation.
Qed.

Lemma sys_mmap_grew k0 k fds maps : grew k0 k fds maps -> exists r k', sys_mmap ans k = (r, k') /\ grew k0 k' fds (maps ++ option_list r).
Proof.
  os_step. unfold sys_mmap. destruct (ans (os_calls k)); eexists _, _; (split; [done|]); constructor; cbn; rewrite ?app_nil_r; try done.
  - constructor; cbn; try done.
    + apply NoDup_cons. split; [|done]. intros Hin. apply Forall_app in O3 as [_ O3]. rewrite Forall_forall in O3. specialize (O3 _ Hin). lia.
    + apply Forall_app in O3 as [O3 O5]. apply Forall_app. split; [|constructor; [lia|]]; eapply Forall_impl; try eassumption; cbn; lia.
  - rewrite Hm. solve_Permutation.
Qed.

Lemma sys_close_grew k0 k fd fds maps : grew k0 k (fd :: fds) maps -> exists b k', sys_close ans fd k = (b, k') /\ grew k0 k' fds maps.
Proof.
  os_step. assert (Hin : fd ∈ os_fds k) by (rewrite Hf; set_solver). eexists _, _. split; [done|]. pose proof (without_perm fd _ O1 Hin) as Hp. constructor; cbn; try done.
  - constructor; cbn; try done; [by apply without_NoDup| |by rewrite O4, bool_decide_true]. rewrite Hp in O3. by apply Forall_cons in O3 as [_ ?].
  - apply (Permutation_cons_inv (a := fd)). rewrite <- Hp, Hf. solve_Permutation.
Qed.

Lemma sys_munmap_grew k0 k m fds maps : grew k0 k fds (m :: maps) -> exists b k', sys_munmap m k = (b, k') /\ grew k0 k' fds maps.
Proof.
  os_step. assert (Hin : m ∈ os_maps k) by (rewrite Hm; set_solver). eexists _, _. split; [done|]. pose proof (without_perm m _ O2 Hin) as Hp. constructor; cbn; try done.
  - constructor; cbn; try done; [by apply without_NoDup| |by rewrite O4, bool_decide_true]. rewrite Hp, Permutation_app_comm in O3. cbn [app] in O3. apply Forall_cons in O3 as [_ O3]. by rewrite Permutation_app_comm.
  - apply (Permutation_cons_inv (a := m)). rewrite <- Hp, Hm. solve_Permutation.
Qed.

(** One more call of a computation. *)
Ltac step H := unfold bind at 1; let b := fresh "b" in let k' := fresh "k" in let E := fresh "E" in let G := fresh "G" in destruct H as (b & k' & E & G); rewrite E; clear E.

(** ** Rings and sockets *)

Lemma ring_close_grew k0 k r fds maps : grew k0 k fds (option_list (rh_mem r) ++ maps) -> exists b k', ring_close ans r k = ((b, mkRingh (rh_fd r) None), k') /\ grew k0 k' fds maps.
Proof.
  intros G. unfold ring_close. destruct r as [fd [m|]]; cbn [rh_mem rh_fd option_list option_rect app] in *; [|by eexists _, _]. unfold teardownRing. step (sys_munmap_grew _ _ _ _ _ G). unfold bind. destruct (sys_opt_grew _ _ _ _ G0) as (bz & kz & Ez & Gz). rewrite Ez. by eexists _, _.
Qed.

Definition ring_maps (r : res ringh) : list Z := match r with Ok r => option_list (rh_mem r) | Err _ => [] end.

Lemma setup_ring_grew k0 k fd fds maps : grew k0 k fds maps -> exists r k', setup_ring ans fd k = (r, k') /\ grew k0 k' fds (maps ++ ring_maps r).
Proof.
  intros G. unfold setup_ring. step (sys_opt_grew _ _ _ _ G). destruct b; cbn [negb]; [|eexists _, _; split; [done|]; cbn; by rewrite app_nil_r].
  step (sys_opt_grew _ _ _ _ G0). destruct b; cbn [negb]; [|eexists _, _; split; [done|]; cbn; by rewrite app_nil_r]. step (sys_mmap_grew _ _ _ _ G1). destruct b as [m|].
  { unfold bind, ret. eexists _, _. split; [done|]. done. }
  cbn [option_list option_rect] in G2. rewrite app_nil_r in G2. step (sys_mmap_grew _ _ _ _ G2). destruct b as [m|]; [by eexists _, _|]. unfold teardownRing, bind. destruct (sys_opt_grew _ _ _ _ G3) as (bz & kz & Ez & Gz). rewrite Ez. eexists _, _. split; [done|]. cbn in *. by rewrite !app_nil_r in *.
Qed.

Definition sock_fds (r : res (Z * option ringh)) : list Z := match r with Ok (fd, _) => [fd] | Err _ => [] end.
Definition rings_maps (l : list ringh) : list Z := concat (map (fun r => option_list (rh_mem r)) l).
Definition sock_maps (r : res (Z * option ringh)) : list Z := match r with Ok (_, r) => rings_maps (option_list r) | Err _ => [] end.

Lemma abandon_grew k0 k fd why fds maps : grew k0 k (fds ++ [fd]) maps -> exists k', abandon ans fd why k = (Err why, k') /\ grew k0 k' fds maps.
Proof.
  intros G. apply (grew_perm _ _ _ _ (fd :: fds) maps) in G; [|solve_Permutation|done]. unfold abandon, bind. destruct (sys_close_grew _ _ _ _ _ G) as (b & k' & -> & G'). by eexists.
Qed.

(** A call that is made only with some options. *)
Lemma opt_if_grew (c : bool) k0 k fds maps : grew k0 k fds maps -> exists b k', (if c then sys_opt ans else ret true) k = (b, k') /\ grew k0 k' fds maps.
Proof. intros G. destruct c; [by apply sys_opt_grew|by eexists _, _]. Qed.

(** A socket is open with its ring, or neither is. *)
Lemma openSocket_grew c wantRing fanout k0 k fds maps : grew k0 k fds maps ->
  exists r k', openSocket ans c wantRing fanout k = (r, k') /\ grew k0 k' (fds ++ sock_fds r) (maps ++ sock_maps r) /\ (forall fd rg, r = Ok (fd, rg) -> is_Some rg <-> wantRing = true).
Proof.
  intros G. unfold openSocket. step (sys_fd_grew _ _ _ _ G). destruct b as [fd|]; cbn [option_list option_rect] in G0; [|eexists _, _; split; [done|]; cbn; by rewrite !app_nil_r in *].
  assert (Hup : forall why k, grew k0 k (fds ++ [fd]) maps -> exists r k', abandon ans fd why k = (r, k') /\ grew k0 k' (fds ++ sock_fds r) (maps ++ sock_maps r) /\ (forall fd rg, r = Ok (fd, rg) -> is_Some rg <-> wantRing = true)).
  { intros why kk GG. destruct (abandon_grew _ _ _ why _ _ GG) as (k' & -> & G'). eexists _, _. split; [done|]. cbn. by rewrite !app_nil_r. }
  step (sys_opt_grew _ _ _ _ G0). destruct b; cbn [negb]; [|by apply Hup]. do 5 (match goal with Gx : grew _ ?kk _ _ |- context [?kk] => step (sys_opt_grew _ _ _ _ Gx); clear Gx end).
  match goal with Gx : grew _ ?kk _ _ |- context [?kk] => step (opt_if_grew (f_promiscuous c && wantRing) _ _ _ _ Gx); clear Gx end. match goal with |- context [negb ?b] => destruct b end; cbn [negb]; [|by apply Hup].
  match goal with Gx : grew _ ?kk _ _ |- context [?kk] => step (opt_if_grew (f_gso c) _ _ _ _ Gx); clear Gx end. match goal with |- context [negb ?b] => destruct b end; cbn [negb]; [|by apply Hup].
  match goal with Gx : grew _ ?kk _ _ |- context [?kk] => rename Gx into Gq; rename kk into kq end.
  assert (Hr : exists r k', (if wantRing then do r <- setup_ring ans fd; ret (let? r := r in Ok (Some r)) else ret (Ok None)) kq = (r, k') /\
    grew k0 k' (fds ++ [fd]) (maps ++ match r with Ok r => rings_maps (option_list r) | Err _ => [] end) /\ (forall rg, r = Ok rg -> is_Some rg <-> wantRing = true)).
  { destruct wantRing; [|eexists _, _; split; [done|]; cbn; rewrite app_nil_r; split; [done|]; intros rg [= <-]; split; [intros [? ?]; done|done]]. unfold bind. destruct (setup_ring_grew _ _ fd _ _ Gq) as (r & kz & -> & Gz). eexists _, _. split; [done|]. destruct r as [r|]; cbn in *; [|by rewrite app_nil_r in *].
    split; [unfold rings_maps; cbn; by rewrite app_nil_r|]. intros rg [= <-]. by split. }
  destruct Hr as (rr & kr & Er & Gr & Hring). unfold bind at 1. rewrite Er. clear Er. destruct rr as [rg|]; [|apply Hup; by rewrite app_nil_r in Gr]. specialize (Hring rg eq_refl).
  unfold bind at 1. destruct (opt_if_grew fanout _ _ _ _ Gr) as (ok & kf & Ef & Gf). rewrite Ef. destruct ok; cbn [negb]; [eexists _, _; split; [done|]; split; [done|]; intros ? ? [= <- <-]; done|].
  destruct rg as [r|]; unfold bind, ret; [|apply Hup; cbn in *; by rewrite app_nil_r in *].
  apply (grew_perm _ _ _ _ (fds ++ [fd]) (option_list (rh_mem r) ++ maps)) in Gf; [|done|unfold rings_maps; cbn; rewrite app_nil_r; solve_Permutation].
  destruct (ring_close_grew _ _ _ _ _ Gf) as (bc & kc & -> & Gc). by apply Hup.
Qed.

(** ** The device *)

Definition wakes (l : list rxh) : list Z := concat (map (fun x => if xh_closed x then [] else [xh_wake x]) l).
Definition dev_fds (d : device) : list Z := d_socks d ++ wakes (d_rx d).
Definition region_maps (r : option (option Z)) : list Z := match r with Some (Some m) => [m] | _ => [] end.
Definition dev_maps (d : device) : list Z := region_maps (d_region d) ++ rings_maps (d_rings d).

(** The device has what it names, in an operating system that had [k0]. *)
Definition holds (k0 : os) (d : device) (k : os) : Prop := grew k0 k (dev_fds d) (dev_maps d).

Lemma rings_maps_insert i r r' rings : rings !! i = Some r -> rh_mem r' = None -> rings_maps rings ≡ₚ option_list (rh_mem r) ++ rings_maps (<[i := r']> rings).
Proof.
  revert i. induction rings as [|x rings IH]; intros [|i] Hi Hr; try done; unfold rings_maps in *; cbn in *.
  - injection Hi as ->. rewrite Hr. done.
  - rewrite (IH i Hi Hr). solve_Permutation.
Qed.

Lemma close_ring_grew k0 k i rings fds maps : grew k0 k fds (maps ++ rings_maps rings) -> exists rings' k', close_ring ans i rings k = (rings', k') /\ grew k0 k' fds (maps ++ rings_maps rings').
Proof.
  intros G. unfold close_ring. destruct (rings !! i) as [r|] eqn:Ei; [|by eexists _, _]. unfold bind.
  apply (grew_perm _ _ _ _ fds (option_list (rh_mem r) ++ (maps ++ rings_maps (<[i := mkRingh (rh_fd r) None]> rings)))) in G; [|done|rewrite (rings_maps_insert i r (mkRingh (rh_fd r) None) rings Ei eq_refl); solve_Permutation].
  destruct (ring_close_grew _ _ _ _ _ G) as (b & k' & -> & G'). by eexists _, _.
Qed.

(** A queue closed: its wake descriptor and its ring are gone. *)
Lemma rx_close_grew k0 k x rings fds maps : grew k0 k (wakes [x] ++ fds) (maps ++ rings_maps rings) ->
  exists x' rings' k', rx_close ans x rings k = ((x', rings'), k') /\ grew k0 k' fds (maps ++ rings_maps rings') /\ xh_closed x' = true.
Proof.
  intros G. unfold rx_close. destruct (xh_closed x) eqn:Ec; unfold wakes in G; cbn in G; rewrite Ec in G; cbn [app] in G; [by eexists _, _, _|].
  unfold bind. destruct (sys_opt_grew _ _ _ _ G) as (b1 & k1 & -> & G1). destruct (sys_opt_grew _ _ _ _ G1) as (b2 & k2 & -> & G2). destruct (close_ring_grew _ _ (xh_ring x) _ _ _ G2) as (rings' & k3 & -> & G3).
  destruct (sys_close_grew _ _ _ _ _ G3) as (b4 & k4 & -> & G4). by eexists _, _, _.
Qed.

Lemma close_rxs_grew l : forall k0 k rings fds maps, grew k0 k (wakes l ++ fds) (maps ++ rings_maps rings) ->
  exists l' rings' k', close_rxs ans l rings k = ((l', rings'), k') /\ grew k0 k' fds (maps ++ rings_maps rings') /\ Forall (fun x => xh_closed x = true) l'.
Proof.
  induction l as [|x l IH]; intros k0 k rings fds maps G; cbn [close_rxs]; [by eexists _, _, _|]. unfold bind.
  apply (grew_perm _ _ _ _ (wakes [x] ++ (wakes l ++ fds)) (maps ++ rings_maps rings)) in G; [|unfold wakes; cbn [map concat]; rewrite app_nil_r; by rewrite <- app_assoc|done].
  destruct (rx_close_grew _ _ _ _ _ _ G) as (x' & r1 & k1 & -> & G1 & Hx). destruct (IH _ _ _ _ _ G1) as (l' & r2 & k2 & -> & G2 & Hl). eexists _, _, _. split; [done|]. split; [done|]. by constructor.
Qed.

Lemma close_rings_grew l : forall k0 k fds maps, grew k0 k fds (rings_maps l ++ maps) -> exists l' k', close_rings ans l k = (l', k') /\ grew k0 k' fds maps /\ Forall (fun r => rh_mem r = None) l'.
Proof.
  induction l as [|r l IH]; intros k0 k fds maps G; cbn [close_rings]; [by eexists _, _|]. unfold bind. unfold rings_maps in G. cbn [map concat] in G. rewrite <- app_assoc in G.
  destruct (ring_close_grew _ _ _ _ _ G) as (b & k1 & -> & G1). destruct (IH _ _ _ _ G1) as (l' & k2 & -> & G2 & Hl). eexists _, _. split; [done|]. split; [done|]. by constructor.
Qed.

Lemma close_socks_grew l : forall k0 k fds maps, grew k0 k (l ++ fds) maps -> exists k', close_socks ans l k = (tt, k') /\ grew k0 k' fds maps.
Proof.
  induction l as [|fd l IH]; intros k0 k fds maps G; cbn [close_socks]; [by eexists|]. unfold bind. destruct (sys_close_grew _ _ _ _ _ G) as (b & k1 & -> & G1). by apply IH.
Qed.

(** [Close] gives everything back, and says so to the next. *)
Lemma af_Close_grew k0 k d : holds k0 d k -> d_closed d = false -> exists d' k', af_Close ans d k = (d', k') /\ grew k0 k' [] [] /\ d_closed d' = true.
Proof.
  intros G Hc. unfold af_Close. rewrite Hc. unfold bind, holds, dev_fds, dev_maps in *. apply (grew_perm _ _ _ _ (wakes (d_rx d) ++ d_socks d) (region_maps (d_region d) ++ rings_maps (d_rings d))) in G; [|solve_Permutation|done].
  destruct (close_rxs_grew _ _ _ _ _ _ G) as (rx & r1 & k1 & -> & G1 & _). apply (grew_perm _ _ _ _ (d_socks d) (rings_maps r1 ++ region_maps (d_region d))) in G1; [|done|solve_Permutation].
  destruct (close_rings_grew _ _ _ _ _ G1) as (r2 & k2 & -> & G2 & _). rewrite <- (app_nil_r (d_socks d)) in G2. destruct (close_socks_grew _ _ _ _ _ G2) as (k3 & -> & G3).
  destruct (d_region d) as [[m|]|]; cbn [region_close region_maps] in *; unfold bind, ret; [|by eexists _, _..]. destruct (sys_munmap_grew _ _ _ _ _ G3) as (b & k4 & -> & G4). by eexists _, _.
Qed.

(** A queue closed by its owner leaves the rest. *)
Lemma close_queue_holds k0 k i d : holds k0 d k -> exists d' k', close_queue ans i d k = (d', k') /\ holds k0 d' k' /\ d_closed d' = d_closed d.
Proof.
  intros G. unfold close_queue. destruct (d_rx d !! i) as [x|] eqn:Ex; [|by eexists _, _]. unfold bind, holds, dev_fds, dev_maps in *.
  pose proof (take_drop_middle _ _ _ Ex) as Hmid. assert (Hw : wakes (d_rx d) ≡ₚ wakes [x] ++ wakes (take i (d_rx d)) ++ wakes (drop (S i) (d_rx d))) by (rewrite <- Hmid at 1; unfold wakes; rewrite map_app, concat_app; cbn [map concat]; rewrite app_nil_r; solve_Permutation).
  apply (grew_perm _ _ _ _ (wakes [x] ++ (d_socks d ++ wakes (take i (d_rx d)) ++ wakes (drop (S i) (d_rx d)))) (region_maps (d_region d) ++ rings_maps (d_rings d))) in G; [|rewrite Hw; solve_Permutation|done].
  destruct (rx_close_grew _ _ _ _ _ _ G) as (x' & rings' & k1 & -> & G1 & Hx). eexists _, _. split; [done|]. split; [|done]. cbn [d_socks d_rx d_region d_rings].
  eapply grew_perm; [exact G1| |done]. rewrite insert_take_drop by (by eapply lookup_lt_Some). unfold wakes. rewrite map_app, concat_app. cbn [map concat]. by rewrite Hx.
Qed.

(** ** Opening *)

(** How many of the sockets are to have a ring. *)
Fixpoint wanted (c : af_config) (is_ : list nat) : nat :=
  match is_ with [] => 0 | i :: is_ => (if (Z.of_nat i <? f_rxQueues c)%Z then 1 else 0) + wanted c is_ end.

Lemma wanted_seq c : forall n i, wanted c (seq i n) = Z.to_nat (Z.max 0 (Z.min (Z.of_nat n) (f_rxQueues c - Z.of_nat i))).
Proof using. induction n as [|n IH]; intros i; cbn [seq wanted]; [lia|]. rewrite IH. destruct (Z.ltb_spec (Z.of_nat i) (f_rxQueues c)); lia. Qed.

Lemma open_socks_holds c k0 : forall is_ d k, holds k0 d k -> d_closed d = false -> exists ok d' k', open_socks ans c is_ d k = ((ok, d'), k') /\ holds k0 d' k' /\ d_closed d' = false /\
  d_rx d' = d_rx d /\ d_tx d' = d_tx d /\ (ok = true -> length (d_socks d') = (length (d_socks d) + length is_)%nat /\ length (d_rings d') = (length (d_rings d) + wanted c is_)%nat).
Proof.
  induction is_ as [|i is_ IH]; intros d k G Hc; cbn [open_socks]; [eexists _, _, _; split; [done|]; split; [done|]; split; [done|]; split; [done|]; split; [done|]; cbn; lia|]. unfold bind. unfold holds, dev_fds, dev_maps in *.
  destruct (openSocket_grew c (Z.of_nat i <? f_rxQueues c) ((Z.of_nat i <? f_rxQueues c) && (f_rxQueues c >? 1)) _ _ _ _ G) as (r & k1 & -> & G1 & Hring). destruct r as [[fd rg]|]; [|cbn in G1; rewrite !app_nil_r in G1; by eexists false, d, k1].
  specialize (Hring fd rg eq_refl). cbn [sock_fds sock_maps] in G1.
  destruct (IH (mkDevice (d_region d) (d_tx d) (d_rx d) (d_socks d ++ [fd]) (d_rings d ++ option_list rg) (d_closed d)) k1) as (ok & d' & k' & E & H1 & H2 & H3 & H3' & H4); [|done|].
  { cbn. eapply grew_perm; [exact G1|solve_Permutation|]. unfold rings_maps. rewrite map_app, concat_app. solve_Permutation. }
  rewrite E. eexists _, _, _. split; [done|]. split; [done|]. split; [done|]. split; [done|]. split; [done|]. intros Hok. destruct (H4 Hok) as [L1 L2]. cbn in L1, L2. rewrite length_app in L1, L2. cbn [length wanted] in *. split; [lia|]. rewrite L2.
  destruct (Z.ltb_spec (Z.of_nat i) (f_rxQueues c)) as [Hlt|Hge].
  - destruct (proj2 Hring eq_refl) as [r ->]. cbn. lia.
  - destruct rg as [r|]; [by assert (false = true) by (apply Hring; by eexists)|]. cbn. lia.
Qed.

Lemma open_txs_holds k0 k : forall runs i d, holds k0 d k -> d_socks d <> [] -> exists d', open_txs i runs d = Some d' /\ holds k0 d' k /\ d_socks d' = d_socks d /\ d_rings d' = d_rings d /\ d_rx d' = d_rx d /\ d_closed d' = d_closed d /\
  map th_run (d_tx d') = map th_run (d_tx d) ++ runs.
Proof.
  induction runs as [|r runs IH]; intros i d G Hne; cbn [open_txs]; [eexists; split; [done|]; by rewrite app_nil_r|]. unfold sock_for.
  destruct (lookup_lt_is_Some_2 (d_socks d) (i mod length (d_socks d))) as [fd Hfd]; [apply Nat.mod_upper_bound; by destruct (d_socks d)|]. rewrite Hfd. cbn [mbind option_bind].
  destruct (IH (S i) (mkDevice (d_region d) (d_tx d ++ [mkTxh fd r false]) (d_rx d) (d_socks d) (d_rings d) (d_closed d)) G Hne) as (d' & E & H1 & H2 & H3 & H4 & H5 & H6). exists d'. split; [done|]. split; [done|]. cbn in H6. rewrite map_app, <- app_assoc in H6. done.
Qed.

Lemma open_rxs_holds k0 : forall runs i d k, holds k0 d k -> d_closed d = false -> (i + length runs <= length (d_socks d))%nat -> (i + length runs <= length (d_rings d))%nat ->
  exists ok d' k', open_rxs ans i runs d k = (Some (ok, d'), k') /\ holds k0 d' k' /\ d_closed d' = false /\ d_tx d' = d_tx d /\ (ok = true -> map xh_run (d_rx d') = map xh_run (d_rx d) ++ runs).
Proof.
  induction runs as [|r runs IH]; intros i d k G Hc Hs Hr; cbn [open_rxs]; [eexists _, _, _; split; [done|]; split; [done|]; by rewrite app_nil_r|]. cbn [length] in *.
  destruct (lookup_lt_is_Some_2 (d_socks d) i ltac:(lia)) as [fd ->]. destruct (lookup_lt_is_Some_2 (d_rings d) i ltac:(lia)) as [rg ->]. unfold bind.
  destruct (sys_fd_grew _ _ _ _ G) as (w & k1 & -> & G1). destruct w as [w|]; [|cbn in G1; rewrite app_nil_r in G1; by eexists false, d, k1].
  destruct (IH (S i) (mkDevice (d_region d) (d_tx d) (d_rx d ++ [mkRxh fd i w r false]) (d_socks d) (d_rings d) (d_closed d)) k1) as (ok & d' & k' & E & H1 & H2 & H3 & H4); [|done|cbn; lia|cbn; lia|].
  { unfold holds, dev_fds, dev_maps in *. cbn. eapply grew_perm; [exact G1| |done]. unfold wakes. rewrite map_app, concat_app. cbn. solve_Permutation. }
  eexists _, _, _. split; [exact E|]. split; [done|]. split; [done|]. split; [done|]. intros Hok. specialize (H4 Hok). cbn in H4. rewrite map_app, <- app_assoc in H4. done.
Qed.

Lemma fail_open_grew k0 k d why : holds k0 d k -> d_closed d = false -> exists k', fail_open ans d why k = (Some (Err why), k') /\ grew k0 k' [] [].
Proof. intros G Hc. unfold fail_open, bind. destruct (af_Close_grew _ _ _ G Hc) as (d' & k' & -> & G' & _). by eexists. Qed.

(** What [Open] leaves: everything as it was, or a device that holds what it
    opened and has the runs of its configuration. *)
Definition opened_ok (opts : list af_option) (k : os) (r : res device) (k' : os) : Prop :=
  match r with
  | Err _ => grew k k' [] []
  | Ok d => holds k d k' /\ d_closed d = false /\ map th_run (d_tx d) = tx_runs (config_of opts) /\ map xh_run (d_rx d) = rx_runs (config_of opts)
  end.

Lemma af_Open_spec up opts k : os_ok k -> exists r k', af_Open ans up opts k = (Some r, k') /\ opened_ok opts k r k'.
Proof.
  intros Hk. pose proof (grew_same k Hk) as G0. unfold af_Open. destruct (af_validate (config_of opts)) as [e|] eqn:Ev; [by eexists _, _|]. destruct up as [[|]|]; [|by eexists _, _..].
  set (c := config_of opts) in *. destruct (af_validate_checked c Ev) as [(Q1 & Q2 & Q3) _ _ _ _ _]. unfold queues_of in Q3. unfold bind at 1. destruct (sys_mmap_grew _ _ _ _ G0) as (mem & k1 & -> & G1).
  assert (Hfail : forall d kk why, holds k d kk -> d_closed d = false -> exists r k', fail_open ans d why kk = (Some r, k') /\ opened_ok opts k r k') by (intros d kk why HG HC; destruct (fail_open_grew _ _ _ why HG HC) as (k' & -> & G'); by eexists _, _).
  destruct mem as [m|]; [|by apply Hfail]. unfold bind at 1.
  destruct (open_socks_holds c k (seq 0 (Z.to_nat (Z.max (f_rxQueues c) (f_txQueues c)))) (mkDevice (Some (Some m)) [] [] [] [] false) k1) as (ok & d & k2 & -> & G2 & Hc2 & Hrx2 & Htx2 & Hlen); [exact G1|done|].
  destruct ok; cbn [negb]; [|by apply Hfail]. destruct (Hlen eq_refl) as [L1 L2]. cbn [d_socks d_rings length] in L1, L2. rewrite length_seq in L1. rewrite wanted_seq in L2.
  destruct (open_txs_holds k k2 (tx_runs c) 0 d G2) as (d3 & -> & G3 & S3 & R3 & X3 & C3 & T3); [destruct (d_socks d); [cbn in L1; lia|done]|].
  pose proof (length_af_runs (Z.to_nat (f_rxQueues c)) (perQueue c) (f_txQueues c * perQueue c)) as Lr. fold (rx_runs c) in Lr. unfold bind.
  destruct (open_rxs_holds k (rx_runs c) 0 d3 k2 G3) as (ok & d4 & k4 & -> & G4 & C4 & T4 & R4); [by rewrite C3|rewrite S3, Lr; lia|rewrite R3, Lr; lia|].
  destruct ok; cbn [negb]; [|by apply Hfail]. eexists _, _. split; [done|]. split; [done|]. split; [done|]. rewrite T4, T3, (R4 eq_refl), X3, Hrx2, Htx2. done.
Qed.
End calls.
