(* ===== verification/AfClaims.v ===== *)
(** A device of the AF_PACKET backend as [Open] leaves it: the configuration,
    the region, the ring and a transmit and a receive queue over their runs of
    frames satisfy the invariant the system starts from. *)

From stdpp Require Import prelude list numbers strings.
From S2P Require Import Prelude Bytes Desc Pool Mlx5Region Csum AfTx AfTxWire AfTxOps AfTxGather AfTxFrames AfRing AfRingBufs AfRingThms AfRx AfRxThms AfSystem AfOptions AfOpen AfOpenThms.

(** [mmap] of a ring gives the bytes asked for, with anything in them. *)
Definition maps_bytes (mmap : Z -> res (list Z)) : Prop := forall n mem, mmap n = Ok mem -> zlen mem = n /\ bytes_ok mem.

(** The queues [tx] and [rx] of a device opened with [opts]. *)
Record af_opened (checked : bool) (opts : list af_option) (rt rr : Z * Z) (rg : region) (tx : AfTx Frames) (rx : AfRx Frames) : Prop := mkAfOpened {
  oo_valid : af_validate (config_of opts) = None;
  oo_counts : counts_right (config_of opts);
  oo_small : f_frameSize (config_of opts) <= 2 ^ 17;
  oo_txrun : rt ∈ tx_runs (config_of opts);
  oo_rxrun : rr ∈ rx_runs (config_of opts);
  oo_region : exists mmap, af_newRegion mmap (f_frames (config_of opts)) (f_frameSize (config_of opts)) = Ok rg;
  oo_tx : af_newTxQueue (New checked) rg (fst rt) (snd rt) (f_gso (config_of opts)) = Some tx;
  oo_rx : exists mmap ring, maps_bytes mmap /\ setupRing mmap (f_gso (config_of opts)) (f_multiBuffer (config_of opts)) = Ok ring /\
    af_newRxQueue (New checked) rg ring (fst rr) (snd rr) = Some rx }.

(** The ring [setupRing] makes. *)
Lemma setupRing_ok mmap vnet chain r : maps_bytes mmap -> setupRing mmap vnet chain = Ok r -> ring_ok r /\ r_vnet r = vnet /\ r_chain r = chain.
Proof.
  intros Hm. unfold setupRing.
  assert (Hsz : forall bs bn mem, 64 <= bs -> 1 <= bn -> bs * bn < 2 ^ 32 -> mmap (u32 (bs * bn)) = Ok mem -> ring_ok (mkRing mem bs bn 0 0 0 false 0 0 0 chain vnet)).
  { intros bs bn mem H1 H2 H3 E. destruct (Hm _ _ E) as [Hz Hb]. rewrite u32_small in Hz by nia. constructor; cbn; try done; lia. }
  destruct vnet; cbv zeta beta iota; match goal with |- context [mmap ?n] => destruct (mmap n) as [mem|] eqn:E; [|done] end; intros [= <-]; (split; [|done]); eapply Hsz; try exact E; vm_compute; congruence.
Qed.

(** A fresh transmit queue. *)
Lemma new_tx_ok checked g (rg : region) gso tx : geo_ok g -> rg_frameSize rg = fsize g -> af_newTxQueue (New checked) rg (g_first g) (g_count g) gso = Some tx ->
  txq_ok tx /\ pool_inv checked g (at_pool tx) /\ free (at_pool tx) = reverse (all_frames g) /\ rejected (at_pool tx) = 0 /\ at_pending tx = [] /\ at_closed tx = false /\ at_gso tx = gso.
Proof.
  intros Hg Hf E. unfold af_newTxQueue in E. rewrite Hf in E. destruct (New_spec g Hg checked) as (p & Ep & Hp & Hpf & Hpr). rewrite Ep in E. cbn [mbind option_bind] in E.
  destruct (wireOnePerPacket_spec gso (mkWiring (replicate (Z.to_nat txBatch) (mkMsg None 0)) (replicate (Z.to_nat txBatch) (mkIov None 0)) (if gso then replicate (Z.to_nat txBatch) (replicate (Z.to_nat OffloadHdrLen) 0) else []) (if gso then replicate (2 * Z.to_nat txBatch) (mkIov None 0) else []) [] false)) as (w & Ew & Hw & _).
  { constructor; cbn [w_msgs w_iovs w_hdrs w_iovs2]; [by rewrite zlen_replicate|by rewrite zlen_replicate|intros ->; split; [by rewrite zlen_replicate|by apply Forall_replicate]|intros ->; by rewrite zlen_replicate]. }
  rewrite Ew in E. cbn [mbind option_bind] in E. injection E as <-. split; [|done]. by constructor.
Qed.

Lemma new_rx_ok checked g (rg : region) ring rx : geo_ok g -> rg_frameSize rg = fsize g -> af_newRxQueue (New checked) rg ring (g_first g) (g_count g) = Some rx ->
  ar_ring rx = ring /\ pool_inv checked g (ar_pool rx) /\ free (ar_pool rx) = reverse (all_frames g) /\ rejected (ar_pool rx) = 0 /\ ar_closed rx = false.
Proof.
  intros Hg Hf E. unfold af_newRxQueue in E. rewrite Hf in E. destruct (New_spec g Hg checked) as (p & Ep & Hp & Hpf & Hpr). rewrite Ep in E. cbn [mbind option_bind] in E. by injection E as <-.
Qed.

(** A region of validated size. *)
Lemma new_region_ok mmap frames kf rg : 0 <= kf <= 31 -> frames < 2 ^ 31 -> af_newRegion mmap frames (2 ^ kf) = Ok rg -> region_ok kf rg /\ zlen (rg_b rg) = frames * 2 ^ kf /\ rg_frameSize rg = 2 ^ kf.
Proof.
  intros Hk Hf E. assert (2 ^ kf <= 2 ^ 31) by (apply Z.pow_le_mono_r; lia). destruct (af_newRegion_ok mmap frames (2 ^ kf) rg ltac:(lia) Hf E) as (k2 & Hr & Hp & Hz).
  assert (k2 = kf) as -> by (symmetry; apply (Z.pow_inj_r 2); [lia|lia|destruct (decide (0 <= k2)); [done|]; rewrite (Z.pow_neg_r 2 k2) in Hp by lia; assert (0 < 2 ^ kf) by (apply Z.pow_pos_nonneg; lia); lia|done]).
  split; [done|]. split; [done|]. unfold af_newRegion in E. case_if_in E; [done|]. case_if_in E; [done|]. destruct (mmap _); [|done]. by injection E as <-.
Qed.

(** Where runs are. *)
Lemma runs_apart c rt rr : 0 <= perQueue c -> 0 <= f_txQueues c -> rt ∈ tx_runs c -> rr ∈ rx_runs c -> fst rt + snd rt <= fst rr.
Proof.
  intros Hp Ht H1 H2. apply list_elem_of_lookup in H1 as [i Hi]. apply list_elem_of_lookup in H2 as [j Hj]. destruct (af_runs_spec _ _ _ _ _ Hp Hi) as [-> Hil]. destruct (af_runs_spec _ _ _ _ _ Hp Hj) as [-> _]. cbn [fst snd].
  assert (Z.of_nat i + 1 <= f_txQueues c) by lia. assert ((Z.of_nat i + 1) * perQueue c <= f_txQueues c * perQueue c) by (apply Z.mul_le_mono_nonneg_r; lia). assert (0 <= Z.of_nat j * perQueue c) by (apply Z.mul_nonneg_nonneg; lia). lia.
Qed.

(** What the theorems on the system need, from the configuration to the
    queues. *)
Record af_ready (checked : bool) (opts : list af_option) (rt rr : Z * Z) (kf : Z) : Prop := mkAfReady {
  ry_log : 7 <= kf <= 17;
  ry_gt : geo_ok (run_geo kf rt);
  ry_gr : geo_ok (run_geo kf rr);
  ry_disjoint : NoDup (all_frames (run_geo kf rt) ++ all_frames (run_geo kf rr));
  ry_covt : (fst rt + snd rt) * 2 ^ kf <= f_frames (config_of opts) * 2 ^ kf;
  ry_covr : (fst rr + snd rr) * 2 ^ kf <= f_frames (config_of opts) * 2 ^ kf;
  ry_bytes : f_frames (config_of opts) * 2 ^ kf < 2 ^ 63 }.

Lemma af_opened_ready checked opts rt rr rg tx rx : af_opened checked opts rt rr rg tx rx -> exists kf, f_frameSize (config_of opts) = 2 ^ kf /\ af_ready checked opts rt rr kf /\ f_frames (config_of opts) < 2 ^ 31.
Proof.
  intros [Hv Hcr Hsm Ht Hr _ _ _]. set (c := config_of opts) in *. pose proof (af_validate_checked c Hv) as Hc. destruct (perQueue_bounds c Hc) as [Hp Hq]. pose proof (runs_apart c rt rr Hp (proj1 (proj1 (fc_queues c Hc))) Ht Hr) as Hap.
  destruct (fc_size c Hc) as (kf & Hs & Hk & _). exists kf. split; [done|].
  assert (Hk17 : kf <= 17) by (destruct (decide (kf <= 17)); [done|]; assert (2 ^ 18 <= 2 ^ kf) by (apply Z.pow_le_mono_r; lia); lia).
  assert (Hpow : 128 <= 2 ^ kf) by (change 128 with (2 ^ 7); apply Z.pow_le_mono_r; lia). pose proof (fc_frames c Hc) as Hfr. pose proof (fc_bytes c Hc) as Hby. unfold counts_right in Hcr. rewrite Hs in Hby, Hcr. rewrite int64_small in Hby by nia.
  assert (Hall : forall r, r ∈ tx_runs c ++ rx_runs c -> geo_ok (run_geo kf r) /\ (fst r + snd r) * 2 ^ kf <= f_frames c * 2 ^ kf).
  { intros r Hin. destruct (fc_queues c Hc) as (Q1 & Q2 & Q3). rewrite (all_runs c) in Hin by lia. apply list_elem_of_lookup in Hin as [i Hi]. destruct (af_runs_spec _ _ _ _ _ Hp Hi) as [-> Hlt]. cbn [fst snd]. unfold geo_ok, run_geo, fsize. cbn [g_log g_first g_count].
    assert (0 <= Z.of_nat i * perQueue c) by (apply Z.mul_nonneg_nonneg; lia). assert ((Z.of_nat i + 1) * perQueue c <= queues_of c * perQueue c) by (apply Z.mul_le_mono_nonneg_r; lia).
    assert (Hle : 0 + Z.of_nat i * perQueue c + perQueue c <= f_frames c) by lia. assert (Hm : (0 + Z.of_nat i * perQueue c + perQueue c) * 2 ^ kf <= f_frames c * 2 ^ kf) by (apply Z.mul_le_mono_nonneg_r; lia).
    split; [|done]. split; [lia|]. split; [by rewrite Z.add_0_l|]. split; [done|]. eapply Z.le_lt_trans; [exact Hm|]. eapply Z.le_lt_trans; [exact Hby|]. done. }
  destruct (Hall rt ltac:(set_solver)) as [G1 C1]. destruct (Hall rr ltac:(set_solver)) as [G2 C2]. split; [|nia]. constructor; try done. apply all_frames_disjoint; try done. by left.
Qed.

Section ready.
Context {K : Type} `{!Kernel K}.

(** The state the program starts from satisfies the invariant. *)
Lemma af_opened_inv checked opts rt rr rg tx rx kf (k : K) : af_opened checked opts rt rr rg tx rx -> f_frameSize (config_of opts) = 2 ^ kf -> f_frames (config_of opts) < 2 ^ 31 -> af_ready checked opts rt rr kf ->
  @ainv Frames (frames_pool checked) K (run_geo kf rt) (run_geo kf rr) (pool_inv checked (run_geo kf rt)) (pool_inv checked (run_geo kf rr)) (f_frames (config_of opts) * 2 ^ kf) (mkAsys tx rx k rg []).
Proof using.
  intros [_ _ _ _ _ (mm & Hrg) Htx (mm2 & ring & Hmb & Hring & Hrx)] Hs Hf31 Hy. rewrite Hs in Hrg. destruct (new_region_ok mm _ kf rg ltac:(destruct Hy; lia) Hf31 Hrg) as (R1 & R2 & R3).
  destruct (new_tx_ok checked (run_geo kf rt) rg _ tx (ry_gt _ _ _ _ _ Hy) R3 Htx) as (T1 & T2 & T3 & T4 & T5 & _). destruct (new_rx_ok checked (run_geo kf rr) rg ring rx (ry_gr _ _ _ _ _ Hy) R3 Hrx) as (X1 & X2 & X3 & X4 & _).
  destruct (setupRing_ok _ _ _ _ Hmb Hring) as (Q1 & _). constructor; cbn [a_tx a_rx a_rg]; try done; [by rewrite X1|].
  unfold af_conserved. cbn [a_tx a_rx a_held]. rewrite T5. cbn [map app fp_free frames_pool]. rewrite T3, X3, !reverse_Permutation. by rewrite app_nil_r.
Qed.
End ready.

(** What holds of the AF_PACKET backend: the properties, each with an instance
    on a small concrete device. *)

(** ** A concrete kernel *)

(** A wire, and how many messages each coming call is to take; with none left
    the queue is full. *)
Record lan : Set := mkLan { l_wire : list (list Z); l_takes : list Z }.

Definition lan_send (ms : list (list Z)) (k : lan) : Z * Z * lan :=
  match l_takes k with
  | [] => (0, EAGAIN, k)
  | n :: takes => let t := take (Z.to_nat n) ms in (zlen t, 0, mkLan (l_wire k ++ t) takes)
  end.

#[export] Instance lan_kernel : Kernel lan := { k_wire := l_wire; sendmmsg := lan_send }.

#[export] Instance lan_laws : KernelLaws lan.
Proof.
  constructor; intros ms k got errno k'; cbn; unfold lan_send; destruct (l_takes k) as [|n takes]; intros [= <- <- <-] Hz; try done; cbn.
  rewrite zlen_take. pose proof (zlen_nonneg ms). split; [lia|]. f_equal. destruct (decide (Z.to_nat n <= length ms)%nat); [f_equal; unfold zlen; lia|]. rewrite !take_ge by (unfold zlen in *; lia). done.
Qed.

(** ** Sending *)

Section send.
Context {K : Type} `{!Kernel K}.

(** More rounds than it takes change nothing. *)
Lemma send_loop_more b segs w n : forall fuel fuel' sent stall c (k : K) r, send_loop fuel b segs w n sent stall c k = Some r -> (fuel <= fuel')%nat -> send_loop fuel' b segs w n sent stall c k = Some r.
Proof using.
  induction fuel as [|fuel IH]; intros [|fuel'] sent stall c k r E Hf; cbn [send_loop] in *; try lia; try done; destruct (sent <? n); try done.
  destruct (slice sent n (w_msgs w)) as [msgs|]; [|done]. cbn [mbind option_bind] in *. destruct (mapM (read_msg b segs w) msgs) as [ms|]; [|done]. cbn [mbind option_bind] in *. destruct (sendmmsg ms k) as [[got errno] k1].
  case_if_in E; [by apply IH; [|lia]|]. case_if_in E; [done|]. case_if_in E; [done|]. by apply IH; [|lia].
Qed.
End send.

(** C37: [sendAll] ends: whatever the kernel answers, at most sixteen system
    calls a message decide the batch.  What it reports went, in order, and if
    that is not all a counter says why: the device was full, or the rest was
    dropped. *)
Theorem sendAll_ends {K : Type} `{!Kernel K} `{!KernelLaws K} b segs w n c (k : K) ms :
  0 <= n <= zlen (w_msgs w) -> mapM (read_msg b segs w) (take (Z.to_nat n) (w_msgs w)) = Some ms ->
  exists sent c' k', (forall fuel, maxStall * n <= Z.of_nat fuel -> send_loop fuel b segs w n 0 0 c k = Some (sent, c', k')) /\
    0 <= sent <= n /\ k_wire k' = k_wire k ++ take (Z.to_nat sent) ms /\ stopped n sent c c'.
Proof.
  intros Hn Hm. unfold maxStall. destruct (send_loop_spec b segs w n ms Hm Hn (Z.to_nat (maxStall * n)) 0 0 c k) as (sent & c' & k' & E & Hs & Hst & Hw); [lia|unfold maxStall; lia|unfold maxStall; lia|].
  exists sent, c', k'. split; [|split; [lia|split; [by rewrite Z.sub_0_r, drop_0 in Hw|done]]]. intros fuel Hf. eapply send_loop_more; [exact E|]. unfold maxStall. lia.
Qed.

(** Two messages of one frame each, and a kernel that takes nothing, one, and
    one again. *)
Definition two_messages : wiring := mkWiring [plain_msg false 0; plain_msg false 1] [mkIov (Some (PFrame 0)) 2; mkIov (Some (PFrame 2)) 1] [] [] [] false.

Lemma sendAll_ends_witness : exists sent c' k', (forall fuel, maxStall * 2 <= Z.of_nat fuel -> send_loop fuel [7; 8; 9] [] two_messages 2 0 0 (mkCounters 0 0 0 0 0 0 0) (mkLan [] [0; 1; 1]) = Some (sent, c', k')) /\
  0 <= sent <= 2 /\ k_wire k' = k_wire (mkLan [] [0; 1; 1]) ++ take (Z.to_nat sent) [[7; 8]; [9]] /\ stopped 2 sent (mkCounters 0 0 0 0 0 0 0) c'.
Proof. apply (sendAll_ends [7; 8; 9] [] two_messages 2 (mkCounters 0 0 0 0 0 0 0) (mkLan [] [0; 1; 1]) [[7; 8]; [9]]); [by vm_compute|reflexivity]. Defined.

(** ** The checksum *)

(** [completeL4] never indexes outside the frame, whatever the two offsets
    are.  A pair that does not fit leaves the frame as it was; otherwise the two
    bytes of the field, and only they, change, to a sum that is not zero and
    with which the summed range and the partial that was in the field add up to
    ones-complement zero - what the receiver checks.  The range ends where the
    packet inside ends, behind any VLAN tags and before any padding. *)
Theorem completeL4_exact frame cs co : bytes_ok frame -> zlen frame <= 2 ^ 17 ->
  exists ok frame', completeL4 frame cs co = Some (ok, frame') /\
    (ok = true <-> field_fits frame cs co) /\ (ok = false -> frame' = frame) /\
    (ok = true -> exists e, completed frame cs co e frame' /\ forall pe, ip_packet frame pe -> cs + co + 2 <= pe -> e = pe).
Proof. apply completeL4_spec. Qed.

(** A tagged IPv4 datagram with padding behind it. *)
Definition padded_frame : list Z :=
  replicate 12 2 ++ [0x81; 0; 0; 7; 8; 0] ++ [0x45; 0; 0; 32] ++ replicate 16 1 ++ [0; 53; 0; 53; 0; 12; 0x1a; 0x2b; 1; 2; 3; 4] ++ replicate 14 0.

Lemma completeL4_exact_witness : exists e frame', completeL4 padded_frame 38 6 = Some (true, frame') /\ completed padded_frame 38 6 e frame'.
Proof.
  destruct (completeL4_exact padded_frame 38 6) as (ok & frame' & E & H1 & _ & H3); [by apply (bool_decide_unpack _)|by vm_compute|].
  assert (Hok : ok = true) by (apply H1; by vm_compute). destruct (H3 Hok) as (e & He & _). exists e, frame'. rewrite <- Hok. split; [exact E|exact He].
Defined.

(** ** What the counters say *)

(** A device that has gone away. *)
Record gone_lan : Set := mkGone { g_wire : list (list Z) }.
#[export] Instance gone_kernel : Kernel gone_lan := { k_wire := g_wire; sendmmsg := fun _ k => (0, 100, k) }.

(** Two frames of one packet are lost; the counter of lost frames moves by one. *)
Lemma chained_drops_undercount : exists q q' : AfTx Frames, af_newTxQueue (New true) (mkRegion [] 128 127 4 false) 0 4 false = Some q /\
  @at_transmit Frames gone_lan _ (mkRegion (replicate 512 0) 128 127 4 false) [mkDesc 64 20 OptContinued; mkDesc 192 20 0] None q (mkGone []) = Some (0, None, q', mkGone []) /\ n_drops (at_n q') = 1.
Proof. eexists _, _. split; [vm_compute; reflexivity|]. split; [vm_compute; reflexivity|]. reflexivity. Qed.

(** ** Programs on a device *)

Section programs.
Context {K : Type} `{!Kernel K} `{!KernelLaws K}.
Context (checked : bool) (opts : list af_option) (rt rr : Z * Z) (rg : region) (tx : AfTx Frames) (rx : AfRx Frames) (k0 : K).

#[local] Instance af_pool : FramePool Frames := frames_pool checked.

(** The frames of the two queues. *)
Definition af_log : Z := Z.log2 (f_frameSize (config_of opts)).
Definition af_gt : geometry := run_geo af_log rt.
Definition af_gr : geometry := run_geo af_log rr.
Definition af_bytes : Z := f_frames (config_of opts) * 2 ^ af_log.

(** The device was opened with [opts], and a program that keeps the contract
    brought it to [s]. *)
Definition af_reach (s : asys Frames K) : Prop := af_opened checked opts rt rr rg tx rx /\ areach af_gt af_gr (mkAsys tx rx k0 rg []) s.

Lemma af_reach_inv s : af_reach s -> af_ready checked opts rt rr af_log /\ ainv af_gt af_gr (pool_inv checked af_gt) (pool_inv checked af_gr) af_bytes s /\
  forall op, af_may af_gt af_gr op s -> exists s', ado op s = Some s'.
Proof using KernelLaws0.
  intros [Ho Hr]. destruct (af_opened_ready _ _ _ _ _ _ _ Ho) as (kf & Hs & Hy & Hf). assert (Hk : af_log = kf) by (unfold af_log; rewrite Hs; apply Z.log2_pow2; destruct Hy; lia).
  unfold af_gt, af_gr, af_bytes in *. rewrite Hk in *. split; [done|]. pose proof (frames_pool_laws checked _ (ry_gt _ _ _ _ _ Hy)) as L1. pose proof (frames_pool_laws checked _ (ry_gr _ _ _ _ _ Hy)) as L2.
  pose proof (af_opened_inv checked opts rt rr rg tx rx kf k0 Ho Hs Hf Hy) as H0. destruct Hy as [Y1 Y2 Y3 Y4 Y5 Y6 Y7].
  pose proof (areach_inv (run_geo kf rt) (run_geo kf rr) _ _ (f_frames (config_of opts) * 2 ^ kf) eq_refl Y1 Y4 Y5 Y6 Y7 _ s H0 Hr) as Hi. split; [done|].
  intros op Hm. destruct (ado_inv (run_geo kf rt) (run_geo kf rr) _ _ (f_frames (config_of opts) * 2 ^ kf) eq_refl Y1 Y4 Y5 Y6 Y7 op s Hi Hm) as (s' & E & _). by exists s'.
Qed.
End programs.

(** C5: a program that receives, forwards and sends on an AF_PACKET device, in
    any order and with whatever the kernel writes into the ring and answers to
    a send, never loses a frame and never has one in two places; no pool ever
    refuses one; and no permitted call panics. *)
Theorem af_frames_conserved {K : Type} `{!Kernel K} `{!KernelLaws K} checked opts rt rr rg tx rx (k0 : K) s :
  af_reach checked opts rt rr rg tx rx k0 s ->
  @af_conserved Frames (frames_pool checked) K (af_gt opts rt) (af_gr opts rr) s /\ rejected (at_pool (a_tx s)) = 0 /\ rejected (ar_pool (a_rx s)) = 0 /\
  forall op, af_may (af_gt opts rt) (af_gr opts rr) op s -> exists s', @ado Frames (frames_pool checked) K _ op s = Some s'.
Proof.
  intros Hr. destruct (af_reach_inv _ _ _ _ _ _ _ _ _ Hr) as (_ & Hi & Hgo). split; [apply Hi|]. destruct (ai_rejected _ _ _ _ _ _ Hi) as [H1 H2]. split; [exact H1|]. split; [exact H2|exact Hgo].
Qed.

(** C19: [Transmit] and [TransmitOffload]: the descriptors accepted are a prefix
    made of whole packets, each of bytes of the region's frames; exactly those
    packets, each behind its metadata with GSO, are what the wire gets, in
    order; exactly those frames are pending after; and if some were left over,
    the pending list is full or a counter moved. *)
Theorem af_transmit_exact {K : Type} `{!Kernel K} `{!KernelLaws K} checked opts rt rr rg tx rx (k0 : K) s ds offs :
  af_reach checked opts rt rr rg tx rx k0 s -> at_closed (a_tx s) = false -> Forall desc_ok ds -> offs_reach offs (zlen ds) ->
  exists n err q' k', at_transmit (a_rg s) ds offs (a_tx s) (a_k s) = Some (n, err, q', k') /\ tx_res (af_log opts) (a_rg s) offs ds n err (a_tx s) (a_k s) q' k'.
Proof.
  intros Hr Hc Hd Ho. destruct (af_reach_inv _ _ _ _ _ _ _ _ _ Hr) as (_ & Hi & _). apply at_transmit_spec; try done; [apply (ai_region _ _ _ _ _ _ Hi)|apply (ai_tx _ _ _ _ _ _ Hi)].
Qed.

(** C38: [TransmitGather] sends the caller's segments themselves: exactly the
    packets accepted are on the wire, each its segments one after the other, no
    frame of the queue moves, and if some packets were left over a counter
    moved. *)
Theorem af_gather_exact {K : Type} `{!Kernel K} `{!KernelLaws K} checked opts rt rr rg tx rx (k0 : K) s segs counts offs :
  af_reach checked opts rt rr rg tx rx k0 s -> at_closed (a_tx s) = false -> (forall os, offs = Some os -> at_gso (a_tx s) = true /\ zlen os = zlen counts) ->
  exists n err q' k', at_TransmitGather (a_rg s) segs counts offs (a_tx s) (a_k s) = Some (n, err, q', k') /\ gres segs counts offs n err (a_tx s) (a_k s) q' k'.
Proof.
  intros Hr Hc Ho. destruct (af_reach_inv _ _ _ _ _ _ _ _ _ Hr) as (_ & Hi & _). pose proof (ai_tx _ _ _ _ _ _ Hi) as Hq. unfold at_TransmitGather. rewrite Hc. pose proof (zlen_nonneg segs). pose proof (zlen_nonneg counts).
  destruct (Z.eqb_spec (zlen counts) 0) as [Hz|Hz]; [eexists _, _, _, _; split; [done|]; by apply (gres_nothing _ _ _ None)|].
  destruct (gather_loop_spec (a_rg s) segs counts offs ltac:(intros os E; destruct (Ho os E); lia) (length counts) 0 0 (a_tx s) (a_k s) Hq ltac:(lia) ltac:(lia) ltac:(unfold zlen; lia)) as (n & err & q' & k' & E & G).
  rewrite Z.add_0_l in E. rewrite !drop_0 in G. assert (Ed : drop (Z.to_nat 0) <$> offs = offs) by (by destruct offs). rewrite Ed in G. exists n, err, q', k'. split; [|done].
  destruct offs as [os|]; [|done]. destruct (Ho os eq_refl) as [-> ->]. by rewrite Z.eqb_refl.
Qed.

(** C6: [Receive], whatever the kernel wrote into the ring: the descriptors are
    those of the packets the ring's machine delivers, in order, where a block is
    opened once, and one a call left half-read is taken up at the next packet;
    each packet whole in consecutive frames that were free and marked as continued but for
    the last, with its VLAN tag back in place, its offload metadata - the
    checksum finished where one frame holds the packet - and its time; no other
    byte of the region changes; every frame not used is free again; and an
    empty batch means that the ring had nothing, or that the next packet is
    bigger than all the frames free. *)
Theorem af_receive_exact {K : Type} `{!Kernel K} `{!KernelLaws K} checked opts rt rr rg tx rx (k0 : K) s max ts :
  af_reach checked opts rt rr rg tx rx k0 s -> ar_closed (a_rx s) = false -> 0 < max ->
  exists descs offs stamps rg' q' l, @receive Frames (frames_pool checked) max ts (a_rg s) (a_rx s) = Some (descs, offs, stamps, rg', q') /\
    @received Frames (frames_pool checked) (af_gr opts rr) (pool_inv checked (af_gr opts rr)) (af_bytes opts) max ts (a_rg s) (a_rx s) descs offs stamps rg' q' l.
Proof.
  intros Hr Hc Hm. destruct (af_reach_inv _ _ _ _ _ _ _ _ _ Hr) as (Hy & Hi & _). destruct Hy as [Y1 Y2 Y3 Y4 Y5 Y6 Y7]. pose proof (@frames_pool_laws checked (af_gr opts rr) Y3) as L2. destruct (ai_region _ _ _ _ _ _ Hi) as [R1 R2].
  assert (Hn : NoDup (free (ar_pool (a_rx s)))). { pose proof (ai_conserved _ _ _ _ _ _ Hi) as Hcn. unfold af_conserved in Hcn. unfold af_gt, af_gr in *. rewrite Hcn in Y4. apply NoDup_app_r in Y4. by apply NoDup_app_l in Y4. }
  destruct (@receive_spec Frames (frames_pool checked) (af_gr opts rr) _ L2 (af_bytes opts) Y1 Y6 max ts (a_rg s) (a_rx s) (ai_rx _ _ _ _ _ _ Hi) (ai_rpool _ _ _ _ _ _ Hi) Hn R1 R2 Hc Hm) as (descs & offs & stamps & rg' & q' & l & E & R & _).
  by exists descs, offs, stamps, rg', q', l.
Qed.

(** ** A concrete device *)

(** 128 frames of 2 KiB, one queue each way, a ring of zeroes. *)
Definition small_opts : list af_option := [WithFrames 128].
Definition small_region : region := mkRegion (replicate (Z.to_nat (128 * 2048)) 0) 2048 2047 128 false.
Definition zeroes (n : Z) : res (list Z) := if n <? 0 then Err (Errorf "size") else Ok (replicate (Z.to_nat n) 0).
Definition small_ring : ring := mkRing (replicate (Z.to_nat 10485760) 0) 65536 160 0 0 0 false 0 0 0 false false.

Lemma maps_zeroes : maps_bytes zeroes.
Proof. intros n mem. unfold zeroes. destruct (Z.ltb_spec n 0); [done|]. intros [= <-]. rewrite zlen_replicate, Z2Nat.id by lia. split; [done|]. by apply Forall_replicate. Qed.

Lemma small_setup : setupRing zeroes false false = Ok small_ring.
Proof. unfold setupRing. change (u32 (rxBlockSize * rxBlockNr)) with 10485760. change rxBlockSize with 65536. change rxBlockNr with 160. reflexivity. Qed.

Lemma small_opened : exists tx rx, af_opened true small_opts (0, 64) (64, 64) small_region tx rx /\ at_closed tx = false /\ ar_closed rx = false.
Proof.
  assert (Ht : exists tx, af_newTxQueue (New true) small_region 0 64 false = Some tx /\ at_closed tx = false) by (eexists; split; [vm_compute; reflexivity|reflexivity]).
  assert (Hx : exists rx, af_newRxQueue (New true) small_region small_ring 64 64 = Some rx /\ ar_closed rx = false) by (unfold af_newRxQueue; destruct (New true 64 64 (rg_frameSize small_region)) as [p|] eqn:Ep; [by eexists|vm_compute in Ep; done]).
  destruct Ht as (tx & Ht & Htc). destruct Hx as (rx & Hx & Hxc). exists tx, rx. split; [|split; [exact Htc|exact Hxc]]. constructor.
  - by vm_compute.
  - by vm_compute.
  - by vm_compute.
  - by apply list_elem_of_here.
  - by apply list_elem_of_here.
  - exists (fun _ => Ok tt). reflexivity.
  - exact Ht.
  - exists zeroes, small_ring. split; [apply maps_zeroes|]. split; [apply small_setup|exact Hx].
Qed.

Definition small_log : Z := af_log small_opts.
Definition idle_lan : lan := mkLan [] [1; 1].

Lemma small_reach : exists tx rx, af_reach true small_opts (0, 64) (64, 64) small_region tx rx idle_lan (mkAsys tx rx idle_lan small_region []) /\ at_closed tx = false /\ ar_closed rx = false.
Proof. destruct small_opened as (tx & rx & Ho & Ht & Hx). exists tx, rx. split; [split; [exact Ho|constructor]|split; [exact Ht|exact Hx]]. Qed.

Lemma af_frames_conserved_witness : exists tx rx, @af_conserved Frames (frames_pool true) lan (af_gt small_opts (0, 64)) (af_gr small_opts (64, 64)) (mkAsys tx rx idle_lan small_region []) /\
  exists s', @ado Frames (frames_pool true) lan _ (AAlloc 3) (mkAsys tx rx idle_lan small_region []) = Some s'.
Proof.
  destruct small_reach as (tx & rx & Hr & _ & _). exists tx, rx. destruct (af_frames_conserved true small_opts (0, 64) (64, 64) small_region tx rx idle_lan _ Hr) as (H1 & _ & _ & H4). split; [exact H1|]. apply (H4 (AAlloc 3)). exact I.
Defined.

Lemma af_transmit_exact_witness : exists (tx : AfTx Frames) n err q' k', at_transmit small_region [mkDesc 64 60 0; mkDesc 2112 60 0] None tx idle_lan = Some (n, err, q', k') /\
  tx_res small_log small_region None [mkDesc 64 60 0; mkDesc 2112 60 0] n err tx idle_lan q' k'.
Proof.
  destruct small_reach as (tx & rx & Hr & Ht & _). exists tx. apply (af_transmit_exact true small_opts (0, 64) (64, 64) small_region tx rx idle_lan _ [mkDesc 64 60 0; mkDesc 2112 60 0] None Hr Ht); [repeat constructor; vm_compute; congruence|done].
Defined.

Lemma af_gather_exact_witness : exists (tx : AfTx Frames) n err q' k', at_TransmitGather small_region [[1; 2]; [3]; [4]] [2; 1] None tx idle_lan = Some (n, err, q', k') /\
  gres [[1; 2]; [3]; [4]] [2; 1] None n err tx idle_lan q' k'.
Proof.
  destruct small_reach as (tx & rx & Hr & Ht & _). exists tx. apply (af_gather_exact true small_opts (0, 64) (64, 64) small_region tx rx idle_lan _ [[1; 2]; [3]; [4]] [2; 1] None Hr Ht). done.
Defined.

Lemma af_receive_exact_witness : exists rx descs offs stamps rg' q' l, @receive Frames (frames_pool true) 32 false small_region rx = Some (descs, offs, stamps, rg', q') /\
  @received Frames (frames_pool true) (af_gr small_opts (64, 64)) (pool_inv true (af_gr small_opts (64, 64))) (af_bytes small_opts) 32 false small_region rx descs offs stamps rg' q' l.
Proof.
  destruct small_reach as (tx & rx & Hr & _ & Hx). exists rx. apply (af_receive_exact true small_opts (0, 64) (64, 64) small_region tx rx idle_lan _ 32 false Hr Hx). lia.
Defined.

(** A ring of two blocks as the kernel may leave it: one packet of twenty bytes
    whose tag, number 7, was taken out, that arrived at 5 s and 9 ns. *)
Definition tagged_block : list Z :=
  replicate 8 0 ++ le_bytes 4 1 ++ le_bytes 4 1 ++ le_bytes 4 48 ++ replicate 28 0 ++
  le_bytes 4 0 ++ le_bytes 4 5 ++ le_bytes 4 9 ++ le_bytes 4 20 ++ le_bytes 4 20 ++ le_bytes 4 0x11 ++ le_bytes 2 48 ++ replicate 6 0 ++ le_bytes 4 7 ++ le_bytes 2 0x8100 ++ replicate 10 0 ++
  seqZ 100 20 ++ replicate 12 0.
Definition tagged_ring : ring := mkRing (tagged_block ++ replicate 128 0) 128 2 0 0 0 false 0 0 0 false false.
Definition tagged_queue : option (AfRx Frames) := af_newRxQueue (New true) (mkRegion [] 128 127 4 false) tagged_ring 0 4.

Example tagged_receive : exists q descs offs stamps rg' q', tagged_queue = Some q /\ @receive Frames (frames_pool true) 8 true (mkRegion (replicate 512 0) 128 127 4 false) q = Some (descs, offs, stamps, rg', q') /\
  descs = [mkDesc 64 24 0] /\ stamps = [5000000009] /\ af_Frame rg' (mkDesc 64 24 0) = Some (Some (seqZ 100 12 ++ [0x81; 0; 0; 7] ++ seqZ 112 8)) /\ r_block (ar_ring q') = 1 /\ slice 8 12 (r_mem (ar_ring q')) = Some [0; 0; 0; 0].
Proof. eexists _, _, _, _, _, _. split; [vm_compute; reflexivity|]. split; [vm_compute; reflexivity|]. by vm_compute. Qed.

(** ** Opening and closing *)

(** Nothing of what [k] had is gone and nothing was added, and nothing was
    closed that was not there. *)
Definition given_back (k k' : os) : Prop := os_fds k' ≡ₚ os_fds k /\ os_maps k' ≡ₚ os_maps k /\ os_fault k' = false.

Lemma grew_released k k' : grew k k' [] [] -> given_back k k'.
Proof. intros [[_ _ _ Hf] H1 H2]. rewrite app_nil_r in H1, H2. done. Qed.

(** The owners of queues close some of them, in any order and more than once. *)
Fixpoint close_queues (ans : nat -> bool) (is_ : list nat) (d : device) : M device :=
  match is_ with [] => ret d | i :: is_ => bind (close_queue ans i d) (close_queues ans is_) end.

Lemma close_queues_holds ans k0 : forall is_ d k, holds k0 d k -> exists d' k', close_queues ans is_ d k = (d', k') /\ holds k0 d' k' /\ d_closed d' = d_closed d.
Proof.
  induction is_ as [|i is_ IH]; intros d k H; cbn [close_queues]; [by eexists _, _|]. destruct (close_queue_holds ans k0 k i d H) as (d1 & k1 & E1 & H1 & C1). unfold bind. rewrite E1.
  destruct (IH d1 k1 H1) as (d2 & k2 & E2 & H2 & C2). eexists _, _. split; [exact E2|]. split; [done|congruence].
Qed.

(** C39: [Open] never panics, and whichever system call fails, it gives back
    every descriptor and mapping it took, closing each exactly once.  A device
    that opened has a queue for every run of frames of its configuration; its
    queues may be closed first, in any order and more than once; [Close] then
    gives back everything, closing nothing twice, and a second [Close] makes no
    system call. *)
Theorem open_close_exact ans up opts k : os_ok k ->
  exists r k', af_Open ans up opts k = (Some r, k') /\
    match r with
    | Err _ => given_back k k'
    | Ok d => map th_run (d_tx d) = tx_runs (config_of opts) /\ map xh_run (d_rx d) = rx_runs (config_of opts) /\
        forall is_, exists d1 k1 d2 k2, close_queues ans is_ d k' = (d1, k1) /\ af_Close ans d1 k1 = (d2, k2) /\ given_back k k2 /\ af_Close ans d2 k2 = (d2, k2)
    end.
Proof.
  intros Hk. destruct (af_Open_spec ans up opts k Hk) as (r & k' & E & Ho). exists r, k'. split; [done|]. destruct r as [d|]; [|by apply grew_released]. destruct Ho as (Hh & Hc & H1 & H2). split; [done|]. split; [done|]. intros is_.
  destruct (close_queues_holds ans k is_ d k' Hh) as (d1 & k1 & E1 & Hh1 & C1). rewrite Hc in C1. destruct (af_Close_grew ans k k1 d1 Hh1 C1) as (d2 & k2 & E2 & G2 & C2).
  exists d1, k1, d2, k2. split; [done|]. split; [done|]. split; [by apply grew_released|]. unfold af_Close. by rewrite C2.
Qed.

(** The second receive ring cannot be mapped, locked or not. *)
Definition no_second_ring (i : nat) : bool := negb ((i =? 21)%nat || (i =? 22)%nat).

Lemma open_close_exact_witness : exists r k', af_Open no_second_ring (Some true) [WithQueues 2] (mkOs 3 [0; 1; 2] [] false 0) = (Some r, k') /\ r = Err (Errorf "afpacket: socket") /\ given_back (mkOs 3 [0; 1; 2] [] false 0) k'.
Proof.
  destruct (open_close_exact no_second_ring (Some true) [WithQueues 2] (mkOs 3 [0; 1; 2] [] false 0)) as (r & k' & E & H).
  - constructor; [by apply (bool_decide_unpack _)|constructor|by apply (bool_decide_unpack _)|done].
  - exists r, k'. split; [exact E|]. vm_compute in E. injection E as <- <-. split; [reflexivity|exact H].
Defined.
