(* ===== verification/GvChecksum.v ===== *)
(** The Internet checksum of the network stack: checksum.go and
    checksum_unsafe.go of netstack/gvisor/pkg/tcpip/checksum.

    The routine sums 64 bytes at a time through aligned host-order loads,
    carrying around the end, and swaps bytes at most twice instead of once per
    load.  Where it starts depends on the address of the slice, which is an
    argument here.  [Checksum_sum] shows that the address does not matter: the
    result is the sum of the 16-bit words of RFC 1071.  Both architectures the
    program builds for are little-endian, so [bswapIfLittleEndian] swaps. *)

From stdpp Require Import prelude list numbers strings.
From S2P Require Import Prelude Bytes Csum.

Definition bswap16 (v : Z) : Z := be_val (le_bytes 2 v).
Definition bswap32 (v : Z) : Z := be_val (le_bytes 4 v).

(** [bits.Add64]: the sum and the carry out. *)
Definition Add64 (x y carry : Z) : Z * Z := (u64 (x + y + carry), (x + y + carry) / 2 ^ 64).

Definition reduce (acc : Z) : Z :=
  let acc := u64 (Z.shiftr acc 32 + Z.land acc 0xffffffff) in
  let acc32 := u32 (u64 (Z.shiftr acc 32 + acc)) in
  let acc32 := u32 (Z.shiftr acc32 16 + Z.land acc32 0xffff) in
  u16 (u32 (Z.shiftr acc32 16 + acc32)).

(** The [n]-byte load at the start of [buf]. *)
Definition load (n : nat) (buf : list Z) : Z := le_val (take n buf).

(** [acc, carry = bits.Add64(acc, w, carry)] for each word in turn. *)
Fixpoint add_chain (ws : list Z) (acc carry : Z) : Z * Z :=
  match ws with
  | [] => (acc, carry)
  | w :: ws => let '(acc, carry) := Add64 acc w carry in add_chain ws acc carry
  end.

(** A group of words, the last carry added in. *)
Definition add_words (ws : list Z) (acc : Z) : Z :=
  let '(acc, carry) := add_chain ws acc 0 in fst (Add64 acc 0 carry).

(** The [k] 8-byte words at the start of [buf]. *)
Fixpoint words (k : nat) (buf : list Z) : list Z :=
  match k with
  | O => []
  | S k => load 8 buf :: words k (drop 8 buf)
  end.

(** [for len(buf) >= 64]; the length bounds the rounds. *)
Fixpoint sum64 (fuel : nat) (acc : Z) (buf : list Z) : option (Z * list Z) :=
  if 64 <=? zlen buf then
    match fuel with
    | O => None
    | S fuel => sum64 fuel (add_words (words 8 buf) acc) (drop 64 buf)
    end
  else Some (acc, buf).

(** [if len(buf) >= n { ...; buf = buf[n:] }]. *)
Definition sum_if (n : nat) (ws : list Z -> list Z) (s : Z * list Z) : Z * list Z :=
  let '(acc, buf) := s in
  if Z.of_nat n <=? zlen buf then (add_words (ws buf) acc, drop n buf) else (acc, buf).

Definition sum_tail (s : Z * list Z) : Z :=
  fst (sum_if 1 (fun b => [load 1 b]) (sum_if 2 (fun b => [load 2 b]) (sum_if 4 (fun b => [load 4 b])
    (sum_if 8 (words 1) (sum_if 16 (words 2) (sum_if 32 (words 4) s)))))).

(** Fewer than eight bytes. *)
Definition sum_short (acc : Z) (buf : list Z) : option Z :=
  '(acc, buf) ← (if 4 <=? zlen buf then
       a ← buf !! 0%nat; b ← buf !! 1%nat; c ← buf !! 2%nat; d ← buf !! 3%nat;
       Some (u64 (u64 (acc + (Z.shiftl a 8 + b)) + (Z.shiftl c 8 + d)), drop 4 buf)
     else Some (acc, buf));
  '(acc, buf) ← (if 2 <=? zlen buf then
       a ← buf !! 0%nat; b ← buf !! 1%nat; Some (u64 (acc + (Z.shiftl a 8 + b)), drop 2 buf)
     else Some (acc, buf));
  acc ← (if 1 <=? zlen buf then a ← buf !! 0%nat; Some (u64 (acc + Z.shiftl a 8)) else Some acc);
  Some (reduce acc).

(** [if sliceAddr(buf)&n != 0 { acc += load; buf = buf[n:] }]. *)
Definition align (n : nat) (s : Z * Z * list Z) : Z * Z * list Z :=
  let '(addr, acc, buf) := s in
  if Z.land addr (Z.of_nat n) =? 0 then (addr, acc, buf) else (addr + Z.of_nat n, u64 (acc + load n buf), drop n buf).

(** At least eight bytes. *)
Definition sum_long (addr acc : Z) (buf : list Z) : option Z :=
  let acc := bswap32 (u32 acc) in
  '(bswapped, addr, acc, buf) ← (if negb (Z.land addr 1 =? 0) then
       a ← buf !! 0%nat; Some (true, addr + 1, u64 (bswap32 (u32 acc) + bswap16 a), drop 1 buf)
     else Some (false, addr, acc, buf));
  let '(_, acc, buf) := align 4 (align 2 (addr, acc, buf)) in
  s ← sum64 (length buf) acc buf;
  let acc16 := bswap16 (reduce (sum_tail s)) in
  Some (if (bswapped : bool) then bswap16 acc16 else acc16).

Definition calculateChecksum (addr : Z) (buf : list Z) (odd : bool) (initial : Z) : option (Z * bool) :=
  '(addr, acc, buf) ← (if odd then a ← buf !! 0%nat; Some (addr + 1, u64 (initial + a), drop 1 buf) else Some (addr, initial, buf));
  let odd := negb (Z.land (zlen buf) 1 =? 0) in
  sum ← (if zlen buf <? 8 then sum_short acc buf else sum_long addr acc buf);
  Some (sum, odd).

Definition Checksum (addr : Z) (buf : list Z) (initial : Z) : option Z :=
  '(s, _) ← calculateChecksum addr buf false initial; Some s.

Definition Combine (a b : Z) : Z := let v := a + b in u16 (u32 (v + Z.shiftr v 16)).

(** ** Sums modulo 65535 *)

(** The one's complement sum that [x] stands for; zero only of nothing. *)
Definition ones (x : Z) : Z := if x =? 0 then 0 else (x - 1) mod 65535 + 1.

Lemma ones_unique r x : 0 <= x -> 0 <= r <= 65535 -> r mod 65535 = x mod 65535 -> (r = 0 <-> x = 0) -> r = ones x.
Proof.
  intros Hx Hr Hm Hz. unfold ones. destruct (Z.eqb_spec x 0) as [->|Hne]; [lia|]. assert (r <> 0) by lia. clear Hz.
  assert ((r - 1) mod 65535 = (x - 1) mod 65535) as <- by (rewrite Zminus_mod, Hm, <- Zminus_mod; done). rewrite Z.mod_small; lia.
Qed.

Lemma ones_spec x : 0 <= x -> 0 <= ones x <= 65535 /\ ones x mod 65535 = x mod 65535 /\ (ones x = 0 <-> x = 0).
Proof.
  intros Hx. unfold ones. destruct (Z.eqb_spec x 0) as [->|Hne]; [done|]. pose proof (Z.mod_pos_bound (x - 1) 65535 ltac:(lia)). split; [lia|]. split; [|lia].
  rewrite Zplus_mod_idemp_l. f_equal. lia.
Qed.

Lemma ones_ones a x : 0 <= a -> 0 <= x -> ones (ones a + x) = ones (a + x).
Proof.
  intros Ha Hx. destruct (ones_spec a Ha) as (H1 & H2 & H3). destruct (ones_spec (ones a + x) ltac:(lia)) as (G1 & G2 & G3).
  apply ones_unique; [lia|lia| |lia]. rewrite G2, Zplus_mod, H2, <- Zplus_mod. done.
Qed.

(** The high part of a number added to the low part. *)
Definition fold_at (k x : Z) : Z := x / 2 ^ k + x mod 2 ^ k.

Lemma fold_at_ones k x : (k = 16 \/ k = 32) -> 0 <= x -> fold_at k x mod 65535 = x mod 65535 /\ 0 <= fold_at k x /\ (fold_at k x = 0 <-> x = 0).
Proof.
  intros Hk Hx. unfold fold_at. pose proof (Z.div_mod x (2 ^ k) ltac:(destruct Hk as [-> | ->]; lia)) as E. pose proof (Z.mod_pos_bound x (2 ^ k) ltac:(destruct Hk as [-> | ->]; lia)) as B.
  set (q := x / 2 ^ k) in *. set (r := x mod 2 ^ k) in *. assert (0 <= q) by (unfold q; apply Z.div_pos; destruct Hk as [-> | ->]; lia). split; [|destruct Hk as [-> | ->]; lia].
  clearbody q r. rewrite E. replace (2 ^ k * q + r) with (q + r + (2 ^ k / 65535 * q) * 65535); [by rewrite Z.mod_add by lia|]. destruct Hk as [-> | ->]; [change (2 ^ 16 / 65535) with 1|change (2 ^ 32 / 65535) with 65537]; lia.
Qed.

(** A fold that cannot overflow, as the code writes it. *)
Lemma fold_wrap k w x : 0 < k -> 0 <= x <= 2 * 2 ^ k - 2 -> 2 ^ w = 2 ^ k -> (x / 2 ^ k + x) mod 2 ^ w = fold_at k x.
Proof.
  intros Hk Hx ->. unfold fold_at. set (m := 2 ^ k) in *. assert (0 < m) by (unfold m; lia). pose proof (Z.div_mod x m ltac:(lia)) as E. pose proof (Z.mod_pos_bound x m ltac:(lia)) as B.
  assert (Hq : x / m = 0 \/ x / m = 1) by (assert (0 <= x / m < 2) by (split; [apply Z.div_pos; lia|apply Z.div_lt_upper_bound; lia]); lia).
  rewrite E at 2. rewrite Z.add_assoc, (Z.add_comm (x / m)), <- Z.add_assoc. rewrite (Z.mul_comm m), Z.add_comm, Z.mod_add by lia. apply Z.mod_small. lia.
Qed.

Lemma reduce_folds acc : 0 <= acc < 2 ^ 64 -> reduce acc = fold_at 16 (fold_at 16 (fold_at 32 (fold_at 32 acc))).
Proof.
  intros Ha. unfold reduce. change 0xffffffff with (Z.ones 32). change 0xffff with (Z.ones 16). rewrite !Z.land_ones, !Z.shiftr_div_pow2 by lia.
  change (acc / 2 ^ 32 + acc mod 2 ^ 32) with (fold_at 32 acc). assert (H1 : 0 <= fold_at 32 acc <= 2 * 2 ^ 32 - 2) by (unfold fold_at; divlia). rewrite (u64_small (fold_at 32 acc)) by lia.
  assert (H2 : u32 (u64 (fold_at 32 acc / 2 ^ 32 + fold_at 32 acc)) = fold_at 32 (fold_at 32 acc)).
  { rewrite u64_small by divlia. apply fold_wrap; lia. }
  rewrite H2. assert (H3 : 0 <= fold_at 32 (fold_at 32 acc) < 2 ^ 32) by (rewrite <- H2; apply u32_range). set (b := fold_at 32 (fold_at 32 acc)) in *.
  change (b / 2 ^ 16 + b mod 2 ^ 16) with (fold_at 16 b). assert (H4 : 0 <= fold_at 16 b <= 2 * 2 ^ 16 - 2) by (unfold fold_at; divlia). rewrite (u32_small (fold_at 16 b)) by lia.
  rewrite u32_small by divlia. apply fold_wrap; lia.
Qed.

Lemma reduce_spec acc : 0 <= acc < 2 ^ 64 -> reduce acc = ones acc.
Proof.
  intros Ha. assert (Hr : 0 <= reduce acc < 2 ^ 16) by (unfold reduce; cbv zeta; apply u16_range). rewrite reduce_folds in * by done.
  destruct (fold_at_ones 32 acc) as (A1 & A2 & A3); [lia..|]. destruct (fold_at_ones 32 (fold_at 32 acc)) as (B1 & B2 & B3); [lia..|].
  destruct (fold_at_ones 16 (fold_at 32 (fold_at 32 acc))) as (C1 & C2 & C3); [lia..|]. destruct (fold_at_ones 16 (fold_at 16 (fold_at 32 (fold_at 32 acc)))) as (D1 & D2 & D3); [lia..|].
  apply ones_unique; [lia|lia|congruence|lia].
Qed.

(** ** Words *)

(** The sum of the host-order words, which is the other way round. *)
Fixpoint lsum (b : list Z) : Z :=
  match b with
  | lo :: hi :: b => lo + 256 * hi + lsum b
  | [x] => x
  | [] => 0
  end.

Lemma lsum_nonneg b : bytes_ok b -> 0 <= lsum b.
Proof.
  induction b as [|x|x y b IH] using list_pair_ind; intros Hb; cbn [lsum]; [done|apply Forall_cons in Hb as [Hx _]; unfold byte_ok in Hx; lia|].
  apply Forall_cons in Hb as [Hx Hb]. apply Forall_cons in Hb as [Hy Hb]. specialize (IH Hb). unfold byte_ok in *. lia.
Qed.

Lemma lsum_app a b : Z.even (zlen a) = true -> lsum (a ++ b) = lsum a + lsum b.
Proof.
  induction a as [|x|x y a IH] using list_pair_ind; intros He; [done|discriminate|]. rewrite !zlen_cons in He. cbn [app lsum]. rewrite IH; [lia|].
  rewrite <- He. replace (1 + (1 + zlen a)) with (zlen a + 2) by lia. rewrite Z.even_add. by destruct (Z.even (zlen a)).
Qed.

(** Swapping the bytes of a word multiplies it by 256, modulo 65535. *)
Lemma lsum_wsum b : bytes_ok b -> lsum b mod 65535 = (256 * wsum b) mod 65535 /\ (lsum b = 0 <-> wsum b = 0).
Proof.
  induction b as [|x|x y b IH] using list_pair_ind; intros Hb; [done| |].
  - apply Forall_cons in Hb as [Hx _]. unfold byte_ok in Hx. cbn [lsum wsum]. split; [|lia]. replace (256 * (x * 256)) with (x + x * 65535) by lia. by rewrite Z.mod_add.
  - apply Forall_cons in Hb as [Hx Hb]. apply Forall_cons in Hb as [Hy Hb]. destruct (IH Hb) as [IH1 IH2]. pose proof (lsum_nonneg b Hb). pose proof (proj1 (wsum_range b Hb)). unfold byte_ok in *. cbn [lsum wsum]. split; [|lia].
    replace (256 * (x * 256 + y + wsum b)) with (x + 256 * y + 256 * wsum b + x * 65535) by lia. rewrite Z.mod_add by lia. rewrite Zplus_mod, IH1, <- Zplus_mod. done.
Qed.

Lemma wsum_lsum x b : wsum (x :: b) = x * 256 + lsum b.
Proof.
  revert x. induction b as [|y|y z b IH] using list_pair_ind; intros x; [simpl; lia|simpl; lia|].
  change (wsum (x :: y :: z :: b)) with (x * 256 + y + wsum (z :: b)). rewrite IH. cbn [lsum]. lia.
Qed.

(** A load is the sum of its words. *)
Lemma le_val_lsum b : bytes_ok b -> Z.even (zlen b) = true -> le_val b mod 65535 = lsum b mod 65535 /\ (le_val b = 0 <-> lsum b = 0).
Proof.
  induction b as [|x|x y b IH] using list_pair_ind; intros Hb He; [done|discriminate|]. apply Forall_cons in Hb as [Hx Hb]. apply Forall_cons in Hb as [Hy Hb].
  destruct IH as [IH1 IH2]; [done|rewrite <- He, !zlen_cons; replace (1 + (1 + zlen b)) with (zlen b + 2) by lia; rewrite Z.even_add; by destruct (Z.even (zlen b))|].
  pose proof (lsum_nonneg b Hb). pose proof (proj1 (le_val_range b Hb)). unfold byte_ok in *. cbn [le_val lsum]. split; [|lia].
  replace (x + 256 * (y + 256 * le_val b)) with (x + 256 * y + le_val b + le_val b * 65535) by lia. rewrite Z.mod_add by lia. rewrite Zplus_mod, IH1, <- Zplus_mod. done.
Qed.

(** ** The sum as it goes along *)

(** [acc] and the words of [buf] still to be added make [T]. *)
Record summing (T acc : Z) (buf : list Z) : Prop := {
  su_T : 0 <= T;
  su_acc : 0 <= acc < 2 ^ 64;
  su_buf : bytes_ok buf;
  su_mod : (acc + lsum buf) mod 65535 = T mod 65535;
  su_zero : acc + lsum buf = 0 <-> T = 0
}.

(** Addition that carries around the end. *)
Definition carry_add (acc x : Z) : Z := if acc + x <? 2 ^ 64 then acc + x else acc + x - (2 ^ 64 - 1).

Lemma Add64_carry acc x c : 0 <= acc -> 0 <= c -> acc + c < 2 ^ 64 -> 0 <= x < 2 ^ 64 ->
  let '(acc', c') := Add64 acc x c in 0 <= acc' /\ 0 <= c' /\ acc' + c' = carry_add (acc + c) x /\ acc' + c' < 2 ^ 64.
Proof.
  intros Ha Hc Hs Hx. unfold Add64, carry_add, u64. destruct (Z.ltb_spec (acc + c + x) (2 ^ 64)).
  - rewrite Z.mod_small, Z.div_small by lia. lia.
  - assert (E : (acc + x + c) / 2 ^ 64 = 1) by (symmetry; apply (Z.div_unique_pos _ _ _ (acc + x + c - 2 ^ 64)); lia). rewrite E.
    assert (E2 : (acc + x + c) mod 2 ^ 64 = acc + x + c - 2 ^ 64) by (rewrite Zmod_eq, E by lia; lia). rewrite E2. lia.
Qed.

Lemma add_chain_carry ws : Forall (fun x => 0 <= x < 2 ^ 64) ws -> forall acc c, 0 <= acc -> 0 <= c -> acc + c < 2 ^ 64 ->
  let '(acc', c') := add_chain ws acc c in 0 <= acc' /\ 0 <= c' /\ acc' + c' = foldl carry_add (acc + c) ws /\ acc' + c' < 2 ^ 64.
Proof.
  induction 1 as [|w ws Hw _ IH]; intros acc c Ha Hc Hs; cbn [add_chain]; [cbn [foldl]; lia|]. pose proof (Add64_carry acc w c Ha Hc Hs Hw) as H. destruct (Add64 acc w c) as [acc1 c1].
  destruct H as (H1 & H2 & H3 & H4). specialize (IH acc1 c1 H1 H2 H4). destruct (add_chain ws acc1 c1) as [acc2 c2]. cbn [foldl]. by rewrite <- H3.
Qed.

Lemma add_words_carry ws acc : Forall (fun x => 0 <= x < 2 ^ 64) ws -> 0 <= acc < 2 ^ 64 -> add_words ws acc = foldl carry_add acc ws.
Proof.
  intros Hws Ha. unfold add_words. pose proof (add_chain_carry ws Hws acc 0 ltac:(lia) ltac:(lia) ltac:(lia)) as H. destruct (add_chain ws acc 0) as [acc' c']. destruct H as (H1 & H2 & H3 & H4).
  rewrite Z.add_0_r in H3. cbn [fst Add64]. rewrite u64_small by lia. lia.
Qed.

Lemma carry_add_spec acc x : 0 <= acc < 2 ^ 64 -> 0 <= x < 2 ^ 64 ->
  0 <= carry_add acc x < 2 ^ 64 /\ carry_add acc x mod 65535 = (acc + x) mod 65535 /\ (carry_add acc x = 0 <-> acc + x = 0).
Proof.
  intros Ha Hx. unfold carry_add. destruct (Z.ltb_spec (acc + x) (2 ^ 64)); [split; [lia|done]|]. split; [lia|]. split; [|lia].
  replace (acc + x - (2 ^ 64 - 1)) with (acc + x + (- ((2 ^ 64 - 1) / 65535)) * 65535) by (change ((2 ^ 64 - 1) / 65535) with 281479271743489; lia). by rewrite Z.mod_add.
Qed.

Lemma load_spec n buf : bytes_ok buf -> Z.of_nat n <= zlen buf -> (n <= 8)%nat -> Z.even (Z.of_nat n) = true ->
  0 <= load n buf < 2 ^ 64 /\ load n buf mod 65535 = lsum (take n buf) mod 65535 /\ (load n buf = 0 <-> lsum (take n buf) = 0).
Proof.
  intros Hb Hl Hn He. assert (Hz : zlen (take n buf) = Z.of_nat n) by (unfold zlen in *; rewrite length_take; lia). pose proof (le_val_range (take n buf) (Forall_take _ _ _ Hb)) as Hr.
  rewrite Hz in Hr. assert (256 ^ Z.of_nat n <= 256 ^ 8) by (apply Z.pow_le_mono_r; lia). unfold load. split; [change (2 ^ 64) with (256 ^ 8); lia|]. apply le_val_lsum; [by apply Forall_take|by rewrite Hz].
Qed.

(** One load taken off the front. *)
Lemma summing_load T acc buf n : summing T acc buf -> (n <= 8)%nat -> Z.even (Z.of_nat n) = true -> Z.of_nat n <= zlen buf ->
  summing T (carry_add acc (load n buf)) (drop n buf).
Proof.
  intros [H1 H2 H3 H4 H5] Hn He Hl. destruct (load_spec n buf H3 Hl Hn He) as (L1 & L2 & L3). destruct (carry_add_spec acc (load n buf) H2 L1) as (C1 & C2 & C3).
  assert (Hs : lsum buf = lsum (take n buf) + lsum (drop n buf)).
  { rewrite <- (take_drop n buf) at 1. apply lsum_app. replace (zlen (take n buf)) with (Z.of_nat n); [done|]. unfold zlen in *. rewrite length_take. lia. }
  pose proof (lsum_nonneg _ (Forall_take _ n _ H3)). pose proof (lsum_nonneg _ (Forall_drop _ n _ H3)). split; [done|done|by apply Forall_drop| |lia].
  rewrite <- H4, Hs, Zplus_mod, C2, <- Zplus_mod. rewrite Z.add_assoc. rewrite (Zplus_mod (acc + load n buf)), (Zplus_mod acc), L2, <- (Zplus_mod acc), <- Zplus_mod. done.
Qed.

Lemma words_range k : forall buf, bytes_ok buf -> 8 * Z.of_nat k <= zlen buf -> Forall (fun x => 0 <= x < 2 ^ 64) (words k buf).
Proof.
  induction k as [|k IH]; intros buf Hb Hl; cbn [words]; constructor; [apply (load_spec 8); (done || lia)|]. apply IH; [by apply Forall_drop|]. rewrite zlen_drop. lia.
Qed.

Lemma summing_words k : forall T acc buf, summing T acc buf -> 8 * Z.of_nat k <= zlen buf -> summing T (foldl carry_add acc (words k buf)) (drop (8 * k) buf).
Proof.
  induction k as [|k IH]; intros T acc buf H Hl; cbn [words foldl]; [done|]. replace (8 * S k)%nat with (8 + 8 * k)%nat by lia. rewrite <- drop_drop.
  apply IH; [apply summing_load; (done || lia)|]. rewrite zlen_drop. lia.
Qed.

Lemma sum64_spec fuel : forall T acc buf, summing T acc buf -> zlen buf < 64 * (Z.of_nat fuel + 1) -> exists acc' buf', sum64 fuel acc buf = Some (acc', buf') /\ summing T acc' buf' /\ zlen buf' < 64.
Proof.
  induction fuel as [|fuel IH]; intros T acc buf H Hl; cbn [sum64]; (case_if; [|exists acc, buf; by split_and!]); [lia|].
  rewrite add_words_carry by (apply H || (apply words_range; [apply H|lia])). apply IH; [apply (summing_words 8); (done || lia)|]. rewrite zlen_drop. lia.
Qed.

Lemma sum_if_spec n ws T acc buf : summing T acc buf -> (Z.of_nat n <= zlen buf -> summing T (add_words (ws buf) acc) (drop n buf)) -> zlen buf < 2 * Z.of_nat n ->
  let '(acc', buf') := sum_if n ws (acc, buf) in summing T acc' buf' /\ zlen buf' < Z.of_nat n.
Proof.
  intros H Hs Hl. unfold sum_if. case_if; [split; [auto|]; rewrite zlen_drop; lia|done].
Qed.

Lemma add_one_load n T acc buf : summing T acc buf -> (n <= 8)%nat -> Z.even (Z.of_nat n) = true -> Z.of_nat n <= zlen buf -> summing T (add_words [load n buf] acc) (drop n buf).
Proof.
  intros H Hn He Hl. rewrite add_words_carry; [cbn [foldl]; by apply summing_load| |apply H]. constructor; [|done]. apply load_spec; (done || apply H).
Qed.

Lemma add_k_words k T acc buf : summing T acc buf -> 8 * Z.of_nat k <= zlen buf -> summing T (add_words (words k buf) acc) (drop (8 * k) buf).
Proof. intros H Hl. rewrite add_words_carry; [by apply summing_words|apply words_range; [apply H|done]|apply H]. Qed.

(** The last byte, which is the low half of a word. *)
Lemma add_last T acc buf : summing T acc buf -> zlen buf < 2 -> 1 <= zlen buf -> summing T (add_words [load 1 buf] acc) (drop 1 buf).
Proof.
  intros [H1 H2 H3 H4 H5] Hlt Hl. destruct buf as [|x [|y buf]]; [change (zlen (@nil Z)) with 0 in Hl; lia| |rewrite !zlen_cons in Hlt; pose proof (zlen_nonneg buf); lia].
  assert (Hx : byte_ok x) by (by apply Forall_cons in H3 as [? _]). unfold byte_ok in Hx. replace (load 1 [x]) with x by (unfold load; cbn; lia). rewrite add_words_carry by (done || (constructor; [lia|done])). cbn [foldl].
  destruct (carry_add_spec acc x H2 ltac:(lia)) as (C1 & C2 & C3). cbn [lsum drop] in *. split; [done|done|by apply Forall_nil_2|cbn [lsum]; rewrite Z.add_0_r, C2; done|cbn [lsum]; lia].
Qed.

Lemma sum_tail_spec T acc buf : summing T acc buf -> zlen buf < 64 ->
  let x := sum_tail (acc, buf) in 0 <= x < 2 ^ 64 /\ x mod 65535 = T mod 65535 /\ (x = 0 <-> T = 0).
Proof.
  intros H Hl. cbv zeta. unfold sum_tail.
  pose proof (sum_if_spec 32 (words 4) T acc buf H (add_k_words 4 T acc buf H) ltac:(lia)) as A. destruct (sum_if 32 _ (acc, buf)) as [acc1 buf1]. destruct A as [A L1].
  pose proof (sum_if_spec 16 (words 2) T acc1 buf1 A (add_k_words 2 T acc1 buf1 A) ltac:(lia)) as B. destruct (sum_if 16 _ (acc1, buf1)) as [acc2 buf2]. destruct B as [B L2].
  pose proof (sum_if_spec 8 (words 1) T acc2 buf2 B (add_k_words 1 T acc2 buf2 B) ltac:(lia)) as C. destruct (sum_if 8 _ (acc2, buf2)) as [acc3 buf3]. destruct C as [C L3].
  pose proof (sum_if_spec 4 (fun b => [load 4 b]) T acc3 buf3 C (fun Hz => add_one_load 4 T acc3 buf3 C ltac:(lia) eq_refl Hz) ltac:(lia)) as D. destruct (sum_if 4 _ (acc3, buf3)) as [acc4 buf4]. destruct D as [D L4].
  pose proof (sum_if_spec 2 (fun b => [load 2 b]) T acc4 buf4 D (fun Hz => add_one_load 2 T acc4 buf4 D ltac:(lia) eq_refl Hz) ltac:(lia)) as E. destruct (sum_if 2 _ (acc4, buf4)) as [acc5 buf5]. destruct E as [E L5].
  pose proof (sum_if_spec 1 (fun b => [load 1 b]) T acc5 buf5 E (add_last T acc5 buf5 E ltac:(lia)) ltac:(lia)) as F. destruct (sum_if 1 _ (acc5, buf5)) as [acc6 buf6]. destruct F as [[F1 F2 F3 F4 F5] L6].
  assert (buf6 = []) as -> by (destruct buf6 as [|x l]; [done|rewrite zlen_cons in L6; pose proof (zlen_nonneg l); lia]). cbn [lsum fst] in *. rewrite Z.add_0_r in *. done.
Qed.

(** ** Byte swaps *)

Lemma bswap16_spec v : 0 <= v < 2 ^ 16 -> 0 <= bswap16 v < 2 ^ 16 /\ bswap16 v mod 65535 = (256 * v) mod 65535 /\ (bswap16 v = 0 <-> v = 0) /\ bswap16 v = v mod 256 * 256 + v / 256.
Proof.
  intros Hv. assert (E : bswap16 v = v mod 256 * 256 + v / 256) by (unfold bswap16, be_val; cbn [le_bytes rev app le_val]; divlia). rewrite E. split; [divlia|]. split; [|split; [divlia|done]].
  pose proof (Z.div_mod v 256 ltac:(lia)) as D. set (q := v / 256) in *. set (r := v mod 256) in *. clearbody q r. subst v. replace (256 * (256 * q + r)) with (r * 256 + q + q * 65535) by lia. by rewrite Z.mod_add.
Qed.

Lemma bswap16_twice v : 0 <= v < 2 ^ 16 -> bswap16 (bswap16 v) = v.
Proof.
  intros Hv. destruct (bswap16_spec v Hv) as (H1 & _ & _ & E). destruct (bswap16_spec (bswap16 v) H1) as (_ & _ & _ & ->). rewrite E. divlia.
Qed.

Lemma bswap32_spec v : 0 <= v < 2 ^ 32 -> 0 <= bswap32 v < 2 ^ 32 /\ bswap32 v mod 65535 = (256 * v) mod 65535 /\ (bswap32 v = 0 <-> v = 0).
Proof.
  intros Hv. pose proof (le_bytes_ok 4 v) as Hb. pose proof (le_val_bytes 4 v) as Hv2. rewrite Z.mod_small in Hv2 by (change (256 ^ Z.of_nat 4) with (2 ^ 32); lia). unfold bswap32.
  destruct (le_bytes 4 v) as [|a [|b [|c [|d [|? ?]]]]] eqn:E; try (apply (f_equal length) in E; rewrite length_le_bytes in E; discriminate).
  rewrite <- Hv2. apply Forall_cons in Hb as [Ha Hb]. apply Forall_cons in Hb as [Hb2 Hb]. apply Forall_cons in Hb as [Hc Hb]. apply Forall_cons in Hb as [Hd _]. unfold byte_ok in *. clear E Hv2 Hv.
  unfold be_val. cbn [rev app le_val]. split; [lia|]. split; [|lia].
  replace (256 * (a + 256 * (b + 256 * (c + 256 * (d + 256 * 0))))) with (d + 256 * (c + 256 * (b + 256 * (a + 256 * 0))) + (256 * c - 256 * a + 65537 * d) * 65535) by lia.
  by rewrite Z.mod_add.
Qed.

(** ** The routine *)

Lemma align_spec n T addr acc buf : (n = 2 \/ n = 4)%nat -> summing T acc buf -> Z.of_nat n <= zlen buf -> acc < 2 ^ 40 ->
  exists addr' acc' buf', align n (addr, acc, buf) = (addr', acc', buf') /\ summing T acc' buf' /\ zlen buf - Z.of_nat n <= zlen buf' /\ acc' < acc + 2 ^ 32.
Proof.
  intros Hn H Hl Ha. unfold align. case_if; [exists addr, acc, buf; split_and!; (done || lia)|]. do 3 eexists. split; [done|].
  pose proof (le_val_range (take n buf) (Forall_take _ n _ (su_buf _ _ _ H))) as Hr. replace (zlen (take n buf)) with (Z.of_nat n) in Hr by (unfold zlen in *; rewrite length_take; lia).
  assert (256 ^ Z.of_nat n <= 256 ^ 4) by (apply Z.pow_le_mono_r; lia). change (256 ^ 4) with (2 ^ 32) in *. fold (load n buf) in Hr. pose proof (su_acc _ _ _ H).
  rewrite u64_small by lia. split; [|rewrite zlen_drop; lia].
  replace (acc + load n buf) with (carry_add acc (load n buf)) by (unfold carry_add; rewrite (proj2 (Z.ltb_lt _ _)) by lia; done). apply summing_load; [done|lia|by destruct Hn as [-> | ->]|done].
Qed.

(** From where the byte swaps are done to where they are undone. *)
Lemma sum_aligned T addr acc buf : summing T acc buf -> 7 <= zlen buf -> acc < 2 ^ 39 ->
  exists x s, (let '(_, acc, buf) := align 4 (align 2 (addr, acc, buf)) in sum64 (length buf) acc buf) = Some s /\ reduce (sum_tail s) = ones x /\
    0 <= x /\ x mod 65535 = T mod 65535 /\ (x = 0 <-> T = 0).
Proof.
  intros H Hl Ha. destruct (align_spec 2 T addr acc buf ltac:(lia) H ltac:(lia) ltac:(lia)) as (addr1 & acc1 & buf1 & -> & H1 & L1 & A1).
  destruct (align_spec 4 T addr1 acc1 buf1 ltac:(lia) H1 ltac:(lia) ltac:(lia)) as (addr2 & acc2 & buf2 & -> & H2 & L2 & A2).
  destruct (sum64_spec (length buf2) T acc2 buf2 H2 ltac:(unfold zlen; lia)) as (acc3 & buf3 & -> & H3 & L3). destruct (sum_tail_spec T acc3 buf3 H3 L3) as (X1 & X2 & X3).
  exists (sum_tail (acc3, buf3)), (acc3, buf3). split_and!; try done; [by apply reduce_spec|lia].
Qed.

Lemma sum_long_spec addr acc buf : 0 <= acc < 2 ^ 17 -> bytes_ok buf -> 8 <= zlen buf -> sum_long addr acc buf = Some (ones (acc + wsum buf)).
Proof.
  intros Ha Hb Hl. unfold sum_long. rewrite (u32_small acc) by lia. destruct (bswap32_spec acc ltac:(lia)) as (S1 & S2 & S3). pose proof (proj1 (wsum_range buf Hb)) as Hw.
  destruct (Z.land addr 1 =? 0) eqn:E; cbn [negb mbind option_bind].
  - destruct (lsum_wsum buf Hb) as [L1 L2]. pose proof (lsum_nonneg buf Hb).
    assert (HS : summing (256 * (acc + wsum buf)) (bswap32 acc) buf) by (split; [lia|lia|done|rewrite Zplus_mod, S2, L1, <- Zplus_mod; f_equal; lia|lia]).
    destruct (sum_aligned _ addr _ _ HS ltac:(lia) ltac:(lia)) as (x & s & Es & Er & X1 & X2 & X3). destruct (align 4 _) as [[? acc2] buf2]. rewrite Es. cbn [mbind option_bind].
    rewrite Er. destruct (ones_spec x X1) as (O1 & O2 & O3). destruct (bswap16_spec (ones x) ltac:(lia)) as (B1 & B2 & B3 & _). f_equal. apply ones_unique; [lia|lia| |lia].
    rewrite B2, Zmult_mod, O2, X2, <- Zmult_mod. replace (256 * (256 * (acc + wsum buf))) with (acc + wsum buf + (acc + wsum buf) * 65535) by lia. by rewrite Z.mod_add.
  - destruct buf as [|b buf]; [change (zlen (@nil Z)) with 0 in Hl; lia|]. cbn [lookup list_lookup mbind option_bind drop]. rewrite drop_0. apply Forall_cons in Hb as [Hx Hb]. unfold byte_ok in Hx.
    rewrite zlen_cons in Hl. rewrite (u32_small (bswap32 acc)) by lia. destruct (bswap32_spec (bswap32 acc) S1) as (R1 & R2 & R3).
    assert (Eb : bswap16 b = b * 256) by (rewrite (proj2 (proj2 (proj2 (bswap16_spec b ltac:(lia))))); divlia). rewrite Eb, u64_small by lia. rewrite wsum_lsum in *. pose proof (lsum_nonneg buf Hb).
    assert (HS : summing (acc + (b * 256 + lsum buf)) (bswap32 (bswap32 acc) + b * 256) buf).
    { split; [lia|lia|done| |lia]. rewrite <- Z.add_assoc, Zplus_mod, R2, Zmult_mod, S2, <- Zmult_mod, <- Zplus_mod.
      replace (256 * (256 * acc) + (b * 256 + lsum buf)) with (acc + (b * 256 + lsum buf) + acc * 65535) by lia. by rewrite Z.mod_add. }
    destruct (sum_aligned _ (addr + 1) _ _ HS ltac:(lia) ltac:(lia)) as (x & s & Es & Er & X1 & X2 & X3). destruct (align 4 _) as [[? acc2] buf2]. rewrite Es. cbn [mbind option_bind].
    rewrite Er. destruct (ones_spec x X1) as (O1 & O2 & O3). rewrite bswap16_twice by lia. f_equal. apply ones_unique; [lia|lia|congruence|lia].
Qed.

Lemma sum_short_spec acc buf : 0 <= acc < 2 ^ 17 -> bytes_ok buf -> zlen buf < 8 -> sum_short acc buf = Some (ones (acc + wsum buf)).
Proof.
  intros Ha Hb Hl. assert (Hr : forall x, 0 <= x < 2 ^ 20 -> reduce x = ones x) by (intros x Hx; apply reduce_spec; lia).
  destruct buf as [|b1 [|b2 [|b3 [|b4 [|b5 [|b6 [|b7 [|b8 buf]]]]]]]]; [..|exfalso; rewrite !zlen_cons in Hl; pose proof (zlen_nonneg buf); lia];
    repeat (apply Forall_cons in Hb as [? Hb]); unfold byte_ok in *; cbv -[Z.add Z.shiftl Z.mul u64 reduce ones Z.pow byte_ok Z.le Z.lt] in *; f_equal;
    rewrite ?Z.shiftl_mul_pow2 by lia; repeat (match goal with |- context [u64 ?x] => lazymatch x with context [u64 _] => fail | _ => rewrite (u64_small x) by lia end end); rewrite Hr by lia; f_equal; lia.
Qed.

Lemma odd_flag n : negb (Z.land n 1 =? 0) = Z.odd n.
Proof. change 1 with (Z.ones 1). rewrite Z.land_ones by lia. change (2 ^ 1) with 2. rewrite Zmod_odd. by destruct (Z.odd n). Qed.

(** The whole routine: the sum of RFC 1071 over what came before and the words
    of [buf], wherever the slice lies in memory, and whether the next byte is
    the low half of a word. *)
Lemma calculateChecksum_spec addr buf odd initial : bytes_ok buf -> 0 <= initial < 2 ^ 16 -> (odd = true -> buf <> []) ->
  calculateChecksum addr buf odd initial = Some (ones (initial + if odd then lsum buf else wsum buf), xorb odd (Z.odd (zlen buf))).
Proof.
  intros Hb Hi Ho. unfold calculateChecksum. assert (Hgen : forall addr acc buf, 0 <= acc < 2 ^ 17 -> bytes_ok buf -> (if zlen buf <? 8 then sum_short acc buf else sum_long addr acc buf) = Some (ones (acc + wsum buf))).
  { intros a acc bs Ha Hbs. case_if; [by apply sum_short_spec|by apply sum_long_spec]. }
  destruct odd; cbn [mbind option_bind].
  - destruct buf as [|x buf]; [by specialize (Ho eq_refl)|]. cbn [lookup list_lookup mbind option_bind drop]. rewrite drop_0. apply Forall_cons in Hb as [Hx Hb]. unfold byte_ok in Hx. rewrite u64_small by lia.
    rewrite Hgen by (done || lia). cbn [mbind option_bind]. rewrite odd_flag, zlen_cons, Z.odd_add. replace (xorb true (xorb (Z.odd 1) (Z.odd (zlen buf)))) with (Z.odd (zlen buf)) by (by destruct (Z.odd (zlen buf))). do 3 f_equal. destruct buf as [|y buf]; [cbn; lia|]. cbn [lsum]. rewrite wsum_lsum. lia.
  - rewrite Hgen by (done || lia). cbn [mbind option_bind]. by rewrite odd_flag.
Qed.

Lemma Checksum_sum addr buf initial : bytes_ok buf -> 0 <= initial < 2 ^ 16 -> Checksum addr buf initial = Some (ones (initial + wsum buf)).
Proof. intros Hb Hi. unfold Checksum. by rewrite calculateChecksum_spec. Qed.

Lemma Combine_sum a b : 0 <= a < 2 ^ 16 -> 0 <= b < 2 ^ 16 -> Combine a b = ones (a + b).
Proof.
  intros Ha Hb. assert (E : Combine a b = fold_at 16 (a + b)).
  { unfold Combine. rewrite Z.shiftr_div_pow2 by lia. rewrite u32_small by divlia. rewrite (Z.add_comm (a + b)). apply fold_wrap; lia. }
  destruct (fold_at_ones 16 (a + b)) as (F1 & F2 & F3); [lia..|]. apply ones_unique; rewrite ?E; try done; [lia|]. split; [done|]. unfold fold_at. divlia.
Qed.
