(* ===== verification/NetHeader.v ===== *)
(** The header fields the network adapter reads and writes: IPv4, TCP and UDP
    in netstack/gvisor/pkg/tcpip/header, and the Ethernet header of
    netstack/frame.go.

    A header is a slice of bytes; [None] is an index out of range.  [place] is
    the address of a slice, which the checksum routine looks at and which, by
    [Checksum_sum], its result does not depend on. *)

From stdpp Require Import prelude list numbers strings.
From S2P Require Import Prelude Bytes Csum GvChecksum.

Definition IPv4MinimumSize : Z := 20.
Definition IPv4MaximumHeaderSize : Z := 60.
Definition TCPMinimumSize : Z := 20.
Definition TCPHeaderMaximumSize : Z := 60.
Definition UDPMinimumSize : Z := 8.
Definition TCPProtocolNumber : Z := 6.
Definition UDPProtocolNumber : Z := 17.
Definition IPv4ProtocolNumber : Z := 0x0800.
Definition IPv4FlagMoreFragments : Z := 1.
Definition TCPFlagFin : Z := 1.
Definition TCPFlagPsh : Z := 8.

Section headers.
Context (place : list Z -> Z).

Definition csum (b : list Z) (initial : Z) : option Z := Checksum (place b) b initial.

(** ** IPv4 *)

Definition HeaderLength (b : list Z) : option Z := x ← get_at 0 b; Some (u8 (Z.land x 0xf * 4)).
Definition TotalLength (b : list Z) : option Z := get_be 2 2 b.
Definition Protocol (b : list Z) : option Z := get_at 9 b.
Definition FragmentOffset (b : list Z) : option Z := v ← get_be 2 6 b; Some (u16 (Z.shiftl v 3)).
Definition IPFlags (b : list Z) : option Z := v ← get_be 2 6 b; Some (u8 (Z.shiftr v 13)).
Definition SourceAddress (b : list Z) : option (list Z) := slice 12 16 b.
Definition DestinationAddress (b : list Z) : option (list Z) := slice 16 20 b.
Definition SetTotalLength (v : Z) (b : list Z) : option (list Z) := put_be 2 2 v b.
Definition SetIPChecksum (v : Z) (b : list Z) : option (list Z) := put_be 2 10 v b.

Definition IPCalculateChecksum (b : list Z) : option Z := h ← HeaderLength b; hdr ← slice 0 h b; csum hdr 0.

Definition IPVersion (b : list Z) : Z := match b with [] => -1 | x :: _ => Z.shiftr x 4 end.

Definition IPIsValid (pktSize : Z) (b : list Z) : option bool :=
  if zlen b <? IPv4MinimumSize then Some false
  else
    hlen ← HeaderLength b; tlen ← TotalLength b;
    Some (if (hlen <? IPv4MinimumSize) || (hlen >? tlen) || (tlen >? pktSize) then false else IPVersion b =? 4).

Definition IPIsChecksumValid (b : list Z) : option bool := s ← IPCalculateChecksum b; Some (s =? 0xffff).

(** ** TCP and UDP *)

Definition PseudoHeaderChecksum (protocol : Z) (src dst : list Z) (totalLen : Z) : option Z :=
  x ← csum src 0;
  x ← csum dst x;
  x ← csum (be_bytes 2 totalLen) x;
  csum [0; u8 protocol] x.

Definition SequenceNumber (b : list Z) : option Z := get_be 4 4 b.
Definition SetSequenceNumber (v : Z) (b : list Z) : option (list Z) := put_be 4 4 v b.
Definition DataOffset (b : list Z) : option Z := x ← get_at 12 b; Some (u8 (Z.shiftr x 4 * 4)).
Definition TCPFlags (b : list Z) : option Z := get_at 13 b.
Definition SetFlags (v : Z) (b : list Z) : option (list Z) := set_at 13 v b.
Definition SetTCPChecksum (v : Z) (b : list Z) : option (list Z) := put_be 2 16 v b.
Definition TCPCalculateChecksum (partial : Z) (b : list Z) : option Z := d ← DataOffset b; hdr ← slice 0 d b; csum hdr partial.

Definition TCPIsChecksumValid (src dst : list Z) (payloadChecksum payloadLength : Z) (b : list Z) : option bool :=
  d ← DataOffset b;
  x ← PseudoHeaderChecksum TCPProtocolNumber src dst (u16 (d + payloadLength));
  s ← TCPCalculateChecksum (Combine x payloadChecksum) b;
  Some (s =? 0xffff).

Definition UDPLength (b : list Z) : option Z := get_be 2 4 b.
Definition UDPChecksum (b : list Z) : option Z := get_be 2 6 b.
Definition UDPIsChecksumValid (src dst : list Z) (payloadChecksum : Z) (b : list Z) : option bool :=
  n ← UDPLength b;
  x ← PseudoHeaderChecksum UDPProtocolNumber dst src n;
  hdr ← slice 0 UDPMinimumSize b;
  s ← csum hdr (Combine x payloadChecksum);
  Some (s =? 0xffff).

(** ** The Ethernet header: netstack/frame.go *)

Definition etherHdrLen : Z := 14.
Definition vlanHdrLen : Z := 18.
Definition etherTypeIPv4 : Z := 0x0800.
Definition etherTypeVLAN : Z := 0x8100.
Definition etherTypeARP : Z := 0x0806.
Definition ipv4MinHdrLen : Z := 20.
Definition minFrameLen : Z := 60.
Definition broadcastMAC : list Z := replicate 6 0xff.

Definition parseFrame (f : list Z) (vlan : Z) : option (Z * Z * bool) :=
  if zlen f <? etherHdrLen then Some (0, 0, false)
  else
    et ← be16 12 f;
    if negb (et =? etherTypeVLAN) then
      Some (if negb (vlan =? 0) then (0, 0, false) else (etherHdrLen, et, true))
    else if zlen f <? vlanHdrLen then Some (0, 0, false)
    else
      tci ← be16 14 f;
      if negb (Z.land tci 0x0fff =? vlan) then Some (0, 0, false)
      else et ← be16 16 f; Some (vlanHdrLen, et, true).

Definition linkHeaderLen (vlan : Z) : Z := if negb (vlan =? 0) then vlanHdrLen else etherHdrLen.

(** The bytes [b[i], b[i+1]] of a 16-bit value. *)
Definition put2 (i hi lo : Z) (b : list Z) : option (list Z) := b ← set_at i hi b; set_at (i + 1) lo b.

(** [copy(b[lo:hi], src)] for an array [src] of that length. *)
Definition copy_at (lo hi : Z) (src b : list Z) : option (list Z) := _ ← slice lo hi b; Some (blit lo (take (Z.to_nat (hi - lo)) src) b).

Definition putHeader (dst src : list Z) (vlan etherType : Z) (b : list Z) : option (Z * list Z) :=
  b ← copy_at 0 6 dst b;
  b ← copy_at 6 12 src b;
  if vlan =? 0 then
    b ← put2 12 (u8 (Z.shiftr etherType 8)) (u8 etherType) b; Some (etherHdrLen, b)
  else
    b ← put2 12 0x81 0x00 b;
    b ← put2 14 (Z.land (u8 (Z.shiftr vlan 8)) 0x0f) (u8 vlan) b;
    b ← put2 16 (u8 (Z.shiftr etherType 8)) (u8 etherType) b;
    Some (vlanHdrLen, b).

Definition isMulticast (mac : list Z) : option bool := x ← get_at 0 mac; Some (negb (Z.land x 1 =? 0)).

(** ** Lemmas *)

Lemma csum_sum b initial : bytes_ok b -> 0 <= initial < 2 ^ 16 -> csum b initial = Some (ones (initial + wsum b)).
Proof. apply Checksum_sum. Qed.

Lemma ones_u16 x : 0 <= x -> 0 <= ones x < 2 ^ 16.
Proof. intros Hx. destruct (ones_spec x Hx) as (? & _). lia. Qed.

Lemma csum_chain b a : bytes_ok b -> 0 <= a -> csum b (ones a) = Some (ones (a + wsum b)).
Proof. intros Hb Ha. pose proof (proj1 (wsum_range _ Hb)). rewrite csum_sum by (done || by apply ones_u16). by rewrite ones_ones by lia. Qed.

Lemma bind_eq {A B} (o : option A) a (f : A -> option B) : o = Some a -> (o ≫= f) = f a.
Proof. by intros ->. Qed.

Lemma bytes_ok_pair x y : byte_ok x -> byte_ok y -> bytes_ok [x; y].
Proof. intros Hx Hy. apply Forall_cons; split; [done|]. apply Forall_cons; split; [done|constructor]. Qed.

Lemma be_bytes_wsum n : 0 <= n < 2 ^ 16 -> wsum (be_bytes 2 n) = n.
Proof. intros Hn. destruct (be_bytes_2 n Hn) as (x & y & -> & E & Hx & Hy). cbn [wsum]. lia. Qed.

Lemma PseudoHeaderChecksum_sum p src dst n : bytes_ok src -> bytes_ok dst -> 0 <= p < 256 -> 0 <= n < 2 ^ 16 ->
  PseudoHeaderChecksum p src dst n = Some (ones (wsum src + wsum dst + n + p)).
Proof.
  intros Hs Hd Hp Hn. pose proof (proj1 (wsum_range _ Hs)) as Ws. pose proof (proj1 (wsum_range _ Hd)) as Wd.
  pose proof (be_bytes_wsum n Hn) as Wn. assert (Wp : wsum [0; u8 p] = p) by (cbn [wsum]; rewrite u8_small by (split; lia); lia).
  assert (Bp : bytes_ok [0; u8 p]) by (apply bytes_ok_pair; [unfold byte_ok; lia|apply u8_range]).
  unfold PseudoHeaderChecksum. rewrite (bind_eq _ _ _ (csum_sum src 0 Hs ltac:(lia))). rewrite (bind_eq _ _ _ (csum_chain dst (0 + wsum src) Hd ltac:(lia))).
  rewrite (bind_eq _ _ _ (csum_chain (be_bytes 2 n) (0 + wsum src + wsum dst) (be_bytes_ok 2 n) ltac:(lia))), Wn.
  rewrite (csum_chain [0; u8 p] (0 + wsum src + wsum dst + n) Bp ltac:(lia)), Wp. by rewrite Z.add_0_l.
Qed.

(** A field that makes a sum come out: the complement of what was there. *)
Lemma finish_sum S : 0 <= S -> ones (S + (65535 - ones S)) = 65535.
Proof.
  intros H1. destruct (ones_spec S H1) as (O1 & O2 & O3). symmetry. apply ones_unique; [lia|lia| |lia].
  rewrite Z.add_sub_assoc, Zminus_mod, O2, <- Zminus_mod. replace (S + 65535 - S) with (1 * 65535) by lia. by rewrite Z.mod_mul.
Qed.
End headers.
