(* ===== verification/NetOptions.v ===== *)
(** TCP options: the parsers and encoders of
    netstack/gvisor/pkg/tcpip/header/tcp.go and the functions of
    transport/tcp/connect.go that lay the options of a segment out.

    A peer chooses the bytes the parsers read.  [parse_syn] and [parse_opts] run
    with one unit of fuel a byte: every option they step over takes one. *)

From stdpp Require Import prelude list numbers strings.
From S2P Require Import Prelude Bytes Csum GvChecksum NetHeader.

Definition TCPOptionEOL : Z := 0.
Definition TCPOptionNOP : Z := 1.
Definition TCPOptionMSS : Z := 2.
Definition TCPOptionWS : Z := 3.
Definition TCPOptionTS : Z := 8.
Definition TCPOptionSACKPermitted : Z := 4.
Definition TCPOptionSACK : Z := 5.
Definition TCPOptionMSSLength : Z := 4.
Definition TCPOptionTSLength : Z := 10.
Definition TCPOptionWSLength : Z := 3.
Definition TCPOptionSackPermittedLength : Z := 2.
Definition MaxWndScale : Z := 14.
Definition TCPMaxSACKBlocks : Z := 4.
Definition TCPDefaultMSS : Z := 536.
Definition TCPMinimumSendMSS : Z := 40 + 8.
Definition maxOptionSize : Z := 40.

Record TCPSynOptions := mkSyn {
  so_MSS : Z; so_WS : Z; so_TS : bool; so_TSVal : Z; so_TSEcr : Z; so_SACKPermitted : bool; so_Flags : Z }.

Record SACKBlock := mkSACK { sb_Start : Z; sb_End : Z }.

Record TCPOptions := mkOptions { to_TS : bool; to_TSVal : Z; to_TSEcr : Z; to_SACKBlocks : list SACKBlock }.

(** ** Parsing *)

Definition syn_mss (v : Z) (o : TCPSynOptions) : TCPSynOptions := mkSyn v (so_WS o) (so_TS o) (so_TSVal o) (so_TSEcr o) (so_SACKPermitted o) (so_Flags o).
Definition syn_ws (v : Z) (o : TCPSynOptions) : TCPSynOptions := mkSyn (so_MSS o) v (so_TS o) (so_TSVal o) (so_TSEcr o) (so_SACKPermitted o) (so_Flags o).
Definition syn_ts (v e : Z) (o : TCPSynOptions) : TCPSynOptions := mkSyn (so_MSS o) (so_WS o) true v e (so_SACKPermitted o) (so_Flags o).
Definition syn_sack (o : TCPSynOptions) : TCPSynOptions := mkSyn (so_MSS o) (so_WS o) (so_TS o) (so_TSVal o) (so_TSEcr o) true (so_Flags o).

(** An option of [n] bytes at [i]: whether it is there, whole and of that
    length. *)
Definition has_option (n i : Z) (opts : list Z) : option bool :=
  if i + n >? zlen opts then Some false else l ← get_at (i + 1) opts; Some (l =? n).

Definition Uint32 (i : Z) (b : list Z) : option Z := s ← slice i (zlen b) b; get_be 4 0 s.

Fixpoint parse_syn (fuel : nat) (opts : list Z) (isAck : bool) (i : Z) (o : TCPSynOptions) : option TCPSynOptions :=
  let limit := zlen opts in
  if i <? limit then
    match fuel with
    | O => None
    | S fuel =>
      k ← get_at i opts;
      if k =? TCPOptionEOL then parse_syn fuel opts isAck limit o
      else if k =? TCPOptionNOP then parse_syn fuel opts isAck (i + 1) o
      else if k =? TCPOptionMSS then
        ok ← has_option 4 i opts;
        if negb ok then Some o
        else
          a ← get_at (i + 2) opts;
          b ← get_at (i + 3) opts;
          let mss := Z.lor (u16 (Z.shiftl a 8)) b in
          if mss =? 0 then Some o
          else parse_syn fuel opts isAck (i + 4) (syn_mss (if mss <? TCPMinimumSendMSS then TCPMinimumSendMSS else mss) o)
      else if k =? TCPOptionWS then
        ok ← has_option 3 i opts;
        if negb ok then Some o
        else ws ← get_at (i + 2) opts; parse_syn fuel opts isAck (i + 3) (syn_ws (if ws >? MaxWndScale then MaxWndScale else ws) o)
      else if k =? TCPOptionTS then
        ok ← has_option 10 i opts;
        if negb ok then Some o
        else
          v ← Uint32 (i + 2) opts;
          e ← (if isAck then Uint32 (i + 6) opts else Some (so_TSEcr o));
          parse_syn fuel opts isAck (i + 10) (syn_ts v e o)
      else if k =? TCPOptionSACKPermitted then
        ok ← has_option 2 i opts;
        if negb ok then Some o else parse_syn fuel opts isAck (i + 2) (syn_sack o)
      else if i + 2 >? limit then Some o
      else
        l ← get_at (i + 1) opts;
        if (l <? 2) || (i + l >? limit) then Some o else parse_syn fuel opts isAck (i + l) o
    end
  else Some o.

Definition ParseSynOptions (opts : list Z) (isAck : bool) : option TCPSynOptions :=
  parse_syn (length opts) opts isAck 0 (mkSyn TCPDefaultMSS (-1) false 0 0 false 0).

(** The [n] blocks from [i] on. *)
Fixpoint parse_blocks (n : nat) (i : Z) (b : list Z) : option (list SACKBlock) :=
  match n with
  | O => Some []
  | S n => s ← Uint32 i b; e ← Uint32 (i + 4) b; bs ← parse_blocks n (i + 8) b; Some (mkSACK s e :: bs)
  end.

Fixpoint parse_opts (fuel : nat) (b : list Z) (i : Z) (o : TCPOptions) : option TCPOptions :=
  let limit := zlen b in
  if i <? limit then
    match fuel with
    | O => None
    | S fuel =>
      k ← get_at i b;
      if k =? TCPOptionEOL then parse_opts fuel b limit o
      else if k =? TCPOptionNOP then parse_opts fuel b (i + 1) o
      else if k =? TCPOptionTS then
        ok ← has_option 10 i b;
        if negb ok then Some o
        else v ← Uint32 (i + 2) b; e ← Uint32 (i + 6) b; parse_opts fuel b (i + 10) (mkOptions true v e (to_SACKBlocks o))
      else if k =? TCPOptionSACK then
        if i + 2 >? limit then Some o
        else
          l ← get_at (i + 1) b;
          if (i + l >? limit) || negb (Z.rem (l - 2) 8 =? 0) then Some o
          else
            bs ← parse_blocks (Z.to_nat (Z.quot (l - 2) 8)) (i + 2) b;
            parse_opts fuel b (i + l) (mkOptions (to_TS o) (to_TSVal o) (to_TSEcr o) bs)
      else if i + 2 >? limit then Some o
      else
        l ← get_at (i + 1) b;
        if (l <? 2) || (i + l >? limit) then Some o else parse_opts fuel b (i + l) o
    end
  else Some o.

Definition ParseTCPOptions (b : list Z) : option TCPOptions := parse_opts (length b) b 0 (mkOptions false 0 0 []).

(** ** Encoding

    An encoder is given the rest of the buffer and returns what it wrote there
    and how much of it. *)

Definition EncodeMSSOption (mss : Z) (b : list Z) : option (Z * list Z) :=
  if zlen b <? TCPOptionMSSLength then Some (0, b)
  else
    b ← set_at 0 TCPOptionMSS b; b ← set_at 1 TCPOptionMSSLength b; b ← set_at 2 (u8 (Z.shiftr mss 8)) b; b ← set_at 3 (u8 mss) b;
    Some (TCPOptionMSSLength, b).

Definition EncodeWSOption (ws : Z) (b : list Z) : option (Z * list Z) :=
  if zlen b <? TCPOptionWSLength then Some (0, b)
  else b ← set_at 0 TCPOptionWS b; b ← set_at 1 TCPOptionWSLength b; b ← set_at 2 (u8 ws) b; Some (TCPOptionWSLength, b).

Definition EncodeTSOption (tsVal tsEcr : Z) (b : list Z) : option (Z * list Z) :=
  if zlen b <? TCPOptionTSLength then Some (0, b)
  else b ← set_at 0 TCPOptionTS b; b ← set_at 1 TCPOptionTSLength b; b ← put_be 4 2 tsVal b; b ← put_be 4 6 tsEcr b; Some (TCPOptionTSLength, b).

Definition EncodeSACKPermittedOption (b : list Z) : option (Z * list Z) :=
  if zlen b <? TCPOptionSackPermittedLength then Some (0, b)
  else b ← set_at 0 TCPOptionSACKPermitted b; b ← set_at 1 TCPOptionSackPermittedLength b; Some (TCPOptionSackPermittedLength, b).

Fixpoint put_blocks (i : Z) (bs : list SACKBlock) (b : list Z) : option (list Z) :=
  match bs with
  | [] => Some b
  | s :: bs => b ← put_be 4 (i * 8 + 2) (sb_Start s) b; b ← put_be 4 (i * 8 + 6) (sb_End s) b; put_blocks (i + 1) bs b
  end.

Definition EncodeSACKBlocks (bs : list SACKBlock) (b : list Z) : option (Z * list Z) :=
  if zlen bs =? 0 then Some (0, b)
  else
    let l := zlen bs in
    let l := if l >? TCPMaxSACKBlocks then TCPMaxSACKBlocks else l in
    let ll := Z.quot (zlen b - 2) 8 in
    let l := if ll <? l then ll else l in
    if l =? 0 then Some (0, b)
    else
      b ← set_at 0 TCPOptionSACK b; b ← set_at 1 (u8 (l * 8 + 2)) b; b ← put_blocks 0 (take (Z.to_nat l) bs) b;
      Some (u8 (l * 8 + 2), b).

Definition EncodeNOP (b : list Z) : option (Z * list Z) :=
  if zlen b =? 0 then Some (0, b) else b ← set_at 0 TCPOptionNOP b; Some (1, b).

Definition AddTCPOptionPadding (options : list Z) (offset : Z) : option (Z * list Z) :=
  let pad := Z.land (- offset) 3 in
  options ← foldM (fun options i => set_at i TCPOptionNOP options) (seqZ offset pad) options;
  Some (pad, options).

(** [offset += encode(options[offset:])]. *)
Definition enc (f : list Z -> option (Z * list Z)) (st : Z * list Z) : option (Z * list Z) :=
  let '(offset, options) := st in
  s ← slice offset (zlen options) options;
  '(n, s) ← f s;
  Some (offset + n, blit offset s options).

(** The options, once they end on a multiple of four. *)
Definition finish_options (st : Z * list Z) : option (list Z) :=
  let '(offset, options) := st in
  '(delta, options) ← AddTCPOptionPadding options offset;
  if negb (delta =? 0) then None else slice 0 offset options.

(** [buf] is what the pool of option buffers hands out. *)
Definition makeSynOptions (opts : TCPSynOptions) (buf : list Z) : option (list Z) :=
  '(offset, options) ← EncodeMSSOption (so_MSS opts) buf;
  let st := (offset, options) in
  st ← (if so_TS opts && so_SACKPermitted opts then
          st ← enc EncodeSACKPermittedOption st; enc (EncodeTSOption (so_TSVal opts) (so_TSEcr opts)) st
        else if so_TS opts then
          st ← enc EncodeNOP st; st ← enc EncodeNOP st; enc (EncodeTSOption (so_TSVal opts) (so_TSEcr opts)) st
        else if so_SACKPermitted opts then
          st ← enc EncodeNOP st; st ← enc EncodeNOP st; enc EncodeSACKPermittedOption st
        else Some st);
  st ← (if so_WS opts >=? 0 then st ← enc EncodeNOP st; enc (EncodeWSOption (so_WS opts)) st else Some st);
  finish_options st.

(** [ts] is the timestamp to send and the one to echo, when the connection has
    timestamps; [sack] is whether it may send selective acknowledgements. *)
Definition makeOptions (ts : option (Z * Z)) (sack : bool) (sackBlocks : list SACKBlock) (buf : list Z) : option (list Z) :=
  let st := (0, buf) in
  st ← (match ts with
        | Some (v, e) => st ← enc EncodeNOP st; st ← enc EncodeNOP st; enc (EncodeTSOption v e) st
        | None => Some st
        end);
  st ← (if sack && (zlen sackBlocks >? 0) then
          st ← enc EncodeNOP st; st ← enc EncodeNOP st; enc (EncodeSACKBlocks sackBlocks) st
        else Some st);
  finish_options st.

(** ** Any bytes *)

Lemma has_option_total n i opts : 2 <= n -> 0 <= i -> exists ok, has_option n i opts = Some ok /\ (ok = true -> i + n <= zlen opts).
Proof.
  intros Hn Hi. unfold has_option. destruct (i + n >? zlen opts) eqn:E; rewrite Z.gtb_ltb in E; to_prop; [by exists false|].
  destruct (get_at_Some (i + 1) opts ltac:(lia)) as [l ->]. cbn [mbind option_bind]. exists (l =? n). split; [done|]. lia.
Qed.

Lemma Uint32_total i b : 0 <= i -> i + 4 <= zlen b -> exists v, Uint32 i b = Some v.
Proof.
  intros Hi Hb. unfold Uint32. rewrite slice_Some by lia. cbn [mbind option_bind]. unfold get_be.
  rewrite slice_Some by (rewrite ?zlen_take, ?zlen_drop; lia). by eexists.
Qed.

(** What the parsers promise of the options they return. *)
Definition syn_ok (o : TCPSynOptions) : Prop := TCPMinimumSendMSS <= so_MSS o < 2 ^ 16 /\ -1 <= so_WS o <= MaxWndScale.

Lemma mss_range a b : byte_ok a -> byte_ok b -> 0 <= Z.lor (u16 (Z.shiftl a 8)) b < 2 ^ 16.
Proof.
  intros Ha Hb. unfold byte_ok in *. pose proof (u16_range (Z.shiftl a 8)). assert (0 <= Z.lor (u16 (Z.shiftl a 8)) b) by (apply Z.lor_nonneg; lia). split; [done|].
  destruct (Z.eq_dec (Z.lor (u16 (Z.shiftl a 8)) b) 0) as [->|]; [done|]. apply Z.log2_lt_pow2; [lia|]. rewrite Z.log2_lor by lia. apply Z.max_lub_lt.
  - destruct (Z.eq_dec (u16 (Z.shiftl a 8)) 0) as [->|]; [done|]. apply Z.log2_lt_pow2; lia.
  - destruct (Z.eq_dec b 0) as [->|]; [done|]. apply Z.log2_lt_pow2; lia.
Qed.

Lemma get_at_ok i b : bytes_ok b -> 0 <= i < zlen b -> exists x, get_at i b = Some x /\ byte_ok x.
Proof.
  intros Hb Hi. destruct (get_at_Some i b Hi) as [x E]. exists x. split; [done|]. rewrite get_at_lookup in E by lia. unfold bytes_ok in Hb. rewrite Forall_lookup in Hb. eauto.
Qed.

(** Whatever the bytes, and with a unit of fuel for each that is left, the
    parser returns options in range. *)
Lemma parse_syn_total fuel : forall opts isAck i o, bytes_ok opts -> 0 <= i -> zlen opts - i <= Z.of_nat fuel -> syn_ok o ->
  exists o', parse_syn fuel opts isAck i o = Some o' /\ syn_ok o'.
Proof.
  induction fuel as [|fuel IH]; intros opts isAck i o Hb Hi Hf Ho; cbn [parse_syn]; destruct (i <? zlen opts) eqn:Ei; to_prop; [lia|by exists o| |by exists o].
  destruct (get_at_ok i opts Hb ltac:(lia)) as (k & -> & Hk). cbn [mbind option_bind]. destruct (k =? TCPOptionEOL); [apply IH; (done || lia)|]. destruct (k =? TCPOptionNOP); [apply IH; (done || lia)|].
  destruct (k =? TCPOptionMSS).
  { destruct (has_option_total 4 i opts ltac:(lia) Hi) as ([] & -> & Hl); cbn [mbind option_bind negb]; [|by exists o]. specialize (Hl eq_refl).
    destruct (get_at_ok (i + 2) opts Hb ltac:(lia)) as (a & -> & Ha). destruct (get_at_ok (i + 3) opts Hb ltac:(lia)) as (b & -> & Hb'). cbn [mbind option_bind]. pose proof (mss_range a b Ha Hb'). set (mss := Z.lor _ _) in *.
    destruct (mss =? 0); [by exists o|]. apply IH; (done || lia || idtac). destruct Ho as [_ Hw]. split; [|done]. cbn [so_MSS syn_mss]. unfold TCPMinimumSendMSS. case_if; lia. }
  destruct (k =? TCPOptionWS).
  { destruct (has_option_total 3 i opts ltac:(lia) Hi) as ([] & -> & Hl); cbn [mbind option_bind negb]; [|by exists o]. specialize (Hl eq_refl).
    destruct (get_at_ok (i + 2) opts Hb ltac:(lia)) as (a & -> & Ha). cbn [mbind option_bind]. apply IH; (done || lia || idtac). destruct Ho as [Hm _]. split; [done|]. cbn [so_WS syn_ws]. unfold MaxWndScale, byte_ok in *. destruct (a >? 14) eqn:E; rewrite Z.gtb_ltb in E; to_prop; lia. }
  destruct (k =? TCPOptionTS).
  { destruct (has_option_total 10 i opts ltac:(lia) Hi) as ([] & -> & Hl); cbn [mbind option_bind negb]; [|by exists o]. specialize (Hl eq_refl).
    destruct (Uint32_total (i + 2) opts ltac:(lia) ltac:(lia)) as [v ->]. destruct (Uint32_total (i + 6) opts ltac:(lia) ltac:(lia)) as [e ->]. destruct isAck; cbn [mbind option_bind]; apply IH; (done || lia). }
  destruct (k =? TCPOptionSACKPermitted).
  { destruct (has_option_total 2 i opts ltac:(lia) Hi) as ([] & -> & Hl); cbn [mbind option_bind negb]; [|by exists o]. specialize (Hl eq_refl). apply IH; (done || lia). }
  destruct (i + 2 >? zlen opts) eqn:E2; rewrite Z.gtb_ltb in E2; to_prop; [by exists o|]. destruct (get_at_ok (i + 1) opts Hb ltac:(lia)) as (l & -> & _). cbn [mbind option_bind].
  destruct ((l <? 2) || (i + l >? zlen opts)) eqn:El; [by exists o|]. to_prop. apply IH; (done || lia).
Qed.

Lemma parse_blocks_total n : forall i b, 0 <= i -> i + 8 * Z.of_nat n <= zlen b -> exists bs, parse_blocks n i b = Some bs /\ length bs = n.
Proof.
  induction n as [|n IH]; intros i b Hi Hb; cbn [parse_blocks]; [by exists []|]. destruct (Uint32_total i b ltac:(lia) ltac:(lia)) as [s ->]. destruct (Uint32_total (i + 4) b ltac:(lia) ltac:(lia)) as [e ->].
  destruct (IH (i + 8) b ltac:(lia) ltac:(lia)) as (bs & -> & L). cbn [mbind option_bind]. eexists. split; [done|]. cbn. by rewrite L.
Qed.

Lemma parse_opts_total fuel : forall b i o, 0 <= i -> bytes_ok b -> zlen b - i <= Z.of_nat fuel -> 8 * zlen (to_SACKBlocks o) <= zlen b ->
  exists o', parse_opts fuel b i o = Some o' /\ 8 * zlen (to_SACKBlocks o') <= zlen b.
Proof.
  induction fuel as [|fuel IH]; intros b i o Hi Hb Hf Ho; cbn [parse_opts]; destruct (i <? zlen b) eqn:Ei; to_prop; [lia|by exists o| |by exists o].
  destruct (get_at_ok i b Hb ltac:(lia)) as (k & -> & Hk). cbn [mbind option_bind]. destruct (k =? TCPOptionEOL); [apply IH; (done || lia)|]. destruct (k =? TCPOptionNOP); [apply IH; (done || lia)|].
  destruct (k =? TCPOptionTS).
  { destruct (has_option_total 10 i b ltac:(lia) Hi) as ([] & -> & Hl); cbn [mbind option_bind negb]; [|by exists o]. specialize (Hl eq_refl).
    destruct (Uint32_total (i + 2) b ltac:(lia) ltac:(lia)) as [v ->]. destruct (Uint32_total (i + 6) b ltac:(lia) ltac:(lia)) as [e ->]. cbn [mbind option_bind]. apply IH; (done || lia). }
  destruct (i + 2 >? zlen b) eqn:E2; rewrite Z.gtb_ltb in E2; to_prop; [destruct (k =? TCPOptionSACK); by exists o|]. destruct (get_at_ok (i + 1) b Hb ltac:(lia)) as (l & -> & Hl). cbn [mbind option_bind]. unfold byte_ok in Hl. destruct (k =? TCPOptionSACK).
  - destruct ((i + l >? zlen b) || negb (Z.rem (l - 2) 8 =? 0)) eqn:El; [by exists o|]. to_prop. rewrite Z.gtb_ltb in *. to_prop. pose proof (Z.quot_rem' (l - 2) 8).
    assert (2 <= l). { destruct (Z_lt_le_dec l 2); [|done]. assert (l = 0 \/ l = 1) as [-> | ->] by lia; done. }
    assert (0 <= Z.quot (l - 2) 8) by (apply Z.quot_pos; lia). destruct (parse_blocks_total (Z.to_nat (Z.quot (l - 2) 8)) (i + 2) b) as (bs & -> & L); [lia|lia|]. cbn [mbind option_bind]. apply IH; (done || lia || idtac). cbn [to_SACKBlocks]. unfold zlen at 1. rewrite L, Z2Nat.id by done. lia.
  - destruct ((l <? 2) || (i + l >? zlen b)) eqn:El; [by exists o|]. to_prop. apply IH; (done || lia).
Qed.

(** ** Options as they are laid out *)

Inductive item :=
| INop
| IMss (v : Z)
| IWs (v : Z)
| ITs (v e : Z)
| ISackPermitted
| ISack (bs : list SACKBlock).

Definition block_bytes (s : SACKBlock) : list Z := be_bytes 4 (sb_Start s) ++ be_bytes 4 (sb_End s).

Definition item_bytes (it : item) : list Z :=
  match it with
  | INop => [TCPOptionNOP]
  | IMss v => [TCPOptionMSS; 4] ++ be_bytes 2 v
  | IWs v => [TCPOptionWS; 3; v]
  | ITs v e => [TCPOptionTS; 10] ++ be_bytes 4 v ++ be_bytes 4 e
  | ISackPermitted => [TCPOptionSACKPermitted; 2]
  | ISack bs => [TCPOptionSACK; zlen bs * 8 + 2] ++ concat (map block_bytes bs)
  end.

Definition items_bytes (its : list item) : list Z := concat (map item_bytes its).

Definition item_size (it : item) : Z :=
  match it with INop => 1 | IMss _ => 4 | IWs _ => 3 | ITs _ _ => 10 | ISackPermitted => 2 | ISack bs => zlen bs * 8 + 2 end.

Definition word_ok (v : Z) : Prop := 0 <= v < 2 ^ 32.

Definition item_ok (it : item) : Prop :=
  match it with
  | INop | ISackPermitted => True
  | IMss v => 0 <= v < 2 ^ 16
  | IWs v => 0 <= v < 2 ^ 8
  | ITs v e => word_ok v /\ word_ok e
  | ISack bs => 1 <= zlen bs <= TCPMaxSACKBlocks /\ Forall (fun s => word_ok (sb_Start s) /\ word_ok (sb_End s)) bs
  end.

Lemma zlen_blocks bs : zlen (concat (map block_bytes bs)) = zlen bs * 8.
Proof. induction bs as [|s bs IH]; [done|]. cbn [map concat]. unfold block_bytes at 1. rewrite !zlen_app, !zlen_be_bytes, IH, zlen_cons. lia. Qed.

Lemma zlen_item it : zlen (item_bytes it) = item_size it.
Proof. destruct it; cbn [item_bytes item_size]; try done; rewrite zlen_app, ?zlen_app, ?zlen_be_bytes, ?zlen_blocks; change (zlen [_; _]) with 2; lia. Qed.

Lemma item_size_pos it : item_ok it -> 1 <= item_size it.
Proof. destruct it as [| | | | |bs]; cbn [item_size]; try lia. intros [? _]. lia. Qed.

(** *** Reading one option after [pre] *)

Lemma get_at_in (pre l : list Z) k i : i = zlen pre + Z.of_nat k -> get_at i (pre ++ l) = l !! k.
Proof. intros ->. rewrite get_at_lookup by (unfold zlen; lia). rewrite lookup_app_r by (unfold zlen; lia). f_equal. unfold zlen. lia. Qed.

Lemma slice_in (pre a l : list Z) lo hi : lo = zlen pre -> hi = zlen pre + zlen a -> slice lo hi (pre ++ a ++ l) = Some a.
Proof. intros -> ->. apply slice_app_mid. Qed.

Lemma Uint32_in (pre l : list Z) v i : i = zlen pre -> word_ok v -> Uint32 i (pre ++ be_bytes 4 v ++ l) = Some v.
Proof.
  intros -> Hv. unfold Uint32. replace (slice _ _ _) with (Some (be_bytes 4 v ++ l)).
  - cbn [mbind option_bind]. unfold get_be. rewrite (slice_in [] (be_bytes 4 v) l) by (rewrite ?zlen_be_bytes; done). cbn [mbind option_bind]. rewrite be_val_bytes. f_equal. apply Z.mod_small. exact Hv.
  - symmetry. rewrite <- (app_nil_r (be_bytes 4 v ++ l)) at 2. apply slice_in; [done|]. by rewrite zlen_app.
Qed.

Lemma has_option_in pre k n l i : i = zlen pre -> n <= zlen (k :: n :: l) -> has_option n i (pre ++ k :: n :: l) = Some true.
Proof.
  intros -> Hn. unfold has_option. rewrite zlen_app. destruct (_ >? _) eqn:E; rewrite Z.gtb_ltb in E; to_prop; [lia|]. rewrite (get_at_in pre _ 1) by lia. cbn. by rewrite Z.eqb_refl.
Qed.

Lemma mss_bytes v : 0 <= v < 2 ^ 16 -> exists a b, be_bytes 2 v = [a; b] /\ Z.lor (u16 (Z.shiftl a 8)) b = v.
Proof.
  intros Hv. exists (v / 256), (v mod 256). assert (0 <= v / 256 < 256) by divlia. assert (0 <= v mod 256 < 256) by divlia. split.
  - unfold be_bytes. cbn [le_bytes rev app]. f_equal. rewrite Z.mod_small; lia.
  - rewrite u16_small by (rewrite Z.shiftl_mul_pow2 by lia; change (2 ^ 8) with 256; lia). rewrite lor_word by (unfold byte_ok; lia). divlia.
Qed.

(** What reading an option does to what has been read: a segment size is raised
    to the smallest, a scale lowered to the largest. *)
Definition syn_read (isAck : bool) (it : item) (o : TCPSynOptions) : TCPSynOptions :=
  match it with
  | IMss v => syn_mss (Z.max TCPMinimumSendMSS v) o
  | IWs v => syn_ws (Z.min MaxWndScale v) o
  | ITs v e => syn_ts v (if isAck then e else so_TSEcr o) o
  | ISackPermitted => syn_sack o
  | INop | ISack _ => o
  end.

(** Decides the tests on the kind of an option. *)
Ltac by_kind := repeat match goal with |- context [if ?a =? ?b then _ else _] => first [change (a =? b) with true | change (a =? b) with false]; cbv iota end.

Ltac in_range := match goal with |- context [?a >? ?b] => replace (a >? b) with false by (symmetry; rewrite Z.gtb_ltb; apply Z.ltb_ge; lia) end.

Lemma parse_syn_item fuel isAck it pre rest o : item_ok it -> it <> IMss 0 ->
  parse_syn (S fuel) (pre ++ item_bytes it ++ rest) isAck (zlen pre) o = parse_syn fuel (pre ++ item_bytes it ++ rest) isAck (zlen pre + item_size it) (syn_read isAck it o).
Proof.
  intros Hit Hn0. set (opts := pre ++ item_bytes it ++ rest). cbn [parse_syn]. assert (Hl : zlen opts = zlen pre + item_size it + zlen rest) by (unfold opts; rewrite !zlen_app, zlen_item; lia). pose proof (zlen_nonneg rest).
  rewrite (proj2 (Z.ltb_lt _ _)) by (pose proof (item_size_pos it Hit); lia). unfold opts. rewrite (get_at_in pre _ 0 (zlen pre)) by lia.
  destruct it as [|v|v|v e| |bs]; cbn [item_bytes app lookup list_lookup mbind option_bind item_size syn_read item_ok] in *.
  - done.
  - by_kind. unfold TCPMinimumSendMSS in *.
    destruct (mss_bytes v ltac:(lia)) as (a & b & -> & E). cbn [app]. rewrite has_option_in by (rewrite ?zlen_cons; lia || done). cbn [mbind option_bind negb]. rewrite (get_at_in pre _ 2 (zlen pre + 2)), (get_at_in pre _ 3 (zlen pre + 3)) by lia. cbn [lookup list_lookup mbind option_bind]. rewrite E.
    rewrite (proj2 (Z.eqb_neq v 0)) by congruence. replace (if v <? 40 + 8 then 40 + 8 else v) with (Z.max (40 + 8) v) by (case_if; lia). done.
  - by_kind.
    rewrite has_option_in by (rewrite ?zlen_cons; lia || done). cbn [mbind option_bind negb]. rewrite (get_at_in pre _ 2 (zlen pre + 2)) by lia. cbn [lookup list_lookup mbind option_bind]. replace (if v >? MaxWndScale then MaxWndScale else v) with (Z.min MaxWndScale v) by (rewrite Z.gtb_ltb; case_if; lia). done.
  - by_kind.
    rewrite <- app_assoc in *. rewrite has_option_in by (rewrite ?zlen_cons, ?zlen_app, ?zlen_be_bytes; lia || done). cbn [mbind option_bind negb]. destruct Hit as [Hv He].
    assert (E2 : Uint32 (zlen pre + 2) (pre ++ TCPOptionTS :: 10 :: be_bytes 4 v ++ be_bytes 4 e ++ rest) = Some v).
    { change (pre ++ TCPOptionTS :: 10 :: be_bytes 4 v ++ be_bytes 4 e ++ rest) with (pre ++ [TCPOptionTS; 10] ++ be_bytes 4 v ++ be_bytes 4 e ++ rest). rewrite app_assoc. apply Uint32_in; [|done]. by rewrite zlen_app. }
    assert (E6 : Uint32 (zlen pre + 6) (pre ++ TCPOptionTS :: 10 :: be_bytes 4 v ++ be_bytes 4 e ++ rest) = Some e).
    { change (pre ++ TCPOptionTS :: 10 :: be_bytes 4 v ++ be_bytes 4 e ++ rest) with (pre ++ [TCPOptionTS; 10] ++ be_bytes 4 v ++ be_bytes 4 e ++ rest). rewrite (app_assoc pre), (app_assoc _ (be_bytes 4 v)). apply Uint32_in; [|done]. rewrite !zlen_app, zlen_be_bytes. change (zlen [_; _]) with 2. lia. }
    rewrite E2, E6. destruct isAck; done.
  - by_kind.
    rewrite has_option_in by (rewrite ?zlen_cons; lia || done). done.
  - by_kind.
    destruct Hit as [Hn _]. fold opts. assert (G : get_at (zlen pre + 1) opts = Some (zlen bs * 8 + 2)) by (unfold opts; by rewrite (get_at_in pre _ 1) by lia).
    rewrite G, Hl. in_range. cbn [mbind option_bind]. rewrite (proj2 (Z.ltb_ge (zlen bs * 8 + 2) 2)) by lia. in_range. done.
Qed.

Lemma parse_syn_end fuel opts isAck o : parse_syn fuel opts isAck (zlen opts) o = Some o.
Proof. destruct fuel; cbn [parse_syn]; by rewrite Z.ltb_irrefl. Qed.

Lemma parse_syn_items isAck its : forall pre fuel o, Forall (fun it => item_ok it /\ it <> IMss 0) its -> (length (items_bytes its) <= fuel)%nat ->
  parse_syn fuel (pre ++ items_bytes its) isAck (zlen pre) o = Some (foldl (fun o it => syn_read isAck it o) o its).
Proof.
  induction its as [|it its IH]; intros pre fuel o Hits Hf; cbn [items_bytes map concat foldl]; [rewrite app_nil_r; apply parse_syn_end|].
  apply Forall_cons in Hits as [[Hit Hn0] Hits]. pose proof (item_size_pos it Hit). pose proof (zlen_item it) as L. unfold items_bytes in Hf. cbn [map concat] in Hf. rewrite length_app in Hf.
  destruct fuel as [|fuel]; [unfold zlen in L; lia|]. rewrite parse_syn_item by done. rewrite <- L, <- zlen_app, app_assoc. apply IH; [done|]. unfold items_bytes, zlen in *. lia.
Qed.

(** A segment size of zero ends the reading. *)
Lemma parse_syn_zero fuel isAck rest o : parse_syn (S fuel) (item_bytes (IMss 0) ++ rest) isAck 0 o = Some o.
Proof.
  change (item_bytes (IMss 0)) with [TCPOptionMSS; 4; 0; 0]. cbn [parse_syn app]. pose proof (zlen_nonneg rest). rewrite (proj2 (Z.ltb_lt _ _)) by (rewrite !zlen_cons; lia). cbn [get_at Z.leb Z.compare Z.to_nat lookup list_lookup mbind option_bind]. by_kind. pose proof (has_option_in [] TCPOptionMSS 4 (0 :: 0 :: rest) 0 eq_refl ltac:(rewrite !zlen_cons; lia)) as Hh. cbn [app] in Hh. rewrite Hh. done.
Qed.

(** *** Writing one option after [pre] *)

Lemma blit_at {A} (pre a rest : list A) i : i = zlen pre -> blit i a (pre ++ rest) = pre ++ a ++ drop (length a) rest.
Proof.
  intros ->. unfold blit, zlen. rewrite Nat2Z.id, take_app_length. f_equal. f_equal. rewrite <- drop_drop, drop_app_length. done.
Qed.

Lemma set_at_at (pre rest : list Z) x i : i = zlen pre -> 1 <= zlen rest -> set_at i x (pre ++ rest) = Some ((pre ++ [x]) ++ drop 1 rest).
Proof. intros -> Hr. pose proof (zlen_nonneg pre). rewrite set_blit by (rewrite zlen_app; lia). by rewrite blit_at, app_assoc by done. Qed.

Lemma put_be_at n (pre rest : list Z) v i : i = zlen pre -> Z.of_nat n <= zlen rest -> put_be n i v (pre ++ rest) = Some ((pre ++ be_bytes n v) ++ drop n rest).
Proof. intros -> Hr. pose proof (zlen_nonneg pre). rewrite put_be_Some by (rewrite ?zlen_app; lia). rewrite blit_at by done. by rewrite length_be_bytes, app_assoc. Qed.

Definition item_enc (it : item) : list Z -> option (Z * list Z) :=
  match it with
  | INop => EncodeNOP
  | IMss v => EncodeMSSOption v
  | IWs v => EncodeWSOption v
  | ITs v e => EncodeTSOption v e
  | ISackPermitted => EncodeSACKPermittedOption
  | ISack bs => EncodeSACKBlocks bs
  end.

Lemma put_blocks_at bs : forall pre rest i, i * 8 + 2 = zlen pre -> zlen bs * 8 <= zlen rest ->
  put_blocks i bs (pre ++ rest) = Some (pre ++ concat (map block_bytes bs) ++ drop (Z.to_nat (zlen bs * 8)) rest).
Proof.
  induction bs as [|s bs IH]; intros pre rest i Hi Hr; cbn [put_blocks map concat]; [done|]. rewrite zlen_cons in Hr. pose proof (zlen_nonneg bs). rewrite put_be_at by lia. cbn [mbind option_bind].
  rewrite put_be_at by (rewrite ?zlen_app, ?zlen_be_bytes, ?zlen_drop; lia). cbn [mbind option_bind]. rewrite IH by (rewrite ?zlen_app, ?zlen_be_bytes, ?zlen_drop; lia). rewrite !drop_drop. f_equal. unfold block_bytes at 2. rewrite <- !app_assoc. do 4 f_equal. rewrite zlen_cons. f_equal. lia.
Qed.

Lemma be_bytes_hi_lo v : 0 <= v < 2 ^ 16 -> [u8 (Z.shiftr v 8); u8 v] = be_bytes 2 v.
Proof.
  intros Hv. unfold be_bytes, u8. cbn [le_bytes rev app]. rewrite Z.shiftr_div_pow2 by lia. done.
Qed.

(** A write at the [k]-th byte of a buffer of which [k] are written. *)
Ltac next_byte := first [rewrite set_at_at by (rewrite ?zlen_drop; done || lia) | rewrite put_be_at by (rewrite ?zlen_app, ?zlen_be_bytes, ?zlen_drop; done || lia)]; cbn [mbind option_bind].

Lemma item_enc_spec it rest : item_ok it -> item_size it <= zlen rest -> item_enc it rest = Some (item_size it, item_bytes it ++ drop (Z.to_nat (item_size it)) rest).
Proof.
  intros Hit Hr. pose proof (eq_refl : rest = [] ++ rest) as E0. destruct it as [|v|v|v e| |bs]; cbn [item_enc item_size item_bytes item_ok] in *.
  - unfold EncodeNOP. rewrite (proj2 (Z.eqb_neq _ _)) by lia. rewrite E0 at 1. next_byte. done.
  - unfold EncodeMSSOption, TCPOptionMSSLength. rewrite (proj2 (Z.ltb_ge _ _)) by lia. rewrite E0 at 1. do 4 next_byte. rewrite !drop_drop. rewrite <- be_bytes_hi_lo by (unfold TCPMinimumSendMSS in Hit; lia). done.
  - unfold EncodeWSOption, TCPOptionWSLength. rewrite (proj2 (Z.ltb_ge _ _)) by lia. rewrite E0 at 1. do 3 next_byte. rewrite !drop_drop. unfold MaxWndScale in Hit. rewrite u8_small by lia. done.
  - unfold EncodeTSOption, TCPOptionTSLength. rewrite (proj2 (Z.ltb_ge _ _)) by lia. rewrite E0 at 1. do 4 next_byte. rewrite !drop_drop. rewrite <- !app_assoc. done.
  - unfold EncodeSACKPermittedOption, TCPOptionSackPermittedLength. rewrite (proj2 (Z.ltb_ge _ _)) by lia. rewrite E0 at 1. do 2 next_byte. rewrite !drop_drop. done.
  - unfold EncodeSACKBlocks, TCPMaxSACKBlocks in *. destruct Hit as [Hn _]. rewrite (proj2 (Z.eqb_neq _ _)) by lia. in_range. assert (zlen bs <= Z.quot (zlen rest - 2) 8) by (apply Z.quot_le_lower_bound; lia). rewrite (proj2 (Z.ltb_ge _ _)) by lia. rewrite (proj2 (Z.eqb_neq _ _)) by lia.
    rewrite E0 at 1. do 2 next_byte. rewrite take_ge by (unfold zlen; lia). rewrite put_blocks_at by (rewrite ?zlen_drop; done || lia). cbn [mbind option_bind]. rewrite !drop_drop. rewrite u8_small by lia. f_equal. f_equal. rewrite <- !app_assoc. cbn [app]. do 4 f_equal. lia.
Qed.

Lemma enc_at it pre rest : item_ok it -> item_size it <= zlen rest ->
  enc (item_enc it) (zlen pre, pre ++ rest) = Some (zlen (pre ++ item_bytes it), (pre ++ item_bytes it) ++ drop (Z.to_nat (item_size it)) rest).
Proof.
  intros Hit Hr. unfold enc. pose proof (zlen_nonneg pre). assert (S : slice (zlen pre) (zlen (pre ++ rest)) (pre ++ rest) = Some rest) by (rewrite <- (app_nil_r rest) at 2; apply slice_in; by rewrite ?zlen_app). rewrite S. cbn [mbind option_bind].
  rewrite item_enc_spec by done. cbn [mbind option_bind]. rewrite blit_at by done. f_equal. f_equal; [by rewrite zlen_app, zlen_item|]. rewrite <- !app_assoc. do 2 f_equal. rewrite (drop_ge rest (length _)); [by rewrite app_nil_r|].
  rewrite length_app, length_drop. pose proof (zlen_item it). unfold zlen in *. pose proof (item_size_pos it Hit). lia.
Qed.

Lemma enc_ext f g pre rest : f rest = g rest -> enc f (zlen pre, pre ++ rest) = enc g (zlen pre, pre ++ rest).
Proof. intros H. unfold enc. rewrite <- (app_nil_r rest) at 2 4. rewrite slice_in by (rewrite ?zlen_app; done). cbn [mbind option_bind]. by rewrite H. Qed.

(** Several in a row. *)
Fixpoint encs (its : list item) (st : Z * list Z) : option (Z * list Z) :=
  match its with [] => Some st | it :: its => st ← enc (item_enc it) st; encs its st end.

Lemma encs_app its its' st : encs (its ++ its') st = encs its st ≫= encs its'.
Proof. revert st. induction its as [|it its IH]; intros st; [done|]. cbn. destruct (enc _ st) as [st'|]; [apply IH|done]. Qed.

(** A chain of encoders in the goal is the one in [E]. *)
Ltac run_encs E :=
  repeat match type of E with context [enc ?f ?s] => destruct (enc f s); cbn [mbind option_bind] in E |- *; [|discriminate E] end;
  injection E as ->.

Lemma encs_at its : forall pre rest, Forall item_ok its -> zlen (items_bytes its) <= zlen rest ->
  encs its (zlen pre, pre ++ rest) = Some (zlen (pre ++ items_bytes its), (pre ++ items_bytes its) ++ drop (length (items_bytes its)) rest).
Proof.
  induction its as [|it its IH]; intros pre rest Hits Hr; cbn [encs items_bytes map concat]; [by rewrite app_nil_r|]. apply Forall_cons in Hits as [Hit Hits]. unfold items_bytes in Hr. cbn [map concat] in Hr. fold (items_bytes its) in Hr |- *. rewrite zlen_app in Hr. pose proof (zlen_nonneg (items_bytes its)). pose proof (zlen_item it) as L. pose proof (item_size_pos it Hit).
  rewrite enc_at by (done || lia). cbn [mbind option_bind]. rewrite IH by (done || (rewrite ?zlen_drop; lia)). rewrite drop_drop, length_app. replace (length (item_bytes it)) with (Z.to_nat (item_size it)) by (unfold zlen in L; lia). by rewrite <- !app_assoc.
Qed.

Lemma finish_at (bs rest : list Z) : zlen bs mod 4 = 0 -> finish_options (zlen bs, bs ++ rest) = Some bs.
Proof.
  intros H4. unfold finish_options, AddTCPOptionPadding. assert (P : Z.land (- zlen bs) 3 = 0). { change 3 with (Z.ones 2). rewrite Z.land_ones by lia. change (2 ^ 2) with 4. divlia. }
  rewrite P. cbn [seqZ foldM mbind option_bind]. change (seqZ (zlen bs) 0) with (@nil Z). cbn [foldM mbind option_bind]. apply (slice_in [] bs rest); done.
Qed.

(** ** A segment's options, there and back *)

Definition syn_items (o : TCPSynOptions) : list item :=
  [IMss (so_MSS o)] ++
  (if so_TS o && so_SACKPermitted o then [ISackPermitted; ITs (so_TSVal o) (so_TSEcr o)]
   else if so_TS o then [INop; INop; ITs (so_TSVal o) (so_TSEcr o)]
   else if so_SACKPermitted o then [INop; INop; ISackPermitted] else []) ++
  (if so_WS o >=? 0 then [INop; IWs (so_WS o)] else []).

(** Options as the fields of the struct hold them: the scale is an [int] of which
    a byte is sent. *)
Definition syn_sane (o : TCPSynOptions) : Prop := 0 <= so_MSS o < 2 ^ 16 /\ so_WS o < 2 ^ 8 /\ word_ok (so_TSVal o) /\ word_ok (so_TSEcr o).

(** What a peer reads of them.  A segment size of zero is taken for an option
    gone wrong, and the rest is not looked at. *)
Definition syn_back (isAck : bool) (o : TCPSynOptions) : TCPSynOptions :=
  if so_MSS o =? 0 then mkSyn TCPDefaultMSS (-1) false 0 0 false 0
  else mkSyn (Z.max TCPMinimumSendMSS (so_MSS o)) (if so_WS o <? 0 then -1 else Z.min MaxWndScale (so_WS o)) (so_TS o)
         (if so_TS o then so_TSVal o else 0) (if so_TS o && isAck then so_TSEcr o else 0) (so_SACKPermitted o) 0.

Lemma syn_items_ok o : syn_sane o -> Forall item_ok (syn_items o) /\ zlen (items_bytes (syn_items o)) <= maxOptionSize /\ zlen (items_bytes (syn_items o)) mod 4 = 0.
Proof.
  intros (Hm & Hw & Hv & He). assert (H0 : item_ok (IMss (so_MSS o))) by done. assert (H1 : item_ok (ITs (so_TSVal o) (so_TSEcr o))) by done. unfold syn_items, items_bytes.
  destruct (so_WS o >=? 0) eqn:Ew; rewrite Z.geb_leb in Ew; to_prop; [assert (item_ok (IWs (so_WS o))) by (cbn; lia)|]; destruct (so_TS o), (so_SACKPermitted o); cbn [andb app map concat];
    (split; [repeat first [apply Forall_nil | apply Forall_cons; split]; done|]); rewrite ?app_nil_r; repeat rewrite zlen_app; rewrite !zlen_item; cbn [item_size]; unfold maxOptionSize; split; (lia || done).
Qed.

Lemma makeSynOptions_items o buf : syn_sane o -> zlen buf = maxOptionSize -> makeSynOptions o buf = Some (items_bytes (syn_items o)).
Proof.
  intros Ho Hbuf. destruct (syn_items_ok o Ho) as (Hi & Hl & H4). set (tl := drop 1 (syn_items o)). assert (Es : syn_items o = IMss (so_MSS o) :: tl) by done. rewrite Es in *. apply Forall_cons in Hi as [Hm Hi].
  unfold items_bytes in *. cbn [map concat] in *. fold (items_bytes tl) in *. rewrite zlen_app, zlen_item in Hl. cbn [item_size] in Hl. pose proof (zlen_nonneg (items_bytes tl)). unfold makeSynOptions.
  change (EncodeMSSOption (so_MSS o)) with (item_enc (IMss (so_MSS o))). rewrite item_enc_spec by (done || (cbn [item_size]; lia)). cbn [mbind option_bind item_size].
  pose proof (encs_at tl (item_bytes (IMss (so_MSS o))) (drop (Z.to_nat 4) buf) Hi ltac:(rewrite zlen_drop; lia)) as E. rewrite zlen_item in E. cbn [item_size] in E. pose proof (finish_at _ (drop (length (items_bytes tl)) (drop (Z.to_nat 4) buf)) H4) as F.
  set (st0 := (4, _)) in *. set (st1 := (zlen _, _)) in F. change (_ = Some _) with (encs tl st0 = Some st1) in E. rewrite <- F. clear F. clearbody st0 st1. subst tl. clear - E. unfold syn_items in E. cbn [app drop] in E.
  destruct (so_WS o >=? 0), (so_TS o), (so_SACKPermitted o); cbn [andb app drop encs item_enc mbind option_bind] in E |- *; by run_encs E.
Qed.

Lemma parse_syn_back isAck o : syn_sane o -> ParseSynOptions (items_bytes (syn_items o)) isAck = Some (syn_back isAck o).
Proof.
  intros Ho. destruct (syn_items_ok o Ho) as (Hi & _). unfold ParseSynOptions, syn_back. destruct (Z.eqb_spec (so_MSS o) 0) as [E|Hne].
  - unfold syn_items, items_bytes. rewrite E. cbn [app map concat]. destruct (length _) as [|n] eqn:El; [by rewrite length_app in El|]. apply parse_syn_zero.
  - rewrite (parse_syn_items isAck (syn_items o) []).
    + f_equal. unfold syn_items. destruct (Z.ltb_spec (so_WS o) 0) as [Hw|Hw]; rewrite Z.geb_leb; [rewrite (proj2 (Z.leb_gt _ _)) by lia|rewrite (proj2 (Z.leb_le _ _)) by lia]; destruct o as [mss ws ts v e sack fl], ts, sack, isAck; done.
    + rewrite Forall_forall in Hi |- *. intros it Hin. split; [by apply Hi|]. intros ->. unfold syn_items in Hin. apply elem_of_app in Hin as [Hin|Hin]; [apply list_elem_of_singleton in Hin; congruence|]. destruct (so_WS o >=? 0), (so_TS o), (so_SACKPermitted o); set_solver.
    + done.
Qed.

Lemma parse_blocks_in bs : forall pre rest i, i = zlen pre -> Forall (fun s => word_ok (sb_Start s) /\ word_ok (sb_End s)) bs ->
  parse_blocks (length bs) i (pre ++ concat (map block_bytes bs) ++ rest) = Some bs.
Proof.
  induction bs as [|s bs IH]; intros pre rest i Hi Hbs; cbn [parse_blocks length map concat]; [done|]. apply Forall_cons in Hbs as [[Hs He] Hbs].
  set (b := pre ++ _). assert (E1 : b = pre ++ be_bytes 4 (sb_Start s) ++ be_bytes 4 (sb_End s) ++ concat (map block_bytes bs) ++ rest) by (unfold b, block_bytes; by rewrite <- !app_assoc).
  assert (E2 : b = (pre ++ be_bytes 4 (sb_Start s)) ++ be_bytes 4 (sb_End s) ++ concat (map block_bytes bs) ++ rest) by (rewrite E1; by rewrite <- !app_assoc).
  assert (E3 : b = (pre ++ block_bytes s) ++ concat (map block_bytes bs) ++ rest) by (unfold b; by rewrite <- !app_assoc).
  rewrite E1 at 1. rewrite Uint32_in by done. cbn [mbind option_bind]. rewrite E2 at 1. rewrite Uint32_in by (rewrite ?zlen_app, ?zlen_be_bytes; done || lia). cbn [mbind option_bind]. rewrite E3, IH; [by destruct s|unfold block_bytes; rewrite !zlen_app, !zlen_be_bytes; lia|done].
Qed.

Definition opt_read (it : item) (o : TCPOptions) : TCPOptions :=
  match it with
  | ITs v e => mkOptions true v e (to_SACKBlocks o)
  | ISack bs => mkOptions (to_TS o) (to_TSVal o) (to_TSEcr o) bs
  | _ => o
  end.

(** Of the options a segment may carry once the connection is up. *)
Definition plain (it : item) : Prop := match it with INop | ITs _ _ | ISack _ => True | _ => False end.

Lemma parse_opts_item fuel it pre rest o : item_ok it -> plain it ->
  parse_opts (S fuel) (pre ++ item_bytes it ++ rest) (zlen pre) o = parse_opts fuel (pre ++ item_bytes it ++ rest) (zlen pre + item_size it) (opt_read it o).
Proof.
  intros Hit Hp. set (opts := pre ++ item_bytes it ++ rest). cbn [parse_opts]. assert (Hl : zlen opts = zlen pre + item_size it + zlen rest) by (unfold opts; rewrite !zlen_app, zlen_item; lia). pose proof (zlen_nonneg rest).
  rewrite (proj2 (Z.ltb_lt _ _)) by (pose proof (item_size_pos it Hit); lia). destruct it as [|v|v|v e| |bs]; try done.
  - unfold opts. by rewrite (get_at_in pre _ 0 (zlen pre)) by lia.
  - destruct Hit as [Hv He]. assert (E : opts = pre ++ TCPOptionTS :: 10 :: be_bytes 4 v ++ be_bytes 4 e ++ rest) by (unfold opts; cbn [item_bytes app]; by rewrite <- app_assoc).
    assert (K : get_at (zlen pre) opts = Some TCPOptionTS) by (rewrite E; by rewrite (get_at_in pre _ 0) by lia). rewrite K. cbn [mbind option_bind]. by_kind.
    rewrite E, has_option_in by (rewrite ?zlen_cons, ?zlen_app, ?zlen_be_bytes; lia || done). cbn [mbind option_bind negb]. change (pre ++ TCPOptionTS :: 10 :: be_bytes 4 v ++ be_bytes 4 e ++ rest) with (pre ++ [TCPOptionTS; 10] ++ be_bytes 4 v ++ be_bytes 4 e ++ rest).
    rewrite (app_assoc pre). rewrite (Uint32_in _ _ v (zlen pre + 2)) by (rewrite ?zlen_app; done). rewrite (app_assoc _ (be_bytes 4 v)). rewrite (Uint32_in _ _ e (zlen pre + 6)) by (rewrite ?zlen_app, ?zlen_be_bytes; change (zlen [_; _]) with 2; done || lia). by cbn [mbind option_bind].
  - destruct Hit as [Hn Hw]. assert (E : opts = (pre ++ [TCPOptionSACK; zlen bs * 8 + 2]) ++ concat (map block_bytes bs) ++ rest) by (unfold opts; cbn [item_bytes app]; by rewrite <- !app_assoc).
    assert (K : get_at (zlen pre) opts = Some TCPOptionSACK) by (unfold opts; by rewrite (get_at_in pre _ 0) by lia). rewrite K. cbn [mbind option_bind]. by_kind.
    assert (L : get_at (zlen pre + 1) opts = Some (zlen bs * 8 + 2)) by (unfold opts; by rewrite (get_at_in pre _ 1) by lia). rewrite L, Hl. cbn [item_size] in *. in_range. cbn [mbind option_bind]. in_range. cbn [orb]. replace (zlen bs * 8 + 2 - 2) with (zlen bs * 8) by lia.
    rewrite Z.rem_mul, Z.quot_mul by lia. cbn [Z.eqb negb]. replace (Z.to_nat (zlen bs)) with (length bs) by (unfold zlen; lia). rewrite E.
    rewrite parse_blocks_in by (rewrite ?zlen_app; done). by cbn [mbind option_bind].
Qed.

Lemma parse_opts_items its : forall pre fuel o, Forall item_ok its -> Forall plain its -> (length (items_bytes its) <= fuel)%nat ->
  parse_opts fuel (pre ++ items_bytes its) (zlen pre) o = Some (foldl (fun o it => opt_read it o) o its).
Proof.
  induction its as [|it its IH]; intros pre fuel o Hits Hp Hf; cbn [items_bytes map concat foldl]; [rewrite app_nil_r; destruct fuel; cbn [parse_opts]; by rewrite Z.ltb_irrefl|].
  apply Forall_cons in Hits as [Hit Hits]. apply Forall_cons in Hp as [Hp1 Hp]. pose proof (item_size_pos it Hit). pose proof (zlen_item it) as L. unfold items_bytes in Hf. cbn [map concat] in Hf. rewrite length_app in Hf.
  destruct fuel as [|fuel]; [unfold zlen in L; lia|]. rewrite parse_opts_item by done. rewrite <- L, <- zlen_app, app_assoc. apply IH; [done|done|]. unfold items_bytes, zlen in *. lia.
Qed.

(** The blocks there is room for. *)
Definition sack_room (ts : option (Z * Z)) : nat := match ts with Some _ => 3 | None => 4 end.

Definition seg_items (ts : option (Z * Z)) (sack : bool) (bs : list SACKBlock) : list item :=
  (match ts with Some (v, e) => [INop; INop; ITs v e] | None => [] end) ++
  (if sack && (zlen bs >? 0) then [INop; INop; ISack (take (sack_room ts) bs)] else []).

Lemma EncodeSACKBlocks_take bs b (l : nat) : (1 <= l <= 4)%nat -> Z.of_nat l = 4 \/ Z.of_nat l = Z.quot (zlen b - 2) 8 -> Z.of_nat l <= Z.quot (zlen b - 2) 8 -> EncodeSACKBlocks bs b = EncodeSACKBlocks (take l bs) b.
Proof.
  intros Hl Hr Hr'. unfold EncodeSACKBlocks, TCPMaxSACKBlocks. rewrite zlen_take. destruct (zlen bs =? 0) eqn:E0; to_prop; [by rewrite E0, Z.min_r by lia|]. pose proof (zlen_nonneg bs). rewrite (proj2 (Z.eqb_neq (Z.min _ _) _)) by lia. in_range.
  set (n := if zlen bs >? 4 then 4 else zlen bs). assert (En : n = Z.min 4 (zlen bs)) by (unfold n; destruct (zlen bs >? 4) eqn:E; rewrite Z.gtb_ltb in E; to_prop; lia). rewrite En.
  set (m := Z.min (Z.of_nat l) (zlen bs)). rewrite (proj2 (Z.ltb_ge _ m)) by lia.
  replace (if Z.quot (zlen b - 2) 8 <? Z.min 4 (zlen bs) then Z.quot (zlen b - 2) 8 else Z.min 4 (zlen bs)) with m by (case_if; lia).
  rewrite take_take. replace (Nat.min (Z.to_nat m) l) with (Z.to_nat m) by lia. done.
Qed.

Definition seg_sane (ts : option (Z * Z)) (bs : list SACKBlock) : Prop :=
  (match ts with Some (v, e) => word_ok v /\ word_ok e | None => True end) /\ Forall (fun s => word_ok (sb_Start s) /\ word_ok (sb_End s)) bs.

Lemma seg_items_ok ts sack bs : seg_sane ts bs ->
  Forall item_ok (seg_items ts sack bs) /\ Forall plain (seg_items ts sack bs) /\ zlen (items_bytes (seg_items ts sack bs)) <= maxOptionSize /\ zlen (items_bytes (seg_items ts sack bs)) mod 4 = 0.
Proof.
  intros [Ht Hb]. unfold seg_items, items_bytes. set (k := sack_room ts). assert (Hk : (3 <= k <= 4)%nat) by (unfold k, sack_room; destruct ts; lia). assert (Hbs : zlen bs >? 0 = true -> item_ok (ISack (take k bs))).
  { intros E. rewrite Z.gtb_ltb in E. to_prop. cbn [item_ok]. unfold TCPMaxSACKBlocks. rewrite zlen_take. split; [lia|by apply Forall_take]. }
  assert (Hz : zlen (take k bs) <= Z.of_nat k) by (rewrite zlen_take; lia). unfold maxOptionSize.
  destruct ts as [[v e]|], sack, (zlen bs >? 0) eqn:Eb; cbn [andb app map concat]; (split; [repeat first [apply Forall_nil | apply Forall_cons; split]; try done; by apply Hbs|]); (split; [repeat first [apply Forall_nil | apply Forall_cons; split]; done|]);
    rewrite ?app_nil_r; repeat rewrite zlen_app; rewrite ?zlen_item; cbn [item_size]; unfold k, sack_room in *; split; (done || lia || divlia).
Qed.

Lemma makeOptions_items ts sack bs buf : seg_sane ts bs -> zlen buf = maxOptionSize -> makeOptions ts sack bs buf = Some (items_bytes (seg_items ts sack bs)).
Proof.
  intros Hs Hbuf. destruct (seg_items_ok ts sack bs Hs) as (Hi & _ & Hl & H4). pose proof (encs_at _ [] buf Hi ltac:(lia)) as E. cbn [app] in E. change (zlen []) with 0 in E. pose proof (finish_at _ (drop (length (items_bytes (seg_items ts sack bs))) buf) H4) as F. rewrite <- F. clear F.
  set (st1 := (zlen (items_bytes _), _)) in E |- *. clearbody st1. unfold makeOptions. unfold seg_items in E, Hi. destruct (sack && (zlen bs >? 0)) eqn:Eb.
  2:{ destruct ts as [[v e]|]; cbn [app encs item_enc mbind option_bind] in E |- *; by run_encs E. }
  rewrite encs_app in E. apply Forall_app in Hi as [Hi _]. set (first := match ts with Some (v, e) => [INop; INop; ITs v e] | None => [] end) in *.
  assert (Hf : zlen (items_bytes first) = 0 /\ ts = None \/ zlen (items_bytes first) = 12 /\ ts <> None) by (unfold first; destruct ts as [[v e]|]; [right|left]; done).
  pose proof (encs_at first [] buf Hi ltac:(unfold maxOptionSize in *; lia)) as E1. cbn [app] in E1. change (zlen []) with 0 in E1. set (pre := items_bytes first) in *. set (rest := drop _ buf) in E1. assert (Lr : zlen rest = 40 - zlen pre) by (unfold rest; rewrite zlen_drop; unfold maxOptionSize, zlen in *; lia).
  replace (match ts with Some (v, e) => _ | None => _ end) with (encs first (0, buf)) by (unfold first; destruct ts as [[v e]|]; cbn [encs item_enc]; [by destruct (enc _ _) as [q|]; cbn [mbind option_bind]; [destruct (enc _ q) as [q'|]; cbn [mbind option_bind]; [destruct (enc _ q')|]|]|done]).
  rewrite E1 in E |- *. cbn [mbind option_bind] in E |- *. clear E1. cbn [encs] in E. do 2 (rewrite enc_at in E by (done || (cbn [item_size]; rewrite ?zlen_drop; lia)); cbn [mbind option_bind] in E).
  change (enc EncodeNOP) with (enc (item_enc INop)). do 2 (rewrite enc_at by (done || (cbn [item_size]; rewrite ?zlen_drop; lia)); cbn [mbind option_bind]).
  rewrite (enc_ext (EncodeSACKBlocks bs) (item_enc (ISack (take (sack_room ts) bs)))).
  - by run_encs E.
  - cbn [item_enc item_size]. set (b := drop _ (drop _ rest)). assert (Lb : zlen b = 38 - zlen pre) by (unfold b; rewrite !zlen_drop, Lr; destruct Hf as [[-> _]|[-> _]]; done).
    apply EncodeSACKBlocks_take; rewrite ?Lb; unfold sack_room; destruct Hf as [[Ep ->]|[Ep ?]]; try (destruct ts; [|done]); rewrite ?Ep; first [done | by left | by right | lia].
Qed.


(** ** The properties *)

(** C27: Any option bytes a peer may send are read without leaving them and without
    looping, and what is read is in range: a segment size no smaller than the
    smallest a sender uses, a scale no larger than RFC 7323 allows, and no more
    selective acknowledgements than the bytes can hold. *)
Theorem tcp_options_total b isAck : bytes_ok b ->
  (exists o, ParseSynOptions b isAck = Some o /\ syn_ok o) /\ (exists o, ParseTCPOptions b = Some o /\ 8 * zlen (to_SACKBlocks o) <= zlen b).
Proof.
  intros Hb. pose proof (zlen_nonneg b). assert (zlen b - 0 <= Z.of_nat (length b)) by (unfold zlen; lia). split.
  - by apply parse_syn_total.
  - by apply parse_opts_total.
Qed.

(** C24: the options of a segment come back as they went in.  A SYN's, whatever
    its fields hold and in any combination: the segment size raised to 48 where
    it is less, the scale lowered to 14 where it is more, the timestamp, and the
    echoed one if the reader expects an acknowledgement; a segment size of zero
    makes the reader ignore them all.  A later segment's: its timestamps, and
    as many of its selective acknowledgements as there is room for.  What is
    sent fits the header and fills whole words of it, whatever the buffer held. *)
Theorem tcp_options_roundtrip buf o isAck ts sack bs : zlen buf = maxOptionSize -> syn_sane o -> seg_sane ts bs ->
  (exists b, makeSynOptions o buf = Some b /\ ParseSynOptions b isAck = Some (syn_back isAck o) /\ zlen b <= maxOptionSize /\ zlen b mod 4 = 0) /\
  (exists b, makeOptions ts sack bs buf = Some b /\ zlen b <= maxOptionSize /\ zlen b mod 4 = 0 /\
     ParseTCPOptions b = Some (mkOptions (bool_decide (is_Some ts)) (fst (default (0, 0) ts)) (snd (default (0, 0) ts)) (if sack then take (sack_room ts) bs else []))).
Proof.
  intros Hbuf Ho Hs. split.
  - exists (items_bytes (syn_items o)). destruct (syn_items_ok o Ho) as (_ & Hl & H4). split; [by apply makeSynOptions_items|]. split; [by apply parse_syn_back|done].
  - exists (items_bytes (seg_items ts sack bs)). destruct (seg_items_ok ts sack bs Hs) as (Hi & Hp & Hl & H4). split; [by apply makeOptions_items|]. split; [done|]. split; [done|]. unfold ParseTCPOptions. rewrite (parse_opts_items (seg_items ts sack bs) []) by done. f_equal.
    unfold seg_items. destruct sack, bs as [|s bs], ts as [[v e]|]; done.
Qed.

(** A SYN with everything, and a segment with more acknowledgements than fit. *)
Lemma tcp_options_roundtrip_witness :
  let o := mkSyn 1460 7 true 305419896 2271560481 true 0 in
  (exists b, makeSynOptions o (replicate 40 255) = Some b /\ ParseSynOptions b true = Some o /\ zlen b <= maxOptionSize /\ zlen b mod 4 = 0) /\
  (exists b, makeOptions (Some (5, 6)) true (replicate 5 (mkSACK 7 8)) (replicate 40 255) = Some b /\ zlen b <= maxOptionSize /\ zlen b mod 4 = 0 /\ ParseTCPOptions b = Some (mkOptions true 5 6 (replicate 3 (mkSACK 7 8)))).
Proof.
  apply (tcp_options_roundtrip (replicate 40 255) (mkSyn 1460 7 true 305419896 2271560481 true 0) true (Some (5, 6)) true (replicate 5 (mkSACK 7 8))); try done.
  split; [by repeat split|]. apply Forall_replicate. by repeat split.
Defined.

Lemma tcp_options_total_witness : (exists o, ParseSynOptions [2; 4; 0; 1; 3; 3; 255; 8] false = Some o /\ syn_ok o) /\ (exists o, ParseTCPOptions [2; 4; 0; 1; 3; 3; 255; 8] = Some o /\ 8 * zlen (to_SACKBlocks o) <= 8).
Proof. apply (tcp_options_total [2; 4; 0; 1; 3; 3; 255; 8] false). repeat (apply List.Forall_cons; [by split|]). apply List.Forall_nil. Defined.
