(* ===== verification/NetPacket.v ===== *)
(** Packets of the network stack: the buffer of views that holds a packet's
    bytes (netstack/gvisor/pkg/buffer/buffer.go) and the packet around it
    (netstack/gvisor/pkg/tcpip/stack/packet_buffer.go).

    A view is the list of its bytes: chunks are shared copy-on-write, and
    [PullUp], the only operation here that hands out memory to write to, has
    copied a shared chunk by then, so a write reaches this packet alone.  A
    slice handed out is [InView k lo hi], the place it has in the [k]-th view. *)

From stdpp Require Import prelude list numbers strings.
From S2P Require Import Prelude Bytes Csum GvChecksum.

(** ** buffer.Range *)

Record Range := mkRange { r_begin : Z; r_end : Z }.

Definition Intersect (x y : Range) : Range :=
  let b := if r_begin x <? r_begin y then r_begin y else r_begin x in
  let e := if r_end x >? r_end y then r_end y else r_end x in
  if b >=? e then mkRange 0 0 else mkRange b e.

Definition Offset (off : Z) (x : Range) : Range := mkRange (r_begin x + off) (r_end x + off).

Definition Len (x : Range) : Z := let l := r_end x - r_begin x in if l <? 0 then 0 else l.

(** ** buffer.Buffer *)

Record Buffer := mkBuffer { bu_data : list (list Z); bu_size : Z }.

Inductive View :=
| NoView
| InView (k : nat) (lo hi : Z).

Definition view_slice (p : View) (b : Buffer) : option (list Z) :=
  match p with
  | NoView => Some []
  | InView k lo hi => v ← bu_data b !! k; slice lo hi v
  end.

(** [bytes] written over a slice handed out. *)
Definition view_store (p : View) (bytes : list Z) (b : Buffer) : option Buffer :=
  match p with
  | NoView => Some b
  | InView k lo hi => v ← bu_data b !! k; Some (mkBuffer (<[k := blit lo bytes v]> (bu_data b)) (bu_size b))
  end.

(** The view the target is in ([true]) or starts in ([false]), and where that
    view begins. *)
Fixpoint find_view (tgt : Range) (begin : Z) (vs : list (list Z)) : nat * Z * option bool :=
  match vs with
  | [] => (0%nat, begin, None)
  | v :: vs =>
    let x := Intersect (mkRange begin (begin + zlen v)) tgt in
    if Len x =? Len tgt then (0%nat, begin, Some true)
    else if 0 <? Len x then (0%nat, begin, Some false)
    else let '(k, begin, w) := find_view tgt (begin + zlen v) vs in (S k, begin, w)
  end.

Fixpoint tot_len (begin end_ tot : Z) (vs : list (list Z)) : Z :=
  match vs with
  | [] => tot
  | v :: vs => let tot := tot + zlen v in if begin + tot >=? end_ then tot else tot_len begin end_ tot vs
  end.

(** The views copied into one, and those left. *)
Fixpoint gather_views (off tot : Z) (vs : list (list Z)) : list Z * list (list Z) :=
  match vs with
  | [] => ([], [])
  | v :: rest => if off <? tot then let '(m, rest) := gather_views (off + zlen v) tot rest in (v ++ m, rest) else ([], vs)
  end.

Definition PullUp (offset length : Z) (b : Buffer) : option (View * bool * Buffer) :=
  if length =? 0 then Some (NoView, true, b)
  else
    let tgt := mkRange offset (offset + length) in
    if negb (Len (Intersect tgt (mkRange 0 (bu_size b))) =? length) then Some (NoView, false, b)
    else
      match find_view tgt 0 (bu_data b) with
      | (k, begin, Some true) =>
        v ← bu_data b !! k;
        let sub := Offset (- begin) (Intersect (mkRange begin (begin + zlen v)) tgt) in
        Some (InView k (r_begin sub) (r_end sub), true, b)
      | (k, begin, Some false) =>
        let vs := drop k (bu_data b) in
        let tot := tot_len begin (r_end tgt) 0 vs in
        let '(merged, rest) := gather_views 0 tot vs in
        let r := Offset (- begin) tgt in
        Some (InView k (r_begin r) (r_end r), true, mkBuffer (take k (bu_data b) ++ merged :: rest) (bu_size b))
      | (_, _, None) => None
      end.

(** [Buffer.Checksum]: the checksum of everything from [offset] on, one view
    after the other; an empty view adds nothing. *)
Section checksum.
Context (place : list Z -> Z).

Record Checksumer := mkChecksumer { cs_sum : Z; cs_odd : bool }.

Definition cs_Add (b : list Z) (c : Checksumer) : option Checksumer :=
  if zlen b >? 0 then '(s, odd) ← calculateChecksum (place b) b (cs_odd c) (cs_sum c); Some (mkChecksumer s odd) else Some c.

Fixpoint cs_Add_all (vs : list (list Z)) (c : Checksumer) : option Checksumer :=
  match vs with
  | [] => Some c
  | v :: vs => c ← cs_Add v c; cs_Add_all vs c
  end.

Fixpoint skip_views (offset : Z) (vs : list (list Z)) : Z * list (list Z) :=
  match vs with
  | [] => (offset, [])
  | v :: rest => if offset >=? zlen v then skip_views (offset - zlen v) rest else (offset, vs)
  end.

Definition bu_Checksum (offset : Z) (b : Buffer) : option Z :=
  if offset >=? bu_size b then Some 0
  else
    match skip_views offset (bu_data b) with
    | (_, []) => None
    | (offset, v :: vs) =>
      s ← slice offset (zlen v) v;
      c ← cs_Add s (mkChecksumer 0 false);
      c ← cs_Add_all vs c;
      Some (cs_sum c)
    end.
End checksum.

(** ** stack.PacketBuffer *)

Inductive headerType := virtioNetHeader | linkHeader | networkHeader | transportHeader.

#[global] Instance headerType_eq : EqDecision headerType.
Proof. solve_decision. Defined.

Record headerInfo := mkInfo { hi_offset : Z; hi_length : Z }.

Inductive GSOType := GSONone | GSOTCPv4 | GSOTCPv6 | GSOGvisor.

#[global] Instance GSOType_eq : EqDecision GSOType.
Proof. solve_decision. Defined.

Record GSO := mkGSO { g_Type : GSOType; g_NeedsCsum : bool; g_CsumOffset : Z; g_MSS : Z; g_L3HdrLen : Z; g_MaxSize : Z }.

(** The fields the adapter reads or writes. *)
Record PacketBuffer := mkPacket {
  pk_buf : Buffer;
  pk_reserved : Z;
  pk_pushed : Z;
  pk_consumed : Z;
  pk_headers : headerType -> headerInfo;
  pk_NetworkProtocolNumber : Z;
  pk_TransportProtocolNumber : Z;
  pk_Hash : Z;
  pk_RemoteLinkAddress : list Z;
  pk_GSO : GSO;
  pk_PktType : Z;
  pk_RXChecksumValidated : bool }.

Definition with_buf (b : Buffer) (pk : PacketBuffer) : PacketBuffer :=
  mkPacket b (pk_reserved pk) (pk_pushed pk) (pk_consumed pk) (pk_headers pk) (pk_NetworkProtocolNumber pk) (pk_TransportProtocolNumber pk)
    (pk_Hash pk) (pk_RemoteLinkAddress pk) (pk_GSO pk) (pk_PktType pk) (pk_RXChecksumValidated pk).

Definition headerOffset (pk : PacketBuffer) : Z := pk_reserved pk - pk_pushed pk.
Definition headerOffsetOf (typ : headerType) (pk : PacketBuffer) : Z := pk_reserved pk + hi_offset (pk_headers pk typ).
Definition dataOffset (pk : PacketBuffer) : Z := pk_reserved pk + pk_consumed pk.
Definition HeaderSize (pk : PacketBuffer) : Z := pk_pushed pk + pk_consumed pk.
Definition Data_Size (pk : PacketBuffer) : Z := bu_size (pk_buf pk) - dataOffset pk.
Definition AsViewList (pk : PacketBuffer) : list (list Z) * Z := (bu_data (pk_buf pk), headerOffset pk).

Definition headerView (typ : headerType) (pk : PacketBuffer) : option (View * PacketBuffer) :=
  let h := pk_headers pk typ in
  if hi_length h =? 0 then Some (NoView, pk)
  else
    '(p, ok, b) ← PullUp (headerOffsetOf typ pk) (hi_length h) (pk_buf pk);
    if (ok : bool) then Some (p, with_buf b pk) else None.

Definition hdr_Slice (typ : headerType) (pk : PacketBuffer) : option (list Z * PacketBuffer) :=
  '(p, pk) ← headerView typ pk; s ← view_slice p (pk_buf pk); Some (s, pk).

Definition set_header (typ : headerType) (h : headerInfo) (hs : headerType -> headerInfo) : headerType -> headerInfo :=
  fun t => if decide (t = typ) then h else hs t.

Definition push (typ : headerType) (size : Z) (pk : PacketBuffer) : option (View * PacketBuffer) :=
  if hi_length (pk_headers pk typ) >? 0 then None
  else if pk_pushed pk + size >? pk_reserved pk then None
  else
    let pushed := pk_pushed pk + size in
    headerView typ (mkPacket (pk_buf pk) (pk_reserved pk) pushed (pk_consumed pk) (set_header typ (mkInfo (- pushed) size) (pk_headers pk))
      (pk_NetworkProtocolNumber pk) (pk_TransportProtocolNumber pk) (pk_Hash pk) (pk_RemoteLinkAddress pk) (pk_GSO pk) (pk_PktType pk) (pk_RXChecksumValidated pk)).

Definition consume (typ : headerType) (size : Z) (pk : PacketBuffer) : option (View * bool * PacketBuffer) :=
  if hi_length (pk_headers pk typ) >? 0 then None
  else if pk_reserved pk + pk_consumed pk + size >? bu_size (pk_buf pk) then Some (NoView, false, pk)
  else
    '(p, pk) ← headerView typ (mkPacket (pk_buf pk) (pk_reserved pk) (pk_pushed pk) (pk_consumed pk + size)
      (set_header typ (mkInfo (pk_consumed pk) size) (pk_headers pk)) (pk_NetworkProtocolNumber pk) (pk_TransportProtocolNumber pk)
      (pk_Hash pk) (pk_RemoteLinkAddress pk) (pk_GSO pk) (pk_PktType pk) (pk_RXChecksumValidated pk));
    Some (p, true, pk).

(** ** The bytes of a buffer *)

Definition flat (b : Buffer) : list Z := concat (bu_data b).

(** The recorded size is that of the views. *)
Definition buffer_ok (b : Buffer) : Prop := bu_size b = zlen (flat b).

(** The comparisons of two ranges, case by case. *)
Ltac ranges :=
  unfold Len, Intersect; cbn [r_begin r_end]; rewrite ?Z.gtb_ltb, ?Z.geb_leb;
  repeat match goal with
  | |- context [?a <? ?b] => lazymatch a with context [if _ then _ else _] => fail | _ => lazymatch b with context [if _ then _ else _] => fail | _ => destruct (Z.ltb_spec a b) end end
  | |- context [?a <=? ?b] => lazymatch a with context [if _ then _ else _] => fail | _ => lazymatch b with context [if _ then _ else _] => fail | _ => destruct (Z.leb_spec a b) end end
  | |- context [?a =? ?b] => lazymatch a with context [if _ then _ else _] => fail | _ => lazymatch b with context [if _ then _ else _] => fail | _ => destruct (Z.eqb_spec a b) end end
  end; cbn [r_begin r_end] in *; try lia.

Lemma Intersect_len_in x y : r_begin y <= r_begin x -> r_begin x < r_end x -> r_end x <= r_end y -> Intersect x y = x.
Proof. intros. ranges. by destruct x. Qed.

Lemma find_view_spec tgt : r_begin tgt < r_end tgt -> forall vs begin, begin <= r_begin tgt -> r_end tgt <= begin + zlen (concat vs) ->
  exists pre v post, vs = pre ++ v :: post /\ begin + zlen (concat pre) <= r_begin tgt < begin + zlen (concat pre) + zlen v /\
    find_view tgt begin vs = (length pre, begin + zlen (concat pre), Some (r_end tgt <=? begin + zlen (concat pre) + zlen v)).
Proof.
  intros Ht. induction vs as [|v vs IH]; intros begin Hb He; [cbn in He; rewrite zlen_nil in He; lia|]. cbn [find_view concat] in *. rewrite zlen_app in He. pose proof (zlen_nonneg v).
  destruct (decide (r_begin tgt < begin + zlen v)) as [Hin|Hout].
  - exists [], v, vs. cbn [app concat length]. rewrite zlen_nil, Z.add_0_r. split; [done|]. split; [lia|].
    ranges; done.
  - destruct (IH (begin + zlen v)) as (pre & u & post & -> & Hu & Ef); [lia|lia|]. exists (v :: pre), u, post. cbn [app concat length]. rewrite zlen_app, Z.add_assoc. split; [done|]. split; [done|].
    rewrite Ef. ranges; done.
Qed.

Lemma tot_len_reach begin end_ vs : forall tot, begin + tot < end_ -> end_ <= begin + tot + zlen (concat vs) -> end_ <= begin + tot_len begin end_ tot vs.
Proof.
  induction vs as [|v vs IH]; intros tot H1 H2; cbn [tot_len concat] in *; [rewrite zlen_nil in H2; lia|]. rewrite zlen_app in H2. case_if; [lia|]. apply IH; lia.
Qed.

Lemma gather_views_spec begin end_ vs : forall off, begin + off < end_ -> end_ <= begin + off + zlen (concat vs) ->
  let '(m, rest) := gather_views off (tot_len begin end_ off vs) vs in m ++ concat rest = concat vs /\ end_ <= begin + off + zlen m.
Proof.
  induction vs as [|v vs IH]; intros off H1 H2; [cbn in H2; rewrite zlen_nil in H2; lia|]. pose proof (tot_len_reach begin end_ (v :: vs) off H1 H2) as R. cbn [gather_views tot_len concat] in *. rewrite zlen_app in H2.
  destruct (begin + (off + zlen v) >=? end_) eqn:E.
  - apply Z.geb_le in E. rewrite (proj2 (Z.ltb_lt _ _)) by lia. destruct vs as [|u vs]; cbn [gather_views]; [|rewrite Z.ltb_irrefl]; cbn [concat]; rewrite ?app_nil_r; (split; [done|lia]).
  - rewrite (proj2 (Z.ltb_lt _ _)) by lia. rewrite Z.geb_leb, Z.leb_gt in E. specialize (IH (off + zlen v) ltac:(lia) ltac:(lia)). destruct (gather_views _ _ vs) as [m rest]. destruct IH as [IH1 IH2].
    rewrite zlen_app, <- app_assoc, IH1. split; [done|lia].
Qed.

(** Where a slice handed out lies. *)
Definition lies (p : View) (off len : Z) (b : Buffer) : Prop :=
  exists pre v post, bu_data b = pre ++ v :: post /\ p = InView (length pre) (off - zlen (concat pre)) (off + len - zlen (concat pre)) /\
    0 <= off - zlen (concat pre) /\ off + len - zlen (concat pre) <= zlen v.

Lemma lies_slice p off len b : lies p off len b -> 0 <= len -> view_slice p b = slice off (off + len) (flat b).
Proof.
  intros (pre & v & post & E & -> & H1 & H2) Hl. unfold view_slice, flat. rewrite E, list_lookup_middle by done. cbn [mbind option_bind]. rewrite concat_app. cbn [concat].
  pose proof (zlen_nonneg (concat pre)). rewrite !slice_Some by (rewrite ?zlen_app; pose proof (zlen_nonneg (concat post)); lia). f_equal.
  rewrite drop_app_ge by (unfold zlen in *; lia). replace (Z.to_nat off - length (concat pre))%nat with (Z.to_nat (off - zlen (concat pre))) by (unfold zlen; lia).
  rewrite drop_app_le by (unfold zlen in *; lia). rewrite take_app_le by (rewrite length_drop; unfold zlen in *; lia). f_equal. lia.
Qed.

Lemma lies_store p off len b bytes : lies p off len b -> zlen bytes = len ->
  exists b', view_store p bytes b = Some b' /\ flat b' = blit off bytes (flat b) /\ bu_size b' = bu_size b /\ lies p off len b'.
Proof.
  intros (pre & v & post & E & -> & H1 & H2) Hl. pose proof (zlen_nonneg bytes). pose proof (zlen_nonneg (concat pre)). unfold view_store, flat, lies. rewrite E, list_lookup_middle by done. cbn [mbind option_bind].
  rewrite insert_app_r_alt, Nat.sub_diag by lia. cbn [list_insert]. eexists. split; [done|]. cbn [bu_data bu_size].
  split; [|split; [done|]; exists pre, (blit (off - zlen (concat pre)) bytes v), post; split_and!; [done|done|lia|]; rewrite zlen_blit by lia; lia].
  rewrite !concat_app. cbn [insert list_insert concat]. unfold blit. rewrite take_app_ge, drop_app_ge by (unfold zlen in *; lia).
  replace (Z.to_nat off - length (concat pre))%nat with (Z.to_nat (off - zlen (concat pre))) by (unfold zlen; lia).
  replace (Z.to_nat off + length bytes - length (concat pre))%nat with (Z.to_nat (off - zlen (concat pre)) + length bytes)%nat by (unfold zlen in *; lia).
  rewrite take_app_le, drop_app_le by (unfold zlen in *; lia). by rewrite <- !app_assoc.
Qed.

Lemma PullUp_spec off len b : buffer_ok b -> 0 <= off -> 0 < len -> off + len <= bu_size b ->
  exists p b', PullUp off len b = Some (p, true, b') /\ flat b' = flat b /\ bu_size b' = bu_size b /\ lies p off len b'.
Proof.
  intros Hb Ho Hl Hs. unfold PullUp. rewrite (proj2 (Z.eqb_neq len 0)) by lia. cbv zeta. rewrite Intersect_len_in by (cbn [r_begin r_end]; lia).
  unfold Len at 1. cbn [r_begin r_end]. rewrite (proj2 (Z.ltb_ge _ _)), (proj2 (Z.eqb_eq _ len)) by lia. cbn [negb].
  destruct (find_view_spec (mkRange off (off + len)) ltac:(cbn [r_begin r_end]; lia) (bu_data b) 0) as (pre & v & post & E & Hin & ->); [done|cbn [r_end]; fold (flat b); rewrite <- Hb; lia|].
  cbn [r_begin r_end] in *. rewrite !Z.add_0_l in *. destruct (Z.leb_spec (off + len) (zlen (concat pre) + zlen v)).
  - rewrite E, list_lookup_middle by done. cbn [mbind option_bind]. exists (InView (length pre) (off - zlen (concat pre)) (off + len - zlen (concat pre))), b.
    replace (Intersect _ _) with (mkRange off (off + len)) by (ranges; f_equal; lia).
    split; [unfold Offset; cbn [r_begin r_end]; by rewrite !Z.add_opp_r|]. split; [done|]. split; [done|]. exists pre, v, post. split_and!; [done|done|lia|lia].
  - rewrite E, drop_app_length. pose proof (gather_views_spec (zlen (concat pre)) (off + len) (v :: post) 0 ltac:(lia)) as G.
    destruct (gather_views 0 _ (v :: post)) as [m rest]. destruct G as [G1 G2]; [unfold buffer_ok, flat in Hb; rewrite E, concat_app, zlen_app in Hb; lia|].
    do 2 eexists. split; [done|]. unfold flat, lies, Offset. cbn [bu_data bu_size r_begin r_end]. rewrite take_app_length. split; [|split; [done|]].
    + rewrite !concat_app. cbn [concat] in *. by rewrite G1, E, concat_app.
    + exists pre, m, rest. rewrite !Z.add_opp_r. split_and!; [done|done|lia|lia].
Qed.

Lemma headerView_spec typ pk : buffer_ok (pk_buf pk) -> 0 <= headerOffsetOf typ pk -> 0 < hi_length (pk_headers pk typ) ->
  headerOffsetOf typ pk + hi_length (pk_headers pk typ) <= bu_size (pk_buf pk) ->
  exists p b, headerView typ pk = Some (p, with_buf b pk) /\ flat b = flat (pk_buf pk) /\ bu_size b = bu_size (pk_buf pk) /\ lies p (headerOffsetOf typ pk) (hi_length (pk_headers pk typ)) b.
Proof.
  intros Hb Ho Hl Hs. unfold headerView. rewrite (proj2 (Z.eqb_neq _ 0)) by lia. destruct (PullUp_spec _ _ _ Hb Ho Hl Hs) as (p & b & -> & F & S & L). exists p, b. by split_and!.
Qed.

Lemma hdr_Slice_spec typ pk : buffer_ok (pk_buf pk) -> 0 <= headerOffsetOf typ pk -> 0 <= hi_length (pk_headers pk typ) ->
  headerOffsetOf typ pk + hi_length (pk_headers pk typ) <= bu_size (pk_buf pk) ->
  exists b, hdr_Slice typ pk = Some (take (Z.to_nat (hi_length (pk_headers pk typ))) (drop (Z.to_nat (headerOffsetOf typ pk)) (flat (pk_buf pk))), with_buf b pk) /\
    flat b = flat (pk_buf pk) /\ bu_size b = bu_size (pk_buf pk).
Proof.
  intros Hb Ho Hl Hs. unfold hdr_Slice. destruct (decide (hi_length (pk_headers pk typ) = 0)) as [E0|].
  - unfold headerView. rewrite E0. exists (pk_buf pk). cbn. by destruct pk.
  - destruct (headerView_spec typ pk) as (p & b & -> & F & S & L); [done|lia|lia|lia|]. cbn [mbind option_bind]. exists b. change (pk_buf (with_buf b pk)) with b.
    rewrite (lies_slice _ _ _ _ L) by lia. rewrite F, slice_Some by (unfold buffer_ok in Hb; lia). cbn [mbind option_bind]. split_and!; [|done|done]. do 3 f_equal. lia.
Qed.

(** ** The checksum of a buffer *)

Lemma lsum_app_odd a b : Z.odd (zlen a) = true -> lsum (a ++ b) = lsum a + wsum b.
Proof.
  induction a as [|x|x y a IH] using list_pair_ind; intros Ho; [discriminate| |].
  - cbn [app]. destruct b as [|y b]; [cbn; lia|]. rewrite wsum_lsum. cbn [lsum]. lia.
  - cbn [app lsum]. rewrite !zlen_cons, Z.add_assoc, Z.odd_add in Ho. rewrite IH; [lia|]. by destruct (Z.odd (zlen a)).
Qed.

Lemma wsum_app_odd a b : Z.odd (zlen a) = true -> wsum (a ++ b) = wsum a + lsum b.
Proof.
  destruct a as [|x a]; [discriminate|]. intros Ho. rewrite zlen_cons, Z.odd_add in Ho. cbn [app]. rewrite !wsum_lsum, lsum_app; [lia|].
  rewrite <- Z.negb_odd. by destruct (Z.odd (zlen a)).
Qed.

Section sums.
Context (place : list Z -> Z).

(** The state after the bytes [a]. *)
Definition summed (a : list Z) (c : Checksumer) : Prop := cs_sum c = ones (wsum a) /\ cs_odd c = Z.odd (zlen a).

Lemma cs_Add_spec a v c : bytes_ok a -> bytes_ok v -> summed a c -> exists c', cs_Add place v c = Some c' /\ summed (a ++ v) c'.
Proof.
  intros Ha Hv [S1 S2]. unfold cs_Add. pose proof (zlen_nonneg v). pose proof (proj1 (wsum_range _ Ha)) as Wa. pose proof (proj1 (wsum_range _ Hv)) as Wv. destruct (zlen v >? 0) eqn:E.
  - rewrite calculateChecksum_spec; [|done|rewrite S1; destruct (ones_spec (wsum a) Wa); lia|intros _ ->; discriminate]. cbn [mbind option_bind]. eexists. split; [done|].
    unfold summed. cbn [cs_sum cs_odd]. rewrite S1, S2, zlen_app, Z.odd_add. split; [|done]. pose proof (lsum_nonneg v Hv). rewrite ones_ones by (try destruct (Z.odd _); lia). f_equal.
    destruct (Z.odd (zlen a)) eqn:Eo; [by rewrite wsum_app_odd|]. rewrite wsum_app; [done|]. by rewrite <- Z.negb_odd, Eo.
  - rewrite Z.gtb_ltb in E. apply Z.ltb_ge in E. assert (v = []) as -> by (destruct v; [done|rewrite zlen_cons in E; pose proof (zlen_nonneg v); lia]). exists c. by rewrite app_nil_r.
Qed.

Lemma cs_Add_all_spec vs : forall a c, bytes_ok a -> bytes_ok (concat vs) -> summed a c -> exists c', cs_Add_all place vs c = Some c' /\ summed (a ++ concat vs) c'.
Proof.
  induction vs as [|v vs IH]; intros a c Ha Hv S; cbn [cs_Add_all concat] in *; [exists c; by rewrite app_nil_r|]. apply Forall_app in Hv as [Hv Hvs].
  destruct (cs_Add_spec a v c Ha Hv S) as (c1 & -> & S1). cbn [mbind option_bind]. rewrite app_assoc. apply IH; [by apply Forall_app|done|done].
Qed.

Lemma skip_views_spec vs : forall off, 0 <= off < zlen (concat vs) ->
  exists v rest off', skip_views off vs = (off', v :: rest) /\ 0 <= off' < zlen v /\ drop (Z.to_nat off') v ++ concat rest = drop (Z.to_nat off) (concat vs).
Proof.
  induction vs as [|v vs IH]; intros off H; cbn [skip_views concat] in *; [change (zlen []) with 0 in H; lia|]. rewrite zlen_app in H. destruct (off >=? zlen v) eqn:E.
  - rewrite Z.geb_leb, Z.leb_le in E. destruct (IH (off - zlen v) ltac:(lia)) as (u & rest & o & -> & Ho & Ed). exists u, rest, o. split; [done|]. split; [done|]. rewrite Ed, drop_app_ge by (unfold zlen in *; lia).
    f_equal. unfold zlen. lia.
  - rewrite Z.geb_leb, Z.leb_gt in E. exists v, vs, off. split; [done|]. split; [lia|]. by rewrite drop_app_le by (unfold zlen in *; lia).
Qed.

(** However the bytes are cut into views, and wherever those lie. *)
Lemma bu_Checksum_spec off b : buffer_ok b -> bytes_ok (flat b) -> 0 <= off -> bu_Checksum place off b = Some (ones (wsum (drop (Z.to_nat off) (flat b)))).
Proof.
  intros Hb Hy Ho. unfold bu_Checksum. destruct (off >=? bu_size b) eqn:E; rewrite Z.geb_leb in E; to_prop; unfold buffer_ok in Hb.
  - by rewrite drop_ge by (unfold zlen in *; lia).
  - destruct (skip_views_spec (bu_data b) off) as (v & rest & o & -> & Hv & Ed); [fold (flat b); lia|]. fold (flat b) in Ed. assert (Hd := Forall_drop _ (Z.to_nat off) _ Hy). rewrite <- Ed in *. apply Forall_app in Hd as [Hd1 Hd2].
    rewrite slice_Some by lia. cbn [mbind option_bind]. rewrite take_ge by (rewrite length_drop; unfold zlen in *; lia).
    destruct (cs_Add_spec [] (drop (Z.to_nat o) v) (mkChecksumer 0 false)) as (c1 & -> & S1); [by apply Forall_nil_2|done|done|]. cbn [mbind option_bind].
    destruct (cs_Add_all_spec rest _ c1 Hd1 Hd2 S1) as (c2 & -> & [S2 _]). cbn [mbind option_bind]. by rewrite S2.
Qed.
End sums.
