(* ===== verification/NetGso.v ===== *)
(** Segmentation in software and the transmit path of the network adapter:
    netstack/gso.go and netstack/tx.go.

    A frame is the bytes of the slice a queue hands the builder; every function
    that writes one returns it.  [on_slice] is a write through a subslice. *)

From stdpp Require Import prelude list numbers strings.
From S2P Require Import Prelude Bytes Csum GvChecksum NetHeader NetPacket.

Definition gsoMaxSize : Z := 2 ^ 16.
Definition maxHeaderTemplate : Z := vlanHdrLen + IPv4MaximumHeaderSize + TCPHeaderMaximumSize.

Definition on_slice (lo hi : Z) (f : list Z -> option (list Z)) (b : list Z) : option (list Z) :=
  s ← slice lo hi b; s ← f s; Some (blit lo s b).

(** [copy(b[lo:], src)]: as much as fits. *)
Definition copy_from (lo : Z) (src b : list Z) : option (list Z * Z) :=
  if (0 <=? lo) && (lo <=? zlen b) then
    let src := take (Z.to_nat (zlen b - lo)) src in Some (blit lo src b, zlen src)
  else None.

(** [^x] of a 16-bit [x]. *)
Definition not16 (x : Z) : Z := u16 (Z.lnot x).

(** ** gso.go *)

Definition segments (pkt : PacketBuffer) : Z :=
  let g := pk_GSO pkt in
  if bool_decide (g_Type g = GSONone) || (g_MSS g =? 0) then 1
  else
    let n := Data_Size pkt in
    if n <=? g_MSS g then 1 else (n + g_MSS g - 1) / g_MSS g.

Definition needsChecksum (pkt : PacketBuffer) : bool :=
  negb (bool_decide (g_Type (pk_GSO pkt) = GSONone)) && g_NeedsCsum (pk_GSO pkt) &&
  (pk_NetworkProtocolNumber pkt =? IPv4ProtocolNumber) && (pk_TransportProtocolNumber pkt =? TCPProtocolNumber).

Record payloadCursor := mkCursor { pc_v : list (list Z); pc_off : Z }.

Fixpoint pc_skip_from (n off : Z) (vs : list (list Z)) : payloadCursor :=
  match vs with
  | [] => mkCursor [] off
  | v :: rest =>
    if n >? 0 then
      let rem := zlen v - off in
      if n <? rem then mkCursor vs (off + n) else pc_skip_from (n - rem) 0 rest
    else mkCursor vs off
  end.

Definition pc_skip (n : Z) (c : payloadCursor) : payloadCursor := pc_skip_from n (pc_off c) (pc_v c).

Definition newPayloadCursor (pkt : PacketBuffer) : payloadCursor :=
  let '(views, skip) := AsViewList pkt in
  pc_skip (skip + HeaderSize pkt) (mkCursor views 0).

(** The bytes copied for a destination of [want]; a view that is not used up
    has filled it. *)
Fixpoint pc_copy_from (want off : Z) (vs : list (list Z)) : option (list Z * payloadCursor) :=
  match vs with
  | [] => Some ([], mkCursor [] off)
  | v :: rest =>
    if 0 <? want then
      s ← slice off (zlen v) v;
      let m := take (Z.to_nat want) s in
      let off := off + zlen m in
      if off >=? zlen v then
        '(bs, c) ← pc_copy_from (want - zlen m) 0 rest; Some (m ++ bs, c)
      else Some (m, mkCursor vs off)
    else Some ([], mkCursor vs off)
  end.

Definition copyTo (want : Z) (c : payloadCursor) : option (list Z * payloadCursor) := pc_copy_from want (pc_off c) (pc_v c).

Record segmenter := mkSegmenter {
  sg_tmpl : list Z;
  sg_hdrLen : Z;
  sg_linkLen : Z;
  sg_ipLen : Z;
  sg_tcpLen : Z;
  sg_mss : Z;
  sg_left : Z;
  sg_seg : Z;
  sg_nseg : Z;
  sg_seq0 : Z;
  sg_flags : Z;
  sg_src : list Z;
  sg_dst : list Z;
  sg_cur : payloadCursor;
  sg_ipCsumBase : Z }.

Section gso.
Context (place : list Z -> Z).

Definition finishTCPChecksum (frame : list Z) (linkLen : Z) : option (list Z) :=
  ip ← slice linkLen (zlen frame) frame;
  ipLen ← HeaderLength ip;
  total ← TotalLength ip;
  let tcpLen := total - ipLen in
  let start := linkLen + ipLen in
  if (tcpLen <? TCPMinimumSize) || (start + tcpLen >? zlen frame) then Some frame
  else
    frame ← on_slice start (start + tcpLen) (SetTCPChecksum 0) frame;
    ip ← slice linkLen (zlen frame) frame;
    src ← SourceAddress ip;
    dst ← DestinationAddress ip;
    xsum ← PseudoHeaderChecksum place TCPProtocolNumber src dst (u16 tcpLen);
    seg ← slice start (start + tcpLen) frame;
    s ← csum place seg xsum;
    on_slice start (start + tcpLen) (SetTCPChecksum (not16 s)) frame.

Definition sg_init (pkt : PacketBuffer) (linkLen : Z) (s : segmenter) : option (segmenter * PacketBuffer) :=
  '(link, pkt) ← hdr_Slice linkHeader pkt;
  '(ip, pkt) ← hdr_Slice networkHeader pkt;
  '(tcp, pkt) ← hdr_Slice transportHeader pkt;
  let ipLen := zlen ip in
  let tcpLen := zlen tcp in
  link ← slice 0 linkLen link;
  '(tmpl, n) ← copy_from 0 link (sg_tmpl s);
  '(tmpl, m) ← copy_from n ip tmpl;
  '(tmpl, _) ← copy_from (n + m) tcp tmpl;
  seq0 ← SequenceNumber tcp;
  flags ← TCPFlags tcp;
  src ← SourceAddress ip;
  dst ← DestinationAddress ip;
  tmpl ← on_slice linkLen (linkLen + ipLen) (fun tip => tip ← SetTotalLength 0 tip; SetIPChecksum 0 tip) tmpl;
  tip ← slice linkLen (linkLen + ipLen) tmpl;
  base ← IPCalculateChecksum place tip;
  Some (mkSegmenter tmpl (linkLen + ipLen + tcpLen) linkLen ipLen tcpLen (g_MSS (pk_GSO pkt)) (Data_Size pkt) 0 (segments pkt)
          seq0 flags src dst (newPayloadCursor pkt) base, pkt).

Definition setIPLength (s : segmenter) (total : Z) (ip : list Z) : option (list Z) :=
  ip ← SetTotalLength (u16 total) ip;
  SetIPChecksum (not16 (Combine (sg_ipCsumBase s) (u16 total))) ip.

Definition sg_done (s : segmenter) : bool := sg_seg s >=? sg_nseg s.

(** The segmenter once a segment is out. *)
Definition sg_advance (rest : Z) (cur : payloadCursor) (s : segmenter) : segmenter :=
  mkSegmenter (sg_tmpl s) (sg_hdrLen s) (sg_linkLen s) (sg_ipLen s) (sg_tcpLen s) (sg_mss s) rest (sg_seg s + 1) (sg_nseg s)
    (sg_seq0 s) (sg_flags s) (sg_src s) (sg_dst s) cur (sg_ipCsumBase s).

Definition sg_next (frame : list Z) (s : segmenter) : option (Z * list Z * segmenter) :=
  let n := if sg_mss s >? sg_left s then sg_left s else sg_mss s in
  hdr ← slice 0 (sg_hdrLen s) (sg_tmpl s);
  '(frame, _) ← copy_from 0 hdr frame;
  frame ← on_slice (sg_linkLen s) (zlen frame) (setIPLength s (sg_ipLen s + sg_tcpLen s + n)) frame;
  let last := sg_seg s =? sg_nseg s - 1 in
  let flags := if last then sg_flags s else Z.ldiff (sg_flags s) (Z.lor TCPFlagPsh TCPFlagFin) in
  frame ← on_slice (sg_linkLen s + sg_ipLen s) (zlen frame)
    (fun tcp => tcp ← SetSequenceNumber (u32 (sg_seq0 s + u32 (sg_seg s * sg_mss s))) tcp; SetFlags (u8 flags) tcp) frame;
  _ ← slice (sg_hdrLen s) (sg_hdrLen s + n) frame;
  '(payload, cur) ← copyTo n (sg_cur s);
  let frame := blit (sg_hdrLen s) payload frame in
  let got := zlen payload in
  let total := sg_hdrLen s + got in
  '(frame, rest) ← (if negb (got =? n) then
       frame ← on_slice (sg_linkLen s) (zlen frame) (setIPLength s (sg_ipLen s + sg_tcpLen s + got)) frame; Some (frame, 0)
     else Some (frame, sg_left s - n));
  frame ← on_slice (sg_linkLen s + sg_ipLen s) (zlen frame) (SetTCPChecksum 0) frame;
  xsum ← PseudoHeaderChecksum place TCPProtocolNumber (sg_src s) (sg_dst s) (u16 (sg_tcpLen s + got));
  seg ← slice (sg_linkLen s + sg_ipLen s) total frame;
  sum ← csum place seg xsum;
  frame ← on_slice (sg_linkLen s + sg_ipLen s) (zlen frame) (SetTCPChecksum (not16 sum)) frame;
  let s := sg_advance rest cur s in
  if total <? minFrameLen then
    frame ← on_slice total minFrameLen (fun b => Some (replicate (length b) 0)) frame; Some (minFrameLen, frame, s)
  else Some (total, frame, s).

(** [admit] of gso.go: packets and frames that fit the budget. *)
Fixpoint fit_from (packets frames : Z) (segs : list Z) (budget : Z) : Z * Z :=
  match segs with
  | [] => (packets, frames)
  | s :: segs => if frames + s >? budget then (packets, frames) else fit_from (packets + 1) (frames + s) segs budget
  end.

Definition fit (segs : list Z) (budget : Z) : Z * Z := fit_from 0 0 segs budget.

Definition checksumsValid (b : list Z) : option bool :=
  if zlen b <? IPv4MinimumSize then Some false
  else
    v ← IPIsValid (zlen b) b;
    ck ← (if (v : bool) then IPIsChecksumValid place b else Some false);
    if negb ck then Some false
    else
      total ← TotalLength b;
      if total >? zlen b then Some false
      else
        fo ← FragmentOffset b;
        fl ← IPFlags b;
        if negb (fo =? 0) || negb (Z.land fl IPv4FlagMoreFragments =? 0) then Some true
        else
          ipLen ← HeaderLength b;
          seg ← slice ipLen total b;
          p ← Protocol b;
          src ← SourceAddress b;
          dst ← DestinationAddress b;
          if p =? UDPProtocolNumber then
            if zlen seg <? UDPMinimumSize then Some false
            else
              c ← UDPChecksum seg;
              if c =? 0 then Some true
              else
                payload ← slice UDPMinimumSize (zlen seg) seg;
                x ← csum place payload 0;
                UDPIsChecksumValid place src dst x seg
          else if p =? TCPProtocolNumber then
            if zlen seg <? TCPMinimumSize then Some false
            else
              off ← DataOffset seg;
              if (off <? TCPMinimumSize) || (off >? zlen seg) then Some false
              else
                payload ← slice off (zlen seg) seg;
                x ← csum place payload 0;
                TCPIsChecksumValid place src dst x (u16 (zlen payload)) seg
          else Some true.
End gso.
