(* ===== verification/NetGsoThms.v ===== *)
(** Segmentation: the frames a segmenter emits, field by field, and that the
    receiver's own check accepts them. *)

From stdpp Require Import prelude list numbers strings.
From S2P Require Import Prelude Bytes Csum GvChecksum NetHeader NetPacket NetGso.

(** ** Writes at the front of a list *)

Lemma not16_small x : 0 <= x < 2 ^ 16 -> not16 x = 65535 - x.
Proof. intros Hx. unfold not16, u16, Z.lnot. symmetry. apply (Z.mod_unique_pos _ _ (-1)); lia. Qed.

Lemma slice_pre {A} (a b : list A) : slice 0 (zlen a) (a ++ b) = Some a.
Proof. apply (slice_app_mid [] a b). Qed.

Lemma slice_post {A} (a b : list A) n : n = zlen a + zlen b -> slice (zlen a) n (a ++ b) = Some b.
Proof. intros ->. rewrite <- (app_nil_r b) at 2. apply slice_app_mid. Qed.

Lemma blit_pre {A} off (a I Y : list A) : 0 <= off -> off + zlen a <= zlen I -> blit off a (I ++ Y) = blit off a I ++ Y.
Proof.
  intros Ho Hl. unfold blit, zlen in *. rewrite take_app_le, drop_app_le by lia. by rewrite <- !app_assoc.
Qed.

Lemma blit_post {A} off (a L X : list A) : zlen L <= off -> blit off a (L ++ X) = L ++ blit (off - zlen L) a X.
Proof.
  intros Ho. unfold blit, zlen in *. rewrite take_app_ge, drop_app_ge by lia. rewrite <- app_assoc. do 2 f_equal; [f_equal; lia|]. f_equal. f_equal. lia.
Qed.

Lemma put_be_pre n off v (I Y : list Z) : 0 <= off -> off + Z.of_nat n <= zlen I -> put_be n off v (I ++ Y) = Some (blit off (be_bytes n v) I ++ Y).
Proof.
  intros Ho Hl. pose proof (zlen_nonneg Y). rewrite put_be_Some by (rewrite ?zlen_app; lia). f_equal. apply blit_pre; rewrite ?zlen_be_bytes; lia.
Qed.

Lemma set_at_pre {A} i (x : A) (I Y : list A) : 0 <= i < zlen I -> set_at i x (I ++ Y) = Some (blit i [x] I ++ Y).
Proof. intros Hi. pose proof (zlen_nonneg Y). rewrite set_blit by (rewrite zlen_app; lia). f_equal. apply blit_pre; [lia|]. rewrite zlen_cons, zlen_nil. lia. Qed.

Lemma on_slice_post (L X X' : list Z) f lo n : f X = Some X' -> zlen X' = zlen X -> lo = zlen L -> n = zlen L + zlen X -> on_slice lo n f (L ++ X) = Some (L ++ X').
Proof.
  intros Hf Hl -> Hn. unfold on_slice. rewrite (slice_post L X n Hn). cbn [mbind option_bind]. rewrite Hf. cbn [mbind option_bind]. f_equal.
  pose proof (blit_app_mid L X X' []) as E. rewrite !app_nil_r in E. apply E. unfold zlen in Hl. lia.
Qed.

Lemma on_slice_mid (L X X' R : list Z) f lo n : f X = Some X' -> zlen X' = zlen X -> lo = zlen L -> n = zlen L + zlen X -> on_slice lo n f (L ++ X ++ R) = Some (L ++ X' ++ R).
Proof.
  intros Hf Hl -> ->. unfold on_slice. rewrite slice_app_mid. cbn [mbind option_bind]. rewrite Hf. cbn [mbind option_bind]. f_equal.
  apply blit_app_mid. unfold zlen in Hl. lia.
Qed.

Lemma copy_from_fits lo (src pre mid post : list Z) : lo = zlen pre -> length src = length mid -> copy_from lo src (pre ++ mid ++ post) = Some (pre ++ src ++ post, zlen src).
Proof.
  intros -> Hl. unfold copy_from. rewrite !zlen_app. pose proof (zlen_nonneg pre). pose proof (zlen_nonneg mid). pose proof (zlen_nonneg post).
  rewrite (proj2 (Z.leb_le 0 _)), (proj2 (Z.leb_le (zlen pre) _)) by lia. cbn [andb]. rewrite take_ge by (unfold zlen in *; lia). by rewrite blit_app_mid.
Qed.

(** A list of at least [n] elements is its first [n] and the rest. *)
Lemma cut_at {A} (n : Z) (l : list A) : 0 <= n <= zlen l -> exists a b, l = a ++ b /\ zlen a = n.
Proof. intros Hn. exists (take (Z.to_nat n) l), (drop (Z.to_nat n) l). rewrite take_drop. split; [done|]. rewrite zlen_take. lia. Qed.

Lemma zlen_same {A} (a b : list A) : zlen a = zlen b -> length a = length b.
Proof. unfold zlen. lia. Qed.

(** ** The fields of a header

    An IPv4 or TCP header has its first twenty bytes and options. *)

Lemma cut20 (l : list Z) : 20 <= zlen l -> exists x0 x1 x2 x3 x4 x5 x6 x7 x8 x9 x10 x11 x12 x13 x14 x15 x16 x17 x18 x19 o,
  l = x0 :: x1 :: x2 :: x3 :: x4 :: x5 :: x6 :: x7 :: x8 :: x9 :: x10 :: x11 :: x12 :: x13 :: x14 :: x15 :: x16 :: x17 :: x18 :: x19 :: o.
Proof.
  intros H. assert (Hn : (20 <= length l)%nat) by (unfold zlen in H; lia). clear H.
  do 20 (destruct l as [|? l]; [cbn in Hn; lia|]). repeat eexists.
Qed.

(** The IPv4 header with its length and checksum zero, with them set, and the
    checksum that goes with a length. *)
Definition ip_fields (total ck : Z) (ip : list Z) : list Z := blit 10 (be_bytes 2 ck) (blit 2 (be_bytes 2 total) ip).
Definition ip_ck (ip : list Z) (total : Z) : Z := 65535 - ones (wsum (ip_fields 0 0 ip) + total).
Definition ip_out (ip : list Z) (total : Z) : list Z := ip_fields total (ip_ck ip total) ip.

Definition tcp_fields (seq fl ck : Z) (tcp : list Z) : list Z := blit 16 (be_bytes 2 ck) (blit 13 [fl] (blit 4 (be_bytes 4 seq) tcp)).
Definition tcp_sum (src dst : list Z) (seg : list Z) : Z := wsum src + wsum dst + zlen seg + TCPProtocolNumber + wsum seg.
Definition tcp_ck (src dst tcp : list Z) (seq fl : Z) (chunk : list Z) : Z := 65535 - ones (tcp_sum src dst (tcp_fields seq fl 0 tcp ++ chunk)).
Definition tcp_out (src dst tcp : list Z) (seq fl : Z) (chunk : list Z) : list Z := tcp_fields seq fl (tcp_ck src dst tcp seq fl chunk) tcp.

Lemma bytes_ok_over off a b : bytes_ok a -> bytes_ok b -> bytes_ok (blit off a b).
Proof. intros Ha Hb. unfold blit. apply Forall_app. split; [by apply Forall_take|]. apply Forall_app. split; [done|by apply Forall_drop]. Qed.

Lemma wsum_blit2 off v b : 0 <= off -> Z.even off = true -> off + 2 <= zlen b -> 0 <= v < 2 ^ 16 -> wsum (blit off (be_bytes 2 v) b) = wsum (blit off (be_bytes 2 0) b) + v.
Proof.
  intros Ho He Hl Hv. unfold blit. assert (Ht : Z.even (zlen (take (Z.to_nat off) b)) = true) by (rewrite zlen_take; replace (Z.min _ _) with off by lia; done).
  rewrite !(wsum_app (take _ _)) by done. rewrite !length_be_bytes, !wsum_app by (rewrite zlen_be_bytes; done). rewrite !be_bytes_wsum by lia. lia.
Qed.

Lemma blit_comm {A} o1 o2 (a b l : list A) : 0 <= o1 -> o1 + zlen a <= o2 -> o2 + zlen b <= zlen l -> blit o1 a (blit o2 b l) = blit o2 b (blit o1 a l).
Proof.
  intros H1 H2 H3. pose proof (zlen_nonneg a). pose proof (zlen_nonneg b). destruct (cut_at o2 l) as (p & q & -> & Hp); [lia|].
  rewrite (blit_post o2 b p q) by lia. rewrite !(blit_pre o1 a p) by lia. rewrite (blit_post o2 b) by (rewrite zlen_blit by lia; lia). by rewrite zlen_blit by lia.
Qed.

Lemma zlen_ip_fields t c ip : 20 <= zlen ip -> zlen (ip_fields t c ip) = zlen ip.
Proof. intros H. unfold ip_fields. rewrite !zlen_blit; rewrite ?zlen_be_bytes; rewrite ?zlen_blit; rewrite ?zlen_be_bytes; lia. Qed.

Lemma zlen_tcp_fields q f c tcp : 20 <= zlen tcp -> zlen (tcp_fields q f c tcp) = zlen tcp.
Proof.
  intros H. unfold tcp_fields. assert (H4 : zlen (blit 4 (be_bytes 4 q) tcp) = zlen tcp) by (rewrite zlen_blit; rewrite ?zlen_be_bytes; lia).
  assert (H13 : zlen (blit 13 [f] (blit 4 (be_bytes 4 q) tcp)) = zlen tcp) by (rewrite zlen_blit; rewrite ?zlen_cons, ?zlen_nil, ?H4; lia).
  rewrite zlen_blit; rewrite ?zlen_be_bytes, ?H13; lia.
Qed.

(** ** Sums *)

Lemma ip_fields_wsum t c ip : 20 <= zlen ip -> 0 <= t < 2 ^ 16 -> 0 <= c < 2 ^ 16 -> wsum (ip_fields t c ip) = wsum (ip_fields 0 0 ip) + t + c.
Proof.
  intros Hl Ht Hc. unfold ip_fields. assert (L : forall v, zlen (blit 2 (be_bytes 2 v) ip) = zlen ip) by (intros v; rewrite zlen_blit; rewrite ?zlen_be_bytes; lia).
  rewrite (wsum_blit2 10 c) by (rewrite ?L; (lia || done)). rewrite <- !(blit_comm 2 10) by (rewrite ?zlen_be_bytes; lia).
  assert (zlen (blit 10 (be_bytes 2 0) ip) = zlen ip) by (rewrite zlen_blit; rewrite ?zlen_be_bytes; lia). rewrite (wsum_blit2 2 t) by (lia || done). lia.
Qed.

Lemma bytes_ok_ip_fields t c ip : bytes_ok ip -> bytes_ok (ip_fields t c ip).
Proof. intros H. by repeat apply bytes_ok_over; try apply be_bytes_ok. Qed.

Lemma bytes_ok_tcp_fields q f c tcp : bytes_ok tcp -> byte_ok f -> bytes_ok (tcp_fields q f c tcp).
Proof. intros H Hf. unfold tcp_fields. repeat apply bytes_ok_over; try apply be_bytes_ok; [|done]. by apply Forall_singleton. Qed.

Lemma ones_ck S : 0 <= S -> 0 <= 65535 - ones S < 2 ^ 16.
Proof. intros H. destruct (ones_spec S H). lia. Qed.

Lemma ip_out_sum ip total : 20 <= zlen ip -> bytes_ok ip -> 0 <= total < 2 ^ 16 -> ones (wsum (ip_out ip total)) = 65535.
Proof.
  intros Hl Hb Ht. pose proof (proj1 (wsum_range _ (bytes_ok_ip_fields 0 0 ip Hb))). unfold ip_out, ip_ck.
  rewrite ip_fields_wsum by (done || apply ones_ck; lia). apply finish_sum. lia.
Qed.

Lemma tcp_fields_wsum q f c tcp chunk : 20 <= zlen tcp -> 0 <= c < 2 ^ 16 -> wsum (tcp_fields q f c tcp ++ chunk) = wsum (tcp_fields q f 0 tcp ++ chunk) + c.
Proof.
  intros Hl Hc. unfold tcp_fields. set (T := blit 13 [f] (blit 4 (be_bytes 4 q) tcp)).
  assert (HT : zlen T = zlen tcp) by (unfold T; rewrite !zlen_blit; rewrite ?zlen_be_bytes, ?zlen_cons, ?zlen_nil; rewrite ?zlen_blit; rewrite ?zlen_be_bytes; lia).
  rewrite <- !blit_pre by (rewrite ?zlen_be_bytes; lia). pose proof (zlen_nonneg chunk). apply wsum_blit2; (done || rewrite ?zlen_app; lia).
Qed.

Lemma tcp_sum_nonneg src dst seg : bytes_ok src -> bytes_ok dst -> bytes_ok seg -> 0 <= tcp_sum src dst seg.
Proof.
  intros Hs Hd Hg. pose proof (proj1 (wsum_range _ Hs)). pose proof (proj1 (wsum_range _ Hd)). pose proof (proj1 (wsum_range _ Hg)). pose proof (zlen_nonneg seg). unfold tcp_sum, TCPProtocolNumber. lia.
Qed.

Lemma tcp_out_sum src dst tcp q f chunk : 20 <= zlen tcp -> bytes_ok src -> bytes_ok dst -> bytes_ok tcp -> bytes_ok chunk -> byte_ok f ->
  ones (tcp_sum src dst (tcp_out src dst tcp q f chunk ++ chunk)) = 65535.
Proof.
  intros Hl Hs Hd Ht Hc Hf. assert (Hg : bytes_ok (tcp_fields q f 0 tcp ++ chunk)) by (apply Forall_app; split; [by apply bytes_ok_tcp_fields|done]).
  pose proof (tcp_sum_nonneg src dst _ Hs Hd Hg) as N. unfold tcp_out, tcp_ck. set (S := tcp_sum src dst (tcp_fields q f 0 tcp ++ chunk)) in *.
  replace (tcp_sum src dst _) with (S + (65535 - ones S)); [by apply finish_sum|]. unfold tcp_sum at 1. rewrite (tcp_fields_wsum q f (65535 - ones S) tcp chunk) by (done || by apply ones_ck).
  rewrite zlen_app, zlen_tcp_fields by done. unfold S, tcp_sum. rewrite zlen_app, zlen_tcp_fields by done. lia.
Qed.

(** ** The receiver's check *)

Record ipv4_ok (ip : list Z) : Prop := {
  i4_len : 20 <= zlen ip <= 60;
  i4_bytes : bytes_ok ip;
  i4_ihl : HeaderLength ip = Some (zlen ip);
  i4_version : IPVersion ip = 4;
  i4_tcp : Protocol ip = Some TCPProtocolNumber }.

Record tcp_ok (tcp : list Z) : Prop := {
  t_len : 20 <= zlen tcp <= 60;
  t_bytes : bytes_ok tcp;
  t_offset : DataOffset tcp = Some (zlen tcp) }.

Lemma get_be_pair x y v : byte_ok x -> byte_ok y -> x * 256 + y = v -> be_val [x; y] = v.
Proof. intros Hx Hy <-. unfold be_val, byte_ok in *. cbn. lia. Qed.

Lemma slice_same lo hi (a b : list Z) : 0 <= lo <= hi -> hi <= zlen a -> hi <= zlen b ->
  take (Z.to_nat (hi - lo)) (drop (Z.to_nat lo) a) = take (Z.to_nat (hi - lo)) (drop (Z.to_nat lo) b) -> slice lo hi a = slice lo hi b.
Proof. intros H1 H2 H3 H4. by rewrite !slice_Some, H4 by lia. Qed.

Lemma ip_fields_read ip t c Y : 20 <= zlen ip -> 0 <= t < 2 ^ 16 -> 0 <= c < 2 ^ 16 ->
  let P := ip_fields t c ip ++ Y in
  HeaderLength P = HeaderLength ip /\ TotalLength P = Some t /\ Protocol P = Protocol ip /\ IPVersion P = IPVersion ip /\
  SourceAddress P = SourceAddress ip /\ DestinationAddress P = DestinationAddress ip /\ FragmentOffset P = FragmentOffset ip /\ IPFlags P = IPFlags ip.
Proof.
  intros Hl Ht Hc. destruct (cut20 ip Hl) as (x0 & x1 & x2 & x3 & x4 & x5 & x6 & x7 & x8 & x9 & x10 & x11 & x12 & x13 & x14 & x15 & x16 & x17 & x18 & x19 & o & ->).
  destruct (be_bytes_2 t Ht) as (t1 & t2 & E1 & E2 & B1 & B2). destruct (be_bytes_2 c Hc) as (c1 & c2 & F1 & F2 & D1 & D2). unfold ip_fields. rewrite E1, F1. cbv zeta.
  unfold blit. change (Z.to_nat 2) with 2%nat. change (Z.to_nat 10) with 10%nat. cbn [Nat.add take drop app length]. pose proof (zlen_nonneg o). pose proof (zlen_nonneg Y).
  split; [done|]. split; [unfold TotalLength, get_be; rewrite slice_Some by (rewrite ?zlen_cons, ?zlen_app; lia); cbn [mbind option_bind]; f_equal; by apply get_be_pair|].
  split; [done|]. split; [done|]. unfold SourceAddress, DestinationAddress, FragmentOffset, IPFlags, get_be. change (6 + Z.of_nat 2) with 8.
  split; [|split; [|split]]; [| |do 2 f_equal..]; (apply slice_same; [lia| | |done]; rewrite ?zlen_cons, ?zlen_app, ?zlen_cons; lia).
Qed.

Lemma tcp_fields_read tcp q f c Y : 20 <= zlen tcp -> 0 <= q < 2 ^ 32 ->
  let P := tcp_fields q f c tcp ++ Y in DataOffset P = DataOffset tcp /\ SequenceNumber P = Some q /\ TCPFlags P = Some f.
Proof.
  intros Hl Hq. destruct (cut20 tcp Hl) as (x0 & x1 & x2 & x3 & x4 & x5 & x6 & x7 & x8 & x9 & x10 & x11 & x12 & x13 & x14 & x15 & x16 & x17 & x18 & x19 & o & ->).
  pose proof (be_val_be 4 q Hq) as Eq. pose proof (length_be_bytes 4 q) as L4. pose proof (length_be_bytes 2 c) as L2. unfold tcp_fields.
  destruct (be_bytes 4 q) as [|q1 [|q2 [|q3 [|q4 [|? ?]]]]]; try discriminate. destruct (be_bytes 2 c) as [|c1 [|c2 [|? ?]]]; try discriminate. cbv zeta.
  unfold blit. change (Z.to_nat 4) with 4%nat. change (Z.to_nat 13) with 13%nat. change (Z.to_nat 16) with 16%nat. cbn [Nat.add take drop app length]. pose proof (zlen_nonneg o). pose proof (zlen_nonneg Y).
  split; [done|]. split; [|done]. unfold SequenceNumber, get_be. rewrite slice_Some by (rewrite ?zlen_cons, ?zlen_app; lia). cbn [mbind option_bind]. f_equal. exact Eq.
Qed.

Lemma SourceAddress_ok ip : 20 <= zlen ip -> bytes_ok ip ->
  exists src dst, SourceAddress ip = Some src /\ DestinationAddress ip = Some dst /\ bytes_ok src /\ bytes_ok dst.
Proof.
  intros Hl Hb. unfold SourceAddress, DestinationAddress. rewrite !slice_Some by lia. do 2 eexists. split; [done|]. split; [done|]. split; by apply Forall_take, Forall_drop.
Qed.

Lemma DataOffset_even tcp n : DataOffset tcp = Some n -> Z.even n = true.
Proof.
  unfold DataOffset. destruct (get_at 12 tcp) as [x|]; [|done]. cbn [mbind option_bind]. intros [= <-]. unfold u8. rewrite Zeven_mod. set (y := Z.shiftr x 4).
  replace ((y * 4) mod 2 ^ 8 mod 2) with 0; [done|]. pose proof (mod_mod_pow2 (y * 4) 1 8 ltac:(lia)) as E. change (2 ^ 1) with 2 in E. rewrite E. replace (y * 4) with (y * 2 * 2) by lia. by rewrite Z.mod_mul.
Qed.

Section check.
Context (place : list Z -> Z).

Lemma IPIsChecksumValid_out ip t Y : ipv4_ok ip -> 0 <= t < 2 ^ 16 -> IPIsChecksumValid place (ip_out ip t ++ Y) = Some true.
Proof.
  intros [[Hl _] Hb Hi _ _] Ht. assert (Hz : zlen (ip_out ip t) = zlen ip) by (by apply zlen_ip_fields). pose proof (proj1 (wsum_range _ (bytes_ok_ip_fields 0 0 ip Hb))).
  assert (Hc : 0 <= ip_ck ip t < 2 ^ 16) by (apply ones_ck; lia). destruct (ip_fields_read ip t (ip_ck ip t) Y Hl Ht Hc) as (R1 & _). fold (ip_out ip t) in R1.
  unfold IPIsChecksumValid, IPCalculateChecksum. rewrite R1, Hi. cbn [mbind option_bind]. rewrite <- Hz, slice_pre. cbn [mbind option_bind].
  rewrite (bind_eq _ _ _ (csum_sum place (ip_out ip t) 0 (bytes_ok_ip_fields _ _ _ Hb) ltac:(lia))). by rewrite Z.add_0_l, ip_out_sum.
Qed.

Lemma TCPIsChecksumValid_out src dst tcp q f chunk : tcp_ok tcp -> bytes_ok src -> bytes_ok dst -> bytes_ok chunk -> byte_ok f -> 0 <= q < 2 ^ 32 -> zlen tcp + zlen chunk < 2 ^ 16 ->
  TCPIsChecksumValid place src dst (ones (wsum chunk)) (u16 (zlen chunk)) (tcp_out src dst tcp q f chunk ++ chunk) = Some true.
Proof.
  intros [[Hl _] Ht Hd] Hs Hds Hc Hf Hq Hlen. pose proof (zlen_nonneg chunk). assert (Hz : zlen (tcp_out src dst tcp q f chunk) = zlen tcp) by (by apply zlen_tcp_fields).
  assert (Ho : bytes_ok (tcp_out src dst tcp q f chunk)) by (by apply bytes_ok_tcp_fields). destruct (tcp_fields_read tcp q f (tcp_ck src dst tcp q f chunk) chunk Hl Hq) as (R & _). fold (tcp_out src dst tcp q f chunk) in R.
  pose proof (proj1 (wsum_range _ Hs)). pose proof (proj1 (wsum_range _ Hds)). pose proof (proj1 (wsum_range _ Hc)). pose proof (proj1 (wsum_range _ Ho)).
  unfold TCPIsChecksumValid, TCPCalculateChecksum. rewrite R, Hd. cbn [mbind option_bind]. rewrite (u16_small (zlen chunk)), (u16_small (zlen tcp + zlen chunk)) by lia.
  rewrite (bind_eq _ _ _ (PseudoHeaderChecksum_sum place TCPProtocolNumber src dst (zlen tcp + zlen chunk) Hs Hds ltac:(unfold TCPProtocolNumber; lia) ltac:(lia))). cbn [mbind option_bind].
  assert (Sl : slice 0 (zlen tcp) (tcp_out src dst tcp q f chunk ++ chunk) = Some (tcp_out src dst tcp q f chunk)) by (rewrite <- Hz; apply slice_pre). rewrite Sl. cbn [mbind option_bind].
  set (A := wsum src + wsum dst + (zlen tcp + zlen chunk) + TCPProtocolNumber). assert (0 <= A) by (unfold A, TCPProtocolNumber; lia).
  rewrite Combine_sum by (apply ones_u16; lia). rewrite ones_ones by (try lia; apply ones_u16; lia). rewrite Z.add_comm, ones_ones by lia.
  rewrite (bind_eq _ _ _ (csum_chain place _ (wsum chunk + A) Ho ltac:(lia))). pose proof (tcp_out_sum src dst tcp q f chunk Hl Hs Hds Ht Hc Hf) as E.
  unfold tcp_sum in E. rewrite zlen_app, Hz, wsum_app in E by (rewrite Hz; by apply (DataOffset_even tcp)). replace (wsum chunk + A + wsum (tcp_out src dst tcp q f chunk)) with (A + (wsum (tcp_out src dst tcp q f chunk) + wsum chunk)) by lia.
  unfold A. by rewrite E.
Qed.

(** What the segmenter puts after the link header, padding and all. *)
Lemma checksumsValid_out ip tcp src dst q f chunk pad : ipv4_ok ip -> tcp_ok tcp -> bytes_ok chunk -> byte_ok f -> 0 <= q < 2 ^ 32 ->
  SourceAddress ip = Some src -> DestinationAddress ip = Some dst -> bytes_ok src -> bytes_ok dst -> zlen ip + zlen tcp + zlen chunk < 2 ^ 16 ->
  checksumsValid place (ip_out ip (zlen ip + zlen tcp + zlen chunk) ++ (tcp_out src dst tcp q f chunk ++ chunk) ++ pad) = Some true.
Proof.
  intros Hip Htcp Hc Hf Hq Es Ed Hs Hd Hlen. set (total := zlen ip + zlen tcp + zlen chunk) in *. set (I := ip_out ip total). set (T := tcp_out src dst tcp q f chunk).
  pose proof (i4_len _ Hip) as Hil. pose proof (t_len _ Htcp) as Htl. pose proof (zlen_nonneg chunk). pose proof (zlen_nonneg pad).
  assert (HI : zlen I = zlen ip) by (apply zlen_ip_fields; lia). assert (HT : zlen T = zlen tcp) by (apply zlen_tcp_fields; lia).
  pose proof (proj1 (wsum_range _ (bytes_ok_ip_fields 0 0 ip (i4_bytes _ Hip)))). assert (Hck : 0 <= ip_ck ip total < 2 ^ 16) by (apply ones_ck; unfold total in *; lia).
  destruct (ip_fields_read ip total (ip_ck ip total) ((T ++ chunk) ++ pad) ltac:(lia) ltac:(unfold total in *; lia) Hck) as (R1 & R2 & R3 & R4 & R5 & R6 & R7 & R8). fold (ip_out ip total) in *. fold I in R1, R2, R3, R4, R5, R6, R7, R8.
  assert (HP : zlen (I ++ (T ++ chunk) ++ pad) = total + zlen pad) by (rewrite !zlen_app, HI, HT; unfold total; lia).
  unfold checksumsValid. rewrite HP. rewrite (proj2 (Z.ltb_ge _ _)) by (unfold IPv4MinimumSize, total in *; lia).
  assert (V : IPIsValid (total + zlen pad) (I ++ (T ++ chunk) ++ pad) = Some true).
  { unfold IPIsValid. rewrite HP, R1, R2, R4, (i4_ihl _ Hip), (i4_version _ Hip). unfold IPv4MinimumSize. rewrite (proj2 (Z.ltb_ge _ 20)) by (unfold total in *; lia). cbn [mbind option_bind].
    rewrite (proj2 (Z.ltb_ge _ 20)), !Z.gtb_ltb, (proj2 (Z.ltb_ge total _)), (proj2 (Z.ltb_ge (total + _) total)) by (unfold total in *; lia). done. }
  rewrite V. cbn [mbind option_bind]. rewrite (IPIsChecksumValid_out ip total _ Hip) by (unfold total in *; lia). cbn [mbind option_bind negb]. rewrite R2. cbn [mbind option_bind].
  rewrite Z.gtb_ltb, (proj2 (Z.ltb_ge _ total)) by lia. rewrite R7, R8. destruct (FragmentOffset ip) as [fo|] eqn:Efo; [|exfalso]; [destruct (IPFlags ip) as [fl|] eqn:Efl; [|exfalso]|]; cycle 1.
  - unfold IPFlags, get_be in Efl. rewrite slice_Some in Efl by lia. done.
  - unfold FragmentOffset, get_be in Efo. rewrite slice_Some in Efo by lia. done.
  - cbn [mbind option_bind]. case_if; [done|]. rewrite R1, (i4_ihl _ Hip), R3, (i4_tcp _ Hip), R5, R6, Es, Ed. cbn [mbind option_bind].
    assert (Sg : slice (zlen ip) total (I ++ (T ++ chunk) ++ pad) = Some (T ++ chunk)).
    { rewrite <- HI. replace total with (zlen I + zlen (T ++ chunk)) by (rewrite zlen_app, HI, HT; unfold total; lia). apply slice_app_mid. }
    rewrite Sg. cbn [mbind option_bind]. change (TCPProtocolNumber =? UDPProtocolNumber) with false. change (TCPProtocolNumber =? TCPProtocolNumber) with true. cbv match.
    rewrite zlen_app, HT. unfold TCPMinimumSize. rewrite (proj2 (Z.ltb_ge _ 20)) by lia. destruct (tcp_fields_read tcp q f (tcp_ck src dst tcp q f chunk) chunk ltac:(lia) Hq) as (RO & _). fold (tcp_out src dst tcp q f chunk) in RO. fold T in RO.
    rewrite RO, (t_offset _ Htcp). cbn [mbind option_bind]. rewrite (proj2 (Z.ltb_ge _ 20)), Z.gtb_ltb, (proj2 (Z.ltb_ge (zlen tcp + _) _)) by lia. cbn [orb].
    assert (Sp : slice (zlen tcp) (zlen tcp + zlen chunk) (T ++ chunk) = Some chunk) by (rewrite <- HT; by apply slice_post). rewrite Sp. cbn [mbind option_bind].
    rewrite (bind_eq _ _ _ (csum_sum place chunk 0 Hc ltac:(lia))), Z.add_0_l. apply TCPIsChecksumValid_out; (done || lia).
Qed.
End check.

(** A segmenter from [init] to its last frame. *)

(** ** The cursor *)

Definition cursor_rest (c : payloadCursor) : list Z := match pc_v c with [] => [] | v :: vs => drop (Z.to_nat (pc_off c)) v ++ concat vs end.
Definition cursor_ok (c : payloadCursor) : Prop := match pc_v c with [] => True | v :: _ => 0 <= pc_off c <= zlen v end.

Lemma pc_skip_from_spec vs : forall n off, 0 <= n -> cursor_ok (mkCursor vs off) ->
  cursor_ok (pc_skip_from n off vs) /\ cursor_rest (pc_skip_from n off vs) = drop (Z.to_nat n) (cursor_rest (mkCursor vs off)).
Proof.
  induction vs as [|v vs IH]; intros n off Hn Hc; cbn [pc_skip_from]; [split; [done|]; unfold cursor_rest; cbn [pc_v]; by rewrite drop_nil|]. unfold cursor_ok in Hc. cbn [pc_v pc_off] in Hc. destruct (n >? 0) eqn:E; rewrite Z.gtb_ltb in E; to_prop.
  - destruct (n <? zlen v - off) eqn:E2; to_prop.
    + unfold cursor_ok, cursor_rest. cbn [pc_v pc_off]. split; [lia|]. rewrite drop_app_le by (rewrite length_drop; unfold zlen in *; lia). rewrite drop_drop. do 2 f_equal. lia.
    + destruct (IH (n - (zlen v - off)) 0) as [I1 I2]; [lia|destruct vs as [|u vs]; [done|]; unfold cursor_ok; cbn; pose proof (zlen_nonneg u); lia|]. split; [done|]. rewrite I2. unfold cursor_rest at 2. cbn [pc_v pc_off].
      rewrite drop_app_ge by (rewrite length_drop; unfold zlen in *; lia). rewrite length_drop. replace (Z.to_nat n - (length v - Z.to_nat off))%nat with (Z.to_nat (n - (zlen v - off))) by (unfold zlen in *; lia).
      destruct vs as [|u vs]; [done|]. unfold cursor_rest. cbn [pc_v pc_off concat]. by rewrite drop_0.
  - replace n with 0 by lia. split; [done|]. by rewrite drop_0.
Qed.

Lemma pc_copy_from_spec vs : forall want off, 0 <= want -> cursor_ok (mkCursor vs off) ->
  exists c, pc_copy_from want off vs = Some (take (Z.to_nat want) (cursor_rest (mkCursor vs off)), c) /\ cursor_ok c /\ cursor_rest c = drop (Z.to_nat want) (cursor_rest (mkCursor vs off)).
Proof.
  induction vs as [|v vs IH]; intros want off Hw Hc; cbn [pc_copy_from].
  { eexists. unfold cursor_rest, cursor_ok. cbn [pc_v pc_off]. by rewrite take_nil, drop_nil. }
  unfold cursor_ok in Hc. cbn [pc_v pc_off] in Hc. destruct (0 <? want) eqn:E; to_prop; [|replace want with 0 by lia; eexists; rewrite take_0, drop_0; split_and!; done].
  rewrite slice_Some by lia. cbn [mbind option_bind]. rewrite (take_ge (drop _ v)) by (rewrite length_drop; unfold zlen in *; lia). set (s := drop (Z.to_nat off) v). assert (Hs : zlen s = zlen v - off) by (unfold s; rewrite zlen_drop; lia).
  assert (Hr : cursor_rest (mkCursor (v :: vs) off) = s ++ concat vs) by done. rewrite Hr. rewrite zlen_take, Z2Nat.id, Z.geb_leb by lia. destruct (zlen v <=? off + Z.min want (zlen s)) eqn:E2; to_prop.
  - destruct (IH (want - Z.min want (zlen s)) 0) as (c & -> & C1 & C2); [lia|destruct vs as [|u vs]; [done|]; unfold cursor_ok; cbn; pose proof (zlen_nonneg u); lia|]. cbn [mbind option_bind].
    assert (Hcv : cursor_rest (mkCursor vs 0) = concat vs) by (destruct vs; [done|]; unfold cursor_rest; cbn [pc_v pc_off concat]; by rewrite drop_0). rewrite Hcv in *.
    exists c. split; [|split; [done|]]; [do 2 f_equal|rewrite C2].
    + rewrite (take_ge s) by (unfold zlen in *; lia). rewrite take_app_ge by (unfold zlen in *; lia). f_equal. f_equal. unfold zlen in *. lia.
    + rewrite drop_app_ge by (unfold zlen in *; lia). f_equal. unfold zlen in *. lia.
  - eexists. split; [rewrite take_app_le by (unfold zlen in *; lia); done|]. unfold cursor_ok, cursor_rest. cbn [pc_v pc_off]. split; [lia|].
    rewrite drop_app_le by (unfold zlen in *; lia). replace (Z.min want (zlen s)) with want by lia. unfold s. rewrite drop_drop. do 2 f_equal. lia.
Qed.

(** ** Packets on their way out *)

Record outgoing (pk : PacketBuffer) (link ip tcp data : list Z) : Prop := {
  og_buf : buffer_ok (pk_buf pk);
  og_bytes : drop (Z.to_nat (headerOffset pk)) (flat (pk_buf pk)) = link ++ ip ++ tcp ++ data;
  og_room : pk_pushed pk <= pk_reserved pk <= zlen (flat (pk_buf pk));
  og_pushed : pk_pushed pk = zlen link + zlen ip + zlen tcp;
  og_consumed : pk_consumed pk = 0;
  og_link : pk_headers pk linkHeader = mkInfo (- (zlen link + zlen ip + zlen tcp)) (zlen link);
  og_network : pk_headers pk networkHeader = mkInfo (- (zlen ip + zlen tcp)) (zlen ip);
  og_transport : pk_headers pk transportHeader = mkInfo (- zlen tcp) (zlen tcp) }.

Lemma outgoing_flat pk link ip tcp data : outgoing pk link ip tcp data -> exists pre, flat (pk_buf pk) = pre ++ link ++ ip ++ tcp ++ data /\ zlen pre = headerOffset pk.
Proof.
  intros H. exists (take (Z.to_nat (headerOffset pk)) (flat (pk_buf pk))). rewrite <- (og_bytes _ _ _ _ _ H), take_drop. split; [done|].
  pose proof (og_room _ _ _ _ _ H). pose proof (og_pushed _ _ _ _ _ H). pose proof (zlen_nonneg link). pose proof (zlen_nonneg ip). pose proof (zlen_nonneg tcp). unfold headerOffset. rewrite zlen_take. lia.
Qed.

Lemma outgoing_with_buf pk b link ip tcp data : outgoing pk link ip tcp data -> flat b = flat (pk_buf pk) -> bu_size b = bu_size (pk_buf pk) -> outgoing (with_buf b pk) link ip tcp data.
Proof.
  intros [H1 H2 H3 H4 H5 H6 H7 H8] F S. split; try done; unfold buffer_ok, headerOffset in *; cbn [with_buf pk_buf pk_reserved pk_pushed]; by rewrite ?S, F.
Qed.

Lemma outgoing_Data_Size pk link ip tcp data : outgoing pk link ip tcp data -> Data_Size pk = zlen data.
Proof.
  intros H. destruct (outgoing_flat _ _ _ _ _ H) as (pre & F & Z). destruct H. unfold Data_Size, dataOffset, headerOffset, buffer_ok in *. rewrite F, !zlen_app in *. lia.
Qed.

Lemma outgoing_cursor pk link ip tcp data : outgoing pk link ip tcp data -> cursor_ok (newPayloadCursor pk) /\ cursor_rest (newPayloadCursor pk) = data.
Proof.
  intros H. destruct (outgoing_flat _ _ _ _ _ H) as (pre & F & Z). destruct H. unfold newPayloadCursor, AsViewList, pc_skip, HeaderSize. cbn [pc_v pc_off]. rewrite og_consumed0, og_pushed0.
  pose proof (zlen_nonneg link). pose proof (zlen_nonneg ip). pose proof (zlen_nonneg tcp). pose proof (zlen_nonneg pre). destruct (pc_skip_from_spec (bu_data (pk_buf pk)) (headerOffset pk + (zlen link + zlen ip + zlen tcp + 0)) 0) as [C1 C2].
  { lia. }
  { destruct (bu_data (pk_buf pk)) as [|v ?]; [done|]. unfold cursor_ok. cbn. pose proof (zlen_nonneg v). lia. }
  split; [done|]. rewrite C2. replace (cursor_rest _) with (flat (pk_buf pk)) by (unfold cursor_rest, flat; cbn [pc_v pc_off]; destruct (bu_data (pk_buf pk)); [done|]; cbn [concat]; by rewrite drop_0).
  rewrite F, !app_assoc. apply drop_app_length'. rewrite !length_app. unfold zlen in *. lia.
Qed.

Lemma take_drop_mid {A} (a h c : list A) n m : n = zlen h -> m = zlen a -> take (Z.to_nat n) (drop (Z.to_nat m) (a ++ h ++ c)) = h.
Proof. intros -> ->. unfold zlen. rewrite !Nat2Z.id, drop_app_length. apply take_app_length. Qed.

(** A header of an outgoing packet, wherever its views are cut. *)
Lemma outgoing_Slice typ h a c pk link ip tcp data : outgoing pk link ip tcp data -> flat (pk_buf pk) = a ++ h ++ c -> headerOffsetOf typ pk = zlen a -> hi_length (pk_headers pk typ) = zlen h ->
  exists b, hdr_Slice typ pk = Some (h, with_buf b pk) /\ flat b = flat (pk_buf pk) /\ outgoing (with_buf b pk) link ip tcp data.
Proof.
  intros H F O L. pose proof (og_buf _ _ _ _ _ H) as Hb. unfold buffer_ok in Hb. pose proof (zlen_nonneg a). pose proof (zlen_nonneg h). pose proof (zlen_nonneg c).
  destruct (hdr_Slice_spec typ pk) as (b & E & Fb & Sb); [apply H|lia|lia|rewrite Hb, F, O, L, !zlen_app; lia|]. exists b. rewrite E. split; [|split; [done|by apply outgoing_with_buf]].
  do 3 f_equal. rewrite F. by apply take_drop_mid.
Qed.

Lemma outgoing_headers pk link ip tcp data : outgoing pk link ip tcp data ->
  exists b1 b2 b3, hdr_Slice linkHeader pk = Some (link, with_buf b1 pk) /\ hdr_Slice networkHeader (with_buf b1 pk) = Some (ip, with_buf b2 pk) /\
    hdr_Slice transportHeader (with_buf b2 pk) = Some (tcp, with_buf b3 pk) /\ flat b3 = flat (pk_buf pk) /\ outgoing (with_buf b3 pk) link ip tcp data.
Proof.
  intros H. destruct (outgoing_flat _ _ _ _ _ H) as (pre & F & Hz). pose proof (og_link _ _ _ _ _ H) as L1. pose proof (og_network _ _ _ _ _ H) as L2. pose proof (og_transport _ _ _ _ _ H) as L3. pose proof (og_pushed _ _ _ _ _ H) as P. unfold headerOffset in Hz.
  destruct (outgoing_Slice linkHeader link pre (ip ++ tcp ++ data) pk link ip tcp data H F) as (b1 & E1 & F1 & H1); [unfold headerOffsetOf; rewrite L1; cbn [hi_offset]; lia|by rewrite L1|].
  destruct (outgoing_Slice networkHeader ip (pre ++ link) (tcp ++ data) (with_buf b1 pk) link ip tcp data H1) as (b2 & E2 & F2 & H2).
  { cbn [with_buf pk_buf]. by rewrite F1, F, <- app_assoc. }
  { unfold headerOffsetOf. cbn [with_buf pk_headers pk_reserved]. rewrite L2. cbn [hi_offset]. rewrite zlen_app. lia. }
  { cbn [with_buf pk_headers]. by rewrite L2. }
  destruct (outgoing_Slice transportHeader tcp (pre ++ link ++ ip) data (with_buf b2 (with_buf b1 pk)) link ip tcp data H2) as (b3 & E3 & F3 & H3).
  { cbn [with_buf pk_buf] in *. by rewrite F2, F1, F, <- !app_assoc. }
  { unfold headerOffsetOf. cbn [with_buf pk_headers pk_reserved]. rewrite L3. cbn [hi_offset]. rewrite !zlen_app. lia. }
  { cbn [with_buf pk_headers]. by rewrite L3. }
  exists b1, b2, b3. cbn [with_buf pk_buf] in *. split_and!; try done. by rewrite F3, F2, F1.
Qed.

(** ** The segmenter's state before segment [i] of [k] *)

Record segmenting (link ip tcp data : list Z) (m k i : Z) (s : segmenter) : Prop := {
  sm_tmpl : exists junk, sg_tmpl s = link ++ ip_fields 0 0 ip ++ tcp ++ junk;
  sm_room : zlen (sg_tmpl s) = maxHeaderTemplate;
  sm_hdrLen : sg_hdrLen s = zlen link + zlen ip + zlen tcp;
  sm_linkLen : sg_linkLen s = zlen link;
  sm_ipLen : sg_ipLen s = zlen ip;
  sm_tcpLen : sg_tcpLen s = zlen tcp;
  sm_mss : sg_mss s = m;
  sm_left : sg_left s = Z.max 0 (zlen data - i * m);
  sm_seg : sg_seg s = i;
  sm_nseg : sg_nseg s = k;
  sm_seq0 : SequenceNumber tcp = Some (sg_seq0 s);
  sm_flags : TCPFlags tcp = Some (sg_flags s);
  sm_src : SourceAddress ip = Some (sg_src s);
  sm_dst : DestinationAddress ip = Some (sg_dst s);
  sm_cur : cursor_ok (sg_cur s);
  sm_rest : cursor_rest (sg_cur s) = drop (Z.to_nat (i * m)) data;
  sm_base : sg_ipCsumBase s = ones (wsum (ip_fields 0 0 ip)) }.

Section run.
Context (place : list Z -> Z).

Lemma ip_fields_over t c t' c' ip : 20 <= zlen ip -> blit 10 (be_bytes 2 c) (blit 2 (be_bytes 2 t) (ip_fields t' c' ip)) = ip_fields t c ip.
Proof.
  intros Hl. destruct (cut20 ip Hl) as (x0 & x1 & x2 & x3 & x4 & x5 & x6 & x7 & x8 & x9 & x10 & x11 & x12 & x13 & x14 & x15 & x16 & x17 & x18 & x19 & o & ->).
  unfold ip_fields. pose proof (length_be_bytes 2 t) as L1. pose proof (length_be_bytes 2 c) as L2. pose proof (length_be_bytes 2 t') as L3. pose proof (length_be_bytes 2 c') as L4.
  destruct (be_bytes 2 t) as [|? [|? [|? ?]]]; try discriminate. destruct (be_bytes 2 c) as [|? [|? [|? ?]]]; try discriminate.
  destruct (be_bytes 2 t') as [|? [|? [|? ?]]]; try discriminate. destruct (be_bytes 2 c') as [|? [|? [|? ?]]]; try discriminate. reflexivity.
Qed.

Lemma tcp_ck_over q f c c' tcp : 20 <= zlen tcp -> blit 16 (be_bytes 2 c) (tcp_fields q f c' tcp) = tcp_fields q f c tcp.
Proof.
  intros Hl. unfold tcp_fields. pose proof (zlen_tcp_fields q f c' tcp Hl) as L. unfold tcp_fields in L. replace 16 with (16 + 0) at 1 by lia. assert (L' : zlen (blit 13 [f] (blit 4 (be_bytes 4 q) tcp)) = zlen tcp).
  { rewrite !zlen_blit; rewrite ?zlen_be_bytes, ?zlen_cons, ?zlen_nil; rewrite ?zlen_blit; rewrite ?zlen_be_bytes; lia. }
  rewrite blit_over by (rewrite ?zlen_be_bytes; lia). reflexivity.
Qed.

Lemma sg_init_spec pk link ip tcp data s0 : outgoing pk link ip tcp data -> ipv4_ok ip -> tcp_ok tcp -> zlen link <= vlanHdrLen -> zlen (sg_tmpl s0) = maxHeaderTemplate ->
  exists s b, sg_init place pk (zlen link) s0 = Some (s, with_buf b pk) /\ flat b = flat (pk_buf pk) /\ segmenting link ip tcp data (g_MSS (pk_GSO pk)) (segments pk) 0 s.
Proof.
  intros H Hip Htcp Hll Ht. destruct (outgoing_headers _ _ _ _ _ H) as (b1 & b2 & b3 & E1 & E2 & E3 & F3 & H3). unfold sg_init. rewrite E1. cbn [mbind option_bind]. rewrite E2. cbn [mbind option_bind]. rewrite E3. cbn [mbind option_bind].
  pose proof (i4_len _ Hip). pose proof (t_len _ Htcp). pose proof (zlen_nonneg link). unfold maxHeaderTemplate, vlanHdrLen, IPv4MaximumHeaderSize, TCPHeaderMaximumSize in *.
  assert (Sl : slice 0 (zlen link) link = Some link) by (pose proof (slice_pre link []) as E; by rewrite app_nil_r in E). rewrite Sl. cbn [mbind option_bind].
  destruct (cut_at (zlen link) (sg_tmpl s0)) as (t1 & r1 & Et & L1); [lia|]. rewrite Et, zlen_app in Ht. rewrite Et. clear Et. destruct (cut_at (zlen ip) r1) as (t2 & r2 & -> & L2); [lia|]. rewrite zlen_app in Ht. destruct (cut_at (zlen tcp) r2) as (t3 & r3 & -> & L3); [lia|].
  pose proof (copy_from_fits 0 link [] t1 (t2 ++ t3 ++ r3) eq_refl (zlen_same _ _ (eq_sym L1))) as C0. cbn [app] in C0. rewrite C0. cbn [mbind option_bind app]. rewrite (copy_from_fits (zlen link) ip link t2 (t3 ++ r3) eq_refl (zlen_same _ _ (eq_sym L2))). cbn [mbind option_bind].
  replace (link ++ ip ++ t3 ++ r3) with ((link ++ ip) ++ t3 ++ r3) by (by rewrite <- !app_assoc). rewrite (copy_from_fits (zlen link + zlen ip) tcp (link ++ ip) t3 r3 ltac:(by rewrite zlen_app) (zlen_same _ _ (eq_sym L3))). cbn [mbind option_bind].
  destruct (SourceAddress_ok ip ltac:(lia) (i4_bytes _ Hip)) as (src & dst & Es & Ed & _ & _). destruct (get_at_Some 13 tcp ltac:(lia)) as [fl Efl].
  assert (exists q, SequenceNumber tcp = Some q) as [q Eq] by (unfold SequenceNumber, get_be; rewrite slice_Some by lia; eauto).
  rewrite Eq. unfold TCPFlags at 1. rewrite Efl, Es, Ed. cbn [mbind option_bind].
  rewrite <- app_assoc, (on_slice_mid link ip (ip_fields 0 0 ip) (tcp ++ r3)); [| |by apply zlen_ip_fields; lia|done|done].
  2:{ unfold SetTotalLength, SetIPChecksum. rewrite put_be_Some by lia. cbn [mbind option_bind]. rewrite put_be_Some; [done|lia|]. rewrite zlen_blit; rewrite ?zlen_be_bytes; lia. }
  cbn [mbind option_bind]. assert (Sm : slice (zlen link) (zlen link + zlen ip) (link ++ ip_fields 0 0 ip ++ tcp ++ r3) = Some (ip_fields 0 0 ip)) by (rewrite <- (zlen_ip_fields 0 0 ip) by lia; apply slice_app_mid). rewrite Sm. cbn [mbind option_bind]. unfold IPCalculateChecksum.
  destruct (ip_fields_read ip 0 0 [] ltac:(lia) ltac:(lia) ltac:(lia)) as (R1 & _). rewrite app_nil_r in R1. rewrite R1, (i4_ihl _ Hip). cbn [mbind option_bind].
  assert (Si : slice 0 (zlen ip) (ip_fields 0 0 ip) = Some (ip_fields 0 0 ip)) by (pose proof (slice_pre (ip_fields 0 0 ip) []) as E; by rewrite app_nil_r, zlen_ip_fields in E by lia). rewrite Si. cbn [mbind option_bind].
  rewrite (bind_eq _ _ _ (csum_sum place _ 0 (bytes_ok_ip_fields 0 0 _ (i4_bytes _ Hip)) ltac:(lia))), Z.add_0_l.
  eexists _, b3. split; [done|]. split; [done|]. destruct (outgoing_cursor _ _ _ _ _ H3) as [C1 C2]. pose proof (outgoing_Data_Size _ _ _ _ _ H3). pose proof (outgoing_Data_Size _ _ _ _ _ H) as DS. pose proof (zlen_nonneg data).
  split; cbn [sg_tmpl sg_hdrLen sg_linkLen sg_ipLen sg_tcpLen sg_mss sg_left sg_seg sg_nseg sg_seq0 sg_flags sg_src sg_dst sg_cur sg_ipCsumBase]; try done; [by exists r3|unfold maxHeaderTemplate, vlanHdrLen, IPv4MaximumHeaderSize, TCPHeaderMaximumSize; rewrite !zlen_app, zlen_ip_fields by lia; rewrite !zlen_app in Ht; lia|lia|].
  unfold segments. by rewrite DS, (outgoing_Data_Size _ _ _ _ _ H3).
Qed.

Lemma u32_add_r x y : u32 (x + u32 y) = u32 (x + y).
Proof. unfold u32. by rewrite Zplus_mod_idemp_r. Qed.

(** Segment [i] of [k] of [data], and what is put on the wire for it. *)
Definition chunk_of (data : list Z) (m i : Z) : list Z := take (Z.to_nat m) (drop (Z.to_nat (i * m)) data).
Definition seq_of (seq0 m i : Z) : Z := u32 (seq0 + i * m).
Definition flags_of (fl k i : Z) : Z := u8 (if i =? k - 1 then fl else Z.ldiff fl (Z.lor TCPFlagPsh TCPFlagFin)).
Definition padding (n : Z) : list Z := replicate (Z.to_nat (minFrameLen - n)) 0.
Definition packet_of (ip tcp src dst chunk : list Z) (q f : Z) : list Z :=
  ip_out ip (zlen ip + zlen tcp + zlen chunk) ++ tcp_out src dst tcp q f chunk ++ chunk.
Definition padded (b : list Z) : list Z := b ++ padding (zlen b).

Lemma zlen_packet_of ip tcp src dst chunk q f : 20 <= zlen ip -> 20 <= zlen tcp -> zlen (packet_of ip tcp src dst chunk q f) = zlen ip + zlen tcp + zlen chunk.
Proof. intros H1 H2. unfold packet_of, ip_out, tcp_out. rewrite !zlen_app, zlen_ip_fields, zlen_tcp_fields by done. lia. Qed.

Lemma setIPLength_spec s ip t X : sg_ipCsumBase s = ones (wsum (ip_fields 0 0 ip)) -> bytes_ok ip -> 20 <= zlen ip -> 0 <= t < 2 ^ 16 ->
  setIPLength s t (ip_fields 0 0 ip ++ X) = Some (ip_out ip t ++ X).
Proof.
  intros Hb Hy Hl Ht. pose proof (proj1 (wsum_range _ (bytes_ok_ip_fields 0 0 ip Hy))). unfold setIPLength, SetTotalLength, SetIPChecksum.
  assert (Lz : zlen (ip_fields 0 0 ip) = zlen ip) by (by apply zlen_ip_fields). assert (L2 : zlen (blit 2 (be_bytes 2 (u16 t)) (ip_fields 0 0 ip)) = zlen ip) by (rewrite zlen_blit; rewrite ?zlen_be_bytes; lia).
  rewrite put_be_pre by lia. cbn [mbind option_bind]. rewrite put_be_pre by lia. do 2 f_equal. rewrite (u16_small t Ht), Hb, Combine_sum, ones_ones by (try apply ones_u16; lia).
  rewrite not16_small by (apply ones_u16; lia). unfold ip_out, ip_ck. by apply ip_fields_over.
Qed.

Lemma tcp_marks q f tcp X : 20 <= zlen tcp -> (tcp ← SetSequenceNumber q (tcp ++ X); SetFlags f tcp) = Some (blit 13 [f] (blit 4 (be_bytes 4 q) tcp) ++ X).
Proof.
  intros Hl. unfold SetSequenceNumber, SetFlags. assert (L : zlen (blit 4 (be_bytes 4 q) tcp) = zlen tcp) by (rewrite zlen_blit; rewrite ?zlen_be_bytes; lia).
  rewrite put_be_pre by lia. cbn [mbind option_bind]. apply set_at_pre. lia.
Qed.

Lemma tcp_zero q f tcp X : 20 <= zlen tcp -> SetTCPChecksum 0 (blit 13 [f] (blit 4 (be_bytes 4 q) tcp) ++ X) = Some (tcp_fields q f 0 tcp ++ X).
Proof.
  intros Hl. unfold SetTCPChecksum. apply put_be_pre; [lia|]. rewrite !zlen_blit; rewrite ?zlen_be_bytes, ?zlen_cons, ?zlen_nil; rewrite ?zlen_blit; rewrite ?zlen_be_bytes; lia.
Qed.

Lemma tcp_finish src dst q f tcp chunk X : 20 <= zlen tcp -> bytes_ok tcp -> bytes_ok chunk -> bytes_ok src -> bytes_ok dst -> byte_ok f ->
  SetTCPChecksum (not16 (ones (tcp_sum src dst (tcp_fields q f 0 tcp ++ chunk)))) (tcp_fields q f 0 tcp ++ X) = Some (tcp_out src dst tcp q f chunk ++ X).
Proof.
  intros Hl Ht Hc Hs Hd Hf. assert (Hg : bytes_ok (tcp_fields q f 0 tcp ++ chunk)) by (apply Forall_app; split; [by apply bytes_ok_tcp_fields|done]). pose proof (tcp_sum_nonneg src dst _ Hs Hd Hg).
  rewrite not16_small by (apply ones_u16; lia). fold (tcp_ck src dst tcp q f chunk). unfold SetTCPChecksum. rewrite put_be_pre by (rewrite ?zlen_tcp_fields; lia). by rewrite tcp_ck_over.
Qed.

(** The checksum over a segment and its pseudo-header. *)
Lemma segment_sum src dst seg : bytes_ok src -> bytes_ok dst -> bytes_ok seg -> zlen seg < 2 ^ 16 ->
  exists x, PseudoHeaderChecksum place TCPProtocolNumber src dst (zlen seg) = Some x /\ csum place seg x = Some (ones (tcp_sum src dst seg)).
Proof.
  intros Hs Hd Hg Hl. pose proof (zlen_nonneg seg). pose proof (proj1 (wsum_range _ Hs)). pose proof (proj1 (wsum_range _ Hd)). eexists. split; [apply PseudoHeaderChecksum_sum; (done || unfold TCPProtocolNumber; lia)|].
  rewrite csum_chain by (done || unfold TCPProtocolNumber; lia). reflexivity.
Qed.

(** Padding to the Ethernet minimum. *)
Lemma pad_spec (w rest : list Z) {A} (s : A) : minFrameLen <= zlen w + zlen rest ->
  (if zlen w <? minFrameLen then frame ← on_slice (zlen w) minFrameLen (fun b => Some (replicate (length b) 0)) (w ++ rest); Some (minFrameLen, frame, s) else Some (zlen w, w ++ rest, s)) =
  Some (zlen (padded w), padded w ++ drop (Z.to_nat (minFrameLen - zlen w)) rest, s).
Proof.
  intros Hl. pose proof (zlen_nonneg w). unfold padded, padding. destruct (zlen w <? minFrameLen) eqn:E; to_prop.
  - rewrite <- (take_drop (Z.to_nat (minFrameLen - zlen w)) rest) at 1. set (a := take _ rest). assert (Ha : zlen a = minFrameLen - zlen w) by (unfold a; rewrite zlen_take; lia).
    rewrite (on_slice_mid w a (replicate (length a) 0)); [|done|by rewrite zlen_replicate|done|lia]. cbn [mbind option_bind]. rewrite zlen_app, zlen_replicate, <- app_assoc.
    replace (length a) with (Z.to_nat (minFrameLen - zlen w)) by (unfold zlen in *; lia). do 3 f_equal. lia.
  - replace (Z.to_nat (minFrameLen - zlen w)) with 0%nat by lia. cbn [replicate]. by rewrite app_nil_r, drop_0.
Qed.

Lemma chunk_of_len data m i : 0 < m -> 0 <= i -> i * m <= zlen data -> zlen (chunk_of data m i) = if m >? zlen data - i * m then zlen data - i * m else m.
Proof. intros Hm Hi Hd. unfold chunk_of. rewrite zlen_take, zlen_drop. destruct (Z.gtb_spec m (zlen data - i * m)); lia. Qed.

Lemma sg_next_spec link ip tcp data m k i s frame : segmenting link ip tcp data m k i s -> ipv4_ok ip -> tcp_ok tcp -> bytes_ok data -> 0 < m -> 0 <= i -> i * m <= zlen data ->
  zlen ip + zlen tcp + m < 2 ^ 16 -> minFrameLen <= zlen frame -> zlen link + zlen ip + zlen tcp + zlen (chunk_of data m i) <= zlen frame ->
  exists s', let w := padded (link ++ packet_of ip tcp (sg_src s) (sg_dst s) (chunk_of data m i) (seq_of (sg_seq0 s) m i) (flags_of (sg_flags s) k i)) in
    sg_next place frame s = Some (zlen w, w ++ drop (length w) frame, s') /\ segmenting link ip tcp data m k (i + 1) s'.
Proof.
  intros H Hip Htcp Hd Hm Hi Him Hlen Hmin Hfr. pose proof (i4_len _ Hip) as Hil. pose proof (t_len _ Htcp) as Htl. pose proof (zlen_nonneg link) as Hll. pose proof (chunk_of_len data m i Hm Hi Him) as Hn.
  set (chunk := chunk_of data m i) in *. pose proof (zlen_nonneg chunk). assert (Hcm : zlen chunk <= m) by (unfold chunk, chunk_of; rewrite zlen_take; lia). destruct (sm_tmpl _ _ _ _ _ _ _ _ H) as [junk Ht].
  assert (Hcb : bytes_ok chunk) by (by apply Forall_take, Forall_drop). destruct (SourceAddress_ok ip ltac:(lia) (i4_bytes _ Hip)) as (src & dst & Es & Ed & Bs & Bd).
  rewrite (sm_src _ _ _ _ _ _ _ _ H) in Es. rewrite (sm_dst _ _ _ _ _ _ _ _ H) in Ed. injection Es as <-. injection Ed as <-. set (src := sg_src s) in *. set (dst := sg_dst s) in *. set (q := seq_of (sg_seq0 s) m i). set (f := flags_of (sg_flags s) k i).
  assert (Hf : byte_ok f) by apply u8_range. destruct (cut_at (zlen link + zlen ip + zlen tcp + zlen chunk) frame) as (f1 & f2 & -> & L1); [lia|]. destruct (cut_at (zlen link + zlen ip + zlen tcp) f1) as (h & c & -> & L2); [lia|].
  rewrite zlen_app in L1. rewrite <- !app_assoc in *. unfold sg_next. cbv zeta. fold src dst. rewrite (sm_mss _ _ _ _ _ _ _ _ H), (sm_left _ _ _ _ _ _ _ _ H), (sm_hdrLen _ _ _ _ _ _ _ _ H), (sm_linkLen _ _ _ _ _ _ _ _ H), (sm_ipLen _ _ _ _ _ _ _ _ H), (sm_tcpLen _ _ _ _ _ _ _ _ H), (sm_seg _ _ _ _ _ _ _ _ H), (sm_nseg _ _ _ _ _ _ _ _ H).
  rewrite Z.max_r, <- Hn by lia. assert (Lz : zlen (ip_fields 0 0 ip) = zlen ip) by (apply zlen_ip_fields; lia).
  assert (Sh : slice 0 (zlen link + zlen ip + zlen tcp) (sg_tmpl s) = Some (link ++ ip_fields 0 0 ip ++ tcp)).
  { rewrite Ht. replace (link ++ ip_fields 0 0 ip ++ tcp ++ junk) with ((link ++ ip_fields 0 0 ip ++ tcp) ++ junk) by (by rewrite <- !app_assoc). rewrite <- slice_pre with (b := junk). f_equal. rewrite !zlen_app. lia. }
  rewrite Sh. cbn [mbind option_bind]. pose proof (copy_from_fits 0 (link ++ ip_fields 0 0 ip ++ tcp) [] h (c ++ f2) eq_refl ltac:(apply zlen_same; rewrite !zlen_app; lia)) as C0. cbn [app] in C0. rewrite C0. clear C0. cbn [mbind option_bind]. rewrite <- !app_assoc.
  set (I := ip_out ip (zlen ip + zlen tcp + zlen chunk)). assert (LI : zlen I = zlen ip) by (apply zlen_ip_fields; lia).
  rewrite (on_slice_post link (ip_fields 0 0 ip ++ tcp ++ c ++ f2) (I ++ tcp ++ c ++ f2)); [|apply setIPLength_spec; [apply H|apply Hip|lia|lia]|rewrite !zlen_app; lia|done|rewrite !zlen_app; lia].
  cbn [mbind option_bind]. fold (flags_of (sg_flags s) k i). fold f. rewrite u32_add_r. fold (seq_of (sg_seq0 s) m i). fold q. set (T0 := blit 13 [f] (blit 4 (be_bytes 4 q) tcp)).
  assert (L0 : zlen T0 = zlen tcp) by (unfold T0; rewrite !zlen_blit; rewrite ?zlen_be_bytes, ?zlen_cons, ?zlen_nil; rewrite ?zlen_blit; rewrite ?zlen_be_bytes; lia). rewrite (app_assoc link I).
  rewrite (on_slice_post (link ++ I) (tcp ++ c ++ f2) (T0 ++ c ++ f2)); [|apply tcp_marks; lia|rewrite !zlen_app; lia|rewrite zlen_app; lia|rewrite !zlen_app; lia].
  cbn [mbind option_bind]. rewrite slice_Some by (rewrite ?zlen_app; pose proof (zlen_nonneg f2); lia). cbn [mbind option_bind].
  unfold copyTo. destruct (pc_copy_from_spec (pc_v (sg_cur s)) (zlen chunk) (pc_off (sg_cur s)) ltac:(lia)) as (c' & Ec & C1 & C2); [pose proof (sm_cur _ _ _ _ _ _ _ _ H) as Hc; by destruct (sg_cur s)|].
  assert (Hcr : cursor_rest (mkCursor (pc_v (sg_cur s)) (pc_off (sg_cur s))) = drop (Z.to_nat (i * m)) data) by (pose proof (sm_rest _ _ _ _ _ _ _ _ H) as Hc; by destruct (sg_cur s)). rewrite Hcr in *.
  assert (Hk : take (Z.to_nat (zlen chunk)) (drop (Z.to_nat (i * m)) data) = chunk) by (unfold chunk, chunk_of, zlen; rewrite Nat2Z.id, length_take; rewrite <- take_take; by rewrite (take_ge (drop _ data) (length (drop _ data)))).
  rewrite Ec, Hk. cbn [mbind option_bind]. rewrite (app_assoc (link ++ I) T0). replace (zlen link + zlen ip + zlen tcp) with (zlen ((link ++ I) ++ T0)) by (rewrite !zlen_app; lia).
  rewrite blit_app_mid by (apply zlen_same; lia). rewrite Z.eqb_refl. cbn [negb mbind option_bind]. rewrite <- (app_assoc (link ++ I) T0).
  rewrite (on_slice_post (link ++ I) (T0 ++ chunk ++ f2) (tcp_fields q f 0 tcp ++ chunk ++ f2)); [|apply tcp_zero; lia|rewrite !zlen_app, zlen_tcp_fields; lia|rewrite zlen_app; lia|rewrite !zlen_app; lia].
  cbn [mbind option_bind]. set (seg := tcp_fields q f 0 tcp ++ chunk). assert (Hsb : bytes_ok seg) by (apply Forall_app; split; [apply bytes_ok_tcp_fields; [apply Htcp|done]|done]).
  assert (Lsg : zlen seg = zlen tcp + zlen chunk) by (unfold seg; rewrite zlen_app, zlen_tcp_fields; lia). rewrite (u16_small (zlen tcp + zlen chunk)) by lia.
  destruct (segment_sum src dst seg Bs Bd Hsb ltac:(lia)) as (x & Ex & Ey). rewrite Lsg in Ex. rewrite Ex. cbn [mbind option_bind].
  assert (Ss : slice (zlen link + zlen ip) (zlen ((link ++ I) ++ T0) + zlen chunk) ((link ++ I) ++ tcp_fields q f 0 tcp ++ chunk ++ f2) = Some seg).
  { replace (tcp_fields q f 0 tcp ++ chunk ++ f2) with (seg ++ f2) by (unfold seg; by rewrite <- app_assoc). rewrite <- (slice_app_mid (link ++ I) seg f2). f_equal; rewrite !zlen_app; lia. }
  rewrite Ss. cbn [mbind option_bind]. rewrite Ey. cbn [mbind option_bind]. set (T := tcp_out src dst tcp q f chunk). assert (LT : zlen T = zlen tcp) by (apply zlen_tcp_fields; lia).
  rewrite (on_slice_post (link ++ I) (tcp_fields q f 0 tcp ++ chunk ++ f2) (T ++ chunk ++ f2)); [|apply tcp_finish; (done || lia || apply Htcp)|rewrite !zlen_app, zlen_tcp_fields; lia|rewrite zlen_app; lia|rewrite !zlen_app, zlen_tcp_fields; lia].
  cbn [mbind option_bind]. set (w := link ++ packet_of ip tcp src dst chunk q f). assert (Hw : (link ++ I) ++ T ++ chunk ++ f2 = w ++ f2) by (unfold w, packet_of; by rewrite <- !app_assoc).
  assert (Lw : zlen w = zlen ((link ++ I) ++ T0) + zlen chunk) by (unfold w, packet_of; fold I T; rewrite !zlen_app; lia). rewrite Hw, <- Lw. rewrite pad_spec by (rewrite Lw, !zlen_app in *; lia).
  assert (Hd2 : drop (length (padded w)) (h ++ c ++ f2) = drop (Z.to_nat (minFrameLen - zlen w)) f2).
  { rewrite app_assoc. unfold padded, padding. rewrite length_app, length_replicate. rewrite drop_app_ge by (rewrite length_app; rewrite !zlen_app in Lw; unfold zlen in *; lia).
    f_equal. rewrite length_app. rewrite !zlen_app in Lw. unfold zlen in *. lia. }
  eexists. cbv zeta. fold w. rewrite Hd2. split; [done|]. destruct H as [H1 H2 H3 H4 H5 H6 H7 H8 H9 H10 H11 H12 H13 H14 H15 H16 H17].
  split; cbn [sg_advance sg_tmpl sg_hdrLen sg_linkLen sg_ipLen sg_tcpLen sg_mss sg_left sg_seg sg_nseg sg_seq0 sg_flags sg_src sg_dst sg_cur sg_ipCsumBase]; try done.
  - rewrite Hn. destruct (Z.gtb_spec m (zlen data - i * m)); lia.
  - lia.
  - rewrite C2, drop_drop. destruct (Z.gtb_spec m (zlen data - i * m)).
    + rewrite !drop_ge; [done|unfold zlen in *; lia|unfold zlen in *; lia].
    + f_equal. lia.
Qed.
End run.
