(* ===== verification/NetTx.v ===== *)
(** The transmit path of the network adapter: netstack/tx.go, over whichever
    queue the device has ([TxQueue], packetio's interface in queue.go). *)

From stdpp Require Import prelude list numbers strings.
From S2P Require Import Prelude Desc Bytes Csum GvChecksum NetHeader NetPacket NetGso.

(** What transmit uses of a packetio.TxQueue.  A builder is given the index of
    a frame and its bytes; it returns a length, the bytes, and its own state. *)
Class TxQueue (Q : Type) := {
  tq_Err : Q -> option error;
  tq_NumCompleted : Q -> Z;
  tq_Complete : Z -> Q -> Q;
  tq_NumFreeSlots : Q -> Z;
  tq_NumFreeFrames : Q -> Z;
  tq_SendFunc : forall S : Type, Z -> (Z -> list Z -> S -> option (Z * list Z * S)) -> S -> Q -> option (Z * option error * S * Q) }.

Record copier := mkCopier {
  cp_pkts : list PacketBuffer;
  cp_segs : list Z;
  cp_p : Z;
  cp_frame : Z;
  cp_s : segmenter;
  cp_gso : bool }.

(** The endpoint, as far as transmitting goes. *)
Record txEndpoint := mkTx {
  e_linkLen : Z;
  e_DirectTx : bool;
  e_txClosed : bool;
  e_failed : option error;
  e_tx : Z;
  e_txDropped : Z;
  e_txWaited : Z;
  e_gsoPackets : Z;
  e_gsoFrames : Z }.

Definition e_count_gso (frames : Z) (e : txEndpoint) : txEndpoint :=
  mkTx (e_linkLen e) (e_DirectTx e) (e_txClosed e) (e_failed e) (e_tx e) (e_txDropped e) (e_txWaited e) (u64 (e_gsoPackets e + 1)) (u64 (e_gsoFrames e + frames)).
Definition e_count_tx (n : Z) (e : txEndpoint) : txEndpoint :=
  mkTx (e_linkLen e) (e_DirectTx e) (e_txClosed e) (e_failed e) (u64 (e_tx e + n)) (e_txDropped e) (e_txWaited e) (e_gsoPackets e) (e_gsoFrames e).
Definition e_count_dropped (n : Z) (e : txEndpoint) : txEndpoint :=
  mkTx (e_linkLen e) (e_DirectTx e) (e_txClosed e) (e_failed e) (e_tx e) (u64 (e_txDropped e + n)) (e_txWaited e) (e_gsoPackets e) (e_gsoFrames e).
Definition e_count_waited (e : txEndpoint) : txEndpoint :=
  mkTx (e_linkLen e) (e_DirectTx e) (e_txClosed e) (e_failed e) (e_tx e) (e_txDropped e) (u64 (e_txWaited e + 1)) (e_gsoPackets e) (e_gsoFrames e).

(** [fail]: the first failure is the one kept. *)
Definition e_fail (err : error) (e : txEndpoint) : txEndpoint :=
  match e_failed e with
  | Some _ => e
  | None => mkTx (e_linkLen e) (e_DirectTx e) (e_txClosed e) (Some err) (e_tx e) (e_txDropped e) (e_txWaited e) (e_gsoPackets e) (e_gsoFrames e)
  end.

(** The error of transmit, wrapped. *)
Definition transmit_error (err : error) : error :=
  match err with
  | Sentinel s | Wrap s _ => Wrap s "transmit queue"
  | Errorf _ => Errorf "transmit queue"
  end.

(** The loop of copyPacket. *)
Fixpoint copy_views (off n : Z) (frame : list Z) (vs : list (list Z)) : option (Z * list Z) :=
  match vs with
  | [] => Some (n, frame)
  | v :: vs =>
    if off >=? zlen v then copy_views (off - zlen v) n frame vs
    else s ← slice off (zlen v) v; '(frame, m) ← copy_from n s frame; copy_views 0 (n + m) frame vs
  end.

Definition copyPacket (frame : list Z) (pkt : PacketBuffer) : option (Z * list Z) :=
  let '(views, off) := AsViewList pkt in
  '(n, frame) ← copy_views off 0 frame views;
  if n <? minFrameLen then
    frame ← on_slice n minFrameLen (fun b => Some (replicate (length b) 0)) frame; Some (minFrameLen, frame)
  else Some (n, frame).

Section tx.
Context (place : list Z -> Z).

Definition build (i : Z) (frame : list Z) (st : copier * txEndpoint) : option (Z * list Z * (copier * txEndpoint)) :=
  let '(c, e) := st in
  if negb (i =? cp_frame c) then Some (0, frame, st)
  else
    pkt ← get_at (cp_p c) (cp_pkts c);
    n ← get_at (cp_p c) (cp_segs c);
    if n =? 1 then
      '(length, frame) ← copyPacket frame pkt;
      frame ← (if needsChecksum pkt then finishTCPChecksum place frame (e_linkLen e) else Some frame);
      Some (length, frame, (mkCopier (cp_pkts c) (cp_segs c) (cp_p c + 1) (cp_frame c + 1) (cp_s c) (cp_gso c), e))
    else
      '(s, pkts, e) ← (if cp_gso c then Some (cp_s c, cp_pkts c, e) else
         '(s, pkt) ← sg_init place pkt (e_linkLen e) (cp_s c); Some (s, <[Z.to_nat (cp_p c) := pkt]> (cp_pkts c), e_count_gso n e));
      '(length, frame, s) ← sg_next place frame s;
      Some (length, frame, (if sg_done s then mkCopier pkts (cp_segs c) (cp_p c + 1) (cp_frame c + 1) s false
                            else mkCopier pkts (cp_segs c) (cp_p c) (cp_frame c + 1) s true, e)).

(** [segments] of the packets, until no later one can fit. *)
Fixpoint segs_within (segs : list Z) (pkts : list PacketBuffer) (budget : Z) : list Z :=
  match pkts with
  | [] => segs
  | pkt :: pkts => let segs := segs ++ [segments pkt] in if zlen segs >=? budget then segs else segs_within segs pkts budget
  end.

Context {Q : Type} `{TxQueue Q}.

(** A transmit queue: the device's, and the builder kept with it. *)
Record txQueue := mkTxQueue { t_q : Q; t_builder : copier }.

Definition transmit (q : txQueue) (pkts : list PacketBuffer) (e : txEndpoint) : option (res Z * txQueue * txEndpoint) :=
  match tq_Err (t_q q) with
  | Some err => Some (Err err, q, e)
  | None =>
    let q := mkTxQueue (tq_Complete (tq_NumCompleted (t_q q)) (t_q q)) (t_builder q) in
    let budget := Z.min (tq_NumFreeSlots (t_q q)) (tq_NumFreeFrames (t_q q)) in
    if budget <=? 0 then Some (Ok 0, q, e)
    else
      let segs := segs_within [] pkts budget in
      let '(fitted, frames) := fit segs budget in
      if fitted =? 0 then Some (Ok 0, q, e)
      else
        pk ← slice 0 fitted pkts;
        sg ← slice 0 fitted segs;
        let c := mkCopier pk sg 0 0 (cp_s (t_builder q)) false in
        '(n, err, (c, e), dq) ← tq_SendFunc (copier * txEndpoint) frames build (c, e) (t_q q);
        let q := mkTxQueue dq (mkCopier [] [] (cp_p c) (cp_frame c) (cp_s c) (cp_gso c)) in
        let e := e_count_tx n e in
        match err with
        | Some err => Some (Err (transmit_error err), q, e)
        | None =>
          let '(sent, frames) := fit sg n in
          Some (Ok (if frames <? n then sent + 1 else sent), q, e)
        end
  end.

(** WritePackets from here on; [late] is what each look at the clock says of
    the deadline, and [waiting] that one has been set.  The result is the count
    and whether the stack is told ErrClosedForSend. *)
Fixpoint write_loop (fuel : nat) (list_ : list PacketBuffer) (sent : Z) (waiting : bool) (late : list bool) (q : txQueue) (e : txEndpoint) :
    option (Z * bool * txQueue * txEndpoint) :=
  match fuel with
  | O => None
  | S fuel =>
    if sent <? zlen list_ then
      rest ← slice sent (zlen list_) list_;
      '(r, q, e) ← transmit q rest e;
      match r with
      | Err err => Some (sent, true, q, e_count_dropped (zlen list_ - sent) (e_fail err e))
      | Ok n =>
        let sent := sent + n in
        if n >? 0 then write_loop fuel list_ sent waiting late q e
        else if e_DirectTx e then Some (sent, false, q, e_count_dropped (zlen list_ - sent) e)
        else if negb waiting then write_loop fuel list_ sent true late q (e_count_waited e)
        else match late with
             | [] => None
             | true :: _ => Some (sent, false, q, e_count_dropped (zlen list_ - sent) e)
             | false :: late => write_loop fuel list_ sent waiting late q e
             end
      end
    else Some (sent, false, q, e_count_dropped (zlen list_ - sent) e)
  end.

(** The queue of the batch's first packet. *)
Definition WritePackets (fuel : nat) (list_ : list PacketBuffer) (late : list bool) (txq : list txQueue) (e : txEndpoint) : option (Z * bool * list txQueue * txEndpoint) :=
  match list_ with
  | [] => Some (0, false, txq, e)
  | pkt :: _ =>
    if zlen txq =? 0 then None
    else
      let qi := pk_Hash pkt mod zlen txq in
      q ← get_at qi txq;
      if e_txClosed e then Some (0, true, txq, e)
      else '(sent, closed, q, e) ← write_loop fuel list_ 0 false late q e; Some (sent, closed, <[Z.to_nat qi := q]> txq, e)
  end.
End tx.
