(* ===== verification/NetTxThms.v ===== *)
(** The frames a batch becomes: copyPacket, finishTCPChecksum and the builder
    that SendFunc drives. *)

From stdpp Require Import prelude list numbers strings.
From S2P Require Import Prelude Bytes Csum GvChecksum NetHeader NetPacket NetGso NetGsoThms NetTx.

(** ** Budgets *)

Definition zsum (l : list Z) : Z := foldr Z.add 0 l.

Lemma zsum_app a b : zsum (a ++ b) = zsum a + zsum b.
Proof. induction a as [|x a IH]; cbn; [done|]. unfold zsum in *. lia. Qed.

Lemma zsum_pos l : Forall (fun s => 1 <= s) l -> zlen l <= zsum l.
Proof. induction 1 as [|x l Hx _ IH]; cbn; [done|]. rewrite zlen_cons. unfold zsum in IH. lia. Qed.

Lemma fit_from_spec segs : forall p f budget, 0 <= p -> f <= budget -> let '(p', f') := fit_from p f segs budget in
  p <= p' <= p + zlen segs /\ f' = f + zsum (take (Z.to_nat (p' - p)) segs) /\ f' <= budget /\ (p' = p + zlen segs \/ budget < f + zsum (take (Z.to_nat (p' - p + 1)) segs)).
Proof.
  induction segs as [|s segs IH]; intros p f budget Hp Hf; cbn [fit_from].
  - change (zlen []) with 0. rewrite take_nil. change (zsum []) with 0. split; [lia|]. split; [lia|]. split; [lia|]. left. lia.
  - rewrite zlen_cons. pose proof (zlen_nonneg segs). destruct (f + s >? budget) eqn:E; rewrite Z.gtb_ltb in E; to_prop.
    + rewrite Z.sub_diag. change (take (Z.to_nat (0 + 1)) (s :: segs)) with [s]. change (take (Z.to_nat 0) (s :: segs)) with (@nil Z). change (zsum []) with 0. change (zsum [s]) with (s + 0). split; [lia|]. split; [lia|]. split; [lia|]. right. lia.
    + specialize (IH (p + 1) (f + s) budget ltac:(lia) ltac:(lia)). destruct (fit_from (p + 1) (f + s) segs budget) as [p' f']. destruct IH as (I1 & I2 & I3 & I4).
      replace (Z.to_nat (p' - p)) with (S (Z.to_nat (p' - (p + 1)))) by lia. replace (Z.to_nat (p' - p + 1)) with (S (Z.to_nat (p' - (p + 1) + 1))) by lia. cbn [take]. change (zsum (s :: ?l)) with (s + zsum l).
      split; [lia|]. split; [lia|]. split; [lia|]. destruct I4; [left; lia|right; lia].
Qed.

(** The most packets, from the front, whose frames fit. *)
Lemma fit_spec segs budget : 0 <= budget -> let '(p, f) := fit segs budget in
  0 <= p <= zlen segs /\ f = zsum (take (Z.to_nat p) segs) /\ f <= budget /\ (p = zlen segs \/ budget < zsum (take (Z.to_nat (p + 1)) segs)).
Proof.
  intros Hb. pose proof (fit_from_spec segs 0 0 budget ltac:(lia) Hb) as F. unfold fit. destruct (fit_from 0 0 segs budget) as [p f]. rewrite Z.sub_0_r in F. destruct F as (F1 & F2 & F3 & F4). split; [lia|]. split; [lia|]. split; [done|]. destruct F4; [left|right]; lia.
Qed.

(** A packet counts as sent when any of its frames went out. *)
Definition packets_begun (segs : list Z) (n : Z) : Z := let '(sent, frames) := fit segs n in if frames <? n then sent + 1 else sent.

Lemma packets_begun_spec segs n : Forall (fun s => 1 <= s) segs -> 0 <= n <= zsum segs ->
  let p := packets_begun segs n in 0 <= p <= zlen segs /\ n <= zsum (take (Z.to_nat p) segs) /\ (p = 0 \/ zsum (take (Z.to_nat (p - 1)) segs) < n).
Proof.
  intros Hs Hn. cbv zeta. unfold packets_begun. pose proof (fit_spec segs n ltac:(lia)) as F. destruct (fit segs n) as [p f]. destruct F as (F1 & F2 & F3 & F4). destruct (f <? n) eqn:E; to_prop.
  - destruct F4 as [->|F4].
    { exfalso. rewrite take_ge in F2 by (unfold zlen; lia). lia. }
    assert (p < zlen segs). { destruct (decide (p = zlen segs)) as [->|]; [|lia]. exfalso. rewrite take_ge in F2, F4 by (unfold zlen; lia). lia. }
    rewrite Z.add_simpl_r. split; [lia|]. split; [lia|]. right. lia.
  - split; [lia|]. split; [lia|]. destruct (decide (p = 0)); [by left|]. right. assert (Ep : take (Z.to_nat p) segs = take (Z.to_nat (p - 1)) segs ++ take 1 (drop (Z.to_nat (p - 1)) segs)).
    { rewrite take_take_drop. f_equal. lia. }
    rewrite Ep, zsum_app in F2. assert (Hl : Forall (fun s => 1 <= s) (take 1 (drop (Z.to_nat (p - 1)) segs))) by (by apply Forall_take, Forall_drop). apply zsum_pos in Hl. rewrite zlen_take, zlen_drop in Hl. lia.
Qed.

Lemma segments_pos pk : 0 <= g_MSS (pk_GSO pk) -> 1 <= segments pk.
Proof.
  intros Hm. unfold segments. destruct (Z.eqb_spec (g_MSS (pk_GSO pk)) 0); [by rewrite orb_true_r|]. case_if; [lia|]. case_if; [lia|]. apply Z.div_le_lower_bound; lia.
Qed.

(** ** One packet, one frame *)

Lemma copy_from_here (w rest s : list Z) : zlen s <= zlen rest -> copy_from (zlen w) s (w ++ rest) = Some (w ++ s ++ drop (length s) rest, zlen s).
Proof.
  intros Hl. rewrite <- (take_drop (length s) rest) at 1. apply copy_from_fits; [done|]. rewrite length_take. unfold zlen in Hl. lia.
Qed.

Lemma copy_views_spec vs : forall off w rest, 0 <= off <= zlen (concat vs) -> zlen (drop (Z.to_nat off) (concat vs)) <= zlen rest ->
  let b := drop (Z.to_nat off) (concat vs) in copy_views off (zlen w) (w ++ rest) vs = Some (zlen w + zlen b, w ++ b ++ drop (length b) rest).
Proof.
  induction vs as [|v vs IH]; intros off w rest Ho Hl; cbv zeta in *; cbn [copy_views concat] in *.
  { rewrite drop_nil. cbn [app length]. rewrite drop_0. by rewrite Z.add_0_r. }
  rewrite zlen_app in Ho. destruct (off >=? zlen v) eqn:E; rewrite Z.geb_leb in E; to_prop.
  - rewrite drop_app_ge in * by (unfold zlen in *; lia). replace (Z.to_nat off - length v)%nat with (Z.to_nat (off - zlen v)) in * by (unfold zlen in *; lia). apply IH; lia.
  - rewrite slice_Some by lia. cbn [mbind option_bind]. rewrite take_ge by (rewrite length_drop; unfold zlen in *; lia). rewrite drop_app_le in * by (unfold zlen in *; lia). set (s := drop (Z.to_nat off) v) in *.
    rewrite zlen_app in Hl. pose proof (zlen_nonneg (concat vs)). rewrite copy_from_here by lia. cbn [mbind option_bind]. rewrite app_assoc. replace (zlen w + zlen s) with (zlen (w ++ s)) by (by rewrite zlen_app).
    specialize (IH 0 (w ++ s) (drop (length s) rest)). cbv zeta in IH. change (Z.to_nat 0) with 0%nat in IH. rewrite drop_0 in IH. rewrite IH; [|lia|rewrite zlen_drop; unfold zlen in *; lia]. rewrite !zlen_app, <- !app_assoc, drop_drop, length_app. do 2 f_equal. lia.
Qed.

Definition packet_bytes (pk : PacketBuffer) : list Z := drop (Z.to_nat (headerOffset pk)) (flat (pk_buf pk)).

Lemma copyPacket_spec frame pk : 0 <= headerOffset pk <= zlen (flat (pk_buf pk)) -> minFrameLen <= zlen frame -> zlen (packet_bytes pk) <= zlen frame ->
  let w := padded (packet_bytes pk) in copyPacket frame pk = Some (zlen w, w ++ drop (length w) frame).
Proof.
  intros Ho Hm Hl. cbv zeta. unfold copyPacket, AsViewList. pose proof (copy_views_spec (bu_data (pk_buf pk)) (headerOffset pk) [] frame Ho Hl) as C. cbn [app] in C. change (zlen []) with 0 in C. rewrite Z.add_0_l in C.
  fold (flat (pk_buf pk)) in C. fold (packet_bytes pk) in C. rewrite C. cbn [mbind option_bind]. set (b := packet_bytes pk) in *.
  pose proof (pad_spec b (drop (length b) frame) tt) as P. rewrite zlen_drop in P. specialize (P ltac:(unfold zlen in *; lia)).
  replace (drop (length (padded b)) frame) with (drop (Z.to_nat (minFrameLen - zlen b)) (drop (length b) frame)) by (rewrite drop_drop; unfold padded, padding; rewrite length_app, length_replicate; done).
  destruct (zlen b <? minFrameLen); [|by injection P as <- <-]. destruct (on_slice (zlen b) minFrameLen _ _); [|done]. cbn [mbind option_bind] in *. by injection P as <- <-.
Qed.

Lemma tcp_fields_same tcp q f : 20 <= zlen tcp -> bytes_ok tcp -> SequenceNumber tcp = Some q -> TCPFlags tcp = Some f -> blit 13 [f] (blit 4 (be_bytes 4 q) tcp) = tcp.
Proof.
  intros Hl Hb Hq Hf. destruct (cut20 tcp Hl) as (x0 & x1 & x2 & x3 & x4 & x5 & x6 & x7 & x8 & x9 & x10 & x11 & x12 & x13 & x14 & x15 & x16 & x17 & x18 & x19 & o & E).
  unfold SequenceNumber, get_be in Hq. rewrite slice_Some in Hq by lia. cbn [mbind option_bind] in Hq. injection Hq as <-. assert (Hx : bytes_ok (take (Z.to_nat (4 + Z.of_nat 4 - 4)) (drop (Z.to_nat 4) tcp))) by (by apply Forall_take, Forall_drop).
  apply be_bytes_val in Hx. rewrite E in *. change (length _) with 4%nat in Hx. rewrite Hx. change (TCPFlags _) with (Some x13) in Hf. injection Hf as <-. reflexivity.
Qed.

(** A builder asked for frame after frame, as SendFunc asks. *)
Fixpoint drive_with {St} (b : Z -> list Z -> St -> option (Z * list Z * St)) (i : Z) (fs : list (list Z)) (st : St) : option (list (Z * list Z) * St) :=
  match fs with
  | [] => Some ([], st)
  | f :: fs => '(n, f, st) ← b i f st; '(out, st) ← drive_with b (i + 1) fs st; Some ((n, f) :: out, st)
  end.

Lemma drive_app {St} b i fs fs' (st : St) : drive_with b i (fs ++ fs') st = ('(o1, st) ← drive_with b i fs st; '(o2, st) ← drive_with b (i + zlen fs) fs' st; Some (o1 ++ o2, st)).
Proof.
  revert i st. induction fs as [|f fs IH]; intros i st; cbn [app drive_with mbind option_bind].
  - change (zlen []) with 0. rewrite Z.add_0_r. destruct (drive_with b i fs' st) as [[o s]|]; done.
  - destruct (b i f st) as [[[n f'] st']|]; cbn [mbind option_bind]; [|done]. rewrite IH, zlen_cons, Z.add_assoc. destruct (drive_with b (i + 1) fs st') as [[o1 s1]|]; cbn [mbind option_bind]; [|done].
    destruct (drive_with b (i + 1 + zlen fs) fs' s1) as [[o2 s2]|]; done.
Qed.

Section wire.
Context (place : list Z -> Z).

Lemma finishTCPChecksum_spec link ip tcp data q f src dst rest : ipv4_ok ip -> tcp_ok tcp -> bytes_ok data -> zlen ip + zlen tcp + zlen data < 2 ^ 16 ->
  ip_out ip (zlen ip + zlen tcp + zlen data) = ip -> SequenceNumber tcp = Some q -> TCPFlags tcp = Some f -> SourceAddress ip = Some src -> DestinationAddress ip = Some dst ->
  finishTCPChecksum place ((link ++ ip ++ tcp ++ data) ++ rest) (zlen link) = Some ((link ++ packet_of ip tcp src dst data q f) ++ rest).
Proof.
  intros Hip Htcp Hd Hlen Hout Hq Hf Hs Hds. pose proof (i4_len _ Hip). pose proof (t_len _ Htcp). pose proof (zlen_nonneg link). pose proof (zlen_nonneg data). pose proof (zlen_nonneg rest).
  destruct (SourceAddress_ok ip ltac:(lia) (i4_bytes _ Hip)) as (src' & dst' & Es & Ed & Bs & Bd). rewrite Hs in Es. rewrite Hds in Ed. injection Es as <-. injection Ed as <-.
  pose proof (proj1 (wsum_range _ (bytes_ok_ip_fields 0 0 ip (i4_bytes _ Hip)))) as Wz. set (total := zlen ip + zlen tcp + zlen data) in *.
  assert (Hrd : forall Y, HeaderLength (ip ++ Y) = HeaderLength ip /\ TotalLength (ip ++ Y) = Some total /\ SourceAddress (ip ++ Y) = SourceAddress ip /\ DestinationAddress (ip ++ Y) = DestinationAddress ip).
  { intros Y. destruct (ip_fields_read ip total (ip_ck ip total) Y ltac:(lia) ltac:(unfold total in *; lia) ltac:(apply ones_ck; unfold total in *; lia)) as (R1 & R2 & _ & _ & R5 & R6 & _). fold (ip_out ip total) in *. rewrite Hout in *. done. }
  assert (Bf : byte_ok f). { unfold TCPFlags in Hf. rewrite get_at_lookup in Hf by lia. exact (proj1 (Forall_lookup _ _) (t_bytes _ Htcp) _ _ Hf). }
  pose proof (tcp_fields_same tcp q f ltac:(lia) (t_bytes _ Htcp) Hq Hf) as Et. rewrite <- !app_assoc. unfold finishTCPChecksum.
  rewrite (slice_post link) by (rewrite zlen_app; lia). cbn [mbind option_bind]. destruct (Hrd (tcp ++ data ++ rest)) as (-> & -> & _). rewrite (i4_ihl _ Hip). cbn [mbind option_bind].
  replace (total - zlen ip) with (zlen tcp + zlen data) by (unfold total; lia). rewrite (proj2 (Z.ltb_ge _ TCPMinimumSize)), Z.gtb_ltb, (proj2 (Z.ltb_ge (zlen (link ++ _)) _)) by (unfold TCPMinimumSize; rewrite ?zlen_app; lia). cbn [orb].
  set (seg := tcp_fields q f 0 tcp ++ data). assert (Lsg : zlen seg = zlen tcp + zlen data) by (unfold seg; rewrite zlen_app, zlen_tcp_fields; lia).
  replace (link ++ ip ++ tcp ++ data ++ rest) with ((link ++ ip) ++ (tcp ++ data) ++ rest) by (by rewrite <- !app_assoc).
  rewrite (on_slice_mid (link ++ ip) (tcp ++ data) seg rest); [|unfold seg; rewrite <- Et at 1; apply tcp_zero; lia|rewrite Lsg, zlen_app; lia|rewrite zlen_app; lia|rewrite !zlen_app; lia]. cbn [mbind option_bind].
  replace ((link ++ ip) ++ seg ++ rest) with (link ++ ip ++ seg ++ rest) by (by rewrite <- !app_assoc). rewrite (slice_post link) by (rewrite zlen_app; lia). cbn [mbind option_bind]. destruct (Hrd (seg ++ rest)) as (_ & _ & -> & ->).
  rewrite Hs, Hds. cbn [mbind option_bind]. rewrite (u16_small (zlen tcp + zlen data)) by (unfold total in *; lia). assert (Hsb : bytes_ok seg) by (apply Forall_app; split; [apply bytes_ok_tcp_fields; [apply Htcp|done]|done]).
  destruct (segment_sum place src dst seg Bs Bd Hsb ltac:(unfold total in *; lia)) as (x & Ex & Ey). rewrite Lsg in Ex. rewrite Ex. cbn [mbind option_bind]. rewrite (app_assoc link ip).
  assert (Ss : slice (zlen link + zlen ip) (zlen link + zlen ip + (zlen tcp + zlen data)) ((link ++ ip) ++ seg ++ rest) = Some seg) by (rewrite <- Lsg, <- (zlen_app link ip); apply slice_app_mid). rewrite Ss. cbn [mbind option_bind]. rewrite Ey. cbn [mbind option_bind].
  rewrite (on_slice_mid (link ++ ip) seg (tcp_out src dst tcp q f data ++ data) rest); [|unfold seg; apply tcp_finish; (done || lia || apply Htcp)|rewrite Lsg, zlen_app; unfold tcp_out; rewrite zlen_tcp_fields; lia|rewrite zlen_app; lia|rewrite !zlen_app; lia].
  unfold packet_of. fold total. rewrite Hout. by rewrite <- !app_assoc.
Qed.

(** ** Packets and their frames *)

Inductive wire (linkLen : Z) : PacketBuffer -> list (list Z) -> Prop :=
| wire_plain pk : segments pk = 1 -> needsChecksum pk = false -> 0 <= headerOffset pk <= zlen (flat (pk_buf pk)) -> wire linkLen pk [padded (packet_bytes pk)]
| wire_tcp pk link ip tcp data q f src dst :
    segments pk = 1 -> needsChecksum pk = true -> outgoing pk link ip tcp data -> zlen link = linkLen ->
    ipv4_ok ip -> tcp_ok tcp -> bytes_ok data -> zlen ip + zlen tcp + zlen data < 2 ^ 16 -> ip_out ip (zlen ip + zlen tcp + zlen data) = ip ->
    SequenceNumber tcp = Some q -> TCPFlags tcp = Some f -> SourceAddress ip = Some src -> DestinationAddress ip = Some dst ->
    wire linkLen pk [padded (link ++ packet_of ip tcp src dst data q f)]
| wire_gso pk link ip tcp data q f src dst m k :
    segments pk = k -> 1 < k -> m = g_MSS (pk_GSO pk) -> 0 < m -> outgoing pk link ip tcp data -> zlen link = linkLen -> linkLen <= vlanHdrLen ->
    ipv4_ok ip -> tcp_ok tcp -> bytes_ok data -> zlen ip + zlen tcp + m < 2 ^ 16 ->
    SequenceNumber tcp = Some q -> TCPFlags tcp = Some f -> SourceAddress ip = Some src -> DestinationAddress ip = Some dst ->
    wire linkLen pk (map (fun i => padded (link ++ packet_of ip tcp src dst (chunk_of data m i) (seq_of q m i) (flags_of f k i))) (seqZ 0 k)).

(** The builder asked for frame after frame. *)
Notation drive := (drive_with (build place)).

(** The frame holds [w] and its length is reported. *)
Definition holds (o : Z * list Z) (w : list Z) : Prop := fst o = zlen w /\ take (length w) (snd o) = w.

Lemma holds_put w rest : holds (zlen w, w ++ rest) w.
Proof. split; [done|]. cbn [snd]. apply take_app_length. Qed.

(** ** One segmented packet *)

Lemma padded_len b : zlen b <= zlen (padded b).
Proof. unfold padded. rewrite zlen_app. pose proof (zlen_nonneg (padding (zlen b))). lia. Qed.

Lemma segments_bound pk m k : segments pk = k -> 1 < k -> m = g_MSS (pk_GSO pk) -> 0 < m -> (k - 1) * m < Data_Size pk <= k * m.
Proof.
  intros Hk H1 -> Hm. unfold segments in Hk. case_if_in Hk; [lia|]. case_if_in Hk; [lia|]. set (d := Data_Size pk) in *. set (m := g_MSS (pk_GSO pk)) in *.
  pose proof (Z.div_mod (d + m - 1) m ltac:(lia)) as D. pose proof (Z.mod_pos_bound (d + m - 1) m ltac:(lia)). rewrite Hk in D. lia.
Qed.

Definition big_enough (w : Z) (f : list Z) : Prop := minFrameLen <= zlen f /\ w <= zlen f.

Lemma seg_step link ip tcp data m k i s frame q f src dst : segmenting link ip tcp data m k i s -> ipv4_ok ip -> tcp_ok tcp -> bytes_ok data -> 0 < m -> 0 <= i -> i * m <= zlen data ->
  zlen ip + zlen tcp + m < 2 ^ 16 -> SequenceNumber tcp = Some q -> TCPFlags tcp = Some f -> SourceAddress ip = Some src -> DestinationAddress ip = Some dst ->
  let w := padded (link ++ packet_of ip tcp src dst (chunk_of data m i) (seq_of q m i) (flags_of f k i)) in
  big_enough (zlen w) frame -> exists o s', sg_next place frame s = Some (fst o, snd o, s') /\ holds o w /\ segmenting link ip tcp data m k (i + 1) s'.
Proof.
  intros H Hip Htcp Hd Hm Hi Him Hlen Hq Hf Hs Hds w [B1 B2]. pose proof (i4_len _ Hip). pose proof (t_len _ Htcp).
  rewrite (sm_seq0 _ _ _ _ _ _ _ _ H) in Hq. rewrite (sm_flags _ _ _ _ _ _ _ _ H) in Hf. rewrite (sm_src _ _ _ _ _ _ _ _ H) in Hs. rewrite (sm_dst _ _ _ _ _ _ _ _ H) in Hds. injection Hq as <-. injection Hf as <-. injection Hs as <-. injection Hds as <-.
  destruct (sg_next_spec place link ip tcp data m k i s frame) as (s' & E & S'); try done.
  { etransitivity; [|exact B2]. etransitivity; [|apply padded_len]. rewrite zlen_app, zlen_packet_of by lia. lia. }
  cbv zeta in E. fold w in E. exists (zlen w, w ++ drop (length w) frame), s'. cbn [fst snd]. split_and!; [done|apply holds_put|done].
Qed.

Section one_packet.
Context (link ip tcp data src dst : list Z) (m k q f : Z).
Context (Hip : ipv4_ok ip) (Htcp : tcp_ok tcp) (Hd : bytes_ok data) (Hm : 0 < m) (Hlen : zlen ip + zlen tcp + m < 2 ^ 16).
Context (Hq : SequenceNumber tcp = Some q) (Hf : TCPFlags tcp = Some f) (Hs : SourceAddress ip = Some src) (Hds : DestinationAddress ip = Some dst).
Context (Hk : 1 < k) (Hdata : (k - 1) * m < zlen data).

Definition frame_of (i : Z) : list Z := padded (link ++ packet_of ip tcp src dst (chunk_of data m i) (seq_of q m i) (flags_of f k i)).

(** A segment out of a segmenter that is under way. *)
Lemma build_segment i fi p pkts segs pkt s e frame : get_at p pkts = Some pkt -> get_at p segs = Some k -> segmenting link ip tcp data m k i s -> 0 <= i < k -> big_enough (zlen (frame_of i)) frame ->
  exists o s', build place fi frame (mkCopier pkts segs p fi s true, e) =
      Some (fst o, snd o, (if i + 1 =? k then mkCopier pkts segs (p + 1) (fi + 1) s' false else mkCopier pkts segs p (fi + 1) s' true, e)) /\
    holds o (frame_of i) /\ segmenting link ip tcp data m k (i + 1) s'.
Proof using All.
  intros Hp Hg Hseg Hi Hb. destruct (seg_step link ip tcp data m k i s frame q f src dst) as (o & s' & E & Ho & S'); try done; [lia|nia|]. exists o, s'. split; [|done].
  unfold build. cbn [cp_frame cp_p cp_pkts cp_segs cp_gso cp_s]. rewrite Z.eqb_refl, Hp. cbn [negb mbind option_bind]. rewrite Hg. cbn [mbind option_bind]. rewrite (proj2 (Z.eqb_neq k 1)) by lia. cbn [mbind option_bind]. rewrite E. cbn [mbind option_bind].
  unfold sg_done. rewrite (sm_seg _ _ _ _ _ _ _ _ S'), (sm_nseg _ _ _ _ _ _ _ _ S'), Z.geb_leb. destruct (Z.leb_spec k (i + 1)), (Z.eqb_spec (i + 1) k); try lia; done.
Qed.

Lemma drive_segments fs : forall i fi p pkts segs pkt s e, get_at p pkts = Some pkt -> get_at p segs = Some k -> segmenting link ip tcp data m k i s -> 0 <= i -> i + zlen fs = k -> fs <> [] ->
  (forall j f, 0 <= j < k -> f ∈ fs -> big_enough (zlen (frame_of j)) f) ->
  exists out s', drive fi fs (mkCopier pkts segs p fi s true, e) = Some (out, (mkCopier pkts segs (p + 1) (fi + zlen fs) s' false, e)) /\
    Forall2 holds out (map frame_of (seqZ i (zlen fs))) /\ zlen (sg_tmpl s') = maxHeaderTemplate.
Proof using All.
  induction fs as [|fr fs IH]; intros i fi p pkts segs pkt s e Hp Hg Hseg Hi Hz Hne Hb; [done|]. rewrite zlen_cons in *. pose proof (zlen_nonneg fs).
  destruct (build_segment i fi p pkts segs pkt s e fr Hp Hg Hseg ltac:(lia) ltac:(apply Hb; [lia|by left])) as (o & s' & E & Ho & S'). cbn [drive_with]. rewrite E. cbn [mbind option_bind]. rewrite (seqZ_cons i) by lia. cbn [map].
  destruct (Z.eqb_spec (i + 1) k) as [Ek|Ek].
  - assert (fs = []) as -> by (destruct fs; [done|rewrite zlen_cons in Hz; pose proof (zlen_nonneg fs); lia]). cbn [drive_with mbind option_bind]. change (zlen []) with 0. exists [o], s'. split; [by destruct o|]. split; [|apply S'].
    rewrite seqZ_nil by lia. constructor; [done|constructor].
  - destruct (IH (i + 1) (fi + 1) p pkts segs pkt s' e Hp Hg S' ltac:(lia) ltac:(lia)) as (out & s2 & E2 & F2 & T2); [intros ->; change (zlen []) with 0 in *; lia|intros j f' Hj Hin; apply Hb; [done|by right]|].
    rewrite E2. cbn [mbind option_bind]. exists (o :: out), s2. split; [destruct o; do 3 f_equal; f_equal; lia|]. split; [|done]. replace (Z.pred (1 + zlen fs)) with (zlen fs) by lia. replace (Z.succ i) with (i + 1) by lia. by constructor.
Qed.
End one_packet.

(** The builder between two packets: before packet [p] and frame [fi]. *)
Definition between (p fi : Z) (pkts : list PacketBuffer) (segs : list Z) (c : copier) : Prop :=
  cp_pkts c = pkts /\ cp_segs c = segs /\ cp_p c = p /\ cp_frame c = fi /\ cp_gso c = false /\ zlen (sg_tmpl (cp_s c)) = maxHeaderTemplate.

Lemma between_eq p fi pkts segs c : between p fi pkts segs c -> c = mkCopier pkts segs p fi (cp_s c) false.
Proof. intros (H1 & H2 & H3 & H4 & H5 & _). destruct c. cbn in *. by subst. Qed.

(** What follows packet [p] in the batch is as it was. *)
Definition same_after (p : Z) (pkts pkts' : list PacketBuffer) : Prop := forall j, p < j -> get_at j pkts' = get_at j pkts.

Lemma drive_one fr p fi pkts segs c e pk w : between p fi pkts segs c -> get_at p pkts = Some pk -> get_at p segs = Some 1 -> segments pk = 1 ->
  (needsChecksum pk = false -> copyPacket fr pk = Some (zlen w, w ++ drop (length w) fr)) ->
  (needsChecksum pk = true -> exists fr', copyPacket fr pk = Some (zlen w, fr') /\ finishTCPChecksum place fr' (e_linkLen e) = Some (w ++ drop (length w) fr)) ->
  exists out c', drive fi [fr] (c, e) = Some (out, (c', e)) /\ Forall2 holds out [w] /\ between (p + 1) (fi + 1) pkts segs c'.
Proof.
  intros Hb Hp Hg Hone Hn Hy. pose proof (between_eq _ _ _ _ _ Hb) as Ec. assert (E : build place fi fr (c, e) = Some (zlen w, w ++ drop (length w) fr, (mkCopier pkts segs (p + 1) (fi + 1) (cp_s c) false, e))).
  { rewrite Ec at 1. unfold build. cbn [cp_frame cp_p cp_pkts cp_segs cp_gso cp_s]. rewrite Z.eqb_refl, Hp. cbn [negb mbind option_bind]. rewrite Hg. cbn [mbind option_bind]. change (1 =? 1) with true. cbv match.
    destruct (needsChecksum pk); [destruct (Hy eq_refl) as (fr' & -> & F); cbn [mbind option_bind]; rewrite F|rewrite (Hn eq_refl)]; done. }
  exists [(zlen w, w ++ drop (length w) fr)], (mkCopier pkts segs (p + 1) (fi + 1) (cp_s c) false). cbn [drive_with]. rewrite E. cbn [mbind option_bind]. split; [done|]. split; [constructor; [apply holds_put|constructor]|].
  split_and!; try done. apply Hb.
Qed.

Lemma drive_packet pk ws : forall fs p fi pkts segs c e, wire (e_linkLen e) pk ws -> between p fi pkts segs c -> 0 <= p -> get_at p pkts = Some pk -> get_at p segs = Some (segments pk) ->
  length fs = length ws -> (forall w f, w ∈ ws -> f ∈ fs -> big_enough (zlen w) f) ->
  exists out c' e' pkts', drive fi fs (c, e) = Some (out, (c', e')) /\ Forall2 holds out ws /\ between (p + 1) (fi + zlen fs) pkts' segs c' /\ same_after p pkts pkts' /\ length pkts' = length pkts /\ e_linkLen e' = e_linkLen e.
Proof.
  intros fs p fi pkts segs c e W Hb Hp0 Hp Hg Hl Hbig. destruct W as [pk H1 H2 H3|pk link ip tcp data q f src dst H1 H2 H3 H4 H5 H6 H7 H8 H9 H10 H11 H12 H13|pk link ip tcp data q f src dst m k H1 H2 H3 H4 H5 H6 H7 H8 H9 H10 H11 H12 H13 H14 H15].
  - destruct fs as [|fr [|? ?]]; try discriminate. rewrite H1 in Hg. destruct (Hbig (padded (packet_bytes pk)) fr) as [B1 B2]; [by left|by left|]. pose proof (padded_len (packet_bytes pk)).
    destruct (drive_one fr p fi pkts segs c e pk (padded (packet_bytes pk)) Hb Hp Hg H1) as (out & c' & E & F & Bt); [intros _; apply copyPacket_spec; (done || lia)|by rewrite H2|]. exists out, c', e, pkts. by split_and!.
  - destruct fs as [|fr [|? ?]]; try discriminate. rewrite H1 in Hg. set (b := link ++ packet_of ip tcp src dst data q f) in *. destruct (Hbig (padded b) fr) as [B1 B2]; [by left|by left|]. pose proof (padded_len b). pose proof (i4_len _ H5). pose proof (t_len _ H6).
    pose proof (og_bytes _ _ _ _ _ H3) as Eb. fold (packet_bytes pk) in Eb. assert (Lb : zlen (packet_bytes pk) = zlen b) by (unfold b; rewrite Eb, !zlen_app, zlen_packet_of by lia; lia).
    destruct (drive_one fr p fi pkts segs c e pk (padded b) Hb Hp Hg H1) as (out & c' & E & F & Bt); [by rewrite H2| |exists out, c', e, pkts; by split_and!].
    intros _. pose proof (og_room _ _ _ _ _ H3). pose proof (og_pushed _ _ _ _ _ H3). pose proof (zlen_nonneg link). eexists. split; [rewrite copyPacket_spec; [|unfold headerOffset; lia|done|lia]|].
    + assert (Lp : zlen (padded (packet_bytes pk)) = zlen (padded b)) by (unfold padded; rewrite !zlen_app, Lb; done). rewrite Lp. done.
    + unfold padded at 1. rewrite <- app_assoc, Eb, <- H4, (finishTCPChecksum_spec link ip tcp data q f src dst) by done. fold b. unfold padded. rewrite <- Eb, Lb, <- app_assoc. do 4 f_equal.
      rewrite !length_app. unfold zlen in Lb. lia.
  - pose proof (segments_bound pk m k H1 H2 H3 H4) as [SB1 SB2]. rewrite (outgoing_Data_Size _ _ _ _ _ H5) in SB1, SB2. rewrite H1 in Hg. rewrite length_map, length_seqZ in Hl. destruct fs as [|fr fs]; [cbn in Hl; lia|].
    assert (Hbig' : forall j f', 0 <= j < k -> f' ∈ fr :: fs -> big_enough (zlen (frame_of link ip tcp data src dst m k q f j)) f').
    { intros j f' Hj Hin. apply Hbig; [|done]. apply list_elem_of_fmap. exists j. split; [done|]. apply elem_of_seqZ. lia. }
    pose proof Hb as (_ & _ & _ & _ & _ & Htm). destruct (sg_init_spec place pk link ip tcp data (cp_s c) H5 H8 H9 ltac:(lia) Htm) as (s0 & b & Ei & _ & S0). rewrite <- H3, H1 in S0.
    assert (Hlt : (Z.to_nat p < length pkts)%nat) by (rewrite get_at_lookup in Hp by lia; by eapply lookup_lt_Some).
    set (pkts' := <[Z.to_nat p := with_buf b pk]> pkts). assert (Hp' : get_at p pkts' = Some (with_buf b pk)) by (rewrite get_at_lookup by lia; by apply list_lookup_insert_eq).
    destruct (drive_segments link ip tcp data src dst m k q f H8 H9 H10 H4 H11 H12 H13 H14 H15 H2 SB1 (fr :: fs) 0 fi p pkts' segs (with_buf b pk) s0 (e_count_gso k e) Hp' Hg S0 ltac:(lia)) as (out & s' & E & F & T); [unfold zlen; cbn in *; lia|done|done|].
    exists out, (mkCopier pkts' segs (p + 1) (fi + zlen (fr :: fs)) s' false), (e_count_gso k e), pkts'. split; [|split_and!; try done].
    + rewrite <- E. cbn [drive_with]. f_equal. rewrite (between_eq _ _ _ _ _ Hb). unfold build. cbn [cp_frame cp_p cp_pkts cp_segs cp_gso cp_s]. rewrite Z.eqb_refl, Hp, Hp'. cbn [negb mbind option_bind]. rewrite Hg. cbn [mbind option_bind]. rewrite (proj2 (Z.eqb_neq k 1)) by lia.
      rewrite <- H6, Ei. reflexivity.
    + replace (zlen (fr :: fs)) with k in F by (unfold zlen; cbn in *; lia). done.
    + intros j Hj. rewrite !get_at_lookup by lia. apply list_lookup_insert_ne. lia.
    + apply length_insert.
Qed.

Lemma drop_cons_get {A} p (l : list A) x r : 0 <= p -> drop (Z.to_nat p) l = x :: r -> get_at p l = Some x /\ drop (Z.to_nat (p + 1)) l = r.
Proof.
  intros Hp E. rewrite get_at_lookup by done. pose proof (lookup_drop l (Z.to_nat p) 0) as L. rewrite E, Nat.add_0_r in L. cbn in L. split; [done|].
  replace (Z.to_nat (p + 1)) with (Z.to_nat p + 1)%nat by lia. rewrite <- drop_drop, E. by rewrite skipn_cons, drop_0.
Qed.

Lemma same_after_drop p pkts pkts' : 0 <= p -> same_after p pkts pkts' -> drop (Z.to_nat (p + 1)) pkts' = drop (Z.to_nat (p + 1)) pkts.
Proof.
  intros Hp H. apply list_eq. intros i. rewrite !lookup_drop. specialize (H (p + 1 + Z.of_nat i) ltac:(lia)). rewrite !get_at_lookup in H by lia. replace (Z.to_nat (p + 1) + i)%nat with (Z.to_nat (p + 1 + Z.of_nat i)) by lia. done.
Qed.

Lemma drive_batch pks wss : forall fs p fi pkts segs c e, Forall2 (wire (e_linkLen e)) pks wss -> between p fi pkts segs c -> 0 <= p -> drop (Z.to_nat p) pkts = pks -> drop (Z.to_nat p) segs = map segments pks ->
  length fs = length (concat wss) -> (forall w f, w ∈ concat wss -> f ∈ fs -> big_enough (zlen w) f) ->
  exists out c' e', drive fi fs (c, e) = Some (out, (c', e')) /\ Forall2 holds out (concat wss) /\ cp_frame c' = fi + zlen fs /\ cp_gso c' = false.
Proof.
  revert wss. induction pks as [|pk pks IH]; intros wss fs p fi pkts segs c e HW Hb Hp Ep Es Hl Hbig.
  - apply Forall2_nil_inv_l in HW as ->. destruct fs; [|discriminate]. exists [], c, e. cbn [drive_with]. destruct Hb as (_ & _ & _ & Hf & Hg & _). change (zlen []) with 0. split; [done|]. split; [constructor|]. split; [lia|done].
  - apply Forall2_cons_inv_l in HW as (ws & wss' & W & HW & ->). cbn [concat] in *. rewrite length_app in Hl. destruct (drop_cons_get p pkts pk pks Hp Ep) as [G1 D1]. cbn [map] in Es. destruct (drop_cons_get p segs _ _ Hp Es) as [G2 D2].
    rewrite <- (take_drop (length ws) fs) in *. set (f1 := take (length ws) fs) in *. set (f2 := drop (length ws) fs) in *. assert (L1 : length f1 = length ws) by (unfold f1; rewrite length_app in Hl; rewrite length_take; unfold f1, f2 in Hl; rewrite length_take, length_drop in Hl; lia).
    rewrite length_app in Hl. destruct (drive_packet pk ws f1 p fi pkts segs c e W Hb Hp G1 G2 L1) as (o1 & c1 & e1 & pkts1 & E1 & F1 & B1 & SA & _ & El); [intros w f Hw Hf; apply Hbig; apply elem_of_app; by left|].
    rewrite <- El in HW. destruct (IH wss' f2 (p + 1) (fi + zlen f1) pkts1 segs c1 e1 HW B1) as (o2 & c2 & e2 & E2 & F2 & Fr & Gs); [lia|rewrite (same_after_drop p pkts pkts1) by done; done|done|lia|intros w f Hw Hf; apply Hbig; apply elem_of_app; by right|].
    exists (o1 ++ o2), c2, e2. rewrite drive_app, E1. cbn [mbind option_bind]. rewrite E2. cbn [mbind option_bind]. split; [done|]. split; [by apply Forall2_app|]. rewrite zlen_app, Z.add_assoc. done.
Qed.
End wire.

(** The transmit path against the contract of a queue: what transmit and
    WritePackets report for whatever the queue takes. *)

(** What packetio documents of SendFunc (queue.go): it asks the builder for
    frames in order, at most as many as it was told and as it has room for,
    each at least [W] bytes, and reports how many of those it sent. *)
Class TxQueueSpec (W : Z) (Q : Type) `{TxQueue Q} : Prop := {
  tq_sends : forall (St : Type) n (b : Z -> list Z -> St -> option (Z * list Z * St)) st q, 0 <= n <= Z.min (tq_NumFreeSlots q) (tq_NumFreeFrames q) ->
    exists fs, zlen fs <= n /\ Forall (fun f => minFrameLen <= zlen f /\ W <= zlen f) fs /\
      match drive_with b 0 fs st with
      | Some (out, st') => exists cnt err q', tq_SendFunc St n b st q = Some (cnt, err, st', q') /\ 0 <= cnt <= zlen fs
      | None => tq_SendFunc St n b st q = None
      end }.

Lemma drive_with_len {St} b fs : forall i (st : St) out st', drive_with b i fs st = Some (out, st') -> length out = length fs.
Proof.
  induction fs as [|f fs IH]; intros i st out st' E; cbn [drive_with] in E; [by injection E as <- _|]. destruct (b i f st) as [[[n f'] st1]|]; cbn [mbind option_bind] in E; [|done].
  destruct (drive_with b (i + 1) fs st1) as [[o s]|] eqn:E2; cbn [mbind option_bind] in E; [|done]. injection E as <- _. cbn [length]. f_equal. exact (IH _ _ _ _ E2).
Qed.

(** The bytes a builder reported of a frame. *)
Definition built_bytes (o : Z * list Z) : list Z := take (Z.to_nat (fst o)) (snd o).

(** The same of a queue one can look into: [took q fs q'] says that [q] took
    the frames [fs], in order, and is [q'] then.  The frames reported sent are
    the first ones built, of the lengths the builder reported. *)
Class TxQueueTakes (W : Z) (Q : Type) `{TxQueue Q} (took : Q -> list (list Z) -> Q -> Prop) : Prop := {
  tq_takes : forall (St : Type) n (b : Z -> list Z -> St -> option (Z * list Z * St)) st q, 0 <= n <= Z.min (tq_NumFreeSlots q) (tq_NumFreeFrames q) ->
    exists fs, zlen fs <= n /\ Forall (fun f => minFrameLen <= zlen f /\ W <= zlen f) fs /\
      match drive_with b 0 fs st with
      | Some (out, st') => exists cnt err q', tq_SendFunc St n b st q = Some (cnt, err, st', q') /\ 0 <= cnt <= zlen fs /\ took q (map built_bytes (take (Z.to_nat cnt) out)) q'
      | None => tq_SendFunc St n b st q = None
      end }.

Lemma takes_spec W Q `{TxQueueSpec W Q} : TxQueueTakes W Q (fun _ _ _ => True).
Proof.
  split. intros St n b st q Hn. destruct (tq_sends St n b st q Hn) as (fs & H1 & H2 & H3). exists fs. split; [done|]. split; [done|].
  destruct (drive_with b 0 fs st) as [[out st']|]; [|done]. destruct H3 as (cnt & err & q' & ? & ?). by exists cnt, err, q'.
Qed.

(** ** What building leaves alone *)

Lemma on_slice_len lo hi f b b' : on_slice lo hi f b = Some b' -> (forall s s', f s = Some s' -> zlen s' = zlen s) -> zlen b' = zlen b.
Proof.
  unfold on_slice. intros H Hf. destruct (slice lo hi b) as [s|] eqn:E; [|done]. cbn [mbind option_bind] in H. destruct (f s) as [s'|] eqn:E2; [|done]. cbn [mbind option_bind] in H. injection H as <-.
  pose proof (slice_length _ _ _ _ E) as L. specialize (Hf _ _ E2). unfold slice in E. case_if_in E; [|done]. to_prop. apply zlen_blit; lia.
Qed.

Lemma copy_from_len lo src b b' n : copy_from lo src b = Some (b', n) -> zlen b' = zlen b.
Proof.
  unfold copy_from. intros H. case_if_in H; [|done]. to_prop. injection H as <- _. apply zlen_blit; [done|]. rewrite zlen_take. lia.
Qed.

Lemma put_be_len n off v b b' : put_be n off v b = Some b' -> zlen b' = zlen b.
Proof. unfold put_be. intros H. case_if_in H; [|done]. to_prop. injection H as <-. apply zlen_blit; rewrite ?zlen_be_bytes; lia. Qed.

Ltac bind_in H := match type of H with context [?o ≫= _] => let E := fresh "B" in destruct o eqn:E; cbn [mbind option_bind] in H; [|discriminate] end.

Section building.
Context (place : list Z -> Z).

Lemma sg_init_tmpl pk l s s' pk' : sg_init place pk l s = Some (s', pk') -> zlen (sg_tmpl s') = zlen (sg_tmpl s).
Proof.
  unfold sg_init. intros H. do 3 (bind_in H; repeat match type of H with context [let '(_, _) := ?p in _] => destruct p end). bind_in H. do 3 (bind_in H; match type of H with context [let '(_, _) := ?p in _] => destruct p end).
  do 7 bind_in H. injection H as <- <-. cbn [sg_tmpl]. repeat match goal with B : copy_from _ _ _ = Some _ |- _ => apply copy_from_len in B end.
  match goal with B : on_slice _ _ _ _ = Some _ |- _ => apply on_slice_len in B end; [congruence|]. intros a b Hab. unfold SetTotalLength, SetIPChecksum in Hab. bind_in Hab. repeat match goal with B : put_be _ _ _ _ = Some _ |- _ => apply put_be_len in B end. congruence.
Qed.

Lemma sg_next_tmpl fr s n fr' s' : sg_next place fr s = Some (n, fr', s') -> sg_tmpl s' = sg_tmpl s.
Proof.
  unfold sg_next. cbv zeta. intros H. repeat (bind_in H; repeat match type of H with context [let '(_, _) := ?p in _] => destruct p end). case_if_in H; [bind_in H|]; by injection H as _ _ <-.
Qed.

(** The parts of the state no build touches. *)
Definition kept (st st' : copier * txEndpoint) : Prop :=
  zlen (sg_tmpl (cp_s (fst st'))) = zlen (sg_tmpl (cp_s (fst st))) /\
  e_linkLen (snd st') = e_linkLen (snd st) /\ e_DirectTx (snd st') = e_DirectTx (snd st) /\ e_txClosed (snd st') = e_txClosed (snd st) /\
  e_failed (snd st') = e_failed (snd st) /\ e_tx (snd st') = e_tx (snd st) /\ e_txDropped (snd st') = e_txDropped (snd st) /\ e_txWaited (snd st') = e_txWaited (snd st).

#[local] Instance kept_refl : Reflexive kept.
Proof. intros st. unfold kept. by split_and!. Qed.
#[local] Instance kept_trans : Transitive kept.
Proof. intros a b c (?&?&?&?&?&?&?&?) (?&?&?&?&?&?&?&?). unfold kept. split_and!; congruence. Qed.

Lemma build_kept i fr st n fr' st' : build place i fr st = Some (n, fr', st') -> kept st st'.
Proof.
  destruct st as [c e]. unfold build. intros H. case_if_in H; [by injection H as _ _ <-|]. do 2 bind_in H. case_if_in H.
  - bind_in H. match type of H with context [let '(_, _) := ?p in _] => destruct p end. bind_in H. injection H as _ _ <-. by unfold kept.
  - destruct (cp_gso c) eqn:G; cbn [mbind option_bind] in H.
    + bind_in H. repeat match type of H with context [let '(_, _) := ?p in _] => destruct p end. injection H as _ _ <-. apply sg_next_tmpl in B1. unfold kept. destruct (sg_done _); cbn [fst snd cp_s]; by rewrite B1.
    + destruct (sg_init place _ _ _) as [[s0 pk0]|] eqn:Ei; cbn [mbind option_bind] in H; [|done]. destruct (sg_next place fr s0) as [[[len fr1] s1]|] eqn:En; cbn [mbind option_bind] in H; [|done].
      injection H as _ _ <-. apply sg_next_tmpl in En. apply sg_init_tmpl in Ei. unfold kept. destruct (sg_done _); cbn [fst snd cp_s e_count_gso e_linkLen e_DirectTx e_txClosed e_failed e_tx e_txDropped e_txWaited]; by rewrite En, Ei.
Qed.

Lemma drive_kept fs : forall i st out st', drive_with (build place) i fs st = Some (out, st') -> kept st st'.
Proof.
  induction fs as [|f fs IH]; intros i st out st' H; cbn [drive_with] in H; [by injection H as _ <-|]. destruct (build place i f st) as [[[n f'] st1]|] eqn:E; cbn [mbind option_bind] in H; [|done].
  destruct (drive_with _ _ fs st1) as [[o st2]|] eqn:E2; cbn [mbind option_bind] in H; [|done]. injection H as _ <-. etransitivity; [by eapply build_kept|by eapply IH].
Qed.
End building.

(** ** The segments counted *)

Lemma segs_within_spec pkts : forall acc budget, zlen acc < budget -> segs_within acc pkts budget = acc ++ map segments (take (Z.to_nat (budget - zlen acc)) pkts).
Proof.
  induction pkts as [|pk pkts IH]; intros acc budget Hb; cbn [segs_within]; [by rewrite take_nil, app_nil_r|]. rewrite zlen_app. change (zlen [segments pk]) with 1.
  replace (Z.to_nat (budget - zlen acc)) with (S (Z.to_nat (budget - (zlen acc + 1)))) by lia. cbn [take map]. case_if.
  - rewrite Z.geb_leb in E. apply Z.leb_le in E. replace (Z.to_nat (budget - (zlen acc + 1))) with 0%nat by lia. by rewrite take_0.
  - rewrite Z.geb_leb in E. apply Z.leb_gt in E. rewrite IH by (rewrite zlen_app; change (zlen [segments pk]) with 1; lia). rewrite zlen_app. change (zlen [segments pk]) with 1. by rewrite <- app_assoc.
Qed.

Lemma wire_segments l pk ws : wire l pk ws -> segments pk = zlen ws /\ 1 <= segments pk.
Proof. destruct 1; [by rewrite H|by rewrite H|]. unfold zlen. rewrite length_map, length_seqZ. lia. Qed.

Lemma wires_sum l pks wss : Forall2 (wire l) pks wss -> zsum (map segments pks) = zlen (concat wss) /\ Forall (fun s => 1 <= s) (map segments pks).
Proof.
  induction 1 as [|pk ws pks wss W _ [IH1 IH2]]; [by split|]. apply wire_segments in W as [W1 W2]. cbn [map concat]. rewrite zlen_app. split; [cbn; unfold zsum in IH1; lia|by constructor].
Qed.

Section queue.
Context (place : list Z -> Z) (W : Z) {Q : Type} `{TxQueue Q}.

(** Any number of frames short of the whole batch can be built, and they are
    its first ones. *)
Lemma drive_prefix pks wss fs c e : Forall2 (wire (e_linkLen e)) pks wss -> between 0 0 pks (map segments pks) c -> Forall (fun w => zlen w <= W) (concat wss) ->
  zlen fs <= zlen (concat wss) -> Forall (fun f => minFrameLen <= zlen f /\ W <= zlen f) fs ->
  exists out st', drive_with (build place) 0 fs (c, e) = Some (out, st') /\ Forall2 holds out (take (length fs) (concat wss)).
Proof.
  intros HW Hb Hw Hl Hf. set (big := replicate (Z.to_nat (Z.max W minFrameLen)) 0). assert (Lb : zlen big = Z.max W minFrameLen) by (unfold big; rewrite zlen_replicate; unfold minFrameLen; lia).
  set (more := replicate (length (concat wss) - length fs) big). destruct (drive_batch place pks wss (fs ++ more) 0 0 pks (map segments pks) c e HW Hb) as (out & c' & e' & E & F & _); [lia|by rewrite drop_0|by rewrite drop_0| | |].
  - unfold more. rewrite length_app, length_replicate. unfold zlen in Hl. lia.
  - intros w f Hwi Hfi. rewrite Forall_forall in Hw, Hf. specialize (Hw w Hwi). apply elem_of_app in Hfi as [Hfi|Hfi]; [destruct (Hf f Hfi); split; lia|]. apply elem_of_replicate in Hfi as [-> _]. split; lia.
  - rewrite drive_app in E. destruct (drive_with (build place) 0 fs (c, e)) as [[o st]|] eqn:Ed; [|done]. cbn [mbind option_bind] in E. apply drive_with_len in Ed.
    destruct (drive_with (build place) (0 + zlen fs) more st) as [[o2 st2]|]; cbn [mbind option_bind] in E; [|done]. injection E as <- _. exists o, st. split; [done|].
    apply (Forall2_take _ _ _ (length fs)) in F. by rewrite <- Ed, take_app_length, Ed in F.
Qed.

Lemma holds_bytes outs ws : Forall2 holds outs ws -> map built_bytes outs = ws.
Proof. induction 1 as [|o w outs ws [Hn Hb] _ IH]; [done|]. cbn [map]. rewrite IH. f_equal. unfold built_bytes. rewrite Hn. unfold zlen. by rewrite Nat2Z.id. Qed.

(** What transmit keeps of the queue's builder and of the endpoint. *)
Definition tx_kept (q q' : txQueue (Q := Q)) (e e' : txEndpoint) : Prop :=
  zlen (sg_tmpl (cp_s (t_builder q'))) = zlen (sg_tmpl (cp_s (t_builder q))) /\ e_linkLen e' = e_linkLen e /\ e_DirectTx e' = e_DirectTx e /\
  e_txClosed e' = e_txClosed e /\ e_failed e' = e_failed e /\ e_txDropped e' = e_txDropped e.

(** The count returned covers the [cnt] frames the queue took, and no packet
    beyond them. *)
Definition counts (pkts : list PacketBuffer) (cnt sent : Z) : Prop :=
  0 <= sent <= zlen pkts /\ 0 <= cnt <= zsum (take (Z.to_nat sent) (map segments pkts)) /\ (sent = 0 \/ zsum (take (Z.to_nat (sent - 1)) (map segments pkts)) < cnt).

(** No room for the frames of the first packet. *)
Definition no_room (pkts : list PacketBuffer) (dq : Q) : Prop :=
  match pkts with [] => True | pk :: _ => Z.min (tq_NumFreeSlots dq) (tq_NumFreeFrames dq) < segments pk end.

(** What transmit does: a queue out of service says so; with no room for the
    first packet nothing happens but for the completions; otherwise the queue
    takes the first [cnt] of the frames the packets call for, and that is what
    is counted. *)
Definition transmitted (took : Q -> list (list Z) -> Q -> Prop) (q : txQueue) (pkts : list PacketBuffer) (wss : list (list (list Z))) (e : txEndpoint)
    (r : res Z) (q' : txQueue) (e' : txEndpoint) : Prop :=
  let dq := tq_Complete (tq_NumCompleted (t_q q)) (t_q q) in
  match tq_Err (t_q q) with
  | Some err => r = Err err /\ q' = q /\ e' = e
  | None =>
      (r = Ok 0 /\ t_q q' = dq /\ e' = e /\ no_room pkts dq) \/
      exists cnt, 0 <= cnt <= zlen (concat wss) /\ took dq (take (Z.to_nat cnt) (concat wss)) (t_q q') /\ e_tx e' = u64 (e_tx e + cnt) /\
        match r with Ok sent => counts pkts cnt sent /\ (cnt = 0 -> sent = 0) | Err _ => True end
  end.

(** The packets begun among the first [p] are those begun of the whole batch. *)
Lemma begun_counts pkts p cnt : let sg := map segments (take (Z.to_nat p) pkts) in
  Forall (fun s => 1 <= s) (map segments pkts) -> 0 <= p <= zlen pkts -> 0 <= cnt <= zsum sg ->
  let '(sent, frs) := fit sg cnt in let n := if frs <? cnt then sent + 1 else sent in counts pkts cnt n /\ (cnt = 0 -> n = 0).
Proof.
  clear. intros sg Hall Hp Hc. assert (Sg : Forall (fun s => 1 <= s) sg) by (unfold sg; rewrite <- firstn_map; by apply Forall_take).
  pose proof (packets_begun_spec sg cnt Sg Hc) as P. cbv zeta in P. unfold packets_begun in P. destruct (fit sg cnt) as [sent frs]. cbv zeta. set (n := if frs <? cnt then sent + 1 else sent) in *. destruct P as (P1 & P2 & P3).
  assert (Lpk : zlen sg = p) by (unfold sg, zlen in *; rewrite length_map, length_take; lia).
  assert (Hpp : forall j, (j <= Z.to_nat p)%nat -> take j sg = take j (map segments pkts)) by (intros j Hj; unfold sg; rewrite <- firstn_map, take_take; f_equal; lia).
  rewrite !Hpp in P2, P3 by lia. split; [split; [lia|split; [lia|exact P3]]|]. intros ->. destruct P3 as [?|P3]; [done|]. exfalso.
  pose proof (zsum_pos _ (Forall_take _ (Z.to_nat (n - 1)) _ Hall)). pose proof (zlen_nonneg (take (Z.to_nat (n - 1)) (map segments pkts))). lia.
Qed.

Lemma transmit_spec took `{!TxQueueTakes W Q took} q pkts wss e : Forall2 (wire (e_linkLen e)) pkts wss -> Forall (fun w => zlen w <= W) (concat wss) -> zlen (sg_tmpl (cp_s (t_builder q))) = maxHeaderTemplate ->
  exists r q' e', transmit place q pkts e = Some (r, q', e') /\ tx_kept q q' e e' /\ transmitted took q pkts wss e r q' e'.
Proof.
  intros HW Hw Ht. unfold transmit, transmitted. destruct (tq_Err (t_q q)) as [err|]; [exists (Err err), q, e; split; [done|]; by split|].
  set (dq := tq_Complete (tq_NumCompleted (t_q q)) (t_q q)). cbn [t_q t_builder]. set (budget := Z.min (tq_NumFreeSlots dq) (tq_NumFreeFrames dq)). destruct (wires_sum _ _ _ HW) as [Sa Sp].
  assert (Hnone : no_room pkts dq -> exists r q' e', Some (Ok 0, mkTxQueue dq (t_builder q), e) = Some (r, q', e') /\ tx_kept q q' e e' /\ ((r = Ok 0 /\ t_q q' = dq /\ e' = e /\ no_room pkts dq) \/
    exists cnt, 0 <= cnt <= zlen (concat wss) /\ took dq (take (Z.to_nat cnt) (concat wss)) (t_q q') /\ e_tx e' = u64 (e_tx e + cnt) /\ match r with Ok sent => counts pkts cnt sent /\ (cnt = 0 -> sent = 0) | Err _ => True end)).
  { intros Hno. exists (Ok 0), (mkTxQueue dq (t_builder q)), e. split; [done|]. split; [by unfold tx_kept|by left]. }
  destruct (budget <=? 0) eqn:Eb; to_prop; [apply Hnone; unfold no_room; destruct pkts as [|pk pkts]; [done|]; cbn [map] in Sp; apply Forall_cons in Sp as [? _]; fold budget; lia|].
  rewrite segs_within_spec by (change (zlen []) with 0; lia). cbn [app]. change (zlen (@nil Z)) with 0. rewrite Z.sub_0_r. set (segs := map segments (take (Z.to_nat budget) pkts)).
  assert (Hps : zlen segs = Z.min budget (zlen pkts)) by (unfold segs, zlen; rewrite length_map, length_take; lia).
  pose proof (fit_spec segs budget ltac:(lia)) as F. destruct (fit segs budget) as [p fr]. destruct F as (F1 & F2 & F3 & F4).
  destruct (Z.eqb_spec p 0) as [->|Hp].
  { apply Hnone. unfold no_room. destruct pkts as [|pk pkts]; [done|]. rewrite zlen_cons in Hps. pose proof (zlen_nonneg pkts). destruct F4 as [F4|F4]; [lia|]. fold budget. unfold segs in F4.
    destruct (Z.to_nat budget) eqn:En; [lia|]. change (Z.to_nat (0 + 1)) with 1%nat in F4. cbn [take map zsum foldr] in F4. rewrite take_0 in F4. cbn in F4. lia. }
  rewrite !slice_Some by lia. cbn [mbind option_bind]. change (Z.to_nat 0) with 0%nat. rewrite !drop_0, Z.sub_0_r.
  set (pk := take (Z.to_nat p) pkts). assert (Hsg : take (Z.to_nat p) segs = map segments pk) by (unfold segs, pk; rewrite <- firstn_map, !take_take, firstn_map; do 2 f_equal; lia). rewrite Hsg in *.
  assert (Hpw : Forall2 (wire (e_linkLen e)) pk (take (Z.to_nat p) wss)) by (by apply Forall2_take). destruct (wires_sum _ _ _ Hpw) as [S1 S2]. set (ws := concat (take (Z.to_nat p) wss)) in *.
  assert (Hsplit : concat wss = ws ++ concat (drop (Z.to_nat p) wss)) by (unfold ws; by rewrite <- concat_app, take_drop).
  assert (Hws : Forall (fun w => zlen w <= W) ws) by (rewrite Hsplit in Hw; by apply Forall_app in Hw as [? _]).
  destruct (tq_takes (copier * txEndpoint) fr (build place) (mkCopier pk (map segments pk) 0 0 (cp_s (t_builder q)) false, e) dq) as (fs & Hfl & Hfb & Hsend); [split; [rewrite F2; pose proof (zsum_pos _ S2); pose proof (zlen_nonneg (map segments pk)); lia|done]|].
  destruct (drive_prefix pk (take (Z.to_nat p) wss) fs (mkCopier pk (map segments pk) 0 0 (cp_s (t_builder q)) false) e Hpw) as (out & [c' e'] & Ed & Ho); [by split_and!|done|fold ws; lia|done|]. rewrite Ed in Hsend. destruct Hsend as (cnt & err & q' & Es & Hc & Htook).
  rewrite Es. cbn [mbind option_bind]. apply drive_kept in Ed as (K1 & K2 & K3 & K4 & K5 & K6 & K7 & K8). cbn [fst snd cp_s] in *. fold ws in Ho.
  assert (Htk : map built_bytes (take (Z.to_nat cnt) out) = take (Z.to_nat cnt) (concat wss)).
  { apply (Forall2_take _ _ _ (Z.to_nat cnt)), holds_bytes in Ho. rewrite Ho, take_take, Hsplit, take_app_le by (unfold zlen in *; lia). f_equal. unfold zlen in *. lia. }
  rewrite Htk in Htook.
  assert (Hk : forall r, match r with Ok sent => counts pkts cnt sent /\ (cnt = 0 -> sent = 0) | Err _ => True end ->
    exists r' q2 e2, Some (r, mkTxQueue q' (mkCopier [] [] (cp_p c') (cp_frame c') (cp_s c') (cp_gso c')), e_count_tx cnt e') = Some (r', q2, e2) /\ tx_kept q q2 e e2 /\
    ((r' = Ok 0 /\ t_q q2 = dq /\ e2 = e /\ no_room pkts dq) \/ exists cnt, 0 <= cnt <= zlen (concat wss) /\ took dq (take (Z.to_nat cnt) (concat wss)) (t_q q2) /\ e_tx e2 = u64 (e_tx e + cnt) /\
       match r' with Ok sent => counts pkts cnt sent /\ (cnt = 0 -> sent = 0) | Err _ => True end)).
  { intros r Hr. do 3 eexists. split; [done|]. split; [unfold tx_kept; by cbn|]. right. exists cnt. split; [rewrite Hsplit, zlen_app; pose proof (zlen_nonneg (concat (drop (Z.to_nat p) wss))); lia|]. split; [done|]. split; [cbn; by rewrite K6|done]. }
  destruct err as [err|]; [by apply Hk|]. pose proof (begun_counts pkts p cnt Sp ltac:(lia) ltac:(fold pk; lia)) as B. cbv zeta in B. fold pk in B. destruct (fit (map segments pk) cnt) as [sent frs]. by apply Hk.
Qed.

Definition ready (e : txEndpoint) (list_ : list PacketBuffer) (q : txQueue (Q := Q)) : Prop :=
  (exists wss, Forall2 (wire (e_linkLen e)) list_ wss /\ Forall (fun w => zlen w <= W) (concat wss)) /\ zlen (sg_tmpl (cp_s (t_builder q))) = maxHeaderTemplate.

Lemma ready_kept e e' l q q' : tx_kept q q' e e' -> ready e l q -> ready e' l q'.
Proof. intros (K1 & K2 & _) [R1 R2]. unfold ready. by rewrite K2, K1. Qed.

Lemma ready_drop e l q n : ready e l q -> exists wss, Forall2 (wire (e_linkLen e)) (drop n l) wss /\ Forall (fun w => zlen w <= W) (concat wss).
Proof. intros [(wss & R1 & R2) _]. exists (drop n wss). split; [by apply Forall2_drop|]. rewrite <- (take_drop n wss), concat_app in R2. by apply Forall_app in R2 as [_ ?]. Qed.

Lemma transmitted_bound took q pkts wss e r q' e' : transmitted took q pkts wss e r q' e' -> match r with Ok sent => 0 <= sent <= zlen pkts | Err _ => True end.
Proof.
  unfold transmitted. pose proof (zlen_nonneg pkts). destruct (tq_Err (t_q q)); [by intros (-> & _)|]. intros [(-> & _)|(cnt & _ & _ & _ & Hr)]; [lia|]. destruct r; [|done]. by destruct Hr as [(? & _) _].
Qed.

(** With a clock that gets past the deadline, or no waiting at all, the loop
    ends; every packet of the batch is counted once, as sent or as dropped. *)
Lemma write_loop_spec `{!TxQueueSpec W Q} fuel : forall list_ sent (waiting : bool) late q e, ready e list_ q -> 0 <= sent <= zlen list_ -> e_DirectTx e = true \/ true ∈ late ->
  zlen list_ - sent + zlen late + (if waiting then 0 else 1) < Z.of_nat fuel ->
  exists sent' closed q' e', write_loop place fuel list_ sent waiting late q e = Some (sent', closed, q', e') /\ sent <= sent' <= zlen list_ /\
    e_txDropped e' = u64 (e_txDropped e + (zlen list_ - sent')) /\ (closed = true -> e_failed e' <> None).
Proof.
  pose proof (takes_spec W Q) as HT. induction fuel as [|fuel IH]; intros list_ sent waiting late q e R Hs Hd Hf; [pose proof (zlen_nonneg late); destruct waiting; lia|]. cbn [write_loop]. destruct (sent <? zlen list_) eqn:E; to_prop.
  2:{ do 4 eexists. split; [done|]. split; [lia|]. split; [done|]. done. }
  rewrite slice_Some by lia. cbn [mbind option_bind]. rewrite take_ge by (rewrite length_drop; unfold zlen; lia). destruct (ready_drop _ _ _ (Z.to_nat sent) R) as (wss & R1 & R2).
  destruct (transmit_spec (fun _ _ _ => True) q (drop (Z.to_nat sent) list_) wss e R1 R2 (proj2 R)) as (r & q' & e' & -> & K & Hr). apply transmitted_bound in Hr. cbn [mbind option_bind]. pose proof K as (_ & _ & K3 & _ & _ & K6). destruct r as [n|err].
  - rewrite zlen_drop in Hr. rewrite <- K3 in Hd. pose proof (ready_kept _ _ _ _ _ K R) as R'. destruct (n >? 0) eqn:En; rewrite Z.gtb_ltb in En; to_prop.
    + destruct (IH list_ (sent + n) waiting late q' e' R' ltac:(lia) Hd ltac:(lia)) as (s' & cl & q2 & e2 & -> & I1 & I2 & I3). exists s', cl, q2, e2. rewrite <- K6. split_and!; (done || lia || apply I3).
    + replace (sent + n) with sent by lia. destruct (e_DirectTx e') eqn:Ed; [do 4 eexists; split; [done|]; split; [lia|]; split; [by rewrite <- K6|done]|].
      destruct Hd as [Hd|Hd]; [congruence|]. destruct waiting; cbn [negb].
      * destruct late as [|[] late]; [by apply elem_of_nil in Hd| |].
        { do 4 eexists; split; [done|]; split; [lia|]; split; [by rewrite <- K6|done]. }
        { rewrite zlen_cons in Hf. destruct (IH list_ sent true late q' e' R' ltac:(lia)) as (s' & cl & q2 & e2 & -> & I1 & I2 & I3); [right; by apply elem_of_cons in Hd as [|]|lia|]. exists s', cl, q2, e2. rewrite <- K6. split_and!; (done || lia || apply I3). }
      * destruct (IH list_ sent true late q' (e_count_waited e') R' Hs ltac:(by right) ltac:(lia)) as (s' & cl & q2 & e2 & -> & I1 & I2 & I3). exists s', cl, q2, e2. cbn [e_count_waited e_txDropped] in I2. rewrite <- K6. split_and!; (done || lia || apply I3).
  - do 4 eexists. split; [done|]. split; [lia|]. split; [cbn; unfold e_fail; rewrite <- K6; by destruct (e_failed e')|]. intros _. cbn. unfold e_fail. destruct (e_failed e') eqn:Ef; cbn; [by rewrite Ef|done].
Qed.
End queue.
