(* ===== verification/NetNeigh.v ===== *)
(** The table of neighbors: netstack/neigh.go.

    The table is replaced whole under the mutex, so an operation is one step;
    [order] is the order in which the map hands its entries out, which Go leaves
    open, and [now] what the clock says at each look. *)

From stdpp Require Import prelude list numbers strings gmap.
From S2P Require Import Prelude.

Record neighbor := mkNeighbor { nb_mac : list Z; nb_pinned : bool }.

#[global] Instance neighbor_eq : EqDecision neighbor.
Proof. solve_decision. Defined.

Record neighbors := mkNeighbors { n_lastWrite : Z; n_m : gmap (list Z) neighbor }.

Definition newNeighbors : neighbors := mkNeighbors 0 ∅.

Definition maxNeighbors : Z := 4096.
Definition writeInterval : Z := 10000000.

(** The copy of the table, without the first unpinned entry when one has to
    go; and the entry dropped. *)
Fixpoint copy_table (evict : bool) (entries : list (list Z * neighbor)) (m : gmap (list Z) neighbor) (evicted : option (list Z)) : bool * gmap (list Z) neighbor * option (list Z) :=
  match entries with
  | [] => (evict, m, evicted)
  | (k, v) :: entries =>
    if evict && negb (nb_pinned v) then copy_table false entries m (Some k) else copy_table evict entries (<[k := v]> m) evicted
  end.

(** The result says whether the table changed, and what was evicted. *)
Definition n_write (order : gmap (list Z) neighbor -> list (list Z * neighbor)) (now : Z) (ip : list Z) (nb : neighbor) (n : neighbors) : bool * option (list Z) * neighbors :=
  let old := n_m n in
  let have := old !! ip in
  if bool_decide (have = Some nb) then (false, None, n)
  else if match have with Some h => nb_pinned h && negb (nb_pinned nb) | None => false end then (false, None, n)
  else
    let known := bool_decide (is_Some have) in
    let evict := negb known && (Z.of_nat (size old) >=? maxNeighbors) in
    if negb (nb_pinned nb) && (known || evict) && (now - n_lastWrite n <? writeInterval) then (false, None, n)
    else
      let '(evict, m, evicted) := copy_table evict (order old) ∅ None in
      if evict then (false, evicted, n)
      else (true, evicted, mkNeighbors now (<[ip := nb]> m)).

Definition n_learn (order : gmap (list Z) neighbor -> list (list Z * neighbor)) (now now' : Z) (ip mac : list Z) (n : neighbors) : bool * option (list Z) * neighbors :=
  let m := n_m n in
  let have := m !! ip in
  if match have with Some h => bool_decide (nb_mac h = mac) || nb_pinned h | None => false end then (false, None, n)
  else if (bool_decide (is_Some have) || (Z.of_nat (size m) >=? maxNeighbors)) && (now - n_lastWrite n <? writeInterval) then (false, None, n)
  else n_write order now' ip (mkNeighbor mac false) n.

Definition n_pin (order : gmap (list Z) neighbor -> list (list Z * neighbor)) (now : Z) (ip mac : list Z) (n : neighbors) : bool * option (list Z) * neighbors :=
  n_write order now ip (mkNeighbor mac true) n.

Definition n_lookup (ip : list Z) (n : neighbors) : option (list Z) := nb_mac <$> n_m n !! ip.
Definition n_size (n : neighbors) : Z := Z.of_nat (size (n_m n)).

(** ** The table as it is used *)

Lemma copy_table_spec entries : NoDup entries.*1 -> forall evict m evicted, (forall k, k ∈ entries.*1 -> m !! k = None) ->
  let '(e', m', ev') := copy_table evict entries m evicted in
  (e' = evict /\ ev' = evicted /\ (evict = true -> Forall (fun kv => nb_pinned (snd kv) = true) entries) /\ m' = list_to_map entries ∪ m) \/
  (evict = true /\ e' = false /\ exists k v, (k, v) ∈ entries /\ nb_pinned v = false /\ ev' = Some k /\ m' = delete k (list_to_map entries ∪ m)).
Proof.
  induction entries as [|[k v] entries IH]; intros ND evict m evicted Hm; cbn [copy_table].
  { left. cbn. rewrite (left_id_L ∅ (∪)). split_and!; try done. }
  cbn in ND. apply NoDup_cons in ND as [Hk ND]. destruct (evict && negb (nb_pinned v)) eqn:E.
  - apply andb_true_iff in E as [-> E]. apply negb_true_iff in E. pose proof (IH ND false m (Some k) ltac:(intros k' ?; apply Hm; set_solver)) as I. destruct (copy_table false entries m (Some k)) as [[e' m'] ev']. destruct I as [(-> & -> & _ & ->)|(? & _)]; [|done].
    right. split; [done|]. split; [done|]. exists k, v. split; [by left|]. split; [done|]. split; [done|]. cbn. rewrite <- insert_union_l, delete_insert_id; [done|]. apply lookup_union_None. split; [by apply not_elem_of_list_to_map_1|apply Hm; set_solver].
  - assert (Hm' : forall k', k' ∈ entries.*1 -> <[k := v]> m !! k' = None) by (intros k' Hk'; rewrite lookup_insert_ne; [apply Hm; set_solver|]; by intros ->).
    pose proof (IH ND evict (<[k := v]> m) evicted Hm') as I. destruct (copy_table evict entries (<[k := v]> m) evicted) as [[e' m'] ev']. assert (Hu : list_to_map entries ∪ <[k := v]> m = list_to_map ((k, v) :: entries) ∪ m).
    { cbn. rewrite <- insert_union_l. rewrite insert_union_r; [done|]. by apply not_elem_of_list_to_map_1. }
    rewrite Hu in I. destruct I as [(-> & -> & Hp & ->)|(-> & -> & k' & v' & Hin & Hp & -> & ->)].
    + left. split_and!; try done. intros ->. constructor; [|auto]. cbn. by destruct (nb_pinned v).
    + right. split; [done|]. split; [done|]. exists k', v'. split; [by right|done].
Qed.

Section table.
Context (order : gmap (list Z) neighbor -> list (list Z * neighbor)).
(** A range over a map visits each entry once. *)
Context (Horder : forall m, order m ≡ₚ map_to_list m).

Definition is_pinned (ip mac : list Z) (n : neighbors) : Prop := n_m n !! ip = Some (mkNeighbor mac true).

(** The copy of a table: all of it, or all but one entry that is not pinned. *)
Lemma copy_table_order evict m : let '(e', m', ev) := copy_table evict (order m) ∅ None in
  (e' = evict /\ ev = None /\ m' = m /\ (evict = true -> forall k v, m !! k = Some v -> nb_pinned v = true)) \/
  (evict = true /\ e' = false /\ exists k v, m !! k = Some v /\ nb_pinned v = false /\ ev = Some k /\ m' = delete k m).
Proof using Horder.
  assert (ND : NoDup (order m).*1) by (rewrite (Horder m); apply NoDup_fst_map_to_list). assert (EM : list_to_map (order m) ∪ ∅ = m) by (rewrite (right_id_L ∅ (∪)), (list_to_map_proper _ (map_to_list m)); [apply list_to_map_to_list|done|apply Horder]).
  pose proof (copy_table_spec (order m) ND evict ∅ None ltac:(intros; apply lookup_empty)) as C. rewrite EM in C. destruct (copy_table evict (order m) ∅ None) as [[e' m'] ev]. destruct C as [(-> & -> & Hp & ->)|(-> & -> & k & v & Hin & Hp & -> & ->)].
  - left. split_and!; try done. intros He k v Hk. specialize (Hp He). rewrite Forall_forall in Hp. apply (Hp (k, v)). rewrite (Horder m). by apply elem_of_map_to_list.
  - right. split; [done|]. split; [done|]. exists k, v. split; [|done]. apply elem_of_map_to_list. by rewrite <- (Horder m).
Qed.

(** What a write does, when it does anything: the entry is in, at most one
    entry that was not pinned is out, and the rest is as it was. *)
Lemma n_write_spec now ip nb n : let '(changed, ev, n') := n_write order now ip nb n in
  (changed = false /\ ev = None /\ n' = n) \/
  (changed = true /\ n_lastWrite n' = now /\ n_m n' !! ip = Some nb /\
   (forall mac, is_pinned ip mac n -> nb_pinned nb = true) /\
   (nb_pinned nb = false -> (is_Some (n_m n !! ip) \/ ev <> None) -> writeInterval <= now - n_lastWrite n) /\
   match ev with
   | None => (forall k, k <> ip -> n_m n' !! k = n_m n !! k) /\ (n_m n !! ip = None -> n_size n < maxNeighbors)
   | Some x => x <> ip /\ n_m n !! ip = None /\ n_m n' !! x = None /\ (exists v, n_m n !! x = Some v /\ nb_pinned v = false) /\ (forall k, k <> ip -> k <> x -> n_m n' !! k = n_m n !! k) /\ n_size n' = n_size n
   end).
Proof using Horder.
  unfold n_write. cbv zeta. destruct (bool_decide (n_m n !! ip = Some nb)) eqn:E1; [by left|]. apply bool_decide_eq_false in E1.
  destruct (match n_m n !! ip with Some h => nb_pinned h && negb (nb_pinned nb) | None => false end) eqn:E2; [by left|].
  set (known := bool_decide (is_Some (n_m n !! ip))). set (evict := negb known && _). destruct (negb (nb_pinned nb) && (known || evict) && (now - n_lastWrite n <? writeInterval)) eqn:E3; [by left|].
  pose proof (copy_table_order evict (n_m n)) as C. destruct (copy_table evict (order (n_m n)) ∅ None) as [[e' m'] ev]. destruct C as [(-> & -> & -> & _)|(He & -> & x & v & Hx & Hv & -> & ->)].
  - destruct evict eqn:Ee; [by left|]. right. cbn [n_lastWrite n_m]. split; [done|]. split; [done|]. split; [apply lookup_insert_eq|]. split; [|split; [|split]].
    + intros mac Hp. unfold is_pinned in Hp. rewrite Hp in E2. cbn in E2. by destruct (nb_pinned nb).
    + intros Hnp [Hk|?]; [|done]. assert (known = true) as Hkn by (by apply bool_decide_eq_true). rewrite Hnp, Hkn in E3. cbn in E3. to_prop. done.
    + intros k Hk. by rewrite lookup_insert_ne.
    + intros Hno. unfold evict, known in Ee. rewrite Hno, bool_decide_eq_false_2 in Ee by (intros [? ?]; done). cbn in Ee. rewrite Z.geb_leb in Ee. apply Z.leb_gt in Ee. exact Ee.
  - right. cbn [n_lastWrite n_m]. assert (Hno : n_m n !! ip = None). { unfold evict, known in He. destruct (n_m n !! ip) eqn:E; [|done]. rewrite bool_decide_eq_true_2 in He by done. done. }
    assert (x <> ip) by (intros ->; congruence). split; [done|]. split; [done|]. split; [apply lookup_insert_eq|]. split; [intros mac Hp; unfold is_pinned in Hp; congruence|]. split.
    + intros Hnp _. rewrite Hnp, He, orb_true_r in E3. cbn in E3. to_prop. done.
    + split; [done|]. split; [done|]. split; [by rewrite lookup_insert_ne, lookup_delete_eq|]. split; [by exists v|]. split; [intros k Hk Hkx; by rewrite lookup_insert_ne, lookup_delete_ne|].
      unfold n_size. cbn [n_m]. rewrite map_size_insert_None by (by rewrite lookup_delete_ne). rewrite map_size_delete_Some by done. assert (size (n_m n) <> 0)%nat by (intros Hz; apply map_size_empty_inv in Hz; rewrite Hz in Hx; by rewrite lookup_empty in Hx). lia.
Qed.
End table.
