(* ===== verification/NetRx.v ===== *)
(** The receive path of the network adapter (netstack/rx.go) and the link
    header it puts on what it sends (AddHeader of netstack/endpoint.go).

    A frame is the bytes region.Frame returns.  The stack and GRO are what
    [deliver] hands a packet to: the packet is its result. *)

From stdpp Require Import prelude list numbers strings gmap.
From S2P Require Import Prelude Desc Bytes Csum GvChecksum NetHeader NetPacket NetGso NetNeigh.

Definition ARPSize : Z := 28.
Definition ARPProtocolNumber : Z := 0x0806.
Definition PacketHost : Z := 0.
Definition PacketOtherHost : Z := 1.
Definition PacketBroadcast : Z := 3.
Definition PacketMulticast : Z := 4.

(** The counters of the endpoint that receiving moves. *)
Inductive counter := cRx | cWrongVLAN | cOwnEcho | cRunt | cBadCsum | cFragments | cNotIP | cChained | cGroFrames | cUnknownMAC.

#[global] Instance counter_eq : EqDecision counter.
Proof. solve_decision. Defined.

Record rxEndpoint := mkRx {
  r_mac : list Z;
  r_addr : list Z;
  r_prefix : Z;
  r_bits : Z;
  r_VLAN : Z;
  r_linkLen : Z;
  r_NoGRO : bool;
  r_learns : bool;
  r_neigh : neighbors;
  r_told : list (list Z * list Z * option (list Z));
  r_count : counter -> Z }.

Definition bump (c : counter) (e : rxEndpoint) : rxEndpoint :=
  mkRx (r_mac e) (r_addr e) (r_prefix e) (r_bits e) (r_VLAN e) (r_linkLen e) (r_NoGRO e) (r_learns e) (r_neigh e) (r_told e)
    (fun c' => if decide (c' = c) then u64 (r_count e c + 1) else r_count e c').

(** The table, and what [e.learned], when it is set, is told. *)
Definition with_neigh (n : neighbors) (told : list (list Z * list Z * option (list Z))) (e : rxEndpoint) : rxEndpoint :=
  mkRx (r_mac e) (r_addr e) (r_prefix e) (r_bits e) (r_VLAN e) (r_linkLen e) (r_NoGRO e) (r_learns e) n (r_told e ++ told) (r_count e).

(** [netip.Prefix.Contains] of an IPv4 address. *)
Definition prefix_Contains (prefix bits : Z) (ip : list Z) : bool := Z.shiftr (Z.lxor (be_val ip) prefix) (32 - bits) =? 0.

Section rx.
Context (place : list Z -> Z) (order : gmap (list Z) neighbor -> list (list Z * neighbor)).

Definition addressedToUs (f : list Z) (linkLen : Z) (e : rxEndpoint) : option bool :=
  dst ← slice 0 6 f;
  if negb (bool_decide (dst = r_mac e)) then Some false
  else
    src ← slice 6 12 f;
    m ← isMulticast src;
    if m || bool_decide (src = replicate 6 0) then Some false
    else
      ip ← slice linkLen (zlen f) f;
      d ← DestinationAddress ip;
      if negb (bool_decide (d = r_addr e)) then Some false
      else s ← SourceAddress ip; Some (prefix_Contains (r_prefix e) (r_bits e) s).

Definition e_learn (now now' : Z) (f : list Z) (linkLen : Z) (e : rxEndpoint) : option rxEndpoint :=
  ip ← slice (linkLen + 12) (linkLen + 16) f;
  mac ← slice 6 12 f;
  let '(changed, ev, n) := n_learn order now now' ip mac (r_neigh e) in
  Some (with_neigh n (if changed && r_learns e then [(ip, mac, ev)] else []) e).

Definition AddNeighbor (now : Z) (ip mac : list Z) (e : rxEndpoint) : rxEndpoint :=
  let '(changed, ev, n) := n_pin order now ip mac (r_neigh e) in
  with_neigh n (if changed && r_learns e then [(ip, mac, ev)] else []) e.

(** NewPacketBuffer over one view of the frame's bytes. *)
Definition rx_packet (proto qi pktType : Z) (b : list Z) (checked : bool) : PacketBuffer :=
  mkPacket (mkBuffer (if zlen b =? 0 then [] else [b]) (zlen b)) 0 0 0 (fun _ => mkInfo 0 0) proto 0 (u32 qi) [] (mkGSO GSONone false 0 0 0 0) pktType checked.

Definition pkt_type (f : list Z) (e : rxEndpoint) : option Z :=
  dst ← slice 0 6 f;
  if bool_decide (dst = r_mac e) then Some PacketHost
  else if bool_decide (dst = broadcastMAC) then Some PacketBroadcast
  else m ← isMulticast dst; Some (if (m : bool) then PacketMulticast else PacketOtherHost).

(** The packet handed on, with whether it went through GRO, and the protocol. *)
Definition hand_over (qi : Z) (f : list Z) (linkLen pktLen proto : Z) (e : rxEndpoint) : option (option (bool * Z * PacketBuffer) * rxEndpoint) :=
  let e := bump cRx e in
  b ← slice 0 pktLen f;
  t ← pkt_type f e;
  let gro := negb (r_NoGRO e) && (proto =? IPv4ProtocolNumber) in
  '(_, _, pkt) ← consume linkHeader linkLen (rx_packet proto qi t b gro);
  Some (Some (gro, proto, pkt), if gro then bump cGroFrames e else e).

Definition deliver (now now' : Z) (qi : Z) (f : list Z) (e : rxEndpoint) : option (option (bool * Z * PacketBuffer) * rxEndpoint) :=
  '(linkLen, et, ok) ← parseFrame f (r_VLAN e);
  if negb ok then Some (None, bump cWrongVLAN e)
  else
    src ← slice 6 12 f;
    if bool_decide (src = r_mac e) then Some (None, bump cOwnEcho e)
    else if et =? etherTypeIPv4 then
      if zlen f <? linkLen + ipv4MinHdrLen then Some (None, bump cRunt e)
      else
        ip ← slice linkLen (zlen f) f;
        v ← checksumsValid place ip;
        if negb v then Some (None, bump cBadCsum e)
        else
          fo ← FragmentOffset ip;
          fl ← IPFlags ip;
          if negb (fo =? 0) || negb (Z.land fl IPv4FlagMoreFragments =? 0) then Some (None, bump cFragments e)
          else
            total ← TotalLength ip;
            us ← addressedToUs f linkLen e;
            e ← (if (us : bool) then e_learn now now' f linkLen e else Some e);
            hand_over qi f linkLen (linkLen + total) IPv4ProtocolNumber e
    else if et =? etherTypeARP then
      if zlen f <? linkLen + ARPSize then Some (None, bump cRunt e) else hand_over qi f linkLen (zlen f) ARPProtocolNumber e
    else Some (None, bump cNotIP e).

(** ** The header of what is sent *)

Definition AddHeader (pkt : PacketBuffer) (e : rxEndpoint) : option (PacketBuffer * rxEndpoint) :=
  '(dst, pkt, e) ← (if zlen (pk_RemoteLinkAddress pkt) =? 6 then Some (pk_RemoteLinkAddress pkt, pkt, e)
    else
      '(nh, pkt) ← hdr_Slice networkHeader pkt;
      if (pk_NetworkProtocolNumber pkt =? IPv4ProtocolNumber) && (zlen nh >=? ipv4MinHdrLen) then
        d ← slice 16 20 nh;
        Some (match n_lookup d (r_neigh e) with Some mac => (mac, pkt, e) | None => (broadcastMAC, pkt, bump cUnknownMAC e) end)
      else Some (broadcastMAC, pkt, bump cUnknownMAC e));
  '(hdr, pkt) ← push linkHeader (r_linkLen e) pkt;
  b ← view_slice hdr (pk_buf pkt);
  '(_, b) ← putHeader dst (r_mac e) (r_VLAN e) (u16 (pk_NetworkProtocolNumber pkt)) b;
  buf ← view_store hdr b (pk_buf pkt);
  Some (with_buf buf pkt, e).

Definition ParseHeader (pkt : PacketBuffer) (e : rxEndpoint) : option (bool * PacketBuffer) :=
  '(_, ok, pkt) ← consume linkHeader (r_linkLen e) pkt; Some (ok, pkt).
End rx.
