(* ===== verification/NetRxThms.v ===== *)
(** Link headers there and back, and what receiving keeps. *)

From stdpp Require Import prelude list numbers strings gmap.
From S2P Require Import Prelude Desc Bytes Csum GvChecksum NetHeader NetPacket NetGso NetGsoThms NetTx NetTxThms NetNeigh NetRx.

(** ** Ethernet headers *)

(** The bytes of a header: addresses, the tag when there is one, the type. *)
Definition eth (dst src : list Z) (vlan et : Z) : list Z :=
  dst ++ src ++ (if vlan =? 0 then [] else [0x81; 0; vlan / 256 mod 16; vlan mod 256]) ++ [et / 256 mod 256; et mod 256].

Lemma cut6 (l : list Z) : zlen l = 6 -> exists a b c d e f, l = [a; b; c; d; e; f].
Proof. intros H. assert (Hn : length l = 6%nat) by (unfold zlen in H; lia). do 6 (destruct l as [|? l]; [discriminate|]). destruct l; [|discriminate]. repeat eexists. Qed.

Lemma zlen_eth dst src vlan et : zlen dst = 6 -> zlen src = 6 -> zlen (eth dst src vlan et) = linkHeaderLen vlan.
Proof. intros Hd Hs. unfold eth, linkHeaderLen. rewrite !zlen_app, Hd, Hs. by destruct (vlan =? 0). Qed.

Lemma tag_high vlan : Z.land (u8 (Z.shiftr vlan 8)) 15 = vlan / 256 mod 16.
Proof.
  change 15 with (Z.ones 4). rewrite Z.land_ones, Z.shiftr_div_pow2 by lia. unfold u8. change (2 ^ 8) with 256. change (2 ^ 4) with 16.
  pose proof (mod_mod_pow2 (vlan / 256) 4 8 ltac:(lia)) as E. change (2 ^ 8) with 256 in E. change (2 ^ 4) with 16 in E. exact E.
Qed.

Lemma u8_shiftr et : u8 (Z.shiftr et 8) = et / 256 mod 256.
Proof. rewrite Z.shiftr_div_pow2 by lia. reflexivity. Qed.

Lemma putHeader_spec dst src vlan et b : zlen dst = 6 -> zlen src = 6 -> zlen b = linkHeaderLen vlan -> putHeader dst src vlan et b = Some (linkHeaderLen vlan, eth dst src vlan et).
Proof.
  intros Hd Hs Hb. destruct (cut6 dst Hd) as (d1 & d2 & d3 & d4 & d5 & d6 & ->). destruct (cut6 src Hs) as (s1 & s2 & s3 & s4 & s5 & s6 & ->).
  unfold linkHeaderLen in *. unfold putHeader, eth. rewrite u8_shiftr, tag_high. destruct (vlan =? 0); cbn [negb] in *.
  - assert (Hn : length b = 14%nat) by (unfold zlen, etherHdrLen in Hb; lia). do 14 (destruct b as [|? b]; [discriminate|]). destruct b; [|discriminate]. reflexivity.
  - assert (Hn : length b = 18%nat) by (unfold zlen, vlanHdrLen in Hb; lia). do 18 (destruct b as [|? b]; [discriminate|]). destruct b; [|discriminate]. reflexivity.
Qed.

Lemma word_split v : 0 <= v < 2 ^ 16 -> v / 256 mod 256 * 256 + v mod 256 = v.
Proof. intros Hv. rewrite (Z.mod_small (v / 256)) by (split; [apply Z.div_pos; lia|apply Z.div_lt_upper_bound; lia]). pose proof (Z.div_mod v 256 ltac:(lia)). lia. Qed.

Lemma byte_mod v : byte_ok (v mod 256).
Proof. apply Z.mod_pos_bound. lia. Qed.

(** A header is read back as it was written; [et] of an untagged frame cannot
    be the tag's own type. *)
Lemma parseFrame_eth dst src vlan et P : zlen dst = 6 -> zlen src = 6 -> 0 <= vlan < 4096 -> 0 <= et < 2 ^ 16 -> (vlan = 0 -> et <> etherTypeVLAN) ->
  parseFrame (eth dst src vlan et ++ P) vlan = Some (linkHeaderLen vlan, et, true).
Proof.
  intros Hd Hs Hv He Hne. pose proof (zlen_nonneg P). assert (Hl : zlen (eth dst src vlan et ++ P) = linkHeaderLen vlan + zlen P) by (by rewrite zlen_app, zlen_eth).
  unfold parseFrame. rewrite Hl. unfold linkHeaderLen in *. pose proof (be16_mid (dst ++ src)) as B12. rewrite zlen_app, Hd, Hs in B12. change (6 + 6) with 12 in B12. unfold eth. rewrite <- !app_assoc, (app_assoc dst src). destruct (Z.eqb_spec vlan 0) as [->|Hv0]; cbn [negb] in *.
  - unfold etherHdrLen. rewrite (proj2 (Z.ltb_ge _ 14)) by lia. cbn [app]. rewrite B12 by apply byte_mod. rewrite word_split by done. cbn [mbind option_bind]. rewrite (proj2 (Z.eqb_neq et _)) by auto. done.
  - unfold etherHdrLen, vlanHdrLen. rewrite (proj2 (Z.ltb_ge _ 14)), (proj2 (Z.ltb_ge _ 18)) by lia. cbn [app]. rewrite B12 by (unfold byte_ok; lia). cbn [mbind option_bind]. change (129 * 256 + 0 =? etherTypeVLAN) with true. cbn [negb].
    pose proof (be16_mid ((dst ++ src) ++ [129; 0])) as B14. rewrite !zlen_app, Hd, Hs in B14. change (6 + 6 + zlen [129; 0]) with 14 in B14. pose proof (be16_mid ((dst ++ src) ++ [129; 0; vlan / 256 mod 16; vlan mod 256])) as B16. rewrite !zlen_app, Hd, Hs in B16.
    change (6 + 6 + zlen [129; 0; vlan / 256 mod 16; vlan mod 256]) with 16 in B16. specialize (B14 (vlan / 256 mod 16) (vlan mod 256) (et / 256 mod 256 :: et mod 256 :: P) (byte_mod _)). specialize (B16 (et / 256 mod 256) (et mod 256) P (byte_mod _)). rewrite <- app_assoc in B14, B16. cbn [app] in B14, B16.
    rewrite B14. cbn [mbind option_bind]. change 4095 with (Z.ones 12). rewrite Z.land_ones by lia. change (2 ^ 12) with 4096. replace (vlan / 256 mod 16 * 256 + vlan mod 256) with vlan by divlia. rewrite Z.mod_small, Z.eqb_refl by lia. cbn [negb].
    rewrite B16. cbn [mbind option_bind]. by rewrite word_split.
Qed.

(** ** AddHeader *)

(** A packet the stack has built, down to its IPv4 header. *)
Record stacked (pk : PacketBuffer) (ip tcp data : list Z) : Prop := {
  sk_buf : buffer_ok (pk_buf pk);
  sk_bytes : drop (Z.to_nat (headerOffset pk)) (flat (pk_buf pk)) = ip ++ tcp ++ data;
  sk_room : pk_pushed pk <= pk_reserved pk <= zlen (flat (pk_buf pk));
  sk_pushed : pk_pushed pk = zlen ip + zlen tcp;
  sk_consumed : pk_consumed pk = 0;
  sk_link : hi_length (pk_headers pk linkHeader) = 0;
  sk_network : pk_headers pk networkHeader = mkInfo (- (zlen ip + zlen tcp)) (zlen ip);
  sk_transport : pk_headers pk transportHeader = mkInfo (- zlen tcp) (zlen tcp) }.

Lemma stacked_with_buf pk b ip tcp data : stacked pk ip tcp data -> flat b = flat (pk_buf pk) -> bu_size b = bu_size (pk_buf pk) -> stacked (with_buf b pk) ip tcp data.
Proof.
  intros [K1 K2 K3 K4 K5 K6 K7 K8] F S. split; try done; unfold buffer_ok, headerOffset in *; cbn [with_buf pk_buf pk_reserved pk_pushed]; by rewrite ?S, F.
Qed.

Lemma stacked_network pk ip tcp data : stacked pk ip tcp data -> exists b, hdr_Slice networkHeader pk = Some (ip, with_buf b pk) /\ stacked (with_buf b pk) ip tcp data.
Proof.
  intros K. pose proof (zlen_nonneg ip). pose proof (zlen_nonneg tcp). pose proof (zlen_nonneg data). destruct K as [K1 K2 K3 K4 K5 K6 K7 K8] eqn:EK. clear EK. unfold buffer_ok in K1. assert (L : zlen (drop (Z.to_nat (headerOffset pk)) (flat (pk_buf pk))) = zlen ip + zlen tcp + zlen data) by (rewrite K2, !zlen_app; lia). rewrite zlen_drop in L. unfold headerOffset in *.
  destruct (hdr_Slice_spec networkHeader pk) as (b & E & F & S); [apply K|unfold headerOffsetOf; rewrite K7; cbn; lia|rewrite K7; cbn; lia|unfold headerOffsetOf; rewrite K7; cbn; lia|].
  exists b. split; [|by apply stacked_with_buf]. rewrite E. do 3 f_equal. unfold headerOffsetOf. rewrite K7. cbn [hi_offset hi_length]. replace (pk_reserved pk + - (zlen ip + zlen tcp)) with (pk_reserved pk - pk_pushed pk) by lia. rewrite K2.
  unfold zlen. rewrite Nat2Z.id. apply take_app_length.
Qed.

(** Pushing and writing the link header. *)
Lemma push_link pk ip tcp data h n : stacked pk ip tcp data -> zlen h = n -> 0 < n -> pk_pushed pk + n <= pk_reserved pk ->
  exists v pk1 buf s, push linkHeader n pk = Some (v, pk1) /\ view_slice v (pk_buf pk1) = Some s /\ zlen s = n /\ view_store v h (pk_buf pk1) = Some buf /\
    outgoing (with_buf buf pk1) h ip tcp data /\ pk_GSO pk1 = pk_GSO pk /\ pk_NetworkProtocolNumber pk1 = pk_NetworkProtocolNumber pk /\ pk_TransportProtocolNumber pk1 = pk_TransportProtocolNumber pk /\ pk_Hash pk1 = pk_Hash pk.
Proof.
  intros [K1 K2 K3 K4 K5 K6 K7 K8] Hh Hn Hr. pose proof (zlen_nonneg ip). pose proof (zlen_nonneg tcp). pose proof (zlen_nonneg data). unfold push. rewrite K6. cbn [Z.gtb Z.compare]. rewrite Z.gtb_ltb, (proj2 (Z.ltb_ge _ _)) by lia.
  set (pk0 := mkPacket _ _ _ _ _ _ _ _ _ _ _ _). assert (Hi : pk_headers pk0 linkHeader = mkInfo (- (pk_pushed pk + n)) n) by reflexivity.
  assert (Ho : headerOffsetOf linkHeader pk0 = pk_reserved pk - (pk_pushed pk + n)) by (unfold headerOffsetOf; rewrite Hi; apply Z.add_opp_r). assert (Hl : hi_length (pk_headers pk0 linkHeader) = n) by (by rewrite Hi).
  unfold buffer_ok in K1. destruct (headerView_spec linkHeader pk0) as (v & b & E & F & S & L); [done|rewrite Ho; lia|rewrite Hl; lia|rewrite Ho, Hl; change (pk_buf pk0) with (pk_buf pk); lia|]. change (pk_buf pk0) with (pk_buf pk) in *. rewrite E. rewrite Ho, Hl in L.
  exists v, (with_buf b pk0). cbn [with_buf pk_buf]. rewrite (lies_slice _ _ _ _ L) by lia. destruct (lies_store v _ n b h L Hh) as (buf & Eb & Fb & Sb & _). rewrite slice_Some by (rewrite ?F; lia). eexists buf, _. split; [done|]. split; [done|].
  split; [rewrite zlen_take, zlen_drop, F; lia|]. split; [done|]. split; [|done].
  assert (Hz : zlen (flat (pk_buf pk)) = zlen (flat buf)) by (rewrite Fb, zlen_blit, F by (rewrite ?F; lia); done).
  split; cbn [with_buf pk_buf pk_reserved pk_pushed pk_consumed pk_headers]; unfold pk0; cbn [pk_reserved pk_pushed pk_consumed pk_headers]; unfold set_header; cbn; try lia; try done.
  - unfold buffer_ok. rewrite Sb, S. lia.
  - unfold headerOffset. cbn [with_buf pk_reserved pk_pushed]. rewrite Fb. unfold blit. rewrite drop_app_length' by (rewrite length_take, F; unfold zlen in *; lia). f_equal. rewrite F. unfold headerOffset in K2. rewrite <- K2. f_equal. unfold zlen in *. lia.
  - f_equal; lia.
Qed.

(** Where a packet goes: the route's address, else the table's, else everyone. *)
Definition next_hop (pk : PacketBuffer) (ip : list Z) (e : rxEndpoint) : list Z :=
  if zlen (pk_RemoteLinkAddress pk) =? 6 then pk_RemoteLinkAddress pk
  else match DestinationAddress ip ≫= fun d => n_lookup d (r_neigh e) with Some mac => mac | None => broadcastMAC end.

(** The endpoint as New sets it up. *)
Record endpoint_ok (e : rxEndpoint) : Prop := {
  eo_mac : zlen (r_mac e) = 6;
  eo_vlan : 0 <= r_VLAN e < 4096;
  eo_link : r_linkLen e = linkHeaderLen (r_VLAN e);
  eo_macs : forall a m, n_lookup a (r_neigh e) = Some m -> zlen m = 6 }.

Lemma next_hop_len pk ip e : endpoint_ok e -> zlen (next_hop pk ip e) = 6.
Proof.
  intros He. unfold next_hop. destruct (Z.eqb_spec (zlen (pk_RemoteLinkAddress pk)) 6); [done|]. destruct (DestinationAddress ip) as [d|]; cbn [mbind option_bind]; [|done]. destruct (n_lookup d (r_neigh e)) eqn:E; [by eapply He|done].
Qed.

Lemma linkHeaderLen_pos v : 0 < linkHeaderLen v <= vlanHdrLen.
Proof. unfold linkHeaderLen, etherHdrLen, vlanHdrLen. destruct (v =? 0); cbn; lia. Qed.

Lemma AddHeader_spec pk ip tcp data e : stacked pk ip tcp data -> endpoint_ok e -> pk_NetworkProtocolNumber pk = IPv4ProtocolNumber -> 20 <= zlen ip -> pk_pushed pk + r_linkLen e <= pk_reserved pk ->
  exists pk' e', AddHeader pk e = Some (pk', e') /\ outgoing pk' (eth (next_hop pk ip e) (r_mac e) (r_VLAN e) etherTypeIPv4) ip tcp data /\
    pk_GSO pk' = pk_GSO pk /\ pk_NetworkProtocolNumber pk' = pk_NetworkProtocolNumber pk /\ pk_TransportProtocolNumber pk' = pk_TransportProtocolNumber pk /\ pk_Hash pk' = pk_Hash pk.
Proof.
  intros K He Hp Hl Hr. pose proof (linkHeaderLen_pos (r_VLAN e)) as Hn. pose proof (next_hop_len pk ip e He) as Hh. set (dst := next_hop pk ip e) in *. set (h := eth dst (r_mac e) (r_VLAN e) etherTypeIPv4).
  assert (Lh : zlen h = r_linkLen e) by (unfold h; rewrite zlen_eth, (eo_link _ He); [done|done|apply He]). rewrite (eo_link _ He) in *.
  assert (Hpick : exists pk1 e1, (if zlen (pk_RemoteLinkAddress pk) =? 6 then Some (pk_RemoteLinkAddress pk, pk, e) else
      '(nh, pkt) ← hdr_Slice networkHeader pk;
      if (pk_NetworkProtocolNumber pkt =? IPv4ProtocolNumber) && (zlen nh >=? ipv4MinHdrLen) then d ← slice 16 20 nh; Some (match n_lookup d (r_neigh e) with Some mac => (mac, pkt, e) | None => (broadcastMAC, pkt, bump cUnknownMAC e) end)
      else Some (broadcastMAC, pkt, bump cUnknownMAC e)) = Some (dst, pk1, e1) /\ stacked pk1 ip tcp data /\ (exists b, pk1 = with_buf b pk) /\ r_mac e1 = r_mac e /\ r_VLAN e1 = r_VLAN e /\ r_linkLen e1 = r_linkLen e).
  { unfold dst, next_hop. destruct (Z.eqb_spec (zlen (pk_RemoteLinkAddress pk)) 6); [exists pk, e; split; [done|]; split; [done|]; split; [exists (pk_buf pk); by destruct pk|done]|].
    destruct (stacked_network _ _ _ _ K) as (b & -> & K'). cbn [mbind option_bind]. change (pk_NetworkProtocolNumber (with_buf b pk)) with (pk_NetworkProtocolNumber pk). rewrite Hp, Z.eqb_refl, Z.geb_leb, (proj2 (Z.leb_le _ _)) by (unfold ipv4MinHdrLen; lia). cbn [andb].
    unfold DestinationAddress. rewrite slice_Some by lia. cbn [mbind option_bind]. destruct (n_lookup _ (r_neigh e)); [exists (with_buf b pk), e|exists (with_buf b pk), (bump cUnknownMAC e)]; split_and!; eauto. }
  destruct Hpick as (pk1 & e1 & Ep & K1 & (b & Eb) & M1 & M2 & M3). unfold AddHeader. rewrite Ep. cbn [mbind option_bind]. rewrite M3, (eo_link _ He).
  destruct (push_link pk1 ip tcp data h (linkHeaderLen (r_VLAN e)) K1 Lh ltac:(lia)) as (v & pk2 & buf & s & -> & Es & Ls & Est & Og & G1 & G2 & G3 & G4); [by rewrite Eb|]. cbn [mbind option_bind]. rewrite Es. cbn [mbind option_bind].
  rewrite M1, M2, putHeader_spec; [|done|apply He|done]. cbn [mbind option_bind]. assert (Eu : u16 (pk_NetworkProtocolNumber pk2) = etherTypeIPv4) by (rewrite G2, Eb; cbn [with_buf pk_NetworkProtocolNumber]; by rewrite Hp). rewrite Eu. fold h. rewrite Est. cbn [mbind option_bind].
  exists (with_buf buf pk2), e1. split; [done|]. split; [done|]. cbn [with_buf pk_GSO pk_NetworkProtocolNumber pk_TransportProtocolNumber pk_Hash]. rewrite G1, G2, G3, G4, Eb. done.
Qed.

(** ** Delivery *)

Section delivery.
Context (place : list Z -> Z) (order : gmap (list Z) neighbor -> list (list Z * neighbor)).

Lemma checksumsValid_len b : checksumsValid place b = Some true -> exists t, TotalLength b = Some t /\ t <= zlen b.
Proof.
  unfold checksumsValid. case_if; [done|]. destruct (IPIsValid _ b) as [v|]; [|done]. cbn [mbind option_bind]. destruct (if v then _ else _) as [ck|]; [|done]. cbn [mbind option_bind]. destruct ck; [|done]. cbn [negb].
  destruct (TotalLength b) as [t|]; [|done]. cbn [mbind option_bind]. case_if; [done|]. intros _. exists t. split; [done|]. rewrite Z.gtb_ltb in *. to_prop. done.
Qed.

(** Only the table changes when a frame is learned from. *)
Lemma e_learn_keeps now now' f l e : l + 16 <= zlen f -> 0 <= l -> 12 <= zlen f -> exists n told, e_learn order now now' f l e = Some (with_neigh n told e).
Proof.
  intros Hl Hl0 Hf. unfold e_learn. rewrite !slice_Some by lia. cbn [mbind option_bind]. destruct (n_learn _ _ _ _ _ _) as [[ch ev] n]. eauto.
Qed.

Lemma addressedToUs_total f l e : 0 <= l -> l + 20 <= zlen f -> 12 <= zlen f -> exists b, addressedToUs f l e = Some b.
Proof.
  intros H0 Hl Hf. unfold addressedToUs. rewrite !slice_Some by lia. cbn [mbind option_bind]. case_if; [eauto|]. unfold isMulticast. destruct (get_at_Some 0 (take (Z.to_nat (12 - 6)) (drop (Z.to_nat 6) f))) as [x ->]; [rewrite zlen_take, zlen_drop; lia|]. cbn [mbind option_bind].
  case_if; [eauto|]. unfold DestinationAddress, SourceAddress. rewrite !slice_Some by (rewrite ?zlen_take, ?zlen_drop; lia). cbn [mbind option_bind]. case_if; eauto.
Qed.

(** ** Nothing on the wire makes it panic *)

Lemma slice_ok lo hi b s : bytes_ok b -> slice lo hi b = Some s -> bytes_ok s.
Proof. unfold slice. intros Hb E. case_if_in E; [|done]. injection E as <-. by apply Forall_take, Forall_drop. Qed.

Lemma get_be2 off b : bytes_ok b -> 0 <= off -> off + 2 <= zlen b -> exists v, get_be 2 off b = Some v /\ 0 <= v < 2 ^ 16.
Proof.
  intros Hb Ho Hl. unfold get_be. rewrite slice_Some by lia. cbn [mbind option_bind]. eexists. split; [done|]. set (s := take _ _). assert (Hz : zlen s = 2) by (unfold s; rewrite zlen_take, zlen_drop; lia).
  pose proof (be_val_range s (Forall_take _ _ _ (Forall_drop _ _ _ Hb))) as R. rewrite Hz in R. exact R.
Qed.

Lemma byte_times4 x : byte_ok x -> 0 <= u8 (Z.land x 15 * 4) <= 60.
Proof.
  intros Hx. change 15 with (Z.ones 4). rewrite Z.land_ones by lia. pose proof (Z.mod_pos_bound x (2 ^ 4) ltac:(lia)). rewrite u8_small by lia. lia.
Qed.

Lemma HeaderLength_some b : bytes_ok b -> 0 < zlen b -> exists h, HeaderLength b = Some h /\ 0 <= h <= 60.
Proof.
  intros Hb Hl. unfold HeaderLength. destruct (get_at_Some 0 b ltac:(lia)) as [x Hx]. rewrite Hx. cbn [mbind option_bind]. eexists. split; [done|]. apply byte_times4. rewrite get_at_lookup in Hx by lia. exact (proj1 (Forall_lookup _ _) Hb _ _ Hx).
Qed.

Lemma IPIsChecksumValid_total b h : bytes_ok b -> HeaderLength b = Some h -> 0 <= h <= zlen b -> exists v, IPIsChecksumValid place b = Some v.
Proof.
  intros Hb Hh Hl. unfold IPIsChecksumValid, IPCalculateChecksum. rewrite Hh. cbn [mbind option_bind]. destruct (slice 0 h b) as [s|] eqn:E; [|rewrite slice_Some in E by lia; done]. cbn [mbind option_bind].
  rewrite csum_sum by (first [lia | by eapply slice_ok]). cbn [mbind option_bind]. eauto.
Qed.

Lemma u16_of_ones x : 0 <= x -> 0 <= ones x < 2 ^ 16.
Proof. apply ones_u16. Qed.

Lemma TCPIsChecksumValid_total src dst x n seg d : bytes_ok src -> bytes_ok dst -> bytes_ok seg -> 0 <= x < 2 ^ 16 -> DataOffset seg = Some d -> 0 <= d <= zlen seg -> exists v, TCPIsChecksumValid place src dst x n seg = Some v.
Proof.
  intros Hs Hd Hg Hx Ho Hl. unfold TCPIsChecksumValid, TCPCalculateChecksum. rewrite Ho. cbn [mbind option_bind]. pose proof (u16_range (d + n)). pose proof (proj1 (wsum_range _ Hs)). pose proof (proj1 (wsum_range _ Hd)).
  rewrite PseudoHeaderChecksum_sum by (done || unfold TCPProtocolNumber; lia). cbn [mbind option_bind]. destruct (slice 0 d seg) as [h|] eqn:E; [|rewrite slice_Some in E by lia; done]. cbn [mbind option_bind].
  set (A := wsum src + wsum dst + u16 (d + n) + TCPProtocolNumber). assert (0 <= A) by (unfold A, TCPProtocolNumber; lia). pose proof (ones_u16 A ltac:(done)).
  rewrite csum_sum; [cbn [mbind option_bind]; eauto|exact (slice_ok _ _ _ _ Hg E)|]. rewrite Combine_sum by done. apply ones_u16. lia.
Qed.

Lemma UDPIsChecksumValid_total src dst x seg : bytes_ok src -> bytes_ok dst -> bytes_ok seg -> 0 <= x < 2 ^ 16 -> 8 <= zlen seg -> exists v, UDPIsChecksumValid place src dst x seg = Some v.
Proof.
  intros Hs Hd Hg Hx Hl. unfold UDPIsChecksumValid, UDPLength. destruct (get_be2 4 seg Hg ltac:(lia) ltac:(lia)) as (n & -> & Hn). cbn [mbind option_bind]. pose proof (proj1 (wsum_range _ Hs)). pose proof (proj1 (wsum_range _ Hd)).
  rewrite PseudoHeaderChecksum_sum by (done || unfold UDPProtocolNumber; lia). cbn [mbind option_bind]. unfold UDPMinimumSize. destruct (slice 0 8 seg) as [h|] eqn:E; [|rewrite slice_Some in E by lia; done]. cbn [mbind option_bind].
  set (A := wsum dst + wsum src + n + UDPProtocolNumber). assert (0 <= A) by (unfold A, UDPProtocolNumber; lia). pose proof (ones_u16 A ltac:(done)).
  rewrite csum_sum; [cbn [mbind option_bind]; eauto|exact (slice_ok _ _ _ _ Hg E)|]. rewrite Combine_sum by done. apply ones_u16. lia.
Qed.

(** The transport half of the check. *)
Lemma checksumsValid_total b : bytes_ok b -> exists v, checksumsValid place b = Some v.
Proof.
  intros Hb. unfold checksumsValid. case_if; [eauto|]. unfold IPv4MinimumSize in *. destruct (HeaderLength_some b Hb ltac:(lia)) as (h & Hh & Rh). destruct (get_be2 2 b Hb ltac:(lia) ltac:(lia)) as (t & Ht & Rt).
  unfold IPIsValid, TotalLength. rewrite Hh, Ht. unfold IPv4MinimumSize. rewrite (proj2 (Z.ltb_ge _ 20)) by lia. cbn [mbind option_bind].
  destruct ((h <? 20) || (h >? t) || (t >? zlen b)) eqn:Ec; [cbn [mbind option_bind negb]; eauto|]. rewrite !Z.gtb_ltb in Ec. to_prop. destruct (IPVersion b =? 4); [|cbn [mbind option_bind negb]; eauto].
  destruct (IPIsChecksumValid_total b h Hb Hh ltac:(lia)) as [ck ->]. cbn [mbind option_bind]. destruct ck; cbn [negb]; [|eauto]. rewrite Z.gtb_ltb, (proj2 (Z.ltb_ge _ _)) by lia.
  unfold FragmentOffset, IPFlags. destruct (get_be2 6 b Hb ltac:(lia) ltac:(lia)) as (fo & -> & _). cbn [mbind option_bind]. case_if; [eauto|]. destruct (slice h t b) as [seg|] eqn:Eg; [|rewrite slice_Some in Eg by lia; done]. cbn [mbind option_bind].
  assert (Hg : bytes_ok seg) by exact (slice_ok _ _ _ _ Hb Eg). unfold Protocol. destruct (get_at_Some 9 b ltac:(lia)) as [p ->]. cbn [mbind option_bind]. destruct (SourceAddress_ok b ltac:(lia) Hb) as (src & dst & -> & -> & Bs & Bd). cbn [mbind option_bind].
  destruct (p =? UDPProtocolNumber); [|destruct (p =? TCPProtocolNumber); [|eauto]].
  - unfold UDPMinimumSize. case_if; [eauto|]. unfold UDPChecksum. destruct (get_be2 6 seg Hg ltac:(lia) ltac:(lia)) as (c & -> & _). cbn [mbind option_bind]. case_if; [eauto|].
    destruct (slice 8 (zlen seg) seg) as [pl|] eqn:Ep; [|rewrite slice_Some in Ep by lia; done]. cbn [mbind option_bind]. assert (Hpl : bytes_ok pl) by exact (slice_ok _ _ _ _ Hg Ep). rewrite csum_sum by (done || lia). cbn [mbind option_bind]. pose proof (proj1 (wsum_range _ Hpl)).
    apply UDPIsChecksumValid_total; try done. apply ones_u16. lia.
  - unfold TCPMinimumSize. case_if; [eauto|]. destruct (get_at_Some 12 seg ltac:(lia)) as [x Hx]. assert (Ho : DataOffset seg = Some (u8 (Z.shiftr x 4 * 4))) by (unfold DataOffset; rewrite Hx; done). rewrite Ho. cbn [mbind option_bind]. case_if; [eauto|]. rewrite Z.gtb_ltb in *. to_prop.
    destruct (slice (u8 (Z.shiftr x 4 * 4)) (zlen seg) seg) as [pl|] eqn:Ep; [|rewrite slice_Some in Ep by lia; done]. cbn [mbind option_bind]. assert (Hpl : bytes_ok pl) by exact (slice_ok _ _ _ _ Hg Ep). rewrite csum_sum by (done || lia). cbn [mbind option_bind]. pose proof (proj1 (wsum_range _ Hpl)).
    eapply TCPIsChecksumValid_total; try done; [apply ones_u16; lia|lia].
Qed.

Lemma with_neigh_same e : with_neigh (r_neigh e) [] e = e.
Proof. unfold with_neigh. rewrite app_nil_r. by destruct e. Qed.

Lemma pkt_type_total f e : 6 <= zlen f -> exists t, pkt_type f e = Some t.
Proof.
  intros Hl. unfold pkt_type. rewrite slice_Some by lia. cbn [mbind option_bind]. case_if; [eauto|]. case_if; [eauto|]. unfold isMulticast. destruct (get_at_Some 0 (take (Z.to_nat (6 - 0)) (drop (Z.to_nat 0) f))) as [x ->]; [rewrite zlen_take, zlen_drop; lia|]. cbn [mbind option_bind]. eauto.
Qed.

(** A packet as it is handed to the stack: its bytes, and where they go on
    past the link header. *)
Record received (qi proto l : Z) (gro : bool) (b : list Z) (pkt : PacketBuffer) : Prop := {
  rc_bytes : flat (pk_buf pkt) = b;
  rc_data : dataOffset pkt = l;
  rc_proto : pk_NetworkProtocolNumber pkt = proto;
  rc_hash : pk_Hash pkt = u32 qi;
  rc_checked : pk_RXChecksumValidated pkt = gro }.

Lemma hand_over_spec qi f l n proto e : 0 < l -> l <= n <= zlen f -> 6 <= zlen f ->
  let gro := negb (r_NoGRO e) && (proto =? IPv4ProtocolNumber) in
  exists pkt, hand_over qi f l n proto e = Some (Some (gro, proto, pkt), if gro then bump cGroFrames (bump cRx e) else bump cRx e) /\ received qi proto l gro (take (Z.to_nat n) f) pkt.
Proof.
  intros Hl Hn Hf. cbv zeta. unfold hand_over. rewrite (slice_Some 0 n) by lia. cbn [mbind option_bind]. rewrite Z.sub_0_r. change (Z.to_nat 0) with 0%nat. rewrite drop_0. destruct (pkt_type_total f (bump cRx e) Hf) as [t ->]. cbn [mbind option_bind].
  change (r_NoGRO (bump cRx e)) with (r_NoGRO e). set (gro := negb (r_NoGRO e) && (proto =? IPv4ProtocolNumber)). set (b := take (Z.to_nat n) f). assert (Hb : zlen b = n) by (unfold b; rewrite zlen_take; lia).
  unfold consume, rx_packet. cbn [pk_headers hi_length pk_buf bu_size pk_reserved pk_consumed pk_pushed pk_NetworkProtocolNumber pk_TransportProtocolNumber pk_Hash pk_RemoteLinkAddress pk_GSO pk_PktType pk_RXChecksumValidated]. change (0 >? 0) with false. cbv match.
  rewrite Z.gtb_ltb, (proj2 (Z.ltb_ge _ _)) by lia. rewrite (proj2 (Z.eqb_neq (zlen b) 0)) by lia. set (pk0 := mkPacket _ _ _ _ _ _ _ _ _ _ _ _). assert (Hi : pk_headers pk0 linkHeader = mkInfo 0 l) by reflexivity. assert (Hfl : flat (pk_buf pk0) = b) by (unfold flat, pk0; cbn; by rewrite app_nil_r).
  assert (Ho : headerOffsetOf linkHeader pk0 = 0) by (unfold headerOffsetOf; by rewrite Hi).
  destruct (headerView_spec linkHeader pk0) as (v & b' & E & F & _ & _); [unfold buffer_ok; by rewrite Hfl|rewrite Ho; lia|rewrite Hi; cbn; lia|rewrite Ho, Hi; cbn; lia|]. rewrite E. cbn [mbind option_bind].
  eexists. split; [done|]. split; try done. cbn [with_buf pk_buf]. by rewrite F.
Qed.

(** Every frame received is counted once: dropped for one reason, or handed
    over; an IPv4 packet only with its checksums right, whole and unpadded. *)
Definition drop_counters : list counter := [cWrongVLAN; cOwnEcho; cRunt; cBadCsum; cFragments; cNotIP].

Definition handed (qi : Z) (f : list Z) (e : rxEndpoint) (gro : bool) (proto : Z) (pkt : PacketBuffer) (e' : rxEndpoint) : Prop :=
  exists l et n neigh told, parseFrame f (r_VLAN e) = Some (l, et, true) /\ slice 6 12 f <> Some (r_mac e) /\
    received qi proto l gro (take (Z.to_nat n) f) pkt /\ gro = negb (r_NoGRO e) && (proto =? IPv4ProtocolNumber) /\
    e' = (if gro then bump cGroFrames (bump cRx (with_neigh neigh told e)) else bump cRx (with_neigh neigh told e)) /\
    (neigh = r_neigh e \/ proto = IPv4ProtocolNumber /\ addressedToUs f l e = Some true) /\
    (et = etherTypeARP /\ proto = ARPProtocolNumber /\ n = zlen f \/
     et = etherTypeIPv4 /\ proto = IPv4ProtocolNumber /\ exists ip t fl, slice l (zlen f) f = Some ip /\ checksumsValid place ip = Some true /\ TotalLength ip = Some t /\ n = l + t /\
       FragmentOffset ip = Some 0 /\ IPFlags ip = Some fl /\ Z.land fl IPv4FlagMoreFragments = 0).

Lemma parseFrame_cases f v : exists l et ok, parseFrame f v = Some (l, et, ok) /\ (ok = true -> 14 <= l <= 18 /\ l <= zlen f).
Proof.
  unfold parseFrame, etherHdrLen, vlanHdrLen. destruct (zlen f <? 14) eqn:E; to_prop; [do 3 eexists; split; [done|]; discriminate|]. destruct (be16_Some 12 f ltac:(lia) ltac:(lia)) as [et ->]. cbn [mbind option_bind].
  case_if; [destruct (v =? 0); cbn [negb]; do 3 eexists; (split; [done|]; (discriminate || lia))|]. case_if; [do 3 eexists; split; [done|]; discriminate|]. destruct (be16_Some 14 f ltac:(lia) ltac:(lia)) as [tci ->]. cbn [mbind option_bind].
  case_if; [do 3 eexists; split; [done|]; discriminate|]. destruct (be16_Some 16 f ltac:(lia) ltac:(lia)) as [et' ->]. cbn [mbind option_bind]. do 3 eexists. split; [done|]. lia.
Qed.

Lemma deliver_cases now now' qi f e : bytes_ok f ->
  exists r e', deliver place order now now' qi f e = Some (r, e') /\
    match r with None => exists c, c ∈ drop_counters /\ e' = bump c e | Some (gro, proto, pkt) => handed qi f e gro proto pkt e' end.
Proof.
  intros Hb. unfold deliver. destruct (parseFrame_cases f (r_VLAN e)) as (l & et & ok & Ep & Hok). rewrite Ep. cbn [mbind option_bind].
  assert (D : forall c, c ∈ drop_counters -> exists r e', Some (None, bump c e) = Some (r, e') /\ match r with None => exists c, c ∈ drop_counters /\ e' = bump c e | Some (gro, proto, pkt) => handed qi f e gro proto pkt e' end) by (intros c Hc; do 2 eexists; split; [done|]; by exists c).
  destruct ok; cbn [negb]; [|apply D; set_solver]. destruct (Hok eq_refl) as [Hl1 Hl2]. destruct (slice 6 12 f) as [src|] eqn:Es; [|rewrite slice_Some in Es by lia; done]. cbn [mbind option_bind].
  case_if; [apply D; set_solver|]. apply bool_decide_eq_false in E. assert (Hsrc : Some src <> Some (r_mac e)) by congruence. destruct (Z.eqb_spec et etherTypeIPv4) as [He|He].
  - unfold ipv4MinHdrLen. case_if; [apply D; set_solver|]. destruct (slice l (zlen f) f) as [ip|] eqn:Ei; [|rewrite slice_Some in Ei by lia; done]. cbn [mbind option_bind]. pose proof (slice_length _ _ _ _ Ei) as Li. assert (Hib : bytes_ok ip) by exact (slice_ok _ _ _ _ Hb Ei).
    destruct (checksumsValid_total ip Hib) as [v Ev]. rewrite Ev. cbn [mbind option_bind]. destruct v; cbn [negb]; [|apply D; set_solver]. destruct (checksumsValid_len ip Ev) as (t & Et & Lt).
    destruct (FragmentOffset ip) as [fo|] eqn:Efo; [|unfold FragmentOffset, get_be in Efo; rewrite slice_Some in Efo by lia; done]. cbn [mbind option_bind]. destruct (IPFlags ip) as [fl|] eqn:Efl; [|unfold IPFlags, get_be in Efl; rewrite slice_Some in Efl by lia; done]. cbn [mbind option_bind].
    case_if; [apply D; set_solver|]. to_prop. subst fo. rewrite Et. cbn [mbind option_bind]. destruct (addressedToUs_total f l e ltac:(lia) ltac:(lia) ltac:(lia)) as [us Eu]. rewrite Eu. cbn [mbind option_bind].
    assert (Rt : 0 <= t) by (unfold TotalLength in Et; destruct (get_be2 2 ip Hib ltac:(lia) ltac:(lia)) as (t' & Et' & Rt'); rewrite Et' in Et; injection Et as <-; lia).
    assert (Hlearn : exists n told, (if (us : bool) then e_learn order now now' f l e else Some e) = Some (with_neigh n told e) /\ (n = r_neigh e \/ us = true)).
    { destruct us; [destruct (e_learn_keeps now now' f l e ltac:(lia) ltac:(lia) ltac:(lia)) as (n & told & ->); exists n, told; auto|exists (r_neigh e), []; rewrite with_neigh_same; auto]. }
    destruct Hlearn as (n & told & -> & Hn). cbn [mbind option_bind]. destruct (hand_over_spec qi f l (l + t) IPv4ProtocolNumber (with_neigh n told e) ltac:(lia) ltac:(lia) ltac:(lia)) as (pkt & Eh & Hr). change (r_NoGRO (with_neigh n told e)) with (r_NoGRO e) in *.
    rewrite Eh. do 2 eexists. split; [done|]. exists l, et, (l + t), n, told. rewrite Es. split_and!; try done; [destruct Hn as [->| ->]; auto|]. right. split; [done|]. split; [done|]. exists ip, t, fl. by split_and!.
  - destruct (Z.eqb_spec et etherTypeARP) as [Ha|Ha]; [|apply D; set_solver]. unfold ARPSize. case_if; [apply D; set_solver|].
    destruct (hand_over_spec qi f l (zlen f) ARPProtocolNumber e ltac:(lia) ltac:(lia) ltac:(lia)) as (pkt & Eh & Hr). rewrite Eh. do 2 eexists. split; [done|]. exists l, et, (zlen f), (r_neigh e), []. rewrite Es, with_neigh_same. split_and!; try done; by left.
Qed.
End delivery.
