(* ===== verification/NetConfig.v ===== *)
(** Setting a stack up: netstack/config.go, and newEndpoint, SetMTU and the
    sizes it announces in netstack/endpoint.go.

    [net/netip] is modelled as far as it is used: an address is IPv4, some other
    kind, or none; a prefix without a length is the invalid one.  A device is
    what newEndpoint asks of it ([Device]). *)

From stdpp Require Import prelude list numbers strings gmap.
From S2P Require Import Prelude Bytes Desc Csum GvChecksum NetHeader NetPacket NetGso NetGsoThms NetTx NetTxThms NetNeigh NetRx NetRxThms NetOptions.

(** ** netip *)

Inductive Addr := AddrNone | Addr4 (v : Z) | AddrOther.

Record Prefix := mkPrefix { p_Addr : Addr; p_Bits : Z }.

Definition a_IsValid (a : Addr) : bool := match a with AddrNone => false | _ => true end.
Definition Is4 (a : Addr) : bool := match a with Addr4 _ => true | _ => false end.
Definition p_IsValid (p : Prefix) : bool := p_Bits p >=? 0.

(** [Masked] of an IPv4 prefix, as a number. *)
Definition masked (v bits : Z) : Z := Z.land v (u32 (Z.shiftl 0xffffffff (32 - bits))).

Definition p_Contains (p : Prefix) (a : Addr) : bool :=
  match p_Addr p, a with
  | Addr4 v, Addr4 w => p_IsValid p && (Z.shiftr (Z.lxor w v) (32 - p_Bits p) =? 0)
  | _, _ => false
  end.

Definition IsUnspecified (v : Z) : bool := v =? 0.
Definition IsLoopback (v : Z) : bool := Z.shiftr v 24 =? 127.
Definition IsMulticast (v : Z) : bool := Z.land (Z.shiftr v 24) 0xf0 =? 0xe0.

(** [net.CIDRMask(ones, 32)]. *)
Fixpoint cidr_mask (k : nat) (n : Z) : list Z :=
  match k with
  | O => []
  | S k => if n >=? 8 then 0xff :: cidr_mask k (n - 8) else u8 (Z.lnot (Z.shiftr 0xff n)) :: cidr_mask k 0
  end.

(** ** config.go *)

Record Config := mkCfg {
  c_Addr : Prefix;
  c_MAC : list Z;
  c_VLAN : Z;
  c_MTU : Z;
  c_Gateway : Addr;
  c_Neighbors : list (Addr * list Z);
  c_NoGSO : bool;
  c_NoGRO : bool;
  c_TxQueueLen : Z;
  c_DirectTx : bool;
  c_SendBufferSize : Z;
  c_ReceiveBufferSize : Z;
  c_BusyPoll : bool;
  c_FastClock : bool }.

Definition defaultMTU : Z := 1500.
Definition minMSS : Z := 536.
Definition defaultTxQueueLen : Z := 1000.
Definition maxTxQueueLen : Z := 2 ^ 20.
Definition defaultBuffer : Z := 4 * 2 ^ 20.
Definition minBuffer : Z := 4 * 2 ^ 10.
Definition maxBuffer : Z := 32 * 2 ^ 20.

Definition broadcastOf (v bits : Z) : Z :=
  be_val (zip_with (fun a m => Z.lor a (u8 (Z.lnot m))) (be_bytes 4 (masked v bits)) (cidr_mask 4 bits)).

(** One of the two buffer sizes. *)
Definition buffer_default (v : Z) : res Z :=
  if v =? 0 then Ok defaultBuffer
  else if (v <? minBuffer) || (v >? maxBuffer) then Err (Errorf "buffer size is out of range")
  else Ok v.

Definition with_sizes (q s r : Z) (c : Config) : Config :=
  mkCfg (c_Addr c) (c_MAC c) (c_VLAN c) (c_MTU c) (c_Gateway c) (c_Neighbors c) (c_NoGSO c) (c_NoGRO c) q (c_DirectTx c) s r (c_BusyPoll c) (c_FastClock c).
Definition with_MTU (mtu : Z) (c : Config) : Config :=
  mkCfg (c_Addr c) (c_MAC c) (c_VLAN c) mtu (c_Gateway c) (c_Neighbors c) (c_NoGSO c) (c_NoGRO c) (c_TxQueueLen c) (c_DirectTx c) (c_SendBufferSize c) (c_ReceiveBufferSize c) (c_BusyPoll c) (c_FastClock c).

(** [None] is a panic: the six bytes of the MAC are indexed. *)
Definition mac_or (mac : list Z) : option Z :=
  a ← get_at 0 mac; b ← get_at 1 mac; c ← get_at 2 mac; d ← get_at 3 mac; e ← get_at 4 mac; f ← get_at 5 mac;
  Some (Z.lor (Z.lor (Z.lor (Z.lor (Z.lor a b) c) d) e) f).

Definition withDefaults (c : Config) : option (res Config) :=
  match p_Addr (c_Addr c) with
  | Addr4 a =>
    let bits := p_Bits (c_Addr c) in
    if negb (p_IsValid (c_Addr c)) then Some (Err (Errorf "Addr must be an IPv4 prefix"))
    else if IsUnspecified a || IsLoopback a || IsMulticast a then Some (Err (Errorf "Addr is not a host address"))
    else if (bits <? 31) && (a =? masked a bits) then Some (Err (Errorf "Addr is the network address"))
    else if (bits <? 31) && (a =? broadcastOf a bits) then Some (Err (Errorf "Addr is the broadcast address"))
    else if negb (zlen (c_MAC c) =? 6) then Some (Err (Errorf "MAC must be 6 bytes"))
    else
      m0 ← get_at 0 (c_MAC c);
      if negb (Z.land m0 1 =? 0) then Some (Err (Errorf "MAC is a group address"))
      else
        any ← mac_or (c_MAC c);
        if any =? 0 then Some (Err (Errorf "MAC is all zeros"))
        else if c_VLAN c >? 4094 then Some (Err (Errorf "VLAN is out of range"))
        else if c_MTU c <? 0 then Some (Err (Errorf "MTU is negative"))
        else if a_IsValid (c_Gateway c) && negb (Is4 (c_Gateway c)) then Some (Err (Errorf "Gateway must be IPv4"))
        else if a_IsValid (c_Gateway c) && negb (p_Contains (c_Addr c) (c_Gateway c)) then Some (Err (Errorf "gateway is not on the prefix"))
        else if existsb (fun n => negb (Is4 (fst n)) || negb (zlen (snd n) =? 6)) (c_Neighbors c) then Some (Err (Errorf "neighbor is not an IPv4 address and a MAC"))
        else if (c_TxQueueLen c <? 0) || (c_TxQueueLen c >? maxTxQueueLen) then Some (Err (Errorf "TxQueueLen is out of range"))
        else
          let q := if c_TxQueueLen c =? 0 then defaultTxQueueLen else c_TxQueueLen c in
          match buffer_default (c_SendBufferSize c) with
          | Err e => Some (Err e)
          | Ok s =>
            match buffer_default (c_ReceiveBufferSize c) with
            | Err e => Some (Err e)
            | Ok r => Some (Ok (with_sizes q s r c))
            end
          end
  | _ => Some (Err (Errorf "Addr must be an IPv4 prefix"))
  end.

(** ** newEndpoint *)

Definition IPv4MinimumMTU : Z := 68.

(** Frames and slots free on a transmit queue when the endpoint is built. *)
Record Device := mkDev { d_rxQueues : Z; d_txRooms : list (Z * Z); d_MaxFrameSize : Z }.

(** The endpoint: what [NetTx] and [NetRx] have of it, and the sizes. *)
Record endpoint := mkEndpoint {
  ep_cfg : Config;
  ep_tx : txEndpoint;
  ep_rx : rxEndpoint;
  ep_maxMTU : Z;
  ep_gsoMax : Z;
  ep_mtu : Z;
  ep_rxq : Z;
  ep_txq : Z }.

(** The smallest of the queues. *)
Definition room_of (rooms : list (Z * Z)) : Z :=
  match rooms with
  | [] => 0
  | r :: rooms => foldl (fun room r => let x := Z.min (fst r) (snd r) in if x <? room then x else room) (Z.min (fst r) (snd r)) rooms
  end.

Definition newEndpoint (dev : Device) (cfg : Config) : option (res endpoint) :=
  if (d_rxQueues dev =? 0) || (zlen (d_txRooms dev) =? 0) then Some (Err (Errorf "a stack needs both kinds of queue"))
  else
    let linkLen := linkHeaderLen (c_VLAN cfg) in
    let maxMTU := d_MaxFrameSize dev - linkLen in
    let cfg := if c_MTU cfg =? 0 then with_MTU (Z.min defaultMTU maxMTU) cfg else cfg in
    if c_MTU cfg >? maxMTU then Some (Err (Errorf "MTU exceeds what a frame carries"))
    else if c_MTU cfg <? IPv4MinimumMTU then Some (Err (Errorf "MTU is below the IPv4 minimum"))
    else
      match p_Addr (c_Addr cfg) with
      | Addr4 a =>
        let room := room_of (d_txRooms dev) in
        Some (Ok (mkEndpoint cfg
          (mkTx linkLen (c_DirectTx cfg) false None 0 0 0 0 0)
          (mkRx (take 6 (c_MAC cfg ++ replicate 6 0)) (be_bytes 4 a) (masked a (p_Bits (c_Addr cfg))) (p_Bits (c_Addr cfg)) (c_VLAN cfg) linkLen (c_NoGRO cfg) false newNeighbors [] (fun _ => 0))
          maxMTU
          (u32 (Z.max (c_MTU cfg) (Z.min gsoMaxSize (Z.quot room 2 * minMSS))))
          (u32 (c_MTU cfg))
          (d_rxQueues dev)
          (zlen (d_txRooms dev))))
      | _ => None
      end.

Definition SetMTU (mtu : Z) (e : endpoint) : endpoint :=
  mkEndpoint (ep_cfg e) (ep_tx e) (ep_rx e) (ep_maxMTU e) (ep_gsoMax e) (u32 (Z.min mtu (ep_maxMTU e))) (ep_rxq e) (ep_txq e).

(** ** What is accepted *)

Lemma masked_val v bits : 0 <= v < 2 ^ 32 -> 0 <= bits <= 32 -> masked v bits = v / 2 ^ (32 - bits) * 2 ^ (32 - bits).
Proof.
  intros Hv Hb. unfold masked. assert (0 < 2 ^ (32 - bits)) by (apply Z.pow_pos_nonneg; lia). assert (E : u32 (Z.shiftl 0xffffffff (32 - bits)) = 2 ^ 32 - 2 ^ (32 - bits)).
  { rewrite Z.shiftl_mul_pow2 by lia. unfold u32. assert (2 ^ 32 = 2 ^ (32 - bits) * 2 ^ bits) as P by (rewrite <- Z.pow_add_r by lia; f_equal; lia). symmetry. apply (Z.mod_unique _ _ (2 ^ (32 - bits) - 1)); [left; split; [|lia]|].
    - assert (2 ^ (32 - bits) <= 2 ^ 32) by (apply Z.pow_le_mono_r; lia). lia.
    - change 0xffffffff with (2 ^ 32 - 1). lia. }
  rewrite E. apply Z.bits_inj'. intros n Hn. rewrite Z.land_spec. rewrite <- Z.shiftr_div_pow2, <- Z.shiftl_mul_pow2 by lia.
  assert (M : 2 ^ 32 - 2 ^ (32 - bits) = Z.shiftl (Z.ones bits) (32 - bits)).
  { rewrite Z.shiftl_mul_pow2, Z.ones_equiv by lia. rewrite Z.mul_pred_l, <- Z.pow_add_r by lia. f_equal. f_equal. lia. }
  rewrite M. destruct (Z_lt_le_dec n (32 - bits)).
  - rewrite !Z.shiftl_spec_low by lia. by rewrite andb_false_r.
  - rewrite !Z.shiftl_spec by lia. rewrite Z.shiftr_spec by lia. replace (n - (32 - bits) + (32 - bits)) with n by lia. destruct (Z_lt_le_dec (n - (32 - bits)) bits).
    + rewrite Z.ones_spec_low by lia. by rewrite andb_true_r.
    + rewrite Z.ones_spec_high by lia. rewrite andb_false_r. destruct (Z.eq_dec v 0) as [->|]; [by rewrite Z.bits_0|]. symmetry. apply Z.bits_above_log2; [lia|]. assert (Z.log2 v < 32) by (apply Z.log2_lt_pow2; lia). lia.
Qed.

Lemma lor_ones_low a k : 0 <= k -> Z.lor a (Z.ones k) = a / 2 ^ k * 2 ^ k + (2 ^ k - 1).
Proof.
  intros Hk. assert (E : Z.lor a (Z.ones k) = Z.lor (Z.shiftl (Z.shiftr a k) k) (Z.ones k)).
  { apply Z.bits_inj'. intros n Hn. rewrite !Z.lor_spec. destruct (Z_lt_le_dec n k).
    - rewrite Z.ones_spec_low by lia. by rewrite !orb_true_r.
    - rewrite Z.shiftl_spec, Z.shiftr_spec by lia. by replace (n - k + k) with n by lia. }
  rewrite E, Z.lor_comm. assert (Hp : 0 < 2 ^ k) by (apply Z.pow_pos_nonneg; lia). rewrite lor_shiftl_add; [|done|rewrite Z.ones_equiv; lia]. rewrite Z.shiftr_div_pow2, Z.ones_equiv by lia. lia.
Qed.

Lemma lor_bytes d s c t : byte_ok d -> byte_ok s -> Z.lor d s + 256 * Z.lor c t = Z.lor (d + 256 * c) (s + 256 * t).
Proof.
  intros Hd Hs. unfold byte_ok in *. assert (E : forall x y, 0 <= x < 256 -> x + 256 * y = Z.lor x (Z.shiftl y 8)) by (intros x y Hx; rewrite lor_shiftl_add by (change (2 ^ 8) with 256; lia); change (2 ^ 8) with 256; lia).
  assert (0 <= Z.lor d s < 256) by (split; [apply Z.lor_nonneg; lia|]; destruct (Z.eq_dec (Z.lor d s) 0) as [->|]; [done|]; change 256 with (2 ^ 8); apply Z.log2_lt_pow2; [pose proof (Z.lor_nonneg d s); lia|]; rewrite Z.log2_lor by lia;
    apply Z.max_lub_lt; [destruct (Z.eq_dec d 0) as [->|]; [done|]; apply Z.log2_lt_pow2; lia|destruct (Z.eq_dec s 0) as [->|]; [done|]; apply Z.log2_lt_pow2; lia]).
  rewrite !E by lia. rewrite Z.shiftl_lor. apply Z.bits_inj'. intros n _. rewrite !Z.lor_spec. destruct (Z.testbit d n), (Z.testbit s n), (Z.testbit _ n); by rewrite ?orb_true_r.
Qed.

Lemma lor_be4 a b c d p q r s : Forall byte_ok [a; b; c; d] -> Forall byte_ok [p; q; r; s] ->
  be_val [Z.lor a p; Z.lor b q; Z.lor c r; Z.lor d s] = Z.lor (be_val [a; b; c; d]) (be_val [p; q; r; s]).
Proof.
  intros H1 H2. repeat match goal with H : Forall _ (_ :: _) |- _ => apply Forall_cons in H as [? H] end. unfold be_val. cbn [rev app le_val]. rewrite !Z.mul_0_r, !Z.add_0_r. rewrite <- !lor_bytes by done. done.
Qed.

Lemma broadcastOf_val v bits : 0 <= v < 2 ^ 32 -> 0 <= bits <= 32 -> broadcastOf v bits = v / 2 ^ (32 - bits) * 2 ^ (32 - bits) + (2 ^ (32 - bits) - 1).
Proof.
  intros Hv Hb. unfold broadcastOf. assert (M : exists p q r s, map (fun m => u8 (Z.lnot m)) (cidr_mask 4 bits) = [p; q; r; s] /\ Forall byte_ok [p; q; r; s] /\ be_val [p; q; r; s] = Z.ones (32 - bits)).
  { assert (Hc : bits ∈ seqZ 0 33) by (apply elem_of_seqZ; lia). vm_compute in Hc. repeat (apply elem_of_cons in Hc as [->|Hc]); [..|by apply elem_of_nil in Hc]; do 4 eexists; (split; [vm_compute; reflexivity|]); (split; [repeat (apply List.Forall_cons; [by split|]); apply List.Forall_nil|done]). }
  destruct M as (p & q & r & s & Em & Hp & Ev). pose proof (be_bytes_ok 4 (masked v bits)) as Hx. pose proof (be_val_bytes 4 (masked v bits)) as Vx. rewrite Z.mod_small in Vx.
  2:{ rewrite masked_val by done. assert (0 < 2 ^ (32 - bits)) by (apply Z.pow_pos_nonneg; lia). pose proof (Z.mul_div_le v (2 ^ (32 - bits)) ltac:(lia)). split; [apply Z.mul_nonneg_nonneg; [apply Z.div_pos; lia|lia]|]. change (256 ^ Z.of_nat 4) with (2 ^ 32). lia. }
  unfold be_bytes in *. cbn [le_bytes rev app] in *. assert (Z4 : forall a b c d ms, map (fun m => u8 (Z.lnot m)) ms = [p; q; r; s] -> zip_with (fun a m => Z.lor a (u8 (Z.lnot m))) [a; b; c; d] ms = [Z.lor a p; Z.lor b q; Z.lor c r; Z.lor d s]).
  { intros a b c d ms E. destruct ms as [|? [|? [|? [|? [|]]]]]; try done. cbn [map] in E. cbn [zip_with]. injection E as E1 E2 E3 E4. by rewrite E1, E2, E3, E4. }
  rewrite (Z4 _ _ _ _ _ Em), lor_be4 by done. rewrite Vx, Ev, masked_val, lor_ones_low by lia. by rewrite Z.div_mul by (apply Z.pow_nonzero; lia).
Qed.

(** The values the fields of a configuration can have. *)
Definition addr_wf (a : Addr) : Prop := match a with Addr4 v => 0 <= v < 2 ^ 32 | _ => True end.
Definition cfg_wf (c : Config) : Prop := addr_wf (p_Addr (c_Addr c)) /\ p_Bits (c_Addr c) <= 32 /\ addr_wf (c_Gateway c) /\ bytes_ok (c_MAC c) /\ 0 <= c_VLAN c.

Definition size_ok (v : Z) : Prop := v = 0 \/ minBuffer <= v <= maxBuffer.

(** What is asked of a configuration: an address one host may have on its
    prefix, a MAC of its own, a gateway within reach, and sizes in range. *)
Record acceptable (c : Config) (a : Z) : Prop := {
  ac_addr : p_Addr (c_Addr c) = Addr4 a;
  ac_bits : 0 <= p_Bits (c_Addr c);
  ac_set : a <> 0;
  ac_remote : a / 2 ^ 24 <> 127;
  ac_single : ~ 224 <= a / 2 ^ 24 < 240;
  ac_part : p_Bits (c_Addr c) < 31 -> 0 < a mod 2 ^ (32 - p_Bits (c_Addr c)) < 2 ^ (32 - p_Bits (c_Addr c)) - 1;
  ac_mac : zlen (c_MAC c) = 6;
  ac_unicast : exists m, c_MAC c !! 0%nat = Some m /\ Z.even m = true;
  ac_nonzero : ~ Forall (fun b => b = 0) (c_MAC c);
  ac_vlan : c_VLAN c <= 4094;
  ac_mtu : 0 <= c_MTU c;
  ac_gateway : c_Gateway c = AddrNone \/ exists g, c_Gateway c = Addr4 g /\ g / 2 ^ (32 - p_Bits (c_Addr c)) = a / 2 ^ (32 - p_Bits (c_Addr c));
  ac_neighbors : Forall (fun n => (exists v, fst n = Addr4 v) /\ zlen (snd n) = 6) (c_Neighbors c);
  ac_queue : 0 <= c_TxQueueLen c <= maxTxQueueLen;
  ac_send : size_ok (c_SendBufferSize c);
  ac_receive : size_ok (c_ReceiveBufferSize c) }.

(** The defaults in the place of zeros. *)
Definition filled (c : Config) : Config :=
  let or d v := if v =? 0 then d else v in
  with_sizes (or defaultTxQueueLen (c_TxQueueLen c)) (or defaultBuffer (c_SendBufferSize c)) (or defaultBuffer (c_ReceiveBufferSize c)) c.

Lemma host_address a : 0 <= a < 2 ^ 32 -> IsUnspecified a || IsLoopback a || IsMulticast a = false <-> a <> 0 /\ a / 2 ^ 24 <> 127 /\ ~ 224 <= a / 2 ^ 24 < 240.
Proof.
  intros Ha. unfold IsUnspecified, IsLoopback, IsMulticast. rewrite Z.shiftr_div_pow2 by lia. assert (Hx : 0 <= a / 2 ^ 24 < 256) by divlia. set (x := a / 2 ^ 24) in *. clearbody x.
  assert (M : (Z.land x 0xf0 =? 0xe0) = (224 <=? x) && (x <? 240)).
  { assert (Hall : forallb (fun x => Bool.eqb (Z.land x 0xf0 =? 0xe0) ((224 <=? x) && (x <? 240))) (seqZ 0 256) = true) by (vm_compute; reflexivity). rewrite forallb_forall in Hall. apply Bool.eqb_prop, Hall. apply list_elem_of_In, elem_of_seqZ. lia. }
  rewrite M. rewrite !orb_false_iff, andb_false_iff, !Z.eqb_neq, Z.leb_gt, Z.ltb_ge. lia.
Qed.

Lemma host_part a bits : 0 <= a < 2 ^ 32 -> 0 <= bits < 31 -> (a =? masked a bits) = false -> (a =? broadcastOf a bits) = false -> 0 < a mod 2 ^ (32 - bits) < 2 ^ (32 - bits) - 1.
Proof.
  intros Ha Hb. rewrite masked_val, broadcastOf_val by lia. set (p := 2 ^ (32 - bits)). assert (0 < p) by (apply Z.pow_pos_nonneg; lia). pose proof (Z.div_mod a p ltac:(lia)). pose proof (Z.mod_pos_bound a p ltac:(lia)). intros ?%Z.eqb_neq ?%Z.eqb_neq. lia.
Qed.

Lemma not_host_part a bits : 0 <= a < 2 ^ 32 -> 0 <= bits < 31 -> a = masked a bits \/ a = broadcastOf a bits -> ~ 0 < a mod 2 ^ (32 - bits) < 2 ^ (32 - bits) - 1.
Proof.
  intros Ha Hb. rewrite masked_val, broadcastOf_val by lia. set (p := 2 ^ (32 - bits)). assert (0 < p) by (apply Z.pow_pos_nonneg; lia). pose proof (Z.div_mod a p ltac:(lia)). pose proof (Z.mod_pos_bound a p ltac:(lia)). lia.
Qed.

Lemma mac_bytes (mac : list Z) : zlen mac = 6 -> exists a b c d e f, mac = [a; b; c; d; e; f].
Proof. intros H. destruct mac as [|a [|b [|c [|d [|e [|f [|]]]]]]]; unfold zlen in H; cbn in H; try lia. by exists a, b, c, d, e, f. Qed.

Lemma mac_or_zero (mac : list Z) : zlen mac = 6 -> exists x, mac_or mac = Some x /\ (x = 0 <-> Forall (fun b => b = 0) mac).
Proof.
  intros (a & b & c & d & e & f & ->)%mac_bytes. eexists. split; [reflexivity|]. rewrite !Z.lor_eq_0_iff, !Forall_cons, Forall_nil. tauto.
Qed.

Lemma contains_div p a g : p_IsValid p = true -> p_Bits p <= 32 -> p_Addr p = Addr4 a -> p_Contains p (Addr4 g) = true <-> g / 2 ^ (32 - p_Bits p) = a / 2 ^ (32 - p_Bits p).
Proof.
  intros Hv Hb Ha. unfold p_Contains. rewrite Ha, Hv. cbn [andb]. rewrite Z.eqb_eq, Z.shiftr_lxor, <- !Z.shiftr_div_pow2 by lia. apply Z.lxor_eq_0_iff.
Qed.

Lemma buffer_default_spec v : match buffer_default v with Ok w => size_ok v /\ w = (if v =? 0 then defaultBuffer else v) | Err _ => ~ size_ok v end.
Proof.
  unfold buffer_default, size_ok. destruct (v =? 0) eqn:E; to_prop; [by split; [left|]|]. destruct ((v <? minBuffer) || (v >? maxBuffer)) eqn:E2.
  - rewrite orb_true_iff, Z.ltb_lt, Z.gtb_lt in E2. lia.
  - to_prop. rewrite Z.gtb_ltb in *. to_prop. split; [lia|done].
Qed.

Lemma neighbors_test l : existsb (fun n : Addr * list Z => negb (Is4 (fst n)) || negb (zlen (snd n) =? 6)) l = false <-> Forall (fun n => (exists v, fst n = Addr4 v) /\ zlen (snd n) = 6) l.
Proof.
  induction l as [|[a m] l IH]; [done|]. cbn [existsb fst snd]. rewrite orb_false_iff, IH, Forall_cons. cbn [fst snd]. rewrite orb_false_iff, !negb_false_iff, Z.eqb_eq. destruct a; cbn [Is4]; naive_solver.
Qed.

(** An error is right when the configuration is not acceptable. *)
Ltac refuse Only := eexists; split; [done|]; intros a' A; pose proof (Only _ A); subst a'; destruct A.

Lemma withDefaults_spec c : cfg_wf c -> exists r, withDefaults c = Some r /\
  match r with Ok c' => (exists a, acceptable c a) /\ c' = filled c | Err _ => forall a, ~ acceptable c a end.
Proof.
  intros (Ha & Hb & Hg & Hm & _). unfold withDefaults. destruct (p_Addr (c_Addr c)) as [|a|] eqn:Ea; [eexists; split; [done|]; intros a []; congruence| |eexists; split; [done|]; intros a []; congruence]. cbn [addr_wf] in Ha.
  assert (Only : forall a', acceptable c a' -> a' = a) by (intros a' A; pose proof (ac_addr _ _ A); congruence). set (bits := p_Bits (c_Addr c)) in *.
  destruct (p_IsValid (c_Addr c)) eqn:Ev; cbn [negb]; pose proof Ev as Ev'; unfold p_IsValid in Ev'; rewrite Z.geb_leb in Ev'; to_prop; [|refuse Only; lia].
  destruct (IsUnspecified a || IsLoopback a || IsMulticast a) eqn:Eh; [refuse Only; assert (false = true) by (rewrite <- Eh; symmetry; apply host_address; auto); done|]. apply host_address in Eh as (H1 & H2 & H3); [|done].
  destruct ((bits <? 31) && (a =? masked a bits)) eqn:En; [to_prop; refuse Only; apply (not_host_part a bits); auto with lia|]. destruct ((bits <? 31) && (a =? broadcastOf a bits)) eqn:Eb; [to_prop; refuse Only; apply (not_host_part a bits); auto with lia|].
  destruct (zlen (c_MAC c) =? 6) eqn:El; cbn [negb]; to_prop; [|refuse Only; lia]. destruct (mac_bytes _ El) as (m0 & m1 & m2 & m3 & m4 & m5 & Em). assert (G0 : get_at 0 (c_MAC c) = Some m0) by (by rewrite Em). rewrite G0. cbn [mbind option_bind].
  assert (Ev0 : Z.land m0 1 = 0 <-> Z.even m0 = true) by (change 1 with (Z.ones 1); rewrite Z.land_ones by lia; change (2 ^ 1) with 2; rewrite Zmod_even; destruct (Z.even m0); split; done).
  destruct (Z.land m0 1 =? 0) eqn:Eu; cbn [negb]; to_prop; [|refuse Only; destruct ac_unicast0 as (m & E & Hev); rewrite Em in E; injection E as <-; tauto]. apply Ev0 in Eu.
  destruct (mac_or_zero _ El) as (x & -> & Hx). cbn [mbind option_bind]. destruct (x =? 0) eqn:Ex; to_prop; [refuse Only; tauto|].
  destruct (c_VLAN c >? 4094) eqn:Evl; rewrite Z.gtb_ltb in Evl; to_prop; [refuse Only; lia|]. destruct (c_MTU c <? 0) eqn:Emt; to_prop; [refuse Only; lia|].
  destruct (a_IsValid (c_Gateway c) && negb (Is4 (c_Gateway c))) eqn:Eg4; [to_prop; refuse Only; destruct ac_gateway0 as [E|(g & E & _)]; rewrite E in *; done|].
  assert (Gw : c_Gateway c = AddrNone \/ exists g, c_Gateway c = Addr4 g) by (destruct (c_Gateway c); [by left|by right; eexists|done]). destruct (a_IsValid (c_Gateway c) && negb (p_Contains (c_Addr c) (c_Gateway c))) eqn:Egc.
  { to_prop. refuse Only. destruct ac_gateway0 as [E|(g & E & Hd)]; [by rewrite E in *|]. pose proof (proj2 (contains_div _ a g Ev Hb Ea) Hd) as C. rewrite E in *. congruence. }
  destruct (existsb _ (c_Neighbors c)) eqn:Ene; [refuse Only; apply neighbors_test in ac_neighbors0; congruence|]. apply neighbors_test in Ene.
  destruct ((c_TxQueueLen c <? 0) || (c_TxQueueLen c >? maxTxQueueLen)) eqn:Eq; [rewrite orb_true_iff, Z.ltb_lt, Z.gtb_lt in Eq; refuse Only; lia|]. to_prop. rewrite Z.gtb_ltb in *. to_prop.
  pose proof (buffer_default_spec (c_SendBufferSize c)) as Bs. destruct (buffer_default (c_SendBufferSize c)) as [s|e]; [destruct Bs as [Bs ->]|refuse Only; tauto].
  pose proof (buffer_default_spec (c_ReceiveBufferSize c)) as Br. destruct (buffer_default (c_ReceiveBufferSize c)) as [r|e]; [destruct Br as [Br ->]|refuse Only; tauto].
  eexists. split; [done|]. split; [|done]. exists a. split; try done; try lia.
  - intros Hlt. fold bits in Hlt. rewrite (proj2 (Z.ltb_lt _ _)) in En, Eb by done. apply host_part; (done || lia).
  - exists m0. by rewrite Em.
  - tauto.
  - destruct Gw as [G|(g & G)]; [by left|right]. exists g. split; [done|]. rewrite G in Egc. cbn in Egc. apply negb_false_iff in Egc. by apply (contains_div _ a g Ev Hb Ea).
Qed.

Lemma filled_accepted c a : acceptable c a -> acceptable (filled c) a /\ filled (filled c) = filled c.
Proof.
  intros []. assert (S : forall v, size_ok v -> size_ok (if v =? 0 then defaultBuffer else v) /\ (if v =? 0 then defaultBuffer else v) <> 0).
  { intros v Hv. unfold size_ok, minBuffer, maxBuffer, defaultBuffer in *. destruct (v =? 0) eqn:E; to_prop; lia. }
  destruct (S _ ac_send0) as [S1 S2]. destruct (S _ ac_receive0) as [R1 R2]. assert (Q : 0 <= (if c_TxQueueLen c =? 0 then defaultTxQueueLen else c_TxQueueLen c) <= maxTxQueueLen /\ (if c_TxQueueLen c =? 0 then defaultTxQueueLen else c_TxQueueLen c) <> 0).
  { unfold maxTxQueueLen, defaultTxQueueLen in *. destruct (c_TxQueueLen c =? 0) eqn:E; to_prop; lia. }
  split; [by split; try tauto|]. change (filled c) with (with_sizes (if c_TxQueueLen c =? 0 then defaultTxQueueLen else c_TxQueueLen c) (if c_SendBufferSize c =? 0 then defaultBuffer else c_SendBufferSize c) (if c_ReceiveBufferSize c =? 0 then defaultBuffer else c_ReceiveBufferSize c) c).
  destruct Q as [_ Q]. revert Q S2 R2. generalize (if c_TxQueueLen c =? 0 then defaultTxQueueLen else c_TxQueueLen c), (if c_SendBufferSize c =? 0 then defaultBuffer else c_SendBufferSize c), (if c_ReceiveBufferSize c =? 0 then defaultBuffer else c_ReceiveBufferSize c).
  intros q s r Hq Hs Hr. unfold filled, with_sizes. cbn. by rewrite (proj2 (Z.eqb_neq q 0) Hq), (proj2 (Z.eqb_neq s 0) Hs), (proj2 (Z.eqb_neq r 0) Hr).
Qed.

(** C25: A configuration is accepted exactly when it is acceptable: its checks, made
    on masks and bytes, are those on the numbers.  What comes back is the
    configuration with the defaults filled in, and withDefaults leaves that
    alone. *)
Theorem config_exact c : cfg_wf c -> exists r, withDefaults c = Some r /\
  match r with
  | Ok c' => (exists a, acceptable c a) /\ c' = filled c /\ withDefaults c' = Some (Ok c')
  | Err _ => forall a, ~ acceptable c a
  end.
Proof.
  intros Hw. destruct (withDefaults_spec c Hw) as ([c'|e] & E & H); [|by eexists]. exists (Ok c'). split; [done|]. destruct H as [[a A] ->]. destruct (filled_accepted c a A) as [A' F]. split; [by exists a|]. split; [done|].
  destruct (withDefaults_spec (filled c) Hw) as ([c2|e] & E2 & H2); [|by destruct (H2 a)]. destruct H2 as [_ ->]. by rewrite E2, F.
Qed.

(** ** The endpoint *)

Definition free_on (r : Z * Z) : Z := Z.min (fst r) (snd r).
Definition dev_ok (dev : Device) : Prop := d_MaxFrameSize dev < 2 ^ 32 /\ Forall (fun r => 0 <= free_on r) (d_txRooms dev).

(** The frames one MTU becomes when it is cut into the smallest segments. *)
Definition mtu_frames (mtu : Z) : Z := (mtu + minMSS - 1) / minMSS.

Lemma room_of_least rooms : forall r, r ∈ rooms -> room_of rooms <= free_on r.
Proof.
  destruct rooms as [|r0 rooms]; intros r Hr; [by apply elem_of_nil in Hr|]. cbn [room_of]. fold (free_on r0). set (f := fun (room : Z) (r : Z * Z) => _).
  assert (Hf : forall m r, f m r <= m /\ f m r <= free_on r) by (intros m r'; unfold f; fold (free_on r'); cbv zeta; case_if; lia). clearbody f.
  assert (G : forall l m, foldl f m l <= m /\ forall r, r ∈ l -> foldl f m l <= free_on r).
  { induction l as [|x l IH]; intros m; cbn [foldl]; [split; [lia|intros ? H; by apply elem_of_nil in H]|]. destruct (IH (f m x)) as [I1 I2]. destruct (Hf m x). split; [lia|]. intros r' [->|H']%elem_of_cons; [lia|by apply I2]. }
  destruct (G rooms (free_on r0)) as [G1 G2]. apply elem_of_cons in Hr as [->|Hr]; [exact G1|by apply G2].
Qed.

Lemma segments_upto pkt n K : Data_Size pkt <= n -> minMSS <= g_MSS (pk_GSO pkt) -> 1 <= K -> n <= K * minMSS -> 1 <= segments pkt <= K.
Proof.
  intros Hn Hm HK Hb. unfold segments, minMSS in *. destruct (bool_decide _ || _); [lia|]. destruct (Data_Size pkt <=? g_MSS (pk_GSO pkt)) eqn:E; to_prop; [lia|]. set (m := g_MSS (pk_GSO pkt)) in *. assert (K * 536 <= K * m) by (apply Z.mul_le_mono_nonneg_l; lia). split.
  - apply Z.div_le_lower_bound; lia.
  - apply Z.lt_succ_r. apply Z.div_lt_upper_bound; lia.
Qed.

(** A packet that fits goes into the batch. *)
Lemma first_fits pkt rest budget : 1 <= segments pkt <= budget -> 1 <= fst (fit (segs_within [] (pkt :: rest) budget) budget).
Proof.
  intros Hs. rewrite segs_within_spec by (change (zlen []) with 0; lia). change (zlen (@nil Z)) with 0. rewrite Z.sub_0_r. cbn [app]. replace (Z.to_nat budget) with (S (Z.to_nat (budget - 1))) by lia. cbn [take map]. set (segs := map segments _).
  pose proof (fit_spec (segments pkt :: segs) budget ltac:(lia)) as F. destruct (fit _ budget) as [p f]. destruct F as (F1 & _ & _ & F4). cbn [fst]. destruct (Z.eq_dec p 0) as [->|]; [|lia]. exfalso. destruct F4 as [F4|F4].
  - rewrite zlen_cons in F4. pose proof (zlen_nonneg segs). lia.
  - change (Z.to_nat (0 + 1)) with 1%nat in F4. unfold zsum in F4. cbn [take foldr] in F4. rewrite take_0 in F4. cbn [foldr] in F4. lia.
Qed.

Lemma gso_bound room mtu n : 0 <= room -> IPv4MinimumMTU <= mtu -> n <= Z.max mtu (Z.min gsoMaxSize (Z.quot room 2 * minMSS)) ->
  1 <= Z.max (room / 2) (mtu_frames mtu) /\ n <= Z.max (room / 2) (mtu_frames mtu) * minMSS.
Proof.
  intros Hr Hm Hn. unfold IPv4MinimumMTU, mtu_frames, minMSS in *. rewrite Z.quot_div_nonneg in Hn by lia. assert (mtu <= (mtu + 536 - 1) / 536 * 536) by divlia. assert (1 <= (mtu + 536 - 1) / 536) by (apply Z.div_le_lower_bound; lia).
  assert (0 <= room / 2) by (apply Z.div_pos; lia). set (h := room / 2) in *. set (k := (mtu + 536 - 1) / 536) in *. clearbody h k. unfold gsoMaxSize in Hn. lia.
Qed.

(** C26: What newEndpoint makes of an accepted configuration.  It fails exactly for
    want of a queue of either kind or of a frame that holds a legal MTU.  Otherwise a packet of the
    MTU fits a frame with its link header, whatever SetMTU is asked for later;
    the endpoint is as the adapter's theorems need it; and no packet TCP may
    hand over, cut into segments of at least [minMSS], needs more than half of
    the smallest transmit queue, or than one MTU does when that is more: on an
    idle queue that holds one MTU, it goes into the batch. *)
Theorem endpoint_sizes c cfg dev : cfg_wf c -> withDefaults c = Some (Ok cfg) -> dev_ok dev ->
  let linkLen := linkHeaderLen (c_VLAN cfg) in
  let mtu := if c_MTU cfg =? 0 then Z.min defaultMTU (d_MaxFrameSize dev - linkLen) else c_MTU cfg in
  exists r, newEndpoint dev cfg = Some r /\
  match r with
  | Err _ => d_rxQueues dev = 0 \/ d_txRooms dev = [] \/ ~ (IPv4MinimumMTU <= mtu /\ linkLen + mtu <= d_MaxFrameSize dev)
  | Ok e =>
      d_rxQueues dev <> 0 /\ d_txRooms dev <> [] /\ ep_rxq e = d_rxQueues dev /\ ep_txq e = zlen (d_txRooms dev) /\
      ep_mtu e = mtu /\ IPv4MinimumMTU <= mtu /\ linkLen + mtu <= d_MaxFrameSize dev /\
      (forall m, 0 <= m -> linkLen + ep_mtu (SetMTU m e) <= d_MaxFrameSize dev) /\
      endpoint_ok (ep_rx e) /\ e_linkLen (ep_tx e) = r_linkLen (ep_rx e) /\
      forall pkt rest room, room ∈ d_txRooms dev -> Data_Size pkt <= ep_gsoMax e -> minMSS <= g_MSS (pk_GSO pkt) ->
        segments pkt <= Z.max (free_on room / 2) (mtu_frames mtu) /\
        (1 <= free_on room -> mtu_frames mtu <= free_on room -> 1 <= fst (fit (segs_within [] (pkt :: rest) (free_on room)) (free_on room)))
  end.
Proof.
  intros Hw Hd [Hdev Hrooms] linkLen mtu. destruct (withDefaults_spec c Hw) as (r & Er & Hr). rewrite Hd in Er. injection Er as <-. destruct Hr as [[a A] ->]. pose proof (ac_vlan _ _ A) as Hv. pose proof (ac_mtu _ _ A) as Hmtu. pose proof (ac_mac _ _ A) as Hmac. pose proof (ac_addr _ _ A) as Ha. destruct Hw as (_ & _ & _ & _ & Hv0).
  change (c_VLAN (filled c)) with (c_VLAN c) in *. change (c_MTU (filled c)) with (c_MTU c) in *. unfold newEndpoint. change (c_VLAN (filled c)) with (c_VLAN c). change (c_MTU (filled c)) with (c_MTU c). fold linkLen. pose proof (linkHeaderLen_pos (c_VLAN c)) as Hlk. fold linkLen in Hlk.
  destruct ((d_rxQueues dev =? 0) || (zlen (d_txRooms dev) =? 0)) eqn:Eq. { eexists. split; [done|]. apply orb_true_iff in Eq as [?%Z.eqb_eq|?%Z.eqb_eq]; [by left|right; left]. apply length_zero_iff_nil. unfold zlen in *. lia. }
  set (cfg' := if c_MTU c =? 0 then with_MTU _ _ else _). assert (Em : c_MTU cfg' = mtu) by (unfold cfg', mtu; by destruct (c_MTU c =? 0)). rewrite Em.
  destruct (mtu >? d_MaxFrameSize dev - linkLen) eqn:E1; rewrite Z.gtb_ltb in E1; to_prop; [eexists; split; [done|]; right; right; lia|]. destruct (mtu <? IPv4MinimumMTU) eqn:E2; to_prop; [eexists; split; [done|]; right; right; lia|].
  assert (Ea : p_Addr (c_Addr cfg') = Addr4 a) by (unfold cfg'; by destruct (c_MTU c =? 0)). rewrite Ea. eexists. split; [done|]. split; [done|]. split; [intros E0; rewrite E0 in *; done|]. split; [done|]. split; [done|]. cbn [ep_mtu ep_tx ep_rx ep_gsoMax e_linkLen r_linkLen].
  assert (Hu : 0 <= mtu < 2 ^ 32) by (unfold IPv4MinimumMTU, vlanHdrLen in *; lia). rewrite (u32_small mtu Hu). split; [done|]. split; [done|]. split; [lia|]. split; [|split; [|split; [done|]]].
  - intros m Hm. cbn [SetMTU ep_mtu ep_maxMTU]. unfold IPv4MinimumMTU in *. rewrite u32_small by lia. lia.
  - assert (c_MAC cfg' = c_MAC c /\ c_VLAN cfg' = c_VLAN c) as [-> ->] by (unfold cfg'; by destruct (c_MTU c =? 0)). split; cbn [r_mac r_VLAN r_linkLen r_neigh]; [rewrite zlen_take, zlen_app, zlen_replicate; lia|lia|done|]. intros x m Hlook. unfold n_lookup, newNeighbors in Hlook. cbn in Hlook. by rewrite lookup_empty in Hlook.
  - intros pkt rest room Hin Hsz Hmss. rewrite Forall_forall in Hrooms. pose proof (Hrooms room Hin) as Hfree. pose proof (room_of_least _ room Hin) as Hleast. set (least := room_of (d_txRooms dev)) in *.
    assert (Hg : Data_Size pkt <= Z.max mtu (Z.min gsoMaxSize (Z.quot (free_on room) 2 * minMSS))). { rewrite u32_small in Hsz by (unfold gsoMaxSize in *; lia). assert (Z.quot least 2 * minMSS <= Z.quot (free_on room) 2 * minMSS) by (apply Z.mul_le_mono_nonneg_r; [done|apply Z.quot_le_mono; lia]). lia. }
    destruct (gso_bound (free_on room) mtu (Data_Size pkt) Hfree E2 Hg) as [G1 G2]. pose proof (segments_upto pkt (Data_Size pkt) _ ltac:(lia) Hmss G1 G2) as S. split; [lia|]. intros H1 H2. apply first_fits. assert (free_on room / 2 <= free_on room) by divlia. lia.
Qed.

(** A small machine: two receive queues and two transmit queues of 512. *)
Definition exCfg : Config := mkCfg (mkPrefix (Addr4 (10 * 2 ^ 24 + 5)) 24) [2; 0; 0; 0; 0; 1] 7 0 (Addr4 (10 * 2 ^ 24 + 1)) [(Addr4 (10 * 2 ^ 24 + 1), [2; 0; 0; 0; 0; 9])] false false 0 false 0 8192 false false.
Definition exDev : Device := mkDev 2 [(512, 1024); (600, 512)] 2048.

Lemma exCfg_wf : cfg_wf exCfg.
Proof. repeat split; try (vm_compute; congruence). repeat (apply List.Forall_cons; [by split|]). apply List.Forall_nil. Qed.

Lemma exDev_ok : dev_ok exDev.
Proof. split; [done|]. repeat (apply List.Forall_cons; [by vm_compute|]). apply List.Forall_nil. Qed.

Lemma config_exact_witness : exists r, withDefaults exCfg = Some r /\
  match r with Ok c' => (exists a, acceptable exCfg a) /\ c' = filled exCfg /\ withDefaults c' = Some (Ok c') | Err _ => forall a, ~ acceptable exCfg a end.
Proof. apply (config_exact exCfg). apply exCfg_wf. Defined.

Lemma endpoint_sizes_witness : exists e, newEndpoint exDev (filled exCfg) = Some (Ok e) /\ ep_mtu e = 1500 /\ ep_gsoMax e = 65536 /\ endpoint_ok (ep_rx e).
Proof.
  destruct (endpoint_sizes exCfg (filled exCfg) exDev exCfg_wf) as (r & E & H); [reflexivity|apply exDev_ok|]. pose proof E as E'. vm_compute in E'. injection E' as <-. eexists. split; [exact E|]. destruct H as (_ & _ & _ & _ & H1 & _ & _ & _ & H5 & _). split; [exact H1|]. split; [reflexivity|exact H5].
Defined.

(** The bound counts on segments of [minMSS] bytes, the smallest the comment says
    a peer may ask for; the stack takes a peer's word down to 48.  Against such a
    peer a packet of the size announced needs more frames than an idle queue of
    512 has, so it is refused whole, every time. *)
Lemma small_segments_never_fit : exists e syn pkt,
  newEndpoint exDev (filled exCfg) = Some (Ok e) /\ ParseSynOptions [TCPOptionMSS; 4; 0; 48] false = Some syn /\ so_MSS syn < minMSS /\
  g_MSS (pk_GSO pkt) = so_MSS syn /\ Data_Size pkt <= ep_gsoMax e - 161 /\ Forall (fun room => fit (segs_within [] [pkt] (free_on room)) (free_on room) = (0, 0)) (d_txRooms exDev).
Proof.
  do 2 eexists. exists (mkPacket (mkBuffer [replicate (Z.to_nat 65000) 0] 65000) 0 0 0 (fun _ => mkInfo 0 0) 0 0 0 [] (mkGSO GSOTCPv4 true 0 48 0 0) 0 false). split; [reflexivity|]. split; [reflexivity|]. split; [reflexivity|]. split; [reflexivity|]. split; [vm_compute; discriminate|]. repeat (apply List.Forall_cons; [reflexivity|]). apply List.Forall_nil.
Qed.
