(* ===== verification/NetLoop.v ===== *)
(** The receive loop of the network adapter, rxLoop of netstack/rx.go, over
    whichever queue the device has ([RxQueue], packetio's interface in
    queue.go).

    A run is a list of turns; a turn says whether the loop has been told to
    stop, what the clock shows, and what the device did since the one before.
    What the loop hands to the stack and to GRO, and when it flushes GRO and
    lets the stack catch up, are events; sleeping and yielding are left out. *)

From stdpp Require Import prelude list numbers strings gmap.
From S2P Require Import Prelude Desc Bytes Csum GvChecksum NetHeader NetPacket NetGso NetNeigh NetRx NetRxThms.

Definition rxBatch : Z := 64.
Definition idleCheckEvery : Z := 64.
Definition errCheckEvery : Z := 1000000000.

(** What the loop uses of a packetio.RxQueue.  [rq_Poll] is told whether it may
    wait; [rq_Frame] is Frame of the queue's region. *)
Class RxQueue (Q : Type) := {
  rq_NumFreeFillSlots : Q -> Z;
  rq_Fill : Z -> Q -> Q;
  rq_Poll : bool -> Q -> res Z * Q;
  rq_Receive : Z -> Q -> list Desc * Q;
  rq_Frame : Desc -> Q -> list Z;
  rq_Recycle : list Desc -> Q -> Q;
  rq_Err : Q -> option error }.

Inductive event :=
| ToGRO (pkt : PacketBuffer)
| ToStack (proto : Z) (pkt : PacketBuffer)
| Flush
| AfterBatch.

Definition event_of (p : bool * Z * PacketBuffer) : event := let '(gro, proto, pkt) := p in if (gro : bool) then ToGRO pkt else ToStack proto pkt.

(** The loop's locals. *)
Record loopState := mkLoop { lp_quiet : Z; lp_quietSince : option Z; lp_lastErrCheck : Z; lp_inChain : bool }.

(** A frame as it is received: its descriptor's options, its bytes, and what
    the clock shows while it is delivered. *)
Record arrival := mkArrival { av_options : Z; av_frame : list Z; av_clock : Z * Z }.

Definition continued (options : Z) : bool := negb (Z.land options OptContinued =? 0).

(** The first failure is the one kept. *)
Definition fail (err : error) (failed : option error) : option error := match failed with Some e => Some e | None => Some err end.

(** [fmt.Errorf("receive queue %d: %w")]. *)
Definition receive_error (err : error) : error :=
  match err with Sentinel s | Wrap s _ => Wrap s "receive queue" | Errorf _ => Errorf "receive queue" end.

Section loop.
Context (place : list Z -> Z) (order : gmap (list Z) neighbor -> list (list Z * neighbor)) (qi : Z).

(** One batch: what of it is handed on, in order, and whether the next frame
    goes on with a packet laid across several. *)
Fixpoint rx_batch (got : list arrival) (inChain : bool) (e : rxEndpoint) : option (list (bool * Z * PacketBuffer) * bool * rxEndpoint) :=
  match got with
  | [] => Some ([], inChain, e)
  | a :: got =>
    if continued (av_options a) || inChain then rx_batch got (continued (av_options a)) (bump cChained e)
    else
      '(r, e) ← deliver place order (fst (av_clock a)) (snd (av_clock a)) qi (av_frame a) e;
      '(out, inChain, e) ← rx_batch got inChain e;
      Some (match r with Some p => p :: out | None => out end, inChain, e)
  end.

(** Whether the backend sleeps in Poll, Config.BusyPoll, and whether the stack
    wants to be called after a batch. *)
Context (blocking busyPoll afterBatch : bool).

Context {Q : Type} `{RxQueue Q}.

Record turn := mkTurn { tn_stop : bool; tn_now : Z; tn_clock : Z -> Z * Z; tn_device : Q -> Q }.

(** The descriptors as they are looked at. *)
Definition arrivals (clock : Z -> Z * Z) (descs : list Desc) (q : Q) : list arrival :=
  imap (fun k d => mkArrival (Options d) (rq_Frame d q) (clock (Z.of_nat k))) descs.

(** Nothing there: what is done, whether the loop returns, and its locals. *)
Definition rx_idle (now : Z) (q : Q) (st : loopState) (failed : option error) : list event * bool * loopState * option error :=
  let quiet := lp_quiet st + 1 in
  if negb blocking && negb (quiet mod idleCheckEvery =? 0) then ([], false, mkLoop quiet (lp_quietSince st) (lp_lastErrCheck st) (lp_inChain st), failed)
  else
    let since := if negb blocking && negb busyPoll then match lp_quietSince st with None => Some now | s => s end else lp_quietSince st in
    let evs := if afterBatch then [AfterBatch] else [] in
    if now - lp_lastErrCheck st >? errCheckEvery then
      match rq_Err q with
      | Some err => (evs, true, mkLoop quiet since now (lp_inChain st), fail (receive_error err) failed)
      | None => (evs, false, mkLoop quiet since now (lp_inChain st), failed)
      end
    else (evs, false, mkLoop quiet since (lp_lastErrCheck st) (lp_inChain st), failed).

Definition flush (e : rxEndpoint) : list event := if r_NoGRO e then [] else [Flush].

(** The body of the loop; the flag is whether it returns. *)
Definition rx_turn (t : turn) (q : Q) (st : loopState) (e : rxEndpoint) (failed : option error) : option (list event * bool * Q * loopState * rxEndpoint * option error) :=
  let q := rq_Fill (rq_NumFreeFillSlots q) q in
  let '(r, q) := rq_Poll blocking q in
  match r with
  | Err err => Some ([], true, q, st, e, if errors_is ErrClosed err then failed else fail (receive_error err) failed)
  | Ok n =>
    if n =? 0 then
      let '(evs, ret, st, failed) := rx_idle (tn_now t) q st failed in Some (flush e ++ evs, ret, q, st, e, failed)
    else
      let '(descs, q) := rq_Receive rxBatch q in
      '(out, inChain, e) ← rx_batch (arrivals (tn_clock t) descs q) (lp_inChain st) e;
      let q := rq_Recycle descs q in
      Some (map event_of out ++ flush e ++ (if afterBatch then [AfterBatch] else []), false, q, mkLoop 0 None (lp_lastErrCheck st) inChain, e, failed)
  end.

(** The flag of the result is whether the loop has returned. *)
Fixpoint rxLoop (turns : list turn) (q : Q) (st : loopState) (e : rxEndpoint) (failed : option error) : option (list event * bool * Q * loopState * rxEndpoint * option error) :=
  match turns with
  | [] => Some ([], false, q, st, e, failed)
  | t :: turns =>
    if tn_stop t then Some ([], true, q, st, e, failed)
    else
      '(evs, ret, q, st, e, failed) ← rx_turn t (tn_device t q) st e failed;
      if (ret : bool) then Some (evs, true, q, st, e, failed)
      else '(evs', ret, q, st, e, failed) ← rxLoop turns q st e failed; Some (evs ++ evs', ret, q, st, e, failed)
  end.
End loop.

(** ** The contract of a queue

    What packetio documents (queue.go): the frames of a Receive are the
    caller's until Recycle; nothing else moves them.  [rs_out] is what the
    caller has, [rs_log] everything that was ever handed out, [rs_errs] the
    errors Poll has returned. *)
Class RxQueueSpec (Q : Type) `{RxQueue Q} := {
  rs_out : Q -> list Desc;
  rs_log : Q -> list (Z * list Z);
  rs_errs : Q -> list error;
  rs_fill : forall n q, rs_out (rq_Fill n q) = rs_out q /\ rs_log (rq_Fill n q) = rs_log q /\ rs_errs (rq_Fill n q) = rs_errs q;
  rs_poll : forall b q, let '(r, q') := rq_Poll b q in rs_out q' = rs_out q /\ rs_log q' = rs_log q /\ rs_errs q' = rs_errs q ++ match r with Ok _ => [] | Err err => [err] end;
  rs_receive : forall n q, let '(ds, q') := rq_Receive n q in
    rs_out q' = rs_out q ++ ds /\ rs_log q' = rs_log q ++ map (fun d => (Options d, rq_Frame d q')) ds /\ Forall (fun d => bytes_ok (rq_Frame d q')) ds /\ rs_errs q' = rs_errs q;
  rs_recycle : forall ds l q, rs_out q = ds ++ l -> rs_out (rq_Recycle ds q) = l /\ rs_log (rq_Recycle ds q) = rs_log q /\ rs_errs (rq_Recycle ds q) = rs_errs q }.

(** ** Packets in pieces *)

Definition seen (a : arrival) : Z * list Z := (av_options a, av_frame a).

(** Every piece of a packet but the last is flagged. *)
Definition piece (a : arrival) : Prop := continued (av_options a) = true.
Definition in_pieces (g : list arrival) : Prop := exists ps z, g = ps ++ [z] /\ Forall piece ps /\ continued (av_options z) = false.

Definition bump_chained (n : nat) (e : rxEndpoint) : rxEndpoint := Nat.iter n (bump cChained) e.

Section reference.
Context (place : list Z -> Z) (order : gmap (list Z) neighbor -> list (list Z * neighbor)) (qi : Z).

(** The packets one after the other: one that came in one frame is delivered,
    the pieces of any other are counted. *)
Fixpoint deliver_packets (gs : list (list arrival)) (e : rxEndpoint) : option (list (bool * Z * PacketBuffer) * rxEndpoint) :=
  match gs with
  | [] => Some ([], e)
  | [a] :: gs =>
    '(r, e) ← deliver place order (fst (av_clock a)) (snd (av_clock a)) qi (av_frame a) e;
    '(out, e) ← deliver_packets gs e;
    Some (match r with Some p => p :: out | None => out end, e)
  | g :: gs => deliver_packets gs (bump_chained (length g) e)
  end.

Lemma rx_batch_app a : forall b ic e, rx_batch place order qi (a ++ b) ic e =
  '(o1, ic, e) ← rx_batch place order qi a ic e; '(o2, ic, e) ← rx_batch place order qi b ic e; Some (o1 ++ o2, ic, e).
Proof.
  induction a as [|x a IH]; intros b ic e; cbn [rx_batch app mbind option_bind]; [by destruct (rx_batch _ _ _ b ic e) as [[[] ?]|]|]. destruct (continued (av_options x) || ic); [apply IH|].
  destruct (deliver _ _ _ _ _ _ e) as [[r e1]|]; cbn [mbind option_bind]; [|done]. rewrite IH. destruct (rx_batch _ _ _ a ic e1) as [[[o1 ic1] e2]|]; cbn [mbind option_bind]; [|done]. destruct (rx_batch _ _ _ b ic1 e2) as [[[o2 ic2] e3]|]; cbn [mbind option_bind]; [|done]. by destruct r.
Qed.

Lemma bump_chained_S n e : bump_chained n (bump cChained e) = bump_chained (S n) e.
Proof. unfold bump_chained. by rewrite Nat.iter_succ_r. Qed.

Lemma rx_batch_pieces ps : forall ic e, Forall piece ps -> rx_batch place order qi ps ic e = Some ([], ic || negb (bool_decide (ps = [])), bump_chained (length ps) e).
Proof.
  induction ps as [|x ps IH]; intros ic e Hps; cbn [rx_batch]; [by rewrite orb_false_r|]. apply Forall_cons in Hps as [Hx Hps]. unfold piece in Hx. rewrite Hx. cbn [orb]. rewrite IH by done. rewrite bump_chained_S. by destruct ic.
Qed.

Lemma rx_batch_packet g e : in_pieces g -> (2 <= length g)%nat -> rx_batch place order qi g false e = Some ([], false, bump_chained (length g) e).
Proof.
  intros (ps & z & -> & Hps & Hz) Hl. rewrite length_app in Hl |- *. cbn [length] in *. destruct ps as [|p ps]; [cbn in Hl; lia|]. rewrite rx_batch_app, rx_batch_pieces by done. cbn [mbind option_bind rx_batch]. rewrite Hz. cbn [orb negb bool_decide mbind option_bind app]. do 2 f_equal. unfold bump_chained. by rewrite Nat.add_1_r.
Qed.

(** However the stream is cut into batches: only the packets matter. *)
Lemma rx_batch_packets gs : forall tail e, Forall in_pieces gs -> Forall piece tail ->
  rx_batch place order qi (concat gs ++ tail) false e = '(out, e) ← deliver_packets gs e; Some (out, negb (bool_decide (tail = [])), bump_chained (length tail) e).
Proof.
  induction gs as [|g gs IH]; intros tail e Hgs Ht; cbn [concat app deliver_packets]; [by rewrite rx_batch_pieces|]. apply Forall_cons in Hgs as [Hg Hgs]. rewrite <- app_assoc. destruct g as [|a [|b g]].
  - destruct Hg as (ps & z & E & _). by destruct ps.
  - destruct Hg as (ps & z & E & _ & Hz). destruct ps as [|? [|]]; try done. injection E as <-. cbn [app rx_batch]. rewrite Hz. cbn [orb]. destruct (deliver _ _ _ _ _ _ e) as [[r e1]|]; cbn [mbind option_bind]; [|done]. rewrite IH by done. destruct (deliver_packets gs e1) as [[out e2]|]; by cbn [mbind option_bind].
  - rewrite rx_batch_app. rewrite rx_batch_packet by (done || cbn; lia). cbn [mbind option_bind]. rewrite IH by done. by destruct (deliver_packets gs _) as [[out e2]|].
Qed.

Lemma rx_batch_total got : forall ic e, Forall (fun a => bytes_ok (av_frame a)) got -> exists out ic' e', rx_batch place order qi got ic e = Some (out, ic', e') /\ r_NoGRO e' = r_NoGRO e /\ Forall (fun p => fst (fst p) = true -> r_NoGRO e = false) out.
Proof.
  induction got as [|a got IH]; intros ic e Hb; cbn [rx_batch]; [by do 3 eexists|]. apply Forall_cons in Hb as [Ha Hb]. destruct (continued (av_options a) || ic); [by apply (IH _ (bump cChained e))|].
  destruct (deliver_cases place order (fst (av_clock a)) (snd (av_clock a)) qi (av_frame a) e Ha) as (r & e1 & -> & Hr). cbn [mbind option_bind]. assert (Hn : r_NoGRO e1 = r_NoGRO e /\ forall p, r = Some p -> fst (fst p) = true -> r_NoGRO e = false).
  { destruct r as [[[gro proto] pkt]|]; [|by destruct Hr as (c & _ & ->)]. destruct Hr as (l & et & n & neigh & told & _ & _ & _ & Hg & -> & _). split; [by destruct gro|]. intros p [= <-]. cbn. intros ->. by destruct (r_NoGRO e). }
  destruct Hn as [Hn Hg]. destruct (IH ic e1 Hb) as (out & ic' & e' & -> & I1 & I2). cbn [mbind option_bind]. do 3 eexists. split; [done|]. split; [congruence|]. rewrite Hn in I2. destruct r as [p|]; [|done]. apply Forall_cons. split; [by apply Hg|done].
Qed.
End reference.

(** Every stream is packets, and pieces of one that is not over. *)
Lemma stream_packets l : exists gs tail, l = concat gs ++ tail /\ Forall in_pieces gs /\ Forall piece tail.
Proof.
  induction l as [|a l (gs & tail & -> & Hgs & Ht)]; [by exists [], []|]. destruct (continued (av_options a)) eqn:Ea.
  - destruct gs as [|g gs]; [exists [], (a :: tail); split_and!; try done; by apply Forall_cons|]. exists ((a :: g) :: gs), tail. apply Forall_cons in Hgs as [(ps & z & -> & Hps & Hz) Hgs]. split; [done|]. split; [|done]. apply Forall_cons. split; [|done]. exists (a :: ps), z. split; [done|]. split; [by apply Forall_cons|done].
  - exists ([a] :: gs), tail. split; [done|]. split; [|done]. apply Forall_cons. split; [|done]. by exists [], a.
Qed.

(** ** The loop *)

Definition handed_over (ev : event) : option event := match ev with ToGRO _ | ToStack _ _ => Some ev | _ => None end.

(** Nothing stays with GRO. *)
Definition settled (evs : list event) : Prop := forall k pkt, evs !! k = Some (ToGRO pkt) -> exists j, (k < j)%nat /\ evs !! j = Some Flush.

Lemma settled_app a b : settled a -> settled b -> settled (a ++ b).
Proof.
  intros Ha Hb k pkt Hk. apply lookup_app_Some in Hk as [Hk|[Hl Hk]].
  - destruct (Ha k pkt Hk) as (j & ? & Hj). exists j. split; [done|]. by apply lookup_app_l_Some.
  - destruct (Hb _ pkt Hk) as (j & ? & Hj). exists (length a + j)%nat. split; [lia|]. rewrite lookup_app_r by lia. rewrite <- Hj. f_equal. lia.
Qed.

Lemma settled_none evs : (forall pkt, ToGRO pkt ∉ evs) -> settled evs.
Proof. intros Hn k pkt Hk. apply list_elem_of_lookup_2 in Hk. by apply Hn in Hk. Qed.

Lemma settled_flush a b : (forall pkt, ToGRO pkt ∉ b) -> settled (a ++ Flush :: b).
Proof.
  intros Hb k pkt Hk. apply lookup_app_Some in Hk as [Hk|[Hl Hk]].
  - apply lookup_lt_Some in Hk. exists (length a). split; [done|]. rewrite lookup_app_r by lia. by rewrite Nat.sub_diag.
  - destruct (k - length a)%nat; [done|]. cbn in Hk. apply list_elem_of_lookup_2 in Hk. by apply Hb in Hk.
Qed.

Lemma omap_handed out : omap handed_over (map event_of out) = map event_of out.
Proof. induction out as [|[[[] proto] pkt] out IH]; cbn; by rewrite ?IH. Qed.

Section loops.
Context (place : list Z -> Z) (order : gmap (list Z) neighbor -> list (list Z * neighbor)) (qi : Z) (blocking busyPoll afterBatch : bool).
Context {Q : Type} `{RxQueueSpec Q}.

Lemma arrivals_seen clock ds (q : Q) : map seen (arrivals clock ds q) = map (fun d => (Options d, rq_Frame d q)) ds.
Proof.
  assert (G : forall g : nat -> Z * Z, map seen (imap (fun k d => mkArrival (Options d) (rq_Frame d q) (g k)) ds) = map (fun d => (Options d, rq_Frame d q)) ds); [|apply (G (fun k => clock (Z.of_nat k)))].
  induction ds as [|d ds IH]; intros g; [done|]. cbn. f_equal. apply (IH (g ∘ S)).
Qed.

Lemma arrivals_ok clock ds (q : Q) : Forall (fun d => bytes_ok (rq_Frame d q)) ds -> Forall (fun a => bytes_ok (av_frame a)) (arrivals clock ds q).
Proof.
  intros Hf. apply Forall_lookup. intros k a Ha. unfold arrivals in Ha. rewrite list_lookup_imap in Ha. destruct (ds !! k) as [d|] eqn:E; [|done]. injection Ha as <-. cbn. rewrite Forall_lookup in Hf. by eapply Hf.
Qed.

(** What a turn may do with the queue, the endpoint and the stack. *)
Definition turn_ok (q : Q) (st : loopState) (e : rxEndpoint) (failed : option error) (res : list event * bool * Q * loopState * rxEndpoint * option error) (got : list arrival) : Prop :=
  let '(evs, _, q', st', e', failed') := res in
  rs_out q' = [] /\ rs_log q' = rs_log q ++ map seen got /\ settled evs /\ (is_Some failed -> failed' = failed) /\
  exists out, rx_batch place order qi got (lp_inChain st) e = Some (out, lp_inChain st', e') /\ omap handed_over evs = map event_of out.

(** The first failure is kept, with what it was. *)
Definition recorded (err : error) (failed failed' : option error) : Prop :=
  exists x, (forall s, errors_is s x = errors_is s err) /\ failed' = Some (default x failed).

(** How a run ends: it has not; it was told to stop; Poll failed, and that is
    recorded unless the queue was closed; or a quiet queue turned out to have
    failed. *)
Definition ended (turns : list (turn (Q := Q))) (q : Q) (failed : option error) (ret : bool) (q' : Q) (failed' : option error) : Prop :=
  (ret = false /\ Forall (fun t => tn_stop t = false) turns /\ rs_errs q' = rs_errs q /\ failed' = failed) \/
  (ret = true /\ Exists (fun t => tn_stop t = true) turns /\ rs_errs q' = rs_errs q /\ failed' = failed) \/
  (ret = true /\ exists err, rs_errs q' = rs_errs q ++ [err] /\ if errors_is ErrClosed err then failed' = failed else recorded err failed failed') \/
  (ret = true /\ exists err, rs_errs q' = rs_errs q /\ rq_Err q' = Some err /\ recorded err failed failed').

Lemma recorded_fail err failed : recorded err failed (fail (receive_error err) failed).
Proof. exists (receive_error err). split; [by destruct err|by destruct failed]. Qed.

Lemma fail_kept err failed : is_Some failed -> fail err failed = failed.
Proof. by intros [x ->]. Qed.

Lemma rx_idle_spec now (q : Q) st failed : let '(evs, ret, st', failed') := rx_idle blocking busyPoll afterBatch now q st failed in
  omap handed_over evs = [] /\ (forall pkt, ToGRO pkt ∉ evs) /\ lp_inChain st' = lp_inChain st /\ (is_Some failed -> failed' = failed) /\
  (if ret then exists err, rq_Err q = Some err /\ recorded err failed failed' else failed' = failed).
Proof.
  assert (E : omap handed_over (if afterBatch then [AfterBatch] else []) = [] /\ forall pkt, ToGRO pkt ∉ (if afterBatch then [AfterBatch] else [])) by (destruct afterBatch; split; try done; intros pkt Hp; [apply list_elem_of_singleton in Hp; done|by apply elem_of_nil in Hp]).
  unfold rx_idle. destruct (negb blocking && _); [split_and!; try done; intros pkt Hp; by apply elem_of_nil in Hp|]. destruct (_ >? _); [destruct (rq_Err q) as [err|]|]; destruct E; split_and!; try done; [apply fail_kept|]. exists err. split; [done|apply recorded_fail].
Qed.

Lemma flush_spec e : omap handed_over (flush e) = [] /\ forall pkt, ToGRO pkt ∉ flush e.
Proof. unfold flush. destruct (r_NoGRO e); split; try done; intros pkt Hp; [by apply elem_of_nil in Hp|apply list_elem_of_singleton in Hp; done]. Qed.

Lemma rx_turn_spec t (q : Q) st e failed : rs_out q = [] -> exists evs ret q' st' e' failed' got, rx_turn place order qi blocking busyPoll afterBatch t q st e failed = Some (evs, ret, q', st', e', failed') /\ turn_ok q st e failed (evs, ret, q', st', e', failed') got /\ (tn_stop t = false -> ended [t] q failed ret q' failed').
Proof.
  intros Ho. unfold rx_turn. set (q1 := rq_Fill _ q). destruct (rs_fill (rq_NumFreeFillSlots q) q) as (F1 & F2 & F3). fold q1 in F1, F2, F3. pose proof (rs_poll blocking q1) as P. destruct (rq_Poll blocking q1) as [r q2]. destruct P as (P1 & P2 & P3). destruct r as [n|err].
  2:{ eexists _, _, _, _, _, _, []. split; [done|]. split; [split; [congruence|]; rewrite app_nil_r; split; [congruence|]; split; [apply settled_none; intros pkt Hp; by apply elem_of_nil in Hp|]; split; [|by exists []]; intros Hf; destruct (errors_is _ _); [done|by apply fail_kept]|].
      intros _. right. right. left. split; [done|]. exists err. split; [congruence|]. destruct (errors_is _ _); [done|apply recorded_fail]. }
  rewrite app_nil_r in P3. destruct (n =? 0).
  - pose proof (rx_idle_spec (tn_now t) q2 st failed) as I. destruct (rx_idle _ _ _ _ q2 st failed) as [[[evs ret] st'] failed']. destruct I as (I1 & I2 & I3 & I4 & I5). destruct (flush_spec e) as [L1 L2]. eexists _, _, _, _, _, _, []. split; [done|]. split; [split; [congruence|]; rewrite app_nil_r; split; [congruence|]; split; [|split; [done|]]|].
    + apply settled_none. intros pkt [Hp|Hp]%elem_of_app; [by apply L2 in Hp|by apply I2 in Hp].
    + exists []. cbn [rx_batch]. rewrite I3. split; [done|]. by rewrite omap_app, L1, I1.
    + intros Hs. destruct ret; [destruct I5 as (err & I5 & I6); do 3 right; split; [done|]; exists err; split; [congruence|done]|]. left. split; [done|]. split; [by apply List.Forall_cons|]. split; [congruence|done].
  - pose proof (rs_receive rxBatch q2) as R. destruct (rq_Receive rxBatch q2) as [ds q3]. destruct R as (R1 & R2 & R3 & R4). destruct (rx_batch_total place order qi (arrivals (tn_clock t) ds q3) (lp_inChain st) e (arrivals_ok _ _ _ R3)) as (out & ic & e' & E & Hn & Hg). rewrite E. cbn [mbind option_bind].
    assert (Ho3 : rs_out q3 = ds ++ []) by (rewrite R1, P1, F1, Ho, app_nil_r; done). destruct (rs_recycle ds [] q3 Ho3) as (C1 & C2 & C3). eexists _, _, _, _, _, _, (arrivals (tn_clock t) ds q3). split; [done|]. split; [split; [done|]; split; [by rewrite C2, R2, P2, F2, arrivals_seen|]; destruct (flush_spec e') as [L1 _]; split; [|split; [done|]]|].
    + unfold flush. destruct (r_NoGRO e') eqn:En; cbn [app].
      * rewrite Hn in En. apply settled_none. intros pkt [Hp|Hp]%elem_of_app; [|by destruct afterBatch; [apply list_elem_of_singleton in Hp|apply elem_of_nil in Hp]]. apply list_elem_of_fmap in Hp as ([[gro proto] p] & Ep & Hin). rewrite Forall_forall in Hg. specialize (Hg _ Hin). destruct gro; [pose proof (Hg eq_refl); congruence|discriminate Ep].
      * apply settled_flush. intros pkt Hp. by destruct afterBatch; [apply list_elem_of_singleton in Hp|apply elem_of_nil in Hp].
    + exists out. cbn [lp_inChain]. split; [done|]. rewrite !omap_app, omap_handed, L1. destruct afterBatch; by rewrite ?app_nil_r.
    + intros Hs. left. split; [done|]. split; [by apply List.Forall_cons|]. split; [congruence|done].
Qed.

(** Turns one after the other. *)
Lemma turn_ok_app q1 st1 e1 f1 evs1 b1 q2 st2 e2 f2 evs2 b2 q3 st3 e3 f3 got1 got2 :
  turn_ok q1 st1 e1 f1 (evs1, b1, q2, st2, e2, f2) got1 -> turn_ok q2 st2 e2 f2 (evs2, b2, q3, st3, e3, f3) got2 -> turn_ok q1 st1 e1 f1 (evs1 ++ evs2, b2, q3, st3, e3, f3) (got1 ++ got2).
Proof.
  intros (A1 & A2 & A3 & A4 & o1 & A5 & A6) (B1 & B2 & B3 & B4 & o2 & B5 & B6). split; [done|]. split; [by rewrite B2, A2, map_app, app_assoc|]. split; [by apply settled_app|]. split; [intros Hf; rewrite B4; rewrite A4; done|].
  exists (o1 ++ o2). split; [|by rewrite omap_app, A6, B6, map_app]. rewrite rx_batch_app, A5. cbn [mbind option_bind]. by rewrite B5.
Qed.

Lemma turn_ok_nil q st e f b : rs_out q = [] -> turn_ok q st e f ([], b, q, st, e, f) [].
Proof. intros Ho. split; [done|]. rewrite app_nil_r. split; [done|]. split; [apply settled_none; intros pkt Hp; by apply elem_of_nil in Hp|]. split; [done|by exists []]. Qed.

Definition device_keeps (t : turn (Q := Q)) : Prop := forall q, rs_out (tn_device t q) = rs_out q /\ rs_log (tn_device t q) = rs_log q /\ rs_errs (tn_device t q) = rs_errs q.

(** A turn that went on, and what came after. *)
Lemma ended_app t turns q q1 q' failed f1 ret failed' : tn_stop t = false -> ended [t] q failed false q1 f1 -> ended turns q1 f1 ret q' failed' -> ended (t :: turns) q failed ret q' failed'.
Proof.
  intros Hs E1 E2. destruct E1 as [(_ & _ & R1 & ->)|[(? & _)|[(? & _)|(? & _)]]]; try done. unfold ended in *. rewrite R1 in E2. destruct E2 as [(-> & F & R & ->)|[(-> & X & R & ->)|[(-> & err & R & K)|(-> & err & R & K)]]].
  - left. split_and!; try done. by apply List.Forall_cons.
  - right. left. split_and!; try done. by right.
  - right. right. left. split; [done|]. by exists err.
  - do 3 right. split; [done|]. by exists err.
Qed.

Lemma ended_one t turns q failed q' failed' : tn_stop t = false -> ended [t] q failed true q' failed' -> ended (t :: turns) q failed true q' failed'.
Proof.
  intros Hs [(? & _)|[(_ & X & _)|[(_ & err & K)|(_ & err & K)]]]; [done| | |].
  - apply Exists_cons in X as [X|X]; [congruence|by apply Exists_nil in X].
  - right. right. left. split; [done|]. by exists err.
  - do 3 right. split; [done|]. by exists err.
Qed.

Lemma rxLoop_spec turns : forall q st e failed, rs_out q = [] -> Forall device_keeps turns ->
  exists evs ret q' st' e' failed' got, rxLoop place order qi blocking busyPoll afterBatch turns q st e failed = Some (evs, ret, q', st', e', failed') /\ turn_ok q st e failed (evs, ret, q', st', e', failed') got /\ ended turns q failed ret q' failed'.
Proof.
  induction turns as [|t turns IH]; intros q st e failed Ho Ht; cbn [rxLoop]; [eexists _, _, _, _, _, _, []; split; [done|]; split; [by apply turn_ok_nil|left; by split_and!]|]. apply Forall_cons in Ht as [Hd Ht].
  destruct (tn_stop t) eqn:Hs; [eexists _, _, _, _, _, _, []; split; [done|]; split; [by apply turn_ok_nil|right; left; split_and!; try done; by left]|].
  destruct (Hd q) as (D1 & D2 & D3). destruct (rx_turn_spec t (tn_device t q) st e failed ltac:(congruence)) as (evs & ret & q1 & st1 & e1 & f1 & got1 & E & T & En). rewrite E. cbn [mbind option_bind]. assert (T' : turn_ok q st e failed (evs, ret, q1, st1, e1, f1) got1) by (destruct T as (T1 & T2 & T3); split; [done|]; split; [by rewrite T2, D2|done]).
  specialize (En Hs). assert (En' : ended [t] q failed ret q1 f1) by (unfold ended in *; by rewrite D3 in En).
  destruct ret; [eexists _, _, _, _, _, _, got1; split; [done|]; split; [done|by apply ended_one]|]. destruct (IH q1 st1 e1 f1) as (evs2 & ret2 & q2 & st2 & e2 & f2 & got2 & -> & T2 & En2); [apply T|done|]. cbn [mbind option_bind]. eexists _, _, _, _, _, _, (got1 ++ got2). split; [done|]. split; [by eapply turn_ok_app|by eapply ended_app].
Qed.

(** C11: over any run of the receive loop, on any queue that keeps the contract and
    whatever the device does between the turns.  The loop never panics.  When a
    turn is over it holds no frame: all it received it has given back.  What it
    has handed to the stack and to GRO is what delivering the packets received
    one after the other gives, in order, however they fell into batches: each
    packet that came in one frame, once, and of those laid across several only
    the pieces counted.  GRO keeps nothing.  The loop ends when it is told to,
    when Poll fails or when the queue is found to have failed, and then only;
    the failure is recorded, unless one was before or the queue was closed. *)
Theorem rx_loop_exact turns q st e failed : rs_out q = [] -> Forall device_keeps turns -> lp_inChain st = false ->
  exists evs ret q' st' e' failed' gs tail out e1,
    rxLoop place order qi blocking busyPoll afterBatch turns q st e failed = Some (evs, ret, q', st', e', failed') /\
    rs_out q' = [] /\ rs_log q' = rs_log q ++ map seen (concat gs ++ tail) /\ Forall in_pieces gs /\ Forall piece tail /\
    deliver_packets place order qi gs e = Some (out, e1) /\ omap handed_over evs = map event_of out /\ e' = bump_chained (length tail) e1 /\
    settled evs /\ ended turns q failed ret q' failed'.
Proof.
  intros Ho Ht Hc. destruct (rxLoop_spec turns q st e failed Ho Ht) as (evs & ret & q' & st' & e' & failed' & got & E & (T1 & T2 & T3 & T4 & out & T5 & T6) & En). destruct (stream_packets got) as (gs & tail & -> & Hgs & Htl). rewrite Hc, rx_batch_packets in T5 by done.
  destruct (deliver_packets place order qi gs e) as [[out' e1]|] eqn:Ed; [|done]. cbn [mbind option_bind] in T5. injection T5 as -> _ <-. exists evs, ret, q', st', (bump_chained (length tail) e1), failed', gs, tail, out, e1. by split_and!.
Qed.
End loops.

(** A queue in memory: what is waiting, what the caller has, and the log.
    Frame 0 is an ARP request, the others are the two pieces of something. *)
Definition ex_arp : list Z := replicate 6 255 ++ [2; 0; 0; 0; 0; 9; 8; 6] ++ replicate 28 1.
Definition ex_mem (addr : Z) : list Z := if addr =? 0 then ex_arp else replicate 64 (Z.land addr 7).

Record Feed := mkFeed { fd_waiting : list Desc; fd_out : list Desc; fd_log : list (Z * list Z); fd_down : option error; fd_errs : list error }.

#[local] Instance Feed_queue : RxQueue Feed := {
  rq_NumFreeFillSlots _ := 0;
  rq_Fill _ q := q;
  rq_Poll _ q := match fd_down q with None => (Ok (zlen (fd_waiting q)), q) | Some err => (Err err, mkFeed (fd_waiting q) (fd_out q) (fd_log q) (fd_down q) (fd_errs q ++ [err])) end;
  rq_Receive n q :=
    let ds := take (Z.to_nat n) (fd_waiting q) in
    (ds, mkFeed (drop (Z.to_nat n) (fd_waiting q)) (fd_out q ++ ds) (fd_log q ++ map (fun d => (Options d, ex_mem (Addr d))) ds) (fd_down q) (fd_errs q));
  rq_Frame d _ := ex_mem (Addr d);
  rq_Recycle ds q := mkFeed (fd_waiting q) (drop (length ds) (fd_out q)) (fd_log q) (fd_down q) (fd_errs q);
  rq_Err _ := None }.

Lemma ex_mem_ok addr : bytes_ok (ex_mem addr).
Proof.
  unfold ex_mem. destruct (addr =? 0); [apply Forall_app; split; [apply Forall_replicate; by split|]; apply Forall_app; split; [|apply Forall_replicate; by split]; repeat (apply List.Forall_cons; [by split|]); apply List.Forall_nil|].
  apply Forall_replicate. change 7 with (Z.ones 3). rewrite Z.land_ones by lia. pose proof (Z.mod_pos_bound addr (2 ^ 3) ltac:(lia)). unfold byte_ok. lia.
Qed.

#[local] Instance Feed_spec : RxQueueSpec Feed.
Proof.
  refine {| rs_out := fd_out; rs_log := fd_log; rs_errs := fd_errs |}; try (by intros; split_and!).
  - intros b q. cbn. destruct (fd_down q); split_and!; try done. by rewrite app_nil_r.
  - intros n q. cbn. split; [done|]. split; [done|]. split; [|done]. apply Forall_forall. intros d _. apply ex_mem_ok.
  - intros ds l q E. cbn. rewrite E, drop_app_length. done.
Defined.

Definition ex_arrive : turn (Q := Feed) := mkTurn false 0 (fun _ => (0, 0)) (fun q => mkFeed (fd_waiting q ++ [mkDesc 0 42 0; mkDesc 64 64 OptContinued; mkDesc 128 64 0]) (fd_out q) (fd_log q) (fd_down q) (fd_errs q)).
Definition ex_quiet : turn (Q := Feed) := mkTurn false 5 (fun _ => (0, 0)) (fun q => q).
Definition ex_down : turn (Q := Feed) := mkTurn false 6 (fun _ => (0, 0)) (fun q => mkFeed (fd_waiting q) (fd_out q) (fd_log q) (Some (Errorf "link gone")) (fd_errs q)).
Definition ex_endpoint : rxEndpoint := mkRx [2; 0; 0; 0; 0; 1] [10; 0; 0; 1] (10 * 2 ^ 24) 24 0 14 false true newNeighbors [] (fun _ => 0).
Definition ex_turns : list (turn (Q := Feed)) := [ex_arrive; ex_quiet; ex_down; ex_quiet].

(** A batch, a quiet turn, and a queue that fails. *)
Lemma rx_loop_exact_witness : exists evs q' st' e' failed' pkt,
  rxLoop (fun _ => 0) map_to_list 3 true false true ex_turns (mkFeed [] [] [] None []) (mkLoop 0 None 0 false) ex_endpoint None = Some (evs, true, q', st', e', failed') /\
  evs = [ToStack ARPProtocolNumber pkt; Flush; AfterBatch; Flush; AfterBatch] /\ rs_out q' = [] /\ r_count e' cChained = 2 /\ r_count e' cRx = 1 /\ settled evs /\ failed' = Some (Errorf "receive queue") /\
  ended ex_turns (mkFeed [] [] [] None []) None true q' failed'.
Proof.
  destruct (rx_loop_exact (fun _ => 0) map_to_list 3 true false true ex_turns (mkFeed [] [] [] None []) (mkLoop 0 None 0 false) ex_endpoint None) as (evs & ret & q' & st' & e' & failed' & gs & tail & out & e1 & E & Ho & _ & _ & _ & _ & _ & _ & S & N).
  - reflexivity.
  - repeat (apply List.Forall_cons; [by intros q; split_and!|]). apply List.Forall_nil.
  - reflexivity.
  - pose proof E as E'. vm_compute in E'. injection E' as <- <- <- <- <- <-. do 6 eexists. split; [exact E|]. split; [reflexivity|]. split; [exact Ho|]. split; [reflexivity|]. split; [reflexivity|]. split; [exact S|]. split; [reflexivity|exact N].
Defined.
