(* ===== verification/NetLife.v ===== *)
(** The life of a stack: who may be inside a queue of the device, from Attach to
    Close (netstack/endpoint.go), and the devices a stack is up on (claim,
    release, New and Close of netstack/stack.go).

    The goroutines of an endpoint are its receive loops, the writers that call
    WritePackets, and whoever attaches, stops or closes it.  They interleave at
    the points where they take a lock, look at a flag or wait: an [act] is what
    one of them does between two such points. *)

From stdpp Require Import prelude list numbers strings gmap.
From S2P Require Import Prelude Bytes Desc GvChecksum NetHeader NetPacket NetGso NetTx NetNeigh NetRx NetRxThms NetConfig.

(** ** endpoint.go *)

(** The mutex of a transmit queue: a writer that has it has not looked at
    txClosed yet, or is in SendFunc. *)
Inductive writing := Unlocked | Checking | InQueue.

(** [e.mu], held across the wait for the receive loops. *)
Inductive mutex := MuFree | MuStop | MuClose.

(** Where Close has got to; [Fencing k] has taken and released the first [k]
    transmit queues' locks. *)
Inductive closing := NotClosing | Stopping | Stopped | Fencing (k : nat) | Closed.

#[global] Instance mutex_eq : EqDecision mutex.
Proof. solve_decision. Defined.
#[global] Instance closing_eq : EqDecision closing.
Proof. solve_decision. Defined.
#[global] Instance writing_eq : EqDecision writing.
Proof. solve_decision. Defined.

Record life := mkLife {
  lf_attached : bool;
  lf_rxStop : bool;
  lf_loops : list nat;
  lf_mu : mutex;
  lf_txClosed : bool;
  lf_tx : list writing;
  lf_close : closing }.

Definition newLife (ntx : nat) : life := mkLife false false [] MuFree false (replicate ntx Unlocked) NotClosing.

Definition with_tx (tx : list writing) (s : life) : life := mkLife (lf_attached s) (lf_rxStop s) (lf_loops s) (lf_mu s) (lf_txClosed s) tx (lf_close s).
Definition with_loops (loops : list nat) (s : life) : life := mkLife (lf_attached s) (lf_rxStop s) loops (lf_mu s) (lf_txClosed s) (lf_tx s) (lf_close s).
Definition with_close (c : closing) (s : life) : life := mkLife (lf_attached s) (lf_rxStop s) (lf_loops s) (lf_mu s) (lf_txClosed s) (lf_tx s) c.

(** Attach of a dispatcher: one loop for each of the [nrx] queues. *)
Definition Attach (nrx : nat) (s : life) : option life :=
  if decide (lf_mu s = MuFree) then
    if lf_attached s then Some s else Some (mkLife true false (seq 0 nrx) MuFree (lf_txClosed s) (lf_tx s) (lf_close s))
  else None.

(** stopReceiveLocked up to the wait, and from it; [mu] is who is waiting. *)
Definition stop_begin (mu : mutex) (s : life) : life :=
  if lf_attached s then mkLife (lf_attached s) true (lf_loops s) mu (lf_txClosed s) (lf_tx s) (lf_close s) else s.
Definition stop_end (s : life) : life := mkLife false (lf_rxStop s) (lf_loops s) MuFree (lf_txClosed s) (lf_tx s) (lf_close s).

(** A receive loop returns, which it does when it finds that it has been told to
    stop ... *)
Definition loop_exit (i : nat) (s : life) : option life :=
  if decide (i ∈ lf_loops s /\ lf_rxStop s = true) then Some (with_loops (filter (fun j => j <> i) (lf_loops s)) s) else None.
(** ... or when its queue has failed. *)
Definition loop_fail (i : nat) (s : life) : option life :=
  if decide (i ∈ lf_loops s) then Some (with_loops (filter (fun j => j <> i) (lf_loops s)) s) else None.

(** WritePackets takes the lock of queue [i], looks at txClosed, and is done. *)
Definition writer_lock (i : nat) (s : life) : option life := match lf_tx s !! i with Some Unlocked => Some (with_tx (<[i := Checking]> (lf_tx s)) s) | _ => None end.
Definition writer_check (i : nat) (s : life) : option life :=
  match lf_tx s !! i with Some Checking => Some (with_tx (<[i := if lf_txClosed s then Unlocked else InQueue]> (lf_tx s)) s) | _ => None end.
Definition writer_done (i : nat) (s : life) : option life := match lf_tx s !! i with Some InQueue => Some (with_tx (<[i := Unlocked]> (lf_tx s)) s) | _ => None end.

(** Close, step by step; a second call comes after the first (Stack.Close calls
    it once more than Destroy does). *)
Definition close_begin (s : life) : option life :=
  if decide (lf_mu s = MuFree) then
    match lf_close s with
    | NotClosing | Closed => Some (if lf_attached s then with_close Stopping (stop_begin MuClose s) else with_close Stopped s)
    | _ => None
    end
  else None.
Definition close_stopped (s : life) : option life :=
  match lf_close s, lf_mu s, lf_loops s with Stopping, MuClose, [] => Some (with_close Stopped (stop_end s)) | _, _, _ => None end.
Definition close_mark (s : life) : option life :=
  match lf_close s with Stopped => Some (mkLife (lf_attached s) (lf_rxStop s) (lf_loops s) (lf_mu s) true (lf_tx s) (Fencing 0)) | _ => None end.
Definition close_fence (s : life) : option life :=
  match lf_close s with
  | Fencing k => match lf_tx s !! k with
                 | Some Unlocked => Some (with_close (Fencing (S k)) s)
                 | Some _ => None
                 | None => Some (with_close Closed s)
                 end
  | _ => None
  end.

Inductive act :=
| AAttach | AStop | AStopDone | ALoopExit (i : nat) | ALoopFail (i : nat)
| ALock (i : nat) | ACheck (i : nat) | AWritten (i : nat)
| AClose | AStopped | AMark | AFence.

Definition l_do (nrx : nat) (a : act) (s : life) : option life :=
  match a with
  | AAttach => Attach nrx s
  | AStop => if decide (lf_mu s = MuFree) then Some (stop_begin MuStop s) else None
  | AStopDone => match lf_mu s, lf_loops s with MuStop, [] => Some (stop_end s) | _, _ => None end
  | ALoopExit i => loop_exit i s
  | ALoopFail i => loop_fail i s
  | ALock i => writer_lock i s
  | ACheck i => writer_check i s
  | AWritten i => writer_done i s
  | AClose => close_begin s
  | AStopped => close_stopped s
  | AMark => close_mark s
  | AFence => close_fence s
  end.

(** The stack does not attach an endpoint it has begun to close. *)
Definition l_may (a : act) (s : life) : Prop := match a with AAttach => lf_close s = NotClosing | _ => True end.

#[global] Instance l_may_dec a s : Decision (l_may a s).
Proof. destruct a; cbn; apply _. Defined.

(** A schedule, as long as each act may be taken. *)
Fixpoint l_run (nrx : nat) (acts : list act) (s : life) : option life :=
  match acts with
  | [] => Some s
  | a :: acts => if decide (l_may a s) then s ← l_do nrx a s; l_run nrx acts s else None
  end.

Inductive lreach (nrx : nat) : life -> life -> Prop :=
| lreach_refl s : lreach nrx s s
| lreach_step s s1 s2 a : lreach nrx s s1 -> l_may a s1 -> l_do nrx a s1 = Some s2 -> lreach nrx s s2.

(** ** stack.go *)

Definition claim (dev : nat) (inUse : gset nat) : res (gset nat) := if decide (dev ∈ inUse) then Err (Errorf "the device already has a stack on it") else Ok ({[dev]} ∪ inUse).
Definition release (dev : nat) (inUse : gset nat) : gset nat := inUse ∖ {[dev]}.

(** What the calls into the stack that build and enable the NIC answer. *)
Record answers := mkAnswers { an_nic : option error; an_address : option error; an_enable : option error }.

(** The TCP protocol's settings (gvisor transport/tcp/protocol.go). *)
Record bufferRange := mkRange { br_Min : Z; br_Default : Z; br_Max : Z }.
Record protocol := mkProtocol { pr_timeWaitReuse : Z; pr_sendBufferSize : bufferRange; pr_recvBufferSize : bufferRange }.

Inductive tcpOption := TimeWaitReuse (v : Z) | SendBufferSizeRange (v : bufferRange) | ReceiveBufferSizeRange (v : bufferRange).

Definition TCPTimeWaitReuseDisabled : Z := 0.
Definition TCPTimeWaitReuseGlobal : Z := 1.
Definition TCPTimeWaitReuseLoopbackOnly : Z := 2.

Definition bad_range (v : bufferRange) : bool := (br_Min v <=? 0) || (br_Default v <? br_Min v) || (br_Default v >? br_Max v).

Definition set_timeWaitReuse (v : Z) (p : protocol) : res protocol :=
  if (v <? TCPTimeWaitReuseDisabled) || (v >? TCPTimeWaitReuseLoopbackOnly) then Err (Errorf "invalid option value") else Ok (mkProtocol v (pr_sendBufferSize p) (pr_recvBufferSize p)).
Definition set_sendBufferSize (v : bufferRange) (p : protocol) : res protocol :=
  if bad_range v then Err (Errorf "invalid option value") else Ok (mkProtocol (pr_timeWaitReuse p) v (pr_recvBufferSize p)).
Definition set_recvBufferSize (v : bufferRange) (p : protocol) : res protocol :=
  if bad_range v then Err (Errorf "invalid option value") else Ok (mkProtocol (pr_timeWaitReuse p) (pr_sendBufferSize p) v).

(** The cases of SetOption that are used. *)
Definition SetOption (o : tcpOption) : protocol -> res protocol :=
  match o with
  | TimeWaitReuse v => set_timeWaitReuse v
  | SendBufferSizeRange v => set_sendBufferSize v
  | ReceiveBufferSizeRange v => set_recvBufferSize v
  end.

Definition configureTCP (cfg : Config) (p : protocol) : res protocol :=
  match SetOption (TimeWaitReuse TCPTimeWaitReuseGlobal) p with
  | Err err => Err err
  | Ok p =>
    match SetOption (SendBufferSizeRange (mkRange minBuffer (c_SendBufferSize cfg) (Z.max maxBuffer (c_SendBufferSize cfg)))) p with
    | Err err => Err err
    | Ok p => SetOption (ReceiveBufferSizeRange (mkRange minBuffer (c_ReceiveBufferSize cfg) (Z.max maxBuffer (c_ReceiveBufferSize cfg)))) p
    end
  end.

(** A subnet and a route (gvisor tcpip.go). *)
Record Subnet := mkSubnet { sn_address : list Z; sn_mask : list Z }.
Record Route := mkRoute { rt_Destination : Subnet; rt_Gateway : option (list Z) }.

Definition NewSubnet (a m : list Z) : res Subnet :=
  if negb (zlen a =? zlen m) then Err (Errorf "subnet length of address and mask differ")
  else if existsb (fun x => negb (x =? 0)) (zip_with Z.ldiff a m) then Err (Errorf "subnet address has bits set outside the mask")
  else Ok (mkSubnet a m).

(** [Subnet.Contains]. *)
Definition sn_Contains (s : Subnet) (a : list Z) : bool :=
  (zlen a =? zlen (sn_address s)) && forallb (fun x => x) (zip_with (fun x y => x =? y) (zip_with Z.land a (sn_mask s)) (sn_address s)).

Definition IPv4EmptySubnet : Subnet := mkSubnet [0; 0; 0; 0] [0; 0; 0; 0].

Section stack.
Context (order : gmap (list Z) neighbor -> list (list Z * neighbor)) (now : Z).

(** Stack.AddNeighbor. *)
Definition st_AddNeighbor (n : Addr * list Z) (e : rxEndpoint) : res rxEndpoint :=
  match n with
  | (Addr4 v, mac) => if zlen mac =? 6 then Ok (AddNeighbor order now (be_bytes 4 v) mac e) else Err (Errorf "neighbor is not an IPv4 address and a MAC")
  | _ => Err (Errorf "neighbor is not an IPv4 address and a MAC")
  end.

Fixpoint add_neighbors (ns : list (Addr * list Z)) (e : rxEndpoint) : res rxEndpoint :=
  match ns with
  | [] => Ok e
  | n :: ns => match st_AddNeighbor n e with Err err => Err err | Ok e => add_neighbors ns e end
  end.

(** The route table and the table of neighbors; [None] is the panic of [As4]. *)
Definition configureNIC (an : answers) (cfg : Config) (e : rxEndpoint) : option (res (list Route * rxEndpoint)) :=
  match an_address an with
  | Some err => Some (Err err)
  | None =>
    match p_Addr (c_Addr cfg) with
    | Addr4 a =>
      match NewSubnet (be_bytes 4 (masked a (p_Bits (c_Addr cfg)))) (cidr_mask 4 (p_Bits (c_Addr cfg))) with
      | Err err => Some (Err err)
      | Ok subnet =>
        gw ← match c_Gateway cfg with AddrNone => Some None | Addr4 g => Some (Some (be_bytes 4 g)) | AddrOther => None end;
        match add_neighbors (c_Neighbors cfg) e with
        | Err err => Some (Err err)
        | Ok e => Some (Ok ([mkRoute subnet None; mkRoute IPv4EmptySubnet gw], e))
        end
      end
    | _ => None
    end
  end.

(** [learned] is set once the stack is there. *)
Definition learning (e : rxEndpoint) : rxEndpoint :=
  mkRx (r_mac e) (r_addr e) (r_prefix e) (r_bits e) (r_VLAN e) (r_linkLen e) (r_NoGRO e) true (r_neigh e) (r_told e) (r_count e).

Definition with_rx (rx : rxEndpoint) (e : endpoint) : endpoint := mkEndpoint (ep_cfg e) (ep_tx e) rx (ep_maxMTU e) (ep_gsoMax e) (ep_mtu e) (ep_rxq e) (ep_txq e).

(** A stack: its endpoint, its TCP settings and its routes. *)
Record Stack := mkStack { st_ep : endpoint; st_tcp : protocol; st_routes : list Route }.

(** New of device [id]: [tcp0] is the protocol as gVisor builds it. *)
Definition st_New (id : nat) (dev : Device) (cfg : Config) (tcp0 : protocol) (an : answers) (inUse : gset nat) : option (res Stack * gset nat) :=
  c ← withDefaults cfg;
  match c with
  | Err err => Some (Err err, inUse)
  | Ok cfg =>
    match claim id inUse with
    | Err err => Some (Err err, inUse)
    | Ok inUse =>
      r ← newEndpoint dev cfg;
      match r with
      | Err err => Some (Err err, release id inUse)
      | Ok ep =>
        match configureTCP (ep_cfg ep) tcp0 with
        | Err err => Some (Err err, release id inUse)
        | Ok tcp =>
          match an_nic an with
          | Some err => Some (Err err, release id inUse)
          | None =>
            n ← configureNIC an (ep_cfg ep) (learning (ep_rx ep));
            match n with
            | Err err => Some (Err err, release id inUse)
            | Ok (routes, rx) => match an_enable an with Some err => Some (Err err, release id inUse) | None => Some (Ok (mkStack (with_rx rx ep) tcp routes), inUse) end
            end
          end
        end
      end
    end
  end.
End stack.


(** ** Nobody is left inside *)

Definition quiet_below (k : nat) (tx : list writing) : Prop := forall j, (j < k)%nat -> tx !! j <> Some InQueue.

(** What holds between any two acts. *)
Record life_ok (nrx : nat) (s : life) : Prop := {
  lo_once : NoDup (lf_loops s);
  lo_range : Forall (fun i => (i < nrx)%nat) (lf_loops s);
  lo_detached : lf_attached s = false -> lf_loops s = [];
  lo_waiting : lf_mu s <> MuFree -> lf_attached s = true /\ lf_rxStop s = true;
  lo_closing : lf_close s = Stopping <-> lf_mu s = MuClose;
  lo_phase : match lf_close s with
             | NotClosing | Stopping => True
             | Stopped => lf_attached s = false
             | Fencing k => lf_attached s = false /\ lf_txClosed s = true /\ quiet_below k (lf_tx s)
             | Closed => lf_attached s = false /\ lf_txClosed s = true /\ quiet_below (length (lf_tx s)) (lf_tx s)
             end }.

Lemma quiet_insert k i w tx : quiet_below k tx -> w <> InQueue -> quiet_below k (<[i := w]> tx).
Proof.
  intros Hq Hw j Hj E. destruct (decide (i = j)) as [->|Hne]; [|rewrite list_lookup_insert_ne in E by done; by apply (Hq j)]. destruct (decide (j < length tx)%nat); [rewrite list_lookup_insert_eq in E by done; congruence|]. apply lookup_lt_Some in E. rewrite length_insert in E. lia.
Qed.

(** A writer's step, which may not enter a queue once transmit is closed. *)
Lemma life_ok_tx nrx s i w : life_ok nrx s -> (w = InQueue -> lf_txClosed s = false) -> life_ok nrx (with_tx (<[i := w]> (lf_tx s)) s).
Proof.
  intros [] Hw. split; try done. cbn [with_tx lf_close lf_attached lf_txClosed lf_tx]. destruct (lf_close s) as [| | |k|]; try done; destruct lo_phase0 as (P1 & P2 & P3); (split; [done|]; split; [done|]); rewrite ?length_insert; apply quiet_insert; (done || (intros ->; rewrite Hw in P2; done)).
Qed.

Lemma life_ok_loops nrx s i : life_ok nrx s -> life_ok nrx (with_loops (filter (fun j => j <> i) (lf_loops s)) s).
Proof.
  intros []. split; cbn; try done; [by apply NoDup_filter|apply Forall_forall; intros j [_ Hj]%list_elem_of_filter; rewrite Forall_forall in lo_range0; auto|]. intros Ha. by rewrite lo_detached0.
Qed.

Lemma l_do_ok nrx a s s' : life_ok nrx s -> l_may a s -> l_do nrx a s = Some s' -> life_ok nrx s'.
Proof.
  intros Hs Hm E. destruct a as [| | |i|i|i|i|i| | | |]; cbn [l_do l_may] in *.
  - unfold Attach in E. destruct (decide _) as [Hmu|]; [|done]. destruct (lf_attached s) eqn:Ea; injection E as <-; [done|]. destruct Hs. split; cbn; try done; [apply NoDup_seq|apply Forall_forall; intros j Hj; apply elem_of_seq in Hj; lia|by rewrite Hm|by rewrite Hm].
  - destruct (decide _) as [Hmu|]; [|done]. injection E as <-. unfold stop_begin. destruct (lf_attached s) eqn:Ea; [|done]. destruct Hs. split; cbn; try done; [by rewrite lo_closing0, Hmu|]. destruct (lf_close s); try done; [congruence|by destruct lo_phase0; congruence|by destruct lo_phase0; congruence].
  - destruct (lf_mu s) eqn:Emu, (lf_loops s) eqn:El; try done. injection E as <-. destruct Hs. rewrite El in *. unfold stop_end. split; cbn; rewrite ?El; try done; [by rewrite lo_closing0, Emu|]. destruct (lf_close s); try done; by destruct lo_phase0.
  - unfold loop_exit in E. destruct (decide _); [|done]. injection E as <-. by apply life_ok_loops.
  - unfold loop_fail in E. destruct (decide _); [|done]. injection E as <-. by apply life_ok_loops.
  - unfold writer_lock in E. destruct (lf_tx s !! i) as [[]|]; try done. injection E as <-. by apply life_ok_tx.
  - unfold writer_check in E. destruct (lf_tx s !! i) as [[]|]; try done. injection E as <-. apply life_ok_tx; [done|]. by destruct (lf_txClosed s).
  - unfold writer_done in E. destruct (lf_tx s !! i) as [[]|]; try done. injection E as <-. by apply life_ok_tx.
  - unfold close_begin in E. destruct (decide _) as [Hmu|]; [|done]. assert (E' : s' = if lf_attached s then with_close Stopping (stop_begin MuClose s) else with_close Stopped s) by (destruct (lf_close s); congruence). subst s'. clear E. unfold stop_begin. destruct (lf_attached s) eqn:Ea; destruct Hs; split; cbn; try done; by rewrite Hmu.
  - unfold close_stopped in E. destruct (lf_close s) eqn:Ec, (lf_mu s) eqn:Emu, (lf_loops s) eqn:El; try done. injection E as <-. destruct Hs. rewrite El in *. split; cbn; rewrite ?El; try done.
  - unfold close_mark in E. destruct (lf_close s) eqn:Ec; try done. injection E as <-. destruct Hs. rewrite Ec in *. split; cbn; try done; [split; [done|]; intros Hmu; by apply lo_closing0 in Hmu|]. split; [done|]. split; [done|]. intros j Hj. lia.
  - unfold close_fence in E. destruct (lf_close s) as [| | |k|] eqn:Ec; try done. destruct Hs. rewrite Ec in *. destruct lo_phase0 as (P1 & P2 & P3). destruct (lf_tx s !! k) as [[]|] eqn:Ek; try done; injection E as <-; split; cbn; try done; try (split; [done|]; intros Hmu; by apply lo_closing0 in Hmu); (split; [done|]; split; [done|]); intros j Hj.
    + destruct (decide (j = k)) as [->|]; [congruence|]. apply P3. lia.
    + apply lookup_ge_None in Ek. apply P3. lia.
Qed.

Lemma newLife_ok nrx ntx : life_ok nrx (newLife ntx).
Proof. split; try done. apply NoDup_nil_2. Qed.

Lemma lreach_ok nrx ntx s : lreach nrx (newLife ntx) s -> life_ok nrx s.
Proof. intros Hr. remember (newLife ntx) as s0. induction Hr as [s|s s1 s2 a _ IH Hm E]; [subst; apply newLife_ok|]. by eapply l_do_ok; [apply IH| |]. Qed.

Lemma lreach_trans nrx s1 s2 s3 : lreach nrx s1 s2 -> lreach nrx s2 s3 -> lreach nrx s1 s3.
Proof. intros H1 H2. induction H2 as [s|s s' s'' a _ IH Hm E]; [done|]. eapply lreach_step; [by apply IH|done|done]. Qed.

(** A loop need not wait for its queue to fail. *)
Definition willing (a : act) : Prop := match a with ALoopFail _ => False | _ => True end.

(** Acts that lead from one state to another, none of them a failure. *)
Definition leads (nrx : nat) (s s' : life) : Prop := exists acts, Forall willing acts /\ l_run nrx acts s = Some s'.

Lemma leads_refl nrx s : leads nrx s s.
Proof. exists []. by split. Qed.

Lemma l_run_app nrx acts acts' : forall s, l_run nrx (acts ++ acts') s = (s' ← l_run nrx acts s; l_run nrx acts' s').
Proof. induction acts as [|a acts IH]; intros s; cbn [app l_run]; [done|]. destruct (decide _); [|done]. destruct (l_do nrx a s); cbn [mbind option_bind]; [apply IH|done]. Qed.

Lemma leads_trans nrx s1 s2 s3 : leads nrx s1 s2 -> leads nrx s2 s3 -> leads nrx s1 s3.
Proof. intros (l1 & W1 & E1) (l2 & W2 & E2). exists (l1 ++ l2). split; [by apply Forall_app|]. rewrite l_run_app, E1. exact E2. Qed.

Lemma leads_one nrx s a s' : willing a -> l_may a s -> l_do nrx a s = Some s' -> leads nrx s s'.
Proof. intros W Hm E. exists [a]. split; [by constructor|]. cbn [l_run]. by rewrite decide_True, E. Qed.

(** Told to stop, the loops return one by one. *)
Lemma loops_drain nrx n : forall s, lf_rxStop s = true -> (length (lf_loops s) <= n)%nat -> leads nrx s (with_loops [] s).
Proof.
  induction n as [|n IH]; intros s Ht Hn; (destruct (lf_loops s) as [|i l] eqn:El; [replace (with_loops [] s) with s by (destruct s; cbn in El; by subst); apply leads_refl|]); [cbn in Hn; lia|].
  set (s1 := with_loops (filter (fun j => j <> i) (lf_loops s)) s). assert (E : l_do nrx (ALoopExit i) s = Some s1) by (cbn; unfold loop_exit; rewrite decide_True by (rewrite El; split; [by left|done]); reflexivity).
  eapply leads_trans; [eapply leads_one; [| |exact E]; exact I|]. apply (IH s1); [done|]. unfold s1; cbn; rewrite El, filter_cons_False by tauto; pose proof (length_filter (fun j => j <> i) l); cbn in Hn; lia.
Qed.

(** A writer in a queue gets out of it. *)
Lemma writer_leaves nrx s k w : lf_txClosed s = true -> lf_tx s !! k = Some w -> leads nrx s (with_tx (<[k := Unlocked]> (lf_tx s)) s).
Proof.
  intros Hc Hk. destruct w.
  - unfold with_tx. rewrite list_insert_id by done. replace (mkLife _ _ _ _ _ _ _) with s by (by destruct s). apply leads_refl.
  - eapply (leads_one nrx s (ACheck k)); [done|done|]. cbn. unfold writer_check. by rewrite Hk, Hc.
  - eapply (leads_one nrx s (AWritten k)); [done|done|]. cbn. unfold writer_done. by rewrite Hk.
Qed.

Lemma fences_pass nrx n : forall s k, lf_close s = Fencing k -> lf_txClosed s = true -> (length (lf_tx s) - k <= n)%nat -> exists s', leads nrx s s' /\ lf_close s' = Closed.
Proof.
  induction n as [|n IH]; intros s k Hf Hc Hn; (destruct (lf_tx s !! k) as [w|] eqn:Ek; [|exists (with_close Closed s); split; [|done]; eapply (leads_one nrx s AFence); [done|done|]; cbn; unfold close_fence; by rewrite Hf, Ek]); pose proof (lookup_lt_Some _ _ _ Ek); [lia|].
  pose proof (writer_leaves nrx s k w Hc Ek) as R1. set (s1 := with_tx _ s) in *. set (s2 := with_close (Fencing (S k)) s1). assert (E : l_do nrx AFence s1 = Some s2) by (cbn; unfold close_fence; cbn; by rewrite Hf, list_lookup_insert_eq).
  destruct (IH s2 (S k)) as (s' & R2 & Hs'); [done|done|unfold s2, s1; cbn; rewrite length_insert; lia|]. exists s'. split; [|done]. eapply leads_trans; [exact R1|]. eapply leads_trans; [eapply leads_one; [| |exact E]; exact I|exact R2].
Qed.

(** C12: whatever the receive loops, the writers and those who attach, stop and
    close an endpoint do, and in whatever order: no receive queue is ever driven
    by two loops; when Close has returned no loop is running and no writer is in
    a queue, so the device may be closed; and a Close that has begun can always
    get to its end without any queue failing, however the others stand, because
    the loops have been told to stop and a writer leaves once it is done. *)
Theorem close_quiesces nrx ntx s : lreach nrx (newLife ntx) s ->
  NoDup (lf_loops s) /\ Forall (fun i => (i < nrx)%nat) (lf_loops s) /\
  (lf_close s = Closed -> lf_loops s = [] /\ forall i, lf_tx s !! i <> Some InQueue) /\
  (lf_close s <> NotClosing -> exists acts s', Forall willing acts /\ l_run nrx acts s = Some s' /\ lf_close s' = Closed).
Proof.
  intros Hr. pose proof (lreach_ok nrx ntx s Hr) as Hs. pose proof Hs as []. split; [done|]. split; [done|]. split.
  - intros Hc. rewrite Hc in lo_phase0. destruct lo_phase0 as (P1 & P2 & P3). split; [auto|]. intros i Ei. apply (P3 i); [by apply lookup_lt_Some in Ei|done].
  - intros Hc. cut (exists s', leads nrx s s' /\ lf_close s' = Closed); [intros (s' & (acts & W & E) & H'); by exists acts, s'|].
    assert (Mark : forall s1, lf_close s1 = Stopped -> exists s', leads nrx s1 s' /\ lf_close s' = Closed).
    { intros s1 H1. set (s2 := mkLife (lf_attached s1) (lf_rxStop s1) (lf_loops s1) (lf_mu s1) true (lf_tx s1) (Fencing 0)). assert (E : l_do nrx AMark s1 = Some s2) by (cbn; unfold close_mark; by rewrite H1). destruct (fences_pass nrx (length (lf_tx s2)) s2 0) as (s' & R & Hs'); [done|done|lia|]. exists s'. split; [|done]. eapply leads_trans; [eapply leads_one; [| |exact E]; exact I|done]. }
    destruct (lf_close s) as [| | |k|] eqn:Ec; [done| |by apply Mark|by destruct lo_phase0 as (_ & P2 & _); eapply fences_pass|exists s; split; [apply leads_refl|done]].
    assert (Emu : lf_mu s = MuClose) by (by apply lo_closing0). assert (Et : lf_rxStop s = true) by (apply lo_waiting0; congruence). pose proof (loops_drain nrx _ s Et (le_n _)) as R1. set (s1 := with_loops [] s) in *. set (s2 := with_close Stopped (stop_end s1)).
    assert (E : l_do nrx AStopped s1 = Some s2) by (cbn; unfold close_stopped; cbn; by rewrite Ec, Emu). destruct (Mark s2 eq_refl) as (s' & R2 & Hs'). exists s'. split; [|done]. eapply leads_trans; [exact R1|]. eapply leads_trans; [eapply leads_one; [| |exact E]; exact I|exact R2].
Qed.

(** A loop and a writer at work, the endpoint closed, and everybody out. *)
Definition exLife : list act := [AAttach; ALock 0; ACheck 0; AClose; ALoopExit 1; ALoopExit 0; AStopped; AMark; AWritten 0; AFence; AFence].

Lemma l_run_reach nrx acts : forall s s', l_run nrx acts s = Some s' -> lreach nrx s s'.
Proof.
  induction acts as [|a acts IH]; intros s s' E; cbn [l_run] in E; [injection E as <-; apply lreach_refl|]. destruct (decide (l_may a s)) as [Hm|]; [|done]. destruct (l_do nrx a s) as [s1|] eqn:E1; [|done]. eapply lreach_trans; [eapply lreach_step; [apply lreach_refl|exact Hm|exact E1]|by apply IH].
Qed.

Lemma close_quiesces_witness : exists s, l_run 2 exLife (newLife 1) = Some s /\ lf_close s = Closed /\ lf_loops s = [] /\ forall i, lf_tx s !! i <> Some InQueue.
Proof.
  destruct (l_run 2 exLife (newLife 1)) as [s|] eqn:E; [|vm_compute in E; discriminate E]. exists s. split; [reflexivity|]. destruct (close_quiesces 2 1 s (l_run_reach _ _ _ _ E)) as (_ & _ & Q & _). assert (C : lf_close s = Closed) by (vm_compute in E; injection E as <-; reflexivity). split; [exact C|apply Q; exact C].
Defined.

(** ** A stack comes up whole or not at all *)

Lemma be_bytes_land x y : zip_with Z.land (be_bytes 4 x) (be_bytes 4 y) = be_bytes 4 (Z.land x y).
Proof.
  rewrite !be4_eq. cbn [zip_with]. assert (B : forall k, 0 <= k -> Z.land (x / 2 ^ k mod 256) (y / 2 ^ k mod 256) = Z.land x y / 2 ^ k mod 256).
  { intros k Hk. change 256 with (2 ^ 8). rewrite <- !Z.land_ones, <- !Z.shiftr_div_pow2, Z.shiftr_land by lia. apply Z.bits_inj'. intros n _. rewrite !Z.land_spec. destruct (Z.testbit (Z.ones 8) n); by rewrite ?andb_true_r, ?andb_false_r. }
  pose proof (B 24 ltac:(lia)) as B3. pose proof (B 16 ltac:(lia)) as B2. pose proof (B 8 ltac:(lia)) as B1. pose proof (B 0 ltac:(lia)) as B0. rewrite !Z.div_1_r in B0. change (2 ^ 24) with 16777216 in B3. change (2 ^ 16) with 65536 in B2. change (2 ^ 8) with 256 in B1. congruence.
Qed.

Lemma cidr_mask_bytes bits : 0 <= bits <= 32 -> cidr_mask 4 bits = be_bytes 4 (u32 (Z.shiftl 0xffffffff (32 - bits))).
Proof.
  intros Hb. assert (Hin : In bits (map Z.of_nat (seq 0 33))). { apply in_map_iff. exists (Z.to_nat bits). split; [lia|]. apply in_seq. lia. }
  clear Hb. revert bits Hin. apply List.Forall_forall. cbn [seq map Z.of_nat]. repeat (apply List.Forall_cons; [vm_compute; reflexivity|]). apply List.Forall_nil.
Qed.

Lemma be4_inj x y : 0 <= x < 2 ^ 32 -> 0 <= y < 2 ^ 32 -> be_bytes 4 x = be_bytes 4 y -> x = y.
Proof. intros Hx Hy E. rewrite <- (be_val_be 4 x), <- (be_val_be 4 y) by (cbn; lia). by rewrite E. Qed.

Lemma masked_range v bits : 0 <= v < 2 ^ 32 -> 0 <= bits <= 32 -> 0 <= masked v bits < 2 ^ 32.
Proof. intros Hv Hb. rewrite masked_val by done. assert (0 < 2 ^ (32 - bits)) by (apply Z.pow_pos_nonneg; lia). pose proof (Z.mul_div_le v (2 ^ (32 - bits))). pose proof (Z.div_pos v (2 ^ (32 - bits))). nia. Qed.

Lemma masked_eq v w bits : 0 <= v < 2 ^ 32 -> 0 <= w < 2 ^ 32 -> 0 <= bits <= 32 -> masked v bits = masked w bits <-> v / 2 ^ (32 - bits) = w / 2 ^ (32 - bits).
Proof. intros Hv Hw Hb. rewrite !masked_val by done. assert (0 < 2 ^ (32 - bits)) by (apply Z.pow_pos_nonneg; lia). nia. Qed.

Lemma same_bytes (l m : list Z) : length l = length m -> forallb (fun x => x) (zip_with (fun x y => x =? y) l m) = true <-> l = m.
Proof.
  revert m. induction l as [|x l IH]; intros [|y m] E; cbn in *; [done|done|done|]. rewrite andb_true_iff, Z.eqb_eq, (IH m) by lia. split; [by intros [-> ->]|by intros [= -> ->]].
Qed.

(** The subnet of the prefix: it is accepted, and has the addresses of the prefix. *)
Lemma NewSubnet_prefix a bits : 0 <= bits <= 32 -> NewSubnet (be_bytes 4 (masked a bits)) (cidr_mask 4 bits) = Ok (mkSubnet (be_bytes 4 (masked a bits)) (cidr_mask 4 bits)).
Proof.
  intros Hb. unfold NewSubnet. rewrite cidr_mask_bytes by done. rewrite !zlen_be_bytes. cbn [negb Z.eqb Z.of_nat]. unfold masked. set (M := u32 _). rewrite <- be_bytes_land.
  assert (E : existsb (fun x => negb (x =? 0)) (zip_with Z.ldiff (zip_with Z.land (be_bytes 4 a) (be_bytes 4 M)) (be_bytes 4 M)) = false); [|by rewrite E].
  rewrite !be4_eq. cbn [zip_with existsb]. assert (Z0 : forall x m, Z.ldiff (Z.land x m) m = 0) by (intros x m; apply Z.bits_inj'; intros n _; rewrite Z.ldiff_spec, Z.land_spec, Z.bits_0; by destruct (Z.testbit x n), (Z.testbit m n)). by rewrite !Z0.
Qed.

Lemma subnet_contains a w bits : 0 <= a < 2 ^ 32 -> 0 <= w < 2 ^ 32 -> 0 <= bits <= 32 ->
  sn_Contains (mkSubnet (be_bytes 4 (masked a bits)) (cidr_mask 4 bits)) (be_bytes 4 w) = true <-> w / 2 ^ (32 - bits) = a / 2 ^ (32 - bits).
Proof.
  intros Ha Hw Hb. unfold sn_Contains. cbn [sn_address sn_mask]. rewrite !zlen_be_bytes. rewrite Z.eqb_refl, andb_true_l. rewrite cidr_mask_bytes by done. rewrite be_bytes_land. fold (masked w bits). rewrite same_bytes by (by rewrite !length_be_bytes). rewrite <- masked_eq by done.
  split; [|by intros ->]. apply be4_inj; by apply masked_range.
Qed.

(** The route a packet to [w] takes: the first whose subnet has it. *)
Definition next_hop (routes : list Route) (w : Z) : option (option (list Z)) := rt_Gateway <$> List.find (fun r => sn_Contains (rt_Destination r) (be_bytes 4 w)) routes.

Definition gateway_bytes (g : Addr) : option (list Z) := match g with Addr4 g => Some (be_bytes 4 g) | _ => None end.

Lemma empty_contains w : sn_Contains IPv4EmptySubnet (be_bytes 4 w) = true.
Proof. unfold sn_Contains. rewrite be4_eq. cbn [sn_address sn_mask IPv4EmptySubnet zip_with]. by rewrite !Z.land_0_r. Qed.

Lemma configureTCP_ok cfg p : minBuffer <= c_SendBufferSize cfg <= maxBuffer -> minBuffer <= c_ReceiveBufferSize cfg <= maxBuffer ->
  configureTCP cfg p = Ok (mkProtocol TCPTimeWaitReuseGlobal (mkRange minBuffer (c_SendBufferSize cfg) maxBuffer) (mkRange minBuffer (c_ReceiveBufferSize cfg) maxBuffer)).
Proof.
  intros Hs Hr. unfold configureTCP, SetOption, set_timeWaitReuse, set_sendBufferSize, set_recvBufferSize. cbn [Z.ltb Z.gtb Z.compare orb TCPTimeWaitReuseGlobal TCPTimeWaitReuseDisabled TCPTimeWaitReuseLoopbackOnly]. rewrite !Z.max_l by lia.
  assert (B : forall v, minBuffer <= v <= maxBuffer -> bad_range (mkRange minBuffer v maxBuffer) = false) by (intros v Hv; unfold bad_range; cbn [br_Min br_Default br_Max]; rewrite Z.gtb_ltb, (proj2 (Z.ltb_ge v minBuffer)), (proj2 (Z.ltb_ge maxBuffer v)) by lia; done). by rewrite !B.
Qed.

Section up.
Context (order : gmap (list Z) neighbor -> list (list Z * neighbor)) (now : Z).
Context (Horder : forall m, order m ≡ₚ map_to_list m).

(** Pinning takes, as long as there is room. *)
Lemma pin_takes ip mac n : n_size n < maxNeighbors -> exists b n', n_pin order now ip mac n = (b, None, n') /\ n_m n' = <[ip := mkNeighbor mac true]> (n_m n).
Proof using Horder.
  intros Hs. unfold n_pin, n_write. cbv zeta. destruct (bool_decide _) eqn:E1; [apply bool_decide_eq_true in E1; exists false, n; split; [done|by rewrite insert_id]|].
  cbn [nb_pinned negb andb]. replace (match n_m n !! ip with Some h => nb_pinned h && false | None => false end) with false by (destruct (n_m n !! ip); by rewrite ?andb_false_r). unfold n_size in Hs. rewrite Z.geb_leb, (proj2 (Z.leb_gt _ _) Hs), andb_false_r. pose proof (copy_table_order order Horder false (n_m n)) as C. destruct (copy_table false (order (n_m n)) ∅ None) as [[e' m'] ev].
  destruct C as [(-> & -> & -> & _)|(? & _)]; [|done]. by eexists _, _.
Qed.

(** And when every entry of a full table is pinned it does not, and nobody is told. *)
Lemma pins_beyond_bound_lost ip mac e : maxNeighbors <= n_size (r_neigh e) -> (forall k v, n_m (r_neigh e) !! k = Some v -> nb_pinned v = true) -> n_m (r_neigh e) !! be_bytes 4 ip = None -> zlen mac = 6 ->
  st_AddNeighbor order now (Addr4 ip, mac) e = Ok (with_neigh (r_neigh e) [] e).
Proof using Horder.
  intros Hs Hp Hn Hm. unfold st_AddNeighbor. rewrite Hm, Z.eqb_refl. f_equal. unfold AddNeighbor, n_pin, n_write. cbv zeta. rewrite Hn. cbn [nb_pinned negb andb]. rewrite bool_decide_eq_false_2 by done. rewrite bool_decide_eq_false_2 by (intros [? ?]; done). unfold n_size in Hs. rewrite Z.geb_leb, (proj2 (Z.leb_le _ _) Hs). cbn [negb andb].
  pose proof (copy_table_order order Horder true (n_m (r_neigh e))) as C. destruct (copy_table true (order (n_m (r_neigh e))) ∅ None) as [[e' m'] ev]. destruct C as [(-> & -> & -> & _)|(_ & _ & k & v & Hk & Hv & _)]; [done|]. specialize (Hp k v Hk). congruence.
Qed.

Definition key (n : Addr * list Z) : list Z := match fst n with Addr4 v => be_bytes 4 v | _ => [] end.
Definition ip4 (n : Addr * list Z) : Prop := (exists v, fst n = Addr4 v) /\ zlen (snd n) = 6.

Lemma key_inj n n' : ip4 n -> ip4 n' -> addr_wf (fst n) -> addr_wf (fst n') -> key n = key n' -> fst n = fst n'.
Proof. intros [[v Hv] _] [[v' Hv'] _] Hw Hw'. unfold key, addr_wf in *. rewrite Hv, Hv' in *. intros E. f_equal. by apply be4_inj. Qed.

Lemma st_AddNeighbor_ok n e : ip4 n -> st_AddNeighbor order now n e = Ok (AddNeighbor order now (key n) (snd n) e).
Proof. intros [[v Hv] Hm]. destruct n as [a mac]. unfold key. cbn in *. subst a. cbn. by rewrite Hm. Qed.

Lemma add_neighbors_ok ns : Forall ip4 ns -> forall e, exists e', add_neighbors order now ns e = Ok e'.
Proof.
  induction 1 as [|n ns Hn _ IH]; intros e; cbn [add_neighbors]; [by eexists|]. rewrite st_AddNeighbor_ok by done. apply IH.
Qed.

Lemma add_neighbors_pins ns : Forall ip4 ns -> forall e e', n_size (r_neigh e) + zlen ns <= maxNeighbors -> add_neighbors order now ns e = Ok e' ->
  n_m (r_neigh e') = foldl (fun m n => <[key n := mkNeighbor (snd n) true]> m) (n_m (r_neigh e)) ns.
Proof using Horder.
  induction 1 as [|n ns Hn _ IH]; intros e e' Hs E; cbn [add_neighbors foldl] in *; [by injection E as <-|]. rewrite st_AddNeighbor_ok in E by done. rewrite zlen_cons in Hs. pose proof (zlen_nonneg ns). unfold AddNeighbor in E.
  destruct (pin_takes (key n) (snd n) (r_neigh e) ltac:(lia)) as (b & n' & En & Hn'). rewrite En in E. apply IH in E; [|cbn [with_neigh r_neigh]; unfold n_size in *; rewrite Hn'; destruct (n_m (r_neigh e) !! key n) eqn:El; [rewrite map_size_insert_Some by done; lia|rewrite map_size_insert_None by done; lia]].
  rewrite E. cbn [with_neigh r_neigh]. by rewrite Hn'.
Qed.

Lemma pins_stay ns k : (forall n, n ∈ ns -> key n <> k) -> forall m : gmap (list Z) neighbor, foldl (fun m n => <[key n := mkNeighbor (snd n) true]> m) m ns !! k = m !! k.
Proof. induction ns as [|n ns IH]; intros Hk m; cbn [foldl]; [done|]. rewrite IH by (intros; apply Hk; by right). rewrite lookup_insert_ne; [done|]. apply Hk. by left. Qed.

Lemma pins_in ns : Forall ip4 ns -> Forall (fun n => addr_wf (fst n)) ns -> NoDup ns.*1 -> forall (m : gmap (list Z) neighbor) n, n ∈ ns -> foldl (fun m n => <[key n := mkNeighbor (snd n) true]> m) m ns !! key n = Some (mkNeighbor (snd n) true).
Proof.
  induction ns as [|x ns IH]; intros H4 Hw ND m n Hin; [by apply elem_of_nil in Hin|]. apply Forall_cons in H4 as [Hx H4]. apply Forall_cons in Hw as [Wx Hw]. cbn in ND. apply NoDup_cons in ND as [Hnx ND]. cbn [foldl]. apply elem_of_cons in Hin as [->|Hin]; [|by apply IH].
  rewrite pins_stay; [apply lookup_insert_eq|]. intros y Hy E. rewrite Forall_forall in H4, Hw. apply Hnx. rewrite <- (key_inj y x) by auto. by apply list_elem_of_fmap_2.
Qed.
End up.

Definition up : answers := mkAnswers None None None.

Lemma release_claimed id (inUse : gset nat) : id ∉ inUse -> release id ({[id]} ∪ inUse) = inUse.
Proof. intros H. unfold release. set_solver. Qed.

Lemma newEndpoint_total dev cfg a : p_Addr (c_Addr cfg) = Addr4 a -> exists r, newEndpoint dev cfg = Some r /\
  match r with Ok e => (exists mtu, ep_cfg e = with_MTU mtu cfg) /\ r_neigh (ep_rx e) = newNeighbors | Err _ => True end.
Proof.
  intros Ha. unfold newEndpoint. destruct (_ || _); [by eexists|]. cbv zeta. set (cfg' := if c_MTU cfg =? 0 then _ else _). assert (E : exists mtu, cfg' = with_MTU mtu cfg) by (unfold cfg'; destruct (c_MTU cfg =? 0); [by eexists|exists (c_MTU cfg); by destruct cfg]).
  destruct E as [mtu ->]. destruct (_ >? _); [by eexists|]. destruct (_ <? _); [by eexists|]. cbn [with_MTU c_Addr]. rewrite Ha. eexists. split; [done|]. split; [by eexists|done].
Qed.

(** C13: New of a stack on a device.  It fails only for a configuration that is not
    acceptable, a device that has a stack already, an endpoint that cannot be
    built on it or a NIC gVisor refuses, and a failed New leaves the set of
    devices in use as it was.  When it succeeds the device was free and is now
    taken; a destination on the prefix is on-link and any other goes to the
    gateway, if there is one; the TCP buffers default to the configured sizes;
    and every configured neighbor is pinned, if there are at most [maxNeighbors]
    (4096) of them, which is all the table holds. *)
Theorem new_exact order now id dev cfg tcp0 an inUse : (forall m, order m ≡ₚ map_to_list m) -> cfg_wf cfg -> NoDup (c_Neighbors cfg).*1 -> Forall (fun n => addr_wf (fst n)) (c_Neighbors cfg) ->
  exists r inUse', st_New order now id dev cfg tcp0 an inUse = Some (r, inUse') /\
  match r with
  | Err _ => inUse' = inUse /\ ((forall a, ~ acceptable cfg a) \/ id ∈ inUse \/ (exists err, newEndpoint dev (filled cfg) = Some (Err err)) \/ an <> up)
  | Ok st => id ∉ inUse /\ inUse' = {[id]} ∪ inUse /\ an = up /\
      (exists a, acceptable cfg a /\ forall w, 0 <= w < 2 ^ 32 ->
        next_hop (st_routes st) w = Some (if decide (w / 2 ^ (32 - p_Bits (c_Addr cfg)) = a / 2 ^ (32 - p_Bits (c_Addr cfg))) then None else gateway_bytes (c_Gateway cfg))) /\
      st_tcp st = mkProtocol TCPTimeWaitReuseGlobal (mkRange minBuffer (c_SendBufferSize (filled cfg)) maxBuffer) (mkRange minBuffer (c_ReceiveBufferSize (filled cfg)) maxBuffer) /\
      (zlen (c_Neighbors cfg) <= maxNeighbors -> forall v mac, (Addr4 v, mac) ∈ c_Neighbors cfg -> is_pinned (be_bytes 4 v) mac (r_neigh (ep_rx (st_ep st))))
  end.
Proof.
  intros Horder Hw ND Hnw. unfold st_New. destruct (withDefaults_spec cfg Hw) as ([c|err] & -> & Hc); cbn [mbind option_bind]; [|eexists _, _; split; [done|]; split; [done|by left]]. destruct Hc as [[a A] ->].
  unfold claim. destruct (decide (id ∈ inUse)) as [Hin|Hfree]; [eexists _, _; split; [done|]; split; [done|by right; left]|]. destruct (filled_accepted cfg a A) as [A' _].
  destruct (newEndpoint_total dev (filled cfg) a (ac_addr _ _ A')) as ([ep|err] & E & He); rewrite E; cbn [mbind option_bind]; [|eexists _, _; split; [done|]; split; [by apply release_claimed|right; right; left; by eexists]]. destruct He as [[mtu Ecfg] En]. rewrite Ecfg.
  assert (Hbuf : minBuffer <= c_SendBufferSize (filled cfg) <= maxBuffer /\ minBuffer <= c_ReceiveBufferSize (filled cfg) <= maxBuffer) by (cbn; pose proof (ac_send _ _ A); pose proof (ac_receive _ _ A); unfold size_ok, minBuffer, maxBuffer, defaultBuffer in *; destruct (c_SendBufferSize cfg =? 0) eqn:?, (c_ReceiveBufferSize cfg =? 0) eqn:?; to_prop; lia).
  rewrite (configureTCP_ok (with_MTU mtu (filled cfg))) by tauto. destruct an as [nic address enable]. cbn [an_nic]. destruct nic as [err|]; [eexists _, _; split; [done|]; split; [by apply release_claimed|by right; right; right]|].
  unfold configureNIC. cbn [an_address]. destruct address as [err|]; [cbn [mbind option_bind]; eexists _, _; split; [done|]; split; [by apply release_claimed|by right; right; right]|].
  cbn [with_MTU c_Addr c_Neighbors c_Gateway filled with_sizes]. rewrite (ac_addr _ _ A). destruct Hw as (Ha & Hb & _). rewrite (ac_addr _ _ A) in Ha. cbn in Ha. pose proof (ac_bits _ _ A). rewrite NewSubnet_prefix by lia.
  destruct (add_neighbors_ok order now (c_Neighbors cfg) (ac_neighbors _ _ A) (learning (ep_rx ep))) as [rx Erx].
  assert (G : match c_Gateway cfg with AddrNone => Some None | Addr4 g => Some (Some (be_bytes 4 g)) | AddrOther => None end = Some (gateway_bytes (c_Gateway cfg))) by (destruct (ac_gateway _ _ A) as [->|(g & -> & _)]; done). rewrite G. cbn [mbind option_bind]. rewrite Erx. cbn [mbind option_bind an_enable].
  destruct enable as [err|]; [eexists _, _; split; [done|]; split; [by apply release_claimed|by right; right; right]|]. eexists _, _. split; [done|]. split; [done|]. split; [done|]. split; [done|]. split; [|split; [done|]].
  - exists a. split; [done|]. intros w Hww. unfold next_hop. cbn [st_routes List.find rt_Destination]. destruct (sn_Contains _ _) eqn:Es.
    + apply subnet_contains in Es; [|done|done|lia]. by rewrite decide_True.
    + rewrite empty_contains. rewrite decide_False; [done|]. intros Ed. apply (subnet_contains a w (p_Bits (c_Addr cfg))) in Ed; [congruence|done|done|lia].
  - intros Hsz v mac Hv. cbn [st_ep with_rx ep_rx]. unfold is_pinned. rewrite (add_neighbors_pins order now Horder (c_Neighbors cfg) (ac_neighbors _ _ A) (learning (ep_rx ep)) rx); [|cbn [learning r_neigh]; rewrite En; change (n_size newNeighbors) with 0; lia|done]. apply (pins_in (c_Neighbors cfg) (ac_neighbors _ _ A) Hnw ND _ (Addr4 v, mac) Hv).
Qed.

Definition exTcp : protocol := mkProtocol TCPTimeWaitReuseLoopbackOnly (mkRange 4096 1048576 4194304) (mkRange 4096 1048576 4194304).

Lemma new_exact_witness : exists st, st_New map_to_list 0 3 exDev exCfg exTcp up {[1%nat]} = Some (Ok st, {[3%nat]} ∪ {[1%nat]}) /\ next_hop (st_routes st) 0x0a000007 = Some None /\ next_hop (st_routes st) 0x08080808 = Some (Some [10; 0; 0; 1]) /\ is_pinned [10; 0; 0; 1] [2; 0; 0; 0; 0; 9] (r_neigh (ep_rx (st_ep st))).
Proof.
  destruct (new_exact map_to_list 0 3 exDev exCfg exTcp up {[1%nat]}) as (r & u & E & H).
  - intros m. reflexivity.
  - apply exCfg_wf.
  - cbn. apply NoDup_singleton.
  - apply List.Forall_cons; [vm_compute; split; congruence|apply List.Forall_nil].
  - destruct r as [st|err].
    + destruct H as (_ & -> & _ & (a & _ & Hr) & _ & Hp). exists st. split; [exact E|]. vm_compute in E. injection E as <-. split; [reflexivity|]. split; [reflexivity|]. apply (Hp ltac:(vm_compute; discriminate) 0x0a000001). apply list_elem_of_singleton. reflexivity.
    + exfalso. vm_compute in E. discriminate E.
Defined.
