(* ===== verification/NetClaims.v ===== *)
(** The theorems about the network adapter: from one stack's packet to the
    other's, for every frame a peer may send, and for the table and the counts
    kept on the way. *)

From stdpp Require Import prelude list numbers strings gmap.
From S2P Require Import Prelude Desc Bytes Csum GvChecksum NetHeader NetPacket NetGso NetGsoThms NetTx NetTxThms NetNeigh NetRx NetRxThms.

(** ** From one stack to another *)

(** The TCP payload of a packet, as its own headers say. *)
Definition tcp_data (pkt : PacketBuffer) : option (list Z) :=
  let b := drop (Z.to_nat (dataOffset pkt)) (flat (pk_buf pkt)) in
  h ← HeaderLength b;
  t ← TotalLength b;
  seg ← slice h t b;
  d ← DataOffset seg;
  slice d (zlen seg) seg.

(** A peer delivering one frame after the other. *)
Fixpoint deliver_all (place : list Z -> Z) (order : gmap (list Z) neighbor -> list (list Z * neighbor)) (now now' qi : Z) (fs : list (list Z)) (e : rxEndpoint) :
    option (list (option (bool * Z * PacketBuffer)) * rxEndpoint) :=
  match fs with
  | [] => Some ([], e)
  | f :: fs => '(r, e) ← deliver place order now now' qi f e; '(rs, e) ← deliver_all place order now now' qi fs e; Some (r :: rs, e)
  end.

Definition payload_of (r : option (bool * Z * PacketBuffer)) : option (list Z) := '(_, _, pkt) ← r; tcp_data pkt.

Lemma chunks_concat (data : list Z) m k : 0 < m -> 0 <= k -> zlen data <= k * m -> concat (map (chunk_of data m) (seqZ 0 k)) = data.
Proof.
  intros Hm Hk Hd. assert (G : forall n i, 0 <= i -> concat (map (chunk_of data m) (seqZ i (Z.of_nat n))) = take (Z.to_nat (Z.of_nat n * m)) (drop (Z.to_nat (i * m)) data)).
  { induction n as [|n IH]; intros i Hi; [done|]. rewrite seqZ_cons by lia. cbn [map concat]. replace (Z.pred (Z.of_nat (S n))) with (Z.of_nat n) by lia. rewrite IH by lia. unfold chunk_of.
    replace (Z.to_nat (Z.succ i * m)) with (Z.to_nat (i * m) + Z.to_nat m)%nat by lia. rewrite <- drop_drop. replace (Z.to_nat (Z.of_nat (S n) * m)) with (Z.to_nat m + Z.to_nat (Z.of_nat n * m))%nat by lia. by rewrite take_take_drop. }
  specialize (G (Z.to_nat k) 0 ltac:(lia)). rewrite Z2Nat.id in G by lia. rewrite G. change (Z.to_nat (0 * m)) with 0%nat. rewrite drop_0. apply take_ge. unfold zlen in Hd. lia.
Qed.

Lemma tcp_data_out qi l gro ip tcp src dst chunk q f link pkt : ipv4_ok ip -> tcp_ok tcp -> 0 <= q < 2 ^ 32 -> zlen ip + zlen tcp + zlen chunk < 2 ^ 16 -> zlen link = l ->
  received qi IPv4ProtocolNumber l gro (link ++ packet_of ip tcp src dst chunk q f) pkt -> tcp_data pkt = Some chunk.
Proof.
  intros Hip Htcp Hq Hlen Hl R. pose proof (i4_len _ Hip). pose proof (t_len _ Htcp). pose proof (zlen_nonneg chunk). pose proof (proj1 (wsum_range _ (bytes_ok_ip_fields 0 0 ip (i4_bytes _ Hip)))).
  unfold tcp_data. rewrite (rc_bytes _ _ _ _ _ _ R), (rc_data _ _ _ _ _ _ R), <- Hl. rewrite drop_app_length' by (unfold zlen; lia). unfold packet_of. set (t := zlen ip + zlen tcp + zlen chunk) in *. set (T := tcp_out src dst tcp q f chunk).
  destruct (ip_fields_read ip t (ip_ck ip t) (T ++ chunk) ltac:(lia) ltac:(unfold t in *; lia) ltac:(apply ones_ck; unfold t in *; lia)) as (R1 & R2 & _). fold (ip_out ip t) in R1, R2. cbv zeta. rewrite R1, (i4_ihl _ Hip). cbn [mbind option_bind]. rewrite R2. cbn [mbind option_bind].
  assert (LT : zlen T = zlen tcp) by (apply zlen_tcp_fields; lia). assert (Sg : slice (zlen ip) t (ip_out ip t ++ T ++ chunk) = Some (T ++ chunk)).
  { rewrite <- (zlen_ip_fields t (ip_ck ip t) ip) at 1 by lia. apply slice_post. unfold ip_out. rewrite zlen_app, zlen_ip_fields, LT by lia. unfold t. lia. }
  rewrite Sg. cbn [mbind option_bind]. destruct (tcp_fields_read tcp q f (tcp_ck src dst tcp q f chunk) chunk ltac:(lia) Hq) as (RO & _). fold (tcp_out src dst tcp q f chunk) in RO. fold T in RO. rewrite RO, (t_offset _ Htcp). cbn [mbind option_bind]. rewrite <- LT. apply slice_post. by rewrite zlen_app.
Qed.

(** What a packet needs to be taken whole: it is no fragment. *)
Definition whole (ip : list Z) : Prop := FragmentOffset ip = Some 0 /\ exists fl, IPFlags ip = Some fl /\ Z.land fl IPv4FlagMoreFragments = 0.

Lemma deliver_frame place order now now' qi e dst src sa da vlan ip tcp chunk q f : ipv4_ok ip -> tcp_ok tcp -> whole ip -> bytes_ok chunk -> byte_ok f -> 0 <= q < 2 ^ 32 -> zlen ip + zlen tcp + zlen chunk < 2 ^ 16 ->
  SourceAddress ip = Some sa -> DestinationAddress ip = Some da -> bytes_ok sa -> bytes_ok da -> zlen dst = 6 -> zlen src = 6 -> 0 <= vlan < 4096 -> r_VLAN e = vlan -> src <> r_mac e ->
  exists gro pkt e', deliver place order now now' qi (padded (eth dst src vlan etherTypeIPv4 ++ packet_of ip tcp sa da chunk q f)) e = Some (Some (gro, IPv4ProtocolNumber, pkt), e') /\
    tcp_data pkt = Some chunk /\ r_VLAN e' = r_VLAN e /\ r_mac e' = r_mac e.
Proof.
  intros Hip Htcp [Hfo (fl & Hfl & Hmf)] Hc Hf Hq Hlen Hsa Hda Bsa Bda Hd Hs Hv Hev Hne. pose proof (i4_len _ Hip). pose proof (t_len _ Htcp). pose proof (zlen_nonneg chunk). pose proof (linkHeaderLen_pos vlan) as Hlp. unfold vlanHdrLen in Hlp.
  set (h := eth dst src vlan etherTypeIPv4). set (P := packet_of ip tcp sa da chunk q f). set (pad := padding (zlen (h ++ P))). assert (Lh : zlen h = linkHeaderLen vlan) by (by apply zlen_eth). assert (LP : zlen P = zlen ip + zlen tcp + zlen chunk) by (apply zlen_packet_of; lia).
  assert (Ew : padded (h ++ P) = h ++ P ++ pad) by (unfold padded; by rewrite <- app_assoc). rewrite Ew. pose proof (zlen_nonneg pad). assert (Ep : parseFrame (h ++ P ++ pad) vlan = Some (linkHeaderLen vlan, etherTypeIPv4, true)) by (apply parseFrame_eth; (done || unfold etherTypeIPv4, etherTypeVLAN; lia)).
  unfold deliver. rewrite Hev, Ep. cbn [mbind option_bind negb].
  assert (Ls : linkHeaderLen vlan >= 14) by (unfold linkHeaderLen, etherHdrLen, vlanHdrLen; destruct (vlan =? 0); cbn; lia).
  assert (Ss : slice 6 12 (h ++ P ++ pad) = Some src). { unfold h, eth. rewrite <- !app_assoc, <- Hd. replace 12 with (zlen dst + zlen src) by lia. apply slice_app_mid. }
  rewrite Ss. cbn [mbind option_bind]. rewrite bool_decide_eq_false_2 by done. rewrite Z.eqb_refl. rewrite (proj2 (Z.ltb_ge _ _)) by (unfold ipv4MinHdrLen; rewrite !zlen_app; lia). rewrite <- Lh, (slice_post h (P ++ pad)) by (by rewrite !zlen_app). cbn [mbind option_bind].
  assert (EP : P ++ pad = ip_out ip (zlen ip + zlen tcp + zlen chunk) ++ (tcp_out sa da tcp q f chunk ++ chunk) ++ pad) by (unfold P, packet_of; by rewrite <- !app_assoc). pose proof (checksumsValid_out place ip tcp sa da q f chunk pad Hip Htcp Hc Hf Hq Hsa Hda Bsa Bda Hlen) as V. rewrite <- EP in V. rewrite V. cbn [mbind option_bind negb].
  pose proof (proj1 (wsum_range _ (bytes_ok_ip_fields 0 0 ip (i4_bytes _ Hip)))). set (t := zlen ip + zlen tcp + zlen chunk) in *.
  destruct (ip_fields_read ip t (ip_ck ip t) ((tcp_out sa da tcp q f chunk ++ chunk) ++ pad) ltac:(lia) ltac:(unfold t in *; lia) ltac:(apply ones_ck; unfold t in *; lia)) as (_ & R2 & _ & _ & _ & _ & R7 & R8). fold (ip_out ip t) in R2, R7, R8. rewrite <- EP in R2, R7, R8.
  rewrite R7, R8, Hfo, Hfl, R2. cbn [mbind option_bind]. rewrite Hmf. cbn [Z.eqb negb orb]. destruct (addressedToUs_total (h ++ P ++ pad) (zlen h) e ltac:(lia)) as [us ->]; [rewrite !zlen_app; lia|rewrite !zlen_app; lia|]. cbn [mbind option_bind].
  assert (Hlearn : exists n told, (if (us : bool) then e_learn order now now' (h ++ P ++ pad) (zlen h) e else Some e) = Some (with_neigh n told e)).
  { destruct us; [apply e_learn_keeps; rewrite ?zlen_app; lia|exists (r_neigh e), []; by rewrite with_neigh_same]. }
  destruct Hlearn as (n & told & ->). cbn [mbind option_bind]. destruct (hand_over_spec qi (h ++ P ++ pad) (zlen h) (zlen h + t) IPv4ProtocolNumber (with_neigh n told e)) as (pkt & Eh & Hr); [lia|rewrite !zlen_app; unfold t in *; lia|rewrite !zlen_app; lia|].
  rewrite Eh. do 3 eexists. split; [done|]. split; [|by destruct (negb _ && _)]. assert (Et : take (Z.to_nat (zlen h + t)) (h ++ P ++ pad) = h ++ P) by (rewrite app_assoc; apply take_app_length'; rewrite length_app; unfold zlen in *; lia). rewrite Et in Hr. exact (tcp_data_out qi (zlen h) _ ip tcp sa da chunk q f h pkt Hip Htcp Hq Hlen eq_refl Hr).
Qed.

(** A TCP packet larger than a segment, as the stack hands it down. *)
Record gso_packet (pk : PacketBuffer) (ip tcp data : list Z) : Prop := {
  gp_stacked : stacked pk ip tcp data;
  gp_proto : pk_NetworkProtocolNumber pk = IPv4ProtocolNumber;
  gp_ip : ipv4_ok ip;
  gp_tcp : tcp_ok tcp;
  gp_data : bytes_ok data;
  gp_whole : whole ip;
  gp_many : 1 < segments pk;
  gp_mss : 0 < g_MSS (pk_GSO pk);
  gp_small : zlen ip + zlen tcp + g_MSS (pk_GSO pk) < 2 ^ 16 }.

Lemma zlen_padded b : zlen (padded b) = Z.max minFrameLen (zlen b).
Proof. unfold padded, padding. rewrite zlen_app, zlen_replicate. lia. Qed.

Lemma deliver_frames place order now now' qi dst src sa da vlan ip tcp data m k q f : ipv4_ok ip -> tcp_ok tcp -> whole ip -> bytes_ok data -> 0 < m -> zlen ip + zlen tcp + m < 2 ^ 16 ->
  SourceAddress ip = Some sa -> DestinationAddress ip = Some da -> bytes_ok sa -> bytes_ok da -> zlen dst = 6 -> zlen src = 6 -> 0 <= vlan < 4096 -> forall ids e, r_VLAN e = vlan -> src <> r_mac e ->
  exists rs e', deliver_all place order now now' qi (map (frame_of (eth dst src vlan etherTypeIPv4) ip tcp data sa da m k q f) ids) e = Some (rs, e') /\ mapM payload_of rs = Some (map (chunk_of data m) ids).
Proof.
  intros Hip Htcp Hw Hd Hm Hlen Hsa Hda Bsa Bda Hdst Hsrc Hv. induction ids as [|i ids IH]; intros e Hev Hne; [by exists [], e|]. cbn [map deliver_all].
  assert (Lc : zlen (chunk_of data m i) <= m) by (unfold chunk_of; rewrite zlen_take; lia).
  destruct (deliver_frame place order now now' qi e dst src sa da vlan ip tcp (chunk_of data m i) (seq_of q m i) (flags_of f k i)) as (gro & pkt & e1 & E & T & V1 & M1); try done; [by apply Forall_take, Forall_drop|apply u8_range|apply u32_range|lia|].
  change (padded _) with (frame_of (eth dst src vlan etherTypeIPv4) ip tcp data sa da m k q f i) in E. rewrite E. cbn [mbind option_bind]. destruct (IH e1) as (rs & e2 & -> & Mp); [by rewrite V1|by rewrite M1|]. cbn [mbind option_bind]. exists (Some (gro, IPv4ProtocolNumber, pkt) :: rs), e2. split; [done|]. cbn [mapM payload_of mbind option_bind]. rewrite T. cbn [mbind option_bind]. by rewrite Mp.
Qed.

(** C8: What one stack hands its adapter as one packet of many segments, another
    stack's adapter delivers: AddHeader pushes the link header, the builder
    emits the segments into the queue's frames, and each frame, padding and
    all, passes the receiver's parse, checksum and fragment checks, wherever
    the packet's views were cut and whatever the frames held before.  The
    payloads, by the delivered packets' own headers, are the data, in order. *)
Theorem stack_to_stack place place' order now now' qi pk ip tcp data e e2 tx s0 fs :
  gso_packet pk ip tcp data -> endpoint_ok e -> pk_pushed pk + r_linkLen e <= pk_reserved pk -> r_VLAN e2 = r_VLAN e -> r_mac e2 <> r_mac e ->
  e_linkLen tx = r_linkLen e -> zlen (sg_tmpl s0) = maxHeaderTemplate -> zlen fs = segments pk ->
  Forall (fun f => minFrameLen <= zlen f /\ r_linkLen e + zlen ip + zlen tcp + g_MSS (pk_GSO pk) <= zlen f) fs ->
  exists pk' e' out st rs e2' chunks, AddHeader pk e = Some (pk', e') /\
    drive_with (build place) 0 fs (mkCopier [pk'] [segments pk'] 0 0 s0 false, tx) = Some (out, st) /\
    deliver_all place' order now now' qi (map (fun o => take (Z.to_nat (fst o)) (snd o)) out) e2 = Some (rs, e2') /\
    mapM payload_of rs = Some chunks /\ concat chunks = data /\ Forall (fun c => zlen c <= g_MSS (pk_GSO pk)) chunks /\ zlen rs = segments pk.
Proof.
  intros G He Hr Hv2 Hm2 Hlk Ht Hfs Hbig. destruct G as [Gs Gp Gi Gt Gd Gw Gm G0 Gl]. destruct (AddHeader_spec pk ip tcp data e Gs He Gp ltac:(apply (i4_len _ Gi)) Hr) as (pk' & e' & Ea & Og & GG & _). set (dst := next_hop pk ip e) in *.
  pose proof (next_hop_len pk ip e He) as Hh. fold dst in Hh. set (link := eth dst (r_mac e) (r_VLAN e) etherTypeIPv4) in *. assert (Ll : zlen link = r_linkLen e) by (unfold link; rewrite zlen_eth, (eo_link _ He); [done|done|apply He]).
  assert (Sg : segments pk' = segments pk). { unfold segments. rewrite GG, (outgoing_Data_Size _ _ _ _ _ Og). replace (Data_Size pk) with (zlen data); [done|]. destruct Gs as [K1 K2 K3 K4 K5 _ _ _]. unfold Data_Size, dataOffset, buffer_ok, headerOffset in *. assert (L := f_equal zlen K2). rewrite zlen_drop, !zlen_app in L. pose proof (zlen_nonneg data). pose proof (zlen_nonneg ip). pose proof (zlen_nonneg tcp). lia. }
  pose proof (i4_len _ Gi). pose proof (t_len _ Gt). destruct (SourceAddress_ok ip ltac:(lia) (i4_bytes _ Gi)) as (sa & da & Es & Ed & Bs & Bd). destruct (get_at_Some 13 tcp ltac:(lia)) as [f Ef]. assert (exists q, SequenceNumber tcp = Some q) as [q Eq] by (unfold SequenceNumber, get_be; rewrite slice_Some by lia; eauto).
  set (m := g_MSS (pk_GSO pk)) in *. set (k := segments pk) in *. pose proof (linkHeaderLen_pos (r_VLAN e)). assert (Wr : wire (e_linkLen tx) pk' (map (frame_of link ip tcp data sa da m k q f) (seqZ 0 k))).
  { apply wire_gso; try done; [by rewrite GG|lia|rewrite Hlk, (eo_link _ He); lia]. }
  destruct (segments_bound pk' m k Sg Gm ltac:(by rewrite GG) G0) as [_ SB]. rewrite (outgoing_Data_Size _ _ _ _ _ Og) in SB.
  destruct (drive_batch place [pk'] [map (frame_of link ip tcp data sa da m k q f) (seqZ 0 k)] fs 0 0 [pk'] [k] (mkCopier [pk'] [k] 0 0 s0 false) tx) as (out & c' & tx' & E & F & _); [by constructor|by split_and!|done|done|cbn; by rewrite Sg| | |].
  { cbn [concat]. rewrite app_nil_r, length_map, length_seqZ. unfold zlen in Hfs. lia. }
  { cbn [concat]. rewrite app_nil_r. intros w fr Hw Hf. apply list_elem_of_fmap in Hw as (i & -> & _). rewrite Forall_forall in Hbig. destruct (Hbig fr Hf) as [B1 B2]. split; [done|]. unfold frame_of. rewrite zlen_padded, zlen_app, zlen_packet_of by lia.
    assert (zlen (chunk_of data m i) <= m) by (unfold chunk_of; rewrite zlen_take; lia). lia. }
  cbn [concat] in F. rewrite app_nil_r in F. assert (Em : map (fun o => take (Z.to_nat (fst o)) (snd o)) out = map (frame_of link ip tcp data sa da m k q f) (seqZ 0 k)).
  { clear - F. induction F as [|o w out ws [H1 H2] _ IH]; [done|]. cbn [map]. rewrite IH, H1. f_equal. unfold zlen. by rewrite Nat2Z.id. }
  destruct (deliver_frames place' order now now' qi dst (r_mac e) sa da (r_VLAN e) ip tcp data m k q f Gi Gt Gw Gd G0 Gl Es Ed Bs Bd Hh (eo_mac _ He) (eo_vlan _ He) (seqZ 0 k) e2 Hv2 ltac:(congruence)) as (rs & e2' & Er & Mp).
  exists pk', e', out, (c', tx'), rs, e2', (map (chunk_of data m) (seqZ 0 k)). rewrite Em, Sg. split; [done|]. split; [done|]. split; [done|]. split; [done|]. split; [apply chunks_concat; lia|]. split.
  - apply Forall_forall. intros c Hc. apply list_elem_of_fmap in Hc as (i & -> & _). unfold chunk_of. rewrite zlen_take. lia.
  - apply mapM_Some_1, Forall2_length in Mp. unfold zlen. rewrite Mp, length_map, length_seqZ. lia.
Qed.

(** A packet of 25 bytes and an MSS of 10, its headers cut across views. *)
Definition ex_ip : list Z := [69; 0; 0; 65; 1; 2; 64; 0; 64; 6; 0; 0; 10; 0; 0; 1; 10; 0; 0; 2].
Definition ex_tcp : list Z := [4; 210; 0; 80; 255; 255; 255; 250; 0; 0; 0; 9; 80; 25; 1; 0; 0; 0; 0; 0].
Definition ex_data : list Z := seqZ 100 25.
Definition ex_hdrs : headerType -> headerInfo := fun t => match t with networkHeader => mkInfo (-40) 20 | transportHeader => mkInfo (-20) 20 | _ => mkInfo 0 0 end.
Definition ex_flat : list Z := replicate 20 0 ++ ex_ip ++ ex_tcp ++ ex_data.
Definition ex_packet : PacketBuffer :=
  mkPacket (mkBuffer [take 25 ex_flat; take 30 (drop 25 ex_flat); []; drop 55 ex_flat] 85) 60 40 0 ex_hdrs IPv4ProtocolNumber TCPProtocolNumber 7 [] (mkGSO GSOTCPv4 true 16 10 20 65536) 0 false.
Definition ex_sender : rxEndpoint := mkRx [2; 0; 0; 0; 0; 1] [10; 0; 0; 1] (10 * 2 ^ 24) 24 5 18 false true newNeighbors [] (fun _ => 0).
Definition ex_peer : rxEndpoint := mkRx [2; 0; 0; 0; 0; 2] [10; 0; 0; 2] (10 * 2 ^ 24) 24 5 18 false true newNeighbors [] (fun _ => 0).
Definition ex_tx : txEndpoint := mkTx 18 false false None 0 0 0 0 0.
Definition ex_segmenter : segmenter := mkSegmenter (replicate 138 0) 0 0 0 0 0 0 0 0 0 0 [] [] (mkCursor [] 0) 0.
Definition ex_order (m : gmap (list Z) neighbor) : list (list Z * neighbor) := map_to_list m.

Definition bytes_okb (b : list Z) : bool := forallb (fun x => (0 <=? x) && (x <? 256)) b.
Lemma bytes_okb_ok b : bytes_okb b = true -> bytes_ok b.
Proof. intros H. apply Forall_forall. intros x Hx. unfold bytes_okb in H. rewrite forallb_forall in H. apply list_elem_of_In in Hx. specialize (H x Hx). to_prop. unfold byte_ok. lia. Qed.

Lemma ex_ip_ok : ipv4_ok ex_ip.
Proof. split; [split; vm_compute; discriminate|by apply bytes_okb_ok|reflexivity..]. Qed.

Lemma ex_tcp_ok : tcp_ok ex_tcp.
Proof. split; [split; vm_compute; discriminate|by apply bytes_okb_ok|reflexivity]. Qed.

Lemma ex_gso : gso_packet ex_packet ex_ip ex_tcp ex_data.
Proof.
  split; [split; try reflexivity; split; vm_compute; discriminate|reflexivity|apply ex_ip_ok|apply ex_tcp_ok|by apply bytes_okb_ok|split; [reflexivity|by exists 2]|reflexivity|reflexivity|reflexivity].
Qed.

Lemma ex_sender_ok : endpoint_ok ex_sender.
Proof. split; [reflexivity|split; vm_compute; [discriminate|reflexivity]|reflexivity|]. intros a m H. unfold n_lookup, ex_sender in H. cbn in H. rewrite lookup_empty in H. discriminate. Qed.

Lemma stack_to_stack_witness : exists pk' e' out st rs e2' chunks, AddHeader ex_packet ex_sender = Some (pk', e') /\
    drive_with (build (fun _ => 3)) 0 (replicate 3 (replicate 100 255)) (mkCopier [pk'] [segments pk'] 0 0 ex_segmenter false, ex_tx) = Some (out, st) /\
    deliver_all (fun _ => 0) ex_order 0 0 1 (map (fun o => take (Z.to_nat (fst o)) (snd o)) out) ex_peer = Some (rs, e2') /\
    mapM payload_of rs = Some chunks /\ concat chunks = ex_data /\ Forall (fun c => zlen c <= 10) chunks /\ zlen rs = 3.
Proof.
  apply (stack_to_stack (fun _ => 3) (fun _ => 0) ex_order 0 0 1 ex_packet ex_ip ex_tcp ex_data ex_sender ex_peer ex_tx ex_segmenter (replicate 3 (replicate 100 255)) ex_gso ex_sender_ok); try reflexivity; [vm_compute; discriminate|discriminate|].
  repeat (apply Forall_cons; split; [split; vm_compute; discriminate|]). constructor.
Defined.

(** C9: Whatever bytes arrive, receiving them does not panic, and the frame is
    counted once: dropped for one reason, with nothing else touched, or handed
    over.  What is handed over as IPv4 carries the endpoint's VLAN tag, is not
    the endpoint's own, has both checksums right, is no fragment, and is
    exactly the packet, without the padding; the neighbor table changes only
    for a frame addressed to the stack. *)
Theorem deliver_exact place order now now' qi f e : bytes_ok f ->
  exists r e', deliver place order now now' qi f e = Some (r, e') /\
    match r with None => exists c, c ∈ drop_counters /\ e' = bump c e | Some (gro, proto, pkt) => handed place qi f e gro proto pkt e' end.
Proof. apply deliver_cases. Qed.

(** A frame for another VLAN, and one cut short inside its IPv4 header. *)
Lemma deliver_exact_witness : exists r e' r2 e2,
  deliver (fun _ => 0) ex_order 0 0 0 (eth (r_mac ex_peer) (r_mac ex_sender) 6 etherTypeIPv4 ++ ex_ip) ex_peer = Some (r, e') /\ r = None /\ r_count e' cWrongVLAN = 1 /\
  deliver (fun _ => 0) ex_order 0 0 0 (eth (r_mac ex_peer) (r_mac ex_sender) 5 etherTypeIPv4 ++ take 19 ex_ip) ex_peer = Some (r2, e2) /\ r2 = None /\ r_count e2 cRunt = 1.
Proof.
  destruct (deliver_exact (fun _ => 0) ex_order 0 0 0 (eth (r_mac ex_peer) (r_mac ex_sender) 6 etherTypeIPv4 ++ ex_ip) ex_peer) as (r & e' & E & _); [by apply bytes_okb_ok|].
  destruct (deliver_exact (fun _ => 0) ex_order 0 0 0 (eth (r_mac ex_peer) (r_mac ex_sender) 5 etherTypeIPv4 ++ take 19 ex_ip) ex_peer) as (r2 & e2 & E2 & _); [by apply bytes_okb_ok|].
  exists r, e', r2, e2. rewrite E, E2. vm_compute in E. vm_compute in E2. injection E as <- <-. injection E2 as <- <-. split_and!; reflexivity.
Defined.

(** ** The neighbor table *)

Inductive nop := Learn (now now' : Z) (ip mac : list Z) | Pin (now : Z) (ip mac : list Z).

Definition op_ip (op : nop) : list Z := match op with Learn _ _ ip _ | Pin _ ip _ => ip end.
Definition op_mac (op : nop) : list Z := match op with Learn _ _ _ mac | Pin _ _ mac => mac end.
Definition op_pins (op : nop) : bool := match op with Learn _ _ _ _ => false | Pin _ _ _ => true end.
Definition op_now (op : nop) : Z := match op with Learn _ now _ _ | Pin now _ _ => now end.

Definition n_do (order : gmap (list Z) neighbor -> list (list Z * neighbor)) (op : nop) (n : neighbors) : bool * option (list Z) * neighbors :=
  match op with Learn now now' ip mac => n_learn order now now' ip mac n | Pin now ip mac => n_pin order now ip mac n end.

Inductive nreach (order : gmap (list Z) neighbor -> list (list Z * neighbor)) : neighbors -> Prop :=
| nreach_new : nreach order newNeighbors
| nreach_op op n : nreach order n -> nreach order (snd (n_do order op n)).

(** An operation either leaves the table alone or is a write. *)
Lemma n_do_cases order op n : n_do order op n = (false, None, n) \/
  n_do order op n = n_write order (op_now op) (op_ip op) (mkNeighbor (op_mac op) (op_pins op)) n.
Proof. destruct op as [now now' ip mac|now ip mac]; [|by right]. cbn [n_do]. unfold n_learn. cbv zeta. case_if; [by left|]. case_if; [by left|]. by right. Qed.

Lemma n_size_new n n' ip nb ev : n_m n' !! ip = Some nb -> (forall k, k <> ip -> n_m n' !! k = n_m n !! k) -> ev = @None (list Z) -> n_size n' <= n_size n + (if decide (n_m n !! ip = None) then 1 else 0).
Proof.
  intros H1 H2 _. assert (n_m n' = <[ip := nb]> (n_m n)) as E by (apply map_eq; intros k; destruct (decide (k = ip)) as [->|]; [by rewrite lookup_insert_eq|rewrite lookup_insert_ne by done; auto]).
  unfold n_size. rewrite E. destruct (decide _) as [Hn|Hn]; [rewrite map_size_insert_None by done; lia|]. destruct (n_m n !! ip) eqn:E2; [|done]. rewrite map_size_insert_Some by (rewrite E2; eauto). lia.
Qed.

Lemma nreach_bounded order n : (forall m, order m ≡ₚ map_to_list m) -> nreach order n -> n_size n <= maxNeighbors.
Proof.
  intros Ho. induction 1 as [|op n _ IH]; [unfold n_size, maxNeighbors; cbn; rewrite map_size_empty; lia|]. destruct (n_do_cases order op n) as [-> | ->]; [done|].
  pose proof (n_write_spec order Ho (op_now op) (op_ip op) (mkNeighbor (op_mac op) (op_pins op)) n) as W. destruct (n_write _ _ _ _ n) as [[ch ev] n']. cbn [snd]. destruct W as [(_ & _ & ->)|(_ & _ & Hin & _ & _ & Hev)]; [done|].
  destruct ev as [x|]; [destruct Hev as (_ & _ & _ & _ & _ & ->); done|]. destruct Hev as [Hsame Hroom]. pose proof (n_size_new n n' _ _ None Hin Hsame eq_refl) as Hs. destruct (decide _) as [Hn|Hn]; [specialize (Hroom Hn); lia|lia].
Qed.

(** C10: However frames are heard and addresses pinned, the table stays within its
    bound; what an operation records can be looked up; everything else is as
    it was but for one unpinned entry evicted from a full table; a pinned
    entry is lost to nothing but another pin of the same address; and a
    learned write that replaces an entry or evicts one comes no sooner than
    the interval after the write before it. *)
Theorem neighbors_safe order n op : (forall m, order m ≡ₚ map_to_list m) -> nreach order n ->
  let '(changed, ev, n') := n_do order op n in
  n_size n <= maxNeighbors /\ n_size n' <= maxNeighbors /\
  (changed = false -> n' = n /\ ev = None) /\
  (changed = true -> n_lookup (op_ip op) n' = Some (op_mac op)) /\
  (forall k, k <> op_ip op -> ev <> Some k -> n_lookup k n' = n_lookup k n) /\
  (forall k mac, is_pinned k mac n -> is_pinned k mac n' \/ op_pins op = true /\ k = op_ip op) /\
  (changed = true -> op_pins op = false -> n_lookup (op_ip op) n <> None \/ ev <> None -> writeInterval <= op_now op - n_lastWrite n /\ n_lastWrite n' = op_now op).
Proof.
  intros Ho Hr. pose proof (nreach_bounded order n Ho Hr) as B. pose proof (nreach_bounded order _ Ho (nreach_op order op n Hr)) as B'. destruct (n_do_cases order op n) as [E|E]; rewrite E in *.
  - cbn [snd] in *. split_and!; try done; auto.
  - pose proof (n_write_spec order Ho (op_now op) (op_ip op) (mkNeighbor (op_mac op) (op_pins op)) n) as W. destruct (n_write _ _ _ _ n) as [[ch ev] n']. cbn [snd] in *. split; [done|]. split; [done|]. destruct W as [(-> & -> & ->)|(-> & Hw & Hin & Hp & Ht & Hev)].
    { split_and!; try done; auto. }
    split; [done|]. split; [intros _; unfold n_lookup; by rewrite Hin|]. assert (Hsame : forall k, k <> op_ip op -> ev <> Some k -> n_m n' !! k = n_m n !! k).
    { intros k Hk He. destruct ev as [x|]; [destruct Hev as (_ & _ & _ & _ & Hs & _); apply Hs; congruence|by apply Hev]. }
    split; [intros k Hk He; unfold n_lookup; by rewrite Hsame|]. split.
    + intros k mac Hk. destruct (decide (k = op_ip op)) as [->|Hne]; [right; split; [exact (Hp mac Hk)|done]|]. left. unfold is_pinned in *. rewrite Hsame; [done|done|]. intros ->. destruct Hev as (_ & _ & _ & (v & Hv & Hvp) & _). rewrite Hk in Hv. by injection Hv as <-.
    + intros _ Hnp Hor. split; [|done]. apply Ht; [done|]. destruct Hor as [Hl|He]; [left|by right]. unfold n_lookup in Hl. destruct (n_m n !! op_ip op); [eauto|done].
Qed.

Lemma neighbors_safe_witness : let n := snd (n_do ex_order (Pin 5 [10; 0; 0; 9] [2; 0; 0; 0; 0; 9]) newNeighbors) in
  nreach ex_order n /\ is_pinned [10; 0; 0; 9] [2; 0; 0; 0; 0; 9] n /\ is_pinned [10; 0; 0; 9] [2; 0; 0; 0; 0; 9] (snd (n_do ex_order (Learn 6 6 [10; 0; 0; 9] [2; 0; 0; 0; 0; 66]) n)).
Proof.
  pose proof (nreach_op ex_order (Pin 5 [10; 0; 0; 9] [2; 0; 0; 0; 0; 9]) newNeighbors (nreach_new ex_order)) as R. split; [exact R|]. split; [reflexivity|].
  pose proof (neighbors_safe ex_order _ (Learn 6 6 [10; 0; 0; 9] [2; 0; 0; 0; 0; 66]) (fun m => reflexivity (map_to_list m)) R) as S. destruct (n_do ex_order (Learn 6 6 _ _) _) as [[ch ev] n']. destruct S as (_ & _ & _ & _ & _ & S & _). cbn [snd].
  destruct (S [10; 0; 0; 9] [2; 0; 0; 0; 0; 9] eq_refl) as [H|[H _]]; [exact H|discriminate].
Defined.

(** ** What the transmit path reports *)

(** C21: Against any queue that keeps the contract of SendFunc, transmitting a
    batch returns.  A queue out of service says so and nothing happens; nor
    does anything but the completions when there is no room for the frames of
    the first packet.  Otherwise the queue takes, byte for byte, the first
    [cnt] of the frames the packets call for, the endpoint counts exactly those
    [cnt], and when the call succeeds it reports the packets any of whose
    frames are among them, no more and no less: the frames taken are within
    the packets reported, and the last of those has one among them. *)
Theorem transmit_counts place W Q (took : Q -> list (list Z) -> Q -> Prop) `{TxQueueTakes W Q took} (q : txQueue (Q := Q)) pkts wss e :
  Forall2 (wire (e_linkLen e)) pkts wss -> Forall (fun w => zlen w <= W) (concat wss) -> zlen (sg_tmpl (cp_s (t_builder q))) = maxHeaderTemplate ->
  exists r q' e', transmit place q pkts e = Some (r, q', e') /\ transmitted took q pkts wss e r q' e'.
Proof.
  intros HW Hw Ht. destruct (transmit_spec place W took q pkts wss e HW Hw Ht) as (r & q' & e' & E & _ & Hr). by exists r, q', e'.
Qed.

(** C22: WritePackets returns, once the clock is past the deadline or with no
    waiting asked for; every packet of the batch is accounted for once, as
    sent or as dropped; only the batch's own queue is driven; and the stack
    is told the link is closed only with a failure on record. *)
Theorem WritePackets_accounts place W Q `{TxQueueSpec W Q} fuel pkt rest late (txq : list (txQueue (Q := Q))) e :
  txq <> [] -> Forall (ready W e (pkt :: rest)) txq -> e_txClosed e = false -> e_DirectTx e = true \/ true ∈ late -> zlen (pkt :: rest) + zlen late + 1 < Z.of_nat fuel ->
  exists sent closed q' e', WritePackets place fuel (pkt :: rest) late txq e = Some (sent, closed, <[Z.to_nat (pk_Hash pkt mod zlen txq) := q']> txq, e') /\
    0 <= sent <= zlen (pkt :: rest) /\ e_txDropped e' = u64 (e_txDropped e + (zlen (pkt :: rest) - sent)) /\ (closed = true -> e_failed e' <> None).
Proof.
  intros Hne Hr Hc Hd Hf. assert (Hz : 0 < zlen txq) by (destruct txq as [|? l]; [done|]; rewrite zlen_cons; pose proof (zlen_nonneg l); lia). unfold WritePackets. rewrite (proj2 (Z.eqb_neq _ 0)) by lia.
  pose proof (Z.mod_pos_bound (pk_Hash pkt) (zlen txq) Hz) as Hm. destruct (get_at_Some (pk_Hash pkt mod zlen txq) txq Hm) as [q Hq]. rewrite Hq. cbn [mbind option_bind]. rewrite Hc. rewrite get_at_lookup in Hq by lia.
  assert (Hq' : ready W e (pkt :: rest) q) by exact (proj1 (Forall_lookup _ _) Hr _ _ Hq). pose proof (zlen_nonneg (pkt :: rest)).
  destruct (write_loop_spec place W fuel (pkt :: rest) 0 false late q e Hq' ltac:(lia) Hd ltac:(lia)) as (sent & cl & q' & e' & -> & R1 & R2 & R3). cbn [mbind option_bind]. exists sent, cl, q', e'. split; [done|]. split; [exact R1|]. split; [exact R2|exact R3].
Qed.

(** A queue that takes a few frames at a time and keeps what it sent. *)
Record Trickle := mkTrickle { tr_room : Z; tr_step : Z; tr_sent : list (Z * list Z) }.

#[global] Instance Trickle_queue : TxQueue Trickle := {|
  tq_Err _ := None;
  tq_NumCompleted _ := 0;
  tq_Complete _ q := q;
  tq_NumFreeSlots := tr_room;
  tq_NumFreeFrames := tr_room;
  tq_SendFunc St n b st q :=
    '(out, st) ← drive_with b 0 (replicate (Z.to_nat (Z.min n (tr_step q))) (replicate 100 0)) st;
    Some (zlen out, None, st, mkTrickle (tr_room q - zlen out) (tr_step q) (tr_sent q ++ out)) |}.

(** The frames it took are those it keeps. *)
Definition tr_took (q : Trickle) (fs : list (list Z)) (q' : Trickle) : Prop := map built_bytes (tr_sent q') = map built_bytes (tr_sent q) ++ fs.

#[global] Instance Trickle_takes : TxQueueTakes 100 Trickle tr_took.
Proof.
  constructor. intros St n b st q Hn. exists (replicate (Z.to_nat (Z.min n (tr_step q))) (replicate 100 0)). split; [rewrite zlen_replicate; lia|]. split; [apply Forall_replicate; split; vm_compute; discriminate|].
  cbn [tq_SendFunc Trickle_queue]. destruct (drive_with b 0 _ st) as [[out st']|] eqn:E; cbn [mbind option_bind]; [|done]. do 3 eexists. split; [done|]. split; [apply drive_with_len in E; unfold zlen; rewrite E; lia|].
  unfold tr_took. cbn [tr_sent]. rewrite map_app, take_ge by (unfold zlen; lia). done.
Qed.

#[global] Instance Trickle_spec : TxQueueSpec 100 Trickle.
Proof.
  constructor. intros St n b st q Hn. destruct (tq_takes St n b st q Hn) as (fs & H1 & H2 & H3). exists fs. split; [done|]. split; [done|].
  destruct (drive_with b 0 fs st) as [[out st']|]; [|done]. destruct H3 as (cnt & err & q' & ? & ? & _). by exists cnt, err, q'.
Qed.

(** Two packets as they are, of 70 and 20 bytes. *)
Definition ex_plain (n : nat) : PacketBuffer := mkPacket (mkBuffer [replicate n 7] (Z.of_nat n)) 0 0 0 (fun _ => mkInfo 0 0) ARPProtocolNumber 0 1 [] (mkGSO GSONone false 0 0 0 0) 0 false.
Definition ex_queue : txQueue (Q := Trickle) := mkTxQueue (mkTrickle 5 1 []) (mkCopier [] [] 0 0 ex_segmenter false).

Lemma ex_wires : Forall2 (wire 18) [ex_plain 70; ex_plain 20] [[padded (replicate 70 7)]; [padded (replicate 20 7)]].
Proof.
  assert (H : forall n, (n = 70 \/ n = 20)%nat -> wire 18 (ex_plain n) [padded (replicate n 7)]).
  { intros n [-> | ->]; [exact (wire_plain 18 (ex_plain 70) eq_refl eq_refl ltac:(split; vm_compute; discriminate))|exact (wire_plain 18 (ex_plain 20) eq_refl eq_refl ltac:(split; vm_compute; discriminate))]. }
  exact (List.Forall2_cons _ _ (H 70%nat (or_introl eq_refl)) (List.Forall2_cons _ _ (H 20%nat (or_intror eq_refl)) (List.Forall2_nil _))).
Qed.

Lemma ex_ready : ready 100 ex_tx [ex_plain 70; ex_plain 20] ex_queue.
Proof.
  split; [|reflexivity]. exists [[padded (replicate 70 7)]; [padded (replicate 20 7)]]. split; [exact ex_wires|]. repeat (apply Forall_cons; split; [vm_compute; discriminate|]). constructor.
Qed.

(** The queue takes one frame at a time: the first packet's. *)
Lemma transmit_counts_witness : exists q' e', transmit (fun _ => 0) ex_queue [ex_plain 70; ex_plain 20] ex_tx = Some (Ok 1, q', e') /\
  transmitted tr_took ex_queue [ex_plain 70; ex_plain 20] [[padded (replicate 70 7)]; [padded (replicate 20 7)]] ex_tx (Ok 1) q' e' /\
  map built_bytes (tr_sent (t_q q')) = [padded (replicate 70 7)] /\ e_tx e' = 1.
Proof.
  destruct (transmit_counts (fun _ => 0) 100 Trickle tr_took ex_queue [ex_plain 70; ex_plain 20] _ ex_tx ex_wires) as (r & q' & e' & E & Ht); [repeat (apply Forall_cons; split; [vm_compute; discriminate|]); constructor|reflexivity|].
  assert (Hr : r = Ok 1 /\ map built_bytes (tr_sent (t_q q')) = [padded (replicate 70 7)] /\ e_tx e' = 1) by (vm_compute in E; injection E as <- <- <-; vm_compute; repeat split; reflexivity).
  destruct Hr as (-> & H1 & H2). exists q', e'. split; [exact E|]. split; [exact Ht|]. split; [exact H1|exact H2].
Defined.

Lemma WritePackets_accounts_witness : exists sent closed q' e', WritePackets (fun _ => 0) 5 [ex_plain 70; ex_plain 20] [true] [ex_queue] ex_tx = Some (sent, closed, [q'], e') /\ sent = 2 /\ e_txDropped e' = 0 /\ e_tx e' = 2.
Proof.
  destruct (WritePackets_accounts (fun _ => 0) 100 Trickle 5 (ex_plain 70) [ex_plain 20] [true] [ex_queue] ex_tx) as (sent & cl & q' & e' & E & _); [discriminate|apply Forall_singleton; exact ex_ready|reflexivity|right; by left|reflexivity|].
  exists sent, cl, q', e'. split; [exact E|]. vm_compute in E. injection E as <- <- <- <-. split_and!; reflexivity.
Defined.

(** C20: The frames a batch becomes.  Asked for its frames in order, the builder
    fills each with exactly what the packets call for, whatever mix they are:
    a packet that fits copied as it is and padded, its TCP checksum finished
    when the stack left that to the adapter, a larger one as its segments in
    sequence; and it reports each frame's length. *)
Theorem batch_frames_exact place pks wss fs s0 e : Forall2 (wire (e_linkLen e)) pks wss -> zlen (sg_tmpl s0) = maxHeaderTemplate -> length fs = length (concat wss) ->
  (forall w f, w ∈ concat wss -> f ∈ fs -> big_enough (zlen w) f) ->
  exists out c e', drive_with (build place) 0 fs (mkCopier pks (map segments pks) 0 0 s0 false, e) = Some (out, (c, e')) /\ Forall2 holds out (concat wss).
Proof.
  intros HW Ht Hl Hb. destruct (drive_batch place pks wss fs 0 0 pks (map segments pks) (mkCopier pks (map segments pks) 0 0 s0 false) e HW) as (out & c & e' & E & F & _); [by split_and!|lia|by rewrite drop_0|by rewrite drop_0|done|done|]. exists out, c, e'. by split.
Qed.

(** A segment that needs its checksum finished, after one that goes as it is. *)
Definition ex_ip1 : list Z := Eval vm_compute in ip_out ex_ip 65.
Definition ex_flat1 : list Z := replicate 2 0 ++ replicate 18 9 ++ ex_ip1 ++ ex_tcp ++ ex_data.
Definition ex_hdrs1 : headerType -> headerInfo := fun t => match t with linkHeader => mkInfo (-58) 18 | networkHeader => mkInfo (-40) 20 | transportHeader => mkInfo (-20) 20 | _ => mkInfo 0 0 end.
Definition ex_tcp1 : PacketBuffer :=
  mkPacket (mkBuffer [take 61 ex_flat1; drop 61 ex_flat1] 85) 60 58 0 ex_hdrs1 IPv4ProtocolNumber TCPProtocolNumber 7 [] (mkGSO GSOTCPv4 true 16 1000 20 65536) 0 false.

Lemma ex_tcp1_wire : wire 18 ex_tcp1 [padded (replicate 18 9 ++ packet_of ex_ip1 ex_tcp [10; 0; 0; 1] [10; 0; 0; 2] ex_data 4294967290 25)].
Proof.
  assert (Hip : ipv4_ok ex_ip1) by (split; [split; vm_compute; discriminate|by apply bytes_okb_ok|reflexivity..]).
  refine (wire_tcp 18 ex_tcp1 (replicate 18 9) ex_ip1 ex_tcp ex_data 4294967290 25 [10; 0; 0; 1] [10; 0; 0; 2] eq_refl eq_refl _ eq_refl Hip ex_tcp_ok _ _ _ eq_refl eq_refl eq_refl eq_refl); [|by apply bytes_okb_ok|reflexivity|reflexivity].
  split; try reflexivity. split; vm_compute; discriminate.
Qed.

Lemma batch_frames_exact_witness : exists out c e', drive_with (build (fun _ => 1)) 0 [replicate 90 255; replicate 90 255] (mkCopier [ex_plain 20; ex_tcp1] [1; 1] 0 0 ex_segmenter false, ex_tx) = Some (out, (c, e')) /\
  Forall2 holds out [padded (replicate 20 7); padded (replicate 18 9 ++ packet_of ex_ip1 ex_tcp [10; 0; 0; 1] [10; 0; 0; 2] ex_data 4294967290 25)].
Proof.
  refine (batch_frames_exact (fun _ => 1) [ex_plain 20; ex_tcp1]
    [[padded (replicate 20 7)]; [padded (replicate 18 9 ++ packet_of ex_ip1 ex_tcp [10; 0; 0; 1] [10; 0; 0; 2] ex_data 4294967290 25)]] [replicate 90 255; replicate 90 255] ex_segmenter ex_tx _ eq_refl eq_refl _).
  - exact (List.Forall2_cons _ _ (wire_plain 18 (ex_plain 20) eq_refl eq_refl ltac:(split; vm_compute; discriminate)) (List.Forall2_cons _ _ ex_tcp1_wire (List.Forall2_nil _))).
  - intros w f Hw Hf. assert (f = replicate 90 255) as -> by (rewrite !elem_of_cons, elem_of_nil in Hf; naive_solver). cbn [concat app] in Hw. rewrite !elem_of_cons, elem_of_nil in Hw. destruct Hw as [-> |[-> |[]]]; split; vm_compute; discriminate.
Defined.

(** ** Checksums *)

(** C23: The checksum of a buffer is that of RFC 1071 over its bytes: the 16-bit
    number that is their sum in words modulo 65535, zero only when they all
    are.  Where the views lie in memory, how the bytes are cut into views, and
    which words, blocks and odd bytes the routine therefore adds, make no
    difference. *)
Theorem buffer_checksum_rfc1071 place off b : buffer_ok b -> bytes_ok (flat b) -> 0 <= off ->
  exists s, bu_Checksum place off b = Some s /\ 0 <= s <= 65535 /\ s mod 65535 = wsum (drop (Z.to_nat off) (flat b)) mod 65535 /\ (s = 0 <-> wsum (drop (Z.to_nat off) (flat b)) = 0).
Proof.
  intros Hb Hy Ho. exists (ones (wsum (drop (Z.to_nat off) (flat b)))). split; [by apply bu_Checksum_spec|]. apply ones_spec. apply wsum_range. by apply Forall_drop.
Qed.

(** 120 bytes in views of 33, 0, 7 and 80, two of them at odd addresses. *)
Lemma buffer_checksum_rfc1071_witness :
  let b := mkBuffer [seqZ 10 33; []; seqZ 100 7; seqZ 170 80] 120 in
  exists s, bu_Checksum (fun v => zlen v + 4) 5 b = Some s /\ s mod 65535 = wsum (drop 5 (flat b)) mod 65535 /\ s = 6039.
Proof.
  destruct (buffer_checksum_rfc1071 (fun v => zlen v + 4) 5 (mkBuffer [seqZ 10 33; []; seqZ 100 7; seqZ 170 80] 120) eq_refl ltac:(by apply bytes_okb_ok) ltac:(discriminate)) as (s & E & _ & M & _).
  exists s. split; [exact E|]. split; [exact M|]. vm_compute in E. by injection E as <-.
Defined.

(** ** Findings *)

(** An untagged endpoint takes a frame that carries a tag, when the tag's VLAN
    is zero. *)
Lemma priority_tag_accepted : parseFrame (replicate 6 1 ++ replicate 6 2 ++ [0x81; 0; 0xe0; 0; 8; 0]) 0 = Some (18, etherTypeIPv4, true).
Proof. reflexivity. Qed.

(** A frame too short for any header is counted as one of another VLAN. *)
Lemma short_frame_counted_as_vlan : exists e', deliver (fun _ => 0) ex_order 0 0 0 (replicate 13 1) ex_peer = Some (None, e') /\ r_count e' cWrongVLAN = 1 /\ r_count e' cRunt = 0.
Proof. eexists. split; [reflexivity|]. split; reflexivity. Qed.
